(* ===== verification/_CoqProject ===== *)
-Q . S2P
Prelude.v
PMemory.v
Pages.v
PMemoryBoot.v
HeapSpec.v
DList.v
Heap.v
HeapCorrect.v
HeapChain.v
HeapContract.v
CellHeap.v
RingBuffer.v
Block.v
Iterator.v
Array.v
ArraySort.v
LinkedList.v
HashSet.v
HashSetCorrect.v
CString.v
CStdlib.v
Stdio.v
StdioCorrect.v
LibcCopies.v
Helper.v
Screen.v
Tls.v
ATree.v
ATreeModel.v
ATreeCorrect.v
VMemory.v
VMemoryCorrect.v
VMemoryMap.v
VMemorySpace.v
VMemoryBoot.v
VMemoryContract.v
Dma.v
Scheduler.v
SchedulerCorrect.v
SchedulerDeath.v
Qdivrem.v
QdivremCorrect.v
FfsNode.v
FfsNodeCorrect.v
Vfs.v
VfsPath.v
VfsCorrect.v
VfsContract.v
VfsFile.v
VfsFileCorrect.v
Elf.v
ElfLink.v
Linkd.v
ElfReloc.v
LinkdCorrect.v
LinkdDigest.v
LinkdLoad.v
UserHeap.v
SystemTime.v
Mmap.v
MmapCorrect.v
IoLibrary.v
IoLibraryCorrect.v
IoRelease.v
Interrupts.v
IoModule.v
ThreadMemory.v
ThreadMemoryCorrect.v
Loader.v
ProcessMemory.v
ProcessCorrect.v
Syscall.v
SyscallCorrect.v
IoObject.v
IoArray.v
IoDictionary.v
IoDictionaryCorrect.v
IoObjectCorrect.v
IoEvents.v
IoDatabase.v
