(* ===== verification/Prelude.v ===== *)
(** * A verification of the Firedrake kernel

    Firedrake is a small x86 kernel in C, with a C library and a dynamic linker
    for its programs and an object library in C++ for its drivers.  This library
    is a shallow embedding of the code in Rocq, with the theorems that make it
    correct.  File names below are those under src/.

    ** The program's parts and how they interact

    The boot loader's memory map fills a bitmap of physical pages
    (sys/memory/pmemory.c).  Virtual memory (sys/memory/vmemory.c) takes pages
    from it for page tables and maps them into address spaces; [mm_alloc] and
    [mm_free] (sys/memory/memory.h) combine both, and the kernel heap
    (sys/memory/heap.c) cuts the pages they give into allocations.  DMA regions
    (sys/memory/dma.c) are described on the heap and use both memory layers.
    The containers (sys/container/) keep their nodes on the heap; strings,
    number conversion, formatted output and 64-bit division (sys/libc/) work on
    plain bytes and words.  The system log (sys/kerneld/syslogd.c) queues messages
    in a ring buffer and draws them on the screen (sys/system/video.c).

    Interrupts go through a table of handlers (sys/interrupts/).  The scheduler
    (sys/scheduler/) passes the processor along the threads of the processes, on
    the timer's interrupt or for a system call; thread.c and process.c build the
    stacks and address spaces of new threads and processes, the program loader
    (sys/loader/) fills them.  A system call (sys/syscall/) finds its handler in
    a table; among the handlers are those that map memory for a program and those
    of the virtual file system (sys/vfs/), which resolves paths in a tree of
    nodes on the heap, keeps the contents of files in pages and hands out the
    file descriptors of a process.

    A program starts in the dynamic linker (bin/linkd), which loads, relocates
    and binds its libraries, and has a heap of its own (lib/libc) on top of the
    mapped memory.  Drivers are libraries loaded into the kernel (sys/ioglue) and
    linked against the symbols it exports; they are written against the classes
    of libkernel/libio: counted objects, arrays, dictionaries, a database of
    services, and run loops that handle interrupts, timers and commands from
    other threads.

    ** Which file models what

    - Prelude: results of C code, machine integers, tactics.
    - Pages: the page macros of vmemory.h.
    - PMemory, PMemoryBoot: pmemory.c.  The bitmap is a list of 32-bit words;
      [pm_init] reads the boot information as records.
    - HeapSpec: the interfaces [PageSource] (what the heap needs) and
      [KernelHeap] (what it promises).  CellHeap is an instance simple enough
      to run.
    - DList, Heap, HeapCorrect, HeapChain, HeapContract: heap.c.  A heap is a
      chain of zones with records of free, used and unused pieces.
    - VMemory: vmemory.c and memory.h.  Page tables lie in a physical memory of
      words that the code reaches through the processor's walk.
      VMemoryCorrect, VMemoryMap, VMemorySpace, VMemoryBoot and VMemoryContract
      hold the invariant, mapping, the search, the boot and the contract.
    - Dma: dma.c.
    - RingBuffer, Array, ArraySort, LinkedList, HashSet, HashSetCorrect, ATree,
      ATreeModel, ATreeCorrect, Iterator: the containers of the same names under
      sys/container/; Block is the memory of a buffer.
    - CString, CStdlib, Stdio, StdioCorrect: string.c, stdlib.c and stdio.c.
      LibcCopies: the copies of them that programs and drivers have.
    - Helper: sys/system/helper.c.  Screen: video.c and syslogd.c, with the
      screen's memory as the list of its bytes.  Tls: lib/libc/sys/tls.c.
    - Qdivrem, QdivremCorrect: sys/libc/bsd/.  The digits of a
      number are an array whose accesses are checked.
    - Scheduler, SchedulerCorrect, SchedulerDeath: scheduler.c, of thread.c and
      process.c what changes only threads and processes, and the system calls
      of scthread.c and scprocess.c on them.  ThreadMemory, ThreadMemoryCorrect,
      ProcessMemory and ProcessCorrect: the rest of thread.c and process.c, and
      the making and removing of file contexts; Loader: loader.c.
    - Interrupts: interrupts.c and the interrupts of iostubs.c, with the arrays
      of handlers as Array has them.  SystemTime: time.c.
    - Syscall, SyscallCorrect: syscall.c, scvfs.c and the copies of context.c
      between programs and the kernel.  Mmap, MmapCorrect: scmmap.c.
    - FfsNode, FfsNodeCorrect: ffs_node.c, the contents of files, and the copies
      of context.c over a caller's memory by bytes.
    - Vfs, VfsPath, VfsFile: node.c, path.c, ffs_callbacks.c and vfs.c.
      VfsCorrect has the tree's invariant and path resolution, VfsContract the
      making of directories, VfsFileCorrect writing and reading.
    - Elf: the structures of an ELF image in byte memory.  ElfLink: the walks
      over an image that bin/linkd, sys/ioglue and the loader share; ElfReloc:
      what they compute.
    - Linkd, LinkdCorrect, LinkdDigest, LinkdLoad: bin/linkd.
    - UserHeap: zone.c and malloc.c of lib/libc.
    - IoLibrary, IoLibraryCorrect, IoRelease: iolibrary.c and iostore.c of
      sys/ioglue.  IoModule: iomodule.c and the daemon that stops modules.
    - IoObject, IoObjectCorrect, IoArray, IoDictionary, IoDictionaryCorrect:
      the classes of libkernel/libio that hold data.  IoDatabase: IODatabase.cpp.
      IoEvents: the event sources, the remote commands and the run loop, whose
      interleavings are step relations.

    ** How code is modelled

    A function of the source is a definition of the same name, loops are
    recursive helpers.  State is passed explicitly: a record per component and
    a [gmap] from addresses to nodes for what lies on the heap.  A call gives an
    [outcome]: a value, a panic, a fault (memory outside a live object) or no
    return at all.  Integers are [Z] with the wrap-around written out.  What one
    component needs of another is a class: [PageSource], [KernelHeap], [IoSys],
    [LinkdSys], [UserPages], [UserSpaces], [ProgramImages], [FileCalls].

    ** What the theorems show

    - Memory: the page allocator takes the first fit, its free is its inverse
      and owned ranges stay disjoint; the boot reserves the kernel, the modules
      and the tables of the boot information; the heap refines a ledger of live
      allocations, never faults, and leaks nothing; [vm_init] builds a
      well-formed address space where the frames of its tables held zeros beyond
      what it writes, and search, allocation, release and resolution in the
      kernel directory agree with the walk.
    - Containers: each operation refines the one on a list, queue or finite map,
      iterators enumerate, and destruction frees exactly what was allocated.
      These are proved against [KernelHeap], which HeapContract discharges for
      heap.c.
    - C library: comparison, copying and search in strings, printing and reading
      numbers, formatting into a bounded buffer, and 64-bit division as C
      defines it; the copies print what the kernel's prints where they read the
      same directives; thread-local storage is a map.
    - Screen and log: strings are drawn token by token without an access outside
      the screen, and what is logged appears in order and in its colours; C++
      names are demangled into their parts.
    - Scheduler: while nobody has died, a switch goes to a thread that may run
      and keeps the lists, and every such thread runs within a bounded number of
      ticks; a new thread
      starts at its entry with its arguments, and a thread that exits is taken
      out and handed to the collector.
    - System calls and interrupts: a handler sees the words its caller pushed
      and the caller its result, and the page mapped for the call is given back;
      a handler that was registered exclusively is the only one for its
      interrupt and is dispatched.
    - File system: what is written through a descriptor is read back through it
      into the caller's memory, for buffers that the copies into and out of a
      program's address space handle; [vfs_mkdir] keeps every path that led
      somewhere and the tree well-formed, up to the lock of the new directory
      and the mistakes its theorem spells out.
    - Linking: the dynamic section is read as the last entries say, segments are
      loaded where they belong if their memory lies where the image is mapped,
      relocation computes what the ELF supplement says but for the addend of
      R_386_GLOB_DAT, binding on the first call ends where binding at once does,
      and a library's blocks, frames and mappings go with its last reference.
    - Driver classes: arrays and dictionaries are lists and maps that retain what
      they hold, interrupts are counted exactly, a first remote command runs
      exactly once and its caller gets its result, and the best service is the
      first with the highest score.
    - Where the code does not do what it means to, a lemma or a side condition
      of a theorem says so.

    ** Bounds and fuel

    Recursion that is not structural takes fuel and gives [Hang] without it.
    Searches over the page map and the directory have as much as there are
    words (32768) and slots (1024), walks along chains, trees and libraries as
    much as there are nodes, the release of an object as much as there are
    objects, a table's chains as much as there are buckets, paths as much as they
    have bytes, strings and sections of an image as much as there is memory, and
    the loops of the division as much as there are digits and bits; the number of
    libraries a symbol is looked for in is an argument.  The theorems conclude
    [Ok], so the fuel is enough.  Only loops that do not end
    in the source run out: a list of drives with an entry of size 0, the loop of
    [dma_request], the access through a link to itself, libraries or objects
    that refer to each other in a circle.

    ** Not modelled

    Spinlocks of single-step operations, the clearing of memory that a heap's
    flag asks for, translation caches, assembly, device
    registers and port I/O: there is nothing to compute with; with them go the
    keyboard, the interrupt controller and the drivers for PCI and the network
    card, which do little else.  [atof] is floating point.
    The registry of file systems is not modelled, nor are the daemons' endless
    loops and the order they start in, the symbols of a backtrace, the reading
    of the list of modules to load, the unit tests and their framework,
    descriptions of objects as text, and the classes for modules, providers and
    services, which forward to the kernel. *)

From Stdlib Require Export ZArith Lia Bool ZifyBool.
From stdpp Require Export base list gmap sets numbers option.
Export list_basics.list list_relations.list list_monad.list list_misc.list list_numbers.list.

#[global] Open Scope Z_scope.
#[export] Set Warnings "-clear-no-such-hyp".

(** ** Results of C code

    A call returns a value, stops the machine through [panic] (which a failed
    [assert] calls too), touches memory outside a live object or reads an
    uninitialised cell ([Fault]), or never comes back because it spins on a
    lock nobody releases or loops for ever ([Hang]). *)

Inductive outcome (A : Type) : Type :=
| Ok (a : A)
| Panic
| Fault
| Hang.
Arguments Ok {A} a.
Arguments Panic {A}.
Arguments Fault {A}.
Arguments Hang {A}.

Definition obind {A B : Type} (m : outcome A) (k : A -> outcome B) : outcome B :=
  match m with
  | Ok a => k a
  | Panic => Panic
  | Fault => Fault
  | Hang => Hang
  end.

Declare Scope c_scope.
Delimit Scope c_scope with c.
#[global] Open Scope c_scope.

Notation "'let*' p := m 'in' k" := (obind m (fun p => k))
  (at level 10, p strict pattern, m at level 200, k at level 200,
   format "'[v' 'let*'  p  :=  m  'in' '/' k ']'") : c_scope.

Definition of_option {A : Type} (o : option A) : outcome A :=
  match o with Some a => Ok a | None => Fault end.

Lemma obind_Ok {A B : Type} (m : outcome A) (k : A -> outcome B) (b : B) :
  obind m k = Ok b <-> exists a, m = Ok a /\ k a = Ok b.
Proof.
  destruct m; cbn; split; try discriminate; try (intros (? & ? & ?); discriminate).
  - eauto.
  - intros (x & Hx & Hk). by inversion Hx; subst.
Qed.

(** ** Machine integers

    A w-bit unsigned value is a [Z] in [0, 2^w); every operation that can leave
    the range is followed by the wrap-around. *)

Definition u8 (z : Z) : Z := z mod 2 ^ 8.
Definition u16 (z : Z) : Z := z mod 2 ^ 16.
Definition u32 (z : Z) : Z := z mod 2 ^ 32.
Definition u64 (z : Z) : Z := z mod 2 ^ 64.

(** Two's complement reading of the low 32 bits, as a C [int]. *)
Definition s32 (z : Z) : Z := (z + 2 ^ 31) mod 2 ^ 32 - 2 ^ 31.
Definition s64 (z : Z) : Z := (z + 2 ^ 63) mod 2 ^ 64 - 2 ^ 63.

Definition UINT8_MAX : Z := 255.
Definition UINT16_MAX : Z := 65535.
Definition UINT32_MAX : Z := 4294967295.
Definition NULL : Z := 0.

Definition is_u32 (z : Z) : Prop := 0 <= z < 2 ^ 32.
Definition is_u8 (z : Z) : Prop := 0 <= z < 2 ^ 8.

Lemma u8_small z : 0 <= z < 256 -> u8 z = z.
Proof. intros. unfold u8. apply Z.mod_small. lia. Qed.

Lemma u16_small z : 0 <= z < 65536 -> u16 z = z.
Proof. intros. unfold u16. apply Z.mod_small. lia. Qed.

Lemma u32_small z : 0 <= z < 2 ^ 32 -> u32 z = z.
Proof. intros. unfold u32. by apply Z.mod_small. Qed.

Lemma s32_small z : - 2 ^ 31 <= z < 2 ^ 31 -> s32 z = z.
Proof. intros. unfold s32. rewrite Z.mod_small; lia. Qed.

(** The bits do not change when an integer is made signed. *)
Lemma u32_s32 x : u32 (s32 x) = u32 x.
Proof.
  unfold s32, u32. pose proof (Z.div_mod (x + 2 ^ 31) (2 ^ 32) ltac:(lia)).
  replace ((x + 2 ^ 31) mod 2 ^ 32 - 2 ^ 31) with (x + (- ((x + 2 ^ 31) / 2 ^ 32)) * 2 ^ 32) by lia.
  by apply Z.mod_add.
Qed.

Lemma u32_range z : 0 <= u32 z < 2 ^ 32.
Proof. unfold u32. apply Z.mod_pos_bound. lia. Qed.

Lemma u8_range z : 0 <= u8 z < 256.
Proof. unfold u8. apply Z.mod_pos_bound. lia. Qed.

Lemma high_bits b k i : 0 <= b < 2 ^ k -> 0 <= k <= i -> Z.testbit b i = false.
Proof. intros Hb Hi. rewrite <- (Z.mod_small b (2 ^ k)) by done. apply Z.mod_pow2_bits_high. lia. Qed.

Lemma lor_disjoint a b k : 0 <= k -> 0 <= b < 2 ^ k -> Z.lor (a * 2 ^ k) b = a * 2 ^ k + b.
Proof.
  intros Hk Hb. rewrite <- Z.shiftl_mul_pow2 by done. rewrite Z.add_nocarry_lxor.
  - apply Z.bits_inj'. intros i Hi. rewrite Z.lor_spec, Z.lxor_spec. destruct (decide (i < k)).
    + rewrite Z.shiftl_spec_low by lia. by destruct (Z.testbit b i).
    + rewrite (high_bits b k i) by lia. by destruct (Z.testbit _ i).
  - apply Z.bits_inj'. intros i Hi. rewrite Z.land_spec, Z.bits_0.
    destruct (decide (i < k)); [by rewrite Z.shiftl_spec_low by lia |].
    by rewrite (high_bits b k i), andb_false_r by lia.
Qed.

(** [u32_simpl] drops every wrap-around whose argument is provably in range. *)
Ltac u32_simpl :=
  repeat match goal with
    | |- context [u32 ?z] => rewrite (u32_small z) by lia
    | H : context [u32 ?z] |- _ => rewrite (u32_small z) in H by lia
    end.

(** Splits the boolean comparisons of a conditional into linear facts. *)
Ltac zcases :=
  repeat match goal with
    | |- context [if (?a =? ?b)%Z then _ else _] => destruct (Z.eqb_spec a b)
    | |- context [if (?a <? ?b)%Z then _ else _] => destruct (Z.ltb_spec a b)
    | |- context [if (?a <=? ?b)%Z then _ else _] => destruct (Z.leb_spec a b)
    | H : context [if (?a =? ?b)%Z then _ else _] |- _ => destruct (Z.eqb_spec a b)
    | H : context [if (?a <? ?b)%Z then _ else _] |- _ => destruct (Z.ltb_spec a b)
    | H : context [if (?a <=? ?b)%Z then _ else _] |- _ => destruct (Z.leb_spec a b)
    end.

