(* ===== verification/PMemory.v ===== *)
(** * The physical page allocator (sys/memory/pmemory.c)

    The allocator keeps one bit per 4 KiB page of the 32-bit physical address
    space in the array [__pm_heap]; a set bit is a free page.  This file
    translates the bit operations, the first-fit search, [pm_alloc],
    [pm_allocLimit], [pm_free] and the boot-time initialisation, gives the
    abstract view (the set of free page numbers) and shows what the operations
    do to it. *)

From S2P Require Import Prelude.

Definition PM_HEAPSIZE : Z := 32768.
Definition PM_PAGE_SIZE : Z := 4096.

(** [static uint32_t __pm_heap[PM_HEAPSIZE]]: the words in index order. *)
Abbreviation bitmap := (list Z).

Definition word_at (h : bitmap) (i : Z) : Z := nth (Z.to_nat i) h 0.
Definition set_word (h : bitmap) (i w : Z) : bitmap := <[Z.to_nat i := w]> h.

Definition __pm_markUsed (h : bitmap) (page : Z) : bitmap :=
  let index := page / PM_PAGE_SIZE in
  set_word h (index / 32)
    (Z.land (word_at h (index / 32)) (Z.lnot (Z.shiftl 1 (Z.land index 31)))).

Definition __pm_markFree (h : bitmap) (page : Z) : bitmap :=
  let index := page / PM_PAGE_SIZE in
  set_word h (index / 32)
    (Z.lor (word_at h (index / 32)) (Z.shiftl 1 (Z.land index 31))).

(** ** The search for a run of free pages *)

(** How a scan of (part of) the bitmap ends: the function returned an address,
    or the loop goes on with its two counters. *)
Inductive scan :=
| Return (page : Z)
| Continue (found page : Z).

(** The inner loop, over the bits [j .. j + n - 1] of word [i]. *)
Fixpoint pm_scanBits (n : nat) (j w i found page pages : Z) : scan :=
  match n with
  | O => Continue found page
  | S n' =>
      if negb (Z.land w (Z.shiftl 1 j) =? 0) then
        let page' := if found =? 0 then (i * 32 + j) * PM_PAGE_SIZE else page in
        let found' := found + 1 in
        if pages <? found' then Return page'
        else pm_scanBits n' (j + 1) w i found' page' pages
      else pm_scanBits n' (j + 1) w i 0 page pages
  end.

(** The outer loop: [ws] are the words from index [i] to the end of the map. *)
Fixpoint pm_scanWords (ws : list Z) (i found page pages : Z) : Z :=
  match ws with
  | [] => 0
  | w :: ws' =>
      if w =? 0 then pm_scanWords ws' (i + 1) 0 page pages
      else
        let r :=
          if w =? 0xFFFFFFFF then
            Continue (found + 32) (if found =? 0 then i * 32 * PM_PAGE_SIZE else page)
          else pm_scanBits 32 0 w i found page pages in
        match r with
        | Return p => p
        | Continue found' page' =>
            if pages <? found' then page'
            else pm_scanWords ws' (i + 1) found' page' pages
        end
  end.

Definition __pm_findFreePages (h : bitmap) (lowerLimit pages : Z) : Z :=
  let i := lowerLimit / PM_PAGE_SIZE / 32 in
  pm_scanWords (drop (Z.to_nat i) h) i 0 0 pages.

(** ** Allocation and release *)

Fixpoint pm_markUsedRange (h : bitmap) (page : Z) (pages : nat) : bitmap :=
  match pages with
  | O => h
  | S n => pm_markUsedRange (__pm_markUsed h page) (u32 (page + PM_PAGE_SIZE)) n
  end.

Fixpoint pm_markFreeRange (h : bitmap) (page : Z) (pages : nat) : bitmap :=
  match pages with
  | O => h
  | S n => pm_markFreeRange (__pm_markFree h page) (u32 (page + PM_PAGE_SIZE)) n
  end.

Definition pm_allocLimit (h : bitmap) (lowerLimit pages : Z) : Z * bitmap :=
  let page := __pm_findFreePages h lowerLimit pages in
  if page =? 0 then (page, h)
  else (page, pm_markUsedRange h page (Z.to_nat pages)).

Definition pm_alloc (h : bitmap) (pages : Z) : Z * bitmap :=
  let page := __pm_findFreePages h 0 pages in
  if page =? 0 then (page, h)
  else (page, pm_markUsedRange h page (Z.to_nat pages)).

Definition pm_free (h : bitmap) (page pages : Z) : bitmap :=
  pm_markFreeRange h page (Z.to_nat pages).

(** ** The abstract view: which page numbers are free *)

Definition page_free (h : bitmap) (k : Z) : bool := Z.testbit (word_at h (k / 32)) (k mod 32).

(** Every word of the map is a [uint32_t] and there are [PM_HEAPSIZE] of them. *)
Definition bitmap_wf (h : bitmap) : Prop :=
  Z.of_nat (length h) = PM_HEAPSIZE /\ Forall is_u32 h.

Definition run (free : Z -> bool) (k n : Z) : Prop := forall d, 0 <= d < n -> free (k + d) = true.

(** [k] is the first page at or above [lo] that starts [n] free pages. *)
Definition first_run (free : Z -> bool) (lo k n : Z) : Prop :=
  lo <= k /\ run free k n /\ forall k', lo <= k' < k -> ~ run free k' n.

(** ** The search invariant *)

Section Search.
Context (free : Z -> bool) (lo pages : Z) (Hpages : 0 <= pages).

(** What the counters [found] and [page] mean when the scan has reached page
    [pos]: the last [found] pages are free and start at [page], the run cannot
    be extended to the left, and nothing long enough has gone by. *)
Definition scan_inv (pos found page : Z) : Prop :=
  0 <= found <= pages /\ found <= pos - lo /\
  run free (pos - found) found /\
  (0 < found -> page = (pos - found) * PM_PAGE_SIZE) /\
  (pos - found = lo \/ free (pos - found - 1) = false) /\
  (forall k, lo <= k -> k + pages + 1 <= pos -> ~ run free k (pages + 1)).

Lemma run_app k n m : 0 <= n -> run free k n -> run free (k + n) m -> run free k (n + m).
Proof.
  intros Hn H1 H2 d Hd. destruct (Z.lt_ge_cases d n).
  - apply H1. lia.
  - replace (k + d) with (k + n + (d - n)) by lia. apply H2. lia.
Qed.

Lemma run_prefix k n m : m <= n -> run free k n -> run free k m.
Proof. intros Hm H d Hd. apply H. lia. Qed.

Lemma run_no_hole k n p : run free k n -> k <= p < k + n -> free p = true.
Proof. intros H Hp. replace p with (k + (p - k)) by lia. apply H. lia. Qed.

Lemma scan_inv_start page : scan_inv lo 0 page.
Proof.
  unfold scan_inv, run. split; [lia|]. split; [lia|]. split; [lia|].
  split; [lia|]. split; [lia|]. intros. lia.
Qed.

Lemma scan_inv_extend pos found page n :
  scan_inv pos found page -> 0 < n -> run free pos n -> found + n <= pages ->
  scan_inv (pos + n) (found + n)
    (if found =? 0 then pos * PM_PAGE_SIZE else page).
Proof.
  intros (Hf & Hlo & Hrun & Hpage & Hleft & Hno) Hn Hr Hle.
  assert (Hstart : pos + n - (found + n) = pos - found) by lia.
  unfold scan_inv. rewrite Hstart. split; [lia|]. split; [lia|]. split; [|split; [|split]].
  - apply run_app; [lia|done|]. by replace (pos - found + found) with pos by lia.
  - intros _. destruct (Z.eqb_spec found 0) as [->|]; [f_equal; lia|]. apply Hpage. lia.
  - done.
  - intros k Hk Hend Hk'. destruct Hleft as [Hleft|Hleft]; [lia|].
    rewrite (run_no_hole _ _ _ Hk') in Hleft; [done|].
    destruct (Z.le_gt_cases (k + pages + 1) pos); [exfalso; eapply Hno; eauto; lia|lia].
Qed.

Lemma scan_inv_found pos found page n :
  scan_inv pos found page -> 0 < n -> run free pos n -> pages < found + n ->
  exists k, (if found =? 0 then pos * PM_PAGE_SIZE else page) = k * PM_PAGE_SIZE /\
            first_run free lo k (pages + 1).
Proof.
  intros (Hf & Hlo & Hrun & Hpage & Hleft & Hno) Hn Hr Hgt.
  exists (pos - found). split.
  { destruct (Z.eqb_spec found 0) as [->|]; [f_equal; lia|]. apply Hpage. lia. }
  split; [lia|]. split.
  - apply run_prefix with (found + n); [lia|]. apply run_app; [lia|done|].
    by replace (pos - found + found) with pos by lia.
  - intros k' Hk' Hrk. destruct Hleft as [Hleft|Hleft]; [lia|].
    destruct (Z.le_gt_cases (k' + pages + 1) pos); [eapply Hno; eauto; lia|].
    rewrite (run_no_hole _ _ _ Hrk) in Hleft; [done|lia].
Qed.

Lemma scan_inv_reset pos found page n :
  scan_inv pos found page -> 0 < n ->
  (forall d, 0 <= d < n -> free (pos + d) = false) ->
  scan_inv (pos + n) 0 page.
Proof.
  intros (Hf & Hlo & Hrun & Hpage & Hleft & Hno) Hn Hbits.
  split; [lia|]. split; [lia|]. split; [intros d Hd; lia|]. split; [lia|]. split.
  - right. replace (pos + n - 0 - 1) with (pos + (n - 1)) by lia. apply Hbits. lia.
  - intros k Hk Hend Hrk. destruct (Z.le_gt_cases (k + pages + 1) pos); [eapply Hno; eauto; lia|].
    assert (Hx : free (pos + (Z.max k pos - pos)) = false) by (apply Hbits; lia).
    rewrite (run_no_hole _ _ _ Hrk) in Hx; [done|lia].
Qed.
End Search.

(** ** The scan meets its specification *)

Lemma bit_test w j : 0 <= j -> negb (Z.land w (Z.shiftl 1 j) =? 0) = Z.testbit w j.
Proof.
  intros Hj. destruct (Z.testbit w j) eqn:E.
  - destruct (Z.eqb_spec (Z.land w (Z.shiftl 1 j)) 0) as [H|H]; [|done].
    assert (Hb : Z.testbit (Z.land w (Z.shiftl 1 j)) j = true).
    { rewrite Z.land_spec, E, Z.shiftl_spec, Z.sub_diag by lia. done. }
    rewrite H, Z.testbit_0_l in Hb. done.
  - replace (Z.land w (Z.shiftl 1 j)) with 0; [done|]. symmetry.
    apply Z.bits_inj'. intros i Hi. rewrite Z.land_spec, Z.testbit_0_l, Z.shiftl_spec by lia.
    destruct (Z.eq_dec i j) as [->|Hne]; [by rewrite E|].
    destruct (Z.lt_ge_cases i j); [rewrite (Z.testbit_neg_r _ (i - j)) by lia; by rewrite andb_false_r|].
    replace (Z.testbit 1 (i - j)) with false; [by rewrite andb_false_r|].
    symmetry. apply (Z.bits_above_log2 1); simpl; lia.
Qed.

Lemma ones_bit j : 0 <= j < 32 -> Z.testbit 0xFFFFFFFF j = true.
Proof. intros Hj. change 0xFFFFFFFF with (Z.ones 32). apply Z.ones_spec_low. lia. Qed.

Lemma word_bits (h : bitmap) i j : 0 <= j < 32 -> page_free h (32 * i + j) = Z.testbit (word_at h i) j.
Proof.
  intros Hj. unfold page_free. f_equal; [f_equal|];
    symmetry; [apply Z.div_unique with j | apply Z.mod_unique with i]; lia.
Qed.

Lemma page_free_beyond h k : bitmap_wf h -> 2 ^ 20 <= k -> page_free h k = false.
Proof.
  intros [Hlen _] Hk. unfold page_free, word_at, PM_HEAPSIZE in *.
  assert (32768 <= k / 32) by (apply Z.div_le_lower_bound; lia).
  rewrite nth_overflow by lia. apply Z.testbit_0_l.
Qed.

Section ScanSpec.
Context (h : bitmap) (lo pages : Z) (Hpages : 0 <= pages).
#[local] Abbreviation free := (page_free h).

Lemma pm_scanBits_spec n : forall j i found page,
  0 <= j -> j + Z.of_nat n <= 32 ->
  scan_inv free lo pages (32 * i + j) found page ->
  match pm_scanBits n j (word_at h i) i found page pages with
  | Return p => exists k, p = k * PM_PAGE_SIZE /\ first_run free lo k (pages + 1)
  | Continue f p => scan_inv free lo pages (32 * i + j + Z.of_nat n) f p
  end.
Proof.
  induction n as [|n IH]; intros j i found page Hj Hn Hinv; cbn [pm_scanBits].
  { by rewrite Z.add_0_r. }
  rewrite bit_test, <- word_bits by lia.
  replace (32 * i + j + Z.of_nat (S n)) with (32 * i + (j + 1) + Z.of_nat n) by lia.
  replace ((i * 32 + j) * PM_PAGE_SIZE) with ((32 * i + j) * PM_PAGE_SIZE) by lia.
  destruct (page_free h (32 * i + j)) eqn:Hb.
  - assert (Hrun1 : run free (32 * i + j) 1) by (intros d Hd; by replace (32 * i + j + d) with (32 * i + j) by lia).
    destruct (Z.ltb_spec pages (found + 1)).
    + by apply scan_inv_found with (n := 1).
    + apply IH; [lia..|].
      replace (32 * i + (j + 1)) with (32 * i + j + 1) by lia.
      by apply scan_inv_extend; try lia.
  - apply IH; [lia..|].
    replace (32 * i + (j + 1)) with (32 * i + j + 1) by lia.
    apply scan_inv_reset with found; [lia|done|lia|].
    intros d Hd. by replace (32 * i + j + d) with (32 * i + j) by lia.
Qed.

Lemma pm_scanWords_spec ws : forall i found page,
  0 <= i -> ws = drop (Z.to_nat i) h ->
  scan_inv free lo pages (32 * i) found page ->
  (exists k, pm_scanWords ws i found page pages = k * PM_PAGE_SIZE /\ first_run free lo k (pages + 1)) \/
  (pm_scanWords ws i found page pages = 0 /\
   forall k, lo <= k -> k + pages + 1 <= 32 * (i + Z.of_nat (length ws)) -> ~ run free k (pages + 1)).
Proof.
  induction ws as [|w ws IH]; intros i found page Hi Hws Hinv; cbn [pm_scanWords length].
  { right. split; [done|]. rewrite Z.add_0_r. apply Hinv. }
  replace (32 * (i + Z.of_nat (S (length ws)))) with (32 * ((i + 1) + Z.of_nat (length ws))) by lia.
  assert (Hw : word_at h i = w).
  { unfold word_at. rewrite nth_lookup, <- (Nat.add_0_r (Z.to_nat i)), <- lookup_drop, <- Hws. done. }
  assert (Htl : ws = drop (Z.to_nat (i + 1)) h).
  { replace (Z.to_nat (i + 1)) with (Z.to_nat i + 1)%nat by lia. by rewrite <- drop_drop, <- Hws. }
  destruct (Z.eqb_spec w 0) as [Hz|Hz].
  { apply IH; [lia|done|]. replace (32 * (i + 1)) with (32 * i + 32) by lia.
    apply scan_inv_reset with found; [done|done|lia|].
    intros d Hd. rewrite word_bits, Hw, Hz by lia. apply Z.testbit_0_l. }
  destruct (Z.eqb_spec w 0xFFFFFFFF) as [Ho|Ho].
  - assert (Hrun : run free (32 * i) 32).
    { intros d Hd. rewrite word_bits, Hw, Ho by lia. by apply ones_bit. }
    replace (i * 32 * PM_PAGE_SIZE) with (32 * i * PM_PAGE_SIZE) by lia.
    destruct (Z.ltb_spec pages (found + 32)).
    + left. by apply scan_inv_found with (n := 32).
    + apply IH; [lia|done|]. replace (32 * (i + 1)) with (32 * i + 32) by lia.
      by apply scan_inv_extend.
  - pose proof (pm_scanBits_spec 32 0 i found page) as Hbits.
    rewrite Z.add_0_r, Hw in Hbits. specialize (Hbits ltac:(lia) ltac:(lia) Hinv).
    destruct (pm_scanBits 32 0 w i found page pages) as [p|f p]; [by left|].
    destruct (Z.ltb_spec pages f) as [Hlt|Hge].
    { destruct Hbits as (? & _). lia. }
    apply IH; [lia|done|]. by replace (32 * (i + 1)) with (32 * i + Z.of_nat 32) by lia.
Qed.
End ScanSpec.

(** The word the search starts at, as a page number. *)
Definition search_start (lowerLimit : Z) : Z := 32 * (lowerLimit / PM_PAGE_SIZE / 32).

Lemma find_spec h lowerLimit pages :
  bitmap_wf h -> 0 <= pages -> 0 <= lowerLimit < 2 ^ 32 ->
  (exists k, __pm_findFreePages h lowerLimit pages = k * PM_PAGE_SIZE /\
             first_run (page_free h) (search_start lowerLimit) k (pages + 1)) \/
  (__pm_findFreePages h lowerLimit pages = 0 /\
   forall k, search_start lowerLimit <= k -> ~ run (page_free h) k (pages + 1)).
Proof.
  intros Hwf Hp Hl. unfold __pm_findFreePages.
  set (i := lowerLimit / PM_PAGE_SIZE / 32).
  assert (Hi : 0 <= i < 32768).
  { subst i. unfold PM_PAGE_SIZE. rewrite Z.div_div by lia.
    split; [apply Z.div_pos; lia | apply Z.div_lt_upper_bound; lia]. }
  destruct (pm_scanWords_spec h (32 * i) pages Hp (drop (Z.to_nat i) h) i 0 0)
    as [Hk|[Hz Hno]]; [lia|done|apply scan_inv_start; lia|by left|].
  right. split; [done|]. intros k Hk Hrun.
  destruct (Z.le_gt_cases (k + pages + 1) (2 ^ 20)) as [Hle|Hgt].
  - apply (Hno k); [done| |done]. rewrite length_drop. destruct Hwf as [Hlen _].
    unfold PM_HEAPSIZE in Hlen. lia.
  - assert (Hf : page_free h (k + pages) = true) by (apply Hrun; lia).
    rewrite page_free_beyond in Hf by (done || lia). done.
Qed.

(** ** Single-page updates *)

Lemma word_at_set h i j w :
  0 <= i < Z.of_nat (length h) -> 0 <= j -> word_at (set_word h i w) j = if j =? i then w else word_at h j.
Proof.
  intros Hi Hj. unfold word_at, set_word. rewrite !nth_lookup.
  destruct (Z.eqb_spec j i) as [->|Hne].
  - rewrite list_lookup_insert_eq by lia. done.
  - rewrite list_lookup_insert_ne by lia. done.
Qed.

Lemma page_split j k : 0 <= j -> 0 <= k -> j / 32 = k / 32 -> j mod 32 = k mod 32 -> j = k.
Proof. intros. rewrite (Z.div_mod j 32), (Z.div_mod k 32) by lia. lia. Qed.

Lemma land31 k : Z.land k 31 = k mod 32.
Proof. change 31 with (Z.ones 5). rewrite Z.land_ones by lia. done. Qed.

Lemma one_bit i n : 0 <= i -> 0 <= n -> Z.testbit (Z.shiftl 1 n) i = (i =? n).
Proof.
  intros. rewrite Z.shiftl_spec by lia. destruct (Z.eqb_spec i n) as [->|Hne].
  - by rewrite Z.sub_diag.
  - destruct (Z.lt_ge_cases i n); [by apply Z.testbit_neg_r; lia|].
    apply (Z.bits_above_log2 1); simpl; lia.
Qed.

Lemma word_u32 h i : Forall is_u32 h -> 0 <= word_at h i < 2 ^ 32.
Proof.
  intros Hf. unfold word_at. rewrite nth_lookup.
  destruct (h !! Z.to_nat i) as [w|] eqn:E; simpl; [|lia].
  eapply Forall_lookup_1 in Hf; [|done]. done.
Qed.

Lemma u32_high w i : 0 <= w < 2 ^ 32 -> 32 <= i -> Z.testbit w i = false.
Proof.
  intros Hw Hi. destruct (Z.eq_dec w 0) as [->|]; [apply Z.testbit_0_l|].
  apply Z.bits_above_log2; [lia|]. apply Z.lt_le_trans with 32; [|done].
  apply Z.log2_lt_pow2; lia.
Qed.

Lemma u32_of_bits w : 0 <= w -> (forall i, 32 <= i -> Z.testbit w i = false) -> 0 <= w < 2 ^ 32.
Proof.
  intros H0 Hb. split; [done|]. destruct (Z.eq_dec w 0) as [->|Hne]; [lia|].
  apply Z.log2_lt_pow2; [lia|]. destruct (Z.lt_ge_cases (Z.log2 w) 32); [done|].
  specialize (Hb (Z.log2 w) ltac:(lia)). rewrite Z.bit_log2 in Hb by lia. done.
Qed.

Lemma page_index k : 0 <= k -> k * PM_PAGE_SIZE / PM_PAGE_SIZE = k.
Proof. intros. apply Z.div_mul. done. Qed.

Lemma set_word_wf h i w : bitmap_wf h -> 0 <= w < 2 ^ 32 -> bitmap_wf (set_word h i w).
Proof.
  intros [Hlen Hall] Hw. split; unfold set_word.
  - by rewrite length_insert.
  - by apply Forall_insert.
Qed.

Lemma markUsed_wf h page : bitmap_wf h -> bitmap_wf (__pm_markUsed h page).
Proof.
  intros Hwf. apply set_word_wf; [done|]. set (w := word_at h _).
  assert (Hw : 0 <= w < 2 ^ 32) by (apply word_u32, Hwf).
  apply u32_of_bits; [apply Z.land_nonneg; left; lia|].
  intros i Hi. by rewrite Z.land_spec, u32_high.
Qed.

Lemma markFree_wf h page : bitmap_wf h -> bitmap_wf (__pm_markFree h page).
Proof.
  intros Hwf. apply set_word_wf; [done|]. set (w := word_at h _).
  assert (Hw : 0 <= w < 2 ^ 32) by (apply word_u32, Hwf).
  rewrite land31. set (k := page / PM_PAGE_SIZE) in *.
  assert (0 <= k mod 32 < 32) by (apply Z.mod_pos_bound; lia).
  apply u32_of_bits.
  - apply Z.lor_nonneg. split; [lia|]. apply Z.shiftl_nonneg. lia.
  - intros i Hi. rewrite Z.lor_spec, u32_high, one_bit by lia. apply Z.eqb_neq. lia.
Qed.

Section OnePage.
Context (h : bitmap) (Hwf : bitmap_wf h) (k : Z) (Hk : 0 <= k < 2 ^ 20).

#[local] Lemma one_page_word : 0 <= k / 32 < Z.of_nat (length h).
Proof.
  destruct Hwf as [-> _]. unfold PM_HEAPSIZE.
  split; [apply Z.div_pos; lia | apply Z.div_lt_upper_bound; lia].
Qed.

(** Common part: replacing the word of page [k] by [f] of it. *)
#[local] Lemma one_page_set f j :
  0 <= j -> page_free (set_word h (k / 32) (f (word_at h (k / 32)))) j =
  if j / 32 =? k / 32 then Z.testbit (f (word_at h (k / 32))) (j mod 32) else page_free h j.
Proof.
  intros Hj. unfold page_free. pose proof one_page_word.
  rewrite word_at_set by (done || (apply Z.div_pos; lia)). by destruct (j / 32 =? k / 32).
Qed.

Lemma markUsed_free j :
  0 <= j -> page_free (__pm_markUsed h (k * PM_PAGE_SIZE)) j = page_free h j && negb (j =? k).
Proof.
  intros Hj. unfold __pm_markUsed. rewrite page_index, land31 by lia.
  rewrite (one_page_set (fun w => Z.land w (Z.lnot (Z.shiftl 1 (k mod 32))))) by done.
  assert (0 <= j mod 32 < 32) by (apply Z.mod_pos_bound; lia).
  assert (0 <= k mod 32 < 32) by (apply Z.mod_pos_bound; lia).
  destruct (Z.eqb_spec (j / 32) (k / 32)) as [He|He].
  - rewrite Z.land_spec, Z.lnot_spec, one_bit by lia. unfold page_free. rewrite He. f_equal. f_equal.
    destruct (Z.eqb_spec (j mod 32) (k mod 32)), (Z.eqb_spec j k); subst; try done.
    exfalso. eauto using page_split with lia.
  - destruct (Z.eqb_spec j k); [subst; lia|]. by rewrite andb_true_r.
Qed.

Lemma markFree_free j :
  0 <= j -> page_free (__pm_markFree h (k * PM_PAGE_SIZE)) j = page_free h j || (j =? k).
Proof.
  intros Hj. unfold __pm_markFree. rewrite page_index, land31 by lia.
  rewrite (one_page_set (fun w => Z.lor w (Z.shiftl 1 (k mod 32)))) by done.
  assert (0 <= j mod 32 < 32) by (apply Z.mod_pos_bound; lia).
  assert (0 <= k mod 32 < 32) by (apply Z.mod_pos_bound; lia).
  destruct (Z.eqb_spec (j / 32) (k / 32)) as [He|He].
  - rewrite Z.lor_spec, one_bit by lia. unfold page_free. rewrite He. f_equal.
    destruct (Z.eqb_spec (j mod 32) (k mod 32)), (Z.eqb_spec j k); subst; try done.
    exfalso. eauto using page_split with lia.
  - destruct (Z.eqb_spec j k); [subst; lia|]. by rewrite orb_false_r.
Qed.
End OnePage.

(** ** Ranges of pages *)

Definition in_range (k n j : Z) : bool := (k <=? j) && (j <? k + n).

Lemma in_range_spec k n j : in_range k n j = true <-> k <= j < k + n.
Proof. unfold in_range. lia. Qed.

Lemma in_range_succ k n j :
  in_range k (Z.of_nat (S n)) j = (j =? k) || in_range (k + 1) (Z.of_nat n) j.
Proof. unfold in_range. destruct (j =? k) eqn:E; lia. Qed.

Section Ranges.
#[local] Lemma next_page k n :
  0 <= k -> k + Z.of_nat (S (S n)) <= 2 ^ 20 ->
  u32 (k * PM_PAGE_SIZE + PM_PAGE_SIZE) = (k + 1) * PM_PAGE_SIZE.
Proof. intros. unfold PM_PAGE_SIZE. rewrite u32_small; lia. Qed.

Lemma markUsedRange_spec n : forall h k,
  bitmap_wf h -> 0 <= k -> k + Z.of_nat n <= 2 ^ 20 ->
  bitmap_wf (pm_markUsedRange h (k * PM_PAGE_SIZE) n) /\
  forall j, 0 <= j -> page_free (pm_markUsedRange h (k * PM_PAGE_SIZE) n) j =
                      page_free h j && negb (in_range k (Z.of_nat n) j).
Proof.
  induction n as [|[|n] IH]; intros h k Hwf Hk Hn; cbn [pm_markUsedRange].
  - split; [done|]. intros j Hj. unfold in_range. destruct (page_free h j); lia.
  - split; [by apply markUsed_wf|]. intros j Hj. rewrite markUsed_free by (done || lia).
    f_equal. unfold in_range. lia.
  - rewrite (next_page k n) by lia.
    destruct (IH (__pm_markUsed h (k * PM_PAGE_SIZE)) (k + 1)) as [Hwf' Hfree];
      [by apply markUsed_wf|lia..|].
    split; [done|]. intros j Hj. rewrite Hfree, markUsed_free, (in_range_succ k) by (done || lia).
    by rewrite negb_orb, andb_assoc.
Qed.

Lemma markFreeRange_spec n : forall h k,
  bitmap_wf h -> 0 <= k -> k + Z.of_nat n <= 2 ^ 20 ->
  bitmap_wf (pm_markFreeRange h (k * PM_PAGE_SIZE) n) /\
  forall j, 0 <= j -> page_free (pm_markFreeRange h (k * PM_PAGE_SIZE) n) j =
                      page_free h j || in_range k (Z.of_nat n) j.
Proof.
  induction n as [|[|n] IH]; intros h k Hwf Hk Hn; cbn [pm_markFreeRange].
  - split; [done|]. intros j Hj. unfold in_range. destruct (page_free h j); lia.
  - split; [by apply markFree_wf|]. intros j Hj. rewrite markFree_free by (done || lia).
    f_equal. unfold in_range. lia.
  - rewrite (next_page k n) by lia.
    destruct (IH (__pm_markFree h (k * PM_PAGE_SIZE)) (k + 1)) as [Hwf' Hfree];
      [by apply markFree_wf|lia..|].
    split; [done|]. intros j Hj. rewrite Hfree, markFree_free, (in_range_succ k) by (done || lia).
    by rewrite orb_assoc.
Qed.
End Ranges.

(** Two well-formed maps with the same free pages are the same map. *)
Lemma bitmap_ext h1 h2 :
  bitmap_wf h1 -> bitmap_wf h2 -> (forall k, 0 <= k -> page_free h1 k = page_free h2 k) -> h1 = h2.
Proof.
  intros [Hl1 H1] [Hl2 H2] Heq. apply nth_ext with 0 0; [lia|]. intros n Hn.
  assert (Hw : word_at h1 (Z.of_nat n) = word_at h2 (Z.of_nat n)).
  { apply Z.bits_inj'. intros i Hi. destruct (Z.lt_ge_cases i 32).
    - rewrite <- !word_bits by lia. apply Heq. lia.
    - rewrite !u32_high by (done || by apply word_u32). done. }
  unfold word_at in Hw. by rewrite Nat2Z.id in Hw.
Qed.

(** [pm_alloc] is [pm_allocLimit] with no limit; everything is shown for the latter. *)
Lemma pm_alloc_limit h pages : pm_alloc h pages = pm_allocLimit h 0 pages.
Proof. done. Qed.

(** The bitmap in use: well formed, and page 0 is never handed out. *)
Definition pm_ok (h : bitmap) : Prop := bitmap_wf h /\ page_free h 0 = false.

Lemma run_bound h k n : bitmap_wf h -> 0 < n -> run (page_free h) k n -> k + n <= 2 ^ 20.
Proof.
  intros Hwf Hn Hrun. destruct (Z.le_gt_cases (k + n) (2 ^ 20)) as [?|Hgt]; [done|].
  assert (Hf : page_free h (k + (n - 1)) = true) by (apply Hrun; lia).
  rewrite page_free_beyond in Hf by (done || lia). done.
Qed.

Section Alloc.
Context (h : bitmap) (lowerLimit pages : Z).
Context (Hok : pm_ok h) (Hp : 0 <= pages) (Hl : 0 <= lowerLimit < 2 ^ 32).

Lemma search_start_nonneg : 0 <= search_start lowerLimit.
Proof. unfold search_start, PM_PAGE_SIZE. assert (0 <= lowerLimit / 4096 / 32) by (repeat apply Z.div_pos; lia). lia. Qed.

Lemma allocLimit_cases :
  (exists k, 0 < k /\ k + pages < 2 ^ 20 /\
     first_run (page_free h) (search_start lowerLimit) k (pages + 1) /\
     pm_allocLimit h lowerLimit pages =
       (k * PM_PAGE_SIZE, pm_markUsedRange h (k * PM_PAGE_SIZE) (Z.to_nat pages))) \/
  (pm_allocLimit h lowerLimit pages = (0, h) /\
   forall k, search_start lowerLimit <= k -> ~ run (page_free h) k (pages + 1)).
Proof.
  destruct Hok as [Hwf H0]. pose proof search_start_nonneg as Hs.
  destruct (find_spec h lowerLimit pages Hwf Hp Hl) as [(k & Hk & Hfr)|[Hz Hno]].
  - left. exists k. pose proof Hfr as (Hlo & Hrun & _).
    assert (0 < k).
    { destruct (Z.eq_dec k 0) as [->|]; [|lia]. rewrite (run_no_hole _ _ _ _ Hrun) in H0; [done|lia]. }
    assert (k + (pages + 1) <= 2 ^ 20) by (eapply run_bound; eauto; lia).
    split; [done|]. split; [lia|]. split; [done|]. unfold pm_allocLimit. rewrite Hk.
    destruct (Z.eqb_spec (k * PM_PAGE_SIZE) 0); [unfold PM_PAGE_SIZE in *; lia|done].
  - right. split; [|done]. unfold pm_allocLimit. rewrite Hz. done.
Qed.
End Alloc.

(** ** Properties *)

(** C1: what an allocation does.  The search starts at the first page of the
    limit's group of 32 pages, which can lie below the limit, and looks for
    [pages + 1] free pages, one more than are asked for.  A non-zero result is
    the page-aligned address of the first such run; afterwards exactly the
    [pages] pages from there on have become used and every other page is as
    before.  A zero result leaves the map alone and means that no run of
    [pages + 1] free pages exists, though there may be one of [pages]. *)
Theorem pm_allocLimit_spec h lowerLimit pages p h' :
  pm_ok h -> 0 <= pages -> 0 <= lowerLimit < 2 ^ 32 ->
  pm_allocLimit h lowerLimit pages = (p, h') ->
  (p <> 0 ->
   exists k, p = k * PM_PAGE_SIZE /\ 0 < k /\ k + pages < 2 ^ 20 /\
             first_run (page_free h) (search_start lowerLimit) k (pages + 1) /\
             pm_ok h' /\
             forall j, 0 <= j -> page_free h' j = page_free h j && negb (in_range k pages j)) /\
  (p = 0 -> h' = h /\ forall k, search_start lowerLimit <= k -> ~ run (page_free h) k (pages + 1)).
Proof.
  intros Hok Hp Hl Heq.
  destruct (allocLimit_cases h lowerLimit pages Hok Hp Hl) as [(k & Hk & Hb & Hfr & Ha)|[Ha Hno]];
    rewrite Ha in Heq; injection Heq as <- <-.
  - split; [|unfold PM_PAGE_SIZE in *; lia]. intros _. exists k. do 4 (split; [done|]).
    destruct (markUsedRange_spec (Z.to_nat pages) h k) as [Hwf' Hfree]; [apply Hok|lia..|].
    rewrite Z2Nat.id in Hfree by lia. repeat split; [apply Hwf'..| |done].
    rewrite Hfree by lia. destruct Hok as [_ ->]. done.
  - split; [done|]. intros _. by split.
Qed.

(** The boot loader's memory map after the first pages have been reserved, in
    miniature: words 1 and 2 of the map are free. *)
Definition demo_map : bitmap := 0 :: 0xFFFFFFFF :: 0xFFFFFFFF :: replicate (Z.to_nat (PM_HEAPSIZE - 3)) 0.

Lemma demo_map_ok : pm_ok demo_map.
Proof.
  split; [|done]. split; [by vm_compute|]. unfold demo_map, is_u32.
  do 3 (constructor; [lia|]). apply Forall_replicate. lia.
Qed.

Lemma demo_alloc : pm_allocLimit demo_map 0 5 = (32 * 4096, snd (pm_allocLimit demo_map 0 5)).
Proof.
  assert (H : fst (pm_allocLimit demo_map 0 5) = 32 * 4096) by (vm_compute; reflexivity).
  rewrite <- H. apply surjective_pairing.
Qed.

Lemma pm_allocLimit_spec_witness :
  exists h', pm_allocLimit demo_map 0 5 = (32 * 4096, h') /\ page_free h' 36 = false /\ page_free h' 37 = true.
Proof.
  exists (snd (pm_allocLimit demo_map 0 5)). split; [apply demo_alloc|].
  destruct (pm_allocLimit_spec demo_map 0 5 _ _ demo_map_ok ltac:(lia) ltac:(lia) demo_alloc) as [Hs _].
  destruct (Hs ltac:(lia)) as (k & Hk & _ & _ & _ & _ & Hfree).
  assert (k = 32) as -> by (unfold PM_PAGE_SIZE in Hk; lia).
  rewrite !Hfree by lia. split; vm_compute; reflexivity.
Defined.

(** C2: releasing what was just allocated restores the bitmap, word for word. *)
Theorem pm_alloc_free_roundtrip h lowerLimit pages p h' :
  pm_ok h -> 0 <= pages -> 0 <= lowerLimit < 2 ^ 32 ->
  pm_allocLimit h lowerLimit pages = (p, h') -> p <> 0 ->
  pm_free h' p pages = h.
Proof.
  intros Hok Hp Hl Heq Hnz.
  destruct (allocLimit_cases h lowerLimit pages Hok Hp Hl) as [(k & Hk & Hb & Hfr & Ha)|[Ha Hno]];
    rewrite Ha in Heq; injection Heq as <- <-; [|done].
  destruct (markUsedRange_spec (Z.to_nat pages) h k) as [Hwf1 Hf1]; [apply Hok|lia..|].
  unfold pm_free.
  destruct (markFreeRange_spec (Z.to_nat pages) _ k Hwf1) as [Hwf2 Hf2]; [lia..|].
  apply bitmap_ext; [done|apply Hok|]. intros j Hj. rewrite Hf2, Hf1 by done.
  destruct (in_range k (Z.of_nat (Z.to_nat pages)) j) eqn:E; [|by rewrite orb_false_r, andb_true_r].
  rewrite orb_true_r. symmetry. apply in_range_spec in E.
  destruct Hfr as (_ & Hrun & _). apply (run_no_hole _ _ _ _ Hrun). lia.
Qed.

Lemma pm_alloc_free_roundtrip_witness :
  pm_free (snd (pm_allocLimit demo_map 0 5)) (32 * 4096) 5 = demo_map.
Proof.
  apply (pm_alloc_free_roundtrip demo_map 0 5); [apply demo_map_ok|lia|lia|apply demo_alloc|lia].
Defined.

(** ** Ownership over a run of the allocator

    A state pairs the bitmap with the ranges handed out and not yet returned
    (first page number and length).  Callers free exactly what they got. *)

Record pm_state := PmState { pm_map : bitmap; pm_owned : list (Z * Z) }.

Inductive pm_step : pm_state -> pm_state -> Prop :=
| step_alloc h own lowerLimit pages k h' :
    0 <= pages -> 0 <= lowerLimit < 2 ^ 32 ->
    pm_allocLimit h lowerLimit pages = (k * PM_PAGE_SIZE, h') -> k <> 0 ->
    pm_step (PmState h own) (PmState h' ((k, pages) :: own))
| step_alloc_fails h own lowerLimit pages h' :
    0 <= pages -> 0 <= lowerLimit < 2 ^ 32 ->
    pm_allocLimit h lowerLimit pages = (0, h') ->
    pm_step (PmState h own) (PmState h' own)
| step_free h own1 k pages own2 :
    pm_step (PmState h (own1 ++ (k, pages) :: own2))
            (PmState (pm_free h (k * PM_PAGE_SIZE) pages) (own1 ++ own2)).

Definition ranges_disjoint (r1 r2 : Z * Z) : Prop :=
  forall j, in_range r1.1 r1.2 j = true -> in_range r2.1 r2.2 j = false.

Definition range_used (h : bitmap) (r : Z * Z) : Prop :=
  0 < r.1 /\ 0 <= r.2 /\ r.1 + r.2 <= 2 ^ 20 /\
  forall j, in_range r.1 r.2 j = true -> page_free h j = false.

Fixpoint pairwise_disjoint (own : list (Z * Z)) : Prop :=
  match own with
  | [] => True
  | r :: own' => Forall (ranges_disjoint r) own' /\ pairwise_disjoint own'
  end.

Definition pm_inv (s : pm_state) : Prop :=
  pm_ok (pm_map s) /\ Forall (range_used (pm_map s)) (pm_owned s) /\ pairwise_disjoint (pm_owned s).

Lemma ranges_disjoint_sym r1 r2 : ranges_disjoint r1 r2 -> ranges_disjoint r2 r1.
Proof.
  intros H j Hj. destruct (in_range r1.1 r1.2 j) eqn:E; [|done]. rewrite (H j E) in Hj. done.
Qed.

Lemma pairwise_disjoint_remove own1 r own2 :
  pairwise_disjoint (own1 ++ r :: own2) ->
  Forall (ranges_disjoint r) (own1 ++ own2) /\ pairwise_disjoint (own1 ++ own2).
Proof.
  induction own1 as [|r1 own1 IH]; cbn; [done|].
  intros [Hd Hp]. destruct (IH Hp) as [Hr Hp']. apply Forall_app in Hd as [Hd1 Hd2].
  inversion Hd2; subst. split; [|split; [|done]].
  - constructor; [by apply ranges_disjoint_sym|done].
  - by apply Forall_app.
Qed.

Lemma pm_alloc_inv h own lowerLimit pages k h' :
  pm_inv (PmState h own) -> 0 <= pages -> 0 <= lowerLimit < 2 ^ 32 ->
  pm_allocLimit h lowerLimit pages = (k * PM_PAGE_SIZE, h') -> k <> 0 ->
  pm_inv (PmState h' ((k, pages) :: own)).
Proof.
  intros (Hok & Hused & Hdis) Hp Hl Ha Hk. cbn in *.
  destruct (allocLimit_cases h lowerLimit pages Hok Hp Hl) as [(k' & Hk' & Hb & Hfr & Ha')|[Ha' _]];
    rewrite Ha' in Ha; injection Ha as Hkk Hh; [|unfold PM_PAGE_SIZE in *; lia].
  assert (k' = k) as -> by (unfold PM_PAGE_SIZE in *; lia). subst h'.
  destruct (markUsedRange_spec (Z.to_nat pages) h k) as [Hwf' Hfree]; [apply Hok|lia..|].
  rewrite Z2Nat.id in Hfree by lia.
  split; [|split; [constructor|split]]; cbn [pm_map pm_owned].
  - split; [done|]. rewrite Hfree by lia. destruct Hok as [_ ->]. done.
  - repeat split; cbn; try lia. intros j Hj. pose proof (proj1 (in_range_spec _ _ _) Hj).
    rewrite Hfree by lia. by rewrite Hj, andb_false_r.
  - eapply Forall_impl; [apply Hused|]. intros r (H1 & H2 & H3 & H4). repeat split; try done.
    intros j Hj. pose proof (proj1 (in_range_spec _ _ _) Hj).
    rewrite Hfree by lia. by rewrite (H4 j Hj).
  - eapply Forall_impl; [apply Hused|]. intros r (H1 & H2 & H3 & H4) j Hj.
    destruct (in_range r.1 r.2 j) eqn:E; [|done]. cbn in Hj. apply in_range_spec in Hj.
    destruct Hfr as (_ & Hrun & _). specialize (H4 j E).
    rewrite (run_no_hole _ _ _ _ Hrun) in H4; [done|lia].
  - done.
Qed.

Lemma pm_free_inv h own1 k pages own2 :
  pm_inv (PmState h (own1 ++ (k, pages) :: own2)) ->
  pm_inv (PmState (pm_free h (k * PM_PAGE_SIZE) pages) (own1 ++ own2)).
Proof.
  intros (Hok & Hused & Hdis). cbn in *.
  apply Forall_app in Hused as [Hu1 Hu2]. inversion Hu2 as [|? ? (Hk & Hp & Hb & Hu) Hu3]; subst.
  cbn in *. destruct (pairwise_disjoint_remove _ _ _ Hdis) as [Hr Hdis'].
  destruct (markFreeRange_spec (Z.to_nat pages) h k) as [Hwf' Hfree]; [apply Hok|lia..|].
  rewrite Z2Nat.id in Hfree by lia.
  split; [|split; [|done]]; cbn [pm_map pm_owned]; unfold pm_free.
  - split; [done|]. rewrite Hfree by lia. destruct Hok as [_ ->]. unfold in_range. lia.
  - apply Forall_forall. intros r Hin. rewrite Forall_forall in Hr.
    assert (Hall : Forall (range_used h) (own1 ++ own2)) by (by apply Forall_app).
    rewrite Forall_forall in Hall. destruct (Hall r Hin) as (H1 & H2 & H3 & H4).
    repeat split; try done. intros j Hj. pose proof (proj1 (in_range_spec _ _ _) Hj).
    rewrite Hfree, (H4 j Hj) by lia. apply (ranges_disjoint_sym _ _ (Hr r Hin)). done.
Qed.

Lemma pm_step_inv s s' : pm_inv s -> pm_step s s' -> pm_inv s'.
Proof.
  intros Hinv Hstep. destruct Hstep as
    [h own lowerLimit pages k h' Hp Hl Ha Hk|h own lowerLimit pages h' Hp Hl Ha|h own1 k pages own2].
  - by eapply pm_alloc_inv.
  - destruct (allocLimit_cases h lowerLimit pages (proj1 Hinv) Hp Hl)
      as [(k' & Hk' & Hb & Hfr & Ha')|[Ha' _]];
      rewrite Ha' in Ha; injection Ha; [unfold PM_PAGE_SIZE; lia|]. by intros <-.
  - by apply pm_free_inv.
Qed.

Lemma pm_steps_inv s s' : pm_inv s -> rtc pm_step s s' -> pm_inv s'.
Proof. intros Hi. induction 1; eauto using pm_step_inv. Qed.

(** C3: from any start with nothing handed out, after any sequence of
    allocations (successful or not) and releases, no page belongs to two live
    allocations, no page of a live allocation is marked free, page 0 is in none
    of them, and all of them lie within the pages the map has bits for. *)
Theorem pm_ownership h s :
  pm_ok h -> rtc pm_step (PmState h []) s ->
  pairwise_disjoint (pm_owned s) /\
  Forall (fun r => 0 < r.1 /\ 0 <= r.2 /\ r.1 + r.2 <= PM_HEAPSIZE * 32 /\
    forall j, r.1 <= j < r.1 + r.2 -> page_free (pm_map s) j = false) (pm_owned s).
Proof.
  intros Hok Hsteps.
  assert (Hinv : pm_inv s) by (eapply pm_steps_inv, Hsteps; split; [done|]; split; constructor).
  destruct Hinv as (_ & Hused & Hdis). split; [done|].
  eapply Forall_impl; [apply Hused|]. intros r (H1 & H2 & H3 & H4). split_and!; try done.
  intros j Hj. by apply H4, in_range_spec.
Qed.

Lemma pm_ownership_witness :
  pairwise_disjoint [(32, 5)].
Proof.
  apply (pm_ownership demo_map (PmState (snd (pm_allocLimit demo_map 0 5)) [(32, 5)]) demo_map_ok).
  apply rtc_once. eapply step_alloc with (lowerLimit := 0); [lia|lia| |lia]. apply demo_alloc.
Defined.

(** ** Where the allocator differs from what it says *)

(** The search asks for one page more than requested: a map whose only free
    pages are a single run of exactly [n] pages refuses a request for [n]. *)
Theorem pm_alloc_exact_fit_fails h k n :
  pm_ok h -> 0 < n -> (forall j, page_free h j = in_range k n j) -> pm_alloc h n = (0, h).
Proof.
  intros Hok Hn Hfree. rewrite pm_alloc_limit.
  destruct (allocLimit_cases h 0 n Hok ltac:(lia) ltac:(lia)) as [(k' & _ & _ & (_ & Hrun & _) & _)|[Ha _]];
    [|done].
  pose proof (Hrun 0 ltac:(lia)) as H1. pose proof (Hrun n ltac:(lia)) as H2.
  rewrite Hfree in H1, H2. unfold in_range in *. lia.
Qed.

(** [pm_allocLimit] rounds the limit down to a multiple of 32 pages, so the
    range it returns can start below the limit it was given. *)
Theorem pm_allocLimit_below_limit :
  fst (pm_allocLimit demo_map 0x25000 1) = 0x20000 /\ 0x20000 < 0x25000.
Proof. split; [vm_compute; reflexivity | lia]. Qed.
