(* ===== verification/Pages.v ===== *)
(** * Page arithmetic (sys/memory/vmemory.h)

    The page size, the page macros and the page-table flags the memory
    components share. *)

From S2P Require Import Prelude.

Definition VM_PAGE_SHIFT : Z := 12.
Definition VM_DIRECTORY_SHIFT : Z := 22.
Definition VM_PAGE_SIZE : Z := Z.shiftl 1 VM_PAGE_SHIFT.
Definition VM_PAGE_MASK : Z := u32 (Z.lnot (VM_PAGE_SIZE - 1)).
Definition VM_LOWER_LIMIT : Z := 4096.
Definition VM_UPPER_LIMIT : Z := 0xFFFFF000.
Definition VM_DIRECTORY_LENGTH : Z := 1024.
Definition VM_PAGETABLE_LENGTH : Z := 1024.
Definition VM_KERNEL_DIRECTORY_ADDRESS : Z := 0x1000.

Definition VM_PAGE_ALIGN_DOWN (x : Z) : Z := Z.land x VM_PAGE_MASK.
Definition VM_PAGE_ALIGN_UP (x : Z) : Z := VM_PAGE_ALIGN_DOWN (u32 (x + u32 (Z.lnot VM_PAGE_MASK))).
Definition VM_PAGE_COUNT (x : Z) : Z :=
  Z.land (u32 (x + u32 (Z.lnot VM_PAGE_MASK))) VM_PAGE_MASK / VM_PAGE_SIZE.

Lemma land_page_mask x : 0 <= x < 2 ^ 32 -> Z.land x VM_PAGE_MASK = x / 4096 * 4096.
Proof.
  intros Hx. assert (Hm : VM_PAGE_MASK = Z.shiftl (Z.ones 20) 12) by done.
  rewrite Hm. apply Z.bits_inj'. intros i Hi.
  rewrite Z.land_spec. change 4096 with (2 ^ 12).
  rewrite <- Z.shiftl_mul_pow2, <- Z.shiftr_div_pow2, !Z.shiftl_spec by lia.
  destruct (Z.lt_ge_cases i 12).
  - rewrite !(Z.testbit_neg_r _ (i - 12)) by lia. apply andb_false_r.
  - rewrite Z.shiftr_spec by lia. replace (i - 12 + 12) with i by lia.
    destruct (Z.lt_ge_cases i 32).
    + rewrite Z.ones_spec_low by lia. apply andb_true_r.
    + rewrite Z.ones_spec_high by lia. rewrite andb_false_r. symmetry.
      rewrite <- (Z.mod_small x (2 ^ 32)) by done. apply Z.mod_pow2_bits_high. lia.
Qed.

Lemma align_down_spec x :
  0 <= x < 2 ^ 32 -> VM_PAGE_ALIGN_DOWN x = x / 4096 * 4096.
Proof. apply land_page_mask. Qed.

(** The count is the ceiling of the division, as long as rounding up does not
    pass the end of the address space. *)
Lemma page_count_spec x :
  0 <= x <= 2 ^ 32 - 4096 -> VM_PAGE_COUNT x = (x + 4095) / 4096.
Proof.
  intros Hx. unfold VM_PAGE_COUNT. change (u32 (Z.lnot VM_PAGE_MASK)) with 4095.
  rewrite (u32_small (x + 4095)) by lia. rewrite land_page_mask by lia.
  change VM_PAGE_SIZE with 4096. by rewrite Z.div_mul.
Qed.

Lemma page_count_enough x : 0 <= x <= 2 ^ 32 - 4096 -> x <= VM_PAGE_COUNT x * 4096 < x + 4096.
Proof.
  intros Hx. rewrite page_count_spec by done.
  pose proof (Z.div_mod (x + 4095) 4096 ltac:(lia)).
  pose proof (Z.mod_pos_bound (x + 4095) 4096 ltac:(lia)). lia.
Qed.
