(* ===== verification/PMemoryBoot.v ===== *)
(** * Filling the page map at boot (sys/memory/pmemory.c, [pm_init])

    [pm_init] reads the memory map GRUB left behind, marks the available
    regions free and takes the kernel image, its stack, the multiboot data,
    page 0, the kernel page directory and the trampoline pages out again. *)

From S2P Require Import Prelude Pages PMemory.

(** ** What the boot loader hands over

    [multiboot] has the fields of [struct multiboot_s] that are read;
    [bootmem] is the memory the structures point into. *)

Record mmap_entry := Mmap { mmap_size : Z; mmap_base : Z; mmap_length : Z; mmap_type : Z }.
Record mb_module := MbModule { mod_start : Z; mod_end : Z; mod_name : Z }.

Record multiboot := Multiboot {
  mb_flags : Z;
  mb_cmdline : Z;
  mb_mods_count : Z;
  mb_mods_addr : Z;
  mb_mmap_length : Z;
  mb_mmap_addr : Z;
  mb_drives_length : Z;
  mb_drives_addr : Z;
  mb_boot_loader_name : Z
}.

Record bootmem := Bootmem {
  mmap_at : Z -> mmap_entry;
  module_at : Z -> mb_module;
  drive_size_at : Z -> Z;
  strlen_at : Z -> Z
}.

(** The linker's symbols. *)
Record kernel_image := KernelImage {
  kernelBegin : Z; kernelEnd : Z; stack_bottom : Z; stack_top : Z
}.

Definition kMultibootFlagCommandLine : Z := Z.shiftl 1 2.
Definition kMultibootFlagModules : Z := Z.shiftl 1 3.
Definition kMultibootFlagMmap : Z := Z.shiftl 1 6.
Definition kMultibootFlagDrives : Z := Z.shiftl 1 7.
Definition kMultibootFlagBootLoader : Z := Z.shiftl 1 9.
Definition IR_TRAMPOLINE_PHYSICAL : Z := 0x2000.
Definition IR_TRAMPOLINE_PAGES : Z := 2.

Definition has_flag (flags flag : Z) : bool := negb (Z.land flags flag =? 0).

Definition sizeof_multiboot_module : Z := 16.

(** ** Reserving what is in use *)

Definition pm_markMultibootModule (m : bootmem) (h : bitmap) (module : mb_module) : bitmap :=
  let start := VM_PAGE_ALIGN_DOWN (mod_start module) in
  let end_ := VM_PAGE_ALIGN_UP (mod_end module) in
  let pages := VM_PAGE_COUNT (u32 (end_ - start)) in
  let h := pm_markUsedRange h start (Z.to_nat pages) in
  let start := VM_PAGE_ALIGN_DOWN (mod_name module) in
  let pages := VM_PAGE_COUNT (strlen_at m start) in
  pm_markUsedRange h start (Z.to_nat pages).

Fixpoint pm_markModules (m : bootmem) (h : bitmap) (module : Z) (count : nat) : bitmap :=
  match count with
  | O => h
  | S n => pm_markModules m (pm_markMultibootModule m h (module_at m module))
             (u32 (module + sizeof_multiboot_module)) n
  end.

(** The walk over the drive structures; it only moves forward when every size
    is positive, so [drives_length] steps are enough for it. *)
Fixpoint pm_markDrives (fuel : nat) (m : bootmem) (h : bitmap) (drivesPtr drivesEnd : Z) : outcome bitmap :=
  if drivesPtr <? drivesEnd then
    match fuel with
    | O => Hang
    | S f =>
        let size := drive_size_at m drivesPtr in
        pm_markDrives f m (pm_markUsedRange h drivesPtr (Z.to_nat (VM_PAGE_COUNT size)))
          (u32 (drivesPtr + size)) drivesEnd
    end
  else Ok h.

Definition pm_markMultiboot (m : bootmem) (h : bitmap) (info : Z) (mb : multiboot) : outcome bitmap :=
  let h := __pm_markUsed h (VM_PAGE_ALIGN_DOWN info) in
  let h := if has_flag (mb_flags mb) kMultibootFlagCommandLine
           then __pm_markUsed h (VM_PAGE_ALIGN_DOWN (mb_cmdline mb)) else h in
  let h := if has_flag (mb_flags mb) kMultibootFlagModules
           then pm_markModules m h (mb_mods_addr mb) (Z.to_nat (mb_mods_count mb)) else h in
  let* h := if has_flag (mb_flags mb) kMultibootFlagDrives
            then pm_markDrives (Z.to_nat (mb_drives_length mb)) m h (mb_drives_addr mb)
                   (u32 (mb_drives_addr mb + mb_drives_length mb))
            else Ok h in
  Ok (if has_flag (mb_flags mb) kMultibootFlagBootLoader
      then __pm_markUsed h (VM_PAGE_ALIGN_DOWN (mb_boot_loader_name mb)) else h).

(** [while(address < end) { mark(address); address += PM_PAGE_SIZE; }].  The
    fuel is the number of pages between the two; when it runs out the address
    has wrapped around, and since [end] is then above every address of its
    residue class the loop never stops. *)
Fixpoint pm_markWhile (fuel : nat) (mark : bitmap -> Z -> bitmap) (h : bitmap) (address end_ : Z) : outcome bitmap :=
  if address <? end_ then
    match fuel with
    | O => Hang
    | S f => pm_markWhile f mark (mark h address) (u32 (address + PM_PAGE_SIZE)) end_
    end
  else Ok h.

Definition pm_whileFuel (address end_ : Z) : nat := Z.to_nat ((end_ - address + 4095) / 4096).

(** The walk over the memory map; fuel as for the drives. *)
Fixpoint pm_markMmap (fuel : nat) (m : bootmem) (h : bitmap) (mmapPtr mmapEnd : Z) : outcome bitmap :=
  if mmapPtr <? mmapEnd then
    match fuel with
    | O => Hang
    | S f =>
        let mmap := mmap_at m mmapPtr in
        let* h := if mmap_type mmap =? 1 then
                    let address := u32 (mmap_base mmap) in
                    let addressEnd := u32 (address + mmap_length mmap) in
                    pm_markWhile (pm_whileFuel address addressEnd) __pm_markFree h address addressEnd
                  else Ok h in
        pm_markMmap f m h (u32 (mmapPtr + (mmap_size mmap + 4))) mmapEnd
    end
  else Ok h.

(** [pm_init]; the bitmap starts zeroed.  The debug output is left out. *)
Definition pm_init (m : bootmem) (k : kernel_image) (data : Z) (info : multiboot) : outcome (bool * bitmap) :=
  if data =? NULL then Panic else
  let h := replicate (Z.to_nat PM_HEAPSIZE) 0 in
  if negb (has_flag (mb_flags info) kMultibootFlagMmap) then Panic else
  let mmapPtr := mb_mmap_addr info in
  let mmapEnd := u32 (mmapPtr + mb_mmap_length info) in
  let* h := pm_markMmap (Z.to_nat (mb_mmap_length info)) m h mmapPtr mmapEnd in
  let* h := pm_markWhile (pm_whileFuel (kernelBegin k) (kernelEnd k)) __pm_markUsed h
              (kernelBegin k) (kernelEnd k) in
  let bottom := VM_PAGE_ALIGN_DOWN (stack_bottom k) in
  let top := VM_PAGE_ALIGN_UP (stack_top k) in
  let* h := pm_markWhile (pm_whileFuel bottom top) __pm_markUsed h bottom top in
  let* h := pm_markMultiboot m h data info in
  let h := __pm_markUsed h 0 in
  let '(directory, h) := pm_allocLimit h VM_KERNEL_DIRECTORY_ADDRESS 1 in
  if negb (directory =? VM_KERNEL_DIRECTORY_ADDRESS) then Ok (false, h) else
  let '(trampolines, h) := pm_allocLimit h IR_TRAMPOLINE_PHYSICAL IR_TRAMPOLINE_PAGES in
  if negb (trampolines =? IR_TRAMPOLINE_PHYSICAL) then Ok (false, h) else
  Ok (true, h).

(** ** Reserving pages never frees one *)

(** [shrinks h h']: [h'] is well formed and frees no page [h] has in use. *)
Definition shrinks (h h' : bitmap) : Prop :=
  bitmap_wf h' /\ forall j, 0 <= j -> page_free h' j = true -> page_free h j = true.

Lemma shrinks_refl h : bitmap_wf h -> shrinks h h.
Proof. by split. Qed.

Lemma shrinks_trans h1 h2 h3 : shrinks h1 h2 -> shrinks h2 h3 -> shrinks h1 h3.
Proof. intros [_ H12] [Hwf H23]. split; [done|]. auto. Qed.

Lemma shrinks_used h h' j : shrinks h h' -> 0 <= j -> page_free h j = false -> page_free h' j = false.
Proof. intros [_ H] Hj Hf. destruct (page_free h' j) eqn:E; [|done]. by rewrite H in Hf. Qed.

Lemma page_number p : 0 <= p < 2 ^ 32 -> 0 <= p / PM_PAGE_SIZE < 2 ^ 20.
Proof. intros. unfold PM_PAGE_SIZE. split; [apply Z.div_pos; lia | apply Z.div_lt_upper_bound; lia]. Qed.

(** The bit operations only look at the page number of the address. *)
Lemma markUsed_page h p : 0 <= p -> __pm_markUsed h p = __pm_markUsed h (p / PM_PAGE_SIZE * PM_PAGE_SIZE).
Proof. intros. unfold __pm_markUsed. by rewrite page_index by (apply Z.div_pos; done). Qed.

Lemma markFree_page h p : 0 <= p -> __pm_markFree h p = __pm_markFree h (p / PM_PAGE_SIZE * PM_PAGE_SIZE).
Proof. intros. unfold __pm_markFree. by rewrite page_index by (apply Z.div_pos; done). Qed.

Lemma markUsed_at h p j :
  bitmap_wf h -> 0 <= p < 2 ^ 32 -> 0 <= j ->
  page_free (__pm_markUsed h p) j = page_free h j && negb (j =? p / PM_PAGE_SIZE).
Proof. intros. rewrite markUsed_page by lia. apply markUsed_free; auto using page_number. Qed.

Lemma markFree_at h p j :
  bitmap_wf h -> 0 <= p < 2 ^ 32 -> 0 <= j ->
  page_free (__pm_markFree h p) j = page_free h j || (j =? p / PM_PAGE_SIZE).
Proof. intros. rewrite markFree_page by lia. apply markFree_free; auto using page_number. Qed.

Lemma markUsed_shrinks h p : bitmap_wf h -> 0 <= p < 2 ^ 32 -> shrinks h (__pm_markUsed h p).
Proof.
  intros Hwf Hp. split; [by apply markUsed_wf|]. intros j Hj. rewrite markUsed_at by done.
  by intros [? _]%andb_prop.
Qed.

Lemma markUsedRange_shrinks n : forall h p,
  bitmap_wf h -> 0 <= p < 2 ^ 32 -> shrinks h (pm_markUsedRange h p n).
Proof.
  induction n as [|n IH]; intros h p Hwf Hp; cbn; [by apply shrinks_refl|].
  eapply shrinks_trans; [by apply markUsed_shrinks|].
  apply IH; [by apply markUsed_wf|apply u32_range].
Qed.

Lemma align_down_range x : 0 <= x < 2 ^ 32 -> 0 <= VM_PAGE_ALIGN_DOWN x < 2 ^ 32.
Proof.
  intros Hx. rewrite align_down_spec by done.
  pose proof (Z.div_mod x 4096 ltac:(lia)). pose proof (Z.mod_pos_bound x 4096 ltac:(lia)).
  assert (0 <= x / 4096) by (apply Z.div_pos; lia). lia.
Qed.

Lemma align_up_range x : 0 <= VM_PAGE_ALIGN_UP x < 2 ^ 32.
Proof. apply align_down_range, u32_range. Qed.

(** The pointers in the boot structures are 32-bit. *)
Definition module_wf (mo : mb_module) : Prop := is_u32 (mod_start mo) /\ is_u32 (mod_name mo).

Definition boot_wf (m : bootmem) (info : multiboot) : Prop :=
  (forall a, module_wf (module_at m a)) /\
  is_u32 (mb_cmdline info) /\ is_u32 (mb_mods_addr info) /\
  is_u32 (mb_drives_addr info) /\ is_u32 (mb_boot_loader_name info).

Lemma markModules_shrinks m n : (forall a, module_wf (module_at m a)) ->
  forall h a, bitmap_wf h -> shrinks h (pm_markModules m h a n).
Proof.
  intros Hm. induction n as [|n IH]; intros h a Hwf; cbn [pm_markModules]; [by apply shrinks_refl|].
  destruct (Hm a) as [Hs Hn].
  assert (H1 : shrinks h (pm_markMultibootModule m h (module_at m a))).
  { unfold pm_markMultibootModule. eapply shrinks_trans; apply markUsedRange_shrinks;
      auto using align_down_range. apply (markUsedRange_shrinks _ h); auto using align_down_range. }
  eapply shrinks_trans; [done|]. apply IH, H1.
Qed.

Lemma markDrives_shrinks m fuel : forall h p e h',
  bitmap_wf h -> 0 <= p < 2 ^ 32 -> pm_markDrives fuel m h p e = Ok h' -> shrinks h h'.
Proof.
  induction fuel as [|f IH]; intros h p e h' Hwf Hp; cbn [pm_markDrives];
    destruct (p <? e); try done; try (intros [= <-]; by apply shrinks_refl).
  intros H. eapply shrinks_trans; [by apply markUsedRange_shrinks|].
  eapply IH; [|apply u32_range|exact H]. by apply markUsedRange_shrinks.
Qed.

Lemma shrinks_if (b : bool) h h' : bitmap_wf h -> shrinks h h' -> shrinks h (if b then h' else h).
Proof. destruct b; auto using shrinks_refl. Qed.

Lemma markMultiboot_shrinks m h data info h' :
  boot_wf m info -> bitmap_wf h -> 0 <= data < 2 ^ 32 ->
  pm_markMultiboot m h data info = Ok h' -> shrinks h h'.
Proof.
  intros (Hm & Hc & Ha & Hd & Hb) Hwf Hdata. unfold pm_markMultiboot.
  set (h1 := __pm_markUsed h _). set (h2 := if has_flag _ kMultibootFlagCommandLine then _ else _).
  set (h3 := if has_flag _ kMultibootFlagModules then _ else _).
  assert (H1 : shrinks h h1) by (apply markUsed_shrinks; auto using align_down_range).
  assert (H2 : shrinks h1 h2) by (apply shrinks_if; [apply H1|apply markUsed_shrinks; [apply H1|auto using align_down_range]]).
  assert (H3 : shrinks h2 h3) by (apply shrinks_if; [apply H2|apply markModules_shrinks; [done|apply H2]]).
  intros (h4 & H4 & H5)%obind_Ok. injection H5 as <-.
  assert (H34 : shrinks h3 h4).
  { destruct (has_flag _ kMultibootFlagDrives).
    - eapply markDrives_shrinks; [apply H3|exact Hd|exact H4].
    - injection H4 as <-. apply shrinks_refl, H3. }
  eapply shrinks_trans; [exact H1|]. eapply shrinks_trans; [exact H2|].
  eapply shrinks_trans; [exact H3|]. eapply shrinks_trans; [exact H34|].
  apply shrinks_if; [apply H34|]. apply markUsed_shrinks; [apply H34|auto using align_down_range].
Qed.

(** ** What the boot data's pages are *)

(** The [n] pages from the one of [p] on are in use. *)
Definition reserved (h : bitmap) (p n : Z) : Prop :=
  forall i, 0 <= i < n -> page_free h (u32 (p + i * PM_PAGE_SIZE) / PM_PAGE_SIZE) = false.

Lemma reserved_shrinks h h' p n : shrinks h h' -> reserved h p n -> reserved h' p n.
Proof.
  intros Hs Hr i Hi. eapply shrinks_used; [done| |by apply Hr]. apply Z.div_pos; [apply u32_range|done].
Qed.

Lemma page_shrinks h h' a : shrinks h h' -> 0 <= a -> page_free h (a / PM_PAGE_SIZE) = false -> page_free h' (a / PM_PAGE_SIZE) = false.
Proof. intros Hs Ha. apply shrinks_used; [done|]. by apply Z.div_pos. Qed.

Lemma markUsed_reserves h p : bitmap_wf h -> is_u32 p -> page_free (__pm_markUsed h p) (p / PM_PAGE_SIZE) = false.
Proof. intros Hwf Hp. rewrite markUsed_at by (done || by apply page_number). by rewrite Z.eqb_refl, andb_false_r. Qed.

Lemma markUsedRange_reserves n : forall h p, bitmap_wf h -> is_u32 p -> reserved (pm_markUsedRange h p n) p (Z.of_nat n).
Proof.
  induction n as [|n IH]; intros h p Hwf Hp i Hi; [lia|]. cbn [pm_markUsedRange].
  pose proof (markUsed_shrinks h p Hwf Hp) as [Hwf1 _]. pose proof (u32_range (p + PM_PAGE_SIZE)) as Hn.
  destruct (decide (i = 0)) as [->|Hne].
  - rewrite Z.mul_0_l, Z.add_0_r, (u32_small p) by exact Hp. eapply shrinks_used; [by apply markUsedRange_shrinks|apply Z.div_pos; [apply Hp|done]|].
    by apply markUsed_reserves.
  - replace (u32 (p + i * PM_PAGE_SIZE)) with (u32 (u32 (p + PM_PAGE_SIZE) + (i - 1) * PM_PAGE_SIZE)).
    + apply IH; (done || lia).
    + unfold u32. rewrite Z.add_mod_idemp_l by lia. f_equal. lia.
Qed.

(** The page of an address is the one of the address rounded down. *)
Lemma align_down_page a : is_u32 a -> VM_PAGE_ALIGN_DOWN a / PM_PAGE_SIZE = a / PM_PAGE_SIZE.
Proof. intros Ha. rewrite align_down_spec by done. by apply Z.div_mul. Qed.

(** Every address of a module's data is in a page in use, unless the data reaches
    into the last page of the address space; so are the pages of its name, counted
    as the code does. *)
Definition module_reserved (m : bootmem) (h : bitmap) (mo : mb_module) : Prop :=
  (mod_end mo <= 2 ^ 32 - 4096 -> forall a, mod_start mo <= a < mod_end mo -> page_free h (a / PM_PAGE_SIZE) = false) /\
  reserved h (VM_PAGE_ALIGN_DOWN (mod_name mo)) (VM_PAGE_COUNT (strlen_at m (VM_PAGE_ALIGN_DOWN (mod_name mo)))).

Lemma module_reserved_shrinks m h h' mo : module_wf mo -> shrinks h h' -> module_reserved m h mo -> module_reserved m h' mo.
Proof.
  intros [Hw _] Hs [H1 H2]. split; [|by eapply reserved_shrinks]. intros He a Ha. eapply page_shrinks; [done| |by apply H1].
  unfold is_u32 in Hw. lia.
Qed.

Lemma markModule_reserves m h mo : bitmap_wf h -> module_wf mo ->
  shrinks h (pm_markMultibootModule m h mo) /\ module_reserved m (pm_markMultibootModule m h mo) mo.
Proof.
  intros Hwf [Hs Hn]. unfold pm_markMultibootModule. pose proof (align_down_range _ Hs) as Hs'. pose proof (align_down_range _ Hn) as Hn'.
  set (h1 := pm_markUsedRange h _ _). assert (S1 : shrinks h h1) by (by apply markUsedRange_shrinks).
  assert (S2 := markUsedRange_shrinks (Z.to_nat (VM_PAGE_COUNT (strlen_at m (VM_PAGE_ALIGN_DOWN (mod_name mo))))) h1 _ (proj1 S1) Hn').
  split; [by eapply shrinks_trans|]. split.
  - intros He a Ha. assert (Ha' : is_u32 a) by (unfold is_u32 in *; lia). eapply page_shrinks; [exact S2|apply Ha'|].
    assert (Eup : VM_PAGE_ALIGN_UP (mod_end mo) = (mod_end mo + 4095) / 4096 * 4096).
    { unfold VM_PAGE_ALIGN_UP. change (u32 (Z.lnot VM_PAGE_MASK)) with 4095. unfold is_u32 in Ha'. rewrite (u32_small (mod_end mo + 4095)) by lia.
      apply align_down_spec. lia. }
    pose proof (markUsedRange_reserves (Z.to_nat (VM_PAGE_COUNT (u32 (VM_PAGE_ALIGN_UP (mod_end mo) - VM_PAGE_ALIGN_DOWN (mod_start mo))))) h
      (VM_PAGE_ALIGN_DOWN (mod_start mo)) Hwf Hs' (a / 4096 - mod_start mo / 4096)) as Hr. fold h1 in Hr. rewrite Eup in Hr.
    unfold is_u32, PM_PAGE_SIZE in *. rewrite align_down_spec in Hr by done.
    rewrite (u32_small (_ / _ * _ - _)), page_count_spec, u32_small in Hr by (Z.to_euclidean_division_equations; lia).
    replace (mod_start mo / 4096 * 4096 + (a / 4096 - mod_start mo / 4096) * 4096) with (a / 4096 * 4096) in Hr by lia.
    rewrite Z.div_mul in Hr by done. apply Hr. Z.to_euclidean_division_equations; lia.
  - pose proof (markUsedRange_reserves (Z.to_nat (VM_PAGE_COUNT (strlen_at m (VM_PAGE_ALIGN_DOWN (mod_name mo))))) h1 _ (proj1 S1) Hn') as Hr.
    intros i Hi. apply Hr. lia.
Qed.

(** The [i]-th module. *)
Definition module_addr (a i : Z) : Z := u32 (a + i * sizeof_multiboot_module).

Lemma markModules_reserves m : (forall a, module_wf (module_at m a)) -> forall n h a, bitmap_wf h -> is_u32 a ->
  forall i, 0 <= i < Z.of_nat n -> module_reserved m (pm_markModules m h a n) (module_at m (module_addr a i)).
Proof.
  intros Hm. induction n as [|n IH]; intros h a Hwf Ha i Hi; [lia|]. cbn [pm_markModules].
  destruct (markModule_reserves m h (module_at m a) Hwf (Hm a)) as [[Hwf1 _] Hr]. pose proof (u32_range (a + sizeof_multiboot_module)) as Hn.
  unfold module_addr. destruct (decide (i = 0)) as [->|Hne].
  - rewrite Z.mul_0_l, Z.add_0_r, (u32_small a) by exact Ha. eapply module_reserved_shrinks; [done|by apply markModules_shrinks|done].
  - replace (u32 (a + i * sizeof_multiboot_module)) with (module_addr (u32 (a + sizeof_multiboot_module)) (i - 1)); [apply IH; (done || lia)|].
    unfold module_addr, u32. rewrite Z.add_mod_idemp_l by lia. f_equal. lia.
Qed.

(** The drive structures the walk from [p] to [end_] looks at. *)
Inductive drive_visits (m : bootmem) (end_ : Z) : Z -> Z -> Prop :=
| drive_here p : p < end_ -> drive_visits m end_ p p
| drive_next p q : p < end_ -> drive_visits m end_ (u32 (p + drive_size_at m p)) q -> drive_visits m end_ p q.

Lemma markDrives_reserves m e fuel : forall h p h' q, bitmap_wf h -> is_u32 p -> pm_markDrives fuel m h p e = Ok h' ->
  drive_visits m e p q -> reserved h' q (VM_PAGE_COUNT (drive_size_at m q)).
Proof.
  induction fuel as [|f IH]; intros h p h' q Hwf Hp; cbn [pm_markDrives].
  { destruct (Z.ltb_spec p e); [done|]. intros _ Hv. destruct Hv; lia. }
  destruct (Z.ltb_spec p e) as [Hlt|Hge]; [|intros _ Hv; destruct Hv; lia]. intros Hd Hv.
  assert (S1 := markUsedRange_shrinks (Z.to_nat (VM_PAGE_COUNT (drive_size_at m p))) h p Hwf Hp).
  destruct Hv as [p _|p q _ Hv]; [|by eapply IH; [exact (proj1 S1)|apply u32_range|exact Hd|]].
  eapply reserved_shrinks; [eapply markDrives_shrinks; [exact (proj1 S1)|apply u32_range|exact Hd]|].
  intros i Hi. apply (markUsedRange_reserves (Z.to_nat (VM_PAGE_COUNT (drive_size_at m p))) h p Hwf Hp). lia.
Qed.

(** The pages of the boot data the kernel goes on using: the record's own page, the
    first page of the command line and of the loader's name, the modules with their
    names, and the drive structures. *)
Record multiboot_reserved (m : bootmem) (data : Z) (info : multiboot) (h : bitmap) : Prop := {
  mr_record : page_free h (data / PM_PAGE_SIZE) = false;
  mr_cmdline : has_flag (mb_flags info) kMultibootFlagCommandLine = true -> page_free h (mb_cmdline info / PM_PAGE_SIZE) = false;
  mr_modules i : has_flag (mb_flags info) kMultibootFlagModules = true -> 0 <= i < mb_mods_count info ->
    module_reserved m h (module_at m (module_addr (mb_mods_addr info) i));
  mr_drives q : has_flag (mb_flags info) kMultibootFlagDrives = true ->
    drive_visits m (u32 (mb_drives_addr info + mb_drives_length info)) (mb_drives_addr info) q -> reserved h q (VM_PAGE_COUNT (drive_size_at m q));
  mr_loader : has_flag (mb_flags info) kMultibootFlagBootLoader = true -> page_free h (mb_boot_loader_name info / PM_PAGE_SIZE) = false
}.

Lemma multiboot_reserved_shrinks m data info h h' : boot_wf m info -> is_u32 data -> shrinks h h' ->
  multiboot_reserved m data info h -> multiboot_reserved m data info h'.
Proof.
  intros (Hm & Hc & Ha & Hd & Hb) Hdata Hs [M1 M2 M3 M4 M5]. constructor.
  - eapply page_shrinks; [done|apply Hdata|done].
  - intros Hf. eapply page_shrinks; [done|apply Hc|auto].
  - intros i Hf Hi. eapply module_reserved_shrinks; [apply Hm|done|auto].
  - intros q Hf Hv. eapply reserved_shrinks; [done|auto].
  - intros Hf. eapply page_shrinks; [done|apply Hb|auto].
Qed.

Lemma markMultiboot_reserves m h data info h' : boot_wf m info -> bitmap_wf h -> is_u32 data ->
  pm_markMultiboot m h data info = Ok h' -> multiboot_reserved m data info h'.
Proof.
  intros (Hm & Hc & Ha & Hd & Hb) Hwf Hdata. unfold pm_markMultiboot.
  set (h1 := __pm_markUsed h _). set (h2 := if has_flag _ kMultibootFlagCommandLine then _ else _).
  set (h3 := if has_flag _ kMultibootFlagModules then _ else _).
  assert (H1 : shrinks h h1) by (apply markUsed_shrinks; auto using align_down_range).
  assert (H2 : shrinks h1 h2) by (apply shrinks_if; [apply H1|apply markUsed_shrinks; [apply H1|auto using align_down_range]]).
  assert (H3 : shrinks h2 h3) by (apply shrinks_if; [apply H2|apply markModules_shrinks; [done|apply H2]]).
  intros (h4 & H4 & H5)%obind_Ok. injection H5 as <-. set (h5 := if has_flag _ kMultibootFlagBootLoader then _ else _).
  assert (H34 : shrinks h3 h4).
  { destruct (has_flag _ kMultibootFlagDrives); [by eapply markDrives_shrinks; [apply H3|exact Hd|]|]. injection H4 as <-. apply shrinks_refl, H3. }
  assert (H45 : shrinks h4 h5) by (apply shrinks_if; [apply H34|apply markUsed_shrinks; [apply H34|auto using align_down_range]]).
  pose proof (shrinks_trans _ _ _ H34 H45) as H35. pose proof (shrinks_trans _ _ _ H3 H35) as H25. pose proof (shrinks_trans _ _ _ H2 H25) as H15. constructor.
  - eapply page_shrinks; [exact H15|apply Hdata|]. rewrite <- align_down_page by done. apply markUsed_reserves; [done|by apply align_down_range].
  - intros Hf. eapply page_shrinks; [exact H25|apply Hc|]. unfold h2. rewrite Hf, <- align_down_page by done.
    apply markUsed_reserves; [apply H1|by apply align_down_range].
  - intros i Hf Hi. eapply module_reserved_shrinks; [apply Hm|exact H35|]. unfold h3. rewrite Hf. apply markModules_reserves; [done|apply H2|done|lia].
  - intros q Hf Hv. eapply reserved_shrinks; [exact H45|]. rewrite Hf in H4. by eapply markDrives_reserves; [apply H3|exact Hd|exact H4|].
  - intros Hf. unfold h5. rewrite Hf, <- align_down_page by done. apply markUsed_reserves; [apply H34|by apply align_down_range].
Qed.

(** ** The page loops *)

Lemma markWhile_used_shrinks fuel : forall h a e h',
  bitmap_wf h -> 0 <= a < 2 ^ 32 -> pm_markWhile fuel __pm_markUsed h a e = Ok h' -> shrinks h h'.
Proof.
  induction fuel as [|f IH]; intros h a e h' Hwf Ha; cbn [pm_markWhile];
    destruct (a <? e); try done; try (intros [= <-]; by apply shrinks_refl).
  intros H. eapply shrinks_trans; [by apply markUsed_shrinks|].
  eapply IH; [|apply u32_range|exact H]. by apply markUsed_wf.
Qed.

Lemma div_step a : (a + PM_PAGE_SIZE) / PM_PAGE_SIZE = a / PM_PAGE_SIZE + 1.
Proof. unfold PM_PAGE_SIZE. rewrite <- (Z.mul_1_l 4096) at 1. by rewrite Z.div_add. Qed.

(** From a page-aligned start every page that begins below the end is taken. *)
Lemma markWhile_used_covers fuel : forall h a e h' j,
  bitmap_wf h -> 0 <= a < 2 ^ 32 -> a mod PM_PAGE_SIZE = 0 -> e < 2 ^ 32 ->
  pm_markWhile fuel __pm_markUsed h a e = Ok h' ->
  a / PM_PAGE_SIZE <= j -> j * PM_PAGE_SIZE < e -> page_free h' j = false.
Proof.
  induction fuel as [|f IH]; intros h a e h' j Hwf Ha Hal He; cbn [pm_markWhile];
    destruct (Z.ltb_spec a e) as [Hlt|Hge]; try done.
  1,3: intros _ H1 H2; unfold PM_PAGE_SIZE in *; pose proof (Z.div_mod a 4096 ltac:(lia)); lia.
  intros H H1 H2. pose proof (Z.div_pos a PM_PAGE_SIZE ltac:(lia) ltac:(done)).
  destruct (Z.eq_dec j (a / PM_PAGE_SIZE)) as [->|Hne].
  - eapply shrinks_used; [eapply markWhile_used_shrinks, H; [by apply markUsed_wf|apply u32_range]|lia|].
    rewrite markUsed_at by lia || done. by rewrite Z.eqb_refl, andb_false_r.
  - assert (Hn : a + PM_PAGE_SIZE < 2 ^ 32).
    { pose proof (Z.div_mod a PM_PAGE_SIZE ltac:(done)). unfold PM_PAGE_SIZE in *. lia. }
    rewrite (u32_small (a + PM_PAGE_SIZE)) in H by (unfold PM_PAGE_SIZE in *; lia).
    eapply (IH _ (a + PM_PAGE_SIZE)); [| |..|exact H|rewrite div_step; lia|done];
      [by apply markUsed_wf|unfold PM_PAGE_SIZE in *; lia| |done].
    rewrite <- (Z.mul_1_l PM_PAGE_SIZE) at 1. by rewrite Z.mod_add.
Qed.

Lemma next_residue a : u32 (a + PM_PAGE_SIZE) mod PM_PAGE_SIZE = a mod PM_PAGE_SIZE.
Proof.
  unfold u32. rewrite Z.mod_mod_divide by (exists (2 ^ 20); done).
  rewrite <- (Z.mul_1_l PM_PAGE_SIZE) at 1. by rewrite Z.mod_add.
Qed.

(** An end above every address of the start's residue class is never reached:
    the address wraps around for ever. *)
Lemma markWhile_wraps mark r e : 0 <= r < PM_PAGE_SIZE -> 2 ^ 32 - PM_PAGE_SIZE + r < e ->
  forall fuel h a h', 0 <= a < 2 ^ 32 -> a mod PM_PAGE_SIZE = r ->
  pm_markWhile fuel mark h a e <> Ok h'.
Proof.
  intros Hr He. induction fuel as [|f IH]; intros h a h' Ha Hm; cbn [pm_markWhile].
  all: assert (Hlt : a < e) by (pose proof (Z.div_mod a PM_PAGE_SIZE ltac:(done));
    unfold PM_PAGE_SIZE in *; pose proof (Z.div_lt_upper_bound a 4096 (2 ^ 20)); lia).
  all: destruct (Z.ltb_spec a e); [|lia]; [done || idtac].
  apply IH; [apply u32_range|]. by rewrite next_residue.
Qed.

(** Marking a region free touches no page outside it. *)
Lemma markWhile_free_within fuel : forall h a e h',
  bitmap_wf h -> 0 <= a < 2 ^ 32 -> e < 2 ^ 32 -> pm_markWhile fuel __pm_markFree h a e = Ok h' ->
  bitmap_wf h' /\ forall j, 0 <= j -> page_free h' j = true -> page_free h j = true \/
    exists b, a <= b < e /\ b / PM_PAGE_SIZE = j.
Proof.
  induction fuel as [|f IH]; intros h a e h' Hwf Ha He; cbn [pm_markWhile];
    destruct (Z.ltb_spec a e) as [Hlt|Hge]; try done; try (intros [= <-]; auto).
  intros H. pose proof (Z.mod_pos_bound a PM_PAGE_SIZE ltac:(done)) as Hr.
  pose proof (Z.div_mod a PM_PAGE_SIZE ltac:(done)) as Hd.
  destruct (Z.lt_ge_cases (a + PM_PAGE_SIZE) (2 ^ 32)) as [Hn|Hw].
  - rewrite (u32_small (a + PM_PAGE_SIZE)) in H by (unfold PM_PAGE_SIZE in *; lia).
    destruct (IH _ (a + PM_PAGE_SIZE) _ _ (markFree_wf h a Hwf) ltac:(unfold PM_PAGE_SIZE in *; lia) He H)
      as [Hwf' Hj].
    split; [done|]. intros j H0 Hf.
    destruct (Hj j H0 Hf) as [Hf'|(b & ?)]; [|right; exists b; unfold PM_PAGE_SIZE in *; lia].
    rewrite markFree_at in Hf' by done. apply orb_prop in Hf' as [?|Heq]; [by left|].
    right. exists a. lia.
  - exfalso. assert (a / PM_PAGE_SIZE = 2 ^ 20 - 1) as Hq.
    { unfold PM_PAGE_SIZE in *. pose proof (Z.div_lt_upper_bound a 4096 (2 ^ 20)). lia. }
    eapply (markWhile_wraps _ (a mod PM_PAGE_SIZE) e); [done| |apply u32_range| |exact H].
    + rewrite Hq in Hd. unfold PM_PAGE_SIZE in *. lia.
    + apply next_residue.
Qed.

(** ** The memory map *)

(** The entries the walk from [p] to [end_] looks at. *)
Inductive mmap_visits (m : bootmem) (end_ : Z) : Z -> Z -> Prop :=
| visit_here p : p < end_ -> mmap_visits m end_ p p
| visit_next p q :
    p < end_ -> mmap_visits m end_ (u32 (p + (mmap_size (mmap_at m p) + 4))) q -> mmap_visits m end_ p q.

(** Page [j] has an address in a visited region of type 1 (available). *)
Definition available (m : bootmem) (start end_ j : Z) : Prop :=
  exists q b, mmap_visits m end_ start q /\ mmap_type (mmap_at m q) = 1 /\
    let base := u32 (mmap_base (mmap_at m q)) in
    base <= b < u32 (base + mmap_length (mmap_at m q)) /\ b / PM_PAGE_SIZE = j.

Lemma markMmap_available m e fuel : forall h p h',
  bitmap_wf h -> pm_markMmap fuel m h p e = Ok h' ->
  bitmap_wf h' /\
  forall j, 0 <= j -> page_free h' j = true -> page_free h j = true \/ available m p e j.
Proof.
  induction fuel as [|f IH]; intros h p h' Hwf; cbn [pm_markMmap];
    destruct (Z.ltb_spec p e) as [Hlt|Hge]; try done; try (intros [= <-]; auto).
  intros (h1 & H1 & H2)%obind_Ok.
  assert (Hstep : bitmap_wf h1 /\ forall j, 0 <= j -> page_free h1 j = true ->
            page_free h j = true \/ available m p e j).
  { destruct (Z.eqb_spec (mmap_type (mmap_at m p)) 1) as [Ht|Ht].
    - apply markWhile_free_within in H1 as [Hwf1 Hj]; [|done|apply u32_range|apply u32_range].
      split; [done|]. intros j H0 Hf. destruct (Hj j H0 Hf) as [?|(b & Hb & Hbj)]; [by left|].
      right. exists p, b. split; [by constructor|done].
    - injection H1 as <-. auto. }
  destruct Hstep as [Hwf1 Hj1]. destruct (IH _ _ _ Hwf1 H2) as [Hwf' Hj].
  split; [done|]. intros j H0 Hf. destruct (Hj j H0 Hf) as [Hf1|(q & b & Hv & Hrest)]; [auto|].
  right. exists q, b. split; [by apply visit_next|done].
Qed.

Lemma zero_map_wf : bitmap_wf (replicate (Z.to_nat PM_HEAPSIZE) 0).
Proof.
  split.
  - rewrite length_replicate. done.
  - apply Forall_replicate. unfold is_u32. lia.
Qed.

Lemma zero_map_used j : page_free (replicate (Z.to_nat PM_HEAPSIZE) 0) j = false.
Proof.
  unfold page_free, word_at. rewrite nth_lookup.
  destruct (replicate _ _ !! _) eqn:E; cbn; [|apply Z.testbit_0_l].
  apply lookup_replicate in E as [-> _]. apply Z.testbit_0_l.
Qed.

Definition image_wf (k : kernel_image) : Prop :=
  is_u32 (kernelBegin k) /\ is_u32 (kernelEnd k) /\ kernelBegin k mod PM_PAGE_SIZE = 0 /\
  is_u32 (stack_bottom k) /\ is_u32 (stack_top k).

Lemma allocLimit_shrinks h l n p h' :
  pm_ok h -> 0 <= n -> 0 <= l < 2 ^ 32 -> pm_allocLimit h l n = (p, h') ->
  shrinks h h' /\ pm_ok h' /\
  (p <> 0 -> forall j, p / PM_PAGE_SIZE <= j < p / PM_PAGE_SIZE + n -> page_free h' j = false).
Proof.
  intros Hok Hn Hl Ha.
  destruct (allocLimit_cases h l n Hok Hn Hl) as [(k & Hk & Hb & Hfr & Ha')|[Ha' _]];
    rewrite Ha' in Ha; injection Ha as <- <-; [|by split; [apply shrinks_refl, Hok|split]].
  destruct (markUsedRange_spec (Z.to_nat n) h k) as [Hwf' Hf]; [apply Hok|lia..|].
  rewrite Z2Nat.id in Hf by lia. split; [|split; [split; [done|]|]].
  - split; [done|]. intros j Hj. rewrite Hf by done. by intros [? _]%andb_prop.
  - rewrite Hf by lia. destruct Hok as [_ ->]. done.
  - intros _ j Hj. rewrite page_index in Hj by lia. rewrite Hf by lia.
    replace (in_range k n j) with true; [by rewrite andb_false_r|]. symmetry. apply in_range_spec. lia.
Qed.

(** The map before the directory and the trampolines are reserved. *)
Section Init.
Context (m : bootmem) (k : kernel_image) (data : Z) (info : multiboot).
Context (Hk : image_wf k) (Hb : boot_wf m info) (Hd : is_u32 data).

#[local] Abbreviation mmap_end := (u32 (mb_mmap_addr info + mb_mmap_length info)).

(** What the marking phase establishes, and what every later step keeps. *)
Definition booted (h : bitmap) : Prop :=
  pm_ok h /\
  (forall j, kernelBegin k / PM_PAGE_SIZE <= j -> j * PM_PAGE_SIZE < kernelEnd k -> page_free h j = false) /\
  (forall j, VM_PAGE_ALIGN_DOWN (stack_bottom k) / PM_PAGE_SIZE <= j ->
     j * PM_PAGE_SIZE < VM_PAGE_ALIGN_UP (stack_top k) -> page_free h j = false) /\
  multiboot_reserved m data info h /\
  (forall j, 0 <= j -> page_free h j = true -> available m (mb_mmap_addr info) mmap_end j).

Lemma booted_shrinks h h' : booted h -> shrinks h h' -> booted h'.
Proof.
  intros (Hok & Hke & Hst & Hmb & Hav) Hs. split; [|split; [|split; [|split]]].
  - split; [apply Hs|]. eapply shrinks_used; [done|lia|apply Hok].
  - intros j H1 H2. eapply shrinks_used; [done| |by apply Hke].
    pose proof (Z.div_pos (kernelBegin k) PM_PAGE_SIZE ltac:(apply Hk) ltac:(done)). lia.
  - intros j H1 H2. eapply shrinks_used; [done| |by apply Hst].
    destruct Hk as (_ & _ & _ & Hsb & _). pose proof (align_down_range _ Hsb).
    pose proof (Z.div_pos (VM_PAGE_ALIGN_DOWN (stack_bottom k)) PM_PAGE_SIZE ltac:(lia) ltac:(done)). lia.
  - by eapply multiboot_reserved_shrinks.
  - intros j Hj Hf. apply Hav; [done|]. by apply Hs.
Qed.

Lemma align_down_aligned x : 0 <= x < 2 ^ 32 -> VM_PAGE_ALIGN_DOWN x mod PM_PAGE_SIZE = 0.
Proof. intros. rewrite align_down_spec by done. apply Z.mod_mul. done. Qed.

Lemma marking_booted h1 h2 h3 h4 :
  pm_markMmap (Z.to_nat (mb_mmap_length info)) m (replicate (Z.to_nat PM_HEAPSIZE) 0)
    (mb_mmap_addr info) mmap_end = Ok h1 ->
  pm_markWhile (pm_whileFuel (kernelBegin k) (kernelEnd k)) __pm_markUsed h1 (kernelBegin k) (kernelEnd k) = Ok h2 ->
  pm_markWhile (pm_whileFuel (VM_PAGE_ALIGN_DOWN (stack_bottom k)) (VM_PAGE_ALIGN_UP (stack_top k)))
    __pm_markUsed h2 (VM_PAGE_ALIGN_DOWN (stack_bottom k)) (VM_PAGE_ALIGN_UP (stack_top k)) = Ok h3 ->
  pm_markMultiboot m h3 data info = Ok h4 ->
  booted (__pm_markUsed h4 0).
Proof.
  destruct Hk as (Hkb & Hke & Hal & Hsb & Hst). intros H1 H2 H3 H4.
  destruct (markMmap_available _ _ _ _ _ _ zero_map_wf H1) as [Hwf1 Hav].
  pose proof (markWhile_used_shrinks _ _ _ _ _ Hwf1 Hkb H2) as S2.
  pose proof (markWhile_used_shrinks _ _ _ _ _ (proj1 S2) (align_down_range _ Hsb) H3) as S3.
  pose proof (markMultiboot_shrinks _ _ _ _ _ Hb (proj1 S3) Hd H4) as S4.
  pose proof (markUsed_shrinks h4 0 (proj1 S4) ltac:(lia)) as S5.
  pose proof (shrinks_trans _ _ _ S4 S5) as S45. pose proof (shrinks_trans _ _ _ S3 S45) as S35.
  pose proof (shrinks_trans _ _ _ S2 S35) as S25.
  split; [split; [apply S5|]|split; [|split; [|split]]].
  - rewrite markUsed_at by (apply S4 || lia). apply andb_false_r.
  - intros j J1 J2. eapply shrinks_used; [exact S35| |].
    + pose proof (Z.div_pos (kernelBegin k) PM_PAGE_SIZE ltac:(apply Hkb) ltac:(done)). lia.
    + eapply markWhile_used_covers; [exact Hwf1|exact Hkb|done|apply Hke|exact H2|done|done].
  - intros j J1 J2. eapply shrinks_used; [exact S45| |].
    + pose proof (align_down_range _ Hsb).
      pose proof (Z.div_pos (VM_PAGE_ALIGN_DOWN (stack_bottom k)) PM_PAGE_SIZE ltac:(lia) ltac:(done)). lia.
    + eapply (markWhile_used_covers _ h2 (VM_PAGE_ALIGN_DOWN (stack_bottom k)) (VM_PAGE_ALIGN_UP (stack_top k)));
        [apply S2|by apply align_down_range|by apply align_down_aligned|apply align_up_range|exact H3|done|done].
  - eapply multiboot_reserved_shrinks; [done|done|exact S5|]. by eapply markMultiboot_reserves; [done|apply S3|done|].
  - intros j Hj Hf. apply S25 in Hf; [|done].
    destruct (Hav j Hj Hf) as [Hz|]; [|done]. by rewrite zero_map_used in Hz.
Qed.
End Init.

(** C4: when [pm_init] succeeds, page 0, the kernel image, the kernel stack, the
    boot data ([multiboot_reserved]: the page of the record, the first page of the
    command line and of the loader's name, the modules and the drive structures),
    the page of the kernel directory (0x1000) and the trampoline pages (0x2000 and
    0x3000) are reserved, and every page left free lies in a region the boot
    loader's map calls available. *)
Theorem pm_init_reserves m k data info h :
  image_wf k -> boot_wf m info -> is_u32 data ->
  pm_init m k data info = Ok (true, h) ->
  booted m k data info h /\ page_free h 1 = false /\ page_free h 2 = false /\ page_free h 3 = false.
Proof.
  intros Hk Hb Hd. unfold pm_init. destruct (data =? NULL); [done|].
  destruct (negb _); [done|].
  intros (h1 & H1 & (h2 & H2 & (h3 & H3 & (h4 & H4 & H5)%obind_Ok)%obind_Ok)%obind_Ok)%obind_Ok.
  pose proof (marking_booted m k data info Hk Hb Hd _ _ _ _ H1 H2 H3 H4) as Hboot.
  destruct (pm_allocLimit (__pm_markUsed h4 0) VM_KERNEL_DIRECTORY_ADDRESS 1) as [d h5] eqn:A1.
  destruct (Z.eqb_spec d VM_KERNEL_DIRECTORY_ADDRESS) as [->|]; [|done]. cbn [negb] in H5.
  destruct (pm_allocLimit h5 IR_TRAMPOLINE_PHYSICAL IR_TRAMPOLINE_PAGES) as [t h6] eqn:A2.
  destruct (Z.eqb_spec t IR_TRAMPOLINE_PHYSICAL) as [->|]; [|done]. cbn [negb] in H5.
  injection H5 as <-.
  apply allocLimit_shrinks in A1 as (S1 & Hok5 & U1); [|apply Hboot|lia|done].
  apply allocLimit_shrinks in A2 as (S2 & Hok6 & U2); [|done|done|done].
  split; [by eapply booted_shrinks; [..|eapply shrinks_trans]|].
  split; [|split].
  - eapply shrinks_used; [exact S2|lia|]. apply U1; [done|]. by vm_compute.
  - apply U2; [done|]. by vm_compute.
  - apply U2; [done|]. by vm_compute.
Qed.

(** A small machine: 2 MiB of memory, the kernel at 1 MiB, a command line and one
    module from 0x60000 to 0x62345. *)
Definition demo_mem : bootmem := Bootmem
  (fun a => if a =? 0x9000 then Mmap 20 0 0x200000 1 else Mmap 20 0xF0000 0x10000 2)
  (fun _ => MbModule 0x60000 0x62345 0x63010) (fun _ => 1) (fun _ => 0x20).
Definition demo_kernel : kernel_image := KernelImage 0x100000 0x104800 0x105000 0x106000.
Definition demo_info : multiboot := Multiboot
  (Z.lor kMultibootFlagModules (Z.lor kMultibootFlagMmap kMultibootFlagCommandLine)) 0x50010 1 0x51000 48 0x9000 0 0 0.
Definition demo_booted : bitmap :=
  match pm_init demo_mem demo_kernel 0x50000 demo_info with Ok (_, h) => h | _ => [] end.

Lemma outcome_pair {A B : Type} (m : outcome (A * B)) a d :
  match m with Ok (a', _) => Some a' | _ => None end = Some a ->
  m = Ok (a, match m with Ok (_, b) => b | _ => d end).
Proof. destruct m as [[a' b]| | |]; cbn; congruence. Qed.

Lemma demo_boot_returns : pm_init demo_mem demo_kernel 0x50000 demo_info = Ok (true, demo_booted).
Proof. apply (outcome_pair _ true []). vm_compute. reflexivity. Qed.

Lemma pm_init_reserves_witness :
  page_free demo_booted 0x104 = false /\ page_free demo_booted 2 = false /\ page_free demo_booted 0x50 = false /\
  page_free demo_booted 0x62 = false /\ page_free demo_booted 0x110 = true.
Proof.
  destruct (pm_init_reserves demo_mem demo_kernel 0x50000 demo_info demo_booted) as ((_ & Hk & _ & Hm & _) & _ & H2 & _).
  - repeat split; unfold is_u32, demo_kernel; cbn; lia.
  - repeat split; unfold is_u32, demo_mem; cbn; lia.
  - split; lia.
  - apply demo_boot_returns.
  - split_and!; [|done| | |vm_compute; reflexivity].
    + apply Hk; cbn; unfold PM_PAGE_SIZE; [by vm_compute|lia].
    + apply Hm.
    + assert (Hmo := mr_modules _ _ _ _ Hm 0 eq_refl ltac:(cbn; lia)). apply (proj1 Hmo ltac:(cbn; lia) 0x62000). cbn. lia.
Defined.
