(* ===== verification/HeapSpec.v ===== *)
(** * What the kernel heap and the page allocator promise

    Interfaces between components: [PageSource] is what the heap relies on to
    get whole pages ([mm_alloc] and [mm_free] on the kernel directory), and
    [KernelHeap] is what every other component relies on ([halloc] and [hfree]
    on the kernel heap).  Clients are proved against the classes. *)

From S2P Require Import Prelude Pages.

(** ** Memory regions *)

(** A region is its first address and its length in bytes. *)
Definition regions_apart (p n q m : Z) : Prop := p + n <= q \/ q + m <= p.

(** ** Whole pages *)

Class PageSource (P : Type) := {
  mm_alloc : P -> Z -> Z * P;
  mm_free : P -> Z -> Z -> P;
  (** [pg_owned s a n]: the [n] pages at address [a] are handed out. *)
  pg_owned : P -> Z -> Z -> Prop
}.

Class PageSourceOk (P : Type) `{PageSource P} := {
  (** Pages handed out are page aligned, inside the address space (the last page is never used)
      and apart from each other. *)
  pg_sane s a n : pg_owned s a n -> 0 < a /\ a mod 4096 = 0 /\ 0 <= n /\ a + n * 4096 <= VM_UPPER_LIMIT;
  pg_apart s a n b m : pg_owned s a n -> pg_owned s b m -> a <> b -> regions_apart a (n * 4096) b (m * 4096);
  pg_alloc_null s n s' : mm_alloc s n = (0, s') ->
    forall b m, pg_owned s' b m <-> pg_owned s b m;
  pg_alloc_ok s n a s' : 0 <= n -> mm_alloc s n = (a, s') -> a <> 0 ->
    (forall m, ~ pg_owned s a m) /\
    forall b m, pg_owned s' b m <-> pg_owned s b m \/ (b = a /\ m = n);
  pg_free_ok s a n : pg_owned s a n ->
    forall b m, pg_owned (mm_free s a n) b m <-> pg_owned s b m /\ b <> a
}.

(** ** The heap *)

Class KernelHeap (H : Type) := {
  halloc : H -> Z -> outcome (Z * H);
  hfree : H -> Z -> outcome H;
  (** [live h p n]: the [n] bytes at [p] are allocated. *)
  live : H -> Z -> Z -> Prop;
  heap_ok : H -> Prop
}.

(** The largest request for which rounding up to pages stays in 32 bits. *)
Definition max_request : Z := 2 ^ 32 - 8192.

Class KernelHeapOk (H : Type) `{KernelHeap H} := {
  live_sane h p n : heap_ok h -> live h p n -> 0 < p /\ 0 <= n /\ p + n <= VM_UPPER_LIMIT;
  live_unique h p n m : heap_ok h -> live h p n -> live h p m -> n = m;
  live_apart h p n q m : heap_ok h -> live h p n -> live h q m -> p <> q -> regions_apart p n q m;
  halloc_ok h n p h' : heap_ok h -> 0 <= n <= max_request -> halloc h n = Ok (p, h') ->
    heap_ok h' /\
    ((p = NULL /\ forall q m, live h' q m <-> live h q m) \/
     (p <> NULL /\ (forall m, ~ live h p m) /\
      exists k, n <= k /\ forall q m, live h' q m <-> live h q m \/ (q = p /\ m = k)));
  halloc_safe h n : heap_ok h -> 0 <= n <= max_request -> halloc h n <> Fault /\ halloc h n <> Hang;
  hfree_ok h p n : heap_ok h -> live h p n ->
    exists h', hfree h p = Ok h' /\ heap_ok h' /\ forall q m, live h' q m <-> live h q m /\ q <> p;
  hfree_unknown h p : heap_ok h -> (forall n, ~ live h p n) -> hfree h p = Panic
}.

(** ** What clients see of an allocation *)

Section Clients.
Context {H : Type} `{KernelHeapOk H}.

(** The heap has no room: it panics or says so with a null pointer. *)
Definition exhausted (h : H) (n : Z) : Prop :=
  halloc h n = Panic \/ exists h', halloc h n = Ok (NULL, h').

(** [h'] is [h] with the [k] bytes at [p] allocated. *)
Definition grown (h : H) (p k : Z) (h' : H) : Prop :=
  heap_ok h' /\ (forall m, ~ live h p m) /\ forall q m, live h' q m <-> live h q m \/ (q = p /\ m = k).

Lemma halloc_result h n :
  heap_ok h -> 0 <= n <= max_request ->
  halloc h n = Panic \/
  (exists h', halloc h n = Ok (NULL, h') /\ heap_ok h' /\ forall q m, live h' q m <-> live h q m) \/
  exists p k h', halloc h n = Ok (p, h') /\ p <> NULL /\ n <= k /\ p + k <= VM_UPPER_LIMIT /\ 0 < p /\ grown h p k h'.
Proof.
  intros Hh Hn. destruct (halloc_safe h n Hh Hn) as [Hf Hg].
  destruct (halloc h n) as [[p h']| | |] eqn:E; try done; [|by left]. right.
  destruct (halloc_ok h n p h' Hh Hn E) as [Hh' [[-> Hl]|(Hp & Hnew & k & Hk & Hl)]]; [left; eauto|right].
  destruct (live_sane h' p k Hh') as (? & ? & ?); [apply Hl; by right|]. exists p, k, h'. by split_and!.
Qed.
End Clients.
