(* ===== verification/DList.v ===== *)
(** * Doubly linked structures in a store of nodes

    Several components keep nodes in memory linked by [prev] and [next]
    pointers.  A store is a map from addresses to nodes; [dseg] relates a piece
    of it to the list of addresses it links, and the lemmas say what inserting
    at either end and unlinking do to that list. *)

From S2P Require Import Prelude.

Section DList.
Context {N : Type} (nprev nnext : N -> Z).

(** From pointer [p], coming from [prev], the nodes [l] lead to pointer [q]. *)
Fixpoint dseg (m : gmap Z N) (prev p : Z) (l : list Z) (q : Z) : Prop :=
  match l with
  | [] => p = q
  | a :: l' => p = a /\ a <> NULL /\
      exists n, m !! a = Some n /\ nprev n = prev /\ dseg m a (nnext n) l' q
  end.

(** A whole list: it starts with no predecessor and ends in a null pointer. *)
Definition dlist (m : gmap Z N) (first : Z) (l : list Z) : Prop := dseg m NULL first l NULL.

(** The address before the end of a segment, and the one it starts with. *)
Definition tail_of (prev : Z) (l : list Z) : Z := default prev (last l).
Definition head_of (l : list Z) (q : Z) : Z := default q (head l).

Lemma tail_of_cons prev a l : tail_of prev (a :: l) = tail_of a l.
Proof. unfold tail_of. rewrite last_cons. by destruct (last l). Qed.

Lemma dseg_app m l2 q : forall l1 prev p,
  dseg m prev p (l1 ++ l2) q <-> exists r, dseg m prev p l1 r /\ dseg m (tail_of prev l1) r l2 q.
Proof.
  induction l1 as [|a l1 IH]; intros prev p; cbn [app dseg].
  - split; [by exists p|]. by intros (r & -> & ?).
  - split.
    + intros (-> & Ha & n & Hn & Hp & (r & H1 & H2)%IH). exists r. rewrite tail_of_cons. eauto 10.
    + intros (r & (-> & Ha & n & Hn & Hp & H1) & H2). rewrite tail_of_cons in H2.
      repeat split; [done|]. exists n. repeat split; [done..|]. apply IH. eauto.
Qed.

Lemma dseg_head m prev p l q : dseg m prev p l q -> p = head_of l q.
Proof. destruct l; cbn; [done|]. by intros [-> _]. Qed.

Lemma dseg_lookup m a q : forall l prev p, dseg m prev p l q -> a ∈ l -> a <> NULL /\ is_Some (m !! a).
Proof.
  induction l as [|b l IH]; intros prev p; cbn; [by intros _ ?%elem_of_nil|].
  intros (-> & Hb & n & Hn & _ & Hl) [->|Hin]%elem_of_cons; [eauto|]. by eapply IH.
Qed.

(** Only the links of the members matter. *)
Lemma dseg_frame m m' q : forall l prev p,
  (forall a n, a ∈ l -> m !! a = Some n ->
     exists n', m' !! a = Some n' /\ nprev n' = nprev n /\ nnext n' = nnext n) ->
  dseg m prev p l q -> dseg m' prev p l q.
Proof.
  induction l as [|a l IH]; intros prev p Hf; cbn; [done|].
  intros (-> & Ha & n & Hn & Hp & Hl).
  destruct (Hf a n) as (n' & Hn' & Hp' & Hx'); [apply elem_of_cons; by left|done|].
  repeat split; [done|]. exists n'. rewrite Hp', Hx'. repeat split; [done..|].
  apply IH; [|done]. intros b nb Hb. apply Hf. apply elem_of_cons. by right.
Qed.

(** The last node of a segment is made to point elsewhere. *)
Lemma dseg_retarget m m' q q' : forall l prev p,
  NoDup l ->
  (forall a n, a ∈ l -> m !! a = Some n ->
     exists n', m' !! a = Some n' /\ nprev n' = nprev n /\
                nnext n' = if decide (last l = Some a) then q' else nnext n) ->
  dseg m prev p l q -> dseg m' prev (head_of l q') l q'.
Proof.
  induction l as [|a l IH]; intros prev p Hnd Hf; cbn; [done|].
  intros (-> & Ha & n & Hn & Hp & Hl). inversion Hnd as [|? ? Hnin Hnd']; subst.
  destruct (Hf a n) as (n' & Hn' & Hp' & Hx'); [apply elem_of_cons; by left|done|].
  repeat split; [done|]. exists n'. repeat split; [done..|].
  assert (Hlast : forall b, b ∈ l -> last (a :: l) = Some b <-> last l = Some b).
  { intros b Hb. rewrite last_cons. destruct (last l) eqn:E; [done|].
    apply last_None in E. subst. by apply elem_of_nil in Hb. }
  assert (Htl : dseg m' a (head_of l q') l q').
  { apply (IH a (nnext n)); [done| |done]. intros b nb Hb Hnb.
    destruct (Hf b nb) as (nb' & Hnb' & Hpb & Hxb); [apply elem_of_cons; by right|done|].
    exists nb'. repeat split; [done..|]. rewrite Hxb.
    destruct (decide (last (a :: l) = Some b)) as [E|E], (decide (last l = Some b)) as [E'|E']; try done;
      exfalso; [apply E'|apply E]; by apply Hlast. }
  replace (nnext n') with (head_of l q'); [done|]. rewrite Hx'.
  destruct l as [|b l]; cbn; [by rewrite decide_True|].
  rewrite decide_False; [by apply dseg_head in Hl|].
  intros E. apply Hnin, last_Some_elem_of. exact E.
Qed.

(** The first node of a segment gets another predecessor. *)
Lemma dseg_reprev m m' q prev prev' p l :
  NoDup l ->
  (forall a n, a ∈ l -> m !! a = Some n ->
     exists n', m' !! a = Some n' /\ nnext n' = nnext n /\
                nprev n' = if decide (head l = Some a) then prev' else nprev n) ->
  dseg m prev p l q -> dseg m' prev' p l q.
Proof.
  destruct l as [|a l]; [done|]. intros [Hnin Hnd]%NoDup_cons Hf (-> & Ha & n & Hn & Hp & Hl).
  destruct (Hf a n) as (n' & Hn' & Hx' & Hp'); [apply elem_of_cons; by left|done|].
  repeat split; [done|]. exists n'. rewrite Hp', Hx', decide_True by done. repeat split; [done..|].
  eapply dseg_frame; [|done]. intros b nb Hb Hnb.
  destruct (Hf b nb) as (nb' & Hnb' & Hxb & Hpb); [apply elem_of_cons; by right|done|].
  exists nb'. repeat split; [done| |done]. rewrite Hpb, decide_False; [done|].
  cbn. intros [= ->]. done.
Qed.

(** A new node in front: its successor, if any, points back at it. *)
Lemma dlist_push_front m m' first a n l :
  dlist m first l -> NoDup l -> a ∉ l -> a <> NULL ->
  m' !! a = Some n -> nprev n = NULL -> nnext n = first ->
  (forall b nb, b ∈ l -> m !! b = Some nb ->
     exists nb', m' !! b = Some nb' /\ nnext nb' = nnext nb /\
                 nprev nb' = if decide (b = first) then a else nprev nb) ->
  dlist m' a (a :: l).
Proof.
  intros Hl Hnd Hnin Ha Hn Hp Hx Hf. repeat split; [done|]. exists n. rewrite Hx.
  repeat split; [done..|]. eapply dseg_reprev; [done| |exact Hl].
  intros b nb Hb Hnb. destruct (Hf b nb Hb Hnb) as (nb' & ? & ? & Hpb). exists nb'.
  repeat split; [done..|]. rewrite Hpb. apply dseg_head in Hl. subst first.
  destruct l as [|c l]; [by apply elem_of_nil in Hb|]. cbn.
  destruct (decide (b = c)), (decide (Some c = Some b)); congruence.
Qed.

(** A new node at the end: the previous last node points at it. *)
Lemma dlist_push_back m m' first a n l :
  dlist m first l -> NoDup l -> a ∉ l -> a <> NULL ->
  m' !! a = Some n -> nprev n = tail_of NULL l -> nnext n = NULL ->
  (forall b nb, b ∈ l -> m !! b = Some nb ->
     exists nb', m' !! b = Some nb' /\ nprev nb' = nprev nb /\
                 nnext nb' = if decide (b = tail_of NULL l) then a else nnext nb) ->
  dlist m' (head_of l a) (l ++ [a]).
Proof.
  intros Hl Hnd Hnin Ha Hn Hp Hx Hf. unfold dlist. apply dseg_app. exists a. split.
  - apply (dseg_retarget m m' NULL a l NULL first); [done| |exact Hl].
    intros b nb Hb Hnb. destruct (Hf b nb Hb Hnb) as (nb' & ? & ? & Hxb). exists nb'.
    repeat split; [done..|]. rewrite Hxb. unfold tail_of. destruct (last l) as [c|] eqn:E; cbn.
    + destruct (decide (b = c)), (decide (Some c = Some b)); congruence.
    + apply last_None in E. subst. by apply elem_of_nil in Hb.
  - repeat split; [done|]. exists n. by repeat split.
Qed.

(** Unlinking the node [a]: its neighbours point at each other. *)
Lemma dlist_unlink m m' first a n l1 l2 :
  dlist m first (l1 ++ a :: l2) -> NoDup (l1 ++ a :: l2) -> m !! a = Some n ->
  (forall b nb, b ∈ l1 ++ l2 -> m !! b = Some nb ->
     exists nb', m' !! b = Some nb' /\
       nnext nb' = (if decide (b = nprev n) then nnext n else nnext nb) /\
       nprev nb' = (if decide (b = nnext n) then nprev n else nprev nb)) ->
  dlist m' (if decide (a = first) then nnext n else first) (l1 ++ l2).
Proof.
  intros Hl Hnd Hn Hf. unfold dlist in *.
  apply dseg_app in Hl as (r & H1 & (-> & Ha & n' & Hn' & Hprev & H2)).
  assert (n' = n) as -> by congruence. clear Hn'.
  apply NoDup_app in Hnd as (Hnd1 & Hd & [Hnin Hnd2]%NoDup_cons).
  assert (Hna1 : a ∉ l1) by (intros Hin; eapply Hd; [exact Hin|apply elem_of_cons; by left]).
  assert (Hp : forall b, b ∈ l1 -> b = nprev n <-> last l1 = Some b).
  { intros b Hb. rewrite Hprev. unfold tail_of. destruct (last l1) as [c|] eqn:E; cbn; [naive_solver|].
    apply last_None in E. subst. by apply elem_of_nil in Hb. }
  assert (Hx : forall b, b ∈ l2 -> b = nnext n <-> head l2 = Some b).
  { intros b Hb. apply dseg_head in H2. rewrite H2. unfold head_of.
    destruct l2 as [|c l2]; cbn; [by apply elem_of_nil in Hb|naive_solver]. }
  assert (Hcross1 : forall b, b ∈ l1 -> b <> nnext n).
  { intros b Hb ->. apply dseg_head in H2 as E. destruct l2 as [|c l2]; cbn in E.
    - rewrite E in Hb. by destruct (dseg_lookup _ _ _ _ _ _ H1 Hb).
    - rewrite E in Hb. eapply Hd; [exact Hb|]. apply elem_of_cons. right. apply elem_of_cons. by left. }
  assert (Hcross2 : forall b, b ∈ l2 -> b <> nprev n).
  { intros b Hb ->. rewrite Hprev in Hb. unfold tail_of in Hb. destruct (last l1) as [c|] eqn:E; cbn in Hb.
    - apply last_Some_elem_of in E. eapply Hd; [exact E|]. apply elem_of_cons. by right.
    - by destruct (dseg_lookup _ _ _ _ _ _ H2 Hb). }
  assert (Hfirst : (if decide (a = first) then nnext n else first) = head_of l1 (nnext n)).
  { apply dseg_head in H1 as ->. destruct l1 as [|c l1]; cbn; [by rewrite decide_True|].
    rewrite decide_False; [done|]. intros ->. apply Hna1, elem_of_cons. by left. }
  rewrite Hfirst. apply dseg_app. exists (nnext n). split.
  - apply (dseg_retarget m m' a (nnext n) l1 NULL first); [done| |exact H1].
    intros b nb Hb Hnb. destruct (Hf b nb) as (nb' & Hb' & Hxb & Hpb); [apply elem_of_app; by left|done|].
    exists nb'. rewrite Hpb, decide_False by (by apply Hcross1). repeat split; [done..|].
    rewrite Hxb. destruct (decide (b = nprev n)), (decide (last l1 = Some b)); naive_solver.
  - apply (dseg_reprev m m' NULL a _ (nnext n) l2); [done| |exact H2].
    intros b nb Hb Hnb. destruct (Hf b nb) as (nb' & Hb' & Hxb & Hpb); [apply elem_of_app; by right|done|].
    exists nb'. rewrite Hxb, decide_False by (by apply Hcross2). repeat split; [done..|].
    rewrite Hpb, <- Hprev. destruct (decide (b = nnext n)), (decide (head l2 = Some b)); naive_solver.
Qed.

(** The links of a member, read off the list. *)
Lemma dlist_links m first l1 a l2 :
  dlist m first (l1 ++ a :: l2) ->
  exists n, m !! a = Some n /\ nprev n = tail_of NULL l1 /\ nnext n = head_of l2 NULL.
Proof.
  intros Hl. apply dseg_app in Hl as (r & _ & (_ & _ & n & Hn & Hp & H2)).
  exists n. repeat split; [done..|]. by apply dseg_head in H2.
Qed.

Lemma dlist_first m first l : dlist m first l -> first = head_of l NULL.
Proof. apply dseg_head. Qed.
End DList.
