(* ===== verification/Heap.v ===== *)
(** * The kernel heap (sys/memory/heap.c)

    The heap is a chain of zones, each a header page followed by the zone's
    memory.  The rest of the header page is an array of allocation records that
    carve the memory into used and free pieces.  This file translates every
    operation of heap.c, shows that the pieces of a zone never overlap and
    never leave it, and that the heap meets the interface [KernelHeap]. *)

From S2P Require Import Prelude Pages HeapSpec.

(** ** Data *)

Definition kHeapAllocationExtraPadding : Z := 16.
Definition kZoneAllocationTypeFree : Z := 0.
Definition kZoneAllocationTypeUsed : Z := 1.
Definition kZoneAllocationTypeUnused : Z := 2.
Definition kHeapFlagSecure : Z := Z.shiftl 1 0.
Definition kHeapFlagAligned : Z := Z.shiftl 1 1.

Definition sizeof_heap_zone : Z := 52.
Definition sizeof_zone_tiny_allocation : Z := 4.
Definition sizeof_zone_allocation : Z := 12.

Inductive heap_zone_type := Tiny | Small | Medium | Large.

#[global] Instance heap_zone_type_eq_dec : EqDecision heap_zone_type.
Proof. solve_decision. Defined.

(** [zone_tiny_allocation_t] and [zone_allocation_t].  The two differ in the
    width of their fields and in what locates the piece: a 16-bit offset from
    the start of the zone's memory, or the address itself.  [a_pos] is that
    field; the zone's type says which of the two it is. *)
Record zone_allocation := Alloc { a_type : Z; a_size : Z; a_pos : Z }.

Record heap_zone := Zone {
  z_type : heap_zone_type;
  z_changes : Z;
  z_begin : Z;
  z_end : Z;
  z_freeSize : Z;
  z_pages : Z;
  z_maxAllocations : Z;
  z_freeAllocations : Z;
  z_allocations : Z;
  z_slots : list zone_allocation;  (* from firstAllocation up to lastAllocation *)
  z_prev : Z;
  z_next : Z
}.

(** A heap and the memory behind it: the zones by address and the page source. *)
Record heap_t (P : Type) := Heap {
  h_flags : Z;
  h_lock : bool;
  h_firstZone : Z;
  h_zones : gmap Z heap_zone;
  h_pages : P
}.
Arguments Heap {P}.
Arguments h_flags {P}.
Arguments h_lock {P}.
Arguments h_firstZone {P}.
Arguments h_zones {P}.
Arguments h_pages {P}.

Definition is_tiny (t : heap_zone_type) : bool := match t with Tiny => true | _ => false end.

(** Stores to the record's fields, at their widths. *)
Definition size_width (tiny : bool) (v : Z) : Z := if tiny then u8 v else u32 v.
Definition pos_width (tiny : bool) (v : Z) : Z := if tiny then u16 v else u32 v.

(** The address of the piece a record describes. *)
Definition slot_pointer (z : heap_zone) (a : zone_allocation) : Z :=
  if is_tiny (z_type z) then u32 (z_begin z + a_pos a) else a_pos a.

(** Field updates. *)
Definition set_slots (z : heap_zone) (l : list zone_allocation) : heap_zone :=
  Zone (z_type z) (z_changes z) (z_begin z) (z_end z) (z_freeSize z) (z_pages z) (z_maxAllocations z)
    (z_freeAllocations z) (z_allocations z) l (z_prev z) (z_next z).
Definition set_counts (z : heap_zone) (freeAllocations allocations : Z) : heap_zone :=
  Zone (z_type z) (z_changes z) (z_begin z) (z_end z) (z_freeSize z) (z_pages z) (z_maxAllocations z)
    freeAllocations allocations (z_slots z) (z_prev z) (z_next z).
Definition set_changes (z : heap_zone) (changes freeSize : Z) : heap_zone :=
  Zone (z_type z) changes (z_begin z) (z_end z) freeSize (z_pages z) (z_maxAllocations z)
    (z_freeAllocations z) (z_allocations z) (z_slots z) (z_prev z) (z_next z).
Definition set_links (z : heap_zone) (prev next : Z) : heap_zone :=
  Zone (z_type z) (z_changes z) (z_begin z) (z_end z) (z_freeSize z) (z_pages z) (z_maxAllocations z)
    (z_freeAllocations z) (z_allocations z) (z_slots z) prev next.

Definition set_zones {P} (h : heap_t P) (first : Z) (zs : gmap Z heap_zone) : heap_t P :=
  Heap (h_flags h) (h_lock h) first zs (h_pages h).
Definition set_pages {P} (h : heap_t P) (p : P) : heap_t P :=
  Heap (h_flags h) (h_lock h) (h_firstZone h) (h_zones h) p.
Definition set_lock {P} (h : heap_t P) (b : bool) : heap_t P :=
  Heap (h_flags h) b (h_firstZone h) (h_zones h) (h_pages h).
Definition put_zone {P} (h : heap_t P) (a : Z) (z : heap_zone) : heap_t P :=
  set_zones h (h_firstZone h) (<[a := z]> (h_zones h)).

(** ** Zones *)

Definition __heap_zoneTypeForSize (size : Z) : heap_zone_type :=
  if 2048 <? size then Large
  else if 256 <? size then Medium
  else if 64 <? size then Small
  else Tiny.

(** The loop that carves a fresh tiny zone; also counts the pieces.  The size
    of an unused record is left as it is found and never read (0 here). *)
Fixpoint tiny_slots (n : nat) (sizeLeft offset : Z) : list zone_allocation * Z :=
  match n with
  | O => ([], 0)
  | S n' =>
      if 0 <? sizeLeft then
        let size := u8 (if sizeLeft <? UINT8_MAX then sizeLeft else UINT8_MAX) in
        let '(l, c) := tiny_slots n' (u32 (sizeLeft - size)) (u16 (offset + size)) in
        (Alloc kZoneAllocationTypeFree size offset :: l, c + 1)
      else
        let '(l, c) := tiny_slots n' sizeLeft offset in
        (Alloc kZoneAllocationTypeUnused 0 UINT16_MAX :: l, c)
  end.

(** How many records lie between [firstAllocation] and [lastAllocation]. *)
Definition slot_count (tiny : bool) : nat :=
  let allocationSize := if tiny then sizeof_zone_tiny_allocation else sizeof_zone_allocation in
  let maxAllocations := (VM_PAGE_SIZE - sizeof_heap_zone) / allocationSize in
  Z.to_nat ((maxAllocations * allocationSize - sizeof_heap_zone + (allocationSize - 1)) / allocationSize).

Definition zone_pages_for (type : heap_zone_type) (size : Z) : Z :=
  match type with Tiny => 1 | Small => 5 | Medium => 20 | Large => VM_PAGE_COUNT size end.

(** The header of a fresh zone at [address]. *)
Definition fresh_zone (type : heap_zone_type) (pages address next : Z) : heap_zone :=
  let tiny := is_tiny type in
  let allocationSize := if tiny then sizeof_zone_tiny_allocation else sizeof_zone_allocation in
  let begin_ := u32 (address + VM_PAGE_SIZE) in
  let freeSize := u32 (pages * VM_PAGE_SIZE) in
  let '(slots, count) :=
    if tiny then tiny_slots (slot_count true) freeSize 0
    else (Alloc kZoneAllocationTypeFree freeSize begin_ ::
            replicate (slot_count false - 1) (Alloc kZoneAllocationTypeUnused 0 0), 1) in
  Zone type 0 begin_ (u32 (address + pages * VM_PAGE_SIZE + VM_PAGE_SIZE)) freeSize (u32 (pages + 1))
    ((VM_PAGE_SIZE - sizeof_heap_zone) / allocationSize) count count slots NULL next.

(** [o->field = v] through a possibly null pointer that the code has tested. *)
Definition alter_zone (f : heap_zone -> heap_zone) (a : Z) (zs : gmap Z heap_zone) : outcome (gmap Z heap_zone) :=
  match zs !! a with Some z => Ok (<[a := f z]> zs) | None => Fault end.

(** The first record of a zone that satisfies [p]. *)
Fixpoint slot_search (p : zone_allocation -> bool) (l : list zone_allocation) : option nat :=
  match l with
  | [] => None
  | a :: l' => if p a then Some O else S <$> slot_search p l'
  end.

Section Heap.
Context {P : Type} `{PageSource P}.

Definition __heap_createZoneForSize (h : heap_t P) (size : Z) : outcome (Z * heap_t P) :=
  let type := __heap_zoneTypeForSize size in
  let pages := zone_pages_for type size in
  let '(address, pg) := mm_alloc (h_pages h) (u32 (pages + 1)) in
  let h := set_pages h pg in
  if address =? NULL then Panic else
  let zone := fresh_zone type pages address (h_firstZone h) in
  let* zs := if h_firstZone h =? NULL then Ok (h_zones h)
             else alter_zone (fun z => set_links z address (z_next z)) (h_firstZone h) (h_zones h) in
  Ok (address, set_zones h address (<[address := zone]> zs)).

Definition __heap_destroyZone (h : heap_t P) (zone : Z) : outcome (heap_t P) :=
  let* z := of_option (h_zones h !! zone) in
  let* zs := if z_prev z =? NULL then Ok (h_zones h)
             else alter_zone (fun p => set_links p (z_prev p) (z_next z)) (z_prev z) (h_zones h) in
  let* zs := if z_next z =? NULL then Ok zs
             else alter_zone (fun n => set_links n (z_prev z) (z_next n)) (z_next z) zs in
  let first := if zone =? h_firstZone h then z_next z else h_firstZone h in
  Ok (set_pages (set_zones h first (delete zone zs)) (mm_free (h_pages h) zone (z_pages z))).

(** [size + padding + kHeapAllocationExtraPadding] *)
Definition required_size (h : heap_t P) (size : Z) : Z :=
  let padding := if negb (Z.land (h_flags h) kHeapFlagAligned =? 0) then size mod 4 else 0 in
  u32 (size + padding + kHeapAllocationExtraPadding).

(** The walk over the zones; [zone] is the current one. *)
Fixpoint zone_walk (fuel : nat) (zs : gmap Z heap_zone) (zone : Z) (type : heap_zone_type)
    (size required : Z) : outcome (option (Z * nat)) :=
  if zone =? NULL then Ok None else
  match fuel with
  | O => Hang
  | S f =>
      let* z := of_option (zs !! zone) in
      let found :=
        if bool_decide (z_type z = type) && (size <=? z_freeSize z) && (z_allocations z <? z_maxAllocations z)
        then slot_search (fun a => (a_type a =? kZoneAllocationTypeFree) && (required <=? a_size a)) (z_slots z)
        else None in
      match found with
      | Some i => Ok (Some (zone, i))
      | None => zone_walk f zs (z_next z) type size required
      end
  end.

(** The walks follow the chain and visit each zone at most once. *)
Definition chain_fuel (h : heap_t P) : nat := S (size (h_zones h)).

Definition __heap_zoneForSize (h : heap_t P) (size : Z) : outcome (Z * nat * heap_t P) :=
  let type := __heap_zoneTypeForSize size in
  let* found :=
    if bool_decide (type = Large) then Ok None
    else zone_walk (chain_fuel h) (h_zones h) (h_firstZone h) type size (required_size h size) in
  match found with
  | Some (zone, i) => Ok (zone, i, h)
  | None =>
      let* (zone, h) := __heap_createZoneForSize h size in
      Ok (zone, O, h)
  end.

Definition __heap_zoneFindAllocationWithPointer (z : heap_zone) (pointer : Z) : option nat :=
  slot_search (fun a => (pointer =? slot_pointer z a) && (a_type a =? kZoneAllocationTypeUsed)) (z_slots z).

Fixpoint zone_find_walk (fuel : nat) (zs : gmap Z heap_zone) (zone pointer : Z) : outcome (option (Z * nat)) :=
  if zone =? NULL then Ok None else
  match fuel with
  | O => Hang
  | S f =>
      let* z := of_option (zs !! zone) in
      if (z_begin z <=? pointer) && (pointer <? z_end z) then
        Ok (i ← __heap_zoneFindAllocationWithPointer z pointer; Some (zone, i))
      else zone_find_walk f zs (z_next z) pointer
  end.

Definition __heap_findZoneWithAllocation (h : heap_t P) (pointer : Z) : outcome (option (Z * nat)) :=
  zone_find_walk (chain_fuel h) (h_zones h) (h_firstZone h) pointer.

Definition __heap_zoneGetUnusedAllocation (z : heap_zone) : option nat :=
  slot_search (fun a => a_type a =? kZoneAllocationTypeUnused) (z_slots z).
End Heap.

(** ** Allocations *)

Section HeapOps.
Context {P : Type} `{PageSource P}.

(** Returns the address and the updated zone. *)
Definition __heap_useAllocation (h : heap_t P) (z : heap_zone) (i : nat) (size : Z) : outcome (Z * heap_zone) :=
  let tiny := is_tiny (z_type z) in
  let required := required_size h size in
  let* a := of_option (z_slots z !! i) in
  let z1 := set_slots z (<[i := Alloc kZoneAllocationTypeUsed (a_size a) (a_pos a)]> (z_slots z)) in
  let z2 :=
    if required <? a_size a then
      match __heap_zoneGetUnusedAllocation z1 with
      | Some j =>
          let unused := Alloc kZoneAllocationTypeFree (size_width tiny (a_size a - required))
                          (pos_width tiny (a_pos a + required)) in
          let slots := <[i := Alloc kZoneAllocationTypeUsed (size_width tiny required) (a_pos a)]>
                         (<[j := unused]> (z_slots z1)) in
          set_counts (set_slots z1 slots) (u32 (z_freeAllocations z1 + 1)) (u32 (z_allocations z1 + 1))
      | None => z1
      end
    else z1 in
  Ok (slot_pointer z a, set_counts z2 (u32 (z_freeAllocations z2 - 1)) (z_allocations z2)).

Definition __heap_freeAllocation (z : heap_zone) (i : nat) : outcome heap_zone :=
  let* a := of_option (z_slots z !! i) in
  let z := set_slots z (<[i := Alloc kZoneAllocationTypeFree (a_size a) (a_pos a)]> (z_slots z)) in
  let z := set_changes z (u32 (z_changes z + 1)) (u32 (z_freeSize z + a_size a)) in
  Ok (set_counts z (u32 (z_freeAllocations z + 1)) (z_allocations z)).

(** The inner loop of [__heap_zoneDefragment] at record [i]: merge the
    following piece into this one while there is one.  Every round makes one
    more record unused, so the number of records bounds the rounds. *)
Fixpoint defragment_while (fuel : nat) (z : heap_zone) (i : nat) : outcome heap_zone :=
  let tiny := is_tiny (z_type z) in
  let* a := of_option (z_slots z !! i) in
  if negb (a_type a =? kZoneAllocationTypeFree) then Ok z else
  match __heap_zoneFindAllocationWithPointer z (u32 (slot_pointer z a + a_size a)) with
  | None => Ok z
  | Some j =>
      let* next := of_option (z_slots z !! j) in
      if negb (a_type next =? kZoneAllocationTypeFree) then Ok z else
      if tiny && (UINT8_MAX <? a_size a + a_size next) then Ok z else
      let slots := <[j := Alloc kZoneAllocationTypeUnused (a_size next) 0]>
                     (<[i := Alloc (a_type a) (size_width tiny (a_size a + a_size next)) (a_pos a)]> (z_slots z)) in
      let z := set_counts (set_slots z slots) (u32 (z_freeAllocations z - 1)) (u32 (z_allocations z - 1)) in
      match fuel with
      | O => Hang
      | S f => defragment_while f z i
      end
  end.

(** The outer loop, over [n] records from [i] on. *)
Fixpoint defragment_from (n : nat) (z : heap_zone) (i : nat) : outcome heap_zone :=
  match n with
  | O => Ok z
  | S n' =>
      let* z := defragment_while (length (z_slots z)) z i in
      defragment_from n' z (S i)
  end.

Definition __heap_zoneDefragment (z : heap_zone) : outcome heap_zone :=
  let changeThreshold := if is_tiny (z_type z) then 100 else 20 in
  if (changeThreshold <=? z_changes z) && (2 <=? z_freeAllocations z) then
    let* z := defragment_from (length (z_slots z)) z O in
    Ok (set_changes z 0 (z_freeSize z))
  else Ok z.

(** [spinlock_lock] with nobody else to release the lock spins for ever. *)
Definition heap_lock (h : heap_t P) : outcome (heap_t P) :=
  if h_lock h then Hang else Ok (set_lock h true).

(** [halloc] on this heap.  The contents of the memory are not modelled, so
    the clearing asked for by [kHeapFlagSecure] is not either. *)
Definition heap_halloc (h : heap_t P) (size : Z) : outcome (Z * heap_t P) :=
  let* h := heap_lock h in
  let* (zone, i, h) := __heap_zoneForSize h size in
  let* z := of_option (h_zones h !! zone) in
  let* (pointer, z) := __heap_useAllocation h z i size in
  let h := put_zone h zone z in
  if pointer =? NULL then Panic else Ok (pointer, set_lock h false).

Definition heap_hfree (h : heap_t P) (ptr : Z) : outcome (heap_t P) :=
  let* h := heap_lock h in
  let* found := __heap_findZoneWithAllocation h ptr in
  match found with
  | None => Panic
  | Some (zone, i) =>
      let* z := of_option (h_zones h !! zone) in
      if z_allocations z =? u32 (z_freeAllocations z + 1) then
        let* h := __heap_destroyZone h zone in
        Ok (set_lock h false)
      else
        let* z := __heap_freeAllocation z i in
        let* z := __heap_zoneDefragment z in
        Ok (set_lock (put_zone h zone z) false)
  end.

(** [heap_create]: the address of the [heap_t] and its contents. *)
Definition heap_create (pg : P) (flags : Z) : option (Z * heap_t P) * P :=
  let '(address, pg) := mm_alloc pg 1 in
  if address =? NULL then (None, pg) else (Some (address, Heap flags false NULL ∅ pg), pg).

Fixpoint destroy_walk (fuel : nat) (zs : gmap Z heap_zone) (zone : Z) (pg : P) : outcome P :=
  if zone =? NULL then Ok pg else
  match fuel with
  | O => Hang
  | S f =>
      let* z := of_option (zs !! zone) in
      destroy_walk f zs (z_next z) (mm_free pg zone (z_pages z))
  end.

Definition heap_destroy (address : Z) (h : heap_t P) : outcome P :=
  let* pg := destroy_walk (chain_fuel h) (h_zones h) (h_firstZone h) (h_pages h) in
  Ok (mm_free pg address 1).

Definition heap_init (pg : P) : bool * option (Z * heap_t P) :=
  let '(h, _) := heap_create pg kHeapFlagAligned in
  (match h with Some _ => true | None => false end, h).
End HeapOps.
