(* ===== verification/HeapCorrect.v ===== *)
(** * The kernel heap is correct

    The invariant of a zone and of the chain of zones, its preservation by
    every operation of [Heap], and the instance that discharges the interface
    [KernelHeapOk] for any correct page source. *)

From S2P Require Import Prelude Pages HeapSpec DList Heap.

(** ** Sums over records *)

Fixpoint zsum {A : Type} (f : A -> Z) (l : list A) : Z :=
  match l with [] => 0 | a :: l' => f a + zsum f l' end.

Lemma zsum_insert {A : Type} (f : A -> Z) (l : list A) i x y :
  l !! i = Some x -> zsum f (<[i := y]> l) = zsum f l - f x + f y.
Proof.
  revert i. induction l as [|a l IH]; intros [|i]; csimpl; try done.
  - intros [= ->]. lia.
  - intros Hx. rewrite (IH i Hx). lia.
Qed.

Lemma zsum_nonneg {A : Type} (f : A -> Z) (l : list A) : (forall a, 0 <= f a) -> 0 <= zsum f l.
Proof. intros Hf. induction l as [|a l IH]; cbn; [lia|]. specialize (Hf a). lia. Qed.

Lemma zsum_bound {A : Type} (f : A -> Z) (l : list A) :
  (forall a, f a <= 1) -> zsum f l <= Z.of_nat (length l).
Proof. intros Hf. induction l as [|a l IH]; cbn; [lia|]. specialize (Hf a). lia. Qed.

Lemma zsum_le {A : Type} (f g : A -> Z) (l : list A) : (forall a, f a <= g a) -> zsum f l <= zsum g l.
Proof. intros Hf. induction l as [|a l IH]; cbn; [lia|]. specialize (Hf a). lia. Qed.

Lemma zsum_pos {A : Type} (f : A -> Z) (l : list A) i x :
  (forall a, 0 <= f a) -> l !! i = Some x -> f x <= zsum f l.
Proof.
  intros Hf. revert i. induction l as [|a l IH]; intros [|i]; cbn; try done.
  - intros [= ->]. pose proof (zsum_nonneg f l Hf). lia.
  - intros Hx. specialize (IH i Hx). specialize (Hf a). lia.
Qed.

Lemma zsum_two {A : Type} (f : A -> Z) (l : list A) i j x y :
  (forall a, 0 <= f a) -> i <> j -> l !! i = Some x -> l !! j = Some y -> f x + f y <= zsum f l.
Proof.
  intros Hf. revert i j. induction l as [|a l IH]; intros [|i] [|j] Hne; cbn; try done.
  - intros [= ->] Hy. pose proof (zsum_pos f l j y Hf Hy). lia.
  - intros Hx [= ->]. pose proof (zsum_pos f l i x Hf Hx). lia.
  - intros Hx Hy. assert (i <> j) by congruence. pose proof (IH i j ltac:(done) Hx Hy).
    specialize (Hf a). lia.
Qed.

(** ** Searching records *)

Lemma slot_search_Some p l i :
  slot_search p l = Some i -> exists a, l !! i = Some a /\ p a = true.
Proof.
  revert i. induction l as [|a l IH]; intros i; cbn; [done|].
  destruct (p a) eqn:E; [intros [= <-]; eauto|].
  destruct (slot_search p l) as [k|]; cbn; [|done]. intros [= <-]. by apply IH.
Qed.

Lemma slot_search_None p l i a : slot_search p l = None -> l !! i = Some a -> p a = false.
Proof.
  revert i. induction l as [|b l IH]; intros i; cbn; [done|].
  destruct (p b) eqn:E; [done|]. destruct (slot_search p l) eqn:F; [done|]. intros _.
  destruct i as [|i]; cbn; [by intros [= <-]|]. by apply IH.
Qed.

(** ** The invariant of a zone *)

Definition is_free (s : zone_allocation) : bool := a_type s =? kZoneAllocationTypeFree.
Definition is_used (s : zone_allocation) : bool := a_type s =? kZoneAllocationTypeUsed.
Definition is_piece (s : zone_allocation) : bool := is_free s || is_used s.

Definition one_if (b : bool) : Z := if b then 1 else 0.

(** Where a piece starts, before any wrap-around. *)
Definition slot_lo (z : heap_zone) (s : zone_allocation) : Z :=
  if is_tiny (z_type z) then z_begin z + a_pos s else a_pos s.

(** One record: a piece is not empty and lies in the zone's memory. *)
Definition slot_ok (z : heap_zone) (s : zone_allocation) : Prop :=
  is_piece s = true ->
  0 < a_size s /\ z_begin z <= slot_lo z s /\ slot_lo z s + a_size s <= z_end z /\
  (is_tiny (z_type z) = true -> a_size s <= UINT8_MAX).

Record zone_ok (address : Z) (z : heap_zone) : Prop := {
  zo_begin : z_begin z = address + 4096;
  zo_end : z_end z = address + z_pages z * 4096;
  zo_pages : 1 < z_pages z;
  zo_range : 0 < address /\ z_end z <= VM_UPPER_LIMIT;
  zo_tiny : is_tiny (z_type z) = true -> z_pages z = 2;
  zo_count : Z.of_nat (length (z_slots z)) <= 2000;
  zo_slot i s : z_slots z !! i = Some s -> slot_ok z s;
  zo_apart i j s t : i <> j -> z_slots z !! i = Some s -> z_slots z !! j = Some t ->
    is_piece s = true -> is_piece t = true ->
    regions_apart (slot_lo z s) (a_size s) (slot_lo z t) (a_size t);
  zo_allocations : z_allocations z = zsum (fun s => one_if (is_piece s)) (z_slots z);
  zo_freeAllocations : z_freeAllocations z = zsum (fun s => one_if (is_free s)) (z_slots z);
  zo_sum : zsum (fun s => if is_piece s then a_size s else 0) (z_slots z) = z_end z - z_begin z
}.

(** [zone_used z p n]: the [n] bytes at [p] are a used piece of the zone. *)
Definition zone_used (z : heap_zone) (p n : Z) : Prop :=
  exists i s, z_slots z !! i = Some s /\ is_used s = true /\ slot_lo z s = p /\ a_size s = n.

Lemma used_piece s : is_used s = true -> is_piece s = true.
Proof. unfold is_piece. intros ->. apply orb_true_r. Qed.

Lemma free_piece s : is_free s = true -> is_piece s = true.
Proof. unfold is_piece. by intros ->. Qed.

Lemma free_not_used s : is_free s = true -> is_used s = true -> False.
Proof. unfold is_free, is_used. intros ->%Z.eqb_eq. done. Qed.

Create HintDb heap.
#[export] Hint Resolve used_piece free_piece : heap.

Section ZoneFacts.
Context (address : Z) (z : heap_zone) (Hz : zone_ok address z).

Lemma slot_pointer_lo s : slot_ok z s -> is_piece s = true -> slot_pointer z s = slot_lo z s.
Proof.
  intros Hs Hp. destruct (Hs Hp) as (H0 & Hb & He & _). unfold slot_pointer, slot_lo in *.
  destruct (is_tiny (z_type z)); [|done]. apply u32_small.
  destruct (zo_range _ _ Hz). pose proof (zo_begin _ _ Hz). unfold VM_UPPER_LIMIT in *. lia.
Qed.

(** Two pieces that start at the same address are the same record. *)
Lemma piece_unique i j s t :
  z_slots z !! i = Some s -> z_slots z !! j = Some t -> is_piece s = true -> is_piece t = true ->
  slot_lo z s = slot_lo z t -> i = j.
Proof.
  intros Hi Hj Hs Ht Heq. destruct (decide (i = j)) as [|Hne]; [done|]. exfalso.
  pose proof (zo_apart _ _ Hz i j s t Hne Hi Hj Hs Ht) as Ha.
  destruct (zo_slot _ _ Hz i s Hi Hs). destruct (zo_slot _ _ Hz j t Hj Ht).
  unfold regions_apart in Ha. lia.
Qed.

Lemma zone_used_inside p n : zone_used z p n -> 0 < n /\ address + 4096 <= p /\ p + n <= z_end z.
Proof.
  intros (i & s & Hi & Hu & <- & <-).
  destruct (zo_slot _ _ Hz i s Hi (used_piece _ Hu)) as (? & Hb & ? & _).
  rewrite (zo_begin _ _ Hz) in Hb. lia.
Qed.

Lemma zone_used_unique p n m : zone_used z p n -> zone_used z p m -> n = m.
Proof.
  intros (i & s & Hi & Hu & Hp & <-) (j & t & Hj & Hv & Hq & <-).
  assert (i = j) as -> by (eapply piece_unique; eauto using used_piece; congruence). congruence.
Qed.

Lemma zone_used_apart p n q m : zone_used z p n -> zone_used z q m -> p <> q -> regions_apart p n q m.
Proof.
  intros (i & s & Hi & Hu & <- & <-) (j & t & Hj & Hv & <- & <-) Hne.
  apply (zo_apart _ _ Hz i j); eauto using used_piece. intros ->. congruence.
Qed.
End ZoneFacts.

(** ** Fresh zones *)

Record tiny_run (left off : Z) (l : list zone_allocation) : Prop := {
  tr_piece i s : l !! i = Some s -> is_piece s = true ->
    is_free s = true /\ 0 < a_size s <= UINT8_MAX /\ off <= a_pos s /\ a_pos s + a_size s <= off + left;
  tr_apart i j s t : (i < j)%nat -> l !! i = Some s -> l !! j = Some t ->
    is_piece s = true -> is_piece t = true -> a_pos s + a_size s <= a_pos t;
  tr_frees : zsum (fun s => one_if (is_free s)) l = zsum (fun s => one_if (is_piece s)) l
}.

Lemma tiny_run_cons left off sz l :
  0 < sz <= UINT8_MAX -> sz <= left -> tiny_run (left - sz) (off + sz) l ->
  tiny_run left off (Alloc kZoneAllocationTypeFree sz off :: l).
Proof.
  intros Hsz Hle [Hp Ha Hf]. split.
  - intros [|i] s; cbn [lookup list_lookup].
    + intros [= <-] _. cbn. repeat split; try done; lia.
    + intros Hi Hs. destruct (Hp i s Hi Hs) as (? & ? & ? & ?). repeat split; try done; lia.
  - intros [|i] [|j] s t Hij; try lia; cbn [lookup list_lookup].
    + intros [= <-] Hj _ Ht. destruct (Hp j t Hj Ht). cbn. lia.
    + intros Hi Hj. apply (Ha i j); auto with lia.
  - cbn. by rewrite Hf.
Qed.

Lemma tiny_run_skip left off s l :
  is_piece s = false -> tiny_run left off l -> tiny_run left off (s :: l).
Proof.
  intros Hs [Hp Ha Hf]. split.
  - intros [|i] t; cbn [lookup list_lookup]; [intros [= <-]; congruence|apply Hp].
  - intros [|i] [|j] t u Hij; try lia; cbn [lookup list_lookup]; [intros [= <-]; congruence|].
    intros Hi Hj. apply (Ha i j); auto with lia.
  - cbn. rewrite Hf, Hs. unfold is_piece in Hs. apply orb_false_elim in Hs as [-> _]. done.
Qed.

Lemma tiny_run_empty off l :
  tiny_run 0 off l -> zsum (fun s => if is_piece s then a_size s else 0) l = 0.
Proof.
  intros [Hp _ _]. induction l as [|s l IH]; [done|]. cbn. rewrite IH.
  - destruct (is_piece s) eqn:E; [|done]. destruct (Hp O s eq_refl E). lia.
  - intros i t Hi. by apply (Hp (S i)).
Qed.

Lemma tiny_slots_spec n : forall left off,
  0 <= left -> 0 <= off -> off + left <= 4096 ->
  tiny_run left off (tiny_slots n left off).1 /\
  (tiny_slots n left off).2 = zsum (fun s => one_if (is_piece s)) (tiny_slots n left off).1 /\
  (left <= 255 * Z.of_nat n ->
   zsum (fun s => if is_piece s then a_size s else 0) (tiny_slots n left off).1 = left) /\
  length (tiny_slots n left off).1 = n.
Proof.
  induction n as [|n IH]; intros left off Hl Ho Hmax; cbn [tiny_slots].
  { cbn. split_and!; try done; try lia. }
  destruct (Z.ltb_spec 0 left) as [Hpos|Hz].
  - set (sz := u8 (if left <? UINT8_MAX then left else UINT8_MAX)).
    assert (Hsz : sz = Z.min left 255).
    { subst sz. unfold UINT8_MAX. destruct (Z.ltb_spec left 255); rewrite u8_small; lia. }
    rewrite (u32_small (left - sz)), (u16_small (off + sz)) by lia.
    specialize (IH (left - sz) (off + sz) ltac:(lia) ltac:(lia) ltac:(lia)).
    destruct (tiny_slots n (left - sz) (off + sz)) as [l c]. cbn in IH |- *.
    destruct IH as (Hrun & Hc & Hs & Hlen). split_and!.
    + apply tiny_run_cons; [unfold UINT8_MAX; lia|lia|done].
    + lia.
    + intros Hbig. rewrite Hs by lia. lia.
    + by rewrite Hlen.
  - assert (left = 0) as -> by lia. specialize (IH 0 off ltac:(lia) ltac:(lia) ltac:(lia)).
    destruct (tiny_slots n 0 off) as [l c]. cbn in IH |- *.
    destruct IH as (Hrun & Hc & Hs & Hlen). split_and!.
    + by apply tiny_run_skip.
    + lia.
    + intros _. by eapply tiny_run_empty.
    + by rewrite Hlen.
Qed.

Lemma zsum_replicate {A : Type} (f : A -> Z) n x : f x = 0 -> zsum f (replicate n x) = 0.
Proof. intros Hx. induction n as [|n IH]; cbn; [done|]. lia. Qed.

(** The record a fresh zone offers first. *)
Definition first_piece (type : heap_zone_type) (pages : Z) : Z :=
  if is_tiny type then UINT8_MAX else pages * 4096.

#[local] Opaque tiny_slots slot_count.

Section Fresh.
Context (type : heap_zone_type) (pages address next : Z).
Context (Htiny : is_tiny type = true -> pages = 1) (Hpages : 1 <= pages).
Context (Ha : 0 < address) (Hend : address + (pages + 1) * 4096 <= VM_UPPER_LIMIT).

#[local] Abbreviation z := (fresh_zone type pages address next).

Lemma fresh_zone_fields :
  z_type z = type /\ z_begin z = address + 4096 /\ z_end z = address + (pages + 1) * 4096 /\
  z_pages z = pages + 1 /\ z_prev z = NULL /\ z_next z = next.
Proof.
  unfold fresh_zone. change VM_PAGE_SIZE with 4096. unfold VM_UPPER_LIMIT in Hend.
  destruct (if is_tiny type then _ else _) as [slots count]. cbn.
  u32_simpl. split_and!; try done. lia.
Qed.

Lemma fresh_zone_slots :
  (z_slots z, z_allocations z) =
    (if is_tiny type then tiny_slots (slot_count true) (pages * 4096) 0
     else (Alloc kZoneAllocationTypeFree (pages * 4096) (address + 4096) ::
             replicate (slot_count false - 1) (Alloc kZoneAllocationTypeUnused 0 0), 1)) /\
  z_freeAllocations z = z_allocations z.
Proof.
  unfold fresh_zone. change VM_PAGE_SIZE with 4096. unfold VM_UPPER_LIMIT in Hend.
  rewrite (u32_small (pages * 4096)), (u32_small (address + 4096)) by lia.
  destruct (if is_tiny type then _ else _) as [slots count]. done.
Qed.

Lemma fresh_slot i s :
  z_slots z !! i = Some s -> is_piece s = true ->
  is_free s = true /\ 0 < a_size s /\ address + 4096 <= slot_lo z s /\
  slot_lo z s + a_size s <= address + (pages + 1) * 4096 /\
  (is_tiny type = true -> a_size s <= UINT8_MAX).
Proof.
  destruct fresh_zone_fields as (Ht & Hb & He & _). destruct fresh_zone_slots as [Hs _].
  unfold slot_lo. rewrite Ht, Hb. destruct (is_tiny type).
  - rewrite (Htiny eq_refl) in *.
    destruct (tiny_slots_spec (slot_count true) (1 * 4096) 0) as ([Hp _ _] & _); [lia..|].
    rewrite <- Hs in Hp. cbn [fst] in Hp. intros Hi Hpc. destruct (Hp i s Hi Hpc) as (? & ? & ? & ?).
    clear Hs Hp. split_and!; [assumption|lia..].
  - injection Hs as -> _. destruct i as [|i]; cbn [lookup list_lookup].
    + intros [= <-] _. cbn. split_and!; try done; lia.
    + intros Hi. apply lookup_replicate in Hi as [-> _]. done.
Qed.

Lemma fresh_apart i j s t : (i < j)%nat -> z_slots z !! i = Some s -> z_slots z !! j = Some t ->
  is_piece s = true -> is_piece t = true -> slot_lo z s + a_size s <= slot_lo z t.
Proof.
  destruct fresh_zone_fields as (Ht & Hb & He & _). destruct fresh_zone_slots as [Hs _].
  unfold slot_lo. rewrite Ht, Hb. intros Hij. destruct (is_tiny type).
  - rewrite (Htiny eq_refl) in *.
    destruct (tiny_slots_spec (slot_count true) (1 * 4096) 0) as ([_ Hap _] & _); [lia..|].
    rewrite <- Hs in Hap. cbn [fst] in Hap. intros Hi Hj Hps Hpt. pose proof (Hap i j s t Hij Hi Hj Hps Hpt). lia.
  - injection Hs as -> _. destruct j as [|j]; [lia|]. cbn [lookup list_lookup].
    intros _ Hj. apply lookup_replicate in Hj as [-> _]. done.
Qed.

Lemma fresh_sums :
  z_allocations z = zsum (fun s => one_if (is_piece s)) (z_slots z) /\
  z_freeAllocations z = zsum (fun s => one_if (is_free s)) (z_slots z) /\
  zsum (fun s => if is_piece s then a_size s else 0) (z_slots z) = pages * 4096 /\
  Z.of_nat (length (z_slots z)) <= 2000.
Proof.
  destruct fresh_zone_slots as [Hs Hf]. rewrite Hf. clear Hf. destruct (is_tiny type).
  - rewrite (Htiny eq_refl) in *.
    destruct (tiny_slots_spec (slot_count true) (1 * 4096) 0) as ([_ _ Hfr] & Hc & Hsum & Hlen); [lia..|].
    rewrite <- Hs in *. cbn [fst snd] in *. rewrite Hfr. split_and!; [done..| |].
    + apply Hsum. by vm_compute.
    + rewrite Hlen. by vm_compute.
  - injection Hs as -> ->. cbn [zsum]. rewrite !zsum_replicate by done. cbn. split_and!; [done..|lia|].
    rewrite length_replicate. apply Zle_bool_imp_le. by vm_compute.
Qed.

Lemma fresh_zone_ok : zone_ok address z.
Proof.
  destruct fresh_zone_fields as (Ht & Hb & He & Hp & _). destruct fresh_sums as (Hs1 & Hs2 & Hs3 & Hlen).
  split; rewrite ?Ht, ?Hb, ?He, ?Hp; try done; try lia.
  - intros i s Hi Hpc. rewrite Ht, Hb, He. by destruct (fresh_slot i s Hi Hpc) as (_ & ?).
  - intros i j s t Hne Hi Hj Hs Ht'. unfold regions_apart.
    destruct (Nat.lt_ge_cases i j).
    + left. by eapply (fresh_apart i j).
    + right. eapply (fresh_apart j i); eauto. lia.
Qed.

Lemma fresh_zone_first :
  exists s, z_slots z !! O = Some s /\ is_free s = true /\ a_size s = first_piece type pages.
Proof.
  destruct fresh_zone_slots as [Hs _]. unfold first_piece. destruct (is_tiny type).
  - rewrite (Htiny eq_refl) in *. 
    assert (Hl : z_slots (fresh_zone type 1 address next) = (tiny_slots (slot_count true) (1 * 4096) 0).1)
      by (rewrite <- Hs; reflexivity). rewrite Hl. clear Hs Hl.
    exists (Alloc kZoneAllocationTypeFree UINT8_MAX 0). split; [vm_compute; reflexivity|done].
  - injection Hs as -> _. eexists. split; [reflexivity|done].
Qed.

Lemma fresh_zone_unused p n : ~ zone_used z p n.
Proof.
  intros (i & s & Hi & Hu & _). destruct (fresh_slot i s Hi (used_piece _ Hu)) as (Hf & _).
  by eapply free_not_used.
Qed.
End Fresh.

(** ** Changing records *)

(** Everything but the records, the counts and the statistics is as before. *)
Definition same_header (z z' : heap_zone) : Prop :=
  z_type z' = z_type z /\ z_begin z' = z_begin z /\ z_end z' = z_end z /\ z_pages z' = z_pages z /\
  z_prev z' = z_prev z /\ z_next z' = z_next z.

Lemma same_header_lo z z' s : same_header z z' -> slot_lo z' s = slot_lo z s.
Proof. intros (Ht & Hb & _). unfold slot_lo. by rewrite Ht, Hb. Qed.

Lemma slot_ok_header z z' s : same_header z z' -> slot_ok z s -> slot_ok z' s.
Proof.
  intros Hh Hs Hp. rewrite (same_header_lo _ _ _ Hh). destruct Hh as (Ht & Hb & He & _).
  rewrite Ht, Hb, He. by apply Hs.
Qed.

Section Change.
Context (address : Z) (z z' : heap_zone) (Hz : zone_ok address z) (Hh : same_header z z').
Context (i : nat) (s : zone_allocation) (Hi : z_slots z !! i = Some s).

(** A record changes its state but not its piece. *)
Section Retype.
Context (s' : zone_allocation) (Hs : is_piece s = true) (Hs' : is_piece s' = true).
Context (Hsz : a_size s' = a_size s) (Hpos : a_pos s' = a_pos s).
Context (Hsl : z_slots z' = <[i := s']> (z_slots z)).

#[local] Lemma retype_lookup k t :
  z_slots z' !! k = Some t -> exists t0, z_slots z !! k = Some t0 /\ (is_piece t = true -> is_piece t0 = true) /\
    a_size t = a_size t0 /\ a_pos t = a_pos t0.
Proof.
  rewrite Hsl. destruct (decide (k = i)) as [->|Hne].
  - rewrite list_lookup_insert_eq by (by eapply lookup_lt_Some). intros [= <-]. exists s. by split_and!.
  - rewrite list_lookup_insert_ne by congruence. intros Hk. exists t. by split_and!.
Qed.

Lemma retype_ok :
  z_allocations z' = z_allocations z ->
  z_freeAllocations z' = z_freeAllocations z - one_if (is_free s) + one_if (is_free s') ->
  zone_ok address z'.
Proof.
  intros Ha Hf. assert (Hlo : forall t t0, a_pos t = a_pos t0 -> slot_lo z' t = slot_lo z t0).
  { intros t t0 E. rewrite (same_header_lo _ _ _ Hh). unfold slot_lo. by rewrite E. }
  pose proof Hh as (Et & Eb & Ee & Ep & _). pose proof Hz as [].
  split; rewrite ?Et, ?Eb, ?Ee, ?Ep; try done.
  - rewrite Hsl, length_insert. done.
  - intros k t (t0 & Hk & Hpc & E1 & E2)%retype_lookup Hp. rewrite Et, Eb, Ee, (Hlo _ _ E2), E1.
    by apply (zo_slot0 k t0 Hk), Hpc.
  - intros k k' t u Hne (t0 & Hk & Hpk & E1 & E2)%retype_lookup (u0 & Hk' & Hpk' & E3 & E4)%retype_lookup Ht Hu.
    rewrite (Hlo _ _ E2), (Hlo _ _ E4), E1, E3. eauto.
  - rewrite Ha, Hsl, (zsum_insert _ _ _ _ _ Hi), zo_allocations0, Hs, Hs'. lia.
  - rewrite Hf, Hsl, (zsum_insert _ _ _ _ _ Hi), zo_freeAllocations0. lia.
  - rewrite Hsl, (zsum_insert _ _ _ _ _ Hi), Hs, Hs', Hsz, zo_sum0. lia.
Qed.

Lemma retype_used p n :
  zone_used z' p n <->
  (exists k t, k <> i /\ z_slots z !! k = Some t /\ is_used t = true /\ slot_lo z t = p /\ a_size t = n) \/
  (is_used s' = true /\ slot_lo z s = p /\ a_size s = n).
Proof.
  unfold zone_used. rewrite Hsl.
  assert (Hlo : slot_lo z' s' = slot_lo z s)
    by (rewrite (same_header_lo _ _ _ Hh); unfold slot_lo; by rewrite Hpos).
  split.
  - intros (k & t & Hk & Hu & <- & <-). destruct (decide (k = i)) as [->|Hne].
    + rewrite list_lookup_insert_eq in Hk by (by eapply lookup_lt_Some). injection Hk as <-.
      right. by rewrite Hlo, Hsz.
    + rewrite list_lookup_insert_ne in Hk by congruence. left. exists k, t.
      by rewrite (same_header_lo _ _ _ Hh).
  - intros [(k & t & Hne & Hk & Hu & <- & <-)|(Hu & <- & <-)].
    + exists k, t. rewrite list_lookup_insert_ne by congruence. by rewrite (same_header_lo _ _ _ Hh).
    + exists i, s'. rewrite list_lookup_insert_eq by (by eapply lookup_lt_Some). by rewrite Hlo, Hsz.
Qed.
End Retype.

(** A free piece is split: the front becomes used, the rest goes to an
    unused record. *)
Section Split.
Context (j : nat) (t : zone_allocation) (r : Z).
Context (Hj : z_slots z !! j = Some t) (Hfree : is_free s = true) (Ht : is_piece t = false).
Context (Hr : 0 < r < a_size s).
#[local] Abbreviation front := (Alloc kZoneAllocationTypeUsed r (a_pos s)).
#[local] Abbreviation rest := (Alloc kZoneAllocationTypeFree (a_size s - r) (a_pos s + r)).
Context (Hsl : z_slots z' = <[i := front]> (<[j := rest]> (z_slots z))).

#[local] Lemma split_ne : i <> j.
Proof. intros ->. rewrite Hi in Hj. injection Hj as <-. by rewrite free_piece in Ht. Qed.

#[local] Lemma split_lookup k u : z_slots z' !! k = Some u ->
  (k = i /\ u = front) \/ (k = j /\ u = rest) \/ (k <> i /\ k <> j /\ z_slots z !! k = Some u).
Proof.
  rewrite Hsl. destruct (decide (k = i)) as [->|Hne].
  - rewrite list_lookup_insert_eq; [intros [= <-]; by left|]. rewrite length_insert. by eapply lookup_lt_Some.
  - rewrite list_lookup_insert_ne by congruence. destruct (decide (k = j)) as [->|Hne'].
    + rewrite list_lookup_insert_eq by (by eapply lookup_lt_Some). intros [= <-]. auto.
    + rewrite list_lookup_insert_ne by congruence. auto.
Qed.

#[local] Lemma split_lo : slot_lo z' front = slot_lo z s /\ slot_lo z' rest = slot_lo z s + r.
Proof.
  rewrite !(same_header_lo _ _ _ Hh). unfold slot_lo. cbn. destruct (is_tiny _); split; lia.
Qed.

(** Every piece of the new zone comes from a piece of the old one. *)
#[local] Lemma split_origin k u : z_slots z' !! k = Some u -> is_piece u = true ->
  exists k0 u0, z_slots z !! k0 = Some u0 /\ is_piece u0 = true /\
    slot_lo z u0 <= slot_lo z' u /\ slot_lo z' u + a_size u <= slot_lo z u0 + a_size u0 /\
    0 < a_size u /\ a_size u <= a_size u0 /\ (k0 = k \/ (k0 = i /\ k = j)).
Proof.
  destruct split_lo as [L1 L2]. pose proof (free_piece _ Hfree).
  intros [(-> & ->)|[(-> & ->)|(H1 & H2 & Hk)]]%split_lookup Hp.
  - exists i, s. rewrite L1. cbn. split_and!; try done; lia.
  - exists i, s. rewrite L2. cbn. split_and!; try done; lia.
  - exists k, u. rewrite (same_header_lo _ _ _ Hh). split_and!; try done; try lia.
    by destruct (zo_slot _ _ Hz k u Hk Hp).
Qed.

#[local] Lemma split_apart_sym k k' u v : k = i -> k' = j -> z_slots z' !! k = Some u -> z_slots z' !! k' = Some v ->
  slot_lo z' u + a_size u <= slot_lo z' v.
Proof.
  pose proof split_ne. destruct split_lo as [L1 L2].
  intros -> -> [(_ & ->)|[(? & _)|(? & _)]]%split_lookup [(? & _)|[(_ & ->)|(_ & ? & _)]]%split_lookup; try done.
  rewrite L1, L2. cbn. lia.
Qed.

Lemma split_ok :
  z_allocations z' = z_allocations z + 1 -> z_freeAllocations z' = z_freeAllocations z ->
  zone_ok address z'.
Proof.
  intros Ha Hf. pose proof split_ne. pose proof Hh as (Et & Eb & Ee & Ep & _). pose proof Hz as [].
  assert (Hrest : (<[j := rest]> (z_slots z)) !! i = Some s) by (by rewrite list_lookup_insert_ne by congruence).
  assert (Hfr : is_free front = false /\ is_piece front = true /\ is_free rest = true /\ is_piece rest = true) by done.
  destruct Hfr as (F1 & F2 & F3 & F4). pose proof (free_piece _ Hfree) as F5.
  assert (F6 : is_free t = false) by (by apply orb_false_elim in Ht as [? _]).
  split; rewrite ?Et, ?Eb, ?Ee, ?Ep; try done.
  - rewrite Hsl, !length_insert. done.
  - intros k u Hk Hp. rewrite Et, Eb, Ee.
    destruct (split_origin k u Hk Hp) as (k0 & u0 & Hk0 & Hp0 & G1 & G2 & G3 & G4 & _).
    destruct (zo_slot0 k0 u0 Hk0 Hp0) as (G5 & G6 & G7 & Htiny).
    clear - G1 G2 G3 G4 G5 G6 G7 Htiny. split_and!; lia.
  - intros k k' u v Hne Hk Hk' Hu Hv. unfold regions_apart.
    destruct (split_origin k u Hk Hu) as (k0 & u0 & Hk0 & Hp0 & A1 & A2 & _ & _ & Ek).
    destruct (split_origin k' v Hk' Hv) as (k1 & v0 & Hk1 & Hp1 & B1 & B2 & _ & _ & Ek').
    destruct (decide (k0 = k1)) as [->|Hne'].
    + destruct Ek as [E1|[E1 E2]], Ek' as [E3|[E3 E4]]; try congruence.
      * left. eapply (split_apart_sym k k'); congruence.
      * right. eapply (split_apart_sym k' k); congruence.
    + pose proof (zo_apart0 k0 k1 u0 v0 Hne' Hk0 Hk1 Hp0 Hp1) as [D|D]; [left|right];
        clear - A1 A2 B1 B2 D; lia.
  - rewrite Ha, Hsl, (zsum_insert _ _ _ _ _ Hrest), (zsum_insert _ _ _ _ _ Hj), zo_allocations0, F2, F4, F5, Ht.
    cbn. lia.
  - rewrite Hf, Hsl, (zsum_insert _ _ _ _ _ Hrest), (zsum_insert _ _ _ _ _ Hj), zo_freeAllocations0, F1, F3, F6, Hfree.
    cbn. lia.
  - rewrite Hsl, (zsum_insert _ _ _ _ _ Hrest), (zsum_insert _ _ _ _ _ Hj), F2, F4, F5, Ht, zo_sum0. cbn. lia.
Qed.

Lemma split_used p n :
  zone_used z' p n <-> zone_used z p n \/ (p = slot_lo z s /\ n = r).
Proof.
  destruct split_lo as [L1 L2]. pose proof split_ne. split.
  - intros (k & u & Hk & Hu & <- & <-).
    apply split_lookup in Hk as [(-> & ->)|[(-> & ->)|(H1 & H2 & Hk)]]; [right; by rewrite L1|done|].
    left. exists k, u. by rewrite (same_header_lo _ _ _ Hh).
  - intros [(k & u & Hk & Hu & <- & <-)|[-> ->]].
    + exists k, u. rewrite (same_header_lo _ _ _ Hh), Hsl.
      assert (k <> i) by (intros ->; rewrite Hi in Hk; injection Hk as <-; by eapply free_not_used).
      assert (k <> j) by (intros ->; rewrite Hj in Hk; injection Hk as <-; by rewrite used_piece in Ht).
      by rewrite !list_lookup_insert_ne by congruence.
    + exists i, front. rewrite Hsl, L1, list_lookup_insert_eq; [done|].
      rewrite length_insert. by eapply lookup_lt_Some.
Qed.
End Split.
End Change.

(** ** The allocation operations on one zone *)

Section Operations.
Context {P : Type} `{PageSource P}.

Lemma required_bounds (h : heap_t P) size :
  0 <= size <= max_request -> size + 16 <= required_size h size < 2 ^ 32.
Proof.
  intros Hs. unfold required_size, kHeapAllocationExtraPadding, max_request in *.
  pose proof (Z.mod_pos_bound size 4 ltac:(lia)).
  destruct (negb _); rewrite u32_small; lia.
Qed.

(** The counters are the true counts, so they stay small. *)
Lemma zone_counts address z :
  zone_ok address z -> 0 <= z_freeAllocations z <= z_allocations z /\ z_allocations z <= 2000.
Proof.
  intros Hz. rewrite (zo_allocations _ _ Hz), (zo_freeAllocations _ _ Hz). split_and!.
  - apply zsum_nonneg. intros s. unfold one_if. destruct (is_free s); lia.
  - apply zsum_le. intros s. unfold is_piece, one_if. destruct (is_free s), (is_used s); cbn; lia.
  - etransitivity; [apply zsum_bound|apply (zo_count _ _ Hz)].
    intros s. unfold one_if. destruct (is_piece s); lia.
Qed.

Lemma zone_free_count address z i s :
  zone_ok address z -> z_slots z !! i = Some s -> is_free s = true -> 1 <= z_freeAllocations z.
Proof.
  intros Hz Hi Hs. rewrite (zo_freeAllocations _ _ Hz).
  etransitivity; [|apply (zsum_pos _ _ i s); [|done]]; cbn; rewrite ?Hs; [done|].
  intros t. unfold one_if. destruct (is_free t); lia.
Qed.

(** Cutting [r] bytes off a piece stays within the fields' widths. *)
Lemma cut_widths address z s r :
  zone_ok address z -> slot_ok z s -> is_piece s = true -> 0 <= r < a_size s ->
  size_width (is_tiny (z_type z)) (a_size s - r) = a_size s - r /\
  size_width (is_tiny (z_type z)) r = r /\
  pos_width (is_tiny (z_type z)) (a_pos s + r) = a_pos s + r.
Proof.
  intros Hz Hs Hp Hr. destruct (Hs Hp) as (H0 & Hb & He & Ht). unfold slot_lo in *.
  pose proof (zo_tiny _ _ Hz) as Hty. destruct (zo_range _ _ Hz) as [Ha Hu].
  pose proof (zo_begin _ _ Hz) as Eb. pose proof (zo_end _ _ Hz) as Ee.
  unfold VM_UPPER_LIMIT, UINT8_MAX in *.
  destruct (is_tiny (z_type z)); unfold size_width, pos_width.
  - specialize (Hty eq_refl). specialize (Ht eq_refl).
    rewrite !u8_small, u16_small by lia. done.
  - rewrite !u32_small by lia. done.
Qed.

(** What using record [i] for [size] bytes must achieve. *)
Definition use_result (address : Z) (z : heap_zone) (s : zone_allocation) (size : Z) (z' : heap_zone) : Prop :=
  same_header z z' /\ zone_ok address z' /\
  exists n, size <= n /\ forall p m, zone_used z' p m <-> zone_used z p m \/ (p = slot_lo z s /\ m = n).

Section Use.
Context (address : Z) (z : heap_zone) (i : nat) (s : zone_allocation).
Context (Hz : zone_ok address z) (Hi : z_slots z !! i = Some s) (Hs : is_free s = true).
#[local] Abbreviation used := (Alloc kZoneAllocationTypeUsed (a_size s) (a_pos s)).

(** The whole piece is used. *)
Lemma use_whole size z' :
  size <= a_size s -> same_header z z' -> z_slots z' = <[i := used]> (z_slots z) ->
  z_allocations z' = z_allocations z -> z_freeAllocations z' = z_freeAllocations z - 1 ->
  use_result address z s size z'.
Proof.
  intros Hfit Hh Hsl Ha Hf. pose proof (free_piece _ Hs) as Hp. split_and!; [done| |exists (a_size s); split; [done|]].
  - apply (retype_ok address z _ Hz Hh i s Hi used); try done. rewrite Hf, Hs. cbn. lia.
  - intros p m. rewrite (retype_used z _ Hh i s Hi used) by done.
    split; [intros [(k & t & _ & Hr)|Hr]; [left; by exists k, t|right; naive_solver]|].
    intros [(k & t & Hk & Hu & Hr)|[-> ->]]; [left; exists k, t|by right].
    split_and!; try apply Hr; try done. intros ->. rewrite Hi in Hk. injection Hk as <-. by eapply free_not_used.
Qed.

(** The front of the piece is used and the rest becomes a free piece. *)
Lemma use_front size r j t z' :
  size <= r -> 0 < r < a_size s -> <[i := used]> (z_slots z) !! j = Some t ->
  a_type t = kZoneAllocationTypeUnused -> same_header z z' ->
  z_slots z' = <[i := Alloc kZoneAllocationTypeUsed r (a_pos s)]>
    (<[j := Alloc kZoneAllocationTypeFree (a_size s - r) (a_pos s + r)]> (<[i := used]> (z_slots z))) ->
  z_allocations z' = z_allocations z + 1 -> z_freeAllocations z' = z_freeAllocations z ->
  use_result address z s size z'.
Proof.
  intros Hfit Hr Hj Ht Hh Hsl Ha Hf.
  assert (j <> i) as Hne.
  { intros ->. rewrite list_lookup_insert_eq in Hj by (by eapply lookup_lt_Some). by injection Hj as <-. }
  rewrite list_lookup_insert_ne in Hj by congruence.
  rewrite (list_insert_insert_ne _ j i), list_insert_insert_eq in Hsl by done.
  assert (Htp : is_piece t = false) by (unfold is_piece, is_free, is_used; by rewrite Ht).
  split_and!; [done| |exists r; split; [done|]].
  - by apply (split_ok address z z' Hz Hh i s Hi j t r).
  - by apply (split_used z z' Hh i s Hi j t r).
Qed.
End Use.

Lemma use_spec (h : heap_t P) address z i s size :
  zone_ok address z -> z_slots z !! i = Some s -> is_free s = true ->
  0 <= size <= max_request -> size <= a_size s ->
  exists z', __heap_useAllocation h z i size = Ok (slot_lo z s, z') /\ use_result address z s size z'.
Proof.
  intros Hz Hi Hs Hsize Hfit. pose proof (required_bounds h size Hsize) as Hreq.
  pose proof (zone_counts _ _ Hz) as (Hc1 & Hc2). pose proof (zone_free_count _ _ _ _ Hz Hi Hs) as Hc3.
  pose proof (zo_slot _ _ Hz i s Hi) as Hso. pose proof (free_piece _ Hs) as Hp.
  unfold __heap_useAllocation. rewrite Hi. cbn [of_option obind].
  rewrite (slot_pointer_lo _ _ Hz s Hso Hp). eexists. split; [reflexivity|].
  assert (Hplain : forall z', z' = set_slots z (<[i := Alloc kZoneAllocationTypeUsed (a_size s) (a_pos s)]> (z_slots z)) ->
    use_result address z s size (set_counts z' (u32 (z_freeAllocations z' - 1)) (z_allocations z'))).
  { intros z' ->. apply (use_whole address z i s); try done. cbn. rewrite u32_small; lia. }
  destruct (Z.ltb_spec (required_size h size) (a_size s)) as [Hlt|]; [|by apply Hplain].
  destruct (__heap_zoneGetUnusedAllocation _) as [j|] eqn:Ej; [|by apply Hplain].
  apply slot_search_Some in Ej as (t & Hj & Ht). cbn in Hj. apply Z.eqb_eq in Ht.
  destruct (cut_widths _ _ _ _ Hz Hso Hp (conj (ltac:(lia) : 0 <= required_size h size) Hlt)) as (W1 & W2 & W3).
  rewrite W1, W2, W3.
  apply (use_front address z i s Hz Hi Hs size (required_size h size) j t); try done; try lia; cbn.
  - rewrite u32_small; lia.
  - rewrite (u32_small (z_freeAllocations z + 1)), u32_small by lia. lia.
Qed.

Lemma free_spec address z i s :
  zone_ok address z -> z_slots z !! i = Some s -> is_used s = true ->
  exists z', __heap_freeAllocation z i = Ok z' /\ same_header z z' /\ zone_ok address z' /\
    forall p m, zone_used z' p m <-> zone_used z p m /\ p <> slot_lo z s.
Proof.
  intros Hz Hi Hs. pose proof (zone_counts _ _ Hz) as (Hc1 & Hc2). pose proof (used_piece _ Hs) as Hp.
  unfold __heap_freeAllocation. rewrite Hi. cbn [of_option obind].
  set (fr := Alloc kZoneAllocationTypeFree (a_size s) (a_pos s)). eexists. split; [reflexivity|].
  set (z' := set_counts _ _ _). assert (Hh : same_header z z') by done.
  split_and!; [done| |].
  - apply (retype_ok address z z' Hz Hh i s Hi fr); try done. cbn.
    rewrite u32_small by lia. destruct (is_free s) eqn:E; [by destruct (free_not_used s)|]. cbn. lia.
  - intros p m. rewrite (retype_used z z' Hh i s Hi fr) by done. split.
    + intros [(k & t & Hne & Hk & Hu & <- & <-)|(Hu & _)]; [|done]. split; [by exists k, t|].
      intros E. apply Hne. eapply (piece_unique _ _ Hz k i t s); eauto with heap.
    + intros [(k & t & Hk & Hu & <- & <-) Hne]. left. exists k, t. split_and!; try done. congruence.
Qed.
End Operations.

(** ** Defragmentation

    [__heap_zoneFindAllocationWithPointer] only ever finds used records, and
    the loop stops at the first neighbour that is not free, so nothing is ever
    merged. *)

Lemma defragment_while_id fuel z i : (i < length (z_slots z))%nat -> defragment_while fuel z i = Ok z.
Proof.
  intros Hi. destruct (lookup_lt_is_Some_2 _ _ Hi) as [s Hs].
  destruct fuel; cbn [defragment_while]; rewrite Hs; cbn [of_option obind]; destruct (negb _); try done;
    destruct (__heap_zoneFindAllocationWithPointer z _) as [j|] eqn:E; try done;
    apply slot_search_Some in E as (t & Ht & [_ Hu]%andb_prop); rewrite Ht; cbn [of_option obind];
    apply Z.eqb_eq in Hu; by rewrite Hu.
Qed.

Lemma defragment_from_id n z i : (i + n <= length (z_slots z))%nat -> defragment_from n z i = Ok z.
Proof.
  revert i. induction n as [|n IH]; intros i Hi; cbn; [done|].
  rewrite defragment_while_id by lia. cbn. apply IH. lia.
Qed.

Lemma defragment_only_resets z :
  exists c, __heap_zoneDefragment z = Ok (set_changes z c (z_freeSize z)).
Proof.
  unfold __heap_zoneDefragment. destruct (_ && _).
  - rewrite defragment_from_id by lia. cbn. by exists 0.
  - exists (z_changes z). by destruct z.
Qed.
