(* ===== verification/HeapChain.v ===== *)
(** * The chain of zones, and the heap's contract

    Lifts the invariant of one zone ([HeapCorrect]) to the chain of zones a
    heap keeps, follows the walks over it, and proves what [halloc], [hfree],
    [heap_create] and [heap_destroy] do to the set of live allocations. *)

From S2P Require Import Prelude Pages HeapSpec DList Heap HeapCorrect.

#[local] Opaque tiny_slots slot_count.

(** ** The invariant *)

Section Chain.
Context {P : Type} `{PageSource P}.

Record chain_ok (h : heap_t P) (l : list Z) : Prop := {
  ch_list : dlist z_prev z_next (h_zones h) (h_firstZone h) l;
  ch_nodup : NoDup l;
  ch_dom a z : h_zones h !! a = Some z -> a ∈ l;
  ch_zone a z : h_zones h !! a = Some z -> zone_ok a z;
  ch_owned a z : h_zones h !! a = Some z -> pg_owned (h_pages h) a (z_pages z)
}.

(** The [n] bytes at [p] are a used piece of some zone. *)
Definition heap_live (h : heap_t P) (p n : Z) : Prop :=
  exists a z, h_zones h !! a = Some z /\ zone_used z p n.

(** Pages that are handed out but are not a zone of this heap. *)
Definition foreign (h : heap_t P) (b n : Z) : Prop := pg_owned (h_pages h) b n /\ h_zones h !! b = None.

Definition same_foreign (h h' : heap_t P) : Prop := forall b n, foreign h' b n <-> foreign h b n.

(** Between calls the lock is free. *)
Definition heap_inv (h : heap_t P) : Prop := h_lock h = false /\ exists l, chain_ok h l.
End Chain.

(** ** Facts about links *)

Lemma zone_ok_links a z p n : zone_ok a z -> zone_ok a (set_links z p n).
Proof. intros []. by split. Qed.

Lemma zone_used_links z pr nx p n : zone_used (set_links z pr nx) p n <-> zone_used z p n.
Proof. done. Qed.

Lemma zone_ok_changes a z c f : zone_ok a z -> zone_ok a (set_changes z c f).
Proof. intros []. by split. Qed.

Lemma same_header_trans z1 z2 z3 : same_header z1 z2 -> same_header z2 z3 -> same_header z1 z3.
Proof. unfold same_header. intros (?&?&?&?&?&?) (?&?&?&?&?&?). split_and!; congruence. Qed.

(** A zone with one used piece uses nothing else. *)
Lemma zone_single_used a z p n q m :
  zone_ok a z -> z_allocations z = z_freeAllocations z + 1 -> zone_used z p n -> zone_used z q m -> q = p.
Proof.
  intros Hz Hc (i & s & Hi & Hs & <- & _) (j & t & Hj & Ht & <- & _).
  destruct (decide (i = j)) as [->|Hne]; [congruence|]. exfalso.
  pose proof (zsum_two (fun s => one_if (is_used s)) _ i j s t
                ltac:(intros x; unfold one_if; case_match; lia) Hne Hi Hj) as H2. cbn in H2.
  rewrite Hs, Ht in H2. cbn in H2.
  assert (Hsum : forall l, zsum (fun s => one_if (is_piece s)) l =
                  zsum (fun s => one_if (is_free s)) l + zsum (fun s => one_if (is_used s)) l).
  { induction l as [|x l IH]; cbn; [done|]. rewrite IH. unfold is_piece.
    destruct (is_free x) eqn:F, (is_used x) eqn:U; cbn; try lia. by destruct (free_not_used x). }
  rewrite (zo_allocations _ _ Hz), (zo_freeAllocations _ _ Hz), Hsum in Hc. lia.
Qed.

(** ** Zones do not overlap *)

Section ChainFacts.
Context {P : Type} `{PageSourceOk P}.
Implicit Types (h : heap_t P) (l : list Z).

Lemma zones_apart h l a b y z :
  chain_ok h l -> h_zones h !! a = Some y -> h_zones h !! b = Some z -> a <> b ->
  z_end y <= b \/ z_end z <= a.
Proof.
  intros Hc Ha Hb Hne.
  pose proof (pg_apart _ _ _ _ _ (ch_owned _ _ Hc a y Ha) (ch_owned _ _ Hc b z Hb) Hne) as Hap.
  pose proof (zo_end _ _ (ch_zone _ _ Hc a y Ha)). pose proof (zo_end _ _ (ch_zone _ _ Hc b z Hb)).
  unfold regions_apart in Hap. lia.
Qed.

(** A live address belongs to one zone. *)
Lemma live_zone h l a b y z p n :
  chain_ok h l -> h_zones h !! a = Some y -> h_zones h !! b = Some z ->
  zone_used y p n -> z_begin z <= p < z_end z -> a = b.
Proof.
  intros Hc Ha Hb Hu Hin. destruct (decide (a = b)) as [|Hne]; [done|]. exfalso.
  destruct (zone_used_inside _ _ (ch_zone _ _ Hc a y Ha) p n Hu) as (? & ? & ?).
  rewrite (zo_begin _ _ (ch_zone _ _ Hc b z Hb)) in Hin.
  destruct (zones_apart _ _ _ _ _ _ Hc Ha Hb Hne); lia.
Qed.

Lemma used_in_zone h l a z p n :
  chain_ok h l -> h_zones h !! a = Some z -> zone_used z p n -> z_begin z <= p < z_end z.
Proof.
  intros Hc Ha Hu. destruct (zone_used_inside _ _ (ch_zone _ _ Hc a z Ha) p n Hu) as (? & ? & ?).
  rewrite (zo_begin _ _ (ch_zone _ _ Hc a z Ha)). lia.
Qed.

Lemma chain_live_sane h l p n : chain_ok h l -> heap_live h p n -> 0 < p /\ 0 <= n /\ p + n <= VM_UPPER_LIMIT.
Proof.
  intros Hc (a & z & Ha & Hu). destruct (zone_used_inside _ _ (ch_zone _ _ Hc a z Ha) p n Hu) as (? & ? & ?).
  destruct (zo_range _ _ (ch_zone _ _ Hc a z Ha)). lia.
Qed.

Lemma chain_live_unique h l p n m : chain_ok h l -> heap_live h p n -> heap_live h p m -> n = m.
Proof.
  intros Hc (a & y & Ha & Hu) (b & z & Hb & Hv).
  assert (a = b) as <- by (eapply (live_zone h l); eauto using used_in_zone).
  rewrite Ha in Hb. injection Hb as <-. eapply zone_used_unique; eauto using ch_zone.
Qed.

Lemma chain_live_apart h l p n q m :
  chain_ok h l -> heap_live h p n -> heap_live h q m -> p <> q -> regions_apart p n q m.
Proof.
  intros Hc (a & y & Ha & Hu) (b & z & Hb & Hv) Hne. destruct (decide (a = b)) as [<-|Hab].
  - rewrite Ha in Hb. injection Hb as <-. eapply zone_used_apart; eauto using ch_zone.
  - destruct (zone_used_inside _ _ (ch_zone _ _ Hc a y Ha) p n Hu) as (? & ? & ?).
    destruct (zone_used_inside _ _ (ch_zone _ _ Hc b z Hb) q m Hv) as (? & ? & ?).
    unfold regions_apart. destruct (zones_apart _ _ _ _ _ _ Hc Ha Hb Hab); lia.
Qed.

(** The walks have enough fuel. *)
Lemma chain_fuel_enough h l : chain_ok h l -> (length l < chain_fuel h)%nat.
Proof.
  intros Hc. unfold chain_fuel. apply Nat.lt_succ_r.
  rewrite <- (size_list_to_set (C := gset Z) l (ch_nodup _ _ Hc)), <- (size_dom (D := gset Z) (h_zones h)).
  apply subseteq_size. intros a Ha%elem_of_list_to_set. apply elem_of_dom.
  by destruct (dseg_lookup _ _ _ _ _ _ _ _ (ch_list _ _ Hc) Ha).
Qed.
End ChainFacts.

(** ** The walks *)

Section Walks.
Context {P : Type} `{PageSourceOk P}.
Implicit Types (h : heap_t P) (l : list Z).

Lemma zone_walk_spec (zs : gmap Z heap_zone) type size required : forall l fuel prev first,
  dseg z_prev z_next zs prev first l NULL -> (length l < fuel)%nat ->
  zone_walk fuel zs first type size required = Ok None \/
  exists a z i s, zone_walk fuel zs first type size required = Ok (Some (a, i)) /\
    zs !! a = Some z /\ z_slots z !! i = Some s /\ is_free s = true /\ required <= a_size s.
Proof.
  induction l as [|a l IH]; intros fuel prev first Hl Hfuel; cbn in Hl, Hfuel.
  - subst first. left. by destruct fuel.
  - destruct Hl as (-> & Ha & z & Hz & _ & Hl). destruct fuel as [|fuel]; [lia|]. cbn [zone_walk].
    rewrite (proj2 (Z.eqb_neq a NULL) Ha), Hz. cbn [of_option obind].
    match goal with |- context [match ?f with Some _ => _ | None => _ end] => destruct f as [i|] eqn:E end.
    + right. destruct (_ && _); [|done].
      apply slot_search_Some in E as (s & Hs & [Hf Hr%Z.leb_le]%andb_prop). eauto 10.
    + apply (IH fuel a); [done|lia].
Qed.

Lemma find_walk_spec h l0 p : chain_ok h l0 -> forall l fuel prev first,
  NoDup l -> dseg z_prev z_next (h_zones h) prev first l NULL -> (length l < fuel)%nat ->
  (exists a z i s, zone_find_walk fuel (h_zones h) first p = Ok (Some (a, i)) /\ a ∈ l /\
     h_zones h !! a = Some z /\ z_slots z !! i = Some s /\ is_used s = true /\ slot_lo z s = p) \/
  (zone_find_walk fuel (h_zones h) first p = Ok None /\
   forall a z n, a ∈ l -> h_zones h !! a = Some z -> ~ zone_used z p n).
Proof.
  intros Hc. induction l as [|a l IH]; intros fuel prev first Hnd Hl Hfuel; cbn in Hl, Hfuel.
  - subst first. right. split; [by destruct fuel|]. by intros a z n ?%elem_of_nil.
  - destruct Hl as (-> & Ha & z & Hz & _ & Hl). apply NoDup_cons in Hnd as [Hnin Hnd].
    destruct fuel as [|fuel]; [lia|]. cbn [zone_find_walk].
    rewrite (proj2 (Z.eqb_neq a NULL) Ha), Hz. cbn [of_option obind].
    pose proof (ch_zone _ _ Hc a z Hz) as Hok.
    destruct ((z_begin z <=? p) && (p <? z_end z)) eqn:E.
    + apply andb_prop in E as [E1%Z.leb_le E2%Z.ltb_lt].
      destruct (__heap_zoneFindAllocationWithPointer z p) as [i|] eqn:F; cbn.
      * left. apply slot_search_Some in F as (s & Hs & [Hp%Z.eqb_eq Hu]%andb_prop).
        exists a, z, i, s. pose proof (slot_pointer_lo _ _ Hok s (zo_slot _ _ Hok i s Hs) (used_piece _ Hu)).
        split_and!; try done; [apply elem_of_cons; by left|congruence].
      * right. split; [done|]. intros b y n _ Hb Hu.
        assert (b = a) as -> by (eapply (live_zone h l0 b a); eauto).
        rewrite Hz in Hb. injection Hb as <-. destruct Hu as (i & s & Hi & Hu & Hp & _).
        pose proof (slot_search_None _ _ i s F Hi) as Hn. cbn in Hn.
        rewrite (slot_pointer_lo _ _ Hok s (zo_slot _ _ Hok i s Hi) (used_piece _ Hu)), Hp, Z.eqb_refl in Hn.
        unfold is_used in Hu. by rewrite Hu in Hn.
    + destruct (IH fuel a _ Hnd Hl ltac:(lia)) as [(b & y & i & s & Hw & Hb & Hr)|(Hw & Hno)].
      * left. exists b, y, i, s. split_and!; try apply Hr; try done. apply elem_of_cons. by right.
      * right. split; [done|]. intros b y n [->|Hb]%elem_of_cons Hy Hu; [|by eapply Hno].
        rewrite Hz in Hy. injection Hy as <-. pose proof (used_in_zone _ _ _ _ _ _ Hc Hz Hu). lia.
Qed.

Lemma find_zone_spec h l p :
  chain_ok h l ->
  (exists a z i s, __heap_findZoneWithAllocation h p = Ok (Some (a, i)) /\
     h_zones h !! a = Some z /\ z_slots z !! i = Some s /\ is_used s = true /\ slot_lo z s = p) \/
  (__heap_findZoneWithAllocation h p = Ok None /\ forall n, ~ heap_live h p n).
Proof.
  intros Hc. destruct (find_walk_spec h l p Hc l (chain_fuel h) NULL (h_firstZone h))
    as [(a & z & i & s & Hw & _ & Hr)|(Hw & Hno)];
    [apply Hc|apply Hc|by apply chain_fuel_enough|left; eauto 10|right].
  split; [done|]. intros n (a & z & Ha & Hu). eapply Hno; eauto using ch_dom.
Qed.
End Walks.

(** ** Changing one zone *)

Section Put.
Context {P : Type} `{PageSourceOk P}.
Implicit Types (h : heap_t P) (l : list Z).

Lemma put_zone_ok h l a z z' :
  chain_ok h l -> h_zones h !! a = Some z -> same_header z z' -> zone_ok a z' ->
  chain_ok (put_zone h a z') l.
Proof.
  intros Hc Ha (Et & Eb & Ee & Ep & Epr & Enx) Hz'. pose proof Hc as [Hl Hnd Hd Hzs Ho].
  split; cbn; [|done|..].
  - eapply dseg_frame; [|exact Hl]. intros b y Hb Hy. destruct (decide (b = a)) as [->|Hne].
    + exists z'. rewrite lookup_insert_eq. rewrite Ha in Hy. by injection Hy as <-.
    + exists y. by rewrite lookup_insert_ne by congruence.
  - intros b y. rewrite lookup_insert_Some. intros [[<- _]|[_ ?]]; eauto.
  - intros b y. rewrite lookup_insert_Some. intros [[<- <-]|[_ ?]]; eauto.
  - intros b y. rewrite lookup_insert_Some. intros [[<- <-]|[_ ?]]; [rewrite Ep|]; eauto.
Qed.

Lemma put_zone_foreign h a z z' : h_zones h !! a = Some z -> same_foreign h (put_zone h a z').
Proof.
  intros Ha b n. unfold foreign. cbn. rewrite lookup_insert_None.
  split; intros (Ho & Hb); [by destruct Hb|]. split_and!; [done..|congruence].
Qed.

Lemma put_zone_live h a z' p n :
  heap_live (put_zone h a z') p n <->
  zone_used z' p n \/ exists b y, b <> a /\ h_zones h !! b = Some y /\ zone_used y p n.
Proof.
  unfold heap_live. cbn. split.
  - intros (b & y & Hb & Hu). apply lookup_insert_Some in Hb as [[<- <-]|[Hne Hb]]; [by left|right; eauto 10].
  - intros [Hu|(b & y & Hne & Hb & Hu)]; [exists a, z'|exists b, y].
    + by rewrite lookup_insert_eq.
    + by rewrite lookup_insert_ne by congruence.
Qed.

(** A zone that uses one more piece makes the heap use one more. *)
Lemma put_zone_live_add h a z z' q k :
  h_zones h !! a = Some z ->
  (forall p n, zone_used z' p n <-> zone_used z p n \/ (p = q /\ n = k)) ->
  forall p n, heap_live (put_zone h a z') p n <-> heap_live h p n \/ (p = q /\ n = k).
Proof.
  intros Ha Hz p n. rewrite put_zone_live, Hz. split.
  - intros [[Hu|Heq]|(b & y & _ & Hb & Hu)]; [left; by exists a, z|by right|left; by exists b, y].
  - intros [(b & y & Hb & Hu)|Heq]; [|left; by right].
    destruct (decide (b = a)) as [->|Hne]; [|right; eauto 10].
    rewrite Ha in Hb. injection Hb as <-. left. by left.
Qed.

(** A piece of one zone is in use nowhere else, so when the zone gives it up
    the heap does. *)
Lemma live_remove h l a z q k p n :
  chain_ok h l -> h_zones h !! a = Some z -> zone_used z q k ->
  heap_live h p n /\ p <> q <->
  (zone_used z p n /\ p <> q) \/ exists b y, b <> a /\ h_zones h !! b = Some y /\ zone_used y p n.
Proof.
  intros Hc Ha Hq. split.
  - intros [(b & y & Hb & Hu) Hne]. destruct (decide (b = a)) as [->|Hba]; [|right; eauto 10].
    rewrite Ha in Hb. injection Hb as <-. by left.
  - intros [[Hu Hne]|(b & y & Hba & Hb & Hu)]; [split; [by exists a, z|done]|].
    split; [by exists b, y|]. intros ->. apply Hba. eapply (live_zone h l b a); eauto using used_in_zone.
Qed.
End Put.

(** ** Making and destroying zones *)

Lemma zone_request_fits size :
  0 <= size <= max_request ->
  let type := __heap_zoneTypeForSize size in
  let pages := zone_pages_for type size in
  1 <= pages < 2 ^ 31 /\ (is_tiny type = true -> pages = 1) /\ size <= first_piece type pages.
Proof.
  intros Hs. unfold max_request in Hs. cbn zeta. unfold __heap_zoneTypeForSize.
  destruct (Z.ltb_spec 2048 size); [|destruct (Z.ltb_spec 256 size); [|destruct (Z.ltb_spec 64 size)]];
    unfold zone_pages_for, first_piece; cbn -[Z.mul VM_PAGE_COUNT]; unfold UINT8_MAX.
  2-4: split_and!; try done; lia.
  pose proof (page_count_enough size ltac:(lia)). split_and!; try done; lia.
Qed.

Section Zones.
Context {P : Type} `{PageSourceOk P}.
Implicit Types (h : heap_t P) (l : list Z).

(** Following a link that the code has tested against a null pointer. *)
Lemma guarded_alter (f : heap_zone -> heap_zone) (a : Z) (zs : gmap Z heap_zone) :
  zs !! NULL = None -> (a <> NULL -> is_Some (zs !! a)) ->
  exists zs', (if a =? NULL then Ok zs else alter_zone f a zs) = Ok zs' /\
    forall b, zs' !! b = (y ← zs !! b; Some (if decide (b = a) then f y else y)).
Proof.
  intros Hnull Ha. destruct (Z.eqb_spec a NULL) as [->|Hne].
  - exists zs. split; [done|]. intros b. destruct (zs !! b) as [y|] eqn:E; [|done]. cbn.
    case_decide; congruence.
  - destruct (Ha Hne) as [y Hy]. unfold alter_zone. rewrite Hy. eexists. split; [done|].
    intros b. destruct (decide (b = a)) as [->|Hb].
    + by rewrite lookup_insert_eq, Hy.
    + rewrite lookup_insert_ne by congruence. by destruct (zs !! b).
Qed.

Lemma chain_null h l : chain_ok h l -> h_zones h !! NULL = None.
Proof.
  intros Hc. destruct (h_zones h !! NULL) as [z|] eqn:E; [|done].
  destruct (zo_range _ _ (ch_zone _ _ Hc _ _ E)) as [Hp _]. unfold NULL in Hp. lia.
Qed.

Lemma chain_member h l a : chain_ok h l -> a ∈ l -> is_Some (h_zones h !! a).
Proof. intros Hc Ha. by destruct (dseg_lookup _ _ _ _ _ _ _ _ (ch_list _ _ Hc) Ha). Qed.

Lemma chain_head h l1 l2 : chain_ok h (l1 ++ l2) -> head_of l2 NULL <> NULL -> is_Some (h_zones h !! head_of l2 NULL).
Proof.
  intros Hc Hne. eapply chain_member; [done|]. destruct l2 as [|b l2]; [done|].
  cbn. apply elem_of_app. right. apply elem_of_cons. by left.
Qed.

Lemma chain_tail h l1 l2 : chain_ok h (l1 ++ l2) -> tail_of NULL l1 <> NULL -> is_Some (h_zones h !! tail_of NULL l1).
Proof.
  unfold tail_of. intros Hc Hne. eapply chain_member; [done|]. destruct (last l1) eqn:E; [|done].
  apply elem_of_app. left. by apply last_Some_elem_of.
Qed.

(** The zones after [address] has been put in front of the chain. *)
Definition linked_front (zs zs' : gmap Z heap_zone) (first address : Z) (z : heap_zone) : Prop :=
  zs' !! address = Some z /\
  forall b, b <> address ->
    zs' !! b = (y ← zs !! b; Some (if decide (b = first) then set_links y address (z_next y) else y)).

Lemma linked_front_ok h l address z zs' pg :
  chain_ok h l -> address ∉ l -> 0 < address ->
  linked_front (h_zones h) zs' (h_firstZone h) address z ->
  zone_ok address z -> z_prev z = NULL -> z_next z = h_firstZone h ->
  pg_owned pg address (z_pages z) -> (forall a n, pg_owned (h_pages h) a n -> pg_owned pg a n) ->
  chain_ok (set_zones (set_pages h pg) address zs') (address :: l).
Proof.
  intros Hc Hnin Hpos [Hz Hzs] Hok Hp Hn Ho Howned.
  assert (Hold : forall a y', a <> address -> zs' !! a = Some y' ->
    exists y pr, h_zones h !! a = Some y /\ y' = set_links y pr (z_next y)).
  { intros a y' Hne. rewrite Hzs by done. destruct (h_zones h !! a) as [y|]; [|done].
    cbn. case_decide; intros [= <-]; exists y; [by exists address|exists (z_prev y)]. by destruct y. }
  pose proof Hc as [Hl Hnd Hd Hzok Hown].
  assert (Hcase : forall (Q : Z -> heap_zone -> Prop) a y', zs' !! a = Some y' ->
    Q address z -> (forall a y pr, h_zones h !! a = Some y -> Q a (set_links y pr (z_next y))) -> Q a y').
  { intros Q a y' Ha Hnew HQ. destruct (decide (a = address)) as [->|Hne]; [congruence|].
    destruct (Hold a y' Hne Ha) as (y & pr & Hy & ->). by apply HQ. }
  split; cbn.
  - eapply dlist_push_front; try done; [unfold NULL; lia|].
    intros b y Hb Hy. rewrite Hzs, Hy by congruence. cbn.
    eexists. split; [done|]. by case_decide.
  - by apply NoDup_cons.
  - intros a y' Ha. apply (Hcase (fun a _ => a ∈ address :: l) a y' Ha); [apply elem_of_cons; by left|].
    intros b y pr Hy. apply elem_of_cons. right. eauto.
  - intros a y' Ha. apply (Hcase zone_ok a y' Ha); [done|]. intros b y pr Hy. apply zone_ok_links. eauto.
  - intros a y' Ha. apply (Hcase (fun a y => pg_owned pg a (z_pages y)) a y' Ha); [done|].
    intros b y pr Hy. apply Howned. cbn. eauto.
Qed.

Lemma linked_front_live h address z zs' pg first' p n :
  h_zones h !! address = None -> linked_front (h_zones h) zs' (h_firstZone h) address z ->
  (forall q m, ~ zone_used z q m) ->
  heap_live (set_zones (set_pages h pg) first' zs') p n <-> heap_live h p n.
Proof.
  intros Hnone [Hz Hzs] Hun. unfold heap_live. cbn. split.
  - intros (a & y' & Ha & Hu). destruct (decide (a = address)) as [->|Hne].
    { rewrite Hz in Ha. injection Ha as <-. by apply Hun in Hu. }
    rewrite Hzs in Ha by done. destruct (h_zones h !! a) as [y|] eqn:E; [|done].
    exists a, y. split; [done|]. cbn in Ha. injection Ha as <-. by case_decide.
  - intros (a & y & Ha & Hu). assert (a <> address) by congruence.
    exists a. rewrite Hzs, Ha by done. cbn. eexists. split; [done|]. by case_decide.
Qed.

Lemma linked_front_foreign h address z zs' pg first' n0 :
  linked_front (h_zones h) zs' (h_firstZone h) address z -> (forall n, ~ pg_owned (h_pages h) address n) ->
  (forall b n, pg_owned pg b n <-> pg_owned (h_pages h) b n \/ (b = address /\ n = n0)) ->
  same_foreign h (set_zones (set_pages h pg) first' zs').
Proof.
  intros [Hz Hzs] Hfresh Hpg b n. unfold foreign. cbn. destruct (decide (b = address)) as [->|Hne].
  - rewrite Hz. split; [by intros [_ ?]|]. intros [Ho _]. by apply Hfresh in Ho.
  - rewrite Hzs, Hpg by done. destruct (h_zones h !! b); naive_solver.
Qed.

Lemma create_links h l a z :
  chain_ok h l -> a ∉ l ->
  exists zs, (if h_firstZone h =? NULL then Ok (h_zones h)
      else alter_zone (fun z => set_links z a (z_next z)) (h_firstZone h) (h_zones h)) = Ok zs /\
    linked_front (h_zones h) (<[a := z]> zs) (h_firstZone h) a z.
Proof.
  intros Hc Hnin.
  destruct (guarded_alter (fun z => set_links z a (z_next z)) (h_firstZone h) (h_zones h)) as (zs & E & Hzs).
  - by eapply chain_null.
  - rewrite (dlist_first _ _ _ _ _ (ch_list _ _ Hc)). by eapply (chain_head h [] l).
  - exists zs. split; [done|]. split; [by rewrite lookup_insert_eq|].
    intros b Hb. rewrite lookup_insert_ne by congruence. apply Hzs.
Qed.

Lemma create_spec h l size :
  chain_ok h l -> 0 <= size <= max_request ->
  let pages := zone_pages_for (__heap_zoneTypeForSize size) size in
  (__heap_createZoneForSize h size = Panic /\ fst (mm_alloc (h_pages h) (pages + 1)) = NULL) \/
  exists a h' z s, __heap_createZoneForSize h size = Ok (a, h') /\ chain_ok h' (a :: l) /\
    h_flags h' = h_flags h /\ h_lock h' = h_lock h /\ h_zones h' !! a = Some z /\
    z_slots z !! O = Some s /\ is_free s = true /\ size <= a_size s /\ same_foreign h h' /\
    forall p n, heap_live h' p n <-> heap_live h p n.
Proof.
  intros Hc Hsize pages. destruct (zone_request_fits size Hsize) as (Hpg & Htiny & Hfit). fold pages in Hpg, Htiny, Hfit.
  unfold __heap_createZoneForSize. cbn zeta. fold pages. rewrite u32_small by lia.
  destruct (mm_alloc (h_pages h) (pages + 1)) as [a pg] eqn:Em. cbn [fst].
  destruct (Z.eqb_spec a NULL) as [->|Hne]; [by left|]. right.
  destruct (pg_alloc_ok _ _ _ _ (ltac:(lia) : 0 <= pages + 1) Em Hne) as [Hfresh Howned].
  assert (Ho : pg_owned pg a (pages + 1)) by (apply Howned; by right).
  destruct (pg_sane _ _ _ Ho) as (Hpos & _ & _ & Hend).
  set (type := __heap_zoneTypeForSize size) in *.
  set (z := fresh_zone type pages a (h_firstZone h)).
  destruct (fresh_zone_fields type pages a (h_firstZone h)) as (_ & _ & _ & Fp & Fpr & Fnx); [lia..|].
  destruct (fresh_zone_first type pages a (h_firstZone h)) as (s & Hs & Hsf & Hsz); [done|lia..|].
  assert (Hnone : h_zones h !! a = None).
  { destruct (h_zones h !! a) as [y|] eqn:E; [|done]. by destruct (Hfresh _ (ch_owned _ _ Hc a y E)). }
  assert (Hnin : a ∉ l).
  { intros Hin. destruct (dseg_lookup _ _ _ _ _ _ _ _ (ch_list _ _ Hc) Hin) as [_ [y Hy]]. congruence. }
  destruct (create_links h l a z Hc Hnin) as (zs & Ezs & Hlf). cbn [set_pages h_firstZone h_zones]. rewrite Ezs. cbn [obind].
  exists a, (set_zones (set_pages h pg) a (<[a := z]> zs)), z, s. split_and!; try done.
  - apply (linked_front_ok h l a z); try done; [by apply fresh_zone_ok; [done|lia..]|by rewrite (Fp : z_pages z = _)|].
    intros b m Hb. apply Howned. by left.
  - apply Hlf.
  - by rewrite Hsz.
  - by apply (linked_front_foreign h a z _ _ _ (pages + 1)).
  - intros p n. apply (linked_front_live h a z); try done. intros q m. apply fresh_zone_unused; [done|lia..].
Qed.

(** The zones after [zone] has been taken out of the chain. *)
Definition unlinked (zs zs' : gmap Z heap_zone) (z : heap_zone) : Prop :=
  forall b, zs' !! b = (y ← zs !! b; Some
    (set_links y (if decide (b = z_next z) then z_prev z else z_prev y)
                 (if decide (b = z_prev z) then z_next z else z_next y))).

Lemma destroy_links h l a z :
  chain_ok h l -> h_zones h !! a = Some z ->
  exists zs1 zs, (if z_prev z =? NULL then Ok (h_zones h)
      else alter_zone (fun p => set_links p (z_prev p) (z_next z)) (z_prev z) (h_zones h)) = Ok zs1 /\
    (if z_next z =? NULL then Ok zs1
      else alter_zone (fun n => set_links n (z_prev z) (z_next n)) (z_next z) zs1) = Ok zs /\
    unlinked (h_zones h) zs z.
Proof.
  intros Hc Ha. destruct (list_elem_of_split _ _ (ch_dom _ _ Hc a z Ha)) as (l1 & l2 & ->).
  destruct (dlist_links _ _ _ _ _ _ _ (ch_list _ _ Hc)) as (z0 & Hz0 & Hp & Hn).
  assert (z0 = z) as -> by congruence. clear Hz0. rewrite (app_assoc l1 [a] l2 : l1 ++ a :: l2 = _) in Hc.
  destruct (guarded_alter (fun p => set_links p (z_prev p) (z_next z)) (z_prev z) (h_zones h)) as (zs1 & E1 & H1').
  { by eapply chain_null. }
  { rewrite Hp. rewrite <- app_assoc in Hc. by eapply chain_tail. }
  destruct (guarded_alter (fun n => set_links n (z_prev z) (z_next n)) (z_next z) zs1) as (zs & E2 & H2').
  { by rewrite H1', (chain_null _ _ Hc). }
  { rewrite H1', Hn. intros Hne. destruct (chain_head _ _ _ Hc Hne) as [y ->]. done. }
  exists zs1, zs. split_and!; [done..|]. intros b. rewrite H2', H1'.
  destruct (h_zones h !! b) as [y|]; [|done]. cbn. by repeat case_decide; destruct y.
Qed.

Lemma unlinked_ok h l a z zs :
  chain_ok h l -> h_zones h !! a = Some z -> unlinked (h_zones h) zs z ->
  let h' := set_pages (set_zones h (if a =? h_firstZone h then z_next z else h_firstZone h) (delete a zs))
              (mm_free (h_pages h) a (z_pages z)) in
  (exists l', chain_ok h' l') /\ same_foreign h h' /\
  forall p n, heap_live h' p n <-> exists b y, b <> a /\ h_zones h !! b = Some y /\ zone_used y p n.
Proof.
  intros Hc Ha Hzs. cbn zeta. destruct (list_elem_of_split _ _ (ch_dom _ _ Hc a z Ha)) as (l1 & l2 & ->).
  assert (Hold : forall b y', delete a zs !! b = Some y' ->
    exists y pr nx, b <> a /\ h_zones h !! b = Some y /\ y' = set_links y pr nx).
  { intros b y' [Hne Hb]%lookup_delete_Some. rewrite Hzs in Hb. destruct (h_zones h !! b) as [y|]; [|done].
    injection Hb as <-. eauto 10. }
  pose proof (pg_free_ok _ _ _ (ch_owned _ _ Hc a z Ha)) as Hfree. split_and!; [exists (l1 ++ l2); split; cbn|..].
  - replace (if a =? h_firstZone h then z_next z else h_firstZone h)
      with (if decide (a = h_firstZone h) then z_next z else h_firstZone h)
      by (destruct (Z.eqb_spec a (h_firstZone h)); by case_decide).
    apply (dlist_unlink _ _ (h_zones h) _ _ a z); [apply Hc|apply Hc|done|].
    intros b y Hb Hy. assert (Hba : b <> a).
    { intros ->. pose proof (ch_nodup _ _ Hc) as (_ & Hd & [Hnin _]%NoDup_cons)%NoDup_app.
      apply elem_of_app in Hb as [Hb|Hb]; [|done]. eapply Hd; [exact Hb|]. apply elem_of_cons. by left. }
    rewrite lookup_delete_ne, Hzs, Hy by congruence. eexists. split; [reflexivity|done].
  - pose proof (ch_nodup _ _ Hc) as (H1' & Hd & [Hnin H2']%NoDup_cons)%NoDup_app. apply NoDup_app.
    split_and!; [done| |done]. intros b Hb Hb2. eapply Hd; [exact Hb|]. apply elem_of_cons. by right.
  - intros b y' (y & pr & nx & Hne & Hb & ->)%Hold. apply (ch_dom _ _ Hc) in Hb.
    apply elem_of_app. apply elem_of_app in Hb as [?|[?|?]%elem_of_cons]; [by left|done|by right].
  - intros b y' (y & pr & nx & Hne & Hb & ->)%Hold. apply zone_ok_links. by eapply ch_zone.
  - intros b y' (y & pr & nx & Hne & Hb & ->)%Hold. apply Hfree. split; [|done]. exact (ch_owned _ _ Hc b y Hb).
  - intros b n. unfold foreign. cbn. rewrite Hfree. destruct (decide (b = a)) as [->|Hne]; [naive_solver|].
    rewrite lookup_delete_ne, Hzs by congruence. destruct (h_zones h !! b); naive_solver.
  - intros p n. unfold heap_live. cbn. split.
    + intros (b & y' & (y & pr & nx & Hne & Hb & ->)%Hold & Hu). eauto 10.
    + intros (b & y & Hne & Hb & Hu). exists b. rewrite lookup_delete_ne, Hzs, Hb by congruence. eexists. split; [reflexivity|done].
Qed.
End Zones.

(** ** The operations on the whole heap *)

Section Contract.
Context {P : Type} `{PageSourceOk P}.
Implicit Types (h : heap_t P) (l : list Z).

(** Only the lock differs. *)
Lemma chain_ok_lock h l b : chain_ok h l -> chain_ok (set_lock h b) l.
Proof. intros []. by split. Qed.

(** [h'] has one more live allocation than [h], of at least [size] bytes. *)
Definition allocated h size p h' : Prop :=
  heap_inv h' /\ same_foreign h h' /\ 0 < p /\ (forall m, ~ heap_live h p m) /\
  exists k, size <= k /\ forall q m, heap_live h' q m <-> heap_live h q m \/ (q = p /\ m = k).

(** The page source had no room for another zone. *)
Definition pages_refused h size : Prop :=
  fst (mm_alloc (h_pages h) (zone_pages_for (__heap_zoneTypeForSize size) size + 1)) = NULL.

(** What is left of [halloc] once a zone and a record have been picked. *)
Lemma use_in_chain h l a z i s size :
  chain_ok h l -> 0 <= size <= max_request ->
  h_zones h !! a = Some z -> z_slots z !! i = Some s -> is_free s = true -> size <= a_size s ->
  exists z', __heap_useAllocation h z i size = Ok (slot_lo z s, z') /\
    allocated h size (slot_lo z s) (set_lock (put_zone h a z') false).
Proof.
  intros Hc Hsize Ha Hi Hs Hfit. pose proof (ch_zone _ _ Hc a z Ha) as Hz.
  destruct (use_spec h a z i s size Hz Hi Hs Hsize Hfit) as (z' & E & Hh & Hz' & k & Hk & Hu).
  exists z'. split; [done|]. destruct (zo_slot _ _ Hz i s Hi (free_piece _ Hs)) as (H1' & H2' & H3' & _).
  pose proof (zo_begin _ _ Hz) as Hb. destruct (zo_range _ _ Hz) as [Hpos _].
  split_and!; [| |lia| |].
  - split; [done|]. exists l. apply chain_ok_lock. by eapply put_zone_ok.
  - by apply (put_zone_foreign h a z).
  - intros m (b & y & Hy & Hyu).
    assert (b = a) as -> by (eapply (live_zone h l b a); eauto; lia).
    rewrite Ha in Hy. injection Hy as <-. destruct Hyu as (j & t & Hj & Ht & Hp & _).
    assert (j = i) as -> by (eapply (piece_unique a z Hz j i t s); eauto with heap).
    rewrite Hi in Hj. injection Hj as <-. by eapply free_not_used.
  - exists k. split; [done|]. intros q m. by apply (put_zone_live_add h a z z').
Qed.

Lemma zone_for_size_spec h l size :
  chain_ok h l -> 0 <= size <= max_request ->
  (__heap_zoneForSize h size = Panic /\ pages_refused h size) \/
  exists a i h' l' z s, __heap_zoneForSize h size = Ok (a, i, h') /\ chain_ok h' l' /\
    h_flags h' = h_flags h /\
    h_zones h' !! a = Some z /\ z_slots z !! i = Some s /\ is_free s = true /\ size <= a_size s /\
    same_foreign h h' /\ forall p n, heap_live h' p n <-> heap_live h p n.
Proof.
  intros Hc Hsize. unfold __heap_zoneForSize.
  assert (Hcreate : (let* (zone, h0) := __heap_createZoneForSize h size in Ok (zone, O, h0)) = Panic /\ pages_refused h size \/
    exists a i h' l' z s, (let* (zone, h0) := __heap_createZoneForSize h size in Ok (zone, O, h0)) = Ok (a, i, h') /\
    chain_ok h' l' /\ h_flags h' = h_flags h /\
    h_zones h' !! a = Some z /\ z_slots z !! i = Some s /\ is_free s = true /\ size <= a_size s /\
    same_foreign h h' /\ forall p n, heap_live h' p n <-> heap_live h p n).
  { destruct (create_spec h l size Hc Hsize) as [[-> Hr]|(a & h' & z & s & -> & Hc' & Hf & _ & Hr)]; [by left|].
    right. exists a, O, h', (a :: l), z, s. by destruct Hr as (? & ? & ? & ? & ? & ?). }
  case_bool_decide; cbn [obind]; [done|].
  destruct (zone_walk_spec (h_zones h) (__heap_zoneTypeForSize size) size (required_size h size) l (chain_fuel h)
    NULL (h_firstZone h)) as [->|(a & z & i & s & -> & Ha & Hi & Hs & Hreq)];
    [apply Hc|by apply chain_fuel_enough|done|]. cbn [obind]. right.
  pose proof (required_bounds h size Hsize). exists a, i, h, l, z, s. split_and!; try done. lia.
Qed.

Lemma halloc_cases h size :
  heap_inv h -> 0 <= size <= max_request ->
  (heap_halloc h size = Panic /\ pages_refused h size) \/
  exists p h', heap_halloc h size = Ok (p, h') /\ allocated h size p h'.
Proof.
  intros [Hlock [l Hc]] Hsize. unfold heap_halloc, heap_lock. rewrite Hlock. cbn [obind].
  destruct (zone_for_size_spec _ l size (chain_ok_lock h l true Hc) Hsize)
    as [[-> Hr]|(a & i & h' & l' & z & s & -> & Hc' & Hf & Ha & Hi & Hs & Hfit & Hfor & Hlive)]; [by left|].
  right. cbn [obind]. rewrite Ha. cbn [of_option obind].
  destruct (use_in_chain h' l' a z i s size) as (z' & -> & Hinv & Hfor' & Hpos & Hnew & k & Hk & Hl); try done.
  cbn [obind]. rewrite (proj2 (Z.eqb_neq _ NULL)) by (unfold NULL; lia).
  eexists _, _. split; [done|]. split_and!; try done.
  - intros b n. rewrite (Hfor' b n). apply (Hfor b n).
  - intros m Hm. by apply (Hnew m), Hlive.
  - exists k. split; [done|]. intros q m. by rewrite Hl, Hlive.
Qed.

(** [h'] has lost the allocation at [p] and kept the others. *)
Definition released h p h' : Prop :=
  heap_inv h' /\ same_foreign h h' /\ forall q m, heap_live h' q m <-> heap_live h q m /\ q <> p.

Lemma destroy_releases h l a z p n :
  chain_ok h l -> h_zones h !! a = Some z -> zone_used z p n ->
  z_allocations z = z_freeAllocations z + 1 ->
  exists h', __heap_destroyZone h a = Ok h' /\ released h p (set_lock h' false).
Proof.
  intros Hc Ha Hu Hone. destruct (destroy_links h l a z Hc Ha) as (zs1 & zs & E1 & E2 & Hzs).
  unfold __heap_destroyZone. rewrite Ha. cbn [of_option obind]. rewrite E1. cbn [obind]. rewrite E2. cbn [obind].
  destruct (unlinked_ok h l a z zs Hc Ha Hzs) as ([l' Hc'] & Hfor & Hlive). eexists. split; [done|].
  split_and!; [split; [done|exists l'; by apply chain_ok_lock]|exact Hfor|].
  intros q m. etransitivity; [exact (Hlive q m)|]. rewrite (live_remove h l a z p n q m) by done.
  split; [by right|]. intros [[Hq Hne]|?]; [|done]. destruct Hne.
  by eapply (zone_single_used a z p n q m); eauto using ch_zone.
Qed.

Lemma free_releases h l a z i s :
  chain_ok h l -> h_zones h !! a = Some z -> z_slots z !! i = Some s -> is_used s = true ->
  exists z1 z2, __heap_freeAllocation z i = Ok z1 /\ __heap_zoneDefragment z1 = Ok z2 /\
    released h (slot_lo z s) (set_lock (put_zone h a z2) false).
Proof.
  intros Hc Ha Hi Hs. destruct (free_spec a z i s (ch_zone _ _ Hc a z Ha) Hi Hs) as (z1 & E1 & Hh & Hz1 & Hu).
  destruct (defragment_only_resets z1) as [c E2]. eexists z1, _. split; [done|]. split; [done|]. split; [|split; [by apply (put_zone_foreign h a z)|]].
  - split; [done|]. exists l. apply chain_ok_lock. eapply put_zone_ok; [done..| |by apply zone_ok_changes].
    eapply same_header_trans; [done|]. by split_and!.
  - intros q m. etransitivity; [apply put_zone_live|].
    rewrite (live_remove h l a z (slot_lo z s) (a_size s) q m), <- Hu by (try done; by exists i, s). done.
Qed.

Lemma hfree_live h p n :
  heap_inv h -> heap_live h p n -> exists h', heap_hfree h p = Ok h' /\ released h p h'.
Proof.
  intros [Hlock [l Hc]] Hl. unfold heap_hfree, heap_lock. rewrite Hlock. cbn [obind].
  pose proof (chain_ok_lock h l true Hc) as Hc'.
  destruct (find_zone_spec (set_lock h true) l p Hc') as [(a & z & i & s & -> & Ha & Hi & Hs & Hp)|[_ Hno]];
    [|by destruct (Hno n)]. cbn [obind]. rewrite Ha. cbn [of_option obind].
  pose proof (ch_zone _ _ Hc a z Ha) as Hz. destruct (zone_counts _ _ Hz) as [Hc1 Hc2].
  destruct (Z.eqb_spec (z_allocations z) (u32 (z_freeAllocations z + 1))) as [E|E].
  - rewrite u32_small in E by lia.
    destruct (destroy_releases (set_lock h true) l a z p (a_size s) Hc' Ha) as (h' & -> & Hr);
      [by exists i, s|done|]. cbn [obind]. by eexists.
  - destruct (free_releases (set_lock h true) l a z i s Hc' Ha Hi Hs) as (z1 & z2 & -> & E2 & Hr).
    cbn [obind]. rewrite E2. cbn [obind]. rewrite Hp in Hr. by eexists.
Qed.

Lemma hfree_dead h p : heap_inv h -> (forall n, ~ heap_live h p n) -> heap_hfree h p = Panic.
Proof.
  intros [Hlock [l Hc]] Hno. unfold heap_hfree, heap_lock. rewrite Hlock. cbn [obind].
  destruct (find_zone_spec (set_lock h true) l p (chain_ok_lock h l true Hc))
    as [(a & z & i & s & _ & Ha & Hi & Hs & Hp)|[-> _]]; [|done].
  destruct (Hno (a_size s)). exists a, z. split; [done|]. by exists i, s.
Qed.
End Contract.
