(* ===== verification/HeapContract.v ===== *)
(** * The heap's contract

    Discharges the interface [KernelHeap] for the heap of heap.c on top of any
    correct page source, and shows that a heap refines a ledger of live
    allocations over any sequence of requests.  [cells_source] is a page source
    simple enough to run, used to exercise the theorems. *)

From S2P Require Import Prelude Pages HeapSpec DList Heap HeapCorrect HeapChain.

(** ** A page source that runs

    Four thousand cells of one megabyte; a cell holds one region. *)

Abbreviation cells_source := (gmap Z Z).
Definition cell_size : Z := 2 ^ 20.
Definition cells : list Z := seqZ 1 4000.

Definition cell_owned (s : cells_source) (a n : Z) : Prop :=
  exists k, 1 <= k <= 4000 /\ a = k * cell_size /\ s !! k = Some n /\ 0 <= n <= 256.

Definition first_cell (s : cells_source) (l : list Z) : option Z :=
  snd <$> list_find (fun k => s !! k = None) l.

#[global] Instance cells_PageSource : PageSource cells_source := {
  mm_alloc s n :=
    if (0 <=? n) && (n <=? 256) then
      match first_cell s cells with Some k => (k * cell_size, <[k := n]> s) | None => (0, s) end
    else (0, s);
  mm_free s a n := delete (a / cell_size) s;
  pg_owned := cell_owned
}.

(** ** Requests *)

Inductive request := Halloc (size : Z) | Hfree (ptr : Z).

Section Requests.
Context {P : Type} `{PageSource P}.

(** One request; freeing gives no pointer. *)
Definition heap_serve (h : heap_t P) (r : request) : outcome (Z * heap_t P) :=
  match r with
  | Halloc size => heap_halloc h size
  | Hfree ptr => let* h := heap_hfree h ptr in Ok (NULL, h)
  end.

Fixpoint heap_run (h : heap_t P) (rs : list request) : outcome (list Z * heap_t P) :=
  match rs with
  | [] => Ok ([], h)
  | r :: rs' =>
      let* (p, h) := heap_serve h r in
      let* (ps, h) := heap_run h rs' in
      Ok (p :: ps, h)
  end.
End Requests.

Definition sane_request (r : request) : Prop :=
  match r with Halloc size => 0 <= size <= max_request | Hfree _ => True end.

(** The specification: a ledger from the address of each live allocation to
    its length. *)
Abbreviation ledger := (gmap Z Z).

Inductive ledger_step : ledger -> request -> Z -> ledger -> Prop :=
  | ledger_alloc m size p k :
      0 < p -> size <= k -> m !! p = None ->
      (forall q n, m !! q = Some n -> regions_apart p k q n) ->
      ledger_step m (Halloc size) p (<[p := k]> m)
  | ledger_free m p k :
      m !! p = Some k -> ledger_step m (Hfree p) NULL (delete p m).

Inductive ledger_run : ledger -> list request -> list Z -> ledger -> Prop :=
  | ledger_nil m : ledger_run m [] [] m
  | ledger_cons m r p m1 rs ps m2 :
      ledger_step m r p m1 -> ledger_run m1 rs ps m2 -> ledger_run m (r :: rs) (p :: ps) m2.

(** ** A heap to try

    On the cells: two allocations of which the first is given back. *)

Definition demo_created : Z * heap_t cells_source :=
  default (NULL, Heap 0 false NULL ∅ ∅) (fst (heap_create (∅ : cells_source) kHeapFlagAligned)).
Definition demo_requests : list request := [Halloc 10; Halloc 300; Hfree 2101248].
Definition demo_run : list Z * heap_t cells_source :=
  match heap_run (snd demo_created) demo_requests with Ok r => r | _ => ([], snd demo_created) end.
Definition demo_heap : heap_t cells_source := snd demo_run.

(** ** The interface is discharged *)

Lemma first_cell_Some s k : first_cell s cells = Some k -> 1 <= k <= 4000 /\ s !! k = None.
Proof.
  unfold first_cell. destruct (list_find _ _) as [[i j]|] eqn:E; cbn; [|done]. intros [= ->].
  apply list_find_Some in E as (Hk & Hnone & _). split; [|done].
  apply list_elem_of_lookup_2, elem_of_seqZ in Hk. lia.
Qed.

#[global] Instance cells_PageSourceOk : PageSourceOk cells_source.
Proof.
  split; cbn [mm_alloc mm_free pg_owned cells_PageSource]; unfold cell_owned, cell_size in *.
  - intros s a n (k & Hk & -> & _ & Hn). split_and!; [lia| |lia|unfold VM_UPPER_LIMIT; lia].
    replace (k * 2 ^ 20) with (k * 256 * 4096) by lia. apply Z.mod_mul. lia.
  - intros s a n b m (k & Hk & -> & Hs & Hn) (j & Hj & -> & Ht & Hm) Hne. unfold regions_apart.
    assert (k < j \/ j < k) by nia. lia.
  - intros s n s'. destruct (_ && _); [|by intros [= <-]].
    destruct (first_cell s cells) as [k|] eqn:E; [|by intros [= <-]].
    apply first_cell_Some in E as [Hk _]. intros [= Hz _]. lia.
  - intros s n a s' Hn. destruct (andb _ _) eqn:En; [|by intros [= <- <-]].
    apply andb_prop in En as [_ Hn2%Z.leb_le].
    destruct (first_cell s cells) as [k|] eqn:E; [|by intros [= <- <-]].
    apply first_cell_Some in E as [Hk Hnone]. intros [= <- <-] _. split.
    + intros m (j & Hj & Ejk & Hs & _). assert (j = k) as -> by lia. congruence.
    + intros b m. split.
      * intros (j & Hj & -> & [[<- <-]|[Hne Hs]]%lookup_insert_Some & Hm); [by right|left; eauto 10].
      * intros [(j & Hj & -> & Hs & Hm)|[-> ->]]; [|exists k; rewrite lookup_insert_eq; split_and!; done || lia].
        exists j. rewrite lookup_insert_ne by congruence. eauto.
  - intros s a n (k & Hk & -> & Hs & Hn) b m. rewrite Z.div_mul by lia. split.
    + intros (j & Hj & -> & [Hne Hs']%lookup_delete_Some & Hm). split; [eauto 10|]. lia.
    + intros [(j & Hj & -> & Hs' & Hm) Hne]. exists j. rewrite lookup_delete_ne by congruence. eauto.
Qed.

#[global] Instance heap_KernelHeap {P} `{PageSource P} : KernelHeap (heap_t P) := {
  halloc := heap_halloc; hfree := heap_hfree; live := heap_live; heap_ok := heap_inv
}.

#[global] Instance heap_KernelHeapOk {P} `{PageSourceOk P} : KernelHeapOk (heap_t P).
Proof.
  split; cbn [halloc hfree live heap_ok heap_KernelHeap].
  - intros h p n [_ [l Hc]]. by eapply chain_live_sane.
  - intros h p n m [_ [l Hc]]. by eapply chain_live_unique.
  - intros h p n q m [_ [l Hc]]. by eapply chain_live_apart.
  - intros h n p h' Hh Hn E. destruct (halloc_cases h n Hh Hn) as [[E' _]|(p' & h'' & E' & Hinv & _ & Hp & Hnew)];
      rewrite E in E'; [done|]. injection E' as <- <-. split; [done|]. right. split; [unfold NULL; lia|done].
  - intros h n Hh Hn. by destruct (halloc_cases h n Hh Hn) as [[-> _]|(p & h' & -> & _)].
  - intros h p n Hh Hl. destruct (hfree_live h p n Hh Hl) as (h' & E & Hinv & _ & Hl'). by exists h'.
  - apply hfree_dead.
Qed.

(** ** The theorems *)

Section Theorems.
Context {P : Type} `{PageSourceOk P}.
Implicit Types (h : heap_t P) (m : ledger).

(** The ledger says what the heap holds. *)
Definition represents h m : Prop := heap_inv h /\ forall p n, heap_live h p n <-> m !! p = Some n.

(** Why a request may panic. *)
Definition may_panic h m (r : request) : Prop :=
  match r with Halloc size => pages_refused h size | Hfree p => m !! p = None end.

Lemma serve_refines h m r :
  represents h m -> sane_request r ->
  (heap_serve h r = Panic /\ may_panic h m r) \/
  exists p h' m', heap_serve h r = Ok (p, h') /\ ledger_step m r p m' /\ represents h' m' /\ same_foreign h h'.
Proof.
  intros [Hinv Hm] Hr. destruct r as [size|p]; cbn in *.
  - destruct (halloc_cases h size Hinv Hr) as [?|(p & h' & -> & Hinv' & Hfor & Hpos & Hnew & k & Hk & Hl)]; [by left|right].
    assert (Hnone : m !! p = None).
    { destruct (m !! p) as [n|] eqn:E; [|done]. apply Hm in E. by apply Hnew in E. }
    exists p, h', (<[p := k]> m). split; [done|]. split; [|split; [split; [done|]|done]].
    + constructor; try done. intros q n Hq. destruct Hinv' as [_ [l Hc]].
      apply (chain_live_apart h' l p k q n Hc); [apply Hl; by right|apply Hl; left; by apply Hm|congruence].
    + intros q n. rewrite Hl, Hm. rewrite lookup_insert_Some. destruct (decide (q = p)) as [->|Hne]; naive_solver.
  - destruct (m !! p) as [n|] eqn:E.
    + right. destruct (hfree_live h p n Hinv (proj2 (Hm p n) E)) as (h' & -> & Hinv' & Hfor & Hl).
      exists NULL, h', (delete p m). split; [done|]. split; [by econstructor|split; [split; [done|]|done]].
      intros q k. rewrite Hl, Hm, lookup_delete_Some. naive_solver.
    + left. rewrite hfree_dead; [done..|]. intros n Hn%Hm. congruence.
Qed.

(** C5: [halloc] on a well-formed heap either panics because the page source
    has no room for the zone the request needs, or returns a non-null pointer
    to a fresh piece of at least [size] bytes that overlaps no live
    allocation; all other allocations stay as they were and the heap is
    well-formed again.  It never faults and never hangs. *)
Theorem heap_halloc_spec h size :
  heap_inv h -> 0 <= size <= max_request ->
  (heap_halloc h size = Panic /\ pages_refused h size) \/
  exists p k h', heap_halloc h size = Ok (p, h') /\ heap_inv h' /\ 0 < p /\ size <= k /\
    (forall q n, heap_live h q n -> regions_apart p k q n) /\
    (forall q n, heap_live h' q n <-> heap_live h q n \/ (q = p /\ n = k)).
Proof.
  intros Hinv Hsize. destruct (halloc_cases h size Hinv Hsize) as [?|(p & h' & E & Hinv' & _ & Hpos & Hnew & k & Hk & Hl)];
    [by left|right]. exists p, k, h'. split_and!; try done.
  intros q n Hq. destruct Hinv' as [_ [l Hc]].
  apply (chain_live_apart h' l p k q n Hc); [apply Hl; by right|apply Hl; by left|].
  intros ->. by apply Hnew in Hq.
Qed.

(** C6: [hfree] of a live pointer returns, removes exactly that allocation
    (the zone too when it was its last one) and keeps the heap well-formed;
    of any other pointer it panics. *)
Theorem heap_hfree_spec h p :
  heap_inv h ->
  (forall n, heap_live h p n -> exists h', heap_hfree h p = Ok h' /\ heap_inv h' /\
     forall q k, heap_live h' q k <-> heap_live h q k /\ q <> p) /\
  ((forall n, ~ heap_live h p n) -> heap_hfree h p = Panic).
Proof.
  intros Hinv. split; [|by apply hfree_dead].
  intros n Hl. destruct (hfree_live h p n Hinv Hl) as (h' & E & Hinv' & _ & Hl'). by exists h'.
Qed.

(** C7: The heap refines the ledger.  Over any sequence of requests it either
    serves them all, with pointers the ledger allows, or panics at some
    request: one the page source cannot serve, or the freeing of a pointer
    that is not in the ledger.  It never faults and never hangs. *)
Theorem heap_refines_ledger h m rs :
  represents h m -> Forall sane_request rs ->
  match heap_run h rs with
  | Ok (ps, h') => exists m', ledger_run m rs ps m' /\ represents h' m'
  | Panic => exists rs1 r rs2 ps h' m', rs = rs1 ++ r :: rs2 /\ heap_run h rs1 = Ok (ps, h') /\
      ledger_run m rs1 ps m' /\ represents h' m' /\ may_panic h' m' r
  | Fault | Hang => False
  end.
Proof.
  revert h m. induction rs as [|r rs IH]; intros h m Hrep Hs; cbn [heap_run].
  { exists m. split; [constructor|done]. }
  apply Forall_cons in Hs as [Hr Hs].
  destruct (serve_refines h m r Hrep Hr) as [[E Hp]|(p & h1 & m1 & E & Hstep & Hrep1 & _)]; rewrite E; cbn [obind].
  { exists [], r, rs, [], h, m. split_and!; try done. constructor. }
  specialize (IH h1 m1 Hrep1 Hs). destruct (heap_run h1 rs) as [[ps h2]| | |]; cbn [obind]; try done.
  - destruct IH as (m2 & Hrun & Hrep2). exists m2. split; [by econstructor|done].
  - destruct IH as (rs1 & r' & rs2 & ps & h' & m' & -> & Erun & Hrun & Hrep' & Hp).
    exists (r :: rs1), r', rs2, (p :: ps), h', m'. split_and!; try done; [|by econstructor].
    cbn [heap_run]. rewrite E. cbn [obind]. by rewrite Erun.
Qed.

(** The pages a heap leaves behind while it is torn down. *)
Lemma destroy_walk_spec zs : forall l fuel prev first pg,
  dseg z_prev z_next zs prev first l NULL -> NoDup l -> (length l < fuel)%nat ->
  (forall a z, a ∈ l -> zs !! a = Some z -> pg_owned pg a (z_pages z)) ->
  exists pg', destroy_walk fuel zs first pg = Ok pg' /\
    forall b n, pg_owned pg' b n <-> pg_owned pg b n /\ b ∉ l.
Proof.
  induction l as [|a l IH]; intros fuel prev first pg Hl Hnd Hfuel Ho; cbn in Hl, Hfuel.
  - subst first. exists pg. split; [by destruct fuel|]. intros b n. split; [|by intros [? _]].
    intros Hb. split; [done|]. apply not_elem_of_nil.
  - destruct Hl as (-> & Ha & z & Hz & _ & Hl). apply NoDup_cons in Hnd as [Hnin Hnd].
    destruct fuel as [|fuel]; [lia|]. cbn [destroy_walk].
    rewrite (proj2 (Z.eqb_neq a NULL) Ha), Hz. cbn [of_option obind].
    assert (Hoa : pg_owned pg a (z_pages z)) by (apply Ho; [apply elem_of_cons; by left|done]).
    destruct (IH fuel a (z_next z) (mm_free pg a (z_pages z))) as (pg' & E & Hpg'); [done|done|lia|..].
    { intros b y Hb Hy. apply (pg_free_ok _ _ _ Hoa). split; [|congruence].
      apply Ho; [apply elem_of_cons; by right|done]. }
    exists pg'. split; [done|]. intros b n. rewrite Hpg', (pg_free_ok _ _ _ Hoa), not_elem_of_cons. naive_solver.
Qed.

Lemma run_foreign rs : forall h m ps h',
  represents h m -> Forall sane_request rs -> heap_run h rs = Ok (ps, h') -> heap_inv h' /\ same_foreign h h'.
Proof.
  induction rs as [|r rs IH]; intros h m ps h' Hrep Hs; cbn [heap_run]; [intros [= _ <-]; split; [apply Hrep|done]|].
  apply Forall_cons in Hs as [Hr Hs].
  destruct (serve_refines h m r Hrep Hr) as [[-> _]|(p & h1 & m1 & -> & _ & Hrep1 & Hfor)]; cbn [obind]; [done|].
  destruct (heap_run h1 rs) as [[ps1 h2]| | |] eqn:E; cbn [obind]; try done. intros [= _ <-].
  destruct (IH h1 m1 ps1 h2 Hrep1 Hs E) as [Hinv Hfor2]. split; [done|]. intros b n. by rewrite (Hfor2 b n).
Qed.

(** Tearing a heap down gives back its own page and its zones. *)
Lemma destroy_foreign h address :
  heap_inv h -> foreign h address 1 ->
  exists pg', heap_destroy address h = Ok pg' /\
    forall b n, pg_owned pg' b n <-> foreign h b n /\ b <> address.
Proof.
  intros [_ [l Hc]] [Ho Hnone]. unfold heap_destroy.
  assert (Hmem : forall b, b ∉ l <-> h_zones h !! b = None).
  { intros b. split; [|intros Hb Hin; destruct (chain_member h l b Hc Hin); congruence].
    intros Hb. destruct (h_zones h !! b) eqn:Eb; [|done]. by apply (ch_dom _ _ Hc) in Eb. }
  destruct (destroy_walk_spec (h_zones h) l (chain_fuel h) NULL (h_firstZone h) (h_pages h))
    as (pg' & -> & Hpg'); [apply Hc|apply Hc|by apply chain_fuel_enough| |].
  { intros a z _ Ha. by apply (ch_owned _ _ Hc). }
  cbn [obind]. eexists. split; [done|]. intros b n. unfold foreign.
  rewrite (pg_free_ok pg' address 1) by (apply Hpg'; split; [done|by apply Hmem]).
  rewrite Hpg', Hmem. naive_solver.
Qed.

Lemma created_represents (pg : P) flags address h0 pg0 :
  heap_create pg flags = (Some (address, h0), pg0) ->
  represents h0 ∅ /\ foreign h0 address 1 /\
  forall b n, foreign h0 b n /\ b <> address <-> pg_owned pg b n.
Proof.
  unfold heap_create. destruct (mm_alloc pg 1) as [a pg1] eqn:E. destruct (Z.eqb_spec a NULL) as [|Hne]; [done|].
  intros [= <- <- <-]. destruct (pg_alloc_ok _ _ _ _ (ltac:(lia) : 0 <= 1) E ltac:(done)) as [Hfresh Hpg].
  unfold foreign. cbn. split; [split|split].
  - split; [done|]. exists []. by split; cbn; [|constructor|..].
  - intros p n. rewrite lookup_empty. split; [by intros (b & z & Hb & _)|done].
  - split; [apply Hpg; by right|done].
  - intros b n. rewrite Hpg, lookup_empty. split; [naive_solver|]. intros Hb. split_and!; [by left|done|].
    intros ->. by apply Hfresh in Hb.
Qed.

(** C8: No page leaks.  A heap made by [heap_create], put through any
    sequence of requests it serves and then given to [heap_destroy] (which
    returns), leaves the page source owning exactly the pages it owned
    before the heap was made. *)
Theorem heap_lifecycle_no_leak (pg : P) flags address h0 pg0 rs ps h :
  heap_create pg flags = (Some (address, h0), pg0) -> Forall sane_request rs -> heap_run h0 rs = Ok (ps, h) ->
  exists pg', heap_destroy address h = Ok pg' /\ forall b n, pg_owned pg' b n <-> pg_owned pg b n.
Proof.
  intros E Hs Hrun. destruct (created_represents _ _ _ _ _ E) as (Hrep & Ha & Hpg).
  destruct (run_foreign rs h0 ∅ ps h Hrep Hs Hrun) as [Hinv Hfor].
  destruct (destroy_foreign h address Hinv) as (pg' & -> & Hpg'); [by apply Hfor|].
  exists pg'. split; [done|]. intros b n. rewrite Hpg', (Hfor b n). apply Hpg.
Qed.
End Theorems.

(** ** Witnesses *)

Lemma demo_create : heap_create (∅ : cells_source) kHeapFlagAligned = (Some (fst demo_created, snd demo_created), {[1 := 1]}).
Proof. reflexivity. Qed.

Lemma demo_pointers : fst demo_run = [2101248; 3149824; NULL].
Proof. vm_compute. reflexivity. Qed.

Lemma demo_run_ok : heap_run (snd demo_created) demo_requests = Ok (fst demo_run, demo_heap).
Proof.
  pose proof demo_pointers as Hp. unfold demo_heap, demo_run in *.
  by destruct (heap_run (snd demo_created) demo_requests) as [[ps h]| | |].
Qed.

Lemma demo_sane : Forall sane_request demo_requests.
Proof. unfold demo_requests, sane_request, max_request. repeat constructor; lia. Qed.

Lemma demo_heap_inv : heap_inv demo_heap.
Proof.
  destruct (created_represents _ _ _ _ _ demo_create) as (Hrep & _).
  by destruct (run_foreign demo_requests _ _ _ _ Hrep demo_sane demo_run_ok).
Qed.

Lemma heap_halloc_spec_witness :
  (heap_halloc demo_heap 100 = Panic /\ pages_refused demo_heap 100) \/
  exists p k h', heap_halloc demo_heap 100 = Ok (p, h') /\ heap_inv h' /\ 0 < p /\ 100 <= k /\
    (forall q n, heap_live demo_heap q n -> regions_apart p k q n) /\
    (forall q n, heap_live h' q n <-> heap_live demo_heap q n \/ (q = p /\ n = k)).
Proof. apply (heap_halloc_spec demo_heap 100); [exact demo_heap_inv|unfold max_request; lia]. Defined.

Lemma heap_hfree_spec_witness :
  (forall n, heap_live demo_heap 3149824 n -> exists h', heap_hfree demo_heap 3149824 = Ok h' /\ heap_inv h' /\
     forall q k, heap_live h' q k <-> heap_live demo_heap q k /\ q <> 3149824) /\
  ((forall n, ~ heap_live demo_heap 3149824 n) -> heap_hfree demo_heap 3149824 = Panic).
Proof. apply (heap_hfree_spec demo_heap 3149824). exact demo_heap_inv. Defined.

Lemma heap_refines_ledger_witness :
  match heap_run (snd demo_created) demo_requests with
  | Ok (ps, h') => exists m', ledger_run ∅ demo_requests ps m' /\ represents h' m'
  | Panic => exists rs1 r rs2 ps h' m', demo_requests = rs1 ++ r :: rs2 /\
      heap_run (snd demo_created) rs1 = Ok (ps, h') /\
      ledger_run ∅ rs1 ps m' /\ represents h' m' /\ may_panic h' m' r
  | Fault | Hang => False
  end.
Proof.
  apply (heap_refines_ledger (snd demo_created) ∅ demo_requests); [|exact demo_sane].
  exact (proj1 (created_represents _ _ _ _ _ demo_create)).
Defined.

Lemma heap_lifecycle_no_leak_witness :
  exists pg', heap_destroy (fst demo_created) demo_heap = Ok pg' /\
    forall b n, pg_owned pg' b n <-> pg_owned (∅ : cells_source) b n.
Proof.
  apply (heap_lifecycle_no_leak ∅ kHeapFlagAligned (fst demo_created) (snd demo_created) {[1 := 1]}
           demo_requests (fst demo_run) demo_heap).
  - exact demo_create.
  - exact demo_sane.
  - exact demo_run_ok.
Defined.
