(* ===== verification/CellHeap.v ===== *)
(** * A heap simple enough to run

    An instance of [KernelHeap] used to exercise the theorems of the
    components that allocate: four thousand cells of one megabyte, each holding
    one allocation.  The kernel's own heap is the instance in [HeapContract]. *)

From S2P Require Import Prelude Pages HeapSpec.

Record cell_heap := CellHeap { ch_map : gmap Z Z }.

Definition slot_size : Z := 2 ^ 20.

Definition free_slot (h : cell_heap) : option Z :=
  snd <$> list_find (fun k => ch_map h !! k = None) (seqZ 1 4000).

Definition slot_live (h : cell_heap) (p n : Z) : Prop :=
  exists k, 1 <= k <= 4000 /\ p = k * slot_size /\ ch_map h !! k = Some n /\ 0 <= n <= slot_size.

Definition slot_alloc (h : cell_heap) (n : Z) : outcome (Z * cell_heap) :=
  if (0 <=? n) && (n <=? slot_size) then
    match free_slot h with
    | Some k => Ok (k * slot_size, CellHeap (<[k := n]> (ch_map h)))
    | None => Ok (NULL, h)
    end
  else Ok (NULL, h).

Definition slot_free (h : cell_heap) (p : Z) : outcome cell_heap :=
  let k := p / slot_size in
  match ch_map h !! k with
  | Some n =>
      if (p =? k * slot_size) && (1 <=? k) && (k <=? 4000) && (0 <=? n) && (n <=? slot_size)
      then Ok (CellHeap (delete k (ch_map h))) else Panic
  | None => Panic
  end.

#[global] Instance cell_KernelHeap : KernelHeap cell_heap := {
  halloc := slot_alloc; hfree := slot_free; live := slot_live; heap_ok _ := True
}.

Lemma free_slot_Some h k : free_slot h = Some k -> 1 <= k <= 4000 /\ ch_map h !! k = None.
Proof.
  unfold free_slot. destruct (list_find _ _) as [[i j]|] eqn:E; cbn; [|done]. intros [= ->].
  apply list_find_Some in E as (Hk & Hnone & _). split; [|done].
  apply list_elem_of_lookup_2, elem_of_seqZ in Hk. lia.
Qed.

Lemma slot_alloc_ok h n p h' : slot_alloc h n = Ok (p, h') ->
  (p = NULL /\ forall q m, slot_live h' q m <-> slot_live h q m) \/
  (p <> NULL /\ (forall m, ~ slot_live h p m) /\
   exists k, n <= k /\ forall q m, slot_live h' q m <-> slot_live h q m \/ (q = p /\ m = k)).
Proof.
  unfold slot_alloc. destruct (andb _ _) eqn:En; [|intros [= <- <-]; by left].
  apply andb_prop in En as [H1%Z.leb_le H2%Z.leb_le].
  destruct (free_slot h) as [k|] eqn:E; [|intros [= <- <-]; by left].
  apply free_slot_Some in E as [Hk Hnone]. intros [= <- <-]. right. unfold slot_live, slot_size, NULL in *. split; [lia|]. split.
  - intros m (j & Hj & Ejk & Hs & _). assert (j = k) as -> by lia. congruence.
  - exists n. split; [done|]. intros q m. cbn. split.
    + intros (j & Hj & -> & [[<- <-]|[Hne Hs]]%lookup_insert_Some & Hm); [by right|left; eauto 10].
    + intros [(j & Hj & -> & Hs & Hm)|[-> ->]].
      * exists j. rewrite lookup_insert_ne by congruence. eauto.
      * exists k. rewrite lookup_insert_eq. split_and!; done || lia.
Qed.

Lemma slot_free_ok h p n : slot_live h p n ->
  exists h', slot_free h p = Ok h' /\ forall q m, slot_live h' q m <-> slot_live h q m /\ q <> p.
Proof.
  intros (k & Hk & -> & Hs & Hn). unfold slot_free, slot_live, slot_size in *. rewrite Z.div_mul, Hs, Z.eqb_refl by lia.
  repeat (rewrite (proj2 (Z.leb_le _ _)) by lia). cbn [andb]. eexists. split; [done|]. intros q m. cbn. split.
  - intros (j & Hj & -> & [Hne Hs']%lookup_delete_Some & Hm). split; [eauto 10|]. lia.
  - intros [(j & Hj & -> & Hs' & Hm) Hne]. exists j. rewrite lookup_delete_ne by congruence. eauto.
Qed.

#[global] Instance cell_KernelHeapOk : KernelHeapOk cell_heap.
Proof.
  split; cbn [halloc hfree live heap_ok cell_KernelHeap].
  - intros h p n _ (k & Hk & -> & _ & Hn). unfold slot_size, VM_UPPER_LIMIT in *. lia.
  - intros h p n m _ (k & _ & -> & Hs & _) (j & _ & E & Hs' & _).
    assert (k = j) as -> by (unfold slot_size in E; lia). congruence.
  - intros h p n q m _ (k & Hk & -> & Hs & Hn) (j & Hj & -> & Ht & Hm) Hne. unfold regions_apart, slot_size in *.
    assert (k < j \/ j < k) by nia. lia.
  - intros h n p h' _ _ E. split; [done|]. by apply (slot_alloc_ok h n).
  - intros h n _ _. unfold slot_alloc. destruct (_ && _); [|done]. by destruct (free_slot h).
  - intros h p n _ Hl. destruct (slot_free_ok h p n Hl) as (h' & E & Hl'). by exists h'.
  - intros h p _ Hno. unfold slot_free. destruct (ch_map h !! (p / slot_size)) as [n|] eqn:E; [|done].
    destruct (andb _ _) eqn:Ec; [|done]. repeat (apply andb_prop in Ec as [Ec ?]).
    destruct (Hno n). exists (p / slot_size). apply Z.eqb_eq in Ec.
    split_and!; try done; lia.
Qed.
