(* ===== verification/RingBuffer.v ===== *)
(** * The ring buffer (sys/container/ringbuffer.c)

    A block of [size] bytes with a read and a write pointer that wrap around.
    Writing into a full buffer drops the oldest bytes.  The file shows that it
    is a bounded queue, whatever is written and read and in whatever order. *)

From S2P Require Import Prelude Pages HeapSpec.

(** ** The structure

    [rb_cells] is the memory from [buffer] on; a cell that was never written
    is [None]. *)

Record ringbuffer_t := Ringbuffer {
  rb_buffer : Z;
  rb_bufferLimit : Z;
  rb_begin : Z;
  rb_end : Z;
  rb_size : Z;
  rb_count : Z;
  rb_cells : list (option Z)
}.

Definition sizeof_ringbuffer : Z := 24.

(** [*(ptr)] for a pointer into the block: its cell, if it has one. *)
Definition rb_index (r : ringbuffer_t) (ptr : Z) : option nat :=
  if (rb_buffer r <=? ptr) && (ptr <? rb_buffer r + Z.of_nat (length (rb_cells r)))
  then Some (Z.to_nat (ptr - rb_buffer r)) else None.

Definition rb_store (r : ringbuffer_t) (ptr v : Z) : outcome (list (option Z)) :=
  let* i := of_option (rb_index r ptr) in Ok (<[i := Some v]> (rb_cells r)).

Definition rb_load (r : ringbuffer_t) (ptr : Z) : outcome Z :=
  let* i := of_option (rb_index r ptr) in
  let* c := of_option (rb_cells r !! i) in of_option c.

(** ** Operations *)

Section Create.
Context {H : Type} `{KernelHeap H}.

(** The address of the structure and its contents, or a null pointer. *)
Definition ringbuffer_create (h : H) (size : Z) : outcome (option (Z * ringbuffer_t) * H) :=
  let* (ringbuffer, h) := halloc h sizeof_ringbuffer in
  let* (buffer, h) := halloc h size in
  if (buffer =? NULL) || (ringbuffer =? NULL) then
    let* h := if ringbuffer =? NULL then Ok h else hfree h ringbuffer in
    let* h := if buffer =? NULL then Ok h else hfree h buffer in
    Ok (None, h)
  else
    Ok (Some (ringbuffer, Ringbuffer buffer (u32 (buffer + size)) buffer buffer size 0
                            (replicate (Z.to_nat size) None)), h).

Definition ringbuffer_destroy (h : H) (address : Z) (r : ringbuffer_t) : outcome H :=
  let* h := hfree h (rb_buffer r) in hfree h address.
End Create.

Definition ringbuffer_cycle (val lower upper : Z) : Z :=
  if val <=? lower then upper else if upper <=? val then lower else val.

(** One round of the loop of [ringbuffer_write]. *)
Definition ringbuffer_put (r : ringbuffer_t) (byte : Z) : outcome ringbuffer_t :=
  let* cells := rb_store r (rb_end r) byte in
  let end_ := ringbuffer_cycle (u32 (rb_end r + 1)) (rb_buffer r) (rb_bufferLimit r) in
  let count := Z.min (u32 (rb_count r + 1)) (rb_size r) in
  let begin_ := if count =? rb_size r then end_ else rb_begin r in
  Ok (Ringbuffer (rb_buffer r) (rb_bufferLimit r) begin_ end_ (rb_size r) count cells).

Fixpoint ringbuffer_write (r : ringbuffer_t) (data : list Z) : outcome ringbuffer_t :=
  match data with
  | [] => Ok r
  | byte :: data' => let* r := ringbuffer_put r byte in ringbuffer_write r data'
  end.

(** The bytes read and the buffer that is left; [size] bytes at most. *)
Fixpoint ringbuffer_read (r : ringbuffer_t) (size : nat) : outcome (list Z * ringbuffer_t) :=
  match size with
  | O => Ok ([], r)
  | S size' =>
      if 0 <? rb_count r then
        let* byte := rb_load r (rb_begin r) in
        let begin_ := ringbuffer_cycle (u32 (rb_begin r + 1)) (rb_buffer r) (rb_bufferLimit r) in
        let* (bytes, r) := ringbuffer_read
          (Ringbuffer (rb_buffer r) (rb_bufferLimit r) begin_ (rb_end r) (rb_size r) (u32 (rb_count r - 1)) (rb_cells r)) size' in
        Ok (byte :: bytes, r)
      else Ok ([], r)
  end.

Definition ringbuffer_length (r : ringbuffer_t) : Z := rb_count r.

(** ** The queue it implements *)

(** The last [n] elements. *)
Definition lastn {A : Type} (n : nat) (l : list A) : list A := drop (length l - n) l.

(** The cell that holds the [i]-th byte of the queue. *)
Definition rb_slot (r : ringbuffer_t) (i : nat) : nat :=
  Z.to_nat ((rb_begin r - rb_buffer r + Z.of_nat i) mod rb_size r).

(** [r] holds the bytes [xs], oldest first. *)
Record rb_holds (r : ringbuffer_t) (xs : list Z) : Prop := {
  rh_size : 0 < rb_size r;
  rh_space : 0 < rb_buffer r /\ rb_buffer r + rb_size r < 2 ^ 32;
  rh_limit : rb_bufferLimit r = rb_buffer r + rb_size r;
  rh_cells : Z.of_nat (length (rb_cells r)) = rb_size r;
  rh_begin : rb_buffer r <= rb_begin r < rb_bufferLimit r;
  rh_end : rb_end r = rb_buffer r + (rb_begin r - rb_buffer r + rb_count r) mod rb_size r;
  rh_count : rb_count r = Z.of_nat (length xs) /\ rb_count r <= rb_size r;
  rh_bytes i x : xs !! i = Some x -> rb_cells r !! rb_slot r i = Some (Some x)
}.

Inductive rb_op := RbWrite (data : list Z) | RbRead (size : nat).

(** What each operation returns: the bytes read (none for a write). *)
Fixpoint rb_run (r : ringbuffer_t) (ops : list rb_op) : outcome (list (list Z) * ringbuffer_t) :=
  match ops with
  | [] => Ok ([], r)
  | op :: ops' =>
      let* (out, r) := match op with
                       | RbWrite data => let* r := ringbuffer_write r data in Ok ([], r)
                       | RbRead size => ringbuffer_read r size
                       end in
      let* (outs, r) := rb_run r ops' in
      Ok (out :: outs, r)
  end.

(** The bounded queue: writes append and keep the newest [limit] bytes, reads
    take from the front. *)
Fixpoint queue_run (limit : nat) (xs : list Z) (ops : list rb_op) : list (list Z) * list Z :=
  match ops with
  | [] => ([], xs)
  | RbWrite data :: ops' =>
      let '(outs, xs') := queue_run limit (lastn limit (xs ++ data)) ops' in ([] :: outs, xs')
  | RbRead size :: ops' =>
      let '(outs, xs') := queue_run limit (drop size xs) ops' in (take size xs :: outs, xs')
  end.

(** ** Proofs *)

Lemma lastn_all {A} n (l : list A) : (length l <= n)%nat -> lastn n l = l.
Proof. intros Hn. unfold lastn. by replace (length l - n)%nat with O by lia. Qed.

Lemma lastn_snoc {A} n (l : list A) (x : A) : (length l = n)%nat -> (0 < n)%nat -> lastn n (l ++ [x]) = drop 1 l ++ [x].
Proof.
  intros Hl Hn. unfold lastn. rewrite length_app. cbn. replace (length l + 1 - n)%nat with 1%nat by lia.
  rewrite drop_app_le by lia. done.
Qed.

Lemma lastn_step {A} n (xs : list A) x data : (length xs <= n)%nat ->
  lastn n (lastn n (xs ++ [x]) ++ data) = lastn n (xs ++ x :: data).
Proof.
  intros Hn. unfold lastn. rewrite !length_app, length_drop, length_app. cbn.
  rewrite <- (drop_app_le (xs ++ [x]) data (length xs + 1 - n)) by (rewrite length_app; cbn; lia).
  rewrite drop_drop, <- app_assoc. cbn. f_equal. lia.
Qed.

(** Stepping a pointer around the block. *)
Lemma cycle_spec b s p : 0 < b -> b + s < 2 ^ 32 -> b <= p < b + s ->
  ringbuffer_cycle (u32 (p + 1)) b (b + s) = b + (p - b + 1) mod s.
Proof.
  intros Hb Hs Hp. rewrite u32_small by lia. unfold ringbuffer_cycle.
  destruct (Z.leb_spec (p + 1) b); [lia|]. destruct (Z.leb_spec (b + s) (p + 1)).
  - replace (p - b + 1) with s by lia. rewrite Z.mod_same by lia. lia.
  - rewrite Z.mod_small by lia. lia.
Qed.

Lemma mod_shift a k s : 0 < s -> ((a + 1) mod s + k) mod s = (a + (k + 1)) mod s.
Proof. intros Hs. rewrite Z.add_mod_idemp_l by lia. f_equal. lia. Qed.

(** A whole turn leads back. *)
Lemma mod_turn a s : 0 < s -> (a + s) mod s = a mod s.
Proof. intros Hs. rewrite <- (Z.mul_1_l s) at 1. by apply Z.mod_add; lia. Qed.

(** Two offsets less than a turn apart are different cells. *)
Lemma slots_differ a i j s : 0 < s -> - s < i - j < s -> (a + i) mod s = (a + j) mod s -> i = j.
Proof.
  intros Hs Hij E.
  pose proof (Z.div_mod (a + i) s ltac:(lia)). pose proof (Z.div_mod (a + j) s ltac:(lia)).
  assert (s * ((a + i) / s - (a + j) / s) = i - j) by lia.
  assert ((a + i) / s - (a + j) / s = 0) by nia. lia.
Qed.

Section Holds.
Context (r : ringbuffer_t) (xs : list Z) (Hr : rb_holds r xs).

Lemma rb_index_spec p : rb_buffer r <= p < rb_buffer r + rb_size r ->
  rb_index r p = Some (Z.to_nat (p - rb_buffer r)).
Proof.
  intros Hp. unfold rb_index. rewrite (rh_cells _ _ Hr).
  rewrite (proj2 (Z.leb_le _ _)), (proj2 (Z.ltb_lt _ _)) by lia. done.
Qed.

Lemma rb_end_range : rb_buffer r <= rb_end r < rb_buffer r + rb_size r.
Proof. destruct Hr. rewrite rh_end0. pose proof (Z.mod_pos_bound (rb_begin r - rb_buffer r + rb_count r) (rb_size r)). lia. Qed.

Lemma rb_slot_lt i : (rb_slot r i < length (rb_cells r))%nat.
Proof.
  destruct Hr. unfold rb_slot. pose proof (Z.mod_pos_bound (rb_begin r - rb_buffer r + Z.of_nat i) (rb_size r)). lia.
Qed.

(** Storing at the write pointer appends. *)
Lemma put_cells byte i x : Z.of_nat (length xs) < rb_size r \/ (0 < i)%nat ->
  (xs ++ [byte]) !! i = Some x ->
  <[Z.to_nat (rb_end r - rb_buffer r) := Some byte]> (rb_cells r) !! rb_slot r i = Some (Some x).
Proof.
  intros Hi Hx. pose proof rb_end_range as He. pose proof Hr as [].
  destruct rh_count0 as [Hc1 Hc2].
  replace (Z.to_nat (rb_end r - rb_buffer r)) with (rb_slot r (length xs))
    by (unfold rb_slot; rewrite rh_end0, Hc1; f_equal; lia).
  destruct (decide (i = length xs)) as [->|Hne].
  - rewrite list_lookup_insert_eq by apply rb_slot_lt.
    rewrite lookup_app_r, Nat.sub_diag in Hx by done. cbn in Hx. congruence.
  - pose proof (lookup_lt_Some _ _ _ Hx) as Hlt. rewrite length_app in Hlt. cbn in Hlt.
    rewrite lookup_app_l in Hx by lia. rewrite list_lookup_insert_ne; [by apply rh_bytes0|].
    unfold rb_slot. intros E. apply Hne.
    apply Z2Nat.inj in E; [|by apply Z.mod_pos_bound..].
    apply slots_differ in E; lia.
Qed.
End Holds.

(** The buffer after a store at the write pointer, with the read pointer where
    it was or one further. *)
Lemma append_holds r xs byte : rb_holds r xs -> rb_count r < rb_size r ->
  rb_holds (Ringbuffer (rb_buffer r) (rb_bufferLimit r) (rb_begin r)
              (rb_buffer r + (rb_begin r - rb_buffer r + (rb_count r + 1)) mod rb_size r)
              (rb_size r) (rb_count r + 1) (<[Z.to_nat (rb_end r - rb_buffer r) := Some byte]> (rb_cells r)))
    (xs ++ [byte]).
Proof.
  intros Hr Hlt. pose proof (put_cells r xs Hr byte) as Hcells. destruct Hr, rh_count0.
  split; cbn; try done; rewrite ?length_insert, ?length_app; cbn; try lia.
  intros i x. apply Hcells. lia.
Qed.

Lemma replace_holds r xs byte : rb_holds r xs -> rb_count r = rb_size r ->
  let next := rb_buffer r + (rb_begin r - rb_buffer r + 1) mod rb_size r in
  rb_holds (Ringbuffer (rb_buffer r) (rb_bufferLimit r) next next (rb_size r) (rb_size r)
              (<[Z.to_nat (rb_end r - rb_buffer r) := Some byte]> (rb_cells r)))
    (drop 1 xs ++ [byte]).
Proof.
  intros Hr Hfull. pose proof (put_cells r xs Hr byte) as Hcells. pose proof Hr as []. destruct rh_count0 as [Hc1 Hc2].
  pose proof (Z.mod_pos_bound (rb_begin r - rb_buffer r + 1) (rb_size r) rh_size0).
  split; cbn; try done; rewrite ?length_insert, ?length_app, ?length_drop; cbn; try lia.
  - by rewrite Z.add_simpl_l, mod_turn, Z.mod_mod by lia.
  - intros i x Hx. unfold rb_slot. cbn. rewrite Z.add_simpl_l, mod_shift by lia.
    replace (Z.of_nat i + 1) with (Z.of_nat (S i)) by lia. apply Hcells; [lia|].
    destruct xs as [|y xs]; [cbn in *; lia|done].
Qed.

Lemma put_holds r xs byte : rb_holds r xs ->
  exists r', ringbuffer_put r byte = Ok r' /\ rb_size r' = rb_size r /\
    rb_holds r' (lastn (Z.to_nat (rb_size r)) (xs ++ [byte])).
Proof.
  intros Hr. pose proof (rb_end_range r xs Hr) as He. pose proof Hr as []. destruct rh_count0 as [Hc1 Hc2].
  unfold ringbuffer_put, rb_store. rewrite (rb_index_spec r xs Hr) by done. cbn [of_option obind].
  eexists. split; [done|]. split; [done|].
  rewrite (u32_small (rb_count r + 1)), rh_limit0, cycle_spec by lia.
  replace (rb_end r - rb_buffer r + 1) with ((rb_begin r - rb_buffer r + rb_count r) mod rb_size r + 1) by lia.
  rewrite Z.add_mod_idemp_l, <- rh_limit0, <- Z.add_assoc by lia.
  destruct (decide (rb_count r = rb_size r)) as [Hfull|Hnot].
  - rewrite lastn_snoc, Z.min_r, Z.eqb_refl by lia.
    replace ((rb_begin r - rb_buffer r + (rb_count r + 1)) mod rb_size r)
      with ((rb_begin r - rb_buffer r + 1) mod rb_size r).
    + by apply replace_holds.
    + rewrite Hfull, <- (mod_turn (rb_begin r - rb_buffer r + 1)) by lia. f_equal. lia.
  - rewrite lastn_all by (rewrite length_app; cbn; lia). rewrite Z.min_l by lia.
    replace (if rb_count r + 1 =? rb_size r then _ else _) with (rb_begin r); [apply append_holds; [done|lia]|].
    destruct (Z.eqb_spec (rb_count r + 1) (rb_size r)) as [->|]; [|done].
    rewrite mod_turn, Z.mod_small by lia. lia.
Qed.

Lemma write_holds data : forall r xs, rb_holds r xs ->
  exists r', ringbuffer_write r data = Ok r' /\ rb_size r' = rb_size r /\
    rb_holds r' (lastn (Z.to_nat (rb_size r)) (xs ++ data)).
Proof.
  induction data as [|byte data IH]; intros r xs Hr; cbn [ringbuffer_write].
  - exists r. split_and!; try done. rewrite app_nil_r, lastn_all; [done|]. destruct Hr, rh_count0. lia.
  - destruct (put_holds r xs byte Hr) as (r1 & -> & Hs & Hr1). cbn [obind].
    destruct (IH r1 _ Hr1) as (r2 & -> & Hs2 & Hr2). exists r2. rewrite Hs in *.
    split_and!; try done. rewrite lastn_step in Hr2; [done|]. destruct Hr, rh_count0. lia.
Qed.

Lemma take_one_holds r x xs : rb_holds r (x :: xs) ->
  rb_load r (rb_begin r) = Ok x /\
  rb_holds (Ringbuffer (rb_buffer r) (rb_bufferLimit r)
              (ringbuffer_cycle (u32 (rb_begin r + 1)) (rb_buffer r) (rb_bufferLimit r))
              (rb_end r) (rb_size r) (u32 (rb_count r - 1)) (rb_cells r)) xs.
Proof.
  intros Hr. pose proof Hr as []. destruct rh_count0 as [Hc1 Hc2]. cbn in Hc1. split.
  - unfold rb_load. rewrite (rb_index_spec r _ Hr) by lia. cbn [of_option obind].
    pose proof (rh_bytes0 O x eq_refl) as Hx. unfold rb_slot in Hx. rewrite Z.add_0_r, Z.mod_small in Hx by lia.
    by rewrite Hx.
  - rewrite rh_limit0, cycle_spec, u32_small by lia. rewrite <- rh_limit0.
    pose proof (Z.mod_pos_bound (rb_begin r - rb_buffer r + 1) (rb_size r) rh_size0).
    split; cbn; try done; try lia.
    + rewrite Z.add_simpl_l, mod_shift, rh_end0 by lia. do 2 f_equal. lia.
    + intros i y Hy. unfold rb_slot. cbn. rewrite Z.add_simpl_l, mod_shift by lia.
      replace (Z.of_nat i + 1) with (Z.of_nat (S i)) by lia. by apply rh_bytes0.
Qed.

Lemma read_holds n : forall r xs, rb_holds r xs ->
  exists r', ringbuffer_read r n = Ok (take n xs, r') /\ rb_size r' = rb_size r /\ rb_holds r' (drop n xs).
Proof.
  induction n as [|n IH]; intros r xs Hr; cbn [ringbuffer_read]; [by exists r|].
  destruct (rh_count _ _ Hr) as [Hc _]. destruct xs as [|x xs]; cbn in Hc.
  - rewrite Hc. by exists r.
  - rewrite (proj2 (Z.ltb_lt _ _)) by lia. destruct (take_one_holds r x xs Hr) as [-> Hr'].
    destruct (IH _ _ Hr') as (r' & E & Hs & Hr''). cbn [obind]. rewrite E. cbn [obind]. exists r'. done.
Qed.

(** C9: The ring buffer refines a bounded queue.  For every sequence of writes
    and reads on a buffer that holds [xs], no access leaves the block or reads
    an unwritten cell, and the reads return what the queue returns that keeps
    the newest [size] bytes. *)
Theorem ringbuffer_refines_queue r xs ops :
  rb_holds r xs ->
  exists r', rb_run r ops = Ok (fst (queue_run (Z.to_nat (rb_size r)) xs ops), r') /\
    rb_holds r' (snd (queue_run (Z.to_nat (rb_size r)) xs ops)).
Proof.
  revert r xs. induction ops as [|op ops IH]; intros r xs Hr; cbn [rb_run queue_run]; [by exists r|].
  destruct op as [data|n].
  - destruct (write_holds data r xs Hr) as (r1 & -> & Hs & Hr1). cbn [obind].
    destruct (IH r1 _ Hr1) as (r2 & -> & Hr2). rewrite Hs in *. cbn [obind].
    destruct (queue_run _ _ ops). by exists r2.
  - destruct (read_holds n r xs Hr) as (r1 & -> & Hs & Hr1). cbn [obind].
    destruct (IH r1 _ Hr1) as (r2 & -> & Hr2). rewrite Hs in *. cbn [obind].
    destruct (queue_run _ _ ops). by exists r2.
Qed.

Lemma ringbuffer_refines_queue_witness :
  exists r', rb_run (Ringbuffer 4096 4099 4096 4096 3 0 [None; None; None])
      [RbWrite [1; 2]; RbRead 1; RbWrite [3; 4; 5]; RbRead 9]
    = Ok ([[]; [1]; []; [3; 4; 5]], r') /\ rb_holds r' [].
Proof.
  apply (ringbuffer_refines_queue (Ringbuffer 4096 4099 4096 4096 3 0 [None; None; None]) []
           [RbWrite [1; 2]; RbRead 1; RbWrite [3; 4; 5]; RbRead 9]).
  split; cbn; try lia; try done.
Defined.

Section CreateSpec.
Context {H : Type} `{KernelHeapOk H}.

(** A fresh ring buffer is empty, its structure and its block are two new
    allocations, and destroying it gives both back. *)
Lemma ringbuffer_create_holds (h : H) size h' address r :
  heap_ok h -> 0 < size <= max_request -> ringbuffer_create h size = Ok (Some (address, r), h') ->
  heap_ok h' /\ rb_holds r [] /\ rb_size r = size /\
  exists h'', ringbuffer_destroy h' address r = Ok h'' /\ heap_ok h'' /\
    forall q m, live h'' q m <-> live h q m.
Proof.
  intros Hh Hsize. unfold ringbuffer_create.
  destruct (halloc h sizeof_ringbuffer) as [[a h1]| | |] eqn:E1; cbn [obind]; try done.
  destruct (halloc h1 size) as [[b h2]| | |] eqn:E2; cbn [obind]; try done.
  destruct (halloc_ok h sizeof_ringbuffer a h1 Hh ltac:(unfold sizeof_ringbuffer, max_request; lia) E1) as [Hh1 Ha].
  destruct (halloc_ok h1 size b h2 Hh1 ltac:(lia) E2) as [Hh2 Hb].
  destruct (Z.eqb_spec b NULL) as [->|Hb0]; cbn [orb].
  { destruct (a =? NULL); cbn [obind]; [done|]. by destruct (hfree h2 a). }
  destruct (Z.eqb_spec a NULL) as [->|Ha0].
  { cbn [obind]. by destruct (hfree h2 b). }
  intros [= <- <- <-]. split; [done|].
  destruct Ha as [[? _]|(_ & Hna & ka & Hka & Hla)]; [done|]. destruct Hb as [[? _]|(_ & Hnb & kb & Hkb & Hlb)]; [done|].
  assert (Hlive : live h2 b kb) by (apply Hlb; by right).
  destruct (live_sane _ _ _ Hh2 Hlive) as (Hpos & _ & Hend). unfold VM_UPPER_LIMIT in Hend.
  split; [|split; [done|]].
  - rewrite u32_small by lia. split; cbn; try done; try lia; [rewrite length_replicate; lia|].
    rewrite Z.sub_diag. cbn. rewrite Z.mod_0_l by lia. lia.
  - unfold ringbuffer_destroy. cbn [rb_buffer].
    destruct (hfree_ok _ _ _ Hh2 Hlive) as (h3 & -> & Hh3 & Hl3). cbn [obind].
    assert (Hab : a <> b) by (intros ->; eapply Hnb, Hla; by right).
    destruct (hfree_ok _ a ka Hh3) as (h4 & -> & Hh4 & Hl4); [apply Hl3; split; [apply Hlb; left; apply Hla; by right|done]|].
    exists h4. split_and!; try done. intros q m. rewrite Hl4, Hl3, Hlb, Hla.
    split; [naive_solver|]. intros Hq. split_and!; [by left; left|intros ->; eapply Hnb, Hla; by left|intros ->; by eapply Hna].
Qed.
End CreateSpec.
