(* ===== verification/Block.v ===== *)
(** * Blocks of cells

    A block of memory addressed by index: the array behind a [void **].  A cell
    that was never written is [None]; reading it, or any access outside the
    block, is a fault. *)

From S2P Require Import Prelude.

Abbreviation block := (list (option Z)).

Definition cell_get (c : block) (i : Z) : outcome Z :=
  if i <? 0 then Fault else let* v := of_option (c !! Z.to_nat i) in of_option v.

Definition cell_set (c : block) (i v : Z) : outcome block :=
  if (0 <=? i) && (i <? Z.of_nat (length c)) then Ok (<[Z.to_nat i := Some v]> c) else Fault.

(** A block as [halloc] returns it. *)
Definition fresh_block (n : Z) : block := replicate (Z.to_nat n) None.

(** [memcpy] of the first [n] cells. *)
Definition cell_copy (from to : block) (n : Z) : outcome block :=
  let k := Z.to_nat n in
  if (k <=? length from)%nat && (k <=? length to)%nat then Ok (take k from ++ drop k to) else Fault.

(** The first cells of the block hold the values [xs]. *)
Definition holds (c : block) (xs : list Z) : Prop := exists rest, c = (Some <$> xs) ++ rest.

Lemma holds_length c xs : holds c xs -> (length xs <= length c)%nat.
Proof. intros [rest ->]. rewrite length_app, length_fmap. lia. Qed.

Lemma holds_get c xs i x : holds c xs -> xs !! i = Some x -> cell_get c (Z.of_nat i) = Ok x.
Proof.
  intros [rest ->] Hx. unfold cell_get. destruct (Z.ltb_spec (Z.of_nat i) 0); [lia|].
  rewrite Nat2Z.id, lookup_app_l by (rewrite length_fmap; by eapply lookup_lt_Some).
  by rewrite list_lookup_fmap, Hx.
Qed.

Lemma cell_set_in c i v : (i < length c)%nat -> cell_set c (Z.of_nat i) v = Ok (<[i := Some v]> c).
Proof.
  intros Hi. unfold cell_set. rewrite (proj2 (Z.leb_le _ _)), (proj2 (Z.ltb_lt _ _)) by lia.
  cbn. by rewrite Nat2Z.id.
Qed.

Lemma holds_set c xs i v : holds c xs -> (i < length xs)%nat ->
  exists c', cell_set c (Z.of_nat i) v = Ok c' /\ holds c' (<[i := v]> xs) /\ length c' = length c.
Proof.
  intros Hc Hi. pose proof (holds_length _ _ Hc). rewrite cell_set_in by lia. eexists. split; [done|].
  rewrite length_insert. split; [|done]. destruct Hc as [rest ->]. exists rest.
  rewrite insert_app_l by (by rewrite length_fmap). by rewrite list_fmap_insert.
Qed.

(** Storing in the cell after the values appends. *)
Lemma holds_snoc c xs v : holds c xs -> (length xs < length c)%nat ->
  exists c', cell_set c (Z.of_nat (length xs)) v = Ok c' /\ holds c' (xs ++ [v]) /\ length c' = length c.
Proof.
  intros Hc Hlt. rewrite cell_set_in by done. eexists. split; [done|]. rewrite length_insert. split; [|done].
  destruct Hc as [rest ->]. rewrite length_app, length_fmap in Hlt. destruct rest as [|r rest]; [cbn in Hlt; lia|].
  exists rest. rewrite insert_app_r_alt by (rewrite length_fmap; lia). rewrite length_fmap, Nat.sub_diag. cbn.
  by rewrite fmap_app, <- app_assoc.
Qed.

Lemma holds_prefix c xs n : holds c xs -> holds c (take n xs).
Proof.
  intros [rest ->]. exists ((Some <$> drop n xs) ++ rest). by rewrite app_assoc, <- fmap_app, take_drop.
Qed.

Lemma holds_copy c xs n to : holds c xs -> n = Z.of_nat (length xs) -> (length xs <= length to)%nat ->
  exists c', cell_copy c to n = Ok c' /\ holds c' xs /\ length c' = length to.
Proof.
  intros Hc -> Hto. pose proof (holds_length _ _ Hc). unfold cell_copy. rewrite Nat2Z.id.
  rewrite (proj2 (Nat.leb_le _ _)), (proj2 (Nat.leb_le _ _)) by lia. cbn. eexists. split; [done|].
  rewrite length_app, length_take, length_drop. split; [|lia]. exists (drop (length xs) to).
  destruct Hc as [rest ->]. by rewrite take_app_le, take_ge by (rewrite length_fmap; lia).
Qed.

Lemma length_fresh_block n : 0 <= n -> Z.of_nat (length (fresh_block n)) = n.
Proof. intros Hn. unfold fresh_block. rewrite length_replicate. lia. Qed.
