(* ===== verification/Iterator.v ===== *)
(** * Iterators (sys/container/iterator.c)

    An iterator keeps a small buffer of objects and asks its container for the
    next ones when the buffer is empty.  A container supplies [fetch]; the
    file shows what the client sees when [fetch] hands out a list piece by
    piece.  Containers keep their position in [custom] or in a structure of
    their own that [data] points to. *)

From S2P Require Import Prelude HeapSpec Block.

Definition kIteratorMaxObjects : Z := 10.
Definition sizeof_iterator : Z := 84.

(** [it_data] is what [data] points to, where the container changes it. *)
Record iterator_t (D : Type) := Iterator {
  it_data : D;
  it_custom : list Z;
  it_objects : block;
  it_objectCount : Z;
  it_index : Z;
  it_objectsLeft : Z
}.
Arguments Iterator {D}.
Arguments it_data {D}.
Arguments it_custom {D}.
Arguments it_objects {D}.
Arguments it_objectCount {D}.
Arguments it_index {D}.
Arguments it_objectsLeft {D}.

(** How a container fills the buffer. *)
Definition fetch_t (D : Type) : Type := iterator_t D -> Z -> outcome (Z * iterator_t D).

(** The fields [iterator_create] sets; [objects] is left as it is found. *)
Definition iterator_new {D : Type} (data : D) : iterator_t D := Iterator data (replicate 5 0) (fresh_block kIteratorMaxObjects) 0 0 0.

Section Create.
Context {H : Type} `{KernelHeap H} {D : Type}.

Definition iterator_create (h : H) (data : D) : outcome (option (Z * iterator_t D) * H) :=
  let* (iterator, h) := halloc h sizeof_iterator in
  if iterator =? NULL then Ok (None, h) else Ok (Some (iterator, iterator_new data), h).

(** [destroy] is the container's function, if it has set one. *)
Definition iterator_destroy (h : H) (destroy : option (H -> iterator_t D -> outcome H)) (address : Z) (it : iterator_t D) : outcome H :=
  let* h := match destroy with Some f => f h it | None => Ok h end in
  hfree h address.
End Create.

Definition iterator_take {D : Type} (it : iterator_t D) : outcome (Z * iterator_t D) :=
  let* object := cell_get (it_objects it) (it_index it) in
  Ok (object, Iterator (it_data it) (it_custom it) (it_objects it) (it_objectCount it) (u32 (it_index it + 1)) (u32 (it_objectsLeft it - 1))).

Definition iterator_nextObject {D : Type} (fetch : fetch_t D) (it : iterator_t D) : outcome (Z * iterator_t D) :=
  if it_objectsLeft it =? 0 then
    let* (objectsLeft, it) := fetch it kIteratorMaxObjects in
    let it := Iterator (it_data it) (it_custom it) (it_objects it) (it_objectCount it) 0 objectsLeft in
    if objectsLeft =? 0 then Ok (NULL, it) else iterator_take it
  else iterator_take it.

(** The results of [n] calls. *)
Fixpoint iterate {D : Type} (fetch : fetch_t D) (n : nat) (it : iterator_t D) : outcome (list Z * iterator_t D) :=
  match n with
  | O => Ok ([], it)
  | S n' =>
      let* (x, it) := iterator_nextObject fetch it in
      let* (xs, it) := iterate fetch n' it in
      Ok (x :: xs, it)
  end.

Section Yields.
Context {D : Type} (fetch : fetch_t D).
(** [rest data custom xs]: from this position the container has [xs] to offer. *)
Context (rest : D -> list Z -> list Z -> Prop).

(** [fetch] delivers a non-empty piece of what is left, if anything is. *)
Definition fetches : Prop := forall it xs,
  rest (it_data it) (it_custom it) xs -> length (it_objects it) = Z.to_nat kIteratorMaxObjects ->
  exists n it', fetch it kIteratorMaxObjects = Ok (Z.of_nat n, it') /\
    (n <= Z.to_nat kIteratorMaxObjects)%nat /\ (n <= length xs)%nat /\ (xs <> [] -> (0 < n)%nat) /\
    holds (it_objects it') (take n xs) /\
    length (it_objects it') = Z.to_nat kIteratorMaxObjects /\ rest (it_data it') (it_custom it') (drop n xs).

Context (Hfetch : fetches).

(** The iterator will hand out [xs]: first what is in the buffer. *)
Definition yields (it : iterator_t D) (xs : list Z) : Prop :=
  exists seen buffered later, xs = buffered ++ later /\ rest (it_data it) (it_custom it) later /\
    holds (it_objects it) (seen ++ buffered) /\ length (it_objects it) = Z.to_nat kIteratorMaxObjects /\
    it_objectsLeft it = Z.of_nat (length buffered) /\
    (buffered <> [] -> it_index it = Z.of_nat (length seen)).

Lemma yields_new data xs : rest data (replicate 5 0) xs -> yields (iterator_new data) xs.
Proof. intros Hr. exists [], [], xs. split_and!; try done. by exists (fresh_block kIteratorMaxObjects). Qed.

Lemma take_spec it x seen buffered later :
  rest (it_data it) (it_custom it) later -> holds (it_objects it) (seen ++ x :: buffered) ->
  length (it_objects it) = Z.to_nat kIteratorMaxObjects ->
  it_objectsLeft it = Z.of_nat (length (x :: buffered)) -> it_index it = Z.of_nat (length seen) ->
  exists it', iterator_take it = Ok (x, it') /\ yields it' (buffered ++ later).
Proof.
  intros Hr Hh Hlen Hleft Hidx. unfold iterator_take. rewrite Hidx, (holds_get _ _ _ x Hh) by (by apply list_lookup_middle).
  cbn [obind]. eexists. split; [done|]. pose proof (holds_length _ _ Hh) as Hb. rewrite length_app in Hb. cbn in Hb, Hleft.
  rewrite Hlen in Hb. change (Z.to_nat kIteratorMaxObjects) with 10%nat in *.
  exists (seen ++ [x]), buffered, later. cbn. rewrite <- app_assoc. split_and!; try done.
  - rewrite u32_small; lia.
  - intros _. rewrite u32_small, length_app by lia. cbn. lia.
Qed.

Lemma next_spec it xs : yields it xs ->
  exists it', iterator_nextObject fetch it = Ok (default NULL (head xs), it') /\ yields it' (tail xs).
Proof.
  intros (seen & buffered & later & -> & Hr & Hh & Hlen & Hleft & Hidx). unfold iterator_nextObject.
  destruct buffered as [|x buffered]; cbn [length app] in *.
  - rewrite Hleft, Z.eqb_refl. destruct (Hfetch it later Hr Hlen) as (n & it1 & -> & Hn & Hn2 & Hpos & Hh1 & Hlen1 & Hr1).
    cbn [obind]. destruct later as [|x later].
    + assert (n = 0)%nat as -> by (cbn in Hn2; lia). eexists. split; [done|]. exists [], [], []. by split_and!.
    + specialize (Hpos ltac:(done)). rewrite (proj2 (Z.eqb_neq _ _)) by lia.
      destruct n as [|n]; [lia|]. cbn [take drop] in *. cbn [length] in Hn2.
      destruct (take_spec (Iterator (it_data it1) (it_custom it1) (it_objects it1) (it_objectCount it1) 0 (Z.of_nat (S n)))
        x [] (take n later) (drop n later)) as (it' & E & Hy); try done.
      * cbn. rewrite length_take. lia.
      * exists it'. rewrite take_drop in Hy. done.
  - rewrite Hleft. rewrite (proj2 (Z.eqb_neq _ _)) by lia.
    destruct (take_spec it x seen buffered later) as (it' & E & Hy); try done; [by apply Hidx|]. by exists it'.
Qed.

(** [n] calls hand out the first [n] objects, then null pointers. *)
Lemma iterate_spec n : forall it xs, yields it xs ->
  exists it', iterate fetch n it = Ok (take n (xs ++ replicate n NULL), it') /\ yields it' (drop n xs).
Proof.
  induction n as [|n IH]; intros it xs Hy; [by exists it|].
  destruct (next_spec it xs Hy) as (it1 & E & Hy1). destruct (IH it1 _ Hy1) as (it2 & E2 & Hy2).
  cbn [iterate]. rewrite E. cbn [obind]. rewrite E2. cbn [obind]. exists it2.
  destruct xs as [|x xs]; cbn [head tail default app take drop replicate] in *.
  - by rewrite drop_nil in Hy2.
  - split; [|done]. do 3 f_equal. symmetry. rewrite replicate_cons_app, app_assoc. apply take_app_le.
    rewrite length_app, length_replicate. lia.
Qed.
End Yields.
