(* ===== verification/Array.v ===== *)
(** * The growable array (sys/container/array.c)

    Translates the operations of array.c that change the array, against the
    heap's interface, and shows that the array is a list: each operation does
    to the list of its objects what its name says, gives the memory it no
    longer needs back, and touches no other allocation.  Sorting is in
    [ArraySort]. *)

From S2P Require Import Prelude Pages HeapSpec Block CellHeap Iterator.

(** ** The structure *)

Record array_t := Array {
  ar_count : Z;
  ar_space : Z;
  ar_allocationStep : Z;
  ar_data : Z;
  ar_lock : bool;
  ar_cells : block  (* the block at [data] *)
}.

Definition sizeof_array : Z := 20.
Definition sizeof_pointer : Z := 4.

Definition set_cells (a : array_t) (c : block) : array_t :=
  Array (ar_count a) (ar_space a) (ar_allocationStep a) (ar_data a) (ar_lock a) c.
Definition set_count (a : array_t) (n : Z) : array_t :=
  Array n (ar_space a) (ar_allocationStep a) (ar_data a) (ar_lock a) (ar_cells a).
Definition set_data (a : array_t) (space data : Z) (c : block) : array_t :=
  Array (ar_count a) space (ar_allocationStep a) data (ar_lock a) c.

(** The block at [data] when it was asked for with room for [space] pointers. *)
Definition data_size (space : Z) : Z := u32 (space * sizeof_pointer).
Definition data_block (space data : Z) : block :=
  if data =? NULL then [] else fresh_block (data_size space / sizeof_pointer).

(** ** Reading *)

Definition array_objectAtIndex (a : array_t) (index : Z) : outcome Z :=
  if index <? ar_count a then cell_get (ar_cells a) index else Panic.

(** The loop of [array_indexOfObject] from [i] on, [n] rounds at most. *)
Fixpoint index_from (n : nat) (c : block) (i object : Z) : outcome Z :=
  match n with
  | O => Ok UINT32_MAX
  | S n' =>
      let* v := cell_get c i in
      if v =? object then Ok i else index_from n' c (u32 (i + 1)) object
  end.

Definition array_indexOfObject (a : array_t) (object : Z) : outcome Z :=
  index_from (Z.to_nat (ar_count a)) (ar_cells a) 0 object.

Definition array_count (a : array_t) : Z := ar_count a.

Definition array_lock (a : array_t) : outcome array_t :=
  if ar_lock a then Hang
  else Ok (Array (ar_count a) (ar_space a) (ar_allocationStep a) (ar_data a) true (ar_cells a)).

Definition array_unlock (a : array_t) : array_t :=
  Array (ar_count a) (ar_space a) (ar_allocationStep a) (ar_data a) false (ar_cells a).

(** ** Shifting *)

(** [for(i = index + n; i > index; i --) data[i] = data[i - 1];] *)
Fixpoint shift_up (n : nat) (c : block) (index : Z) : outcome block :=
  match n with
  | O => Ok c
  | S n' =>
      let i := index + Z.of_nat n in
      let* v := cell_get c (i - 1) in
      let* c := cell_set c i v in
      shift_up n' c index
  end.

(** [n] rounds of [data[i + index] = data[i + index + 1]] from [i] on. *)
Fixpoint shift_down (n : nat) (c : block) (i : Z) : outcome block :=
  match n with
  | O => Ok c
  | S n' =>
      let* v := cell_get c (i + 1) in
      let* c := cell_set c i v in
      shift_down n' c (i + 1)
  end.

Section Operations.
Context {H : Type} `{KernelHeap H}.

(** ** Making and destroying *)

Definition array_create (h : H) : outcome (option (Z * array_t) * H) :=
  let* (array, h) := halloc h sizeof_array in
  if array =? NULL then Ok (None, h) else
  let* (data, h) := halloc h (data_size 5) in
  Ok (Some (array, Array 0 5 UINT32_MAX data false (data_block 5 data)), h).

Definition array_copy (h : H) (source : array_t) : outcome (option (Z * array_t) * H) :=
  let* (copy, h) := halloc h sizeof_array in
  if copy =? NULL then Ok (None, h) else
  let* (data, h) := halloc h (data_size (ar_space source)) in
  let* cells := cell_copy (ar_cells source) (data_block (ar_space source) data) (ar_count source) in
  Ok (Some (copy, Array (ar_count source) (ar_space source) (ar_allocationStep source) data false cells), h).

Definition array_destroy (h : H) (address : Z) (a : array_t) : outcome H :=
  let* h := hfree h (ar_data a) in hfree h address.

(** ** Growing and shrinking *)

Definition next_space (a : array_t) : Z :=
  if negb (ar_allocationStep a =? UINT32_MAX) then u32 (ar_space a + ar_allocationStep a) else u32 (ar_space a * 2).

Definition __array_resizeToNextStepIfNeeded (h : H) (a : array_t) : outcome (array_t * H) :=
  if u32 (ar_space a - 1) <=? ar_count a then
    let space := next_space a in
    let* (data, h) := halloc h (data_size space) in
    if data =? NULL then Panic else
    let* cells := cell_copy (ar_cells a) (data_block space data) (ar_count a) in
    let* h := hfree h (ar_data a) in
    Ok (set_data a space data cells, h)
  else Ok (a, h).

Definition less_space (a : array_t) : Z :=
  let space := if ar_allocationStep a =? UINT32_MAX then ar_space a / 2 else u32 (ar_space a - ar_allocationStep a) in
  if ar_space a <? space then u32 (ar_count a + 5) else space.

Definition __array_collapseIfNeeded (h : H) (a : array_t) : outcome (array_t * H) :=
  let space := less_space a in
  if ar_count a <? space then
    let* (data, h) := halloc h (data_size space) in
    if data =? NULL then Ok (a, h) else
    let* cells := cell_copy (ar_cells a) (data_block space data) (ar_count a) in
    let* h := hfree h (ar_data a) in
    Ok (set_data a space data cells, h)
  else Ok (a, h).

(** ** Adding and removing *)

Definition array_addObject (h : H) (a : array_t) (object : Z) : outcome (array_t * H) :=
  let* (a, h) := __array_resizeToNextStepIfNeeded h a in
  let* cells := cell_set (ar_cells a) (ar_count a) object in
  Ok (set_count (set_cells a cells) (u32 (ar_count a + 1)), h).

Definition array_insertObject (h : H) (a : array_t) (object index : Z) : outcome (array_t * H) :=
  if negb (index <? ar_count a) then Panic else
  let* (a, h) := __array_resizeToNextStepIfNeeded h a in
  let* cells := shift_up (Z.to_nat (ar_count a - index)) (ar_cells a) index in
  let* cells := cell_set cells index object in
  Ok (set_count (set_cells a cells) (u32 (ar_count a + 1)), h).

Definition array_removeObjectAtIndex (h : H) (a : array_t) (index : Z) : outcome (array_t * H) :=
  if negb (index <? ar_count a) then Panic else
  let* cells := if index <? u32 (ar_count a - 1)
                then shift_down (Z.to_nat (ar_count a - index - 1)) (ar_cells a) index
                else Ok (ar_cells a) in
  __array_collapseIfNeeded h (set_count (set_cells a cells) (u32 (ar_count a - 1))).

Definition array_removeObject (h : H) (a : array_t) (object : Z) : outcome (array_t * H) :=
  let* index := array_indexOfObject a object in
  array_removeObjectAtIndex h a index.

Definition array_removeAllObjects (h : H) (a : array_t) : outcome (array_t * H) :=
  let* h := hfree h (ar_data a) in
  let* (data, h) := halloc h (data_size 5) in
  Ok (set_data (set_count a 0) 5 data (data_block 5 data), h).
End Operations.

(** ** The list it implements *)

Definition index_of (xs : list Z) (object : Z) : option nat := fst <$> list_find (fun x => x = object) xs.

Inductive array_op :=
  | AAdd (object : Z) | AInsert (object : Z) (index : nat)
  | ARemove (object : Z) | ARemoveAt (index : nat) | ARemoveAll
  | AIndexOf (object : Z) | AAt (index : nat) | ACount.

(** The result and the new list; [None] is a failed assertion. *)
Definition list_serve (xs : list Z) (op : array_op) : option (Z * list Z) :=
  match op with
  | AAdd o => Some (0, xs ++ [o])
  | AInsert o i => if (i <? length xs)%nat then Some (0, take i xs ++ o :: drop i xs) else None
  | ARemove o => i ← index_of xs o; Some (0, delete i xs)
  | ARemoveAt i => if (i <? length xs)%nat then Some (0, delete i xs) else None
  | ARemoveAll => Some (0, [])
  | AIndexOf o => Some (default UINT32_MAX (Z.of_nat <$> index_of xs o), xs)
  | AAt i => x ← xs !! i; Some (x, xs)
  | ACount => Some (Z.of_nat (length xs), xs)
  end.

Section Represents.
Context {H : Type} `{KernelHeap H}.

Definition array_serve (h : H) (a : array_t) (op : array_op) : outcome (Z * array_t * H) :=
  let quiet m := let* (a, h) := m in Ok (0, a, h) in
  match op with
  | AAdd o => quiet (array_addObject h a o)
  | AInsert o i => quiet (array_insertObject h a o (Z.of_nat i))
  | ARemove o => quiet (array_removeObject h a o)
  | ARemoveAt i => quiet (array_removeObjectAtIndex h a (Z.of_nat i))
  | ARemoveAll => quiet (array_removeAllObjects h a)
  | AIndexOf o => let* r := array_indexOfObject a o in Ok (r, a, h)
  | AAt i => let* r := array_objectAtIndex a (Z.of_nat i) in Ok (r, a, h)
  | ACount => Ok (array_count a, a, h)
  end.

Record array_rep (h : H) (a : array_t) (xs : list Z) : Prop := {
  rep_heap : heap_ok h;
  rep_count : ar_count a = Z.of_nat (length xs);
  rep_cells : holds (ar_cells a) xs;
  rep_space : Z.of_nat (length (ar_cells a)) = ar_space a;
  rep_room : ar_count a < ar_space a;
  rep_data : exists k, live h (ar_data a) k /\ 4 * ar_space a <= k;
  rep_step : 0 < ar_allocationStep a <= UINT32_MAX
}.

(** The other allocations are untouched. *)
Definition same_others (h : H) (a : array_t) (h' : H) (a' : array_t) : Prop :=
  forall q m, live h' q m /\ q <> ar_data a' <-> live h q m /\ q <> ar_data a.

(** The array can grow without its size in bytes leaving 32 bits. *)
Definition array_small (a : array_t) : Prop :=
  ar_space a <= 2 ^ 28 /\ (ar_allocationStep a <> UINT32_MAX -> ar_space a + ar_allocationStep a <= 2 ^ 29).

(** The operation asked for the block it needs and the heap did not have it.
    Adding and inserting ask for the next larger block when there is one cell
    left, and fail their assertion; removing asks for a smaller block and
    goes on with the old one unless the heap itself panics; emptying the array
    has given the old block up by then, and leaves an array without one when the
    heap answers with a null pointer. *)
Definition starved (h : H) (a : array_t) (op : array_op) : Prop :=
  match op with
  | AAdd _ | AInsert _ _ =>
      ar_space a - 1 <= ar_count a /\ exhausted h (data_size (next_space a)) /\ array_serve h a op = Panic
  | ARemove _ | ARemoveAt _ =>
      let b := set_count a (ar_count a - 1) in
      ar_count b < less_space b /\ halloc h (data_size (less_space b)) = Panic /\ array_serve h a op = Panic
  | ARemoveAll =>
      exists h1, hfree h (ar_data a) = Ok h1 /\
        ((halloc h1 (data_size 5) = Panic /\ array_serve h a op = Panic) \/
         exists h2, halloc h1 (data_size 5) = Ok (NULL, h2) /\
           array_serve h a op = Ok (0, set_data (set_count a 0) 5 NULL [], h2))
  | _ => False
  end.
End Represents.

(** ** Proofs about blocks *)

Lemma cell_get_mid l1 v l2 i : i = Z.of_nat (length l1) -> cell_get (l1 ++ Some v :: l2) i = Ok v.
Proof.
  intros ->. unfold cell_get. destruct (Z.ltb_spec (Z.of_nat (length l1)) 0); [lia|].
  by rewrite Nat2Z.id, list_lookup_middle.
Qed.

Lemma cell_set_mid (l1 : block) x l2 v i : i = Z.of_nat (length l1) -> cell_set (l1 ++ x :: l2) i v = Ok (l1 ++ Some v :: l2).
Proof.
  intros ->. rewrite cell_set_in by (rewrite length_app; cbn; lia).
  by rewrite insert_app_r_alt, Nat.sub_diag by done.
Qed.

Lemma shift_up_spec l1 : forall ys x l3,
  exists z, shift_up (length ys) (l1 ++ (Some <$> ys) ++ x :: l3) (Z.of_nat (length l1))
            = Ok (l1 ++ z :: (Some <$> ys) ++ l3).
Proof.
  induction ys as [|y ys IH] using rev_ind; intros x l3; [by exists x|].
  rewrite length_app, Nat.add_1_r. cbn [shift_up]. rewrite fmap_app, <- !app_assoc. cbn [app fmap list_fmap].
  rewrite (app_assoc l1). rewrite cell_get_mid by (rewrite length_app, length_fmap; lia). cbn [obind].
  replace ((l1 ++ (Some <$> ys)) ++ Some y :: x :: l3) with ((l1 ++ (Some <$> ys) ++ [Some y]) ++ x :: l3)
    by (by rewrite <- !app_assoc).
  rewrite cell_set_mid by (rewrite !length_app, length_fmap; cbn; lia). cbn [obind].
  rewrite <- !app_assoc. apply (IH (Some y) (Some y :: l3)).
Qed.

Lemma shift_down_spec : forall ys l1 x l3,
  exists z, shift_down (length ys) (l1 ++ x :: (Some <$> ys) ++ l3) (Z.of_nat (length l1))
            = Ok (l1 ++ (Some <$> ys) ++ z :: l3).
Proof.
  induction ys as [|y ys IH]; intros l1 x l3; [by exists x|]. cbn [length shift_down fmap list_fmap app].
  replace (l1 ++ x :: Some y :: (Some <$> ys) ++ l3) with ((l1 ++ [x]) ++ Some y :: (Some <$> ys) ++ l3)
    by (by rewrite <- app_assoc).
  rewrite cell_get_mid by (rewrite length_app; cbn; lia). cbn [obind]. rewrite <- app_assoc. cbn [app].
  rewrite cell_set_mid by done. cbn [obind].
  destruct (IH (l1 ++ [Some y]) (Some y) l3) as [z Hz]. exists z.
  rewrite length_app in Hz. cbn in Hz. rewrite <- !app_assoc in Hz. cbn in Hz.
  replace (Z.of_nat (length l1) + 1) with (Z.of_nat (length l1 + 1)) by lia. exact Hz.
Qed.

Lemma index_from_spec o : forall ys c l1,
  holds c (l1 ++ ys) -> Z.of_nat (length l1 + length ys) < 2 ^ 32 ->
  index_from (length ys) c (Z.of_nat (length l1)) o =
    Ok (default UINT32_MAX ((fun i => Z.of_nat (length l1 + i)) <$> index_of ys o)).
Proof.
  induction ys as [|y ys IH]; intros c l1 Hc Hlen; [done|]. cbn [length index_from] in *.
  rewrite (holds_get c _ _ y Hc) by (apply list_lookup_middle; done). cbn [obind].
  unfold index_of. cbn [list_find]. destruct (Z.eqb_spec y o) as [->|Hne].
  - rewrite decide_True by done. cbn. do 2 f_equal. lia.
  - rewrite decide_False by done. rewrite u32_small by lia.
    replace (Z.of_nat (length l1) + 1) with (Z.of_nat (length (l1 ++ [y]))) by (rewrite length_app; cbn; lia).
    rewrite IH by (rewrite <- ?app_assoc, ?length_app; cbn; done || lia).
    unfold index_of. destruct (list_find _ ys) as [[i z]|]; cbn; [|done]. rewrite length_app. cbn. do 2 f_equal. lia.
Qed.

(** ** Proofs about the array *)

Section Proofs.
Context {H : Type} `{KernelHeapOk H}.
Implicit Types (h : H) (a : array_t) (xs : list Z).

Lemma data_size_small n : 0 <= n <= 2 ^ 30 - 1 -> data_size n = 4 * n.
Proof. intros Hn. unfold data_size, sizeof_pointer. rewrite u32_small; lia. Qed.

Lemma data_block_length n p : 0 <= n <= 2 ^ 30 - 1 -> p <> NULL -> Z.of_nat (length (data_block n p)) = n.
Proof.
  intros Hn Hp. unfold data_block. rewrite (proj2 (Z.eqb_neq _ _)) by done.
  rewrite data_size_small by done. unfold sizeof_pointer.
  rewrite (Z.mul_comm 4), Z.div_mul by lia. apply length_fresh_block. lia.
Qed.

(** The objects move to a block of [space] cells that was just allocated. *)
Lemma move_spec h a xs space p k h1 :
  array_rep h a xs -> Z.of_nat (length xs) < space <= 2 ^ 30 - 1 -> p <> NULL -> 4 * space <= k -> grown h p k h1 ->
  exists cells h2, cell_copy (ar_cells a) (data_block space p) (ar_count a) = Ok cells /\
    hfree h1 (ar_data a) = Ok h2 /\ array_rep h2 (set_data a space p cells) xs /\
    same_others h a h2 (set_data a space p cells).
Proof.
  intros Hr Hs Hp Hk (Hh1 & Hnew & Hl). pose proof Hr as [Hh Hc Hcells Hsp Hroom (k0 & Hlive & Hk0) Hstep].
  pose proof (data_block_length space p ltac:(lia) Hp) as Hlen.
  destruct (holds_copy _ xs (ar_count a) (data_block space p) Hcells Hc ltac:(lia)) as (c & -> & Hc1 & Hc2).
  assert (Hold : live h1 (ar_data a) k0) by (apply Hl; by left).
  destruct (hfree_ok h1 _ _ Hh1 Hold) as (h2 & -> & Hh2 & Hl2).
  assert (Hne : p <> ar_data a) by (intros ->; by eapply Hnew).
  exists c, h2. split_and!; [done..| |].
  - split; cbn; try done; try lia. exists k. split; [|done]. apply Hl2. split; [|done]. apply Hl. by right.
  - intros q m. cbn. rewrite Hl2, Hl. naive_solver.
Qed.

Lemma same_others_refl h a : same_others h a h a.
Proof. done. Qed.

Lemma next_space_spec h a xs : array_rep h a xs -> array_small a ->
  ar_space a < next_space a <= 2 ^ 29 /\ (ar_count a + 1 < next_space a).
Proof.
  intros [] [Hs1 Hs2]. unfold next_space, UINT32_MAX in *.
  destruct (Z.eqb_spec (ar_allocationStep a) 4294967295); cbn [negb]; rewrite u32_small by lia; lia.
Qed.

Lemma resize_spec h a xs :
  array_rep h a xs -> array_small a ->
  (__array_resizeToNextStepIfNeeded h a = Panic /\ ar_space a - 1 <= ar_count a /\ exhausted h (data_size (next_space a))) \/
  exists a' h', __array_resizeToNextStepIfNeeded h a = Ok (a', h') /\ array_rep h' a' xs /\
    same_others h a h' a' /\ ar_count a + 1 < ar_space a'.
Proof.
  intros Hr Hsm. destruct (next_space_spec h a xs Hr Hsm) as [Hn1 Hn2]. pose proof Hr as [].
  unfold __array_resizeToNextStepIfNeeded. rewrite u32_small by (destruct Hsm; lia).
  destruct (Z.leb_spec (ar_space a - 1) (ar_count a)) as [Hle|Hgt].
  2: { right. exists a, h. split_and!; try done. lia. }
  pose proof (data_size_small (next_space a) ltac:(lia)) as Hds.
  destruct (halloc_result h (data_size (next_space a)) rep_heap0 ltac:(unfold max_request; lia))
    as [E|[(h' & E & _)|(p & k & h1 & E & Hp & Hk & _ & _ & Hg)]]; rewrite E; cbn [obind].
  - left. split_and!; [done..|]. by left.
  - left. split_and!; [done..|]. right. by exists h'.
  - right. rewrite (proj2 (Z.eqb_neq _ _)) by done.
    destruct (move_spec h a xs (next_space a) p k h1 Hr ltac:(lia) Hp ltac:(lia) Hg) as (c & h2 & -> & E2 & Hr2 & Ho).
    cbn [obind]. rewrite E2. cbn [obind]. eauto 10.
Qed.

Lemma less_space_spec a : 0 < ar_allocationStep a <= UINT32_MAX -> 0 <= ar_count a < ar_space a -> ar_space a <= 2 ^ 28 ->
  0 <= less_space a <= Z.max (ar_space a) (ar_count a + 5).
Proof.
  intros Hst Hc Hs. unfold less_space, UINT32_MAX in *.
  destruct (Z.eqb_spec (ar_allocationStep a) 4294967295).
  - pose proof (Z.div_mod (ar_space a) 2). pose proof (Z.mod_pos_bound (ar_space a) 2).
    destruct (Z.ltb_spec (ar_space a) (ar_space a / 2)); [rewrite u32_small by lia|]; lia.
  - pose proof (u32_range (ar_space a - ar_allocationStep a)).
    destruct (Z.ltb_spec (ar_space a) (u32 (ar_space a - ar_allocationStep a))); [rewrite u32_small by lia|]; lia.
Qed.

Lemma collapse_spec h a xs :
  array_rep h a xs -> ar_space a <= 2 ^ 28 ->
  (ar_count a < less_space a /\ halloc h (data_size (less_space a)) = Panic /\ __array_collapseIfNeeded h a = Panic) \/
  exists a' h', __array_collapseIfNeeded h a = Ok (a', h') /\ array_rep h' a' xs /\ same_others h a h' a'.
Proof.
  intros Hr Hs. pose proof Hr as []. pose proof (less_space_spec a rep_step0 ltac:(lia) Hs) as Hls.
  unfold __array_collapseIfNeeded. destruct (Z.ltb_spec (ar_count a) (less_space a)) as [Hlt|].
  2: { right. by exists a, h. }
  pose proof (data_size_small (less_space a) ltac:(lia)) as Hds.
  destruct (halloc_result h (data_size (less_space a)) rep_heap0 ltac:(unfold max_request; lia))
    as [E|[(h' & E & Hh' & Hl)|(p & k & h1 & E & Hp & Hk & _ & _ & Hg)]]; rewrite E; cbn [obind].
  - by left.
  - right. exists a, h'. split; [done|]. split; [|intros q m; by rewrite Hl].
    split; try done. destruct rep_data0 as (k & ? & ?). exists k. by rewrite Hl.
  - right. rewrite (proj2 (Z.eqb_neq _ _)) by done.
    destruct (move_spec h a xs (less_space a) p k h1 Hr ltac:(lia) Hp ltac:(lia) Hg) as (c & h2 & -> & E2 & Hr2 & Ho).
    cbn [obind]. rewrite E2. cbn [obind]. eauto 10.
Qed.

(** The cells change, the block does not. *)
Lemma rep_update h a xs c ys n :
  array_rep h a xs -> holds c ys -> length c = length (ar_cells a) -> n = Z.of_nat (length ys) -> n < ar_space a ->
  array_rep h (set_count (set_cells a c) n) ys.
Proof. intros [] Hc Hlen Hn Hlt. by split; cbn; rewrite ?Hlen. Qed.

(** The result of an operation: the list has become [ys] and the operation
    returned [r]. *)
Definition done_as h a ys (r : Z) (m : outcome (Z * array_t * H)) : Prop :=
  exists a' h', m = Ok (r, a', h') /\ array_rep h' a' ys /\ same_others h a h' a'.

Lemma add_spec h a xs o :
  array_rep h a xs -> array_small a ->
  starved h a (AAdd o) \/ done_as h a (xs ++ [o]) 0 (array_serve h a (AAdd o)).
Proof.
  intros Hr Hsm. unfold starved. cbn [array_serve]. unfold array_addObject.
  destruct (resize_spec h a xs Hr Hsm) as [(-> & E1 & E2)|(a1 & h1 & -> & Hr1 & Ho & Hroom)]; [by left|right]. cbn [obind].
  pose proof Hr as []. pose proof Hr1 as []. rewrite rep_count1.
  destruct (holds_snoc _ xs o rep_cells1 ltac:(lia)) as (c & -> & Hc & Hlen). cbn [obind].
  eexists _, h1. split; [done|]. split; [|exact Ho].
  destruct Hsm. eapply rep_update; [done|done|done|rewrite u32_small, length_app by lia; cbn; lia|rewrite u32_small; lia].
Qed.

Lemma insert_split (xs : list Z) o i c : holds c xs -> (i < length xs)%nat -> (length xs < length c)%nat ->
  exists c1 c2, shift_up (length xs - i) c (Z.of_nat i) = Ok c1 /\ cell_set c1 (Z.of_nat i) o = Ok c2 /\
    holds c2 (take i xs ++ o :: drop i xs) /\ length c2 = length c.
Proof.
  intros [rest ->] Hi Hlen. rewrite length_app, length_fmap in Hlen. destruct rest as [|x rest]; [cbn in Hlen; lia|].
  destruct (shift_up_spec (Some <$> take i xs) (drop i xs) x rest) as [z Hz].
  rewrite length_fmap, length_take, length_drop, Nat.min_l in Hz by lia.
  replace ((Some <$> xs) ++ x :: rest) with ((Some <$> take i xs) ++ (Some <$> drop i xs) ++ x :: rest)
    by (by rewrite app_assoc, <- fmap_app, take_drop).
  rewrite Hz.
  eexists _, _. split; [done|]. rewrite cell_set_mid by (rewrite length_fmap, length_take; lia).
  split; [done|]. split.
  - exists rest. rewrite fmap_app, <- app_assoc. done.
  - rewrite !length_app, !length_fmap, length_take. cbn. rewrite !length_app, length_fmap, length_drop. cbn. lia.
Qed.

Lemma insert_spec h a xs o i :
  array_rep h a xs -> array_small a -> (i < length xs)%nat ->
  starved h a (AInsert o i) \/
  done_as h a (take i xs ++ o :: drop i xs) 0 (array_serve h a (AInsert o i)).
Proof.
  intros Hr Hsm Hi. unfold starved. cbn [array_serve]. unfold array_insertObject. rewrite (rep_count _ _ _ Hr).
  rewrite (proj2 (Z.ltb_lt _ _)) by lia. cbn [negb].
  destruct (resize_spec h a xs Hr Hsm) as [(-> & E1 & E2)|(a1 & h1 & -> & Hr1 & Ho & Hroom)]; [left; split_and!; [destruct Hr; lia|done..]|right]. cbn [obind].
  pose proof Hr as []. pose proof Hr1 as []. rewrite rep_count1.
  destruct (insert_split xs o i (ar_cells a1) rep_cells1 Hi ltac:(lia)) as (c1 & c2 & E1 & E2 & Hc & Hlen).
  replace (Z.to_nat (Z.of_nat (length xs) - Z.of_nat i)) with (length xs - i)%nat by lia.
  rewrite E1. cbn [obind]. rewrite E2. cbn [obind]. eexists _, h1. split; [done|]. split; [|exact Ho].
  destruct Hsm. eapply rep_update; [done|done|done| |rewrite u32_small; lia].
  rewrite u32_small, length_app, length_take by lia. cbn. rewrite length_drop. lia.
Qed.

Lemma remove_split (xs : list Z) i c : holds c xs -> (i < length xs)%nat ->
  exists c', shift_down (length xs - i - 1) c (Z.of_nat i) = Ok c' /\ holds c' (delete i xs) /\ length c' = length c.
Proof.
  intros [rest ->] Hi. destruct (lookup_lt_is_Some_2 xs i Hi) as [x Hx].
  replace ((Some <$> xs) ++ rest) with ((Some <$> take i xs) ++ Some x :: (Some <$> drop (S i) xs) ++ rest)
    by (rewrite <- (take_drop_middle xs i x Hx) at 3; by rewrite fmap_app, <- app_assoc).
  destruct (shift_down_spec (drop (S i) xs) (Some <$> take i xs) (Some x) rest) as [z Hz].
  rewrite length_fmap, length_take, length_drop, Nat.min_l in Hz by lia.
  replace (length xs - i - 1)%nat with (length xs - S i)%nat by lia. rewrite Hz. eexists. split; [done|]. split.
  - exists (z :: rest). by rewrite delete_take_drop, fmap_app, <- app_assoc.
  - rewrite !length_app. cbn. rewrite !length_app. cbn. lia.
Qed.

Lemma remove_at_spec h a xs i :
  array_rep h a xs -> array_small a -> (i < length xs)%nat ->
  starved h a (ARemoveAt i) \/
  done_as h a (delete i xs) 0 (array_serve h a (ARemoveAt i)).
Proof.
  intros Hr [Hsm _] Hi. unfold starved. cbn [array_serve]. unfold array_removeObjectAtIndex. pose proof Hr as []. rewrite rep_count0.
  rewrite (proj2 (Z.ltb_lt _ _)) by lia. cbn [negb]. rewrite u32_small by lia.
  destruct (remove_split xs i (ar_cells a) rep_cells0 Hi) as (c & E & Hc & Hlen).
  assert (Ecells : (if Z.of_nat i <? Z.of_nat (length xs) - 1
      then shift_down (Z.to_nat (Z.of_nat (length xs) - Z.of_nat i - 1)) (ar_cells a) (Z.of_nat i)
      else Ok (ar_cells a)) = Ok c).
  { replace (Z.to_nat (Z.of_nat (length xs) - Z.of_nat i - 1)) with (length xs - i - 1)%nat by lia.
    destruct (Z.ltb_spec (Z.of_nat i) (Z.of_nat (length xs) - 1)); [done|].
    by replace (length xs - i - 1)%nat with O in E by lia. }
  rewrite Ecells. cbn [obind]. set (n := Z.of_nat (length xs) - 1).
  pose proof (rep_update h a xs c (delete i xs) n Hr Hc Hlen) as Hr'.
  destruct (collapse_spec h (set_count (set_cells a c) n) (delete i xs)) as [(Hk1 & Hk2 & ->)|(a' & h' & -> & Hr2 & Ho)].
  - apply Hr'; rewrite ?length_delete by (by apply lookup_lt_is_Some_2); lia.
  - done.
  - by left.
  - right. cbn [obind]. exists a', h'. done.
Qed.

Lemma index_spec h a xs o : array_rep h a xs -> array_small a ->
  array_indexOfObject a o = Ok (default UINT32_MAX (Z.of_nat <$> index_of xs o)).
Proof.
  intros [] [Hsm _]. unfold array_indexOfObject. rewrite rep_count0, Nat2Z.id.
  apply (index_from_spec o xs (ar_cells a) []); [done|cbn; lia].
Qed.

Lemma index_of_lt xs o i : index_of xs o = Some i -> (i < length xs)%nat.
Proof.
  unfold index_of. destruct (list_find _ xs) as [[j x]|] eqn:E; cbn; [|done]. intros [= ->].
  apply list_find_Some in E as [Hx _]. by eapply lookup_lt_Some.
Qed.

(** Removing an object is removing its first index, or failing the assertion. *)
Lemma remove_found h a xs o : array_rep h a xs -> array_small a ->
  array_serve h a (ARemove o) = match index_of xs o with Some i => array_serve h a (ARemoveAt i) | None => Panic end.
Proof.
  intros Hr Hsm. cbn [array_serve]. unfold array_removeObject. rewrite (index_spec h a xs o Hr Hsm).
  destruct (index_of xs o) as [i|] eqn:E; cbn; [done|]. unfold array_removeObjectAtIndex. destruct Hr, Hsm.
  by rewrite (proj2 (Z.ltb_ge _ _)) by (unfold UINT32_MAX; lia).
Qed.

Lemma remove_all_spec h a xs :
  array_rep h a xs ->
  starved h a ARemoveAll \/ done_as h a [] 0 (array_serve h a ARemoveAll).
Proof.
  intros []. destruct rep_data0 as (k0 & Hlive & Hk0). unfold starved. cbn [array_serve]. unfold array_removeAllObjects.
  destruct (hfree_ok h _ _ rep_heap0 Hlive) as (h1 & -> & Hh1 & Hl1). cbn [obind].
  destruct (halloc_result h1 (data_size 5) Hh1 ltac:(done))
    as [E|[(h' & E & _)|(p & k & h2 & E & Hp & Hk & _ & Hpos & Hh2 & Hnew & Hl2)]]; rewrite E; cbn [obind].
  - left. exists h1. split; [done|]. by left.
  - left. exists h1. split; [done|]. right. exists h'. by split.
  - right. eexists _, h2. split; [done|]. split; [split; cbn; try done|].
    + by exists (data_block 5 p).
    + by apply data_block_length.
    + exists k. split; [apply Hl2; by right|]. change (data_size 5) with 20 in Hk. lia.
    + intros q m. cbn. rewrite Hl2, Hl1. naive_solver.
Qed.

(** C10: The array refines a list.  Every operation of array.c that adds,
    inserts, removes, finds or fetches does on the array what it does on the
    list of its objects, or fails its assertion exactly when the list operation
    is undefined.  Otherwise only the heap can stop it, in the call that asks for
    the new block ([starved]): the operation then panics, or, when the array was
    being emptied, may leave it without a block.  It stays in its block, leaves the array well-formed and every other
    allocation of the heap as it was. *)
Theorem array_refines_list h a xs op :
  array_rep h a xs -> array_small a ->
  match list_serve xs op with
  | None => array_serve h a op = Panic
  | Some (r, ys) => starved h a op \/ done_as h a ys r (array_serve h a op)
  end.
Proof.
  intros Hr Hsm. pose proof (rep_count _ _ _ Hr) as Hc.
  assert (Hquiet : forall r, done_as h a xs r (Ok (r, a, h))) by (intros r; by exists a, h).
  destruct op as [o|o i|o|i| |o|i|]; cbn [list_serve].
  - destruct (add_spec h a xs o Hr Hsm) as [?|?]; [by left|by right].
  - destruct (Nat.ltb_spec i (length xs)) as [Hi|Hi].
    + destruct (insert_spec h a xs o i Hr Hsm Hi) as [?|?]; [by left|by right].
    + cbn [array_serve]. unfold array_insertObject. by rewrite (proj2 (Z.ltb_ge _ _)) by lia.
  - pose proof (remove_found h a xs o Hr Hsm) as Hfound.
    destruct (index_of xs o) as [i|] eqn:E; cbn [mbind option_bind]; [|done]. unfold starved. rewrite Hfound.
    apply index_of_lt in E. destruct (remove_at_spec h a xs i Hr Hsm E) as [?|?]; [by left|by right].
  - destruct (Nat.ltb_spec i (length xs)) as [Hi|Hi].
    + destruct (remove_at_spec h a xs i Hr Hsm Hi) as [?|?]; [by left|by right].
    + cbn [array_serve]. unfold array_removeObjectAtIndex. by rewrite (proj2 (Z.ltb_ge _ _)) by lia.
  - by apply (remove_all_spec h a xs).
  - right. cbn [array_serve]. by rewrite (index_spec h a xs o Hr Hsm).
  - cbn [array_serve]. unfold array_objectAtIndex. rewrite Hc. destruct (xs !! i) as [x|] eqn:E; cbn [mbind option_bind].
    + right. rewrite (proj2 (Z.ltb_lt _ _)) by (apply lookup_lt_Some in E; lia).
      by rewrite (holds_get _ _ _ _ (rep_cells _ _ _ Hr) E).
    + rewrite (proj2 (Z.ltb_ge _ _)); [done|]. apply lookup_ge_None in E. lia.
  - right. cbn [array_serve]. unfold array_count. by rewrite Hc.
Qed.

(** ** Life cycle *)

(** A fresh array is empty; its structure and its block are new. *)
Lemma array_create_rep h address a h' :
  heap_ok h -> array_create h = Ok (Some (address, a), h') -> ar_data a <> NULL ->
  array_rep h' a [] /\ exists k, live h' address k /\ address <> ar_data a /\
    forall q m, live h' q m /\ q <> ar_data a /\ q <> address <-> live h q m.
Proof.
  intros Hh E Hd. unfold array_create in E.
  destruct (halloc_result h sizeof_array Hh ltac:(done))
    as [E1|[(h1 & E1 & _)|(p & k & h1 & E1 & Hp & Hk & _ & Hpos & Hh1 & Hnew & Hl)]]; rewrite E1 in E; cbn [obind] in E; try done.
  rewrite (proj2 (Z.eqb_neq _ _)) in E by done.
  destruct (halloc_result h1 (data_size 5) Hh1 ltac:(done))
    as [E2|[(h2 & E2 & _)|(d & j & h2 & E2 & Hd2 & Hj & _ & Hdpos & Hh2 & Hnew2 & Hl2)]]; rewrite E2 in E; cbn [obind] in E; try done;
    injection E as <- <- <-; [done|]. cbn in *. change (data_size 5) with 20 in Hj.
  assert (Hne : p <> d) by (intros ->; eapply Hnew2, Hl; by right). split.
  - split; cbn; try done.
    + by exists (data_block 5 d).
    + by apply data_block_length.
    + exists j. split; [apply Hl2; by right|lia].
  - exists k. split_and!; [apply Hl2; left; apply Hl; by right|done|].
    intros q m. rewrite Hl2, Hl. split; [naive_solver|]. intros Hq. split_and!; [by left; left| |].
    + intros ->. eapply Hnew2, Hl. by left.
    + intros ->. by eapply Hnew.
Qed.

(** Destroying an array gives its two allocations back and nothing else. *)
Lemma array_destroy_spec h address a xs k :
  array_rep h a xs -> live h address k -> address <> ar_data a ->
  exists h', array_destroy h address a = Ok h' /\ heap_ok h' /\
    forall q m, live h' q m <-> live h q m /\ q <> ar_data a /\ q <> address.
Proof.
  intros [] Hl Hne. destruct rep_data0 as (k0 & Hlive & _). unfold array_destroy.
  destruct (hfree_ok h _ _ rep_heap0 Hlive) as (h1 & -> & Hh1 & Hl1). cbn [obind].
  destruct (hfree_ok h1 address k Hh1) as (h2 & -> & Hh2 & Hl2); [by apply Hl1|].
  exists h2. split_and!; [done..|]. intros q m. rewrite Hl2, Hl1. naive_solver.
Qed.

(** A copy holds the same objects in a block of its own. *)
Lemma array_copy_rep h a xs address b h' :
  array_rep h a xs -> array_small a -> array_copy h a = Ok (Some (address, b), h') -> ar_data b <> NULL ->
  array_rep h' b xs /\ array_rep h' a xs /\ ar_data b <> ar_data a /\ address <> ar_data a /\ address <> ar_data b.
Proof.
  intros Hr [Hs _] E Hd. pose proof Hr as []. unfold array_copy in E.
  destruct (halloc_result h sizeof_array rep_heap0 ltac:(done))
    as [E1|[(h1 & E1 & _)|(p & k & h1 & E1 & Hp & Hk & _ & Hpos & Hh1 & Hnew & Hl)]]; rewrite E1 in E; cbn [obind] in E; try done.
  rewrite (proj2 (Z.eqb_neq _ _)) in E by done.
  destruct (halloc_result h1 (data_size (ar_space a)) Hh1 ltac:(rewrite data_size_small by lia; unfold max_request; lia))
    as [E2|[(h2 & E2 & _)|(d & j & h2 & E2 & Hd2 & Hj & _ & Hdpos & Hh2 & Hnew2 & Hl2)]]; rewrite E2 in E; cbn [obind] in E; try done.
  { by destruct (cell_copy _ _ _) in E; cbn [obind] in E; [injection E as <- <- <-|..]. }
  rewrite data_size_small in Hj by lia. pose proof (data_block_length (ar_space a) d ltac:(lia) Hd2) as Hlen.
  destruct (holds_copy _ xs (ar_count a) (data_block (ar_space a) d) rep_cells0 rep_count0 ltac:(lia)) as (c & Ec & Hc1 & Hc2).
  rewrite Ec in E. cbn [obind] in E. injection E as <- <- <-. cbn in *. destruct rep_data0 as (k0 & Hlive & Hk0).
  assert (Hlive2 : live h2 (ar_data a) k0) by (apply Hl2; left; apply Hl; by left).
  split_and!.
  - split; cbn; try done; try lia. exists j. split; [apply Hl2; by right|done].
  - split; try done. by exists k0.
  - intros ->. eapply Hnew2, Hl. by left.
  - intros ->. by eapply Hnew.
  - intros ->. eapply Hnew2, Hl. by right.
Qed.
End Proofs.

(** An array of three objects on the cell heap. *)
Definition demo_array : array_t := Array 3 5 UINT32_MAX slot_size false [Some 7; Some 8; Some 9; None; None].
Definition demo_cells : cell_heap := CellHeap {[1 := 20]}.

Lemma demo_array_rep : array_rep demo_cells demo_array [7; 8; 9].
Proof.
  split; cbn; try done; [by exists [None; None]|]. exists 20. split; [|done].
  exists 1. unfold slot_size. split_and!; done.
Qed.

Lemma array_refines_list_witness :
  starved demo_cells demo_array (AInsert 5 1) \/
  done_as demo_cells demo_array [7; 5; 8; 9] 0 (array_serve demo_cells demo_array (AInsert 5 1)).
Proof.
  apply (array_refines_list demo_cells demo_array [7; 8; 9] (AInsert 5 1)); [exact demo_array_rep|].
  split; cbn; [lia|done].
Defined.

(** ** Iterating over an array ([array_iterator])

    [array_iteratorNextObject] hands the array out in pieces; [custom[0]] is
    the index of the next object. *)

(** The loop: [n] rounds at most, from [i] on. *)
Fixpoint array_fetchLoop (n : nat) (a : array_t) (index i : Z) (objects : block) : outcome (Z * block) :=
  match n with
  | O => Ok (i, objects)
  | S n' =>
      if ar_count a <=? u32 (index + i) then Ok (i, objects)
      else
        let* v := cell_get (ar_cells a) (u32 (index + i)) in
        let* objects := cell_set objects i v in
        array_fetchLoop n' a index (u32 (i + 1)) objects
  end.

Definition array_iteratorNextObject (a : array_t) (it : iterator_t unit) (maxObjects : Z) : outcome (Z * iterator_t unit) :=
  let* custom := of_option (it_custom it !! O) in
  let index := u32 custom in
  let* (i, objects) := array_fetchLoop (Z.to_nat maxObjects) a index 0 (it_objects it) in
  Ok (i, Iterator (it_data it) (<[O := s32 (index + i)]> (it_custom it)) objects (it_objectCount it) (it_index it) (it_objectsLeft it)).

(** The iterator of an array; the client gets it from [iterator_create]. *)
Definition array_iterator {H : Type} `{KernelHeap H} (h : H) (a : array_t) : outcome (option (Z * iterator_t unit) * H) :=
  iterator_create h tt.

(** From index [custom[0]] the array has [ys] left. *)
Definition array_rest (xs : list Z) (_ : unit) (custom ys : list Z) : Prop :=
  exists i, custom !! O = Some (s32 (Z.of_nat i)) /\ (i <= length xs)%nat /\ ys = drop i xs.

Lemma fetch_loop_spec xs (a : array_t) (Hcells : holds (ar_cells a) xs) (Hcount : ar_count a = Z.of_nat (length xs))
    (Hsmall : Z.of_nat (length xs) < 2 ^ 31) : forall n index i objects got,
  holds objects got -> length got = i -> (index + i <= length xs)%nat -> (i + n = length objects)%nat -> (i + n <= 10)%nat ->
  exists objects', array_fetchLoop n a (Z.of_nat index) (Z.of_nat i) objects
      = Ok (Z.of_nat (i + Nat.min n (length xs - index - i)), objects') /\
    holds objects' (got ++ take n (drop (index + i) xs)) /\ length objects' = length objects.
Proof.
  induction n as [|n IH]; intros index i objects got Hh Hg Hi Hn Hten; cbn [array_fetchLoop].
  { exists objects. rewrite Nat.add_0_r, app_nil_r. done. }
  rewrite u32_small, Hcount by lia. destruct (Z.leb_spec (Z.of_nat (length xs)) (Z.of_nat index + Z.of_nat i)) as [Hle|Hlt].
  { exists objects. replace (length xs - index - i)%nat with O by lia. rewrite Nat.min_0_r, Nat.add_0_r.
    rewrite drop_ge by lia. by rewrite take_nil, app_nil_r. }
  destruct (lookup_lt_is_Some_2 xs (index + i)) as [v Hv]; [lia|].
  replace (Z.of_nat index + Z.of_nat i) with (Z.of_nat (index + i)) by lia.
  rewrite (holds_get _ xs _ v Hcells Hv). cbn [obind]. subst i.
  destruct (holds_snoc objects got v Hh ltac:(lia)) as (o1 & -> & Hh1 & Hl1). cbn [obind]. rewrite u32_small by lia.
  replace (Z.of_nat (length got) + 1) with (Z.of_nat (S (length got))) by lia.
  destruct (IH index (S (length got)) o1 (got ++ [v]) Hh1) as (o2 & -> & Hh2 & Hl2); [rewrite length_app; cbn; lia|lia..|].
  exists o2. split; [do 3 f_equal; lia|]. split; [|congruence].
  rewrite (drop_S xs v (index + length got) Hv). cbn [take]. rewrite <- app_assoc in Hh2. cbn [app] in Hh2.
  by replace (index + S (length got))%nat with (S (index + length got)) in Hh2 by lia.
Qed.

Lemma array_fetches xs a :
  holds (ar_cells a) xs -> ar_count a = Z.of_nat (length xs) -> Z.of_nat (length xs) < 2 ^ 31 ->
  fetches (array_iteratorNextObject a) (array_rest xs).
Proof.
  intros Hcells Hcount Hsmall it ys (i & Hi & Hle & ->) Hlen. unfold array_iteratorNextObject.
  rewrite Hi. cbn [of_option obind]. rewrite u32_s32, u32_small by lia.
  change (Z.to_nat kIteratorMaxObjects) with 10%nat in *.
  destruct (fetch_loop_spec xs a Hcells Hcount Hsmall 10 i 0 (it_objects it) []) as (o & E & Hh & Hl);
    [by exists (it_objects it)|done|lia..|].
  change (Z.of_nat 0) with 0 in E. rewrite E. cbn [obind].
  exists (Nat.min 10 (length xs - i)). eexists. split; [do 3 f_equal; lia|]. cbn [it_objects it_custom].
  rewrite length_drop. split_and!; [lia|lia| | |congruence|].
  - intros Hne. destruct (decide (i = length xs)) as [->|]; [|lia]. by rewrite drop_all in Hne.
  - cbn in Hh. rewrite Nat.add_0_r in Hh. destruct (Nat.min_spec 10 (length xs - i)) as [[_ ->]|[Hge ->]]; [done|].
    rewrite take_ge by (rewrite length_drop; lia). rewrite take_ge in Hh by (rewrite length_drop; lia). done.
  - exists (i + Nat.min 10 (length xs - i))%nat. rewrite list_lookup_insert_eq by (by eapply lookup_lt_Some).
    split_and!; [do 2 f_equal; lia|lia|by rewrite drop_drop].
Qed.

(** An array's iterator hands out the objects of the array in order, each
    once, whatever the buffering, and null pointers after that. *)
Theorem array_iterator_enumerates {H : Type} `{KernelHeapOk H} (h : H) a xs n :
  array_rep h a xs -> array_small a ->
  exists it', iterate (array_iteratorNextObject a) n (iterator_new tt) = Ok (take n (xs ++ replicate n NULL), it').
Proof.
  intros [] [Hsm _].
  destruct (iterate_spec (array_iteratorNextObject a) (array_rest xs) (array_fetches xs a ltac:(done) ltac:(done) ltac:(lia))
    n (iterator_new tt) xs) as (it' & E & _); [|by exists it'].
  apply yields_new. exists O. split_and!; [done|lia|done].
Qed.

Lemma array_iterator_enumerates_witness :
  exists it', iterate (array_iteratorNextObject demo_array) 5 (iterator_new tt) = Ok ([7; 8; 9; NULL; NULL], it').
Proof.
  apply (array_iterator_enumerates demo_cells demo_array [7; 8; 9] 5); [exact demo_array_rep|]. split; cbn; [lia|done].
Defined.
