(* ===== verification/ArraySort.v ===== *)
(** * Sorting an array (sys/container/array.c, [array_sort])

    An introspective sort: quicksort that falls back to heapsort when it
    recurses too deeply, and an insertion sort over the whole array at the end.
    The first two only rearrange; the last one alone makes the array sorted. *)

From Stdlib Require Import Sorted.
From S2P Require Import Prelude Pages HeapSpec Block CellHeap Array.

Definition kCompareEqualTo : Z := 0.

Section Sort.
Context (comparator : Z -> Z -> Z).

Definition __array_exchangeObjects (c : block) (index1 index2 : Z) : outcome block :=
  let* temp := cell_get c index1 in
  let* v := cell_get c index2 in
  let* c := cell_set c index1 v in
  cell_set c index2 temp.

(** [n] rounds of the loop of [__array_isSorted]. *)
Fixpoint sorted_from (n : nat) (c : block) (begin_ : Z) : outcome bool :=
  match n with
  | O => Ok true
  | S n' =>
      let* x := cell_get c begin_ in
      let* y := cell_get c (begin_ + 1) in
      if comparator x y <? kCompareEqualTo then Ok false else sorted_from n' c (begin_ + 1)
  end.

Definition __array_isSorted (c : block) (begin_ end_ : Z) : outcome bool :=
  if end_ =? 0 then Ok true else sorted_from (Z.to_nat (end_ - 1 - begin_)) c begin_.

(** The loop of [__array_heapSortEx]; returns the index where it stops.  The
    index at least doubles, so [length] rounds are enough. *)
Fixpoint sift (fuel : nat) (c : block) (index index2 temp length : Z) : outcome (block * Z) :=
  if index2 <? length then
    match fuel with
    | O => Hang
    | S f =>
        let* index2 := if u32 (index2 + 1) <? length then
                         let* x := cell_get c index2 in
                         let* y := cell_get c (u32 (index2 + 1)) in
                         Ok (if comparator x y <? kCompareEqualTo then u32 (index2 + 1) else index2)
                       else Ok index2 in
        let* v := cell_get c index2 in
        if kCompareEqualTo <=? comparator temp v then Ok (c, index)
        else
          let* c := cell_set c index v in
          sift f c index2 (u32 (index2 * 2 + 1)) temp length
    end
  else Ok (c, index).

Definition __array_heapSortEx (c : block) (index length : Z) : outcome block :=
  let index2 := u32 (u32 (index * 2) + 1) in
  let* temp := cell_get c index in
  let* (c, index) := sift (Z.to_nat length) c index index2 temp length in
  cell_set c index temp.

(** [while(index > 0) { index --; ... }] *)
Fixpoint heap_build (index : nat) (c : block) (length : Z) : outcome block :=
  match index with
  | O => Ok c
  | S index' => let* c := __array_heapSortEx c (Z.of_nat index') length in heap_build index' c length
  end.

(** [while(length - 1 > 0) { length --; ... }], [n] being [length - 1]. *)
Fixpoint heap_extract (n : nat) (c : block) : outcome block :=
  match n with
  | O => Ok c
  | S n' =>
      let* c := __array_exchangeObjects c 0 (Z.of_nat n) in
      let* c := __array_heapSortEx c 0 (Z.of_nat n) in
      heap_extract n' c
  end.

Definition __array_heapSort (c : block) (length : Z) : outcome block :=
  let* c := heap_build (Z.to_nat (length / 2)) c length in
  if length =? 0 then Ok c else heap_extract (Z.to_nat (length - 1)) c.

(** [n] rounds of the loop of the partition, from [begin_] up to [end_]. *)
Fixpoint partition_loop (n : nat) (c : block) (begin_ end_ pivot : Z) : outcome (block * Z) :=
  match n with
  | O => Ok (c, pivot)
  | S n' =>
      let* x := cell_get c begin_ in
      let* y := cell_get c end_ in
      let* (c, pivot) := if comparator x y <=? kCompareEqualTo then
                           let* c := __array_exchangeObjects c pivot begin_ in Ok (c, u32 (pivot + 1))
                         else Ok (c, pivot) in
      partition_loop n' c (begin_ + 1) end_ pivot
  end.

Definition __array_quickSortPartition (c : block) (begin_ end_ : Z) : outcome (block * Z) :=
  let middle := u32 (begin_ + end_) / 2 in
  let* m := cell_get c middle in
  let* b := cell_get c begin_ in
  let pivot := if kCompareEqualTo <=? comparator m b then middle else begin_ in
  let* p := cell_get c pivot in
  let* e := cell_get c end_ in
  let pivot := if kCompareEqualTo <=? comparator p e then end_ else pivot in
  let* c := __array_exchangeObjects c pivot begin_ in
  let* (c, pivot) := partition_loop (Z.to_nat (end_ - begin_)) c begin_ end_ begin_ in
  let* c := __array_exchangeObjects c pivot end_ in
  Ok (c, pivot).

Fixpoint __array_quickSort (depth : nat) (c : block) (begin_ end_ : Z) : outcome block :=
  if (begin_ <? end_) && negb (end_ =? UINT32_MAX) then
    match depth with
    | O => __array_heapSort c (u32 (end_ - begin_ + 1))
    | S depth' =>
        let* sorted := __array_isSorted c begin_ end_ in
        if sorted then Ok c else
        let* (c, pivot) := __array_quickSortPartition c begin_ end_ in
        let* c := __array_quickSort depth' c begin_ (u32 (pivot - 1)) in
        __array_quickSort depth' c (u32 (pivot + 1)) end_
    end
  else Ok c.

(** The inner loop of the insertion sort: returns the final [j]. *)
Fixpoint insert_loop (j : nat) (c : block) (temp : Z) : outcome (block * Z) :=
  match j with
  | O => Ok (c, 0)
  | S j' =>
      let* v := cell_get c (Z.of_nat j') in
      if comparator v temp <=? kCompareEqualTo then Ok (c, Z.of_nat j)
      else
        let* c := cell_set c (Z.of_nat j) v in
        insert_loop j' c temp
  end.

(** [n] rounds of the outer loop, from [i] on. *)
Fixpoint insertion_from (n : nat) (c : block) (i : nat) : outcome block :=
  match n with
  | O => Ok c
  | S n' =>
      let* temp := cell_get c (Z.of_nat i) in
      let* (c, j) := insert_loop i c temp in
      let* c := cell_set c j temp in
      insertion_from n' c (S i)
  end.

Definition __array_insertionSort (c : block) (count : Z) : outcome block :=
  insertion_from (Z.to_nat (count - 1)) c 1.

(** [while(count >>= 1) result ++;]: a 32-bit count is shifted out in 32 rounds. *)
Fixpoint log_loop (fuel : nat) (count result : Z) : outcome Z :=
  let count := Z.shiftr count 1 in
  if count =? 0 then Ok result else
  match fuel with
  | O => Hang
  | S f => log_loop f count (u32 (result + 1))
  end.

Definition __array_logBase2 (count : Z) : outcome Z := log_loop 32 count 0.

Definition array_sort (a : array_t) : outcome array_t :=
  if ar_count a =? 0 then Ok a else
  let* c := if 5 <? ar_count a then
              let* log := __array_logBase2 (ar_count a) in
              __array_quickSort (Z.to_nat (u32 (2 * log))) (ar_cells a) 0 (u32 (ar_count a - 1))
            else Ok (ar_cells a) in
  let* c := __array_insertionSort c (ar_count a) in
  Ok (set_cells a c).

(** [comparator] orders the objects. *)
Definition object_le (x y : Z) : Prop := comparator x y <= kCompareEqualTo.

Definition total_preorder : Prop :=
  (forall x y, object_le x y \/ object_le y x) /\
  (forall x y z, object_le x y -> object_le y z -> object_le x z).
End Sort.

(** ** Rearranging *)

Lemma perm_replace (xs : list Z) i x y : xs !! i = Some x -> x :: <[i := y]> xs ≡ₚ y :: xs.
Proof.
  intros Hx. rewrite <- (take_drop_middle xs i x Hx) at 2. rewrite (insert_take_drop xs i y) by (by eapply lookup_lt_Some).
  rewrite <- !Permutation_middle. apply Permutation_swap.
Qed.

Lemma perm_swap_insert (xs : list Z) i j x y :
  xs !! i = Some x -> xs !! j = Some y -> <[j := x]> (<[i := y]> xs) ≡ₚ xs.
Proof.
  intros Hx Hy. apply (Permutation_cons_inv (a := y)).
  assert (Hj : <[i := y]> xs !! j = Some y).
  { destruct (decide (i = j)) as [->|Hne]; [|by rewrite list_lookup_insert_ne].
    apply list_lookup_insert_eq. by eapply lookup_lt_Some. }
  rewrite (perm_replace _ j y x Hj). by apply perm_replace.
Qed.

(** Moving the hole: [temp] sits at [i], and the object at [j] takes its place. *)
Lemma perm_move_hole (xs : list Z) i j temp v :
  i <> j -> (i < length xs)%nat -> xs !! j = Some v -> <[j := temp]> (<[i := v]> xs) ≡ₚ <[i := temp]> xs.
Proof.
  intros Hne Hi Hv. rewrite <- (list_insert_insert_eq xs i v temp) at 1.
  apply perm_swap_insert; [by apply list_lookup_insert_eq|by rewrite list_lookup_insert_ne].
Qed.

(** [m] returns a block that holds the objects [xs] in some order. *)
Definition rearranged (c : block) (xs : list Z) (m : outcome block) : Prop :=
  exists c' ys, m = Ok c' /\ holds c' ys /\ ys ≡ₚ xs /\ length c' = length c.

Lemma rearranged_bind c xs m (k : block -> outcome block) :
  rearranged c xs m ->
  (forall c' ys, holds c' ys -> ys ≡ₚ xs -> length c' = length c -> rearranged c' ys (k c')) ->
  rearranged c xs (obind m k).
Proof.
  intros (c' & ys & -> & Hh & Hp & Hl) Hk. destruct (Hk c' ys Hh Hp Hl) as (c2 & zs & E & Hh2 & Hp2 & Hl2).
  exists c2, zs. split_and!; try done; [by rewrite Hp2|congruence].
Qed.

Lemma rearranged_same c xs : holds c xs -> rearranged c xs (Ok c).
Proof. intros Hh. by exists c, xs. Qed.

Section Rearrange.
Context (comparator : Z -> Z -> Z).

Lemma holds_get_lt c xs i : holds c xs -> 0 <= i < Z.of_nat (length xs) ->
  exists x, cell_get c i = Ok x /\ xs !! Z.to_nat i = Some x.
Proof.
  intros Hh Hi. destruct (lookup_lt_is_Some_2 xs (Z.to_nat i)) as [x Hx]; [lia|]. exists x. split; [|done].
  rewrite <- (Z2Nat.id i) by lia. by eapply holds_get.
Qed.

Lemma holds_set_lt c xs i v : holds c xs -> 0 <= i < Z.of_nat (length xs) ->
  exists c', cell_set c i v = Ok c' /\ holds c' (<[Z.to_nat i := v]> xs) /\ length c' = length c.
Proof.
  intros Hh Hi. destruct (holds_set c xs (Z.to_nat i) v Hh ltac:(lia)) as (c' & E & ?). exists c'.
  by rewrite Z2Nat.id in E by lia.
Qed.

Lemma exchange_rearranges c xs i j :
  holds c xs -> 0 <= i < Z.of_nat (length xs) -> 0 <= j < Z.of_nat (length xs) ->
  rearranged c xs (__array_exchangeObjects c i j).
Proof.
  intros Hh Hi Hj. unfold __array_exchangeObjects.
  destruct (holds_get_lt c xs i Hh Hi) as (x & -> & Hx). destruct (holds_get_lt c xs j Hh Hj) as (y & -> & Hy). cbn [obind].
  destruct (holds_set_lt c xs i y Hh Hi) as (c1 & -> & Hh1 & Hl1). cbn [obind].
  destruct (holds_set_lt c1 _ j x Hh1) as (c2 & -> & Hh2 & Hl2); [by rewrite length_insert|].
  exists c2, (<[Z.to_nat j := x]> (<[Z.to_nat i := y]> xs)). split_and!; try done; [by apply perm_swap_insert|congruence].
Qed.

Lemma sorted_from_returns n : forall c xs i, holds c xs -> 0 <= i -> i + Z.of_nat n < Z.of_nat (length xs) ->
  exists b, sorted_from comparator n c i = Ok b.
Proof.
  induction n as [|n IH]; intros c xs i Hh Hi Hlen; cbn [sorted_from]; [by exists true|].
  destruct (holds_get_lt c xs i Hh ltac:(lia)) as (x & -> & _).
  destruct (holds_get_lt c xs (i + 1) Hh ltac:(lia)) as (y & -> & _). cbn [obind].
  destruct (_ <? _); [by exists false|]. apply (IH c xs); [done|lia..].
Qed.

Lemma sift_rearranges fuel : forall c cur index temp orig len,
  holds c cur -> 0 <= index < len -> len <= Z.of_nat (length cur) -> Z.of_nat (length cur) < 2 ^ 30 ->
  <[Z.to_nat index := temp]> cur ≡ₚ orig -> len - index <= Z.of_nat fuel ->
  exists c' index' cur', sift comparator fuel c index (index * 2 + 1) temp len = Ok (c', index') /\
    holds c' cur' /\ 0 <= index' < len /\ length cur' = length cur /\ length c' = length c /\
    <[Z.to_nat index' := temp]> cur' ≡ₚ orig.
Proof.
  induction fuel as [|fuel IH]; intros c cur index temp orig len Hh Hi Hlen Hsmall Hp Hfuel; [lia|].
  cbn [sift]. destruct (Z.ltb_spec (index * 2 + 1) len) as [Hlt|]; [|exists c, index, cur; split_and!; done || lia].
  rewrite (u32_small (index * 2 + 1 + 1)) by lia.
  assert (Hpick : exists i2, (if index * 2 + 1 + 1 <? len then
      let* x := cell_get c (index * 2 + 1) in let* y := cell_get c (index * 2 + 1 + 1) in
      Ok (if comparator x y <? kCompareEqualTo then index * 2 + 1 + 1 else index * 2 + 1)
    else Ok (index * 2 + 1)) = Ok i2 /\ index < i2 < len).
  { destruct (Z.ltb_spec (index * 2 + 1 + 1) len); [|eexists; split; [done|lia]].
    destruct (holds_get_lt c cur (index * 2 + 1) Hh ltac:(lia)) as (x & -> & _).
    destruct (holds_get_lt c cur (index * 2 + 1 + 1) Hh ltac:(lia)) as (y & -> & _). cbn [obind].
    eexists. split; [done|]. destruct (_ <? _); lia. }
  destruct Hpick as (i2 & -> & Hi2). cbn [obind].
  destruct (holds_get_lt c cur i2 Hh ltac:(lia)) as (v & -> & Hv). cbn [obind].
  destruct (_ <=? _); [exists c, index, cur; split_and!; done || lia|].
  destruct (holds_set_lt c cur index v Hh ltac:(lia)) as (c1 & -> & Hh1 & Hl1). cbn [obind].
  rewrite u32_small by lia.
  destruct (IH c1 (<[Z.to_nat index := v]> cur) i2 temp orig len) as (c' & index' & cur' & E & R); rewrite ?length_insert; try done; try lia.
  - rewrite perm_move_hole by (done || lia). done.
  - exists c', index', cur'. rewrite length_insert, Hl1 in R. done.
Qed.

Lemma heapSortEx_rearranges c xs index len :
  holds c xs -> 0 <= index < len -> len <= Z.of_nat (length xs) -> Z.of_nat (length xs) < 2 ^ 30 ->
  rearranged c xs (__array_heapSortEx comparator c index len).
Proof.
  intros Hh Hi Hlen Hs. unfold __array_heapSortEx. rewrite (u32_small (index * 2)), u32_small by lia.
  destruct (holds_get_lt c xs index Hh ltac:(lia)) as (temp & -> & Ht). cbn [obind].
  destruct (sift_rearranges (Z.to_nat len) c xs index temp xs len) as (c1 & i1 & cur & -> & Hh1 & Hi1 & Hl1 & Hl2 & Hp); try done; try lia.
  { by rewrite list_insert_id. }
  cbn [obind]. destruct (holds_set_lt c1 cur i1 temp Hh1 ltac:(lia)) as (c2 & -> & Hh2 & Hl3).
  exists c2, (<[Z.to_nat i1 := temp]> cur). split_and!; try done. congruence.
Qed.

Lemma heap_build_rearranges n : forall c xs len,
  holds c xs -> Z.of_nat n <= len -> len <= Z.of_nat (length xs) -> Z.of_nat (length xs) < 2 ^ 30 ->
  rearranged c xs (heap_build comparator n c len).
Proof.
  induction n as [|n IH]; intros c xs len Hh Hn Hlen Hs; cbn [heap_build]; [by apply rearranged_same|].
  apply rearranged_bind; [apply heapSortEx_rearranges; try done; lia|].
  intros c' ys Hh' Hp Hl. apply Permutation_length in Hp. apply IH; [done|lia|lia|lia].
Qed.

Lemma heap_extract_rearranges n : forall c xs,
  holds c xs -> Z.of_nat n < Z.of_nat (length xs) -> Z.of_nat (length xs) < 2 ^ 30 ->
  rearranged c xs (heap_extract comparator n c).
Proof.
  induction n as [|n IH]; intros c xs Hh Hn Hs; cbn [heap_extract]; [by apply rearranged_same|].
  apply rearranged_bind; [apply exchange_rearranges; try done; lia|].
  intros c1 ys Hh1 Hp1%Permutation_length Hl1. apply rearranged_bind; [apply heapSortEx_rearranges; try done; lia|].
  intros c2 zs Hh2 Hp2%Permutation_length Hl2. apply IH; [done|lia|lia].
Qed.

Lemma heapSort_rearranges c xs len :
  holds c xs -> 0 <= len <= Z.of_nat (length xs) -> Z.of_nat (length xs) < 2 ^ 30 ->
  rearranged c xs (__array_heapSort comparator c len).
Proof.
  intros Hh Hlen Hs. unfold __array_heapSort. pose proof (Z.div_mod len 2). pose proof (Z.mod_pos_bound len 2).
  apply rearranged_bind; [apply heap_build_rearranges; try done; lia|].
  intros c1 ys Hh1 Hp1%Permutation_length Hl1. destruct (Z.eqb_spec len 0); [by apply rearranged_same|].
  apply heap_extract_rearranges; [done|lia|lia].
Qed.

Lemma partition_loop_rearranges n : forall c xs b e pivot,
  holds c xs -> 0 <= pivot <= b -> b + Z.of_nat n = e -> e < Z.of_nat (length xs) -> Z.of_nat (length xs) < 2 ^ 30 ->
  exists c' p ys, partition_loop comparator n c b e pivot = Ok (c', p) /\ pivot <= p <= e /\
    holds c' ys /\ ys ≡ₚ xs /\ length c' = length c.
Proof.
  induction n as [|n IH]; intros c xs b e pivot Hh Hp Hb He Hs; cbn [partition_loop].
  { exists c, pivot, xs. split_and!; done || lia. }
  destruct (holds_get_lt c xs b Hh ltac:(lia)) as (x & -> & _).
  destruct (holds_get_lt c xs e Hh ltac:(lia)) as (y & -> & _). cbn [obind].
  destruct (_ <=? _); cbn [obind].
  - destruct (exchange_rearranges c xs pivot b Hh ltac:(lia) ltac:(lia)) as (c1 & ys & -> & Hh1 & Hp1 & Hl1). cbn [obind].
    pose proof (Permutation_length Hp1) as Hlen. rewrite u32_small by lia.
    destruct (IH c1 ys (b + 1) e (pivot + 1) Hh1 ltac:(lia) ltac:(lia) ltac:(lia) ltac:(lia)) as (c2 & p & zs & E & Hr & Hh2 & Hp2 & Hl2).
    exists c2, p, zs. split_and!; try done; try lia. by rewrite Hp2.
  - apply (IH c xs (b + 1) e pivot Hh); lia.
Qed.

Lemma partition_rearranges c xs b e :
  holds c xs -> 0 <= b < e -> e < Z.of_nat (length xs) -> Z.of_nat (length xs) < 2 ^ 30 ->
  exists c' p ys, __array_quickSortPartition comparator c b e = Ok (c', p) /\ b <= p <= e /\
    holds c' ys /\ ys ≡ₚ xs /\ length c' = length c.
Proof.
  intros Hh Hb He Hs. unfold __array_quickSortPartition. rewrite u32_small by lia.
  pose proof (Z.div_mod (b + e) 2). pose proof (Z.mod_pos_bound (b + e) 2).
  destruct (holds_get_lt c xs ((b + e) / 2) Hh ltac:(lia)) as (m & -> & _).
  destruct (holds_get_lt c xs b Hh ltac:(lia)) as (y & -> & _). cbn [obind].
  set (p1 := if kCompareEqualTo <=? comparator m y then (b + e) / 2 else b).
  assert (Hp1 : b <= p1 <= e) by (subst p1; destruct (_ <=? _); lia). clearbody p1.
  destruct (holds_get_lt c xs p1 Hh ltac:(lia)) as (v & -> & _).
  destruct (holds_get_lt c xs e Hh ltac:(lia)) as (w & -> & _). cbn [obind].
  set (p2 := if kCompareEqualTo <=? comparator v w then e else p1).
  assert (Hp2 : b <= p2 <= e) by (subst p2; destruct (_ <=? _); lia). clearbody p2.
  destruct (exchange_rearranges c xs p2 b Hh ltac:(lia) ltac:(lia)) as (c1 & ys & -> & Hh1 & P1 & L1). cbn [obind].
  pose proof (Permutation_length P1) as Hlen.
  destruct (partition_loop_rearranges (Z.to_nat (e - b)) c1 ys b e b) as (c2 & p & zs & -> & Hr & Hh2 & P2 & L2); try done; try lia.
  cbn [obind]. pose proof (Permutation_length P2) as Hlen2.
  destruct (exchange_rearranges c2 zs p e Hh2 ltac:(lia) ltac:(lia)) as (c3 & ws & -> & Hh3 & P3 & L3). cbn [obind].
  exists c3, p, ws. split_and!; try done; try lia. by rewrite P3, P2.
Qed.

Lemma quickSort_rearranges depth : forall c xs b e,
  holds c xs -> 0 <= b -> e < Z.of_nat (length xs) \/ e = UINT32_MAX -> Z.of_nat (length xs) < 2 ^ 30 ->
  rearranged c xs (__array_quickSort comparator depth c b e).
Proof.
  induction depth as [|depth IH]; intros c xs b e Hh Hb He Hs; cbn [__array_quickSort];
    (destruct (andb _ _) eqn:Ec; [|by apply rearranged_same]);
    apply andb_prop in Ec as [Hlt%Z.ltb_lt Hmax%negb_true_iff%Z.eqb_neq]; destruct He as [He|He]; try done.
  - rewrite u32_small by lia. apply heapSort_rearranges; [done|lia|lia].
  - unfold __array_isSorted. rewrite (proj2 (Z.eqb_neq e 0)) by lia.
    destruct (sorted_from_returns (Z.to_nat (e - 1 - b)) c xs b Hh ltac:(lia) ltac:(lia)) as [sorted ->]. cbn [obind].
    destruct sorted; [by apply rearranged_same|].
    destruct (partition_rearranges c xs b e Hh ltac:(lia) He Hs) as (c1 & p & ys & -> & Hp & Hh1 & P1 & L1). cbn [obind].
    pose proof (Permutation_length P1) as Hlen.
    assert (Hprev : u32 (p - 1) < Z.of_nat (length ys) \/ u32 (p - 1) = UINT32_MAX).
    { destruct (decide (p = 0)) as [->|]; [by right|left]. rewrite u32_small; lia. }
    rewrite (u32_small (p + 1)) by lia.
    destruct (IH c1 ys b (u32 (p - 1)) Hh1 Hb Hprev ltac:(lia)) as (c2 & zs & -> & Hh2 & P2 & L2). cbn [obind].
    pose proof (Permutation_length P2) as Hlen2.
    destruct (IH c2 zs (p + 1) e Hh2 ltac:(lia) ltac:(lia) ltac:(lia)) as (c3 & ws & -> & Hh3 & P3 & L3).
    exists c3, ws. split_and!; try done; [by rewrite P3, P2|congruence].
Qed.

Lemma log_loop_returns fuel : forall count result, 0 <= count < 2 ^ (Z.of_nat fuel + 1) ->
  exists r, log_loop fuel count result = Ok r.
Proof.
  induction fuel as [|fuel IH]; intros count result Hc; cbn [log_loop];
    (destruct (Z.eqb_spec (Z.shiftr count 1) 0) as [E|E]; [by exists result|]).
  - destruct E. rewrite Z.shiftr_div_pow2 by lia. apply Z.div_small. done.
  - apply IH. rewrite Z.shiftr_div_pow2 in * by lia. split; [apply Z.div_pos; lia|]. apply Z.div_lt_upper_bound; [lia|].
    change (2 ^ 1) with 2. rewrite <- Z.pow_succ_r by lia. replace (Z.succ (Z.of_nat fuel + 1)) with (Z.of_nat (S fuel) + 1) by lia. lia.
Qed.
End Rearrange.

(** ** The insertion sort sorts *)

Section Insertion.
Context (comparator : Z -> Z -> Z).
#[local] Abbreviation le := (object_le comparator).

(** The inner loop splits the sorted prefix where [temp] belongs. *)
Lemma insert_loop_spec : forall pre c hole suf temp,
  holds c (pre ++ hole :: suf) ->
  exists pre1 pre2 hole' c', insert_loop comparator (length pre) c temp = Ok (c', Z.of_nat (length pre1)) /\
    pre = pre1 ++ pre2 /\ holds c' (pre1 ++ hole' :: pre2 ++ suf) /\ length c' = length c /\
    (forall x, last pre1 = Some x -> le x temp) /\ Forall (fun x => ~ le x temp) pre2.
Proof.
  induction pre as [|v pre IH] using rev_ind; intros c hole suf temp Hh.
  { exists [], [], hole, c. by split_and!. }
  rewrite length_app, Nat.add_1_r. cbn [insert_loop].
  rewrite <- app_assoc in Hh. cbn [app] in Hh.
  rewrite (holds_get c _ (length pre) v Hh) by (by apply list_lookup_middle). cbn [obind].
  destruct (Z.leb_spec (comparator v temp) kCompareEqualTo) as [Hle|Hgt].
  - exists (pre ++ [v]), [], hole, c. rewrite app_nil_r, length_app, Nat.add_1_r. split_and!; try done.
    + by rewrite <- app_assoc.
    + intros x. rewrite last_snoc. intros [= <-]. done.
  - destruct (holds_set c _ (S (length pre)) v Hh) as (c1 & -> & Hh1 & Hl1); [rewrite length_app; cbn; lia|]. cbn [obind].
    replace (<[S (length pre) := v]> (pre ++ v :: hole :: suf)) with (pre ++ v :: v :: suf) in Hh1.
    2: { rewrite insert_app_r_alt by lia. by replace (S (length pre) - length pre)%nat with 1%nat by lia. }
    destruct (IH c1 v (v :: suf) temp Hh1) as (pre1 & pre2 & hole' & c2 & E & -> & Hh2 & Hl2 & Hlast & Hall).
    exists pre1, (pre2 ++ [v]), hole', c2. rewrite <- !app_assoc. cbn [app]. split_and!; try done; [congruence|].
    apply Forall_app. split; [done|]. constructor; [|done]. unfold object_le. lia.
Qed.

Lemma sorted_insert pre1 pre2 temp :
  (forall x y, le x y \/ le y x) ->
  Sorted le (pre1 ++ pre2) -> (forall x, last pre1 = Some x -> le x temp) -> Forall (fun x => ~ le x temp) pre2 ->
  Sorted le (pre1 ++ temp :: pre2).
Proof.
  intros Htot Hs Hlast Hall. induction pre1 as [|x pre1 IH]; cbn [app] in *.
  - constructor; [done|]. destruct pre2 as [|y pre2]; constructor. apply Forall_cons in Hall as [Hy _].
    by destruct (Htot temp y).
  - apply Sorted_inv in Hs as [Hs Hhd]. constructor.
    + apply IH; [done|]. intros y Hy. apply Hlast. rewrite last_cons, Hy. done.
    + destruct pre1 as [|y pre1]; cbn in *; constructor; [by apply Hlast|by apply HdRel_inv in Hhd].
Qed.

Lemma insertion_from_spec n : forall c pre rest,
  holds c (pre ++ rest) -> length rest = n -> ((forall x y, le x y \/ le y x) -> Sorted le pre) ->
  exists c' ys, insertion_from comparator n c (length pre) = Ok c' /\ holds c' ys /\ ys ≡ₚ pre ++ rest /\
    ((forall x y, le x y \/ le y x) -> Sorted le ys) /\ length c' = length c.
Proof.
  induction n as [|n IH]; intros c pre rest Hh Hn Hs; cbn [insertion_from].
  { destruct rest; [|done]. rewrite app_nil_r in *. by exists c, pre. }
  destruct rest as [|temp rest]; [done|]. cbn in Hn.
  rewrite (holds_get c _ (length pre) temp Hh) by (by apply list_lookup_middle). cbn [obind].
  destruct (insert_loop_spec pre c temp rest temp Hh) as (p1 & p2 & hole & c1 & -> & -> & Hh1 & Hl1 & Hlast & Hall).
  cbn [obind]. destruct (holds_set c1 _ (length p1) temp Hh1) as (c2 & -> & Hh2 & Hl2); [rewrite length_app; cbn; lia|].
  cbn [obind]. rewrite insert_app_r_alt, Nat.sub_diag in Hh2 by done. cbn in Hh2.
  destruct (IH c2 (p1 ++ temp :: p2) rest) as (c3 & ys & E & Hh3 & Hp & Hsorted & Hl3).
  - by rewrite <- app_assoc.
  - lia.
  - intros Htot. apply sorted_insert; try done. by apply Hs.
  - exists c3, ys. replace (length (p1 ++ temp :: p2)) with (S (length (p1 ++ p2))) in E by (rewrite !length_app; cbn; lia).
    split_and!; try done; [|congruence]. rewrite Hp, <- !app_assoc. cbn [app]. apply Permutation_app_head, Permutation_middle.
Qed.
End Insertion.

(** C18: [array_sort] returns, whatever the comparator does, stays inside the
    block and only rearranges the objects; when the comparator is a total
    preorder the array is sorted afterwards. *)
Theorem array_sort_sorts {H : Type} `{KernelHeapOk H} comparator (h : H) a xs :
  array_rep h a xs -> array_small a ->
  exists a' ys, array_sort comparator a = Ok a' /\ array_rep h a' ys /\ ys ≡ₚ xs /\
    (total_preorder comparator -> StronglySorted (object_le comparator) ys).
Proof.
  intros Hr [Hsm _]. pose proof Hr as []. unfold array_sort.
  destruct (Z.eqb_spec (ar_count a) 0) as [E|E].
  { exists a, xs. split_and!; try done. intros _. destruct xs; [constructor|cbn in *; lia]. }
  assert (Hmid : rearranged (ar_cells a) xs (if 5 <? ar_count a then
      let* log := __array_logBase2 (ar_count a) in
      __array_quickSort comparator (Z.to_nat (u32 (2 * log))) (ar_cells a) 0 (u32 (ar_count a - 1))
    else Ok (ar_cells a))).
  { destruct (5 <? ar_count a); [|by apply rearranged_same]. unfold __array_logBase2.
    destruct (log_loop_returns 32 (ar_count a) 0) as [log ->]; [lia|]. cbn [obind].
    apply quickSort_rearranges; [done|lia|left; rewrite u32_small; lia|lia]. }
  destruct Hmid as (c & ys & -> & Hh & Hp & Hl). cbn [obind]. pose proof (Permutation_length Hp) as Hlen.
  destruct ys as [|y ys]; [cbn in *; lia|]. unfold __array_insertionSort.
  destruct (insertion_from_spec comparator (length ys) c [y] ys Hh eq_refl) as (c' & zs & E2 & Hh2 & Hp2 & Hs & Hl2).
  { intros _. repeat constructor. }
  replace (Z.to_nat (ar_count a - 1)) with (length ys) by (cbn in Hlen; lia). cbn [length] in E2. rewrite E2. cbn [obind].
  exists (set_cells a c'), zs. split; [done|]. cbn [app] in Hp2. split; [|split].
  - pose proof (Permutation_length Hp2). replace (set_cells a c') with (set_count (set_cells a c') (ar_count a)) by done.
    apply (rep_update h a xs); [done|done|congruence|lia|lia].
  - by rewrite Hp2.
  - intros [Htot Htrans]. apply Sorted_StronglySorted; [|by apply Hs]. intros x w z. apply Htrans.
Qed.

(** Numbers compared by size. *)
Definition compare_numbers (x y : Z) : Z := if x <? y then -1 else if y <? x then 1 else 0.

Lemma compare_numbers_ok : total_preorder compare_numbers.
Proof.
  unfold total_preorder, object_le, compare_numbers, kCompareEqualTo.
  split; intros; zcases; lia.
Qed.

Lemma array_sort_sorts_witness :
  exists a' ys, array_sort compare_numbers demo_array = Ok a' /\ array_rep demo_cells a' ys /\ ys ≡ₚ [7; 8; 9] /\
    StronglySorted (object_le compare_numbers) ys.
Proof.
  destruct (array_sort_sorts compare_numbers demo_cells demo_array [7; 8; 9] demo_array_rep) as (a' & ys & E & Hr & Hp & Hs).
  - split; cbn; [lia|done].
  - exists a', ys. split_and!; try done. apply Hs, compare_numbers_ok.
Defined.
