(* ===== verification/LinkedList.v ===== *)
(** * The intrusive list (sys/container/list.c)

    Entries carry their own [next] and [prev] fields at offsets the list is
    told; the store maps the address of an entry to those two fields.  The file
    shows what inserting and removing do to the sequence of entries, and what
    removing does to the list's idea of its last entry. *)

From S2P Require Import Prelude Pages HeapSpec DList CellHeap.

(** ** The structure *)

Record node := Node { n_next : Z; n_prev : Z }.

Record list_t := List {
  l_count : Z;
  l_entrySize : Z;
  l_lock : bool;
  l_internalLock : bool;
  l_first : Z;
  l_last : Z
}.

Definition sizeof_list : Z := 32.

Definition set_ends (l : list_t) (count first last : Z) : list_t :=
  List count (l_entrySize l) (l_lock l) (l_internalLock l) first last.
Definition set_internalLock (l : list_t) (b : bool) : list_t :=
  List (l_count l) (l_entrySize l) (l_lock l) b (l_first l) (l_last l).

(** [list_accessNext(list, entry) = v] and the same for [prev]. *)
Definition store_next (m : gmap Z node) (entry v : Z) : outcome (gmap Z node) :=
  let* n := of_option (m !! entry) in Ok (<[entry := Node v (n_prev n)]> m).
Definition store_prev (m : gmap Z node) (entry v : Z) : outcome (gmap Z node) :=
  let* n := of_option (m !! entry) in Ok (<[entry := Node (n_next n) v]> m).

(** ** Linking and unlinking *)

Definition internal_lock (l : list_t) : outcome list_t :=
  if l_internalLock l then Hang else Ok (set_internalLock l true).

Definition list_insertBack (l : list_t) (m : gmap Z node) (entry : Z) : outcome (list_t * gmap Z node) :=
  let* l := internal_lock l in
  let* m := store_next m entry NULL in
  let* m := store_prev m entry (l_last l) in
  let* m := if l_last l =? NULL then Ok m else store_next m (l_last l) entry in
  let first := if l_first l =? NULL then entry else l_first l in
  Ok (set_internalLock (set_ends l (u32 (l_count l + 1)) first entry) false, m).

Definition list_insertFront (l : list_t) (m : gmap Z node) (entry : Z) : outcome (list_t * gmap Z node) :=
  let* l := internal_lock l in
  let* m := store_next m entry (l_first l) in
  let* m := store_prev m entry NULL in
  let* m := if l_first l =? NULL then Ok m else store_prev m (l_first l) entry in
  let last := if l_last l =? NULL then entry else l_last l in
  Ok (set_internalLock (set_ends l (u32 (l_count l + 1)) entry last) false, m).

Definition list_removeSoft (l : list_t) (m : gmap Z node) (entry : Z) : outcome (list_t * gmap Z node) :=
  let* l := internal_lock l in
  let* n := of_option (m !! entry) in
  let* m := if n_prev n =? NULL then Ok m else store_next m (n_prev n) (n_next n) in
  let* m := if n_next n =? NULL then Ok m else store_prev m (n_next n) (n_prev n) in
  let first := if l_first l =? entry then n_next n else l_first l in
  let last := if l_last l =? NULL then l_last l else n_prev n in
  Ok (set_internalLock (set_ends l (u32 (l_count l - 1)) first last) false, m).

Definition list_count (l : list_t) : Z := l_count l.
Definition list_first (l : list_t) : Z := l_first l.
Definition list_last (l : list_t) : Z := l_last l.

Definition list_lock (l : list_t) : outcome list_t :=
  if l_lock l then Hang
  else Ok (List (l_count l) (l_entrySize l) true (l_internalLock l) (l_first l) (l_last l)).
Definition list_unlock (l : list_t) : list_t :=
  List (l_count l) (l_entrySize l) false (l_internalLock l) (l_first l) (l_last l).

(** ** With the heap *)

Section Heap.
Context {H : Type} `{KernelHeap H}.

Definition list_create (h : H) (size : Z) : outcome (option (Z * list_t) * H) :=
  let* (list, h) := halloc h sizeof_list in
  if list =? NULL then Ok (None, h) else Ok (Some (list, List 0 size false false NULL NULL), h).

(** [fillEntry] is the client's callback on the new entry, if it has set one;
    the entry is zeroed before. *)
Definition list_addBack (h : H) (fillEntry : option (Z -> bool)) (l : list_t) (m : gmap Z node)
    : outcome (Z * list_t * gmap Z node * H) :=
  let* (entry, h) := halloc h (l_entrySize l) in
  if entry =? NULL then Ok (NULL, l, m, h) else
  if match fillEntry with Some f => f entry | None => true end then
    let* (l, m) := list_insertBack l (<[entry := Node 0 0]> m) entry in
    Ok (entry, l, m, h)
  else
    let* h := hfree h entry in
    Ok (NULL, set_internalLock l false, m, h).

Definition list_addFront (h : H) (fillEntry : option (Z -> bool)) (l : list_t) (m : gmap Z node)
    : outcome (Z * list_t * gmap Z node * H) :=
  let* (entry, h) := halloc h (l_entrySize l) in
  if entry =? NULL then Ok (NULL, l, m, h) else
  if match fillEntry with Some f => f entry | None => true end then
    let* (l, m) := list_insertFront l (<[entry := Node 0 0]> m) entry in
    Ok (entry, l, m, h)
  else
    let* h := hfree h entry in
    Ok (NULL, set_internalLock l false, m, h).

Definition list_remove (h : H) (l : list_t) (m : gmap Z node) (entry : Z) : outcome (list_t * gmap Z node * H) :=
  let* (l, m) := list_removeSoft l m entry in
  let* h := hfree h entry in
  Ok (l, delete entry m, h).

(** The walk visits each entry once, so the size of the store is enough fuel. *)
Fixpoint destroy_entries (fuel : nat) (h : H) (m : gmap Z node) (entry : Z) : outcome H :=
  if entry =? NULL then Ok h else
  match fuel with
  | O => Hang
  | S f =>
      let* n := of_option (m !! entry) in
      let* h := hfree h entry in
      destroy_entries f h (delete entry m) (n_next n)
  end.

Definition list_destroy (h : H) (address : Z) (l : list_t) (m : gmap Z node) : outcome H :=
  let* h := destroy_entries (S (size m)) h m (l_first l) in
  hfree h address.
End Heap.

(** ** The sequence it implements *)

(** The chain from [first] is the sequence [es]. *)
Record list_chain (l : list_t) (m : gmap Z node) (es : list Z) : Prop := {
  lc_links : dlist n_prev n_next m (l_first l) es;
  lc_nodup : NoDup es;
  lc_unlocked : l_internalLock l = false
}.

(** The whole structure: [last] and [count] agree with it. *)
Record list_rep (l : list_t) (m : gmap Z node) (es : list Z) : Prop := {
  lr_chain : list_chain l m es;
  lr_last : l_last l = tail_of NULL es;
  lr_count : l_count l = Z.of_nat (length es)
}.

(** Other entries of the store keep their fields. *)
Definition rest_kept (m m' : gmap Z node) (es : list Z) : Prop :=
  forall a, a ∉ es -> m' !! a = m !! a.

(** ** Proofs *)

Section Links.
Implicit Types (l : list_t) (m : gmap Z node) (es : list Z).

(** A store through a link the code has tested against a null pointer. *)
Lemma guarded_next m p v : (p <> NULL -> is_Some (m !! p)) ->
  exists m', (if p =? NULL then Ok m else store_next m p v) = Ok m' /\
    forall b, b <> NULL -> m' !! b = (n ← m !! b; Some (if decide (b = p) then Node v (n_prev n) else n)).
Proof.
  intros Hp. destruct (Z.eqb_spec p NULL) as [->|Hne].
  - exists m. split; [done|]. intros b Hb. destruct (m !! b); [|done]. cbn. by rewrite decide_False.
  - destruct (Hp Hne) as [n Hn]. unfold store_next. rewrite Hn. cbn [of_option obind]. eexists. split; [done|].
    intros b _. destruct (decide (b = p)) as [->|Hb].
    + by rewrite lookup_insert_eq, Hn.
    + rewrite lookup_insert_ne by congruence. by destruct (m !! b).
Qed.

Lemma guarded_prev m p v : (p <> NULL -> is_Some (m !! p)) ->
  exists m', (if p =? NULL then Ok m else store_prev m p v) = Ok m' /\
    forall b, b <> NULL -> m' !! b = (n ← m !! b; Some (if decide (b = p) then Node (n_next n) v else n)).
Proof.
  intros Hp. destruct (Z.eqb_spec p NULL) as [->|Hne].
  - exists m. split; [done|]. intros b Hb. destruct (m !! b); [|done]. cbn. by rewrite decide_False.
  - destruct (Hp Hne) as [n Hn]. unfold store_prev. rewrite Hn. cbn [of_option obind]. eexists. split; [done|].
    intros b _. destruct (decide (b = p)) as [->|Hb].
    + by rewrite lookup_insert_eq, Hn.
    + rewrite lookup_insert_ne by congruence. by destruct (m !! b).
Qed.

(** Setting both links of an entry. *)
Lemma store_both m entry n v w : m !! entry = Some n ->
  (let* m1 := store_next m entry v in store_prev m1 entry w) = Ok (<[entry := Node v w]> m).
Proof.
  intros Hn. unfold store_next, store_prev. rewrite Hn. cbn [of_option obind].
  rewrite lookup_insert_eq. cbn [of_option obind]. cbn. by rewrite insert_insert_eq.
Qed.

Lemma entry_member l m es a : list_chain l m es -> a ∈ es -> a <> NULL /\ is_Some (m !! a).
Proof. intros Hc Ha. by destruct (dseg_lookup _ _ _ _ _ _ _ _ (lc_links _ _ _ Hc) Ha). Qed.

Lemma head_member es : head_of es NULL <> NULL -> head_of es NULL ∈ es.
Proof. destruct es; cbn; [done|]. intros _. apply elem_of_cons. by left. Qed.

Lemma tail_member es : tail_of NULL es <> NULL -> tail_of NULL es ∈ es.
Proof. unfold tail_of. destruct (last es) eqn:E; cbn; [|done]. intros _. by apply last_Some_elem_of. Qed.

Lemma last_head_null es : NULL ∉ es -> (head_of es NULL = NULL <-> es = []) /\ (tail_of NULL es = NULL <-> es = []).
Proof.
  intros Hn. split; (split; [|by intros ->]).
  - destruct es as [|a es]; cbn; [done|]. intros ->. destruct Hn. apply elem_of_cons. by left.
  - unfold tail_of. destruct (last es) eqn:E; cbn; [|by apply last_None in E].
    intros ->. destruct Hn. by apply last_Some_elem_of.
Qed.

Lemma chain_no_null l m es : list_chain l m es -> NULL ∉ es.
Proof. intros Hc Hin. by destruct (entry_member l m es NULL Hc Hin). Qed.

Lemma insertBack_spec l m es entry n :
  list_rep l m es -> m !! entry = Some n -> entry ∉ es -> entry <> NULL -> Z.of_nat (length es) < 2 ^ 32 - 1 ->
  exists l' m', list_insertBack l m entry = Ok (l', m') /\ list_rep l' m' (es ++ [entry]) /\
    l_entrySize l' = l_entrySize l.
Proof.
  intros [Hc Hlast Hcount] Hn Hnin Hne Hlen. pose proof Hc as [Hl Hnd Hun].
  pose proof (dlist_first _ _ _ _ _ Hl) as Hfirst. pose proof (chain_no_null _ _ _ Hc) as Hnull.
  unfold list_insertBack, internal_lock. rewrite Hun. cbn [obind set_internalLock l_last l_first l_count].
  pose proof (store_both m entry n NULL (l_last l) Hn) as Eb.
  destruct (store_next m entry NULL) as [m1| | |]; cbn [obind] in *; try done. rewrite Eb. cbn [obind].
  destruct (guarded_next (<[entry := Node NULL (l_last l)]> m) (l_last l) entry) as (m' & -> & Hm').
  { intros Hl0. destruct (decide (entry = l_last l)) as [<-|Hne2]; [rewrite lookup_insert_eq; by eexists|].
    rewrite lookup_insert_ne by done. rewrite Hlast in *. by apply (entry_member l m es); [|apply tail_member]. }
  cbn [obind]. eexists _, m'. split; [done|]. split; [|done].
  assert (Hnext : l_last l <> entry).
  { rewrite Hlast. intros E. apply Hnin. rewrite <- E. apply tail_member. congruence. }
  split; [split|..]; cbn; try done.
  - replace (if l_first l =? NULL then entry else l_first l) with (head_of es entry).
    2: { rewrite Hfirst. destruct (Z.eqb_spec (head_of es NULL) NULL) as [E|E].
         - by rewrite (proj1 (proj1 (last_head_null es Hnull)) E).
         - by destruct es. }
    apply (dlist_push_back _ _ m m' (l_first l) entry (Node NULL (l_last l))); try done.
    + rewrite Hm', lookup_insert_eq by done. cbn. by rewrite decide_False.
    + intros b nb Hb Hnb. destruct (entry_member l m es b Hc Hb) as [Hb0 _].
      rewrite Hm', lookup_insert_ne, Hnb by congruence. cbn. eexists. split; [done|]. rewrite <- Hlast. by case_decide.
  - apply NoDup_app. split_and!; [done| |apply NoDup_singleton]. intros b Hb ->%list_elem_of_singleton. done.
  - unfold tail_of. by rewrite last_snoc.
  - rewrite Hcount, u32_small, length_app by lia. cbn. lia.
Qed.

Lemma insertFront_spec l m es entry n :
  list_rep l m es -> m !! entry = Some n -> entry ∉ es -> entry <> NULL -> Z.of_nat (length es) < 2 ^ 32 - 1 ->
  exists l' m', list_insertFront l m entry = Ok (l', m') /\ list_rep l' m' (entry :: es) /\
    l_entrySize l' = l_entrySize l.
Proof.
  intros [Hc Hlast Hcount] Hn Hnin Hne Hlen. pose proof Hc as [Hl Hnd Hun].
  pose proof (dlist_first _ _ _ _ _ Hl) as Hfirst. pose proof (chain_no_null _ _ _ Hc) as Hnull.
  unfold list_insertFront, internal_lock. rewrite Hun. cbn [obind set_internalLock l_last l_first l_count].
  pose proof (store_both m entry n (l_first l) NULL Hn) as Eb.
  destruct (store_next m entry (l_first l)) as [m1| | |]; cbn [obind] in *; try done. rewrite Eb. cbn [obind].
  destruct (guarded_prev (<[entry := Node (l_first l) NULL]> m) (l_first l) entry) as (m' & -> & Hm').
  { intros Hl0. destruct (decide (entry = l_first l)) as [<-|Hne2]; [rewrite lookup_insert_eq; by eexists|].
    rewrite lookup_insert_ne by done. rewrite Hfirst in *. by apply (entry_member l m es); [|apply head_member]. }
  cbn [obind]. eexists _, m'. split; [done|]. split; [|done].
  assert (Hnext : l_first l <> entry).
  { rewrite Hfirst. intros E. apply Hnin. rewrite <- E. apply head_member. congruence. }
  split; [split|..]; cbn; try done.
  - apply (dlist_push_front _ _ m m' (l_first l) entry (Node (l_first l) NULL)); try done.
    + rewrite Hm', lookup_insert_eq by done. cbn. by rewrite decide_False.
    + intros b nb Hb Hnb. destruct (entry_member l m es b Hc Hb) as [Hb0 _].
      rewrite Hm', lookup_insert_ne, Hnb by congruence. cbn. eexists. split; [done|]. by case_decide.
  - by apply NoDup_cons.
  - rewrite Hlast. destruct (Z.eqb_spec (tail_of NULL es) NULL) as [E|E].
    + by rewrite (proj1 (proj2 (last_head_null es Hnull)) E).
    + rewrite tail_of_cons. unfold tail_of in *. by destruct (last es).
  - rewrite Hcount, u32_small by lia. lia.
Qed.

Lemma removeSoft_spec l m before entry after :
  list_chain l m (before ++ entry :: after) ->
  exists l' m', list_removeSoft l m entry = Ok (l', m') /\ list_chain l' m' (before ++ after) /\
    l_last l' = (if l_last l =? NULL then l_last l else tail_of NULL before) /\
    l_count l' = u32 (l_count l - 1) /\ l_entrySize l' = l_entrySize l.
Proof.
  intros Hc. pose proof Hc as [Hl Hnd Hun].
  destruct (dlist_links _ _ _ _ _ _ _ Hl) as (n & Hn & Hp & Hx).
  unfold list_removeSoft, internal_lock. rewrite Hun. cbn [obind]. rewrite Hn. cbn [of_option obind].
  destruct (guarded_next m (n_prev n) (n_next n)) as (m1 & -> & Hm1).
  { rewrite Hp. intros Ht%tail_member. apply (entry_member l m _ _ Hc). apply elem_of_app. by left. }
  cbn [obind]. destruct (guarded_prev m1 (n_next n) (n_prev n)) as (m2 & -> & Hm2).
  { rewrite Hx. intros Ht. rewrite Hm1 by done. destruct (entry_member l m _ (head_of after NULL) Hc) as [_ [y Hy]].
    - apply elem_of_app. right. apply elem_of_cons. right. by apply head_member.
    - by rewrite Hy. }
  cbn [obind]. eexists _, m2. split; [done|]. split; [|split_and!; cbn; by rewrite ?Hp].
  split; cbn; [| |done].
  - replace (if l_first l =? entry then n_next n else l_first l)
      with (if decide (entry = l_first l) then n_next n else l_first l)
      by (destruct (Z.eqb_spec (l_first l) entry); case_decide; congruence).
    apply (dlist_unlink _ _ m m2 _ entry n); try done.
    intros b nb Hb Hnb. destruct (entry_member l m _ b Hc) as [Hb0 _].
    { apply elem_of_app in Hb as [?|?]; apply elem_of_app; [by left|right]. apply elem_of_cons. by right. }
    rewrite Hm2, Hm1, Hnb by done. cbn. eexists. split; [done|].
    destruct (decide (b = n_prev n)), (decide (b = n_next n)); done.
  - apply NoDup_app in Hnd as (H1 & Hd & [Hnin H2]%NoDup_cons). apply NoDup_app. split_and!; [done| |done].
    intros b Hb Hb2. eapply Hd; [exact Hb|]. apply elem_of_cons. by right.
Qed.
End Links.

(** Inserting a fresh entry at the back appends it to the sequence, at the
    front prepends it; [first], [last], [count] and every link agree with the
    new sequence. *)
Theorem list_insert_refines (l : list_t) (m : gmap Z node) (es : list Z) entry n :
  list_rep l m es -> m !! entry = Some n -> entry ∉ es -> entry <> NULL -> Z.of_nat (length es) < 2 ^ 32 - 1 ->
  (exists l' m', list_insertBack l m entry = Ok (l', m') /\ list_rep l' m' (es ++ [entry])) /\
  (exists l' m', list_insertFront l m entry = Ok (l', m') /\ list_rep l' m' (entry :: es)).
Proof.
  intros Hr Hn Hnin Hne Hlen. split.
  - destruct (insertBack_spec l m es entry n Hr Hn Hnin Hne Hlen) as (l' & m' & E & Hr' & _). by exists l', m'.
  - destruct (insertFront_spec l m es entry n Hr Hn Hnin Hne Hlen) as (l' & m' & E & Hr' & _). by exists l', m'.
Qed.

(** A list of two entries. *)
Definition demo_list : list_t := List 2 8 false false 100 200.
Definition demo_nodes : gmap Z node := {[100 := Node 200 NULL; 200 := Node NULL 100; 300 := Node 0 0]}.

Lemma demo_list_rep : list_rep demo_list demo_nodes [100; 200].
Proof.
  split; [split|..]; try done.
  - cbn. split_and!; try done. exists (Node 200 NULL). cbn. split_and!; try done. exists (Node NULL 100). by split_and!.
  - repeat constructor; [|set_solver]. intros Hin. apply list_elem_of_singleton in Hin. done.
Qed.

Lemma list_insert_refines_witness :
  (exists l' m', list_insertBack demo_list demo_nodes 300 = Ok (l', m') /\ list_rep l' m' [100; 200; 300]) /\
  (exists l' m', list_insertFront demo_list demo_nodes 300 = Ok (l', m') /\ list_rep l' m' [300; 100; 200]).
Proof.
  apply (list_insert_refines demo_list demo_nodes [100; 200] 300 (Node 0 0)); try done; [exact demo_list_rep|].
  apply (bool_decide_unpack _). by vm_compute.
Defined.

Lemma tail_differs (before after : list Z) : NULL ∉ before ++ after -> NoDup (before ++ after) -> after <> [] ->
  tail_of NULL before <> tail_of NULL (before ++ after).
Proof.
  intros Hnull (_ & Hd & _)%NoDup_app Hne E. unfold tail_of in E. rewrite last_app in E.
  destruct (last after) as [b|] eqn:Eb; [|by apply last_None in Eb]. cbn in E.
  apply last_Some_elem_of in Eb. destruct (last before) as [a|] eqn:Ea; cbn in E.
  - apply last_Some_elem_of in Ea. subst a. by eapply Hd.
  - subst b. apply Hnull, elem_of_app. by right.
Qed.

(** C20: Removing an entry takes it out of the sequence, with every link, [first]
    and [count] right; but [last] becomes the predecessor of the removed entry
    whichever entry it was, so the structure as a whole is right again exactly
    when the entry removed was the last one. *)
Theorem list_removeSoft_precise (l : list_t) (m : gmap Z node) (before : list Z) entry (after : list Z) :
  list_rep l m (before ++ entry :: after) -> Z.of_nat (length (before ++ entry :: after)) < 2 ^ 32 ->
  exists l' m', list_removeSoft l m entry = Ok (l', m') /\ list_chain l' m' (before ++ after) /\
    l_count l' = Z.of_nat (length (before ++ after)) /\ l_last l' = tail_of NULL before /\
    (list_rep l' m' (before ++ after) <-> after = []).
Proof.
  intros [Hc Hlast Hcount] Hlen. destruct (removeSoft_spec l m before entry after Hc) as (l' & m' & E & Hc' & Hl & Hn & _).
  pose proof (chain_no_null _ _ _ Hc) as Hnull. rewrite length_app in Hlen, Hcount. cbn in Hlen, Hcount.
  assert (Hlast' : l_last l' = tail_of NULL before).
  { rewrite Hl, Hlast. rewrite (proj2 (Z.eqb_neq _ _)); [done|]. intros E0.
    apply (proj2 (last_head_null _ Hnull)) in E0. by destruct before. }
  assert (Hcount' : l_count l' = Z.of_nat (length (before ++ after))).
  { rewrite Hn, Hcount, u32_small, length_app by lia. lia. }
  exists l', m'. split_and!; try done. split.
  - intros [_ Ht _]. rewrite Hlast' in Ht. destruct after as [|b after]; [done|]. exfalso.
    apply (tail_differs before (b :: after)); try done.
    + apply (chain_no_null _ _ _ Hc').
    + apply Hc'.
  - intros ->. rewrite app_nil_r in *. by split.
Qed.

Lemma list_removeSoft_precise_witness :
  exists l' m', list_removeSoft demo_list demo_nodes 100 = Ok (l', m') /\ list_chain l' m' [200] /\
    l_count l' = 1 /\ l_last l' = NULL /\ (list_rep l' m' [200] <-> [200] = []).
Proof. apply (list_removeSoft_precise demo_list demo_nodes [] 100 [200]); [exact demo_list_rep|done]. Defined.

Section Lifecycle.
Context {H : Type} `{KernelHeapOk H}.

(** [list_addBack] without a callback: the new entry is a new allocation at the
    end of the sequence, or nothing has changed. *)
Lemma list_addBack_spec (h : H) (l : list_t) (m : gmap Z node) (es : list Z) :
  heap_ok h -> list_rep l m es -> 0 <= l_entrySize l <= max_request -> Z.of_nat (length es) < 2 ^ 32 - 1 ->
  (forall e, e ∈ es -> exists k, live h e k) ->
  match list_addBack h None l m with
  | Ok (entry, l', m', h') => heap_ok h' /\
      ((entry = NULL /\ l' = l /\ m' = m /\ forall q k, live h' q k <-> live h q k) \/
       (entry <> NULL /\ list_rep l' m' (es ++ [entry]) /\ l_entrySize l' = l_entrySize l /\
        exists k, l_entrySize l <= k /\ grown h entry k h'))
  | Panic => halloc h (l_entrySize l) = Panic
  | _ => False
  end.
Proof.
  intros Hh Hr Hs Hlen Hlive. unfold list_addBack.
  destruct (halloc_result h (l_entrySize l) Hh Hs)
    as [E|[(h' & E & Hh' & Hl)|(p & k & h' & E & Hp & Hk & _ & _ & Hg)]]; rewrite E; cbn [obind]; [done| |].
  - split; [done|]. left. by split_and!.
  - rewrite (proj2 (Z.eqb_neq _ _)) by done.
    assert (Hnin : p ∉ es). { intros (j & Hj)%Hlive. destruct Hg as (_ & Hnew & _). by eapply Hnew. }
    assert (Hr' : list_rep l (<[p := Node 0 0]> m) es).
    { destruct Hr as [[] ? ?]. split; [split|..]; try done. eapply dseg_frame; [|exact lc_links0].
      intros a n Ha Hn. exists n. rewrite lookup_insert_ne by congruence. done. }
    destruct (insertBack_spec l _ es p (Node 0 0) Hr' ltac:(apply lookup_insert_eq) Hnin Hp Hlen) as (l' & m' & -> & Hrep & Hsz).
    cbn [obind]. split; [apply Hg|]. right. split_and!; [done..|]. exists k. by split.
Qed.

Lemma destroy_entries_spec : forall (es : list Z) fuel (h : H) (m : gmap Z node) prev first,
  heap_ok h -> dseg n_prev n_next m prev first es NULL -> NoDup es ->
  (length es < fuel)%nat -> (forall e, e ∈ es -> exists n, live h e n) ->
  exists h', destroy_entries fuel h m first = Ok h' /\ heap_ok h' /\ (forall q n, live h' q n <-> live h q n /\ q ∉ es).
Proof.
  induction es as [|e es IH]; intros fuel h m prev first Hh Hl Hnd Hfuel Hlive; cbn in Hl, Hfuel.
  - subst first. exists h. split; [by destruct fuel|]. split; [done|]. intros q n. split; [|by intros [? _]].
    intros ?. split; [done|]. apply not_elem_of_nil.
  - destruct Hl as (-> & He & n & Hn & _ & Hl). apply NoDup_cons in Hnd as [Hnin Hnd].
    destruct fuel as [|fuel]; [lia|]. cbn [destroy_entries]. rewrite (proj2 (Z.eqb_neq _ _)), Hn by done. cbn [of_option obind].
    destruct (Hlive e) as [ke Hke]; [apply elem_of_cons; by left|].
    destruct (hfree_ok h e ke Hh Hke) as (h1 & -> & Hh1 & Hl1). cbn [obind].
    destruct (IH fuel h1 (delete e m) e (n_next n)) as (h2 & -> & Hh2 & Hl2); try done; [|lia| |].
    + eapply dseg_frame; [|exact Hl]. intros a na Hin Hna. exists na. rewrite lookup_delete_ne by congruence. done.
    + intros a Hin. destruct (Hlive a) as [ka Hka]; [apply elem_of_cons; by right|]. exists ka. apply Hl1. split; congruence.
    + exists h2. split_and!; try done. intros q j. rewrite Hl2, Hl1, not_elem_of_cons. naive_solver.
Qed.

(** [list_destroy] returns having freed every entry of the chain and the list
    itself, each once, and nothing else; it needs the forward links only. *)
Theorem list_destroy_frees_all (h : H) address k (l : list_t) (m : gmap Z node) (es : list Z) :
  heap_ok h -> list_chain l m es -> live h address k -> address ∉ es -> (forall e, e ∈ es -> exists n, live h e n) ->
  exists h', list_destroy h address l m = Ok h' /\ heap_ok h' /\
    forall q n, live h' q n <-> live h q n /\ (q ∉ es) /\ q <> address.
Proof.
  intros Hh Hc Ha Hnin Hlive. unfold list_destroy.
  destruct (destroy_entries_spec es (S (size m)) h m NULL (l_first l)) as (h1 & -> & Hh1 & Hl1); try apply Hc; try done.
  { apply Nat.lt_succ_r. rewrite <- (size_list_to_set (C := gset Z) es (lc_nodup _ _ _ Hc)), <- (size_dom (D := gset Z) m).
    apply subseteq_size. intros a Hin%elem_of_list_to_set. apply elem_of_dom. by destruct (entry_member l m es a Hc Hin). }
  cbn [obind]. destruct (hfree_ok h1 address k Hh1) as (h2 & -> & Hh2 & Hl2); [by apply Hl1|].
  exists h2. split_and!; try done. intros q n. rewrite Hl2, Hl1. naive_solver.
Qed.
End Lifecycle.

Lemma list_destroy_frees_all_witness :
  exists h', list_destroy (CellHeap {[1 := 32; 2 := 8; 3 := 8]}) (1 * slot_size)
      (List 2 8 false false (2 * slot_size) (3 * slot_size))
      {[2 * slot_size := Node (3 * slot_size) NULL; 3 * slot_size := Node NULL (2 * slot_size)]} = Ok h' /\ heap_ok h' /\
    forall q n, live h' q n <-> live (CellHeap {[1 := 32; 2 := 8; 3 := 8]}) q n /\
      (q ∉ [2 * slot_size; 3 * slot_size]) /\ q <> 1 * slot_size.
Proof.
  assert (Hlive : forall i n, ch_map (CellHeap {[1 := 32; 2 := 8; 3 := 8]}) !! i = Some n -> 1 <= i <= 4000 -> 0 <= n <= slot_size ->
    live (CellHeap {[1 := 32; 2 := 8; 3 := 8]}) (i * slot_size) n) by (intros i n ? ? ?; by exists i).
  apply (list_destroy_frees_all _ _ 32); try done.
  - split; try done.
    + cbn. split_and!; try done. exists (Node (3 * slot_size) NULL). cbn. split_and!; try done.
      exists (Node NULL (2 * slot_size)). by split_and!.
    + repeat constructor; [|set_solver]. intros Hin. apply list_elem_of_singleton in Hin. done.
  - by apply (Hlive 1).
  - apply (bool_decide_unpack _). by vm_compute.
  - intros e Hin. apply elem_of_cons in Hin as [->|Hin]; [exists 8; by apply (Hlive 2)|].
    apply list_elem_of_singleton in Hin as ->. exists 8. by apply (Hlive 3).
Defined.
