(* ===== verification/HashSet.v ===== *)
(** * The hash table (sys/container/hashset.c)

    A table of chains of buckets that grows and shrinks along a table of
    capacities.  Removing a key empties its bucket and leaves it in its chain;
    the next change of capacity frees it.  This file translates the code;
    [HashSetCorrect] relates it to a finite map. *)

From S2P Require Import Prelude Pages HeapSpec Block Iterator Array.

(** ** Data *)

Definition hashet_capacity : list Z :=
  [5; 11; 23; 41; 67; 113; 199; 317; 521; 839; 1361; 2207; 3571; 5779; 9349; 15121;
   24473; 39607; 64081; 103681; 167759; 271429; 439199; 710641; 1149857; 1860503; 3010349;
   4870843; 7881193; 12752029; 20633237; 33385273; 54018521; 87403763; 141422317; 228826121;
   370248451; 599074561; 969323023; 1568397599; 2537720629; 4106118251].

Definition hashset_maxCount : list Z :=
  [4; 8; 17; 29; 47; 76; 123; 199; 322; 521; 843; 1364; 2207; 3571; 5778; 9349;
   15127; 24476; 39603; 64079; 103682; 167761; 271443; 439204; 710647; 1149851; 1860498;
   3010349; 4870847; 7881196; 12752043; 20633239; 33385282; 54018521; 87403803; 141422324;
   228826127; 370248451; 599074578; 969323029; 1568397607; 2537720636].

Definition capacity_at (i : nat) : Z := nth i hashet_capacity 0.
Definition maxCount_at (i : nat) : Z := nth i hashset_maxCount 0.

Record bucket := Bucket { b_key : Z; b_data : Z; b_overflow : Z }.

Record hashset_t := Hashset {
  hs_capacity : Z;
  hs_count : Z;
  hs_buckets : Z;
  hs_cells : block;  (* the array at [buckets] *)
  hs_lock : bool
}.

Definition sizeof_hashset : Z := 24.
Definition sizeof_bucket : Z := 12.

Abbreviation buckets := (gmap Z bucket).

(** ** Hashing functions *)

Definition hash_pointer (key : Z) : Z := key.

Definition hash_integer (key : Z) : Z :=
  let ikey := u32 key in
  let ikey := u32 (Z.lxor (Z.shiftr ikey 16) ikey * 0x45D9F3B) in
  let ikey := u32 (Z.lxor (Z.shiftr ikey 16) ikey * 0x45D9F3B) in
  Z.lxor (Z.shiftr ikey 16) ikey.

Definition hash_pointerCompare (key1 key2 : Z) : outcome bool := Ok (key1 =? key2).
Definition hash_integerCompare (key1 key2 : Z) : outcome bool := Ok (key1 =? key2).

(** The functions on strings read memory: [string_at] is the bytes up to the
    terminator of the string at an address, if there is one. *)
Section Strings.
Context (string_at : Z -> option (list Z)).

Definition cstring_round (result byte : Z) : Z :=
  let result := u32 (result + byte) in
  let result := u32 (result + u32 (Z.shiftl result 10)) in
  u32 (result + Z.shiftr result 6).

Definition hash_cstring (key : Z) : outcome Z :=
  let* string := of_option (string_at key) in
  let result := fold_left cstring_round string 0 in
  let result := u32 (result + u32 (Z.shiftl result 3)) in
  let result := u32 (result + Z.shiftr result 11) in
  Ok (u32 (result + u32 (Z.shiftl result 15))).

(** [strcmp] answers for null pointers without reading them. *)
Definition hash_cstringCompare (key1 key2 : Z) : outcome bool :=
  if (key1 =? NULL) || (key2 =? NULL) then Ok false else
  let* s1 := of_option (string_at key1) in
  let* s2 := of_option (string_at key2) in
  Ok (bool_decide (s1 = s2)).
End Strings.

(** [memset(buckets, 0, ...)] over the array of a table. *)
Definition table_size (capacity : Z) : Z := u32 (capacity * sizeof_pointer).
Definition empty_table (capacity : Z) : block := replicate (Z.to_nat (table_size capacity / sizeof_pointer)) (Some 0).

Section HashSet.
Context {H : Type} `{KernelHeap H}.
Context (hashFunction : Z -> outcome Z) (compareFunction : Z -> Z -> outcome bool).

(** ** Making *)

(** [for(int i=1; i<42; i++) if(hashet_capacity[i] > capacity || i == 41) ...] *)
Fixpoint pick_capacity (n i : nat) (capacity : Z) : Z :=
  match n with
  | O => capacity
  | S n' =>
      if (capacity <? capacity_at i) || (i =? 41)%nat then capacity_at (i - 1)
      else pick_capacity n' (S i) capacity
  end.

Definition hashset_create (h : H) (capacity : Z) : outcome (option (Z * hashset_t) * H) :=
  let* (set, h) := halloc h sizeof_hashset in
  if set =? NULL then Ok (None, h) else
  let capacity := pick_capacity 41 1 capacity in
  let* (bs, h) := halloc h (table_size capacity) in
  if bs =? NULL then
    let* h := hfree h set in Ok (None, h)
  else Ok (Some (set, Hashset capacity 0 bs (empty_table capacity) false), h).

(** ** Finding *)

(** [while(bucket) { if(compare(bucket->key, key)) return bucket; ... }].  A
    chain visits each bucket once, so the number of buckets is enough fuel. *)
Fixpoint find_walk (fuel : nat) (st : buckets) (b key : Z) : outcome (option Z) :=
  if b =? NULL then Ok None else
  match fuel with
  | O => Hang
  | S f =>
      let* bk := of_option (st !! b) in
      let* same := compareFunction (b_key bk) key in
      if same then Ok (Some b) else find_walk f st (b_overflow bk) key
  end.

Definition chain_index (s : hashset_t) (key : Z) : outcome Z :=
  let* hash := hashFunction key in
  if hs_capacity s =? 0 then Fault else Ok (hash mod hs_capacity s).

Definition hashset_findBucket1 (s : hashset_t) (st : buckets) (key : Z) : outcome (option Z) :=
  let* index := chain_index s key in
  let* first := cell_get (hs_cells s) index in
  find_walk (S (size st)) st first key.

(** The bucket, the table and the heap; the bucket is null when there is no
    memory for a new one. *)
Definition hashset_findBucket2 (h : H) (s : hashset_t) (st : buckets) (key : Z) : outcome (Z * hashset_t * buckets * H) :=
  let* index := chain_index s key in
  let* first := cell_get (hs_cells s) index in
  let* found := find_walk (S (size st)) st first key in
  match found with
  | Some b => Ok (b, s, st, h)
  | None =>
      let* (b, h) := halloc h sizeof_bucket in
      if b =? NULL then Ok (NULL, s, st, h) else
      let* cells := cell_set (hs_cells s) index b in
      Ok (b, Hashset (hs_capacity s) (hs_count s) (hs_buckets s) cells (hs_lock s),
          <[b := Bucket key NULL first]> st, h)
  end.

(** ** Changing the capacity *)

(** The inner loop of [hashset_rehash]: moves one chain to the table [cells]. *)
Fixpoint rehash_chain (fuel : nat) (h : H) (capacity : Z) (cells : block) (st : buckets) (b : Z)
    : outcome (block * buckets * H) :=
  if b =? NULL then Ok (cells, st, h) else
  match fuel with
  | O => Hang
  | S f =>
      let* bk := of_option (st !! b) in
      if negb (b_key bk =? NULL) then
        let* hash := hashFunction (b_key bk) in
        let index := hash mod capacity in
        let* first := cell_get cells index in
        let* cells := cell_set cells index b in
        rehash_chain f h capacity cells (<[b := Bucket (b_key bk) (b_data bk) first]> st) (b_overflow bk)
      else
        let* h := hfree h b in
        rehash_chain f h capacity cells (delete b st) (b_overflow bk)
  end.

(** The outer loop, over [n] chains of the old table from [i] on. *)
Fixpoint rehash_from (n : nat) (h : H) (capacity : Z) (old : block) (i : Z) (cells : block) (st : buckets)
    : outcome (block * buckets * H) :=
  match n with
  | O => Ok (cells, st, h)
  | S n' =>
      let* b := cell_get old i in
      let* (cells, st, h) := rehash_chain (S (size st)) h capacity cells st b in
      rehash_from n' h capacity old (i + 1) cells st
  end.

Definition hashset_rehash (h : H) (s : hashset_t) (st : buckets) (capacity : Z) : outcome (hashset_t * buckets * H) :=
  let* (bs, h) := halloc h (table_size capacity) in
  if bs =? NULL then Ok (s, st, h) else
  let* (cells, st, h) := rehash_from (Z.to_nat (hs_capacity s)) h capacity (hs_cells s) 0 (empty_table capacity) st in
  let* h := hfree h (hs_buckets s) in
  Ok (Hashset capacity (hs_count s) bs cells (hs_lock s), st, h).

(** [for(size_t i=0; i<41; i++)], leaving at the first match. *)
Fixpoint expand_from (n i : nat) (h : H) (s : hashset_t) (st : buckets) : outcome (hashset_t * buckets * H) :=
  match n with
  | O => Ok (s, st, h)
  | S n' =>
      if hs_capacity s =? capacity_at i then
        if maxCount_at i <=? hs_count s then hashset_rehash h s st (capacity_at (i + 1)) else Ok (s, st, h)
      else expand_from n' (S i) h s st
  end.

Definition hashset_expandIfNeeded (h : H) (s : hashset_t) (st : buckets) : outcome (hashset_t * buckets * H) :=
  expand_from 41 0 h s st.

(** [for(size_t i=1; i<41; i++)], which goes on after a match. *)
Fixpoint shrink_from (n i : nat) (h : H) (s : hashset_t) (st : buckets) : outcome (hashset_t * buckets * H) :=
  match n with
  | O => Ok (s, st, h)
  | S n' =>
      let* (s, st, h) :=
        if (hs_capacity s =? capacity_at i) && (hs_count s <=? maxCount_at (i - 1))
        then hashset_rehash h s st (capacity_at (i - 1)) else Ok (s, st, h) in
      shrink_from n' (S i) h s st
  end.

Definition hashset_shrinkIfNeeded (h : H) (s : hashset_t) (st : buckets) : outcome (hashset_t * buckets * H) :=
  shrink_from 40 1 h s st.

(** ** The operations *)

Definition set_hsCount (s : hashset_t) (n : Z) : hashset_t :=
  Hashset (hs_capacity s) n (hs_buckets s) (hs_cells s) (hs_lock s).

Definition hashset_objectForKey (s : hashset_t) (st : buckets) (key : Z) : outcome Z :=
  let* found := hashset_findBucket1 s st key in
  match found with
  | Some b => let* bk := of_option (st !! b) in Ok (b_data bk)
  | None => Ok NULL
  end.

Definition hashset_removeObjectForKey (h : H) (s : hashset_t) (st : buckets) (key : Z) : outcome (hashset_t * buckets * H) :=
  let* found := hashset_findBucket1 s st key in
  match found with
  | Some b =>
      let* bk := of_option (st !! b) in
      hashset_shrinkIfNeeded h (set_hsCount s (u32 (hs_count s - 1))) (<[b := Bucket NULL NULL (b_overflow bk)]> st)
  | None => Ok (s, st, h)
  end.

Definition hashset_setObjectForKey (h : H) (s : hashset_t) (st : buckets) (data key : Z) : outcome (hashset_t * buckets * H) :=
  if data =? NULL then hashset_removeObjectForKey h s st key else
  let* (b, s, st, h) := hashset_findBucket2 h s st key in
  let* bk := if b =? NULL then Fault else of_option (st !! b) in
  if b_data bk =? NULL then
    hashset_expandIfNeeded h (set_hsCount s (u32 (hs_count s + 1))) (<[b := Bucket (b_key bk) data (b_overflow bk)]> st)
  else Ok (s, st, h).

Definition hashset_count (s : hashset_t) : Z := hs_count s.

Definition hashset_lock (s : hashset_t) : outcome hashset_t :=
  if hs_lock s then Hang else Ok (Hashset (hs_capacity s) (hs_count s) (hs_buckets s) (hs_cells s) true).
Definition hashset_unlock (s : hashset_t) : hashset_t :=
  Hashset (hs_capacity s) (hs_count s) (hs_buckets s) (hs_cells s) false.

(** ** Destroying and collecting *)

Fixpoint free_chain (fuel : nat) (h : H) (st : buckets) (b : Z) : outcome (buckets * H) :=
  if b =? NULL then Ok (st, h) else
  match fuel with
  | O => Hang
  | S f =>
      let* bk := of_option (st !! b) in
      let* h := hfree h b in
      free_chain f h (delete b st) (b_overflow bk)
  end.

Fixpoint free_chains (n : nat) (h : H) (cells : block) (i : Z) (st : buckets) : outcome (buckets * H) :=
  match n with
  | O => Ok (st, h)
  | S n' =>
      let* b := cell_get cells i in
      let* (st, h) := free_chain (S (size st)) h st b in
      free_chains n' h cells (i + 1) st
  end.

Definition hashset_destroy (h : H) (address : Z) (s : hashset_t) (st : buckets) : outcome H :=
  let* (st, h) := free_chains (Z.to_nat (hs_capacity s)) h (hs_cells s) 0 st in
  let* h := hfree h (hs_buckets s) in
  hfree h address.

(** Adds the data of a chain to an array, which may be a null pointer. *)
Fixpoint collect_chain (fuel : nat) (h : H) (a : option array_t) (st : buckets) (b : Z) : outcome (option array_t * H) :=
  if b =? NULL then Ok (a, h) else
  match fuel with
  | O => Hang
  | S f =>
      let* bk := of_option (st !! b) in
      let* (a, h) := if b_data bk =? NULL then Ok (a, h)
                     else let* a := of_option a in
                          let* (a, h) := array_addObject h a (b_data bk) in Ok (Some a, h) in
      collect_chain f h a st (b_overflow bk)
  end.

Fixpoint collect_chains (n : nat) (h : H) (a : option array_t) (cells : block) (i : Z) (st : buckets)
    : outcome (option array_t * H) :=
  match n with
  | O => Ok (a, h)
  | S n' =>
      let* b := cell_get cells i in
      let* (a, h) := collect_chain (S (size st)) h a st b in
      collect_chains n' h a cells (i + 1) st
  end.

Definition hashset_allObjects (h : H) (s : hashset_t) (st : buckets) : outcome (option (Z * array_t) * H) :=
  let* (created, h) := array_create h in
  let* (a, h) := collect_chains (Z.to_nat (hs_capacity s)) h (snd <$> created) (hs_cells s) 0 st in
  Ok (c ← created; a ← a; Some (fst c, a), h).
End HashSet.

(** ** Iterating

    [custom[0]] is the next bucket of the current chain, [custom[1]] the next
    chain, [custom[3]] is zero when the iterator hands out the data and not the
    keys. *)

(** The next bucket of a chain that holds data. *)
Fixpoint next_in_chain (fuel : nat) (st : buckets) (b : Z) : outcome (option bucket) :=
  if b =? NULL then Ok None else
  match fuel with
  | O => Hang
  | S f =>
      let* bk := of_option (st !! b) in
      if b_data bk =? NULL then next_in_chain f st (b_overflow bk) else Ok (Some bk)
  end.

(** [while(index < set->capacity)], [n] rounds at most: the bucket found and
    the index of its chain. *)
Fixpoint next_chain (n : nat) (s : hashset_t) (st : buckets) (index : Z) : outcome (option (bucket * Z)) :=
  match n with
  | O => Ok None
  | S n' =>
      let* b := cell_get (hs_cells s) index in
      let* found := next_in_chain (S (size st)) st b in
      match found with
      | Some bk => Ok (Some (bk, index))
      | None => next_chain n' s st (index + 1)
      end
  end.

(** The object, and the new [custom[0]] and [custom[1]]. *)
Definition hashset_iteratorGetNextObject (s : hashset_t) (st : buckets) (b index : Z) (object : bool) : outcome (Z * Z * Z) :=
  let value bk := if object then b_data bk else b_key bk in
  let* found := next_in_chain (S (size st)) st b in
  match found with
  | Some bk => Ok (value bk, b_overflow bk, index)
  | None =>
      let* found := next_chain (Z.to_nat (hs_capacity s - index)) s st index in
      match found with
      | Some (bk, i) => Ok (value bk, b_overflow bk, u32 (i + 1))
      | None => Ok (NULL, 0, index)
      end
  end.

Fixpoint hashset_fetchLoop (n : nat) (s : hashset_t) (st : buckets) (i : Z) (it : iterator_t unit) : outcome (Z * iterator_t unit) :=
  match n with
  | O => Ok (i, it)
  | S n' =>
      let* b := of_option (it_custom it !! 0%nat) in
      let* index := of_option (it_custom it !! 1%nat) in
      let* keys := of_option (it_custom it !! 3%nat) in
      let* (object, b, index) := hashset_iteratorGetNextObject s st (u32 b) (u32 index) (keys =? 0) in
      let custom := <[1%nat := s32 index]> (<[0%nat := s32 b]> (it_custom it)) in
      let it := Iterator (it_data it) custom (it_objects it) (it_objectCount it) (it_index it) (it_objectsLeft it) in
      if object =? NULL then Ok (i, it) else
      let* objects := cell_set (it_objects it) i object in
      hashset_fetchLoop n' s st (u32 (i + 1))
        (Iterator (it_data it) custom objects (it_objectCount it) (it_index it) (it_objectsLeft it))
  end.

Definition hashset_iteratorNextObject (s : hashset_t) (st : buckets) (it : iterator_t unit) (maxObjects : Z) : outcome (Z * iterator_t unit) :=
  hashset_fetchLoop (Z.to_nat maxObjects) s st 0 it.

Definition hashset_iterator {H : Type} `{KernelHeap H} (h : H) : outcome (option (Z * iterator_t unit) * H) := iterator_create h tt.

(** The iterator is used without a test for a null pointer. *)
Definition hashset_keyIterator {H : Type} `{KernelHeap H} (h : H) : outcome (option (Z * iterator_t unit) * H) :=
  let* (created, h) := iterator_create h tt in
  let* (address, it) := of_option created in
  Ok (Some (address, Iterator (it_data it) (<[3%nat := 1]> (it_custom it)) (it_objects it) (it_objectCount it) (it_index it) (it_objectsLeft it)), h).
