(* ===== verification/HashSetCorrect.v ===== *)
(** * The hash table is a finite map

    Relates the chains of buckets of [HashSet] to the finite map of its
    contents, for keys that are compared by identity ([hash_pointerCompare],
    [hash_integerCompare]) and are not null.  A key that is set again keeps its
    first value: that is what the code does. *)

From S2P Require Import Prelude Pages HeapSpec Block CellHeap Array HashSet.

(** ** Chains *)

(** A bucket as the chains see it: address, key and data. *)
Record entry := Entry { e_addr : Z; e_key : Z; e_data : Z }.

Abbreviation addrs es := (e_addr <$> es).

Fixpoint slist (st : buckets) (p : Z) (es : list entry) : Prop :=
  match es with
  | [] => p = NULL
  | e :: es' => p = e_addr e /\ p <> NULL /\
      exists next, st !! p = Some (Bucket (e_key e) (e_data e) next) /\ slist st next es'
  end.

Fixpoint find_entry (key : Z) (es : list entry) : option entry :=
  match es with
  | [] => None
  | e :: es' => if e_key e =? key then Some e else find_entry key es'
  end.

(** Overwrite key and data of the bucket at [a]. *)
Definition upd_entry (a key data : Z) (e : entry) : entry :=
  if e_addr e =? a then Entry a key data else e.

Definition clear_tbl (a : Z) (tbl : list (list entry)) : list (list entry) :=
  (fun es : list entry => upd_entry a NULL NULL <$> es) <$> tbl.

(** The array of chains. *)
Definition table (st : buckets) (cells : block) (tbl : list (list entry)) : Prop :=
  Forall2 (fun c es => exists p, c = Some p /\ slist st p es) cells tbl.

Section Chains.
Implicit Types (st : buckets) (es : list entry) (tbl : list (list entry)).

Lemma slist_frame st st' es : forall p,
  (forall a, a ∈ addrs es -> st' !! a = st !! a) -> slist st p es -> slist st' p es.
Proof.
  induction es as [|e es IH]; intros p Hf; cbn; [done|]. intros (-> & Hp & nx & Hn & Hl).
  split_and!; try done. exists nx. rewrite Hf by (cbn; apply elem_of_cons; by left). split; [done|].
  apply IH; [|done]. intros a Ha. apply Hf. cbn. apply elem_of_cons. by right.
Qed.

Lemma slist_lookup st es : forall p e, slist st p es -> e ∈ es ->
  e_addr e <> NULL /\ exists next, st !! e_addr e = Some (Bucket (e_key e) (e_data e) next).
Proof.
  induction es as [|e0 es IH]; intros p e; cbn; [by intros _ ?%elem_of_nil|].
  intros (-> & Hp & nx & Hn & Hl) [->|Hin]%elem_of_cons; [by eauto|]. by eapply IH.
Qed.

Lemma slist_upd st es a k d nx bk : forall p,
  st !! a = Some bk -> b_overflow bk = nx -> slist st p es ->
  slist (<[a := Bucket k d nx]> st) p (upd_entry a k d <$> es).
Proof.
  induction es as [|e es IH]; intros p Ha Hnx; cbn; [done|]. intros (-> & Hp & next & Hn & Hl).
  unfold upd_entry at 1 2 3. destruct (Z.eqb_spec (e_addr e) a) as [<-|Hne]; cbn.
  - split_and!; try done. exists nx. rewrite lookup_insert_eq. split; [done|]. rewrite Ha in Hn. injection Hn as ->.
    cbn in Hnx. subst next. by apply IH.
  - split_and!; try done. exists next. rewrite lookup_insert_ne by congruence. split; [done|]. by apply IH.
Qed.

Lemma upd_addrs a k d es : addrs (upd_entry a k d <$> es) = addrs es.
Proof.
  induction es as [|e es IH]; cbn; [done|]. f_equal; [|done]. unfold upd_entry. by destruct (Z.eqb_spec (e_addr e) a).
Qed.

Lemma bucket_walk_spec st es key : forall fuel p,
  slist st p es -> (length es < fuel)%nat ->
  find_walk hash_pointerCompare fuel st p key = Ok (e_addr <$> find_entry key es).
Proof.
  induction es as [|e es IH]; intros fuel p Hl Hfuel; cbn in Hl, Hfuel.
  - subst p. by destruct fuel.
  - destruct Hl as (-> & Hp & nx & Hn & Hl). destruct fuel as [|fuel]; [lia|]. cbn [find_walk find_entry].
    rewrite (proj2 (Z.eqb_neq _ _)), Hn by done. cbn [of_option obind b_key b_overflow]. unfold hash_pointerCompare. cbn [obind].
    destruct (e_key e =? key); [done|]. apply IH; [done|lia].
Qed.

Lemma find_entry_Some key es e : find_entry key es = Some e -> e ∈ es /\ e_key e = key.
Proof.
  induction es as [|e0 es IH]; cbn; [done|]. destruct (Z.eqb_spec (e_key e0) key) as [E|E].
  - intros [= ->]. split; [apply elem_of_cons; by left|done].
  - intros [Hin ?]%IH. split; [apply elem_of_cons; by right|done].
Qed.

Lemma find_entry_None key es e : find_entry key es = None -> e ∈ es -> e_key e <> key.
Proof.
  induction es as [|e0 es IH]; cbn; [by intros _ ?%elem_of_nil|]. destruct (Z.eqb_spec (e_key e0) key) as [E|E]; [done|].
  intros Hn [->|Hin]%elem_of_cons; [done|]. by apply IH.
Qed.

Lemma table_length st cells tbl : table st cells tbl -> length cells = length tbl.
Proof. apply Forall2_length. Qed.

Lemma table_cell st cells tbl i es : table st cells tbl -> tbl !! i = Some es ->
  exists p, cell_get cells (Z.of_nat i) = Ok p /\ slist st p es.
Proof.
  intros Ht Hi. destruct (Forall2_lookup_r _ _ _ _ _ Ht Hi) as (c & Hc & p & -> & Hl). exists p. split; [|done].
  unfold cell_get. destruct (Z.ltb_spec (Z.of_nat i) 0); [lia|]. by rewrite Nat2Z.id, Hc.
Qed.

Lemma concat_member tbl i es e : tbl !! i = Some es -> e ∈ es -> e ∈ concat tbl.
Proof. intros Hi He. apply list_elem_of_In, List.in_concat. exists es. split; apply list_elem_of_In; [by eapply list_elem_of_lookup_2|done]. Qed.

Lemma concat_in tbl e : e ∈ concat tbl -> exists i es, tbl !! i = Some es /\ e ∈ es.
Proof.
  intros (es & Hes & He)%list_elem_of_In%List.in_concat. apply list_elem_of_In in Hes, He.
  apply list_elem_of_lookup_1 in Hes as [i Hi]. eauto.
Qed.
End Chains.

(** ** Entries and the map they make *)

Record entries_ok (es : list entry) : Prop := {
  eo_nodup : NoDup (addrs es);
  eo_data e : e ∈ es -> e_key e = NULL <-> e_data e = NULL;
  eo_unique e1 e2 : e1 ∈ es -> e2 ∈ es -> e_key e1 = e_key e2 -> e_key e1 <> NULL -> e1 = e2
}.

Definition entries_map (es : list entry) (m : gmap Z Z) : Prop :=
  forall k d, m !! k = Some d <-> k <> NULL /\ exists a, Entry a k d ∈ es.

Definition is_live (e : entry) : bool := negb (e_key e =? NULL).

Section Entries.
Implicit Types (es : list entry) (m : gmap Z Z).

Lemma entries_ok_perm es es' : es ≡ₚ es' -> entries_ok es -> entries_ok es'.
Proof.
  intros Hp [H1 H2 H3]. split.
  - by rewrite <- Hp.
  - intros e. rewrite <- Hp. apply H2.
  - intros e1 e2. rewrite <- Hp. apply H3.
Qed.

Lemma entries_map_perm es es' m : es ≡ₚ es' -> entries_map es m -> entries_map es' m.
Proof. intros Hp Hm k d. rewrite (Hm k d). by setoid_rewrite Hp. Qed.

Lemma entries_ok_filter es : entries_ok es -> entries_ok (filter is_live es).
Proof.
  intros [H1 H2 H3]. split.
  - eapply sublist_NoDup; [exact H1|]. apply fmap_sublist, sublist_filter.
  - intros e [_ He]%list_elem_of_filter. by apply H2.
  - intros e1 e2 [_ He1]%list_elem_of_filter [_ He2]%list_elem_of_filter. by apply H3.
Qed.

Lemma entries_map_filter es m : entries_map es m -> entries_map (filter is_live es) m.
Proof.
  intros Hm k d. rewrite (Hm k d). split; intros [Hk [a Ha]]; (split; [done|]); exists a.
  - apply list_elem_of_filter. split; [|done]. unfold is_live. cbn. by rewrite (proj2 (Z.eqb_neq _ _)).
  - by apply list_elem_of_filter in Ha as [_ ?].
Qed.

(** A new key. *)
Lemma entries_ok_cons es e : entries_ok es -> e_addr e ∉ addrs es -> e_key e <> NULL -> e_data e <> NULL ->
  (forall e', e' ∈ es -> e_key e' <> e_key e) -> entries_ok (e :: es).
Proof.
  intros [H1 H2 H3] Ha Hk Hd Hnew. split.
  - cbn. by apply NoDup_cons.
  - intros e' [->|He]%elem_of_cons; [done|by apply H2].
  - intros e1 e2 [->|He1]%elem_of_cons [->|He2]%elem_of_cons Heq Hne; try done.
    + by destruct (Hnew e2 He2).
    + by destruct (Hnew e1 He1).
    + by apply H3.
Qed.

Lemma entries_map_cons es m a k d : entries_map es m -> k <> NULL -> (forall e, e ∈ es -> e_key e <> k) ->
  entries_map (Entry a k d :: es) (<[k := d]> m) /\ m !! k = None.
Proof.
  intros Hm Hk Hnew. assert (Hnone : m !! k = None).
  { destruct (m !! k) as [d'|] eqn:E; [|done]. apply Hm in E as [_ [b Hb]]. by apply Hnew in Hb. }
  split; [|done]. intros j c. rewrite lookup_insert_Some, (Hm j c). setoid_rewrite elem_of_cons. split.
  - intros [[<- <-]|[Hne [Hj [b Hb]]]]; (split; [done|]); [exists a; by left|exists b; by right].
  - intros [Hj [b [[= -> -> ->]|Hb]]]; [by left|right]. split; [|eauto]. intros <-. by apply Hnew in Hb.
Qed.

(** Emptying a bucket. *)
Lemma entries_ok_clear es a : entries_ok es -> entries_ok (upd_entry a NULL NULL <$> es).
Proof.
  intros [H1 H2 H3]. split.
  - by rewrite upd_addrs.
  - intros e (e0 & -> & He)%list_elem_of_fmap. unfold upd_entry. destruct (_ =? _); [done|by apply H2].
  - intros e1 e2 (f1 & -> & He1)%list_elem_of_fmap (f2 & -> & He2)%list_elem_of_fmap. unfold upd_entry.
    destruct (e_addr f1 =? a), (e_addr f2 =? a); cbn; try done. by apply H3.
Qed.

Lemma addr_unique es e1 e2 : NoDup (addrs es) -> e1 ∈ es -> e2 ∈ es -> e_addr e1 = e_addr e2 -> e1 = e2.
Proof.
  intros Hnd [i Hi]%list_elem_of_lookup_1 [j Hj]%list_elem_of_lookup_1 E.
  assert (i = j) as ->; [|congruence].
  eapply (NoDup_lookup (addrs es)); [done|by rewrite list_lookup_fmap, Hi|rewrite list_lookup_fmap, Hj; cbn; congruence].
Qed.

Lemma entries_map_clear es m e : entries_ok es -> entries_map es m -> e ∈ es -> e_key e <> NULL ->
  entries_map (upd_entry (e_addr e) NULL NULL <$> es) (delete (e_key e) m).
Proof.
  intros [H1 H2 H3] Hm He Hk j c. rewrite lookup_delete_Some, (Hm j c). split.
  - intros [Hne [Hj [b Hb]]]. split; [done|]. exists b. apply list_elem_of_fmap. exists (Entry b j c). split; [|done].
    unfold upd_entry. cbn. destruct (Z.eqb_spec b (e_addr e)) as [E|E]; [|done].
    assert (Entry b j c = e) as <- by (by eapply addr_unique). done.
  - intros [Hj [b (f & E & Hf)%list_elem_of_fmap]]. unfold upd_entry in E.
    destruct (Z.eqb_spec (e_addr f) (e_addr e)) as [Ea|Ea]; [injection E as _ Ej _; by destruct Hj|].
    subst f. cbn in *. split; [|eauto]. intros <-. destruct Ea.
    by rewrite <- (H3 (Entry b (e_key e) c) e Hf He eq_refl Hk).
Qed.
End Entries.

(** ** The table *)

Section Table.
Context (hash : Z -> Z) (Hhash : forall k, 0 <= hash k).
#[local] Abbreviation hashFunction := (fun k => Ok (hash k)).

Definition chain_of (capacity key : Z) : nat := Z.to_nat (hash key mod capacity).

(** Live entries are in the chain their key hashes to. *)
Definition placed (capacity : Z) (tbl : list (list entry)) : Prop :=
  forall i es e, tbl !! i = Some es -> e ∈ es -> e_key e <> NULL -> i = chain_of capacity (e_key e).

Lemma chain_of_lt capacity key : 0 < capacity -> (chain_of capacity key < Z.to_nat capacity)%nat.
Proof. intros Hc. unfold chain_of. pose proof (Z.mod_pos_bound (hash key) capacity Hc). lia. Qed.

Lemma chain_of_Z capacity key : 0 < capacity -> Z.of_nat (chain_of capacity key) = hash key mod capacity.
Proof. intros Hc. unfold chain_of. pose proof (Z.mod_pos_bound (hash key) capacity Hc). lia. Qed.

Lemma find_in_table capacity tbl es key :
  placed capacity tbl -> tbl !! chain_of capacity key = Some es -> key <> NULL ->
  match find_entry key es with
  | Some e => e ∈ concat tbl /\ e_key e = key
  | None => forall e, e ∈ concat tbl -> e_key e <> key
  end.
Proof.
  intros Hp Hi Hk. destruct (find_entry key es) as [e|] eqn:E.
  - apply find_entry_Some in E as [He Hek]. split; [by eapply concat_member|done].
  - intros e (j & es' & Hj & He)%concat_in Hek.
    assert (j = chain_of capacity (e_key e)) as -> by (eapply Hp; eauto; congruence).
    rewrite Hek, Hi in Hj. injection Hj as <-. by eapply find_entry_None.
Qed.

(** ** Rehashing *)

(** Put a live entry in front of its chain. *)
Definition push_entry (capacity : Z) (tbl : list (list entry)) (e : entry) : list (list entry) :=
  if is_live e then
    let i := chain_of capacity (e_key e) in <[i := e :: default [] (tbl !! i)]> tbl
  else tbl.

Lemma concat_insert (tbl : list (list entry)) i es es' e :
  tbl !! i = Some es -> es' = e :: es -> concat (<[i := es']> tbl) ≡ₚ e :: concat tbl.
Proof.
  intros Hi ->. rewrite <- (take_drop_middle tbl i es Hi) at 2. rewrite insert_take_drop by (by eapply lookup_lt_Some).
  rewrite !concat_app. cbn [concat]. rewrite <- app_comm_cons. by rewrite <- Permutation_middle.
Qed.

Lemma push_length capacity tbl e : length (push_entry capacity tbl e) = length tbl.
Proof. unfold push_entry. destruct (is_live e); [by rewrite length_insert|done]. Qed.

Lemma push_concat capacity tbl e : 0 < capacity -> length tbl = Z.to_nat capacity ->
  concat (push_entry capacity tbl e) ≡ₚ filter is_live [e] ++ concat tbl.
Proof.
  intros Hc Hl. unfold push_entry. rewrite filter_cons, filter_nil. destruct (is_live e) eqn:E; cbn; [|done].
  destruct (lookup_lt_is_Some_2 tbl (chain_of capacity (e_key e))) as [es Hes]; [rewrite Hl; by apply chain_of_lt|].
  rewrite Hes. by apply (concat_insert _ _ es).
Qed.

Lemma push_placed capacity tbl e : placed capacity tbl -> placed capacity (push_entry capacity tbl e).
Proof.
  intros Hp. unfold push_entry. destruct (is_live e); [|done]. intros i es e' Hi He Hk.
  destruct (decide (i = chain_of capacity (e_key e))) as [->|Hne].
  - apply list_lookup_insert_Some in Hi as [(_ & <- & Hlt)|(? & _)]; [|done].
    apply elem_of_cons in He as [->|He]; [done|]. destruct (lookup_lt_is_Some_2 tbl _ Hlt) as [es0 Hes].
    rewrite Hes in He. cbn in He. by eapply Hp.
  - rewrite list_lookup_insert_ne in Hi by congruence. by eapply Hp.
Qed.

Definition push_all (capacity : Z) (tbl : list (list entry)) (es : list entry) : list (list entry) :=
  foldl (push_entry capacity) tbl es.

Lemma push_all_spec capacity es : forall tbl, 0 < capacity -> length tbl = Z.to_nat capacity ->
  length (push_all capacity tbl es) = Z.to_nat capacity /\
  concat (push_all capacity tbl es) ≡ₚ filter is_live es ++ concat tbl.
Proof.
  induction es as [|e es IH]; intros tbl Hc Hl; [done|]. unfold push_all. cbn [foldl].
  destruct (IH (push_entry capacity tbl e)) as (H1 & H3); [done|by rewrite push_length|].
  split; [done|]. rewrite H3, push_concat by done. rewrite (filter_cons is_live e es), filter_cons, filter_nil.
  destruct (decide (is_live e)); cbn; [|done]. by rewrite Permutation_middle.
Qed.

Lemma push_all_placed capacity es : forall tbl, placed capacity tbl -> placed capacity (push_all capacity tbl es).
Proof.
  induction es as [|e es IH]; intros tbl Hp; [done|]. unfold push_all. cbn [foldl]. by apply IH, push_placed.
Qed.
End Table.

Lemma table_frame st st' cells tbl :
  (forall a, a ∈ addrs (concat tbl) -> st' !! a = st !! a) -> table st cells tbl -> table st' cells tbl.
Proof.
  intros Hf Ht. apply Forall2_same_length_lookup_2; [by apply Forall2_length in Ht|].
  intros i c es Hc Hes. destruct (Forall2_lookup_lr _ _ _ _ _ _ Ht Hc Hes) as (p & -> & Hl). exists p. split; [done|].
  eapply slist_frame; [|done]. intros a Ha. apply Hf. apply list_elem_of_fmap in Ha as (e & -> & He).
  apply list_elem_of_fmap. exists e. split; [done|]. by eapply concat_member.
Qed.

(** A bucket is put in front of chain [i]. *)
Lemma table_push st cells tbl i es first e :
  table st cells tbl -> tbl !! i = Some es -> cells !! i = Some (Some first) ->
  e_addr e <> NULL -> e_addr e ∉ addrs (concat tbl) ->
  table (<[e_addr e := Bucket (e_key e) (e_data e) first]> st) (<[i := Some (e_addr e)]> cells) (<[i := e :: es]> tbl).
Proof.
  intros Ht Hi Hc Hne Hnin. set (st' := <[_ := _]> st).
  assert (Ht' : table st' cells tbl).
  { eapply table_frame; [|done]. intros a Ha. apply lookup_insert_ne. congruence. }
  apply Forall2_insert; [done|]. exists (e_addr e). split; [done|]. cbn. split_and!; try done.
  exists first. split; [by apply lookup_insert_eq|].
  destruct (Forall2_lookup_lr _ _ _ _ _ _ Ht' Hc Hi) as (p & [= <-] & Hl). done.
Qed.

Section Rehash.
Context {H : Type} `{KernelHeapOk H}.
Context (hash : Z -> Z).
#[local] Abbreviation hashFunction := (fun k => Ok (hash k)).
Implicit Types (h : H) (st : buckets) (es : list entry) (tbl : list (list entry)).

Definition dead_addr es (q : Z) : Prop := exists e, e ∈ es /\ is_live e = false /\ e_addr e = q.

Lemma dead_cons e es q : dead_addr (e :: es) q <-> (is_live e = false /\ e_addr e = q) \/ dead_addr es q.
Proof.
  unfold dead_addr. setoid_rewrite elem_of_cons. split; [naive_solver|].
  intros [[? ?]|(f & ? & ?)]; [exists e|exists f]; naive_solver.
Qed.

Lemma table_step st cells tbl capacity e :
  0 < capacity -> length tbl = Z.to_nat capacity -> table st cells tbl -> is_live e = true ->
  e_addr e <> NULL -> e_addr e ∉ addrs (concat tbl) ->
  exists first cells', cell_get cells (hash (e_key e) mod capacity) = Ok first /\
    cell_set cells (hash (e_key e) mod capacity) (e_addr e) = Ok cells' /\
    table (<[e_addr e := Bucket (e_key e) (e_data e) first]> st) cells' (push_entry hash capacity tbl e).
Proof.
  intros Hc Hl Ht Hlive Hne Hnin. rewrite <- chain_of_Z by done. set (i := chain_of hash capacity (e_key e)).
  assert (Hi : (i < length tbl)%nat) by (rewrite Hl; by apply chain_of_lt).
  destruct (lookup_lt_is_Some_2 tbl i Hi) as [es Hes].
  destruct (Forall2_lookup_r _ _ _ _ _ Ht Hes) as (c & Hcell & first & -> & _).
  exists first, (<[i := Some (e_addr e)]> cells). split_and!.
  - unfold cell_get. destruct (Z.ltb_spec (Z.of_nat i) 0); [lia|]. by rewrite Nat2Z.id, Hcell.
  - rewrite cell_set_in; [done|]. by eapply lookup_lt_Some.
  - unfold push_entry. rewrite Hlive. fold i. rewrite Hes. by apply (table_push st cells tbl i es).
Qed.

Lemma rehash_chain_spec capacity : 0 < capacity -> forall es fuel h cells st p tbl,
  slist st p es -> (length es < fuel)%nat -> table st cells tbl -> length tbl = Z.to_nat capacity ->
  NoDup (addrs (es ++ concat tbl)) -> heap_ok h -> (forall e, e ∈ es -> exists n, live h (e_addr e) n) ->
  exists cells' st' h', rehash_chain hashFunction fuel h capacity cells st p = Ok (cells', st', h') /\
    table st' cells' (push_all hash capacity tbl es) /\ (forall a, a ∉ addrs es -> st' !! a = st !! a) /\
    heap_ok h' /\ forall q n, live h' q n <-> live h q n /\ ~ dead_addr es q.
Proof.
  intros Hcap. induction es as [|e es IH]; intros fuel h cells st p tbl Hl Hfuel Ht Hlen Hnd Hh Hlive; cbn in Hl, Hfuel.
  { subst p. exists cells, st, h. split; [by destruct fuel|]. split_and!; try done. intros q n. split; [|by intros [? _]].
    intros Hq. split; [done|]. by intros (e & ?%elem_of_nil & _). }
  destruct Hl as (-> & Hp & nx & Hn & Hl). destruct fuel as [|fuel]; [lia|]. cbn [rehash_chain].
  rewrite (proj2 (Z.eqb_neq _ _)), Hn by done. cbn [of_option obind b_key b_data b_overflow].
  cbn [app fmap list_fmap] in Hnd. apply NoDup_cons in Hnd as [Hnin Hnd].
  assert (He_es : e_addr e ∉ addrs es) by (intros Hin; apply Hnin; rewrite fmap_app; apply elem_of_app; by left).
  assert (He_tbl : e_addr e ∉ addrs (concat tbl)) by (intros Hin; apply Hnin; rewrite fmap_app; apply elem_of_app; by right).
  assert (Hrest : forall e', e' ∈ es -> exists n, live h (e_addr e') n) by (intros e' He'; apply Hlive, elem_of_cons; by right).
  change (push_all hash capacity tbl (e :: es)) with (push_all hash capacity (push_entry hash capacity tbl e) es).
  destruct (e_key e =? NULL) eqn:Ek; cbn [negb]; cbn [b_key].
  - assert (Hdead : is_live e = false) by (unfold is_live; by rewrite Ek).
    destruct (Hlive e) as [ne Hne]; [apply elem_of_cons; by left|].
    destruct (hfree_ok h _ _ Hh Hne) as (h1 & -> & Hh1 & Hl1). cbn [obind].
    destruct (IH fuel h1 cells (delete (e_addr e) st) nx (push_entry hash capacity tbl e)) as (c' & st' & h' & -> & Ht' & Hst' & Hh' & Hl'); try done; try lia.
    + eapply slist_frame; [|done]. intros a Ha. apply lookup_delete_ne. congruence.
    + unfold push_entry. rewrite Hdead. eapply table_frame; [|done]. intros a Ha. apply lookup_delete_ne. congruence.
    + by rewrite push_length.
    + unfold push_entry. by rewrite Hdead.
    + intros e' He'. destruct (Hrest e' He') as [n' Hn']. exists n'. apply Hl1. split; [done|].
      intros E. apply He_es. rewrite <- E. by apply list_elem_of_fmap_2.
    + exists c', st', h'. split_and!; try done.
      * intros a Ha. cbn in Ha. apply not_elem_of_cons in Ha as [Ha1 Ha2]. rewrite Hst' by done. by apply lookup_delete_ne.
      * intros q n. rewrite Hl', Hl1, dead_cons. split.
        -- intros [[Hq Hqe] Hd]. split; [done|]. intros [[_ E]|Hd']; [by destruct Hqe|done].
        -- intros [Hq Hd]. split_and!; [done|intros ->; apply Hd; by left|intros ?; apply Hd; by right].
  - assert (Hli : is_live e = true) by (unfold is_live; by rewrite Ek).
    destruct (table_step st cells tbl capacity e) as (first & c1 & -> & E2 & Ht1); try done. cbn [obind]. rewrite E2. cbn [obind].
    destruct (IH fuel h c1 (<[e_addr e := Bucket (e_key e) (e_data e) first]> st) nx (push_entry hash capacity tbl e))
      as (c' & st' & h' & -> & Ht' & Hst' & Hh' & Hl'); try done; try lia.
    + eapply slist_frame; [|done]. intros a Ha. apply lookup_insert_ne. congruence.
    + by rewrite push_length.
    + rewrite push_concat, filter_cons, filter_nil by done. rewrite Hli. cbn [decide].
      assert (Hperm : es ++ e :: concat tbl ≡ₚ e :: es ++ concat tbl) by (symmetry; apply Permutation_middle).
      cbn. rewrite Hperm. cbn. by apply NoDup_cons.
    + exists c', st', h'. split_and!; try done.
      * intros a Ha. cbn in Ha. apply not_elem_of_cons in Ha as [Ha1 Ha2]. rewrite Hst' by done. by apply lookup_insert_ne.
      * intros q n. rewrite Hl', dead_cons. split; intros [Hq Hd]; (split; [done|]).
        -- intros [[E _]|?]; [congruence|done].
        -- intros ?. apply Hd. by right.
Qed.

Lemma slist_size st es p : slist st p es -> NoDup (addrs es) -> (length es <= size st)%nat.
Proof.
  intros Hl Hnd. rewrite <- (length_fmap e_addr es), <- (size_list_to_set (C := gset Z) _ Hnd), <- (size_dom (D := gset Z) st).
  apply subseteq_size. intros a (e & -> & He)%elem_of_list_to_set%list_elem_of_fmap. apply elem_of_dom.
  destruct (slist_lookup st es p e Hl He) as (_ & nx & ->). by eexists.
Qed.

Lemma dead_app es es' q : dead_addr (es ++ es') q <-> dead_addr es q \/ dead_addr es' q.
Proof. unfold dead_addr. setoid_rewrite elem_of_app. naive_solver. Qed.

Lemma rehash_from_spec capacity old : 0 < capacity -> forall olds i h cells st tbl,
  (forall j es, olds !! j = Some es -> exists p, cell_get old (i + Z.of_nat j) = Ok p /\ slist st p es) ->
  table st cells tbl -> length tbl = Z.to_nat capacity -> NoDup (addrs (concat olds ++ concat tbl)) ->
  heap_ok h -> (forall e, e ∈ concat olds -> exists n, live h (e_addr e) n) ->
  exists cells' st' h', rehash_from hashFunction (length olds) h capacity old i cells st = Ok (cells', st', h') /\
    table st' cells' (push_all hash capacity tbl (concat olds)) /\
    heap_ok h' /\ forall q n, live h' q n <-> live h q n /\ ~ dead_addr (concat olds) q.
Proof.
  intros Hcap. induction olds as [|es olds IH]; intros i h cells st tbl Hold Ht Hlen Hnd Hh Hlive; cbn [length rehash_from concat].
  { exists cells, st, h. split_and!; try done. intros q n. split; [|by intros [? _]]. intros Hq. split; [done|].
    by intros (e & ?%elem_of_nil & _). }
  destruct (Hold O es eq_refl) as (p & Ep & Hp). rewrite Z.add_0_r in Ep. rewrite Ep. cbn [obind].
  cbn [concat] in Hnd. rewrite <- app_assoc, fmap_app in Hnd. apply NoDup_app in Hnd as (Hnd1 & Hd1 & Hnd2).
  destruct (rehash_chain_spec capacity Hcap es (S (size st)) h cells st p tbl) as (c1 & st1 & h1 & -> & Ht1 & Hst1 & Hh1 & Hl1); try done.
  - apply Nat.lt_succ_r. by eapply slist_size.
  - rewrite fmap_app. rewrite fmap_app in Hnd2. apply NoDup_app in Hnd2 as (_ & Hd2 & Hnd3). apply NoDup_app.
    split_and!; try done. intros a Ha1 Ha2. apply (Hd1 a Ha1). rewrite fmap_app. apply elem_of_app. by right.
  - intros e He. apply Hlive. cbn. apply elem_of_app. by left.
  - cbn [obind]. destruct (push_all_spec hash capacity es tbl Hcap Hlen) as (Hlen1 & Hperm).
    destruct (IH (i + 1) h1 c1 st1 (push_all hash capacity tbl es)) as (c2 & st2 & h2 & -> & Ht2 & Hh2 & Hl2); try done.
    + intros j es' Hj. destruct (Hold (S j) es' Hj) as (p' & Ep' & Hp'). exists p'.
      split; [rewrite <- Ep'; f_equal; lia|]. eapply slist_frame; [|done]. intros a Ha. apply Hst1.
      intros Ha1. apply (Hd1 a Ha1). rewrite fmap_app. apply elem_of_app. left.
      apply list_elem_of_fmap in Ha as (e & -> & He). apply list_elem_of_fmap_2. by eapply concat_member.
    + rewrite Hperm, !fmap_app. rewrite fmap_app in Hnd2. apply NoDup_app in Hnd2 as (Hndo & Hdo & Hndt).
      apply NoDup_app. split_and!; [done| |apply NoDup_app; split_and!; try done].
      * intros a Ha [Hf|Hf]%elem_of_app; [|by eapply Hdo].
        apply (Hd1 a); [|rewrite fmap_app; apply elem_of_app; by left].
        apply list_elem_of_fmap in Hf as (e & -> & [_ He]%list_elem_of_filter). by apply list_elem_of_fmap_2.
      * eapply sublist_NoDup; [exact Hnd1|]. apply fmap_sublist, sublist_filter.
      * intros a Hf Ha. apply (Hd1 a); [|rewrite fmap_app; apply elem_of_app; by right].
        apply list_elem_of_fmap in Hf as (e & -> & [_ He]%list_elem_of_filter). by apply list_elem_of_fmap_2.
    + intros e He. destruct (Hlive e) as [n Hn]; [cbn; apply elem_of_app; by right|]. exists n. apply Hl1. split; [done|].
      intros (f & Hf & _ & E). apply (Hd1 (e_addr e)).
      * rewrite <- E. by apply list_elem_of_fmap_2.
      * rewrite fmap_app. apply elem_of_app. left. by apply list_elem_of_fmap_2.
    + exists c2, st2, h2. split_and!; try done.
      * unfold push_all. by rewrite foldl_app.
      * intros q n. rewrite Hl2, Hl1, dead_app. tauto.
Qed.
End Rehash.

(** ** The whole structure *)

Section Represents.
Context {H : Type} `{KernelHeapOk H}.
Context (hash : Z -> Z).
#[local] Abbreviation hashFunction := (fun k => Ok (hash k)).
Implicit Types (h : H) (s : hashset_t) (st : buckets) (tbl : list (list entry)) (m : gmap Z Z).

Record hs_table h s st tbl : Prop := {
  ht_capacity : 0 < hs_capacity s;
  ht_length : length tbl = Z.to_nat (hs_capacity s);
  ht_table : table st (hs_cells s) tbl;
  ht_entries : entries_ok (concat tbl);
  ht_placed : placed hash (hs_capacity s) tbl;
  ht_heap : heap_ok h;
  ht_live e : e ∈ concat tbl -> exists n, live h (e_addr e) n;
  ht_array : (exists n, live h (hs_buckets s) n) /\ hs_buckets s ∉ addrs (concat tbl)
}.

(** The allocations that are not part of the table. *)
Definition hs_foreign h s tbl (q n : Z) : Prop := live h q n /\ q <> hs_buckets s /\ q ∉ addrs (concat tbl).

(** The table holds the map [m]; the other allocations of the heap are [F]. *)
Definition hs_rep h s st m (F : Z -> Z -> Prop) : Prop :=
  exists tbl, hs_table h s st tbl /\ entries_map (concat tbl) m /\ hs_count s = Z.of_nat (size m) /\
    forall q n, hs_foreign h s tbl q n <-> F q n.

(** The capacities for which the size of the table in bytes stays in 32 bits. *)
Definition hs_small s : Prop := hs_capacity s <= 2 ^ 27.

Lemma table_size_small c : 0 <= c <= 2 ^ 28 -> table_size c = 4 * c /\ length (empty_table c) = Z.to_nat c.
Proof.
  intros Hc. unfold empty_table, table_size, sizeof_pointer. rewrite u32_small by lia. split; [lia|].
  by rewrite Z.div_mul, length_replicate by lia.
Qed.

Lemma table_empty st n : table st (replicate n (Some 0)) (replicate n []).
Proof. apply Forall2_replicate. by exists 0. Qed.

Lemma concat_empty n : concat (replicate n ([] : list entry)) = [].
Proof. induction n; cbn; [done|]. done. Qed.

Lemma placed_empty c n : placed hash c (replicate n []).
Proof. intros i es e Hi. apply lookup_replicate in Hi as [-> _]. by intros ?%elem_of_nil. Qed.

(** What [hashset_rehash] may do to the table. *)
Definition rehashed h s tbl h' s' st' : Prop := exists tbl', hs_table h' s' st' tbl' /\ hs_count s' = hs_count s /\
  (tbl' = tbl \/ concat tbl' ≡ₚ filter is_live (concat tbl)) /\
  (forall q n, hs_foreign h' s' tbl' q n <-> hs_foreign h s tbl q n).

(** The live entries in their new chains, once the dead ones and the old array
    are freed. *)
Lemma moved_table h s st tbl capacity p k h1 h3 c st' :
  hs_table h s st tbl -> 0 < capacity -> grown h p k h1 ->
  table st' c (push_all hash capacity (replicate (Z.to_nat capacity) []) (concat tbl)) -> heap_ok h3 ->
  (forall q n, live h3 q n <-> (live h1 q n /\ ~ dead_addr (concat tbl) q) /\ q <> hs_buckets s) ->
  rehashed h s tbl h3 (Hashset capacity (hs_count s) p c (hs_lock s)) st'.
Proof.
  intros [] Hcap (_ & Hnew & Hl1) Ht Hh3 Hl3. destruct ht_array0 as [[na Hna] Hanin].
  set (T := push_all hash capacity (replicate (Z.to_nat capacity) []) (concat tbl)) in *.
  destruct (push_all_spec hash capacity (concat tbl) (replicate (Z.to_nat capacity) []) Hcap ltac:(by rewrite length_replicate)) as [HTl HTp].
  fold T in HTl, HTp. rewrite concat_empty, app_nil_r in HTp.
  assert (Hsub : forall e, e ∈ concat T <-> e ∈ concat tbl /\ is_live e = true).
  { intros e. rewrite HTp, list_elem_of_filter, Is_true_true. tauto. }
  assert (Hpnew : p ∉ addrs (concat tbl)).
  { intros (e & -> & He)%list_elem_of_fmap. destruct (ht_live0 e He) as [n Hn]. by eapply Hnew. }
  assert (Hdead : forall e, e ∈ concat T -> ~ dead_addr (concat tbl) (e_addr e)).
  { intros e [He Hlv]%Hsub (f & Hf & Hd & Ea). assert (f = e) by (eapply addr_unique; eauto; apply ht_entries0). congruence. }
  assert (HTsub : forall q, q ∈ addrs (concat T) -> q ∈ addrs (concat tbl)).
  { intros q (e & -> & [He _]%Hsub)%list_elem_of_fmap. by apply list_elem_of_fmap_2. }
  assert (Hpdead : forall q, dead_addr (concat tbl) q -> q ∈ addrs (concat tbl)).
  { intros q (e & He & _ & <-). by apply list_elem_of_fmap_2. }
  exists T. split_and!; [| done | by right |].
  - split; cbn; try done.
    + eapply entries_ok_perm; [symmetry; exact HTp|]. by apply entries_ok_filter.
    + apply push_all_placed, placed_empty.
    + intros e He. destruct (ht_live0 e (proj1 (proj1 (Hsub e) He))) as [n Hn]. exists n. rewrite Hl3, Hl1.
      split_and!; [by left|by apply Hdead|]. intros Ea. apply Hanin. rewrite <- Ea. by apply HTsub, list_elem_of_fmap_2.
    + split; [exists k; rewrite Hl3, Hl1; split_and!; [by right|by intros ?%Hpdead|]|by intros ?%HTsub].
      intros ->. by eapply Hnew.
  - intros q n. unfold hs_foreign. cbn. rewrite Hl3, Hl1. split.
    + intros ((([Hq|[-> _]] & Hd) & Hqb) & Hqp & HqT); [|done]. split_and!; try done.
      intros (e & -> & He)%list_elem_of_fmap. destruct (is_live e) eqn:El; [|apply Hd; by exists e].
      apply HqT, list_elem_of_fmap_2. by apply Hsub.
    + intros (Hq & Hqb & Hqt). split_and!; try done; [by left|by intros ?%Hpdead| |by intros ?%HTsub].
      intros ->. by eapply Hnew.
Qed.

(** Heaps with the same allocations carry the same tables. *)
Lemma hs_table_heap h h' s st tbl : heap_ok h' -> (forall q n, live h' q n <-> live h q n) ->
  hs_table h s st tbl -> hs_table h' s st tbl.
Proof.
  intros Hh' Hl []. destruct ht_array0 as [[n Hn] ?]. split; try done; [|split; [exists n; by apply Hl|done]].
  intros e He. destruct (ht_live0 e He) as [j Hj]. exists j. by apply Hl.
Qed.

Lemma rehash_spec h s st tbl capacity :
  hs_table h s st tbl -> 0 < capacity <= 2 ^ 28 ->
  match hashset_rehash hashFunction h s st capacity with
  | Ok (s', st', h') => rehashed h s tbl h' s' st' /\ (hs_capacity s' = hs_capacity s \/ hs_capacity s' = capacity)
  | Panic => halloc h (table_size capacity) = Panic
  | _ => False
  end.
Proof.
  intros Hr Hcap. pose proof Hr as []. unfold hashset_rehash. destruct (table_size_small capacity ltac:(lia)) as [Hsz Hlen].
  destruct (halloc_result h (table_size capacity) ht_heap0 ltac:(unfold max_request; lia))
    as [E|[(h' & E & Hh' & Hl)|(p & k & h1 & E & Hp & Hk & _ & _ & Hg)]]; rewrite E; cbn [obind]; [done| |].
  { split; [|by left]. exists tbl. split_and!; [by eapply hs_table_heap|done|by left|].
    intros q n. unfold hs_foreign. by rewrite Hl. }
  rewrite (proj2 (Z.eqb_neq _ _)) by done. destruct ht_array0 as [[na Hna] Hanin]. pose proof Hg as (Hh1 & Hnew & Hl1).
  destruct (rehash_from_spec hash capacity (hs_cells s) ltac:(lia) tbl 0 h1 (empty_table capacity) st (replicate (Z.to_nat capacity) []))
    as (c & st' & h2 & Er & Ht & Hh2 & Hl2).
  - intros j es Hj. by apply (table_cell st (hs_cells s) tbl).
  - unfold empty_table. rewrite Hsz. unfold sizeof_pointer. rewrite (Z.mul_comm 4), Z.div_mul by lia. apply table_empty.
  - by rewrite length_replicate.
  - rewrite concat_empty, app_nil_r. apply ht_entries0.
  - done.
  - intros e He. destruct (ht_live0 e He) as [n Hn]. exists n. apply Hl1. by left.
  - rewrite <- ht_length0, Er. cbn [obind].
    destruct (hfree_ok h2 (hs_buckets s) na Hh2) as (h3 & -> & Hh3 & Hl3).
    { apply Hl2. split; [apply Hl1; by left|]. intros (e & He & _ & Ea). apply Hanin. rewrite <- Ea. by apply list_elem_of_fmap_2. }
    cbn [obind]. split; [|by right]. apply (moved_table h s st tbl capacity p k h1); try done; try lia.
    intros q n. by rewrite Hl3, Hl2.
Qed.

(** Every capacity of the table up to the limit, and its neighbours. *)
Lemma capacity_bounds i : (i < 41)%nat -> capacity_at i <= 2 ^ 27 ->
  0 < capacity_at (i + 1) <= 2 ^ 28 /\ ((0 < i)%nat -> 0 < capacity_at (i - 1) <= capacity_at i).
Proof.
  intros Hi.
  assert (Hall : forallb (fun i => implb (capacity_at i <=? 2 ^ 27)
    ((0 <? capacity_at (i + 1)) && (capacity_at (i + 1) <=? 2 ^ 28) &&
     ((i =? 0)%nat || ((0 <? capacity_at (i - 1)) && (capacity_at (i - 1) <=? capacity_at i))))) (seq 0 41) = true)
    by (vm_compute; reflexivity).
  rewrite forallb_forall in Hall. specialize (Hall i ltac:(apply in_seq; lia)). cbn beta in Hall.
  generalize dependent (capacity_at (i - 1)). generalize dependent (capacity_at (i + 1)). generalize (capacity_at i).
  intros a b c Hb Ha. lia.
Qed.

(** The capacities differ. *)
Lemma capacity_distinct i j : (i < j)%nat -> (j < 41)%nat -> capacity_at i <> capacity_at j.
Proof.
  intros Hij Hj. assert (Hall : forallb (fun j => forallb (fun i => negb (capacity_at i =? capacity_at j)) (seq 0 j)) (seq 0 41) = true)
    by (vm_compute; reflexivity).
  rewrite forallb_forall in Hall. specialize (Hall j ltac:(apply in_seq; lia)). rewrite forallb_forall in Hall.
  specialize (Hall i ltac:(apply in_seq; lia)). apply negb_true_iff in Hall. by apply Z.eqb_neq in Hall.
Qed.

(** The heap panics when it is asked for another array of chains. *)
Definition no_table h : Prop := exists i, halloc h (table_size (capacity_at i)) = Panic.

(** It panics when it is asked for a bucket, or for an array of chains after it
    has handed out the bucket. *)
Definition no_room h : Prop :=
  halloc h sizeof_bucket = Panic \/ exists b h1, halloc h sizeof_bucket = Ok (b, h1) /\ no_table h1.

(** The result of an operation that turned the map into [m]; [why] says why it may
    have panicked. *)
Definition now_holds (why : Prop) m F (r : outcome (hashset_t * buckets * H)) : Prop :=
  match r with
  | Ok (s, st, h) => hs_rep h s st m F
  | Panic => why
  | _ => False
  end.

Lemma now_holds_why (P Q : Prop) m F r : (P -> Q) -> now_holds P m F r -> now_holds Q m F r.
Proof. intros HPQ. unfold now_holds. destruct r as [[[? ?] ?]| | |]; auto. Qed.

Lemma rehash_rep h s st m F capacity :
  hs_rep h s st m F -> 0 < capacity <= 2 ^ 28 ->
  now_holds (halloc h (table_size capacity) = Panic) m F (hashset_rehash hashFunction h s st capacity) /\
  match hashset_rehash hashFunction h s st capacity with
  | Ok (s', _, _) => hs_capacity s' = hs_capacity s \/ hs_capacity s' = capacity
  | _ => True
  end.
Proof.
  intros (tbl & Ht & Hm & Hc & HF) Hcap. pose proof (rehash_spec h s st tbl capacity Ht Hcap) as Hr. unfold now_holds.
  destruct (hashset_rehash hashFunction h s st capacity) as [[[s' st'] h']| | |]; try done.
  - destruct Hr as [(tbl' & Ht' & Hc' & Hp & HF') Hcase]. split; [|done]. exists tbl'. split_and!; [done| |congruence|].
    + destruct Hp as [->|Hp]; [done|]. eapply entries_map_perm; [symmetry; exact Hp|]. by apply entries_map_filter.
    + intros q n. by rewrite HF', HF.
Qed.

Lemma expand_from_rep m F n : forall i h s st, (i + n <= 41)%nat -> hs_small s -> hs_rep h s st m F ->
  now_holds (no_table h) m F (expand_from hashFunction n i h s st).
Proof.
  induction n as [|n IH]; intros i h s st Hi Hs Hr; cbn [expand_from]; [done|].
  destruct (Z.eqb_spec (hs_capacity s) (capacity_at i)) as [E|_]; [|apply IH; [lia|done..]].
  destruct (_ <=? _); [|done]. unfold hs_small in Hs. rewrite E in Hs.
  destruct (capacity_bounds i ltac:(lia) Hs) as [Hb _]. destruct (rehash_rep h s st m F _ Hr Hb) as [Hn _]. unfold now_holds in *.
  destruct (hashset_rehash hashFunction h s st _) as [[[s' st'] h']| | |]; try done. by exists (i + 1)%nat.
Qed.

Lemma shrink_rest n : forall i h s st, (forall j, (i <= j < i + n)%nat -> hs_capacity s <> capacity_at j) ->
  shrink_from hashFunction n i h s st = Ok (s, st, h).
Proof.
  induction n as [|n IH]; intros i h s st Hne; cbn [shrink_from]; [done|].
  rewrite (proj2 (Z.eqb_neq _ _)) by (apply Hne; lia). cbn [andb obind]. apply IH. intros j Hj. apply Hne. lia.
Qed.

Lemma shrink_from_rep m F n : forall i h s st, (0 < i)%nat -> (i + n <= 41)%nat -> hs_small s -> hs_rep h s st m F ->
  now_holds (no_table h) m F (shrink_from hashFunction n i h s st).
Proof.
  induction n as [|n IH]; intros i h s st Hpos Hi Hs Hr; cbn [shrink_from]; [done|].
  destruct (Z.eqb_spec (hs_capacity s) (capacity_at i)) as [E|_]; cbn [andb obind]; [|apply IH; [lia|lia|done..]].
  destruct (_ <=? _); cbn [obind]; [|apply IH; [lia|lia|done..]]. pose proof Hs as Hs'. unfold hs_small in Hs'. rewrite E in Hs'.
  destruct (capacity_bounds i ltac:(lia) Hs') as [_ Hb]. specialize (Hb Hpos).
  destruct (rehash_rep h s st m F (capacity_at (i - 1)) Hr ltac:(lia)) as [Hn Hcap]. unfold now_holds in Hn.
  destruct (hashset_rehash hashFunction h s st (capacity_at (i - 1))) as [[[s' st'] h']| | |]; cbn [obind]; try done; [|by exists (i - 1)%nat].
  rewrite shrink_rest; [done|]. intros j Hj. destruct Hcap as [->| ->]; [rewrite E|]; apply capacity_distinct; lia.
Qed.

(** ** The operations *)

Section Operations.
Context (h : H) (s : hashset_t) (st : buckets) (tbl : list (list entry)) (m : gmap Z Z) (key : Z).
Context (Ht : hs_table h s st tbl) (Hm : entries_map (concat tbl) m) (Hkey : key <> NULL).

Lemma key_chain : exists es p, tbl !! chain_of hash (hs_capacity s) key = Some es /\ slist st p es /\
  chain_index hashFunction s key = Ok (Z.of_nat (chain_of hash (hs_capacity s) key)) /\
  cell_get (hs_cells s) (Z.of_nat (chain_of hash (hs_capacity s) key)) = Ok p /\
  find_walk hash_pointerCompare (S (size st)) st p key = Ok (e_addr <$> find_entry key es) /\
  m !! key = e_data <$> find_entry key es.
Proof.
  destruct Ht. destruct (lookup_lt_is_Some_2 tbl (chain_of hash (hs_capacity s) key)) as [es Hes].
  { rewrite ht_length0. by apply chain_of_lt. }
  destruct (table_cell _ _ _ _ _ ht_table0 Hes) as (p & Ep & Hp). exists es, p. split_and!; try done.
  - unfold chain_index. cbn [obind]. rewrite (proj2 (Z.eqb_neq _ _)) by lia. by rewrite chain_of_Z.
  - apply bucket_walk_spec; [done|]. apply Nat.lt_succ_r. eapply slist_size; [done|].
    destruct ht_entries0 as [Hnd _ _]. rewrite <- (take_drop_middle _ _ _ Hes), concat_app, fmap_app in Hnd.
    cbn in Hnd. rewrite fmap_app in Hnd. apply NoDup_app in Hnd as (_ & _ & Hnd). by apply NoDup_app in Hnd as (? & _).
  - pose proof (find_in_table hash _ _ es key ht_placed0 Hes Hkey) as Hf. destruct (find_entry key es) as [e|]; cbn.
    + destruct Hf as [He <-]. apply Hm. split; [done|]. exists (e_addr e). by destruct e.
    + destruct (m !! key) as [d|] eqn:E; [|done]. apply Hm in E as [_ [a Ha]]. by apply Hf in Ha.
Qed.

Lemma find_bucket_spec : exists found,
  hashset_findBucket1 hashFunction hash_pointerCompare s st key = Ok (e_addr <$> found) /\
  m !! key = e_data <$> found /\
  forall e, found = Some e -> e ∈ concat tbl /\ e_key e = key /\
    exists next, st !! e_addr e = Some (Bucket key (e_data e) next).
Proof.
  destruct key_chain as (es & p & Hes & Hl & E1 & E2 & E3 & Emap). exists (find_entry key es). split_and!; try done.
  - unfold hashset_findBucket1. rewrite E1. cbn [obind]. rewrite E2. cbn [obind]. done.
  - intros e [He Hk]%find_entry_Some. split_and!; [by eapply concat_member|done|].
    destruct (slist_lookup st es p e Hl He) as [_ [nx Hn]]. exists nx. by rewrite <- Hk.
Qed.

Lemma get_spec : hashset_objectForKey hashFunction hash_pointerCompare s st key = Ok (default NULL (m !! key)).
Proof.
  destruct find_bucket_spec as (found & E & Emap & Hin). unfold hashset_objectForKey. rewrite E, Emap. cbn [obind].
  destruct found as [e|]; [|done]. cbn. destruct (Hin e eq_refl) as (_ & _ & nx & ->). done.
Qed.

(** Emptying the bucket of an entry. *)
Lemma clear_table e next n : e ∈ concat tbl -> st !! e_addr e = Some (Bucket (e_key e) (e_data e) next) ->
  hs_table h (set_hsCount s n) (<[e_addr e := Bucket NULL NULL next]> st) (clear_tbl (e_addr e) tbl) /\
  (forall q k, hs_foreign h (set_hsCount s n) (clear_tbl (e_addr e) tbl) q k <-> hs_foreign h s tbl q k).
Proof.
  intros He Hst. destruct Ht.
  assert (Hcat : concat (clear_tbl (e_addr e) tbl) = upd_entry (e_addr e) NULL NULL <$> concat tbl) by (symmetry; apply concat_map).
  assert (Haddr : addrs (concat (clear_tbl (e_addr e) tbl)) = addrs (concat tbl)) by (rewrite Hcat; apply upd_addrs).
  split; [split; cbn; try done|].
  - unfold clear_tbl. by rewrite length_fmap.
  - apply Forall2_fmap_r. eapply Forall2_impl; [exact ht_table0|]. intros c es (p & -> & Hl). exists p. split; [done|].
    by eapply slist_upd.
  - rewrite Hcat. by apply entries_ok_clear.
  - intros i es e' Hi He' Hk. unfold clear_tbl in Hi. rewrite list_lookup_fmap in Hi. destruct (tbl !! i) as [es0|] eqn:Ei; [|done]. cbn in Hi.
    injection Hi as <-. apply list_elem_of_fmap in He' as (e0 & -> & He0). unfold upd_entry in *.
    destruct (e_addr e0 =? e_addr e); [done|]. by eapply ht_placed0.
  - intros e' He'. apply (list_elem_of_fmap_2 e_addr) in He'. rewrite Haddr in He'.
    apply list_elem_of_fmap in He' as (e0 & -> & He0). by apply ht_live0.
  - by rewrite Haddr.
  - intros q k. unfold hs_foreign. cbn. by rewrite Haddr.
Qed.

Lemma remove_spec F : hs_small s -> hs_count s = Z.of_nat (size m) -> (forall q n, hs_foreign h s tbl q n <-> F q n) ->
  hs_count s < 2 ^ 32 ->
  now_holds (no_table h) (delete key m) F (hashset_removeObjectForKey hashFunction hash_pointerCompare h s st key).
Proof.
  intros Hs Hc HF Hbound. destruct find_bucket_spec as (found & E & Emap & Hin). unfold hashset_removeObjectForKey. rewrite E.
  cbn [obind]. destruct found as [e|]; cbn [fmap option_fmap option_map] in *.
  - destruct (Hin e eq_refl) as (He & Hk & nx & Hn). rewrite Hn. cbn [of_option obind b_overflow]. subst key.
    destruct (clear_table e nx (u32 (hs_count s - 1)) He Hn) as [Ht' HF'].
    apply shrink_from_rep; [lia|lia|exact Hs|]. eexists. split; [exact Ht'|]. split_and!.
    + unfold clear_tbl. setoid_rewrite <- concat_map. apply entries_map_clear; try done. apply Ht.
    + cbn. rewrite map_size_delete_Some by (by eexists). assert (size m <> 0)%nat.
      { intros Hz%map_size_empty_iff. by rewrite Hz, lookup_empty in Emap. }
      rewrite u32_small; lia.
    + intros q n. by rewrite HF', HF.
  - rewrite delete_id by done. exists tbl. done.
Qed.

(** A new bucket at [p] in front of the key's chain. *)
Lemma add_table p k h1 es first data n :
  tbl !! chain_of hash (hs_capacity s) key = Some es -> hs_cells s !! chain_of hash (hs_capacity s) key = Some (Some first) ->
  find_entry key es = None -> data <> NULL -> p <> NULL -> grown h p k h1 ->
  let tbl' := <[chain_of hash (hs_capacity s) key := Entry p key data :: es]> tbl in
  let s' := Hashset (hs_capacity s) n (hs_buckets s) (<[chain_of hash (hs_capacity s) key := Some p]> (hs_cells s)) (hs_lock s) in
  hs_table h1 s' (<[p := Bucket key data first]> st) tbl' /\
  entries_map (concat tbl') (<[key := data]> m) /\ m !! key = None /\
  (forall q j, hs_foreign h1 s' tbl' q j <-> hs_foreign h s tbl q j).
Proof.
  intros Hes Hcell Hnone Hd Hp (Hh1 & Hnew & Hl1). cbn zeta. destruct Ht.
  pose proof (find_in_table hash _ _ es key ht_placed0 Hes Hkey) as Hnokey. rewrite Hnone in Hnokey.
  set (T := <[_ := _]> tbl). assert (Hperm : concat T ≡ₚ Entry p key data :: concat tbl) by (by apply (concat_insert _ _ es)).
  assert (Hpnew : p ∉ addrs (concat tbl)).
  { intros (e & -> & He)%list_elem_of_fmap. destruct (ht_live0 e He) as [j Hj]. by eapply Hnew. }
  assert (Hpa : p <> hs_buckets s) by (intros ->; destruct ht_array0 as [[j Hj] _]; by eapply Hnew).
  assert (Haddr : forall q, q ∈ addrs (concat T) <-> q = p \/ q ∈ addrs (concat tbl)) by (intros q; rewrite Hperm; apply elem_of_cons).
  destruct (entries_map_cons (concat tbl) m p key data Hm Hkey Hnokey) as [Hm' Hmn].
  split_and!; [split; cbn; try done| |done|].
  - unfold T. by rewrite length_insert.
  - by apply (table_push st (hs_cells s) tbl _ es first (Entry p key data)).
  - eapply entries_ok_perm; [symmetry; exact Hperm|]. by apply entries_ok_cons.
  - intros i es' e Hi He Hk. unfold T in Hi. destruct (decide (i = chain_of hash (hs_capacity s) key)) as [->|Hne].
    + apply list_lookup_insert_Some in Hi as [(_ & <- & _)|(? & _)]; [|done].
      apply elem_of_cons in He as [->|He]; [done|]. by eapply ht_placed0.
    + rewrite list_lookup_insert_ne in Hi by congruence. by eapply ht_placed0.
  - intros e. rewrite Hperm. intros [->|He]%elem_of_cons; [exists k; apply Hl1; by right|].
    destruct (ht_live0 e He) as [j Hj]. exists j. apply Hl1. by left.
  - destruct ht_array0 as [[j Hj] Hna]. split; [exists j; apply Hl1; by left|]. rewrite Haddr. by intros [?|?].
  - eapply entries_map_perm; [symmetry; exact Hperm|done].
  - intros q j. unfold hs_foreign. cbn. rewrite Haddr, Hl1. split.
    + intros ([Hq|[-> _]] & Hqb & Hqt); [|destruct Hqt; by left]. split_and!; try done. intros ?. apply Hqt. by right.
    + intros (Hq & Hqb & Hqt). split_and!; [by left|done|]. intros [->|?]; [by eapply Hnew|done].
Qed.

Lemma set_spec F data : data <> NULL -> hs_small s -> hs_count s = Z.of_nat (size m) ->
  (forall q n, hs_foreign h s tbl q n <-> F q n) -> hs_count s < 2 ^ 31 ->
  let r := hashset_setObjectForKey hashFunction hash_pointerCompare h s st data key in
  now_holds (no_room h) (if decide (is_Some (m !! key)) then m else <[key := data]> m) F r \/
  (r = Fault /\ exists h', halloc h sizeof_bucket = Ok (NULL, h')).
Proof.
  intros Hd Hs Hc HF Hbound r. subst r. unfold hashset_setObjectForKey, hashset_findBucket2.
  rewrite (proj2 (Z.eqb_neq _ _)) by done. destruct key_chain as (es & p & Hes & Hl & E1 & E2 & E3 & Emap).
  rewrite E1. cbn [obind]. rewrite E2. cbn [obind]. rewrite E3. cbn [obind].
  destruct (find_entry key es) as [e|] eqn:Ef; cbn [fmap option_fmap option_map].
  - left. destruct (find_entry_Some _ _ _ Ef) as [He Hk]. destruct (slist_lookup st es p e Hl He) as [_ [nx Hn]].
    cbn [obind]. rewrite (proj2 (Z.eqb_neq (e_addr e) NULL)), Hn by (by eapply slist_lookup). cbn [of_option obind b_data].
    assert (Hde : e_data e <> NULL).
    { intros Hz. apply (eo_data _ (ht_entries _ _ _ _ Ht) e) in Hz; [congruence|by eapply concat_member]. }
    rewrite (proj2 (Z.eqb_neq _ _)) by done. rewrite decide_True by (rewrite Emap; by eexists). by exists tbl.
  - destruct (halloc_result h sizeof_bucket (ht_heap _ _ _ _ Ht) ltac:(done))
      as [E|[(h' & E & _)|(b & k & h1 & E & Hb & Hk & _ & _ & Hg)]]; rewrite E; cbn [obind].
    { by left; left. }
    { right. split; [done|eauto]. }
    left. rewrite (proj2 (Z.eqb_neq _ _)) by done. pose proof (ht_table _ _ _ _ Ht) as Htb.
    destruct (Forall2_lookup_r _ _ _ _ _ Htb Hes) as (c & Hcell & first & -> & _).
    rewrite cell_set_in by (by eapply lookup_lt_Some). cbn [obind].
    rewrite (proj2 (Z.eqb_neq _ _)), lookup_insert_eq by done. cbn [of_option obind b_data b_key b_overflow].
    assert (p = first) as ->. { unfold cell_get in E2. rewrite Nat2Z.id, Hcell in E2. destruct (_ <? _); [done|]. by injection E2. }
    change (NULL =? NULL) with true. cbn iota. rewrite insert_insert_eq.
    destruct (add_table b k h1 es first data (u32 (hs_count s + 1)) Hes Hcell Ef Hd Hb Hg) as (Ht' & Hm' & Hmn & HF').
    eapply now_holds_why; [|apply expand_from_rep; [lia|exact Hs|]]. { intros Hno. right. by exists b, h1. }
    rewrite decide_False by (rewrite Hmn; by intros [? ?]).
    eexists. split; [exact Ht'|]. split_and!; [done| |intros q n; by rewrite HF', HF].
    cbn. rewrite map_size_insert_None, u32_small by (done || lia). lia.
Qed.
End Operations.

(** C22: The hash table refines a finite map on non-null keys compared by
    identity.  A lookup returns the map's value or a null pointer; setting a
    key that is absent adds it and setting one that is present keeps the value
    it has; removing deletes it; [count] is the size of the map.  Growing and
    shrinking along the way lose nothing, free what they replace and touch no
    other allocation.  The operations return unless the heap runs out: it
    panics when the operation asks it for the bucket or for the new array of
    chains ([no_table], [no_room]), or a null pointer from it is followed. *)
Theorem hashset_refines_map h s st m F key data :
  hs_rep h s st m F -> hs_small s -> Z.of_nat (size m) < 2 ^ 31 -> key <> NULL -> data <> NULL ->
  hashset_count s = Z.of_nat (size m) /\
  hashset_objectForKey hashFunction hash_pointerCompare s st key = Ok (default NULL (m !! key)) /\
  now_holds (no_table h) (delete key m) F (hashset_removeObjectForKey hashFunction hash_pointerCompare h s st key) /\
  (let r := hashset_setObjectForKey hashFunction hash_pointerCompare h s st data key in
   now_holds (no_room h) (if decide (is_Some (m !! key)) then m else <[key := data]> m) F r \/
   (r = Fault /\ exists h', halloc h sizeof_bucket = Ok (NULL, h'))).
Proof.
  intros (tbl & Ht & Hm & Hc & HF) Hs Hsz Hk Hd. split_and!.
  - done.
  - by apply (get_spec h s st tbl).
  - apply (remove_spec h s st tbl); try done. lia.
  - apply (set_spec h s st tbl); try done. lia.
Qed.

Lemma free_chain_spec es : forall fuel h st p,
  slist st p es -> (length es < fuel)%nat -> NoDup (addrs es) -> heap_ok h -> (forall e, e ∈ es -> exists n, live h (e_addr e) n) ->
  exists st' h', free_chain fuel h st p = Ok (st', h') /\ heap_ok h' /\ (forall a, a ∉ addrs es -> st' !! a = st !! a) /\
    forall q n, live h' q n <-> live h q n /\ q ∉ addrs es.
Proof.
  induction es as [|e es IH]; intros fuel h st p Hl Hfuel Hnd Hh Hlive; cbn in Hl, Hfuel.
  { subst p. exists st, h. split; [by destruct fuel|]. split_and!; try done. intros q n. split; [|by intros [? _]].
    intros Hq. split; [done|]. apply not_elem_of_nil. }
  destruct Hl as (-> & Hp & nx & Hn & Hl). destruct fuel as [|fuel]; [lia|]. cbn [free_chain].
  rewrite (proj2 (Z.eqb_neq _ _)), Hn by done. cbn [of_option obind b_overflow].
  cbn in Hnd. apply NoDup_cons in Hnd as [Hnin Hnd]. destruct (Hlive e) as [ne Hne]; [apply elem_of_cons; by left|].
  destruct (hfree_ok h _ _ Hh Hne) as (h1 & -> & Hh1 & Hl1). cbn [obind].
  destruct (IH fuel h1 (delete (e_addr e) st) nx) as (st' & h' & -> & Hh' & Hst' & Hl'); try done; try lia.
  - eapply slist_frame; [|done]. intros a Ha. apply lookup_delete_ne. congruence.
  - intros e' He'. destruct (Hlive e') as [n' Hn']; [apply elem_of_cons; by right|]. exists n'. apply Hl1. split; [done|].
    intros E. apply Hnin. rewrite <- E. by apply list_elem_of_fmap_2.
  - exists st', h'. split_and!; try done.
    + intros a Ha. cbn in Ha. apply not_elem_of_cons in Ha as [Ha1 Ha2]. rewrite Hst' by done. by apply lookup_delete_ne.
    + intros q n. cbn. rewrite Hl', Hl1, not_elem_of_cons. tauto.
Qed.

Lemma free_chains_spec cells olds : forall i h st,
  (forall j es, olds !! j = Some es -> exists p, cell_get cells (i + Z.of_nat j) = Ok p /\ slist st p es) ->
  NoDup (addrs (concat olds)) -> heap_ok h -> (forall e, e ∈ concat olds -> exists n, live h (e_addr e) n) ->
  exists st' h', free_chains (length olds) h cells i st = Ok (st', h') /\ heap_ok h' /\
    forall q n, live h' q n <-> live h q n /\ q ∉ addrs (concat olds).
Proof.
  induction olds as [|es olds IH]; intros i h st Hold Hnd Hh Hlive; cbn [length free_chains concat].
  { exists st, h. split_and!; try done. intros q n. split; [|by intros [? _]]. intros Hq. split; [done|]. apply not_elem_of_nil. }
  destruct (Hold O es eq_refl) as (p & Ep & Hp). rewrite Z.add_0_r in Ep. rewrite Ep. cbn [obind].
  cbn [concat] in Hnd. rewrite fmap_app in Hnd. apply NoDup_app in Hnd as (Hnd1 & Hd1 & Hnd2).
  destruct (free_chain_spec es (S (size st)) h st p) as (st1 & h1 & -> & Hh1 & Hst1 & Hl1); try done.
  - apply Nat.lt_succ_r. by eapply slist_size.
  - intros e He. apply Hlive. cbn. apply elem_of_app. by left.
  - cbn [obind]. destruct (IH (i + 1) h1 st1) as (st2 & h2 & -> & Hh2 & Hl2); try done.
    + intros j es' Hj. destruct (Hold (S j) es' Hj) as (p' & Ep' & Hp'). exists p'.
      split; [rewrite <- Ep'; f_equal; lia|]. eapply slist_frame; [|done]. intros a Ha. apply Hst1.
      intros Ha1. apply (Hd1 a Ha1). apply list_elem_of_fmap in Ha as (e & -> & He). apply list_elem_of_fmap_2. by eapply concat_member.
    + intros e He. destruct (Hlive e) as [n Hn]; [cbn; apply elem_of_app; by right|]. exists n. apply Hl1. split; [done|].
      intros Hin. apply (Hd1 _ Hin). by apply list_elem_of_fmap_2.
    + exists st2, h2. split_and!; try done. intros q n. rewrite Hl2, Hl1, fmap_app, elem_of_app. tauto.
Qed.

(** [hashset_destroy] returns having freed every bucket, the array of chains
    and the table itself, each once, and nothing else. *)
Theorem hashset_destroy_frees_all h s st m F address n0 :
  hs_rep h s st m F -> F address n0 ->
  exists h', hashset_destroy h address s st = Ok h' /\ heap_ok h' /\
    forall q n, live h' q n <-> F q n /\ q <> address.
Proof.
  intros (tbl & Ht & Hm & Hc & HF) Ha. pose proof Ht as []. unfold hashset_destroy. rewrite <- ht_length0.
  destruct (free_chains_spec (hs_cells s) tbl 0 h st) as (st1 & h1 & -> & Hh1 & Hl1); try done; [|apply ht_entries0|].
  { intros j es Hj. by apply (table_cell st (hs_cells s) tbl). }
  cbn [obind]. destruct ht_array0 as [[na Hna] Hanin].
  destruct (hfree_ok h1 (hs_buckets s) na Hh1) as (h2 & -> & Hh2 & Hl2); [by apply Hl1|]. cbn [obind].
  apply HF in Ha as (Ha & Hab & Hat).
  destruct (hfree_ok h2 address n0 Hh2) as (h3 & -> & Hh3 & Hl3); [apply Hl2; split; [by apply Hl1|done]|].
  exists h3. split_and!; try done. intros q n. rewrite Hl3, Hl2, Hl1, <- HF. unfold hs_foreign. tauto.
Qed.

Lemma capacity_pos i : (i < 42)%nat -> 0 < capacity_at i.
Proof.
  intros Hi. assert (Hall : forallb (fun i => 0 <? capacity_at i) (seq 0 42) = true) by (vm_compute; reflexivity).
  rewrite forallb_forall in Hall. specialize (Hall i ltac:(apply in_seq; lia)). by apply Z.ltb_lt in Hall.
Qed.

(** The capacity picked is the smallest one or does not exceed the request. *)
Lemma pick_capacity_spec capacity n : forall i, (0 < i)%nat -> (i + n = 42)%nat -> (0 < n)%nat ->
  capacity_at (i - 1) <= Z.max 5 capacity ->
  0 < pick_capacity n i capacity <= Z.max 5 capacity.
Proof.
  induction n as [|n IH]; intros i Hi Hn Hpos Hle; [lia|]. cbn [pick_capacity].
  destruct (Z.ltb_spec capacity (capacity_at i)) as [Hlt|Hge]; cbn [orb].
  { pose proof (capacity_pos (i - 1)). lia. }
  destruct (Nat.eqb_spec i 41) as [->|Hne]; [pose proof (capacity_pos 40); cbn in *; lia|].
  apply IH; [lia|lia|lia|]. replace (S i - 1)%nat with i by lia. lia.
Qed.

(** A fresh table is empty, and its structure and its array are new. *)
Lemma hashset_create_rep h capacity address s h' :
  heap_ok h -> 0 <= capacity <= 2 ^ 27 -> hashset_create h capacity = Ok (Some (address, s), h') ->
  hs_small s /\ exists k, hs_rep h' s ∅ ∅ (fun q n => live h q n \/ (q = address /\ n = k)).
Proof.
  intros Hh Hcap E. unfold hashset_create in E.
  destruct (pick_capacity_spec capacity 41 1 ltac:(lia) ltac:(lia) ltac:(lia) ltac:(change (capacity_at (1 - 1)) with 5; lia)) as [Hc1 Hc2].
  set (c := pick_capacity 41 1 capacity) in *. clearbody c. destruct (table_size_small c ltac:(lia)) as [Hsz Hlen].
  destruct (halloc_result h sizeof_hashset Hh ltac:(done))
    as [E1|[(h1 & E1 & _)|(p & k & h1 & E1 & Hp & Hk & _ & _ & Hh1 & Hnew & Hl)]]; rewrite E1 in E; cbn [obind] in E; try done.
  rewrite (proj2 (Z.eqb_neq _ _)) in E by done.
  destruct (halloc_result h1 (table_size c) Hh1 ltac:(unfold max_request; lia))
    as [E2|[(h2 & E2 & _)|(d & j & h2 & E2 & Hd2 & Hj & _ & _ & Hh2 & Hnew2 & Hl2)]]; rewrite E2 in E; cbn [obind] in E; try done.
  { by destruct (hfree h2 p). }
  rewrite (proj2 (Z.eqb_neq _ _)) in E by done. injection E as <- <- <-.
  split; [unfold hs_small; cbn [hs_capacity]; lia|]. exists k, (replicate (Z.to_nat c) []). split_and!.
  - split; cbn; try done; rewrite ?concat_empty.
    + by rewrite length_replicate.
    + unfold empty_table. rewrite Hsz. unfold sizeof_pointer. rewrite (Z.mul_comm 4), Z.div_mul by lia. apply table_empty.
    + split; [constructor|by intros e ?%elem_of_nil|by intros e ? ?%elem_of_nil].
    + apply placed_empty.
    + by intros e ?%elem_of_nil.
    + split; [exists j; apply Hl2; by right|]. apply not_elem_of_nil.
  - intros q e. rewrite lookup_empty, concat_empty. split; [done|]. intros [_ [a ?%elem_of_nil]]. done.
  - cbn. by rewrite map_size_empty.
  - intros q n. unfold hs_foreign. cbn. rewrite concat_empty, Hl2, Hl. split; [intros ([?|[-> _]] & ? & _); done|].
    intros Hq. split_and!; [by left| |apply not_elem_of_nil]. intros ->. eapply Hnew2, Hl, Hq.
Qed.
End Represents.

(** ** Witnesses *)

(** A table made on the cell heap, with one key set. *)
Definition demo_hash (k : Z) : Z := Z.abs k.
Definition demo_created : outcome (option (Z * hashset_t) * cell_heap) := hashset_create (CellHeap ∅) 0.
Definition demo_set : hashset_t := Hashset 5 0 (2 * slot_size) (replicate 5 (Some 0)) false.
Definition demo_heap2 : cell_heap := CellHeap {[1 := 24; 2 := 20]}.

Lemma demo_created_ok : demo_created = Ok (Some (slot_size, demo_set), demo_heap2).
Proof. vm_compute. reflexivity. Qed.

Lemma demo_set_rep : exists k, hs_rep demo_hash demo_heap2 demo_set ∅ ∅ (fun q n => live (CellHeap ∅) q n \/ (q = slot_size /\ n = k)).
Proof.
  destruct (hashset_create_rep demo_hash (CellHeap ∅) 0 slot_size demo_set demo_heap2) as [_ ?]; [done|lia|exact demo_created_ok|done].
Qed.

Lemma hashset_refines_map_witness :
  exists F, hashset_count demo_set = 0 /\
  hashset_objectForKey (fun k => Ok (demo_hash k)) hash_pointerCompare demo_set ∅ 7 = Ok (default NULL ((∅ : gmap Z Z) !! 7)) /\
  now_holds demo_hash (no_table demo_heap2) (delete 7 ∅) F (hashset_removeObjectForKey (fun k => Ok (demo_hash k)) hash_pointerCompare demo_heap2 demo_set ∅ 7) /\
  (let r := hashset_setObjectForKey (fun k => Ok (demo_hash k)) hash_pointerCompare demo_heap2 demo_set ∅ 42 7 in
   now_holds demo_hash (no_room demo_heap2) (if decide (is_Some ((∅ : gmap Z Z) !! 7)) then ∅ else <[7 := 42]> ∅) F r \/
   (r = Fault /\ exists h', halloc demo_heap2 sizeof_bucket = Ok (NULL, h'))).
Proof.
  destruct demo_set_rep as [k Hr]. eexists.
  apply (hashset_refines_map demo_hash demo_heap2 demo_set ∅ ∅ _ 7 42 Hr); done.
Defined.

Lemma hashset_destroy_frees_all_witness :
  exists F h', hashset_destroy demo_heap2 slot_size demo_set ∅ = Ok h' /\ heap_ok h' /\
    forall q n, live h' q n <-> F q n /\ q <> slot_size.
Proof.
  destruct demo_set_rep as [k Hr]. eexists.
  apply (hashset_destroy_frees_all demo_hash demo_heap2 demo_set ∅ ∅ _ slot_size k Hr). by right.
Defined.
