(* ===== verification/CString.v ===== *)
(** * The kernel's string functions (sys/libc/string.c)

    Byte memory as a map from addresses to bytes; any access outside it is a
    fault.  The file translates string.c and relates its functions to the byte
    lists the strings are. *)

From S2P Require Import Prelude.

Abbreviation mem := (gmap Z Z).

Definition load (m : mem) (p : Z) : outcome Z := of_option (m !! p).
Definition store (m : mem) (p v : Z) : outcome mem :=
  if decide (is_Some (m !! p)) then Ok (<[p := v]> m) else Fault.

(** [char] is signed. *)
Definition char (b : Z) : Z := if b <? 128 then b else b - 256.

(** ** Translation *)

(** [do { *d++ = c; } while(--size != 0);] with [n] rounds left. *)
Fixpoint set_loop (n : nat) (m : mem) (d c : Z) : outcome mem :=
  match n with
  | O => Ok m
  | S n' => let* m := store m d (u8 c) in set_loop n' m (u32 (d + 1)) c
  end.

Definition memset (m : mem) (dst c size : Z) : outcome mem := set_loop (Z.to_nat size) m dst c.

Fixpoint copy_loop (n : nat) (m : mem) (d s : Z) : outcome mem :=
  match n with
  | O => Ok m
  | S n' =>
      let* v := load m s in
      let* m := store m d v in
      copy_loop n' m (u32 (d + 1)) (u32 (s + 1))
  end.

Definition memcpy (m : mem) (dst src size : Z) : outcome mem := copy_loop (Z.to_nat size) m dst src.

(** Loops up to a terminator.  A pointer that has advanced over every byte of
    the memory is back where it started, so the size of the memory is enough
    fuel for any loop that ends. *)
Definition string_fuel (m : mem) : nat := S (size m).

Fixpoint strlen_loop (fuel : nat) (m : mem) (s n : Z) : outcome Z :=
  let* c := load m s in
  if c =? 0 then Ok n else
  match fuel with
  | O => Hang
  | S f => strlen_loop f m (u32 (s + 1)) (u32 (n + 1))
  end.

Definition strlen (m : mem) (string : Z) : outcome Z := strlen_loop (string_fuel m) m string 0.

Fixpoint strcpy_loop (fuel : nat) (m : mem) (dst src : Z) : outcome mem :=
  let* c := load m src in
  let* m := store m dst c in
  let* c := load m src in
  if c =? 0 then Ok m else
  match fuel with
  | O => Hang
  | S f => strcpy_loop f m (u32 (dst + 1)) (u32 (src + 1))
  end.

Definition strcpy (m : mem) (dst src : Z) : outcome (Z * mem) :=
  let* m := strcpy_loop (string_fuel m) m dst src in Ok (dst, m).

(** The first loop of [strlcpy]: the memory, [d], [s] and [n] it ends with. *)
Fixpoint strlcpy_copy (n : nat) (m : mem) (d s : Z) : outcome (mem * Z * Z * nat) :=
  match n with
  | O => Ok (m, d, s, O)
  | S n' =>
      let* c := load m s in
      let* m := store m d c in
      if c =? 0 then Ok (m, u32 (d + 1), u32 (s + 1), n) else strlcpy_copy n' m (u32 (d + 1)) (u32 (s + 1))
  end.

Definition strlcpy (m : mem) (dst src size : Z) : outcome (Z * mem) :=
  let* (m, d, s, n) := strlcpy_copy (Z.to_nat size) m dst src in
  if (n =? 0)%nat then
    let* m := if size =? 0 then Ok m else store m d 0 in
    let* k := strlen_loop (string_fuel m) m s 0 in
    Ok (u32 (u32 (s + k + 1 - src) - 1), m)
  else Ok (u32 (u32 (s - src) - 1), m).

Fixpoint strcmp_loop (fuel : nat) (m : mem) (str1 str2 : Z) : outcome Z :=
  let* c1 := load m str1 in
  let* c2 := load m str2 in
  if c1 =? c2 then
    if c1 =? 0 then Ok 0 else
    match fuel with
    | O => Hang
    | S f => strcmp_loop f m (u32 (str1 + 1)) (u32 (str2 + 1))
    end
  else Ok (char c2 - char c1).

Definition strcmp (m : mem) (str1 str2 : Z) : outcome Z :=
  if str1 =? NULL then Ok (-1) else if str2 =? NULL then Ok 1 else strcmp_loop (string_fuel m) m str1 str2.

Fixpoint strncmp_loop (n : nat) (m : mem) (str1 str2 : Z) : outcome Z :=
  match n with
  | O => Ok 0
  | S n' =>
      let* c1 := load m str1 in
      let* c2 := load m str2 in
      if c1 =? c2 then if c1 =? 0 then Ok 0 else strncmp_loop n' m (u32 (str1 + 1)) (u32 (str2 + 1))
      else Ok (char c2 - char c1)
  end.

Definition strncmp (m : mem) (str1 str2 size : Z) : outcome Z :=
  if str1 =? NULL then Ok (-1) else if str2 =? NULL then Ok 1 else strncmp_loop (Z.to_nat size) m str1 str2.

Fixpoint strstr_loop (fuel : nat) (m : mem) (str1 str2 index length start : Z) : outcome Z :=
  let* c := load m str1 in
  if c =? 0 then Ok NULL else
  match fuel with
  | O => Hang
  | S f =>
      let* k := load m (u32 (str2 + index)) in
      if c =? k then
        let start := if index =? 0 then str1 else start in
        let index := u32 (index + 1) in
        if index =? length then Ok start else strstr_loop f m (u32 (str1 + 1)) str2 index length start
      else strstr_loop f m (u32 (str1 + 1)) str2 0 length start
  end.

Definition strstr (m : mem) (str1 str2 : Z) : outcome Z :=
  let* length := strlen m str2 in strstr_loop (string_fuel m) m str1 str2 0 length NULL.

(** Is [c] among the [n] bytes at [p]? *)
Fixpoint among (n : nat) (m : mem) (p c : Z) : outcome bool :=
  match n with
  | O => Ok false
  | S n' => let* k := load m p in if c =? k then Ok true else among n' m (u32 (p + 1)) c
  end.

Fixpoint strpbrk_loop (fuel : nat) (m : mem) (str1 str2 length : Z) : outcome Z :=
  let* c := load m str1 in
  if c =? 0 then Ok NULL else
  match fuel with
  | O => Hang
  | S f =>
      let* found := among (Z.to_nat length) m str2 c in
      if found then Ok str1 else strpbrk_loop f m (u32 (str1 + 1)) str2 length
  end.

Definition strpbrk (m : mem) (str1 str2 : Z) : outcome Z :=
  let* length := strlen m str2 in strpbrk_loop (string_fuel m) m str1 str2 length.

(** ** Strings in memory *)

(** The bytes [bs] are at [p]. *)
Fixpoint bytes_at (m : mem) (p : Z) (bs : list Z) : Prop :=
  match bs with [] => True | b :: bs' => m !! p = Some b /\ bytes_at m (p + 1) bs' end.

(** The string [s], terminator included, is at [p] and does not wrap around. *)
Definition cstr (m : mem) (p : Z) (s : list Z) : Prop :=
  bytes_at m p (s ++ [0]) /\ Forall (fun c => 0 < c < 256) s /\ 0 <= p /\ p + Z.of_nat (length s) < 2 ^ 32 - 1.

(** The memory with the bytes [bs] put at [p]. *)
Fixpoint write (m : mem) (p : Z) (bs : list Z) : mem :=
  match bs with [] => m | b :: bs' => write (<[p := b]> m) (p + 1) bs' end.

(** [n] mapped bytes at [p], none of them past the end of the address space. *)
Definition room (m : mem) (p : Z) (n : nat) : Prop :=
  0 <= p /\ p + Z.of_nat n < 2 ^ 32 /\ forall i, (i < n)%nat -> is_Some (m !! (p + Z.of_nat i)).

(** ** Proofs *)

Section Strings.
Implicit Types (m : mem) (s bs : list Z) (p : Z).

Lemma bytes_at_lookup m bs : forall p i b, bytes_at m p bs -> bs !! i = Some b -> m !! (p + Z.of_nat i) = Some b.
Proof.
  induction bs as [|c bs IH]; intros p [|i] b; cbn; try done.
  - intros [H _] [= ->]. by rewrite Z.add_0_r.
  - intros [_ H] Hb. rewrite <- (IH (p + 1) i b H Hb). f_equal. lia.
Qed.

Lemma bytes_at_app m bs1 : forall p bs2,
  bytes_at m p (bs1 ++ bs2) <-> bytes_at m p bs1 /\ bytes_at m (p + Z.of_nat (length bs1)) bs2.
Proof.
  induction bs1 as [|b bs1 IH]; intros p bs2; cbn [app bytes_at length]; [rewrite Z.add_0_r; tauto|].
  rewrite IH. replace (p + 1 + Z.of_nat (length bs1)) with (p + Z.of_nat (S (length bs1))) by lia. tauto.
Qed.

Lemma bytes_at_frame m m' bs : forall p,
  (forall i, (i < length bs)%nat -> m' !! (p + Z.of_nat i) = m !! (p + Z.of_nat i)) -> bytes_at m p bs -> bytes_at m' p bs.
Proof.
  induction bs as [|b bs IH]; intros p Hf; cbn; [done|]. intros [Hb Hbs]. split.
  - rewrite <- (Z.add_0_r p). change 0 with (Z.of_nat 0). rewrite Hf by (cbn; lia). by rewrite Z.add_0_r.
  - apply IH; [|done]. intros i Hi. specialize (Hf (S i) ltac:(cbn; lia)).
    by replace (p + 1 + Z.of_nat i) with (p + Z.of_nat (S i)) by lia.
Qed.

(** A stretch of mapped bytes is no longer than the memory. *)
Lemma mapped_size m p n : (forall i, (i < n)%nat -> is_Some (m !! (p + Z.of_nat i))) -> (n <= size m)%nat.
Proof.
  intros Hm. set (l := (fun i => p + Z.of_nat i) <$> seq 0 n).
  assert (Hnd : NoDup l).
  { apply NoDup_fmap_2; [intros x y E; lia|]. apply NoDup_seq. }
  replace n with (length l) by (unfold l; by rewrite length_fmap, length_seq).
  rewrite <- (size_list_to_set (C := gset Z) l Hnd), <- (size_dom (D := gset Z) m).
  apply subseteq_size. intros a (i & -> & Hi)%elem_of_list_to_set%list_elem_of_fmap. apply elem_of_dom, Hm.
  apply elem_of_seq in Hi. lia.
Qed.

Lemma cstr_size m p s : cstr m p s -> (S (length s) <= size m)%nat.
Proof.
  intros [Hb _]. apply (mapped_size m p). intros i Hi.
  destruct (lookup_lt_is_Some_2 (s ++ [0]) i) as [b Hi']; [rewrite length_app; cbn; lia|].
  rewrite (bytes_at_lookup m _ p i b Hb Hi'). by eexists.
Qed.

Lemma cstr_cons m p c s : cstr m p (c :: s) -> load m p = Ok c /\ 0 < c < 256 /\ cstr m (p + 1) s /\ u32 (p + 1) = p + 1.
Proof.
  intros ([Hc Hb] & Hf & Hp & Hl). apply Forall_cons in Hf as [Hc0 Hf]. cbn [length] in Hl. unfold load. rewrite Hc.
  split_and!; try done; try lia; [|rewrite u32_small; lia]. split_and!; try done; lia.
Qed.

Lemma cstr_nil m p : cstr m p [] -> load m p = Ok 0.
Proof. intros ([Hc _] & _). unfold load. by rewrite Hc. Qed.

Lemma strlen_loop_spec s : forall fuel m p n, cstr m p s -> (length s <= fuel)%nat -> 0 <= n -> n + Z.of_nat (length s) < 2 ^ 32 ->
  strlen_loop fuel m p n = Ok (n + Z.of_nat (length s)).
Proof.
  induction s as [|c s IH]; intros fuel m p n Hs Hf Hn Hb.
  - destruct fuel; cbn [strlen_loop]; rewrite (cstr_nil m p Hs); cbn; by rewrite Z.add_0_r.
  - destruct (cstr_cons _ _ _ _ Hs) as (E & Hc & Hs' & Hu). destruct fuel as [|fuel]; [cbn in Hf; lia|]. cbn [strlen_loop length] in *.
    rewrite E. cbn [obind]. rewrite (proj2 (Z.eqb_neq _ _)) by lia. rewrite Hu, (u32_small (n + 1)) by lia.
    rewrite IH by (done || lia). f_equal. lia.
Qed.

Lemma strlen_spec m p s : cstr m p s -> strlen m p = Ok (Z.of_nat (length s)).
Proof.
  intros Hs. unfold strlen, string_fuel. pose proof (cstr_size m p s Hs). pose proof Hs as (_ & _ & ? & ?).
  rewrite (strlen_loop_spec s) by (done || lia). f_equal.
Qed.

(** ** Comparing *)

Lemma char_inj a b : 0 <= a < 256 -> 0 <= b < 256 -> char a = char b -> a = b.
Proof. unfold char. intros Ha Hb. zcases; lia. Qed.

(** The result of comparing two strings: the signed difference of the first two
    characters that differ, second string first. *)
Fixpoint compare_strings (s1 s2 : list Z) : Z :=
  match s1, s2 with
  | [], [] => 0
  | c1 :: s1', c2 :: s2' => if c1 =? c2 then compare_strings s1' s2' else char c2 - char c1
  | [], c2 :: _ => char c2
  | c1 :: _, [] => - char c1
  end.

Lemma compare_strings_zero s1 : forall s2, Forall (fun c => 0 < c < 256) s1 -> Forall (fun c => 0 < c < 256) s2 ->
  compare_strings s1 s2 = 0 <-> s1 = s2.
Proof.
  assert (Hpos : forall c, 0 < c < 256 -> char c <> 0) by (intros c Hc; unfold char; zcases; lia).
  induction s1 as [|c1 s1 IH]; intros [|c2 s2] H1 H2; cbn [compare_strings]; try done.
  - apply Forall_cons in H2 as [Hc _]. specialize (Hpos _ Hc). split; [lia|done].
  - apply Forall_cons in H1 as [Hc _]. specialize (Hpos _ Hc). split; [lia|done].
  - apply Forall_cons in H1 as [Hc1 H1], H2 as [Hc2 H2]. destruct (Z.eqb_spec c1 c2) as [->|Hne].
    + rewrite IH by done. split; [by intros ->|by intros [= ->]].
    + split; [|by intros [= ? _]]. intros E. destruct Hne. symmetry. apply char_inj; lia.
Qed.

Lemma strcmp_loop_spec s1 : forall s2 fuel m p1 p2, cstr m p1 s1 -> cstr m p2 s2 -> (length s1 <= fuel)%nat ->
  strcmp_loop fuel m p1 p2 = Ok (compare_strings s1 s2).
Proof.
  induction s1 as [|c1 s1 IH]; intros s2 fuel m p1 p2 H1 H2 Hf.
  - destruct s2 as [|c2 s2].
    + destruct fuel; cbn [strcmp_loop]; by rewrite (cstr_nil _ _ H1), (cstr_nil _ _ H2).
    + destruct (cstr_cons _ _ _ _ H2) as (E & Hc & _). destruct fuel; cbn [strcmp_loop compare_strings];
        rewrite (cstr_nil _ _ H1), E; cbn [obind]; rewrite (proj2 (Z.eqb_neq _ _)) by lia; f_equal; cbn; lia.
  - destruct (cstr_cons _ _ _ _ H1) as (E1 & Hc1 & H1' & U1). destruct fuel as [|fuel]; [cbn in Hf; lia|]. cbn [strcmp_loop].
    rewrite E1. cbn [obind]. destruct s2 as [|c2 s2].
    + rewrite (cstr_nil _ _ H2). cbn [obind compare_strings]. rewrite (proj2 (Z.eqb_neq _ _)) by lia. f_equal.
    + destruct (cstr_cons _ _ _ _ H2) as (E2 & Hc2 & H2' & U2). rewrite E2. cbn [obind compare_strings].
      destruct (Z.eqb_spec c1 c2) as [->|Hne]; [|done]. rewrite (proj2 (Z.eqb_neq c2 0)) by lia.
      rewrite U1, U2. apply IH; [done|done|cbn in Hf; lia].
Qed.

(** [strcmp] on two strings returns, is zero exactly when they are equal, and
    otherwise is the difference of the first two characters that differ, the
    second string's first (the opposite sign of the C library's). *)
Theorem strcmp_compares m p1 p2 s1 s2 :
  cstr m p1 s1 -> cstr m p2 s2 -> p1 <> NULL -> p2 <> NULL ->
  strcmp m p1 p2 = Ok (compare_strings s1 s2) /\ (strcmp m p1 p2 = Ok 0 <-> s1 = s2).
Proof.
  intros H1 H2 N1 N2. assert (E : strcmp m p1 p2 = Ok (compare_strings s1 s2)).
  { unfold strcmp. rewrite !(proj2 (Z.eqb_neq _ NULL)) by done. apply strcmp_loop_spec; [done..|].
    pose proof (cstr_size _ _ _ H1). unfold string_fuel. lia. }
  split; [done|]. rewrite E. rewrite <- (compare_strings_zero s1 s2) by (apply H1 || apply H2).
  split; [by intros [= ->]|by intros ->].
Qed.
(** ** Writing *)

Lemma write_outside bs : forall m p q, (q < p \/ p + Z.of_nat (length bs) <= q) -> write m p bs !! q = m !! q.
Proof.
  induction bs as [|b bs IH]; intros m p q Hq; cbn [write length] in *; [done|].
  rewrite IH by lia. apply lookup_insert_ne. lia.
Qed.

Lemma write_bytes bs : forall m p, bytes_at (write m p bs) p bs.
Proof.
  induction bs as [|b bs IH]; intros m p; cbn [write bytes_at]; [done|]. split; [|apply IH].
  rewrite write_outside by lia. apply lookup_insert_eq.
Qed.

Lemma write_app bs1 : forall m p bs2, write m p (bs1 ++ bs2) = write (write m p bs1) (p + Z.of_nat (length bs1)) bs2.
Proof.
  induction bs1 as [|b bs1 IH]; intros m p bs2; cbn [app write length]; [by rewrite Z.add_0_r|].
  rewrite IH. f_equal. lia.
Qed.

Lemma write_mapped bs : forall m p q, is_Some (m !! q) -> is_Some (write m p bs !! q).
Proof.
  induction bs as [|b bs IH]; intros m p q Hq; cbn [write]; [done|]. apply IH.
  apply lookup_insert_is_Some'. by right.
Qed.

Lemma room_cons m p n v : room m p (S n) -> store m p v = Ok (<[p := v]> m) /\ u32 (p + 1) = p + 1 /\ room (<[p := v]> m) (p + 1) n.
Proof.
  intros (Hp & Hb & Hr). unfold store. rewrite decide_True.
  2:{ specialize (Hr 0%nat ltac:(lia)). by rewrite Z.add_0_r in Hr. }
  split_and!; try done; [rewrite u32_small; lia|]. split_and!; try lia. intros i Hi.
  apply lookup_insert_is_Some'. right. specialize (Hr (S i) ltac:(lia)).
  by replace (p + 1 + Z.of_nat i) with (p + Z.of_nat (S i)) by lia.
Qed.

Lemma bytes_at_insert m p bs d v : (d < p \/ p + Z.of_nat (length bs) <= d) -> bytes_at m p bs -> bytes_at (<[d := v]> m) p bs.
Proof. intros Hd. apply bytes_at_frame. intros i Hi. apply lookup_insert_ne. lia. Qed.

Lemma cstr_insert m p s d v : (d < p \/ p + Z.of_nat (length s) < d) -> cstr m p s -> cstr (<[d := v]> m) p s.
Proof.
  intros Hd (Hb & H). split; [|done]. apply bytes_at_insert; [|done]. rewrite length_app. cbn. lia.
Qed.

Lemma set_loop_spec c n : forall m d, room m d n -> set_loop n m d c = Ok (write m d (replicate n (u8 c))).
Proof.
  induction n as [|n IH]; intros m d Hr; cbn [set_loop replicate write]; [done|].
  destruct (room_cons m d n (u8 c) Hr) as (-> & -> & Hr'). cbn [obind]. by apply IH.
Qed.

Lemma copy_loop_spec bs : forall m d p, bytes_at m p bs -> room m d (length bs) -> 0 <= p -> p + Z.of_nat (length bs) < 2 ^ 32 ->
  (d <= p \/ p + Z.of_nat (length bs) <= d) -> copy_loop (length bs) m d p = Ok (write m d bs).
Proof.
  induction bs as [|b bs IH]; intros m d p Hb Hr Hp Hl Hd; cbn [copy_loop write length bytes_at] in *; [done|].
  destruct Hb as [E Hb]. unfold load. rewrite E. cbn [of_option obind].
  destruct (room_cons m d _ b Hr) as (-> & -> & Hr'). cbn [obind]. rewrite (u32_small (p + 1)) by lia.
  apply IH; try done; try lia. apply bytes_at_insert; [lia|done].
Qed.

Lemma strcpy_loop_spec s : forall fuel m d p, cstr m p s -> room m d (S (length s)) -> (length s <= fuel)%nat ->
  (d <= p \/ p + Z.of_nat (length s) < d) -> strcpy_loop fuel m d p = Ok (write m d (s ++ [0])).
Proof.
  induction s as [|c s IH]; intros fuel m d p Hs Hr Hf Hd.
  - assert (Hz : load (<[d := 0]> m) p = Ok 0).
    { unfold load. destruct (decide (d = p)) as [->|]; [by rewrite lookup_insert_eq|].
      rewrite lookup_insert_ne by done. apply (cstr_nil m p Hs). }
    destruct (room_cons m d _ 0 Hr) as (Es & _). destruct fuel; cbn [strcpy_loop]; rewrite (cstr_nil m p Hs);
      cbn [obind]; rewrite Es; cbn [obind]; by rewrite Hz.
  - destruct (cstr_cons _ _ _ _ Hs) as (E & Hc & Hs' & Hu). destruct (room_cons m d _ c Hr) as (Es & Ud & Hr').
    cbn [length] in *. destruct fuel as [|fuel]; [lia|]. cbn [strcpy_loop app write]. rewrite E. cbn [obind]. rewrite Es. cbn [obind].
    replace (load (<[d := c]> m) p) with (Ok c).
    2:{ unfold load in *. destruct (decide (d = p)) as [->|]; [by rewrite lookup_insert_eq|]. by rewrite lookup_insert_ne. }
    cbn [obind]. rewrite (proj2 (Z.eqb_neq _ _)) by lia. rewrite Hu, Ud. apply IH; try done; try lia.
    apply cstr_insert; [lia|done].
Qed.

(** The copying loop of [strlcpy] puts the first [n] bytes of the string and its
    terminator at the destination. *)
Lemma strlcpy_copy_spec s : forall n m d p, cstr m p s -> room m d (n `min` S (length s)) ->
  (d < p \/ p + Z.of_nat (length s) < d) ->
  strlcpy_copy n m d p =
    let k := Z.of_nat (n `min` S (length s)) in Ok (write m d (take n (s ++ [0])), d + k, p + k, (n - length s)%nat).
Proof.
  induction s as [|c s IH]; intros [|n] m d p Hs Hr Hd; cbn [strlcpy_copy take write app]; try (by rewrite !Z.add_0_r).
  - rewrite (cstr_nil m p Hs). cbn [length] in *. rewrite Nat.min_r in Hr |- * by lia.
    destruct (room_cons m d _ 0 Hr) as (Es & Ud & _). cbn [obind]. rewrite Es. cbn [obind].
    pose proof Hs as (_ & _ & ? & Hb). cbn in Hb. rewrite Ud, (u32_small (p + 1)) by lia. cbn. by rewrite take_nil.
  - destruct (cstr_cons _ _ _ _ Hs) as (E & Hc & Hs' & Hu). cbn [length] in *. rewrite <- Nat.succ_min_distr in Hr |- *.
    destruct (room_cons m d _ c Hr) as (Es & Ud & Hr').
    rewrite E. cbn [obind]. rewrite Es. cbn [obind]. rewrite (proj2 (Z.eqb_neq _ _)) by lia. rewrite Hu, Ud.
    rewrite IH; [|apply cstr_insert; [lia|done]|done|lia]. cbn zeta. cbn [Nat.sub].
    by rewrite Nat2Z.inj_succ, <- !Z.add_1_l, !Z.add_assoc.
Qed.

Lemma room_weaken m p n n' : (n' <= n)%nat -> room m p n -> room m p n'.
Proof. intros Hn (Hp & Hb & Hr). split_and!; try lia. intros i Hi. apply Hr. lia. Qed.

(** What is left of a string past its first [n] characters. *)
Lemma cstr_drop n : forall m p s, (n <= length s)%nat -> cstr m p s -> cstr m (p + Z.of_nat n) (drop n s).
Proof.
  induction n as [|n IH]; intros m p [|c s] Hn Hs; cbn [drop length] in *; try lia; try by rewrite Z.add_0_r.
  destruct (cstr_cons _ _ _ _ Hs) as (_ & _ & Hs' & _). replace (p + Z.of_nat (S n)) with (p + 1 + Z.of_nat n) by lia.
  apply IH; [lia|done].
Qed.

Lemma cstr_write bs : forall m d p s, (d + Z.of_nat (length bs) <= p \/ p + Z.of_nat (length s) < d) -> cstr m p s -> cstr (write m d bs) p s.
Proof.
  induction bs as [|b bs IH]; intros m d p s Hd Hs; cbn [write length] in *; [done|].
  apply IH; [lia|]. apply cstr_insert; [lia|done].
Qed.

Lemma strlcpy_result m dst src size s (n := Z.to_nat size) :
  cstr m src s -> 0 < size < 2 ^ 32 -> room m dst (S (n `min` length s)) ->
  (dst < src \/ src + Z.of_nat (length s) < dst) ->
  strlcpy m dst src size = Ok (Z.of_nat (length s), write m dst (take n s ++ [0])).
Proof.
  intros Hs Hsz Hr Hd. pose proof Hs as (_ & _ & Hp & Hb). unfold strlcpy. fold n.
  rewrite (strlcpy_copy_spec s); [|done|eapply room_weaken; [|exact Hr]; lia|lia].
  cbn zeta. cbn [obind]. destruct (Nat.eqb_spec (n - length s) 0) as [Hz|Hz].
  - rewrite take_app_le, Nat.min_l in * by lia. rewrite (proj2 (Z.eqb_neq _ _)) by lia.
    assert (Hl : length (take n s) = n) by (rewrite length_take; lia).
    assert (Es : store (write m dst (take n s)) (dst + Z.of_nat n) 0 = Ok (write m dst (take n s ++ [0]))).
    { unfold store. rewrite decide_True; [by rewrite write_app, Hl|]. apply write_mapped. apply Hr. lia. }
    rewrite Es. cbn [obind]. set (m' := write m dst (take n s ++ [0])).
    assert (Hs' : cstr m' (src + Z.of_nat n) (drop n s)).
    { apply cstr_write; [rewrite length_app, length_drop, Hl; cbn; lia|]. apply cstr_drop; [lia|done]. }
    pose proof (strlen_spec _ _ _ Hs') as E. unfold strlen in E. rewrite E. cbn [obind]. rewrite length_drop.
    rewrite (u32_small (src + _ + _ + 1 - src)) by lia. rewrite u32_small by lia. do 2 f_equal. lia.
  - rewrite Nat.min_r in * by lia. rewrite !take_ge by (rewrite ?length_app; cbn; lia).
    rewrite (u32_small (src + _ - src)) by lia. rewrite u32_small by lia. do 2 f_equal. lia.
Qed.

(** [strlcpy] returns, with the length of the source (whatever was copied),
    and puts at the destination the first [size] characters and a terminator
    after them: up to [size] + 1 bytes.  Nothing else changes. *)
Theorem strlcpy_spec m dst src size s :
  cstr m src s -> 0 < size < 2 ^ 32 -> room m dst (S (Z.to_nat size `min` length s)) ->
  (dst < src \/ src + Z.of_nat (length s) < dst) ->
  exists m', strlcpy m dst src size = Ok (Z.of_nat (length s), m')
    /\ bytes_at m' dst (take (Z.to_nat size) s ++ [0])
    /\ forall q, (q < dst \/ dst + Z.of_nat (Z.to_nat size `min` length s) < q) -> m' !! q = m !! q.
Proof.
  intros Hs Hsz Hr Hd. set (n := Z.to_nat size) in *. assert (Hn : (0 < n)%nat) by lia.
  set (m' := write m dst (take n s ++ [0])). exists m'. split_and!.
  - by apply strlcpy_result.
  - apply write_bytes.
  - intros q Hq. apply write_outside. rewrite length_app, length_take. cbn. lia.
Qed.

Lemma cstr_written m d s : Forall (fun c => 0 < c < 256) s -> room m d (S (length s)) -> cstr (write m d (s ++ [0])) d s.
Proof. intros Hf (Hd & Hb & _). split_and!; try done; [apply write_bytes|lia]. Qed.

(** [strcpy] returns its destination, which then holds the source string; no
    other byte changes, and [strcmp] finds a copy that does not overlap its
    source equal to it. *)
Theorem strcpy_copies m dst src s :
  cstr m src s -> room m dst (S (length s)) -> (dst <= src \/ src + Z.of_nat (length s) < dst) ->
  exists m', strcpy m dst src = Ok (dst, m') /\ cstr m' dst s
    /\ (forall q, (q < dst \/ dst + Z.of_nat (length s) < q) -> m' !! q = m !! q)
    /\ (dst + Z.of_nat (length s) < src \/ src + Z.of_nat (length s) < dst -> dst <> NULL -> src <> NULL ->
         strcmp m' dst src = Ok 0).
Proof.
  intros Hs Hr Hd. exists (write m dst (s ++ [0])).
  assert (Hw : cstr (write m dst (s ++ [0])) dst s) by (apply cstr_written; [apply Hs|done]).
  assert (Hlen : length (s ++ [0]) = S (length s)) by (rewrite length_app; cbn; lia). split_and!.
  - unfold strcpy. pose proof (cstr_size _ _ _ Hs). rewrite (strcpy_loop_spec s); [done..|unfold string_fuel; lia|done].
  - done.
  - intros q Hq. apply write_outside. lia.
  - intros Hdis N1 N2. assert (Hs' : cstr (write m dst (s ++ [0])) src s) by (apply cstr_write; [lia|done]).
    unfold strcmp. rewrite !(proj2 (Z.eqb_neq _ NULL)) by done.
    pose proof (cstr_size _ _ _ Hw). rewrite (strcmp_loop_spec s s); [|done|done|unfold string_fuel; lia].
    f_equal. apply compare_strings_zero; [apply Hs..|done].
Qed.

(** ** Searching *)

Lemma cstr_byte m p s k b : cstr m p s -> (s ++ [0]) !! k = Some b -> load m (u32 (p + Z.of_nat k)) = Ok b.
Proof.
  intros (Hb & _ & Hp & Hl) Hk. pose proof (lookup_lt_Some _ _ _ Hk) as Hlt. rewrite length_app in Hlt. cbn in Hlt.
  unfold load. rewrite u32_small by lia. by rewrite (bytes_at_lookup m _ p k b Hb Hk).
Qed.

(** The rest [s] of the text at [p], with the first [k] characters of the word [w]
    matched just before it. *)
Lemma strstr_loop_spec w m p2 : cstr m p2 w -> forall s fuel p k start,
  cstr m p s -> (length s <= fuel)%nat -> (k < length w)%nat \/ k = 0%nat -> ((0 < k)%nat -> start = p - Z.of_nat k) ->
  exists r, strstr_loop fuel m p p2 (Z.of_nat k) (Z.of_nat (length w)) start = Ok r
    /\ (r = NULL \/ exists i, r = p - Z.of_nat k + Z.of_nat i /\ w `prefix_of` drop i (take k w ++ s))
    /\ ((k < length w)%nat -> w `prefix_of` take k w ++ s -> r = p - Z.of_nat k).
Proof.
  intros Hw. induction s as [|c s IH]; intros fuel p k start Hs Hf Hk Hst.
  - exists NULL. split_and!; [destruct fuel; cbn [strstr_loop]; by rewrite (cstr_nil m p Hs)|by left|].
    intros Hlt Hpre%prefix_length. rewrite app_nil_r, length_take in Hpre. lia.
  - destruct (cstr_cons _ _ _ _ Hs) as (E & Hc & Hs' & Hu). destruct fuel as [|fuel]; [cbn in Hf; lia|].
    cbn [strstr_loop length] in *. rewrite E. cbn [obind]. rewrite (proj2 (Z.eqb_neq _ _)) by lia.
    destruct (lookup_lt_is_Some_2 (w ++ [0]) k) as [b Hb]; [rewrite length_app; cbn; lia|].
    rewrite (cstr_byte m p2 w k b Hw Hb). cbn [obind]. rewrite Hu. destruct (Z.eqb_spec c b) as [->|Hne].
    + assert (Hlt : (k < length w)%nat).
      { destruct (decide (k < length w)%nat); [done|]. rewrite lookup_app_r in Hb by lia.
        destruct (k - length w)%nat; cbn in Hb; [injection Hb; lia|done]. }
      rewrite lookup_app_l in Hb by done. pose proof (take_S_r w k b Hb) as HS.
      set (st := if Z.of_nat k =? 0 then p else start).
      assert (Est : st = p - Z.of_nat k) by (unfold st; zcases; [lia|apply Hst; lia]).
      pose proof Hw as (_ & _ & ? & ?). rewrite (u32_small (Z.of_nat k + 1)) by lia.
      destruct (Z.eqb_spec (Z.of_nat k + 1) (Z.of_nat (length w))) as [Hl|Hl].
      * exists st. split_and!; [done| |done]. right. exists 0%nat. split; [lia|]. cbn [drop].
        exists s. rewrite (take_ge w (S k)) in HS by lia. transitivity ((take k w ++ [b]) ++ s); [by rewrite <- app_assoc|by f_equal].
      * destruct (IH fuel (p + 1) (S k) st Hs' ltac:(lia) ltac:(lia) ltac:(lia)) as (r & Er & Hr & Hp).
        rewrite HS, <- app_assoc in Hr, Hp. replace (p + 1 - Z.of_nat (S k)) with (p - Z.of_nat k) in * by lia.
        replace (Z.of_nat (S k)) with (Z.of_nat k + 1) in Er by lia. exists r. split_and!; [done|done|].
        intros _. apply Hp. lia.
    + destruct (IH fuel (p + 1) 0%nat start Hs' ltac:(lia) ltac:(lia) ltac:(lia)) as (r & Er & Hr & _). exists r. split_and!; [done| |].
      * destruct Hr as [->|(i & -> & Hi)]; [by left|right]. exists (k + S i)%nat. split; [lia|].
        rewrite drop_app_add' by (rewrite length_take; lia). done.
      * intros Hlt [rest Hrest]. destruct Hne. assert (Hc' : (take k w ++ c :: s) !! k = Some c).
        { rewrite lookup_app_r by (rewrite length_take; lia). rewrite length_take, Nat.min_l, Nat.sub_diag by lia. done. }
        rewrite Hrest, lookup_app_l in Hc' by done. rewrite lookup_app_l in Hb by done. congruence.
Qed.

(** [strstr] returns; a pointer it returns is at an occurrence of the word in
    the text, and a text that starts with the (non-empty) word gives its start. *)
Theorem strstr_sound m p1 p2 s w :
  cstr m p1 s -> cstr m p2 w ->
  exists r, strstr m p1 p2 = Ok r
    /\ (r = NULL \/ exists i, r = p1 + Z.of_nat i /\ w `prefix_of` drop i s)
    /\ (w <> [] -> w `prefix_of` s -> r = p1).
Proof.
  intros Hs Hw. unfold strstr. rewrite (strlen_spec m p2 w Hw). cbn [obind]. pose proof (cstr_size _ _ _ Hs).
  destruct (strstr_loop_spec w m p2 Hw s (string_fuel m) p1 0 NULL Hs) as (r & Er & Hr & Hp);
    [unfold string_fuel; lia|by right|lia|]. rewrite Z.sub_0_r in *. exists r. split_and!; [done|done|].
  intros Hne. apply Hp. destruct w; [done|cbn; lia].
Qed.

Lemma among_spec c w : forall m p, cstr m p w -> among (length w) m p c = Ok (bool_decide (c ∈ w)).
Proof.
  induction w as [|b w IH]; intros m p Hw; cbn [among length]; [done|].
  destruct (cstr_cons _ _ _ _ Hw) as (E & _ & Hw' & Hu). rewrite E. cbn [obind]. rewrite Hu.
  destruct (Z.eqb_spec c b) as [->|Hne].
  - rewrite bool_decide_true; [done|]. apply list_elem_of_here.
  - rewrite IH by done. f_equal. apply bool_decide_ext. rewrite elem_of_cons. tauto.
Qed.

Lemma strpbrk_loop_spec w m p2 : cstr m p2 w -> forall s fuel p, cstr m p s -> (length s <= fuel)%nat ->
  strpbrk_loop fuel m p p2 (Z.of_nat (length w)) =
    Ok (match list_find (.∈ w) s with Some (i, _) => p + Z.of_nat i | None => NULL end).
Proof.
  intros Hw. induction s as [|c s IH]; intros fuel p Hs Hf.
  - destruct fuel; cbn [strpbrk_loop]; by rewrite (cstr_nil m p Hs).
  - destruct (cstr_cons _ _ _ _ Hs) as (E & Hc & Hs' & Hu). destruct fuel as [|fuel]; [cbn in Hf; lia|].
    cbn [strpbrk_loop list_find length] in *. rewrite E. cbn [obind]. rewrite (proj2 (Z.eqb_neq _ _)) by lia.
    rewrite Nat2Z.id, (among_spec c w m p2 Hw). cbn [obind]. destruct (decide (c ∈ w)) as [Hin|Hin].
    + rewrite bool_decide_true by done. f_equal. lia.
    + rewrite bool_decide_false by done. rewrite Hu, IH by (done || lia). f_equal.
      destruct (list_find _ s) as [[i x]|]; cbn; [lia|done].
Qed.

(** [strpbrk] returns a pointer to the first character of the text that is in
    the set, and [NULL] exactly when there is none. *)
Theorem strpbrk_first m p1 p2 s w :
  cstr m p1 s -> cstr m p2 w ->
  strpbrk m p1 p2 = Ok (match list_find (.∈ w) s with Some (i, _) => p1 + Z.of_nat i | None => NULL end).
Proof.
  intros Hs Hw. unfold strpbrk. rewrite (strlen_spec m p2 w Hw). cbn [obind]. pose proof (cstr_size _ _ _ Hs).
  apply strpbrk_loop_spec; [done|done|unfold string_fuel; lia].
Qed.
End Strings.

(** ** Concrete memories *)

(** "aab" at 100, "ab" at 200 and eight bytes of room at 300. *)
Definition demo_mem : mem := write (write (write ∅ 100 [97; 97; 98; 0]) 200 [97; 98; 0]) 300 (replicate 8 7).

Lemma demo_aab : cstr demo_mem 100 [97; 97; 98].
Proof. split_and!; [by vm_compute|repeat constructor; lia|lia|cbn; lia]. Qed.

Lemma demo_ab : cstr demo_mem 200 [97; 98].
Proof. split_and!; [by vm_compute|repeat constructor; lia|lia|cbn; lia]. Qed.

Lemma demo_room n : (n <= 8)%nat -> room demo_mem 300 n.
Proof.
  intros Hn. split_and!; [lia|lia|]. intros i Hi.
  do 8 (destruct i as [|i]; [by vm_compute; eexists|]). lia.
Qed.

Lemma strcmp_compares_witness :
  strcmp demo_mem 100 200 = Ok (compare_strings [97; 97; 98] [97; 98])
  /\ (strcmp demo_mem 100 200 = Ok 0 <-> [97; 97; 98] = [97; 98]).
Proof. apply (strcmp_compares demo_mem 100 200 _ _ demo_aab demo_ab); discriminate. Defined.

Lemma strlcpy_spec_witness : exists m', strlcpy demo_mem 300 100 2 = Ok (3, m')
  /\ bytes_at m' 300 (take (Z.to_nat 2) [97; 97; 98] ++ [0])
  /\ forall q, (q < 300 \/ 300 + 2 < q) -> m' !! q = demo_mem !! q.
Proof. apply (strlcpy_spec demo_mem 300 100 2 _ demo_aab); [lia|apply demo_room; cbn; lia|cbn; lia]. Defined.

Lemma strcpy_copies_witness : exists m', strcpy demo_mem 300 100 = Ok (300, m') /\ cstr m' 300 [97; 97; 98]
  /\ (forall q, (q < 300 \/ 300 + 3 < q) -> m' !! q = demo_mem !! q)
  /\ (300 + 3 < 100 \/ 100 + 3 < 300 -> 300 <> NULL -> 100 <> NULL -> strcmp m' 300 100 = Ok 0).
Proof. apply (strcpy_copies demo_mem 300 100 _ demo_aab); [apply demo_room; cbn; lia|cbn; lia]. Defined.

Lemma strstr_sound_witness : exists r, strstr demo_mem 200 200 = Ok r
  /\ (r = NULL \/ exists i, r = 200 + Z.of_nat i /\ [97; 98] `prefix_of` drop i [97; 98])
  /\ ([97; 98] <> [] -> [97; 98] `prefix_of` [97; 98] -> r = 200).
Proof. apply (strstr_sound demo_mem 200 200 _ _ demo_ab demo_ab). Defined.

(** "ab" occurs in "aab", and [strstr] does not find it: after a mismatch it
    goes on behind the character that mismatched. *)
Lemma strstr_misses : strstr demo_mem 100 200 = Ok NULL /\ [97; 98] `prefix_of` drop 1 [97; 97; 98].
Proof. split; [by vm_compute|done]. Qed.

Lemma strpbrk_first_witness :
  strpbrk demo_mem 100 200 = Ok (match list_find (.∈ [97; 98]) [97; 97; 98] with Some (i, _) => 100 + Z.of_nat i | None => NULL end).
Proof. apply (strpbrk_first demo_mem 100 200 _ _ demo_aab demo_ab). Defined.
