(* ===== verification/CStdlib.v ===== *)
(** * Number conversion (sys/libc/stdlib.c)

    [atoi] and the four integer printers, on the byte memory of CString.v.
    The printers build the digits backwards in a local array and copy them out
    with [strlcpy]; the array is never terminated, so the copy goes on reading
    behind it.  [atof] is floating point and left out. *)

From S2P Require Import Prelude CString.

(** ** Translation *)

Definition STDLIBBUFFERLENGTH : Z := 128.

Definition isdigit (c : Z) : bool := (48 <=? c) && (c <=? 57).
Definition isspace (c : Z) : bool :=
  (c =? 32) || (c =? 9) || (c =? 10) || (c =? 11) || (c =? 12) || (c =? 13).

Fixpoint skip_space (fuel : nat) (m : mem) (string : Z) : outcome Z :=
  let* c := load m string in
  if isspace (char c) then match fuel with O => Hang | S f => skip_space f m (u32 (string + 1)) end else Ok string.

Fixpoint atoi_loop (fuel : nat) (m : mem) (string result : Z) : outcome Z :=
  let* c := load m string in
  if (c =? 0) || negb (isdigit (char c)) then Ok result else
  let value := char c - 48 in
  let intermediate := s32 (s32 (result * 10) + value) in
  if intermediate <? result then Ok result else
  match fuel with O => Hang | S f => atoi_loop f m (u32 (string + 1)) intermediate end.

Definition atoi (m : mem) (string : Z) : outcome Z :=
  let* string := skip_space (string_fuel m) m string in
  let* c := load m string in
  let negative := c =? 45 in
  let positive := c =? 43 in
  let string := if negative || positive then u32 (string + 1) else string in
  let* result := atoi_loop (string_fuel m) m string 0 in
  Ok (if negative then s32 (- result) else result).

(** Where the compiler put the literal "0" and a printer's local array. *)
Record layout := Layout { at_zero : Z; at_buffer : Z }.

(** The string of digits, its terminator included. *)
Definition digit_chars (lowerCase : bool) : list Z :=
  (Z.add 48 <$> seqZ 0 10) ++ (Z.add (if lowerCase then 97 else 65) <$> seqZ 0 26) ++ [0].

(** The digit loop: the memory, [temp] and [length] it ends with.  A 64-bit number
    has at most 64 digits in any base from 2 on. *)
Fixpoint tostr_loop (fuel : nat) (m : mem) (temp i base : Z) (lowerCase : bool) (length : Z) : outcome (mem * Z * Z) :=
  if i <=? 0 then Ok (m, temp, length) else
  match fuel with
  | O => Hang
  | S f =>
      if base =? 0 then Fault else
      let* d := of_option (digit_chars lowerCase !! Z.to_nat (Z.rem i base)) in
      let temp := u32 (temp - 1) in
      let* m := store m temp d in
      tostr_loop f m temp (Z.quot i base) base lowerCase (length + 1)
  end.

Definition tostr_fuel : nat := 64.

(** What the printers do with a number that is not zero, [i] being its magnitude. *)
Definition tostr (l : layout) (m : mem) (i : Z) (negative : bool) (base buffer : Z) (lowerCase : bool) : outcome (Z * mem) :=
  let temp := u32 (at_buffer l + (STDLIBBUFFERLENGTH - 1)) in
  let* (m, temp, length) := tostr_loop tostr_fuel m temp i base lowerCase 0 in
  let* (m, temp, length) :=
    if negative then
      let temp := u32 (temp - 1) in
      let* m := store m temp 45 in
      Ok (m, temp, length + 1)
    else Ok (m, temp, length) in
  let* (_, m) := strlcpy m buffer temp length in
  Ok (length, m).

Definition print_zero (l : layout) (m : mem) (buffer : Z) : outcome (Z * mem) :=
  let* (_, m) := strlcpy m buffer (at_zero l) 1 in Ok (1, m).

Definition _itostr (l : layout) (m : mem) (i base buffer : Z) (lowerCase : bool) : outcome (Z * mem) :=
  if i =? 0 then print_zero l m buffer else
  let negative := i <? 0 in
  tostr l m (if negative then s32 (- i) else i) negative base buffer lowerCase.

Definition _itostr64 (l : layout) (m : mem) (i base buffer : Z) (lowerCase : bool) : outcome (Z * mem) :=
  if i =? 0 then print_zero l m buffer else
  let negative := i <? 0 in
  tostr l m (if negative then s64 (- i) else i) negative base buffer lowerCase.

Definition _uitostr (l : layout) (m : mem) (i base buffer : Z) (lowerCase : bool) : outcome (Z * mem) :=
  if i =? 0 then print_zero l m buffer else tostr l m i false (u32 base) buffer lowerCase.

Definition _uitostr64 (l : layout) (m : mem) (i base buffer : Z) (lowerCase : bool) : outcome (Z * mem) :=
  if i =? 0 then print_zero l m buffer else tostr l m i false (u64 base) buffer lowerCase.

(** ** Numerals *)

(** The value of a list of digits, the most significant first. *)
Definition value (base : Z) (ds : list Z) : Z := fold_left (fun v d => v * base + d) ds 0.

Definition digit_char (lowerCase : bool) (d : Z) : Z :=
  if d <? 10 then 48 + d else (if lowerCase then 97 else 65) + (d - 10).

(** The text [s] is the numeral of [i]: a sign if it is negative and the digits of
    its magnitude without leading zeros. *)
Definition denotes (base : Z) (lowerCase : bool) (s : list Z) (i : Z) : Prop :=
  exists ds, s = (if i <? 0 then [45] else []) ++ (digit_char lowerCase <$> ds)
    /\ Forall (fun d => 0 <= d < base) ds /\ value base ds = Z.abs i
    /\ ds <> [] /\ (head ds = Some 0 -> ds = [0]).

(** What a printer needs of the memory: the literal, its array with a terminator
    somewhere behind it ([t] is what stands before that), and a destination
    with room for the longest numeral, apart from them. *)
Record printable (l : layout) (m : mem) (buffer : Z) (t : list Z) : Prop := {
  pr_zero : cstr m (at_zero l) [48];
  pr_zero_apart : buffer + 1 < at_zero l \/ at_zero l + 1 < buffer;
  pr_array : room m (at_buffer l) 127;
  pr_tail : cstr m (at_buffer l + 127) t;
  pr_room : room m buffer 66;
  pr_apart : buffer + 66 <= at_buffer l \/ at_buffer l + 127 + Z.of_nat (length t) < buffer
}.

(** The printer returned the length of a numeral of [i] and left it, terminated,
    in the buffer; only the array and the buffer changed. *)
Definition prints (l : layout) (m : mem) (buffer base : Z) (lowerCase : bool) (i : Z) (r : outcome (Z * mem)) : Prop :=
  exists s m', r = Ok (Z.of_nat (length s), m') /\ denotes base lowerCase s i /\ (length s <= 65)%nat /\ cstr m' buffer s
    /\ (forall q, ~ (at_buffer l <= q < at_buffer l + 127) -> ~ (buffer <= q < buffer + 66) -> m' !! q = m !! q)
    /\ (forall q, is_Some (m !! q) -> is_Some (m' !! q)).

(** ** Printing *)

Lemma value_snoc base ds d : value base (ds ++ [d]) = value base ds * base + d.
Proof. unfold value. by rewrite fold_left_app. Qed.

Lemma digit_chars_lookup lower d : 0 <= d < 36 -> digit_chars lower !! Z.to_nat d = Some (digit_char lower d).
Proof.
  intros Hd. unfold digit_chars, digit_char. rewrite !lookup_app. zcases.
  - rewrite list_lookup_fmap, lookup_seqZ_lt by lia. cbn. f_equal. lia.
  - rewrite list_lookup_fmap, lookup_seqZ_ge by lia. cbn. rewrite length_fmap, length_seqZ.
    rewrite list_lookup_fmap, lookup_seqZ_lt by lia. cbn. f_equal. lia.
Qed.

Lemma digit_char_range lower d : 0 <= d < 36 -> 0 < digit_char lower d < 256.
Proof. intros. unfold digit_char. destruct lower; zcases; lia. Qed.

Lemma write_insert_comm bs : forall m p q v, (q < p \/ p + Z.of_nat (length bs) <= q) ->
  write (<[q := v]> m) p bs = <[q := v]> (write m p bs).
Proof.
  induction bs as [|b bs IH]; intros m p q v Hq; cbn [write length] in *; [done|].
  rewrite <- IH by lia. f_equal. apply insert_insert_ne. lia.
Qed.

Lemma tostr_loop_spec lower base : 2 <= base <= 36 -> forall fuel m temp i len,
  0 <= i < 2 ^ Z.of_nat fuel -> Z.of_nat fuel <= temp < 2 ^ 32 ->
  (forall q, temp - Z.of_nat fuel <= q < temp -> is_Some (m !! q)) ->
  exists ds, let n := Z.of_nat (length ds) in
    tostr_loop fuel m temp i base lower len = Ok (write m (temp - n) (digit_char lower <$> ds), temp - n, len + n)
    /\ Forall (fun d => 0 <= d < base) ds /\ value base ds = i /\ (length ds <= fuel)%nat
    /\ (i = 0 -> ds = []) /\ (0 < i -> ds <> [] /\ head ds <> Some 0).
Proof.
  intros Hb. induction fuel as [|fuel IH]; intros m temp i len Hi Ht Hm.
  { exists []. cbn. rewrite (proj2 (Z.leb_le i 0)) by lia. rewrite Z.sub_0_r, Z.add_0_r. split_and!; done || lia. }
  cbn [tostr_loop]. destruct (Z.leb_spec i 0) as [H0|H0].
  { exists []. cbn. rewrite Z.sub_0_r, Z.add_0_r. split_and!; try done; lia. }
  rewrite (proj2 (Z.eqb_neq base 0)) by lia. rewrite Z.rem_mod_nonneg, Z.quot_div_nonneg by lia.
  pose proof (Z.mod_pos_bound i base ltac:(lia)) as Hd. rewrite digit_chars_lookup by lia. cbn [of_option obind].
  set (c := digit_char lower (i mod base)). rewrite (u32_small (temp - 1)) by lia.
  unfold store. rewrite decide_True by (apply Hm; lia). cbn [obind].
  assert (Hq : 0 <= i / base < 2 ^ Z.of_nat fuel).
  { rewrite Nat2Z.inj_succ, Z.pow_succ_r in Hi by lia. split; [apply Z.div_pos; lia|].
    apply Z.div_lt_upper_bound; [lia|]. nia. }
  destruct (IH (<[temp - 1 := c]> m) (temp - 1) (i / base) (len + 1) Hq ltac:(lia)) as (ds & -> & Hf & Hv & Hl & Hz & Hne).
  { intros q Hq'. apply lookup_insert_is_Some'. right. apply Hm. lia. }
  exists (ds ++ [i mod base]). cbn zeta. rewrite length_app, fmap_app. cbn [length fmap list_fmap].
  replace (Z.of_nat (length ds + 1)) with (Z.of_nat (length ds) + 1) by lia. split_and!.
  - rewrite write_app, length_fmap, write_insert_comm by (rewrite length_fmap; lia). cbn [write].
    replace (temp - (Z.of_nat (length ds) + 1)) with (temp - 1 - Z.of_nat (length ds)) by lia.
    replace (temp - 1 - Z.of_nat (length ds) + Z.of_nat (length ds)) with (temp - 1) by lia.
    by replace (len + 1 + Z.of_nat (length ds)) with (len + (Z.of_nat (length ds) + 1)) by lia.
  - apply Forall_app. split; [done|]. by apply Forall_singleton.
  - rewrite value_snoc, Hv. pose proof (Z.div_mod i base). lia.
  - lia.
  - lia.
  - intros _. split; [by destruct ds|]. destruct ds as [|d ds].
    + cbn. unfold value in Hv. cbn in Hv. pose proof (Z.div_mod i base ltac:(lia)) as Hdm. intros [= E]. nia.
    + apply Hne. destruct (decide (i / base = 0)) as [E|E]; [by specialize (Hz E)|lia].
Qed.

(** Text that stands right before a string is part of it. *)
Lemma cstr_prepend m p cs t : Forall (fun c => 0 < c < 256) cs -> 0 <= p ->
  cstr m (p + Z.of_nat (length cs)) t -> cstr (write m p cs) p (cs ++ t).
Proof.
  intros Hf Hp (Hb & Hft & _ & Hl). split_and!.
  - rewrite <- app_assoc. apply bytes_at_app. split; [apply write_bytes|].
    apply (bytes_at_frame m); [|done]. intros i Hi. apply write_outside. lia.
  - by apply Forall_app.
  - done.
  - rewrite length_app. lia.
Qed.

Lemma room_write m p n d bs : room m p n -> room (write m d bs) p n.
Proof. intros (Hp & Hb & Hr). split_and!; try done. intros i Hi. apply write_mapped. by apply Hr. Qed.

(** The copy out of the array: [cs] stands at its end. *)
Lemma copy_out l m buffer t cs : printable l m buffer t -> Forall (fun c => 0 < c < 256) cs -> (0 < length cs <= 65)%nat ->
  let n := Z.of_nat (length cs) in
  exists k, strlcpy (write m (at_buffer l + 127 - n) cs) buffer (at_buffer l + 127 - n) n
    = Ok (k, write (write m (at_buffer l + 127 - n) cs) buffer (cs ++ [0])).
Proof.
  intros [_ _ Ha Ht Hr Hd] Hf Hn. cbn zeta. set (p := at_buffer l + 127 - Z.of_nat (length cs)).
  pose proof Ha as (Ha0 & _ & _). pose proof Ht as (_ & _ & _ & Htl).
  assert (Hs : cstr (write m p cs) p (cs ++ t)).
  { apply cstr_prepend; [done|lia|]. by replace (p + Z.of_nat (length cs)) with (at_buffer l + 127) by lia. }
  pose proof (strlcpy_result (write m p cs) buffer p (Z.of_nat (length cs)) (cs ++ t) Hs ltac:(lia)) as E.
  rewrite Nat2Z.id, length_app, take_app_length in E. eexists. apply E; [|lia].
  apply room_write. apply (room_weaken m buffer 66); [lia|done].
Qed.

Lemma prints_zero l m buffer t base lower : 2 <= base <= 36 -> printable l m buffer t ->
  prints l m buffer base lower 0 (print_zero l m buffer).
Proof.
  intros Hb [Hz Hza _ _ Hr _]. unfold print_zero. rewrite (strlcpy_result m buffer (at_zero l) 1 [48] Hz); [|lia| |cbn; lia].
  2:{ apply (room_weaken m buffer 66); [cbn; lia|done]. }
  exists [48], (write m buffer ([48] ++ [0])). split_and!; [done| |cbn; lia| | |].
  - exists [0]. split_and!; try done. apply Forall_singleton. lia.
  - apply cstr_written; [repeat constructor; lia|]. apply (room_weaken m buffer 66); [cbn; lia|done].
  - intros q _ Hq. apply write_outside. cbn. lia.
  - intros q. apply write_mapped.
Qed.

(** Putting the sign in front of the digits. *)
Lemma sign_placed l m (negative : bool) cs (n := Z.of_nat (length cs)) (s := (if negative then [45] else []) ++ cs) :
  n <= 64 -> (forall q, at_buffer l <= q < at_buffer l + 127 -> is_Some (m !! q)) -> 0 <= at_buffer l < 2 ^ 32 - 127 ->
  (if negative then
     let temp := u32 (at_buffer l + 127 - n - 1) in
     let* m' := store (write m (at_buffer l + 127 - n) cs) temp 45 in Ok (m', temp, 0 + n + 1)
   else Ok (write m (at_buffer l + 127 - n) cs, at_buffer l + 127 - n, 0 + n))
  = Ok (write m (at_buffer l + 127 - Z.of_nat (length s)) s, at_buffer l + 127 - Z.of_nat (length s), Z.of_nat (length s)).
Proof.
  intros Hn Hm Ha. destruct negative; cbn zeta; [|done]. unfold s. cbn [app length write].
  rewrite u32_small by lia. unfold store. rewrite decide_True by (apply write_mapped, Hm; lia). cbn [obind].
  replace (at_buffer l + 127 - Z.of_nat (S (length cs))) with (at_buffer l + 127 - n - 1) by lia.
  replace (at_buffer l + 127 - n - 1 + 1) with (at_buffer l + 127 - n) by lia.
  rewrite write_insert_comm by lia. by replace (0 + n + 1) with (Z.of_nat (S (length cs))) by lia.
Qed.

Lemma tostr_prints l m buffer t base lower i : 2 <= base <= 36 -> printable l m buffer t -> i <> 0 -> - 2 ^ 64 < i < 2 ^ 64 ->
  prints l m buffer base lower i (tostr l m (Z.abs i) (i <? 0) base buffer lower).
Proof.
  intros Hb Hp Hi0 Hi. pose proof Hp as [_ _ Ha Ht Hr Hd]. pose proof Ha as (Ha0 & Hab & Ham). unfold tostr, STDLIBBUFFERLENGTH.
  rewrite u32_small by lia. replace (at_buffer l + (128 - 1)) with (at_buffer l + 127) by lia.
  assert (Hmap : forall q, at_buffer l <= q < at_buffer l + 127 -> is_Some (m !! q)).
  { intros q Hq. specialize (Ham (Z.to_nat (q - at_buffer l)) ltac:(lia)).
    by replace (at_buffer l + Z.of_nat (Z.to_nat (q - at_buffer l))) with q in Ham by lia. }
  destruct (tostr_loop_spec lower base Hb tostr_fuel m (at_buffer l + 127) (Z.abs i) 0) as (ds & E & Hf & Hv & Hl & _ & Hne);
    [unfold tostr_fuel; lia|unfold tostr_fuel; lia|intros q Hq; apply Hmap; unfold tostr_fuel in Hq; lia|].
  destruct (Hne ltac:(lia)) as [Hds Hhd]. rewrite E. cbn [obind]. clear E. unfold tostr_fuel in Hl.
  set (s := (if i <? 0 then [45] else []) ++ (digit_char lower <$> ds)).
  assert (Hsl : (0 < length s <= 65)%nat).
  { unfold s. rewrite length_app, length_fmap. destruct ds; [done|]. destruct (i <? 0); cbn in *; lia. }
  assert (Hsf : Forall (fun c => 0 < c < 256) s).
  { unfold s. apply Forall_app. split; [destruct (i <? 0); repeat constructor; lia|]. apply Forall_fmap.
    eapply Forall_impl; [exact Hf|]. intros d Hd'. cbn in Hd'. apply digit_char_range. lia. }
  destruct (copy_out l m buffer t s Hp Hsf Hsl) as (k & Ek).
  assert (Hden : denotes base lower s i) by (exists ds; split_and!; try done).
  set (p := at_buffer l + 127 - Z.of_nat (length s)) in *.
  exists s, (write (write m p s) buffer (s ++ [0])). split_and!; [|done|lia| | |].
  - pose proof (sign_placed l m (i <? 0) (digit_char lower <$> ds)) as Esign. rewrite length_fmap in Esign.
    cbn zeta in Esign. rewrite Esign by (done || lia). fold s. fold p. cbn [obind]. by rewrite Ek.
  - apply cstr_written; [done|]. apply room_write, (room_weaken m buffer 66); [lia|done].
  - intros q Hq1 Hq2. rewrite write_outside by (rewrite length_app; cbn; lia). apply write_outside. lia.
  - intros q Hq. by apply write_mapped, write_mapped.
Qed.

Lemma tostr_prints_unsigned l m buffer t base lower i : 2 <= base <= 36 -> printable l m buffer t -> 0 < i < 2 ^ 64 ->
  prints l m buffer base lower i (tostr l m i false base buffer lower).
Proof.
  intros Hb Hp Hi. pose proof (tostr_prints l m buffer t base lower i Hb Hp ltac:(lia) ltac:(lia)) as H.
  by rewrite Z.abs_eq, (proj2 (Z.ltb_ge i 0)) in H by lia.
Qed.

Lemma tostr_prints_signed l m buffer t base lower i : 2 <= base <= 36 -> printable l m buffer t -> i <> 0 -> - 2 ^ 63 < i < 2 ^ 63 ->
  prints l m buffer base lower i (tostr l m (if i <? 0 then - i else i) (i <? 0) base buffer lower).
Proof.
  intros Hb Hp Hi0 Hi. replace (if i <? 0 then - i else i) with (Z.abs i) by (zcases; lia).
  by apply tostr_prints with t; try lia.
Qed.

Section Printers.
Context (l : layout) (m : mem) (buffer : Z) (t : list Z) (base : Z) (lower : bool).
Hypothesis Hbase : 2 <= base <= 36.
Hypothesis Hprintable : printable l m buffer t.

Lemma uitostr_prints i : 0 <= i < 2 ^ 32 -> prints l m buffer base lower i (_uitostr l m i base buffer lower).
Proof.
  intros Hi. unfold _uitostr. destruct (Z.eqb_spec i 0) as [->|Hi0]; [by apply prints_zero with t|].
  rewrite u32_small by lia. apply tostr_prints_unsigned with t; try done; lia.
Qed.

Lemma uitostr64_prints i : 0 <= i < 2 ^ 64 -> prints l m buffer base lower i (_uitostr64 l m i base buffer lower).
Proof.
  intros Hi. unfold _uitostr64. destruct (Z.eqb_spec i 0) as [->|Hi0]; [by apply prints_zero with t|].
  unfold u64. rewrite Z.mod_small by lia. apply tostr_prints_unsigned with t; try done; lia.
Qed.

Lemma itostr_prints i : - 2 ^ 31 < i < 2 ^ 31 -> prints l m buffer base lower i (_itostr l m i base buffer lower).
Proof.
  intros Hi. unfold _itostr. destruct (Z.eqb_spec i 0) as [->|Hi0]; [by apply prints_zero with t|].
  rewrite s32_small by lia. apply tostr_prints_signed with t; try done; lia.
Qed.

Lemma itostr64_prints i : - 2 ^ 63 < i < 2 ^ 63 -> prints l m buffer base lower i (_itostr64 l m i base buffer lower).
Proof.
  intros Hi. unfold _itostr64. destruct (Z.eqb_spec i 0) as [->|Hi0]; [by apply prints_zero with t|].
  unfold s64. rewrite (Z.mod_small (- i + _)) by lia. rewrite Z.add_simpl_r. apply tostr_prints_signed with t; try done; lia.
Qed.
End Printers.

(** each of the four printers, in any base from 2 to 36, returns the length of
    a numeral of its argument and leaves the numeral in the buffer, provided a
    terminator lies behind its array; only the least signed value, whose
    magnitude overflows, is left out. *)
Theorem printers_print l m buffer t base lower :
  2 <= base <= 36 -> printable l m buffer t ->
  (forall i, 0 <= i < 2 ^ 32 -> prints l m buffer base lower i (_uitostr l m i base buffer lower))
  /\ (forall i, 0 <= i < 2 ^ 64 -> prints l m buffer base lower i (_uitostr64 l m i base buffer lower))
  /\ (forall i, - 2 ^ 31 < i < 2 ^ 31 -> prints l m buffer base lower i (_itostr l m i base buffer lower))
  /\ (forall i, - 2 ^ 63 < i < 2 ^ 63 -> prints l m buffer base lower i (_itostr64 l m i base buffer lower)).
Proof.
  intros Hb Hp. split_and!; intros i Hi.
  - by apply uitostr_prints with t.
  - by apply uitostr64_prints with t.
  - by apply itostr_prints with t.
  - by apply itostr64_prints with t.
Qed.

(** ** Reading back *)

Lemma fold_digits_ge ds : forall r, 0 <= r -> Forall (fun d => 0 <= d < 10) ds -> r <= fold_left (fun v d => v * 10 + d) ds r.
Proof.
  induction ds as [|d ds IH]; intros r Hr Hf; cbn; [lia|]. apply Forall_cons in Hf as [Hd Hf].
  specialize (IH (r * 10 + d) ltac:(lia) Hf). lia.
Qed.

Lemma decimal_char lower d : 0 <= d < 10 -> char (digit_char lower d) = 48 + d /\ isdigit (48 + d) = true.
Proof. intros Hd. unfold char, digit_char, isdigit. zcases; lia. Qed.

(** A numeral ends where the first other character is. *)
Definition no_digit_first (s : list Z) : Prop := match s with [] => True | c :: _ => isdigit (char c) = false end.

Lemma atoi_loop_prefix lower ds rest : no_digit_first rest -> forall fuel m p r, cstr m p ((digit_char lower <$> ds) ++ rest) -> Forall (fun d => 0 <= d < 10) ds ->
  (length ds <= fuel)%nat -> 0 <= r -> fold_left (fun v d => v * 10 + d) ds r < 2 ^ 31 ->
  atoi_loop fuel m p r = Ok (fold_left (fun v d => v * 10 + d) ds r).
Proof.
  intros Hrest. induction ds as [|d ds IH]; intros fuel m p r Hs Hf Hl Hr Hb.
  - cbn [fmap list_fmap app fold_left] in *. destruct rest as [|c rest].
    + destruct fuel; cbn [atoi_loop]; by rewrite (cstr_nil m p Hs).
    + destruct (cstr_cons _ _ _ _ Hs) as (E & Hc & _). cbn in Hrest.
      destruct fuel; cbn [atoi_loop]; rewrite E; cbn [obind]; by rewrite (proj2 (Z.eqb_neq _ 0)), Hrest by lia.
  - destruct (cstr_cons _ _ _ _ Hs) as (E & Hc & Hs' & Hu). apply Forall_cons in Hf as [Hd Hf].
    destruct fuel as [|fuel]; [cbn in Hl; lia|]. cbn [atoi_loop length fold_left] in *. rewrite E. cbn [obind].
    destruct (decimal_char lower d Hd) as [-> Hdig]. rewrite (proj2 (Z.eqb_neq _ 0)) by lia. rewrite Hdig. cbn [orb negb].
    pose proof (fold_digits_ge ds (r * 10 + d) ltac:(lia) Hf) as Hge. rewrite Z.add_simpl_l.
    rewrite (s32_small (r * 10)) by lia. rewrite s32_small by lia. rewrite (proj2 (Z.ltb_ge _ _)) by lia.
    rewrite Hu. apply IH; done || lia.
Qed.

Lemma atoi_loop_spec lower ds fuel m p r : cstr m p (digit_char lower <$> ds) -> Forall (fun d => 0 <= d < 10) ds ->
  (length ds <= fuel)%nat -> 0 <= r -> fold_left (fun v d => v * 10 + d) ds r < 2 ^ 31 ->
  atoi_loop fuel m p r = Ok (fold_left (fun v d => v * 10 + d) ds r).
Proof. intros Hs. apply (atoi_loop_prefix lower ds []); [done|]. by rewrite app_nil_r. Qed.

Lemma skip_space_none fuel m p c : load m p = Ok c -> isspace (char c) = false -> skip_space fuel m p = Ok p.
Proof. intros E Hc. destruct fuel; cbn [skip_space]; rewrite E; cbn [obind]; by rewrite Hc. Qed.

Lemma atoi_denotes m p lower s i : cstr m p s -> denotes 10 lower s i -> - 2 ^ 31 < i < 2 ^ 31 -> atoi m p = Ok i.
Proof.
  intros Hs (ds & -> & Hf & Hv & Hne & _) Hi. unfold atoi, value in *. pose proof (cstr_size _ _ _ Hs) as Hsz.
  rewrite length_app, length_fmap in Hsz. assert (Hfuel : (length ds <= string_fuel m)%nat) by (unfold string_fuel; lia).
  destruct (Z.ltb_spec i 0) as [Hneg|Hpos]; cbn [app] in Hs.
  - destruct (cstr_cons _ _ _ _ Hs) as (E & _ & Hs' & Hu). rewrite (skip_space_none _ _ _ 45) by done. cbn [obind].
    rewrite E. cbn -[string_fuel s32]. rewrite Hu, (atoi_loop_spec lower ds) by (done || lia). cbn [obind].
    rewrite Hv, s32_small by lia. f_equal. lia.
  - destruct ds as [|d ds]; [done|]. pose proof Hs as Hs0. destruct (cstr_cons _ _ _ _ Hs) as (E & Hc & _ & _).
    pose proof Hf as [Hd _]%Forall_cons. assert (Hdc : digit_char lower d = 48 + d) by (unfold digit_char; zcases; lia).
    rewrite Hdc in E. rewrite (skip_space_none _ _ _ _ E) by (unfold isspace, char; zcases; lia). cbn [obind].
    rewrite E. cbn [obind]. rewrite !(proj2 (Z.eqb_neq (48 + d) _)) by lia. cbn [orb].
    rewrite (atoi_loop_spec lower (d :: ds)) by (done || lia). cbn [obind]. f_equal. lia.
Qed.

(** C27: [atoi] reads back what [_itostr] prints in base ten, for every 32-bit
    number but the least. *)
Theorem itostr_atoi_roundtrip l m buffer t lower i :
  printable l m buffer t -> - 2 ^ 31 < i < 2 ^ 31 ->
  exists n m', _itostr l m i 10 buffer lower = Ok (n, m') /\ atoi m' buffer = Ok i.
Proof.
  intros Hp Hi. destruct (itostr_prints l m buffer t 10 lower ltac:(lia) Hp i Hi) as (s & m' & E & Hden & _ & Hs & _).
  exists (Z.of_nat (length s)), m'. split; [done|]. by apply atoi_denotes with lower s.
Qed.

(** ** A concrete memory *)

(** The literal at 4, the array at 16 with a terminator right behind it, and the
    destination at 256. *)
Definition demo_layout : layout := Layout 4 16.
Definition print_mem : mem := write (write (write ∅ 4 [48; 0]) 16 (replicate 127 7 ++ [0])) 256 (replicate 66 9).

(** Deciding that a stretch of memory is mapped. *)
Lemma room_decide m p n : 0 <= p -> p + Z.of_nat n < 2 ^ 32 ->
  forallb (fun i => bool_decide (is_Some (m !! (p + Z.of_nat i)))) (seq 0 n) = true -> room m p n.
Proof.
  intros Hp Hb Hf. split_and!; try done. intros i Hi. rewrite forallb_forall in Hf.
  specialize (Hf i). rewrite in_seq in Hf. eapply bool_decide_eq_true, Hf. lia.
Qed.

Lemma demo_printable : printable demo_layout print_mem 256 [].
Proof.
  split; try (cbn; lia); try (apply room_decide; [done|cbn; lia|by vm_compute]).
  all: split_and!; [by vm_compute|repeat constructor; lia|cbn; lia|cbn; lia].
Qed.

Lemma printers_print_witness :
  (forall i, 0 <= i < 2 ^ 32 -> prints demo_layout print_mem 256 16 true i (_uitostr demo_layout print_mem i 16 256 true))
  /\ (forall i, 0 <= i < 2 ^ 64 -> prints demo_layout print_mem 256 16 true i (_uitostr64 demo_layout print_mem i 16 256 true))
  /\ (forall i, - 2 ^ 31 < i < 2 ^ 31 -> prints demo_layout print_mem 256 16 true i (_itostr demo_layout print_mem i 16 256 true))
  /\ (forall i, - 2 ^ 63 < i < 2 ^ 63 -> prints demo_layout print_mem 256 16 true i (_itostr64 demo_layout print_mem i 16 256 true)).
Proof. apply (printers_print demo_layout print_mem 256 [] 16 true); [lia|apply demo_printable]. Defined.

Lemma itostr_atoi_roundtrip_witness :
  exists n m', _itostr demo_layout print_mem (-1234) 10 256 true = Ok (n, m') /\ atoi m' 256 = Ok (-1234).
Proof. apply (itostr_atoi_roundtrip demo_layout print_mem 256 [] true (-1234)); [apply demo_printable|lia]. Defined.

(** The least 32-bit number has no magnitude: only its sign is printed. *)
Lemma itostr_least : match _itostr demo_layout print_mem (- 2 ^ 31) 10 256 true with
                     | Ok (n, m') => n = 1 /\ bytes_at m' 256 [45; 0]
                     | _ => False
                     end.
Proof. vm_compute. done. Qed.
