(* ===== verification/Stdio.v ===== *)
(** * Formatted output (sys/libc/stdio.c)

    [vsnprintf] and its callers on the byte memory of CString.v.  The variable
    arguments are the list of 32-bit words on the caller's stack; fetching one
    that was not passed is a fault.  The literals "(null)" and "0x" are lists. *)

From S2P Require Import Prelude CString CStdlib.

(** ** Translation *)

Definition kVsnprintfFlagRightAlign : Z := 1.
Definition kVsnprintfFlagForceSign : Z := 2.
Definition kVsnprintfZeroPad : Z := 4.

(** [va_arg] of a word and of a 64-bit number, low word first. *)
Definition va_word (arg : list Z) : outcome (Z * list Z) :=
  match arg with w :: rest => Ok (w, rest) | [] => Fault end.
Definition va_long (arg : list Z) : outcome (Z * list Z) :=
  match arg with lo :: hi :: rest => Ok (lo + 2 ^ 32 * hi, rest) | _ => Fault end.

(** The memory and the two counters. *)
Record out := Out { o_mem : mem; o_written : Z; o_total : Z }.

(** The parameters of a call, and where its local array and those of the printers
    it calls are. *)
Record call := Call { c_buffer : Z; c_size : Z; c_format : Z; c_string : Z; c_layout : layout }.

Section Translation.
Variable k : call.

(** [format[index]] *)
Definition format_at (m : mem) (index : Z) : outcome Z := load m (u32 (c_format k + index)).

(** [if(write) buffer[written ++] = c; total ++;] *)
Definition emit (write : bool) (c : Z) (o : out) : outcome out :=
  if write then
    let* m := store (o_mem o) (u32 (c_buffer k + o_written o)) c in
    Ok (Out m (u32 (o_written o + 1)) (u32 (o_total o + 1)))
  else Ok (Out (o_mem o) (o_written o) (u32 (o_total o + 1))).

Definition emit_checked (keepWriting : bool) (c : Z) (o : out) : outcome out :=
  emit (keepWriting && (o_written o <? c_size k)) c o.

Fixpoint emit_literal (keepWriting : bool) (cs : list Z) (o : out) : outcome out :=
  match cs with
  | [] => Ok o
  | c :: cs' => let* o := emit_checked keepWriting c o in emit_literal keepWriting cs' o
  end.

Fixpoint emit_string (fuel : nat) (keepWriting : bool) (string : Z) (o : out) : outcome out :=
  let* c := load (o_mem o) string in
  if c =? 0 then Ok o else
  match fuel with
  | O => Hang
  | S f => let* o := emit_checked keepWriting c o in emit_string f keepWriting (u32 (string + 1)) o
  end.

(** [while(width > 0)] with [n] rounds to go. *)
Fixpoint pad (n : nat) (keepWriting : bool) (c : Z) (o : out) : outcome out :=
  match n with
  | O => Ok o
  | S n' => let* o := emit_checked keepWriting c o in pad n' keepWriting c o
  end.

Fixpoint fetch_flags (fuel : nat) (m : mem) (index flags : Z) : outcome (Z * Z) :=
  let* c := format_at m index in
  let next flags := match fuel with O => Hang | S f => fetch_flags f m (u32 (index + 1)) flags end in
  if c =? 48 then if negb (flags =? 0) then Ok (flags, index) else next (Z.lor flags kVsnprintfZeroPad)
  else if c =? 45 then next (Z.lor flags kVsnprintfFlagRightAlign)
  else if c =? 43 then next (Z.lor flags kVsnprintfFlagForceSign)
  else Ok (flags, index).

Fixpoint fetch_width (fuel : nat) (m : mem) (index width : Z) : outcome (Z * Z) :=
  let* c := format_at m index in
  if isdigit (char c) then
    let value := char c - 48 in
    match fuel with O => Hang | S f => fetch_width f m (u32 (index + 1)) (s32 (s32 (width * 10) + value)) end
  else Ok (width, index).

Definition fetch_length (m : mem) (index : Z) : outcome (Z * Z) :=
  let* c := format_at m index in
  if c =? 104 then
    let index := u32 (index + 1) in
    let* c := format_at m index in
    Ok (if c =? 104 then (1, u32 (index + 1)) else (2, index))
  else if c =? 108 then
    let index := u32 (index + 1) in
    let* c := format_at m index in
    Ok (if c =? 108 then (8, u32 (index + 1)) else (4, index))
  else Ok (4, index).

(** The digits of a number argument into the local array. *)
Definition number_base (specifier : Z) : Z :=
  if (specifier =? 105) || (specifier =? 117) || (specifier =? 100) then 10 else 16.
Definition number_unsigned (specifier : Z) : bool := (specifier =? 112) || (specifier =? 117) || (specifier =? 120).

Definition number_string (m : mem) (specifier typeLength : Z) (arg : list Z) : outcome (mem * list Z) :=
  let base := number_base specifier in
  let isUint := number_unsigned specifier in
  let lowerCase := specifier =? 120 in
  if specifier =? 112 then
    let* (v, arg) := va_word arg in
    let* (_, m) := _uitostr (c_layout k) m v base (c_string k) false in Ok (m, arg)
  else if typeLength =? 8 then
    let* (v, arg) := va_long arg in
    let* (_, m) := if isUint then _uitostr64 (c_layout k) m v base (c_string k) lowerCase
                   else _itostr64 (c_layout k) m (s64 v) base (c_string k) lowerCase in Ok (m, arg)
  else
    let* (v, arg) := va_word arg in
    let* (_, m) := if isUint then _uitostr (c_layout k) m v base (c_string k) lowerCase
                   else _itostr (c_layout k) m (s32 v) base (c_string k) lowerCase in Ok (m, arg).

Definition number (keepWriting : bool) (specifier flags width typeLength : Z) (o : out) (arg : list Z) : outcome (out * list Z) :=
  let* (m, arg) := number_string (o_mem o) specifier typeLength arg in
  let o := Out m (o_written o) (o_total o) in
  let* o := emit_literal keepWriting (if specifier =? 112 then [48; 120] else []) o in
  let right := negb (Z.land flags kVsnprintfFlagRightAlign =? 0) in
  let* (o, width) :=
    if negb right then
      let* n := strlen (o_mem o) (c_string k) in
      let width := s32 (width - n) in
      let* o := pad (Z.to_nat width) keepWriting (if Z.land flags kVsnprintfZeroPad =? 0 then 32 else 48) o in
      Ok (o, Z.min width 0)
    else Ok (o, width) in
  let* o := emit_string (string_fuel (o_mem o)) keepWriting (c_string k) o in
  let* o :=
    if right then
      let* n := strlen (o_mem o) (c_string k) in
      pad (Z.to_nat (s32 (width - n))) keepWriting 32 o
    else Ok o in
  Ok (o, arg).

(** [*value = (int)written;], byte by byte. *)
Definition store_int (m : mem) (p v : Z) : outcome mem :=
  let* m := store m p (u8 v) in
  let* m := store m (u32 (p + 1)) (u8 (Z.shiftr v 8)) in
  let* m := store m (u32 (p + 2)) (u8 (Z.shiftr v 16)) in
  store m (u32 (p + 3)) (u8 (Z.shiftr v 24)).

(** The second switch. *)
Definition conversion (keepWriting : bool) (specifier flags width typeLength : Z) (o : out) (arg : list Z) : outcome (out * list Z) :=
  if specifier =? 99 then
    if keepWriting then
      let* (v, arg) := va_word arg in
      let* o := emit true (u8 v) o in Ok (o, arg)
    else let* o := emit false 0 o in Ok (o, arg)
  else if specifier =? 115 then
    let* (string, arg) := va_word arg in
    let* o := if string =? NULL then emit_literal keepWriting [40; 110; 117; 108; 108; 41] o
              else emit_string (string_fuel (o_mem o)) keepWriting string o in
    Ok (o, arg)
  else if bool_decide (specifier ∈ [105; 100; 112; 120; 88; 117]) then
    number keepWriting specifier flags width typeLength o arg
  else if specifier =? 110 then
    let* (value, arg) := va_word arg in
    let* m := store_int (o_mem o) value (o_written o) in
    Ok (Out m (o_written o) (o_total o), arg)
  else if specifier =? 37 then
    let* o := emit keepWriting 37 o in Ok (o, arg)
  else Ok (o, arg).

(** The formatting loop is written out again in the C library of programs and in the
    libraries of drivers; the copies differ in the length modifiers they read and
    in the conversions they know. *)
Record printer := Printer {
  pr_length : mem -> Z -> outcome (Z * Z);
  pr_conversion : bool -> Z -> Z -> Z -> Z -> out -> list Z -> outcome (out * list Z)
}.

Definition kernel_printer : printer := Printer fetch_length conversion.

(** What follows a percent sign, [index] being behind it. *)
Definition directive (d : printer) (keepWriting : bool) (index : Z) (o : out) (arg : list Z) : outcome (out * list Z * Z) :=
  let fuel := string_fuel (o_mem o) in
  let* (flags, index) := fetch_flags fuel (o_mem o) index 0 in
  let* (width, index) := fetch_width fuel (o_mem o) index 0 in
  let* (typeLength, index) := pr_length d (o_mem o) index in
  let* specifier := format_at (o_mem o) index in
  let* (o, arg) := pr_conversion d keepWriting specifier flags width typeLength o arg in
  Ok (o, arg, index).

Fixpoint vsnprintf_loop (d : printer) (fuel : nat) (keepWriting : bool) (index : Z) (o : out) (arg : list Z) : outcome out :=
  let* c := format_at (o_mem o) index in
  if c =? 0 then Ok o else
  match fuel with
  | O => Hang
  | S f =>
      let keepWriting := if c_size k <=? o_written o then false else keepWriting in
      let* (o, arg, index) :=
        if c =? 37 then directive d keepWriting (u32 (index + 1)) o arg
        else let* o := emit keepWriting c o in Ok (o, arg, index) in
      vsnprintf_loop d f keepWriting (u32 (index + 1)) o arg
  end.

Definition vsnprintf_by (d : printer) (m : mem) (arg : list Z) : outcome (Z * mem) :=
  let* o := vsnprintf_loop d (string_fuel m) true 0 (Out m 0 0) arg in
  let* m :=
    if negb (c_buffer k =? NULL) then
      let index := if c_size k <=? o_written o then u32 (o_written o - 1) else o_written o in
      store (o_mem o) (u32 (c_buffer k + index)) 0
    else Ok (o_mem o) in
  Ok (s32 (o_total o), m).

Definition vsnprintf (m : mem) (arg : list Z) : outcome (Z * mem) := vsnprintf_by kernel_printer m arg.
End Translation.

Definition vsprintf (k : call) (m : mem) (arg : list Z) : outcome (Z * mem) :=
  vsnprintf (Call (c_buffer k) UINT32_MAX (c_format k) (c_string k) (c_layout k)) m arg.

(** The variadic callers pass their own arguments on. *)
Definition snprintf (k : call) (m : mem) (arg : list Z) : outcome (Z * mem) := vsnprintf k m arg.
Definition sprintf (k : call) (m : mem) (arg : list Z) : outcome (Z * mem) := vsprintf k m arg.
