(* ===== verification/StdioCorrect.v ===== *)
(** * What [vsnprintf] prints

    A grammar of format strings, what each item of it prints for the arguments it
    takes, and the proof that [vsnprintf] puts exactly that into the buffer, as
    far as it fits, and returns its length. *)

From S2P Require Import Prelude CString CStdlib Stdio.

(** ** Formats *)

Inductive length_mod := LengthNone | LengthH | LengthHH | LengthL | LengthLL.

(** A conversion: its flag characters, the digits of its width, its length
    modifier and its specifier. *)
Record conv := Conv { cv_flags : list Z; cv_width : list Z; cv_length : length_mod; cv_spec : Z }.

Inductive item := Plain (c : Z) | Item (cv : conv).

Definition length_text (n : length_mod) : list Z :=
  match n with LengthNone => [] | LengthH => [104] | LengthHH => [104; 104] | LengthL => [108] | LengthLL => [108; 108] end.

Definition length_bytes (n : length_mod) : Z :=
  match n with LengthNone => 4 | LengthH => 2 | LengthHH => 1 | LengthL => 4 | LengthLL => 8 end.

Definition conv_text (cv : conv) : list Z :=
  cv_flags cv ++ (Z.add 48 <$> cv_width cv) ++ length_text (cv_length cv) ++ [cv_spec cv].

Definition item_text (i : item) : list Z :=
  match i with Plain c => [c] | Item cv => 37 :: conv_text cv end.

(** A zero is a flag only when no flag stands before it. *)
Fixpoint flags_ok (first : bool) (fl : list Z) : Prop :=
  match fl with
  | [] => True
  | c :: fl' => ((c = 48 /\ first = true) \/ c = 45 \/ c = 43) /\ flags_ok false fl'
  end.

Definition numeric (sp : Z) : Prop := sp ∈ [105; 100; 112; 120; 88; 117].

Record conv_ok (cv : conv) : Prop := {
  cv_flags_ok : flags_ok true (cv_flags cv);
  cv_digits_ok : Forall (fun d => 0 <= d < 10) (cv_width cv);
  cv_width_ok : value 10 (cv_width cv) < 2 ^ 31;
  cv_first_ok : cv_flags cv = [] -> head (cv_width cv) <> Some 0;
  cv_spec_ok : cv_spec cv = 37 \/ cv_spec cv = 99 \/ cv_spec cv = 115 \/ numeric (cv_spec cv)
}.

Definition item_ok (i : item) : Prop :=
  match i with Plain c => 0 < c < 256 /\ c <> 37 | Item cv => conv_ok cv end.

(** ** What an item prints *)

(** The number [v] a numeric conversion takes from the words [ws]. *)
Definition number_arg (cv : conv) (ws : list Z) (v : Z) : Prop :=
  if cv_spec cv =? 112 then ws = [v] /\ 0 <= v < 2 ^ 32
  else if length_bytes (cv_length cv) =? 8 then
    exists lo hi, ws = [lo; hi] /\ 0 <= lo < 2 ^ 32 /\ 0 <= hi < 2 ^ 32
      /\ v = (if number_unsigned (cv_spec cv) then lo + 2 ^ 32 * hi else s64 (lo + 2 ^ 32 * hi)) /\ v <> - 2 ^ 63
  else exists w, ws = [w] /\ 0 <= w < 2 ^ 32 /\ v = (if number_unsigned (cv_spec cv) then w else s32 w) /\ v <> - 2 ^ 31.

(** The numeral [s] in its field: padded on the left, with zeros if asked for, or
    on the right. *)
Definition field (cv : conv) (s : list Z) : list Z :=
  let n := (Z.to_nat (value 10 (cv_width cv)) - length s)%nat in
  (if cv_spec cv =? 112 then [48; 120] else [])
  ++ (if bool_decide (45 ∈ cv_flags cv) then s ++ replicate n 32
      else replicate n (if bool_decide (48 ∈ cv_flags cv) then 48 else 32) ++ s).

(** An item with the argument words it takes and the bytes it prints. *)
Record entry := Entry { en_item : item; en_words : list Z; en_text : list Z }.

Definition is_char (i : item) : Prop := match i with Item cv => cv_spec cv = 99 | Plain _ => False end.

Inductive shows (m : mem) (protected : Z -> Prop) : item -> list Z -> list Z -> Prop :=
| shows_plain c : shows m protected (Plain c) [] [c]
| shows_percent cv : cv_spec cv = 37 -> shows m protected (Item cv) [] [37]
| shows_char cv w : cv_spec cv = 99 -> shows m protected (Item cv) [w] [u8 w]
| shows_null cv : cv_spec cv = 115 -> shows m protected (Item cv) [NULL] [40; 110; 117; 108; 108; 41]
| shows_string cv p s : cv_spec cv = 115 -> p <> NULL -> cstr m p s ->
    (forall q, p <= q <= p + Z.of_nat (length s) -> protected q) -> shows m protected (Item cv) [p] s
| shows_number cv ws v s : numeric (cv_spec cv) -> number_arg cv ws v ->
    denotes (number_base (cv_spec cv)) (cv_spec cv =? 120) s v -> shows m protected (Item cv) ws (field cv s).

(** Bytes a call may change: the first [cap] of the buffer and the local arrays. *)
Definition untouched (k : call) (cap : nat) (q : Z) : Prop :=
  ~ (c_buffer k <= q < c_buffer k + Z.of_nat cap)
  /\ ~ (at_buffer (c_layout k) <= q < at_buffer (c_layout k) + 127)
  /\ ~ (c_string k <= q < c_string k + 66).

Definition format_of (es : list entry) : list Z := concat ((fun e => item_text (en_item e)) <$> es).
Definition words_of (es : list entry) : list Z := concat (en_words <$> es).
Definition text_of (es : list entry) : list Z := concat (en_text <$> es).

(** What a call needs: room in the buffer, and arrays apart from it. *)
Record callable (k : call) (cap : nat) (m : mem) (t : list Z) : Prop := {
  ca_buffer : c_buffer k <> NULL;
  ca_room : room m (c_buffer k) cap;
  ca_printable : printable (c_layout k) m (c_string k) t;
  ca_string : c_buffer k + Z.of_nat cap <= c_string k \/ c_string k + 66 <= c_buffer k;
  ca_array : c_buffer k + Z.of_nat cap <= at_buffer (c_layout k)
             \/ at_buffer (c_layout k) + 127 + Z.of_nat (length t) < c_buffer k;
  ca_zero : c_buffer k + Z.of_nat cap <= at_zero (c_layout k) \/ at_zero (c_layout k) + 1 < c_buffer k;
  ca_zero_array : at_buffer (c_layout k) + 127 <= at_zero (c_layout k) \/ at_zero (c_layout k) + 1 < at_buffer (c_layout k);
  ca_zero_string : c_string k + 66 <= at_zero (c_layout k) \/ at_zero (c_layout k) + 1 < c_string k
}.

(** ** Numerals are unique *)

Lemma value_nonneg base ds : 0 < base -> Forall (fun d => 0 <= d < base) ds -> 0 <= value base ds.
Proof.
  intros Hb. induction ds as [|d ds IH] using rev_ind; intros Hf; [done|].
  apply Forall_app in Hf as [Hf [Hd _]%Forall_cons]. rewrite value_snoc. specialize (IH Hf). nia.
Qed.

Lemma digit_split b v1 d1 v2 d2 : 0 <= d1 < b -> 0 <= d2 < b -> v1 * b + d1 = v2 * b + d2 -> v1 = v2 /\ d1 = d2.
Proof.
  intros H1 H2 E. pose proof (Z.div_mod_unique b v1 v2 d1 d2) as Hu. apply Hu; [by left|by left|lia].
Qed.

Lemma value_zero base ds : 0 < base -> Forall (fun d => 0 <= d < base) ds -> value base ds = 0 -> head ds <> Some 0 -> ds = [].
Proof.
  intros Hb. induction ds as [|d ds IH] using rev_ind; intros Hf Hv Hh; [done|].
  apply Forall_app in Hf as [Hf [Hd _]%Forall_cons]. rewrite value_snoc in Hv.
  destruct (digit_split base (value base ds) d 0 0) as [Hv0 ->]; [done|lia|lia|]. destruct ds as [|d' ds]; [done|]. by rewrite IH in Hh.
Qed.

Lemma value_inj base ds1 : 0 < base -> forall ds2, Forall (fun d => 0 <= d < base) ds1 -> Forall (fun d => 0 <= d < base) ds2 ->
  value base ds1 = value base ds2 -> head ds1 <> Some 0 -> head ds2 <> Some 0 -> ds1 = ds2.
Proof.
  intros Hb. induction ds1 as [|d1 ds1 IH] using rev_ind; intros ds2 H1 H2 Hv Hh1 Hh2.
  { symmetry. by apply (value_zero base). }
  destruct ds2 as [|d2 ds2 _] using rev_ind; [by apply (value_zero base)|].
  apply Forall_app in H1 as [H1 [Hd1 _]%Forall_cons], H2 as [H2 [Hd2 _]%Forall_cons]. rewrite !value_snoc in Hv.
  destruct (digit_split base (value base ds1) d1 (value base ds2) d2) as [Hv' ->]; try done.
  f_equal. apply IH; try done; [by destruct ds1|by destruct ds2].
Qed.

Lemma denotes_unique base lower s1 s2 i : 0 < base -> denotes base lower s1 i -> denotes base lower s2 i -> s1 = s2.
Proof.
  intros Hb (ds1 & -> & Hf1 & Hv1 & Hn1 & Hz1) (ds2 & -> & Hf2 & Hv2 & Hn2 & Hz2). do 2 f_equal.
  assert (Hcase : forall ds, ds <> [] -> (head ds = Some 0 -> ds = [0]) -> Forall (fun d => 0 <= d < base) ds ->
    value base ds = Z.abs i -> ds = [0] /\ Z.abs i = 0 \/ head ds <> Some 0 /\ Z.abs i <> 0).
  { intros ds Hn Hz Hf Hv. destruct (decide (head ds = Some 0)) as [E|E]; [left|right].
    - rewrite (Hz E) in *. by rewrite <- Hv.
    - split; [done|]. intros H0. destruct Hn. apply (value_zero base); congruence. }
  destruct (Hcase ds1) as [[-> E1]|[E1 N1]], (Hcase ds2) as [[-> E2]|[E2 N2]]; try done.
  apply (value_inj base); congruence.
Qed.

(** ** Emitting *)

Lemma numeric_cases sp : numeric sp -> sp = 105 \/ sp = 100 \/ sp = 112 \/ sp = 120 \/ sp = 88 \/ sp = 117.
Proof. unfold numeric. rewrite !elem_of_cons, elem_of_nil. tauto. Qed.

Lemma spec_cases cv : conv_ok cv ->
  cv_spec cv ∈ [37; 99; 115; 105; 100; 112; 120; 88; 117].
Proof.
  intros Hcv. rewrite !elem_of_cons, elem_of_nil.
  destruct (cv_spec_ok _ Hcv) as [->|[->|[->|Hn%numeric_cases]]]; [by auto..|]. tauto.
Qed.

Section Call.
Variables (k : call) (m0 : mem) (N : nat) (t : list Z).
Abbreviation sz := (Z.to_nat (c_size k)).
Abbreviation cap := (sz `min` S N)%nat.
Hypothesis Hcall : callable k cap m0 t.
Hypothesis Hsize : 0 < c_size k < 2 ^ 32.
Hypothesis HN : Z.of_nat N < 2 ^ 31.

(** [m] differs from the first memory in nothing that must stay. *)
Definition agrees (m : mem) : Prop :=
  (forall q, untouched k cap q -> m !! q = m0 !! q) /\ (forall q, is_Some (m0 !! q) -> is_Some (m !! q)).

(** [o] has printed [xs]. *)
Record holds_out (o : out) (xs : list Z) : Prop := {
  ho_written : o_written o = Z.of_nat (sz `min` length xs);
  ho_total : o_total o = Z.of_nat (length xs);
  ho_bytes : bytes_at (o_mem o) (c_buffer k) (take sz xs);
  ho_agrees : agrees (o_mem o)
}.

Definition same_but_buffer (m m' : mem) : Prop :=
  (forall q, ~ (c_buffer k <= q < c_buffer k + Z.of_nat cap) -> m' !! q = m !! q)
  /\ (forall q, is_Some (m !! q) -> is_Some (m' !! q)).

Lemma same_but_buffer_refl m : same_but_buffer m m.
Proof. by split. Qed.

Lemma same_but_buffer_trans m1 m2 m3 : same_but_buffer m1 m2 -> same_but_buffer m2 m3 -> same_but_buffer m1 m3.
Proof. intros [A1 B1] [A2 B2]. split; [|by auto]. intros q Hq. by rewrite A2, A1. Qed.

Lemma agrees_buffer m m' : agrees m -> same_but_buffer m m' -> agrees m'.
Proof. intros [A1 B1] [A2 B2]. split; [|by auto]. intros q Hq. rewrite A2 by apply Hq. by apply A1. Qed.

(** Printing one more byte. *)
Lemma emit_spec o xs c (w : bool) : holds_out o xs -> (length xs < N)%nat -> w = bool_decide (length xs < sz)%nat ->
  exists o', emit k w c o = Ok o' /\ holds_out o' (xs ++ [c]) /\ same_but_buffer (o_mem o) (o_mem o').
Proof.
  intros [Hw Ht Hb Ha] HxN ->. unfold emit. rewrite Hw, Ht. rewrite (u32_small (Z.of_nat (length xs) + 1)) by lia.
  case_bool_decide as Hlt.
  - pose proof (ca_room _ _ _ _ Hcall) as (Hb0 & Hb1 & Hmap).
    rewrite Nat.min_r by lia. rewrite !u32_small by lia. unfold store.
    rewrite decide_True by (apply Ha, Hmap; lia). cbn [obind]. eexists. split; [done|].
    assert (Hsame : same_but_buffer (o_mem o) (<[c_buffer k + Z.of_nat (length xs) := c]> (o_mem o))).
    { split; intros q Hq; [apply lookup_insert_ne; lia|]. apply lookup_insert_is_Some'. by right. }
    split; [|done]. rewrite take_ge in Hb by lia. split; cbn [o_written o_total o_mem].
    + rewrite length_app. cbn. lia.
    + rewrite length_app. cbn. lia.
    + rewrite take_ge by (rewrite length_app; cbn; lia). apply bytes_at_app. split; [apply bytes_at_insert; [lia|done]|].
      cbn. by rewrite lookup_insert_eq.
    + by eapply agrees_buffer.
  - eexists. split; [done|]. split; [|apply same_but_buffer_refl]. split; cbn [o_written o_total o_mem]; try done.
    + rewrite length_app. cbn. lia.
    + rewrite length_app. cbn. lia.
    + by rewrite take_app_le by lia.
Qed.

(** A round that writes stays inside the bound; one that does not has reached it. *)
Definition keeps (keep : bool) (xs : list Z) : Prop := keep = false -> (sz <= length xs)%nat.

Lemma keeps_app keep xs ys : keeps keep xs -> keeps keep (xs ++ ys).
Proof. intros H E. rewrite length_app. specialize (H E). lia. Qed.

Lemma emit_checked_spec o xs c keep : holds_out o xs -> keeps keep xs -> (length xs < N)%nat ->
  exists o', emit_checked k keep c o = Ok o' /\ holds_out o' (xs ++ [c]) /\ same_but_buffer (o_mem o) (o_mem o').
Proof.
  intros Ho Hk HxN. apply emit_spec; [done|done|]. rewrite (ho_written _ _ Ho).
  destruct keep; cbn [andb]; [|specialize (Hk eq_refl)]; case_bool_decide; lia.
Qed.

Lemma emit_literal_spec keep cs : forall o xs, holds_out o xs -> keeps keep xs -> (length xs + length cs <= N)%nat ->
  exists o', emit_literal k keep cs o = Ok o' /\ holds_out o' (xs ++ cs) /\ same_but_buffer (o_mem o) (o_mem o').
Proof.
  induction cs as [|c cs IH]; intros o xs Ho Hk HxN; cbn [emit_literal length] in *.
  { exists o. rewrite app_nil_r. split_and!; [done|done|apply same_but_buffer_refl]. }
  destruct (emit_checked_spec o xs c keep Ho Hk ltac:(lia)) as (o1 & -> & Ho1 & S1). cbn [obind].
  destruct (IH o1 (xs ++ [c]) Ho1 (keeps_app _ _ _ Hk)) as (o2 & E2 & Ho2 & S2); [rewrite length_app; cbn; lia|].
  exists o2. rewrite <- app_assoc in Ho2. split_and!; [done|done|by eapply same_but_buffer_trans].
Qed.

Lemma pad_literal n : forall keep c o, pad k n keep c o = emit_literal k keep (replicate n c) o.
Proof.
  induction n as [|n IH]; intros keep c o; cbn; [done|].
  by destruct (emit_checked k keep c o); cbn [obind]; rewrite ?IH.
Qed.

Lemma cstr_same m m' p s : same_but_buffer m m' ->
  (p + Z.of_nat (length s) < c_buffer k \/ c_buffer k + Z.of_nat cap <= p) -> cstr m p s -> cstr m' p s.
Proof.
  intros [Hs _] Hd (Hb & H). split; [|done]. apply (bytes_at_frame m); [|done].
  intros i Hi. rewrite length_app in Hi. cbn in Hi. apply Hs. lia.
Qed.

Lemma emit_string_spec keep s : forall fuel p o xs, cstr (o_mem o) p s ->
  (p + Z.of_nat (length s) < c_buffer k \/ c_buffer k + Z.of_nat cap <= p) ->
  (length s <= fuel)%nat -> holds_out o xs -> keeps keep xs -> (length xs + length s <= N)%nat ->
  exists o', emit_string k fuel keep p o = Ok o' /\ holds_out o' (xs ++ s) /\ same_but_buffer (o_mem o) (o_mem o').
Proof.
  induction s as [|c s IH]; intros fuel p o xs Hs Hd Hf Ho Hk HxN.
  - exists o. rewrite app_nil_r. split_and!; [|done|apply same_but_buffer_refl].
    destruct fuel; cbn [emit_string]; by rewrite (cstr_nil _ _ Hs).
  - destruct (cstr_cons _ _ _ _ Hs) as (E & Hc & Hs' & Hu). cbn [length] in *. destruct fuel as [|fuel]; [lia|].
    cbn [emit_string]. rewrite E. cbn [obind]. rewrite (proj2 (Z.eqb_neq _ _)) by lia.
    destruct (emit_checked_spec o xs c keep Ho Hk ltac:(lia)) as (o1 & -> & Ho1 & S1). cbn [obind]. rewrite Hu.
    destruct (IH fuel (p + 1) o1 (xs ++ [c])) as (o2 & E2 & Ho2 & S2);
      [eapply cstr_same; [done|lia|done]|lia|lia|done|by apply keeps_app|rewrite length_app; cbn; lia|].
    exists o2. rewrite <- app_assoc in Ho2. split_and!; [done|done|by eapply same_but_buffer_trans].
Qed.

(** ** Numbers *)

Lemma cstr_agrees m p s : agrees m -> (forall q, p <= q <= p + Z.of_nat (length s) -> untouched k cap q) ->
  cstr m0 p s -> cstr m p s.
Proof.
  intros [Ha _] Hu (Hb & H). split; [|done]. apply (bytes_at_frame m0); [|done].
  intros i Hi. rewrite length_app in Hi. cbn in Hi. apply Ha, Hu. lia.
Qed.

Lemma agrees_printable m : agrees m -> printable (c_layout k) m (c_string k) t.
Proof.
  intros Ha. destruct Hcall as [_ _ [Pz Pza Pa Pt Pr Pd] Hs Har Hz Hza Hzs]. split; try done.
  - apply cstr_agrees; [done| |done]. cbn [length]. intros q Hq. unfold untouched. lia.
  - destruct Pa as (? & ? & Hm). split_and!; try done. intros i Hi. by apply Ha, Hm.
  - apply cstr_agrees; [done| |done]. intros q Hq. unfold untouched. lia.
  - destruct Pr as (? & ? & Hm). split_and!; try done. intros i Hi. by apply Ha, Hm.
Qed.

(** Only the local arrays changed. *)
Definition same_but_arrays (m m' : mem) : Prop :=
  (forall q, ~ (at_buffer (c_layout k) <= q < at_buffer (c_layout k) + 127) -> ~ (c_string k <= q < c_string k + 66) -> m' !! q = m !! q)
  /\ (forall q, is_Some (m !! q) -> is_Some (m' !! q)).

Lemma number_base_range sp : 2 <= number_base sp <= 36.
Proof. unfold number_base. destruct (_ || _); lia. Qed.

Lemma s64_range z : - 2 ^ 63 <= s64 z < 2 ^ 63.
Proof. unfold s64. pose proof (Z.mod_pos_bound (z + 2 ^ 63) (2 ^ 64)). lia. Qed.

Lemma s32_range z : - 2 ^ 31 <= s32 z < 2 ^ 31.
Proof. unfold s32. pose proof (Z.mod_pos_bound (z + 2 ^ 31) (2 ^ 32)). lia. Qed.

Lemma number_string_spec m cv ws v s arg : agrees m -> number_arg cv ws v ->
  denotes (number_base (cv_spec cv)) (cv_spec cv =? 120) s v ->
  exists m', number_string k m (cv_spec cv) (length_bytes (cv_length cv)) (ws ++ arg) = Ok (m', arg)
    /\ (length s <= 65)%nat /\ cstr m' (c_string k) s /\ same_but_arrays m m'.
Proof.
  intros Ha Harg Hden. pose proof (agrees_printable m Ha) as Hp. pose proof (number_base_range (cv_spec cv)) as Hb.
  assert (Hfin : forall r, prints (c_layout k) m (c_string k) (number_base (cv_spec cv)) (cv_spec cv =? 120) v r ->
    exists n m', r = Ok (n, m') /\ (length s <= 65)%nat /\ cstr m' (c_string k) s /\ same_but_arrays m m').
  { intros r (s' & m' & E & Hden' & Hl & Hs & Hf & Hd). rewrite (denotes_unique (number_base (cv_spec cv)) (cv_spec cv =? 120) s s' v ltac:(lia) Hden Hden').
    eexists _, m'. split_and!; done. }
  unfold number_string, number_arg in *. destruct (Z.eqb_spec (cv_spec cv) 112) as [E112|E112].
  { destruct Harg as [-> Hv]. rewrite E112 in *. cbn [app va_word obind].
    destruct (Hfin _ (uitostr_prints _ _ _ t _ _ Hb Hp v Hv)) as (n & m' & E & Hrest). change (112 =? 120) with false in E. rewrite E. by exists m'. }
  destruct (Z.eqb_spec (length_bytes (cv_length cv)) 8) as [E8|E8].
  - destruct Harg as (lo & hi & -> & Hlo & Hhi & Hv & Hmin). cbn [app va_long obind].
    revert Hv. destruct (number_unsigned (cv_spec cv)); intros Hv.
    + destruct (Hfin _ (uitostr64_prints _ _ _ t _ _ Hb Hp v ltac:(lia))) as (n & m' & E & Hrest). rewrite Hv in E. rewrite E. by exists m'.
    + pose proof (s64_range (lo + 2 ^ 32 * hi)).
      destruct (Hfin _ (itostr64_prints _ _ _ t _ _ Hb Hp v ltac:(lia))) as (n & m' & E & Hrest). rewrite Hv in E. rewrite E. by exists m'.
  - destruct Harg as (w & -> & Hw & Hv & Hmin). cbn [app va_word obind].
    revert Hv. destruct (number_unsigned (cv_spec cv)); intros Hv.
    + destruct (Hfin _ (uitostr_prints _ _ _ t _ _ Hb Hp v ltac:(lia))) as (n & m' & E & Hrest). rewrite Hv in E. rewrite E. by exists m'.
    + pose proof (s32_range w).
      destruct (Hfin _ (itostr_prints _ _ _ t _ _ Hb Hp v ltac:(lia))) as (n & m' & E & Hrest). rewrite Hv in E. rewrite E. by exists m'.
Qed.

Lemma holds_arrays o xs m' : holds_out o xs -> (length xs <= N)%nat -> same_but_arrays (o_mem o) m' ->
  holds_out (Out m' (o_written o) (o_total o)) xs.
Proof.
  intros [Hw Ht Hb [Ha Hd]] HxN [Hs Hm]. split; cbn [o_written o_total o_mem]; try done.
  - apply (bytes_at_frame (o_mem o)); [|done]. intros i Hi. rewrite length_take in Hi.
    pose proof (ca_string _ _ _ _ Hcall). pose proof (ca_array _ _ _ _ Hcall). apply Hs; lia.
  - split; [|by auto]. intros q (Hq1 & Hq2 & Hq3). rewrite Hs by done. by apply Ha.
Qed.

(** The flags a conversion's characters stand for. *)
Definition right_flag (cv : conv) (flags : Z) : Prop :=
  (Z.land flags kVsnprintfFlagRightAlign =? 0) = negb (bool_decide (45 ∈ cv_flags cv)).
Definition zero_flag (cv : conv) (flags : Z) : Prop :=
  (Z.land flags kVsnprintfZeroPad =? 0) = negb (bool_decide (48 ∈ cv_flags cv)).

Lemma field_width W n : 0 <= W < 2 ^ 31 -> (n <= 65)%nat -> Z.to_nat (s32 (W - Z.of_nat n)) = (Z.to_nat W - n)%nat.
Proof. intros HW Hn. rewrite s32_small by lia. lia. Qed.

Lemma number_spec keep cv flags ws v s arg o xs :
  holds_out o xs -> keeps keep xs -> conv_ok cv -> number_arg cv ws v ->
  denotes (number_base (cv_spec cv)) (cv_spec cv =? 120) s v -> right_flag cv flags -> zero_flag cv flags ->
  (length xs + length (field cv s) <= N)%nat ->
  exists o', number k keep (cv_spec cv) flags (value 10 (cv_width cv)) (length_bytes (cv_length cv)) o (ws ++ arg) = Ok (o', arg)
    /\ holds_out o' (xs ++ field cv s).
Proof.
  intros Ho Hk Hcv Harg Hden Hr Hz HxN. unfold number.
  destruct (number_string_spec (o_mem o) cv ws v s arg (ho_agrees _ _ Ho) Harg Hden) as (m1 & -> & Hl & Hs & Hsame). cbn [obind].
  pose proof (value_nonneg 10 (cv_width cv) ltac:(lia) (cv_digits_ok _ Hcv)) as HW0. pose proof (cv_width_ok _ Hcv) as HW.
  unfold field in *. set (W := value 10 (cv_width cv)) in *. set (pre := if cv_spec cv =? 112 then _ else _) in *.
  pose proof (holds_arrays o xs m1 Ho ltac:(lia) Hsame) as Ho1.
  pose proof (ca_string _ _ _ _ Hcall) as Hapart. rewrite length_app in HxN.
  destruct (emit_literal_spec keep pre _ _ Ho1 Hk ltac:(lia)) as (o2 & -> & Ho2 & S2). cbn [obind o_mem] in *.
  pose proof (keeps_app _ _ pre Hk) as Hk2. apply (cstr_same _ _ _ s S2) in Hs; [|lia].
  rewrite Hr, negb_involutive. unfold zero_flag in Hz.
  destruct (bool_decide (45 ∈ cv_flags cv)); cbn [negb] in *; rewrite length_app, length_replicate in HxN.
  - cbn [obind]. pose proof (cstr_size _ _ _ Hs) as Hsz.
    destruct (emit_string_spec keep s (string_fuel (o_mem o2)) _ _ _ Hs ltac:(lia) ltac:(unfold string_fuel; lia) Ho2 Hk2) as (o3 & -> & Ho3 & S3);
      [rewrite length_app; lia|]. cbn [obind]. apply (cstr_same _ _ _ s S3) in Hs; [|lia].
    rewrite (strlen_spec _ _ _ Hs). cbn [obind]. rewrite field_width, pad_literal by lia.
    destruct (emit_literal_spec keep (replicate (Z.to_nat W - length s) 32) _ _ Ho3 (keeps_app _ _ s Hk2)) as (o4 & -> & Ho4 & _);
      [rewrite !length_app, length_replicate; lia|]. cbn [obind]. exists o4. split; [done|]. by rewrite <- !app_assoc in Ho4.
  - rewrite (strlen_spec _ _ _ Hs). cbn [obind]. rewrite field_width, pad_literal by lia. rewrite Hz.
    replace (if negb (bool_decide (48 ∈ cv_flags cv)) then 32 else 48) with (if bool_decide (48 ∈ cv_flags cv) then 48 else 32) by (by destruct (bool_decide _)).
    set (fill := replicate _ _) in *.
    destruct (emit_literal_spec keep fill _ _ Ho2 Hk2) as (o3 & -> & Ho3 & S3); [unfold fill; rewrite !length_app, length_replicate; lia|].
    cbn [obind]. apply (cstr_same _ _ _ s S3) in Hs; [|lia]. pose proof (cstr_size _ _ _ Hs) as Hsz.
    destruct (emit_string_spec keep s (string_fuel (o_mem o3)) _ _ _ Hs ltac:(lia) ltac:(unfold string_fuel; lia) Ho3 (keeps_app _ _ fill Hk2)) as (o4 & -> & Ho4 & _);
      [unfold fill; rewrite !length_app, length_replicate; lia|]. cbn [obind]. exists o4. split; [done|]. by rewrite <- !app_assoc in Ho4.
Qed.

(** ** Reading the format *)

Variable F : list Z.
Hypothesis HF : cstr m0 (c_format k) F.
Hypothesis HFout : forall q, c_format k <= q <= c_format k + Z.of_nat (length F) -> untouched k cap q.
Abbreviation G := (F ++ [0]).

Lemma format_cstr m : agrees m -> cstr m (c_format k) F.
Proof. intros Ha. by apply cstr_agrees. Qed.

(** The format from [n] on starts with [c]. *)
Lemma format_next m n c l : agrees m -> drop n G = c :: l ->
  format_at k m (Z.of_nat n) = Ok c /\ drop (S n) G = l /\ u32 (Z.of_nat n + 1) = Z.of_nat (S n).
Proof.
  intros Ha Hd. assert (Hc : G !! n = Some c) by (rewrite <- (Nat.add_0_r n), <- lookup_drop, Hd; done).
  pose proof HF as (_ & _ & ? & ?). pose proof (lookup_lt_Some _ _ _ Hc) as Hlt. rewrite length_app in Hlt. cbn in Hlt. split_and!.
  - unfold format_at. by apply (cstr_byte m (c_format k) F n c (format_cstr m Ha)).
  - rewrite <- Nat.add_1_r, <- drop_drop, Hd. done.
  - rewrite u32_small; lia.
Qed.

Definition flag_of (c : Z) : Z :=
  if c =? 48 then kVsnprintfZeroPad else if c =? 45 then kVsnprintfFlagRightAlign else kVsnprintfFlagForceSign.
Definition flags_from (flags : Z) (fl : list Z) : Z := fold_left (fun f c => Z.lor f (flag_of c)) fl flags.

Lemma flag_nonzero flags c : 0 <= flags -> 0 < Z.lor flags (flag_of c).
Proof.
  intros Hf. assert (Hn : 0 <= Z.lor flags (flag_of c)) by (apply Z.lor_nonneg; split; [done|]; unfold flag_of; zcases; done).
  assert (H0 : Z.lor flags (flag_of c) <> 0); [|lia]. intros [_ E]%Z.lor_eq_0_iff. revert E. unfold flag_of. zcases; done.
Qed.

Lemma fetch_flags_spec m fl : agrees m -> forall n flags fuel c0 rest, 0 <= flags -> drop n G = fl ++ c0 :: rest ->
  flags_ok (flags =? 0) fl -> c0 <> 45 -> c0 <> 43 -> (c0 = 48 -> fl <> [] \/ flags <> 0) -> (length fl <= fuel)%nat ->
  fetch_flags k fuel m (Z.of_nat n) flags = Ok (flags_from flags fl, Z.of_nat (n + length fl)).
Proof.
  intros Ha. induction fl as [|c fl IH]; intros n flags fuel c0 rest Hf Hd Hok N1 N2 H48 Hfuel; cbn [app length] in *.
  - destruct (format_next m n c0 rest Ha Hd) as (E & _ & _). rewrite Nat.add_0_r.
    destruct fuel; cbn [fetch_flags]; rewrite E; cbn [obind]; rewrite (proj2 (Z.eqb_neq c0 45)), (proj2 (Z.eqb_neq c0 43)) by done;
      (destruct (Z.eqb_spec c0 48) as [E48|]; [|done]); (destruct (H48 E48) as [|Hn]; [done|]);
      by rewrite (proj2 (Z.eqb_neq flags 0)).
  - destruct (format_next m n c (fl ++ c0 :: rest) Ha Hd) as (E & Hd' & Hu). destruct fuel as [|fuel]; [lia|].
    destruct Hok as [Hc Hok]. pose proof (flag_nonzero flags c Hf) as Hpos.
    assert (Hrec : fetch_flags k fuel m (Z.of_nat (S n)) (Z.lor flags (flag_of c)) = Ok (flags_from flags (c :: fl), Z.of_nat (n + S (length fl)))).
    { rewrite <- Nat.add_succ_comm. apply (IH (S n) (Z.lor flags (flag_of c)) fuel c0 rest); try done; try lia.
      by rewrite (proj2 (Z.eqb_neq _ _)) by lia. }
    cbn [fetch_flags]. rewrite E. cbn [obind]. rewrite Hu. unfold flag_of in Hrec.
    destruct Hc as [[-> Hz]|[->| ->]]; cbn [Z.eqb Pos.eqb] in *; [|exact Hrec..]. rewrite Hz. exact Hrec.
Qed.

Lemma flags_from_land bit c1 : (forall c, (Z.land (flag_of c) bit =? 0) = negb (c =? c1) \/ c <> 48 /\ c <> 45 /\ c <> 43) ->
  0 <= bit -> forall fl first flags, flags_ok first fl ->
  (Z.land (flags_from flags fl) bit =? 0) = (Z.land flags bit =? 0) && negb (bool_decide (c1 ∈ fl)).
Proof.
  intros Hbit Hb. induction fl as [|c fl IH]; intros first flags Hok.
  - cbn. by rewrite andb_true_r.
  - destruct Hok as [Hc Hok]. cbn [flags_from fold_left]. unfold flags_from in IH. rewrite (IH false) by done.
    destruct (Hbit c) as [Hc'|Hc']; [|lia]. rewrite Z.land_lor_distr_l.
    assert (Hor : forall a b, (Z.lor a b =? 0) = (a =? 0) && (b =? 0)).
    { intros a b. destruct (Z.eqb_spec (Z.lor a b) 0) as [E|E]; rewrite Z.lor_eq_0_iff in E; destruct (Z.eqb_spec a 0), (Z.eqb_spec b 0); tauto || done. }
    rewrite Hor, Hc', <- andb_assoc. f_equal. rewrite <- negb_orb. f_equal.
    destruct (Z.eqb_spec c c1) as [->|Hne]; cbn [orb].
    + symmetry. apply bool_decide_eq_true. apply list_elem_of_here.
    + apply bool_decide_ext. rewrite elem_of_cons. split; [by right|by intros [->|]].
Qed.

Lemma flags_right cv : flags_ok true (cv_flags cv) -> right_flag cv (flags_from 0 (cv_flags cv)).
Proof.
  intros Hok. unfold right_flag. rewrite (flags_from_land kVsnprintfFlagRightAlign 45) with (first := true); try done.
  intros c. unfold flag_of. destruct (Z.eqb_spec c 48) as [->|]; [by left|]. destruct (Z.eqb_spec c 45) as [->|]; by left.
Qed.

Lemma flags_zero cv : flags_ok true (cv_flags cv) -> zero_flag cv (flags_from 0 (cv_flags cv)).
Proof.
  intros Hok. unfold zero_flag. rewrite (flags_from_land kVsnprintfZeroPad 48) with (first := true); try done.
  intros c. unfold flag_of. destruct (Z.eqb_spec c 48) as [->|]; [by left|]. destruct (Z.eqb_spec c 45) as [->|]; by left.
Qed.

Lemma drop_past n (xs ys : list Z) : drop n G = xs ++ ys -> drop (n + length xs) G = ys.
Proof. intros Hd. by rewrite <- drop_drop, Hd, drop_app_length. Qed.

Lemma fetch_width_spec m ds : agrees m -> forall n fuel r c0 rest, drop n G = (Z.add 48 <$> ds) ++ c0 :: rest ->
  Forall (fun d => 0 <= d < 10) ds -> isdigit (char c0) = false -> (length ds <= fuel)%nat ->
  0 <= r -> fold_left (fun v d => v * 10 + d) ds r < 2 ^ 31 ->
  fetch_width k fuel m (Z.of_nat n) r = Ok (fold_left (fun v d => v * 10 + d) ds r, Z.of_nat (n + length ds)).
Proof.
  intros Ha. induction ds as [|d ds IH]; intros n fuel r c0 rest Hd Hf H0 Hfuel Hr Hb; cbn [app length fmap list_fmap] in *.
  - destruct (format_next m n c0 rest Ha Hd) as (E & _ & _). rewrite Nat.add_0_r.
    destruct fuel; cbn [fetch_width]; rewrite E; cbn [obind]; by rewrite H0.
  - destruct (format_next m n (48 + d) _ Ha Hd) as (E & Hd' & Hu). destruct fuel as [|fuel]; [lia|].
    apply Forall_cons in Hf as [Hd0 Hf]. cbn [fetch_width fold_left] in *. rewrite E. cbn [obind].
    assert (Hch : char (48 + d) = 48 + d) by (unfold char; zcases; lia). rewrite Hch.
    replace (isdigit (48 + d)) with true by (unfold isdigit; zcases; lia). rewrite Hu, Z.add_simpl_l.
    pose proof (fold_digits_ge ds (r * 10 + d) ltac:(lia) Hf). rewrite (s32_small (r * 10)) by lia. rewrite s32_small by lia.
    rewrite (IH (S n) fuel (r * 10 + d) c0 rest) by (done || lia). by rewrite Nat.add_succ_comm.
Qed.

Lemma fetch_length_spec m n lm sp rest : agrees m -> drop n G = length_text lm ++ sp :: rest -> sp <> 104 -> sp <> 108 ->
  fetch_length k m (Z.of_nat n) = Ok (length_bytes lm, Z.of_nat (n + length (length_text lm))).
Proof.
  intros Ha Hd N1 N2. pose proof (proj2 (Z.eqb_neq _ _) N1) as B1. pose proof (proj2 (Z.eqb_neq _ _) N2) as B2.
  unfold fetch_length. destruct lm; cbn [length_text app length length_bytes] in *;
    destruct (format_next m n _ _ Ha Hd) as (-> & Hd1 & Hu1); cbn [obind Z.eqb Pos.eqb]; rewrite ?B1, ?B2, ?Nat.add_0_r; try done.
  all: destruct (format_next m (S n) _ _ Ha Hd1) as (E1 & Hd2 & Hu2); rewrite Hu1, E1; cbn [obind Z.eqb Pos.eqb];
    rewrite ?B1, ?B2, ?Hu2; repeat f_equal; lia.
Qed.

(** ** Items *)

(** A stretch no byte of which is in the buffer lies before it or behind it. *)
Lemma untouched_apart p n : (forall q, p <= q <= p + Z.of_nat n -> untouched k cap q) ->
  p + Z.of_nat n < c_buffer k \/ c_buffer k + Z.of_nat cap <= p.
Proof.
  intros Hout. destruct (decide (p + Z.of_nat n < c_buffer k)); [by left|].
  destruct (decide (c_buffer k + Z.of_nat cap <= p)); [by right|]. exfalso.
  destruct (Hout (Z.max p (c_buffer k)) ltac:(lia)) as [Hq _]. lia.
Qed.

Lemma conversion_spec keep cv ws ys arg o xs :
  holds_out o xs -> keep = bool_decide (length xs < sz)%nat -> conv_ok cv -> shows m0 (untouched k cap) (Item cv) ws ys ->
  (cv_spec cv = 99 -> keep = true) -> (length xs + length ys <= N)%nat ->
  exists o', conversion k keep (cv_spec cv) (flags_from 0 (cv_flags cv)) (value 10 (cv_width cv)) (length_bytes (cv_length cv)) o (ws ++ arg)
    = Ok (o', arg) /\ holds_out o' (xs ++ ys).
Proof.
  intros Ho Hk Hcv Hsh Hchar HxN. unfold conversion.
  assert (Hkeeps : keeps keep xs) by (intros E; rewrite Hk in E; apply bool_decide_eq_false in E; lia).
  inversion Hsh as [|? Hsp|? w Hsp|? Hsp|? p s Hsp Hp Hs Hout|? ? v s Hsp Harg Hden]; subst; rewrite ?Hsp in *; cbn [Z.eqb Pos.eqb app] in *.
  - destruct (emit_spec o xs 37 _ Ho ltac:(cbn in HxN; lia) eq_refl) as (o' & E & Ho' & _).
    change (bool_decide (37 ∈ [105; 100; 112; 120; 88; 117])) with false. cbn [Z.eqb Pos.eqb]. rewrite E. by exists o'.
  - destruct (emit_spec o xs (u8 w) _ Ho ltac:(cbn in HxN; lia) eq_refl) as (o' & E & Ho' & _).
    rewrite (Hchar eq_refl) in *. cbn [va_word obind]. rewrite E. by exists o'.
  - cbn [va_word obind]. rewrite Z.eqb_refl.
    destruct (emit_literal_spec _ [40; 110; 117; 108; 108; 41] o xs Ho Hkeeps HxN) as (o' & E & Ho' & _). rewrite E. by exists o'.
  - cbn [va_word obind]. rewrite (proj2 (Z.eqb_neq _ _)) by done.
    pose proof (cstr_agrees _ _ _ (ho_agrees _ _ Ho) Hout Hs) as Hs'. pose proof (cstr_size _ _ _ Hs') as Hsz.
    destruct (emit_string_spec (bool_decide (length xs < sz)%nat) ys (string_fuel (o_mem o)) p o xs Hs') as (o' & E & Ho' & _); try done.
    + by apply untouched_apart.
    + unfold string_fuel. lia.
    + rewrite E. by exists o'.
  - rewrite (bool_decide_true (cv_spec cv ∈ _)) by done.
    destruct (number_spec (bool_decide (length xs < sz)%nat) cv (flags_from 0 (cv_flags cv)) ws v s arg o xs) as (o' & E & Ho');
      [done..|apply flags_right, Hcv|apply flags_zero, Hcv|done|]. 
    rewrite E. pose proof (numeric_cases _ Hsp) as Hn. exists o'. split; [|done]. by destruct Hn as [->|[->|[->|[->|[->| ->]]]]].
Qed.

(** The character that ends the width, and the one that ends the flags. *)
Lemma after_width cv rest : conv_ok cv ->
  exists c0 r, length_text (cv_length cv) ++ cv_spec cv :: rest = c0 :: r /\ isdigit (char c0) = false /\ c0 <> 45 /\ c0 <> 43 /\ c0 <> 48.
Proof.
  intros Hcv. destruct (cv_length cv); cbn [length_text app]; eexists _, _; (split; [done|]); try done.
  pose proof (spec_cases cv Hcv) as Hsp. rewrite !elem_of_cons, elem_of_nil in Hsp. 
  repeat destruct Hsp as [->|Hsp]; done.
Qed.

Lemma after_flags cv rest : conv_ok cv ->
  exists c0 r, (Z.add 48 <$> cv_width cv) ++ length_text (cv_length cv) ++ cv_spec cv :: rest = c0 :: r
    /\ c0 <> 45 /\ c0 <> 43 /\ (c0 = 48 -> cv_flags cv <> []).
Proof.
  intros Hcv. destruct (after_width cv rest Hcv) as (c0 & r & E & _ & N1 & N2 & N3).
  pose proof (cv_digits_ok _ Hcv) as Hd. pose proof (cv_first_ok _ Hcv) as Hfirst.
  destruct (cv_width cv) as [|d ds]; cbn [fmap list_fmap app head] in *; [by exists c0, r|].
  apply Forall_cons in Hd as [Hd _]. eexists _, _. split; [done|]. split_and!; [lia|lia|].
  intros E48 Hnil. apply (Hfirst Hnil). f_equal. lia.
Qed.

(** A copy of the loop reads the length modifier of [cv] as the kernel does and
    knows its conversion. *)
Record speaks (d : printer) (cv : conv) : Prop := {
  sp_length : forall m index c, head (length_text (cv_length cv) ++ [cv_spec cv]) = Some c ->
    format_at k m index = Ok c -> pr_length d m index = fetch_length k m index;
  sp_conversion : forall keep flags width typeLength o arg,
    pr_conversion d keep (cv_spec cv) flags width typeLength o arg = conversion k keep (cv_spec cv) flags width typeLength o arg
}.

Lemma kernel_speaks cv : speaks (kernel_printer k) cv.
Proof. by split. Qed.

Definition item_spoken (d : printer) (i : item) : Prop := match i with Plain _ => True | Item cv => speaks d cv end.

Lemma directive_spec d keep cv ws ys arg o xs n rest :
  holds_out o xs -> keep = bool_decide (length xs < sz)%nat -> conv_ok cv -> speaks d cv -> shows m0 (untouched k cap) (Item cv) ws ys ->
  (cv_spec cv = 99 -> keep = true) -> (length xs + length ys <= N)%nat -> drop n G = conv_text cv ++ rest ->
  exists o' n', directive k d keep (Z.of_nat n) o (ws ++ arg) = Ok (o', arg, Z.of_nat n') /\ holds_out o' (xs ++ ys)
    /\ (n' < length G)%nat /\ drop (S n') G = rest.
Proof.
  intros Ho Hk Hcv Hspk Hsh Hchar HxN Hd. unfold directive, conv_text in *. rewrite <- !app_assoc in Hd. cbn [app] in Hd.
  pose proof (ho_agrees _ _ Ho) as Ha. pose proof (cstr_size _ _ _ (format_cstr _ Ha)) as Hsz.
  assert (Hlen : (length (cv_flags cv) + length (cv_width cv) + length (length_text (cv_length cv)) + n < length G)%nat).
  { pose proof (f_equal length Hd) as Hl. rewrite length_drop, !length_app, length_fmap in Hl. cbn in Hl. rewrite length_app. cbn. lia. }
  rewrite length_app in Hlen. cbn in Hlen.
  destruct (after_flags cv rest Hcv) as (c1 & r1 & E1 & N1 & N2 & N3). destruct (after_width cv rest Hcv) as (c2 & r2 & E2 & D2 & _).
  rewrite (fetch_flags_spec (o_mem o) (cv_flags cv) Ha n 0 _ c1 r1); [|lia|by rewrite Hd, E1|apply Hcv|done|done| |unfold string_fuel; lia].
  2:{ intros E48. left. by apply N3. }
  cbn [obind]. assert (Hd2 := drop_past _ _ _ Hd).
  rewrite (fetch_width_spec (o_mem o) (cv_width cv) Ha (n + length (cv_flags cv)) _ 0 c2 r2);
    [|by rewrite Hd2, E2|apply Hcv|done|unfold string_fuel; lia|lia|apply Hcv].
  cbn [obind]. assert (Hd3 := drop_past _ _ _ Hd2). rewrite length_fmap in Hd3.
  pose proof (spec_cases cv Hcv) as Hsp. rewrite !elem_of_cons, elem_of_nil in Hsp.
  assert (Hlm : exists c r, length_text (cv_length cv) ++ cv_spec cv :: rest = c :: r
    /\ head (length_text (cv_length cv) ++ [cv_spec cv]) = Some c) by (destruct (cv_length cv); eexists _, _; split; reflexivity).
  destruct Hlm as (c3 & r3 & E3 & Hc3). pose proof Hd3 as Hd3'. rewrite E3 in Hd3'.
  destruct (format_next (o_mem o) _ _ _ Ha Hd3') as (F3 & _ & _). rewrite (sp_length _ _ Hspk _ _ _ Hc3 F3).
  rewrite (fetch_length_spec (o_mem o) _ (cv_length cv) (cv_spec cv) rest Ha Hd3) by lia.
  cbn [obind]. assert (Hd4 := drop_past _ _ _ Hd3).
  destruct (format_next (o_mem o) _ _ _ Ha Hd4) as (-> & Hd5 & _). cbn [obind]. rewrite (sp_conversion _ _ Hspk).
  destruct (conversion_spec keep cv ws ys arg o xs Ho Hk Hcv Hsh Hchar HxN) as (o' & E & Ho'). unfold value in E. rewrite E. cbn [obind].
  eexists o', _. split_and!; [done|done|rewrite length_app; cbn; lia|done].
Qed.

(** ** The loop *)

Lemma vsnprintf_loop_spec d es : forall n fuel keep o xs, holds_out o xs -> keeps keep xs ->
  Forall (fun e => item_ok (en_item e) /\ shows m0 (untouched k cap) (en_item e) (en_words e) (en_text e)) es ->
  Forall (fun e => item_spoken d (en_item e)) es -> (N < sz)%nat \/ Forall (fun e => ~ is_char (en_item e)) es ->
  drop n G = format_of es ++ [0] -> (length xs + length (text_of es) <= N)%nat -> (length (format_of es) <= fuel)%nat ->
  exists o', vsnprintf_loop k d fuel keep (Z.of_nat n) o (words_of es) = Ok o' /\ holds_out o' (xs ++ text_of es).
Proof.
  induction es as [|[i ws ys] es IH]; intros n fuel keep o xs Ho Hkp Hes Hspk Hch Hd HxN Hfuel; pose proof (ho_agrees _ _ Ho) as Ha.
  { destruct (format_next (o_mem o) n _ _ Ha Hd) as (E & _ & _). exists o. cbn. rewrite app_nil_r. split; [|done].
    destruct fuel; cbn [vsnprintf_loop]; by rewrite E. }
  apply Forall_cons in Hes as [[Hi Hsh] Hes]. apply Forall_cons in Hspk as [Hsi Hspk]. cbn [en_item en_words en_text] in *.
  assert (Hch' : (N < sz)%nat \/ Forall (fun e => ~ is_char (en_item e)) es).
  { destruct Hch as [|[_ ?]%Forall_cons]; [by left|by right]. }
  unfold format_of, words_of, text_of in *. cbn [fmap list_fmap concat en_item en_words en_text] in *.
  rewrite length_app in HxN, Hfuel. rewrite <- app_assoc in Hd.
  set (keep' := bool_decide (length xs < sz)%nat).
  assert (Hkeep : (if c_size k <=? o_written o then false else keep) = keep').
  { unfold keep'. rewrite (ho_written _ _ Ho). destruct keep; [|specialize (Hkp eq_refl)]; case_bool_decide; zcases; lia. }
  assert (Hkp' : keeps keep' (xs ++ ys)).
  { apply keeps_app. unfold keep'. intros E%bool_decide_eq_false. lia. }
  destruct i as [c|cv]; cbn [item_text app length] in *.
  - inversion Hsh; subst. destruct (format_next (o_mem o) n _ _ Ha Hd) as (E & Hd' & Hu). destruct Hi as [Hc N37].
    destruct fuel as [|fuel]; [lia|]. cbn [vsnprintf_loop]. rewrite E. cbn [obind]. rewrite (proj2 (Z.eqb_neq c 0)) by lia.
    rewrite Hkeep, (proj2 (Z.eqb_neq c 37)) by done. cbn [length] in HxN.
    destruct (emit_spec o xs c keep' Ho ltac:(lia) eq_refl) as (o1 & -> & Ho1 & _). cbn [obind app]. rewrite Hu.
    destruct (IH (S n) fuel keep' o1 (xs ++ [c])) as (o2 & E2 & Ho2); try done; [rewrite length_app; cbn; lia|lia|].
    exists o2. rewrite <- app_assoc in Ho2. done.
  - destruct (format_next (o_mem o) n _ _ Ha Hd) as (E & Hd' & Hu). destruct fuel as [|fuel]; [lia|].
    cbn [vsnprintf_loop]. rewrite E. cbn [obind]. change (37 =? 0) with false. cbn iota. rewrite Hkeep, Z.eqb_refl, Hu.
    assert (Hc : cv_spec cv = 99 -> keep' = true).
    { intros E99. destruct Hch as [|[Hnc _]%Forall_cons]; [|done]. apply bool_decide_eq_true. lia. }
    destruct (directive_spec d keep' cv ws ys (concat (en_words <$> es)) o xs (S n) _ Ho eq_refl Hi Hsi Hsh Hc ltac:(lia) Hd')
      as (o1 & n' & -> & Ho1 & Hn' & Hd2).
    cbn [obind].
    pose proof HF as (_ & _ & ? & ?). rewrite length_app in Hn'. cbn in Hn'. 
    replace (u32 (Z.of_nat n' + 1)) with (Z.of_nat (S n')) by (rewrite u32_small; lia).
    destruct (IH (S n') fuel keep' o1 (xs ++ ys)) as (o2 & E2 & Ho2); try done; [rewrite length_app; lia|lia|].
    exists o2. rewrite <- app_assoc in Ho2. done.
Qed.

(** The terminator goes behind the text, or over its last byte when it does not fit. *)
Lemma terminate o xs : holds_out o xs -> length xs = N ->
  exists m', store (o_mem o) (u32 (c_buffer k + (if c_size k <=? o_written o then u32 (o_written o - 1) else o_written o))) 0 = Ok m'
    /\ bytes_at m' (c_buffer k) (take (sz - 1) xs ++ [0]) /\ agrees m'.
Proof.
  intros [Hw _ Hb Ha] Hl. pose proof (ca_room _ _ _ _ Hcall) as (Hb0 & Hb1 & Hmap). set (j := ((sz - 1) `min` N)%nat).
  assert (Ej : (if c_size k <=? o_written o then u32 (o_written o - 1) else o_written o) = Z.of_nat j).
  { rewrite Hw. unfold j. destruct (Z.leb_spec (c_size k) (Z.of_nat (sz `min` length xs))); [rewrite u32_small|]; lia. }
  rewrite Ej, u32_small by lia. unfold store. rewrite decide_True by (apply Ha, Hmap; lia). eexists. split; [done|].
  assert (Hj : length (take (sz - 1) xs) = j) by (rewrite length_take; lia). split.
  - apply bytes_at_app. rewrite Hj. split; [|cbn; by rewrite lookup_insert_eq]. apply bytes_at_insert; [lia|].
    rewrite <- (take_drop (sz - 1) (take sz xs)), take_take, Nat.min_l in Hb by lia. by apply bytes_at_app in Hb as [Hb _].
  - eapply agrees_buffer; [done|]. split; intros q Hq; [apply lookup_insert_ne; lia|]. apply lookup_insert_is_Some'. by right.
Qed.
End Call.

(** What a call of any copy prints, for a format whose conversions it knows. *)
Lemma formats_by d k m t es (N := length (text_of es)) (cap := (Z.to_nat (c_size k) `min` S N)%nat) :
  callable k cap m t -> 0 < c_size k < 2 ^ 32 -> Z.of_nat N < 2 ^ 31 ->
  cstr m (c_format k) (format_of es) ->
  (forall q, c_format k <= q <= c_format k + Z.of_nat (length (format_of es)) -> untouched k cap q) ->
  Forall (fun e => item_ok (en_item e) /\ shows m (untouched k cap) (en_item e) (en_words e) (en_text e)) es ->
  Forall (fun e => item_spoken k d (en_item e)) es ->
  (N < Z.to_nat (c_size k))%nat \/ Forall (fun e => ~ is_char (en_item e)) es ->
  exists m', vsnprintf_by k d m (words_of es) = Ok (Z.of_nat N, m')
    /\ bytes_at m' (c_buffer k) (take (Z.to_nat (c_size k) - 1) (text_of es) ++ [0])
    /\ forall q, untouched k cap q -> m' !! q = m !! q.
Proof.
  intros Hca Hsz HN HF HFout Hes Hspk Hch. unfold vsnprintf_by. pose proof (cstr_size _ _ _ HF) as Hsize.
  assert (Ho : holds_out k m N (Out m 0 0) []).
  { split; cbn; [by rewrite Nat.min_0_r|done|by rewrite take_nil|by split]. }
  destruct (vsnprintf_loop_spec k m N t Hca Hsz HN (format_of es) HF HFout d es 0 (string_fuel m) true _ [] Ho) as (o & E & Ho');
    try done; [unfold string_fuel; lia|]. change (Z.of_nat 0) with 0 in E. rewrite E. cbn [obind].
  rewrite (proj2 (Z.eqb_neq _ _)) by apply Hca. cbn [negb].
  destruct (terminate k m N t Hca Hsz HN o (text_of es) Ho' eq_refl) as (m' & -> & Hb & Ha). cbn [obind]. exists m'.
  rewrite (ho_total _ _ _ _ _ Ho'). change (length ([] ++ text_of es)) with N. rewrite s32_small by lia. split_and!; [done|done|apply Ha].
Qed.

(** C28: for a format made of plain characters and conversions, with arguments of
    the right kind, [vsnprintf] returns the length of the whole text and leaves
    its first [size] - 1 bytes and a terminator in the buffer, writing only
    there and in its local arrays; where the text is longer than the buffer the
    format must have no character conversion. *)
Theorem vsnprintf_formats k m t es (N := length (text_of es)) (cap := (Z.to_nat (c_size k) `min` S N)%nat) :
  callable k cap m t -> 0 < c_size k < 2 ^ 32 -> Z.of_nat N < 2 ^ 31 ->
  cstr m (c_format k) (format_of es) ->
  (forall q, c_format k <= q <= c_format k + Z.of_nat (length (format_of es)) -> untouched k cap q) ->
  Forall (fun e => item_ok (en_item e) /\ shows m (untouched k cap) (en_item e) (en_words e) (en_text e)) es ->
  (N < Z.to_nat (c_size k))%nat \/ Forall (fun e => ~ is_char (en_item e)) es ->
  exists m', vsnprintf k m (words_of es) = Ok (Z.of_nat N, m')
    /\ bytes_at m' (c_buffer k) (take (Z.to_nat (c_size k) - 1) (text_of es) ++ [0])
    /\ forall q, untouched k cap q -> m' !! q = m !! q.
Proof.
  intros Hca Hsz HN HF HFout Hes Hch. apply (formats_by (kernel_printer k) k m t es); try done.
  apply Forall_forall. intros [[c|cv] ? ?] _; [done|apply kernel_speaks].
Qed.

(** ** A concrete call *)

(** [snprintf(buffer, 16, "n=%-4d|%c", 42, 'A')], the buffer at 700 and the format
    at 600. *)
Definition demo_call : call := Call 700 16 600 256 demo_layout.
Definition demo_entries : list entry :=
  [Entry (Plain 110) [] [110]; Entry (Plain 61) [] [61];
   Entry (Item (Conv [45] [4] LengthNone 100)) [42] [52; 50; 32; 32];
   Entry (Plain 124) [] [124]; Entry (Item (Conv [] [] LengthNone 99)) [65] [65]].
Definition call_mem : mem := write (write print_mem 600 (format_of demo_entries ++ [0])) 700 (replicate 16 0).

Lemma demo_callable : callable demo_call 9 call_mem [].
Proof.
  split; try done; try (cbn; lia); [apply room_decide; [done|cbn; lia|by vm_compute]|].
  split; try (cbn; lia); try (apply room_decide; [done|cbn; lia|by vm_compute]).
  all: split_and!; [by vm_compute|repeat constructor; lia|cbn; lia|cbn; lia].
Qed.

Lemma demo_shows : Forall (fun e => item_ok (en_item e)
  /\ shows call_mem (untouched demo_call 9) (en_item e) (en_words e) (en_text e)) demo_entries.
Proof.
  assert (Hd : conv_ok (Conv [45] [4] LengthNone 100)).
  { split; cbn; try done; try lia; [repeat constructor; lia|]. do 3 right. by apply (bool_decide_unpack _). }
  assert (Hc : conv_ok (Conv [] [] LengthNone 99)) by (split; cbn; try done; lia).
  assert (Hs : shows call_mem (untouched demo_call 9) (Item (Conv [45] [4] LengthNone 100)) [42] [52; 50; 32; 32]).
  { change [52; 50; 32; 32] with (field (Conv [45] [4] LengthNone 100) [52; 50]). apply shows_number with 42.
    - by apply (bool_decide_unpack _).
    - exists 42. by split_and!.
    - exists [4; 2]. split_and!; try done. repeat constructor; cbn; lia. }
  repeat (apply Forall_cons; split; cbn [en_item en_words en_text]); try apply Forall_nil_2;
    (split; [done || (cbn; lia)|]); try apply shows_plain; [done|].
  by apply (shows_char _ _ _ 65).
Qed.

Lemma vsnprintf_formats_witness : exists m', vsnprintf demo_call call_mem [42; 65] = Ok (8, m')
  /\ bytes_at m' 700 [110; 61; 52; 50; 32; 32; 124; 65; 0]
  /\ forall q, untouched demo_call 9 q -> m' !! q = call_mem !! q.
Proof.
  apply (vsnprintf_formats demo_call call_mem [] demo_entries); [apply demo_callable|cbn; lia|cbn; lia| | |apply demo_shows|left; cbn; lia].
  - split_and!; [by vm_compute|repeat constructor; lia|cbn; lia|cbn; lia].
  - intros q Hq. unfold untouched. cbn in *. lia.
Defined.

(** With a size of zero the terminator goes to the byte before the buffer. *)
Lemma vsnprintf_size_zero : match vsnprintf (Call 701 0 600 256 demo_layout) (<[700 := 7]> call_mem) [42; 65] with
                            | Ok (_, m') => m' !! 700 = Some 0
                            | _ => False
                            end.
Proof. by vm_compute. Qed.

(** A format that ends in a percent sign is read past its terminator. *)
Lemma vsnprintf_trailing_percent :
  vsnprintf demo_call (write (write print_mem 600 [37; 0]) 700 (replicate 16 0)) [] = Fault.
Proof. by vm_compute. Qed.
