(* ===== verification/LibcCopies.v ===== *)
(** * The copies of the C library

    Programs (lib/libc) and drivers (libkernel) do not link against the kernel's C
    library: each has its own copy of string.c, stdlib.c and stdio.c, and the log of
    the drivers' object library (libio/IOLog.cpp) has one more copy of the
    formatting loop.  string.c is the kernel's line by line; stdlib.c has a choice
    of its functions; the formatting loops differ from the kernel's in the length
    modifiers they read and the conversions they know.  Each copy is shown to
    print what the kernel's [vsnprintf] prints, on the formats where it reads the
    same directives. *)

From S2P Require Import Prelude CString CStdlib Stdio StdioCorrect.

(** ** string.c *)

(** A copy of string.c: the functions on blocks of bytes and those on strings. *)
Record memory_functions := MemoryFunctions {
  lib_memset : mem -> Z -> Z -> Z -> outcome mem;
  lib_memcpy : mem -> Z -> Z -> Z -> outcome mem
}.

Record string_functions := StringFunctions {
  lib_strcpy : mem -> Z -> Z -> outcome (Z * mem);
  lib_strlcpy : mem -> Z -> Z -> Z -> outcome (Z * mem);
  lib_strlen : mem -> Z -> outcome Z;
  lib_strcmp : mem -> Z -> Z -> outcome Z;
  lib_strncmp : mem -> Z -> Z -> Z -> outcome Z;
  lib_strstr : mem -> Z -> Z -> outcome Z;
  lib_strpbrk : mem -> Z -> Z -> outcome Z
}.

(** In a program. *)
Definition user_memory : memory_functions := MemoryFunctions memset memcpy.
Definition user_string : string_functions := StringFunctions strcpy strlcpy strlen strcmp strncmp strstr strpbrk.

(** In a driver. *)
Definition libkernel_memory : memory_functions := MemoryFunctions memset memcpy.
Definition libkernel_string : string_functions := StringFunctions strcpy strlcpy strlen strcmp strncmp strstr strpbrk.

(** ** stdlib.c *)

(** The printers of 32-bit numbers, and those of 64-bit numbers only the kernel and
    its drivers have. *)
Record number_printers := NumberPrinters {
  lib_itostr : layout -> mem -> Z -> Z -> Z -> bool -> outcome (Z * mem);
  lib_uitostr : layout -> mem -> Z -> Z -> Z -> bool -> outcome (Z * mem)
}.

Definition user_atoi (m : mem) (string : Z) : outcome Z := atoi m string.
Definition user_printers : number_printers := NumberPrinters _itostr _uitostr.

Definition libkernel_atoi (m : mem) (string : Z) : outcome Z := atoi m string.
Definition libkernel_printers : number_printers := NumberPrinters _itostr _uitostr.
Definition libkernel_printers64 : number_printers := NumberPrinters _itostr64 _uitostr64.

(** ** The formatting loops *)

Section Copies.
Variable k : call.

(** A program's loop reads no length modifier, takes a word for every number, and
    prints nothing for a conversion to a pointer of a counter. *)
Definition user_length (m : mem) (index : Z) : outcome (Z * Z) := Ok (4, index).

Definition user_conversion (keepWriting : bool) (specifier flags width typeLength : Z) (o : out) (arg : list Z) : outcome (out * list Z) :=
  if specifier =? 99 then
    if keepWriting then
      let* (v, arg) := va_word arg in
      let* o := emit k true (u8 v) o in Ok (o, arg)
    else let* o := emit k false 0 o in Ok (o, arg)
  else if specifier =? 115 then
    let* (string, arg) := va_word arg in
    let* o := if string =? NULL then emit_literal k keepWriting [40; 110; 117; 108; 108; 41] o
              else emit_string k (string_fuel (o_mem o)) keepWriting string o in
    Ok (o, arg)
  else if bool_decide (specifier ∈ [105; 100; 112; 120; 88; 117]) then
    number k keepWriting specifier flags width typeLength o arg
  else if specifier =? 37 then
    let* o := emit k keepWriting 37 o in Ok (o, arg)
  else Ok (o, arg).

Definition user_printer : printer := Printer user_length user_conversion.
Definition user_vsnprintf (m : mem) (arg : list Z) : outcome (Z * mem) := vsnprintf_by k user_printer m arg.

(** A driver's loop looks for the letter of a decimal number where the kernel looks
    for the letter of a long one. *)
Definition libkernel_length (m : mem) (index : Z) : outcome (Z * Z) :=
  let* c := format_at k m index in
  if c =? 104 then
    let index := u32 (index + 1) in
    let* c := format_at k m index in
    Ok (if c =? 104 then (1, u32 (index + 1)) else (2, index))
  else if c =? 105 then
    let index := u32 (index + 1) in
    let* c := format_at k m index in
    Ok (if c =? 105 then (8, u32 (index + 1)) else (4, index))
  else Ok (4, index).

Definition libkernel_conversion := user_conversion.
Definition libkernel_printer : printer := Printer libkernel_length libkernel_conversion.
Definition libkernel_vsnprintf (m : mem) (arg : list Z) : outcome (Z * mem) := vsnprintf_by k libkernel_printer m arg.

(** The log of the object library also prints objects: [describe] is the virtual
    [description] of the object and the characters of the string it returns. *)
Section Log.
Variable describe : mem -> Z -> outcome (Z * mem).

Definition iolog_conversion (keepWriting : bool) (specifier flags width typeLength : Z) (o : out) (arg : list Z) : outcome (out * list Z) :=
  if specifier =? 64 then
    let* (object, arg) := va_word arg in
    if object =? NULL then let* o := emit_literal k keepWriting [40; 110; 117; 108; 108; 41] o in Ok (o, arg)
    else
      let* (printString, m) := describe (o_mem o) object in
      let o := Out m (o_written o) (o_total o) in
      let* o := emit_string k (string_fuel (o_mem o)) keepWriting printString o in Ok (o, arg)
  else user_conversion keepWriting specifier flags width typeLength o arg.

Definition iolog_printer : printer := Printer libkernel_length iolog_conversion.
Definition __IOvsnprintf (m : mem) (arg : list Z) : outcome (Z * mem) := vsnprintf_by k iolog_printer m arg.
End Log.
End Copies.

(** ** The callers *)

Definition user_vsprintf (k : call) (m : mem) (arg : list Z) : outcome (Z * mem) :=
  user_vsnprintf (Call (c_buffer k) UINT32_MAX (c_format k) (c_string k) (c_layout k)) m arg.
Definition user_snprintf (k : call) (m : mem) (arg : list Z) : outcome (Z * mem) := user_vsnprintf k m arg.
Definition user_sprintf (k : call) (m : mem) (arg : list Z) : outcome (Z * mem) := user_vsprintf k m arg.

Definition libkernel_vsprintf (k : call) (m : mem) (arg : list Z) : outcome (Z * mem) :=
  libkernel_vsnprintf (Call (c_buffer k) UINT32_MAX (c_format k) (c_string k) (c_layout k)) m arg.
Definition libkernel_snprintf (k : call) (m : mem) (arg : list Z) : outcome (Z * mem) := libkernel_vsnprintf k m arg.
Definition libkernel_sprintf (k : call) (m : mem) (arg : list Z) : outcome (Z * mem) := libkernel_vsprintf k m arg.

(** The printers with an array of their own at [buffer], and what they hand it to:
    the system call of a program, the primitive log of a driver. *)
Definition SYS_PRINT : Z := 0.
Definition PRINT_SIZE : Z := 1024.

Section Output.
Context {W : Type} (syscall : Z -> list Z -> mem -> W -> outcome (mem * W))
  (__io_primitiveLog : mem -> Z -> bool -> W -> outcome W).

Definition user_puts (m : mem) (string : Z) (w : W) : outcome (mem * W) := syscall SYS_PRINT [string] m w.

Definition user_printf (k : call) (m : mem) (arg : list Z) (w : W) : outcome (mem * W) :=
  let* (_, m) := user_vsnprintf (Call (c_buffer k) PRINT_SIZE (c_format k) (c_string k) (c_layout k)) m arg in
  user_puts m (c_buffer k) w.

Definition libkernel_printf (k : call) (m : mem) (arg : list Z) (w : W) : outcome (mem * W) :=
  let* (_, m) := libkernel_vsnprintf (Call (c_buffer k) PRINT_SIZE (c_format k) (c_string k) (c_layout k)) m arg in
  let* w := __io_primitiveLog m (c_buffer k) false w in
  Ok (m, w).

Definition IOLog (describe : mem -> Z -> outcome (Z * mem)) (k : call) (m : mem) (arg : list Z) (w : W) : outcome (mem * W) :=
  let* (_, m) := __IOvsnprintf (Call (c_buffer k) PRINT_SIZE (c_format k) (c_string k) (c_layout k)) describe m arg in
  let* w := __io_primitiveLog m (c_buffer k) true w in
  Ok (m, w).

(** Leaving a program: a system call that does not return, and a loop behind it. *)
Definition SYS_EXIT : Z := 1.
Definition exit (m : mem) (status : Z) (w : W) : outcome (mem * W) :=
  let* _ := syscall SYS_EXIT [status] m w in Hang.
Definition abort (m : mem) (w : W) : outcome (mem * W) :=
  let* _ := syscall SYS_EXIT [0] m w in Hang.
End Output.

(** ** What they print *)

(** Conversions the copies read as the kernel does. *)
Definition plain_length (cv : conv) : Prop := cv_length cv = LengthNone.

Definition short_length (cv : conv) : Prop :=
  match cv_length cv with LengthNone => cv_spec cv <> 105 | LengthH | LengthHH => True | LengthL | LengthLL => False end.

Definition every (P : conv -> Prop) (es : list entry) : Prop :=
  Forall (fun e => match en_item e with Plain _ => True | Item cv => P cv end) es.

Lemma every_spoken (P : conv -> Prop) k d es : (forall cv, conv_ok cv -> P cv -> speaks k d cv) ->
  Forall (fun e => item_ok (en_item e)) es -> every P es -> Forall (fun e => item_spoken k d (en_item e)) es.
Proof.
  intros HP Hok Hev. eapply Forall_impl; [apply Forall_and; split; [exact Hok|exact Hev]|].
  intros [[c|cv] ws ys] [H1 H2]; cbn in *; [done|by apply HP].
Qed.

(** The conversions of the grammar are the same code in every copy. *)
Lemma conversion_copied k cv keep flags width typeLength o arg : conv_ok cv ->
  user_conversion k keep (cv_spec cv) flags width typeLength o arg = conversion k keep (cv_spec cv) flags width typeLength o arg.
Proof.
  intros Hcv. pose proof (spec_cases cv Hcv) as Hsp. rewrite !elem_of_cons, elem_of_nil in Hsp.
  unfold user_conversion, conversion. destruct (cv_spec cv =? 99), (cv_spec cv =? 115); try done.
  case_bool_decide; [done|]. destruct (Z.eqb_spec (cv_spec cv) 110) as [E|]; [|done]. rewrite E in Hsp. lia.
Qed.

Lemma spec_plain k cv m index c : conv_ok cv -> format_at k m index = Ok c -> cv_spec cv = c -> fetch_length k m index = Ok (4, index).
Proof.
  intros Hcv E Hc. pose proof (spec_cases cv Hcv) as Hsp. rewrite !elem_of_cons, elem_of_nil in Hsp.
  unfold fetch_length. rewrite E. cbn [obind]. rewrite !(proj2 (Z.eqb_neq c _)) by lia. done.
Qed.

Lemma user_speaks k cv : conv_ok cv -> plain_length cv -> speaks k (user_printer k) cv.
Proof.
  intros Hcv Hn. split; [|intros; by apply conversion_copied].
  intros m index c Hc E. rewrite Hn in Hc. injection Hc as Hc. symmetry. by eapply spec_plain.
Qed.

Lemma libkernel_lengths k cv m index c : conv_ok cv -> short_length cv ->
  head (length_text (cv_length cv) ++ [cv_spec cv]) = Some c -> format_at k m index = Ok c ->
  libkernel_length k m index = fetch_length k m index.
Proof.
  intros Hcv Hn Hc E. pose proof (spec_cases cv Hcv) as Hsp. rewrite !elem_of_cons, elem_of_nil in Hsp.
  unfold libkernel_length, fetch_length, short_length in *. rewrite E. cbn [obind].
  destruct (cv_length cv); cbn in Hc; injection Hc as <-; [|done|done|done|done].
  rewrite (proj2 (Z.eqb_neq _ 105)) by done. rewrite !(proj2 (Z.eqb_neq (cv_spec cv) _)) by lia. done.
Qed.

Lemma libkernel_speaks k cv : conv_ok cv -> short_length cv -> speaks k (libkernel_printer k) cv.
Proof.
  intros Hcv Hn. split; [|intros; by apply conversion_copied]. intros m index c Hc E. by apply (libkernel_lengths k cv m index c).
Qed.

Lemma iolog_speaks k describe cv : conv_ok cv -> short_length cv -> speaks k (iolog_printer k describe) cv.
Proof.
  intros Hcv Hn. split; [intros m index c Hc E; by apply (libkernel_lengths k cv m index c)|].
  intros. pose proof (spec_cases cv Hcv) as Hsp. rewrite !elem_of_cons, elem_of_nil in Hsp.
  cbn. unfold iolog_conversion. rewrite (proj2 (Z.eqb_neq _ 64)) by lia. by apply conversion_copied.
Qed.

(** What the calls of the three theorems share: as for the kernel's [vsnprintf], an
    array with room, and a format with arguments of the right kind. *)
Record printing (k : call) (m : mem) (t : list Z) (es : list entry) (cap : nat) : Prop := {
  pg_call : callable k cap m t;
  pg_size : 0 < c_size k < 2 ^ 32;
  pg_long : Z.of_nat (length (text_of es)) < 2 ^ 31;
  pg_format : cstr m (c_format k) (format_of es);
  pg_apart : forall q, c_format k <= q <= c_format k + Z.of_nat (length (format_of es)) -> untouched k cap q;
  pg_items : Forall (fun e => item_ok (en_item e) /\ shows m (untouched k cap) (en_item e) (en_words e) (en_text e)) es;
  pg_chars : (length (text_of es) < Z.to_nat (c_size k))%nat \/ Forall (fun e => ~ is_char (en_item e)) es
}.

Definition printed (k : call) (m : mem) (es : list entry) (cap : nat) (r : outcome (Z * mem)) : Prop :=
  exists m', r = Ok (Z.of_nat (length (text_of es)), m')
    /\ bytes_at m' (c_buffer k) (take (Z.to_nat (c_size k) - 1) (text_of es) ++ [0])
    /\ forall q, untouched k cap q -> m' !! q = m !! q.

Lemma printed_by (P : conv -> Prop) d k m t es (cap := (Z.to_nat (c_size k) `min` S (length (text_of es)))%nat) :
  (forall cv, conv_ok cv -> P cv -> speaks k d cv) -> printing k m t es cap -> every P es ->
  printed k m es cap (vsnprintf_by k d m (words_of es)).
Proof.
  intros HP [Hca Hsz HN HF Hap Hit Hch] Hev. apply (formats_by d k m t es); try done.
  apply (every_spoken P); [done| |done]. eapply Forall_impl; [exact Hit|]. by intros e [].
Qed.

(** on the formats they read alike, the printers of programs, of drivers and of
    the drivers' log print what the kernel's prints: the text of the items, cut to
    the size of the buffer, with a terminator, and return the length of the text. *)
Theorem copies_print k m t es (cap := (Z.to_nat (c_size k) `min` S (length (text_of es)))%nat) : printing k m t es cap ->
  (every plain_length es -> printed k m es cap (user_vsnprintf k m (words_of es)))
  /\ (every short_length es -> printed k m es cap (libkernel_vsnprintf k m (words_of es))
      /\ forall describe, printed k m es cap (__IOvsnprintf k describe m (words_of es))).
Proof.
  intros Hp. split; [|split]; intros.
  - by apply (printed_by plain_length _ k m t es (user_speaks k)).
  - by apply (printed_by short_length _ k m t es (libkernel_speaks k)).
  - by apply (printed_by short_length _ k m t es (iolog_speaks k describe)).
Qed.

Lemma copies_print_witness : printed demo_call call_mem demo_entries 9 (user_vsnprintf demo_call call_mem [42; 65])
  /\ printed demo_call call_mem demo_entries 9 (libkernel_vsnprintf demo_call call_mem [42; 65]).
Proof.
  assert (Hp : printing demo_call call_mem [] demo_entries 9).
  { split; [apply demo_callable|cbn; lia|cbn; lia| | |apply demo_shows|left; cbn; lia].
    - split_and!; [by vm_compute|repeat constructor; lia|cbn; lia|cbn; lia].
    - intros q Hq. unfold untouched. cbn in *. lia. }
  destruct (copies_print demo_call call_mem [] demo_entries Hp) as [H1 H2]. split; [apply H1|apply H2]; repeat constructor; done.
Defined.

(** ** Where they differ *)

(** The bytes a call leaves in the buffer, up to the terminator. *)
Fixpoint text_from (n : nat) (m : mem) (p : Z) : list Z :=
  match n with
  | O => []
  | S n => match m !! p with Some 0 => [] | Some c => c :: text_from n m (p + 1) | None => [] end
  end.

Definition left_text (r : outcome (Z * mem)) : list Z := match r with Ok (_, m) => text_from 16 m 700 | _ => [] end.
Definition format_mem (format : list Z) : mem := write (write print_mem 600 (format ++ [0])) 700 (replicate 16 0).

(** For a decimal number asked for by [%i] a driver prints nothing: the letter is
    taken for a length modifier, and the character behind it for the specifier. *)
Lemma decimal_swallowed :
  let m := format_mem [37; 105; 46; 33] in
  left_text (vsnprintf demo_call m [42]) = [52; 50; 46; 33]
  /\ left_text (libkernel_vsnprintf demo_call m [42]) = [33].
Proof. by vm_compute. Qed.

(** A long number asked for by [%lld] is one word for a program, printed with the
    letters behind the first one, and none for a driver. *)
Lemma long_not_read :
  let m := format_mem [37; 108; 108; 100] in
  left_text (vsnprintf demo_call m [0; 1]) = [52; 50; 57; 52; 57; 54; 55; 50; 57; 54]
  /\ left_text (user_vsnprintf demo_call m [0; 1]) = [108; 100]
  /\ left_text (libkernel_vsnprintf demo_call m [0; 1]) = [108; 100].
Proof. by vm_compute. Qed.
