(* ===== verification/Helper.v ===== *)
(** * Helpers of the kernel (sys/system/helper.c)

    Sizes in readable units, names of files and of C++ functions, and options of
    the kernel's command line, on the byte memory of the string functions.  The
    C++ names are those the compiler makes for nested names: every part with its
    length before it. *)

From S2P Require Import Prelude CString CStdlib.

(** ** Translation *)

(** "b", "KB", "MB", "GB", "PB", "??" *)
Definition sys_unitTable : list (list Z) := [[98]; [75; 66]; [77; 66]; [71; 66]; [80; 66]; [63; 63]].
Definition SYS_UNITTABLE_MAX : Z := 6.

(** A round divides by 1024, so a 32-bit size takes four at most. *)
Fixpoint unit_loop (fuel : nat) (size index : Z) : outcome (Z * Z) :=
  if 1024 <? size then
    match fuel with O => Hang | S fuel => unit_loop fuel (size / 1024) (u32 (index + 1)) end
  else Ok (size, index).

Definition sys_unitForSize (size : Z) : outcome (list Z * Z) :=
  let* (size, index) := unit_loop 4 size 0 in
  let index := if SYS_UNITTABLE_MAX <=? index then SYS_UNITTABLE_MAX - 1 else index in
  let* unit := of_option (sys_unitTable !! Z.to_nat index) in
  Ok (unit, size).

Fixpoint path_loop (fuel : nat) (m : mem) (path ptr : Z) : outcome Z :=
  if ptr =? path then Ok path else
  let* c := load m ptr in
  if c =? 47 then Ok (u32 (ptr + 1)) else
  match fuel with O => Hang | S fuel => path_loop fuel m path (u32 (ptr - 1)) end.

Definition sys_fileWithoutPath (m : mem) (path : Z) : outcome Z :=
  let* length := strlen m path in
  path_loop (string_fuel m) m path (u32 (u32 (path + length) - 1)).

(** [literal] is where the compiler put "_Z". *)
Definition isCPPName (literal : Z) (m : mem) (name : Z) : outcome bool :=
  let* found := strstr m name literal in Ok (found =? name).

Fixpoint skip_while (f : Z -> bool) (fuel : nat) (m : mem) (name : Z) : outcome Z :=
  let* c := load m name in
  if f (char c) then match fuel with O => Hang | S fuel => skip_while f fuel m (u32 (name + 1)) end else Ok name.

(** The memory, [name] and [buffer] afterwards. *)
Definition demangleNext (m : mem) (name buffer : Z) : outcome (mem * Z * Z) :=
  let* c := load m name in
  if isdigit (char c) then
    let* length := atoi m name in
    let* name := skip_while isdigit (string_fuel m) m name in
    let n := Z.to_nat length in
    let* m := copy_loop n m buffer name in
    Ok (m, u32 (name + Z.of_nat n), u32 (buffer + Z.of_nat n))
  else Ok (m, name, buffer).

Fixpoint demangle_parts (fuel : nat) (m : mem) (name buffer : Z) (first : bool) : outcome (mem * Z) :=
  let* c := load m name in
  if isdigit (char c) then
    match fuel with
    | O => Hang
    | S fuel =>
        let* (m, buffer) :=
          if first then Ok (m, buffer)
          else
            let* m := store m buffer 58 in
            let* m := store m (u32 (buffer + 1)) 58 in
            Ok (m, u32 (u32 (buffer + 1) + 1)) in
        let* (m, name, buffer) := demangleNext m name buffer in
        demangle_parts fuel m name buffer false
    end
  else Ok (m, buffer).

Definition demangleCPPName (m : mem) (name buffer : Z) : outcome mem :=
  let name := u32 (name + 2) in
  let* c := load m name in
  let* (m, buffer) :=
    if char c =? 78 then
      let* name := skip_while (fun c => negb (isdigit c)) (string_fuel m) m (u32 (name + 1)) in
      demangle_parts (string_fuel m) m name buffer true
    else if (49 <=? char c) && (char c <=? 57) then demangle_parts (string_fuel m) m name buffer true
    else Ok (m, buffer) in
  store m buffer 0.

(** Copying an option's value: up to a space or the end, or, when it is quoted, up
    to the second quote. *)
Fixpoint option_loop (fuel : nat) (m : mem) (found buffer : Z) (inQuote : bool) : outcome mem :=
  let* c := load m found in
  if c =? 0 then Ok m else
  match fuel with
  | O => Hang
  | S fuel =>
      if c =? 34 then if inQuote then Ok m else option_loop fuel m (u32 (found + 1)) buffer true
      else if (c =? 32) && negb inQuote then Ok m
      else
        let* m := store m buffer c in
        option_loop fuel m (u32 (found + 1)) (u32 (buffer + 1)) inQuote
  end.

Definition kMultibootFlagCommandLine : Z := Z.shiftl 1 2.

(** [flags] and [cmdline] are those of the boot information; [buffer] may be a null
    pointer. *)
Definition sys_checkCommandline (flags cmdline : Z) (m : mem) (option buffer : Z) : outcome (bool * mem) :=
  if Z.land flags kMultibootFlagCommandLine =? 0 then Ok (false, m) else
  let* found := strstr m cmdline option in
  if found =? NULL then Ok (false, m) else
  if buffer =? NULL then Ok (true, m) else
  let* length := strlen m option in
  let* m := option_loop (string_fuel m) m (u32 (found + length)) buffer false in
  Ok (true, m).

(** ** Sizes *)

Lemma unit_loop_spec size fuel : forall i, 0 <= size / 1024 ^ Z.of_nat (i + fuel) <= 1024 -> (forall j, (j < i)%nat -> 1024 < size / 1024 ^ Z.of_nat j) -> (i + fuel < 6)%nat ->
  exists k, unit_loop fuel (size / 1024 ^ Z.of_nat i) (Z.of_nat i) = Ok (size / 1024 ^ Z.of_nat k, Z.of_nat k) /\
    size / 1024 ^ Z.of_nat k <= 1024 /\ forall j, (j < k)%nat -> 1024 < size / 1024 ^ Z.of_nat j.
Proof.
  induction fuel as [|fuel IH]; intros i Hb Hj Hi; cbn [unit_loop]; destruct (Z.ltb_spec 1024 (size / 1024 ^ Z.of_nat i)) as [Hgt|Hle]; try (by exists i).
  - rewrite Nat.add_0_r in Hb. lia.
  - rewrite u32_small, Z.div_div by lia. replace (1024 ^ Z.of_nat i * 1024) with (1024 ^ Z.of_nat (S i)) by (rewrite Nat2Z.inj_succ, Z.pow_succ_r; lia).
    replace (Z.of_nat i + 1) with (Z.of_nat (S i)) by lia. apply IH; [by replace (S i + fuel)%nat with (i + S fuel)%nat by lia| |lia].
    intros j Hlt. destruct (decide (j = i)) as [->|]; [done|]. apply Hj. lia.
Qed.

(** A size is shown in the smallest unit in which it is 1024 at most, rounded
    down.  Sizes of 32 bits never get to the last two units. *)
Theorem sys_unitForSize_spec size : 0 <= size < 2 ^ 32 ->
  exists i unit, sys_unitForSize size = Ok (unit, size / 1024 ^ Z.of_nat i) /\ take 4 sys_unitTable !! i = Some unit /\
    size / 1024 ^ Z.of_nat i <= 1024 /\ forall j, (j < i)%nat -> 1024 < size / 1024 ^ Z.of_nat j.
Proof.
  intros Hs. destruct (unit_loop_spec size 4 0) as (k & E & Hk & Hj); [|lia..|].
  { change (1024 ^ Z.of_nat (0 + 4)) with (2 ^ 40). Z.to_euclidean_division_equations. lia. }
  change (1024 ^ Z.of_nat 0) with 1 in E. rewrite Z.div_1_r in E. change (Z.of_nat 0) with 0 in E.
  assert (Hk3 : (k <= 3)%nat).
  { destruct (decide (k <= 3)%nat) as [|Hgt]; [done|]. specialize (Hj 3%nat ltac:(lia)). change (1024 ^ Z.of_nat 3) with (2 ^ 30) in Hj.
    Z.to_euclidean_division_equations. lia. }
  destruct (lookup_lt_is_Some_2 (take 4 sys_unitTable) k) as [u Hu]; [cbn; lia|]. exists k, u. split_and!; try done. unfold sys_unitForSize. rewrite E. cbn [obind].
  rewrite (proj2 (Z.leb_gt _ _)) by (unfold SYS_UNITTABLE_MAX; lia). rewrite Nat2Z.id. rewrite lookup_take_lt in Hu by lia. by rewrite Hu.
Qed.

Lemma sys_unitForSize_spec_witness : exists i unit, sys_unitForSize 4096 = Ok (unit, 4096 / 1024 ^ Z.of_nat i) /\ take 4 sys_unitTable !! i = Some unit.
Proof. destruct (sys_unitForSize_spec 4096 ltac:(lia)) as (i & u & E & Hu & _). exists i, u. split; [exact E|exact Hu]. Defined.

(** ** Names of files *)

(** From [k] on there is no slash, but for one that is the first character. *)
Definition last_part (s : list Z) (k : nat) : Prop :=
  (k <= length s)%nat /\ (k = O \/ (1 < k)%nat /\ s !! (k - 1)%nat = Some 47) /\ forall i, (k <= i)%nat -> (0 < i)%nat -> s !! i <> Some 47.

Lemma path_loop_spec m p s : cstr m p s -> forall n fuel, (n < length s)%nat -> (n <= fuel)%nat -> (forall i, (n < i)%nat -> s !! i <> Some 47) ->
  exists k, path_loop fuel m p (p + Z.of_nat n) = Ok (p + Z.of_nat k) /\ last_part s k.
Proof.
  intros Hs. pose proof Hs as (_ & _ & Hp & Hend). induction n as [|n IH]; intros fuel Hn Hf Hi.
  { exists O. rewrite Z.add_0_r. split; [destruct fuel; cbn [path_loop]; by rewrite Z.eqb_refl|]. split_and!; [lia|by left|intros i _ H0; by apply Hi]. }
  destruct fuel as [|fuel]; [lia|]. cbn [path_loop]. rewrite (proj2 (Z.eqb_neq _ _)) by lia. destruct (lookup_lt_is_Some_2 s (S n) Hn) as [c Hc].
  assert (El : load m (u32 (p + Z.of_nat (S n))) = Ok c) by (apply (cstr_byte _ _ s); [done|by apply lookup_app_l_Some]).
  rewrite u32_small in El by lia. rewrite El. cbn [obind]. destruct (Z.eqb_spec c 47) as [->|Hc47].
  - exists (S (S n)). rewrite u32_small by lia. split; [f_equal; lia|]. split_and!; [lia|right; split; [lia|]; by replace (S (S n) - 1)%nat with (S n) by lia|].
    intros i Hi1 _. apply Hi. lia.
  - rewrite u32_small by lia. replace (p + Z.of_nat (S n) - 1) with (p + Z.of_nat n) by lia. apply IH; [lia|lia|].
    intros i Hi1. destruct (decide (i = S n)) as [->|]; [congruence|]. apply Hi. lia.
Qed.

(** The name of a file is what stands behind the last slash of its path; but a
    slash at the very beginning is not looked at. *)
Theorem sys_fileWithoutPath_spec m p s : cstr m p s -> s <> [] -> exists k, sys_fileWithoutPath m p = Ok (p + Z.of_nat k) /\ last_part s k.
Proof.
  intros Hs Hne. unfold sys_fileWithoutPath. rewrite (strlen_spec _ _ _ Hs). cbn [obind]. pose proof (cstr_size _ _ _ Hs) as Hsz. pose proof Hs as (_ & _ & Hp & Hend).
  assert (Hpos : (0 < length s)%nat) by (destruct s; [done|cbn; lia]). rewrite (u32_small (p + _)) by lia. rewrite u32_small by lia.
  replace (p + Z.of_nat (length s) - 1) with (p + Z.of_nat (length s - 1)) by lia. apply path_loop_spec; [done|lia|unfold string_fuel; lia|].
  intros i Hi. rewrite lookup_ge_None_2 by lia. done.
Qed.

(** "/a/b" and "/b" *)
Definition demo_paths : mem := write (write ∅ 0x100 [47; 97; 47; 98; 0]) 0x200 [47; 98; 0].

Lemma sys_fileWithoutPath_spec_witness : exists k, sys_fileWithoutPath demo_paths 0x100 = Ok (0x100 + Z.of_nat k) /\ last_part [47; 97; 47; 98] k.
Proof.
  apply sys_fileWithoutPath_spec; [|discriminate]. split_and!; [vm_compute; split_and!; reflexivity|repeat constructor; lia|lia|cbn; lia].
Defined.

(** The first slash stays, and an empty path is read before its beginning. *)
Lemma first_slash_stays : sys_fileWithoutPath demo_paths 0x100 = Ok 0x103 /\ sys_fileWithoutPath demo_paths 0x200 = Ok 0x200.
Proof. vm_compute. split_and!; reflexivity. Qed.

Lemma empty_path m p : cstr m p [] -> 0 < p -> m !! (p - 1) = None -> sys_fileWithoutPath m p = Fault.
Proof.
  intros Hs Hp Hn. unfold sys_fileWithoutPath. rewrite (strlen_spec _ _ _ Hs). cbn [obind length]. destruct Hs as (_ & _ & _ & Hend). cbn in Hend.
  rewrite Z.add_0_r, (u32_small p), u32_small by lia. unfold string_fuel. cbn [path_loop]. rewrite (proj2 (Z.eqb_neq _ _)) by lia. unfold load. by rewrite Hn.
Qed.

(** ** Names of C++ functions *)

(** A part of a name: the digits of its length and its characters. *)
Abbreviation part := (list Z * list Z)%type.

Definition spelled (x : part) : list Z := (digit_char true <$> x.1) ++ x.2.
Definition mangled (xs : list part) : list Z := concat (spelled <$> xs).
Definition with_colons (xs : list part) : list Z := concat ((fun x => 58 :: 58 :: x.2) <$> xs).

Record part_ok (x : part) : Prop := {
  po_some : x.1 <> [] /\ head x.1 <> Some 0;
  po_digits : Forall (fun d => 0 <= d < 10) x.1;
  po_length : value 10 x.1 = Z.of_nat (length x.2) /\ value 10 x.1 < 2 ^ 31;
  po_first : x.2 <> [] /\ no_digit_first x.2
}.

Lemma digit_head d : 0 <= d < 10 -> isdigit (char (digit_char true d)) = true /\ 0 < digit_char true d < 256.
Proof. intros Hd. destruct (decimal_char true d Hd) as [-> ->]. unfold digit_char. zcases; lia. Qed.

Lemma atoi_prefix m p ds rest : cstr m p ((digit_char true <$> ds) ++ rest) -> no_digit_first rest -> ds <> [] -> Forall (fun d => 0 <= d < 10) ds ->
  value 10 ds < 2 ^ 31 -> atoi m p = Ok (value 10 ds).
Proof.
  intros Hs Hrest Hne Hf Hv. destruct ds as [|d ds]; [done|]. pose proof (cstr_size _ _ _ Hs) as Hsz. rewrite length_app, length_fmap in Hsz.
  destruct (cstr_cons _ _ _ _ Hs) as (E & _). pose proof Hf as [Hd _]%Forall_cons. assert (Hdc : digit_char true d = 48 + d) by (unfold digit_char; zcases; lia).
  rewrite Hdc in E. unfold atoi. rewrite (skip_space_none _ _ _ _ E) by (unfold isspace, char; zcases; lia). cbn [obind].
  rewrite E. cbn [obind]. rewrite !(proj2 (Z.eqb_neq (48 + d) _)) by lia. cbn [orb].
  rewrite (atoi_loop_prefix true (d :: ds) rest) by (done || unfold string_fuel; lia). done.
Qed.

Lemma skip_while_spec f s rest : Forall (fun c => f (char c) = true) s -> f (char (default 0 (head rest))) = false ->
  forall fuel m p, cstr m p (s ++ rest) -> (length s <= fuel)%nat -> skip_while f fuel m p = Ok (p + Z.of_nat (length s)).
Proof.
  intros Hf Hrest. induction Hf as [|c s Hc Hf IH]; intros fuel m p Hs Hl; cbn [app length] in *.
  - rewrite Z.add_0_r. destruct rest as [|c rest]; cbn [head default from_option id] in Hrest.
    + destruct fuel; cbn [skip_while]; rewrite (cstr_nil m p Hs); cbn [obind]; by rewrite Hrest.
    + destruct (cstr_cons _ _ _ _ Hs) as (E & _). destruct fuel; cbn [skip_while]; rewrite E; cbn [obind]; by rewrite Hrest.
  - destruct (cstr_cons _ _ _ _ Hs) as (E & _ & Hs' & Hu). destruct fuel as [|fuel]; [lia|].
    cbn [skip_while]. rewrite E. cbn [obind]. rewrite Hc, Hu, IH by (done || lia). f_equal. lia.
Qed.

Lemma skip_digits ds rest fuel m p : no_digit_first rest -> cstr m p ((digit_char true <$> ds) ++ rest) -> Forall (fun d => 0 <= d < 10) ds ->
  (length ds <= fuel)%nat -> skip_while isdigit fuel m p = Ok (p + Z.of_nat (length ds)).
Proof.
  intros Hrest Hs Hf Hl. rewrite (skip_while_spec isdigit (digit_char true <$> ds) rest); try done.
  - by rewrite length_fmap.
  - apply Forall_fmap. eapply Forall_impl; [exact Hf|]. intros d Hd. by apply digit_head.
  - by destruct rest.
  - by rewrite length_fmap.
Qed.

(** The buffer, [n] bytes of it, is not where the string is. *)
Definition clear_of (q : Z) (n : nat) (p : Z) (s : list Z) : Prop := q + Z.of_nat n <= p \/ p + Z.of_nat (length s) < q.

(** A part of the name is copied, and the rest is still to be read. *)
Lemma demangleNext_spec m p q x rest : part_ok x -> cstr m p (spelled x ++ rest) -> room m q (length x.2) -> clear_of q (length x.2) p (spelled x ++ rest) ->
  demangleNext m p q = Ok (write m q x.2, p + Z.of_nat (length (spelled x)), q + Z.of_nat (length x.2)) /\
  cstr (write m q x.2) (p + Z.of_nat (length (spelled x))) rest.
Proof.
  intros [[Hne _] Hf [Hv Hv31] [Hn1 Hn2]] Hs Hroom Hcl. destruct x as [ds id]. unfold spelled in *. cbn [fst snd] in *. rewrite <- app_assoc in Hs.
  assert (Hnd : no_digit_first (id ++ rest)) by (by destruct id). pose proof (cstr_size _ _ _ Hs) as Hsz. pose proof Hs as (_ & _ & Hp & Hend).
  rewrite !length_app, length_fmap in *. pose proof Hroom as (Hq & Hqe & _).
  assert (Hrest : cstr m (p + Z.of_nat (length ds)) (id ++ rest)).
  { pose proof (cstr_drop (length ds) m p ((digit_char true <$> ds) ++ id ++ rest) ltac:(rewrite length_app, length_fmap; lia) Hs) as Hd.
    rewrite drop_app_le, drop_ge in Hd by (rewrite length_fmap; lia). done. }
  split.
  - unfold demangleNext. destruct ds as [|d ds]; [done|]. pose proof Hf as [Hd _]%Forall_cons. destruct (cstr_cons _ _ _ _ Hs) as (-> & _). cbn [obind].
    destruct (digit_head d Hd) as [-> _]. rewrite (atoi_prefix m p (d :: ds) (id ++ rest)) by (done || lia). cbn [obind].
    rewrite (skip_digits (d :: ds) (id ++ rest)) by (done || unfold string_fuel; lia). cbn [obind]. rewrite Hv, Nat2Z.id.
    destruct Hrest as (Hb & _). rewrite <- app_assoc in Hb. apply bytes_at_app in Hb as [Hb _].
    unfold clear_of in Hcl. rewrite !length_app, length_fmap in Hcl. rewrite copy_loop_spec by (done || lia). cbn [obind].
    rewrite !u32_small by lia. by replace (p + Z.of_nat (length (d :: ds) + length id)) with (p + Z.of_nat (length (d :: ds)) + Z.of_nat (length id)) by lia.
  - pose proof (cstr_drop (length id) m (p + Z.of_nat (length ds)) (id ++ rest) ltac:(rewrite length_app; lia) Hrest) as Hd. rewrite drop_app_length in Hd.
    replace (p + Z.of_nat (length ds + length id)) with (p + Z.of_nat (length ds) + Z.of_nat (length id)) by lia.
    apply cstr_write; [|done]. unfold clear_of in Hcl. rewrite !length_app, length_fmap in Hcl. lia.
Qed.

Lemma mangled_digit x xs rest : part_ok x -> exists c s, mangled (x :: xs) ++ rest = c :: s /\ isdigit (char c) = true.
Proof.
  intros [[Hne _] Hf _ _]. destruct x as [[|d ds] id]; [done|]. apply Forall_cons in Hf as [Hd _]. eexists _, _. split; [reflexivity|]. by apply digit_head.
Qed.

(** Parts after the first, each behind two colons. *)
Lemma demangle_parts_spec xs : forall fuel m p q rest, Forall part_ok xs -> no_digit_first rest -> cstr m p (mangled xs ++ rest) ->
  room m q (length (with_colons xs)) -> clear_of q (length (with_colons xs)) p (mangled xs ++ rest) -> (length xs <= fuel)%nat ->
  demangle_parts fuel m p q false = Ok (write m q (with_colons xs), q + Z.of_nat (length (with_colons xs))).
Proof.
  induction xs as [|x xs IH]; intros fuel m p q rest Hx Hrest Hs Hroom Hcl Hf.
  { cbn [mangled fmap list_fmap concat app with_colons write length] in *. rewrite Z.add_0_r. destruct rest as [|c rest].
    - destruct fuel; cbn [demangle_parts]; by rewrite (cstr_nil _ _ Hs).
    - destruct (cstr_cons _ _ _ _ Hs) as (E & _). cbn in Hrest. destruct fuel; cbn [demangle_parts]; rewrite E; cbn [obind]; by rewrite Hrest. }
  apply Forall_cons in Hx as [Hx Hxs]. destruct (mangled_digit x xs rest Hx) as (c & s & Ec & Hc). pose proof Hs as Hs0. rewrite Ec in Hs0.
  destruct (cstr_cons _ _ _ _ Hs0) as (E & _). destruct fuel as [|fuel]; [cbn in Hf; lia|]. cbn [demangle_parts]. rewrite E. cbn [obind]. rewrite Hc.
  cbn [with_colons fmap list_fmap concat app length] in *. fold (with_colons xs) in *. rewrite length_app in *. unfold mangled in Hs, Hcl. cbn [fmap list_fmap concat] in Hs, Hcl.
  fold (mangled xs) in Hs, Hcl. rewrite <- app_assoc in Hs, Hcl. unfold clear_of in Hcl.
  destruct (room_cons _ _ _ 58 Hroom) as (-> & Hu1 & Hroom1). cbn [obind]. rewrite Hu1. destruct (room_cons _ _ _ 58 Hroom1) as (-> & Hu2 & Hroom2). cbn [obind]. rewrite Hu2.
  set (m1 := <[q + 1 := 58]> (<[q := 58]> m)) in *.
  assert (Hs1 : cstr m1 p (spelled x ++ mangled xs ++ rest)) by (unfold m1; apply cstr_insert; [lia|]; apply cstr_insert; [lia|done]).
  destruct (demangleNext_spec m1 p (q + 1 + 1) x (mangled xs ++ rest) Hx Hs1) as [-> Hs2]; [eapply room_weaken; [|exact Hroom2]; lia|unfold clear_of; lia|]. cbn [obind].
  rewrite !length_app in Hcl. rewrite (IH fuel _ _ _ rest); try done.
  - cbn [write]. rewrite write_app. fold m1. f_equal. f_equal. lia.
  - destruct Hroom2 as (R1 & R2 & R3). split_and!; [lia|lia|]. intros i Hi. apply write_mapped. replace (q + 1 + 1 + Z.of_nat (length x.2) + Z.of_nat i) with (q + 1 + 1 + Z.of_nat (length x.2 + i)) by lia. apply R3. lia.
  - unfold clear_of. rewrite !length_app. lia.
  - cbn in Hf. lia.
Qed.

Definition joined (xs : list part) : list Z := match xs with [] => [] | x :: xs => x.2 ++ with_colons xs end.

Lemma demangle_all x xs fuel m p q rest : Forall part_ok (x :: xs) -> no_digit_first rest -> cstr m p (mangled (x :: xs) ++ rest) ->
  room m q (length (joined (x :: xs))) -> clear_of q (length (joined (x :: xs))) p (mangled (x :: xs) ++ rest) -> (length (x :: xs) <= fuel)%nat ->
  demangle_parts fuel m p q true = Ok (write m q (joined (x :: xs)), q + Z.of_nat (length (joined (x :: xs)))).
Proof.
  intros [Hx Hxs]%Forall_cons Hrest Hs Hroom Hcl Hf. destruct (mangled_digit x xs rest Hx) as (c & s & Ec & Hc). pose proof Hs as Hs0. rewrite Ec in Hs0.
  destruct (cstr_cons _ _ _ _ Hs0) as (E & _). destruct fuel as [|fuel]; [cbn in Hf; lia|]. cbn [demangle_parts]. rewrite E. cbn [obind]. rewrite Hc.
  cbn [joined obind] in *. rewrite length_app in *. unfold mangled in Hs, Hcl. cbn [fmap list_fmap concat] in Hs, Hcl. fold (mangled xs) in Hs, Hcl.
  rewrite <- app_assoc in Hs, Hcl. unfold clear_of in Hcl.
  destruct (demangleNext_spec m p q x (mangled xs ++ rest) Hx Hs) as [-> Hs2]; [eapply room_weaken; [|exact Hroom]; lia|unfold clear_of; lia|]. cbn [obind].
  rewrite !length_app in Hcl. rewrite (demangle_parts_spec xs fuel _ _ _ rest); try done.
  - rewrite write_app. f_equal. f_equal. lia.
  - destruct Hroom as (R1 & R2 & R3). split_and!; [lia|lia|]. intros i Hi. apply write_mapped. replace (q + Z.of_nat (length x.2) + Z.of_nat i) with (q + Z.of_nat (length x.2 + i)) by lia. apply R3. lia.
  - unfold clear_of. rewrite !length_app. lia.
  - cbn in Hf. lia.
Qed.

(** What stands before the parts: "_Z", and for a nested name "N" and qualifiers. *)
Definition prefix_of_name (nested : option (list Z)) : list Z := 95 :: 90 :: match nested with Some quals => 78 :: quals | None => [] end.

Lemma spelled_length x : part_ok x -> (0 < length (spelled x))%nat.
Proof. intros [[Hne _] _ _ _]. unfold spelled. rewrite length_app, length_fmap. destruct x.1; [done|cbn; lia]. Qed.

Lemma mangled_length xs : Forall part_ok xs -> (length xs <= length (mangled xs))%nat.
Proof.
  induction 1 as [|x xs Hx _ IH]; [done|]. unfold mangled. cbn [fmap list_fmap concat length]. fold (mangled xs). rewrite length_app.
  pose proof (spelled_length x Hx). lia.
Qed.

(** Where the parts are looked for. *)
Lemma demangle_start m p q nested x xs rest : Forall (fun c => isdigit (char c) = false) (default [] nested) -> part_ok x ->
  cstr m p (prefix_of_name nested ++ mangled (x :: xs) ++ rest) ->
  demangleCPPName m p q = (let* (m, buffer) := demangle_parts (string_fuel m) m (p + Z.of_nat (length (prefix_of_name nested))) q true in store m buffer 0).
Proof.
  intros Hq Hx Hs. pose proof (cstr_size _ _ _ Hs) as Hsz. destruct (mangled_digit x xs rest Hx) as (c & s & Ec & Hc). rewrite Ec in Hs, Hsz.
  unfold prefix_of_name in *. cbn [app] in Hs. destruct (cstr_cons _ _ _ _ Hs) as (_ & _ & Hs1 & Hu1). destruct (cstr_cons _ _ _ _ Hs1) as (_ & _ & Hs2 & Hu2).
  unfold demangleCPPName. replace (u32 (p + 2)) with (p + 1 + 1) by (rewrite <- Hu2; f_equal; lia). destruct nested as [quals|]; cbn [default app length] in *.
  - destruct (cstr_cons _ _ _ _ Hs2) as (-> & _ & Hs3 & Hu3). cbn [obind]. change (char 78 =? 78) with true. cbn match. rewrite Hu3.
    rewrite (skip_while_spec _ quals (c :: s)); [|eapply Forall_impl; [exact Hq|]; intros d ->; done|cbn; by rewrite Hc|exact Hs3|rewrite length_app in Hsz; unfold string_fuel; lia].
    cbn [obind]. by replace (p + 1 + 1 + 1 + Z.of_nat (length quals)) with (p + Z.of_nat (S (S (S (length quals))))) by lia.
  - assert (Hd : (49 <=? char c) && (char c <=? 57) = true).
    { destruct x as [[|d ds] id]; [by destruct (proj1 (po_some _ Hx))|]. injection Ec as <- _. pose proof (po_digits _ Hx) as [Hd _]%Forall_cons. cbn [fst] in *.
      pose proof (proj2 (po_some _ Hx)) as Hz. cbn in Hz. destruct (decimal_char true d Hd) as [-> _]. assert (d <> 0) by congruence. lia. }
    destruct (cstr_cons _ _ _ _ Hs2) as (-> & _). cbn [obind]. rewrite Hd. destruct (Z.eqb_spec (char c) 78) as [E|_]; [rewrite E in Hd; done|].
    by replace (p + 1 + 1) with (p + Z.of_nat 2) by lia.
Qed.

(** Demangling.  Of a C++ name, nested or not, the parts are put into the buffer,
    two colons between them, and a terminator behind them; what follows the parts
    is not looked at, and nothing but the buffer changes. *)
Theorem demangleCPPName_joins m p q nested xs rest : xs <> [] -> Forall part_ok xs -> Forall (fun c => isdigit (char c) = false) (default [] nested) ->
  no_digit_first rest -> cstr m p (prefix_of_name nested ++ mangled xs ++ rest) -> room m q (S (length (joined xs))) ->
  clear_of q (S (length (joined xs))) p (prefix_of_name nested ++ mangled xs ++ rest) ->
  demangleCPPName m p q = Ok (write m q (joined xs ++ [0])).
Proof.
  intros Hne Hxs Hq Hrest Hs Hroom Hcl. destruct xs as [|x xs]; [done|]. pose proof Hxs as [Hx _]%Forall_cons. rewrite (demangle_start m p q nested x xs rest Hq Hx Hs).
  pose proof (cstr_size _ _ _ Hs) as Hsz. pose proof (mangled_length _ Hxs) as Hml. rewrite !length_app in Hsz.
  pose proof (cstr_drop (length (prefix_of_name nested)) m p (prefix_of_name nested ++ mangled (x :: xs) ++ rest) ltac:(rewrite length_app; lia) Hs) as Hs1. rewrite drop_app_length in Hs1.
  rewrite (demangle_all x xs _ m _ q rest); try done.
  - cbn [obind]. destruct Hroom as (R1 & R2 & R3). unfold store. rewrite decide_True by (apply write_mapped, R3; lia). by rewrite write_app.
  - eapply room_weaken; [|exact Hroom]. lia.
  - unfold clear_of in *. rewrite length_app in Hcl. lia.
  - unfold string_fuel. lia.
Qed.

(** "_ZN2ab3cdeEv" *)
Definition demo_name : list Z := [95; 90; 78; 50; 97; 98; 51; 99; 100; 101; 69; 118].
Definition demo_names : mem := write (write ∅ 0x100 (demo_name ++ [0])) 0x200 (replicate 8 1).

Lemma demangleCPPName_joins_witness : demangleCPPName demo_names 0x100 0x200 = Ok (write demo_names 0x200 [97; 98; 58; 58; 99; 100; 101; 0]).
Proof.
  apply (demangleCPPName_joins demo_names 0x100 0x200 (Some []) [([2], [97; 98]); ([3], [99; 100; 101])] [69; 118]).
  - discriminate.
  - apply Forall_cons_2; [|apply Forall_cons_2; [|apply Forall_nil_2]]; (constructor; [split; discriminate|repeat constructor; lia|split; [reflexivity|vm_compute; reflexivity]|split; [discriminate|reflexivity]]).
  - apply Forall_nil_2.
  - reflexivity.
  - split_and!; [vm_compute; split_and!; reflexivity|repeat constructor; lia|lia|vm_compute; reflexivity].
  - split_and!; [lia|vm_compute; reflexivity|]. intros i Hi. cbn in Hi. do 8 (destruct i as [|i]; [eexists; vm_compute; reflexivity|]). lia.
  - right. vm_compute. reflexivity.
Defined.

(** A name without a digit is read past its end: "_ZN". *)
Lemma no_digit_in_name m p q : 0 <= p < 2 ^ 32 - 5 -> bytes_at m p [95; 90; 78; 0] -> m !! (p + 4) = None -> demangleCPPName m p q = Fault.
Proof.
  intros Hp (_ & _ & E2 & E3 & _) E4. unfold demangleCPPName, string_fuel. rewrite u32_small by lia. replace (p + 2) with (p + 1 + 1) by lia. unfold load at 1. rewrite E2.
  cbn [of_option obind]. change (char 78 =? 78) with true. cbn match. rewrite u32_small by lia. cbn [skip_while]. unfold load at 1. rewrite E3. cbn [of_option obind].
  change (negb (isdigit (char 0))) with true. cbn match. rewrite u32_small by lia. replace (p + 1 + 1 + 1 + 1) with (p + 4) by lia.
  destruct (size m); cbn [skip_while]; unfold load; by rewrite E4.
Qed.

(** ** The command line *)

(** The value that follows an option: up to a space, or between quotes. *)
Fixpoint option_value (s : list Z) (inQuote : bool) : list Z :=
  match s with
  | [] => []
  | c :: s =>
      if c =? 34 then if inQuote then [] else option_value s true
      else if (c =? 32) && negb inQuote then [] else c :: option_value s inQuote
  end.

Lemma option_loop_spec s : forall fuel m p q inQuote, cstr m p s -> room m q (length (option_value s inQuote)) -> clear_of q (length (option_value s inQuote)) p s ->
  (length s <= fuel)%nat -> option_loop fuel m p q inQuote = Ok (write m q (option_value s inQuote)).
Proof.
  induction s as [|c s IH]; intros fuel m p q inQuote Hs Hroom Hcl Hf.
  { destruct fuel; cbn [option_loop]; by rewrite (cstr_nil _ _ Hs). }
  destruct (cstr_cons _ _ _ _ Hs) as (E & Hc & Hs' & Hu). destruct fuel as [|fuel]; [cbn in Hf; lia|]. cbn [option_loop option_value length] in *. rewrite E. cbn [obind].
  rewrite (proj2 (Z.eqb_neq c 0)) by lia. rewrite Hu. unfold clear_of in *. cbn [length] in Hcl. destruct (c =? 34).
  { destruct inQuote; [done|]. apply IH; [done|done|lia|lia]. }
  destruct ((c =? 32) && negb inQuote); [done|]. cbn [length write] in *. destruct (room_cons _ _ _ c Hroom) as (-> & -> & Hroom'). cbn [obind].
  apply IH; [by apply cstr_insert; [lia|]|done|lia|lia].
Qed.

(** An option at the start of the command line is found, and its value is copied
    to the buffer, without a terminator. *)
Theorem sys_checkCommandline_copies flags cmdline m option buffer w s : Z.land flags kMultibootFlagCommandLine <> 0 -> 0 < cmdline -> buffer <> NULL -> w <> [] ->
  cstr m cmdline (w ++ s) -> cstr m option w -> room m buffer (length (option_value s false)) -> clear_of buffer (length (option_value s false)) (cmdline + Z.of_nat (length w)) s ->
  sys_checkCommandline flags cmdline m option buffer = Ok (true, write m buffer (option_value s false)).
Proof.
  intros Hfl Hcl Hb Hw Hs Ho Hroom Hap. unfold sys_checkCommandline. rewrite (proj2 (Z.eqb_neq _ 0)) by done.
  destruct (strstr_sound m cmdline option (w ++ s) w Hs Ho) as (r & -> & _ & Hr). rewrite (Hr Hw ltac:(by exists s)). cbn [obind].
  rewrite (proj2 (Z.eqb_neq cmdline NULL)) by (unfold NULL; lia). rewrite (proj2 (Z.eqb_neq buffer NULL)) by done. rewrite (strlen_spec _ _ _ Ho). cbn [obind].
  pose proof Hs as (_ & _ & _ & Hend). rewrite length_app in Hend. rewrite u32_small by lia. pose proof (cstr_size _ _ _ Hs) as Hsz. rewrite length_app in Hsz.
  pose proof (cstr_drop (length w) m cmdline (w ++ s) ltac:(rewrite length_app; lia) Hs) as Hs'. rewrite drop_app_length in Hs'.
  rewrite (option_loop_spec s) by (done || unfold string_fuel; lia). done.
Qed.
