(* ===== verification/Screen.v ===== *)
(** * The screen and the system log (sys/system/video.c, sys/kerneld/syslogd.c)

    The text screen is 25 lines of 80 cells, a character and its colours each, in
    the memory at 0xB8000.  The log goes through a ring buffer that a daemon
    empties on the screen.  The screen's memory is related to the list of its
    bytes: a string is drawn glyph by glyph, a line that is full scrolls the
    others up, and nothing outside the screen is touched. *)

From S2P Require Import Prelude Pages HeapSpec CString RingBuffer.

(** ** Video *)

Definition vd_address : Z := 0xB8000.
Definition vd_width : Z := 80.
Definition vd_height : Z := 25.

Definition vd_color_red : Z := 4.
Definition vd_color_brown : Z := 6.
Definition vd_color_lightGray : Z := 7.
Definition vd_color_lightBlue : Z := 9.
Definition vd_color_lightRed : Z := 12.
Definition vd_color_yellow : Z := 14.

(** The driver's variables; [vd_ports] is what was written to ports. *)
Record video := Video {
  vd_cursorX : Z;
  vd_cursorY : Z;
  vd_foreground : Z;
  vd_background : Z;
  vd_ports : list (Z * Z)
}.

Definition with_cursor (v : video) (x y : Z) : video := Video x y (vd_foreground v) (vd_background v) (vd_ports v).

Definition vd_index (x y : Z) : Z := u32 (u32 (y * vd_width + x) * 2).

Definition __vd_setColor (m : mem) (x y : Z) (foreground : bool) (color : Z) : outcome mem :=
  let cell := u32 (vd_address + u32 (vd_index x y + 1)) in
  let* otherColor := load m cell in
  let result :=
    if foreground then Z.lor (Z.shiftl (Z.shiftr otherColor 4) 4) (Z.land color 0x0F)
    else Z.lor (Z.shiftl color 4) (Z.land (Z.land otherColor 0x0F) 0x0F) in
  store m cell (u8 result).

Definition __vd_setCharacter (m : mem) (x y character : Z) : outcome mem :=
  store m (u32 (vd_address + vd_index x y)) (u8 character).

Definition __vd_setCursor (m : mem) (v : video) (x y : Z) : outcome (mem * video) :=
  let pos := u16 (y * vd_width + x) in
  let ports := vd_ports v ++ [(0x3D4, 0x0F); (0x3D5, u8 (Z.land pos 0xFF)); (0x3D4, 0x0E); (0x3D5, u8 (Z.land (Z.shiftr pos 8) 0xFF))] in
  let* m := __vd_setColor m x y true vd_color_lightGray in
  Ok (m, Video x y (vd_foreground v) (vd_background v) ports).

(** Line [i] is replaced by the one below it, for [n] lines. *)
Fixpoint scroll_lines (n : nat) (m : mem) (i : Z) : outcome mem :=
  match n with
  | O => Ok m
  | S n =>
      let* m := memcpy m (vd_address + i * vd_width * 2) (vd_address + (i + 1) * vd_width * 2) (vd_width * 2) in
      scroll_lines n m (i + 1)
  end.

Definition __vd_scrollLine (m : mem) (v : video) : outcome (mem * video) :=
  let* m := scroll_lines (Z.to_nat (vd_height - 1)) m 0 in
  let* m := memset m (vd_address + (vd_height - 1) * vd_width * 2) 0 (vd_width * 2) in
  Ok (m, with_cursor v (vd_cursorX v) (u32 (vd_cursorY v - 1))).

Definition vd_clear (m : mem) (v : video) : outcome (mem * video) :=
  let* m := memset m vd_address 0 (vd_width * vd_height * 2) in
  __vd_setCursor m v 0 0.

Definition vd_setCursor : mem -> video -> Z -> Z -> outcome (mem * video) := __vd_setCursor.

Fixpoint scroll_times (n : nat) (m : mem) (v : video) : outcome (mem * video) :=
  match n with O => Ok (m, v) | S n => let* (m, v) := __vd_scrollLine m v in scroll_times n m v end.

Definition vd_scrollLines (m : mem) (v : video) (lines : Z) : outcome (mem * video) :=
  let* (m, v) := scroll_times (Z.to_nat lines) m v in
  __vd_setCursor m v (vd_cursorX v) (vd_cursorY v).

Definition vd_setColor (v : video) (color : Z) (foreground : bool) : video :=
  if foreground then Video (vd_cursorX v) (vd_cursorY v) color (vd_background v) (vd_ports v)
  else Video (vd_cursorX v) (vd_cursorY v) (vd_foreground v) color (vd_ports v).

Definition vd_translateColor (color : Z) : Z := u8 (u8 color + 16).

(** To the start of the next line. *)
Definition next_line (m : mem) (v : video) : outcome (mem * video) :=
  let v := with_cursor v 0 (u32 (vd_cursorY v + 1)) in
  if vd_height <=? vd_cursorY v then __vd_scrollLine m v else Ok (m, v).

Definition write_glyph (m : mem) (v : video) (character : Z) : outcome (mem * video) :=
  let* m := __vd_setCharacter m (vd_cursorX v) (vd_cursorY v) character in
  let* m := __vd_setColor m (vd_cursorX v) (vd_cursorY v) true (vd_foreground v) in
  let* m := __vd_setColor m (vd_cursorX v) (vd_cursorY v) false (vd_background v) in
  let v := with_cursor v (u32 (vd_cursorX v + 1)) (vd_cursorY v) in
  if vd_width <=? vd_cursorX v then next_line m v else Ok (m, v).

(** A colour code is two bytes; the second one is not tested for the end of the
    string. *)
Fixpoint write_loop (fuel : nat) (m : mem) (v : video) (string : Z) : outcome (mem * video) :=
  let* c := load m string in
  if c =? 0 then Ok (m, v) else
  match fuel with
  | O => Hang
  | S fuel =>
      let character := char c in
      if character =? 10 then let* (m, v) := next_line m v in write_loop fuel m v (u32 (string + 1)) else
      if character <=? 31 then
        if (character =? 14) || (character =? 15) then
          let string := u32 (string + 1) in
          let* c := load m string in
          let color := char c in
          let v := if (16 <=? color) && (color <=? 31) then vd_setColor v (color - 16) (character =? 14) else v in
          write_loop fuel m v (u32 (string + 1))
        else write_loop fuel m v (u32 (string + 1))
      else let* (m, v) := write_glyph m v character in write_loop fuel m v (u32 (string + 1))
  end.

Definition vd_writeString (m : mem) (v : video) (string : Z) : outcome (mem * video) :=
  let* (m, v) := write_loop (string_fuel m) m v string in
  __vd_setCursor m v (vd_cursorX v) (vd_cursorY v).

(** ** What is drawn *)

Inductive token := Newline | Colour (foreground : bool) (color : Z) | Glyph (character : Z).

(** What a string says, unless it ends within a colour code. *)
Fixpoint tokens (s : list Z) : option (list token) :=
  match s with
  | [] => Some []
  | c :: s =>
      let character := char c in
      if character =? 10 then cons Newline <$> tokens s else
      if character <=? 31 then
        if (character =? 14) || (character =? 15) then
          match s with
          | [] => None
          | c :: s =>
              if (16 <=? char c) && (char c <=? 31) then cons (Colour (character =? 14) (char c - 16)) <$> tokens s else tokens s
          end
        else tokens s
      else cons (Glyph character) <$> tokens s
  end.

(** The screen's bytes, with the driver's variables. *)
Abbreviation screen := (list Z * video)%type.

Definition cell_of (v : video) : nat := Z.to_nat ((vd_cursorY v * vd_width + vd_cursorX v) * 2).
Definition attribute (v : video) : Z := 16 * vd_background v + vd_foreground v.

Definition scrolled (bs : list Z) : list Z := drop 160 bs ++ replicate 160 0.

Definition line_down (s : screen) : screen :=
  let y := vd_cursorY s.2 + 1 in
  if vd_height <=? y then (scrolled s.1, with_cursor s.2 0 (y - 1)) else (s.1, with_cursor s.2 0 y).

Definition draw (s : screen) (t : token) : screen :=
  match t with
  | Newline => line_down s
  | Colour foreground color => (s.1, vd_setColor s.2 color foreground)
  | Glyph character =>
      let bs := <[S (cell_of s.2) := attribute s.2]> (<[cell_of s.2 := character]> s.1) in
      let v := with_cursor s.2 (vd_cursorX s.2 + 1) (vd_cursorY s.2) in
      if vd_width <=? vd_cursorX v then line_down (bs, v) else (bs, v)
  end.

(** The cell under the cursor is made visible, and the ports are told where it is. *)
Definition show_cursor (s : screen) : screen :=
  let pos := vd_cursorY s.2 * vd_width + vd_cursorX s.2 in
  (alter (fun b => 16 * (b / 16) + vd_color_lightGray) (S (cell_of s.2)) s.1,
   Video (vd_cursorX s.2) (vd_cursorY s.2) (vd_foreground s.2) (vd_background s.2)
     (vd_ports s.2 ++ [(0x3D4, 0x0F); (0x3D5, pos mod 256); (0x3D4, 0x0E); (0x3D5, pos / 256)])).

(** ** The memory shows the screen *)

Definition screen_size : nat := 4000.

Record shows (m : mem) (s : screen) : Prop := {
  sh_length : length s.1 = screen_size;
  sh_bytes i : (i < screen_size)%nat -> m !! (vd_address + Z.of_nat i) = s.1 !! i;
  sh_range : Forall (fun b => 0 <= b < 256) s.1;
  sh_x : 0 <= vd_cursorX s.2 < vd_width;
  sh_y : 0 <= vd_cursorY s.2 < vd_height;
  sh_colors : 0 <= vd_foreground s.2 < 16 /\ 0 <= vd_background s.2 < 16
}.

(** Everything but the screen is as it was. *)
Definition elsewhere (m m' : mem) : Prop :=
  forall q, q < vd_address \/ vd_address + 4000 <= q -> m' !! q = m !! q.

Lemma elsewhere_trans m m1 m2 : elsewhere m m1 -> elsewhere m1 m2 -> elsewhere m m2.
Proof. intros E1 E2 q Hq. by rewrite E2, E1. Qed.

Lemma shows_video m bs v v' : shows m (bs, v) -> 0 <= vd_cursorX v' < vd_width -> 0 <= vd_cursorY v' < vd_height ->
  0 <= vd_foreground v' < 16 -> 0 <= vd_background v' < 16 -> shows m (bs, v').
Proof. by intros [] ? ? ? ?; constructor. Qed.

Lemma screen_store m bs v i b : shows m (bs, v) -> (i < screen_size)%nat -> 0 <= b < 256 ->
  exists m', store m (vd_address + Z.of_nat i) b = Ok m' /\ shows m' (<[i := b]> bs, v) /\ elsewhere m m'.
Proof.
  intros [Hl Hb Hr Hx Hy Hc] Hi Hv. cbn [fst snd] in *. unfold store. rewrite decide_True.
  2:{ rewrite Hb by done. apply lookup_lt_is_Some. lia. }
  eexists. split; [done|]. split.
  - constructor; cbn [fst snd]; try done.
    + by rewrite length_insert.
    + intros j Hj. destruct (decide (j = i)) as [->|Hne].
      * rewrite lookup_insert_eq, list_lookup_insert_eq by lia. done.
      * rewrite lookup_insert_ne, list_lookup_insert_ne by lia. by apply Hb.
    + by apply Forall_insert.
  - intros q Hq. apply lookup_insert_ne. unfold vd_address, screen_size in *. lia.
Qed.

Lemma bytes_at_intro m : forall bs p, (forall i b, bs !! i = Some b -> m !! (p + Z.of_nat i) = Some b) -> bytes_at m p bs.
Proof.
  induction bs as [|b bs IH]; intros p Hb; [done|]. split.
  - specialize (Hb 0%nat b eq_refl). by rewrite Z.add_0_r in Hb.
  - apply IH. intros i c Hi. specialize (Hb (S i) c Hi). by replace (p + 1 + Z.of_nat i) with (p + Z.of_nat (S i)) by lia.
Qed.

(** [bs] with [xs] written over it from [d] on. *)
Definition overwrite (d : nat) (xs bs : list Z) : list Z := take d bs ++ xs ++ drop (d + length xs) bs.

Lemma screen_write m bs v d xs : shows m (bs, v) -> (d + length xs <= screen_size)%nat -> Forall (fun b => 0 <= b < 256) xs ->
  shows (write m (vd_address + Z.of_nat d) xs) (overwrite d xs bs, v) /\ elsewhere m (write m (vd_address + Z.of_nat d) xs).
Proof.
  intros [Hl Hb Hr Hx Hy Hc] Hd Hxs. cbn [fst snd] in *. split.
  - constructor; cbn [fst snd]; try done.
    + unfold overwrite. rewrite !length_app, length_take, length_drop. lia.
    + intros i Hi. unfold overwrite. destruct (decide (i < d)%nat) as [Hlt|Hge].
      * rewrite write_outside, Hb by lia. rewrite lookup_app_l by (rewrite length_take; lia). by rewrite lookup_take_lt.
      * rewrite lookup_app_r by (rewrite length_take; lia). rewrite length_take, Nat.min_l by lia.
        destruct (decide (i < d + length xs)%nat) as [Hin|Hout].
        -- rewrite lookup_app_l by lia. destruct (lookup_lt_is_Some_2 xs (i - d)) as [b E]; [lia|]. rewrite E.
           replace (vd_address + Z.of_nat i) with (vd_address + Z.of_nat d + Z.of_nat (i - d)) by lia.
           apply (bytes_at_lookup _ xs); [apply write_bytes|done].
        -- rewrite write_outside, Hb by lia. rewrite lookup_app_r by lia. rewrite lookup_drop. f_equal. lia.
    + unfold overwrite. apply Forall_app. split; [by apply Forall_take|]. apply Forall_app. split; [done|by apply Forall_drop].
  - intros q Hq. apply write_outside. unfold screen_size in *. lia.
Qed.

Lemma screen_room m s d n : shows m s -> (d + n <= screen_size)%nat -> room m (vd_address + Z.of_nat d) n.
Proof.
  intros [Hl Hb _ _ _ _] Hd. unfold room, vd_address, screen_size in *. split_and!; try lia. intros i Hi.
  replace (0xB8000 + Z.of_nat d + Z.of_nat i) with (0xB8000 + Z.of_nat (d + i)) by lia. rewrite Hb by lia. apply lookup_lt_is_Some. lia.
Qed.

Lemma screen_copy m bs v d a n : shows m (bs, v) -> (d <= a)%nat -> (a + n <= screen_size)%nat ->
  exists m', memcpy m (vd_address + Z.of_nat d) (vd_address + Z.of_nat a) (Z.of_nat n) = Ok m' /\
    shows m' (overwrite d (take n (drop a bs)) bs, v) /\ elsewhere m m'.
Proof.
  intros Hs Hd Ha. pose proof (sh_length _ _ Hs) as Hl. cbn [fst] in Hl. set (xs := take n (drop a bs)).
  assert (Hxs : length xs = n) by (unfold xs; rewrite length_take, length_drop; lia).
  unfold memcpy. rewrite Nat2Z.id, <- Hxs. rewrite copy_loop_spec.
  - eexists. split; [done|]. apply screen_write; [done|lia|]. apply Forall_take, Forall_drop, (sh_range _ _ Hs).
  - apply bytes_at_intro. intros i b E. pose proof (lookup_lt_Some _ _ _ E). unfold xs in E. rewrite lookup_take_lt, lookup_drop in E by lia.
    replace (vd_address + Z.of_nat a + Z.of_nat i) with (vd_address + Z.of_nat (a + i)) by lia. rewrite (sh_bytes _ _ Hs) by lia. done.
  - apply (screen_room m (bs, v)); [done|lia].
  - unfold vd_address. lia.
  - unfold vd_address, screen_size in *. lia.
  - lia.
Qed.

(** ** Scrolling *)

Lemma overwrite_lookup d xs bs i : (d + length xs <= length bs)%nat ->
  overwrite d xs bs !! i = if decide (d <= i < d + length xs)%nat then xs !! (i - d)%nat else bs !! i.
Proof.
  intros Hd. unfold overwrite. destruct (decide (i < d)%nat).
  { rewrite lookup_app_l by (rewrite length_take; lia). rewrite lookup_take_lt by lia. by rewrite decide_False by lia. }
  rewrite lookup_app_r by (rewrite length_take; lia). rewrite length_take, Nat.min_l by lia. case_decide.
  - by rewrite lookup_app_l by lia.
  - rewrite lookup_app_r by lia. rewrite lookup_drop. f_equal. lia.
Qed.

(** The first [k] lines have been moved up. *)
Definition moved_up (k : nat) (bs bs' : list Z) : Prop :=
  forall i, bs' !! i = if decide (i < 160 * k)%nat then bs !! (i + 160)%nat else bs !! i.

Lemma scroll_lines_spec bs v n : forall k m bs1, shows m (bs1, v) -> length bs = screen_size -> moved_up k bs bs1 -> (k + n = 24)%nat ->
  exists m' bs', scroll_lines n m (Z.of_nat k) = Ok m' /\ shows m' (bs', v) /\ moved_up 24 bs bs' /\ elsewhere m m'.
Proof.
  induction n as [|n IH]; intros k m bs1 Hs Hl Hm Hk; cbn [scroll_lines].
  { exists m, bs1. replace 24%nat with k by lia. done. }
  destruct (screen_copy m bs1 v (160 * k) (160 * S k) 160 Hs) as (m1 & E & Hs1 & He1); [lia|unfold screen_size; lia|].
  replace (vd_address + Z.of_nat k * vd_width * 2) with (vd_address + Z.of_nat (160 * k)) by (unfold vd_width; lia).
  replace (vd_address + (Z.of_nat k + 1) * vd_width * 2) with (vd_address + Z.of_nat (160 * S k)) by (unfold vd_width; lia).
  change (vd_width * 2) with (Z.of_nat 160). rewrite E. cbn [obind]. replace (Z.of_nat k + 1) with (Z.of_nat (S k)) by lia.
  destruct (IH (S k) m1 _ Hs1 Hl) as (m' & bs' & E' & Hs' & Hm' & He'); [|lia|exists m', bs'; split_and!; try done; by eapply elsewhere_trans].
  pose proof (sh_length _ _ Hs) as Hl1. cbn [fst] in Hl1. intros i.
  assert (Hx : length (take 160 (drop (160 * S k) bs1)) = 160%nat) by (rewrite length_take, length_drop, Hl1; unfold screen_size; lia).
  rewrite overwrite_lookup by (rewrite Hx, Hl1; unfold screen_size; lia). rewrite Hx. case_decide.
  - rewrite lookup_take_lt, lookup_drop, Hm by lia. rewrite decide_False, decide_True by lia. f_equal. lia.
  - rewrite Hm. repeat case_decide; (done || lia).
Qed.

Lemma scrollLine_spec m bs v : shows m (bs, v) -> exists m', __vd_scrollLine m v = Ok (m', with_cursor v (vd_cursorX v) (u32 (vd_cursorY v - 1))) /\
  shows m' (scrolled bs, v) /\ elsewhere m m'.
Proof.
  intros Hs. pose proof (sh_length _ _ Hs) as Hl. cbn [fst] in Hl. unfold __vd_scrollLine.
  destruct (scroll_lines_spec bs v 24 0 m bs Hs Hl) as (m1 & bs1 & E & Hs1 & Hm & He); [intros i; by rewrite decide_False by lia|done|].
  change (Z.to_nat (vd_height - 1)) with 24%nat. change 0 with (Z.of_nat 0) at 1. rewrite E. cbn [obind]. unfold memset.
  change (vd_address + (vd_height - 1) * vd_width * 2) with (vd_address + Z.of_nat 3840). change (Z.to_nat (vd_width * 2)) with 160%nat.
  rewrite set_loop_spec by (apply (screen_room m1 (bs1, v)); [done|unfold screen_size; lia]). cbn [obind]. change (u8 0) with 0.
  eexists. split; [done|]. destruct (screen_write m1 bs1 v 3840 (replicate 160 0) Hs1) as [Hs2 He2].
  { rewrite length_replicate. unfold screen_size. lia. } { by apply Forall_replicate. }
  split; [|by eapply elsewhere_trans]. replace (scrolled bs) with (overwrite 3840 (replicate 160 0) bs1); [done|].
  pose proof (sh_length _ _ Hs1) as Hl1. cbn [fst] in Hl1. apply list_eq. intros i.
  rewrite overwrite_lookup by (rewrite length_replicate, Hl1; unfold screen_size; lia). rewrite length_replicate. unfold scrolled, screen_size in *.
  rewrite Hm. repeat case_decide.
  - rewrite lookup_app_r by (rewrite length_drop; lia). rewrite length_drop, Hl. f_equal.
  - rewrite lookup_app_l by (rewrite length_drop; lia). by rewrite lookup_drop, Nat.add_comm.
  - rewrite !lookup_ge_None_2; [done|rewrite length_app, length_drop, length_replicate; lia|lia].
Qed.

Lemma next_line_spec m bs v : shows m (bs, with_cursor v 0 (vd_cursorY v)) ->
  exists m', next_line m v = Ok (m', (line_down (bs, v)).2) /\ shows m' (line_down (bs, v)) /\ elsewhere m m'.
Proof.
  intros Hs. unfold next_line, line_down. cbn [fst snd]. pose proof (sh_y _ _ Hs) as Hy. cbn in Hy. unfold vd_height in *.
  rewrite u32_small by lia. cbn [with_cursor vd_cursorY]. destruct (Z.leb_spec 25 (vd_cursorY v + 1)) as [Hge|Hlt].
  - destruct (scrollLine_spec m bs (with_cursor v 0 (vd_cursorY v)) Hs) as (m' & E & Hs' & He). unfold __vd_scrollLine in *.
    destruct (scroll_lines _ m 0) as [m1| | |]; cbn [obind] in *; try done. destruct (memset _ _ _ _) as [m2| | |]; cbn [obind] in *; try done.
    injection E as ->. exists m'. cbn [with_cursor vd_cursorX vd_cursorY vd_foreground vd_background vd_ports]. rewrite u32_small by lia.
    split_and!; try done. by replace (vd_cursorY v + 1 - 1) with (vd_cursorY v) by lia.
  - exists m. split_and!; try done. destruct (sh_colors _ _ Hs). eapply shows_video; try done; cbn; unfold vd_width, vd_height; lia.
Qed.

(** ** Glyphs *)

Lemma cell_index m s : shows m s -> vd_index (vd_cursorX s.2) (vd_cursorY s.2) = Z.of_nat (cell_of s.2) /\ (S (cell_of s.2) < screen_size)%nat.
Proof.
  intros [_ _ _ Hx Hy _]. unfold vd_index, cell_of, screen_size, vd_width, vd_height in *. rewrite (u32_small (_ + _)) by lia. rewrite u32_small by lia. split; [by rewrite Z2Nat.id by lia|]. lia.
Qed.

Lemma foreground_bits b c : 0 <= b < 256 -> 0 <= c < 16 ->
  u8 (Z.lor (Z.shiftl (Z.shiftr b 4) 4) (Z.land c 0x0F)) = 16 * (b / 16) + c.
Proof.
  intros Hb Hc. rewrite Z.shiftr_div_pow2, Z.shiftl_mul_pow2 by lia. change 0x0F with (Z.ones 4). rewrite Z.land_ones, Z.mod_small by lia.
  rewrite lor_disjoint by lia. change (2 ^ 4) with 16. rewrite u8_small by (Z.to_euclidean_division_equations; lia). lia.
Qed.

Lemma background_bits b c : 0 <= c < 16 ->
  u8 (Z.lor (Z.shiftl c 4) (Z.land (Z.land b 0x0F) 0x0F)) = 16 * c + b mod 16.
Proof.
  intros Hc. rewrite Z.shiftl_mul_pow2 by lia. change 0x0F with (Z.ones 4). rewrite !Z.land_ones, Z.mod_mod by lia.
  rewrite lor_disjoint by (lia || apply Z.mod_pos_bound; lia). change (2 ^ 4) with 16. rewrite u8_small by (Z.to_euclidean_division_equations; lia). lia.
Qed.

(** A colour goes into its half of the cell's second byte. *)
Lemma setColor_spec m bs v b foreground c : shows m (bs, v) -> bs !! S (cell_of v) = Some b -> 0 <= c < 16 ->
  exists m', __vd_setColor m (vd_cursorX v) (vd_cursorY v) foreground c = Ok m' /\
    shows m' (<[S (cell_of v) := if foreground then 16 * (b / 16) + c else 16 * c + b mod 16]> bs, v) /\ elsewhere m m'.
Proof.
  intros Hs Eb Hc. destruct (cell_index _ _ Hs) as [Ei Hi]. cbn [snd] in *. unfold __vd_setColor. rewrite Ei.
  assert (0 <= b < 256) by exact (Forall_lookup_1 _ _ _ _ (sh_range _ _ Hs) Eb).
  rewrite !u32_small by (unfold screen_size, vd_address in *; try rewrite u32_small; lia).
  replace (vd_address + (Z.of_nat (cell_of v) + 1)) with (vd_address + Z.of_nat (S (cell_of v))) by lia.
  assert (El : load m (vd_address + Z.of_nat (S (cell_of v))) = Ok b) by (unfold load; rewrite (sh_bytes _ _ Hs) by done; cbn [fst]; by rewrite Eb).
  rewrite El. cbn [obind]. destruct foreground; [rewrite foreground_bits by done|rewrite background_bits by done];
    (apply screen_store; [done|done|Z.to_euclidean_division_equations; lia]).
Qed.

Lemma write_glyph_spec m bs v c : shows m (bs, v) -> 31 < c < 128 ->
  exists m', write_glyph m v c = Ok (m', (draw (bs, v) (Glyph c)).2) /\ shows m' (draw (bs, v) (Glyph c)) /\ elsewhere m m'.
Proof.
  intros Hs Hc. destruct (cell_index _ _ Hs) as [Ei Hi]. cbn [snd] in *. unfold write_glyph, __vd_setCharacter. rewrite Ei, u8_small by lia.
  rewrite u32_small by (unfold screen_size, vd_address in *; lia).
  destruct (screen_store m bs v (cell_of v) c Hs) as (m1 & -> & Hs1 & He1); [lia|lia|]. cbn [obind].
  destruct (sh_colors _ _ Hs) as [Hf Hb]. cbn [snd] in *. pose proof (sh_length _ _ Hs1) as Hl. cbn [fst] in Hl.
  destruct (lookup_lt_is_Some_2 (<[cell_of v := c]> bs) (S (cell_of v))) as [b Eb]; [lia|].
  destruct (setColor_spec m1 _ v b true _ Hs1 Eb Hf) as (m2 & -> & Hs2 & He2). cbn [obind].
  destruct (setColor_spec m2 _ v (16 * (b / 16) + vd_foreground v) false (vd_background v) Hs2) as (m3 & -> & Hs3 & He3); [apply list_lookup_insert_eq; lia|done|].
  cbn [obind]. rewrite list_insert_insert_eq in Hs3.
  replace (16 * vd_background v + (16 * (b / 16) + vd_foreground v) mod 16) with (attribute v) in Hs3
    by (unfold attribute; Z.to_euclidean_division_equations; lia).
  pose proof (elsewhere_trans _ _ _ He1 (elsewhere_trans _ _ _ He2 He3)) as He. pose proof (sh_x _ _ Hs) as Hx. pose proof (sh_y _ _ Hs) as Hy. cbn [snd] in Hx, Hy.
  unfold draw. cbn [fst snd]. unfold vd_width in *. rewrite u32_small by lia. cbn [with_cursor vd_cursorX].
  destruct (Z.leb_spec 80 (vd_cursorX v + 1)).
  - destruct (next_line_spec m3 (<[S (cell_of v) := attribute v]> (<[cell_of v := c]> bs)) (with_cursor v (vd_cursorX v + 1) (vd_cursorY v))) as (m' & E & Hs' & He').
    + eapply shows_video; try done.
    + exists m'. split_and!; try done. by eapply elsewhere_trans.
  - exists m3. split_and!; try done. eapply shows_video; try done; cbn; unfold vd_width; lia.
Qed.

Lemma alter_known (f : Z -> Z) (l : list Z) i b : l !! i = Some b -> alter f i l = <[i := f b]> l.
Proof. intros E. rewrite list_insert_alter. apply list_alter_ext; [|done]. intros x Ex. congruence. Qed.

Lemma setCursor_spec m s : shows m s -> exists m', __vd_setCursor m s.2 (vd_cursorX s.2) (vd_cursorY s.2) = Ok (m', (show_cursor s).2) /\
  shows m' (show_cursor s) /\ elsewhere m m'.
Proof.
  intros Hs. destruct s as [bs v]. destruct (cell_index _ _ Hs) as [_ Hi]. cbn [fst snd] in *. unfold __vd_setCursor, show_cursor. cbn [fst snd].
  pose proof (sh_length _ _ Hs) as Hl. cbn [fst] in Hl. destruct (lookup_lt_is_Some_2 bs (S (cell_of v))) as [b Eb]; [lia|].
  destruct (setColor_spec m bs v b true vd_color_lightGray Hs Eb) as (m' & -> & Hs' & He); [done|]. cbn [obind].
  pose proof (sh_x _ _ Hs) as Hx. pose proof (sh_y _ _ Hs) as Hy. cbn [snd] in Hx, Hy. unfold vd_width, vd_height in *.
  set (pos := vd_cursorY v * 80 + vd_cursorX v). assert (Hp : 0 <= pos < 2000) by (unfold pos; lia).
  rewrite (u16_small pos) by lia. change 0xFF with (Z.ones 8). rewrite !Z.land_ones, Z.shiftr_div_pow2 by lia. change (2 ^ 8) with 256.
  rewrite (Z.mod_small (pos / 256)) by (Z.to_euclidean_division_equations; lia). rewrite !u8_small by (Z.to_euclidean_division_equations; lia).
  exists m'. split_and!; try done. rewrite (alter_known _ bs _ b) by done. eapply shows_video; try done; cbn; apply Hs.
Qed.

(** ** Strings *)

(** The string is not on the screen. *)
Definition apart (p : Z) (s : list Z) : Prop := p + Z.of_nat (length s) < vd_address \/ vd_address + 4000 <= p.

Lemma cstr_elsewhere m m' p s : elsewhere m m' -> apart p s -> cstr m p s -> cstr m' p s.
Proof.
  intros He Ha (Hb & Hc). split; [|done]. eapply bytes_at_frame; [|exact Hb]. intros q Hq. apply He. rewrite length_app in Hq. cbn in Hq.
  destruct Ha; lia.
Qed.

Lemma char_low c : 0 < c < 256 -> 31 < char c -> char c = c /\ 31 < c < 128.
Proof. unfold char. intros Hc. destruct (Z.ltb_spec c 128); lia. Qed.

Lemma write_loop_spec fuel : forall s m sc p ts, cstr m p s -> apart p s -> tokens s = Some ts -> (length s <= fuel)%nat -> shows m sc ->
  exists m', write_loop fuel m sc.2 p = Ok (m', (fold_left draw ts sc).2) /\ shows m' (fold_left draw ts sc) /\ elsewhere m m'.
Proof.
  induction fuel as [fuel IH] using lt_wf_ind. intros s m sc p ts Hs Ha Ht Hf Hsh. destruct s as [|c s].
  { injection Ht as <-. exists m. destruct fuel; cbn [write_loop]; rewrite (cstr_nil _ _ Hs); by split_and!. }
  destruct (cstr_cons _ _ _ _ Hs) as (El & Hc & Hs' & Hu). destruct fuel as [|fuel]; [cbn in Hf; lia|]. cbn [write_loop]. rewrite El. cbn [obind].
  rewrite (proj2 (Z.eqb_neq c 0)) by lia. cbn [tokens] in Ht. assert (Ha' : apart (p + 1) s) by (unfold apart in *; cbn [length] in Ha; lia).
  cbn [length] in Hf. rewrite Hu. destruct sc as [bs v]. cbn [snd]. destruct (char c =? 10) eqn:E10.
  { apply fmap_Some in Ht as (ts' & Ht & ->). destruct (next_line_spec m bs v) as (m1 & -> & Hs1 & He1).
    { destruct (sh_colors _ _ Hsh). eapply shows_video; try done. apply Hsh. }
    cbn [obind fold_left]. destruct (IH fuel ltac:(lia) s m1 (draw (bs, v) Newline) (p + 1) ts') as (m2 & E2 & Hs2 & He2); try done; [by eapply cstr_elsewhere|lia|].
    cbn [draw] in *. rewrite E2. exists m2. split_and!; try done. by eapply elsewhere_trans. }
  destruct (Z.leb_spec (char c) 31) as [Hlow|Hhigh].
  - destruct ((char c =? 14) || (char c =? 15)); [|apply (IH fuel ltac:(lia) s m (bs, v)); try done; lia].
    destruct s as [|c2 s]; [done|]. destruct (cstr_cons _ _ _ _ Hs') as (El2 & Hc2 & Hs2 & Hu2). rewrite El2, Hu2. cbn [obind].
    assert (Ha2 : apart (p + 1 + 1) s) by (unfold apart in *; cbn [length] in Ha'; lia). cbn [length] in Hf.
    destruct ((16 <=? char c2) && (char c2 <=? 31)) eqn:Ecol.
    + apply fmap_Some in Ht as (ts' & Ht & ->). cbn [fold_left draw fst snd].
      apply (IH fuel ltac:(lia) s m (bs, vd_setColor v (char c2 - 16) (char c =? 14))); try done; [lia|].
      destruct (sh_colors _ _ Hsh) as [Hfg Hbg], (sh_x _ _ Hsh), (sh_y _ _ Hsh). cbn [snd] in *. eapply shows_video; try done; unfold vd_setColor; destruct (char c =? 14); cbn; done || lia.
    + apply (IH fuel ltac:(lia) s m (bs, v)); try done. lia.
  - apply fmap_Some in Ht as (ts' & Ht & ->). destruct (char_low c Hc Hhigh) as [-> Hc2].
    destruct (write_glyph_spec m bs v c Hsh Hc2) as (m1 & -> & Hs1 & He1). cbn [obind fold_left].
    destruct (IH fuel ltac:(lia) s m1 (draw (bs, v) (Glyph c)) (p + 1) ts') as (m2 & E2 & Hs2 & He2); try done; [by eapply cstr_elsewhere|lia|].
    rewrite E2. exists m2. split_and!; try done. by eapply elsewhere_trans.
Qed.

(** Drawing a string.  A string that does not end within a colour code is drawn
    token by token, whatever it contains and however often the screen scrolls:
    no access leaves the screen, nothing else in memory changes, and the cursor
    is left visible behind the text. *)
Theorem vd_writeString_draws m sc p s ts : shows m sc -> cstr m p s -> apart p s -> tokens s = Some ts ->
  let sc' := show_cursor (fold_left draw ts sc) in
  exists m', vd_writeString m sc.2 p = Ok (m', sc'.2) /\ shows m' sc' /\ elsewhere m m'.
Proof.
  intros Hsh Hs Ha Ht sc'. unfold vd_writeString. pose proof (cstr_size _ _ _ Hs).
  destruct (write_loop_spec (string_fuel m) s m sc p ts Hs Ha Ht) as (m1 & -> & Hs1 & He1); [unfold string_fuel; lia|done|]. cbn [obind].
  destruct (setCursor_spec m1 _ Hs1) as (m2 & -> & Hs2 & He2). exists m2. split_and!; try done. by eapply elsewhere_trans.
Qed.

(** Text without control characters stands cell after cell from the cursor on, in
    the current colours, as long as the screen need not scroll. *)
Definition position (v : video) : Z := vd_cursorY v * vd_width + vd_cursorX v.

Lemma draw_glyph_at bs v c : 0 <= vd_cursorX v < vd_width -> 0 <= vd_cursorY v -> position v + 1 < 2000 ->
  exists v', draw (bs, v) (Glyph c) = (<[S (cell_of v) := attribute v]> (<[cell_of v := c]> bs), v') /\
    0 <= vd_cursorX v' < vd_width /\ 0 <= vd_cursorY v' /\ position v' = position v + 1 /\ attribute v' = attribute v.
Proof.
  intros Hx Hy Hp. unfold draw, line_down, position, attribute in *. cbn [fst snd with_cursor vd_cursorX vd_cursorY vd_foreground vd_background].
  unfold vd_width, vd_height in *. destruct (Z.leb_spec 80 (vd_cursorX v + 1)); [rewrite (proj2 (Z.leb_gt _ _)) by lia|];
    (eexists; split; [done|]; cbn; lia).
Qed.

Lemma text_drawn cs : forall bs v, length bs = screen_size -> 0 <= vd_cursorX v < vd_width -> 0 <= vd_cursorY v -> position v + Z.of_nat (length cs) < 2000 ->
  exists bs' v', fold_left draw (Glyph <$> cs) (bs, v) = (bs', v') /\ position v' = position v + Z.of_nat (length cs) /\
    (forall i c, cs !! i = Some c -> bs' !! (cell_of v + 2 * i)%nat = Some c /\ bs' !! (cell_of v + 2 * i + 1)%nat = Some (attribute v)) /\
    (forall j, (j < cell_of v \/ cell_of v + 2 * length cs <= j)%nat -> bs' !! j = bs !! j).
Proof.
  induction cs as [|c cs IH]; intros bs v Hl Hx Hy Hp; cbn [length] in *.
  { exists bs, v. split_and!; [done|lia|done|done]. }
  destruct (draw_glyph_at bs v c Hx Hy ltac:(lia)) as (v1 & E & Hx1 & Hy1 & Hp1 & Ha). cbn [fmap list_fmap fold_left]. rewrite E.
  destruct (IH (<[S (cell_of v) := attribute v]> (<[cell_of v := c]> bs)) v1) as (bs' & v' & E' & Hp' & Hin & Hout); [by rewrite !length_insert|done|done|lia|].
  assert (Hcell : cell_of v1 = (cell_of v + 2)%nat) by (unfold cell_of, position, vd_width in *; lia).
  assert (Hlt : (S (cell_of v) < screen_size)%nat) by (unfold cell_of, position, screen_size, vd_width in *; lia).
  exists bs', v'. split_and!; [done|lia| |].
  - intros [|i] c' Hi.
    + injection Hi as <-. rewrite !Nat.mul_0_r, !Nat.add_0_r, !Hout by lia. rewrite Nat.add_1_r.
      rewrite list_lookup_insert_ne, list_lookup_insert_eq by lia. by rewrite list_lookup_insert_eq by (rewrite length_insert; lia).
    + destruct (Hin i c' Hi) as [H1 H2]. rewrite Hcell in H1, H2. rewrite <- Ha.
      replace (cell_of v + 2 * S i)%nat with (cell_of v + 2 + 2 * i)%nat by lia. done.
  - intros j Hj. rewrite Hout by lia. rewrite !list_lookup_insert_ne by lia. done.
Qed.

(** ** The log *)

Definition LOG_ALERT : Z := 0.
Definition LOG_WARNING : Z := 3.
Definition LOG_DEBUG : Z := 5.

Definition syslog_color_table : list Z :=
  [vd_color_red; vd_color_lightRed; vd_color_brown; vd_color_yellow; vd_color_lightGray; vd_color_lightBlue].

Record syslogd_t := Syslogd { sl_buffer : option ringbuffer_t; sl_running : bool; sl_level : Z }.

Definition syslogd_initial : syslogd_t := Syslogd None false LOG_WARNING.

(** The bytes a callee reads through a pointer. *)
Fixpoint load_bytes (n : nat) (m : mem) (p : Z) : outcome (list Z) :=
  match n with
  | O => Ok []
  | S n => let* c := load m p in let* cs := load_bytes n m (u32 (p + 1)) in Ok (c :: cs)
  end.

Fixpoint store_bytes (m : mem) (p : Z) (bs : list Z) : outcome mem :=
  match bs with [] => Ok m | b :: bs => let* m := store m p b in store_bytes m (u32 (p + 1)) bs end.

Definition syslogd_queueMessage (m : mem) (v : video) (s : syslogd_t) (level message : Z) : outcome (mem * video * syslogd_t) :=
  if sl_level s <? level then Ok (m, v, s) else
  let* color := of_option (syslog_color_table !! Z.to_nat level) in
  if negb (sl_running s) then
    let* (m, v) := vd_writeString m (vd_setColor v color true) message in Ok (m, v, s)
  else
    let* length := strlen m message in
    let* r := of_option (sl_buffer s) in
    let* r := ringbuffer_write r [14; vd_translateColor color] in
    let* bytes := load_bytes (Z.to_nat length) m message in
    let* r := ringbuffer_write r bytes in
    Ok (m, v, Syslogd (Some r) (sl_running s) (sl_level s)).

Definition syslogd_setLogLevel (s : syslogd_t) (level : Z) : syslogd_t := Syslogd (sl_buffer s) (sl_running s) level.

(** [buffer] is the address of the local array.  A round reads a byte at least,
    so the number of bytes bounds the rounds. *)
Fixpoint flush_loop (rounds : nat) (m : mem) (v : video) (r : ringbuffer_t) (buffer : Z) : outcome (mem * video * ringbuffer_t) :=
  if 0 <? ringbuffer_length r then
    match rounds with
    | O => Hang
    | S rounds =>
        let* (bytes, r) := ringbuffer_read r 255 in
        let* m := store_bytes m buffer bytes in
        let* m := store m (u32 (buffer + Z.of_nat (length bytes))) 0 in
        let* (m, v) := vd_writeString m v buffer in
        flush_loop rounds m v r buffer
    end
  else Ok (m, v, r).

Definition __syslogd_flush (m : mem) (v : video) (s : syslogd_t) (buffer : Z) : outcome (mem * video * syslogd_t) :=
  let* r := of_option (sl_buffer s) in
  let* (m, v, r) := flush_loop (Z.to_nat (ringbuffer_length r)) m v r buffer in
  Ok (m, v, Syslogd (Some r) (sl_running s) (sl_level s)).

Definition syslogd_flush (m : mem) (v : video) (s : syslogd_t) (buffer : Z) : outcome (mem * video * syslogd_t) :=
  if negb (sl_running s) then Ok (m, v, s) else __syslogd_flush m v s buffer.

Definition syslogd_forceFlush (m : mem) (v : video) (s : syslogd_t) (buffer : Z) : outcome (mem * video * syslogd_t) :=
  if negb (sl_running s) then Ok (m, v, s) else
  let* (m, v, s) := syslogd_flush m v s buffer in
  Ok (m, v, Syslogd (sl_buffer s) false (sl_level s)).

(** The daemon up to its loop, which flushes and gives up the processor. *)
Definition syslogd_start {H : Type} `{KernelHeap H} (h : H) (s : syslogd_t) : outcome (syslogd_t * H) :=
  let* (buffer, h) := ringbuffer_create h (80 * 25) in
  match buffer with
  | None => Panic
  | Some (_, r) => Ok (Syslogd (Some r) true (sl_level s), h)
  end.

(** ** What is logged appears on the screen *)

Lemma load_bytes_spec bs : forall m p, bytes_at m p bs -> 0 <= p -> p + Z.of_nat (length bs) < 2 ^ 32 -> load_bytes (length bs) m p = Ok bs.
Proof.
  induction bs as [|b bs IH]; intros m p Hb Hp Hl; cbn [load_bytes length bytes_at] in *; [done|]. destruct Hb as [E Hb].
  unfold load. rewrite E. cbn [of_option obind]. rewrite u32_small, IH by (done || lia). done.
Qed.

Lemma store_bytes_spec bs : forall m p, room m p (length bs) -> store_bytes m p bs = Ok (write m p bs).
Proof.
  induction bs as [|b bs IH]; intros m p Hr; cbn [store_bytes write length] in *; [done|].
  destruct (room_cons m p _ b Hr) as (-> & -> & Hr'). cbn [obind]. by apply IH.
Qed.

(** A message, and the bytes it is in the buffer. *)
Definition message : Type := Z * Z * list Z.
Definition logged_color (level : Z) : Z := default 0 (syslog_color_table !! Z.to_nat level).
Definition entry_bytes (msg : message) : list Z := 14 :: (logged_color msg.1.1 + 16) :: msg.2.
Definition log_bytes (msgs : list message) : list Z := concat (entry_bytes <$> msgs).

Definition loggable (m : mem) (s : syslogd_t) (msg : message) : Prop :=
  0 <= msg.1.1 <= LOG_DEBUG /\ msg.1.1 <= sl_level s /\ cstr m msg.1.2 msg.2.

Fixpoint queue_all (m : mem) (v : video) (s : syslogd_t) (msgs : list message) : outcome (mem * video * syslogd_t) :=
  match msgs with
  | [] => Ok (m, v, s)
  | (level, p, _) :: msgs => let* (m, v, s) := syslogd_queueMessage m v s level p in queue_all m v s msgs
  end.

Lemma table_color level : 0 <= level <= LOG_DEBUG ->
  syslog_color_table !! Z.to_nat level = Some (logged_color level) /\ 0 <= logged_color level < 16.
Proof.
  unfold LOG_DEBUG. intros Hl. assert (level = 0 \/ level = 1 \/ level = 2 \/ level = 3 \/ level = 4 \/ level = 5) as Hc by lia.
  by repeat destruct Hc as [->|Hc]; subst.
Qed.

Lemma queueMessage_spec m v s r xs msg : sl_running s = true -> sl_buffer s = Some r -> rb_holds r xs -> loggable m s msg ->
  Z.of_nat (length (xs ++ entry_bytes msg)) <= rb_size r ->
  exists r', syslogd_queueMessage m v s msg.1.1 msg.1.2 = Ok (m, v, Syslogd (Some r') true (sl_level s)) /\ rb_size r' = rb_size r /\
    rb_holds r' (xs ++ entry_bytes msg).
Proof.
  intros Hrun Hbuf Hr (Hl & Hlev & Hs) Hfit. destruct msg as [[level p] t]. cbn [fst snd] in *. unfold syslogd_queueMessage.
  rewrite (proj2 (Z.ltb_ge _ _)) by done. destruct (table_color level Hl) as [-> Hcol]. cbn [of_option obind]. rewrite Hrun. cbn [negb].
  rewrite (strlen_spec _ _ _ Hs), Hbuf. cbn [of_option obind]. unfold vd_translateColor. rewrite !u8_small by (rewrite ?u8_small; lia).
  unfold entry_bytes in Hfit. cbn [fst snd] in Hfit. rewrite length_app in Hfit. cbn [length] in Hfit.
  destruct (write_holds [14; logged_color level + 16] r xs Hr) as (r1 & -> & Hz1 & Hr1). cbn [obind].
  rewrite lastn_all in Hr1 by (rewrite length_app; cbn; lia). rewrite Nat2Z.id.
  destruct Hs as (Hb & _ & Hp & Hend). apply bytes_at_app in Hb as [Hb _]. rewrite load_bytes_spec by (done || lia). cbn [obind].
  destruct (write_holds t r1 _ Hr1) as (r2 & -> & Hz2 & Hr2). cbn [obind]. rewrite lastn_all in Hr2 by (rewrite !length_app; cbn; lia).
  exists r2. split_and!; [done|congruence|]. by rewrite <- app_assoc in Hr2.
Qed.

Lemma queue_all_spec m v msgs : forall s r xs, sl_running s = true -> sl_buffer s = Some r -> rb_holds r xs -> Forall (loggable m s) msgs ->
  Z.of_nat (length (xs ++ log_bytes msgs)) <= rb_size r ->
  exists r', queue_all m v s msgs = Ok (m, v, Syslogd (Some r') true (sl_level s)) /\ rb_holds r' (xs ++ log_bytes msgs).
Proof.
  induction msgs as [|msg msgs IH]; intros s r xs Hrun Hbuf Hr Hm Hfit.
  { exists r. cbn. rewrite app_nil_r. destruct s. cbn in *. by subst. }
  apply Forall_cons in Hm as [H1 Hm]. cbn [log_bytes fmap list_fmap concat] in *. fold (log_bytes msgs) in *. rewrite app_assoc in *.
  destruct (queueMessage_spec m v s r xs msg) as (r1 & E & Hz & Hr1); try done; [rewrite length_app in Hfit; lia|].
  destruct msg as [[level p] t]. cbn [queue_all fst snd] in *. rewrite E. cbn [obind]. by apply (IH (Syslogd (Some r1) true (sl_level s)) r1); rewrite ?Hz.
Qed.

(** Emptying a buffer that holds [xs]: it is drawn in pieces of 255 bytes, none of
    which may end within a colour code. *)
Inductive drawn : list Z -> screen -> screen -> Prop :=
| drawn_nil sc : drawn [] sc sc
| drawn_piece xs ts sc sc' : xs <> [] -> tokens (take 255 xs) = Some ts ->
    drawn (drop 255 xs) (show_cursor (fold_left draw ts sc)) sc' -> drawn xs sc sc'.

Lemma flush_loop_spec buffer xs sc sc' : drawn xs sc sc' -> buffer + 256 <= vd_address \/ vd_address + 4000 <= buffer -> Forall (fun c => 0 < c < 256) xs ->
  forall rounds m r, rb_holds r xs -> shows m sc -> room m buffer 256 -> (length xs <= rounds)%nat ->
  exists m' r', flush_loop rounds m sc.2 r buffer = Ok (m', sc'.2, r') /\ shows m' sc' /\ rb_holds r' [].
Proof.
  intros Hd Hap. induction Hd as [sc|xs ts sc sc' Hne Ht Hd IH]; intros Hxs rounds m r Hr Hsh Hroom Hrounds; destruct (rh_count _ _ Hr) as [Hcount _].
  { exists m, r. destruct rounds; cbn [flush_loop]; unfold ringbuffer_length; rewrite Hcount; by split_and!. }
  assert (Hpos : (0 < length xs)%nat) by (destruct xs; [done|cbn; lia]). destruct rounds as [|rounds]; [lia|]. cbn [flush_loop]. unfold ringbuffer_length.
  rewrite (proj2 (Z.ltb_lt _ _)) by lia. destruct (read_holds 255 r xs Hr) as (r1 & -> & _ & Hr1). cbn [obind]. set (piece := take 255 xs) in *.
  assert (Hlen : (length piece <= 255)%nat) by (unfold piece; rewrite length_take; lia).
  rewrite store_bytes_spec by (eapply room_weaken; [|exact Hroom]; lia). cbn [obind]. pose proof Hroom as (Hb0 & Hb1 & Hb2).
  assert (Hz : store (write m buffer piece) (u32 (buffer + Z.of_nat (length piece))) 0 = Ok (write m buffer (piece ++ [0]))).
  { rewrite u32_small by lia. unfold store. rewrite decide_True by (apply write_mapped, Hb2; lia). by rewrite write_app. }
  rewrite Hz. cbn [obind]. set (m1 := write m buffer (piece ++ [0])).
  assert (Hout : forall q, q < buffer \/ buffer + 256 <= q -> m1 !! q = m !! q) by (intros q Hq; apply write_outside; rewrite length_app; cbn; lia).
  assert (Hsh1 : shows m1 sc).
  { destruct Hsh as [S1 S2 S3 S4 S5 S6]. constructor; try done. intros i Hi. rewrite Hout; [by apply S2|]. unfold screen_size in Hi. lia. }
  assert (Hp : Forall (fun c => 0 < c < 256) piece) by (by apply Forall_take).
  destruct (write_loop_spec (string_fuel m1) piece m1 sc buffer ts) as (m2 & E2 & Hs2 & He2); try done.
  { apply cstr_written; [done|]. eapply room_weaken; [|exact Hroom]. lia. }
  { unfold apart. lia. }
  { assert (Hcs : cstr m1 buffer piece) by (apply cstr_written; [done|]; eapply room_weaken; [|exact Hroom]; lia). apply cstr_size in Hcs. unfold string_fuel. lia. }
  unfold vd_writeString. rewrite E2. cbn [obind]. destruct (setCursor_spec m2 _ Hs2) as (m3 & -> & Hs3 & He3). cbn [obind].
  apply IH; try done.
  - by apply Forall_drop.
  - split_and!; try done. intros i Hi. rewrite (elsewhere_trans _ _ _ He2 He3) by lia. apply write_mapped, Hb2. done.
  - rewrite length_drop. lia.
Qed.

(** C19: The log.  While the daemon runs, messages of a level that is shown are queued,
    each in the colour of its level; emptying the buffer draws all of them in the
    order they came, and leaves the buffer empty, provided they fit into it and
    no piece of 255 bytes ends within a colour code. *)
Theorem syslogd_logs m sc sc' s r buffer msgs : sl_running s = true -> sl_buffer s = Some r -> rb_holds r [] -> Forall (loggable m s) msgs ->
  Z.of_nat (length (log_bytes msgs)) <= rb_size r -> drawn (log_bytes msgs) sc sc' -> shows m sc -> room m buffer 256 ->
  buffer + 256 <= vd_address \/ vd_address + 4000 <= buffer ->
  exists m' r' s', (let* (m, v, s) := queue_all m sc.2 s msgs in syslogd_flush m v s buffer) = Ok (m', sc'.2, s') /\
    shows m' sc' /\ sl_buffer s' = Some r' /\ rb_holds r' [].
Proof.
  intros Hrun Hbuf Hr Hm Hfit Hd Hsh Hroom Hap. destruct (queue_all_spec m sc.2 msgs s r [] Hrun Hbuf Hr Hm Hfit) as (r1 & -> & Hr1). cbn [obind app] in *.
  unfold syslogd_flush, __syslogd_flush. cbn [sl_running negb sl_buffer of_option obind]. destruct (rh_count _ _ Hr1) as [Hc _].
  destruct (flush_loop_spec buffer _ sc sc' Hd Hap) with (rounds := Z.to_nat (ringbuffer_length r1)) (m := m) (r := r1) as (m' & r' & -> & Hs' & Hr'); try done.
  - unfold log_bytes. apply Forall_concat, Forall_fmap. eapply Forall_impl; [exact Hm|]. intros msg (Hl & _ & (_ & Hb & _)).
    destruct (table_color _ Hl). unfold compose, entry_bytes. repeat constructor; try lia. done.
  - unfold ringbuffer_length. lia.
  - cbn [obind]. eexists _, r', _. split_and!; done.
Qed.

(** ** A small machine *)

Definition blank : list Z := replicate screen_size 0.
Definition cleared : video := Video 0 0 15 0 [].

(** The screen, two strings and the daemon's array. *)
Definition demo_screen_mem (s1 s2 : list Z) : mem :=
  write (write (write (write ∅ vd_address blank) 0x1000 (s1 ++ [0])) 0x2000 (s2 ++ [0])) 0x3000 (replicate 256 0).

Lemma demo_screen_shows s1 s2 : (length s1 < 0x1000)%nat -> (length s2 < 0x1000)%nat -> shows (demo_screen_mem s1 s2) (blank, cleared).
Proof.
  intros H1 H2. constructor; cbn [fst snd]; [apply length_replicate| | |done|done|done].
  - intros i Hi. unfold demo_screen_mem. rewrite !write_outside by (rewrite ?length_app, ?length_replicate; cbn [length]; unfold vd_address; lia).
    assert (E : blank !! i = Some 0) by (by apply lookup_replicate_2). rewrite E. apply (bytes_at_lookup _ blank); [apply write_bytes|done].
  - by apply Forall_replicate.
Qed.

Lemma demo_strings s1 s2 : (length s1 < 0x1000)%nat -> (length s2 < 0x1000)%nat -> Forall (fun c => 0 < c < 256) s1 -> Forall (fun c => 0 < c < 256) s2 ->
  cstr (demo_screen_mem s1 s2) 0x1000 s1 /\ cstr (demo_screen_mem s1 s2) 0x2000 s2 /\ room (demo_screen_mem s1 s2) 0x3000 256.
Proof.
  intros H1 H2 F1 F2. unfold demo_screen_mem, cstr. split_and!; try done; try lia.
  - eapply bytes_at_frame; [|apply (write_bytes (s1 ++ [0]) (write ∅ vd_address blank))]. intros q Hq. rewrite length_app in Hq. cbn [length] in Hq.
    rewrite !write_outside by (rewrite ?length_app, ?length_replicate; cbn [length]; lia). done.
  - eapply bytes_at_frame; [|apply write_bytes]. intros q Hq. rewrite length_app in Hq. cbn [length] in Hq.
    rewrite write_outside by (rewrite ?length_replicate; lia). done.
  - split_and!; try lia. intros i Hi. exists 0. apply (bytes_at_lookup _ (replicate 256 0)); [apply write_bytes|by apply lookup_replicate_2].
Qed.

(** "A", a new line, and "b" in red. *)
Definition demo_text : list Z := [65; 10; 14; 20; 98].

Lemma vd_writeString_draws_witness : exists m', vd_writeString (demo_screen_mem demo_text []) cleared 0x1000 =
    Ok (m', Video 1 1 4 0 [(0x3D4, 0x0F); (0x3D5, 81); (0x3D4, 0x0E); (0x3D5, 0)]) /\
  m' !! vd_address = Some 65 /\ m' !! (vd_address + 160) = Some 98 /\ m' !! (vd_address + 161) = Some 4.
Proof.
  destruct (demo_strings demo_text [] ltac:(cbn; lia) ltac:(cbn; lia)) as (Hs & _ & _); [repeat constructor; lia|constructor|].
  destruct (vd_writeString_draws (demo_screen_mem demo_text []) (blank, cleared) 0x1000 demo_text [Glyph 65; Newline; Colour true 4; Glyph 98]) as (m' & E & Hsh & _).
  - apply demo_screen_shows; cbn; lia.
  - exact Hs.
  - left. vm_compute. reflexivity.
  - vm_compute. reflexivity.
  - exists m'. split; [exact E|]. pose proof (sh_bytes _ _ Hsh 0 ltac:(unfold screen_size; lia)) as B0. pose proof (sh_bytes _ _ Hsh 160 ltac:(unfold screen_size; lia)) as B1.
    pose proof (sh_bytes _ _ Hsh 161 ltac:(unfold screen_size; lia)) as B2. split_and!; [exact B0|exact B1|exact B2].
Defined.

Definition demo_ring : ringbuffer_t := Ringbuffer 0x5000 (0x5000 + 2000) 0x5000 0x5000 2000 0 (replicate 2000 None).
Definition demo_log : syslogd_t := Syslogd (Some demo_ring) true LOG_WARNING.

Lemma demo_ring_empty : rb_holds demo_ring [].
Proof. constructor; try done; cbn [demo_ring rb_cells rb_size rb_buffer rb_begin rb_bufferLimit rb_count rb_end length]; rewrite ?length_replicate; (lia || done). Qed.

Lemma syslogd_logs_witness : exists m' s', (let* (m, v, s) := queue_all (demo_screen_mem [72; 105] [33]) cleared demo_log [(0, 0x1000, [72; 105]); (3, 0x2000, [33])] in
    syslogd_flush m v s 0x3000) = Ok (m', Video 3 0 14 0 [(0x3D4, 0x0F); (0x3D5, 3); (0x3D4, 0x0E); (0x3D5, 0)], s') /\
  m' !! vd_address = Some 72 /\ m' !! (vd_address + 1) = Some 4 /\ m' !! (vd_address + 4) = Some 33 /\ m' !! (vd_address + 5) = Some 14.
Proof.
  destruct (demo_strings [72; 105] [33] ltac:(cbn; lia) ltac:(cbn; lia)) as (Hs1 & Hs2 & Hroom); [repeat constructor; lia|repeat constructor; lia|].
  destruct (syslogd_logs (demo_screen_mem [72; 105] [33]) (blank, cleared)
    (show_cursor (fold_left draw [Colour true 4; Glyph 72; Glyph 105; Colour true 14; Glyph 33] (blank, cleared))) demo_log demo_ring 0x3000
    [(0, 0x1000, [72; 105]); (3, 0x2000, [33])]) as (m' & r' & s' & E & Hsh & _ & _).
  - reflexivity.
  - reflexivity.
  - exact demo_ring_empty.
  - apply Forall_cons_2; [|apply Forall_cons_2; [|apply Forall_nil_2]]; (split; [split; vm_compute; discriminate|split; [vm_compute; discriminate|assumption]]).
  - vm_compute. discriminate.
  - eapply drawn_piece; [discriminate|vm_compute; reflexivity|]. apply drawn_nil.
  - apply demo_screen_shows; cbn; lia.
  - exact Hroom.
  - left. vm_compute. discriminate.
  - exists m', s'. split; [exact E|]. pose proof (sh_bytes _ _ Hsh 0 ltac:(unfold screen_size; lia)) as B0. pose proof (sh_bytes _ _ Hsh 1 ltac:(unfold screen_size; lia)) as B1.
    pose proof (sh_bytes _ _ Hsh 4 ltac:(unfold screen_size; lia)) as B2. pose proof (sh_bytes _ _ Hsh 5 ltac:(unfold screen_size; lia)) as B3.
    split_and!; [exact B0|exact B1|exact B2|exact B3].
Defined.

(** ** What goes wrong *)

(** A string that ends within a colour code is read past its end. *)
Lemma code_at_end m v p : 0 <= p < 2 ^ 32 - 2 -> m !! p = Some 14 -> m !! (p + 1) = Some 0 -> m !! (p + 2) = None -> vd_writeString m v p = Fault.
Proof.
  intros Hp E0 E1 E2. unfold vd_writeString, string_fuel. cbn [write_loop]. unfold load at 1. rewrite E0. cbn [of_option obind].
  change (14 =? 0) with false. cbn match. change (char 14) with 14. change (14 =? 10) with false. change (14 <=? 31) with true. change ((14 =? 14) || (14 =? 15)) with true. cbn match.
  rewrite u32_small by lia. unfold load at 1. rewrite E1. cbn [of_option obind]. change (char 0) with 0. change ((16 <=? 0) && (0 <=? 31)) with false. cbn match.
  rewrite u32_small by lia. replace (p + 1 + 1) with (p + 2) by lia. destruct (size m); cbn [write_loop]; unfold load; by rewrite E2.
Qed.

(** The daemon cuts the log into pieces of 255 bytes.  After a message of 252
    characters the code of the next one is cut in two, and the array is read past
    its end. *)
Lemma code_cut_in_two :
  (let* (m, v, s) := queue_all (demo_screen_mem (replicate 252 97) [98]) cleared demo_log [(3, 0x1000, replicate 252 97); (3, 0x2000, [98])] in
   syslogd_flush m v s 0x3000) = Fault.
Proof. vm_compute. reflexivity. Qed.

(** Scrolling with the cursor in the first line moves it above the screen. *)
Lemma scroll_above_screen m bs v : shows m (bs, v) -> vd_cursorY v = 0 -> m !! (vd_address - 159 + 2 * vd_cursorX v) = None -> vd_scrollLines m v 1 = Fault.
Proof.
  intros Hs Hy Hn. unfold vd_scrollLines. change (Z.to_nat 1) with 1%nat. cbn [scroll_times]. destruct (scrollLine_spec m bs v Hs) as (m1 & -> & _ & He). cbn [obind].
  pose proof (sh_x _ _ Hs) as Hx. cbn [snd] in Hx. unfold vd_width in Hx. rewrite Hy. cbn [with_cursor vd_cursorX vd_cursorY]. change (u32 (0 - 1)) with (2 ^ 32 - 1).
  unfold __vd_setCursor, __vd_setColor, vd_index, vd_width.
  replace (u32 (vd_address + u32 (u32 (u32 ((2 ^ 32 - 1) * 80 + vd_cursorX v) * 2) + 1))) with (vd_address - 159 + 2 * vd_cursorX v).
  - unfold load. rewrite He by (unfold vd_address; lia). by rewrite Hn.
  - unfold u32, vd_address. Z.to_euclidean_division_equations. lia.
Qed.
