(* ===== verification/Tls.v ===== *)
(** * Thread-local storage of programs (lib/libc/sys/tls.c)

    Every thread has an area of 1024 buckets that the kernel hands out (the system
    call is [thread_getTLSArea] of the kernel); a key is the number of an occupied
    bucket, and bucket 0 holds [errno].  The area is related to the finite map of
    the keys in use. *)

From S2P Require Import Prelude.

Definition kTLSAreaSize : Z := 2.
Definition kTLSInvalidKey : Z := UINT32_MAX.

Record tls_bucket_s := Bucket { occupied : bool; bucket_value : Z }.

Definition kTLSBucketCount : Z := kTLSAreaSize * 4096 / 8.

(** The area, unless the system call gave a null pointer. *)
Abbreviation area := (list tls_bucket_s).

(** [bucket += key]: outside the area there is other memory, or none. *)
Definition bucket_at (buckets : area) (key : Z) : outcome tls_bucket_s := of_option (buckets !! Z.to_nat key).
Definition put_bucket (buckets : area) (key : Z) (b : tls_bucket_s) : area := <[Z.to_nat key := b]> buckets.

Definition tls_set (a : option area) (key value : Z) : outcome (bool * option area) :=
  if (key =? kTLSInvalidKey) || (key =? 0) then Ok (false, a) else
  match a with
  | None => Ok (false, a)
  | Some buckets =>
      let* bucket := bucket_at buckets key in
      if occupied bucket then Ok (true, Some (put_bucket buckets key (Bucket true value))) else Ok (false, a)
  end.

Definition tls_get (a : option area) (key : Z) : outcome Z :=
  if (key =? kTLSInvalidKey) || (key =? 0) then Ok NULL else
  match a with
  | None => Ok NULL
  | Some buckets => let* bucket := bucket_at buckets key in Ok (if occupied bucket then bucket_value bucket else NULL)
  end.

(** The area is used without a test. *)
Definition __tls_errno (a : option area) : outcome Z :=
  let* buckets := of_option a in let* b := bucket_at buckets 0 in Ok (bucket_value b).
Definition __tls_setErrno (a : option area) (value : Z) : outcome (option area) :=
  let* buckets := of_option a in
  let* b := bucket_at buckets 0 in
  Ok (Some (put_bucket buckets 0 (Bucket (occupied b) (u32 value)))).

(** The loop from [i] on, for [n] buckets. *)
Fixpoint allocate_loop (n : nat) (buckets : area) (i : Z) : outcome (Z * area) :=
  match n with
  | O => Ok (u32 (-1), buckets)
  | S n =>
      let* b := bucket_at buckets i in
      if negb (occupied b) then Ok (i, put_bucket buckets i (Bucket true (bucket_value b)))
      else allocate_loop n buckets (u32 (i + 1))
  end.

Definition tls_allocateKey (a : option area) : outcome (Z * option area) :=
  match a with
  | None => Ok (u32 (-1), a)
  | Some buckets => let* (key, buckets) := allocate_loop (Z.to_nat (kTLSBucketCount - 1)) buckets 1 in Ok (key, Some buckets)
  end.

Definition tls_freeKey (a : option area) (key : Z) : outcome (option area) :=
  if (key =? kTLSInvalidKey) || (key =? 0) then Ok a else
  match a with
  | None => Ok a
  | Some buckets => let* b := bucket_at buckets key in Ok (Some (put_bucket buckets key (Bucket false (bucket_value b))))
  end.

(** ** The map of the keys in use *)

Definition is_key (k : Z) : Prop := 0 < k < kTLSBucketCount.

(** Comparisons of keys. *)
Ltac key_range := unfold is_key, kTLSInvalidKey, UINT32_MAX in *; change kTLSBucketCount with 1024 in *; lia.

Record keys (buckets : area) (mp : gmap Z Z) : Prop := {
  ky_length : length buckets = Z.to_nat kTLSBucketCount;
  ky_map k : is_key k -> mp !! k = match buckets !! Z.to_nat k with Some (Bucket true v) => Some v | _ => None end;
  ky_dom k : is_Some (mp !! k) -> is_key k
}.

Inductive tls_op := SetKey (key value : Z) | GetKey (key : Z) | AllocateKey | FreeKey (key : Z).

Definition run_op (a : option area) (op : tls_op) : outcome (Z * option area) :=
  match op with
  | SetKey key value => let* (b, a) := tls_set a key value in Ok (Z.b2z b, a)
  | GetKey key => let* v := tls_get a key in Ok (v, a)
  | AllocateKey => tls_allocateKey a
  | FreeKey key => let* a := tls_freeKey a key in Ok (0, a)
  end.

(** The keys an operation may be called with. *)
Definition op_key (op : tls_op) : Prop :=
  match op with SetKey key _ | GetKey key | FreeKey key => is_key key \/ key = 0 \/ key = kTLSInvalidKey | AllocateKey => True end.

(** What it does to the map, and its result.  A new key is the least that is free;
    it starts with the value the bucket was left with. *)
Inductive op_spec (mp : gmap Z Z) : tls_op -> Z -> gmap Z Z -> Prop :=
| spec_set key v old : mp !! key = Some old -> op_spec mp (SetKey key v) 1 (<[key := v]> mp)
| spec_set_none key v : mp !! key = None -> op_spec mp (SetKey key v) 0 mp
| spec_get key : op_spec mp (GetKey key) (default NULL (mp !! key)) mp
| spec_allocate key v : is_key key -> mp !! key = None -> (forall k, 0 < k < key -> is_Some (mp !! k)) -> op_spec mp AllocateKey key (<[key := v]> mp)
| spec_full : (forall k, is_key k -> is_Some (mp !! k)) -> op_spec mp AllocateKey kTLSInvalidKey mp
| spec_free key : op_spec mp (FreeKey key) 0 (delete key mp).

Section Keys.
Context (buckets : area) (mp : gmap Z Z) (Hk : keys buckets mp).

Lemma bucket_there k : is_key k -> exists b, bucket_at buckets k = Ok b /\ buckets !! Z.to_nat k = Some b /\ mp !! k = if occupied b then Some (bucket_value b) else None.
Proof.
  intros Hk1. unfold bucket_at. rewrite (ky_map _ _ Hk k Hk1). destruct (lookup_lt_is_Some_2 buckets (Z.to_nat k)) as [b E].
  - rewrite (ky_length _ _ Hk). unfold is_key in Hk1. lia.
  - rewrite E. exists b. split_and!; try done. by destruct b as [[] v].
Qed.

Lemma no_key k : ~ is_key k -> mp !! k = None.
Proof. intros Hn. apply eq_None_not_Some. intros Hs. by apply Hn, (ky_dom _ _ Hk). Qed.

Lemma keys_put k b : is_key k -> keys (put_bucket buckets k b) (if occupied b then <[k := bucket_value b]> mp else delete k mp).
Proof.
  intros Hk1. destruct Hk as [Hl Hm Hd]. unfold put_bucket. constructor.
  - by rewrite length_insert.
  - intros j Hj. destruct (decide (j = k)) as [->|Hne].
    + rewrite list_lookup_insert_eq by (unfold is_key in Hj; lia). destruct b as [[] v]; cbn; [apply lookup_insert_eq|apply lookup_delete_eq].
    + rewrite list_lookup_insert_ne by (unfold is_key in *; lia). rewrite <- Hm by done. destruct (occupied b); [by rewrite lookup_insert_ne by done|by rewrite lookup_delete_ne by done].
  - intros j. destruct (decide (j = k)) as [->|Hne]; [done|]. destruct (occupied b); [rewrite lookup_insert_ne by done|rewrite lookup_delete_ne by done]; apply Hd.
Qed.

Lemma allocate_loop_spec n : forall i, 0 < i -> i + Z.of_nat n = kTLSBucketCount -> (forall k, 0 < k < i -> is_Some (mp !! k)) ->
  (exists key v, allocate_loop n buckets i = Ok (key, put_bucket buckets key (Bucket true v)) /\ is_key key /\ mp !! key = None /\ forall k, 0 < k < key -> is_Some (mp !! k)) \/
  (allocate_loop n buckets i = Ok (kTLSInvalidKey, buckets) /\ forall k, is_key k -> is_Some (mp !! k)).
Proof.
  induction n as [|n IH]; intros i Hi Hn Hall; cbn [allocate_loop].
  { right. split; [done|]. intros k Hk1. apply Hall. unfold is_key in Hk1. lia. }
  assert (Hki : is_key i) by (unfold is_key; lia). destruct (bucket_there i Hki) as (b & -> & _ & Hb). cbn [obind]. destruct (occupied b) eqn:Ho; cbn [negb].
  - change kTLSBucketCount with 1024 in *. rewrite u32_small by lia. apply IH; [lia|lia|].
    intros k Hk1. destruct (decide (k = i)) as [->|]; [by rewrite Hb|apply Hall; lia].
  - left. exists i, (bucket_value b). by split_and!.
Qed.
End Keys.

(** Thread-local storage is a map from keys to values: setting, reading,
    allocating and giving back keys does to the map what the names say, and never
    leaves the area, as long as the keys are in its range. *)
Theorem tls_refines_map buckets mp op : keys buckets mp -> op_key op ->
  exists r buckets' mp', run_op (Some buckets) op = Ok (r, Some buckets') /\ keys buckets' mp' /\ op_spec mp op r mp'.
Proof.
  intros Hk Hop. destruct op as [key v|key| |key]; cbn [run_op op_key] in *.
  - unfold tls_set. destruct Hop as [Hkey|Hkey].
    + rewrite (proj2 (orb_false_iff _ _)) by key_range.
      destruct (bucket_there _ _ Hk key Hkey) as (b & -> & _ & Hb). cbn [obind]. destruct (occupied b) eqn:Ho; cbn [obind Z.b2z].
      * eexists _, _, _. split; [done|]. split; [exact (keys_put _ _ Hk key (Bucket true v) Hkey)|]. by econstructor.
      * eexists _, _, _. split; [done|]. split; [done|]. by constructor.
    + rewrite (proj2 (orb_true_iff _ _)) by lia. eexists _, _, _. split; [done|]. split; [done|]. constructor. apply (no_key _ _ Hk). key_range.
  - unfold tls_get. destruct Hop as [Hkey|Hkey].
    + rewrite (proj2 (orb_false_iff _ _)) by key_range.
      destruct (bucket_there _ _ Hk key Hkey) as (b & -> & _ & Hb). cbn [obind]. eexists _, _, _. split; [done|]. split; [exact Hk|].
      replace (if occupied b then bucket_value b else NULL) with (default NULL (mp !! key)) by (rewrite Hb; by destruct (occupied b)). constructor.
    + rewrite (proj2 (orb_true_iff _ _)) by lia. eexists _, _, _. split; [done|]. split; [exact Hk|].
      replace NULL with (default NULL (mp !! key)); [constructor|]. rewrite (no_key _ _ Hk); [done|]. key_range.
  - unfold tls_allocateKey. destruct (allocate_loop_spec _ _ Hk (Z.to_nat (kTLSBucketCount - 1)) 1) as [(key & v & -> & Hkey & Hnone & Hleast)|[-> Hall]]; [lia|done|lia|..]; cbn [obind].
    + eexists _, _, _. split; [done|]. split; [exact (keys_put _ _ Hk key (Bucket true v) Hkey)|]. by constructor.
    + eexists _, _, _. split; [done|]. split; [exact Hk|]. by constructor.
  - unfold tls_freeKey. destruct Hop as [Hkey|Hkey].
    + rewrite (proj2 (orb_false_iff _ _)) by key_range.
      destruct (bucket_there _ _ Hk key Hkey) as (b & -> & _ & Hb). cbn [obind]. eexists _, _, _. split; [done|]. split; [exact (keys_put _ _ Hk key (Bucket false (bucket_value b)) Hkey)|]. constructor.
    + rewrite (proj2 (orb_true_iff _ _)) by lia. eexists _, _, (delete key mp). split; [done|]. split; [|constructor].
      rewrite delete_id; [done|]. apply (no_key _ _ Hk). key_range.
Qed.

Definition fresh_area : area := replicate (Z.to_nat kTLSBucketCount) (Bucket false 0).

Lemma fresh_keys : keys fresh_area ∅.
Proof.
  constructor; [apply length_replicate| |].
  - intros k Hk. unfold fresh_area. rewrite lookup_empty, lookup_replicate_2; [done|]. unfold is_key in Hk. lia.
  - intros k [v Hv]. by rewrite lookup_empty in Hv.
Qed.

Lemma tls_refines_map_witness : exists r a mp', run_op (Some fresh_area) AllocateKey = Ok (r, Some a) /\ keys a mp' /\ op_spec ∅ AllocateKey r mp'.
Proof. exact (tls_refines_map fresh_area ∅ AllocateKey fresh_keys I). Defined.

(** A key that was given back and allocated again still has its old value, a key
    beyond the area is not refused, and [errno] is looked for in an area that is
    not there. *)
Lemma key_keeps_value : (let* (k, a) := tls_allocateKey (Some fresh_area) in let* (_, a) := tls_set a k 7 in let* a := tls_freeKey a k in
  let* (k', a) := tls_allocateKey a in let* v := tls_get a k' in Ok (k, k', v)) = Ok (1, 1, 7).
Proof. vm_compute. reflexivity. Qed.

Lemma key_not_checked buckets v key : length buckets = Z.to_nat kTLSBucketCount -> kTLSBucketCount <= key < kTLSInvalidKey -> tls_set (Some buckets) key v = Fault.
Proof.
  intros Hl Hk. unfold tls_set. rewrite (proj2 (orb_false_iff _ _)) by key_range.
  unfold bucket_at. rewrite lookup_ge_None_2; [done|]. lia.
Qed.
