(* ===== verification/ATree.v ===== *)
(** * The AA tree (sys/container/atree.c)

    The tree on a store of nodes, as the code has it: links are addresses, the
    sentinel [nil] is a node that links to itself, and the way down is kept in
    an array of [kAtreeMaxHeight] addresses, which the fuel of the descents
    counts: a step that finds no slot left writes past the array. *)

From S2P Require Import Prelude HeapSpec Block Iterator.

Record anode := Anode { an_key : Z; an_data : Z; an_level : Z; an_link0 : Z; an_link1 : Z }.

Abbreviation anodes := (gmap Z anode).

(** The comparison function of the structure is an argument of the operations. *)
Record atree_t := Atree { at_root : Z; at_nil : Z; at_nodes : Z }.

Definition kAtreeMaxHeight : nat := 64.
Definition sizeof_atree : Z := 16.
Definition sizeof_anode : Z := 20.
Definition sizeof_pointer : Z := 4.

(** [node->link[direction]], the direction being 1 when [d] holds. *)
Definition an_link (n : anode) (d : bool) : Z := if d then an_link1 n else an_link0 n.
Definition with_link (n : anode) (d : bool) (q : Z) : anode :=
  if d then Anode (an_key n) (an_data n) (an_level n) (an_link0 n) q
  else Anode (an_key n) (an_data n) (an_level n) q (an_link1 n).
Definition with_level (n : anode) (level : Z) : anode :=
  Anode (an_key n) (an_data n) level (an_link0 n) (an_link1 n).
Definition with_data (n : anode) (data : Z) : anode :=
  Anode (an_key n) data (an_level n) (an_link0 n) (an_link1 n).

Definition get (st : anodes) (p : Z) : outcome anode := of_option (st !! p).
Definition set_link (st : anodes) (p : Z) (d : bool) (q : Z) : outcome anodes :=
  let* n := get st p in Ok (<[p := with_link n d q]> st).
Definition set_level (st : anodes) (p level : Z) : outcome anodes :=
  let* n := get st p in Ok (<[p := with_level n level]> st).

(** ** Rebalancing *)

Definition atree_skew (st : anodes) (node : Z) : outcome (Z * anodes) :=
  let* n := get st node in
  let* l := get st (an_link n false) in
  if (an_level l =? an_level n) && (0 <? an_level n) then
    let temp := an_link n false in
    let* st := set_link st node false (an_link l true) in
    let* st := set_link st temp true node in
    Ok (temp, st)
  else Ok (node, st).

Definition atree_split (st : anodes) (node : Z) : outcome (Z * anodes) :=
  let* n := get st node in
  let* r := get st (an_link n true) in
  let* rr := get st (an_link r true) in
  if (an_level rr =? an_level n) && (0 <? an_level n) then
    let temp := an_link n true in
    let* st := set_link st node true (an_link r false) in
    let* st := set_link st temp false node in
    let* t := get st temp in
    let* st := set_level st temp (s32 (an_level t + 1)) in
    Ok (temp, st)
  else Ok (node, st).

Section Tree.
Context {H : Type} `{KernelHeap H} (comparison : Z -> Z -> Z).

(** ** Making and destroying *)

(** A field of a block of [size] bytes. *)
Definition field_of (size offset : Z) : outcome unit := if offset + 4 <=? size then Ok tt else Fault.

(** The block for the structure has the size of a pointer; the fields are at 0, 4,
    8 and 12, the assignment to [root] and [nil] storing [nil] first. *)
Definition atree_create (h : H) : outcome (option (Z * atree_t * anodes) * H) :=
  let* (tree, h) := halloc h sizeof_pointer in
  if tree =? NULL then Ok (None, h) else
  let* (node, h) := halloc h sizeof_anode in
  let* _ := field_of sizeof_pointer 4 in
  let* _ := field_of sizeof_pointer 0 in
  if node =? NULL then let* h := hfree h tree in Ok (None, h) else
  let* _ := field_of sizeof_pointer 8 in
  let* _ := field_of sizeof_pointer 12 in
  Ok (Some (tree, Atree node node 0, {[node := Anode NULL NULL 0 node node]}), h).

(** Every round frees a node or moves one to the right spine, so twice the size of
    the store bounds the rounds. *)
Fixpoint atree_destroyLoop (fuel : nat) (h : H) (st : anodes) (nil node : Z) : outcome (H * anodes) :=
  if node =? nil then Ok (h, st) else
  match fuel with
  | O => Hang
  | S f =>
      let* n := get st node in
      if an_link n false =? nil then
        let temp := an_link n true in
        let* h := hfree h node in
        atree_destroyLoop f h (delete node st) nil temp
      else
        let temp := an_link n false in
        let* t := get st temp in
        let* st := set_link st node false (an_link t true) in
        let* st := set_link st temp true node in
        atree_destroyLoop f h st nil temp
  end.

Definition atree_destroy (h : H) (address : Z) (tree : atree_t) (st : anodes) : outcome H :=
  let* (h, st) := atree_destroyLoop (2 * size st) h st (at_nil tree) (at_root tree) in
  let* h := hfree h (at_nil tree) in
  hfree h address.

Definition atree_count (tree : atree_t) : Z := at_nodes tree.

(** ** Looking up *)

(** A well-formed tree is no deeper than the store has nodes. *)
Fixpoint atree_findWalk (fuel : nat) (st : anodes) (nil node key : Z) : outcome Z :=
  if node =? nil then Ok NULL else
  match fuel with
  | O => Hang
  | S f =>
      let* n := get st node in
      let result := comparison (an_key n) key in
      if result =? 0 then Ok (an_data n) else atree_findWalk f st nil (an_link n (result <? 0)) key
  end.

Definition atree_find (tree : atree_t) (st : anodes) (key : Z) : outcome Z :=
  atree_findWalk (size st) st (at_nil tree) (at_root tree) key.

(** ** Inserting *)

Definition atree_createNode (h : H) (tree : atree_t) (st : anodes) (data key : Z) : outcome (Z * anodes * H) :=
  let* (node, h) := halloc h sizeof_anode in
  if node =? NULL then Ok (at_nil tree, st, h) else
  Ok (node, <[node := Anode key data 1 (at_nil tree) (at_nil tree)]> st, h).

(** The way down: the last node, the direction taken there and the nodes passed, the
    last one first.  [slots] are left in the array. *)
Fixpoint insert_descend (slots : nat) (st : anodes) (nil node key : Z) (path : list Z) : outcome (Z * bool * list Z) :=
  match slots with
  | O => Fault
  | S slots' =>
      let path := node :: path in
      let* n := get st node in
      let direction := comparison (an_key n) key <? 0 in
      if an_link n direction =? nil then Ok (node, direction, path)
      else insert_descend slots' st nil (an_link n direction) key path
  end.

(** The way back up; the root it ends with. *)
Fixpoint insert_ascend (path : list Z) (st : anodes) (root : Z) : outcome (Z * anodes) :=
  match path with
  | [] => Ok (root, st)
  | node :: above =>
      match above with
      | [] =>
          let* (node, st) := atree_skew st node in
          let* (node, st) := atree_split st node in
          insert_ascend above st node
      | parent :: _ =>
          let* p := get st parent in
          let direction := an_link p true =? node in
          let* (node, st) := atree_skew st node in
          let* (node, st) := atree_split st node in
          let* st := set_link st parent direction node in
          insert_ascend above st root
      end
  end.

Definition atree_insert (h : H) (tree : atree_t) (st : anodes) (data key : Z) : outcome (atree_t * anodes * H) :=
  let nil := at_nil tree in
  if at_root tree =? nil then
    let* (node, st, h) := atree_createNode h tree st data key in
    let tree := Atree node nil (at_nodes tree) in
    if node =? nil then Ok (tree, st, h) else Ok (Atree node nil (u32 (at_nodes tree + 1)), st, h)
  else
    let* (node, direction, path) := insert_descend kAtreeMaxHeight st nil (at_root tree) key [] in
    let* (leaf, st, h) := atree_createNode h tree st data key in
    let* st := set_link st node direction leaf in
    if leaf =? nil then Ok (tree, st, h) else
    let* (root, st) := insert_ascend path st (at_root tree) in
    Ok (Atree root nil (u32 (at_nodes tree + 1)), st, h).

(** ** Removing *)

(** The way down to the node with the key, or nothing when the search ends at [nil]. *)
Fixpoint remove_descend (slots : nat) (st : anodes) (nil node key : Z) (direction : bool) (path : list Z)
    : outcome (option (Z * bool * list Z * nat)) :=
  match slots with
  | O => Fault
  | S slots' =>
      let path := node :: path in
      if node =? nil then Ok None else
      let* n := get st node in
      let result := comparison (an_key n) key in
      if result =? 0 then Ok (Some (node, direction, path, slots'))
      else remove_descend slots' st nil (an_link n (result <? 0)) key (result <? 0) path
  end.

(** The search for the heir: it, the node above it and the way there. *)
Fixpoint heir_descend (slots : nat) (st : anodes) (nil heir prev : Z) (path : list Z) : outcome (Z * Z * list Z) :=
  let* n := get st heir in
  if an_link n false =? nil then Ok (heir, prev, path) else
  match slots with
  | O => Fault
  | S slots' => heir_descend slots' st nil (an_link n false) heir (heir :: path)
  end.

(** One round of the way back up at [up]. *)
Definition remove_fix (st : anodes) (up : Z) : outcome (Z * anodes) :=
  let* n := get st up in
  let* l := get st (an_link n false) in
  let* r := get st (an_link n true) in
  if (an_level l <? an_level n - 1) || (an_level r <? an_level n - 1) then
    let level := s32 (an_level n - 1) in
    let* st := set_level st up level in
    let* st := if level <? an_level r then set_level st (an_link n true) level else Ok st in
    let* (up, st) := atree_skew st up in
    let* n := get st up in
    let* (r, st) := atree_skew st (an_link n true) in
    let* st := set_link st up true r in
    let* rn := get st r in
    let* (rr, st) := atree_skew st (an_link rn true) in
    let* st := set_link st r true rr in
    let* (up, st) := atree_split st up in
    let* n := get st up in
    let* (r, st) := atree_split st (an_link n true) in
    let* st := set_link st up true r in
    Ok (up, st)
  else Ok (up, st).

Fixpoint remove_ascend (path : list Z) (st : anodes) (root : Z) : outcome (Z * anodes) :=
  match path with
  | [] => Ok (root, st)
  | up :: above =>
      match above with
      | [] =>
          let* (up, st) := remove_fix st up in
          remove_ascend above st up
      | parent :: _ =>
          let* p := get st parent in
          let direction := an_link p true =? up in
          let* (up, st) := remove_fix st up in
          let* st := set_link st parent direction up in
          remove_ascend above st root
      end
  end.

(** Taking the node out: the way back up that is left, the root and the store. *)
Definition remove_node (h : H) (st : anodes) (nil root node : Z) (direction : bool) (path : list Z) (slots : nat)
    : outcome (list Z * Z * anodes * H) :=
  let* n := get st node in
  if (an_link n false =? nil) || (an_link n true =? nil) then
    let direction2 := an_link n false =? nil in
    let* (root, st) :=
      match tail path with
      | parent :: _ => let* st := set_link st parent direction (an_link n direction2) in Ok (root, st)
      | [] => Ok (an_link n true, st)
      end in
    let* h := hfree h node in
    Ok (tail path, root, delete node st, h)
  else
    let* (heir, prev, path) := heir_descend slots st nil (an_link n true) node path in
    let* hn := get st heir in
    let st := <[node := with_data n (an_data hn)]> st in
    let* st := set_link st prev (prev =? node) (an_link hn true) in
    let* h := hfree h heir in
    Ok (path, root, delete heir st, h).

Definition atree_remove (h : H) (tree : atree_t) (st : anodes) (key : Z) : outcome (atree_t * anodes * H) :=
  let nil := at_nil tree in
  if at_root tree =? nil then Ok (tree, st, h) else
  let* found := remove_descend kAtreeMaxHeight st nil (at_root tree) key false [] in
  match found with
  | None => Ok (tree, st, h)
  | Some (node, direction, path, slots) =>
      let* (path, root, st, h) := remove_node h st nil (at_root tree) node direction path slots in
      let* (root, st) := remove_ascend path st root in
      Ok (Atree root nil (u32 (at_nodes tree - 1)), st, h)
  end.
End Tree.

(** ** Iterators

    The way down to [ai_node] is [ai_path], its last entry first; [top] is its
    length.  [ai_first] is [None] where nobody has set it. *)

Record atree_iterator_t := Aiterator {
  ai_tree : atree_t;
  ai_node : Z;
  ai_path : list Z;
  ai_direction : bool;
  ai_first : option bool
}.

Definition sizeof_atree_iterator : Z := 276.

Definition slots_left (path : list Z) : nat := (kAtreeMaxHeight - length path)%nat.

(** [while(node->link[d] != nil) { path[top ++] = node; node = node->link[d]; }] *)
Fixpoint iterator_descend (slots : nat) (st : anodes) (nil : Z) (d : bool) (node : Z) (path : list Z) : outcome (Z * list Z) :=
  let* n := get st node in
  if an_link n d =? nil then Ok (node, path) else
  match slots with
  | O => Fault
  | S slots => iterator_descend slots st nil d (an_link n d) (node :: path)
  end.

(** [objects[gathered ++] = node->data] *)
Definition gather (st : anodes) (node : Z) (gathered : Z) (objects : block) : outcome (Z * block) :=
  let* n := get st node in
  let* objects := cell_set objects gathered (an_data n) in
  Ok (u32 (gathered + 1), objects).

(** The loop that goes up again. *)
Fixpoint iterator_climb (st : anodes) (tree : atree_t) (d : bool) (node : Z) (path : list Z) (gathered : Z) (objects : block) :
    outcome (Z * list Z * Z * block) :=
  match path with
  | [] =>
      let* (gathered, objects) := if node =? at_root tree then gather st node gathered objects else Ok (gathered, objects) in
      Ok (at_nil tree, [], gathered, objects)
  | parent :: path =>
      let* n := get st parent in
      if node =? an_link n d then iterator_climb st tree d parent path gathered objects
      else Ok (parent, path, gathered, objects)
  end.

(** The next node in the iterator's direction. *)
Definition iterator_advance (st : anodes) (a : atree_iterator_t) (gathered : Z) (objects : block) : outcome (atree_iterator_t * Z * block) :=
  let nil := at_nil (ai_tree a) in
  let d := ai_direction a in
  let* n := get st (ai_node a) in
  let* (node, path, gathered, objects) :=
    if negb (an_link n d =? nil) then
      match slots_left (ai_path a) with
      | O => Fault
      | S slots =>
          let* (node, path) := iterator_descend slots st nil (negb d) (an_link n d) (ai_node a :: ai_path a) in
          Ok (node, path, gathered, objects)
      end
    else iterator_climb st (ai_tree a) d (ai_node a) (ai_path a) gathered objects in
  Ok (Aiterator (ai_tree a) node path d (ai_first a), gathered, objects).

(** A round gathers an object or is the last one, so [maxObjects] rounds are
    enough. *)
Fixpoint atree_fetchLoop (rounds : nat) (st : anodes) (maxObjects : Z) (a : atree_iterator_t) (gathered : Z) (objects : block) :
    outcome (Z * atree_iterator_t * block) :=
  if maxObjects <=? gathered then Ok (gathered, a, objects) else
  match rounds with
  | O => Hang
  | S rounds =>
      let nil := at_nil (ai_tree a) in
      let* first := of_option (ai_first a) in
      let* (a, gathered, objects) :=
        if first && negb (ai_node a =? nil) then
          let* (gathered, objects) := gather st (ai_node a) gathered objects in
          Ok (Aiterator (ai_tree a) (ai_node a) (ai_path a) (ai_direction a) (Some false), gathered, objects)
        else Ok (a, gathered, objects) in
      let* (a, gathered, objects) := iterator_advance st a gathered objects in
      if ai_node a =? nil then Ok (gathered, a, objects) else
      let* (gathered, objects) := gather st (ai_node a) gathered objects in
      atree_fetchLoop rounds st maxObjects a gathered objects
  end.

(** [data] points to the structure at the given address. *)
Definition atree_iteratorNextObject (st : anodes) (it : iterator_t (Z * atree_iterator_t)) (maxObjects : Z) :
    outcome (Z * iterator_t (Z * atree_iterator_t)) :=
  let* (gathered, a, objects) := atree_fetchLoop (Z.to_nat maxObjects) st maxObjects (snd (it_data it)) 0 (it_objects it) in
  Ok (gathered, Iterator (fst (it_data it), a) (it_custom it) objects (it_objectCount it) (it_index it) (it_objectsLeft it)).

Section Iterators.
Context {H : Type} `{KernelHeap H}.

Definition atree_iteratorDestroy (h : H) (it : iterator_t (Z * atree_iterator_t)) : outcome H := hfree h (fst (it_data it)).

(** What both iterators do once [direction] and [first] are set.  The second
    allocation is used without a test. *)
Definition iterator_at_start (h : H) (tree : atree_t) (st : anodes) (direction : bool) (first : option bool) :
    outcome (option (Z * iterator_t (Z * atree_iterator_t)) * H) :=
  let* (aiterator, h) := halloc h sizeof_atree_iterator in
  if aiterator =? NULL then Ok (None, h) else
  let* (node, path) :=
    if at_root tree =? at_nil tree then Ok (at_root tree, [])
    else iterator_descend kAtreeMaxHeight st (at_nil tree) (negb direction) (at_root tree) [] in
  let* (created, h) := iterator_create h (aiterator, Aiterator tree node path direction first) in
  let* created := of_option created in
  Ok (Some created, h).

Definition atree_iterator (h : H) (tree : atree_t) (st : anodes) := iterator_at_start h tree st true (Some true).

(** [first] is not set. *)
Definition atree_backwardsIterator (h : H) (tree : atree_t) (st : anodes) := iterator_at_start h tree st false None.
End Iterators.
