(* ===== verification/ATreeModel.v ===== *)
(** * Balanced trees

    The trees that an AA tree's nodes form, the two rotations and the insertion on
    them, and why insertion keeps them balanced and in order. *)

From Stdlib Require Import Sorting.Sorted.
From S2P Require Import Prelude.

(** A node has its address, key, data and level. *)
Inductive tree := Leaf | Tree (a k v lv : Z) (l r : tree).

#[global] Instance tree_eq_dec : EqDecision tree.
Proof. solve_decision. Defined.

Definition level (t : tree) : Z := match t with Leaf => 0 | Tree _ _ _ lv _ _ => lv end.
Definition right (t : tree) : tree := match t with Leaf => Leaf | Tree _ _ _ _ _ r => r end.
Definition left (t : tree) : tree := match t with Leaf => Leaf | Tree _ _ _ _ l _ => l end.

Fixpoint addrs (t : tree) : list Z :=
  match t with Leaf => [] | Tree a _ _ _ l r => a :: addrs l ++ addrs r end.

(** The entries, in order. *)
Fixpoint inorder (t : tree) : list (Z * Z) :=
  match t with Leaf => [] | Tree _ k v _ l r => inorder l ++ (k, v) :: inorder r end.

Fixpoint height (t : tree) : nat :=
  match t with Leaf => O | Tree _ _ _ _ l r => S (height l `max` height r) end.

(** Levels go down by one to the left and by at most one to the right, and by at
    least one over two steps to the right. *)
Fixpoint aa (t : tree) : Prop :=
  match t with
  | Leaf => True
  | Tree _ _ _ lv l r =>
      1 <= lv /\ level l = lv - 1 /\ lv - 1 <= level r <= lv /\ level (right r) < lv /\ aa l /\ aa r
  end.

(** All levels are between 1 and [b]. *)
Fixpoint levels (b : Z) (t : tree) : Prop :=
  match t with Leaf => True | Tree _ _ _ lv l r => 1 <= lv <= b /\ levels b l /\ levels b r end.

Definition skew (t : tree) : tree :=
  match t with
  | Tree a k v lv (Tree b kb vb lb ll lr) r =>
      if lb =? lv then Tree b kb vb lb ll (Tree a k v lv lr r) else t
  | _ => t
  end.

Definition split_tree (t : tree) : tree :=
  match t with
  | Tree a k v lv l (Tree b kb vb lb rl rr) =>
      if level rr =? lv then Tree b kb vb (lb + 1) (Tree a k v lv l rl) rr else t
  | _ => t
  end.

(** ** Rotations *)

Lemma addrs_skew t : addrs (skew t) ≡ₚ addrs t.
Proof.
  destruct t as [|a k v lv [|b kb vb lb ll lr] r]; cbn [skew]; try done. destruct (lb =? lv); [|done]. cbn [addrs].
  cbn. rewrite <- app_assoc, perm_swap. f_equiv. symmetry. apply Permutation_middle.
Qed.

Lemma addrs_split t : addrs (split_tree t) ≡ₚ addrs t.
Proof.
  destruct t as [|a k v lv l [|b kb vb lb rl rr]]; cbn [split_tree]; try done. destruct (_ =? lv); [|done]. cbn [addrs].
  cbn. rewrite <- app_assoc, perm_swap, <- (Permutation_middle (addrs l)). done.
Qed.

Lemma inorder_skew t : inorder (skew t) = inorder t.
Proof.
  destruct t as [|a k v lv [|b kb vb lb ll lr] r]; cbn [skew]; try done. destruct (lb =? lv); [|done]. cbn [inorder].
  by rewrite <- !app_assoc, <- app_comm_cons.
Qed.

Lemma inorder_split t : inorder (split_tree t) = inorder t.
Proof.
  destruct t as [|a k v lv l [|b kb vb lb rl rr]]; cbn [split_tree]; try done. destruct (_ =? lv); [|done]. cbn [inorder].
  by rewrite <- !app_assoc, <- app_comm_cons.
Qed.

Lemma levels_skew b t : levels b t -> levels b (skew t).
Proof. destruct t as [|a k v lv [|b' kb vb lb ll lr] r]; cbn [skew]; try done. destruct (lb =? lv); [|done]. cbn. tauto. Qed.

Lemma levels_mono b b' t : b <= b' -> levels b t -> levels b' t.
Proof. intros Hb. induction t as [|a k v lv l IHl r IHr]; cbn; [done|]. intros (? & ? & ?). split_and!; try lia; auto. Qed.

Lemma levels_split b t : levels b t -> levels (b + 1) (split_tree t).
Proof.
  intros Ht. apply (levels_mono b (b + 1)) in Ht as Ht'; [|lia]. revert Ht Ht'.
  destruct t as [|a k v lv l [|b' kb vb lb rl rr]]; cbn [split_tree]; try done. destruct (_ =? lv); [|done].
  cbn. intros ([? ?] & _ & [? ?] & _) (? & ? & ? & ? & ?). split_and!; try done; lia.
Qed.

Lemma aa_levels t : aa t -> levels (level t) t.
Proof.
  induction t as [|a k v lv l IHl r IHr]; cbn; [done|]. intros (? & Hl & Hr & _ & Al & Ar). split_and!; try lia.
  - apply (levels_mono (level l)); [lia|auto].
  - apply (levels_mono (level r)); [lia|auto].
Qed.

Lemma aa_level_nonneg t : aa t -> 0 <= level t.
Proof. destruct t; cbn; [lia|]. intros (? & _). lia. Qed.

Lemma aa_right t : aa t -> level (right t) <= level t.
Proof. destruct t; cbn; lia. Qed.

(** ** Inserting *)

Section Insert.
Variables (comparison : Z -> Z -> Z) (new key data : Z).

(** The direction to take at a node with key [k]. *)
Definition goes (k : Z) : bool := comparison k key <? 0.

Fixpoint tree_insert (t : tree) : tree :=
  match t with
  | Leaf => Tree new key data 1 Leaf Leaf
  | Tree a k v lv l r =>
      split_tree (skew (if goes k then Tree a k v lv l (tree_insert r) else Tree a k v lv (tree_insert l) r))
  end.

Lemma addrs_insert t : addrs (tree_insert t) ≡ₚ new :: addrs t.
Proof.
  induction t as [|a k v lv l IHl r IHr]; cbn [tree_insert]; [done|]. rewrite addrs_split, addrs_skew.
  destruct (goes k); cbn [addrs]; rewrite ?IHl, ?IHr.
  - rewrite <- Permutation_middle. apply perm_swap.
  - cbn. apply perm_swap.
Qed.

(** What inserting does to the level: it stays, or a tree whose root had a right
    child at its own level grows by one. *)
Definition grows (t t' : tree) : Prop :=
  aa t' /\ (level t' = level t \/
    level t' = level t + 1 /\ level (left t') = level t /\ level (right t') = level t /\ level (right t) = level t).

Lemma insert_left a k v lv l r l' : aa (Tree a k v lv l r) -> grows l l' ->
  grows (Tree a k v lv l r) (split_tree (skew (Tree a k v lv l' r))).
Proof.
  intros (H1 & Hl & Hr & Hrr & Al & Ar) [Al' Hg]. destruct l' as [|b kb vb lb ll lr]; cbn [skew].
  { destruct Hg as [E|(E & _)]; cbn in E; pose proof (aa_level_nonneg l Al); [|lia].
    destruct r as [|c kc vc lc rl rr]; cbn [split_tree]; [split; [cbn in *; lia|by left]|].
    cbn in Hrr. rewrite (proj2 (Z.eqb_neq (level rr) lv)) by lia. split; [|by left]. cbn in *. tauto || (split_and!; try lia; tauto). }
  destruct (Z.eqb_spec lb lv) as [->|Hne].
  - destruct Hg as [E|(E & E1 & E2 & _)]; cbn in E; [lia|]. cbn in E1, E2, Al'. destruct Al' as (_ & _ & _ & _ & All & Alr).
    pose proof (aa_right lr Alr). cbn [split_tree]. destruct (Z.eqb_spec (level r) lv) as [Er|Er].
    + split; [|right; cbn; lia]. cbn. split_and!; try done; lia.
    + split; [|by left]. cbn. split_and!; try done; lia.
  - assert (Hs : split_tree (Tree a k v lv (Tree b kb vb lb ll lr) r) = Tree a k v lv (Tree b kb vb lb ll lr) r).
    { destruct r as [|c kc vc lc rl rr]; cbn [split_tree]; [done|]. cbn in Hrr. by rewrite (proj2 (Z.eqb_neq (level rr) lv)) by lia. }
    rewrite Hs. destruct Hg as [E|(E & _)]; cbn in E; [|lia]. split; [|by left]. cbn. cbn in Al'. split_and!; try tauto; lia.
Qed.

Lemma insert_right a k v lv l r r' : aa (Tree a k v lv l r) -> grows r r' ->
  grows (Tree a k v lv l r) (split_tree (skew (Tree a k v lv l r'))).
Proof.
  intros (H1 & Hl & Hr & Hrr & Al & Ar) [Ar' Hg]. replace (skew (Tree a k v lv l r')) with (Tree a k v lv l r').
  2:{ destruct l; cbn [skew]; [done|]. cbn in Hl. by rewrite (proj2 (Z.eqb_neq _ _)) by lia. }
  destruct r' as [|b kb vb lb rl rr]; cbn [split_tree].
  { split; [|by left]. pose proof (aa_level_nonneg r Ar). cbn in *. destruct Hg as [E|(E & _)]; split_and!; try done; lia. }
  pose proof (aa_right _ Ar') as Hrr'. cbn in Hrr'.
  assert (Hlb : lv - 1 <= lb <= lv) by (destruct Hg as [E|(E & _ & _ & Eg)]; cbn in *; lia).
  destruct (Z.eqb_spec (level rr) lv) as [Er|Er].
  - assert (lb = lv) as -> by lia. cbn in Ar'. destruct Ar' as (_ & Erl & _ & Errr & Arl & Arr).
    assert (Hgrow : level r = lv) by (destruct Hg as [E|(E & E1 & E2 & Eg)]; cbn in *; lia).
    pose proof (aa_right _ Arl). split; [cbn; split_and!; try done; lia|]. right. cbn. split_and!; try done; lia.
  - split; [|by left]. cbn in *. split_and!; try tauto; lia.
Qed.

Lemma insert_grows t : aa t -> grows t (tree_insert t).
Proof.
  induction t as [|a k v lv l IHl r IHr]; intros Ht.
  - split; [cbn; lia|]. right. cbn. lia.
  - pose proof Ht as (_ & _ & _ & _ & Al & Ar). cbn [tree_insert]. destruct (goes k); [apply insert_right|apply insert_left]; auto.
Qed.
End Insert.

(** ** Depth *)

Lemma aa_height t : aa t -> Z.of_nat (height t) <= 2 * level t - (if decide (level (right t) = level t) then 0 else 1) \/ t = Leaf.
Proof.
  induction t as [|a k v lv l IHl r IHr]; cbn; [by right|]. intros (H1 & Hl & Hr & Hrr & Al & Ar). left.
  destruct (IHl Al) as [Bl| ->], (IHr Ar) as [Br| ->]; cbn in *; repeat case_decide; lia.
Qed.

Lemma aa_height_bound t : aa t -> Z.of_nat (height t) <= 2 * level t.
Proof. intros Ht. destruct (aa_height t Ht) as [B| ->]; [|cbn; lia]. case_decide; lia. Qed.

Lemma aa_size t : aa t -> 2 ^ level t - 1 <= Z.of_nat (length (addrs t)).
Proof.
  induction t as [|a k v lv l IHl r IHr]; cbn [aa level addrs length]; [cbn; lia|]. intros (H1 & Hl & Hr & _ & Al & Ar).
  rewrite length_app. specialize (IHl Al). specialize (IHr Ar).
  assert (2 ^ level l <= 2 ^ level r) by (apply Z.pow_le_mono_r; lia).
  replace lv with (Z.succ (level l)) by lia. rewrite Z.pow_succ_r by (pose proof (aa_level_nonneg l Al); lia). lia.
Qed.

(** A tree whose nodes have different 32-bit addresses has fewer than 2^32 of them and
    is no deeper than 62. *)
Lemma addrs_count t : NoDup (addrs t) -> Forall (fun a => 0 < a < 2 ^ 32 - 1) (addrs t) -> Z.of_nat (length (addrs t)) <= 2 ^ 32 - 2.
Proof.
  intros Hnd Hr. assert (Hn : (length (addrs t) <= Z.to_nat (2 ^ 32 - 2))%nat); [|lia].
  rewrite <- (length_seqZ 1 (2 ^ 32 - 2)). apply submseteq_length, NoDup_submseteq; [done|].
  intros a Ha. apply elem_of_seqZ. rewrite Forall_forall in Hr. specialize (Hr a Ha). lia.
Qed.

Lemma aa_depth t : aa t -> NoDup (addrs t) -> Forall (fun a => 0 < a < 2 ^ 32 - 1) (addrs t) -> level t <= 31 /\ (height t <= 62)%nat.
Proof.
  intros Ht Hnd Hr. pose proof (aa_size t Ht) as Hs. pose proof (aa_height_bound t Ht).
  pose proof (addrs_count t Hnd Hr).
  assert (Hl : level t <= 31); [|lia]. apply Z.nlt_ge. intros Hl.
  assert (2 ^ 32 <= 2 ^ level t) by (apply Z.pow_le_mono_r; lia). lia.
Qed.


(** ** Order *)

(** A comparison function: a total preorder, with the sign of the answer turned when
    the arguments are. *)
Record comparator (comparison : Z -> Z -> Z) : Prop := {
  cmp_trans x y z : comparison x y <= 0 -> comparison y z <= 0 -> comparison x z <= 0;
  cmp_flip x y : comparison x y < 0 <-> 0 < comparison y x
}.

Section Order.
Variable comparison : Z -> Z -> Z.
Hypothesis Hcmp : comparator comparison.

Abbreviation entry_le := (fun x y : Z * Z => comparison x.1 y.1 <= 0).
Abbreviation sorted l := (StronglySorted entry_le l).

Lemma cmp_below x k key : comparison x k <= 0 -> comparison k key < 0 -> comparison x key < 0.
Proof.
  intros Hx Hk. destruct (Z_lt_le_dec (comparison x key) 0) as [|Hge]; [done|].
  pose proof (cmp_trans _ Hcmp key x k) as Ht. pose proof (cmp_flip _ Hcmp x key). pose proof (cmp_flip _ Hcmp k key). lia.
Qed.

Lemma cmp_above k y key : comparison k y <= 0 -> 0 <= comparison k key -> 0 <= comparison y key.
Proof.
  intros Hy Hk. pose proof (cmp_trans _ Hcmp key k y). pose proof (cmp_flip _ Hcmp k key). pose proof (cmp_flip _ Hcmp y key). lia.
Qed.

Lemma cmp_above_strict k y key : comparison k y <= 0 -> 0 < comparison k key -> 0 < comparison y key.
Proof. intros Hy Hk. pose proof (cmp_trans _ Hcmp k y key). lia. Qed.

Lemma sorted_app (l1 l2 : list (Z * Z)) : sorted (l1 ++ l2) <-> sorted l1 /\ sorted l2 /\ forall x y, x ∈ l1 -> y ∈ l2 -> entry_le x y.
Proof.
  induction l1 as [|x l1 IH]; cbn [app].
  { split; [intros Hs; split_and!; [constructor|done|by intros x y ?%elem_of_nil]|tauto]. }
  split.
  - intros [Hs Hf]%StronglySorted_inv. apply IH in Hs as (H1 & H2 & H3). rewrite Forall_app in Hf. destruct Hf as [F1 F2].
    split_and!; [by constructor|done|]. intros y z [->|Hy]%elem_of_cons Hz; [|by apply H3]. rewrite Forall_forall in F2. by apply F2.
  - intros ([H1 F1]%StronglySorted_inv & H2 & H3). constructor.
    + apply IH. split_and!; [done|done|]. intros y z Hy Hz. apply H3; [|done]. by apply elem_of_cons; right.
    + apply Forall_app. split; [done|]. apply Forall_forall. intros z Hz. apply H3; [apply list_elem_of_here|done].
Qed.

Lemma sorted_node a k v lv l r : sorted (inorder (Tree a k v lv l r)) ->
  sorted (inorder l) /\ sorted (inorder r) /\ Forall (fun e => comparison e.1 k <= 0) (inorder l)
  /\ Forall (fun e => comparison k e.1 <= 0) (inorder r).
Proof.
  cbn [inorder]. intros (Hl & [Hr Fr]%StronglySorted_inv & Hx)%sorted_app. split_and!; try done.
  apply Forall_forall. intros e He. apply (Hx e (k, v)); [done|apply list_elem_of_here].
Qed.

(** Inserting puts the entry behind the smaller ones and before the others. *)
Lemma insert_inorder new key data t : sorted (inorder t) ->
  exists before after, inorder t = before ++ after /\ inorder (tree_insert comparison new key data t) = before ++ (key, data) :: after
    /\ Forall (fun e => comparison e.1 key < 0) before /\ Forall (fun e => 0 <= comparison e.1 key) after.
Proof.
  induction t as [|a k v lv l IHl r IHr]; intros Hs; [by exists [], []|].
  destruct (sorted_node _ _ _ _ _ _ Hs) as (Sl & Sr & Fl & Fr). cbn [tree_insert]. rewrite inorder_split, inorder_skew.
  unfold goes. destruct (Z.ltb_spec (comparison k key) 0) as [Hk|Hk]; cbn [inorder].
  - destruct (IHr Sr) as (b & c & -> & -> & Fb & Fc). exists (inorder l ++ (k, v) :: b), c. rewrite <- !app_assoc.
    split_and!; try done. apply Forall_app. split; [|by constructor].
    eapply Forall_impl; [exact Fl|]. intros e He. cbn in He. by apply (cmp_below _ k).
  - destruct (IHl Sl) as (b & c & -> & -> & Fb & Fc). exists b, (c ++ (k, v) :: inorder r). rewrite <- !app_assoc.
    split_and!; try done. apply Forall_app. split; [done|]. constructor; [done|].
    eapply Forall_impl; [exact Fr|]. intros e He. cbn in He. by apply (cmp_above k).
Qed.

Lemma sorted_with key data before after : sorted (before ++ after) ->
  Forall (fun e => comparison e.1 key < 0) before -> Forall (fun e => 0 <= comparison e.1 key) after ->
  sorted (before ++ (key, data) :: after).
Proof.
  intros (Hb & Ha & Hx)%sorted_app Fb Fa. rewrite Forall_forall in Fb, Fa. apply sorted_app. split_and!; [done| |].
  - constructor; [done|]. apply Forall_forall. intros e He. cbn. specialize (Fa e He). cbn in Fa.
    pose proof (cmp_flip _ Hcmp e.1 key). lia.
  - intros x y Hin [->|Hy]%elem_of_cons; [|by apply Hx]. cbn. specialize (Fb x Hin). cbn in Fb. lia.
Qed.

(** The search the code makes. *)
Fixpoint tree_lookup (key : Z) (t : tree) : option Z :=
  match t with
  | Leaf => None
  | Tree _ k v _ l r =>
      let result := comparison k key in
      if result =? 0 then Some v else if result <? 0 then tree_lookup key r else tree_lookup key l
  end.

Lemma tree_lookup_spec key t : sorted (inorder t) ->
  match tree_lookup key t with
  | Some v => exists k, (k, v) ∈ inorder t /\ comparison k key = 0
  | None => forall k v, (k, v) ∈ inorder t -> comparison k key <> 0
  end.
Proof.
  induction t as [|a k v lv l IHl r IHr]; intros Hs; cbn [tree_lookup inorder]; [by intros k v ?%elem_of_nil|].
  destruct (sorted_node _ _ _ _ _ _ Hs) as (Sl & Sr & Fl & Fr). rewrite Forall_forall in Fl, Fr.
  destruct (Z.eqb_spec (comparison k key) 0) as [E|E].
  { exists k. split; [|done]. apply elem_of_app. right. apply list_elem_of_here. }
  destruct (Z.ltb_spec (comparison k key) 0) as [Hk|Hk].
  - specialize (IHr Sr). destruct (tree_lookup key r) as [w|].
    + destruct IHr as (k' & Hin & E'). exists k'. split; [|done]. apply elem_of_app. right. by apply elem_of_cons; right.
    + intros k' v' [Hin|[[= -> ->]|Hin]%elem_of_cons]%elem_of_app; [|done|by apply (IHr k' v')].
      specialize (Fl _ Hin). cbn in Fl. pose proof (cmp_below k' k key). lia.
  - specialize (IHl Sl). destruct (tree_lookup key l) as [w|].
    + destruct IHl as (k' & Hin & E'). exists k'. split; [|done]. apply elem_of_app. by left.
    + intros k' v' [Hin|[[= -> ->]|Hin]%elem_of_cons]%elem_of_app; [by apply (IHl k' v')|done|].
      specialize (Fr _ Hin). cbn in Fr. pose proof (cmp_above_strict k k' key). lia.
Qed.
End Order.
