(* ===== verification/ATreeCorrect.v ===== *)
(** * The AA tree refines a sorted list

    The store of nodes represents a tree of ATreeModel.v; the operations of
    ATree.v do to it what the functions there do, and the way down always fits
    the array.  Then the iterators, by way of a zipper over the tree. *)

From Stdlib Require Import Sorting.Sorted.
From S2P Require Import Prelude Pages HeapSpec CellHeap ATree ATreeModel Block Iterator.

(** ** Representation *)

Section Shape.
Variable nil : Z.

Definition ptr (t : tree) : Z := match t with Leaf => nil | Tree a _ _ _ _ _ => a end.

Fixpoint shape (st : anodes) (t : tree) : Prop :=
  match t with
  | Leaf => True
  | Tree a k v lv l r => st !! a = Some (Anode k v lv (ptr l) (ptr r)) /\ shape st l /\ shape st r
  end.

(** The tree [t] is in the store, next to the sentinel. *)
Record stored (st : anodes) (t : tree) : Prop := {
  sd_shape : shape st t;
  sd_nodup : NoDup (addrs t);
  sd_nil : nil ∉ addrs t;
  sd_sentinel : st !! nil = Some (Anode NULL NULL 0 nil nil)
}.

(** Nodes of other trees keep their contents. *)
Definition kept (st st' : anodes) (t : tree) : Prop := forall q, q ∉ addrs t -> st' !! q = st !! q.

Lemma shape_frame st st' t : (forall a, a ∈ addrs t -> st' !! a = st !! a) -> shape st t -> shape st' t.
Proof.
  induction t as [|a k v lv l IHl r IHr]; intros Hf; cbn [shape]; [done|]. intros (E & Hl & Hr).
  split_and!; [rewrite Hf; [done|apply list_elem_of_here]|apply IHl|apply IHr]; try done; intros b Hb; apply Hf;
    cbn; rewrite elem_of_cons, elem_of_app; tauto.
Qed.

Lemma get_ptr st t : shape st t -> st !! nil = Some (Anode NULL NULL 0 nil nil) ->
  exists n, get st (ptr t) = Ok n /\ an_level n = level t /\ an_link n true = ptr (right t) /\ an_link n false = ptr (left t).
Proof.
  intros Hs Hn. unfold get. destruct t as [|a k v lv l r]; cbn [ptr].
  - rewrite Hn. by eexists.
  - destruct Hs as (E & _). rewrite E. by eexists.
Qed.

(** The parts of a stored tree. *)
Lemma stored_parts st a k v lv l r : stored st (Tree a k v lv l r) ->
  stored st l /\ stored st r /\ (a ∉ addrs l) /\ (a ∉ addrs r) /\ a <> nil /\ (forall b, b ∈ addrs l -> b ∉ addrs r)
  /\ st !! a = Some (Anode k v lv (ptr l) (ptr r)).
Proof.
  intros [(E & Hl & Hr) Hnd Hnil Hs]. cbn in Hnd, Hnil. apply NoDup_cons in Hnd as [Ha Hnd].
  rewrite elem_of_app in Ha. apply NoDup_app in Hnd as (Nl & Hd & Nr). rewrite elem_of_cons, elem_of_app in Hnil.
  split_and!; try done; try tauto; try (split; tauto). intros ->. tauto.
Qed.

Lemma stored_node st a k v lv l r : stored st l -> stored st r -> a ∉ addrs l -> a ∉ addrs r -> a <> nil ->
  (forall b, b ∈ addrs l -> b ∉ addrs r) -> st !! a = Some (Anode k v lv (ptr l) (ptr r)) -> stored st (Tree a k v lv l r).
Proof.
  intros [Sl Nl Hl Hs] [Sr Nr Hr _] Hal Har Ha Hd E. split; cbn [addrs shape]; try done.
  - apply NoDup_cons. rewrite elem_of_app. split; [tauto|]. apply NoDup_app. by split_and!.
  - rewrite elem_of_cons, elem_of_app. intros [?|[?|?]]; congruence.
Qed.

Lemma stored_frame st st' t : (forall a, a ∈ addrs t \/ a = nil -> st' !! a = st !! a) -> stored st t -> stored st' t.
Proof.
  intros Hf [Hs Hn Hni Hse]. split; try done; [|by rewrite Hf by (by right)].
  apply (shape_frame st); [|done]. intros a Ha. apply Hf. by left.
Qed.

(** Changing a child: [c] in the other direction stays, [c'] is the new one. *)
Definition join (a k v lv : Z) (d : bool) (c' c : tree) : tree :=
  if d then Tree a k v lv c c' else Tree a k v lv c' c.

Lemma swap_child st st' a k v lv d c0 c' c : stored st (join a k v lv d c0 c) -> stored st' c' ->
  (forall b, b ∈ addrs c' -> (b ∉ addrs c) /\ b <> a) -> (forall q, q ∈ addrs c -> st' !! q = st !! q) ->
  st' !! a = Some (with_link (Anode k v lv (ptr c) (ptr c)) d (ptr c')) -> stored st' (join a k v lv d c' c).
Proof.
  intros Hst Hc' Hap Hf E.
  assert (Hparts : stored st c /\ (a ∉ addrs c) /\ a <> nil).
  { unfold join in Hst. destruct d; destruct (stored_parts _ _ _ _ _ _ _ Hst) as (? & ? & ? & ? & ? & _); tauto. }
  destruct Hparts as (Hc & Ha & Hanil).
  assert (Hc2 : stored st' c).
  { apply (stored_frame st); [|done]. intros q [Hq| ->]; [by apply Hf|]. by rewrite (sd_sentinel _ _ Hc'), (sd_sentinel _ _ Hc). }
  assert (Ha' : a ∉ addrs c') by (by intros [_ Q]%Hap).
  unfold join. destruct d; apply stored_node; try done.
  - intros b Hb Hb'. by destruct (Hap b Hb').
  - intros b Hb. by apply Hap.
Qed.

Lemma link_child st st' a k v lv d c0 c' c : stored st (join a k v lv d c0 c) -> stored st' c' ->
  (forall b, b ∈ addrs c' -> (b ∉ addrs c) /\ b <> a) -> (forall q, q ∈ addrs c \/ q = a -> st' !! q = st !! q) ->
  exists st'', set_link st' a d (ptr c') = Ok st'' /\ stored st'' (join a k v lv d c' c) /\ forall q, q <> a -> st'' !! q = st' !! q.
Proof.
  intros Hst Hc' Hap Hf.
  assert (Hparts : (a ∉ addrs c) /\ a <> nil /\ exists n, st !! a = Some n /\ with_link n d (ptr c') = with_link (Anode k v lv (ptr c) (ptr c)) d (ptr c')).
  { unfold join in Hst. destruct d; destruct (stored_parts _ _ _ _ _ _ _ Hst) as (? & ? & ? & ? & ? & _ & E); split_and!; try done; by eexists. }
  destruct Hparts as (Ha & Hanil & n & E & En).
  unfold set_link, get. rewrite Hf, E by (by right). cbn [of_option obind]. rewrite En. eexists. split; [done|]. split.
  - apply (swap_child st _ a k v lv d c0); try done.
    + apply (stored_frame st'); [|done]. intros q [Hq| ->]; apply lookup_insert_ne; [|congruence]. intros ->. by apply Hap in Hq as [_ ?].
    + intros q Hq. rewrite lookup_insert_ne by (intros ->; done). apply Hf. by left.
    + by rewrite lookup_insert_eq.
  - intros q Hq. by apply lookup_insert_ne.
Qed.

(** ** Rotations *)

(** The left child above its parent. *)
Lemma rotate_spec st a k v lv b kb vb lb ll lr r : stored st (Tree a k v lv (Tree b kb vb lb ll lr) r) ->
  exists st1 st', set_link st a false (ptr lr) = Ok st1 /\ set_link st1 b true a = Ok st'
    /\ stored st' (Tree b kb vb lb ll (Tree a k v lv lr r)) /\ kept st st' (Tree a k v lv (Tree b kb vb lb ll lr) r).
Proof.
  intros Hst. destruct (stored_parts _ _ _ _ _ _ _ Hst) as (Hl & Hr & Hal & Har & Hanil & Hd & Ea).
  destruct (stored_parts _ _ _ _ _ _ _ Hl) as (Hll & Hlr & Hbl & Hbr & Hbnil & Hd' & Eb).
  cbn [addrs] in Hal, Hd. rewrite elem_of_cons, elem_of_app in Hal. assert (Hab : a <> b) by tauto.
  unfold set_link, get. rewrite Ea. cbn [of_option obind with_link an_key an_data an_level an_link0 an_link1]. eexists _, _. split; [done|].
  rewrite lookup_insert_ne by done. rewrite Eb. cbn [of_option obind with_link an_key an_data an_level an_link0 an_link1]. split; [done|].
  set (st' := <[b := Anode kb vb lb (ptr ll) a]> (<[a := Anode k v lv (ptr lr) (ptr r)]> st)).
  assert (Hf : forall q, q <> a -> q <> b -> st' !! q = st !! q) by (intros q Q1 Q2; unfold st'; by rewrite !lookup_insert_ne by done).
  assert (Hdb : forall q, q ∈ addrs ll \/ q ∈ addrs lr \/ q = b -> q ∉ addrs r).
  { intros q Hq. apply Hd. rewrite elem_of_cons, elem_of_app. tauto. }
  assert (Sub : forall t', stored st t' -> a ∉ addrs t' -> b ∉ addrs t' -> stored st' t').
  { intros t' Ht' Ha' Hb'. apply (stored_frame st); [|done]. intros q [Hq| ->]; apply Hf; try congruence; by intros ->. }
  split.
  - apply stored_node; [by apply Sub; tauto| |done|cbn [addrs]|done|cbn [addrs]|unfold st'; by rewrite lookup_insert_eq].
    + apply stored_node; [by apply Sub; tauto|apply Sub; [done|tauto|by apply Hdb; tauto]|tauto|tauto|done| |].
      * intros q Hq. apply Hdb. tauto.
      * unfold st'. rewrite lookup_insert_ne by congruence. by rewrite lookup_insert_eq.
    + rewrite elem_of_cons, elem_of_app. intros [->|[?|?]]; [tauto|done|by apply (Hdb b); tauto].
    + intros q Hq. rewrite elem_of_cons, elem_of_app. intros [->|[?|?]]; [tauto|by apply (Hd' q)|by apply (Hdb q); tauto].
  - intros q Hq. cbn [addrs] in Hq. rewrite elem_of_cons, elem_of_app, elem_of_cons in Hq. apply Hf; intros ->; tauto.
Qed.

Lemma skew_spec st t b : stored st t -> levels b t ->
  exists st', atree_skew st (ptr t) = Ok (ptr (skew t), st') /\ stored st' (skew t) /\ kept st st' t.
Proof.
  intros Hst Hlv. pose proof Hst as [Hs _ _ Hn]. unfold atree_skew.
  destruct (get_ptr st t Hs Hn) as (n & -> & En & _ & El). cbn [obind]. rewrite El.
  assert (Hsl : shape st (left t)) by (destruct t; [done|apply Hs]).
  destruct (get_ptr st (left t) Hsl Hn) as (l & -> & Enl & Erl & _). cbn [obind]. rewrite En, Enl.
  destruct t as [|a k v lv [|b' kb vb lb ll lr] r]; cbn [left level skew ptr].
  - by exists st.
  - cbn in Hlv. rewrite (proj2 (Z.eqb_neq 0 lv)) by lia. by exists st.
  - cbn in Hlv. rewrite (proj2 (Z.ltb_lt 0 lv)) by lia. rewrite andb_true_r. destruct (Z.eqb_spec lb lv) as [->|Hne]; [|by exists st].
    destruct (rotate_spec _ _ _ _ _ _ _ _ _ _ _ _ Hst) as (st1 & st' & E1 & E2 & Hst' & Hk). exists st'.
    rewrite Erl. cbn [right left ptr] in *. rewrite E1. cbn [obind]. by rewrite E2.
Qed.

Lemma shape_right st t : shape st t -> shape st (right t).
Proof. destruct t; [done|]. intros (_ & _ & ?). done. Qed.

Lemma split_spec st t b : stored st t -> levels b t -> b < 2 ^ 31 - 1 ->
  exists st', atree_split st (ptr t) = Ok (ptr (split_tree t), st') /\ stored st' (split_tree t) /\ kept st st' t.
Proof.
  intros Hst Hlv Hb. pose proof Hst as [Hs _ _ Hn]. unfold atree_split.
  destruct (get_ptr st t Hs Hn) as (n & -> & En & Er & _). cbn [obind]. rewrite Er.
  destruct (get_ptr st (right t) (shape_right _ _ Hs) Hn) as (r & -> & Enr & Err & Erl). cbn [obind]. rewrite Err.
  destruct (get_ptr st (right (right t)) (shape_right _ _ (shape_right _ _ Hs)) Hn) as (rr & -> & Enrr & _). cbn [obind]. rewrite En, Enrr, Erl.
  destruct t as [|a k v lv l [|b' kb vb lb rl rr']]; cbn [left right level split_tree ptr].
  - by exists st.
  - cbn in Hlv. rewrite (proj2 (Z.eqb_neq 0 lv)) by lia. by exists st.
  - cbn in Hlv. rewrite (proj2 (Z.ltb_lt 0 lv)) by lia. rewrite andb_true_r. destruct (Z.eqb_spec (level rr') lv) as [El|Hne]; [|by exists st].
    destruct (stored_parts _ _ _ _ _ _ _ Hst) as (Hl & Hr & Hal & Har & Hanil & Hd & Ea).
    destruct (stored_parts _ _ _ _ _ _ _ Hr) as (Hrl & Hrr & Hbl & Hbr & Hbnil & Hd' & Eb).
    cbn [addrs] in Har, Hd. rewrite elem_of_cons, elem_of_app in Har. assert (Hab : a <> b') by tauto.
    unfold set_link, set_level, get. rewrite Ea. cbn [of_option obind with_link an_key an_data an_level an_link0 an_link1].
    rewrite lookup_insert_ne by done. rewrite Eb. cbn [of_option obind with_link an_key an_data an_level an_link0 an_link1].
    rewrite lookup_insert_eq. cbn [of_option obind with_level an_key an_data an_level an_link0 an_link1].
    rewrite insert_insert_eq, s32_small by lia. eexists. split; [done|].
    set (st' := <[b' := Anode kb vb (lb + 1) a (ptr rr')]> (<[a := Anode k v lv (ptr l) (ptr rl)]> st)).
    assert (Hf : forall q, q <> a -> q <> b' -> st' !! q = st !! q) by (intros q Q1 Q2; unfold st'; by rewrite !lookup_insert_ne by done).
    assert (Hdb : forall q, q ∈ addrs l -> q <> b' /\ (q ∉ addrs rl) /\ q ∉ addrs rr').
    { intros q Hq. specialize (Hd q Hq). rewrite elem_of_cons, elem_of_app in Hd. tauto. }
    assert (Sub : forall t', stored st t' -> a ∉ addrs t' -> b' ∉ addrs t' -> stored st' t').
    { intros t' Ht' Ha' Hb'. apply (stored_frame st); [|done]. intros q [Hq| ->]; apply Hf; try congruence; by intros ->. }
    split.
    + apply stored_node; [|by apply Sub; tauto|cbn [addrs]|done|done|cbn [addrs]|unfold st'; by rewrite lookup_insert_eq].
      * apply stored_node; [apply Sub; [done|tauto|by intros [Q _]%Hdb]|by apply Sub; tauto|tauto|tauto|done|by intros q Q%Hdb; tauto|].
        unfold st'. rewrite lookup_insert_ne by congruence. by rewrite lookup_insert_eq.
      * rewrite elem_of_cons, elem_of_app. intros [->|[Q|?]]; [tauto|by apply Hdb in Q as [? _]|done].
      * intros q. rewrite elem_of_cons, elem_of_app. intros [->|[Q|?]]; [tauto|by apply Hdb in Q; tauto|by apply Hd'].
    + intros q Hq. cbn [addrs] in Hq. rewrite elem_of_cons, elem_of_app, elem_of_cons in Hq. apply Hf; intros ->; tauto.
Qed.

(** A round of the way up: both rotations. *)
Lemma rebalance_spec st t b : stored st t -> levels b t -> b < 2 ^ 31 - 1 ->
  exists st1 st', atree_skew st (ptr t) = Ok (ptr (skew t), st1)
    /\ atree_split st1 (ptr (skew t)) = Ok (ptr (split_tree (skew t)), st')
    /\ stored st' (split_tree (skew t)) /\ kept st st' t.
Proof.
  intros Hst Hlv Hb. destruct (skew_spec st t b Hst Hlv) as (st1 & E1 & Hst1 & K1).
  destruct (split_spec st1 (skew t) b Hst1 (levels_skew _ _ Hlv) Hb) as (st' & E2 & Hst' & K2).
  exists st1, st'. split_and!; try done. intros q Hq. rewrite K2 by (by rewrite addrs_skew). by apply K1.
Qed.

(** ** Inserting *)

Lemma join_parts st a k v lv d c' c : stored st (join a k v lv d c' c) ->
  stored st c' /\ stored st c /\ (a ∉ addrs c') /\ (forall q, q ∈ addrs c' -> (q ∉ addrs c) /\ q <> a)
  /\ forall q, q ∈ addrs (join a k v lv d c' c) <-> q = a \/ q ∈ addrs c' \/ q ∈ addrs c.
Proof.
  intros Hj. unfold join in *. destruct d; destruct (stored_parts _ _ _ _ _ _ _ Hj) as (? & ? & ? & ? & ? & Hd & _); cbn [addrs];
    split_and!; try done; try (intros q; rewrite elem_of_cons, elem_of_app; tauto).
  - intros q Hq. split; [|by intros ->]. intros Hq'. by apply (Hd q).
  - intros q Hq. split; [by apply Hd|by intros ->].
Qed.

Section Insert.
Variables (comparison : Z -> Z -> Z) (new key data : Z).
Abbreviation goes := (goes comparison key).
Abbreviation tree_insert := (tree_insert comparison new key data).

(** The tree with the new node hung below the last one on the way, the tree right
    before its root is rebalanced, and the nodes passed below the root, the last
    one first. *)
Fixpoint hang (t : tree) : tree :=
  match t with
  | Leaf => Tree new key data 1 Leaf Leaf
  | Tree a k v lv l r => if goes k then Tree a k v lv l (hang r) else Tree a k v lv (hang l) r
  end.

Definition below (t : tree) : tree :=
  match t with
  | Leaf => tree_insert Leaf
  | Tree a k v lv l r => if goes k then Tree a k v lv l (tree_insert r) else Tree a k v lv (tree_insert l) r
  end.

Fixpoint passed (t : tree) : list Z :=
  match t with
  | Leaf => []
  | Tree _ k _ _ l r =>
      match (if goes k then r else l) with
      | Leaf => []
      | c => (if goes k then passed r else passed l) ++ [ptr c]
      end
  end.

(** The last node on the way and the direction taken there. *)
Fixpoint spot (t : tree) : Z * bool :=
  match t with
  | Leaf => (nil, false)
  | Tree a k _ _ l r =>
      match (if goes k then r else l) with
      | Leaf => (a, goes k)
      | _ => if goes k then spot r else spot l
      end
  end.

Lemma insert_below t : tree_insert t = match t with Leaf => below t | _ => split_tree (skew (below t)) end.
Proof. by destruct t. Qed.

Lemma insert_descend_spec t : forall slots st path, stored st t -> t <> Leaf -> (height t <= slots)%nat ->
  insert_descend comparison slots st nil (ptr t) key path = Ok (spot t, passed t ++ ptr t :: path).
Proof.
  induction t as [|a k v lv l IHl r IHr]; intros slots st path Hst Hne Hh; [done|].
  destruct (stored_parts _ _ _ _ _ _ _ Hst) as (Hl & Hr & _ & _ & _ & _ & E).
  cbn [height] in Hh. destruct slots as [|slots]; [lia|]. cbn [insert_descend ptr]. unfold get. rewrite E. cbn [of_option obind an_key].
  fold (goes k). cbn [spot passed]. destruct (goes k); cbn [an_link an_link0 an_link1].
  - destruct r as [|c kc vc lc rl rr]; cbn [ptr]; [by rewrite Z.eqb_refl|].
    destruct (stored_parts _ _ _ _ _ _ _ Hr) as (_ & _ & _ & _ & Hc & _ & _). rewrite (proj2 (Z.eqb_neq c nil)) by done.
    specialize (IHr slots st (a :: path) Hr ltac:(done) ltac:(lia)). cbn [ptr] in IHr. rewrite IHr. by rewrite <- app_assoc.
  - destruct l as [|c kc vc lc ll lr]; cbn [ptr]; [by rewrite Z.eqb_refl|].
    destruct (stored_parts _ _ _ _ _ _ _ Hl) as (_ & _ & _ & _ & Hc & _ & _). rewrite (proj2 (Z.eqb_neq c nil)) by done.
    specialize (IHl slots st (a :: path) Hl ltac:(done) ltac:(lia)). cbn [ptr] in IHl. rewrite IHl. by rewrite <- app_assoc.
Qed.

Lemma addrs_hang t : addrs (hang t) ≡ₚ new :: addrs t.
Proof.
  induction t as [|a k v lv l IHl r IHr]; cbn [hang]; [done|]. destruct (goes k); cbn [addrs]; rewrite ?IHl, ?IHr.
  - rewrite <- Permutation_middle. apply perm_swap.
  - cbn. apply perm_swap.
Qed.

Lemma hang_leaf st : new <> nil -> st !! new = Some (Anode key data 1 nil nil) -> st !! nil = Some (Anode NULL NULL 0 nil nil) ->
  stored st (Tree new key data 1 Leaf Leaf).
Proof.
  intros Hn E Es. assert (stored st Leaf) by (split; cbn; [done|apply NoDup_nil_2|apply not_elem_of_nil|done]).
  apply stored_node; cbn; try done; try apply not_elem_of_nil. intros b Hb. by apply elem_of_nil in Hb.
Qed.

(** Storing the new node's address at the end of the way hangs it there. *)
Lemma hang_spec t : forall st, stored st t -> t <> Leaf -> new ∉ addrs t -> new <> nil ->
  st !! new = Some (Anode key data 1 nil nil) ->
  exists st', set_link st (spot t).1 (spot t).2 new = Ok st' /\ stored st' (hang t) /\ kept st st' t.
Proof.
  induction t as [|a k v lv l IHl r IHr]; intros st Hst Hne Hnin Hnn En; [done|].
  destruct (stored_parts _ _ _ _ _ _ _ Hst) as (Hl & Hr & Hal & Har & Hanil & Hd & E).
  cbn [addrs] in Hnin. rewrite elem_of_cons, elem_of_app in Hnin. assert (Hna : new <> a) by tauto.
  assert (Hrec : forall d c c0, stored st (join a k v lv d c0 c) -> (c0 <> Leaf -> exists st', set_link st (spot c0).1 (spot c0).2 new = Ok st'
      /\ stored st' (hang c0) /\ kept st st' c0) -> (forall b, b ∈ addrs c0 -> (b ∉ addrs c) /\ b <> a) -> new ∉ addrs c ->
    let s := match c0 with Leaf => (a, d) | _ => spot c0 end in
    exists st', set_link st s.1 s.2 new = Ok st' /\ stored st' (join a k v lv d (hang c0) c) /\ kept st st' (join a k v lv d c0 c)).
  { intros d c c0 Hj IH Hap Hnc. pose proof (sd_sentinel _ _ Hst) as Hse.
    assert (Hap' : forall b, b ∈ addrs (hang c0) -> (b ∉ addrs c) /\ b <> a).
    { intros b. rewrite addrs_hang, elem_of_cons. intros [->|Hb]; [by split|by apply Hap]. }
    assert (Hsub : forall q, q ∉ addrs (join a k v lv d c0 c) -> q <> a /\ q ∉ addrs c0).
    { unfold join. intros q. destruct d; cbn [addrs]; rewrite elem_of_cons, elem_of_app; tauto. }
    destruct c0 as [|c1 k1 v1 lv1 l1 r1].
    - destruct (link_child st st a k v lv d Leaf (hang Leaf) c) as (st' & Es & Hs' & Hk); try done; [by apply hang_leaf|].
      exists st'. split_and!; try done. intros q Hq. apply Hk. by apply Hsub.
    - destruct (IH ltac:(done)) as (st' & Es & Hs' & Hk). exists st'. split_and!; [done| |].
      + apply (swap_child st st' a k v lv d (Tree c1 k1 v1 lv1 l1 r1)); try done.
        * intros q Hq. apply Hk. intros [Q _]%Hap. done.
        * rewrite Hk by (intros [_ Q]%Hap; done). revert Hj. unfold join.
          destruct d; intros Hj; destruct (stored_parts _ _ _ _ _ _ _ Hj) as (_ & _ & _ & _ & _ & _ & ->);
            cbn [hang]; by destruct (goes k1).
      + intros q Hq. apply Hk. by apply Hsub. }
  cbn [spot hang]. destruct (goes k).
  - apply (Hrec true l r Hst); [intros Hr0; apply IHr; tauto| |tauto]. intros b Hb. split; [intros Hb'; by apply (Hd b)|by intros ->].
  - apply (Hrec false r l Hst); [intros Hl0; apply IHl; tauto| |tauto]. intros b Hb. split; [by apply Hd|by intros ->].
Qed.

Lemma ptr_below t : ptr (below t) = ptr (hang t).
Proof. destruct t as [|a k v lv l r]; cbn [below hang]; [done|]. by destruct (goes k). Qed.

Lemma below_node t : below t <> Leaf.
Proof. destruct t as [|a k v lv l r]; cbn [below]; [done|]. by destruct (goes k). Qed.

Lemma addrs_below t : addrs (below t) ≡ₚ new :: addrs t.
Proof.
  destruct t as [|a k v lv l r]; cbn [below]; [done|]. destruct (goes k); cbn [addrs]; rewrite addrs_insert.
  - rewrite <- Permutation_middle. apply perm_swap.
  - cbn. apply perm_swap.
Qed.

Lemma insert_levels t : aa t -> levels (level t + 1) (tree_insert t).
Proof.
  intros Ht. destruct (insert_grows comparison new key data t Ht) as [Ha Hg]. apply (levels_mono (level (tree_insert t))); [lia|].
  by apply aa_levels.
Qed.

Lemma below_levels t : aa t -> levels (level t + 1) (below t).
Proof.
  destruct t as [|a k v lv l r]; intros Ht; [cbn; lia|]. pose proof Ht as (H1 & Hl & Hr & _ & Al & Ar).
  pose proof (insert_levels l Al). pose proof (insert_levels r Ar). pose proof (aa_levels l Al). pose proof (aa_levels r Ar).
  cbn [below level]. destruct (goes k); cbn [levels]; split_and!; try lia; eapply levels_mono; try eassumption; lia.
Qed.

(** A child's address is in the direction it was found. *)
Lemma child_direction st a k v lv d c0 c1 c : stored st (join a k v lv d c0 c) -> c0 <> Leaf -> ptr c1 = ptr c0 ->
  exists n, get st a = Ok n /\ (an_link n true =? ptr c1) = d.
Proof.
  intros Hj Hne E1. unfold join in Hj. destruct d; destruct (stored_parts _ _ _ _ _ _ _ Hj) as (H0 & Hc & _ & _ & _ & Hd & E);
    unfold get; rewrite E; eexists; (split; [done|]); cbn [an_link an_link1]; rewrite E1.
  - apply Z.eqb_refl.
  - apply Z.eqb_neq. destruct c0 as [|b kb vb lb bl br]; [done|]. cbn [ptr].
    destruct (stored_parts _ _ _ _ _ _ _ H0) as (_ & _ & _ & _ & Hb & _ & _). destruct c as [|e ke ve le el er]; cbn [ptr]; [done|].
    intros ->. apply (Hd b); apply list_elem_of_here.
Qed.

Lemma ascend_child st root path a k v lv d c0 c1 c b : stored st (join a k v lv d c1 c) -> c1 <> Leaf -> levels b c1 -> b < 2 ^ 31 - 1 ->
  ptr c1 = ptr c0 ->
  exists st', insert_ascend (ptr c0 :: a :: path) st root = insert_ascend (a :: path) st' root
    /\ stored st' (join a k v lv d (split_tree (skew c1)) c) /\ kept st st' (join a k v lv d c1 c).
Proof.
  intros Hj Hne Hb Hlt E0. assert (Hp : stored st c1 /\ (a ∉ addrs c1) /\ (forall q, q ∈ addrs c1 -> q ∉ addrs c)
    /\ forall q, q ∉ addrs (join a k v lv d c1 c) -> q <> a /\ q ∉ addrs c1).
  { unfold join in *. destruct d; destruct (stored_parts _ _ _ _ _ _ _ Hj) as (? & ? & ? & ? & ? & Hd & _); cbn [addrs];
      split_and!; try done; try (intros q; rewrite elem_of_cons, elem_of_app; tauto).
    intros q Hq Hq'. by apply (Hd q). }
  destruct Hp as (Hc1 & Ha & Hd & Hsub).
  destruct (child_direction st a k v lv d c1 c1 c Hj Hne eq_refl) as (n & En & Ed).
  destruct (rebalance_spec st c1 b Hc1 Hb Hlt) as (st1 & st2 & E1 & E2 & Hst2 & K2).
  destruct (link_child st st2 a k v lv d c1 (split_tree (skew c1)) c Hj Hst2) as (st3 & E3 & Hst3 & K3).
  { intros q. rewrite addrs_split, addrs_skew. intros Hq. split; [by apply Hd|by intros ->]. }
  { intros q [Hq| ->]; apply K2; [|done]. intros Hq'. by apply (Hd q). }
  exists st3. split_and!; [|done|].
  - cbn [insert_ascend]. rewrite En. cbn [obind]. rewrite <- E0, Ed, E1. cbn [obind]. rewrite E2. cbn [obind]. by rewrite E3.
  - intros q Hq. destruct (Hsub q Hq). rewrite K3 by done. by apply K2.
Qed.

Lemma hang_join a k v lv l r : hang (Tree a k v lv l r) = join a k v lv (goes k) (hang (if goes k then r else l)) (if goes k then l else r).
Proof. cbn [hang]. by destruct (goes k). Qed.

Lemma below_join a k v lv l r : below (Tree a k v lv l r) = join a k v lv (goes k) (tree_insert (if goes k then r else l)) (if goes k then l else r).
Proof. cbn [below]. by destruct (goes k). Qed.

Lemma passed_join a k v lv l r (c0 := if goes k then r else l) : c0 <> Leaf -> passed (Tree a k v lv l r) = passed c0 ++ [ptr c0].
Proof. unfold c0. cbn [passed]. by destruct (goes k), l, r. Qed.

Lemma ptr_hang t : t <> Leaf -> ptr (hang t) = ptr t.
Proof. destruct t; [done|]. cbn [hang]. by destruct (goes _). Qed.

(** Storing [nil] at the end of the way changes nothing. *)
Lemma spot_nil t : forall st, stored st t -> t <> Leaf -> set_link st (spot t).1 (spot t).2 nil = Ok st.
Proof.
  induction t as [|a k v lv l IHl r IHr]; intros st Hst Hne; [done|].
  destruct (stored_parts _ _ _ _ _ _ _ Hst) as (Hl & Hr & _ & _ & _ & _ & E). cbn [spot].
  assert (Hbase : forall d : bool, ptr (if d then r else l) = nil -> set_link st a d nil = Ok st).
  { intros d Ed. unfold set_link, get. rewrite E. cbn [of_option obind]. rewrite insert_id; [done|]. rewrite E.
    destruct d; cbn [with_link an_key an_data an_level an_link0 an_link1]; by rewrite Ed. }
  destruct (goes k).
  - destruct r; [by apply (Hbase true)|by apply IHr].
  - destruct l; [by apply (Hbase false)|by apply IHl].
Qed.

(** The way up to the root of [t]. *)
Lemma ascend_spec t : forall path st root, stored st (hang t) -> t <> Leaf -> aa t -> level t < 2 ^ 31 - 2 ->
  exists st', insert_ascend (passed t ++ ptr t :: path) st root = insert_ascend (ptr t :: path) st' root
    /\ stored st' (below t) /\ kept st st' (hang t).
Proof.
  induction t as [|a k v lv l IHl r IHr]; intros path st root Hst Hne Ht Hlev; [done|].
  pose proof Ht as (H1 & Hl & Hr & _ & Al & Ar). rewrite hang_join in Hst |- *. rewrite below_join.
  set (c0 := if goes k then r else l) in *. set (c := if goes k then l else r) in *.
  assert (Hc0 : c0 <> Leaf -> forall path st root, stored st (hang c0) ->
    exists st', insert_ascend (passed c0 ++ ptr c0 :: path) st root = insert_ascend (ptr c0 :: path) st' root
      /\ stored st' (below c0) /\ kept st st' (hang c0)).
  { unfold c0. cbn [level] in Hlev. intros Hn path' st' root' Hs'. destruct (goes k); [apply IHr|apply IHl]; try done; lia. }
  assert (Ac0 : aa c0) by (unfold c0; by destruct (goes k)).
  assert (Lc0 : level c0 + 1 < 2 ^ 31 - 1) by (unfold c0; cbn [level] in Hlev; destruct (goes k); lia).
  destruct (decide (c0 = Leaf)) as [E0|N0].
  { exists st. replace (passed (Tree a k v lv l r)) with (@Datatypes.nil Z) by (cbn [passed]; fold c0; by rewrite E0).
    rewrite E0 in *. by split_and!. }
  rewrite (passed_join a k v lv l r) by done. fold c0. cbn [ptr]. rewrite <- app_assoc. cbn [app].
  destruct (join_parts _ _ _ _ _ _ _ _ Hst) as (Hh & Hc & Ha & Hd & Hin).
  destruct (Hc0 N0 (a :: path) st root Hh) as (st1 & -> & Hb & K1).
  assert (Hset : forall q, q ∈ addrs (below c0) <-> q ∈ addrs (hang c0)) by (intros q; by rewrite addrs_below, addrs_hang).
  assert (Hj : stored st1 (join a k v lv (goes k) (below c0) c)).
  { apply (swap_child st st1 a k v lv (goes k) (hang c0)); try done.
    - intros q Hq%Hset. by apply Hd.
    - intros q Hq. apply K1. intros [Q _]%Hd. done.
    - rewrite K1 by done. rewrite ptr_below. revert Hst. unfold join.
      destruct (goes k); intros Hst; by destruct (stored_parts _ _ _ _ _ _ _ Hst) as (_ & _ & _ & _ & _ & _ & ->). }
  destruct (ascend_child st1 root path a k v lv (goes k) c0 (below c0) c (level c0 + 1) Hj) as (st2 & -> & Hst2 & K2).
  - apply below_node.
  - by apply below_levels.
  - done.
  - by rewrite ptr_below, ptr_hang.
  - exists st2. split_and!; [done| |].
    + rewrite insert_below. destruct c0; done.
    + intros q Hq. destruct (join_parts _ _ _ _ _ _ _ _ Hj) as (_ & _ & _ & _ & Hin'). rewrite K2; [apply K1|].
      * rewrite Hin in Hq. tauto.
      * rewrite Hin', Hset. by rewrite Hin in Hq.
Qed.

(** From the leaf to the root. *)
Lemma ascend_all t st root : stored st (hang t) -> t <> Leaf -> aa t -> level t < 2 ^ 31 - 2 ->
  exists st', insert_ascend (passed t ++ [ptr t]) st root = Ok (ptr (tree_insert t), st')
    /\ stored st' (tree_insert t) /\ kept st st' (hang t).
Proof.
  intros Hst Hne Ht Hlev. destruct (ascend_spec t [] st root Hst Hne Ht Hlev) as (st1 & -> & Hb & K1).
  destruct (rebalance_spec st1 (below t) (level t + 1) Hb (below_levels t Ht)) as (st2 & st3 & E2 & E3 & Hst3 & K3); [lia|].
  exists st3. rewrite ptr_below, ptr_hang in E2 by done. cbn [insert_ascend]. rewrite E2. cbn [obind]. rewrite E3. cbn [obind insert_ascend].
  rewrite insert_below. destruct t as [|a k v lv l r]; [done|]. split_and!; [done|done|].
  intros q Hq. rewrite K3; [by apply K1|]. by rewrite addrs_below, <- addrs_hang.
Qed.
End Insert.
End Shape.

(** ** The operations *)

Section Operations.
Context {H : Type} `{KernelHeapOk H} (comparison : Z -> Z -> Z).
Hypothesis Hcmp : comparator comparison.
Implicit Types (h : H) (tr : atree_t) (st : anodes) (t : tree).

(** The structure is the tree [t], balanced and in order, in live blocks. *)
Record tree_rep h tr st t : Prop := {
  tr_stored : stored (at_nil tr) st t;
  tr_root : at_root tr = ptr (at_nil tr) t;
  tr_aa : aa t;
  tr_sorted : StronglySorted (fun x y : Z * Z => comparison x.1 y.1 <= 0) (inorder t);
  tr_count : at_nodes tr = Z.of_nat (length (addrs t));
  tr_live a : a = at_nil tr \/ a ∈ addrs t -> exists n, sizeof_anode <= n /\ live h a n
}.

Lemma rep_addrs h tr st t : heap_ok h -> tree_rep h tr st t -> Forall (fun a => 0 < a < 2 ^ 32 - 1) (addrs t).
Proof.
  intros Hh Hr. apply Forall_forall. intros a Ha. destruct (tr_live _ _ _ _ Hr a (or_intror Ha)) as (n & Hn & Hl).
  destruct (live_sane h a n Hh Hl) as (? & ? & ?). unfold VM_UPPER_LIMIT, sizeof_anode in *. lia.
Qed.

Lemma rep_depth h tr st t : heap_ok h -> tree_rep h tr st t -> level t <= 31 /\ (height t <= 62)%nat /\ Z.of_nat (length (addrs t)) <= 2 ^ 32 - 2.
Proof.
  intros Hh Hr. pose proof (rep_addrs _ _ _ _ Hh Hr) as Ha. pose proof (sd_nodup _ _ _ (tr_stored _ _ _ _ Hr)) as Hnd.
  destruct (aa_depth t (tr_aa _ _ _ _ Hr) Hnd Ha). split_and!; try done. by apply addrs_count.
Qed.

(** [t'] holds one more entry than [t], behind the smaller ones. *)
Definition has_inserted t t' (key data : Z) : Prop :=
  exists before after, inorder t = before ++ after /\ inorder t' = before ++ (key, data) :: after
    /\ Forall (fun e => comparison e.1 key < 0) before /\ Forall (fun e => 0 <= comparison e.1 key) after.

Lemma tree_insert_rep h h' tr st st' t new k key data : heap_ok h -> tree_rep h tr st t -> grown h new k h' -> sizeof_anode <= k ->
  stored (at_nil tr) st' (tree_insert comparison new key data t) ->
  let t' := tree_insert comparison new key data t in
  tree_rep h' (Atree (ptr (at_nil tr) t') (at_nil tr) (u32 (at_nodes tr + 1))) st' t' /\ has_inserted t t' key data.
Proof.
  intros Hh Hr (Hh' & _ & Hl) Hk Hst' t'. destruct (rep_depth _ _ _ _ Hh Hr) as (_ & _ & Hn).
  destruct (insert_inorder comparison Hcmp new key data t (tr_sorted _ _ _ _ Hr)) as (b & c & Eb & Ec & Fb & Fc).
  assert (Hp : addrs t' ≡ₚ new :: addrs t) by apply addrs_insert. split; [|by exists b, c]. split; cbn [at_root at_nil at_nodes]; try done.
  - by apply insert_grows, (tr_aa _ _ _ _ Hr).
  - unfold t'. rewrite Ec. apply sorted_with; try done. rewrite <- Eb. apply (tr_sorted _ _ _ _ Hr).
  - rewrite (tr_count _ _ _ _ Hr), Hp, u32_small by lia. cbn. lia.
  - intros a Ha. rewrite Hp, elem_of_cons in Ha. destruct Ha as [Ha|[->|Ha]].
    + destruct (tr_live _ _ _ _ Hr a (or_introl Ha)) as (n & ? & ?). exists n. split; [done|]. apply Hl. by left.
    + exists k. split; [done|]. apply Hl. by right.
    + destruct (tr_live _ _ _ _ Hr a (or_intror Ha)) as (n & ? & ?). exists n. split; [done|]. apply Hl. by left.
Qed.

Lemma not_leaf_ptr h tr st t : tree_rep h tr st t -> (at_root tr =? at_nil tr) = bool_decide (t = Leaf).
Proof.
  intros Hr. rewrite (tr_root _ _ _ _ Hr). pose proof (sd_nil _ _ _ (tr_stored _ _ _ _ Hr)) as Hn. destruct t as [|a k v lv l r]; cbn [ptr].
  - by rewrite Z.eqb_refl, bool_decide_true.
  - rewrite bool_decide_false by done. apply Z.eqb_neq. intros ->. apply Hn. apply list_elem_of_here.
Qed.

(** The new node is none of those the tree has. *)
Lemma grown_fresh h tr st t p k h' : tree_rep h tr st t -> grown h p k h' -> p <> at_nil tr /\ p ∉ addrs t.
Proof.
  intros Hr (_ & Hno & _). split; [intros ->|intros Hin].
  - destruct (tr_live _ _ _ _ Hr _ (or_introl eq_refl)) as (n & _ & Hl). by apply (Hno n).
  - destruct (tr_live _ _ _ _ Hr _ (or_intror Hin)) as (n & _ & Hl). by apply (Hno n).
Qed.

(** Adding the new node's contents to the store. *)
Lemma stored_fresh nil st t p n : stored nil st t -> p <> nil -> p ∉ addrs t -> stored nil (<[p := n]> st) t.
Proof.
  intros Hst Hp Hin. apply (stored_frame nil st); [|done]. intros a [Ha| ->]; apply lookup_insert_ne; [by intros ->|done].
Qed.

Lemma insert_grown h tr st t data key p k h' : heap_ok h -> tree_rep h tr st t -> p <> NULL -> sizeof_anode <= k -> grown h p k h' ->
  halloc h sizeof_anode = Ok (p, h') ->
  exists tr' st' t', atree_insert comparison h tr st data key = Ok (tr', st', h') /\ tree_rep h' tr' st' t' /\ has_inserted t t' key data.
Proof.
  intros Hh Hr Hp0 Hk Hg E. destruct (grown_fresh _ _ _ _ _ _ _ Hr Hg) as [Hpn Hpt].
  destruct (rep_depth _ _ _ _ Hh Hr) as (Hlev & Hheight & _). pose proof (tr_stored _ _ _ _ Hr) as Hst.
  set (nil := at_nil tr) in *. set (st1 := <[p := Anode key data 1 nil nil]> st).
  assert (Hst1 : stored nil st1 t) by (by apply stored_fresh).
  assert (E1 : st1 !! p = Some (Anode key data 1 nil nil)) by apply lookup_insert_eq.
  assert (Hdone : forall st', stored nil st' (tree_insert comparison p key data t) -> exists tr' t',
    tr' = Atree (ptr nil (tree_insert comparison p key data t)) nil (u32 (at_nodes tr + 1)) /\ tree_rep h' tr' st' t' /\ has_inserted t t' key data).
  { intros st' Hst'. destruct (tree_insert_rep h h' tr st st' t p k key data Hh Hr Hg Hk Hst') as [Hr' Hi]. eexists _, _. by split_and!. }
  unfold atree_insert, atree_createNode. rewrite (not_leaf_ptr _ _ _ _ Hr), E. fold nil. cbn [obind].
  rewrite (proj2 (Z.eqb_neq p NULL)) by done. cbn [obind]. rewrite (proj2 (Z.eqb_neq p nil)) by done. fold st1.
  destruct (decide (t = Leaf)) as [->|Hne].
  - destruct (Hdone st1) as (tr' & t' & Etr & Hr' & Hi).
    { apply hang_leaf; try done. apply Hst1. }
    exists tr', st1, t'. rewrite bool_decide_true by done. cbn [at_nodes]. by rewrite Etr in *.
  - rewrite bool_decide_false by done. rewrite (tr_root _ _ _ _ Hr). fold nil.
    rewrite (insert_descend_spec nil comparison key t kAtreeMaxHeight st []) by (done || (unfold kAtreeMaxHeight; lia)).
    cbn [obind]. destruct (spot nil comparison key t) as [node dir] eqn:Esp.
    destruct (hang_spec nil comparison p key data t st1 Hst1 Hne Hpt Hpn E1) as (st2 & E2 & Hst2 & _). rewrite Esp in E2. cbn in E2.
    rewrite E2. cbn [obind].
    destruct (ascend_all nil comparison p key data t st2 (ptr nil t) Hst2 Hne (tr_aa _ _ _ _ Hr) ltac:(lia)) as (st3 & E3 & Hst3 & _).
    rewrite E3. cbn [obind]. destruct (Hdone st3 Hst3) as (tr' & t' & Etr & Hr' & Hi). exists tr', st3, t'. by rewrite Etr in *.
Qed.

(** Without memory for the node nothing changes. *)
Lemma insert_without h tr st t data key : heap_ok h -> tree_rep h tr st t ->
  (halloc h sizeof_anode = Panic -> atree_insert comparison h tr st data key = Panic)
  /\ forall h', halloc h sizeof_anode = Ok (NULL, h') -> atree_insert comparison h tr st data key = Ok (tr, st, h').
Proof.
  intros Hh Hr. destruct (rep_depth _ _ _ _ Hh Hr) as (Hlev & Hheight & _). pose proof (tr_stored _ _ _ _ Hr) as Hst.
  pose proof (tr_root _ _ _ _ Hr) as Hroot. unfold atree_insert, atree_createNode. rewrite (not_leaf_ptr _ _ _ _ Hr).
  destruct (decide (t = Leaf)) as [->|Hne].
  - rewrite bool_decide_true by done. split; [by intros ->|]. intros h' ->. cbn. rewrite Z.eqb_refl.
    destruct tr as [root nil nodes]; cbn in *. by rewrite Hroot.
  - rewrite bool_decide_false by done. rewrite Hroot.
    rewrite (insert_descend_spec _ comparison key t kAtreeMaxHeight st []) by (done || (unfold kAtreeMaxHeight; lia)).
    cbn [obind]. pose proof (spot_nil (at_nil tr) comparison key t st Hst Hne) as Es. destruct (spot _ comparison key t) as [node dir].
    split; [by intros ->|]. intros h' ->. cbn [obind]. change (NULL =? NULL) with true. cbn [obind]. cbn in Es. rewrite Es. cbn [obind].
    by rewrite Z.eqb_refl.
Qed.

(** C29: [atree_insert] on a balanced search tree never writes past its array of
    visited nodes.  It panics with the heap, or the heap returns no memory and
    the tree stays as it is, or the tree stays balanced and in order and holds
    exactly one entry more, behind the smaller keys and before the others. *)
Theorem atree_insert_refines h tr st t data key :
  heap_ok h -> tree_rep h tr st t ->
  (halloc h sizeof_anode = Panic /\ atree_insert comparison h tr st data key = Panic)
  \/ (exists h', atree_insert comparison h tr st data key = Ok (tr, st, h') /\ halloc h sizeof_anode = Ok (NULL, h')
      /\ heap_ok h' /\ tree_rep h' tr st t)
  \/ (exists h' p k tr' st' t', atree_insert comparison h tr st data key = Ok (tr', st', h') /\ grown h p k h'
      /\ tree_rep h' tr' st' t' /\ has_inserted t t' key data).
Proof.
  intros Hh Hr. destruct (halloc_result h sizeof_anode Hh) as [E|[(h' & E & Hh' & Hl)|(p & k & h' & E & Hp & Hk & _ & _ & Hg)]]; [done|left|right; left|right; right].
  - split; [done|]. by apply (insert_without h tr st t).
  - exists h'. split_and!; try done; [by apply (insert_without h tr st t)|]. destruct Hr. split; try done.
    intros a Ha. destruct (tr_live0 a Ha) as (n & ? & ?). exists n. split; [done|]. by apply Hl.
  - destruct (insert_grown h tr st t data key p k h' Hh Hr Hp Hk Hg E) as (tr' & st' & t' & E' & Hr' & Hi). by exists h', p, k, tr', st', t'.
Qed.

(** ** Looking up *)

Lemma addrs_size nil st t : stored nil st t -> (length (addrs t) < size st)%nat.
Proof.
  intros Hst. pose proof Hst as [Hs Hnd Hn Hse]. assert (Hmap : forall a, a ∈ addrs t -> is_Some (st !! a)).
  { clear Hst Hnd Hn. induction t as [|a k v lv l IHl r IHr]; cbn [addrs]; [by intros a ?%elem_of_nil|]. destruct Hs as (E & Hl & Hr).
    intros b [->|[Hb|Hb]%elem_of_app]%elem_of_cons; [by rewrite E|by apply IHl|by apply IHr]. }
  assert (Hnd' : NoDup (nil :: addrs t)) by (by apply NoDup_cons).
  change (S (length (addrs t)) <= size st)%nat. change (S (length (addrs t))) with (length (nil :: addrs t)).
  rewrite <- (size_list_to_set (C := gset Z) _ Hnd'), <- (size_dom (D := gset Z) st).
  apply subseteq_size. intros a Ha%elem_of_list_to_set. apply elem_of_dom. apply elem_of_cons in Ha as [->|Ha]; [by rewrite Hse|by apply Hmap].
Qed.

Lemma height_addrs t : (height t <= length (addrs t))%nat.
Proof. induction t as [|a k v lv l IHl r IHr]; cbn; [lia|]. rewrite length_app. lia. Qed.

Lemma findWalk_spec nil key t : forall fuel st, stored nil st t -> (height t <= fuel)%nat ->
  atree_findWalk comparison fuel st nil (ptr nil t) key = Ok (default NULL (tree_lookup comparison key t)).
Proof.
  induction t as [|a k v lv l IHl r IHr]; intros fuel st Hst Hf.
  { destruct fuel; cbn [atree_findWalk ptr]; by rewrite Z.eqb_refl. }
  destruct (stored_parts _ _ _ _ _ _ _ _ Hst) as (Hl & Hr & _ & _ & Hn & _ & E). cbn [height] in Hf. destruct fuel as [|fuel]; [lia|].
  cbn [atree_findWalk ptr tree_lookup]. rewrite (proj2 (Z.eqb_neq a nil)) by done. unfold get. rewrite E. cbn [of_option obind an_key an_data].
  destruct (comparison k key =? 0); [done|]. destruct (comparison k key <? 0); cbn [an_link an_link0 an_link1];
    [apply IHr|apply IHl]; try done; lia.
Qed.

(** [atree_find] returns the data of an entry whose key compares equal, and
    [NULL] when the tree has none. *)
Theorem atree_find_refines h tr st t key :
  tree_rep h tr st t ->
  exists r, atree_find comparison tr st key = Ok r
    /\ ((exists k, (k, r) ∈ inorder t /\ comparison k key = 0)
        \/ (r = NULL /\ forall k v, (k, v) ∈ inorder t -> comparison k key <> 0)).
Proof.
  intros Hr. pose proof (tr_stored _ _ _ _ Hr) as Hst. unfold atree_find. rewrite (tr_root _ _ _ _ Hr).
  pose proof (addrs_size _ _ _ Hst). pose proof (height_addrs t). rewrite findWalk_spec by (done || lia).
  eexists. split; [done|]. pose proof (tree_lookup_spec comparison Hcmp key t (tr_sorted _ _ _ _ Hr)) as Hl.
  destruct (tree_lookup comparison key t); [by left|by right].
Qed.

(** ** Destroying *)

Fixpoint spine (t : tree) : nat := match t with Leaf => O | Tree _ _ _ _ _ r => S (spine r) end.

Lemma spine_addrs t : (spine t <= length (addrs t))%nat.
Proof. induction t as [|a k v lv l IHl r IHr]; cbn; [lia|]. rewrite length_app. lia. Qed.

Lemma destroyLoop_spec nil : forall fuel t h st, heap_ok h -> stored nil st t -> (forall a, a ∈ addrs t -> exists n, live h a n) ->
  (2 * length (addrs t) - spine t <= fuel)%nat ->
  exists h' st', atree_destroyLoop fuel h st nil (ptr nil t) = Ok (h', st') /\ heap_ok h'
    /\ forall q m, live h' q m <-> live h q m /\ q ∉ addrs t.
Proof.
  induction fuel as [|fuel IH]; intros t h st Hh Hst Hlive Hf.
  { destruct t as [|a k v lv l r]; [|pose proof (spine_addrs r); cbn in Hf; rewrite length_app in Hf; lia].
    exists h, st. cbn. rewrite Z.eqb_refl. split_and!; try done. intros q m. pose proof (not_elem_of_nil q). tauto. }
  destruct t as [|a k v lv l r]; cbn [atree_destroyLoop ptr].
  { exists h, st. rewrite Z.eqb_refl. split_and!; try done. intros q m. pose proof (not_elem_of_nil q). tauto. }
  destruct (stored_parts _ _ _ _ _ _ _ _ Hst) as (Hl & Hr & Hal & Har & Hn & Hd & E). rewrite (proj2 (Z.eqb_neq a nil)) by done.
  unfold get at 1. rewrite E. cbn [of_option obind an_link an_link0 an_link1]. destruct l as [|b kb vb lb ll lr]; cbn [ptr].
  - rewrite Z.eqb_refl. destruct (Hlive a) as (n & Hla); [apply list_elem_of_here|].
    destruct (hfree_ok h a n Hh Hla) as (h1 & -> & Hh1 & Hl1). cbn [obind].
    destruct (IH r h1 (delete a st) Hh1) as (h2 & st2 & -> & Hh2 & Hl2).
    + apply (stored_frame nil st); [|done]. intros q [Hq| ->]; apply lookup_delete_ne; [by intros ->|done].
    + intros q Hq. destruct (Hlive q) as (m & Hq'); [cbn; by apply elem_of_cons; right|]. exists m. apply Hl1. split; [done|by intros ->].
    + cbn in Hf. lia.
    + exists h2, st2. split_and!; try done. intros q m. rewrite Hl2, Hl1. cbn. rewrite elem_of_cons. tauto.
  - destruct (stored_parts _ _ _ _ _ _ _ _ Hl) as (_ & _ & _ & _ & Hbn & _ & Eb). rewrite (proj2 (Z.eqb_neq b nil)) by done.
    unfold get at 1. rewrite Eb. cbn [of_option obind an_link1].
    destruct (rotate_spec nil _ _ _ _ _ _ _ _ _ _ _ _ Hst) as (st1 & st2 & -> & E2 & Hst2 & _). cbn [obind]. rewrite E2. cbn [obind].
    assert (Hp : addrs (Tree b kb vb lb ll (Tree a k v lv lr r)) ≡ₚ addrs (Tree a k v lv (Tree b kb vb lb ll lr) r)).
    { cbn. rewrite <- app_assoc, perm_swap. f_equiv. symmetry. apply Permutation_middle. }
    destruct (IH (Tree b kb vb lb ll (Tree a k v lv lr r)) h st2 Hh Hst2) as (h2 & st3 & E3 & Hh2 & Hl2).
    + intros q. rewrite Hp. apply Hlive.
    + rewrite Hp. pose proof (spine_addrs r). cbn in Hf |- *. rewrite !length_app in Hf. cbn in Hf. rewrite ?length_app in *. lia.
    + cbn [ptr] in E3. exists h2, st3. split_and!; try done. intros q m. by rewrite Hl2, Hp.
Qed.

(** [atree_destroy] returns, frees every node, the sentinel and the tree's own
    block, and nothing else. *)
Theorem atree_destroy_frees_all h address n tr st t :
  heap_ok h -> tree_rep h tr st t -> live h address n -> address <> at_nil tr -> address ∉ addrs t ->
  exists h', atree_destroy h address tr st = Ok h' /\ heap_ok h'
    /\ forall q m, live h' q m <-> live h q m /\ q <> address /\ q <> at_nil tr /\ q ∉ addrs t.
Proof.
  intros Hh Hr Hla Hna Hnt. pose proof (tr_stored _ _ _ _ Hr) as Hst. unfold atree_destroy. rewrite (tr_root _ _ _ _ Hr).
  pose proof (addrs_size _ _ _ Hst). destruct (destroyLoop_spec (at_nil tr) (2 * size st) t h st Hh Hst) as (h1 & st1 & -> & Hh1 & Hl1).
  { intros a Ha. destruct (tr_live _ _ _ _ Hr a (or_intror Ha)) as (m & _ & ?). by exists m. }
  { lia. }
  cbn [obind]. destruct (tr_live _ _ _ _ Hr (at_nil tr) (or_introl eq_refl)) as (m & _ & Hnl).
  destruct (hfree_ok h1 (at_nil tr) m Hh1) as (h2 & -> & Hh2 & Hl2); [apply Hl1; split; [done|apply Hst]|]. cbn [obind].
  destruct (hfree_ok h2 address n Hh2) as (h3 & -> & Hh3 & Hl3); [apply Hl2; split; [by apply Hl1|done]|].
  exists h3. split_and!; try done. intros q m'. rewrite Hl3, Hl2, Hl1. tauto.
Qed.

(** The block [atree_create] asks for holds a pointer, not the structure: it never
    returns a tree, since storing the second field already leaves the block. *)
Lemma atree_create_overflows h : heap_ok h ->
  exhausted h sizeof_pointer \/ (exists p h', halloc h sizeof_pointer = Ok (p, h') /\ p <> NULL /\ (halloc h' sizeof_anode = Panic \/ atree_create h = Fault)).
Proof.
  intros Hh. destruct (halloc_result h sizeof_pointer Hh) as [E|[(h' & E & _)|(p & k & h' & E & Hp & _ & _ & _ & Hg)]]; [done|by left; left|left; right; by exists h'|right].
  exists p, h'. split_and!; try done. destruct Hg as (Hh' & _).
  destruct (halloc_result h' sizeof_anode Hh') as [E'|[(h2 & E' & _)|(p2 & k2 & h2 & E' & _)]]; [done|by left|right|right];
    unfold atree_create; rewrite E; cbn [obind]; rewrite (proj2 (Z.eqb_neq p NULL)) by done; rewrite E'; done.
Qed.
End Operations.

(** ** A concrete tree *)

Definition demo_compare (x y : Z) : Z := x - y.

Lemma demo_comparator : comparator demo_compare.
Proof. split; unfold demo_compare; lia. Qed.

(** One entry, the sentinel in the first slot of the heap, the node in the second and
    the structure itself in the third. *)
Definition demo_atree : atree_t := Atree (2 * slot_size) (1 * slot_size) 1.
Definition demo_tree : tree := Tree (2 * slot_size) 7 70 1 Leaf Leaf.
Definition demo_anodes : anodes :=
  {[1 * slot_size := Anode NULL NULL 0 (1 * slot_size) (1 * slot_size);
    2 * slot_size := Anode 7 70 1 (1 * slot_size) (1 * slot_size)]}.
Definition demo_theap : cell_heap := CellHeap {[1 := 20; 2 := 20; 3 := 16]}.

Lemma demo_slot k n : 1 <= k <= 4000 -> ch_map demo_theap !! k = Some n -> 0 <= n <= slot_size -> live demo_theap (k * slot_size) n.
Proof. intros Hk Hs Hn. exists k. split_and!; done || lia. Qed.

Lemma demo_tree_rep : tree_rep demo_compare demo_theap demo_atree demo_anodes demo_tree.
Proof.
  split; try done.
  - split; [by vm_compute|apply NoDup_singleton| |by vm_compute].
    apply (bool_decide_unpack _). by vm_compute.
  - cbn. repeat constructor.
  - intros a [->|[->|[]%elem_of_nil]%elem_of_cons]; exists 20; (split; [by vm_compute|]); apply demo_slot; done || by vm_compute.
Qed.

Lemma atree_insert_refines_witness :
  (halloc demo_theap sizeof_anode = Panic /\ atree_insert demo_compare demo_theap demo_atree demo_anodes 30 3 = Panic)
  \/ (exists h', atree_insert demo_compare demo_theap demo_atree demo_anodes 30 3 = Ok (demo_atree, demo_anodes, h')
      /\ halloc demo_theap sizeof_anode = Ok (NULL, h') /\ heap_ok h' /\ tree_rep demo_compare h' demo_atree demo_anodes demo_tree)
  \/ (exists h' p k tr' st' t', atree_insert demo_compare demo_theap demo_atree demo_anodes 30 3 = Ok (tr', st', h') /\ grown demo_theap p k h'
      /\ tree_rep demo_compare h' tr' st' t' /\ has_inserted demo_compare demo_tree t' 3 30).
Proof. apply (atree_insert_refines demo_compare demo_comparator demo_theap demo_atree demo_anodes demo_tree 30 3); [done|apply demo_tree_rep]. Defined.

Lemma atree_find_refines_witness :
  exists r, atree_find demo_compare demo_atree demo_anodes 7 = Ok r
    /\ ((exists k, (k, r) ∈ inorder demo_tree /\ demo_compare k 7 = 0)
        \/ (r = NULL /\ forall k v, (k, v) ∈ inorder demo_tree -> demo_compare k 7 <> 0)).
Proof. apply (atree_find_refines demo_compare demo_comparator demo_theap demo_atree demo_anodes demo_tree 7), demo_tree_rep. Defined.

Lemma atree_destroy_frees_all_witness :
  exists h', atree_destroy demo_theap (3 * slot_size) demo_atree demo_anodes = Ok h' /\ heap_ok h'
    /\ forall q m, live h' q m <-> live demo_theap q m /\ q <> 3 * slot_size /\ q <> at_nil demo_atree /\ q ∉ addrs demo_tree.
Proof.
  apply (atree_destroy_frees_all demo_compare demo_theap (3 * slot_size) 16 demo_atree demo_anodes demo_tree); try done; [apply demo_tree_rep|apply demo_slot; done || by vm_compute|].
  apply (bool_decide_unpack _). by vm_compute.
Defined.

(** ** Iterating

    A node of the tree is a subtree in its surroundings; the iterator is at a
    node and its path is the way through the surroundings. *)

Record frame := Frame { fr_a : Z; fr_k : Z; fr_v : Z; fr_lv : Z; fr_side : bool; fr_other : tree }.

Fixpoint plug (fs : list frame) (c : tree) : tree :=
  match fs with
  | [] => c
  | f :: fs => plug fs (join (fr_a f) (fr_k f) (fr_v f) (fr_lv f) (fr_side f) c (fr_other f))
  end.

Definition toward (d : bool) (t : tree) : tree := if d then right t else left t.
Definition datum (t : tree) : Z := match t with Leaf => NULL | Tree _ _ v _ _ _ => v end.

(** The data in the order of the keys, or against it. *)
Definition data_from (d : bool) (t : tree) : list Z := let vs := snd <$> inorder t in if d then vs else reverse vs.

Lemma data_join d a k v lv s c o : data_from d (join a k v lv s c o) =
  if Bool.eqb s d then data_from d o ++ v :: data_from d c else data_from d c ++ v :: data_from d o.
Proof.
  destruct s, d; cbn [join Bool.eqb data_from inorder]; rewrite fmap_app, fmap_cons; try done;
    by rewrite reverse_app, reverse_cons, <- app_assoc.
Qed.

(** What comes after the subtree. *)
Fixpoint after (d : bool) (fs : list frame) : list Z :=
  match fs with
  | [] => []
  | f :: fs => if Bool.eqb (fr_side f) d then after d fs else fr_v f :: data_from d (fr_other f) ++ after d fs
  end.

Lemma plug_height fs : forall c, (length fs + height c <= height (plug fs c))%nat.
Proof.
  induction fs as [|f fs IH]; intros c; cbn [length plug]; [lia|]. etransitivity; [|apply IH].
  unfold join. destruct (fr_side f); cbn [height]; lia.
Qed.

Section Iterating.
Variables (tr : atree_t) (st : anodes) (d : bool).
Abbreviation nil := (at_nil tr).

Lemma plug_stored fs : forall c, stored nil st (plug fs c) -> stored nil st c.
Proof. induction fs as [|f fs IH]; intros c Hc; [done|]. by apply IH, join_parts in Hc as (? & _). Qed.

Lemma node_get c : stored nil st c -> c <> Leaf ->
  exists n, get st (ptr nil c) = Ok n /\ an_data n = datum c /\ forall s, an_link n s = ptr nil (toward s c).
Proof.
  intros Hc Hne. destruct c as [|a k v lv l r]; [done|]. destruct Hc as [(E & _) _ _ _]. unfold get. cbn [ptr]. rewrite E.
  eexists. split_and!; [done..|]. by intros [].
Qed.

Lemma ptr_nil c : stored nil st c -> (ptr nil c =? nil) = bool_decide (c = Leaf).
Proof.
  intros Hc. destruct c as [|a k v lv l r]; cbn [ptr]; [by rewrite Z.eqb_refl|]. destruct (stored_parts _ _ _ _ _ _ _ _ Hc) as (_ & _ & _ & _ & ? & _).
  rewrite (proj2 (Z.eqb_neq _ _)) by done. by rewrite bool_decide_false.
Qed.

Lemma toward_stored s c : stored nil st c -> stored nil st (toward s c).
Proof. intros Hc. destruct c as [|a k v lv l r]; [by destruct s|]. destruct (stored_parts _ _ _ _ _ _ _ _ Hc) as (? & ? & _). by destruct s. Qed.

(** A node, seen from one of its children. *)
Definition frame_at (s : bool) (c : tree) : frame :=
  match c with Leaf => Frame 0 0 0 0 s Leaf | Tree a k v lv l r => Frame a k v lv s (if s then l else r) end.

Lemma plug_frame s c fs : c <> Leaf -> plug (frame_at s c :: fs) (toward s c) = plug fs c.
Proof. destruct c; [done|]. by destruct s. Qed.

Lemma fr_a_frame s c : c <> Leaf -> fr_a (frame_at s c) = ptr nil c.
Proof. by destruct c. Qed.

Lemma data_split c : c <> Leaf -> data_from d c = data_from d (toward (negb d) c) ++ datum c :: data_from d (toward d c).
Proof.
  destruct c as [|a k v lv l r]; [done|]. intros _. change (Tree a k v lv l r) with (join a k v lv false l r). rewrite data_join.
  by destruct d.
Qed.

Lemma height_toward s c : c <> Leaf -> (height (toward s c) < height c)%nat.
Proof. destruct c; [done|]. destruct s; cbn; lia. Qed.

(** Down to the first node of the subtree. *)
Lemma iterator_descend_spec slots : forall c fs, stored nil st (plug fs c) -> c <> Leaf -> (height c <= S slots)%nat ->
  exists c' fs', iterator_descend slots st nil (negb d) (ptr nil c) (fr_a <$> fs) = Ok (ptr nil c', fr_a <$> fs') /\
    plug fs' c' = plug fs c /\ c' <> Leaf /\ data_from d c ++ after d fs = datum c' :: data_from d (toward d c') ++ after d fs'.
Proof.
  induction slots as [|slots IH]; intros c fs Hst Hne Hh; cbn [iterator_descend];
    pose proof (plug_stored _ _ Hst) as Hc; destruct (node_get c Hc Hne) as (n & -> & _ & Hlink); cbn [obind]; rewrite Hlink;
    rewrite (ptr_nil _ (toward_stored (negb d) c Hc)); pose proof (height_toward (negb d) c Hne); rewrite (data_split c Hne);
    destruct (decide (toward (negb d) c = Leaf)) as [E|E].
  1, 3: rewrite bool_decide_true by done; exists c, fs; rewrite E; split_and!; try done; by destruct d.
  - destruct (toward (negb d) c); [done|]. cbn in *. lia.
  - rewrite bool_decide_false by done. rewrite <- (fr_a_frame (negb d) c Hne), <- fmap_cons.
    destruct (IH (toward (negb d) c) (frame_at (negb d) c :: fs)) as (c' & fs' & -> & Hp & Hne' & Hd); [by rewrite plug_frame|done|lia|].
    exists c', fs'. rewrite plug_frame in Hp by done. split_and!; try done. rewrite <- Hd. destruct c as [|a k v lv l r]; [done|].
    rewrite <- app_assoc. cbn. by destruct d.
Qed.

Variable t : tree.
Hypotheses (Hst : stored nil st t) (Hroot : at_root tr = ptr nil t) (Hsome : t <> Leaf) (Hheight : (height t <= kAtreeMaxHeight)%nat).

Lemma gather_spec c g objects got : stored nil st c -> c <> Leaf -> holds objects got -> length got = g -> (g < length objects <= 10)%nat ->
  exists objects', gather st (ptr nil c) (Z.of_nat g) objects = Ok (Z.of_nat (S g), objects') /\
    holds objects' (got ++ [datum c]) /\ length objects' = length objects.
Proof.
  intros Hc Hne Hh <- Hlt. unfold gather. destruct (node_get c Hc Hne) as (n & -> & Ed & _). cbn [obind]. rewrite Ed.
  destruct (holds_snoc objects got (datum c) Hh ltac:(lia)) as (o & -> & ? & ?). cbn [obind]. exists o.
  rewrite u32_small by lia. split_and!; try done. do 3 f_equal. lia.
Qed.

(** Up to the next node, or out of the tree by way of the root. *)
Lemma iterator_climb_spec fs : forall c g objects, plug fs c = t -> c <> Leaf ->
  match after d fs with
  | [] => iterator_climb st tr d (ptr nil c) (fr_a <$> fs) g objects
      = let* (g, objects) := gather st (ptr nil t) g objects in Ok (nil, [], g, objects)
  | x :: xs => exists c' fs', iterator_climb st tr d (ptr nil c) (fr_a <$> fs) g objects = Ok (ptr nil c', fr_a <$> fs', g, objects) /\
      plug fs' c' = t /\ c' <> Leaf /\ x = datum c' /\ xs = data_from d (toward d c') ++ after d fs'
  end.
Proof.
  induction fs as [|[a k v lv s o] fs IH]; intros c g objects Hp Hne; cbn [plug fr_a fr_k fr_v fr_lv fr_side fr_other] in Hp.
  { cbn in Hp. subst c. cbn. by rewrite Hroot, Z.eqb_refl. }
  set (p := join a k v lv s c o) in Hp. assert (Hpn : p <> Leaf) by (unfold p; by destruct s).
  assert (Hps : stored nil st p) by (apply (plug_stored fs); by rewrite Hp). destruct (node_get p Hps Hpn) as (n & En & _ & Hlink).
  assert (Ea : ptr nil p = a) by (unfold p; by destruct s). cbn [fmap list_fmap iterator_climb fr_a]. rewrite <- Ea, En. cbn [obind after fr_side fr_v fr_other].
  rewrite Hlink. destruct (join_parts _ _ _ _ _ _ _ _ _ Hps) as (Hc & Ho & _ & Hdis & _).
  destruct (Bool.eqb_spec s d) as [<-|Hsd].
  - replace (toward s p) with c by (unfold p; by destruct s). rewrite Z.eqb_refl. by apply (IH p).
  - replace (toward d p) with o by (unfold p; destruct s, d; done || congruence). rewrite (proj2 (Z.eqb_neq _ _)).
    + exists p, fs. split_and!; try done; unfold p; destruct s, d; done || congruence.
    + intros E. destruct c as [|b]; [done|]. destruct (Hdis b) as [Hb _]; [cbn; by left|]. cbn [ptr] in E. destruct o as [|b']; cbn [ptr] in E.
      * pose proof (sd_nil _ _ _ Hc) as Hn. apply Hn. rewrite <- E. cbn. by left.
      * apply Hb. rewrite E. cbn. by left.
Qed.

(** The iterator is at a node with the data [x], and [xs] comes after it: the
    data of the nodes that follow, and once more the root's. *)
Definition visiting (a : atree_iterator_t) (x : Z) (xs : list Z) : Prop :=
  ai_tree a = tr /\ ai_direction a = d /\ exists c fs, ai_node a = ptr nil c /\ ai_path a = fr_a <$> fs /\ plug fs c = t /\ c <> Leaf /\
    x = datum c /\ xs = data_from d (toward d c) ++ after d fs ++ [datum t].

Definition finished (a : atree_iterator_t) : Prop :=
  ai_tree a = tr /\ ai_direction a = d /\ ai_node a = nil /\ ai_path a = [] /\ ai_first a = Some false.

Lemma iterator_advance_spec a x xs g objects : visiting a x xs ->
  exists a', ai_first a' = ai_first a /\
    ((exists y ys c, xs = y :: ys /\ iterator_advance st a g objects = Ok (a', g, objects) /\ visiting a' y ys /\
        ai_node a' = ptr nil c /\ stored nil st c /\ c <> Leaf /\ y = datum c) \/
     (xs = [datum t] /\ iterator_advance st a g objects = (let* (g, objects) := gather st (ptr nil t) g objects in Ok (a', g, objects)) /\
        ai_tree a' = tr /\ ai_direction a' = d /\ ai_node a' = nil /\ ai_path a' = [])).
Proof.
  intros (Et & Ed & c & fs & En & Ep & Hp & Hne & -> & ->). unfold iterator_advance. rewrite Et, Ed, En, Ep.
  assert (Hc : stored nil st c) by (apply (plug_stored fs); by rewrite Hp).
  destruct (node_get c Hc Hne) as (n & -> & _ & Hlink). cbn [obind]. rewrite Hlink, ptr_nil by (by apply toward_stored).
  pose proof (plug_height fs c) as Hh. rewrite Hp in Hh. destruct (decide (toward d c = Leaf)) as [E|E].
  - rewrite bool_decide_true by done. cbn [negb]. rewrite E. pose proof (iterator_climb_spec fs c g objects Hp Hne) as Hcl.
    replace (data_from d Leaf) with ([] : list Z) by (by destruct d). cbn [app]. destruct (after d fs) as [|y ys].
    + rewrite Hcl. exists (Aiterator tr nil [] d (ai_first a)). split; [done|]. right. split_and!; try done.
      by destruct (gather st (ptr nil t) g objects) as [[]| | |].
    + destruct Hcl as (c' & fs' & -> & Hp' & Hne' & -> & ->). cbn [obind].
      eexists. split; [|left; exists (datum c'), (data_from d (toward d c') ++ after d fs' ++ [datum t]), c'; split_and!; [cbn; by rewrite <- app_assoc|done|..]]; try done.
      * split_and!; try done. by exists c', fs'.
      * apply (plug_stored fs'). by rewrite Hp'.
  - rewrite bool_decide_false by done. cbn [negb]. pose proof (height_toward d c Hne). unfold slots_left. rewrite length_fmap.
    destruct (kAtreeMaxHeight - length fs)%nat as [|slots] eqn:Es; [lia|]. rewrite <- (fr_a_frame d c Hne), <- fmap_cons.
    destruct (iterator_descend_spec slots (toward d c) (frame_at d c :: fs)) as (c' & fs' & -> & Hp' & Hne' & Hd); [by rewrite plug_frame, Hp|done|lia|].
    cbn [obind]. rewrite plug_frame, Hp in Hp' by done. assert (Ha : after d (frame_at d c :: fs) = after d fs).
    { destruct c; [done|]. cbn [after frame_at fr_side]. by rewrite Bool.eqb_reflx. }
    rewrite Ha in Hd. rewrite app_assoc, Hd. eexists. split; [|left; exists (datum c'), (data_from d (toward d c') ++ after d fs' ++ [datum t]), c'; split_and!; [cbn; by rewrite <- app_assoc|done|..]]; try done.
    + split_and!; try done. by exists c', fs'.
    + apply (plug_stored fs'). by rewrite Hp'.
Qed.

(** Where an iterator can be between two calls, and what it has left. *)
Definition remaining (data : Z * atree_iterator_t) (custom xs : list Z) : Prop :=
  (exists x, visiting data.2 x xs /\ ai_first data.2 = Some false) \/
  (exists x ys, visiting data.2 x ys /\ ai_first data.2 = Some true /\ xs = x :: ys) \/
  (finished data.2 /\ xs = []).

(** [k] objects of [xs] were put behind those in [got]. *)
Definition fetched (r : outcome (Z * atree_iterator_t * block)) (got xs : list Z) : Prop := exists k a' objects',
  r = Ok (Z.of_nat (length got + k), a', objects') /\ (k <= length xs)%nat /\ (length got + k <= 10)%nat /\
  ((length got < 10)%nat -> (0 < k)%nat) /\ holds objects' (got ++ take k xs) /\ length objects' = 10%nat /\ forall p custom, remaining (p, a') custom (drop k xs).

Definition loop_fetches (rounds : nat) : Prop := forall a x xs objects got,
  visiting a x xs -> ai_first a = Some false -> holds objects got -> length objects = 10%nat -> (length got <= 10 <= length got + rounds)%nat ->
  fetched (atree_fetchLoop rounds st 10 a (Z.of_nat (length got)) objects) got xs.

(** The second half of a round, and the rounds after it. *)
Lemma fetch_round_spec rounds a x xs objects got : loop_fetches rounds ->
  visiting a x xs -> ai_first a = Some false -> holds objects got -> length objects = 10%nat -> (length got < 10 <= S (length got + rounds))%nat ->
  fetched (let* (a, gathered, objects) := iterator_advance st a (Z.of_nat (length got)) objects in
    if ai_node a =? nil then Ok (gathered, a, objects) else
    let* (gathered, objects) := gather st (ai_node a) gathered objects in
    atree_fetchLoop rounds st 10 a gathered objects) got xs.
Proof.
  intros IH Hv Hf Hh Hlen Hg.
  destruct (iterator_advance_spec a x xs (Z.of_nat (length got)) objects Hv) as (a' & Ef & [(y & ys & c & -> & -> & Hv' & En & Hc & Hne & ->)|(-> & -> & Et & Ed & En & Ep)]).
  - cbn [obind]. rewrite En, ptr_nil, bool_decide_false by done.
    destruct (gather_spec c (length got) objects got Hc Hne Hh eq_refl ltac:(lia)) as (o & -> & Hh1 & Hl1). cbn [obind].
    replace (S (length got)) with (length (got ++ [datum c])) by (rewrite length_app; cbn; lia).
    destruct (IH a' (datum c) ys o (got ++ [datum c])) as (k & a2 & o2 & -> & Hk & Hk10 & _ & Hh2 & Hl2 & Hr); try done; [congruence|lia|rewrite length_app; cbn; lia|].
    rewrite length_app in *. cbn [length] in *. exists (S k), a2, o2. rewrite <- app_assoc in Hh2. split_and!; try done; try (cbn; lia).
    do 3 f_equal. lia.
  - destruct (gather_spec t (length got) objects got Hst Hsome Hh eq_refl ltac:(lia)) as (o & -> & Hh1 & Hl1). cbn [obind].
    rewrite En, Z.eqb_refl. exists 1%nat, a', o. split_and!; try done; try (cbn; lia).
    + do 3 f_equal. lia.
    + intros p custom. right. right. split; [|done]. split_and!; try done. cbn. congruence.
Qed.

Lemma fetchLoop_spec rounds : loop_fetches rounds.
Proof.
  induction rounds as [|rounds IH]; intros a x xs objects got Hv Hf Hh Hlen Hg; cbn [atree_fetchLoop];
    (destruct (Z.leb_spec 10 (Z.of_nat (length got))) as [Hge|Hlt];
     [exists O, a, objects; rewrite Nat.add_0_r, app_nil_r; split_and!; try done; try lia; intros p custom; left; by exists x|]); [lia|].
  rewrite Hf. cbn [of_option obind andb]. destruct Hv as (Et & Hv). rewrite Et. eapply fetch_round_spec; try done; lia.
Qed.

(** The first call, which finds the first object already there. *)
Lemma first_fetch a x xs objects : visiting a x xs -> ai_first a = Some true -> length objects = 10%nat ->
  fetched (atree_fetchLoop 10 st 10 a 0 objects) [] (x :: xs).
Proof.
  intros (Et & Ed & c & fs & En & Ep & Hp & Hne & -> & ->) Hf Hlen. cbn [atree_fetchLoop length].
  change (10 <=? 0) with false. cbn match. rewrite Hf. cbn [of_option obind].
  assert (Hc : stored nil st c) by (apply (plug_stored fs); by rewrite Hp).
  rewrite Et, En, ptr_nil, bool_decide_false by done. cbn [andb negb].
  destruct (gather_spec c 0 objects [] Hc Hne ltac:(by exists objects) eq_refl ltac:(lia)) as (o & E0 & Hh & Hl). change (Z.of_nat 0) with 0 in E0. rewrite E0. cbn [obind].
  change (Z.of_nat 1) with (Z.of_nat (length [datum c])).
  destruct (fetch_round_spec 9 (Aiterator tr (ptr nil c) (ai_path a) (ai_direction a) (Some false)) (datum c)
    (data_from d (toward d c) ++ after d fs ++ [datum t]) o [datum c] (fetchLoop_spec 9)) as (k & a' & o' & E & Hk & Hk10 & _ & Hh' & Hl' & Hr'); try done.
  - split_and!; try done. by exists c, fs.
  - congruence.
  - cbn. lia.
  - exists (S k), a', o'. split_and!; try done; cbn in *; lia.
Qed.

(** Every call after the last object. *)
Lemma last_fetch a objects : finished a -> exists a', atree_fetchLoop 10 st 10 a 0 objects = Ok (0, a', objects) /\ finished a'.
Proof.
  intros (Et & Ed & En & Ep & Hf). cbn [atree_fetchLoop]. change (10 <=? 0) with false. cbn match. rewrite Hf. cbn [of_option obind andb].
  unfold iterator_advance. rewrite Et, Ed, En, Ep. unfold get. rewrite (sd_sentinel _ _ _ Hst). cbn [of_option obind].
  replace (an_link (Anode NULL NULL 0 nil nil) d) with nil by (by destruct d). rewrite Z.eqb_refl. cbn [negb iterator_climb].
  rewrite Hroot, Z.eqb_sym, ptr_nil, bool_decide_false by done. cbn [obind ai_node]. rewrite Z.eqb_refl. eexists. split; [done|]. by split_and!.
Qed.

Lemma tree_fetches : fetches (atree_iteratorNextObject st) remaining.
Proof.
  intros it xs Hr Hlen. unfold atree_iteratorNextObject. change (Z.to_nat kIteratorMaxObjects) with 10%nat in *.
  change kIteratorMaxObjects with 10. destruct it as [[p a] custom objects count index left]. cbn [it_data it_custom it_objects fst snd] in *.
  assert (Hgot : fetched (atree_fetchLoop 10 st 10 a 0 objects) [] xs \/ (xs = [] /\ finished a)).
  { destruct Hr as [(x & Hv & Hf)|[(x & ys & Hv & Hf & ->)|[Hfin ->]]]; [left|left; by apply first_fetch|by right].
    apply (fetchLoop_spec 10 a x xs objects []); try done; [by exists objects|cbn; lia]. }
  destruct Hgot as [(k & a' & o' & -> & Hk & Hk10 & Hpos & Hh & Hl & Hr')|(-> & Hfin)].
  - exists k. eexists. split; [done|]. cbn [it_objects it_custom it_data length Nat.add fst] in *. split_and!; try done; lia.
  - destruct (last_fetch a objects Hfin) as (a' & -> & Hfin'). exists O. eexists. split; [done|].
    cbn [it_objects it_custom it_data length fst]. split_and!; try done; try lia; [by exists objects|]. right. right. by split.
Qed.
End Iterating.

Definition root_datum (t : tree) : list Z := match t with Leaf => [] | _ => [datum t] end.

(** Without a node every call gives a null pointer, the sentinel's data. *)
Lemma next_empty st tr d p custom objects count index : st !! at_nil tr = Some (Anode NULL NULL 0 (at_nil tr) (at_nil tr)) ->
  at_root tr = at_nil tr -> length objects = 10%nat ->
  let it objects index := Iterator (p, Aiterator tr (at_nil tr) [] d (Some true)) custom objects count index 0 in
  exists objects', length objects' = 10%nat /\ iterator_nextObject (atree_iteratorNextObject st) (it objects index) = Ok (NULL, it objects' 1).
Proof.
  intros Hnil Hroot Hlen it. unfold iterator_nextObject, it. cbn [it_objectsLeft]. rewrite Z.eqb_refl. unfold atree_iteratorNextObject.
  cbn [it_data it_custom it_objects it_objectCount it_index it_objectsLeft fst snd]. change (Z.to_nat kIteratorMaxObjects) with 10%nat. cbn [atree_fetchLoop].
  change (kIteratorMaxObjects <=? 0) with false. cbn match. cbn [ai_first ai_node ai_tree of_option obind]. rewrite Z.eqb_refl. cbn [andb negb obind].
  unfold iterator_advance, get. cbn [ai_node ai_tree ai_direction ai_path]. rewrite Hnil. cbn [of_option obind].
  replace (an_link (Anode NULL NULL 0 (at_nil tr) (at_nil tr)) d) with (at_nil tr) by (by destruct d). rewrite Z.eqb_refl. cbn [negb iterator_climb].
  rewrite Hroot, Z.eqb_refl. unfold gather, get. rewrite Hnil. cbn [of_option obind an_data].
  destruct (holds_snoc objects [] NULL ltac:(by exists objects) ltac:(cbn; lia)) as (o & E & Ho & Hlo). change (Z.of_nat (length [])) with 0 in E.
  exists o. split; [congruence|]. rewrite E. cbn [obind ai_node]. rewrite Z.eqb_refl. cbn [obind it_custom it_objects it_data it_objectCount].
  change (u32 (0 + 1) =? 0) with false. cbn match. unfold iterator_take. cbn [it_objects it_index it_data it_custom it_objectCount it_objectsLeft].
  pose proof (holds_get o ([] ++ [NULL]) 0 NULL Ho eq_refl) as Eg. change (Z.of_nat 0) with 0 in Eg. by rewrite Eg.
Qed.

Lemma iterate_empty st tr d n : forall p custom objects count index, st !! at_nil tr = Some (Anode NULL NULL 0 (at_nil tr) (at_nil tr)) ->
  at_root tr = at_nil tr -> length objects = 10%nat -> exists it',
  iterate (atree_iteratorNextObject st) n (Iterator (p, Aiterator tr (at_nil tr) [] d (Some true)) custom objects count index 0) = Ok (replicate n NULL, it').
Proof.
  induction n as [|n IH]; intros p custom objects count index Hnil Hroot Hlen; [by eexists|].
  destruct (next_empty st tr d p custom objects count index Hnil Hroot Hlen) as (o & Ho & E). cbn [iterate]. rewrite E. cbn [obind].
  destruct (IH p custom o count 1 Hnil Hroot Ho) as (it' & ->). by eexists.
Qed.

Section Enumerate.
Context {H : Type} `{KernelHeapOk H} (comparison : Z -> Z -> Z).
Implicit Types (h : H).

(** From the start the iterator has the whole tree before it. *)
Lemma start_iterates h h1 h2 p q tr st t d n : heap_ok h -> tree_rep comparison h tr st t ->
  halloc h sizeof_atree_iterator = Ok (p, h1) -> p <> NULL -> halloc h1 sizeof_iterator = Ok (q, h2) -> q <> NULL ->
  exists it it', iterator_at_start h tr st d (Some true) = Ok (Some (q, it), h2) /\ fst (it_data it) = p /\
    iterate (atree_iteratorNextObject st) n it = Ok (take n (data_from d t ++ root_datum t ++ replicate n NULL), it').
Proof.
  intros Hh Hr E1 Hp E2 Hq. destruct (rep_depth _ _ _ _ _ Hh Hr) as (_ & Hheight & _). pose proof (tr_stored _ _ _ _ _ Hr) as Hst.
  pose proof (tr_root _ _ _ _ _ Hr) as Hroot. unfold iterator_at_start. rewrite E1. cbn [obind]. rewrite (proj2 (Z.eqb_neq p NULL)) by done.
  rewrite Hroot, (ptr_nil tr st) by done. unfold iterator_create. destruct (decide (t = Leaf)) as [->|Hne].
  - rewrite bool_decide_true by done. cbn [obind]. rewrite E2. cbn [obind]. rewrite (proj2 (Z.eqb_neq q NULL)) by done.
    cbn [of_option obind]. destruct (iterate_empty st tr d n p (replicate 5 0) (fresh_block kIteratorMaxObjects) 0 0) as (it' & E); [exact (sd_sentinel _ _ _ Hst)|done..|].
    do 2 eexists. split_and!; [done|done|]. unfold iterator_new. cbn [ptr] in *. rewrite E.
    replace (data_from d Leaf) with ([] : list Z) by (by destruct d). cbn [app root_datum]. by rewrite take_ge by (by rewrite length_replicate).
  - rewrite bool_decide_false by done. assert (Hk : (height t <= kAtreeMaxHeight)%nat) by (unfold kAtreeMaxHeight; lia).
    destruct (iterator_descend_spec tr st d kAtreeMaxHeight t []) as (c & fs & E & Hpl & Hc & Hd); [done..|lia|]. cbn [fmap list_fmap] in E. rewrite E. cbn [obind].
    rewrite E2. cbn [obind]. rewrite (proj2 (Z.eqb_neq q NULL)) by done. cbn [of_option obind plug after] in *. rewrite app_nil_r in Hd.
    destruct (iterate_spec (atree_iteratorNextObject st) (remaining tr d t) (tree_fetches tr st d t Hst Hroot Hne Hk) n
      (iterator_new (p, Aiterator tr (ptr (at_nil tr) c) (fr_a <$> fs) d (Some true))) (data_from d t ++ [datum t])) as (it' & Ei & _).
    + apply yields_new. right. left. exists (datum c), (data_from d (toward d c) ++ after d fs ++ [datum t]). split_and!; try done.
      * split_and!; try done. by exists c, fs.
      * by rewrite Hd, <- app_comm_cons, <- app_assoc.
    + exists (iterator_new (p, Aiterator tr (ptr (at_nil tr) c) (fr_a <$> fs) d (Some true))), it'. split_and!; [done|done|]. rewrite Ei, <- app_assoc. by destruct t.
Qed.

(** C30: The iterator of a tree hands out the data of all entries in the order of
    their keys, whatever the buffering; but then it hands out the root's data
    once more, before the null pointer that ends a loop over it. *)
Theorem atree_iterator_enumerates h h1 h2 p q tr st t n : heap_ok h -> tree_rep comparison h tr st t ->
  halloc h sizeof_atree_iterator = Ok (p, h1) -> p <> NULL -> halloc h1 sizeof_iterator = Ok (q, h2) -> q <> NULL ->
  exists it it', atree_iterator h tr st = Ok (Some (q, it), h2) /\ fst (it_data it) = p /\
    iterate (atree_iteratorNextObject st) n it = Ok (take n ((snd <$> inorder t) ++ root_datum t ++ replicate n NULL), it').
Proof. intros. by eapply (start_iterates h h1 h2 p q tr st t true). Qed.

(** The first call of an iterator that runs backwards reads a field that was
    never set. *)
Lemma backwards_reads_garbage h h' tr st address it : atree_backwardsIterator h tr st = Ok (Some (address, it), h') ->
  iterator_nextObject (atree_iteratorNextObject st) it = Fault.
Proof.
  unfold atree_backwardsIterator, iterator_at_start, iterator_create. intros E. apply obind_Ok in E as ([p h1] & _ & E).
  destruct (p =? NULL); [done|]. apply obind_Ok in E as ([node path] & _ & E). apply obind_Ok in E as ([created h2] & Ec & E).
  apply obind_Ok in Ec as ([q h3] & _ & Ec). destruct (q =? NULL); simplify_eq; cbn in E; simplify_eq. reflexivity.
Qed.
End Enumerate.

Lemma atree_iterator_enumerates_witness : exists it it',
  atree_iterator demo_theap demo_atree demo_anodes = Ok (Some (5 * slot_size, it), CellHeap {[5 := 84; 4 := 276; 1 := 20; 2 := 20; 3 := 16]}) /\
  fst (it_data it) = 4 * slot_size /\ iterate (atree_iteratorNextObject demo_anodes) 4 it = Ok ([70; 70; NULL; NULL], it').
Proof.
  apply (atree_iterator_enumerates demo_compare demo_theap (CellHeap {[4 := 276; 1 := 20; 2 := 20; 3 := 16]}) _ (4 * slot_size) (5 * slot_size) demo_atree demo_anodes demo_tree 4);
    [done|apply demo_tree_rep|by vm_compute|done|by vm_compute|done].
Defined.

(** ** Removing *)

Definition insert_all (entries : list (Z * Z)) (s : atree_t * anodes * cell_heap) : outcome (atree_t * anodes * cell_heap) :=
  foldl (fun r e => let* (tr, st, h) := r in atree_insert demo_compare h tr st e.2 e.1) (Ok s) entries.

(** The root of a tree with the keys 3, 5 and 7 is removed.  Its heir is the
    node of 7, whose data it takes over without the key: afterwards the data is
    found under the key that was removed, and nothing under the other. *)
Lemma remove_loses_key :
  match insert_all [(5, 50); (3, 30)] (demo_atree, demo_anodes, demo_theap) with
  | Ok (tr, st, h) =>
      match atree_remove demo_compare h tr st 5 with
      | Ok (tr', st', _) => Some (
          (fun k => atree_find demo_compare tr st k) <$> [3; 5; 7],
          (fun k => atree_find demo_compare tr' st' k) <$> [3; 5; 7])
      | _ => None
      end
  | _ => None
  end = Some ([Ok 30; Ok 50; Ok 70], [Ok 30; Ok 70; Ok NULL]).
Proof. vm_compute. reflexivity. Qed.
