(* ===== verification/VMemory.v ===== *)
(** * Virtual memory (sys/memory/vmemory.c)

    The page directories live in physical memory, a map from word addresses to
    words, and the code reaches them through virtual addresses once paging is
    on: every access is translated by walking the kernel directory, the way the
    processor does.  The translation caches are not modelled, since every change
    of an entry is followed by [invlpg]; nor are the accessed and dirty bits. *)

From S2P Require Import Prelude Pages PMemory PMemoryBoot.

Definition VM_PAGETABLEFLAG_PRESENT : Z := 1.
Definition VM_PAGETABLEFLAG_ALL : Z := 127.
Definition VM_FLAGS_KERNEL : Z := 3.
Definition VM_FLAGS_USERLAND : Z := 7.
Definition VM_KERNEL_PAGE_TABLES : Z := 0x3FC00000.
Definition IR_TRAMPOLINE_BEGIN : Z := 0xFFAFF000.

Record vmem := Vmem {
  v_phys : gmap Z Z;
  v_pages : bitmap;
  v_paging : bool;
  v_usePhysicalKernelPages : bool;
  v_kernelDirectory : Z;
  v_lock : bool
}.

Definition set_phys (st : vmem) (m : gmap Z Z) : vmem :=
  Vmem m (v_pages st) (v_paging st) (v_usePhysicalKernelPages st) (v_kernelDirectory st) (v_lock st).
Definition set_pages (st : vmem) (h : bitmap) : vmem :=
  Vmem (v_phys st) h (v_paging st) (v_usePhysicalKernelPages st) (v_kernelDirectory st) (v_lock st).
Definition set_locked (st : vmem) (b : bool) : vmem :=
  Vmem (v_phys st) (v_pages st) (v_paging st) (v_usePhysicalKernelPages st) (v_kernelDirectory st) b.

(** ** Memory accesses *)

Definition pload (st : vmem) (a : Z) : outcome Z := of_option (v_phys st !! a).
Definition pstore (st : vmem) (a w : Z) : outcome vmem :=
  if decide (is_Some (v_phys st !! a)) then Ok (set_phys st (<[a := w]> (v_phys st))) else Fault.

Definition present (e : Z) : bool := negb (Z.land e VM_PAGETABLEFLAG_PRESENT =? 0).

(** The frame an entry points to: [entry & ~0xFFF]. *)
Definition frame (e : Z) : Z := Z.land e VM_PAGE_MASK.

(** The walk of the processor; CR3 holds the kernel directory. *)
Definition translate (st : vmem) (v : Z) : outcome Z :=
  if v_paging st then
    let* pde := pload st (v_kernelDirectory st + 4 * Z.shiftr v 22) in
    if present pde then
      let* pte := pload st (frame pde + 4 * (Z.shiftr v 12 mod 1024)) in
      if present pte then Ok (frame pte + v mod 4096) else Fault
    else Fault
  else Ok v.

Definition vload (st : vmem) (v : Z) : outcome Z := let* a := translate st (u32 v) in pload st a.
Definition vstore (st : vmem) (v w : Z) : outcome vmem := let* a := translate st (u32 v) in pstore st a w.

(** [memset(p, 0, 4 * n)] *)
Fixpoint clear_words (n : nat) (st : vmem) (v : Z) : outcome vmem :=
  match n with
  | O => Ok st
  | S n' => let* st := vstore st v 0 in clear_words n' st (u32 (v + 4))
  end.

Definition vm_assert (b : bool) : outcome unit := if b then Ok tt else Panic.

Definition page_aligned (a : Z) : bool := a mod VM_PAGE_SIZE =? 0.

(** ** Searching *)

(** The inner loop: [n] entries from [pageIndex] on; [isFree] looks at one. *)
Fixpoint scan_table (n : nat) (isFree : Z -> outcome bool) (pageTableIndex pageIndex foundPages regionStart pages : Z)
    : outcome (Z * Z) :=
  match n with
  | O => Ok (foundPages, regionStart)
  | S n' =>
      let* free := isFree pageIndex in
      if free then
        let regionStart := if foundPages =? 0
                           then u32 (Z.shiftl pageTableIndex VM_DIRECTORY_SHIFT + Z.shiftl pageIndex VM_PAGE_SHIFT) else regionStart in
        let foundPages := u32 (foundPages + 1) in
        if pages <=? foundPages then Ok (foundPages, regionStart)
        else scan_table n' isFree pageTableIndex (pageIndex + 1) foundPages regionStart pages
      else scan_table n' isFree pageTableIndex (pageIndex + 1) 0 regionStart pages
  end.

Definition scan_rest (isFree : Z -> outcome bool) (pageTableIndex pageIndex foundPages regionStart pages : Z) : outcome (Z * Z) :=
  scan_table (Z.to_nat (VM_PAGETABLE_LENGTH - pageIndex)) isFree pageTableIndex pageIndex foundPages regionStart pages.

(** A slot without a table counts as a whole table of free pages. *)
Definition skip_table (pageTableIndex pageIndex foundPages regionStart : Z) : Z * Z :=
  (u32 (foundPages + VM_PAGETABLE_LENGTH),
   if foundPages =? 0 then u32 (Z.shiftl pageTableIndex VM_DIRECTORY_SHIFT + Z.shiftl pageIndex VM_PAGE_SHIFT) else regionStart).

(** The guards and the last test of the three searches. *)
Definition find_guards (pages lowerLimit upperLimit : Z) : outcome unit :=
  let* _ := vm_assert ((0 <? pages) && (VM_LOWER_LIMIT <=? lowerLimit) && (upperLimit <=? VM_UPPER_LIMIT)) in
  let* _ := vm_assert (page_aligned lowerLimit) in
  vm_assert (page_aligned upperLimit).

Definition find_result (pages upperLimit foundPages regionStart : Z) : Z :=
  if (pages <=? foundPages) && (u32 (regionStart + u32 (pages * VM_PAGE_SIZE)) <=? upperLimit) then regionStart else 0.

(** The window through which the tables of the kernel directory are seen. *)
Definition kernel_table (pageTableIndex : Z) : Z := u32 (VM_KERNEL_PAGE_TABLES + Z.shiftl pageTableIndex VM_PAGE_SHIFT).

Definition entry_free (st : vmem) (table pageIndex : Z) : outcome bool :=
  let* e := vload st (table + 4 * pageIndex) in Ok (negb (present e)).

(** The outer loop; it stops at the latest behind the last slot of the directory. *)
Fixpoint find_kernel_loop (fuel : nat) (st : vmem) (pageTableIndex pageIndex foundPages regionStart pages upperLimit : Z) : outcome (Z * Z) :=
  if (foundPages <? pages) && (u32 (Z.shiftl pageTableIndex VM_DIRECTORY_SHIFT) <? upperLimit) then
    if VM_DIRECTORY_LENGTH <=? pageTableIndex then Ok (0, regionStart) else
    match fuel with
    | O => Hang
    | S f =>
        let* e := vload st (v_kernelDirectory st + 4 * pageTableIndex) in
        let* (foundPages, regionStart) :=
          if present e then scan_rest (entry_free st (kernel_table pageTableIndex)) pageTableIndex pageIndex foundPages regionStart pages
          else Ok (skip_table pageTableIndex pageIndex foundPages regionStart) in
        find_kernel_loop f st (pageTableIndex + 1) 0 foundPages regionStart pages upperLimit
    end
  else Ok (foundPages, regionStart).

Definition find_fuel : nat := 1024.

Definition __vm_findFreePages__kernel (st : vmem) (pages lowerLimit upperLimit : Z) : outcome Z :=
  let* _ := find_guards pages lowerLimit upperLimit in
  let pageTableIndex := Z.shiftr lowerLimit VM_DIRECTORY_SHIFT in
  let pageIndex := Z.shiftr lowerLimit VM_PAGE_SHIFT mod VM_PAGETABLE_LENGTH in
  let* (foundPages, regionStart) := find_kernel_loop find_fuel st pageTableIndex pageIndex 0 0 pages upperLimit in
  Ok (find_result pages upperLimit foundPages regionStart).

(** ** Mapping in the kernel directory *)

Definition map_guards (paddress vaddress flags : Z) : outcome unit :=
  let* _ := vm_assert (0 <? vaddress) in
  let* _ := vm_assert ((0 <? paddress) || (flags =? 0)) in
  let* _ := vm_assert (page_aligned vaddress) in
  vm_assert (page_aligned paddress).

(** Where the code reaches a table of the kernel directory that is at [table]. *)
Definition kernel_table_pointer (st : vmem) (index table : Z) : Z :=
  if v_usePhysicalKernelPages st then table else u32 (VM_KERNEL_PAGE_TABLES + Z.land (u32 (4 * index)) VM_PAGE_MASK).

(** [memset(pageTable, 0, VM_PAGETABLE_LENGTH)] clears that many bytes: a quarter
    of the table's entries. *)
Definition memset_entries : nat := 256.

(** [__vm_mapPage__noLock] with the kernel directory. *)
Definition map_kernel (st : vmem) (paddress vaddress flags : Z) : outcome vmem :=
  let* _ := map_guards paddress vaddress flags in
  let index := vaddress / VM_PAGE_SIZE in
  let slot := v_kernelDirectory st + 4 * (index / VM_DIRECTORY_LENGTH) in
  let* e := vload st slot in
  let* (table, st) :=
    if negb (present e) then
      let '(page, h) := pm_alloc (v_pages st) 1 in
      let st := set_pages st h in
      let* st := vstore st slot (Z.lor page VM_FLAGS_USERLAND) in
      let table := kernel_table_pointer st index page in
      let* st := clear_words memset_entries st table in
      Ok (table, st)
    else Ok (kernel_table_pointer st index (frame e), st) in
  vstore st (table + 4 * (index mod VM_PAGETABLE_LENGTH)) (Z.lor paddress flags).

Fixpoint map_kernel_range (n : nat) (st : vmem) (paddress vaddress flags : Z) : outcome vmem :=
  match n with
  | O => Ok st
  | S n' =>
      let* st := map_kernel st paddress vaddress flags in
      map_kernel_range n' st (u32 (paddress + VM_PAGE_SIZE)) (u32 (vaddress + VM_PAGE_SIZE)) flags
  end.

(** [__vm_alloc_noLock] with the kernel directory. *)
Definition alloc_kernel_limits (st : vmem) (paddress pages lowerLimit upperLimit flags : Z) : outcome (Z * vmem) :=
  let* vaddress := __vm_findFreePages__kernel st pages lowerLimit upperLimit in
  if negb (vaddress =? 0) then
    let* st := map_kernel_range (Z.to_nat pages) st paddress vaddress flags in Ok (vaddress, st)
  else Ok (vaddress, st).

Definition alloc_kernel (st : vmem) (paddress pages flags : Z) : outcome (Z * vmem) :=
  alloc_kernel_limits st paddress pages VM_LOWER_LIMIT VM_UPPER_LIMIT flags.

Definition unmap_kernel (st : vmem) (vaddress : Z) : outcome vmem := map_kernel st 0 vaddress 0.

(** ** Other directories

    A directory is given by a virtual address it is mapped at, a table is mapped
    for the time it is looked at. *)

Fixpoint find_user_loop (fuel : nat) (st : vmem) (directory pageTableIndex pageIndex foundPages regionStart pages upperLimit : Z)
    : outcome (Z * Z * vmem) :=
  if (foundPages <? pages) && (u32 (Z.shiftl pageTableIndex VM_DIRECTORY_SHIFT) <? upperLimit) then
    if VM_DIRECTORY_LENGTH <=? pageTableIndex then Ok (0, regionStart, st) else
    match fuel with
    | O => Hang
    | S f =>
        let* e := vload st (directory + 4 * pageTableIndex) in
        let* (foundPages, regionStart, st) :=
          if present e then
            let* (table, st) := alloc_kernel st (frame e) 1 VM_FLAGS_KERNEL in
            let* (foundPages, regionStart) := scan_rest (entry_free st table) pageTableIndex pageIndex foundPages regionStart pages in
            let* st := unmap_kernel st table in
            Ok (foundPages, regionStart, st)
          else Ok (skip_table pageTableIndex pageIndex foundPages regionStart, st) in
        find_user_loop f st directory (pageTableIndex + 1) 0 foundPages regionStart pages upperLimit
    end
  else Ok (foundPages, regionStart, st).

Definition __vm_findFreePages__user (st : vmem) (directory pages lowerLimit upperLimit : Z) : outcome (Z * vmem) :=
  let* _ := find_guards pages lowerLimit upperLimit in
  let pageTableIndex := Z.shiftr lowerLimit VM_DIRECTORY_SHIFT in
  let pageIndex := Z.shiftr lowerLimit VM_PAGE_SHIFT mod VM_PAGETABLE_LENGTH in
  let* (foundPages, regionStart, st) := find_user_loop find_fuel st directory pageTableIndex pageIndex 0 0 pages upperLimit in
  Ok (find_result pages upperLimit foundPages regionStart, st).

(** One entry of the search in both directories at once; a null table is free. *)
Definition both_free (st : vmem) (utable ktable pageIndex : Z) : outcome bool :=
  let* u := if utable =? 0 then Ok true else entry_free st utable pageIndex in
  let* k := if ktable =? 0 then Ok true else entry_free st ktable pageIndex in
  Ok (u && k).

Fixpoint find_twoSided_loop (fuel : nat) (st : vmem) (directory pageTableIndex pageIndex foundPages regionStart pages upperLimit : Z)
    : outcome (Z * Z * vmem) :=
  if (foundPages <? pages) && (u32 (Z.shiftl pageTableIndex VM_DIRECTORY_SHIFT) <? upperLimit) then
    if VM_DIRECTORY_LENGTH <=? pageTableIndex then Ok (0, regionStart, st) else
    match fuel with
    | O => Hang
    | S f =>
        let* ue := vload st (directory + 4 * pageTableIndex) in
        let* ke := vload st (v_kernelDirectory st + 4 * pageTableIndex) in
        let* (foundPages, regionStart, st) :=
          if present ue || present ke then
            let* (utable, st) := if present ue then alloc_kernel st (frame ue) 1 VM_FLAGS_KERNEL else Ok (0, st) in
            let* ke := vload st (v_kernelDirectory st + 4 * pageTableIndex) in
            let ktable := if present ke then kernel_table pageTableIndex else 0 in
            let* (foundPages, regionStart) := scan_rest (both_free st utable ktable) pageTableIndex pageIndex foundPages regionStart pages in
            let* st := if negb (utable =? 0) then unmap_kernel st utable else Ok st in
            Ok (foundPages, regionStart, st)
          else Ok (skip_table pageTableIndex pageIndex foundPages regionStart, st) in
        find_twoSided_loop f st directory (pageTableIndex + 1) 0 foundPages regionStart pages upperLimit
    end
  else Ok (foundPages, regionStart, st).

Definition __vm_findFreePagesTwoSided (st : vmem) (directory pages lowerLimit upperLimit : Z) : outcome (Z * vmem) :=
  let* _ := find_guards pages lowerLimit upperLimit in
  let pageTableIndex := Z.shiftr lowerLimit VM_DIRECTORY_SHIFT in
  let pageIndex := Z.shiftr lowerLimit VM_PAGE_SHIFT mod VM_PAGETABLE_LENGTH in
  let* (foundPages, regionStart, st) := find_twoSided_loop find_fuel st directory pageTableIndex pageIndex 0 0 pages upperLimit in
  Ok (find_result pages upperLimit foundPages regionStart, st).

(** [__vm_mapPage__noLock] *)
Definition __vm_mapPage__noLock (st : vmem) (directory paddress vaddress flags : Z) : outcome vmem :=
  if directory =? v_kernelDirectory st then map_kernel st paddress vaddress flags else
  let* _ := map_guards paddress vaddress flags in
  let index := vaddress / VM_PAGE_SIZE in
  let slot := directory + 4 * (index / VM_DIRECTORY_LENGTH) in
  let* e := vload st slot in
  let* (kernelPage, st) :=
    if negb (present e) then
      let '(page, h) := pm_alloc (v_pages st) 1 in
      let st := set_pages st h in
      let* st := vstore st slot (Z.lor page VM_FLAGS_USERLAND) in
      let* kernelPage := __vm_findFreePages__kernel st 1 VM_LOWER_LIMIT VM_UPPER_LIMIT in
      let* st := map_kernel st page kernelPage VM_FLAGS_KERNEL in
      let* st := clear_words memset_entries st kernelPage in
      Ok (kernelPage, st)
    else
      let* kernelPage := __vm_findFreePages__kernel st 1 VM_LOWER_LIMIT VM_UPPER_LIMIT in
      let* st := map_kernel st (frame e) kernelPage VM_FLAGS_KERNEL in
      Ok (kernelPage, st) in
  let* st := vstore st (kernelPage + 4 * (index mod VM_PAGETABLE_LENGTH)) (Z.lor paddress flags) in
  unmap_kernel st kernelPage.

Fixpoint __vm_mapPageRange__noLock (n : nat) (st : vmem) (directory paddress vaddress flags : Z) : outcome vmem :=
  match n with
  | O => Ok st
  | S n' =>
      let* st := __vm_mapPage__noLock st directory paddress vaddress flags in
      __vm_mapPageRange__noLock n' st directory (u32 (paddress + VM_PAGE_SIZE)) (u32 (vaddress + VM_PAGE_SIZE)) flags
  end.

(** ** Directories by their physical address

    The functions that take a physical directory map it into the kernel for the
    time of the call, unless it is the kernel's own: [enter_directory] and
    [leave_directory] are that frame. *)

Definition vm_lock (st : vmem) : outcome vmem := if v_lock st then Hang else Ok (set_locked st true).
Definition vm_unlock (st : vmem) : vmem := set_locked st false.

(** The search of the callers, which know whether the directory is the kernel's. *)
Definition find_in (st : vmem) (isKernelDirectory : bool) (directory pages lowerLimit upperLimit : Z) : outcome (Z * vmem) :=
  if isKernelDirectory
  then let* v := __vm_findFreePages__kernel st pages lowerLimit upperLimit in Ok (v, st)
  else __vm_findFreePages__user st directory pages lowerLimit upperLimit.

Definition __vm_findFreePages (st : vmem) (directory pages lowerLimit upperLimit : Z) : outcome (Z * vmem) :=
  find_in st (directory =? v_kernelDirectory st) directory pages lowerLimit upperLimit.

(** Find room in a mapped directory and map the range there. *)
Definition alloc_in (st : vmem) (isKernelDirectory : bool) (directory paddress pages lowerLimit upperLimit flags : Z) : outcome (Z * vmem) :=
  let* (vaddress, st) := find_in st isKernelDirectory directory pages lowerLimit upperLimit in
  if negb (vaddress =? 0) then
    let* st := __vm_mapPageRange__noLock (Z.to_nat pages) st directory paddress vaddress flags in Ok (vaddress, st)
  else Ok (vaddress, st).

(** The directory's address for the call, mapped with [map] unless it is the kernel's. *)
Definition enter_directory (map : vmem -> Z -> outcome (Z * vmem)) (st : vmem) (pdirectory : Z) : outcome (Z * vmem) :=
  if pdirectory =? v_kernelDirectory st then Ok (pdirectory, st) else map st pdirectory.

Definition leave_directory (st : vmem) (pdirectory directory : Z) : outcome vmem :=
  if pdirectory =? v_kernelDirectory st then Ok st else unmap_kernel st directory.

Definition map_directory (st : vmem) (pdirectory : Z) : outcome (Z * vmem) := alloc_kernel st pdirectory 1 VM_FLAGS_KERNEL.

(** The same taking the lock, as [vm_alloc] on the kernel directory does. *)
Definition map_directory_locked (st : vmem) (pdirectory : Z) : outcome (Z * vmem) :=
  let* st := vm_lock st in
  let* (v, st) := map_directory st pdirectory in
  Ok (v, vm_unlock st).

Definition __vm_alloc_noLock (st : vmem) (pdirectory paddress pages flags : Z) : outcome (Z * vmem) :=
  let* (directory, st) := enter_directory map_directory st pdirectory in
  let* (vaddress, st) := alloc_in st (pdirectory =? v_kernelDirectory st) directory paddress pages VM_LOWER_LIMIT VM_UPPER_LIMIT flags in
  let* st := leave_directory st pdirectory directory in
  Ok (vaddress, st).

Definition __vm_getPagetableEntry (st : vmem) (directory vaddress : Z) : outcome (Z * vmem) :=
  let index := vaddress / VM_PAGE_SIZE in
  let* e := vload st (directory + 4 * (index / VM_PAGETABLE_LENGTH)) in
  if negb (present e) then Ok (0, st) else
  let* (table, st) := alloc_kernel st (frame e) 1 VM_FLAGS_KERNEL in
  let* pte := vload st (table + 4 * (index mod VM_PAGETABLE_LENGTH)) in
  let* st := unmap_kernel st table in
  Ok (if present pte then pte else 0, st).

Definition vm_resolveVirtualAddress (st : vmem) (pdirectory vaddress : Z) : outcome (Z * vmem) :=
  let* (directory, st) := enter_directory map_directory_locked st pdirectory in
  let* st := vm_lock st in
  let* (entry, st) := __vm_getPagetableEntry st directory vaddress in
  let* st := leave_directory st pdirectory directory in
  Ok (if present entry then Z.lor (frame entry) (Z.land vaddress 0xFFF) else 0, vm_unlock st).

(** The limit is raised to [VM_UPPER_LIMIT] when it is below it. *)
Definition vm_findFreePages_noLock (st : vmem) (pdirectory pages lowerLimit upperLimit : Z) : outcome (Z * vmem) :=
  let* (directory, st) := enter_directory map_directory st pdirectory in
  let lowerLimit := if lowerLimit <? VM_UPPER_LIMIT then VM_UPPER_LIMIT else lowerLimit in
  let* (vaddress, st) := find_in st (pdirectory =? v_kernelDirectory st) directory pages lowerLimit upperLimit in
  let* st := leave_directory st pdirectory directory in
  Ok (vaddress, st).

Definition vm_mapPage__noLock (st : vmem) (pdirectory paddress vaddress flags : Z) : outcome vmem :=
  let* (directory, st) := enter_directory map_directory st pdirectory in
  let* st := __vm_mapPage__noLock st directory paddress vaddress flags in
  leave_directory st pdirectory directory.

Definition vm_mapPageRange__noLock (st : vmem) (pdirectory paddress vaddress pages flags : Z) : outcome vmem :=
  let* (directory, st) := enter_directory map_directory st pdirectory in
  let* st := __vm_mapPageRange__noLock (Z.to_nat pages) st directory paddress vaddress flags in
  leave_directory st pdirectory directory.

Definition vm_mapPage (st : vmem) (pdirectory paddress vaddress flags : Z) : outcome vmem :=
  let* st := vm_lock st in
  let* st := vm_mapPage__noLock st pdirectory paddress vaddress flags in
  Ok (vm_unlock st).

Definition vm_mapPageRange (st : vmem) (pdirectory paddress vaddress pages flags : Z) : outcome vmem :=
  let* st := vm_lock st in
  let* st := vm_mapPageRange__noLock st pdirectory paddress vaddress pages flags in
  Ok (vm_unlock st).

Definition vm_getKernelDirectory (st : vmem) : Z := v_kernelDirectory st.

Definition vm_allocLimit (st : vmem) (pdirectory paddress pages limit upperLimit flags : Z) : outcome (Z * vmem) :=
  let* (directory, st) := enter_directory map_directory_locked st pdirectory in
  let* st := vm_lock st in
  let* (vaddress, st) := alloc_in st (pdirectory =? v_kernelDirectory st) directory paddress pages limit upperLimit flags in
  let* st := leave_directory st pdirectory directory in
  Ok (vaddress, vm_unlock st).

Definition vm_alloc (st : vmem) (pdirectory paddress pages flags : Z) : outcome (Z * vmem) :=
  let* (directory, st) := enter_directory map_directory_locked st pdirectory in
  let* st := vm_lock st in
  let* (vaddress, st) := alloc_in st (pdirectory =? v_kernelDirectory st) directory paddress pages VM_LOWER_LIMIT VM_UPPER_LIMIT flags in
  let* st := leave_directory st pdirectory directory in
  Ok (vaddress, vm_unlock st).

(** The search's failure is not tested: the range is then mapped at address 0,
    which the assertion in [__vm_mapPage__noLock] refuses. *)
Definition vm_allocTwoSidedLimit (st : vmem) (pdirectory paddress pages limit upperLimit flags : Z) : outcome (Z * vmem) :=
  let* _ := vm_assert (negb (pdirectory =? v_kernelDirectory st)) in
  let* (directory, st) := map_directory_locked st pdirectory in
  let* st := vm_lock st in
  let* (vaddress, st) := __vm_findFreePagesTwoSided st directory pages limit upperLimit in
  let* st := map_kernel_range (Z.to_nat pages) st paddress vaddress flags in
  let* st := __vm_mapPageRange__noLock (Z.to_nat pages) st directory paddress vaddress flags in
  let* st := unmap_kernel st directory in
  Ok (vaddress, vm_unlock st).

Fixpoint free_pages (n : nat) (st : vmem) (directory vaddress : Z) : outcome vmem :=
  match n with
  | O => Ok st
  | S n' =>
      let* st := __vm_mapPage__noLock st directory 0 vaddress 0 in
      free_pages n' st directory (u32 (vaddress + VM_PAGE_SIZE))
  end.

Definition vm_free (st : vmem) (pdirectory vaddress pages : Z) : outcome vmem :=
  let* (directory, st) := enter_directory map_directory_locked st pdirectory in
  let* st := vm_lock st in
  let* st := free_pages (Z.to_nat pages) st directory vaddress in
  let* st := leave_directory st pdirectory directory in
  Ok (vm_unlock st).

(** ** Creating and deleting directories *)

Definition vm_createDirectory (st : vmem) : outcome (Z * vmem) :=
  let '(physPageDir, h) := pm_alloc (v_pages st) 1 in
  let st := set_pages st h in
  let* (directory, st) := vm_alloc st (v_kernelDirectory st) physPageDir 1 VM_FLAGS_KERNEL in
  let* st := clear_words (Z.to_nat VM_DIRECTORY_LENGTH) st directory in
  let* st := vstore st (directory + 4 * 0xFF) (Z.lor physPageDir VM_FLAGS_KERNEL) in
  let* st := __vm_mapPageRange__noLock (Z.to_nat IR_TRAMPOLINE_PAGES) st directory IR_TRAMPOLINE_PHYSICAL IR_TRAMPOLINE_BEGIN VM_FLAGS_KERNEL in
  let* st := vm_free st (v_kernelDirectory st) directory 1 in
  Ok (physPageDir, st).

(** The tables of the slots from [i] on. *)
Fixpoint free_tables (n : nat) (st : vmem) (mapped i : Z) : outcome vmem :=
  match n with
  | O => Ok st
  | S n' =>
      let* e := vload st (mapped + 4 * i) in
      let table := Z.land e (u32 (Z.lnot VM_PAGETABLEFLAG_ALL)) in
      let st := if negb (table =? 0) then set_pages st (pm_free (v_pages st) table 1) else st in
      free_tables n' st mapped (i + 1)
  end.

Definition vm_deleteDirectory (st : vmem) (directory : Z) : outcome vmem :=
  let* (mapped, st) := vm_alloc st (v_kernelDirectory st) directory 1 VM_FLAGS_KERNEL in
  let* st := free_tables (Z.to_nat VM_DIRECTORY_LENGTH) st mapped 0 in
  let* st := vm_free st (v_kernelDirectory st) mapped 1 in
  Ok (set_pages st (pm_free (v_pages st) directory 1)).

(** ** Whole pages of memory (sys/memory/memory.h) *)

Definition mm_alloc (st : vmem) (directory pages flags : Z) : outcome (Z * vmem) :=
  let '(pmemory, h) := pm_alloc (v_pages st) pages in
  let st := set_pages st h in
  if negb (pmemory =? 0) then
    let* (vmemory, st) := vm_alloc st directory pmemory pages flags in
    if negb (vmemory =? 0) then Ok (vmemory, st)
    else Ok (NULL, set_pages st (pm_free (v_pages st) pmemory pages))
  else Ok (NULL, st).

Definition mm_free (st : vmem) (address directory pages : Z) : outcome vmem :=
  let* (pmemory, st) := vm_resolveVirtualAddress st directory address in
  let* st := vm_free st directory address pages in
  Ok (set_pages st (pm_free (v_pages st) pmemory pages)).

(** ** Boot *)

(** [memset(__vm_kernelDirectory, 0, VM_DIRECTORY_LENGTH)]: again a quarter of it. *)
Definition vm_createKernelContext (st : vmem) : outcome vmem :=
  let st := Vmem (v_phys st) (v_pages st) (v_paging st) (v_usePhysicalKernelPages st) VM_KERNEL_DIRECTORY_ADDRESS (v_lock st) in
  let* st := clear_words memset_entries st (v_kernelDirectory st) in
  let* st := vstore st (v_kernelDirectory st + 4 * 0xFF) (Z.lor (v_kernelDirectory st) VM_FLAGS_KERNEL) in
  map_kernel st (v_kernelDirectory st) (v_kernelDirectory st) VM_FLAGS_KERNEL.

Definition map_identity (st : vmem) (a pages : Z) : outcome vmem := map_kernel_range (Z.to_nat pages) st a a VM_FLAGS_KERNEL.

Definition vm_mapMultibootModule (m : bootmem) (st : vmem) (module : mb_module) : outcome vmem :=
  let start := VM_PAGE_ALIGN_DOWN (mod_start module) in
  let end_ := VM_PAGE_ALIGN_UP (mod_end module) in
  let* st := map_identity st start (VM_PAGE_COUNT (u32 (end_ - start))) in
  let name := VM_PAGE_ALIGN_DOWN (mod_name module) in
  map_identity st name (VM_PAGE_COUNT (strlen_at m name)).

Fixpoint vm_mapModules (count : nat) (m : bootmem) (st : vmem) (module : Z) : outcome vmem :=
  match count with
  | O => Ok st
  | S n =>
      let* st := vm_mapMultibootModule m st (module_at m module) in
      vm_mapModules n m st (u32 (module + sizeof_multiboot_module))
  end.

Fixpoint vm_mapDrives (fuel : nat) (m : bootmem) (st : vmem) (drivesPtr drivesEnd : Z) : outcome vmem :=
  if drivesPtr <? drivesEnd then
    match fuel with
    | O => Hang
    | S f =>
        let size := drive_size_at m drivesPtr in
        let* st := map_identity st drivesPtr (VM_PAGE_COUNT size) in
        vm_mapDrives f m st (u32 (drivesPtr + size)) drivesEnd
    end
  else Ok st.

Definition vm_mapMultiboot (m : bootmem) (st : vmem) (info : Z) (mb : multiboot) : outcome vmem :=
  let map_page st a := map_kernel st (VM_PAGE_ALIGN_DOWN a) (VM_PAGE_ALIGN_DOWN a) VM_FLAGS_KERNEL in
  let* st := map_page st info in
  let* st := if has_flag (mb_flags mb) kMultibootFlagCommandLine then map_page st (mb_cmdline mb) else Ok st in
  let* st := if has_flag (mb_flags mb) kMultibootFlagModules
             then vm_mapModules (Z.to_nat (mb_mods_count mb)) m st (mb_mods_addr mb) else Ok st in
  let* st := if has_flag (mb_flags mb) kMultibootFlagDrives
             then vm_mapDrives (Z.to_nat (mb_drives_length mb)) m st (mb_drives_addr mb) (u32 (mb_drives_addr mb + mb_drives_length mb))
             else Ok st in
  if has_flag (mb_flags mb) kMultibootFlagBootLoader then map_page st (mb_boot_loader_name mb) else Ok st.

(** The stack is mapped with a page for each of its bytes. *)
Definition vm_init (m : bootmem) (k : kernel_image) (st : vmem) (info : Z) (mb : multiboot) : outcome (bool * vmem) :=
  let st := Vmem (v_phys st) (v_pages st) (v_paging st) true (v_kernelDirectory st) (v_lock st) in
  let* st := vm_createKernelContext st in
  let* st := map_identity st (kernelBegin k) (VM_PAGE_COUNT (u32 (kernelEnd k - kernelBegin k))) in
  let* st := map_identity st 0xB8000 1 in
  let bottom := VM_PAGE_ALIGN_DOWN (stack_bottom k) in
  let top := VM_PAGE_ALIGN_UP (stack_top k) in
  let* st := map_identity st bottom (u32 (top - bottom)) in
  let* st := vm_mapMultiboot m st info mb in
  Ok (true, Vmem (v_phys st) (v_pages st) true false (v_kernelDirectory st) (v_lock st)).
