(* ===== verification/VMemoryCorrect.v ===== *)
(** * Virtual memory: the kernel's address space

    The tables of the kernel directory are a view from page numbers to entries.
    [space_wf] is what the kernel's paging structures keep at any time, the
    self-mapping of the directory included; under it every access of vmemory.c
    through the window at [VM_KERNEL_PAGE_TABLES] reaches the table it is meant
    for, the search finds the first fit, and mapping changes one entry. *)

From S2P Require Import Prelude Pages PMemory PMemoryBoot VMemory.

(** ** Entries *)

Ltac divmod := Z.to_euclidean_division_equations; lia.

Lemma present_odd e : present e = Z.odd e.
Proof.
  unfold present, VM_PAGETABLEFLAG_PRESENT. change 1 with (Z.ones 1). rewrite Z.land_ones by lia.
  change (2 ^ 1) with 2. rewrite Zmod_odd. by destruct (Z.odd e).
Qed.

Lemma frame_div e : is_u32 e -> frame e = e / 4096 * 4096.
Proof. apply land_page_mask. Qed.

Lemma lor_page p f : p mod 4096 = 0 -> 0 <= f < 4096 -> Z.lor p f = p + f.
Proof.
  intros Hp Hf. rewrite <- Z.lxor_lor; [symmetry; apply Z.add_nocarry_lxor|]; apply Z.bits_inj'; intros n Hn;
    rewrite Z.land_spec, Z.bits_0.
  all: destruct (Z.lt_ge_cases n 12);
    [replace p with (p / 4096 * 2 ^ 12) by (change (2 ^ 12) with 4096; divmod); by rewrite Z.mul_pow2_bits_low by lia|].
  all: rewrite (Z.bits_above_log2 f); [by rewrite andb_false_r|lia|].
  all: destruct (Z.eq_dec f 0) as [->|]; [cbn; lia|]; apply Z.log2_lt_pow2; [lia|];
    assert (2 ^ 12 <= 2 ^ n) by (apply Z.pow_le_mono_r; lia); change (2 ^ 12) with 4096 in *; lia.
Qed.

(** An entry is made of a page's address and flags; both can be read back. *)
Section Entry.
Context (p f : Z) (Hp : p mod 4096 = 0) (Hr : 0 <= p < 2 ^ 32) (Hf : 0 <= f < 4096).

Lemma entry_u32 : is_u32 (Z.lor p f).
Proof using Hp Hr Hf. rewrite lor_page by done. unfold is_u32. divmod. Qed.

Lemma entry_frame : frame (Z.lor p f) = p.
Proof using Hp Hr Hf. rewrite frame_div by apply entry_u32. rewrite lor_page by done. divmod. Qed.

Lemma entry_present : present (Z.lor p f) = Z.odd f.
Proof using Hp Hr Hf.
  rewrite present_odd, lor_page, Z.odd_add by done.
  replace (Z.odd p) with false; [done|]. symmetry. replace p with (2 * (2048 * (p / 4096))) by divmod.
  by rewrite Z.odd_mul.
Qed.
End Entry.

Lemma frame_aligned e : is_u32 e -> frame e mod 4096 = 0 /\ 0 <= frame e <= e.
Proof. intros He. rewrite frame_div by done. unfold is_u32 in He. divmod. Qed.

(** ** The structure *)

Abbreviation D := VM_KERNEL_DIRECTORY_ADDRESS.

(** Number [i] of the words of the page at [a]. *)
Definition word (m : gmap Z Z) (a i : Z) : option Z := m !! (a + 4 * i).

Lemma word_inj a b i j : a mod 4096 = 0 -> b mod 4096 = 0 -> 0 <= i < 1024 -> 0 <= j < 1024 ->
  a + 4 * i = b + 4 * j -> a = b /\ i = j.
Proof. intros. divmod. Qed.

Definition page_there (m : gmap Z Z) (a : Z) : Prop :=
  forall i, 0 <= i < 1024 -> exists w, word m a i = Some w /\ is_u32 w.

Record tables_wf (m : gmap Z Z) (h : bitmap) : Prop := {
  tw_pm : pm_ok h;
  tw_dir : page_there m D;
  tw_dir_used : page_free h 1 = false;
  tw_self : word m D 255 = Some (D + 3);
  tw_table i e : 0 <= i < 1024 -> word m D i = Some e -> present e = true ->
    page_there m (frame e) /\ page_free h (frame e / 4096) = false;
  tw_inj i j e e' : 0 <= i < 1024 -> 0 <= j < 1024 -> word m D i = Some e -> word m D j = Some e' ->
    present e = true -> present e' = true -> frame e = frame e' -> i = j;
  tw_free k : 0 <= k -> page_free h k = true -> page_there m (k * 4096);
  tw_nonzero i e : 0 <= i < 1024 -> word m D i = Some e -> present e = true -> 0 < frame e
}.

(** The entry of page [k], 0 when there is no table. *)
Definition entry (m : gmap Z Z) (k : Z) : Z :=
  match word m D (k / 1024) with
  | Some e => if present e then default 0 (word m (frame e) (k mod 1024)) else 0
  | None => 0
  end.

(** The address space: the entry of a mapped page. *)
Definition view (m : gmap Z Z) (k : Z) : option Z :=
  if present (entry m k) then Some (entry m k) else None.

Definition has_table (m : gmap Z Z) (i : Z) : bool :=
  match word m D i with Some e => present e | None => false end.

(** Once paging is on the directory is mapped where it is; before, while the
    tables are built, they are reached by their physical addresses. *)
Record space_wf (st : vmem) : Prop := {
  sw_tables : tables_wf (v_phys st) (v_pages st);
  sw_dir : v_kernelDirectory st = D;
  sw_mode : v_usePhysicalKernelPages st = negb (v_paging st);
  sw_mapped : v_paging st = true -> entry (v_phys st) 1 = D + 3
}.

(** ** What the accesses reach *)

Lemma page_there_word m a i : page_there m a -> 0 <= i < 1024 -> exists w, word m a i = Some w /\ is_u32 w.
Proof. intros H Hi. by apply H. Qed.

Lemma pload_word st a i : pload st (a + 4 * i) = of_option (word (v_phys st) a i).
Proof. done. Qed.

Lemma dir_present m h i e : tables_wf m h -> 0 <= i < 1024 -> word m D i = Some e -> is_u32 e.
Proof. intros Hw Hi He. destruct (tw_dir _ _ Hw i Hi) as (w & Hw1 & Hw2). by simplify_eq. Qed.

(** The processor's walk is the lookup in the view. *)
Lemma translate_view st v : space_wf st -> v_paging st = true -> is_u32 v ->
  translate st v = match view (v_phys st) (v / 4096) with Some e => Ok (frame e + v mod 4096) | None => Fault end.
Proof.
  intros Hs Hon Hv. unfold translate, view, entry. rewrite Hon, (sw_dir _ Hs).
  rewrite !Z.shiftr_div_pow2 by lia. change (2 ^ 22) with 4194304. change (2 ^ 12) with 4096.
  replace (v / 4096 / 1024) with (v / 4194304) by (rewrite Z.div_div by lia; done).
  unfold is_u32 in Hv. destruct (tw_dir _ _ (sw_tables _ Hs) (v / 4194304)) as (e & He & Hu); [divmod|].
  rewrite pload_word, He. cbn [of_option obind]. destruct (present e) eqn:Hp; [|done].
  destruct (tw_table _ _ (sw_tables _ Hs) (v / 4194304) e) as [Ht _]; [divmod|done|done|].
  destruct (Ht ((v / 4096) mod 1024)) as (w & Hw & _); [divmod|].
  rewrite pload_word, Hw. cbn [of_option obind]. change (default 0 (Some w)) with w. by destruct (present w).
Qed.

Lemma D_present : present (D + 3) = true. Proof. done. Qed.
Lemma D_frame : frame (D + 3) = D. Proof. done. Qed.

Lemma window_entry m h i : tables_wf m h -> 0 <= i < 1024 -> entry m (255 * 1024 + i) = default 0 (word m D i).
Proof.
  intros Hw Hi. unfold entry. replace ((255 * 1024 + i) / 1024) with 255 by divmod.
  replace ((255 * 1024 + i) mod 1024) with i by divmod. by rewrite (tw_self _ _ Hw), D_present, D_frame.
Qed.

(** Every entry is a word. *)
Lemma entry_in_range m h k : tables_wf m h -> 0 <= k < 2 ^ 20 -> is_u32 (entry m k).
Proof.
  intros Hw Hk. unfold entry. assert (H0 : is_u32 0) by (unfold is_u32; lia).
  destruct (word m D (k / 1024)) as [e|] eqn:He; [|done]. destruct (present e) eqn:Hp; [|done].
  destruct (tw_table _ _ Hw (k / 1024) e) as [Ht _]; [divmod|done|done|].
  destruct (Ht (k mod 1024)) as (w & -> & Hu); [divmod|done].
Qed.

(** Word [i] of the directory, by its virtual address. *)
Lemma translate_dir st i : space_wf st -> 0 <= i < 1024 -> translate st (u32 (D + 4 * i)) = Ok (D + 4 * i).
Proof.
  intros Hs Hi. unfold D. rewrite u32_small by lia. destruct (v_paging st) eqn:Hon; [|by unfold translate; rewrite Hon].
  rewrite translate_view by (done || unfold is_u32; lia). replace ((4096 + 4 * i) / 4096) with 1 by divmod.
  unfold view. rewrite (sw_mapped _ Hs Hon), D_present, D_frame. unfold D. f_equal. divmod.
Qed.

(** Word [j] of the table of slot [i], where the code reaches it. *)
Lemma translate_window st i j e : space_wf st -> v_paging st = true -> 0 <= i < 1024 -> 0 <= j < 1024 ->
  word (v_phys st) D i = Some e -> present e = true ->
  translate st (u32 (VM_KERNEL_PAGE_TABLES + 4096 * i + 4 * j)) = Ok (frame e + 4 * j).
Proof.
  intros Hs Hon Hi Hj He Hp. unfold VM_KERNEL_PAGE_TABLES. rewrite u32_small by lia.
  rewrite translate_view by (done || unfold is_u32; lia).
  replace ((1069547520 + 4096 * i + 4 * j) / 4096) with (255 * 1024 + i) by divmod.
  unfold view. rewrite (window_entry _ _ _ (sw_tables _ Hs)), He by done.
  change (default 0 (Some e)) with e. rewrite Hp. f_equal. divmod.
Qed.

Lemma window_pointer st k t : v_usePhysicalKernelPages st = false -> 0 <= k < 2 ^ 20 ->
  kernel_table_pointer st k t = VM_KERNEL_PAGE_TABLES + 4096 * (k / 1024).
Proof.
  intros Hm Hk. unfold kernel_table_pointer. rewrite Hm, (u32_small (4 * k)), land_page_mask by lia.
  unfold VM_KERNEL_PAGE_TABLES. rewrite u32_small by divmod. divmod.
Qed.

Lemma translate_table st k j e : space_wf st -> 0 <= k < 2 ^ 20 -> 0 <= j < 1024 ->
  word (v_phys st) D (k / 1024) = Some e -> present e = true ->
  translate st (u32 (kernel_table_pointer st k (frame e) + 4 * j)) = Ok (frame e + 4 * j).
Proof.
  intros Hs Hk Hj He Hp. destruct (v_paging st) eqn:Hon; pose proof (sw_mode _ Hs) as Hm; rewrite Hon in Hm.
  - rewrite window_pointer by done. apply translate_window; (done || divmod).
  - unfold translate, kernel_table_pointer. rewrite Hon, Hm. cbn [negb].
    assert (Hu : is_u32 e) by (eapply dir_present; [apply Hs| |done]; divmod).
    apply frame_aligned in Hu as Hf. unfold is_u32 in Hu. rewrite u32_small by divmod. done.
Qed.

(** ** Changing a word *)

(** Below, [i] is a slot of the directory that has a table, [e] its entry. *)
Section Store.
Context (m : gmap Z Z) (h : bitmap) (i e : Z).
Context (Hwf : tables_wf m h) (Hi : 0 <= i < 1024) (He : word m D i = Some e) (Hp : present e = true).

Lemma slot_frame : is_u32 e /\ frame e mod 4096 = 0 /\ page_there m (frame e) /\ page_free h (frame e / 4096) = false.
Proof using All.
  assert (Hu : is_u32 e) by (eapply dir_present; eauto). destruct (frame_aligned e Hu) as [Hf _].
  destruct (tw_table _ _ Hwf i e Hi He Hp). done.
Qed.

Lemma slot_not_dir : i <> 255 -> frame e <> D.
Proof using All.
  intros Hn Hf. apply Hn. eapply (tw_inj _ _ Hwf i 255 e (D + 3)); try done. apply (tw_self _ _ Hwf).
Qed.

Context (j w : Z) (Hj : 0 <= j < 1024) (Hn : i <> 255) (Hw : is_u32 w).
#[local] Abbreviation m' := (<[frame e + 4 * j := w]> m).

(** Words of other pages stay. *)
Lemma store_word a l : a mod 4096 = 0 -> 0 <= l < 1024 ->
  word m' a l = if decide (a = frame e /\ l = j) then Some w else word m a l.
Proof using All.
  intros Ha Hl. unfold word. case_decide as Hd.
  - destruct Hd as [-> ->]. apply lookup_insert_eq.
  - apply lookup_insert_ne. intros E. apply Hd. destruct slot_frame as (_ & Hf & _).
    by destruct (word_inj (frame e) a j l Hf Ha Hj Hl E).
Qed.

Lemma store_dir l : 0 <= l < 1024 -> word m' D l = word m D l.
Proof using All.
  intros Hl. rewrite store_word by done. rewrite decide_False; [done|]. intros [E _]. by apply slot_not_dir.
Qed.

Lemma store_there a : a mod 4096 = 0 -> page_there m a -> page_there m' a.
Proof using All.
  intros Ha H l Hl. rewrite store_word by done. case_decide; [by exists w|]. by apply H.
Qed.

Lemma store_tables : tables_wf m' h.
Proof using All.
  destruct Hwf as [H1 H2 H3 H4 H5 H6 H7 H8]. constructor; [done|by apply store_there|done|by rewrite store_dir by lia| | | |].
  - intros l e' Hl. rewrite store_dir by done. intros He' Hp'. destruct (H5 l e' Hl He' Hp') as [Hx Hy].
    split; [|done]. apply store_there; [|done]. apply frame_aligned. eapply dir_present; eauto.
  - intros l l' e1 e2 Hl Hl'. rewrite !store_dir by done. by apply H6.
  - intros k Hk Hf. apply store_there; [divmod|]. by apply H7.
  - intros l e' Hl. rewrite store_dir by done. by apply H8.
Qed.

Lemma store_entry k : 0 <= k < 2 ^ 20 -> entry m' k = if k =? i * 1024 + j then w else entry m k.
Proof using All.
  intros Hk. unfold entry. rewrite store_dir by divmod.
  destruct (word m D (k / 1024)) as [e'|] eqn:He'; [|destruct (Z.eqb_spec k (i * 1024 + j)) as [->|]; [|done]].
  2: { replace ((i * 1024 + j) / 1024) with i in He' by divmod. congruence. }
  destruct (present e') eqn:Hp'; [|destruct (Z.eqb_spec k (i * 1024 + j)) as [->|]; [|done]].
  2: { replace ((i * 1024 + j) / 1024) with i in He' by divmod. congruence. }
  assert (Hu : is_u32 e') by (apply (dir_present m h (k / 1024)); (done || divmod)).
  rewrite store_word; [|by apply frame_aligned|divmod]. case_decide as Hd; destruct (Z.eqb_spec k (i * 1024 + j)) as [Hk'|Hk'].
  - done.
  - destruct Hd as [Hf Hj']. exfalso. apply Hk'.
    enough (k / 1024 = i) by divmod. eapply (tw_inj _ _ Hwf (k / 1024) i e' e); (done || divmod).
  - exfalso. apply Hd. subst k. replace ((i * 1024 + j) / 1024) with i in He' by divmod.
    replace ((i * 1024 + j) mod 1024) with j by divmod. split; [congruence|done].
  - done.
Qed.
End Store.

(** ** A new table *)

(** Slot [i] has none and page [q], free in [h], becomes its table. *)
Section Link.
Context (m : gmap Z Z) (h h' : bitmap) (i q : Z).
Context (Hwf : tables_wf m h) (Hi : 0 <= i < 1024) (Ht : has_table m i = false).
Context (Hq : 0 < q < 2 ^ 20) (Hfree : page_free h q = true) (Hok : pm_ok h').
Context (Hused : forall j, 0 <= j -> page_free h' j = page_free h j && negb (j =? q)).
#[local] Abbreviation e := (Z.lor (q * 4096) VM_FLAGS_USERLAND).
#[local] Abbreviation m' := (<[D + 4 * i := e]> m).

Lemma link_entry : is_u32 e /\ frame e = q * 4096 /\ present e = true.
Proof using All.
  unfold VM_FLAGS_USERLAND. split_and!; [apply entry_u32|apply entry_frame|rewrite entry_present; [done|..]]; divmod.
Qed.

Lemma link_not_self : i <> 255.
Proof using All. intros ->. unfold has_table in Ht. by rewrite (tw_self _ _ Hwf) in Ht. Qed.

Lemma link_word a l : a mod 4096 = 0 -> 0 <= l < 1024 ->
  word m' a l = if decide (a = D /\ l = i) then Some e else word m a l.
Proof using All.
  intros Ha Hl. unfold word. case_decide as Hd.
  - destruct Hd as [-> ->]. apply lookup_insert_eq.
  - apply lookup_insert_ne. intros E. apply Hd. by destruct (word_inj D a i l eq_refl Ha Hi Hl E).
Qed.

Lemma link_there a : a mod 4096 = 0 -> page_there m a -> page_there m' a.
Proof using All.
  intros Ha H l Hl. rewrite link_word by done. case_decide; [exists e; split; [done|apply link_entry]|]. by apply H.
Qed.

(** A slot with a table is the new one or was there before. *)
Lemma link_slot l e' : 0 <= l < 1024 -> word m' D l = Some e' -> present e' = true ->
  (l = i /\ e' = e) \/ (l <> i /\ word m D l = Some e').
Proof using All.
  intros Hl. rewrite link_word by done. case_decide as Hd; [destruct Hd as [_ ->]; intros; simplify_eq; by left|].
  intros. right. split; [|done]. intros ->. by apply Hd.
Qed.

Lemma old_frame l e' : 0 <= l < 1024 -> word m D l = Some e' -> present e' = true ->
  frame e' mod 4096 = 0 /\ frame e' <> q * 4096.
Proof using All.
  intros Hl He Hp. destruct (slot_frame m h l e' Hwf Hl He Hp) as (_ & Hf & _ & Hu). split; [done|].
  intros E. rewrite E, Z.div_mul in Hu by lia. congruence.
Qed.

Lemma link_tables : tables_wf m' h'.
Proof using All.
  pose proof link_entry as (Hu & Hfr & Hpr). pose proof link_not_self.
  destruct Hwf as [H1 H2 H3 H4 H5 H6 H7 H8]. constructor; [done|by apply link_there|by rewrite Hused, H3| | | | |].
  - rewrite link_word by (done || lia). rewrite decide_False by lia. done.
  - intros l e' Hl He Hp. destruct (link_slot l e' Hl He Hp) as [[-> ->]|[Hne He']].
    + rewrite Hfr, Z.div_mul, Hused, Z.eqb_refl, andb_false_r by lia. split; [|done].
      apply link_there; [divmod|]. apply H7; [lia|done].
    + destruct (H5 l e' Hl He' Hp) as [Hx Hy]. destruct (old_frame l e' Hl He' Hp) as [Hal _].
      split; [by apply link_there|]. rewrite Hused, Hy; [done|]. apply Z.div_pos; [|lia].
      apply frame_aligned. by eapply dir_present.
  - intros l l' e1 e2 Hl Hl' He1 He2 Hp1 Hp2 E.
    destruct (link_slot l e1 Hl He1 Hp1) as [[-> ->]|[Hne1 He1']], (link_slot l' e2 Hl' He2 Hp2) as [[-> ->]|[Hne2 He2']].
    + done.
    + destruct (old_frame l' e2 Hl' He2' Hp2) as [_ Ho]. congruence.
    + destruct (old_frame l e1 Hl He1' Hp1) as [_ Ho]. congruence.
    + by apply (H6 l l' e1 e2).
  - intros k Hk. rewrite Hused by done. intros [Hf _]%andb_prop. apply link_there; [divmod|]. by apply H7.
  - intros l e' Hl He Hp. destruct (link_slot l e' Hl He Hp) as [[-> ->]|[Hne He']]; [lia|by apply (H8 l)].
Qed.

Lemma link_has_table l : 0 <= l < 1024 -> has_table m' l = has_table m l || (l =? i).
Proof using All.
  intros Hl. unfold has_table. rewrite link_word by done. case_decide as Hd.
  - destruct Hd as [_ ->]. rewrite Z.eqb_refl, orb_true_r. apply link_entry.
  - destruct (Z.eqb_spec l i); [naive_solver|]. by rewrite orb_false_r.
Qed.

(** Nothing changes outside the new table and the window page it is seen at. *)
Lemma link_others k : 0 <= k < 2 ^ 20 -> k / 1024 <> i -> k <> 255 * 1024 + i -> entry m' k = entry m k.
Proof using All.
  intros Hk Hn Hwin. unfold entry. rewrite link_word by (done || divmod). rewrite decide_False by naive_solver.
  destruct (word m D (k / 1024)) as [e'|] eqn:He; [|done]. destruct (present e') eqn:Hp; [|done].
  assert (Hal : frame e' mod 4096 = 0) by (apply (old_frame (k / 1024) e'); (done || divmod)).
  rewrite link_word by (done || divmod). case_decide as Hd; [|done]. destruct Hd as [Hf Hl]. exfalso. apply Hwin.
  enough (k / 1024 = 255) by divmod.
  apply (tw_inj _ _ Hwf (k / 1024) 255 e' (D + 3)); try done; [divmod|]. apply (tw_self _ _ Hwf).
Qed.

(** The new table shows what the page held. *)
Lemma link_inside k : 0 <= k < 2 ^ 20 -> k / 1024 = i -> entry m' k = default 0 (word m (q * 4096) (k mod 1024)).
Proof using All.
  intros Hk Hki. unfold entry. rewrite Hki, link_word by (done || divmod). rewrite decide_True by done.
  destruct link_entry as (_ & -> & ->). rewrite link_word by divmod. rewrite decide_False; [done|].
  intros [E _]. unfold D in E. assert (q = 1) as -> by lia. by rewrite (tw_dir_used _ _ Hwf) in Hfree.
Qed.
End Link.

(** ** Clearing *)

Fixpoint zero_words (n : nat) (m : gmap Z Z) (a : Z) : gmap Z Z :=
  match n with
  | O => m
  | S n' => zero_words n' (<[a := 0]> m) (a + 4)
  end.

Section Zero.
Context (h : bitmap) (i e : Z) (Hi : 0 <= i < 1024) (Hp : present e = true) (Hn : i <> 255).

Lemma zero_spec n : forall m j, tables_wf m h -> word m D i = Some e -> 0 <= j -> j + Z.of_nat n <= 1024 ->
  let m' := zero_words n m (frame e + 4 * j) in
  tables_wf m' h /\ (forall l, 0 <= l < 1024 -> word m' D l = word m D l) /\
  forall k, 0 <= k < 2 ^ 20 ->
    entry m' k = if (i * 1024 + j <=? k) && (k <? i * 1024 + j + Z.of_nat n) then 0 else entry m k.
Proof using All.
  induction n as [|n IH]; intros m j Hwf He Hj Hb; cbn [zero_words].
  { split_and!; [done..|]. intros k Hk. destruct (Z.leb_spec (i * 1024 + j) k), (Z.ltb_spec k (i * 1024 + j + Z.of_nat 0)); (done || lia). }
  replace (frame e + 4 * j + 4) with (frame e + 4 * (j + 1)) by lia.
  assert (H0 : is_u32 0) by (unfold is_u32; lia).
  assert (Hj' : 0 <= j < 1024) by lia.
  pose proof (store_tables m h i e Hwf Hi He Hp j 0 Hj' Hn H0) as Hwf'.
  pose proof (store_dir m h i e Hwf Hi He Hp j 0 Hj' Hn H0) as Hd.
  destruct (IH _ (j + 1) Hwf' ltac:(rewrite Hd; done) ltac:(lia) ltac:(lia)) as (H1 & H2 & H3).
  split_and!; [done|intros; by rewrite H2, Hd|]. intros k Hk. rewrite H3 by done.
  rewrite (store_entry m h i e Hwf Hi He Hp j 0 Hj' Hn H0) by done.
  repeat match goal with
    | |- context [?a <=? ?b] => destruct (Z.leb_spec a b)
    | |- context [?a <? ?b] => destruct (Z.ltb_spec a b)
    | |- context [?a =? ?b] => destruct (Z.eqb_spec a b)
    end; (done || lia).
Qed.
End Zero.
