(* ===== verification/VMemoryMap.v ===== *)
(** * Virtual memory: mapping in the kernel directory

    What [__vm_mapPage__noLock] and [__vm_mapPageRange__noLock] do to the
    kernel's address space, new tables included. *)

From S2P Require Import Prelude Pages PMemory PMemoryBoot VMemory VMemoryCorrect.

(** ** Accesses *)

Lemma vload_dir st i : space_wf st -> 0 <= i < 1024 ->
  exists e, word (v_phys st) D i = Some e /\ is_u32 e /\ vload st (v_kernelDirectory st + 4 * i) = Ok e.
Proof.
  intros Hs Hi. destruct (tw_dir _ _ (sw_tables _ Hs) i Hi) as (e & He & Hu). exists e. split_and!; [done..|].
  unfold vload. rewrite (sw_dir _ Hs), translate_dir by done. cbn [obind]. by rewrite pload_word, He.
Qed.

Lemma vstore_dir st i w : space_wf st -> 0 <= i < 1024 ->
  vstore st (v_kernelDirectory st + 4 * i) w = Ok (set_phys st (<[D + 4 * i := w]> (v_phys st))).
Proof.
  intros Hs Hi. unfold vstore. rewrite (sw_dir _ Hs), translate_dir by done. cbn [obind]. unfold pstore.
  rewrite decide_True; [done|]. destruct (tw_dir _ _ (sw_tables _ Hs) i Hi) as (e & He & _). by exists e.
Qed.

(** The state has the same mode; only memory and the page map differ. *)
Definition same_mode (st st' : vmem) : Prop :=
  v_paging st' = v_paging st /\ v_usePhysicalKernelPages st' = v_usePhysicalKernelPages st /\
  v_kernelDirectory st' = v_kernelDirectory st /\ v_lock st' = v_lock st.

Lemma same_mode_refl st : same_mode st st. Proof. done. Qed.
Lemma same_mode_trans st1 st2 st3 : same_mode st1 st2 -> same_mode st2 st3 -> same_mode st1 st3.
Proof. unfold same_mode. intuition congruence. Qed.

Lemma space_change st st' : space_wf st -> same_mode st st' -> tables_wf (v_phys st') (v_pages st') ->
  (v_paging st = true -> entry (v_phys st') 1 = entry (v_phys st) 1) -> space_wf st'.
Proof.
  intros [H1 H2 H3 H4] (E1 & E2 & E3 & _) Ht He. constructor; [done|congruence..|].
  rewrite E1. intros Hon. by rewrite He, H4.
Qed.

(** A page of the directory's slot [k / 1024], which has a table. *)
Section Table.
Context (k e : Z) (Hk : 0 <= k < 2 ^ 20) (Hn : k / 1024 <> 255) (Hp : present e = true).

Lemma vstore_table st j w : space_wf st -> word (v_phys st) D (k / 1024) = Some e -> 0 <= j < 1024 ->
  vstore st (kernel_table_pointer st k (frame e) + 4 * j) w = Ok (set_phys st (<[frame e + 4 * j := w]> (v_phys st))).
Proof using All.
  intros Hs He Hj. unfold vstore. rewrite translate_table by done. cbn [obind]. unfold pstore.
  rewrite decide_True; [done|]. destruct (tw_table _ _ (sw_tables _ Hs) (k / 1024) e) as [Ht _]; [divmod|done..|].
  destruct (Ht j Hj) as (w' & Hw & _). by exists w'.
Qed.

Lemma space_store st j w : space_wf st -> word (v_phys st) D (k / 1024) = Some e -> 0 <= j < 1024 -> is_u32 w ->
  (v_paging st = true -> k / 1024 * 1024 + j <> 1) -> space_wf (set_phys st (<[frame e + 4 * j := w]> (v_phys st))).
Proof using All.
  intros Hs He Hj Hw H1. assert (Hi : 0 <= k / 1024 < 1024) by divmod.
  eapply space_change; [done|done|eapply store_tables; eauto; apply Hs|]. intros Hon. cbn [v_phys set_phys].
  erewrite store_entry; [|apply Hs|done..|lia]. specialize (H1 Hon). by rewrite (proj2 (Z.eqb_neq _ _)) by lia.
Qed.

Lemma pointer_range st : space_wf st -> is_u32 e ->
  0 <= kernel_table_pointer st k (frame e) <= 2 ^ 32 - 4096.
Proof using All.
  intros Hs Hu. pose proof (frame_aligned e Hu). unfold is_u32 in Hu.
  destruct (v_usePhysicalKernelPages st) eqn:Hm.
  - unfold kernel_table_pointer. rewrite Hm. divmod.
  - rewrite window_pointer by done. unfold VM_KERNEL_PAGE_TABLES. divmod.
Qed.

Lemma clear_kernel_table n : forall st j, space_wf st -> word (v_phys st) D (k / 1024) = Some e ->
  0 <= j -> j + Z.of_nat n < 1024 -> (v_paging st = true -> k / 1024 <> 0) ->
  clear_words n st (kernel_table_pointer st k (frame e) + 4 * j) =
  Ok (set_phys st (zero_words n (v_phys st) (frame e + 4 * j))).
Proof using All.
  induction n as [|n IH]; intros st j Hs He Hj Hb Hon; cbn [clear_words zero_words]; [by destruct st|].
  assert (Hu : is_u32 e) by (apply (dir_present _ _ (k / 1024) _ (sw_tables _ Hs)); (done || divmod)).
  assert (Hj' : 0 <= j < 1024) by lia. assert (Hw : is_u32 0) by (unfold is_u32; lia).
  rewrite vstore_table by done. cbn [obind].
  assert (Hs' : space_wf (set_phys st (<[frame e + 4 * j := 0]> (v_phys st)))).
  { apply space_store; try done. intros Hon1. specialize (Hon Hon1). divmod. }
  pose proof (pointer_range st Hs Hu). rewrite u32_small by lia.
  replace (kernel_table_pointer st k (frame e) + 4 * j + 4) with
    (kernel_table_pointer (set_phys st (<[frame e + 4 * j := 0]> (v_phys st))) k (frame e) + 4 * (j + 1))
    by (change (kernel_table_pointer (set_phys st _)) with (kernel_table_pointer st); lia).
  rewrite IH; [| done | |lia|lia|done].
  - cbn [v_phys set_phys]. by replace (frame e + 4 * j + 4) with (frame e + 4 * (j + 1)) by lia.
  - cbn [v_phys set_phys]. rewrite (store_dir _ (v_pages st) (k / 1024)); (done || apply Hs || divmod).
Qed.
End Table.

(** ** One page *)

(** The page for a new table. *)
Definition alloc_page (h : bitmap) : Z * bitmap := pm_alloc h 1.

Lemma alloc_page_cases h : pm_ok h ->
  (exists q, 0 < q < 2 ^ 20 /\ fst (alloc_page h) = q * 4096 /\ page_free h q = true /\ pm_ok (snd (alloc_page h)) /\
     forall j, 0 <= j -> page_free (snd (alloc_page h)) j = page_free h j && negb (j =? q)) \/
  alloc_page h = (0, h).
Proof.
  intros Hok. unfold alloc_page. rewrite pm_alloc_limit.
  destruct (allocLimit_cases h 0 1 Hok ltac:(lia) ltac:(lia)) as [(q & Hq & Hb & Hfr & Ha)|[Ha _]]; [left|by right].
  rewrite Ha. exists q. destruct Hok as [Hwf H0].
  destruct (markUsedRange_spec (Z.to_nat 1) h q Hwf ltac:(lia) ltac:(lia)) as [Hwf' Hfree].
  destruct Hfr as (_ & Hrun & _). cbn [fst snd]. split_and!; [lia|lia|done| | |].
  - by apply (run_no_hole _ _ _ _ Hrun); lia.
  - split; [done|]. rewrite Hfree by lia. by rewrite H0.
  - intros j Hj. rewrite Hfree by lia. f_equal. f_equal. unfold in_range.
    destruct (Z.leb_spec q j), (Z.ltb_spec j (q + Z.of_nat (Z.to_nat 1))), (Z.eqb_spec j q); (done || lia).
Qed.

(** A page whose entry mapping page [k] may leave with what the new table's
    frame held before: only the first quarter of a table is cleared. *)
Definition stale (m : gmap Z Z) (k j : Z) : Prop :=
  has_table m (k / 1024) = false /\ j / 1024 = k / 1024 /\ 256 <= j mod 1024.

(** A page of physical memory that is handed out and holds neither the
    directory nor a table. *)
Definition plain (st : vmem) (q : Z) : Prop :=
  0 <= q /\ page_free (v_pages st) q = false /\ q * 4096 <> D /\
  forall i e, 0 <= i < 1024 -> word (v_phys st) D i = Some e -> present e = true -> frame e <> q * 4096.

(** Such a page stays one and keeps its words. *)
Definition keeps_plain (st st' : vmem) : Prop := forall q, plain st q ->
  plain st' q /\ forall i, 0 <= i < 1024 -> word (v_phys st') (q * 4096) i = word (v_phys st) (q * 4096) i.

Lemma keeps_plain_trans st1 st2 st3 : keeps_plain st1 st2 -> keeps_plain st2 st3 -> keeps_plain st1 st3.
Proof.
  intros H1 H2 q Hq. destruct (H1 q Hq) as [Hq2 E1], (H2 q) as [Hq3 E2]; [done|]. split; [done|]. intros i Hi. by rewrite E2, E1.
Qed.

(** Mapping page [k] with the entry [w]. *)
Record map_effect (st st' : vmem) (k w : Z) : Prop := {
  me_space : space_wf st';
  me_mode : same_mode st st';
  me_entry : entry (v_phys st') k = w;
  me_others j : 0 <= j < 2 ^ 20 -> j <> k -> j / 1024 <> 255 -> ~ stale (v_phys st) k j ->
    entry (v_phys st') j = entry (v_phys st) j;
  me_tables l : 0 <= l < 1024 -> has_table (v_phys st') l = has_table (v_phys st) l || (l =? k / 1024);
  me_dir l : 0 <= l < 1024 -> has_table (v_phys st) l = true -> word (v_phys st') D l = word (v_phys st) D l;
  me_pages : v_pages st' = if has_table (v_phys st) (k / 1024) then v_pages st else snd (alloc_page (v_pages st));
  me_plain : keeps_plain st st'
}.

Definition mappable (st : vmem) (k : Z) : Prop :=
  0 < k < 2 ^ 20 /\ k / 1024 <> 255 /\ (v_paging st = true -> k <> 1).

Definition good_target (p flags : Z) : Prop :=
  0 <= p < 2 ^ 32 /\ p mod 4096 = 0 /\ 0 <= flags < 4096 /\ (0 < p \/ flags = 0).

Lemma map_guards_pass p k flags : 0 < k -> good_target p flags -> map_guards p (k * 4096) flags = Ok tt.
Proof.
  intros Hk (_ & Hp & _ & Hz). unfold map_guards, page_aligned. change VM_PAGE_SIZE with 4096.
  rewrite (proj2 (Z.ltb_lt _ _)), Z.mod_mul, Hp by lia. cbn [obind vm_assert Z.eqb].
  destruct Hz as [Hz| ->]; [rewrite (proj2 (Z.ltb_lt _ _)) by lia|rewrite orb_true_r]; done.
Qed.

Lemma page_slot k : k * 4096 / VM_PAGE_SIZE = k.
Proof. change VM_PAGE_SIZE with 4096. by rewrite Z.div_mul by lia. Qed.

Section MapPage.
Context (st : vmem) (p k flags : Z).
Context (Hs : space_wf st) (Hk : mappable st k) (Ht : good_target p flags).
#[local] Abbreviation w := (Z.lor p flags).
#[local] Abbreviation m := (v_phys st).

Lemma target_u32 : is_u32 w.
Proof using Ht. destruct Ht as (? & ? & ? & _). by apply entry_u32. Qed.

(** The table is there. *)
Lemma map_present e : word m D (k / 1024) = Some e -> present e = true ->
  map_kernel st p (k * 4096) flags = Ok (set_phys st (<[frame e + 4 * (k mod 1024) := w]> m)) /\
  map_effect st (set_phys st (<[frame e + 4 * (k mod 1024) := w]> m)) k w.
Proof using All.
  intros He Hp. destruct Hk as (Hk0 & Hk1 & Hk2). pose proof target_u32 as Hw.
  assert (Hi : 0 <= k / 1024 < 1024) by divmod. assert (Hj : 0 <= k mod 1024 < 1024) by divmod.
  destruct (vload_dir st (k / 1024) Hs Hi) as (e' & He' & Hu & Hl). assert (e' = e) as -> by congruence.
  split.
  - unfold map_kernel. rewrite map_guards_pass by (done || lia). cbn [obind]. rewrite page_slot.
    change VM_DIRECTORY_LENGTH with 1024. change VM_PAGETABLE_LENGTH with 1024. rewrite Hl. cbn [obind]. rewrite Hp.
    cbn [negb obind]. apply vstore_table; (done || lia).
  - pose proof (store_entry m _ _ _ (sw_tables _ Hs) Hi He Hp (k mod 1024) w Hj Hk1 Hw) as Hse.
    constructor; cbn [v_phys v_pages set_phys].
    + apply (space_store k); (done || lia || (intros Hon; specialize (Hk2 Hon); divmod)).
    + done.
    + rewrite Hse by lia. by rewrite (proj2 (Z.eqb_eq _ _)) by divmod.
    + intros j Hj' Hne _ _. rewrite Hse by lia. by rewrite (proj2 (Z.eqb_neq _ _)) by divmod.
    + intros l Hl'. unfold has_table.
      rewrite (store_dir m _ _ _ (sw_tables _ Hs) Hi He Hp (k mod 1024) w Hj Hk1 Hw) by done.
      destruct (Z.eqb_spec l (k / 1024)) as [->|]; [by rewrite He, Hp|by rewrite orb_false_r].
    + intros l Hl' _. by apply (store_dir m _ _ _ (sw_tables _ Hs) Hi He Hp (k mod 1024) w Hj Hk1 Hw).
    + unfold has_table. by rewrite He, Hp.
    + intros q (Hq & Hu' & HD & Hfr). cbn [v_phys v_pages set_phys].
      pose proof (store_dir m _ _ _ (sw_tables _ Hs) Hi He Hp (k mod 1024) w Hj Hk1 Hw) as Hdir. split.
      * split_and!; [done..|]. intros i' e'' Hi'. cbn [v_phys set_phys]. rewrite Hdir by done. by apply Hfr.
      * intros i' Hi'. rewrite (store_word m _ _ _ (sw_tables _ Hs) Hi He Hp (k mod 1024) w Hj Hk1 Hw) by (done || divmod).
        rewrite decide_False; [done|]. intros [Ex _]. by apply (Hfr (k / 1024) e).
Qed.
End MapPage.

(** Clearing words of a page leaves the other pages alone. *)
Lemma zero_other n : forall m a j b l, a mod 4096 = 0 -> b mod 4096 = 0 -> a <> b -> 0 <= j -> j + Z.of_nat n <= 1024 ->
  0 <= l < 1024 -> word (zero_words n m (a + 4 * j)) b l = word m b l.
Proof.
  induction n as [|n IH]; intros m a j b l Ha Hb Hne Hj Hn Hl; [done|]. cbn [zero_words].
  replace (a + 4 * j + 4) with (a + 4 * (j + 1)) by lia. rewrite IH by (done || lia).
  unfold word. apply lookup_insert_ne. intros E. destruct (word_inj a b j l Ha Hb ltac:(lia) Hl E). done.
Qed.

(** There is none yet: page [q] becomes the table. *)
Section Fresh.
Context (st : vmem) (p k flags : Z).
Context (Hs : space_wf st) (Hk : mappable st k) (Ht : good_target p flags).
#[local] Abbreviation w := (Z.lor p flags).
#[local] Abbreviation m := (v_phys st).
Context (q : Z) (h' : bitmap) (e0 : Z).
Context (He0 : word m D (k / 1024) = Some e0) (Hp0 : present e0 = false).
Context (Ha : alloc_page (v_pages st) = (q * 4096, h')) (Hq : 0 < q < 2 ^ 20).
Context (Hfree : page_free (v_pages st) q = true) (Hok : pm_ok h').
Context (Hused : forall j, 0 <= j -> page_free h' j = page_free (v_pages st) j && negb (j =? q)).

#[local] Abbreviation e := (Z.lor (q * 4096) VM_FLAGS_USERLAND).
#[local] Abbreviation linked := (<[D + 4 * (k / 1024) := e]> m).
#[local] Abbreviation cleared := (zero_words 256 linked (q * 4096 + 4 * 0)).
#[local] Abbreviation st1 := (set_phys (set_pages st h') linked).
#[local] Abbreviation st2 := (set_phys (set_pages st h') cleared).

Lemma fresh_table_slot : 0 <= k / 1024 < 1024 /\ 0 <= k mod 1024 < 1024 /\ has_table m (k / 1024) = false.
Proof using All. destruct Hk as (? & _). unfold has_table. rewrite He0. split_and!; (done || divmod). Qed.

Lemma fresh_not_zero : v_paging st = true -> k / 1024 <> 0.
Proof using All.
  intros Hon E. pose proof (sw_mapped _ Hs Hon) as H1. unfold entry in H1. change (1 / 1024) with 0 in H1.
  rewrite E in He0. by rewrite He0, Hp0 in H1.
Qed.

Lemma linked_tables : tables_wf linked h'.
Proof using All. destruct fresh_table_slot as (Hi & _ & Hn). by apply (link_tables m (v_pages st) h' (k / 1024) q (sw_tables _ Hs)). Qed.

Lemma linked_space : space_wf st1.
Proof using All.
  destruct fresh_table_slot as (Hi & _ & Hn). pose proof linked_tables. apply (space_change st); try done.
  intros Hon. pose proof (fresh_not_zero Hon). cbn [v_phys set_phys].
  apply (link_others m (v_pages st) h' (k / 1024) q (sw_tables _ Hs)); try done; divmod.
Qed.

Lemma linked_slot : word linked D (k / 1024) = Some e.
Proof using All. apply lookup_insert_eq. Qed.

Lemma fresh_entry : is_u32 e /\ frame e = q * 4096 /\ present e = true.
Proof using All. unfold VM_FLAGS_USERLAND. split_and!; [apply entry_u32|apply entry_frame|rewrite entry_present; [done|..]]; divmod. Qed.

Lemma cleared_spec : tables_wf cleared h' /\ (forall l, 0 <= l < 1024 -> word cleared D l = word linked D l) /\
  forall j, 0 <= j < 2 ^ 20 ->
    entry cleared j = if (k / 1024 * 1024 <=? j) && (j <? k / 1024 * 1024 + 256) then 0 else entry linked j.
Proof using All.
  destruct fresh_table_slot as (Hi & _ & Hn), fresh_entry as (_ & Hf & Hp). destruct Hk as (_ & H255 & _).
  destruct (zero_spec h' (k / 1024) e Hi Hp H255 256 linked 0 linked_tables linked_slot ltac:(lia) ltac:(lia)) as (H1 & H2 & H3).
  rewrite Hf in H1, H2, H3. split_and!; [done..|]. intros j Hj. rewrite H3 by done. by rewrite Z.add_0_r.
Qed.

Lemma cleared_space : space_wf st2.
Proof using All.
  destruct cleared_spec as (H1 & _ & H3). apply (space_change st1); [apply linked_space|done|done|].
  intros Hon. pose proof (fresh_not_zero Hon). destruct fresh_table_slot as (Hi & _). cbn [v_phys set_phys]. rewrite H3 by lia.
  destruct (Z.leb_spec (k / 1024 * 1024) 1); [exfalso; lia|done].
Qed.

Lemma map_fresh_runs : map_kernel st p (k * 4096) flags = map_kernel st2 p (k * 4096) flags.
Proof using All.
  destruct fresh_table_slot as (Hi & Hj & Hn), fresh_entry as (Hu & Hf & Hp). destruct Hk as (Hk0 & H255 & Hk2).
  destruct cleared_spec as (_ & Hdir & _).
  destruct (vload_dir st (k / 1024) Hs Hi) as (e1 & He1 & _ & Hl1). assert (e1 = e0) as -> by congruence.
  destruct (vload_dir st2 (k / 1024) cleared_space Hi) as (e2 & He2 & _ & Hl2).
  assert (e2 = e) as -> by (cbn [v_phys set_phys] in He2; rewrite Hdir, linked_slot in He2 by done; congruence).
  unfold map_kernel. rewrite map_guards_pass by (done || lia). cbn [obind]. rewrite page_slot.
  change VM_DIRECTORY_LENGTH with 1024. rewrite Hl1, Hl2. cbn [obind]. rewrite Hp0, Hp. cbn [negb obind].
  unfold alloc_page in Ha. rewrite Ha.
  assert (Hsp : space_wf st1) by apply linked_space.
  unfold vstore at 1.
  change (translate (set_pages st h')) with (translate st).
  rewrite (sw_dir _ Hs), translate_dir by done. cbn [obind]. unfold pstore at 1.
  rewrite decide_True by (exists e0; done). cbn [obind v_phys set_pages].
  change (set_phys (set_pages st h') linked) with st1.
  pose proof (clear_kernel_table k e ltac:(lia) H255 Hp 256 st1 0 linked_space linked_slot ltac:(lia) ltac:(lia) fresh_not_zero) as Hc.
  rewrite Hf, Z.add_0_r in Hc. unfold memset_entries.
  replace (clear_words 256 st1 (kernel_table_pointer st1 k (q * 4096))) with (Ok st2) by (symmetry; exact Hc).
  cbn [obind]. by rewrite Hf.
Qed.

Lemma fresh_plain : keeps_plain st st2.
Proof using All.
  destruct fresh_table_slot as (Hi & _ & Hn), fresh_entry as (Hu & Hf & Hp). destruct cleared_spec as (_ & Hdir & _).
  intros q' (Hq' & Hu' & HD & Hfr). assert (Hne : q' <> q) by (intros ->; congruence).
  assert (Hnq : q * 4096 <> q' * 4096) by lia. split.
  - split_and!; [done|cbn [v_pages set_phys set_pages]; by rewrite Hused, Hu'|done|]. intros l e' Hl. cbn [v_phys set_phys].
    rewrite Hdir by done. intros He' Hp'.
    destruct (link_slot m (v_pages st) h' (k / 1024) q (sw_tables _ Hs) Hi Hn Hq Hfree Hok Hused l e' Hl He' Hp') as [[_ ->]|[_ He'']].
    + by rewrite Hf.
    + by apply (Hfr l).
  - intros l Hl. cbn [v_phys set_phys]. rewrite zero_other by (done || divmod).
    rewrite (link_word m (v_pages st) h' (k / 1024) q (sw_tables _ Hs) Hi Hn Hq Hfree Hok Hused) by (done || divmod).
    rewrite decide_False; [done|]. by intros [? _].
Qed.

Lemma map_fresh : exists st', map_kernel st p (k * 4096) flags = Ok st' /\ map_effect st st' k w.
Proof using All.
  destruct fresh_table_slot as (Hi & Hj & Hn), fresh_entry as (Hu & Hf & Hp). destruct cleared_spec as (_ & Hdir & Hent).
  assert (Hs2 : word (v_phys st2) D (k / 1024) = Some e) by (cbn [v_phys set_phys]; by rewrite Hdir, linked_slot).
  rewrite map_fresh_runs.
  destruct (map_present st2 p k flags cleared_space Hk Ht e Hs2 Hp) as [Hrun [H1 H2 H3 H4 H5 H7 H6 H8]].
  eexists. split; [exact Hrun|]. constructor; [done|done|done| | | | |eapply keeps_plain_trans; [apply fresh_plain|done]].
  - intros j Hj' Hne H255 Hst. assert (Hns : ~ stale (v_phys st2) k j) by (intros [Hx _]; unfold has_table in Hx; rewrite Hs2, Hp in Hx; discriminate).
    rewrite (H4 j Hj' Hne H255 Hns).
    cbn [v_phys set_phys]. rewrite Hent by done.
    assert (Hlo : j / 1024 <> k / 1024 -> entry linked j = entry m j).
    { intros Hne'. assert (Hx : j <> 255 * 1024 + k / 1024) by (clear - H255 Hi; divmod).
      exact (link_others m (v_pages st) h' (k / 1024) q (sw_tables _ Hs) Hi Hn Hq Hfree Hok Hused j Hj' Hne' Hx). }
    destruct (Z.eq_dec (j / 1024) (k / 1024)) as [E|E].
    + assert (j mod 1024 < 256) by (destruct (Z.lt_ge_cases (j mod 1024) 256); [done|exfalso; by apply Hst]).
      rewrite (proj2 (Z.leb_le _ _)), (proj2 (Z.ltb_lt _ _)) by divmod. cbn [andb].
      unfold entry. by rewrite E, He0, Hp0.
    + rewrite Hlo by done. destruct (Z.leb_spec (k / 1024 * 1024) j), (Z.ltb_spec j (k / 1024 * 1024 + 256)); try done. divmod.
  - intros l Hl. rewrite H5 by done. assert (E : has_table (v_phys st2) l = has_table linked l) by (unfold has_table; cbn [v_phys set_phys]; by rewrite Hdir).
    rewrite E, (link_has_table m (v_pages st) h' (k / 1024) q (sw_tables _ Hs) Hi Hn Hq Hfree Hok Hused l Hl). by rewrite <- orb_assoc, orb_diag.
  - intros l Hl Hx. assert (Hli : l <> k / 1024) by (intros ->; congruence).
    assert (Hsame : word (v_phys st2) D l = word m D l).
    { cbn [v_phys set_phys]. rewrite Hdir by done. unfold word. apply lookup_insert_ne. clear - Hli. lia. }
    rewrite H7; [done|done|]. unfold has_table. by rewrite Hsame.
  - rewrite Hn. rewrite H6. unfold has_table. rewrite Hs2, Hp. cbn [v_pages set_phys set_pages]. by rewrite Ha.
Qed.
End Fresh.

(** Mapping a page: it works when its table is there or a page for one is. *)
Lemma map_spec st p k flags : space_wf st -> mappable st k -> good_target p flags ->
  has_table (v_phys st) (k / 1024) = true \/ fst (alloc_page (v_pages st)) <> 0 ->
  exists st', map_kernel st p (k * 4096) flags = Ok st' /\ map_effect st st' k (Z.lor p flags).
Proof.
  intros Hs Hk Ht Hroom. assert (Hi : 0 <= k / 1024 < 1024) by (destruct Hk as (? & _); divmod).
  destruct (vload_dir st (k / 1024) Hs Hi) as (e & He & _). destruct (present e) eqn:Hp.
  { eexists. by apply map_present. }
  destruct Hroom as [Hroom|Hroom]; [unfold has_table in Hroom; rewrite He in Hroom; congruence|].
  destruct (alloc_page_cases (v_pages st)) as [(q & Hq & Ha & Hfree & Hok & Hused)|Ha]; [apply Hs| |by rewrite Ha in Hroom].
  apply (map_fresh st p k flags Hs Hk Ht q (snd (alloc_page (v_pages st))) e); try done.
  rewrite <- Ha. apply surjective_pairing.
Qed.
