(* ===== verification/VMemorySpace.v ===== *)
(** * Virtual memory: the kernel's address space as a whole

    Ranges, the search for free pages, and allocation and release in the kernel
    directory. *)

From S2P Require Import Prelude Pages PMemory PMemoryBoot VMemory VMemoryCorrect VMemoryMap.

(** ** Tables still to be made *)

(** [n] pages can be had from the page allocator, one after the other. *)
Fixpoint can_alloc (n : nat) (h : bitmap) : Prop :=
  match n with
  | O => True
  | S n' => fst (alloc_page h) <> 0 /\ can_alloc n' (snd (alloc_page h))
  end.

(** The slots from [s] to [t] that have no table. *)
Definition missing (m : gmap Z Z) (s t : Z) : nat :=
  length (filter (fun l => has_table m l = false) (seqZ s (t - s + 1))).

Lemma can_alloc_le n n' h : (n <= n')%nat -> can_alloc n' h -> can_alloc n h.
Proof.
  revert n h. induction n' as [|n' IH]; intros [|n] h Hle; cbn [can_alloc]; try done; [lia|].
  intros [H1 H2]. split; [done|]. apply IH; [lia|done].
Qed.

Lemma missing_cons m s t : s <= t -> missing m s t = ((if has_table m s then 0 else 1) + missing m (s + 1) t)%nat.
Proof.
  intros Hst. unfold missing. rewrite seqZ_cons by lia. rewrite filter_cons. unfold Z.succ, Z.pred.
  replace (t - s + 1 + -1) with (t - (s + 1) + 1) by lia.
  destruct (has_table m s); [rewrite decide_False by done|rewrite decide_True by done]; done.
Qed.

Lemma missing_le m m' s t : (forall l, s <= l <= t -> has_table m l = true -> has_table m' l = true) ->
  (missing m' s t <= missing m s t)%nat.
Proof.
  intros H. unfold missing.
  assert (Hx : forall l, l ∈ seqZ s (t - s + 1) -> s <= l <= t) by (intros l Hl%elem_of_seqZ; lia).
  revert Hx. generalize (seqZ s (t - s + 1)) as ls. induction ls as [|l ls IH]; intros Hx; [done|].
  rewrite !filter_cons. specialize (IH ltac:(intros; apply Hx; by constructor)).
  specialize (H l ltac:(apply Hx; constructor)).
  destruct (has_table m l), (has_table m' l); repeat case_decide; cbn [length]; try done; lia || by specialize (H eq_refl).
Qed.

(** ** Ranges *)

Definition range_end (k : Z) (n : nat) : Z := k + Z.of_nat n - 1.

(** The pages that a range may leave with stale entries. *)
Definition range_stale (m : gmap Z Z) (k : Z) (n : nat) (j : Z) : Prop :=
  has_table m (j / 1024) = false /\ k / 1024 <= j / 1024 <= range_end k n / 1024 /\ 256 <= j mod 1024.

Record range_effect (st st' : vmem) (k : Z) (n : nat) (w : Z -> Z) : Prop := {
  re_space : space_wf st';
  re_mode : same_mode st st';
  re_entry d : 0 <= d < Z.of_nat n -> entry (v_phys st') (k + d) = w d;
  re_others j : 0 <= j < 2 ^ 20 -> (j < k \/ k + Z.of_nat n <= j) -> j / 1024 <> 255 -> ~ range_stale (v_phys st) k n j ->
    entry (v_phys st') j = entry (v_phys st) j;
  re_tables l : 0 <= l < 1024 -> has_table (v_phys st') l =
    has_table (v_phys st) l || ((k / 1024 <=? l) && (l <=? range_end k n / 1024));
  re_dir l : 0 <= l < 1024 -> has_table (v_phys st) l = true -> word (v_phys st') D l = word (v_phys st) D l;
  re_pages : missing (v_phys st) (k / 1024) (range_end k n / 1024) = 0%nat -> v_pages st' = v_pages st;
  re_plain : keeps_plain st st'
}.

(** A range in which every page may be mapped. *)
Definition mappable_range (st : vmem) (k : Z) (n : nat) : Prop :=
  forall d, 0 <= d < Z.of_nat n -> mappable st (k + d).

Lemma mappable_mode st st' k : same_mode st st' -> mappable st k -> mappable st' k.
Proof. intros (E & _) (H1 & H2 & H3). split_and!; [lia..|done|]. by rewrite E. Qed.

(** One page, then the rest. *)
Lemma range_step st st1 st2 k n w : (0 < n)%nat -> 0 < k -> k + Z.of_nat n < 2 ^ 20 ->
  (forall d, 0 <= d < Z.of_nat (S n) -> (k + d) / 1024 <> 255) ->
  map_effect st st1 k (w 0) -> range_effect st1 st2 (k + 1) n (fun d => w (d + 1)) -> range_effect st st2 k (S n) w.
Proof.
  intros Hn Hk Hb H255 [M1 M2 M3 M4 M5 M7 M6 M8] [R1 R2 R3 R4 R5 R7 R6 R8].
  assert (Hend : range_end (k + 1) n = range_end k (S n)) by (unfold range_end; lia).
  rewrite Hend in *. assert (He : k + 1 <= range_end k (S n)) by (unfold range_end; lia).
  assert (Hs : k / 1024 <= (k + 1) / 1024 <= k / 1024 + 1) by divmod.
  assert (Hle : (k + 1) / 1024 <= range_end k (S n) / 1024) by (apply Z.div_le_mono; lia).
  assert (Htop : range_end k (S n) / 1024 < 1024) by (unfold range_end in *; divmod).
  constructor; [done|by eapply same_mode_trans| | | | | |by eapply keeps_plain_trans].
  - intros d Hd. destruct (Z.eq_dec d 0) as [->|].
    + rewrite Z.add_0_r, R4; [done|lia|lia| |].
      * specialize (H255 0). rewrite Z.add_0_r in H255. apply H255. lia.
      * intros [Hx _]. rewrite M5, Z.eqb_refl, orb_true_r in Hx by divmod. done.
    + replace (k + d) with (k + 1 + (d - 1)) by lia. rewrite R3 by lia. f_equal. lia.
  - intros j Hj Hout Hj255 Hst. rewrite R4; [apply M4; [lia|lia|done|]|lia|lia|done|].
    + intros (Hx & Hy & Hz). apply Hst. split_and!; [by rewrite Hy|lia|lia|done].
    + intros (Hx & Hy & Hz). apply Hst. rewrite Hend in Hy. rewrite M5 in Hx by divmod. apply orb_false_elim in Hx as [Hx _].
      split_and!; (done || lia).
  - intros l Hl. rewrite R5, M5 by done. rewrite <- orb_assoc. f_equal.
    destruct (Z.eqb_spec l (k / 1024)), (Z.leb_spec ((k + 1) / 1024) l), (Z.leb_spec (k / 1024) l), (Z.leb_spec l (range_end k (S n) / 1024)); (done || lia).
  - intros l Hl Hx. rewrite R7, M7; [done|done|done|done|]. by rewrite M5, Hx.
  - intros Hm. rewrite missing_cons in Hm by lia. destruct (has_table (v_phys st) (k / 1024)) eqn:Ht; [|done].
    rewrite R6; [done|].
    assert (Hm1 : missing (v_phys st1) (k / 1024) (range_end k (S n) / 1024) = 0%nat).
    { enough (missing (v_phys st1) (k / 1024) (range_end k (S n) / 1024) <= missing (v_phys st) (k / 1024) (range_end k (S n) / 1024))%nat by
        (rewrite (missing_cons (v_phys st)) in H by lia; rewrite Ht in H; lia).
      apply missing_le. intros l Hl Hx. rewrite M5, Hx by (pose proof (Z.div_pos k 1024); lia). done. }
    destruct (Z.eq_dec ((k + 1) / 1024) (k / 1024)) as [->|]; [done|].
    replace ((k + 1) / 1024) with (k / 1024 + 1) by lia. rewrite missing_cons in Hm1 by lia. lia.
Qed.

Lemma range_ext st st' k n w w' : (forall d, 0 <= d < Z.of_nat n -> w d = w' d) ->
  range_effect st st' k n w -> range_effect st st' k n w'.
Proof. intros E [R1 R2 R3 R4 R5 R7 R6 R8]. constructor; try done. intros d Hd. by rewrite R3, E. Qed.

Lemma range_one st st' k w : 0 < k < 2 ^ 20 -> map_effect st st' k (w 0) -> range_effect st st' k 1 w.
Proof.
  intros Hk [M1 M2 M3 M4 M5 M7 M6 M8]. assert (He : range_end k 1 = k) by (unfold range_end; lia).
  constructor; [done..| | | |done| |done].
  - intros d Hd. assert (d = 0) as -> by lia. by rewrite Z.add_0_r.
  - intros j Hj Hout H255 Hst. apply M4; [lia|lia|done|]. intros (Hx & Hy & Hz). apply Hst.
    unfold range_stale. rewrite He, Hy. split_and!; (done || lia).
  - intros l Hl. rewrite M5, He by done. f_equal.
    destruct (Z.eqb_spec l (k / 1024)), (Z.leb_spec (k / 1024) l), (Z.leb_spec l (k / 1024)); (done || lia).
  - rewrite He, missing_cons by lia. rewrite M6. by destruct (has_table (v_phys st) (k / 1024)).
Qed.

(** The rest of a range needs no more pages for tables than are left. *)
Lemma missing_step st st1 k n w : 0 < k -> k + Z.of_nat n < 2 ^ 20 -> (0 < n)%nat -> map_effect st st1 k w ->
  can_alloc (missing (v_phys st) (k / 1024) (range_end k (S n) / 1024)) (v_pages st) ->
  can_alloc (missing (v_phys st1) ((k + 1) / 1024) (range_end (k + 1) n / 1024)) (v_pages st1).
Proof.
  intros Hk Hb Hn [M1 M2 M3 M4 M5 M7 M6 M8]. replace (range_end (k + 1) n) with (range_end k (S n)) by (unfold range_end; lia).
  set (t := range_end k (S n) / 1024).
  assert (Ht : (k + 1) / 1024 <= t < 1024) by (subst t; unfold range_end; split; [apply Z.div_le_mono; lia|divmod]).
  assert (Hs : k / 1024 <= (k + 1) / 1024 <= k / 1024 + 1) by divmod. assert (Hs0 : 0 <= k / 1024) by divmod.
  assert (Hsub : (missing (v_phys st1) (k / 1024 + 1) t <= missing (v_phys st) (k / 1024 + 1) t)%nat).
  { apply missing_le. intros l Hl Hx. by rewrite M5, Hx by lia. }
  assert (Hrest : missing (v_phys st1) ((k + 1) / 1024) t = missing (v_phys st1) (k / 1024 + 1) t).
  { destruct (Z.eq_dec ((k + 1) / 1024) (k / 1024)) as [->|]; [|f_equal; lia].
    rewrite missing_cons by lia. by rewrite M5, Z.eqb_refl, orb_true_r by lia. }
  rewrite Hrest, missing_cons by lia. rewrite M6. destruct (has_table (v_phys st) (k / 1024)); intros Hc.
  - by eapply can_alloc_le.
  - eapply can_alloc_le; [done|]. apply Hc.
Qed.

Lemma map_range st k n p flags : space_wf st -> mappable_range st k n -> (0 < n)%nat ->
  0 < p -> p mod 4096 = 0 -> p + Z.of_nat n * 4096 <= 2 ^ 32 -> 0 <= flags < 4096 ->
  can_alloc (missing (v_phys st) (k / 1024) (range_end k n / 1024)) (v_pages st) ->
  exists st', map_kernel_range n st p (k * 4096) flags = Ok st' /\
              range_effect st st' k n (fun d => Z.lor (p + d * 4096) flags).
Proof.
  revert st k p. induction n as [|n IH]; intros st k p Hs Hm Hn Hp Hal Hr Hf Hc; [lia|].
  assert (Hk : mappable st k) by (rewrite <- (Z.add_0_r k); apply Hm; lia).
  assert (Hke : k / 1024 <= range_end k (S n) / 1024) by (apply Z.div_le_mono; unfold range_end; lia).
  destruct (map_spec st p k flags Hs Hk) as (st1 & E1 & Ef1).
  { split_and!; (lia || done). }
  { rewrite missing_cons in Hc by done. destruct (has_table (v_phys st) (k / 1024)); [by left|right]. apply Hc. }
  cbn [map_kernel_range]. rewrite E1. cbn [obind]. destruct n as [|n].
  { eexists. split; [done|]. apply range_one; [apply Hk|]. by rewrite Z.mul_0_l, Z.add_0_r. }
  assert (Hl : mappable st (k + Z.of_nat (S n))) by (apply Hm; lia). destruct Hl as (Hl & _), Hk as (Hk & _).
  change VM_PAGE_SIZE with 4096. rewrite (u32_small (p + 4096)), (u32_small (k * 4096 + 4096)) by lia.
  replace (k * 4096 + 4096) with ((k + 1) * 4096) by lia.
  destruct (IH st1 (k + 1) (p + 4096)) as (st2 & E2 & Ef2); [apply Ef1| |lia|lia|divmod|lia|done| |].
  { intros d Hd. apply (mappable_mode st); [apply Ef1|]. replace (k + 1 + d) with (k + (d + 1)) by lia. apply Hm. lia. }
  { eapply (missing_step st); [lia|lia|lia|exact Ef1|done]. }
  exists st2. split; [done|]. eapply range_step; [lia|lia|lia| | |].
  - intros d Hd. by apply Hm.
  - by rewrite Z.mul_0_l, Z.add_0_r.
  - eapply range_ext; [|exact Ef2]. intros d Hd. cbn. f_equal. lia.
Qed.

(** ** The search *)

(** Page [k] of the address space has no mapping. *)
Definition unmapped (m : gmap Z Z) (k : Z) : bool := (k <? 2 ^ 20) && negb (present (entry m k)).

Section Find.
Context (st : vmem) (Hs : space_wf st) (Hon : v_paging st = true).
Context (lo pages : Z) (Hlo : 0 <= lo) (Hpages : 0 < pages < 2 ^ 32).
#[local] Abbreviation free := (unmapped (v_phys st)).
#[local] Abbreviation inv := (scan_inv free lo (pages - 1)).

Definition found_run (f s : Z) : Prop := pages <= f /\ exists k, s = k * 4096 /\ first_run free lo k pages.

Lemma page_position i j : 0 <= i < 1024 -> 0 <= j < 1024 ->
  u32 (Z.shiftl i VM_DIRECTORY_SHIFT + Z.shiftl j VM_PAGE_SHIFT) = (i * 1024 + j) * PM_PAGE_SIZE.
Proof using All.
  intros. unfold VM_DIRECTORY_SHIFT, VM_PAGE_SHIFT, PM_PAGE_SIZE. rewrite !Z.shiftl_mul_pow2 by lia.
  rewrite u32_small; lia.
Qed.

Lemma scan_found pos f s n : inv pos f s -> 0 < n -> run free pos n -> pages <= f + n ->
  found_run (f + n) (if f =? 0 then pos * PM_PAGE_SIZE else s).
Proof using All.
  intros Hinv Hn Hr Hge. split; [done|].
  destruct (scan_inv_found free lo (pages - 1) pos f s n) as (k & Hk & Hf); [done|done|done|lia|].
  exists k. split; [done|]. by replace (pages - 1 + 1) with pages in Hf by lia.
Qed.

Lemma scan_table_spec i isFree n : 0 <= i < 1024 ->
  forall j f s, (forall j, 0 <= j < 1024 -> isFree j = Ok (free (i * 1024 + j))) ->
  0 <= j -> j + Z.of_nat n = 1024 -> inv (i * 1024 + j) f s ->
  exists f' s', scan_table n isFree i j f s pages = Ok (f', s') /\ (found_run f' s' \/ inv ((i + 1) * 1024) f' s').
Proof using All.
  intros Hi. induction n as [|n IH]; intros j f s Hfree Hj Hjn Hinv; cbn [scan_table].
  { exists f, s. split; [done|right]. by replace ((i + 1) * 1024) with (i * 1024 + j) by lia. }
  rewrite Hfree by lia. cbn [obind]. pose proof Hinv as (Hf & _). destruct (free (i * 1024 + j)) eqn:E.
  - assert (Hr : run free (i * 1024 + j) 1) by (intros d Hd; by replace (i * 1024 + j + d) with (i * 1024 + j) by lia).
    rewrite (u32_small (f + 1)), page_position by lia. destruct (Z.leb_spec pages (f + 1)).
    + do 2 eexists. split; [done|left]. by apply scan_found.
    + apply IH; [done|lia|lia|]. rewrite Z.add_assoc. apply scan_inv_extend; (done || lia).
  - apply IH; [done|lia|lia|]. rewrite Z.add_assoc. apply scan_inv_reset with f; [lia|done|lia|].
    intros d Hd. by replace (i * 1024 + j + d) with (i * 1024 + j) by lia.
Qed.

Lemma entry_free_spec i e j : 0 <= i < 1024 -> word (v_phys st) D i = Some e -> present e = true -> 0 <= j < 1024 ->
  entry_free st (kernel_table i) j = Ok (free (i * 1024 + j)).
Proof using All.
  intros Hi He Hp Hj. unfold entry_free, vload, kernel_table. unfold VM_PAGE_SHIFT. rewrite Z.shiftl_mul_pow2 by lia.
  unfold VM_KERNEL_PAGE_TABLES at 1. rewrite (u32_small (1069547520 + i * 2 ^ 12)) by lia.
  replace (1069547520 + i * 2 ^ 12 + 4 * j) with (VM_KERNEL_PAGE_TABLES + 4096 * i + 4 * j) by (unfold VM_KERNEL_PAGE_TABLES; lia).
  rewrite (translate_window st i j e) by done. cbn [obind].
  destruct (tw_table _ _ (sw_tables _ Hs) i e Hi He Hp) as [Ht _]. destruct (Ht j Hj) as (w & Hw & _).
  rewrite pload_word, Hw. cbn [of_option obind]. f_equal. unfold unmapped, entry.
  replace ((i * 1024 + j) / 1024) with i by divmod. replace ((i * 1024 + j) mod 1024) with j by divmod.
  rewrite (proj2 (Z.ltb_lt _ _)) by lia. by rewrite He, Hp, Hw.
Qed.

Lemma no_table_free i : 0 <= i < 1024 -> has_table (v_phys st) i = false -> run free (i * 1024) 1024.
Proof using All.
  intros Hi Ht d Hd. unfold unmapped, entry. rewrite (proj2 (Z.ltb_lt _ _)) by lia.
  replace ((i * 1024 + d) / 1024) with i by divmod. unfold has_table in Ht.
  destruct (word (v_phys st) D i); [by rewrite Ht|done].
Qed.

(** One round of the outer loop. *)
Definition find_round (i j f s : Z) : outcome (Z * Z) :=
  let* e := vload st (v_kernelDirectory st + 4 * i) in
  if present e then scan_rest (entry_free st (kernel_table i)) i j f s pages else Ok (skip_table i j f s).

Lemma find_round_spec i j f s : 0 <= i < 1024 -> 0 <= j < 1024 -> inv (i * 1024 + j) f s ->
  j = 0 \/ has_table (v_phys st) i = true ->
  exists f' s', find_round i j f s = Ok (f', s') /\ (found_run f' s' \/ inv ((i + 1) * 1024) f' s').
Proof using All.
  intros Hi Hj Hinv Hcov. unfold find_round. destruct (vload_dir st i Hs Hi) as (e & He & _ & Hl).
  rewrite Hl. cbn [obind]. destruct (present e) eqn:Hp.
  - unfold scan_rest. change VM_PAGETABLE_LENGTH with 1024. apply scan_table_spec; [done| |lia|lia|done].
    intros. by apply (entry_free_spec i e).
  - assert (Ht : has_table (v_phys st) i = false) by (unfold has_table; by rewrite He).
    destruct Hcov as [->|Hcov]; [|congruence]. rewrite Z.add_0_r in Hinv. pose proof Hinv as (Hf & Hf' & _).
    pose proof (no_table_free i Hi Ht) as Hr. unfold skip_table. rewrite page_position by lia.
    change VM_PAGETABLE_LENGTH with 1024. rewrite Z.add_0_r.
    rewrite (u32_small (f + 1024)) by lia.
    do 2 eexists. split; [done|]. destruct (Z.le_gt_cases pages (f + 1024)).
    + left. by apply scan_found.
    + right. replace ((i + 1) * 1024) with (i * 1024 + 1024) by lia. apply scan_inv_extend; (done || lia).
Qed.

(** The loop stops, with the first run or without one below the limit. *)
Lemma find_loop_spec upper fuel : upper <= VM_UPPER_LIMIT -> forall i j f s,
  0 <= i <= 1024 -> 1024 <= i + Z.of_nat fuel -> 0 <= j < 1024 ->
  (j = 0 \/ (i < 1024 /\ has_table (v_phys st) i = true)) ->
  found_run f s \/ inv (i * 1024 + j) f s ->
  exists f' s', find_kernel_loop fuel st i j f s pages upper = Ok (f', s') /\
    (found_run f' s' \/ (f' < pages /\ forall k, lo <= k -> (k + pages) * 4096 <= upper -> ~ run free k pages)).
Proof using All.
  intros Hup. induction fuel as [|fuel IH]; intros i j f s Hi Hfuel Hj Hcov Hinv.
  all: assert (Hstart : u32 (Z.shiftl i VM_DIRECTORY_SHIFT) = if i =? 1024 then 0 else i * 1024 * 4096)
    by (unfold VM_DIRECTORY_SHIFT; rewrite Z.shiftl_mul_pow2 by lia; destruct (Z.eqb_spec i 1024) as [->|]; [done|rewrite u32_small; lia]).
  all: cbn [find_kernel_loop]; rewrite Hstart; change VM_DIRECTORY_LENGTH with 1024; change VM_UPPER_LIMIT with 4294963200 in Hup.
  all: destruct Hinv as [Hfound|Hinv];
    [destruct Hfound as [Hge Hex]; rewrite (proj2 (Z.ltb_ge _ _)) by done; do 2 eexists; split; [done|left; by split]|].
  all: pose proof Hinv as (Hf & _ & _ & _ & _ & Hno); rewrite (proj2 (Z.ltb_lt _ _)) by lia; cbn [andb].
  1: assert (i = 1024) as -> by lia; cbn [Z.eqb Pos.eqb].
  2: destruct (Z.eqb_spec i 1024) as [->|Hne].
  1, 2: assert (j = 0) as -> by lia.
  1, 2: destruct (Z.ltb_spec 0 upper); cbn [Z.leb Z.compare Pos.compare Pos.compare_cont];
    do 2 eexists; (split; [done|right]); (split; [lia|]); intros k Hk Hb Hrun; apply (Hno k); try lia;
    by replace (pages - 1 + 1) with pages by lia.
  destruct (Z.ltb_spec (i * 1024 * 4096) upper) as [Hlt|Hge].
  - rewrite (proj2 (Z.leb_gt _ _)) by lia.
    destruct (find_round_spec i j f s) as (f' & s' & E & Hcase); [lia|done|done|naive_solver|].
    unfold find_round in E. apply obind_Ok in E as (e & E1 & E2). rewrite E1. cbn [obind]. rewrite E2. cbn [obind].
    apply IH; [lia|lia|lia|by left|]. by rewrite Z.add_0_r.
  - do 2 eexists. split; [done|right]. split; [lia|]. intros k Hk Hb Hrun. apply (Hno k); [done|lia|].
    by replace (pages - 1 + 1) with pages by lia.
Qed.
End Find.

(** ** Allocation *)

(** What [__vm_findFreePages__kernel] is called with. *)
Definition good_limits (lower upper : Z) : Prop :=
  VM_LOWER_LIMIT <= lower < 2 ^ 32 /\ lower mod 4096 = 0 /\ 0 <= upper <= VM_UPPER_LIMIT /\ upper mod 4096 = 0.

Lemma find_guards_pass pages lower upper : 0 < pages -> good_limits lower upper -> find_guards pages lower upper = Ok tt.
Proof.
  intros Hp (H1 & H2 & H3 & H4). unfold find_guards, page_aligned. change VM_PAGE_SIZE with 4096. rewrite H2, H4.
  rewrite (proj2 (Z.ltb_lt _ _)), !(proj2 (Z.leb_le _ _)) by lia. done.
Qed.

Lemma unmapped_run m k n : 0 < n -> run (unmapped m) k n -> k + n <= 2 ^ 20.
Proof.
  intros Hn Hr. specialize (Hr (n - 1) ltac:(lia)). unfold unmapped in Hr. apply andb_prop in Hr as [Hr _].
  apply Z.ltb_lt in Hr. lia.
Qed.

(** The limit of the search holds except for a region that ends with the last page. *)
Definition below (upper k pages : Z) : Prop := (k + pages) * 4096 <= upper \/ k + pages = 2 ^ 20.

Lemma find_kernel_spec st pages lower upper : space_wf st -> v_paging st = true -> 0 < pages < 2 ^ 32 ->
  good_limits lower upper -> lower mod 2 ^ 22 = 0 \/ has_table (v_phys st) (lower / 2 ^ 22) = true ->
  (exists k, __vm_findFreePages__kernel st pages lower upper = Ok (k * 4096) /\ 0 < k /\
     first_run (unmapped (v_phys st)) (lower / 4096) k pages /\ below upper k pages) \/
  (__vm_findFreePages__kernel st pages lower upper = Ok 0 /\
   forall k, lower / 4096 <= k -> (k + pages) * 4096 <= upper -> ~ run (unmapped (v_phys st)) k pages).
Proof.
  intros Hs Hon Hp Hlim Hcov. pose proof Hlim as (H1 & H2 & H3 & H4). change VM_LOWER_LIMIT with 4096 in H1.
  change (2 ^ 22) with 4194304 in *.
  unfold __vm_findFreePages__kernel. rewrite find_guards_pass by (done || lia). cbn [obind].
  unfold VM_DIRECTORY_SHIFT, VM_PAGE_SHIFT. rewrite !Z.shiftr_div_pow2 by lia.
  change (2 ^ 22) with 4194304. change (2 ^ 12) with 4096. change VM_PAGETABLE_LENGTH with 1024.
  assert (Hpos : lower / 4194304 * 1024 + (lower / 4096) mod 1024 = lower / 4096) by divmod.
  destruct (find_loop_spec st Hs Hon (lower / 4096) pages ltac:(divmod) Hp upper find_fuel ltac:(lia)
    (lower / 4194304) ((lower / 4096) mod 1024) 0 0) as (f & s & E & Hcase).
  { divmod. } { unfold find_fuel. divmod. } { divmod. }
  { destruct Hcov as [Hcov|Hcov]; [left; divmod|right; split; [divmod|done]]. }
  { right. rewrite Hpos. apply scan_inv_start. lia. }
  rewrite E. cbn [obind]. unfold find_result. destruct Hcase as [(Hge & k & -> & Hfr)|[Hlt Hno]].
  - rewrite (proj2 (Z.leb_le _ _)) by done. cbn [andb]. change VM_PAGE_SIZE with 4096.
    pose proof Hfr as (Hk & Hr & Hmin). pose proof (unmapped_run _ k pages ltac:(lia) Hr) as Hb.
    assert (1 <= k) by divmod. rewrite (u32_small (pages * 4096)) by lia.
    destruct (Z.eq_dec (k + pages) (2 ^ 20)) as [Etop|Ntop].
    + left. exists k. replace (k * 4096 + pages * 4096) with (2 ^ 32) by lia.
      change (u32 (2 ^ 32)) with 0. rewrite (proj2 (Z.leb_le _ _)) by lia. split_and!; [done|lia|done|by right].
    + rewrite u32_small by lia. destruct (Z.leb_spec (k * 4096 + pages * 4096) upper).
      * left. exists k. split_and!; [done|lia|done|left; lia].
      * right. split; [done|]. intros k' Hk' Hb' Hr'. apply (Hmin k'); [lia|done].
  - rewrite (proj2 (Z.leb_gt _ _)) by done. right. split; done.
Qed.

(** There is room below the window the tables are seen through. *)
Definition has_room (st : vmem) (pages : Z) : Prop :=
  exists k, 1 <= k /\ k + pages <= 255 * 1024 /\ run (unmapped (v_phys st)) k pages.

Definition kernel_fit (st : vmem) (k pages : Z) : Prop := first_run (unmapped (v_phys st)) 1 k pages.

(** A fit has its tables, or pages can be had for them. *)
Definition tables_available (st : vmem) (k pages : Z) : Prop :=
  can_alloc (missing (v_phys st) (k / 1024) ((k + pages - 1) / 1024)) (v_pages st).

Lemma slot_zero st : space_wf st -> v_paging st = true -> has_table (v_phys st) 0 = true.
Proof.
  intros Hs Hon. pose proof (sw_mapped _ Hs Hon) as H. unfold entry in H. change (1 / 1024) with 0 in H.
  unfold has_table. destruct (word (v_phys st) D 0) as [e|]; [|done]. by destruct (present e).
Qed.

Lemma page_one_mapped st : space_wf st -> v_paging st = true -> unmapped (v_phys st) 1 = false.
Proof. intros Hs Hon. unfold unmapped. by rewrite (sw_mapped _ Hs Hon). Qed.

Lemma find_room st pages : space_wf st -> v_paging st = true -> 0 < pages -> has_room st pages ->
  exists k, __vm_findFreePages__kernel st pages VM_LOWER_LIMIT VM_UPPER_LIMIT = Ok (k * 4096) /\
            1 < k /\ k + pages <= 255 * 1024 /\ kernel_fit st k pages.
Proof.
  intros Hs Hon Hp (k0 & Hk0 & Hb0 & Hr0).
  destruct (find_kernel_spec st pages VM_LOWER_LIMIT VM_UPPER_LIMIT) as [(k & E & Hk & Hfr & _)|[_ Hno]]; try done; try lia.
  - right. by apply slot_zero.
  - change (VM_LOWER_LIMIT / 4096) with 1 in Hfr. exists k. pose proof Hfr as (H1 & H2 & H3).
    assert (k <= k0) by (destruct (Z.le_gt_cases k k0); [done|exfalso; apply (H3 k0); [lia|done]]).
    assert (k <> 1). { intros ->. specialize (H2 0 ltac:(lia)). by rewrite Z.add_0_r, page_one_mapped in H2. }
    split_and!; (done || lia).
  - exfalso. apply (Hno k0); [done| |done]. unfold VM_UPPER_LIMIT. lia.
Qed.

(** The memory a caller asks to be mapped. *)
Definition good_frames (p pages flags : Z) : Prop :=
  0 < p /\ p mod 4096 = 0 /\ p + pages * 4096 <= 2 ^ 32 /\ 0 <= flags < 4096.

Lemma fit_mappable st k pages : 1 < k -> k + pages <= 255 * 1024 -> mappable_range st k (Z.to_nat pages).
Proof. intros Hk Hb d Hd. unfold mappable. split_and!; [lia|lia|divmod|lia]. Qed.

Lemma alloc_kernel_spec st p pages flags : space_wf st -> v_paging st = true -> 0 < pages -> has_room st pages ->
  good_frames p pages flags -> (forall k, kernel_fit st k pages -> tables_available st k pages) ->
  exists k st', alloc_kernel st p pages flags = Ok (k * 4096, st') /\ 1 < k /\ k + pages <= 255 * 1024 /\
    kernel_fit st k pages /\ range_effect st st' k (Z.to_nat pages) (fun d => Z.lor (p + d * 4096) flags).
Proof.
  intros Hs Hon Hp Hroom (Hp0 & Hpa & Hpr & Hf) Hta.
  destruct (find_room st pages Hs Hon Hp Hroom) as (k & E & Hk & Hb & Hfit).
  specialize (Hta k Hfit). unfold tables_available in Hta.
  destruct (map_range st k (Z.to_nat pages) p flags) as (st' & E' & Heff); [done|by apply fit_mappable|lia|lia|done|lia|done| |].
  { unfold range_end. by rewrite Z2Nat.id by lia. }
  exists k, st'. split_and!; [|done..]. unfold alloc_kernel, alloc_kernel_limits. rewrite E. cbn [obind].
  rewrite (proj2 (Z.eqb_neq _ _)) by lia. cbn [negb]. rewrite E'. done.
Qed.
