(* ===== verification/VMemoryBoot.v ===== *)
(** * Virtual memory: building the kernel's address space

    [vm_init] sets up the directory and maps a list of ranges onto themselves
    before paging is switched on.  Shown is that the paging structures are then
    well formed and that everything the list names can be reached. *)

From S2P Require Import Prelude Pages PMemory PMemoryBoot VMemory VMemoryCorrect VMemoryMap VMemorySpace.

(** ** The ranges *)

(** The first address and the number of pages of the ranges the boot
    information names, in the order they are mapped; [None] when the list of
    drives does not end. *)
Definition one_page (a : Z) : list (Z * Z) := [(VM_PAGE_ALIGN_DOWN a, 1)].

Definition module_ranges (m : bootmem) (module : mb_module) : list (Z * Z) :=
  let start := VM_PAGE_ALIGN_DOWN (mod_start module) in
  let name := VM_PAGE_ALIGN_DOWN (mod_name module) in
  [(start, VM_PAGE_COUNT (u32 (VM_PAGE_ALIGN_UP (mod_end module) - start))); (name, VM_PAGE_COUNT (strlen_at m name))].

Fixpoint modules_ranges (count : nat) (m : bootmem) (module : Z) : list (Z * Z) :=
  match count with
  | O => []
  | S n => module_ranges m (module_at m module) ++ modules_ranges n m (u32 (module + sizeof_multiboot_module))
  end.

Fixpoint drive_ranges (fuel : nat) (m : bootmem) (p e : Z) : option (list (Z * Z)) :=
  if p <? e then
    match fuel with
    | O => None
    | S f => cons (p, VM_PAGE_COUNT (drive_size_at m p)) <$> drive_ranges f m (u32 (p + drive_size_at m p)) e
    end
  else Some [].

Definition multiboot_ranges (m : bootmem) (info : Z) (mb : multiboot) : option (list (Z * Z)) :=
  let flag f (l : list (Z * Z)) := if has_flag (mb_flags mb) f then l else [] in
  drives ← (if has_flag (mb_flags mb) kMultibootFlagDrives
            then drive_ranges (Z.to_nat (mb_drives_length mb)) m (mb_drives_addr mb) (u32 (mb_drives_addr mb + mb_drives_length mb))
            else Some []);
  Some (one_page info ++ flag kMultibootFlagCommandLine (one_page (mb_cmdline mb)) ++
        flag kMultibootFlagModules (modules_ranges (Z.to_nat (mb_mods_count mb)) m (mb_mods_addr mb)) ++
        drives ++ flag kMultibootFlagBootLoader (one_page (mb_boot_loader_name mb))).

Definition kernel_ranges (k : kernel_image) : list (Z * Z) :=
  let bottom := VM_PAGE_ALIGN_DOWN (stack_bottom k) in
  [(kernelBegin k, VM_PAGE_COUNT (u32 (kernelEnd k - kernelBegin k))); (0xB8000, 1);
   (bottom, u32 (VM_PAGE_ALIGN_UP (stack_top k) - bottom))].

Fixpoint map_ranges (rs : list (Z * Z)) (st : vmem) : outcome vmem :=
  match rs with
  | [] => Ok st
  | (a, pages) :: rs' => let* st := map_identity st a pages in map_ranges rs' st
  end.

(** ** [vm_init] maps these ranges *)

Lemma obind_ret {A} (m : outcome A) : (let* x := m in Ok x) = m.
Proof. by destruct m. Qed.

Lemma obind_assoc {A B C} (m : outcome A) (f : A -> outcome B) (g : B -> outcome C) :
  obind (obind m f) g = obind m (fun x => obind (f x) g).
Proof. by destruct m. Qed.

Lemma map_ranges_app rs rs' st : map_ranges (rs ++ rs') st = (let* st := map_ranges rs st in map_ranges rs' st).
Proof.
  revert st. induction rs as [|[a n] rs IH]; intros st; cbn [app map_ranges]; [done|].
  rewrite obind_assoc. destruct (map_identity st a n); cbn [obind]; [apply IH|done..].
Qed.

Lemma map_page_range st a : map_kernel st (VM_PAGE_ALIGN_DOWN a) (VM_PAGE_ALIGN_DOWN a) VM_FLAGS_KERNEL = map_ranges (one_page a) st.
Proof. cbn [one_page map_ranges]. rewrite obind_ret. unfold map_identity. change (Z.to_nat 1) with 1%nat. cbn [map_kernel_range]. by rewrite obind_ret. Qed.

Lemma modules_ranges_ok n : forall m st module, vm_mapModules n m st module = map_ranges (modules_ranges n m module) st.
Proof.
  induction n as [|n IH]; intros m st module; [done|]. cbn [vm_mapModules modules_ranges]. rewrite map_ranges_app.
  unfold vm_mapMultibootModule, module_ranges. cbn [map_ranges].
  destruct (map_identity st _ _) as [st1| | |]; cbn [obind]; [|done..].
  destruct (map_identity st1 _ _) as [st2| | |]; cbn [obind]; [|done..]. apply IH.
Qed.

Lemma drive_ranges_ok fuel : forall m st p e rs, drive_ranges fuel m p e = Some rs -> vm_mapDrives fuel m st p e = map_ranges rs st.
Proof.
  induction fuel as [|fuel IH]; intros m st p e rs; cbn [drive_ranges vm_mapDrives];
    destruct (p <? e); intros E; simplify_eq; [done| |done].
  apply fmap_Some in E as (rs' & E & ->). cbn [map_ranges].
  destruct (map_identity st p _) as [st1| | |]; cbn [obind]; [|done..]. by apply IH.
Qed.

Lemma flag_ranges (b : bool) rs st r : (b = true -> r = map_ranges rs st) ->
  (if b then r else Ok st) = map_ranges (if b then rs else []) st.
Proof. destruct b; [intros H; by apply H|done]. Qed.

Lemma multiboot_ranges_ok m st info mb rs : multiboot_ranges m info mb = Some rs ->
  vm_mapMultiboot m st info mb = map_ranges rs st.
Proof.
  unfold multiboot_ranges, vm_mapMultiboot. intros (drives & Ed & E)%bind_Some. apply (inj Some) in E as <-.
  rewrite map_page_range, map_ranges_app. destruct (map_ranges (one_page info) st) as [s1| | |]; cbn [obind]; [|done..].
  rewrite (flag_ranges _ (one_page (mb_cmdline mb))) by (intros _; apply map_page_range).
  rewrite map_ranges_app. destruct (map_ranges _ s1) as [s2| | |]; cbn [obind]; [|done..].
  rewrite (flag_ranges _ (modules_ranges (Z.to_nat (mb_mods_count mb)) m (mb_mods_addr mb))) by (intros _; apply modules_ranges_ok).
  rewrite map_ranges_app. destruct (map_ranges _ s2) as [s3| | |]; cbn [obind]; [|done..].
  replace (if has_flag (mb_flags mb) kMultibootFlagDrives then _ else Ok s3) with (map_ranges drives s3).
  2: { destruct (has_flag _ kMultibootFlagDrives); [symmetry; by apply drive_ranges_ok|by injection Ed as <-]. }
  rewrite map_ranges_app. destruct (map_ranges drives s3) as [s4| | |]; cbn [obind]; [|done..].
  apply flag_ranges. intros _. apply map_page_range.
Qed.

(** ** The directory *)

(** What [vm_init] finds: the directory's page and the free pages are there,
    and the part of the directory that is not cleared holds no entries. *)
Record boot_memory (st : vmem) : Prop := {
  bm_off : v_paging st = false;
  bm_pm : pm_ok (v_pages st);
  bm_dir : page_there (v_phys st) D;
  bm_dir_used : page_free (v_pages st) 1 = false;
  bm_free k : 0 <= k -> page_free (v_pages st) k = true -> page_there (v_phys st) (k * 4096)
}.

(** The part of the directory's page that is not cleared, three quarters of it,
    holds no present entry. *)
Definition tail_clear (st : vmem) : Prop := forall i e, 256 <= i < 1024 -> word (v_phys st) D i = Some e -> present e = false.

Lemma clear_physical n : forall st a, v_paging st = false -> 0 <= a -> a + 4 * Z.of_nat n < 2 ^ 32 ->
  (forall i, 0 <= i < Z.of_nat n -> is_Some (v_phys st !! (a + 4 * i))) ->
  clear_words n st a = Ok (set_phys st (zero_words n (v_phys st) a)).
Proof.
  induction n as [|n IH]; intros st a Hoff Ha Hb Hth; cbn [clear_words zero_words]; [by destruct st|].
  unfold vstore, translate. rewrite Hoff, (u32_small a) by lia. cbn [obind]. unfold pstore.
  rewrite decide_True by (rewrite <- (Z.add_0_r a); apply (Hth 0); lia). cbn [obind]. rewrite u32_small by lia.
  rewrite IH; [done|done|lia|lia|]. intros i Hi. cbn [v_phys set_phys]. rewrite lookup_insert_is_Some'. right.
  replace (a + 4 + 4 * i) with (a + 4 * (i + 1)) by lia. apply Hth. lia.
Qed.

Lemma zero_words_word a n : a mod 4096 = 0 -> forall m j b l, 0 <= j -> j + Z.of_nat n <= 1024 -> b mod 4096 = 0 -> 0 <= l < 1024 ->
  word (zero_words n m (a + 4 * j)) b l =
  if decide (b = a /\ j <= l < j + Z.of_nat n) then Some 0 else word m b l.
Proof.
  intros Ha. induction n as [|n IH]; intros m j b l Hj Hb Hal Hl; cbn [zero_words].
  { rewrite decide_False by lia. done. }
  replace (a + 4 * j + 4) with (a + 4 * (j + 1)) by lia. rewrite IH by (done || lia).
  destruct (decide (b = a /\ j + 1 <= l < j + 1 + Z.of_nat n)); [by rewrite decide_True by lia|].
  unfold word. destruct (decide (b = a /\ l = j)) as [[-> ->]|Hne].
  - rewrite decide_True by lia. apply lookup_insert_eq.
  - rewrite decide_False by lia. apply lookup_insert_ne. intros E.
    destruct (word_inj a b j l Ha Hal ltac:(lia) Hl E). naive_solver.
Qed.

Definition boot_dir (m : gmap Z Z) : gmap Z Z := <[D + 4 * 255 := D + 3]> (zero_words 256 m D).

Lemma boot_dir_word m b l : b mod 4096 = 0 -> 0 <= l < 1024 ->
  word (boot_dir m) b l =
  if decide (b = D) then (if decide (l = 255) then Some (D + 3) else if decide (l < 256) then Some 0 else word m D l) else word m b l.
Proof.
  intros Hb Hl. unfold boot_dir. destruct (decide (b = D /\ l = 255)) as [[-> ->]|Hne].
  { rewrite !decide_True by done. apply lookup_insert_eq. }
  unfold word at 1. rewrite lookup_insert_ne.
  2: { intros E. apply Hne. destruct (word_inj D b 255 l eq_refl Hb ltac:(lia) Hl E). done. }
  fold (word (zero_words 256 m D) b l). rewrite <- (Z.add_0_r D) at 1. change 0 with (4 * 0).
  rewrite zero_words_word by (done || lia). destruct (decide (b = D)) as [->|].
  - rewrite (decide_False (P := l = 255)) by naive_solver. destruct (decide (l < 256)).
    + by rewrite decide_True by lia.
    + by rewrite decide_False by lia.
  - by rewrite decide_False by naive_solver.
Qed.

(** What that part held stays in force. *)
Lemma tail_stays m i e : 256 <= i < 1024 -> word m D i = Some e -> present e = true -> has_table (boot_dir m) i = true.
Proof. intros Hi He Hp. unfold has_table. rewrite boot_dir_word, decide_True, !decide_False, He by (done || lia). exact Hp. Qed.

Section Directory.
Context (st : vmem) (Hb : boot_memory st) (Hrest : tail_clear st).
#[local] Abbreviation st1 := (Vmem (boot_dir (v_phys st)) (v_pages st) false true D (v_lock st)).

Lemma boot_dir_there a : a mod 4096 = 0 -> page_there (v_phys st) a -> page_there (boot_dir (v_phys st)) a.
Proof using Hb.
  intros Ha H l Hl. rewrite boot_dir_word by done. repeat case_decide.
  - exists (D + 3). split; [done|]. unfold is_u32, D. lia.
  - exists 0. split; [done|]. unfold is_u32. lia.
  - by apply (bm_dir _ Hb).
  - by apply H.
Qed.

(** The directory's only entry is the one for itself. *)
Lemma boot_dir_only i e : 0 <= i < 1024 -> word (boot_dir (v_phys st)) D i = Some e -> present e = true -> i = 255 /\ e = D + 3.
Proof using Hb Hrest.
  intros Hi. rewrite boot_dir_word by done. rewrite decide_True by done. repeat case_decide; intros E Hp; [by simplify_eq|injection E as <-; discriminate Hp|].
  rewrite (Hrest i e) in Hp; [done|lia|done].
Qed.

Lemma boot_dir_space : space_wf st1.
Proof using Hb Hrest.
  constructor; cbn [v_phys v_pages v_paging v_usePhysicalKernelPages v_kernelDirectory]; [|done..].
  constructor; [apply Hb|apply boot_dir_there; [done|apply Hb]|apply Hb| | | | |].
  - by rewrite boot_dir_word by (done || lia).
  - intros i e Hi He Hp. destruct (boot_dir_only i e Hi He Hp) as [-> ->]. rewrite D_frame.
    split; [apply boot_dir_there; [done|apply Hb]|apply Hb].
  - intros i j e e' Hi Hj He He' Hp Hp' _. by destruct (boot_dir_only i e Hi He Hp), (boot_dir_only j e' Hj He' Hp'); subst.
  - intros k Hk Hf. apply boot_dir_there; [divmod|]. by apply Hb.
  - intros i e Hi He Hp. by destruct (boot_dir_only i e Hi He Hp) as [-> ->].
Qed.

Lemma boot_no_table i : 0 <= i < 255 -> has_table (boot_dir (v_phys st)) i = false.
Proof using Hb.
  intros Hi. unfold has_table. rewrite boot_dir_word by (done || lia). rewrite decide_True, decide_False, decide_True by lia. done.
Qed.

Lemma createKernelContext_runs : vm_createKernelContext (Vmem (v_phys st) (v_pages st) (v_paging st) true (v_kernelDirectory st) (v_lock st)) =
  map_kernel st1 D (1 * 4096) VM_FLAGS_KERNEL.
Proof using Hb.
  unfold vm_createKernelContext. cbn [v_phys v_pages v_paging v_usePhysicalKernelPages v_kernelDirectory v_lock].
  rewrite clear_physical; [|apply Hb|unfold D; lia|unfold D, memset_entries; lia|].
  2: { intros i Hi. unfold memset_entries in Hi. destruct (bm_dir _ Hb i ltac:(lia)) as (w & Hw & _). by exists w. }
  cbn [obind v_phys v_kernelDirectory set_phys]. unfold vstore, translate. cbn [v_paging set_phys]. rewrite (bm_off _ Hb).
  change (u32 (D + 4 * 0xFF)) with (D + 4 * 255). cbn [obind]. unfold pstore. cbn [v_phys set_phys].
  rewrite decide_True; [done|]. change (is_Some (word (zero_words 256 (v_phys st) D) D 255)).
  rewrite <- (Z.add_0_r D) at 1. change 0 with (4 * 0). rewrite zero_words_word by (done || lia). rewrite decide_True by lia. done.
Qed.
End Directory.

(** ** Mapping ranges onto themselves *)

Lemma missing_empty m s t : t < s -> missing m s t = 0%nat.
Proof. intros H. unfold missing. rewrite seqZ_nil by lia. done. Qed.

Lemma missing_add m m' x t : x <= t -> has_table m x = false ->
  forall s, s <= x -> (forall l, s <= l <= t -> has_table m' l = has_table m l || (l =? x)) ->
  missing m s t = S (missing m' s t).
Proof.
  intros Hxt Hx s Hs. remember (Z.to_nat (x - s)) as n eqn:Hn. revert s Hs Hn.
  induction n as [|n IH]; intros s Hs Hn Hl; rewrite (missing_cons m), (missing_cons m') by lia.
  - assert (s = x) as -> by lia. rewrite Hl, Hx, Z.eqb_refl by lia. cbn [orb]. cbn [Nat.add]. f_equal.
    enough (Hle : (missing m (x + 1) t <= missing m' (x + 1) t)%nat /\ (missing m' (x + 1) t <= missing m (x + 1) t)%nat) by lia.
    split; apply missing_le; intros l Hl' Hy.
    + by rewrite Hl, (proj2 (Z.eqb_neq _ _)), orb_false_r in Hy by lia.
    + by rewrite Hl, Hy by lia.
  - rewrite (IH (s + 1)) by (lia || (intros; apply Hl; lia)). rewrite Hl by lia.
    rewrite (proj2 (Z.eqb_neq _ _)), orb_false_r by lia. lia.
Qed.

Definition identity (st : vmem) (k : Z) : Prop := entry (v_phys st) k = k * 4096 + 3.

(** While booting: everything mapped lies in the slots up to [T], and there are
    pages left for the tables of those slots. *)
Record booting (T : Z) (st : vmem) : Prop := {
  bo_space : space_wf st;
  bo_off : v_paging st = false;
  bo_supply : can_alloc (missing (v_phys st) 0 T) (v_pages st)
}.

Lemma supply_step T st st' k w : 0 <= k / 1024 <= T -> T < 1024 -> map_effect st st' k w ->
  can_alloc (missing (v_phys st) 0 T) (v_pages st) -> can_alloc (missing (v_phys st') 0 T) (v_pages st').
Proof.
  intros Hk HT [M1 M2 M3 M4 M5 M7 M6 M8] Hc. rewrite M6. destruct (has_table (v_phys st) (k / 1024)) eqn:Ht.
  - eapply can_alloc_le; [|exact Hc]. apply missing_le. intros l Hl Hx. by rewrite M5, Hx by lia.
  - rewrite (missing_add _ (v_phys st') (k / 1024)) in Hc; [apply Hc|lia|done|lia|]. intros l Hl. apply M5. lia.
Qed.

Lemma identity_table st k : 0 <= k -> identity st k -> has_table (v_phys st) (k / 1024) = true.
Proof.
  unfold identity, entry, has_table. intros Hk. destruct (word (v_phys st) D (k / 1024)) as [e|]; [|lia].
  destruct (present e); [done|lia].
Qed.

Section Boot.
Context (T : Z) (HT : 0 <= T < 255).

(** One page mapped onto itself. *)
Lemma boot_page st k : booting T st -> 0 < k < (T + 1) * 1024 ->
  exists st', map_kernel st (k * 4096) (k * 4096) VM_FLAGS_KERNEL = Ok st' /\ booting T st' /\ same_mode st st' /\
    identity st' k /\ forall j, 0 <= j < 2 ^ 20 -> j / 1024 <> 255 -> identity st j -> identity st' j.
Proof using All.
  intros [B1 B2 B4] Hk. assert (Hslot : 0 <= k / 1024 <= T) by divmod.
  destruct (map_spec st (k * 4096) k VM_FLAGS_KERNEL B1) as (st' & E & Heff).
  { split_and!; [lia|lia|lia|congruence]. }
  { unfold good_target, VM_FLAGS_KERNEL. split_and!; (lia || divmod). }
  { destruct (has_table (v_phys st) (k / 1024)) eqn:Ht; [by left|right].
    rewrite (missing_add _ (<[D + 4 * (k / 1024) := 1]> (v_phys st)) (k / 1024)) in B4; [apply B4|lia|done|lia|].
    intros l Hl. unfold has_table, word. destruct (Z.eqb_spec l (k / 1024)) as [->|].
    - by rewrite lookup_insert_eq, orb_true_r.
    - rewrite lookup_insert_ne by (unfold D; lia). by rewrite orb_false_r. }
  assert (Hw : Z.lor (k * 4096) VM_FLAGS_KERNEL = k * 4096 + 3) by (apply lor_page; [divmod|unfold VM_FLAGS_KERNEL; lia]).
  rewrite Hw in Heff. pose proof Heff as [M1 M2 M3 M4 M5 M7 M6 M8].
  assert (Hkeep : forall j, 0 <= j < 2 ^ 20 -> j / 1024 <> 255 -> identity st j -> identity st' j).
  { intros j Hj H255 Hid. unfold identity. destruct (Z.eq_dec j k) as [->|Hne]; [done|].
    rewrite M4; [done|done|done|done|]. intros (Hx & Hy & _). rewrite <- Hy, identity_table in Hx; (done || lia). }
  exists st'. split_and!; [done| |done|done|done]. constructor; [done| |].
  - destruct M2 as (-> & _). done.
  - eapply supply_step; [exact Hslot|lia|exact Heff|done].
Qed.

Definition range_ok (r : Z * Z) : Prop :=
  0 < r.1 /\ r.1 mod 4096 = 0 /\ 0 <= r.2 /\ r.1 / 4096 + r.2 <= (T + 1) * 1024.

(** Every page of a range is mapped onto itself. *)
Definition mapped_onto_itself (st : vmem) (r : Z * Z) : Prop :=
  forall d, 0 <= d < r.2 -> identity st (r.1 / 4096 + d).

Definition keeps (st st' : vmem) : Prop :=
  same_mode st st' /\ forall j, 0 <= j < (T + 1) * 1024 -> identity st j -> identity st' j.

Lemma boot_range n : forall st k, booting T st -> 0 < k -> k + Z.of_nat n <= (T + 1) * 1024 ->
  exists st', map_kernel_range n st (k * 4096) (k * 4096) VM_FLAGS_KERNEL = Ok st' /\ booting T st' /\ keeps st st' /\
    forall d, 0 <= d < Z.of_nat n -> identity st' (k + d).
Proof using All.
  induction n as [|n IH]; intros st k Hb Hk Hn; cbn [map_kernel_range].
  { exists st. split_and!; [done|done|by split|lia]. }
  destruct (boot_page st k Hb ltac:(lia)) as (st1 & E1 & Hb1 & Hm1 & Hid & Hkeep). rewrite E1. cbn [obind].
  change VM_PAGE_SIZE with 4096. rewrite u32_small by lia. replace (k * 4096 + 4096) with ((k + 1) * 4096) by lia.
  destruct (IH st1 (k + 1) Hb1 ltac:(lia) ltac:(lia)) as (st2 & E2 & Hb2 & [Hm2 Hk2] & Hd).
  exists st2. split_and!; [done|done| |].
  - split; [by eapply same_mode_trans|]. intros j Hj Hx. apply Hk2; [done|]. apply Hkeep; (done || lia || divmod).
  - intros d Hd'. destruct (Z.eq_dec d 0) as [->|]; [rewrite Z.add_0_r; apply Hk2; [lia|done]|].
    replace (k + d) with (k + 1 + (d - 1)) by lia. apply Hd. lia.
Qed.

Lemma boot_ranges rs : forall st, booting T st -> Forall range_ok rs ->
  exists st', map_ranges rs st = Ok st' /\ booting T st' /\ keeps st st' /\ Forall (mapped_onto_itself st') rs.
Proof using All.
  induction rs as [|[a n] rs IH]; intros st Hb Hok; cbn [map_ranges].
  { exists st. split_and!; [done|done|by split|constructor]. }
  apply Forall_cons in Hok as [(Ha & Hal & Hn & Hb') Hok]. cbn [fst snd] in *.
  destruct (boot_range (Z.to_nat n) st (a / 4096) Hb ltac:(divmod) ltac:(lia)) as (st1 & E1 & Hb1 & [Hm1 Hk1] & Hid).
  replace (a / 4096 * 4096) with a in E1 by divmod. unfold map_identity. rewrite E1. cbn [obind].
  destruct (IH st1 Hb1 Hok) as (st2 & E2 & Hb2 & [Hm2 Hk2] & Hall). exists st2. split_and!; [done|done| |].
  - split; [by eapply same_mode_trans|]. intros j Hj Hx. by apply Hk2, Hk1.
  - constructor; [|done]. intros d Hd. cbn [fst snd] in *. apply Hk2; [divmod|]. apply Hid. lia.
Qed.

Lemma boot_start st : boot_memory st -> tail_clear st -> can_alloc (Z.to_nat (T + 1)) (v_pages st) ->
  booting T (Vmem (boot_dir (v_phys st)) (v_pages st) false true D (v_lock st)).
Proof using All.
  intros Hb Hrest Hc. constructor; [by apply boot_dir_space|done|]. eapply can_alloc_le; [|exact Hc].
  unfold missing. etrans; [apply length_filter|]. rewrite length_seqZ. cbn. lia.
Qed.

(** Everything mapped onto itself can be reached once paging is on. *)
Lemma reach_identity st k v : space_wf st -> v_paging st = true -> 0 <= k < 2 ^ 20 -> identity st k ->
  k * 4096 <= v < (k + 1) * 4096 -> translate st v = Ok v.
Proof using All.
  intros Hs Hon Hk Hid Hv. rewrite translate_view by (done || unfold is_u32; lia).
  replace (v / 4096) with k by divmod. unfold view. unfold identity in Hid. rewrite !Hid.
  rewrite <- (lor_page (k * 4096) 3) by (lia || divmod).
  rewrite entry_present by (lia || divmod). change (Z.odd 3) with true. cbv iota. rewrite entry_frame by (lia || divmod). f_equal. divmod.
Qed.
End Boot.


(** ** A small machine

    Pages 32 to 63 are free, the directory's page is there, all memory is 0. *)

Definition ram (lo n : Z) : gmap Z Z := list_to_map ((fun a => (4 * a, 0)) <$> seqZ lo n).

Lemma ram_lookup lo n a : lo <= a < lo + n -> ram lo n !! (4 * a) = Some 0.
Proof.
  intros Ha. unfold ram. apply elem_of_list_to_map_1.
  - rewrite <- list_fmap_compose. apply NoDup_fmap_2; [intros x y; cbn; lia|apply NoDup_seqZ].
  - apply list_elem_of_fmap. exists a. split; [done|]. apply elem_of_seqZ. lia.
Qed.

Definition demo_pages : bitmap := 0 :: 0xFFFFFFFF :: replicate (Z.to_nat (PM_HEAPSIZE - 2)) 0.
Definition demo_machine : vmem := Vmem (ram 1024 1024 ∪ ram (32 * 1024) (32 * 1024)) demo_pages false false 0 false.

Lemma second_word_free n w k : 0 <= k -> page_free (0 :: w :: replicate n 0) k = true -> 32 <= k < 64.
Proof.
  intros Hk. unfold page_free, word_at. destruct (Z.eq_dec (k / 32) 0) as [->|]; [by rewrite Z.testbit_0_l|].
  destruct (Z.eq_dec (k / 32) 1) as [|]; [intros _; divmod|].
  replace (Z.to_nat (k / 32)) with (S (S (Z.to_nat (k / 32 - 2)))) by divmod. cbn [nth].
  rewrite nth_lookup. destruct (replicate _ 0 !! _) as [x|] eqn:E; cbn; [|by rewrite Z.testbit_0_l].
  apply lookup_replicate in E as [-> _]. by rewrite Z.testbit_0_l.
Qed.

Lemma demo_free k : 0 <= k -> page_free demo_pages k = true -> 32 <= k < 64.
Proof. apply second_word_free. Qed.

Lemma demo_there a : a mod 4096 = 0 -> (a = D \/ 32 * 4096 <= a < 64 * 4096) -> page_there (v_phys demo_machine) a.
Proof.
  intros Ha Hr i Hi. exists 0. split; [|unfold is_u32; lia]. unfold word, demo_machine. cbn [v_phys].
  replace (a + 4 * i) with (4 * (a / 4 + i)) by divmod. unfold D in Hr. destruct Hr as [->|Hr].
  - apply lookup_union_Some_l. apply ram_lookup. divmod.
  - destruct (ram 1024 1024 !! (4 * (a / 4 + i))) as [x|] eqn:E.
    + unfold ram in E. apply elem_of_list_to_map_2, list_elem_of_fmap in E as (b & Eb & Hb%elem_of_seqZ).
      assert (Eb' : 4 * (a / 4 + i) = 4 * b) by congruence. clear - Eb' Hb Hr Hi. divmod.
    + rewrite lookup_union_r by done. apply ram_lookup. clear - Hr Hi Ha. divmod.
Qed.

Lemma demo_boot_memory : boot_memory demo_machine.
Proof.
  constructor; [done| |by apply demo_there; [|left]|done|].
  - change (pm_ok demo_pages). split; [|done]. split; [by vm_compute|]. unfold demo_pages, is_u32.
    do 2 (constructor; [lia|]). apply Forall_replicate. lia.
  - intros k Hk Hf. apply demo_free in Hf; [|done]. apply demo_there; [divmod|lia].
Qed.

Lemma demo_tail_clear : tail_clear demo_machine.
Proof.
  intros i e Hi He. unfold word, demo_machine in He. cbn [v_phys] in He.
  replace (D + 4 * i) with (4 * (1024 + i)) in He by (unfold D; lia).
  rewrite (lookup_union_Some_l _ _ _ 0) in He by (apply ram_lookup; lia). by injection He as <-.
Qed.

Definition demo_ranges : list (Z * Z) := [(0x50000, 1); (0x50000, 1); (0x60000, 3); (0x63000, 1)].

