(* ===== verification/VMemoryContract.v ===== *)
(** * Virtual memory: what the kernel directory's operations promise

    Allocation, resolution and release of virtual memory in the kernel
    directory, stated through the translation the processor does. *)

From S2P Require Import Prelude Pages PMemory PMemoryBoot VMemory VMemoryCorrect VMemoryMap VMemorySpace VMemoryBoot.

(** ** Kernel directory and lock *)

Lemma vstore_dir_same st v w st' : vstore st v w = Ok st' -> v_kernelDirectory st' = v_kernelDirectory st.
Proof.
  unfold vstore, pstore. intros (a & _ & E)%obind_Ok. case_decide; [|done]. by injection E as <-.
Qed.

Lemma clear_dir_same n : forall st v st', clear_words n st v = Ok st' -> v_kernelDirectory st' = v_kernelDirectory st.
Proof.
  induction n as [|n IH]; intros st v st'; cbn [clear_words]; [by intros [= <-]|].
  intros (s1 & E1 & E2)%obind_Ok. rewrite (IH _ _ _ E2). by eapply vstore_dir_same.
Qed.

Lemma map_dir_same st p v f st' : map_kernel st p v f = Ok st' -> v_kernelDirectory st' = v_kernelDirectory st.
Proof.
  unfold map_kernel. intros (_ & _ & E)%obind_Ok. apply obind_Ok in E as (e & _ & E).
  apply obind_Ok in E as ((t & s1) & E1 & E2). rewrite (vstore_dir_same _ _ _ _ E2). clear E2.
  destruct (present e); cbn [negb] in E1; [by injection E1 as _ <-|].
  destruct (pm_alloc (v_pages st) 1) as [page h]. apply obind_Ok in E1 as (s2 & E2 & E3).
  apply obind_Ok in E3 as (s3 & E3 & E4). injection E4 as _ <-.
  rewrite (clear_dir_same _ _ _ _ E3). by rewrite (vstore_dir_same _ _ _ _ E2).
Qed.

(** On the kernel's own directory the general routines are the special ones. *)
Lemma range_kernel n : forall st p v f, __vm_mapPageRange__noLock n st (v_kernelDirectory st) p v f = map_kernel_range n st p v f.
Proof.
  induction n as [|n IH]; intros st p v f; [done|]. cbn [__vm_mapPageRange__noLock map_kernel_range].
  unfold __vm_mapPage__noLock. rewrite Z.eqb_refl.
  destruct (map_kernel st p v f) as [s1| | |] eqn:E; cbn [obind]; [|done..].
  rewrite <- (map_dir_same _ _ _ _ _ E). apply IH.
Qed.

Lemma range_dir_same n : forall st p v f st', map_kernel_range n st p v f = Ok st' -> v_kernelDirectory st' = v_kernelDirectory st.
Proof.
  induction n as [|n IH]; intros st p v f st'; cbn [map_kernel_range]; [by intros [= <-]|].
  intros (s1 & E1 & E2)%obind_Ok. by rewrite (IH _ _ _ _ _ E2), (map_dir_same _ _ _ _ _ E1).
Qed.

Fixpoint unmap_range (n : nat) (st : vmem) (v : Z) : outcome vmem :=
  match n with
  | O => Ok st
  | S n' => let* st := unmap_kernel st v in unmap_range n' st (u32 (v + VM_PAGE_SIZE))
  end.

Lemma free_kernel n : forall st v, free_pages n st (v_kernelDirectory st) v = unmap_range n st v.
Proof.
  induction n as [|n IH]; intros st v; [done|]. cbn [free_pages unmap_range].
  unfold __vm_mapPage__noLock, unmap_kernel. rewrite Z.eqb_refl.
  destruct (map_kernel st 0 v 0) as [s1| | |] eqn:E; cbn [obind]; [|done..].
  rewrite <- (map_dir_same _ _ _ _ _ E). apply IH.
Qed.

Lemma space_locked st b : space_wf st -> space_wf (set_locked st b).
Proof. intros [H1 H2 H3 H4]. by constructor. Qed.

(** [vm_alloc] and [vm_free] on the kernel directory, the lock aside. *)
Lemma vm_allocLimit_kernel st p pages limit upper flags : v_kernelDirectory st = D -> v_lock st = false ->
  vm_allocLimit st D p pages limit upper flags =
  (let* (v, st) := alloc_kernel_limits (set_locked st true) p pages limit upper flags in Ok (v, vm_unlock st)).
Proof.
  intros HD Hl. unfold vm_allocLimit, enter_directory, leave_directory, vm_lock, alloc_in, find_in.
  rewrite HD, Z.eqb_refl. cbn [obind]. rewrite Hl. cbn [obind set_locked v_kernelDirectory]. rewrite HD, Z.eqb_refl.
  unfold alloc_kernel_limits.
  destruct (__vm_findFreePages__kernel _ pages limit upper) as [v| | |]; cbn [obind]; [|done..].
  destruct (v =? 0) eqn:Ev; cbn [negb obind].
  - cbn [set_locked v_kernelDirectory]. by rewrite HD, Z.eqb_refl.
  - rewrite <- HD at 1. change (v_kernelDirectory st) with (v_kernelDirectory (set_locked st true)) at 1. rewrite range_kernel.
    destruct (map_kernel_range (Z.to_nat pages) (set_locked st true) p v flags) as [s1| | |] eqn:E; cbn [obind]; [|done..].
    assert (Hs1 : v_kernelDirectory s1 = D) by (rewrite (range_dir_same _ _ _ _ _ _ E); exact HD).
    by rewrite Hs1, Z.eqb_refl.
Qed.

Lemma vm_alloc_kernel st p pages flags : v_kernelDirectory st = D -> v_lock st = false ->
  vm_alloc st D p pages flags = (let* (v, st) := alloc_kernel (set_locked st true) p pages flags in Ok (v, vm_unlock st)).
Proof. exact (vm_allocLimit_kernel st p pages VM_LOWER_LIMIT VM_UPPER_LIMIT flags). Qed.

(** ** Through the processor's eyes *)

Lemma same_entry_translate st st' v : space_wf st -> space_wf st' -> v_paging st = true -> v_paging st' = true -> is_u32 v ->
  entry (v_phys st') (v / 4096) = entry (v_phys st) (v / 4096) -> translate st' v = translate st v.
Proof. intros H1 H2 H3 H4 Hv E. rewrite !translate_view by done. unfold view. by rewrite E. Qed.

Lemma translate_entry st k p flags x : space_wf st -> v_paging st = true -> 0 <= k < 2 ^ 20 ->
  entry (v_phys st) k = Z.lor p flags -> 0 <= p < 2 ^ 32 -> p mod 4096 = 0 -> 0 <= flags < 4096 -> Z.odd flags = true ->
  0 <= x < 4096 -> translate st (k * 4096 + x) = Ok (p + x).
Proof.
  intros Hs Hon Hk He Hp Hal Hf Hodd Hx. rewrite translate_view by (done || unfold is_u32; lia).
  replace ((k * 4096 + x) / 4096) with k by divmod. unfold view. rewrite !He, entry_present by done. rewrite Hodd.
  rewrite entry_frame by done. f_equal. divmod.
Qed.

Lemma unmapped_translate st v : space_wf st -> v_paging st = true -> is_u32 v ->
  entry (v_phys st) (v / 4096) = 0 -> translate st v = Fault.
Proof. intros Hs Hon Hv E. rewrite translate_view by done. unfold view. by rewrite E. Qed.

Lemma region_translate st st' k n p flags x : range_effect st st' k n (fun d => Z.lor (p + d * 4096) flags) ->
  v_paging st = true -> 0 <= k -> k + Z.of_nat n <= 2 ^ 20 -> 0 < p -> p mod 4096 = 0 -> p + Z.of_nat n * 4096 <= 2 ^ 32 ->
  0 <= flags < 4096 -> Z.odd flags = true -> 0 <= x < Z.of_nat n * 4096 -> translate st' (k * 4096 + x) = Ok (p + x).
Proof.
  intros [R1 R2 R3 R4 R5 R7 R6 R8] Hon Hk Hb Hp Hal Hr Hf Hodd Hx. destruct R2 as (Hon' & _).
  replace (k * 4096 + x) with ((k + x / 4096) * 4096 + x mod 4096) by divmod.
  rewrite (translate_entry st' (k + x / 4096) (p + x / 4096 * 4096) flags); try done; try (congruence || divmod).
  - f_equal. divmod.
  - rewrite R3 by divmod. done.
Qed.

(** ** Releasing *)

Lemma unmap_range_spec n : forall st k, space_wf st -> mappable_range st k n -> (0 < n)%nat ->
  can_alloc (missing (v_phys st) (k / 1024) (range_end k n / 1024)) (v_pages st) ->
  exists st', unmap_range n st (k * 4096) = Ok st' /\ range_effect st st' k n (fun _ => 0).
Proof.
  induction n as [|n IH]; intros st k Hs Hm Hn Hc; [lia|].
  assert (Hk : mappable st k) by (rewrite <- (Z.add_0_r k); apply Hm; lia).
  assert (Hke : k / 1024 <= range_end k (S n) / 1024) by (apply Z.div_le_mono; unfold range_end; lia).
  destruct (map_spec st 0 k 0 Hs Hk) as (st1 & E1 & Ef1).
  { split_and!; (lia || done || by right). }
  { rewrite missing_cons in Hc by done. destruct (has_table (v_phys st) (k / 1024)); [by left|right]. apply Hc. }
  cbn [unmap_range]. unfold unmap_kernel. rewrite E1. cbn [obind]. destruct n as [|n].
  { eexists. split; [done|]. apply range_one; [apply Hk|]. exact Ef1. }
  assert (Hl : mappable st (k + Z.of_nat (S n))) by (apply Hm; lia). destruct Hl as (Hl & _), Hk as (Hk & _).
  change VM_PAGE_SIZE with 4096. rewrite u32_small by lia.
  replace (k * 4096 + 4096) with ((k + 1) * 4096) by lia.
  destruct (IH st1 (k + 1)) as (st2 & E2 & Ef2); [apply Ef1| |lia| |].
  { intros d Hd. apply (mappable_mode st); [apply Ef1|]. replace (k + 1 + d) with (k + (d + 1)) by lia. apply Hm. lia. }
  { eapply (missing_step st); [lia|lia|lia|exact Ef1|done]. }
  exists st2. split; [done|]. eapply range_step; [lia|lia|lia| |exact Ef1|exact Ef2].
  intros d Hd. by apply Hm.
Qed.

Lemma vm_free_kernel st v pages : v_kernelDirectory st = D -> v_lock st = false ->
  (forall st', unmap_range (Z.to_nat pages) (set_locked st true) v = Ok st' -> v_kernelDirectory st' = D) ->
  vm_free st D v pages = (let* st := unmap_range (Z.to_nat pages) (set_locked st true) v in Ok (vm_unlock st)).
Proof.
  intros HD Hl Hk. unfold vm_free, enter_directory, leave_directory, vm_lock.
  rewrite HD, Z.eqb_refl. cbn [obind]. rewrite Hl. cbn [obind].
  rewrite <- HD at 1. change (v_kernelDirectory st) with (v_kernelDirectory (set_locked st true)) at 1. rewrite free_kernel.
  destruct (unmap_range (Z.to_nat pages) (set_locked st true) v) as [s1| | |]; cbn [obind]; [|done..].
  by rewrite (Hk s1 eq_refl), Z.eqb_refl.
Qed.

(** ** Properties *)

(** the search in the kernel directory.  A request the assertions refuse
    stops the machine.  Any other request returns: the first run of enough
    unmapped pages at or above the lower limit if it ends below the upper one
    (or with the last page of the address space, where the sum wraps to 0), and
    0 when there is no such run.  A slot without a table is counted as 1024
    pages, so the search has to start at a table or at the first page of a slot. *)
Theorem vm_findFreePages_first_fit st pages lower upper :
  space_wf st -> v_paging st = true -> is_u32 pages -> is_u32 lower -> is_u32 upper ->
  lower mod 2 ^ 22 = 0 \/ has_table (v_phys st) (lower / 2 ^ 22) = true ->
  (~ (0 < pages /\ good_limits lower upper) -> __vm_findFreePages__kernel st pages lower upper = Panic) /\
  (0 < pages -> good_limits lower upper ->
   exists v, __vm_findFreePages__kernel st pages lower upper = Ok v /\
     (v <> 0 -> exists k, v = k * 4096 /\ first_run (unmapped (v_phys st)) (lower / 4096) k pages /\ below upper k pages) /\
     (v = 0 -> forall k, lower / 4096 <= k -> (k + pages) * 4096 <= upper -> ~ run (unmapped (v_phys st)) k pages)).
Proof.
  unfold is_u32. intros Hs Hon Hp Hl Hu Hcov. split.
  - intros Hbad. unfold __vm_findFreePages__kernel, find_guards, page_aligned. change VM_PAGE_SIZE with 4096.
    unfold good_limits in Hbad.
    destruct (Z.ltb_spec 0 pages), (Z.leb_spec VM_LOWER_LIMIT lower), (Z.leb_spec upper VM_UPPER_LIMIT); try done.
    destruct (Z.eqb_spec (lower mod 4096) 0), (Z.eqb_spec (upper mod 4096) 0); try done. exfalso. apply Hbad. split_and!; lia.
  - intros Hp0 Hlim. destruct (find_kernel_spec st pages lower upper Hs Hon ltac:(lia) Hlim Hcov) as [(k & E & Hk & Hfr & Hb)|[E Hno]].
    + exists (k * 4096). split_and!; [done| |lia]. intros _. by exists k.
    + exists 0. split_and!; [done|done|]. by intros _.
Qed.

(** What a successful allocation of [pages] pages for the memory at [p] needs. *)
Record alloc_ready (st : vmem) (p pages flags : Z) : Prop := {
  ar_space : space_wf st;
  ar_paging : v_paging st = true;
  ar_unlocked : v_lock st = false;
  ar_pages : 0 < pages;
  ar_room : has_room st pages;
  ar_frames : good_frames p pages flags;
  ar_present : Z.odd flags = true;
  ar_tables k : kernel_fit st k pages -> tables_available st k pages
}.

(** Addresses whose mapping a range of pages from [k] leaves alone: outside the
    range, outside the window, and not in the uncleared part of a new table. *)
Definition unaffected (st : vmem) (k pages v : Z) : Prop :=
  is_u32 v /\ (v / 4096 < k \/ k + pages <= v / 4096) /\ v / 4096 / 1024 <> 255 /\
  ~ range_stale (v_phys st) k (Z.to_nat pages) (v / 4096).

Lemma alloc_effect st p pages flags : alloc_ready st p pages flags ->
  exists k st', vm_alloc st D p pages flags = Ok (k * 4096, vm_unlock st') /\ 1 < k /\ k + pages <= 255 * 1024 /\
    kernel_fit st k pages /\ range_effect (set_locked st true) st' k (Z.to_nat pages) (fun d => Z.lor (p + d * 4096) flags).
Proof.
  intros [A1 A2 A3 A4 A5 A6 A7 A8]. rewrite vm_alloc_kernel by (done || apply A1).
  destruct (alloc_kernel_spec (set_locked st true) p pages flags) as (k & st' & E & H); try done; [by apply space_locked|].
  exists k, st'. rewrite E. done.
Qed.

(** C33: [vm_alloc] in the kernel directory.  When there is room, it takes the
    first fit above page 0 and below the window; the processor then finds the
    physical memory at [p] there, byte for byte, and every unaffected address
    leads where it led before; the memory handed out to others keeps its
    contents.  The paging structures stay well formed and the lock is free
    again. *)
Theorem vm_alloc_maps st p pages flags : alloc_ready st p pages flags ->
  exists k st', vm_alloc st D p pages flags = Ok (k * 4096, st') /\ k + pages <= 255 * 1024 /\
    kernel_fit st k pages /\ space_wf st' /\ v_lock st' = false /\
    (forall x, 0 <= x < pages * 4096 -> translate st' (k * 4096 + x) = Ok (p + x)) /\
    (forall v, unaffected st k pages v -> translate st' v = translate st v) /\ keeps_plain st st'.
Proof.
  intros Hr. destruct (alloc_effect st p pages flags Hr) as (k & st' & E & Hk & Hb & Hfit & Heff).
  destruct Hr as [A1 A2 A3 A4 A5 (F1 & F2 & F3 & F4) A7 A8]. pose proof (re_space _ _ _ _ _ Heff) as Hs'.
  pose proof (re_mode _ _ _ _ _ Heff) as (Hon' & _). cbn [set_locked v_paging] in Hon'.
  exists k, (vm_unlock st'). split_and!; [done|done|done|by apply space_locked|done| | |exact (re_plain _ _ _ _ _ Heff)].
  - intros x Hx. change (translate (vm_unlock st')) with (translate st').
    eapply region_translate; [exact Heff|done|lia|lia|done|done|lia|done|done|lia].
  - intros v (Hv & Hout & H255 & Hst). apply same_entry_translate; try done; [by apply space_locked|cbn; congruence|].
    apply (re_others _ _ _ _ _ Heff); [unfold is_u32 in Hv; divmod|lia|done|done].
Qed.

Lemma missing_none m s t : (forall l, s <= l <= t -> has_table m l = true) -> missing m s t = 0%nat.
Proof.
  intros H. unfold missing.
  assert (Hx : forall l, l ∈ seqZ s (t - s + 1) -> has_table m l = true) by (intros l Hl%elem_of_seqZ; apply H; lia).
  revert Hx. generalize (seqZ s (t - s + 1)) as ls. induction ls as [|l ls IH]; intros Hx; [done|].
  rewrite filter_cons, decide_False by (rewrite Hx by constructor; done). apply IH. intros. apply Hx. by constructor.
Qed.

(** A range that has been mapped has its tables. *)
Lemma mapped_tables st st' k n w : range_effect st st' k n w -> 0 <= k -> k + Z.of_nat n <= 2 ^ 20 -> (0 < n)%nat ->
  forall l, k / 1024 <= l <= range_end k n / 1024 -> has_table (v_phys st') l = true.
Proof.
  intros Heff Hk Hb Hn l Hl. rewrite (re_tables _ _ _ _ _ Heff) by (unfold range_end in Hl; divmod).
  rewrite !(proj2 (Z.leb_le _ _)) by lia. apply orb_true_r.
Qed.

(** Releasing a mapped range of the kernel directory. *)
Lemma free_effect st k n : space_wf st -> v_lock st = false -> 1 < k -> k + Z.of_nat n <= 255 * 1024 -> (0 < n)%nat ->
  (forall l, k / 1024 <= l <= range_end k n / 1024 -> has_table (v_phys st) l = true) ->
  exists st', vm_free st D (k * 4096) (Z.of_nat n) = Ok (vm_unlock st') /\ range_effect (set_locked st true) st' k n (fun _ => 0).
Proof.
  intros Hs Hl Hk Hb Hn Ht. destruct (unmap_range_spec n (set_locked st true) k) as (st' & E & Heff).
  - by apply space_locked.
  - intros d Hd. unfold mappable. split_and!; [lia|lia|divmod|lia].
  - done.
  - rewrite missing_none; done.
  - exists st'. split; [|done]. rewrite vm_free_kernel; rewrite ?Nat2Z.id; [by rewrite E|apply Hs|done|].
    intros s Es. rewrite E in Es. injection Es as <-. apply Heff.
Qed.

(** releasing what was just allocated.  [vm_free] then succeeds, none of
    the region's addresses leads anywhere any more, every address the
    allocation left alone still leads where it led before it, no memory in use
    changes its contents, and no page is taken or given back: tables made on
    the way stay. *)
Theorem vm_alloc_free_roundtrip st p pages flags : alloc_ready st p pages flags ->
  exists k st1 st2, vm_alloc st D p pages flags = Ok (k * 4096, st1) /\ vm_free st1 D (k * 4096) pages = Ok st2 /\
    space_wf st2 /\ v_lock st2 = false /\ v_pages st2 = v_pages st1 /\
    (forall x, 0 <= x < pages * 4096 -> translate st (k * 4096 + x) = Fault /\ translate st2 (k * 4096 + x) = Fault) /\
    (forall v, unaffected st k pages v -> translate st2 v = translate st v) /\ keeps_plain st st2.
Proof.
  intros Hr. destruct (alloc_effect st p pages flags Hr) as (k & st1 & E & Hk & Hb & Hfit & Heff).
  destruct Hr as [A1 A2 A3 A4 A5 A6 A7 A8]. pose proof (re_space _ _ _ _ _ Heff) as Hs1.
  assert (Hn : Z.of_nat (Z.to_nat pages) = pages) by lia.
  pose proof (mapped_tables _ _ _ _ _ Heff ltac:(lia) ltac:(lia) ltac:(lia)) as Ht.
  destruct (free_effect (vm_unlock st1) k (Z.to_nat pages)) as (st2 & E2 & Heff2); [by apply space_locked|done|lia|lia|lia|exact Ht|].
  pose proof (re_space _ _ _ _ _ Heff2) as Hs2. rewrite Hn in E2.
  assert (Hon2 : v_paging st2 = true).
  { destruct (re_mode _ _ _ _ _ Heff2) as (-> & _), (re_mode _ _ _ _ _ Heff) as (Hon & _). cbn in *. congruence. }
  exists k, (vm_unlock st1), (vm_unlock st2). split_and!; [done|done|by apply space_locked|done| | | |
    eapply keeps_plain_trans; [exact (re_plain _ _ _ _ _ Heff)|exact (re_plain _ _ _ _ _ Heff2)]].
  - cbn [vm_unlock set_locked v_pages]. rewrite (re_pages _ _ _ _ _ Heff2); [done|]. by apply missing_none.
  - intros x Hx. assert (Hv : is_u32 (k * 4096 + x)) by (unfold is_u32; lia).
    assert (Hpage : (k * 4096 + x) / 4096 = k + x / 4096) by divmod.
    split.
    + rewrite translate_view by done. rewrite Hpage. destruct Hfit as (_ & Hrun & _).
      specialize (Hrun (x / 4096) ltac:(divmod)). unfold unmapped in Hrun. apply andb_prop in Hrun as [_ Hrun].
      unfold view. by destruct (present _).
    + change (translate (vm_unlock st2)) with (translate st2). apply unmapped_translate; try done.
      rewrite Hpage. apply (re_entry _ _ _ _ _ Heff2). divmod.
  - intros v (Hv & Hout & H255 & Hst).
    apply same_entry_translate; try done; [by apply space_locked|]. cbn [vm_unlock set_locked v_phys].
    assert (Hr : 0 <= v / 4096 < 2 ^ 20) by (unfold is_u32 in Hv; divmod).
    rewrite (re_others _ _ _ _ _ Heff2); [apply (re_others _ _ _ _ _ Heff); (done || lia)|done|lia|done|].
    intros (Hx & Hy & _). cbn [set_locked vm_unlock v_phys] in Hx. rewrite Ht in Hx; [done|lia].
Qed.

(** ** Resolving an address *)

(** A temporary mapping of one page and its removal. *)
Lemma temp_mapping st p : space_wf st -> v_paging st = true -> has_room st 1 -> 0 < p < 2 ^ 32 -> p mod 4096 = 0 ->
  (forall k, kernel_fit st k 1 -> tables_available st k 1) ->
  exists t st1 st2, alloc_kernel st p 1 VM_FLAGS_KERNEL = Ok (t * 4096, st1) /\ unmap_kernel st1 (t * 4096) = Ok st2 /\
    kernel_fit st t 1 /\ 1 < t < 255 * 1024 /\
    range_effect st st1 t 1 (fun d => Z.lor (p + d * 4096) VM_FLAGS_KERNEL) /\ range_effect st1 st2 t 1 (fun _ => 0).
Proof.
  intros Hs Hon Hroom Hp Hal Hta. unfold VM_FLAGS_KERNEL.
  destruct (alloc_kernel_spec st p 1 3 Hs Hon ltac:(lia) Hroom) as (t & st1 & E1 & Ht & Hb & Hfit & Heff); [|done|].
  { unfold good_frames. split_and!; (lia || done || divmod). }
  pose proof (re_space _ _ _ _ _ Heff) as Hs1.
  destruct (unmap_range_spec 1 st1 t Hs1) as (st2 & E2 & Heff2); [|lia| |].
  { intros d Hd. unfold mappable. split_and!; [lia|lia|divmod|lia]. }
  { rewrite missing_none; [done|]. apply (mapped_tables _ _ _ _ _ Heff); lia. }
  exists t, st1, st2. split_and!; try done; try lia. cbn [unmap_range] in E2. by rewrite obind_ret in E2.
Qed.

Section Resolve.
Context (st : vmem) (v : Z).
Context (Hs : space_wf st) (Hon : v_paging st = true) (Hv : is_u32 v) (H255 : v / 4096 / 1024 <> 255).
Context (Hroom : has_room st 1) (Hta : forall k, kernel_fit st k 1 -> tables_available st k 1).
#[local] Abbreviation j := (v / 4096).

Lemma resolve_page : 0 <= j < 2 ^ 20 /\ 0 <= j / 1024 < 1024.
Proof using All. unfold is_u32 in Hv. split; divmod. Qed.

(** What the walk finds: the entry of the page, but the temporary mapping's own
    for the page that mapping is put at. *)
Lemma getPagetableEntry_spec : exists x st', __vm_getPagetableEntry st D v = Ok (x, st') /\
  space_wf st' /\ same_mode st st' /\
  (~ kernel_fit st j 1 -> x = if present (entry (v_phys st) j) then entry (v_phys st) j else 0) /\
  (kernel_fit st j 1 -> forall e, word (v_phys st) D (j / 1024) = Some e -> present e = true -> x = Z.lor (frame e) VM_FLAGS_KERNEL) /\
  forall i, 0 <= i < 2 ^ 20 -> i / 1024 <> 255 -> (forall t, kernel_fit st t 1 -> ~ range_stale (v_phys st) t 1 i) ->
    view (v_phys st') i = view (v_phys st) i.
Proof using All.
  destruct resolve_page as [Hj Hsl]. unfold __vm_getPagetableEntry. change VM_PAGE_SIZE with 4096. change VM_PAGETABLE_LENGTH with 1024.
  destruct (vload_dir st (j / 1024) Hs Hsl) as (e & He & Hu & Hl). rewrite (sw_dir _ Hs) in Hl. rewrite Hl. cbn [obind].
  destruct (present e) eqn:Hp; cbn [negb].
  2: { exists 0, st. split_and!; try done; [|intros _ e' He'; congruence]. intros _. unfold entry. by rewrite He, Hp. }
  destruct (frame_aligned e Hu) as [Hal Hfr]. pose proof (tw_nonzero _ _ (sw_tables _ Hs) _ e Hsl He Hp) as Hnz.
  destruct (temp_mapping st (frame e) Hs Hon Hroom) as (t & st1 & st2 & E1 & E2 & Hfit & Ht & Ef1 & Ef2); [unfold is_u32 in Hu; lia|done|done|].
  rewrite E1. cbn [obind]. pose proof (re_space _ _ _ _ _ Ef1) as Hs1. pose proof (re_mode _ _ _ _ _ Ef1) as Hm1.
  assert (Hon1 : v_paging st1 = true) by (destruct Hm1 as (-> & _); done).
  assert (Hhas : has_table (v_phys st) (j / 1024) = true) by (unfold has_table; by rewrite He).
  assert (He1 : word (v_phys st1) D (j / 1024) = Some e) by (by rewrite (re_dir _ _ _ _ _ Ef1)).
  assert (Hload : vload st1 (t * 4096 + 4 * (j mod 1024)) = Ok (entry (v_phys st1) j)).
  { unfold vload. rewrite u32_small by divmod.
    rewrite (region_translate _ _ _ _ _ _ (4 * (j mod 1024)) Ef1); try done; try lia; try (unfold is_u32, VM_FLAGS_KERNEL in *; divmod).
    cbn [obind]. rewrite pload_word. unfold entry. rewrite He1, Hp.
    destruct (tw_table _ _ (sw_tables _ Hs1) _ e Hsl He1 Hp) as [Hth _]. destruct (Hth (j mod 1024) ltac:(divmod)) as (w & -> & _). done. }
  rewrite Hload. cbn [obind]. rewrite E2. cbn [obind]. do 2 eexists. split_and!; [done|apply Ef2|eapply same_mode_trans; [done|apply Ef2]| | |].
  - intros Hnf. assert (j <> t) by (intros Hjt; apply Hnf; by rewrite Hjt).
    rewrite (re_others _ _ _ _ _ Ef1); [done|done|lia|done|]. intros (Hx & _). congruence.
  - intros Hf e' He' Hp'. assert (e' = e) as -> by congruence.
    assert (Hjt : j = t).
    { destruct Hf as (F1 & F2 & F3), Hfit as (G1 & G2 & G3). destruct (Z.lt_trichotomy j t) as [|[|]]; [|done|]; exfalso.
      - by apply (G3 j).
      - by apply (F3 t). }
    pose proof (re_entry _ _ _ _ _ Ef1 0 ltac:(lia)) as Hent. cbn beta in Hent. rewrite Z.mul_0_l, !Z.add_0_r in Hent. rewrite Hjt, Hent.
    rewrite entry_present by (unfold is_u32, VM_FLAGS_KERNEL in *; lia). done.
  - intros i Hi Hi255 Hst. unfold view. destruct (Z.eq_dec i t) as [->|Hne].
    + pose proof (re_entry _ _ _ _ _ Ef2 0 ltac:(lia)) as Hent. cbn beta in Hent. rewrite Z.add_0_r in Hent. rewrite Hent.
      destruct Hfit as (_ & Hrun & _). specialize (Hrun 0 ltac:(lia)). rewrite Z.add_0_r in Hrun.
      unfold unmapped in Hrun. apply andb_prop in Hrun as [_ Hrun]. by destruct (present (entry (v_phys st) t)).
    + rewrite (re_others _ _ _ _ _ Ef2); [|done|lia|done|].
      * rewrite (re_others _ _ _ _ _ Ef1); [done|done|lia|done|by apply Hst].
      * intros (Hx & Hy & _). rewrite (mapped_tables _ _ _ _ _ Ef1) in Hx; [done|lia|lia|lia|done].
Qed.
End Resolve.

Lemma page_offset a v : a mod 4096 = 0 -> 0 <= v -> Z.lor a (Z.land v 0xFFF) = a + v mod 4096.
Proof.
  intros Ha Hv. change 0xFFF with (Z.ones 12). rewrite Z.land_ones by lia. change (2 ^ 12) with 4096.
  apply lor_page; [done|divmod].
Qed.

(** C34: resolving a virtual address in the kernel directory agrees with the
    processor's walk (0 for an address that leads nowhere) and leaves the
    address space as it was, except for the first unmapped page: the routine
    maps the table it reads at just that page, so an address in it resolves to
    the table's own frame when there is one. *)
Theorem vm_resolve_translates st v :
  space_wf st -> v_paging st = true -> v_lock st = false -> is_u32 v -> v / 4096 / 1024 <> 255 ->
  has_room st 1 -> (forall k, kernel_fit st k 1 -> tables_available st k 1) ->
  exists a st', vm_resolveVirtualAddress st D v = Ok (a, st') /\ space_wf st' /\ v_lock st' = false /\
    (~ kernel_fit st (v / 4096) 1 -> a = match translate st v with Ok a => a | _ => 0 end) /\
    (kernel_fit st (v / 4096) 1 -> forall e, word (v_phys st) D (v / 4096 / 1024) = Some e -> present e = true ->
       a = frame e + v mod 4096) /\
    (forall u, is_u32 u -> u / 4096 / 1024 <> 255 -> (forall t, kernel_fit st t 1 -> ~ range_stale (v_phys st) t 1 (u / 4096)) ->
       translate st' u = translate st u).
Proof.
  intros Hs Hon Hl Hv H255 Hroom Hta. pose proof (space_locked st true Hs) as Hs0.
  destruct (getPagetableEntry_spec (set_locked st true) v Hs0 Hon Hv H255 Hroom Hta) as (x & st' & E & Hs' & Hm & Hx1 & Hx2 & Hview).
  unfold vm_resolveVirtualAddress, enter_directory, leave_directory, vm_lock. rewrite (sw_dir _ Hs), Z.eqb_refl. cbn [obind].
  rewrite Hl. cbn [obind]. rewrite E. cbn [obind]. rewrite (sw_dir _ Hs'), Z.eqb_refl. cbn [obind].
  do 2 eexists. split_and!; [done|by apply space_locked|done| | |].
  - intros Hnf. rewrite (Hx1 Hnf), translate_view by done. unfold view. cbn [set_locked v_phys].
    destruct (present (entry (v_phys st) (v / 4096))) eqn:Hp; [|done]. rewrite Hp.
    apply page_offset; [|unfold is_u32 in Hv; lia]. apply frame_aligned. apply (entry_in_range _ (v_pages st)); [apply Hs|]. unfold is_u32 in Hv. divmod.
  - intros Hf e He Hp. rewrite (Hx2 Hf e He Hp).
    assert (Hu : is_u32 e) by (apply (dir_present _ _ (v / 4096 / 1024) _ (sw_tables _ Hs)); [unfold is_u32 in Hv; divmod|done]).
    destruct (frame_aligned e Hu) as [Hal Hfr]. unfold is_u32, VM_FLAGS_KERNEL in *.
    rewrite entry_present by lia. change (Z.odd 3) with true. cbv iota. rewrite entry_frame by lia. apply page_offset; lia.
  - intros u Hu Hu255 Hst. assert (Hon' : v_paging st' = true) by (destruct Hm as (-> & _); done).
    change (translate (vm_unlock st')) with (translate st'). rewrite !translate_view by done.
    rewrite Hview; [done|unfold is_u32 in Hu; divmod|done|done].
Qed.

(** ** The small machine with its directory set up *)

Definition demo_before : vmem := Vmem (v_phys demo_machine) demo_pages false true 0 false.
Definition demo_directory : vmem := Vmem (boot_dir (v_phys demo_machine)) demo_pages false true D false.
Definition started (st : vmem) : vmem := Vmem (v_phys st) (v_pages st) true false D false.

Lemma demo_context : exists st, vm_createKernelContext demo_before = Ok st /\ map_effect demo_directory st 1 (D + 3).
Proof.
  destruct (map_spec demo_directory D 1 VM_FLAGS_KERNEL (boot_dir_space demo_machine demo_boot_memory demo_tail_clear)) as (st & E & H).
  - unfold mappable. split_and!; [lia..|done|done].
  - unfold good_target, D, VM_FLAGS_KERNEL. split_and!; (lia || done).
  - right. change (fst (alloc_page demo_pages) <> 0). vm_compute. discriminate.
  - exists st. split; [|exact H]. rewrite <- E. exact (createKernelContext_runs demo_machine demo_boot_memory).
Qed.

Section Started.
Context (st : vmem) (Hst : map_effect demo_directory st 1 (D + 3)).
#[local] Abbreviation demo_space := (started st).

Lemma demo_space_wf : space_wf demo_space.
Proof using Hst. destruct Hst as [[M1 _ _ _] _ M3 _ _ _ _]. constructor; [exact M1|reflexivity|reflexivity|]. intros _. exact M3. Qed.

Lemma demo_unmapped k : 2 <= k < 256 -> unmapped (v_phys demo_space) k = true.
Proof using Hst.
  intros Hk. unfold unmapped. rewrite (proj2 (Z.ltb_lt _ _)) by lia. change (v_phys demo_space) with (v_phys st).
  rewrite (me_others _ _ _ _ Hst).
  - unfold entry. assert (k / 1024 = 0) as -> by divmod.
    pose proof (boot_no_table demo_machine demo_boot_memory 0 ltac:(lia)) as Ht. unfold has_table in Ht.
    change (v_phys demo_directory) with (boot_dir (v_phys demo_machine)).
    destruct (word (boot_dir (v_phys demo_machine)) D 0); [by rewrite Ht|done].
  - lia.
  - lia.
  - divmod.
  - intros (_ & _ & H). divmod.
Qed.

Lemma demo_fit k pages : 0 < pages <= 254 -> kernel_fit demo_space k pages <-> k = 2.
Proof using Hst.
  intros Hp. assert (Hr : run (unmapped (v_phys demo_space)) 2 pages) by (intros d Hd; apply demo_unmapped; lia).
  assert (H1 : ~ run (unmapped (v_phys demo_space)) 1 pages).
  { intros H. specialize (H 0 ltac:(lia)). rewrite Z.add_0_r, page_one_mapped in H; [done|apply demo_space_wf|reflexivity]. }
  split.
  - intros (Hlo & Hk & Hmin). destruct (Z.lt_trichotomy k 2) as [|[|]]; [|done|].
    + assert (k = 1) as -> by lia. done.
    + exfalso. apply (Hmin 2); [lia|done].
  - intros ->. split_and!; [lia|done|]. intros k' Hk'. assert (k' = 1) as -> by lia. done.
Qed.

Lemma demo_tables k pages : 0 < pages <= 254 -> kernel_fit demo_space k pages -> tables_available demo_space k pages.
Proof using Hst.
  intros Hp ->%demo_fit; [|done]. unfold tables_available. rewrite missing_none; [exact I|].
  intros l Hl. assert (l = 0) as -> by divmod. apply slot_zero; [apply demo_space_wf|reflexivity].
Qed.

Lemma demo_has_room pages : 0 < pages <= 254 -> has_room demo_space pages.
Proof using Hst. intros Hp. exists 2. split_and!; [lia|lia|]. intros d Hd. apply demo_unmapped. lia. Qed.

Lemma demo_ready : alloc_ready demo_space 0x80000 3 VM_FLAGS_KERNEL.
Proof using Hst.
  constructor.
  - exact demo_space_wf.
  - reflexivity.
  - reflexivity.
  - lia.
  - apply demo_has_room. lia.
  - unfold good_frames, VM_FLAGS_KERNEL. split_and!; (lia || done).
  - reflexivity.
  - intros k Hk. by apply demo_tables.
Qed.
End Started.

Lemma vm_findFreePages_first_fit_witness :
  exists st v, vm_createKernelContext demo_before = Ok st /\ __vm_findFreePages__kernel (started st) 0 4096 8192 = Panic /\
    __vm_findFreePages__kernel (started st) 5 VM_LOWER_LIMIT VM_UPPER_LIMIT = Ok v /\ (v <> 0 -> v = 0x2000).
Proof.
  destruct demo_context as (st & Est & H). pose proof (demo_space_wf st H) as Hs.
  pose proof (slot_zero (started st) Hs eq_refl) as Ht.
  destruct (vm_findFreePages_first_fit (started st) 5 VM_LOWER_LIMIT VM_UPPER_LIMIT Hs eq_refl) as [_ Hf];
    [unfold is_u32, VM_LOWER_LIMIT, VM_UPPER_LIMIT; lia..|right; exact Ht|].
  destruct Hf as (v & E & Hv & _); [lia|unfold good_limits, VM_LOWER_LIMIT, VM_UPPER_LIMIT; split_and!; (lia || done)|].
  exists st, v. split_and!; [exact Est| |exact E|].
  - apply (vm_findFreePages_first_fit (started st) 0 4096 8192 Hs eq_refl); unfold is_u32; try lia. right. exact Ht.
  - intros Hnz. destruct (Hv Hnz) as (k & -> & Hfr & _). apply (demo_fit st H k 5) in Hfr; [subst k; reflexivity|lia].
Defined.

Lemma vm_alloc_maps_witness :
  exists st st', vm_createKernelContext demo_before = Ok st /\
    vm_alloc (started st) D 0x80000 3 VM_FLAGS_KERNEL = Ok (0x2000, st') /\ translate st' 0x2123 = Ok 0x80123.
Proof.
  destruct demo_context as (st & Est & H).
  destruct (vm_alloc_maps (started st) 0x80000 3 VM_FLAGS_KERNEL (demo_ready st H)) as (k & st' & E & _ & Hfit & _ & _ & Hin & _).
  apply (demo_fit st H) in Hfit; [subst k|lia]. exists st, st'. split_and!; [exact Est|exact E|]. exact (Hin 0x123 ltac:(lia)).
Defined.

Lemma vm_alloc_free_roundtrip_witness :
  exists st k st1 st2, vm_createKernelContext demo_before = Ok st /\
    vm_alloc (started st) D 0x80000 3 VM_FLAGS_KERNEL = Ok (k * 4096, st1) /\ vm_free st1 D (k * 4096) 3 = Ok st2 /\
    translate st2 (k * 4096 + 0x123) = Fault.
Proof.
  destruct demo_context as (st & Est & H).
  destruct (vm_alloc_free_roundtrip (started st) 0x80000 3 VM_FLAGS_KERNEL (demo_ready st H)) as (k & st1 & st2 & E & E2 & _ & _ & _ & Hin & _).
  exists st, k, st1, st2. split_and!; [exact Est|exact E|exact E2|]. apply (Hin 0x123). lia.
Defined.

Lemma vm_resolve_translates_witness :
  exists st st1 a st2, vm_createKernelContext demo_before = Ok st /\
    vm_resolveVirtualAddress (started st) D 0x1010 = Ok (0x1010, st1) /\
    vm_resolveVirtualAddress (started st) D 0x2010 = Ok (a, st2) /\ a <> 0 /\ translate (started st) 0x2010 = Fault.
Proof.
  destruct demo_context as (st & Est & H). pose proof (demo_space_wf st H) as Hs. set (s0 := started st) in *.
  assert (Ht : forall k, kernel_fit s0 k 1 -> tables_available s0 k 1) by (intros k; apply (demo_tables st H); lia).
  assert (Hr : has_room s0 1) by (apply (demo_has_room st H); lia).
  destruct (vm_resolve_translates s0 0x1010 Hs eq_refl eq_refl ltac:(unfold is_u32; lia) ltac:(discriminate) Hr Ht)
    as (a1 & st1 & E1 & _ & _ & Hn & _).
  destruct (vm_resolve_translates s0 0x2010 Hs eq_refl eq_refl ltac:(unfold is_u32; lia) ltac:(discriminate) Hr Ht)
    as (a2 & st2 & E2 & _ & _ & _ & Hf & _).
  exists st, st1, a2, st2. change (started st) with s0. split_and!; [exact Est| |exact E2| |].
  - rewrite E1, Hn.
    + rewrite translate_view; [|exact Hs|reflexivity|unfold is_u32; lia].
      change (0x1010 / 4096) with 1. unfold view. rewrite (sw_mapped _ Hs eq_refl). reflexivity.
    + change (0x1010 / 4096) with 1. intros Hx. apply (demo_fit st H) in Hx; lia.
  - pose proof (slot_zero s0 Hs eq_refl) as H0. unfold has_table in H0.
    change (0x2010 / 4096) with 2 in Hf. change (2 / 1024) with 0 in Hf.
    destruct (word (v_phys s0) D 0) as [e|] eqn:He; [|discriminate].
    rewrite (Hf (proj2 (demo_fit st H 2 1 ltac:(lia)) eq_refl) e eq_refl H0).
    pose proof (tw_nonzero _ _ (sw_tables _ Hs) 0 e ltac:(lia) He H0). change (0x2010 mod 4096) with 16. lia.
  - rewrite translate_view; [|exact Hs|reflexivity|unfold is_u32; lia]. change (0x2010 / 4096) with 2.
    pose proof (demo_unmapped st H 2 ltac:(lia)) as Hu. unfold unmapped in Hu. apply andb_prop in Hu as [_ Hu].
    change (v_phys (started st)) with (v_phys s0) in Hu. unfold view. by destruct (present (entry (v_phys s0) 2)).
Defined.
