(* ===== verification/Dma.v ===== *)
(** * Memory for devices (sys/memory/dma.c)

    A DMA region is a run of virtual pages over up to 32 fragments of physical
    memory; its description lives on the kernel heap. *)

From S2P Require Import Prelude Pages PMemory PMemoryBoot HeapSpec CellHeap VMemory VMemoryBoot.

Definition kDMARequestFlagContiguous : Z := 1.
Definition kDMAMaxPhysicalFragments : Z := 32.
Definition sizeof_dma : Z := 268.

Record dma_t := Dma {
  pfragmentCount : Z;
  pfragments : list Z;
  pfragmentPages : list Z;
  dma_pages : Z;
  vaddress : Z
}.

(** The description after [dma_request] has filled in the fields it always sets;
    the arrays are written before they are read. *)
Definition fresh_dma (pages : Z) : dma_t := Dma 0 (replicate 32 0) (replicate 32 0) pages 0.

Definition set_fragment (d : dma_t) (i pmemory npages count : Z) : dma_t :=
  Dma count (<[Z.to_nat i := pmemory]> (pfragments d)) (<[Z.to_nat i := npages]> (pfragmentPages d)) (dma_pages d) (vaddress d).

Definition fragment (d : dma_t) (i : nat) : outcome (Z * Z) :=
  match pfragments d !! i, pfragmentPages d !! i with Some a, Some n => Ok (a, n) | _, _ => Fault end.

(** ** Mapping a region (vmemory.c, [vm_fulfillDMARequest]) *)

Fixpoint map_fragments (n i : nat) (st : vmem) (d : dma_t) (address : Z) : outcome (Z * vmem) :=
  match n with
  | O => Ok (address, st)
  | S n' =>
      let* (pmemory, pages) := fragment d i in
      let* st := map_kernel_range (Z.to_nat pages) st pmemory address VM_FLAGS_KERNEL in
      map_fragments n' (S i) st d (u32 (address + u32 (VM_PAGE_SIZE * pages)))
  end.

Definition vm_fulfillDMARequest (st : vmem) (d : dma_t) : outcome (bool * dma_t * vmem) :=
  let* st := vm_lock st in
  let* address := __vm_findFreePages__kernel st (dma_pages d) VM_LOWER_LIMIT VM_UPPER_LIMIT in
  if negb (address =? 0) then
    let d := Dma (pfragmentCount d) (pfragments d) (pfragmentPages d) (dma_pages d) address in
    let* (address, st) := map_fragments (Z.to_nat (pfragmentCount d)) 0 st d address in
    Ok (negb (address =? 0), d, vm_unlock st)
  else Ok (false, d, vm_unlock st).

(** ** Requests *)

Section Dma.
Context {H : Type} `{KernelHeap H}.

Record dma_state := DmaState { d_heap : H; d_vm : vmem; d_regions : gmap Z dma_t }.

Fixpoint free_fragments (n i : nat) (h : bitmap) (d : dma_t) : outcome bitmap :=
  match n with
  | O => Ok h
  | S n' => let* (pmemory, pages) := fragment d i in free_fragments n' (S i) (pm_free h pmemory pages) d
  end.

(** [d] is what the description at [p] holds. *)
Definition dma_release (s : dma_state) (p : Z) (d : dma_t) : outcome dma_state :=
  let st := d_vm s in
  let* h := free_fragments (Z.to_nat (pfragmentCount d)) 0 (v_pages st) d in
  let st := set_pages st h in
  let* st := if negb (vaddress d =? 0) then vm_free st (vm_getKernelDirectory st) (vaddress d) (dma_pages d) else Ok st in
  let* hp := hfree (d_heap s) p in
  Ok (DmaState hp st (delete p (d_regions s))).

Definition dma_free (s : dma_state) (p : Z) : outcome dma_state :=
  let* d := of_option (d_regions s !! p) in dma_release s p d.

(** The loop that collects fragments.  [pagesLeft] is never decremented and
    [npages] starts from it in every round, so the halved size is forgotten. *)
Fixpoint dma_collect (fuel : nat) (h : bitmap) (d : dma_t) (pagesLeft i : Z) : outcome (bool * dma_t * bitmap) :=
  if (0 <? pagesLeft) && (i <? kDMAMaxPhysicalFragments) then
    match fuel with
    | O => Hang
    | S f =>
        let npages := pagesLeft in
        let '(pmemory, h) := pm_alloc h npages in
        if pmemory =? 0 then
          if npages =? 1 then Ok (false, d, h) else dma_collect f h d pagesLeft i
        else dma_collect f h (set_fragment d i pmemory npages (pfragmentCount d + 1)) pagesLeft (i + 1)
    end
  else Ok (true, d, h).

(** After a failed round the next one is the same, and at most 32 succeed. *)
Definition collect_fuel : nat := 32.

Definition dma_fragments (h : bitmap) (pages flags : Z) : outcome (bool * dma_t * bitmap) :=
  let d := fresh_dma pages in
  if negb (Z.land flags kDMARequestFlagContiguous =? 0) || (pages =? 1) then
    let '(pmemory, h) := pm_alloc h pages in
    Ok (negb (pmemory =? 0), set_fragment d 0 pmemory pages 1, h)
  else dma_collect collect_fuel h d pages 0.

Definition dma_request (s : dma_state) (pages flags : Z) : outcome (Z * dma_state) :=
  let* (p, hp) := halloc (d_heap s) sizeof_dma in
  if p =? NULL then Ok (NULL, DmaState hp (d_vm s) (d_regions s)) else
  let* (ok, d, h) := dma_fragments (v_pages (d_vm s)) pages flags in
  let s := DmaState hp (set_pages (d_vm s) h) (d_regions s) in
  if negb ok then
    if negb (Z.land flags kDMARequestFlagContiguous =? 0) || (pages =? 1)
    then let* hp := hfree hp p in Ok (NULL, DmaState hp (d_vm s) (d_regions s))
    else let* s := dma_release s p d in Ok (NULL, s)
  else
  let* (result, d, st) := vm_fulfillDMARequest (d_vm s) d in
  let s := DmaState hp st (<[p := d]> (d_regions s)) in
  if result then Ok (p, s) else let* s := dma_release s p d in Ok (NULL, s).
End Dma.
Arguments dma_state H : clear implicits.

(** ** The loop takes the whole request 32 times or does not end *)

(** [n] allocations of [pages] pages in a row. *)
Fixpoint granted (n : nat) (h : bitmap) (pages : Z) : option (list Z * bitmap) :=
  match n with
  | O => Some ([], h)
  | S n' =>
      let '(p, h') := pm_alloc h pages in
      if p =? 0 then None else prod_map (cons p) id <$> granted n' h' pages
  end.

Section Collect.
Context (pages : Z) (Hp : 2 <= pages).

(** A round that gets nothing is repeated as it is. *)
Lemma collect_stuck fuel : forall h d i, i < 32 -> fst (pm_alloc h pages) = 0 -> snd (pm_alloc h pages) = h ->
  dma_collect fuel h d pages i = Hang.
Proof using Hp.
  induction fuel as [|f IH]; intros h d i Hi H0 Hh; cbn [dma_collect];
    rewrite (proj2 (Z.ltb_lt 0 pages)), (proj2 (Z.ltb_lt i kDMAMaxPhysicalFragments)) by (unfold kDMAMaxPhysicalFragments; lia); cbn [andb]; [done|].
  destruct (pm_alloc h pages) as [p h'] eqn:E. cbn [fst snd] in H0, Hh. subst p h'.
  rewrite Z.eqb_refl, (proj2 (Z.eqb_neq pages 1)) by lia. apply IH; [done|by rewrite E..].
Qed.

(** A refused allocation changes nothing. *)
Lemma pm_alloc_zero h h' : pm_alloc h pages = (0, h') -> h' = h.
Proof using Hp.
  unfold pm_alloc. destruct (Z.eqb_spec (__pm_findFreePages h 0 pages) 0) as [E|E]; intros [= ? ?]; [done|].
  congruence.
Qed.

Lemma collect_spec n : forall h d pre, (n <= 32)%nat -> length pre = (32 - n)%nat ->
  pfragmentCount d = 32 - Z.of_nat n -> pfragments d = pre ++ replicate n 0 -> pfragmentPages d = replicate (32 - n) pages ++ replicate n 0 ->
  dma_collect n h d pages (32 - Z.of_nat n) =
  match granted n h pages with
  | Some (fs, h') => Ok (true, Dma 32 (pre ++ fs) (replicate 32 pages) (dma_pages d) (vaddress d), h')
  | None => Hang
  end.
Proof using Hp.
  induction n as [|n IH]; intros h d pre Hn Hlen Hc Hf Hg.
  { cbn [dma_collect granted]. change (32 - Z.of_nat 0 <? kDMAMaxPhysicalFragments) with false. rewrite andb_false_r.
    destruct d as [c fs gs ps v]. cbn [pfragmentCount pfragments pfragmentPages dma_pages vaddress] in *.
    subst. cbn [replicate]. rewrite !app_nil_r. done. }
  cbn [dma_collect granted].
  rewrite (proj2 (Z.ltb_lt 0 pages)), (proj2 (Z.ltb_lt _ kDMAMaxPhysicalFragments)) by (unfold kDMAMaxPhysicalFragments; lia). cbn [andb].
  destruct (pm_alloc h pages) as [p h'] eqn:E. destruct (Z.eqb_spec p 0) as [->|Hnz].
  { rewrite (proj2 (Z.eqb_neq pages 1)) by lia. apply pm_alloc_zero in E as Eh. subst h'.
    apply collect_stuck; [lia|by rewrite E..]. }
  replace (32 - Z.of_nat (S n) + 1) with (32 - Z.of_nat n) by lia.
  rewrite (IH h' _ (pre ++ [p])).
  - destruct (granted n h' pages) as [[fs h'']|]; cbn; [|done]. by rewrite <- (assoc_L (++)).
  - lia.
  - rewrite length_app. cbn. lia.
  - cbn [set_fragment pfragmentCount]. lia.
  - cbn [set_fragment pfragments]. rewrite Hf. replace (Z.to_nat (32 - Z.of_nat (S n))) with (length pre + 0)%nat by lia.
    rewrite insert_app_r. cbn [replicate]. by rewrite <- (assoc_L (++)).
  - cbn [set_fragment pfragmentPages]. rewrite Hg.
    replace (Z.to_nat (32 - Z.of_nat (S n))) with (length (replicate (32 - S n) pages) + 0)%nat by (rewrite length_replicate; lia).
    rewrite insert_app_r. cbn [replicate]. replace (32 - n)%nat with (S (32 - S n)) by lia.
    change (<[0%nat := pages]> (0 :: replicate n 0)) with ([pages] ++ replicate n 0). rewrite (assoc_L (++)). f_equal.
    by rewrite <- replicate_cons_app.
Qed.
End Collect.

(** a request for several pages that need not be contiguous.  If the page
    allocator does not grant the whole request 32 times in a row,
    [dma_request] never returns; if it does, the region is given 32 fragments,
    each as large as the request. *)
Theorem dma_request_collects {H : Type} `{KernelHeap H} (s : dma_state H) pages flags p hp :
  2 <= pages -> Z.land flags kDMARequestFlagContiguous = 0 ->
  halloc (d_heap s) sizeof_dma = Ok (p, hp) -> p <> NULL ->
  (granted 32 (v_pages (d_vm s)) pages = None -> dma_request s pages flags = Hang) /\
  (forall fs h', granted 32 (v_pages (d_vm s)) pages = Some (fs, h') ->
    dma_fragments (v_pages (d_vm s)) pages flags = Ok (true, Dma 32 fs (replicate 32 pages) pages 0, h')).
Proof.
  intros Hp Hf Ha Hnz.
  assert (E : dma_fragments (v_pages (d_vm s)) pages flags =
    match granted 32 (v_pages (d_vm s)) pages with
    | Some (fs, h') => Ok (true, Dma 32 fs (replicate 32 pages) pages 0, h')
    | None => Hang
    end).
  { unfold dma_fragments. rewrite Hf, (proj2 (Z.eqb_neq pages 1)) by lia. cbn [Z.eqb negb orb].
    exact (collect_spec pages Hp 32 (v_pages (d_vm s)) (fresh_dma pages) [] (le_n _) eq_refl eq_refl eq_refl eq_refl). }
  split.
  - intros Hg. unfold dma_request. rewrite Ha. cbn [obind]. rewrite (proj2 (Z.eqb_neq _ _)) by done.
    rewrite E, Hg. done.
  - intros fs h' Hg. by rewrite E, Hg.
Qed.

Definition demo_dma : dma_state cell_heap := DmaState (CellHeap ∅) demo_machine ∅.

(** 31 pages are free; a request for two of them is not granted 32 times. *)
Lemma dma_request_collects_witness : dma_request demo_dma 2 0 = Hang.
Proof.
  assert (E : halloc (d_heap demo_dma) sizeof_dma = Ok (slot_size, CellHeap {[1 := sizeof_dma]})) by (change (d_heap demo_dma) with (CellHeap ∅); vm_compute; reflexivity).
  destruct (dma_request_collects demo_dma 2 0 slot_size (CellHeap {[1 := sizeof_dma]}) ltac:(lia) eq_refl E ltac:(discriminate)) as [Hh _].
  apply Hh. change (v_pages (d_vm demo_dma)) with demo_pages. vm_compute. reflexivity.
Defined.
