(* ===== verification/Scheduler.v ===== *)
(** * Threads, processes and the scheduler (sys/scheduler/)

    Threads and processes are records in two stores, linked by their [next]
    pointers.  This file has their data, the operations that change only them,
    and the scheduler; ThreadMemory has the operations that take memory.  The
    locks of single threads and processes are not modelled, [_sd_lock] is. *)

From S2P Require Import Prelude.

Definition THREAD_NULL : Z := UINT32_MAX.
Definition PROCESS_NULL : Z := UINT32_MAX.
Definition THREAD_MAX_TICKS : Z := 10.
Definition THREAD_WANTED_TICKS : Z := 4.
Definition kSDMaxOpenFiles : Z := 512.
Definition kSDInvalidFile : Z := UINT32_MAX.
Definition sizeof_cpu_state : Z := 76.

Inductive thread_event_t := thread_eventDidExit.

Record thread_listener_t := Listener {
  l_event : thread_event_t;
  l_listener : Z;
  l_blocks : bool;
  l_oneShot : bool;
  l_callback : Z
}.

(** [t_listener] is the list's content; that a linked list of the container
    library has one is shown in LinkedList. *)
Record thread_t := Thread {
  t_id : Z; t_entry : Z;
  t_maxTicks : Z; t_usedTicks : Z; t_wantedTicks : Z; t_blocks : Z;
  t_wasNice : bool; t_died : bool;
  t_userStackPages : Z; t_userStack : Z; t_userStackVirt : Z; t_kernelStack : Z; t_kernelStackVirt : Z; t_esp : Z;
  t_arguments : Z; t_argumentCount : Z; t_name : Z;
  t_listener : list thread_listener_t;
  t_tlsVirtual : Z; t_tlsPages : Z;
  t_sleeping : bool; t_alarm : Z;
  t_process : Z; t_next : Z
}.

Record process_t := Process {
  p_pdirectory : Z; p_context : Z; p_pid : Z; p_parent : Z;
  p_died : bool; p_ring0 : bool;
  p_mainThread : Z; p_scheduledThread : Z; p_threadCounter : Z;
  p_startTime : Z; p_image : Z;
  p_files : list Z;
  p_pprocess : Z; p_next : Z
}.

(** The scheduler's variables; [pagedir] and [esp0] are what it stores in the
    trampoline for the next switch. *)
Record sched := Sched {
  s_threads : gmap Z thread_t;
  s_processes : gmap Z process_t;
  s_first : Z; s_current : Z; s_deadProcess : Z; s_deadThread : Z;
  s_lock : bool; s_uid : Z;
  s_pagedir : Z; s_esp0 : Z
}.

(** ** Field updates *)

Definition th_ticks (t : thread_t) (used : Z) : thread_t :=
  Thread (t_id t) (t_entry t) (t_maxTicks t) used (t_wantedTicks t) (t_blocks t) (t_wasNice t) (t_died t)
    (t_userStackPages t) (t_userStack t) (t_userStackVirt t) (t_kernelStack t) (t_kernelStackVirt t) (t_esp t)
    (t_arguments t) (t_argumentCount t) (t_name t) (t_listener t) (t_tlsVirtual t) (t_tlsPages t) (t_sleeping t) (t_alarm t) (t_process t) (t_next t).
Definition th_wanted (t : thread_t) (wanted : Z) : thread_t :=
  Thread (t_id t) (t_entry t) (t_maxTicks t) (t_usedTicks t) wanted (t_blocks t) (t_wasNice t) (t_died t)
    (t_userStackPages t) (t_userStack t) (t_userStackVirt t) (t_kernelStack t) (t_kernelStackVirt t) (t_esp t)
    (t_arguments t) (t_argumentCount t) (t_name t) (t_listener t) (t_tlsVirtual t) (t_tlsPages t) (t_sleeping t) (t_alarm t) (t_process t) (t_next t).
Definition th_sleep (t : thread_t) (blocks : Z) (sleeping : bool) (alarm : Z) : thread_t :=
  Thread (t_id t) (t_entry t) (t_maxTicks t) (t_usedTicks t) (t_wantedTicks t) blocks (t_wasNice t) (t_died t)
    (t_userStackPages t) (t_userStack t) (t_userStackVirt t) (t_kernelStack t) (t_kernelStackVirt t) (t_esp t)
    (t_arguments t) (t_argumentCount t) (t_name t) (t_listener t) (t_tlsVirtual t) (t_tlsPages t) sleeping alarm (t_process t) (t_next t).
Definition th_flags (t : thread_t) (nice died : bool) : thread_t :=
  Thread (t_id t) (t_entry t) (t_maxTicks t) (t_usedTicks t) (t_wantedTicks t) (t_blocks t) nice died
    (t_userStackPages t) (t_userStack t) (t_userStackVirt t) (t_kernelStack t) (t_kernelStackVirt t) (t_esp t)
    (t_arguments t) (t_argumentCount t) (t_name t) (t_listener t) (t_tlsVirtual t) (t_tlsPages t) (t_sleeping t) (t_alarm t) (t_process t) (t_next t).
Definition th_link (t : thread_t) (id next : Z) : thread_t :=
  Thread id (t_entry t) (t_maxTicks t) (t_usedTicks t) (t_wantedTicks t) (t_blocks t) (t_wasNice t) (t_died t)
    (t_userStackPages t) (t_userStack t) (t_userStackVirt t) (t_kernelStack t) (t_kernelStackVirt t) (t_esp t)
    (t_arguments t) (t_argumentCount t) (t_name t) (t_listener t) (t_tlsVirtual t) (t_tlsPages t) (t_sleeping t) (t_alarm t) (t_process t) next.
Definition th_esp (t : thread_t) (esp : Z) : thread_t :=
  Thread (t_id t) (t_entry t) (t_maxTicks t) (t_usedTicks t) (t_wantedTicks t) (t_blocks t) (t_wasNice t) (t_died t)
    (t_userStackPages t) (t_userStack t) (t_userStackVirt t) (t_kernelStack t) (t_kernelStackVirt t) esp
    (t_arguments t) (t_argumentCount t) (t_name t) (t_listener t) (t_tlsVirtual t) (t_tlsPages t) (t_sleeping t) (t_alarm t) (t_process t) (t_next t).
Definition th_listener (t : thread_t) (ls : list thread_listener_t) : thread_t :=
  Thread (t_id t) (t_entry t) (t_maxTicks t) (t_usedTicks t) (t_wantedTicks t) (t_blocks t) (t_wasNice t) (t_died t)
    (t_userStackPages t) (t_userStack t) (t_userStackVirt t) (t_kernelStack t) (t_kernelStackVirt t) (t_esp t)
    (t_arguments t) (t_argumentCount t) (t_name t) ls (t_tlsVirtual t) (t_tlsPages t) (t_sleeping t) (t_alarm t) (t_process t) (t_next t).

Definition pr_threads (p : process_t) (main scheduled counter : Z) : process_t :=
  Process (p_pdirectory p) (p_context p) (p_pid p) (p_parent p) (p_died p) (p_ring0 p) main scheduled counter
    (p_startTime p) (p_image p) (p_files p) (p_pprocess p) (p_next p).
Definition pr_next (p : process_t) (next : Z) : process_t :=
  Process (p_pdirectory p) (p_context p) (p_pid p) (p_parent p) (p_died p) (p_ring0 p) (p_mainThread p) (p_scheduledThread p) (p_threadCounter p)
    (p_startTime p) (p_image p) (p_files p) (p_pprocess p) next.
Definition pr_files (p : process_t) (files : list Z) : process_t :=
  Process (p_pdirectory p) (p_context p) (p_pid p) (p_parent p) (p_died p) (p_ring0 p) (p_mainThread p) (p_scheduledThread p) (p_threadCounter p)
    (p_startTime p) (p_image p) files (p_pprocess p) (p_next p).
Definition pr_died (p : process_t) : process_t :=
  Process (p_pdirectory p) (p_context p) (p_pid p) (p_parent p) true (p_ring0 p) (p_mainThread p) (p_scheduledThread p) (p_threadCounter p)
    (p_startTime p) (p_image p) (p_files p) (p_pprocess p) (p_next p).

Definition set_threads (s : sched) (m : gmap Z thread_t) : sched :=
  Sched m (s_processes s) (s_first s) (s_current s) (s_deadProcess s) (s_deadThread s) (s_lock s) (s_uid s) (s_pagedir s) (s_esp0 s).
Definition set_processes (s : sched) (m : gmap Z process_t) : sched :=
  Sched (s_threads s) m (s_first s) (s_current s) (s_deadProcess s) (s_deadThread s) (s_lock s) (s_uid s) (s_pagedir s) (s_esp0 s).
Definition set_current (s : sched) (p : Z) : sched :=
  Sched (s_threads s) (s_processes s) (s_first s) p (s_deadProcess s) (s_deadThread s) (s_lock s) (s_uid s) (s_pagedir s) (s_esp0 s).
Definition set_sdlock (s : sched) (b : bool) : sched :=
  Sched (s_threads s) (s_processes s) (s_first s) (s_current s) (s_deadProcess s) (s_deadThread s) b (s_uid s) (s_pagedir s) (s_esp0 s).
Definition set_dead (s : sched) (p t : Z) : sched :=
  Sched (s_threads s) (s_processes s) (s_first s) (s_current s) p t (s_lock s) (s_uid s) (s_pagedir s) (s_esp0 s).

Definition thread_at (s : sched) (t : Z) : outcome thread_t := of_option (s_threads s !! t).
Definition process_at (s : sched) (p : Z) : outcome process_t := of_option (s_processes s !! p).
Definition put_thread (s : sched) (t : Z) (th : thread_t) : sched := set_threads s (<[t := th]> (s_threads s)).
Definition put_process (s : sched) (p : Z) (pr : process_t) : sched := set_processes s (<[p := pr]> (s_processes s)).

Definition lock_sd (s : sched) : outcome sched := if s_lock s then Hang else Ok (set_sdlock s true).

(** ** scheduler.c *)

Definition process_getCurrentProcess (s : sched) : Z := s_current s.
Definition process_getFirstProcess (s : sched) : Z := s_first s.

Definition process_getCollectableProcesses (s : sched) : outcome (Z * sched) :=
  let* s := lock_sd s in
  Ok (s_deadProcess s, set_sdlock (set_dead s NULL (s_deadThread s)) false).

Definition thread_getCollectableThreads (s : sched) : outcome (Z * sched) :=
  let* s := lock_sd s in
  Ok (s_deadThread s, set_sdlock (set_dead s (s_deadProcess s) NULL) false).

Definition thread_getCurrentThread (s : sched) : outcome Z :=
  let* p := process_at s (s_current s) in Ok (p_scheduledThread p).

Definition _process_setFirstProcess (s : sched) (p : Z) : sched :=
  Sched (s_threads s) (s_processes s) p p (s_deadProcess s) (s_deadThread s) (s_lock s) (s_uid s) (s_pagedir s) (s_esp0 s).

(** The walks have as much fuel as there are nodes. *)
Fixpoint previous_process (fuel : nat) (s : sched) (previous process : Z) : outcome Z :=
  if previous =? NULL then Ok NULL else
  match fuel with
  | O => Hang
  | S f =>
      let* p := process_at s previous in
      if p_next p =? process then Ok previous else previous_process f s (p_next p) process
  end.

Definition _sd_processPreviousProcess (s : sched) (process : Z) : outcome Z :=
  previous_process (size (s_processes s)) s (s_first s) process.

Fixpoint previous_thread (fuel : nat) (s : sched) (previous thread : Z) : outcome Z :=
  if previous =? NULL then Ok NULL else
  match fuel with
  | O => Hang
  | S f =>
      let* t := thread_at s previous in
      if t_next t =? thread then Ok previous else previous_thread f s (t_next t) thread
  end.

Definition _sd_threadPreviousThread (s : sched) (thread : Z) : outcome Z :=
  let* t := thread_at s thread in
  let* p := process_at s (t_process t) in
  previous_thread (size (s_threads s)) s (p_mainThread p) thread.

(** The dead process leaves the list; the next one takes its place. *)
Definition bury_process (s : sched) (process : Z) : outcome (sched * Z * Z) :=
  let* previous := _sd_processPreviousProcess s process in
  let* prev := process_at s previous in
  let* p := process_at s process in
  let s := put_process s previous (pr_next prev (p_next p)) in
  let* p := process_at s process in
  let s := put_process s process (pr_next p (s_deadProcess s)) in
  let s := set_dead s process (s_deadThread s) in
  let* prev := process_at s previous in
  let process := if p_next prev =? NULL then s_first s else p_next prev in
  let* p := process_at s process in
  Ok (s, process, p_scheduledThread p).

Definition bury_thread (s : sched) (process thread : Z) : outcome (sched * Z * Z) :=
  let* previous := _sd_threadPreviousThread s thread in
  let* prev := thread_at s previous in
  let* t := thread_at s thread in
  let s := put_thread s previous (th_link prev (t_id prev) (t_next t)) in
  let* t := thread_at s thread in
  let s := put_thread s thread (th_link t (t_id t) (s_deadThread s)) in
  let s := set_dead s (s_deadProcess s) thread in
  let* prev := thread_at s previous in
  let* p := process_at s process in
  let thread := if t_next prev =? NULL then p_mainThread p else t_next prev in
  Ok (put_process s process (pr_threads p (p_mainThread p) thread (p_threadCounter p)), process, thread).

Definition bury_dead (s : sched) (process thread : Z) : outcome (sched * Z * Z) :=
  let* p := process_at s process in
  let* t := thread_at s thread in
  if p_died p || t_died t then
    if p_died p || (thread =? p_mainThread p) then bury_process s process else bury_thread s process thread
  else Ok (s, process, thread).

(** The condition of the loop: the thread has to give way. *)
Definition gives_way (t : thread_t) : bool := (t_wantedTicks t <=? t_usedTicks t) || (0 <? t_blocks t) || t_died t.

(** A sleeper whose alarm has gone off; the flag says that the loop is left,
    which it is for a dead thread. *)
Definition wake_up (now : Z) (t : thread_t) : thread_t * bool :=
  if t_sleeping t && (t_alarm t <=? now) then
    let t := th_sleep t (u8 (t_blocks t - 1)) false (t_alarm t) in (t, (t_blocks t =? 0) && t_died t)
  else (t, false).

(** The next thread of the process, then the next process. *)
Definition move_on (s : sched) (process thread : Z) : outcome (sched * Z * Z) :=
  let* t := thread_at s thread in
  let* p := process_at s process in
  let thread := if t_next t =? NULL then p_mainThread p else t_next t in
  let p := pr_threads p (p_mainThread p) thread (p_threadCounter p) in
  let s := put_process s process p in
  let process := if p_next p =? NULL then s_first s else p_next p in
  let* p := process_at s process in
  Ok (s, process, p_scheduledThread p).

Inductive pick := Picked (s : sched) (process thread : Z) | Killed (s : sched) (process : Z).

Fixpoint pick_thread (fuel : nat) (now : Z) (s : sched) (process thread : Z) : outcome pick :=
  let* t := thread_at s thread in
  if gives_way t then
    match fuel with
    | O => Hang
    | S f =>
        let '(t, leave) := wake_up now (th_ticks t 0) in
        let s := put_thread s thread t in
        if leave then Ok (Picked s process thread) else
        let* (s, process, thread) := move_on s process thread in
        let* p := process_at s process in
        if p_died p then Ok (Killed s process) else pick_thread f now s process thread
    end
  else Ok (Picked s process thread).

Definition switch_to (s : sched) (process thread : Z) : outcome (Z * sched) :=
  let* p := process_at s process in
  let* t := thread_at s thread in
  let s := put_thread s thread (th_flags t false (t_died t)) in
  Ok (t_esp t, Sched (s_threads s) (s_processes s) (s_first s) process (s_deadProcess s) (s_deadThread s) false (s_uid s)
                 (p_pdirectory p) (u32 (t_esp t + sizeof_cpu_state))).

(** [sd_schedule] after the lock has been taken; [depth] bounds the recursion
    for processes that were killed from outside. *)
Fixpoint schedule_locked (depth fuel : nat) (now : Z) (s : sched) : outcome (Z * sched) :=
  match depth with
  | O => Hang
  | S d =>
      let* p := process_at s (s_current s) in
      let* (s, process, thread) := bury_dead s (s_current s) (p_scheduledThread p) in
      let* t := thread_at s thread in
      let s := put_thread s thread (th_ticks t (u8 (t_usedTicks t + 1))) in
      let* r := pick_thread fuel now s process thread in
      match r with
      | Picked s process thread => switch_to s process thread
      | Killed s process => schedule_locked d fuel now (set_current s process)
      end
  end.

(** Enough rounds for every thread of every process to be looked at twice. *)
Definition schedule_fuel (s : sched) : nat := 2 * size (s_threads s) * size (s_processes s).

Definition sd_schedule (now : Z) (s : sched) (esp : Z) : outcome (Z * sched) :=
  let* p := process_at s (s_current s) in
  if esp =? 0 then schedule_locked (S (size (s_processes s))) (schedule_fuel s) now s
  else if s_lock s then Ok (esp, s) else
  let s := set_sdlock s true in
  let* t := thread_at s (p_scheduledThread p) in
  let s := put_thread s (p_scheduledThread p) (th_esp t esp) in
  schedule_locked (S (size (s_processes s))) (schedule_fuel s) now s.

Definition sd_schedule_kernel (now : Z) (s : sched) (esp : Z) : outcome (Z * sched) :=
  let* p := process_at s (s_current s) in
  let* t := thread_at s (p_scheduledThread p) in
  let t := th_ticks (th_flags t true (t_died t)) (t_wantedTicks t) in
  sd_schedule now (put_thread s (p_scheduledThread p) t) esp.

(** What [sd_threadExit] does before it yields for ever. *)
Definition sd_threadExit (s : sched) : outcome sched :=
  let* thread := thread_getCurrentThread s in
  let* t := thread_at s thread in
  Ok (put_thread s thread (th_flags t (t_wasNice t) true)).

(** ** thread.c *)

Definition _thread_getUniqueID (p : process_t) : Z * process_t :=
  (p_threadCounter p, pr_threads p (p_mainThread p) (p_scheduledThread p) (u32 (p_threadCounter p + 1))).

(** The thread as [thread_createVoid] fills it in; [listener] is its list.  The
    fields it leaves alone ([tlsPages]) are 0. *)
Definition new_thread (process entry : Z) : thread_t :=
  Thread THREAD_NULL entry THREAD_MAX_TICKS 0 THREAD_WANTED_TICKS 0 true false 0 NULL NULL NULL NULL 0 NULL 0 NULL [] 0 0 false 0 process NULL.

Definition thread_attachToProcess (s : sched) (process thread : Z) : outcome sched :=
  let* p := process_at s process in
  let '(id, p) := _thread_getUniqueID p in
  let s := put_process s process p in
  let* t := thread_at s thread in
  let s := put_thread s thread (th_link t id (t_next t)) in
  if negb (p_mainThread p =? NULL) then
    let* m := thread_at s (p_mainThread p) in
    let* t := thread_at s thread in
    let s := put_thread s thread (th_link t (t_id t) (t_next m)) in
    let* m := thread_at s (p_mainThread p) in
    Ok (put_thread s (p_mainThread p) (th_link m (t_id m) thread))
  else Ok (put_process s process (pr_threads p thread thread (p_threadCounter p))).

Fixpoint find_id (fuel : nat) (s : sched) (thread id : Z) : outcome Z :=
  if thread =? NULL then Ok NULL else
  match fuel with
  | O => Hang
  | S f =>
      let* t := thread_at s thread in
      if t_id t =? id then Ok thread else find_id f s (t_next t) id
  end.

Definition thread_getWithID (s : sched) (id : Z) : outcome Z :=
  if s_current s =? NULL then Ok NULL else
  let* p := process_at s (s_current s) in
  find_id (size (s_threads s)) s (p_mainThread p) id.

(** [add]: the list had room for another listener. *)
Definition thread_attachListener (s : sched) (thread : Z) (l : thread_listener_t) (add : bool) : outcome sched :=
  let* t := thread_at s thread in
  if negb add then Fault else
  let l' := Listener (l_event l) (l_listener l) (l_blocks l) (if l_blocks l then true else l_oneShot l) (l_callback l) in
  let s := put_thread s thread (th_listener t (t_listener t ++ [l'])) in
  if l_blocks l then
    let* w := thread_at s (l_listener l) in
    Ok (put_thread s (l_listener l) (th_sleep w (u8 (t_blocks w + 1)) (t_sleeping w) (t_alarm w)))
  else Ok s.

Section Notify.
(** The code at an address that is called back. *)
Variable call : Z -> Z -> thread_event_t -> sched -> outcome sched.

(** The listeners in their order; [kept] are those that stay. *)
Fixpoint notify_all (ls kept : list thread_listener_t) (s : sched) (thread : Z) (event : thread_event_t) : outcome (list thread_listener_t * sched) :=
  match ls with
  | [] => Ok (kept, s)
  | l :: ls' =>
      let* s := if negb (l_callback l =? NULL) then call (l_callback l) thread event s else Ok s in
      let* s := if l_blocks l then
                  let* w := thread_at s (l_listener l) in
                  Ok (put_thread s (l_listener l) (th_sleep w (u8 (t_blocks w - 1)) (t_sleeping w) (t_alarm w)))
                else Ok s in
      notify_all ls' (if l_oneShot l then kept else kept ++ [l]) s thread event
  end.

(** There is one event, so the test for it holds. *)
Definition thread_notify (s : sched) (thread : Z) (event : thread_event_t) : outcome sched :=
  let* t := thread_at s thread in
  let* (kept, s) := notify_all (t_listener t) [] s thread event in
  let* t := thread_at s thread in
  Ok (put_thread s thread (th_listener t kept)).
End Notify.

Definition thread_join (s : sched) (thread toJoin : Z) (add : bool) : outcome sched :=
  thread_attachListener s toJoin (Listener thread_eventDidExit thread true true NULL) add.

Definition thread_sleep (now : Z) (s : sched) (thread time : Z) : outcome sched :=
  let* t := thread_at s thread in
  let t := if t_sleeping t then t else th_sleep t (u8 (t_blocks t + 1)) true now in
  Ok (put_thread s thread (th_sleep t (t_blocks t) (t_sleeping t) (u64 (t_alarm t + time)))).

Definition thread_wakeup (s : sched) (thread : Z) : outcome sched :=
  let* t := thread_at s thread in
  Ok (if t_sleeping t then put_thread s thread (th_sleep t (u8 (t_blocks t - 1)) false 0) else s).

Definition thread_setPriority (s : sched) (thread priority : Z) : outcome sched :=
  let* t := thread_at s thread in
  Ok (put_thread s thread (th_wanted t (u8 (Z.min (t_maxTicks t) (Z.max 1 priority))))).

(** ** process.c *)

Definition _process_getUniqueID (s : sched) : Z * sched :=
  (s_uid s, Sched (s_threads s) (s_processes s) (s_first s) (s_current s) (s_deadProcess s) (s_deadThread s) (s_lock s)
              (u32 (s_uid s + 1)) (s_pagedir s) (s_esp0 s)).

Definition process_insert (s : sched) (process : Z) : outcome sched :=
  let* s := lock_sd s in
  let* p := process_at s process in
  let* parent := process_at s (p_pprocess p) in
  let s := put_process s process (pr_next p (p_next parent)) in
  let* parent := process_at s (p_pprocess p) in
  Ok (set_sdlock (put_process s (p_pprocess p) (pr_next parent process)) false).

Definition process_getParent (s : sched) : outcome Z :=
  let* p := process_at s (s_current s) in Ok (p_pprocess p).

Fixpoint find_pid (fuel : nat) (s : sched) (process pid : Z) : outcome Z :=
  if process =? NULL then Ok NULL else
  match fuel with
  | O => Hang
  | S f =>
      let* p := process_at s process in
      if p_pid p =? pid then Ok process else find_pid f s (p_next p) pid
  end.

Definition process_getWithPid (s : sched) (pid : Z) : outcome (Z * sched) :=
  let* s := lock_sd s in
  let* p := find_pid (size (s_processes s)) s (s_first s) pid in
  Ok (p, set_sdlock s false).

(** ** File descriptors *)

Fixpoint first_free_fd (files : list Z) (i : Z) : option Z :=
  match files with
  | [] => None
  | f :: files' => if f =? NULL then Some i else first_free_fd files' (i + 1)
  end.

Definition process_allocateFiledescriptor (p : process_t) : Z * process_t :=
  match first_free_fd (p_files p) 0 with
  | Some i => (i, pr_files p (<[Z.to_nat i := kSDInvalidFile]> (p_files p)))
  | None => (-1, p)
  end.

(** A negative descriptor is not refused: it reaches outside the array. *)
Definition process_setFileForFiledescriptor (p : process_t) (fd file : Z) : outcome process_t :=
  if kSDMaxOpenFiles <=? fd then Ok p
  else if fd <? 0 then Fault else Ok (pr_files p (<[Z.to_nat fd := file]> (p_files p))).

Definition process_releaseFiledescriptor (p : process_t) (fd : Z) : outcome process_t :=
  process_setFileForFiledescriptor p fd NULL.

Definition process_fileWithFiledescriptor (p : process_t) (fd : Z) : outcome Z :=
  if kSDMaxOpenFiles <=? fd then Ok NULL
  else if fd <? 0 then Fault else of_option (p_files p !! Z.to_nat fd).

(** ** System calls on threads and processes (sys/syscall/scthread.c, scprocess.c)

    The result, the stack pointer to return with and the state; [EINVAL] is left
    in the error variable. *)

Definition bump_blocks (s : sched) (thread d : Z) : outcome sched :=
  let* t := thread_at s thread in
  Ok (put_thread s thread (th_sleep t (u8 (t_blocks t + d)) (t_sleeping t) (t_alarm t))).

Definition _sc_sleep (now : Z) (s : sched) (esp time : Z) : outcome (Z * Z * sched) :=
  let* thread := thread_getCurrentThread s in
  let* s := bump_blocks s thread 1 in
  let* s := if 0 <? time then thread_sleep now s thread time else Ok s in
  let* (esp, s) := sd_schedule now s esp in
  let* s := bump_blocks s thread (-1) in
  Ok (0, esp, s).

(** [None]: [EINVAL]. *)
Definition _sc_threadJoin (now : Z) (s : sched) (esp tid : Z) (add : bool) : outcome (option (Z * Z * sched)) :=
  let* thread := thread_getWithID s tid in
  if thread =? NULL then Ok None else
  let* current := thread_getCurrentThread s in
  let* s := thread_join s current thread add in
  let* (esp, s) := sd_schedule now s esp in
  Ok (Some (0, esp, s)).

Definition _sc_threadExit (now : Z) (s : sched) (esp : Z) : outcome (Z * Z * sched) :=
  let* s := sd_threadExit s in
  let* (esp, s) := sd_schedule now s esp in
  Ok (0, esp, s).

Definition _sc_threadSelf (s : sched) : outcome Z :=
  let* thread := thread_getCurrentThread s in
  let* t := thread_at s thread in Ok (t_id t).

Definition _sc_exit (now : Z) (s : sched) (esp : Z) : outcome (Z * Z * sched) :=
  let* p := process_at s (s_current s) in
  let s := put_process s (s_current s) (pr_died p) in
  let* (esp, s) := sd_schedule now s esp in
  Ok (0, esp, s).

Definition _sc_pid (s : sched) : outcome Z := let* p := process_at s (s_current s) in Ok (p_pid p).
Definition _sc_ppid (s : sched) : outcome Z := let* p := process_at s (s_current s) in Ok (p_parent p).

(** Every thread of the process waits for the other's main thread. *)
Fixpoint join_all (fuel : nat) (s : sched) (thread toJoin : Z) (add : bool) : outcome sched :=
  if thread =? NULL then Ok s else
  match fuel with
  | O => Hang
  | S f =>
      let* s := thread_join s thread toJoin add in
      let* t := thread_at s thread in
      join_all f s (t_next t) toJoin add
  end.

Definition _sc_wait (now : Z) (s : sched) (esp pid : Z) (add : bool) : outcome (option (Z * Z * sched)) :=
  let* (process, s) := process_getWithPid s pid in
  if process =? NULL then Ok None else
  let* p := process_at s process in
  if p_died p then Ok None else
  let* current := process_at s (s_current s) in
  let* s := join_all (size (s_threads s)) s (p_mainThread current) (p_mainThread p) add in
  let* (esp, s) := sd_schedule now s esp in
  Ok (Some (0, esp, s)).
