(* ===== verification/SchedulerCorrect.v ===== *)
(** * The scheduler is fair

    The processes form a list and the threads of each process another; the
    scheduler walks around both.  Shown is that it picks a thread that may run,
    switches to it, and comes to every thread that may. *)

From S2P Require Import Prelude Scheduler.

(** ** Chains of nodes *)

Section Chain.
Context {A : Type} (next : A -> Z).
Implicit Types (m : gmap Z A) (l : list Z).

Fixpoint chain m (first : Z) l : Prop :=
  match l with
  | [] => first = NULL
  | p :: l' => first = p /\ p <> NULL /\ exists a, m !! p = Some a /\ chain m (next a) l'
  end.

(** The element behind [x], [NULL] at the end. *)
Fixpoint after l (x : Z) : Z :=
  match l with
  | [] => NULL
  | y :: l' => if y =? x then hd NULL l' else after l' x
  end.

Lemma chain_hd m first l : chain m first l -> first = hd NULL l.
Proof. destruct l; cbn; [done|]. by intros [-> _]. Qed.

Lemma chain_node m first l x : chain m first l -> x ∈ l -> NoDup l ->
  x <> NULL /\ exists a, m !! x = Some a /\ next a = after l x.
Proof.
  revert first. induction l as [|y l IH]; intros first Hc Hx Hnd; [by apply elem_of_nil in Hx|].
  destruct Hc as (_ & Hy & a & Ha & Hc). apply NoDup_cons in Hnd as [Hny Hnd]. cbn [after].
  destruct (Z.eqb_spec y x) as [->|Hne].
  - split; [done|]. exists a. split; [done|]. by eapply chain_hd.
  - apply elem_of_cons in Hx as [->|Hx]; [done|]. by eapply IH.
Qed.

(** Changing nodes without changing their successors keeps the chain. *)
Lemma chain_same m m' first l : chain m first l ->
  (forall x a, x ∈ l -> m !! x = Some a -> exists a', m' !! x = Some a' /\ next a' = next a) -> chain m' first l.
Proof.
  revert first. induction l as [|y l IH]; intros first Hc Hm; [done|]. destruct Hc as (-> & Hy & a & Ha & Hc).
  destruct (Hm y a ltac:(by constructor) Ha) as (a' & Ha' & En). cbn. split_and!; [done|done|]. exists a'. split; [done|].
  rewrite En. apply IH; [done|]. intros x b Hx. apply Hm. by constructor.
Qed.
End Chain.

(** ** Going around a list *)

Fixpoint index (l : list Z) (x : Z) : Z :=
  match l with
  | [] => 0
  | y :: l' => if y =? x then 0 else 1 + index l' x
  end.

Definition len (l : list Z) : Z := Z.of_nat (length l).

(** The element behind [x], the first one at the end. *)
Definition around (l : list Z) (x : Z) : Z := if after l x =? NULL then hd NULL l else after l x.

(** The number of steps from [x] to [y]. *)
Definition steps (l : list Z) (x y : Z) : Z := (index l y - index l x) mod len l.

Lemma index_range l x : x ∈ l -> 0 <= index l x < len l.
Proof.
  unfold len. induction l as [|y l IH]; intros Hx; [by apply elem_of_nil in Hx|]. cbn [index length].
  destruct (Z.eqb_spec y x) as [->|]; [lia|]. apply elem_of_cons in Hx as [->|Hx]; [done|]. specialize (IH Hx). lia.
Qed.

Lemma index_inj l x y : x ∈ l -> y ∈ l -> index l x = index l y -> x = y.
Proof.
  induction l as [|z l IH]; intros Hx Hy; [by apply elem_of_nil in Hx|]. cbn [index].
  destruct (Z.eqb_spec z x) as [Ex|Nx], (Z.eqb_spec z y) as [Ey|Ny].
  - congruence.
  - apply elem_of_cons in Hy as [->|Hy]; [done|]. pose proof (index_range l y Hy). lia.
  - apply elem_of_cons in Hx as [->|Hx]; [done|]. pose proof (index_range l x Hx). lia.
  - apply elem_of_cons in Hx as [->|Hx]; [done|]. apply elem_of_cons in Hy as [->|Hy]; [done|].
    intros E. apply IH; [done..|lia].
Qed.

Lemma after_spec l x : x ∈ l -> NoDup l -> NULL ∉ l ->
  (after l x = NULL /\ index l x = len l - 1) \/ (after l x ∈ l /\ index l (after l x) = index l x + 1).
Proof.
  unfold len. induction l as [|y l IH]; intros Hx Hnd Hnull; [by apply elem_of_nil in Hx|].
  apply NoDup_cons in Hnd as [Hny Hnd]. apply not_elem_of_cons in Hnull as [Hy0 Hnull]. cbn [after index length].
  destruct (Z.eqb_spec y x) as [->|Hne].
  - destruct l as [|z l]; [left; cbn; lia|]. right. cbn [hd]. split; [by do 2 constructor|]. cbn [index].
    rewrite Z.eqb_refl. destruct (Z.eqb_spec x z) as [->|]; [|lia]. exfalso. apply Hny. constructor.
  - apply elem_of_cons in Hx as [->|Hx]; [done|]. destruct (IH Hx Hnd Hnull) as [[-> E]|[Hin E]]; [left; lia|right].
    split; [by constructor|]. destruct (Z.eqb_spec y (after l x)) as [->|]; [done|lia].
Qed.

Section Around.
Context (l : list Z) (Hnd : NoDup l) (Hnull : NULL ∉ l).

Lemma around_spec x : x ∈ l -> around l x ∈ l /\ index l (around l x) = (index l x + 1) mod len l.
Proof using All.
  intros Hx. pose proof (index_range l x Hx) as Hr. unfold around. destruct (after_spec l x Hx Hnd Hnull) as [[-> E]|[Hin E]].
  - rewrite Z.eqb_refl. replace (index l x + 1) with (len l) by lia. rewrite Z.mod_same by lia.
    destruct l as [|y l']; [by apply elem_of_nil in Hx|]. cbn [hd index]. rewrite Z.eqb_refl. split; [constructor|done].
  - destruct (Z.eqb_spec (after l x) NULL) as [E0|]; [by rewrite E0 in Hin|]. split; [done|].
    pose proof (index_range _ _ Hin). rewrite Z.mod_small; lia.
Qed.

Lemma steps_range x y : x ∈ l -> 0 <= steps l x y < len l.
Proof using All. intros Hx. pose proof (index_range l x Hx). unfold steps. apply Z.mod_pos_bound. lia. Qed.

Lemma steps_zero x y : x ∈ l -> y ∈ l -> steps l x y = 0 <-> x = y.
Proof using All.
  intros Hx Hy. unfold steps. pose proof (index_range l x Hx). pose proof (index_range l y Hy). split.
  - intros E. apply (index_inj l); [done..|]. destruct (Z.lt_trichotomy (index l x) (index l y)) as [|[|]]; [|done|].
    + rewrite Z.mod_small in E; lia.
    + rewrite <- (Z.mod_add _ 1), Z.mod_small in E; lia.
  - intros ->. by rewrite Z.sub_diag, Z.mod_0_l by lia.
Qed.

Lemma steps_around x y : x ∈ l -> y ∈ l -> steps l (around l x) y = if x =? y then len l - 1 else steps l x y - 1.
Proof using All.
  intros Hx Hy. destruct (around_spec x Hx) as [Ha E]. pose proof (index_range l x Hx) as Hr.
  pose proof (proj1 (steps_zero x y Hx Hy)) as Hz. pose proof (steps_range x y Hx) as Hs. unfold steps in *.
  rewrite E, Zminus_mod_idemp_r. replace (index l y - (index l x + 1)) with (index l y - index l x - 1) by lia.
  destruct (Z.eqb_spec x y) as [->|Hne].
  - rewrite Z.sub_diag. rewrite <- (Z.mod_add (0 - 1) 1), Z.mod_small; lia.
  - rewrite <- (Z.mod_small ((index l y - index l x) mod len l - 1) (len l)).
    + by rewrite Zminus_mod_idemp_l.
    + destruct (Z.eq_dec ((index l y - index l x) mod len l) 0); [by apply Hz in e|lia].
Qed.
End Around.

(** ** The scheduler's lists *)

(** [ps] are the processes in their order, [ts p] the threads of [p]. *)
Record lists (s : sched) (ps : list Z) (ts : Z -> list Z) : Prop := {
  ls_procs : chain p_next (s_processes s) (s_first s) ps;
  ls_nodup : NoDup ps;
  ls_threads p : p ∈ ps -> exists pr, s_processes s !! p = Some pr /\
    chain t_next (s_threads s) (p_mainThread pr) (ts p) /\ p_scheduledThread pr ∈ ts p;
  ls_tnodup p : p ∈ ps -> NoDup (ts p);
  ls_disjoint p q t : p ∈ ps -> q ∈ ps -> t ∈ ts p -> t ∈ ts q -> p = q
}.

Lemma links_no_null {A} (next : A -> Z) m first l : chain next m first l -> NULL ∉ l.
Proof.
  revert first. induction l as [|y l IH]; intros first; cbn; [intros _ H; by apply elem_of_nil in H|].
  intros (_ & Hy & a & _ & Hc) [E|Hin]%elem_of_cons; [congruence|by eapply IH].
Qed.

(** Nobody has died, and the wanted ticks are as thread.c sets them. *)
Definition sound_thread (t : thread_t) : Prop :=
  t_died t = false /\ is_u8 (t_usedTicks t) /\ 1 <= t_wantedTicks t <= THREAD_MAX_TICKS.

Definition alive (s : sched) (ps : list Z) (ts : Z -> list Z) : Prop :=
  (forall p pr, p ∈ ps -> s_processes s !! p = Some pr -> p_died pr = false) /\
  (forall p t th, p ∈ ps -> t ∈ ts p -> s_threads s !! t = Some th -> sound_thread th).

(** The thread that runs when [p] is scheduled. *)
Definition scheduled (s : sched) (p : Z) : Z :=
  match s_processes s !! p with Some pr => p_scheduledThread pr | None => NULL end.

(** The fields of a process that scheduling reads and does not change. *)
Definition kept_fields (p : process_t) : bool * Z := (p_died p, p_pdirectory p).

Section Lists.
Context (ps : list Z) (ts : Z -> list Z).

Lemma list_process s p : lists s ps ts -> p ∈ ps ->
  p <> NULL /\ exists pr, s_processes s !! p = Some pr /\ p_next pr = after ps p /\ p_mainThread pr = hd NULL (ts p) /\
    p_scheduledThread pr = scheduled s p /\ scheduled s p ∈ ts p.
Proof.
  intros L Hp. destruct (ls_threads _ _ _ L p Hp) as (pr & Hpr & Hc & Hs).
  destruct (chain_node p_next _ _ _ p (ls_procs _ _ _ L) Hp (ls_nodup _ _ _ L)) as (Hnz & pr' & Hpr' & En).
  simplify_eq. split; [done|]. exists pr. unfold scheduled. rewrite Hpr. split_and!; try done. by eapply chain_hd.
Qed.

Lemma list_thread s p t : lists s ps ts -> p ∈ ps -> t ∈ ts p -> exists th, s_threads s !! t = Some th /\ t_next th = after (ts p) t.
Proof.
  intros L Hp Ht. destruct (ls_threads _ _ _ L p Hp) as (pr & _ & Hc & _).
  destruct (chain_node t_next _ _ _ t Hc Ht (ls_tnodup _ _ _ L p Hp)) as (_ & th & H). by exists th.
Qed.

Lemma list_null s p : lists s ps ts -> p ∈ ps -> (NULL ∉ ts p) /\ (NULL ∉ ps).
Proof.
  intros L Hp. destruct (ls_threads _ _ _ L p Hp) as (pr & _ & Hc & _).
  split; eapply links_no_null; [exact Hc|apply L].
Qed.

(** Updating a thread that keeps its successor. *)
Lemma lists_put_thread s t th th' : lists s ps ts -> s_threads s !! t = Some th -> t_next th' = t_next th ->
  lists (put_thread s t th') ps ts.
Proof.
  intros [L1 L2 L3 L4 L5] Ht En. constructor; cbn [put_thread set_threads s_processes s_first s_threads]; [done..| |done|done].
  intros p Hp. destruct (L3 p Hp) as (pr & Hpr & Hc & Hs). exists pr. split_and!; [done| |done].
  eapply chain_same; [exact Hc|]. intros x a Hx Ha. destruct (Z.eq_dec x t) as [->|Hne].
  - exists th'. rewrite lookup_insert_eq. by simplify_eq.
  - exists a. by rewrite lookup_insert_ne.
Qed.

(** Scheduling another thread of a process. *)
Lemma lists_put_process s p pr t : lists s ps ts -> p ∈ ps -> s_processes s !! p = Some pr -> t ∈ ts p ->
  lists (put_process s p (pr_threads pr (p_mainThread pr) t (p_threadCounter pr))) ps ts.
Proof.
  intros [L1 L2 L3 L4 L5] Hp Hpr Ht. constructor; cbn [put_process set_processes s_processes s_first s_threads]; [|done| |done|done].
  - eapply chain_same; [exact L1|]. intros x a Hx Ha. destruct (Z.eq_dec x p) as [->|Hne].
    + eexists. rewrite lookup_insert_eq. split; [done|]. by simplify_eq.
    + exists a. by rewrite lookup_insert_ne.
  - intros q Hq. destruct (L3 q Hq) as (pr' & Hpr' & Hc & Hs). destruct (Z.eq_dec q p) as [->|Hne].
    + eexists. rewrite lookup_insert_eq. split; [done|]. by simplify_eq.
    + exists pr'. by rewrite lookup_insert_ne.
Qed.

Lemma move_on_spec s p : lists s ps ts -> p ∈ ps ->
  exists s', move_on s p (scheduled s p) = Ok (s', around ps p, scheduled s' (around ps p)) /\
    lists s' ps ts /\ around ps p ∈ ps /\ s_threads s' = s_threads s /\
    scheduled s' p = around (ts p) (scheduled s p) /\ (forall q, q <> p -> scheduled s' q = scheduled s q) /\
    (forall q, kept_fields <$> s_processes s' !! q = kept_fields <$> s_processes s !! q) /\
    s_deadProcess s' = s_deadProcess s /\ s_deadThread s' = s_deadThread s.
Proof.
  intros L Hp. destruct (list_process s p L Hp) as (Hnz & pr & Hpr & En & Em & Es & Hin).
  destruct (list_thread s p _ L Hp Hin) as (th & Hth & Ent). destruct (list_null s p L Hp) as [Nt Np].
  set (nt := around (ts p) (scheduled s p)).
  assert (Hnt : nt ∈ ts p) by (apply around_spec; [by apply L|done|done]).
  assert (Hnp : around ps p ∈ ps) by (apply around_spec; [apply L|done|done]).
  exists (put_process s p (pr_threads pr (p_mainThread pr) nt (p_threadCounter pr))).
  pose proof (lists_put_process s p pr nt L Hp Hpr Hnt) as L'.
  assert (Hsch : forall q, scheduled (put_process s p (pr_threads pr (p_mainThread pr) nt (p_threadCounter pr))) q = if q =? p then nt else scheduled s q).
  { intros q. unfold scheduled. cbn [put_process set_processes s_processes]. destruct (Z.eqb_spec q p) as [->|].
    - by rewrite lookup_insert_eq. - by rewrite lookup_insert_ne. }
  split_and!; try done.
  - assert (Et : (if t_next th =? NULL then p_mainThread pr else t_next th) = nt) by (rewrite Ent, Em; done).
    assert (Ep : (if p_next pr =? NULL then s_first s else p_next pr) = around ps p)
      by (rewrite En, (chain_hd _ _ _ _ (ls_procs _ _ _ L)); done).
    destruct (list_process _ _ L' Hnp) as (_ & pr' & Hpr' & _ & _ & Es' & _).
    unfold move_on, thread_at. rewrite Hth. cbn [of_option obind]. unfold process_at at 1. rewrite Hpr. cbn [of_option obind].
    rewrite Et. cbn [p_next pr_threads]. change (s_first (put_process s p _)) with (s_first s). rewrite Ep.
    unfold process_at. rewrite Hpr'. cbn [of_option obind]. by rewrite Es'.
  - rewrite Hsch. by rewrite Z.eqb_refl.
  - intros q Hq. rewrite Hsch. by rewrite (proj2 (Z.eqb_neq _ _)).
  - intros q. cbn [put_process set_processes s_processes]. destruct (Z.eq_dec q p) as [->|].
    + by rewrite lookup_insert_eq, Hpr.
    + by rewrite lookup_insert_ne.
Qed.
End Lists.

(** ** What scheduling leaves alone *)

(** The saved stack pointers, the links, the address spaces and the lists of the dead. *)
Record preserves (s s' : sched) : Prop := {
  pv_esp t : t_esp <$> s_threads s' !! t = t_esp <$> s_threads s !! t;
  pv_next t : t_next <$> s_threads s' !! t = t_next <$> s_threads s !! t;
  pv_dir p : p_pdirectory <$> s_processes s' !! p = p_pdirectory <$> s_processes s !! p;
  pv_dead : s_deadProcess s' = s_deadProcess s /\ s_deadThread s' = s_deadThread s
}.

Lemma preserves_refl s : preserves s s.
Proof. by constructor. Qed.

Lemma preserves_trans s1 s2 s3 : preserves s1 s2 -> preserves s2 s3 -> preserves s1 s3.
Proof.
  intros [A1 A0 A2 [A3 A4]] [B1 B0 B2 [B3 B4]].
  constructor; [intros t; by rewrite B1|intros t; by rewrite B0|intros p; by rewrite B2|split; congruence].
Qed.

Lemma preserves_put_thread s t th th' : s_threads s !! t = Some th -> t_esp th' = t_esp th -> t_next th' = t_next th -> preserves s (put_thread s t th').
Proof.
  intros Ht E En. constructor; [| |done|done]; intros x; cbn [put_thread set_threads s_threads]; destruct (Z.eq_dec x t) as [->|].
  1, 3: rewrite lookup_insert_eq, Ht; cbn; by rewrite ?E, ?En.
  all: by rewrite lookup_insert_ne.
Qed.

(** ** A round of the loop *)

Section Rounds.
Context (ps : list Z) (ts : Z -> list Z) (q r : Z) (Hq : q ∈ ps) (Hr : r ∈ ts q).

Definition runnable (s : sched) : Prop :=
  exists th, s_threads s !! r = Some th /\ t_blocks th = 0 /\ t_sleeping th = false.

(** How often [q] has to come up before [r] is taken. *)
Definition waiting (s : sched) : Z :=
  steps (ts q) (scheduled s q) r +
  match s_threads s !! r with Some th => if t_usedTicks th <? t_wantedTicks th then 0 else len (ts q) | None => 0 end.

(** The rounds until [r] is taken at the latest, [p] being looked at. *)
Definition rank (s : sched) (p : Z) : Z := waiting s * len ps + steps ps p q.

Lemma rank_nonneg s p : lists s ps ts -> p ∈ ps -> 0 <= rank s p.
Proof using All.
  intros L Hp. destruct (list_process ps ts s q L Hq) as (_ & pr & _ & _ & _ & _ & Hin). destruct (list_null ps ts s q L Hq) as [Nt Np].
  pose proof (steps_range (ts q) (ls_tnodup _ _ _ L q Hq) Nt _ r Hin).
  pose proof (steps_range ps (ls_nodup _ _ _ L) Np p q Hp). unfold rank, waiting.
  assert (0 <= len (ts q)) by (unfold len; lia). destruct (s_threads s !! r) as [th|]; [destruct (_ <? _)|]; nia.
Qed.

(** A thread that gives way: its ticks start again, an alarm may wake it up. *)
Lemma reset_thread now th : sound_thread th ->
  let th' := fst (wake_up now (th_ticks th 0)) in
  snd (wake_up now (th_ticks th 0)) = false /\ sound_thread th' /\ t_usedTicks th' = 0 /\ t_wantedTicks th' = t_wantedTicks th /\
  t_next th' = t_next th /\ t_esp th' = t_esp th /\
  (t_blocks th = 0 -> t_sleeping th = false -> t_blocks th' = 0 /\ t_sleeping th' = false).
Proof using All.
  intros (Hd & Hu & Hw). unfold wake_up. cbn [th_ticks t_sleeping t_alarm].
  destruct (t_sleeping th) eqn:Es; [destruct (t_alarm th <=? now)|]; cbn [andb fst snd th_sleep th_ticks t_died t_blocks];
    rewrite ?Hd, ?andb_false_r; split_and!; try done; unfold sound_thread, is_u8; cbn; split_and!; (done || lia).
Qed.

Lemma alive_put s t th th' : alive s ps ts -> s_threads s !! t = Some th -> sound_thread th' -> alive (put_thread s t th') ps ts.
Proof using All.
  intros [A1 A2] Ht Hs. split; [done|]. intros p x a Hp Hx. cbn [put_thread set_threads s_threads].
  destruct (Z.eq_dec x t) as [->|]; [rewrite lookup_insert_eq; by intros [= <-]|]. rewrite lookup_insert_ne by done. by apply (A2 p).
Qed.

(** The rank goes down by one when the scheduled thread of [p] has given way. *)
Lemma rank_step s s2 p th th' : lists s ps ts -> p ∈ ps -> runnable s -> sound_thread th -> sound_thread th' ->
  s_threads s !! scheduled s p = Some th -> gives_way th = true -> t_usedTicks th' = 0 -> t_wantedTicks th' = t_wantedTicks th ->
  s_threads s2 = <[scheduled s p := th']> (s_threads s) ->
  scheduled s2 p = around (ts p) (scheduled s p) -> (forall x, x <> p -> scheduled s2 x = scheduled s x) ->
  rank s2 (around ps p) = rank s p - 1.
Proof using All.
  intros L Hp (rt & Hrt & Hb & Hsl) Hs Hs' Hth Hway Hu' Hw' Et Esp Eso.
  destruct (list_process ps ts s p L Hp) as (_ & _ & _ & _ & _ & _ & Hin). destruct (list_null ps ts s q L Hq) as [Nt Np].
  unfold rank. rewrite (steps_around ps (ls_nodup _ _ _ L) Np p q Hp Hq).
  pose proof (proj2 (steps_zero ps (ls_nodup _ _ _ L) Np p q Hp Hq)) as Hz.
  destruct (Z.eqb_spec p q) as [->|Hne].
  - rewrite Hz by done. enough (waiting s2 = waiting s - 1) by lia. unfold waiting. rewrite Esp, Et.
    rewrite (steps_around (ts q) (ls_tnodup _ _ _ L q Hq) Nt _ r Hin Hr).
    destruct (Z.eqb_spec (scheduled s q) r) as [E|E].
    + rewrite E in *. rewrite lookup_insert_eq. assert (rt = th) as -> by congruence. rewrite Hth, Hu', Hw'.
      rewrite (proj2 (steps_zero (ts q) (ls_tnodup _ _ _ L q Hq) Nt r r Hr Hr)) by done.
      destruct Hs as (Hd & _ & Hwt). unfold gives_way in Hway. rewrite Hb, Hd in Hway. cbn [Z.ltb Z.compare] in Hway.
      rewrite !orb_false_r in Hway. apply Z.leb_le in Hway.
      rewrite (proj2 (Z.ltb_lt _ _)), (proj2 (Z.ltb_ge _ _)) by lia. lia.
    + rewrite lookup_insert_ne by done. lia.
  - enough (waiting s2 = waiting s) by lia. unfold waiting. rewrite Eso, Et by done. rewrite lookup_insert_ne; [done|].
    intros E. apply Hne. apply (ls_disjoint _ _ _ L p q r); [done|done|by rewrite <- E|done].
Qed.

Lemma round_spec now s p : lists s ps ts -> alive s ps ts -> p ∈ ps -> runnable s ->
  (forall th, s_threads s !! scheduled s p = Some th -> gives_way th = true) ->
  exists s1 s2 th th', s_threads s !! scheduled s p = Some th /\ wake_up now (th_ticks th 0) = (th', false) /\
    s1 = put_thread s (scheduled s p) th' /\
    move_on s1 p (scheduled s p) = Ok (s2, around ps p, scheduled s2 (around ps p)) /\
    lists s2 ps ts /\ alive s2 ps ts /\ around ps p ∈ ps /\ runnable s2 /\ preserves s s2 /\
    rank s2 (around ps p) = rank s p - 1.
Proof using All.
  intros L A Hp (rt & Hrt & Hb & Hsl) Hway. destruct (list_process ps ts s p L Hp) as (_ & pr & Hpr & _ & _ & _ & Hin).
  destruct (list_thread ps ts s p _ L Hp Hin) as (th & Hth & _). specialize (Hway th Hth).
  pose proof (proj2 A p _ th Hp Hin Hth) as Hsound. destruct (reset_thread now th Hsound) as (Hl & Hs' & Hu' & Hw' & Hn' & He' & Hb').
  destruct (wake_up now (th_ticks th 0)) as [th' leave] eqn:Ew. cbn [fst snd] in *. subst leave.
  set (t := scheduled s p) in *. set (s1 := put_thread s t th').
  assert (L1 : lists s1 ps ts) by (by eapply lists_put_thread).
  assert (A1 : alive s1 ps ts) by (by eapply alive_put).
  destruct (move_on_spec ps ts s1 p L1 Hp) as (s2 & E2 & L2 & Hp2 & Et2 & Es2 & Eo2 & Ed2 & Ed3 & Ed4).
  change (scheduled s1 p) with t in E2, Es2.
  exists s1, s2, th, th'. split_and!; try done.
  - split.
    + intros x a Hx Ha. specialize (Ed2 x). rewrite Ha in Ed2.
      symmetry in Ed2. apply fmap_Some in Ed2 as (b & Hb1 & Eb). unfold kept_fields in Eb. injection Eb as -> _. by apply (proj1 A1 x).
    + intros x y a Hx Hy. rewrite Et2. by apply (proj2 A1 x).
  - unfold runnable. rewrite Et2. cbn [s1 put_thread set_threads s_threads]. destruct (Z.eq_dec r t) as [E|].
    + exists th'. rewrite <- E, lookup_insert_eq. assert (rt = th) as -> by congruence. split; [done|]. by apply Hb'.
    + exists rt. by rewrite lookup_insert_ne.
  - apply (preserves_trans _ s1); [by eapply preserves_put_thread|]. constructor; [intros x; by rewrite Et2|intros x; by rewrite Et2| |by split].
    intros x. specialize (Ed2 x). apply (f_equal (fmap snd)) in Ed2. by rewrite <- !option_fmap_compose in Ed2.
  - eapply (rank_step s s2 p th th'); try done. by exists rt.
Qed.

(** The loop ends, at a thread that need not give way, and not later than the
    rank of [r] says. *)
Lemma pick_spec fuel : forall now s p, lists s ps ts -> alive s ps ts -> p ∈ ps -> runnable s -> rank s p <= Z.of_nat fuel ->
  exists s' p', pick_thread fuel now s p (scheduled s p) = Ok (Picked s' p' (scheduled s' p')) /\
    lists s' ps ts /\ alive s' ps ts /\ p' ∈ ps /\ runnable s' /\ preserves s s' /\
    (forall th, s_threads s' !! scheduled s' p' = Some th -> gives_way th = false) /\
    ((forall th, s_threads s !! scheduled s p = Some th -> gives_way th = false) -> s' = s /\ p' = p) /\
    ((exists th, s_threads s !! scheduled s p = Some th /\ gives_way th = true) -> rank s' p' <= rank s p - 1).
Proof using All.
  induction fuel as [|fuel IH]; intros now s p L A Hp Hrun Hfuel;
    destruct (list_process ps ts s p L Hp) as (_ & pr & Hpr & _ & _ & _ & Hin);
    destruct (list_thread ps ts s p _ L Hp Hin) as (th & Hth & _);
    destruct (gives_way th) eqn:Hway.
  1, 3: destruct (round_spec now s p L A Hp Hrun) as (s1 & s2 & th0 & th' & Hth0 & Ew & Es1 & E2 & L2 & A2 & Hp2 & Hrun2 & Pv & Hrank);
    [intros th1 Hth1; by simplify_eq|]; assert (th0 = th) as -> by congruence.
  1: pose proof (rank_nonneg s2 (around ps p) L2 Hp2); lia.
  2, 3: cbn [pick_thread]; unfold thread_at; rewrite Hth; cbn [of_option obind]; rewrite Hway;
    exists s, p; split_and!; try done;
    first [apply preserves_refl | intros th1 Hth1; by simplify_eq | intros (th1 & Hth1 & H1); congruence].
  cbn [pick_thread]. unfold thread_at. rewrite Hth. cbn [of_option obind]. rewrite Hway, Ew. rewrite <- Es1, E2. cbn [obind].
  destruct (list_process ps ts s2 _ L2 Hp2) as (_ & pr2 & Hpr2 & _). unfold process_at. rewrite Hpr2. cbn [of_option obind].
  rewrite (proj1 A2 _ pr2 Hp2 Hpr2).
  destruct (IH now s2 (around ps p) L2 A2 Hp2 Hrun2 ltac:(lia)) as (s3 & p3 & E3 & L3 & A3 & Hp3 & Hrun3 & Pv3 & Hpick & Hstop & Hgo).
  exists s3, p3. split_and!; try done.
  - by eapply preserves_trans.
  - intros H. by rewrite (H th eq_refl) in Hway.
  - intros _. destruct (list_process ps ts s2 _ L2 Hp2) as (_ & _ & _ & _ & _ & _ & Hin2).
    destruct (list_thread ps ts s2 _ _ L2 Hp2 Hin2) as (th2 & Hth2 & _). destruct (gives_way th2) eqn:Hw2.
    + specialize (Hgo ltac:(by exists th2)). lia.
    + destruct Hstop as [-> ->]; [intros th3 Hth3; by simplify_eq|lia].
Qed.
End Rounds.

(** ** A timer tick *)

Lemma chain_size {A} (next : A -> Z) (m : gmap Z A) first l : chain next m first l -> NoDup l -> (length l <= size m)%nat.
Proof.
  intros Hc Hnd. rewrite <- size_dom. rewrite <- (size_list_to_set (C := gset Z) l Hnd). apply subseteq_size.
  intros x Hx%elem_of_list_to_set. apply elem_of_dom. destruct (chain_node next m first l x Hc Hx Hnd) as (_ & a & Ha & _). by exists a.
Qed.

(** Between two ticks: the lists are there, nobody has died, the lock is free,
    and the running thread's counter is not about to wrap around. *)
Record ready (s : sched) (ps : list Z) (ts : Z -> list Z) : Prop := {
  rd_lists : lists s ps ts;
  rd_alive : alive s ps ts;
  rd_current : s_current s ∈ ps;
  rd_unlocked : s_lock s = false;
  rd_ticks th : s_threads s !! scheduled s (s_current s) = Some th -> t_usedTicks th < 255
}.

Section Tick.
Context (ps : list Z) (ts : Z -> list Z) (q r : Z) (Hq : q ∈ ps) (Hr : r ∈ ts q).

Lemma fuel_enough s p : lists s ps ts -> p ∈ ps -> rank ps ts q r s p <= Z.of_nat (schedule_fuel s).
Proof using All.
  intros L Hp. destruct (ls_threads _ _ _ L q Hq) as (pr & Hpr & Hc & Hin). destruct (list_null ps ts s q L Hq) as [Nt Np].
  pose proof (chain_size _ _ _ _ (ls_procs _ _ _ L) (ls_nodup _ _ _ L)) as Sp.
  pose proof (chain_size _ _ _ _ Hc (ls_tnodup _ _ _ L q Hq)) as St.
  pose proof (steps_range ps (ls_nodup _ _ _ L) Np p q Hp) as H1.
  assert (Hs : scheduled s q ∈ ts q) by (unfold scheduled; by rewrite Hpr).
  pose proof (steps_range (ts q) (ls_tnodup _ _ _ L q Hq) Nt _ r Hs) as H2.
  unfold rank, waiting, schedule_fuel, len in *. destruct (s_threads s !! r); [destruct (_ <? _)|]; nia.
Qed.

(** The state in which the loop starts: the stack pointer is saved and the tick
    counted. *)
Definition ticked (s : sched) (esp : Z) (th : thread_t) : sched :=
  put_thread (set_sdlock s true) (scheduled s (s_current s)) (th_ticks (th_esp th esp) (t_usedTicks th + 1)).

Lemma sd_schedule_runs now s esp th : ready s ps ts -> esp <> 0 -> s_threads s !! scheduled s (s_current s) = Some th ->
  sd_schedule now s esp =
  (let* r := pick_thread (schedule_fuel s) now (ticked s esp th) (s_current s) (scheduled s (s_current s)) in
   match r with
   | Picked s' process thread => switch_to s' process thread
   | Killed s' process => schedule_locked (size (s_processes s)) (schedule_fuel s) now (set_current s' process)
   end).
Proof using All.
  intros [L A Hc Hl Ht] Hesp Hth. set (p := s_current s) in *.
  destruct (list_process ps ts s p L Hc) as (_ & pr & Hpr & _ & _ & Es & Hin).
  destruct (proj2 A p _ th Hc Hin Hth) as (Hd & Hu & _). specialize (Ht th Hth). unfold is_u8 in Hu.
  unfold sd_schedule, process_at at 1. fold p. rewrite Hpr. cbn [of_option obind]. rewrite (proj2 (Z.eqb_neq _ _)) by done. rewrite Hl, Es.
  unfold thread_at at 1. cbn [set_sdlock s_threads]. rewrite Hth. cbn [of_option obind].
  set (s1 := put_thread (set_sdlock s true) (scheduled s p) (th_esp th esp)).
  assert (Hsz : size (s_threads s1) = size (s_threads s)).
  { cbn [s1 put_thread set_threads set_sdlock s_threads]. by rewrite map_size_insert, Hth. }
  unfold schedule_fuel at 1. rewrite Hsz. change (s_processes s1) with (s_processes s). fold (schedule_fuel s).
  cbn [schedule_locked]. change (s_current s1) with p. unfold process_at at 1. change (s_processes s1) with (s_processes s). rewrite Hpr.
  cbn [of_option obind]. rewrite Es. unfold bury_dead, process_at at 1. change (s_processes s1) with (s_processes s). rewrite Hpr. cbn [of_option obind].
  assert (Hth1 : s_threads s1 !! scheduled s p = Some (th_esp th esp)) by (apply lookup_insert_eq).
  unfold thread_at at 1. rewrite Hth1. cbn [of_option obind th_esp t_died]. rewrite (proj1 A p pr Hc Hpr), Hd. cbn [orb obind].
  unfold thread_at at 1. rewrite Hth1. cbn [of_option obind]. change (t_usedTicks (th_esp th esp)) with (t_usedTicks th).
  rewrite u8_small by lia. unfold s1, put_thread. cbn [set_threads s_threads set_sdlock]. rewrite insert_insert_eq. done.
Qed.

(** The running thread's remaining ticks, and what bounds the ticks until [r]
    runs. *)
Definition remaining (s : sched) : Z :=
  match s_threads s !! scheduled s (s_current s) with Some th => Z.max 0 (t_wantedTicks th - t_usedTicks th) | None => 0 end.
Definition potential (s : sched) : Z := rank ps ts q r s (s_current s) * 11 + remaining s.

Lemma ticked_facts s esp th : ready s ps ts -> s_threads s !! scheduled s (s_current s) = Some th ->
  lists (ticked s esp th) ps ts /\ alive (ticked s esp th) ps ts /\
  (runnable r s -> runnable r (ticked s esp th)) /\
  (scheduled s (s_current s) <> r -> forall p, rank ps ts q r (ticked s esp th) p = rank ps ts q r s p).
Proof using All.
  intros [L A Hc Hl Ht] Hth. destruct (list_process ps ts s _ L Hc) as (_ & pr & Hpr & _ & _ & Es & Hin).
  destruct (proj2 A _ _ th Hc Hin Hth) as (Hd & Hu & Hw). specialize (Ht th Hth).
  assert (L0 : lists (set_sdlock s true) ps ts) by (destruct L; by constructor).
  split_and!.
  - by eapply (lists_put_thread ps ts).
  - eapply (alive_put ps ts q r Hq Hr); [exact A|exact Hth|]. unfold sound_thread, is_u8 in *. cbn. split_and!; (done || lia).
  - intros (rt & Hrt & Hb & Hsl). unfold runnable, ticked. cbn [put_thread set_threads set_sdlock s_threads].
    destruct (Z.eq_dec r (scheduled s (s_current s))) as [->|].
    + rewrite lookup_insert_eq. eexists. split; [done|]. simplify_eq. done.
    + rewrite lookup_insert_ne by done. by exists rt.
  - intros Hne p. unfold rank, waiting, ticked. cbn [put_thread set_threads set_sdlock s_threads].
    by rewrite lookup_insert_ne.
Qed.

(** Switching to a thread changes nothing the lists depend on. *)
Lemma switch_spec s p th : lists s ps ts -> alive s ps ts -> p ∈ ps -> s_threads s !! scheduled s p = Some th -> gives_way th = false ->
  exists s' pr, switch_to s p (scheduled s p) = Ok (t_esp th, s') /\ s_processes s !! p = Some pr /\
    ready s' ps ts /\ preserves s s' /\ s_current s' = p /\ (forall x, scheduled s' x = scheduled s x) /\
    s_threads s' = <[scheduled s p := th_flags th false (t_died th)]> (s_threads s) /\
    s_pagedir s' = p_pdirectory pr /\ s_esp0 s' = u32 (t_esp th + sizeof_cpu_state).
Proof using All.
  intros L A Hp Hth Hway. destruct (list_process ps ts s p L Hp) as (_ & pr & Hpr & _ & _ & _ & Hin).
  pose proof (proj2 A p _ th Hp Hin Hth) as Hsound.
  assert (L' : lists (put_thread s (scheduled s p) (th_flags th false (t_died th))) ps ts) by (by eapply (lists_put_thread ps ts)).
  assert (A' : alive (put_thread s (scheduled s p) (th_flags th false (t_died th))) ps ts).
  { eapply (alive_put ps ts q r Hq Hr); [exact A|exact Hth|]. exact Hsound. }
  unfold switch_to, process_at, thread_at. rewrite Hpr, Hth. cbn [of_option obind].
  eexists _, pr. split; [done|]. split; [done|]. split_and!; try done.
  - constructor; [destruct L'; by constructor|exact A'|done|done|].
    cbn [s_current]. intros th'. change (scheduled (Sched _ _ _ _ _ _ _ _ _ _) p) with (scheduled s p).
    cbn [put_thread set_threads s_threads]. rewrite lookup_insert_eq. intros [= <-]. cbn [th_flags t_usedTicks].
    destruct Hsound as (_ & _ & Hw). unfold gives_way in Hway. unfold THREAD_MAX_TICKS in Hw.
    destruct (Z.leb_spec (t_wantedTicks th) (t_usedTicks th)); [done|lia].
  - destruct (preserves_put_thread s (scheduled s p) th (th_flags th false (t_died th)) Hth eq_refl eq_refl) as [P1 P0 P2 P3]. by constructor.
Qed.

Lemma tick_spec now s esp : ready s ps ts -> esp <> 0 -> runnable r s ->
  exists s' pr th, sd_schedule now s esp = Ok (t_esp th, s') /\ ready s' ps ts /\ runnable r s' /\
    s_processes s' !! s_current s' = Some pr /\ s_threads s' !! scheduled s' (s_current s') = Some th /\ gives_way th = false /\
    s_pagedir s' = p_pdirectory pr /\ s_esp0 s' = u32 (t_esp th + sizeof_cpu_state) /\
    (forall x, t_esp <$> s_threads s' !! x = if x =? scheduled s (s_current s) then Some esp else t_esp <$> s_threads s !! x) /\
    (scheduled s (s_current s) <> r -> potential s' <= potential s - 1).
Proof using All.
  intros R Hesp Hrun. pose proof R as [L A Hc Hl Ht].
  destruct (list_process ps ts s _ L Hc) as (_ & _ & _ & _ & _ & _ & Hin).
  destruct (list_thread ps ts s _ _ L Hc Hin) as (th & Hth & _). specialize (Ht th Hth).
  rewrite (sd_schedule_runs now s esp th R Hesp Hth).
  destruct (ticked_facts s esp th R Hth) as (L1 & A1 & Hrun1 & Hrank1).
  assert (Hfuel : rank ps ts q r (ticked s esp th) (s_current s) <= Z.of_nat (schedule_fuel s)).
  { etrans; [by apply fuel_enough|]. unfold schedule_fuel, ticked. cbn [put_thread set_threads set_sdlock s_threads s_processes].
    rewrite map_size_insert, Hth. done. }
  destruct (pick_spec ps ts q r Hq Hr (schedule_fuel s) now (ticked s esp th) (s_current s) L1 A1 Hc (Hrun1 Hrun) Hfuel)
    as (s2 & p2 & E2 & L2 & A2 & Hp2 & Hrun2 & Pv2 & Hpick & Hstay & Hgo).
  change (scheduled (ticked s esp th) (s_current s)) with (scheduled s (s_current s)) in *.
  rewrite E2. cbn [obind].
  destruct (list_process ps ts s2 _ L2 Hp2) as (_ & _ & _ & _ & _ & _ & Hin2).
  destruct (list_thread ps ts s2 _ _ L2 Hp2 Hin2) as (th2 & Hth2 & _). specialize (Hpick th2 Hth2).
  destruct (switch_spec s2 p2 th2 L2 A2 Hp2 Hth2 Hpick) as (s3 & pr & E3 & Hpr & R3 & Pv3 & Ec & Esch & Eth & Epd & Ee0).
  assert (Hth3 : s_threads s3 !! scheduled s3 (s_current s3) = Some (th_flags th2 false (t_died th2))).
  { rewrite Ec, Esch, Eth. apply lookup_insert_eq. }
  destruct (ls_threads _ _ _ (rd_lists _ _ _ R3) p2 Hp2) as (pr3 & Hpr3 & _).
  assert (Hdir : p_pdirectory pr3 = p_pdirectory pr).
  { pose proof (pv_dir _ _ Pv3 p2) as H. rewrite Hpr3, Hpr in H. by injection H. }
  exists s3, pr3, (th_flags th2 false (t_died th2)). split_and!; try done.
  - destruct Hrun2 as (rt & Hrt & Hb & Hsl). unfold runnable. rewrite Eth. destruct (Z.eq_dec r (scheduled s2 p2)) as [->|].
    + rewrite lookup_insert_eq. eexists. split; [done|]. by simplify_eq.
    + exists rt. by rewrite lookup_insert_ne.
  - by rewrite Ec.
  - congruence.
  - intros x. rewrite (pv_esp _ _ Pv3), (pv_esp _ _ Pv2). unfold ticked. cbn [put_thread set_threads set_sdlock s_threads].
    destruct (Z.eqb_spec x (scheduled s (s_current s))) as [->|]; [by rewrite lookup_insert_eq|by rewrite lookup_insert_ne].
  - intros Hne. specialize (Hrank1 Hne). unfold potential. rewrite Ec.
    assert (Hrk : rank ps ts q r s3 p2 = rank ps ts q r s2 p2).
    { unfold rank, waiting. rewrite Esch, Eth. destruct (Z.eq_dec r (scheduled s2 p2)) as [->|].
      - by rewrite lookup_insert_eq, Hth2. - by rewrite lookup_insert_ne. }
    rewrite Hrk. unfold remaining. rewrite Hth3, Hth. cbn [th_flags t_wantedTicks t_usedTicks].
    destruct (proj2 A2 _ _ th2 Hp2 Hin2 Hth2) as (_ & Hu2 & Hw2). unfold is_u8, THREAD_MAX_TICKS in *.
    set (th1 := th_ticks (th_esp th esp) (t_usedTicks th + 1)) in *.
    assert (Hth1 : s_threads (ticked s esp th) !! scheduled s (s_current s) = Some th1) by apply lookup_insert_eq.
    destruct (gives_way th1) eqn:Hw1.
    + specialize (Hgo ltac:(by exists th1)). rewrite Hrank1 in Hgo. lia.
    + destruct Hstay as [-> ->]; [intros th4 Hth4; by simplify_eq|]. rewrite Hrank1.
      change (scheduled (ticked s esp th) (s_current s)) with (scheduled s (s_current s)) in Hth2.
      assert (th2 = th1) as -> by congruence. cbn [th1 th_ticks th_esp t_wantedTicks t_usedTicks] in *.
      unfold gives_way in Hw1. cbn in Hw1. destruct (Z.leb_spec (t_wantedTicks th) (t_usedTicks th + 1)); [done|lia].
Qed.
End Tick.

(** ** Properties *)

(** C35: a context switch, when no process and no thread of the lists has died
    ([ready]; SchedulerDeath has a thread die).  While some thread may run, an interrupt's
    [sd_schedule] returns the stack pointer of a thread that has ticks left, is
    not blocked and has not died; that thread's process becomes the current
    one, and its directory and kernel stack are what the trampoline will use.
    The interrupted thread keeps the stack pointer it was interrupted with,
    every other thread the one it had, and the scheduler's lists stay intact. *)
Theorem sd_schedule_switches ps ts q r now s esp :
  ready s ps ts -> esp <> 0 -> q ∈ ps -> r ∈ ts q -> runnable r s ->
  exists s' pr th, sd_schedule now s esp = Ok (t_esp th, s') /\ ready s' ps ts /\
    s_processes s' !! s_current s' = Some pr /\ s_threads s' !! scheduled s' (s_current s') = Some th /\ gives_way th = false /\
    s_pagedir s' = p_pdirectory pr /\ s_esp0 s' = u32 (t_esp th + sizeof_cpu_state) /\
    (forall x, t_esp <$> s_threads s' !! x = if x =? scheduled s (s_current s) then Some esp else t_esp <$> s_threads s !! x).
Proof.
  intros R Hesp Hq Hr Hrun.
  destruct (tick_spec ps ts q r Hq Hr now s esp R Hesp Hrun) as (s' & pr & th & E & R' & _ & H1 & H2 & H3 & H4 & H5 & H6 & _).
  exists s', pr, th. by split_and!.
Qed.

(** [n] interrupts in a row, with the clock's and the stack pointer's values. *)
Fixpoint interrupts (n : nat) (now esp : nat -> Z) (s : sched) : outcome sched :=
  match n with
  | O => Ok s
  | S n' => let* (_, s) := sd_schedule (now 0%nat) s (esp 0%nat) in interrupts n' (fun i => now (S i)) (fun i => esp (S i)) s
  end.

Lemma potential_bound ps ts q r s : ready s ps ts -> q ∈ ps -> r ∈ ts q ->
  0 <= potential ps ts q r s <= 22 * len (ts q) * len ps + 10.
Proof.
  intros [L A Hc Hl Ht] Hq Hr. destruct (list_process ps ts s q L Hq) as (_ & _ & _ & _ & _ & _ & Hin).
  destruct (list_null ps ts s q L Hq) as [Nt Np].
  pose proof (steps_range ps (ls_nodup _ _ _ L) Np _ q Hc). pose proof (steps_range (ts q) (ls_tnodup _ _ _ L q Hq) Nt _ r Hin).
  assert (Hrem : 0 <= remaining s <= 10).
  { unfold remaining. destruct (list_process ps ts s _ L Hc) as (_ & _ & _ & _ & _ & _ & Hin').
    destruct (list_thread ps ts s _ _ L Hc Hin') as (th & Hth & _). rewrite Hth.
    destruct (proj2 A _ _ th Hc Hin' Hth) as (_ & Hu & Hw). unfold is_u8, THREAD_MAX_TICKS in *. lia. }
  unfold potential, rank, waiting. destruct (s_threads s !! r); [destruct (_ <? _)|]; nia.
Qed.

Lemma current_thread s ps ts : ready s ps ts -> thread_getCurrentThread s = Ok (scheduled s (s_current s)).
Proof.
  intros [L A Hc Hl Ht]. destruct (list_process ps ts s _ L Hc) as (_ & pr & Hpr & _ & _ & Es & _).
  unfold thread_getCurrentThread, process_at. rewrite Hpr. cbn. by rewrite Es.
Qed.

Lemma fair_within ps ts q r (Hq : q ∈ ps) (Hr : r ∈ ts q) b : forall now esp s,
  ready s ps ts -> runnable r s -> (forall i, esp i <> 0) -> potential ps ts q r s <= Z.of_nat b ->
  exists n s', (n <= b)%nat /\ interrupts n now esp s = Ok s' /\ thread_getCurrentThread s' = Ok r.
Proof.
  induction b as [|b IH]; intros now esp s R Hrun Hesp Hb;
    destruct (Z.eq_dec (scheduled s (s_current s)) r) as [E|E].
  1, 3: exists 0%nat, s; split_and!; [lia|done|]; by rewrite (current_thread s ps ts R), E.
  all: destruct (tick_spec ps ts q r Hq Hr (now 0%nat) s (esp 0%nat) R (Hesp 0%nat) Hrun)
    as (s1 & _ & th & E1 & R1 & Hrun1 & _ & _ & _ & _ & _ & _ & Hp1); specialize (Hp1 E);
    pose proof (potential_bound ps ts q r s1 R1 Hq Hr).
  - lia.
  - destruct (IH (fun i => now (S i)) (fun i => esp (S i)) s1 R1 Hrun1) as (n & s2 & Hn & E2 & Hc); [done|lia|].
    exists (S n), s2. split_and!; [lia| |done]. cbn [interrupts]. by rewrite E1.
Qed.

(** C36: the scheduler is fair.  As long as no process and no thread of the
    lists has died ([ready]), and whatever the clock says, a thread that may run
    does run after at most [22 * threads of its process * processes + 10] timer
    interrupts. *)
Theorem sd_schedule_fair ps ts q r now esp s :
  ready s ps ts -> q ∈ ps -> r ∈ ts q -> runnable r s -> (forall i, esp i <> 0) ->
  exists n s', Z.of_nat n <= 22 * len (ts q) * len ps + 10 /\ interrupts n now esp s = Ok s' /\
    thread_getCurrentThread s' = Ok r.
Proof.
  intros R Hq Hr Hrun Hesp. pose proof (potential_bound ps ts q r s R Hq Hr) as Hb.
  destruct (fair_within ps ts q r Hq Hr (Z.to_nat (22 * len (ts q) * len ps + 10)) now esp s R Hrun Hesp ltac:(lia)) as (n & s' & Hn & E & Hc).
  exists n, s'. split_and!; [lia|done..].
Qed.

(** ** Two processes with three threads

    The first process has two threads, the first of which sleeps until 50. *)

Definition demo_thread (blocks : Z) (sleeping : bool) (esp process next : Z) : thread_t :=
  Thread 0 0 THREAD_MAX_TICKS 0 THREAD_WANTED_TICKS blocks true false 0 0 0 0 0 esp 0 0 0 [] 0 0 sleeping 50 process next.
Definition demo_process (pdirectory main next : Z) : process_t :=
  Process pdirectory 0 0 0 false true main main 2 0 0 [] 0 next.
Definition demo_sched : sched := Sched
  {[ 11 := demo_thread 1 true 0x1000 1 12; 12 := demo_thread 0 false 0x2000 1 NULL; 21 := demo_thread 0 false 0x3000 2 NULL ]}
  {[ 1 := demo_process 0x10000 11 2; 2 := demo_process 0x20000 21 NULL ]} 1 1 NULL NULL false 3 0 0.
Definition demo_lists (p : Z) : list Z := if p =? 1 then [11; 12] else [21].

Lemma demo_sched_ready : ready demo_sched [1; 2] demo_lists.
Proof.
  constructor; [constructor| |by constructor|done|].
  - cbn. split_and!; [done|done|]. eexists. split; [done|]. cbn. split_and!; [done|done|]. eexists. by split.
  - apply (bool_decide_unpack _). done.
  - intros p [->|[->|[]%elem_of_nil]%elem_of_cons]%elem_of_cons; eexists; (split; [done|]); cbn; split_and!; try done.
    all: repeat first [apply (bool_decide_unpack _); done | eexists; split; [done|]; cbn; split_and!; [done|done|] | by eexists].
  - intros p [->|[->|[]%elem_of_nil]%elem_of_cons]%elem_of_cons; apply (bool_decide_unpack _); done.
  - intros p x t [->|[->|[]%elem_of_nil]%elem_of_cons]%elem_of_cons [->|[->|[]%elem_of_nil]%elem_of_cons]%elem_of_cons; try done; cbn; set_solver.
  - split.
    + intros p pr [->|[->|[]%elem_of_nil]%elem_of_cons]%elem_of_cons [= <-]; done.
    + intros p t th [->|[->|[]%elem_of_nil]%elem_of_cons]%elem_of_cons; cbn; intros Ht;
        repeat (apply elem_of_cons in Ht as [->|Ht]; [intros [= <-]; unfold sound_thread, is_u8, THREAD_MAX_TICKS; cbn; split_and!; (done || lia)|]);
        by apply elem_of_nil in Ht.
  - intros th Hth. vm_compute in Hth. injection Hth as <-. reflexivity.
Qed.

Lemma demo_runnable : runnable 12 demo_sched.
Proof. eexists. split; [reflexivity|done]. Qed.

Lemma sd_schedule_switches_witness :
  exists s', sd_schedule 0 demo_sched 0x1234 = Ok (0x3000, s') /\ t_esp <$> s_threads s' !! 11 = Some 0x1234 /\ s_pagedir s' = 0x20000.
Proof.
  destruct (sd_schedule_switches [1; 2] demo_lists 1 12 0 demo_sched 0x1234 demo_sched_ready) as (s' & pr & th & E & _ & _ & _ & _ & _ & _ & H).
  - lia.
  - by constructor.
  - apply (bool_decide_unpack _). done.
  - exact demo_runnable.
  - assert (Hv : match sd_schedule 0 demo_sched 0x1234 with Ok (e, x) => (e, s_pagedir x) | _ => (0, 0) end = (0x3000, 0x20000))
      by (vm_compute; reflexivity).
    rewrite E in Hv. injection Hv as He Hd. exists s'. split; [by rewrite E, He|]. split; [apply (H 11)|exact Hd].
Defined.

Lemma sd_schedule_fair_witness :
  exists n s', Z.of_nat n <= 98 /\ interrupts n (fun _ => 0) (fun i => 0x5000 + Z.of_nat i) demo_sched = Ok s' /\ thread_getCurrentThread s' = Ok 12.
Proof.
  apply (sd_schedule_fair [1; 2] demo_lists 1 12 (fun _ => 0) (fun i => 0x5000 + Z.of_nat i) demo_sched demo_sched_ready).
  - by constructor.
  - apply (bool_decide_unpack _). done.
  - exact demo_runnable.
  - intros i. lia.
Defined.
