(* ===== verification/SchedulerDeath.v ===== *)
(** * Threads that exit

    A dead thread that is not its process's main thread is taken out of the
    list the next time the scheduler runs and handed to the collector. *)

From S2P Require Import Prelude Scheduler SchedulerCorrect.

(** ** Taking an element out of a chain *)

Section Remove.
Context {A : Type} (next : A -> Z).

Lemma chain_remove (m m' : gmap Z A) l1 y t l2 ay ay' at_ : forall first,
  chain next m first (l1 ++ y :: t :: l2) -> NoDup (l1 ++ y :: t :: l2) ->
  m !! y = Some ay -> m !! t = Some at_ -> m' !! y = Some ay' -> next ay' = next at_ ->
  (forall x, x <> y -> x <> t -> m' !! x = m !! x) -> chain next m' first (l1 ++ y :: l2).
Proof.
  induction l1 as [|z l1 IH]; intros first Hc Hnd Hy Ht Hy' En Hsame; cbn [app] in *.
  - destruct Hc as (-> & Hy0 & a & Ha & Hc). destruct Hc as (_ & Ht0 & b & Hb & Hc). simplify_eq.
    cbn. split_and!; [done|done|]. exists ay'. split; [done|]. rewrite En.
    eapply chain_same; [exact Hc|]. intros x c Hx Hxc. exists c. split; [|done]. rewrite Hsame; [done|..].
    + intros ->. apply NoDup_cons in Hnd as [Hn _]. apply Hn. by constructor.
    + intros ->. apply NoDup_cons in Hnd as [_ Hnd]. apply NoDup_cons in Hnd as [Hn _]. done.
  - destruct Hc as (-> & Hz0 & a & Ha & Hc). apply NoDup_cons in Hnd as [Hn Hnd]. cbn. split_and!; [done|done|].
    exists a. split; [rewrite Hsame; [done|..]; intros ->; apply Hn, elem_of_app; right; [by constructor|by do 2 constructor]|].
    by apply IH.
Qed.

Lemma chain_lookup (m : gmap Z A) first l x : chain next m first l -> x ∈ l -> exists a, m !! x = Some a.
Proof.
  revert first. induction l as [|y l IH]; intros first Hc Hx; [by apply elem_of_nil in Hx|].
  destruct Hc as (_ & _ & a & Ha & Hc). apply elem_of_cons in Hx as [->|Hx]; [by exists a|by eapply IH].
Qed.

Lemma chain_mid (m : gmap Z A) l1 t l2 a : forall first, chain next m first (l1 ++ t :: l2) -> m !! t = Some a -> next a = hd NULL l2.
Proof.
  induction l1 as [|z l1 IH]; intros first Hc Ht; cbn [app] in Hc; destruct Hc as (_ & _ & b & Hb & Hc).
  - simplify_eq. by eapply chain_hd.
  - by eapply IH.
Qed.
End Remove.

(** The walk finds the element in front. *)
Lemma previous_thread_spec s l1 y t l2 fuel : forall first,
  chain t_next (s_threads s) first (l1 ++ y :: t :: l2) -> NoDup (l1 ++ y :: t :: l2) -> (length l1 < fuel)%nat ->
  previous_thread fuel s first t = Ok y.
Proof.
  revert fuel. induction l1 as [|z l1 IH]; intros fuel first Hc Hnd Hf; (destruct fuel as [|fuel]; [cbn in Hf; lia|]);
    cbn [app] in *; destruct Hc as (-> & Hz & a & Ha & Hc); cbn [previous_thread];
    rewrite (proj2 (Z.eqb_neq _ _)) by done; unfold thread_at; rewrite Ha; cbn [of_option obind].
  - destruct Hc as (-> & _). by rewrite Z.eqb_refl.
  - rewrite (proj2 (Z.eqb_neq _ _)).
    + apply IH; [done|by eapply NoDup_cons_1_2|cbn in Hf; lia].
    + apply chain_hd in Hc. rewrite Hc. apply NoDup_cons in Hnd as [_ Hnd]. destruct l1 as [|w l1]; cbn [app hd]; intros ->.
      * apply NoDup_cons in Hnd as [Hn _]. apply Hn. by constructor.
      * cbn [app] in Hnd. apply NoDup_cons in Hnd as [Hn _]. apply Hn, elem_of_app. right. by do 2 constructor.
Qed.

(** ** Burying a thread *)

Definition without (ts : Z -> list Z) (p : Z) (l : list Z) : Z -> list Z := fun x => if x =? p then l else ts x.

Section Bury.
Context (ps : list Z) (ts : Z -> list Z) (s : sched) (p y t : Z) (l1 l2 : list Z).
Context (L : lists s ps ts) (Hp : p ∈ ps) (Hts : ts p = l1 ++ y :: t :: l2).
#[local] Abbreviation ts' := (without ts p (l1 ++ y :: l2)).

Lemma bury_nodup : NoDup (l1 ++ y :: t :: l2) /\ NoDup (l1 ++ y :: l2) /\ y <> t.
Proof using All.
  pose proof (ls_tnodup _ _ _ L p Hp) as Hnd. rewrite Hts in Hnd. split_and!; [done|..].
  - eapply sublist_NoDup; [exact Hnd|]. apply sublist_app; [done|]. apply sublist_skip, sublist_cons. done.
  - apply NoDup_app in Hnd as (_ & _ & Hnd). apply NoDup_cons in Hnd as [Hn _]. intros ->. apply Hn. constructor.
Qed.

Lemma bury_sub x z : z ∈ ts' x -> z ∈ ts x.
Proof using All.
  unfold without. destruct (Z.eqb_spec x p) as [->|]; [|done]. rewrite Hts, !elem_of_app, !elem_of_cons. tauto.
Qed.

(** The lists after the thread has been unlinked and [n] been scheduled. *)
Lemma bury_lists th ay pr n d e : s_threads s !! t = Some th -> s_threads s !! y = Some ay -> s_processes s !! p = Some pr ->
  n ∈ l1 ++ y :: l2 ->
  lists (put_process (set_dead (put_thread (put_thread s y (th_link ay (t_id ay) (t_next th))) t (th_link th (t_id th) (s_deadThread s))) d e)
    p (pr_threads pr (p_mainThread pr) n (p_threadCounter pr))) ps ts'.
Proof using All.
  intros Hth Hay Hpr Hn. destruct bury_nodup as (Hnd & Hnd' & Hyt). destruct L as [L1 L2 L3 L4 L5].
  constructor; cbn [put_process set_processes set_dead put_thread set_threads s_processes s_first s_threads].
  - eapply chain_same; [exact L1|]. intros x a Hx Ha. destruct (Z.eq_dec x p) as [->|].
    + eexists. rewrite lookup_insert_eq. split; [done|]. by simplify_eq.
    + exists a. by rewrite lookup_insert_ne.
  - done.
  - intros x Hx. destruct (L3 x Hx) as (prx & Hprx & Hcx & Hsx). unfold without. destruct (Z.eqb_spec x p) as [->|Hne].
    + eexists. rewrite lookup_insert_eq. split; [done|]. simplify_eq. cbn. split; [|done]. rewrite Hts in Hcx.
      eapply (chain_remove t_next _ _ l1 y t l2 ay); [exact Hcx|done|done|done| | |].
      * rewrite lookup_insert_ne by done. apply lookup_insert_eq.
      * done.
      * intros z Hzy Hzt. by rewrite !lookup_insert_ne.
    + exists prx. rewrite lookup_insert_ne by done. split_and!; [done| |done].
      eapply chain_same; [exact Hcx|]. intros z a Hz Ha. exists a. split; [|done].
      rewrite !lookup_insert_ne; [done|..]; intros <-; apply Hne; symmetry; eapply (L5 p x); try done; rewrite Hts; apply elem_of_app; right;
        [constructor|by do 2 constructor].
  - intros x Hx. unfold without. destruct (x =? p); [done|by apply L4].
  - intros x z w Hx Hz Hw Hw'. eapply L5; [done|done|by apply bury_sub|by apply bury_sub].
Qed.

Lemma bury_thread_spec th : s_threads s !! t = Some th -> t_process th = p ->
  exists s' n, bury_thread s p t = Ok (s', p, n) /\ scheduled s' p = n /\ lists s' ps ts' /\
    s_deadThread s' = t /\ (t_next <$> s_threads s' !! t = Some (s_deadThread s)) /\
    s_current s' = s_current s /\ s_lock s' = s_lock s /\
    (forall x, kept_fields <$> s_processes s' !! x = kept_fields <$> s_processes s !! x) /\
    (forall x th', s_threads s' !! x = Some th' -> exists id nx thx, s_threads s !! x = Some thx /\ th' = th_link thx id nx) /\
    size (s_threads s') = size (s_threads s) /\ size (s_processes s') = size (s_processes s).
Proof using All.
  intros Hth Hproc. destruct bury_nodup as (Hnd & Hnd' & Hyt).
  destruct (ls_threads _ _ _ L p Hp) as (pr & Hpr & Hc & Hsch). rewrite Hts in Hc.
  destruct (chain_lookup t_next _ _ _ y Hc) as [ay Hay]; [apply elem_of_app; right; constructor|].
  assert (Hprev : _sd_threadPreviousThread s t = Ok y).
  { unfold _sd_threadPreviousThread, thread_at, process_at. rewrite Hth. cbn [of_option obind]. rewrite Hproc, Hpr. cbn [of_option obind].
    apply (previous_thread_spec s l1 y t l2); [done|done|].
    pose proof (chain_size _ _ _ _ Hc Hnd) as Hsz. rewrite length_app in Hsz. cbn in Hsz. lia. }
  set (s1 := put_thread s y (th_link ay (t_id ay) (t_next th))).
  assert (H1t : s_threads s1 !! t = Some th) by (cbn; by rewrite lookup_insert_ne).
  set (s2 := set_dead (put_thread s1 t (th_link th (t_id th) (s_deadThread s))) (s_deadProcess s) t).
  assert (H2y : s_threads s2 !! y = Some (th_link ay (t_id ay) (t_next th))) by (cbn; rewrite lookup_insert_ne by done; apply lookup_insert_eq).
  set (n := if t_next th =? NULL then p_mainThread pr else t_next th).
  set (s3 := put_process s2 p (pr_threads pr (p_mainThread pr) n (p_threadCounter pr))).
  assert (E : bury_thread s p t = Ok (s3, p, n)).
  { unfold bury_thread. rewrite Hprev. cbn [obind]. unfold thread_at at 1. rewrite Hay. cbn [of_option obind].
    unfold thread_at at 1. rewrite Hth. cbn [of_option obind]. fold s1. unfold thread_at at 1. rewrite H1t. cbn [of_option obind].
    change (s_deadThread s1) with (s_deadThread s). change (s_deadProcess (put_thread s1 t _)) with (s_deadProcess s). fold s2.
    unfold thread_at. rewrite H2y. cbn [of_option obind]. unfold process_at. change (s_processes s2) with (s_processes s). rewrite Hpr. done. }
  assert (Hn : n ∈ l1 ++ y :: l2).
  { subst n. replace (l1 ++ y :: t :: l2) with ((l1 ++ [y]) ++ t :: l2) in Hc by (by rewrite <- (assoc_L (++))).
    rewrite (chain_mid t_next _ _ _ _ _ _ Hc Hth), (chain_hd _ _ _ _ Hc). destruct l2 as [|z l2'].
    - cbn [hd]. rewrite Z.eqb_refl. destruct l1; cbn; constructor.
    - cbn [hd]. destruct (Z.eqb_spec z NULL) as [->|]; [destruct l1; cbn; constructor|]. apply elem_of_app. right. by do 2 constructor. }
  exists s3, n. split; [exact E|]. split; [unfold scheduled; cbn; by rewrite lookup_insert_eq|]. split_and!; try done.
  - by apply bury_lists.
  - cbn. by rewrite lookup_insert_eq.
  - intros x. cbn. destruct (Z.eq_dec x p) as [->|]; [by rewrite lookup_insert_eq, Hpr|by rewrite lookup_insert_ne].
  - intros x th'. cbn. destruct (Z.eq_dec x t) as [->|]; [rewrite lookup_insert_eq; intros [= <-]; by do 3 eexists|].
    rewrite lookup_insert_ne by done. destruct (Z.eq_dec x y) as [->|]; [rewrite lookup_insert_eq; intros [= <-]; by do 3 eexists|].
    rewrite lookup_insert_ne by done. intros Hx. exists (t_id th'), (t_next th'), th'. split; [done|by destruct th'].
  - cbn. by rewrite map_size_insert, lookup_insert_ne, Hth, map_size_insert, Hay by done.
  - cbn. by rewrite map_size_insert, Hpr.
Qed.
End Bury.

(** ** Exiting *)

(** The state in which the dead thread is buried: the flag is set, the lock
    taken and the stack pointer saved. *)
Definition exiting (s : sched) (t esp : Z) (th : thread_t) : sched :=
  put_thread (set_sdlock s true) t (th_esp (th_flags th (t_wasNice th) true) esp).

Section Exit.
Context (ps : list Z) (ts : Z -> list Z) (s : sched) (p y t : Z) (l1 l2 : list Z) (th : thread_t).
Context (R : ready s ps ts) (Ecur : s_current s = p) (Hsch : scheduled s p = t) (Hts : ts p = l1 ++ y :: t :: l2).
Context (Hth : s_threads s !! t = Some th) (Hproc : t_process th = p).
#[local] Abbreviation ts' := (without ts p (l1 ++ y :: l2)).

Lemma exit_in : p ∈ ps.
Proof using All. rewrite <- Ecur. apply R. Qed.

Lemma exiting_lists esp : lists (exiting s t esp th) ps ts.
Proof using All.
  pose proof (rd_lists _ _ _ R) as L. assert (L0 : lists (set_sdlock s true) ps ts) by (destruct L; by constructor).
  by eapply (lists_put_thread ps ts).
Qed.

(** The system call comes to the burial. *)
Lemma exit_runs now esp : esp <> 0 ->
  _sc_threadExit now s esp =
  (let* (e, s') :=
     let* (s', process, thread) := bury_thread (exiting s t esp th) p t in
     let* n := thread_at s' thread in
     let s' := put_thread s' thread (th_ticks n (u8 (t_usedTicks n + 1))) in
     let* r := pick_thread (schedule_fuel s) now s' process thread in
     match r with
     | Picked s' process thread => switch_to s' process thread
     | Killed s' process => schedule_locked (size (s_processes s)) (schedule_fuel s) now (set_current s' process)
     end in Ok (0, e, s')).
Proof using All.
  intros Hesp. pose proof exit_in as Hp. destruct R as [L A Hc Hl Ht].
  destruct (list_process ps ts s p L Hp) as (_ & pr & Hpr & _ & Em & Es & Hin). rewrite Hsch in Es.
  unfold _sc_threadExit, sd_threadExit, thread_getCurrentThread, process_at. rewrite Ecur, Hpr. cbn [of_option obind]. rewrite Es.
  unfold thread_at at 1. rewrite Hth. cbn [of_option obind].
  set (th0 := th_flags th (t_wasNice th) true). set (s0 := put_thread s t th0).
  assert (H0t : s_threads (set_sdlock s0 true) !! t = Some th0) by apply lookup_insert_eq.
  unfold sd_schedule, process_at. change (s_current s0) with (s_current s). change (s_processes s0) with (s_processes s).
  change (s_lock s0) with (s_lock s). rewrite Ecur, Hpr. cbn [of_option obind].
  rewrite (proj2 (Z.eqb_neq _ _)) by done. rewrite Hl, Es. unfold thread_at at 1. rewrite H0t. cbn [of_option obind].
  set (s1 := put_thread (set_sdlock s0 true) t (th_esp th0 esp)).
  assert (E1 : s1 = exiting s t esp th).
  { unfold s1, s0, exiting, put_thread, set_threads, set_sdlock. cbn. by rewrite insert_insert_eq. }
  assert (Hsz : schedule_fuel s1 = schedule_fuel s).
  { rewrite E1. unfold schedule_fuel, exiting. cbn. by rewrite map_size_insert, Hth. }
  rewrite Hsz. cbn [schedule_locked]. change (s_current s1) with (s_current s). change (size (s_processes s1)) with (size (s_processes s)).
  unfold process_at. change (s_processes s1) with (s_processes s). rewrite Ecur, Hpr. cbn [of_option obind]. rewrite Es.
  unfold bury_dead, process_at. change (s_processes s1) with (s_processes s). rewrite Hpr. cbn [of_option obind].
  assert (H1t : s_threads s1 !! t = Some (th_esp (th_flags th (t_wasNice th) true) esp)) by (rewrite E1; apply lookup_insert_eq).
  unfold thread_at at 1. rewrite H1t. cbn [of_option obind th_esp th_flags t_died]. rewrite (proj1 A p pr Hp Hpr). cbn [orb].
  rewrite (proj2 (Z.eqb_neq _ _)); [by rewrite E1|]. rewrite Em, Hts.
  destruct (bury_nodup ps ts s p y t l1 l2 L Hp Hts) as (Hnd & _ & Hyt). destruct l1 as [|z l1']; cbn [app hd]; [done|].
  cbn [app] in Hnd. apply NoDup_cons in Hnd as [Hn _]. intros ->. apply Hn, elem_of_app. right. by do 2 constructor.
Qed.

(** After the burial everyone who is left is alive. *)
Lemma buried_alive esp s' : lists s' ps ts' ->
  (forall x, kept_fields <$> s_processes s' !! x = kept_fields <$> s_processes (exiting s t esp th) !! x) ->
  (forall x th', s_threads s' !! x = Some th' -> exists id nx thx, s_threads (exiting s t esp th) !! x = Some thx /\ th' = th_link thx id nx) ->
  alive s' ps ts' /\ forall r, r <> t -> runnable r s -> is_Some (s_threads s' !! r) -> runnable r s'.
Proof using All.
  intros L' Hk Hx. pose proof exit_in as Hp. destruct R as [L A Hc Hl Ht].
  destruct (bury_nodup ps ts s p y t l1 l2 L Hp Hts) as (Hnd & _ & Hyt).
  assert (Hkeep : forall x th', x <> t -> s_threads s' !! x = Some th' -> exists id nx thx, s_threads s !! x = Some thx /\ th' = th_link thx id nx).
  { intros x th' Hne Hx'. destruct (Hx x th' Hx') as (id & nx & thx & H1 & ->). cbn in H1. rewrite lookup_insert_ne in H1 by done. by do 3 eexists. }
  split; [split|].
  - intros x a Hxp Ha. specialize (Hk x). rewrite Ha in Hk. symmetry in Hk. apply fmap_Some in Hk as (b & Hb & Eb).
    unfold kept_fields in Eb. injection Eb as -> _. by apply (proj1 A x).
  - intros x z a Hxp Hz Ha. pose proof (bury_sub ps ts s p y t l1 l2 L Hp Hts x z Hz) as Hz'.
    assert (Hzt : z <> t).
    { intros ->. assert (x = p) as -> by (eapply (ls_disjoint _ _ _ L x p t); [done|done|done|rewrite Hts; apply elem_of_app; right; by do 2 constructor]).
      unfold without in Hz. rewrite Z.eqb_refl in Hz. apply NoDup_app in Hnd as (_ & Hd & Hnd2).
      apply elem_of_app in Hz as [Hz|Hz]; [apply (Hd t Hz); by do 2 constructor|].
      apply elem_of_cons in Hz as [E|Hz]; [congruence|]. apply NoDup_cons in Hnd2 as [_ Hnd2]. by apply NoDup_cons in Hnd2 as [Hn _]. }
    destruct (Hkeep z a Hzt Ha) as (id & nx & thx & Hthx & ->). exact (proj2 A x z thx Hxp Hz' Hthx).
  - intros r Hne (rt & Hrt & Hb & Hsl) [a Ha]. destruct (Hkeep r a Hne Ha) as (id & nx & thx & Hthx & ->).
    eexists. split; [exact Ha|]. by simplify_eq.
Qed.
End Exit.

(** C37: a thread's exit.  When the running thread, not the main one of its
    process, exits while some other thread may run, the system call gives the
    processor to a thread that may run; the dead one is gone from its process's
    list, the other threads are all still there, and it is the first in the list
    for the collector, in front of those that were there. *)
Theorem sc_threadExit_buries ps ts s p y t l1 l2 th q r now esp :
  ready s ps ts -> s_current s = p -> scheduled s p = t -> ts p = l1 ++ y :: t :: l2 ->
  s_threads s !! t = Some th -> t_process th = p ->
  q ∈ ps -> r ∈ ts q -> r <> t -> runnable r s -> esp <> 0 ->
  exists s' thn, _sc_threadExit now s esp = Ok (0, t_esp thn, s') /\ ready s' ps (without ts p (l1 ++ y :: l2)) /\
    s_threads s' !! scheduled s' (s_current s') = Some thn /\ gives_way thn = false /\
    s_deadThread s' = t /\ t_next <$> s_threads s' !! t = Some (s_deadThread s).
Proof.
  intros R Ecur Hsch Hts Hth Hproc Hq Hr Hrt Hrun Hesp. set (ts' := without ts p (l1 ++ y :: l2)).
  pose proof (exit_in ps ts s p y t l1 l2 th R Ecur Hsch Hts Hth Hproc) as Hp.
  pose proof (exiting_lists ps ts s p y t l1 l2 th R Ecur Hsch Hts Hth Hproc esp) as L1.
  rewrite (exit_runs ps ts s p y t l1 l2 th R Ecur Hsch Hts Hth Hproc now esp Hesp).
  destruct (bury_thread_spec ps ts (exiting s t esp th) p y t l1 l2 L1 Hp Hts (th_esp (th_flags th (t_wasNice th) true) esp))
    as (s2 & n & E2 & En & L2 & Hd2 & Hn2 & Hc2 & Hl2 & Hk2 & Hx2 & Sz1 & Sz2); [apply lookup_insert_eq|done|].
  rewrite E2. cbn [obind]. fold ts' in L2.
  destruct (buried_alive ps ts s p y t l1 l2 th R Ecur Hsch Hts Hth Hproc esp s2 L2 Hk2 Hx2) as [A2 Hrun2]. fold ts' in A2.
  assert (Hr' : r ∈ ts' q).
  { unfold ts', without. destruct (Z.eqb_spec q p) as [->|]; [|done]. rewrite Hts in Hr. rewrite !elem_of_app, !elem_of_cons in *. tauto. }
  destruct (list_thread ps ts' s2 q r L2 Hq Hr') as (rt & Hrt2 & _).
  specialize (Hrun2 r Hrt Hrun (ex_intro _ rt Hrt2)).
  destruct (list_process ps ts' s2 p L2 Hp) as (_ & _ & _ & _ & _ & _ & Hin2). rewrite En in Hin2.
  destruct (list_thread ps ts' s2 p n L2 Hp Hin2) as (thn & Hthn & _).
  pose proof (proj2 A2 p n thn Hp Hin2 Hthn) as (Hdn & Hun & Hwn).
  unfold thread_at at 1. rewrite Hthn. cbn [of_option obind]. set (thn' := th_ticks thn (u8 (t_usedTicks thn + 1))).
  set (s3 := put_thread s2 n thn').
  assert (L3 : lists s3 ps ts') by (by eapply (lists_put_thread ps ts')).
  assert (A3 : alive s3 ps ts').
  { eapply (alive_put ps ts' q r Hq Hr'); [exact A2|exact Hthn|]. unfold sound_thread, is_u8. cbn.
    pose proof (u8_range (t_usedTicks thn + 1)). split_and!; (done || lia). }
  assert (Hrun3 : runnable r s3).
  { destruct Hrun2 as (x & Hx & Hb & Hsl). unfold runnable, s3. cbn. destruct (Z.eq_dec r n) as [->|].
    - rewrite lookup_insert_eq. eexists. split; [done|]. by simplify_eq.
    - exists x. by rewrite lookup_insert_ne. }
  assert (Hfuel : rank ps ts' q r s3 p <= Z.of_nat (schedule_fuel s)).
  { etrans; [by apply (fuel_enough ps ts' q r Hq Hr')|]. unfold schedule_fuel, s3. cbn [put_thread set_threads s_threads s_processes].
    rewrite map_size_insert, Hthn. rewrite Sz1, Sz2. cbn. rewrite map_size_insert, Hth. done. }
  destruct (pick_spec ps ts' q r Hq Hr' (schedule_fuel s) now s3 p L3 A3 Hp Hrun3 Hfuel)
    as (s4 & p4 & E4 & L4 & A4 & Hp4 & _ & Pv4 & Hpick & _).
  assert (Esn : scheduled s3 p = n) by exact En. rewrite Esn in E4. rewrite E4. cbn [obind].
  destruct (list_process ps ts' s4 _ L4 Hp4) as (_ & _ & _ & _ & _ & _ & Hin4).
  destruct (list_thread ps ts' s4 _ _ L4 Hp4 Hin4) as (th4 & Hth4 & _).
  destruct (switch_spec ps ts' q r Hq Hr' s4 p4 th4 L4 A4 Hp4 Hth4 (Hpick th4 Hth4)) as (s5 & pr & E5 & _ & R5 & Pv5 & Ec5 & Es5 & Et5 & _ & _).
  rewrite E5. cbn [obind]. exists s5, (th_flags th4 false (t_died th4)). split_and!; [done|done| |exact (Hpick th4 Hth4)| |].
  - rewrite Ec5, Es5, Et5. apply lookup_insert_eq.
  - rewrite (proj2 (pv_dead _ _ Pv5)), (proj2 (pv_dead _ _ Pv4)). exact Hd2.
  - rewrite (pv_next _ _ Pv5), (pv_next _ _ Pv4). change (s_deadThread (exiting s t esp th)) with (s_deadThread s) in Hn2. rewrite <- Hn2.
    apply (pv_next _ _ (preserves_put_thread s2 n thn thn' Hthn eq_refl eq_refl)).
Qed.

(** The demonstration state with the second thread of the first process running. *)
Definition demo_exit : sched := put_process demo_sched 1 (pr_threads (demo_process 0x10000 11 2) 11 12 2).

Lemma demo_exit_ready : ready demo_exit [1; 2] demo_lists.
Proof.
  destruct demo_sched_ready as [L A Hc Hl Ht]. constructor; [| |by constructor|done|].
  - apply (lists_put_process [1; 2] demo_lists demo_sched 1 (demo_process 0x10000 11 2) 12 L); [by constructor|done|].
    apply (bool_decide_unpack _). done.
  - split; [|exact (proj2 A)]. intros p pr [->|[->|[]%elem_of_nil]%elem_of_cons]%elem_of_cons Hpr; vm_compute in Hpr; by injection Hpr as <-.
  - intros th Hth. vm_compute in Hth. injection Hth as <-. reflexivity.
Qed.

Lemma sc_threadExit_buries_witness :
  exists s' e, _sc_threadExit 0 demo_exit 0x1234 = Ok (0, e, s') /\ s_deadThread s' = 12 /\
    lists s' [1; 2] (without demo_lists 1 [11]).
Proof.
  destruct (sc_threadExit_buries [1; 2] demo_lists demo_exit 1 11 12 [] [] (demo_thread 0 false 0x2000 1 NULL) 2 21 0 0x1234 demo_exit_ready)
    as (s' & thn & E & R' & _ & _ & Hd & _); try reflexivity; try discriminate.
  - apply (bool_decide_unpack _). done.
  - apply (bool_decide_unpack _). done.
  - eexists. split; [reflexivity|done].
  - exists s', (t_esp thn). split; [exact E|]. split; [exact Hd|apply R'].
Defined.
