(* ===== verification/Qdivrem.v ===== *)
(** * 64-bit division (sys/libc/bsd/qdivrem.c and its callers)

    The compiler's helpers for dividing 64-bit numbers on a 32-bit machine:
    Knuth's Algorithm D on 16-bit digits.  An array of digits is its content
    with every access checked against its five elements; pointers into it are
    offsets.  [ULONG_MAX] is not defined where the file tests for it, so a digit
    is an [unsigned long]. *)

From S2P Require Import Prelude.

Definition HALF_BITS : Z := 16.
Definition B : Z := Z.shiftl 1 HALF_BITS.
Definition HHALF (x : Z) : Z := Z.shiftr x HALF_BITS.
Definition LHALF (x : Z) : Z := Z.land x (Z.shiftl 1 HALF_BITS - 1).
Definition COMBINE (a b : Z) : Z := Z.lor (u32 (Z.shiftl a HALF_BITS)) b.

(** [union uu]: the high and the low word of a quad. *)
Definition uu_high (q : Z) : Z := Z.shiftr q 32.
Definition uu_low (q : Z) : Z := u32 q.
Definition uu_quad (h l : Z) : Z := Z.lor (Z.shiftl h 32) l.

Definition digits : Type := Z -> Z.
Definition rd (a : digits) (i : Z) : outcome Z := if (0 <=? i) && (i <? 5) then Ok (a i) else Fault.
Definition wr (a : digits) (i x : Z) : outcome digits :=
  if (0 <=? i) && (i <? 5) then Ok (fun k => if k =? i then x else a k) else Fault.

(** [__shl(p, len, sh)] from index [i] on, [p] at offset [o]. *)
Fixpoint shl_loop (k : nat) (a : digits) (o i sh : Z) : outcome digits :=
  match k with
  | O => let* x := rd a (o + i) in wr a (o + i) (LHALF (u32 (Z.shiftl x sh)))
  | S k' =>
      let* x := rd a (o + i) in
      let* y := rd a (o + i + 1) in
      let* a := wr a (o + i) (Z.lor (LHALF (u32 (Z.shiftl x sh))) (Z.shiftr y (HALF_BITS - sh))) in
      shl_loop k' a o (i + 1) sh
  end.

Definition __shl (a : digits) (o len sh : Z) : outcome digits := shl_loop (Z.to_nat len) a o 0 sh.

(** Four digits of a quad at indices 1 to 4. *)
Definition split_quad (x : Z) : digits := fun i =>
  if i =? 1 then HHALF (uu_high x) else if i =? 2 then LHALF (uu_high x)
  else if i =? 3 then HHALF (uu_low x) else if i =? 4 then LHALF (uu_low x) else 0.

Definition join_quad (a : digits) : outcome Z :=
  let* a1 := rd a 1 in let* a2 := rd a 2 in let* a3 := rd a 3 in let* a4 := rd a 4 in
  Ok (uu_quad (COMBINE a1 a2) (COMBINE a3 a4)).

(** The division by a single digit, unrolled in the source. *)
Definition short_division (u : digits) (t : Z) : outcome (Z * Z) :=
  let* u1 := rd u 1 in let* u2 := rd u 2 in let* u3 := rd u 3 in let* u4 := rd u 4 in
  let q1 := u1 / t in
  let rbj := COMBINE (u1 mod t) u2 in
  let q2 := rbj / t in
  let rbj := COMBINE (rbj mod t) u3 in
  let q3 := rbj / t in
  let rbj := COMBINE (rbj mod t) u4 in
  let q4 := rbj / t in
  Ok (uu_quad (COMBINE q1 q2) (COMBINE q3 q4), rbj mod t).

(** Leading zeros of the divisor: the offset of [v] and [n], or the divisor's
    only digit. *)
Fixpoint skip_divisor (k : nat) (v : digits) (vo n : Z) : outcome (Z * Z + Z) :=
  let* v1 := rd v (vo + 1) in
  if v1 =? 0 then
    match k with
    | O => Hang
    | S k' =>
        let n := n - 1 in
        if n =? 1 then let* t := rd v (vo + 2) in Ok (inr t) else skip_divisor k' v (vo + 1) n
    end
  else Ok (inl (vo, n)).

Fixpoint skip_dividend (k : nat) (u : digits) (uo m : Z) : outcome (Z * Z) :=
  let* u1 := rd u (uo + 1) in
  if u1 =? 0 then match k with O => Hang | S k' => skip_dividend k' u (uo + 1) (m - 1) end
  else Ok (uo, m).

(** [for (i = k; --i >= 0;) q[i] = 0] *)
Fixpoint zero_digits (k : nat) (q : digits) : outcome digits :=
  match k with
  | O => Ok q
  | S k' => let* q := wr q (Z.of_nat k') 0 in zero_digits k' q
  end.

(** D1: the shift that normalises the divisor. *)
Fixpoint normalize (k : nat) (t d : Z) : outcome Z :=
  if t <? B / 2 then match k with O => Hang | S k' => normalize k' (u32 (Z.shiftl t 1)) (d + 1) end else Ok d.

(** D3: the estimate is corrected; [jump] enters behind the test. *)
Fixpoint correct_qhat (k : nat) (jump : bool) (v1 v2 uj2 qhat rhat : Z) : outcome Z :=
  if jump || (COMBINE rhat uj2 <? u32 (v2 * qhat)) then
    match k with
    | O => Hang
    | S k' =>
        let qhat := u32 (qhat - 1) in
        let rhat := u32 (rhat + v1) in
        if B <=? rhat then Ok qhat else correct_qhat k' false v1 v2 uj2 qhat rhat
    end
  else Ok qhat.

Definition estimate (v1 v2 uj0 uj1 uj2 : Z) : outcome Z :=
  if uj0 =? v1 then correct_qhat 3 true v1 v2 uj2 B uj1
  else let nn := COMBINE uj0 uj1 in correct_qhat 3 false v1 v2 uj2 (nn / v1) (nn mod v1).

(** D4: [u] at [uo], [v] at [vo]; [i] counts down to 1. *)
Fixpoint multiply_subtract (i : nat) (u v : digits) (uj vo qhat t : Z) : outcome (digits * Z) :=
  match i with
  | O => Ok (u, t)
  | S i' =>
      let* x := rd u (uj + Z.of_nat i) in
      let* y := rd v (vo + Z.of_nat i) in
      let t := u32 (x - y * qhat - t) in
      let* u := wr u (uj + Z.of_nat i) (LHALF t) in
      multiply_subtract i' u v uj vo qhat (Z.land (u32 (B - HHALF t)) (B - 1))
  end.

(** D6 *)
Fixpoint add_back (i : nat) (u v : digits) (uj vo t : Z) : outcome (digits * Z) :=
  match i with
  | O => Ok (u, t)
  | S i' =>
      let* x := rd u (uj + Z.of_nat i) in
      let* y := rd v (vo + Z.of_nat i) in
      let t := u32 (t + x + y) in
      let* u := wr u (uj + Z.of_nat i) (LHALF t) in
      add_back i' u v uj vo (HHALF t)
  end.

(** One digit of the quotient: D3 to D6 with [u] at [uj]. *)
Definition quotient_digit (n : nat) (u v : digits) (v1 v2 uj vo : Z) : outcome (Z * digits) :=
  let* uj0 := rd u uj in
  let* uj1 := rd u (uj + 1) in
  let* uj2 := rd u (uj + 2) in
  let* qhat := estimate v1 v2 uj0 uj1 uj2 in
  let* (u, t) := multiply_subtract n u v uj vo qhat 0 in
  let* x := rd u uj in
  let t := u32 (x - t) in
  let* u := wr u uj (LHALF t) in
  if HHALF t =? 0 then Ok (qhat, u) else
  let* (u, t) := add_back n u v uj vo 0 in
  let* x := rd u uj in
  let* u := wr u uj (LHALF (u32 (x + t))) in
  Ok (u32 (qhat - 1), u).

(** D7: [k] more digits after the one at [j]. *)
Fixpoint divide_loop (k : nat) (n : nat) (u v q : digits) (v1 v2 uo vo qo j : Z) : outcome (digits * digits) :=
  let* (qhat, u) := quotient_digit n u v v1 v2 (uo + j) vo in
  let* q := wr q (qo + j) qhat in
  match k with
  | O => Ok (u, q)
  | S k' => divide_loop k' n u v q v1 v2 uo vo qo (j + 1)
  end.

(** The remainder is shifted back: [i] from [m + n] down to [m + 1]. *)
Fixpoint shift_back (k : nat) (u : digits) (o d : Z) : outcome digits :=
  match k with
  | O => wr u o 0
  | S k' =>
      let* x := rd u (o + Z.of_nat k) in
      let* y := rd u (o + Z.of_nat k - 1) in
      let* u := wr u (o + Z.of_nat k) (Z.lor (Z.shiftr x d) (LHALF (u32 (Z.shiftl y (HALF_BITS - d))))) in
      shift_back k' u o d
  end.

Definition long_division (u v : digits) (vo n : Z) : outcome (Z * Z) :=
  let* (uo, m) := skip_dividend 4 u 0 (4 - n) in
  let* q := zero_digits (Z.to_nat (4 - m)) (fun _ => 0) in
  let qo := 4 - m in
  let* t := rd v (vo + 1) in
  let* d := normalize 16 t 0 in
  let* u := if 0 <? d then __shl u uo (m + n) d else Ok u in
  let* v := if 0 <? d then __shl v (vo + 1) (n - 1) d else Ok v in
  let* v1 := rd v (vo + 1) in
  let* v2 := rd v (vo + 2) in
  let* (u, q) := divide_loop (Z.to_nat m) (Z.to_nat n) u v q v1 v2 uo vo qo 0 in
  let* u := if negb (d =? 0) then shift_back (Z.to_nat n) u (uo + m) d else Ok u in
  let* r := join_quad u in
  let* x := join_quad q in
  Ok (x, r).

(** The quotient and the remainder, which a null [arq] discards; dividing by
    zero traps. *)
Definition __qdivrem (uq vq : Z) : outcome (Z * Z) :=
  if vq =? 0 then Fault else
  if uq <? vq then Ok (0, uq) else
  let u := split_quad uq in
  let v := split_quad vq in
  let* r := skip_divisor 4 v 0 4 in
  match r with
  | inr t => short_division u t
  | inl (vo, n) => long_division u v vo n
  end.

(** ** The callers *)

Definition __udivdi3 (a b : Z) : outcome Z := let* (q, _) := __qdivrem a b in Ok q.
Definition __umoddi3 (a b : Z) : outcome Z := let* (_, r) := __qdivrem a b in Ok r.

Definition __divdi3 (a b : Z) : outcome Z :=
  let ua := if a <? 0 then u64 (- u64 a) else a in
  let neg := a <? 0 in
  let ub := if b <? 0 then u64 (- u64 b) else b in
  let neg := if b <? 0 then negb neg else neg in
  let* (uq, _) := __qdivrem ua ub in
  Ok (s64 (if neg then u64 (- uq) else uq)).

Definition __moddi3 (a b : Z) : outcome Z :=
  let ua := if a <? 0 then u64 (- u64 a) else a in
  let ub := if b <? 0 then u64 (- u64 b) else b in
  let* (_, ur) := __qdivrem ua ub in
  Ok (s64 (if a <? 0 then u64 (- ur) else ur)).
