(* ===== verification/QdivremCorrect.v ===== *)
(** * 64-bit division is division

    Numbers as runs of digits, and the loops of [__qdivrem] against them: the
    shifts multiply and divide by a power of two, D3 estimates the next digit
    within one, D4 to D6 leave the remainder of the window, and D7 assembles the
    quotient.  Then the shifts and the scans around Algorithm D, and the contract:
    for every dividend and every non-zero divisor the routines return, with the
    quotient and the remainder that C defines. *)

From S2P Require Import Prelude Qdivrem.

(** The number that [k] digits from [o] on spell, the first the most
    significant. *)
Fixpoint val (k : nat) (a : digits) (o : Z) : Z :=
  match k with O => 0 | S k' => val k' a o * 65536 + a (o + Z.of_nat k') end.

Definition is_digits (a : digits) : Prop := forall i, 0 <= a i < 65536.

Definition same_outside (a a' : digits) (lo hi : Z) : Prop := forall i, i < lo \/ hi <= i -> a' i = a i.

Ltac divmod := Z.to_euclidean_division_equations; lia.

(** ** Words as digits *)

Lemma LHALF_mod x : LHALF x = x mod 65536.
Proof. unfold LHALF. change (Z.shiftl 1 HALF_BITS - 1) with (Z.ones 16). by rewrite Z.land_ones. Qed.

Lemma HHALF_div x : HHALF x = x / 65536.
Proof. unfold HHALF. change HALF_BITS with 16. by rewrite Z.shiftr_div_pow2. Qed.

Lemma COMBINE_add a b : 0 <= a < 65536 -> 0 <= b < 65536 -> COMBINE a b = a * 65536 + b.
Proof.
  intros. unfold COMBINE. change HALF_BITS with 16. rewrite Z.shiftl_mul_pow2 by lia.
  rewrite u32_small by lia. by apply lor_disjoint.
Qed.

Lemma uu_quad_add h l : 0 <= l < 2 ^ 32 -> uu_quad h l = h * 2 ^ 32 + l.
Proof. intros. unfold uu_quad. rewrite Z.shiftl_mul_pow2 by lia. by apply lor_disjoint. Qed.

(** ** Accesses and runs of digits *)

Definition upd (a : digits) (i x : Z) : digits := fun k => if k =? i then x else a k.

Lemma rd_ok a i : 0 <= i < 5 -> rd a i = Ok (a i).
Proof. intros. unfold rd. by rewrite (proj2 (Z.leb_le 0 i)), (proj2 (Z.ltb_lt i 5)) by lia. Qed.

Lemma wr_ok a i x : 0 <= i < 5 -> wr a i x = Ok (upd a i x).
Proof. intros. unfold wr. by rewrite (proj2 (Z.leb_le 0 i)), (proj2 (Z.ltb_lt i 5)) by lia. Qed.

Lemma upd_at a i x : upd a i x i = x.
Proof. unfold upd. by rewrite Z.eqb_refl. Qed.

Lemma upd_off a i x k : k <> i -> upd a i x k = a k.
Proof. intros. unfold upd. by rewrite (proj2 (Z.eqb_neq k i)). Qed.

Lemma upd_digits a i x : is_digits a -> 0 <= x < 65536 -> is_digits (upd a i x).
Proof. intros Ha Hx k. unfold upd. by destruct (k =? i). Qed.

Lemma upd_same a i x lo hi : lo <= i < hi -> same_outside a (upd a i x) lo hi.
Proof. intros Hi k Hk. apply upd_off. lia. Qed.

Lemma same_trans a b c lo hi : same_outside a b lo hi -> same_outside b c lo hi -> same_outside a c lo hi.
Proof. intros H1 H2 i Hi. rewrite H2, H1; done. Qed.

Lemma same_widen a b lo hi lo' hi' :
  same_outside a b lo hi -> lo' <= lo -> hi <= hi' -> same_outside a b lo' hi'.
Proof. intros H ? ? i Hi. apply H. lia. Qed.

Lemma val_ext k a b o : (forall i, o <= i < o + Z.of_nat k -> a i = b i) -> val k a o = val k b o.
Proof.
  induction k as [|k IH]; intros H; simpl; [done |].
  rewrite IH by (intros; apply H; lia). rewrite H by lia. done.
Qed.

Lemma val_range k a o : is_digits a -> 0 <= val k a o < 65536 ^ Z.of_nat k.
Proof.
  intros Ha. induction k as [|k IH]; simpl val; [done |].
  rewrite Nat2Z.inj_succ, Z.pow_succ_r by lia. pose proof (Ha (o + Z.of_nat k)). nia.
Qed.

Lemma val_app j k a o : val (j + k) a o = val j a o * 65536 ^ Z.of_nat k + val k a (o + Z.of_nat j).
Proof.
  induction k as [|k IH].
  - rewrite Nat.add_0_r. simpl. lia.
  - rewrite Nat.add_succ_r. simpl val. rewrite IH, Nat2Z.inj_succ, Z.pow_succ_r by lia.
    replace (o + Z.of_nat (j + k)) with (o + Z.of_nat j + Z.of_nat k) by lia. ring.
Qed.

Lemma val_cons k a o : val (S k) a o = a o * 65536 ^ Z.of_nat k + val k a (o + 1).
Proof.
  change (S k) with (1 + k)%nat. rewrite val_app.
  replace (val 1 a o) with (a o) by (cbn [val]; by rewrite Z.add_0_r).
  replace (o + Z.of_nat 1) with (o + 1) by lia. done.
Qed.

(** ** D4 and D6 *)

Lemma sub_digit x y q t :
  0 <= x < 65536 -> 0 <= y < 65536 -> 0 <= q < 65536 -> 0 <= t < 65536 ->
  let r := u32 (x - y * q - t) in
  let c := Z.land (u32 (B - HHALF r)) (B - 1) in
  x - y * q - t = LHALF r - c * 65536 /\ 0 <= LHALF r < 65536 /\ 0 <= c < 65536.
Proof.
  intros Hx Hy Hq Ht r c.
  assert (Hp : 0 <= y * q <= 65535 * 65535) by nia.
  assert (Hc : c = u32 (65536 - HHALF r) mod 65536).
  { subst c. change (B - 1) with (Z.ones 16). by rewrite Z.land_ones. }
  rewrite Hc, HHALF_div, LHALF_mod. subst r. clear Hc c. generalize dependent (y * q).
  intros p Hp. unfold u32. divmod.
Qed.

Lemma mulsub_spec v vo q i : forall u uj t,
  is_digits u -> is_digits v -> 0 <= q < 65536 -> 0 <= t < 65536 ->
  0 <= uj -> uj + Z.of_nat i < 5 -> 0 <= vo -> vo + Z.of_nat i < 5 ->
  exists u' t', multiply_subtract i u v uj vo q t = Ok (u', t')
    /\ is_digits u' /\ 0 <= t' < 65536 /\ same_outside u u' (uj + 1) (uj + 1 + Z.of_nat i)
    /\ val i u (uj + 1) - q * val i v (vo + 1) - t = val i u' (uj + 1) - t' * 65536 ^ Z.of_nat i.
Proof.
  induction i as [|i IH]; intros u uj t Hu Hv Hq Ht Huj Hi Hvo Hvi.
  - exists u, t. repeat split; try apply Hu; try done; simpl; lia.
  - cbn [multiply_subtract]. rewrite !rd_ok by lia. cbn [obind]. rewrite wr_ok by lia. cbn [obind].
    destruct (sub_digit _ _ q t (Hu (uj + Z.of_nat (S i))) (Hv (vo + Z.of_nat (S i))) Hq Ht) as (Heq & Hl & Hc).
    set (r := u32 _) in *. set (c := Z.land _ _) in *. set (u1 := upd u _ _).
    destruct (IH u1 uj c) as (u' & t' & -> & Hu' & Ht' & Hs & Hval); try done; try lia.
    { by apply upd_digits. }
    exists u', t'. split; [done |]. split; [done |]. split; [done |]. split.
    { apply same_trans with u1; [apply upd_same; lia |]. apply same_widen with (uj + 1) (uj + 1 + Z.of_nat i); [done | lia..]. }
    cbn [val]. rewrite (val_ext i u u1) by (intros; symmetry; apply upd_off; lia).
    rewrite Nat2Z.inj_succ, Z.pow_succ_r by lia.
    replace (uj + 1 + Z.of_nat i) with (uj + Z.of_nat (S i)) by lia.
    replace (vo + 1 + Z.of_nat i) with (vo + Z.of_nat (S i)) by lia.
    rewrite (Hs (uj + Z.of_nat (S i))) by lia. subst u1. rewrite upd_at. nia.
Qed.

Lemma add_digit x y t :
  0 <= x < 65536 -> 0 <= y < 65536 -> 0 <= t <= 1 ->
  let r := u32 (t + x + y) in
  t + x + y = LHALF r + HHALF r * 65536 /\ 0 <= LHALF r < 65536 /\ 0 <= HHALF r <= 1.
Proof. intros Hx Hy Ht r. rewrite HHALF_div, LHALF_mod. subst r. u32_simpl. divmod. Qed.

Lemma add_back_spec v vo i : forall u uj t,
  is_digits u -> is_digits v -> 0 <= t <= 1 ->
  0 <= uj -> uj + Z.of_nat i < 5 -> 0 <= vo -> vo + Z.of_nat i < 5 ->
  exists u' t', add_back i u v uj vo t = Ok (u', t')
    /\ is_digits u' /\ 0 <= t' <= 1 /\ same_outside u u' (uj + 1) (uj + 1 + Z.of_nat i)
    /\ val i u (uj + 1) + val i v (vo + 1) + t = val i u' (uj + 1) + t' * 65536 ^ Z.of_nat i.
Proof.
  induction i as [|i IH]; intros u uj t Hu Hv Ht Huj Hi Hvo Hvi.
  - exists u, t. repeat split; try apply Hu; try done; simpl; lia.
  - cbn [add_back]. rewrite !rd_ok by lia. cbn [obind]. rewrite wr_ok by lia. cbn [obind].
    destruct (add_digit _ _ t (Hu (uj + Z.of_nat (S i))) (Hv (vo + Z.of_nat (S i))) Ht) as (Heq & Hl & Hc).
    set (r := u32 _) in *. set (u1 := upd u _ _).
    destruct (IH u1 uj (HHALF r)) as (u' & t' & -> & Hu' & Ht' & Hs & Hval); try done; try lia.
    { by apply upd_digits. }
    exists u', t'. split; [done |]. split; [done |]. split; [done |]. split.
    { apply same_trans with u1; [apply upd_same; lia |]. apply same_widen with (uj + 1) (uj + 1 + Z.of_nat i); [done | lia..]. }
    cbn [val]. rewrite (val_ext i u u1) by (intros; symmetry; apply upd_off; lia).
    rewrite Nat2Z.inj_succ, Z.pow_succ_r by lia.
    replace (uj + 1 + Z.of_nat i) with (uj + Z.of_nat (S i)) by lia.
    replace (vo + 1 + Z.of_nat i) with (vo + Z.of_nat (S i)) by lia.
    rewrite (Hs (uj + Z.of_nat (S i))) by lia. subst u1. rewrite upd_at. nia.
Qed.

(** ** D3 *)

Section Estimate.
  (** The window [U] and the divisor [V], their leading digits spelt out and
      the digits behind them summed up as [ur] and [vr] below [w]. *)
Context (v1 v2 vr u0 u1 u2 ur w : Z).
Context (Hv1 : 32768 <= v1 < 65536) (Hv2 : 0 <= v2 < 65536) (Hvr : 0 <= vr < w).
Context (Hu0 : 0 <= u0 < 65536) (Hu1 : 0 <= u1 < 65536) (Hu2 : 0 <= u2 < 65536) (Hur : 0 <= ur < w).

Let lead : Z := u0 * 65536 + u1.
Let U : Z := (lead * 65536 + u2) * w + ur.
Let V : Z := (v1 * 65536 + v2) * w + vr.

(** A digit that fails the test with [v2] is too large. *)
Lemma too_large qh rh :
  qh * v1 + rh = lead -> 0 <= qh -> rh * 65536 + u2 < v2 * qh -> U < qh * V.
Proof using All.
  intros Hi Hq Ht.
  assert (H1 : lead * 65536 + u2 + 1 <= qh * (v1 * 65536 + v2)) by nia.
  assert (H2 : (lead * 65536 + u2 + 1) * w <= qh * (v1 * 65536 + v2) * w) by nia.
  assert (0 <= qh * vr) by nia. subst U V. nia.
Qed.

(** One that passes it is too large by one at most. *)
Lemma close_enough qh rh :
  qh * v1 + rh = lead -> 0 <= qh < 65536 -> v2 * qh <= rh * 65536 + u2 -> (qh - 1) * V <= U.
Proof using All.
  intros Hi Hq Ht.
  assert (H1 : qh * (v1 * 65536 + v2) <= lead * 65536 + u2) by nia.
  assert (H2 : qh * (v1 * 65536 + v2) * w <= (lead * 65536 + u2) * w) by nia.
  assert (H3 : qh * vr <= 65536 * w) by nia.
  assert (H4 : 65536 * w <= V) by (subst V; nia). subst U. 
  assert (H5 : qh * V = qh * (v1 * 65536 + v2) * w + qh * vr) by (subst V; ring). lia.
Qed.

Lemma correct_spec k : forall qh rh,
  qh * v1 + rh = lead -> 0 <= rh < 65536 -> 0 <= qh < 65536 -> U < (qh + 1) * V ->
  65536 <= Z.of_nat k * v1 + rh ->
  exists q, correct_qhat k false v1 v2 u2 qh rh = Ok q /\ 0 <= q < 65536 /\ U < (q + 1) * V /\ (q - 1) * V <= U.
Proof using All.
  induction k as [|k IH]; intros qh rh Hi Hr Hq HU Hk; [lia |].
  simpl correct_qhat. rewrite COMBINE_add by done. rewrite (u32_small (v2 * qh)) by nia.
  destruct (Z.ltb_spec (rh * 65536 + u2) (v2 * qh)) as [Ht | Ht].
  - assert (1 <= qh) by nia. pose proof (too_large qh rh Hi ltac:(lia) Ht). u32_simpl.
    change B with 65536. destruct (Z.leb_spec 65536 (rh + v1)).
    + exists (qh - 1). split; [done |]. split; [lia |]. split; [by replace (qh - 1 + 1) with qh by lia |].
      apply (close_enough (qh - 1) (rh + v1)); nia.
    + apply IH; nia.
  - exists qh. repeat split; try lia. by apply (close_enough qh rh).
Qed.

Lemma estimate_spec :
  U < V * 65536 ->
  exists q, estimate v1 v2 u0 u1 u2 = Ok q /\ 0 <= q < 65536 /\ U < (q + 1) * V /\ (q - 1) * V <= U.
Proof using All.
  intros HU. assert (Hle : u0 <= v1) by (subst U V lead; nia).
  unfold estimate. destruct (Z.eqb_spec u0 v1) as [He | Hne].
  - change (correct_qhat 3 true v1 v2 u2 B u1) with
      (if 65536 <=? u32 (u1 + v1) then Ok 65535 else correct_qhat 2 false v1 v2 u2 65535 (u32 (u1 + v1))).
    rewrite u32_small by lia. destruct (Z.leb_spec 65536 (u1 + v1)).
    + exists 65535. repeat split; try lia. apply (close_enough 65535 (u1 + v1)); subst lead; nia.
    + apply (correct_spec 2 65535 (u1 + v1)); subst lead; try lia.
  - rewrite COMBINE_add by done. pose proof (Z.div_mod lead v1 ltac:(lia)) as Hdm.
    pose proof (Z.mod_pos_bound lead v1 ltac:(lia)). fold lead.
    assert (Hq : 0 <= lead / v1 < 65536).
    { split; [apply Z.div_pos | apply Z.div_lt_upper_bound]; subst lead; nia. }
    apply (correct_spec 3); try lia.
    assert (H1 : lead + 1 <= (lead / v1 + 1) * v1) by lia.
    generalize dependent (lead / v1 + 1). intros q1 H1.
    assert (Hq1 : 0 <= q1) by (subst lead; nia).
    assert (H2 : (lead + 1) * (65536 * w) <= q1 * v1 * (65536 * w)) by (apply Z.mul_le_mono_nonneg_r; lia).
    assert (0 <= v2 * w) by (apply Z.mul_nonneg_nonneg; lia).
    assert (0 <= q1 * (v2 * w + vr)) by (apply Z.mul_nonneg_nonneg; lia).
    assert (u2 * w <= 65535 * w) by (apply Z.mul_le_mono_nonneg_r; lia). subst U V. lia.
Qed.
End Estimate.

(** ** One digit of the quotient *)

Lemma top_digit x t :
  0 <= x < 65536 -> 0 <= t < 65536 ->
  let r := u32 (x - t) in
  0 <= LHALF r < 65536
  /\ (if HHALF r =? 0 then t <= x /\ LHALF r = x - t else x < t /\ LHALF r = x - t + 65536).
Proof.
  intros Hx Ht r. rewrite HHALF_div, LHALF_mod. subst r. unfold u32.
  destruct (Z.eqb_spec ((x - t) mod 2 ^ 32 / 65536) 0); divmod.
Qed.

Lemma div_rem_unique a b q r : a = q * b + r -> 0 <= r < b -> q = a / b /\ r = a mod b.
Proof.
  intros -> Hr. rewrite Z.add_comm, Z.div_add, Z.mod_add by lia.
  by rewrite Z.div_small, Z.mod_small by done.
Qed.

Section Divisor.
Context (v : digits) (vo : Z) (k : nat).
Context (Hv : is_digits v) (Hvo : 0 <= vo) (Hvn : vo + 2 + Z.of_nat k < 5) (Hnorm : 32768 <= v (vo + 1)).

Let n : nat := S (S k).
Let V : Z := val n v (vo + 1).

Lemma divisor_lead : V = (v (vo + 1) * 65536 + v (vo + 2)) * 65536 ^ Z.of_nat k + val k v (vo + 3).
Proof using All.
  subst V n. change (S (S k)) with (2 + k)%nat. rewrite val_app.
  replace (vo + 1 + Z.of_nat 2) with (vo + 3) by lia. cbn [val].
  replace (vo + 1 + Z.of_nat 0) with (vo + 1) by lia. by replace (vo + 1 + Z.of_nat 1) with (vo + 2) by lia.
Qed.

Lemma window_lead u uj :
  val (S n) u uj = ((u uj * 65536 + u (uj + 1)) * 65536 + u (uj + 2)) * 65536 ^ Z.of_nat k + val k u (uj + 3).
Proof using All.
  subst n. change (S (S (S k))) with (3 + k)%nat. rewrite val_app.
  replace (uj + Z.of_nat 3) with (uj + 3) by lia. cbn [val].
  by rewrite Z.add_0_r.
Qed.

Lemma estimate_digit u uj :
  is_digits u -> val (S n) u uj < V * 65536 ->
  exists q, estimate (v (vo + 1)) (v (vo + 2)) (u uj) (u (uj + 1)) (u (uj + 2)) = Ok q
    /\ 0 <= q < 65536 /\ val (S n) u uj < (q + 1) * V /\ (q - 1) * V <= val (S n) u uj.
Proof using All.
  intros Hu HU. rewrite window_lead, divisor_lead in *.
  pose proof (Hv (vo + 1)). apply estimate_spec; try apply Hu; try apply Hv; try (by apply val_range); lia.
Qed.

(** Adding back once repairs a digit that was too large by one. *)
Lemma add_back_repairs u2 uj W q :
  is_digits u2 -> 0 <= uj -> uj + Z.of_nat n < 5 ->
  W - q * V = (u2 uj - 65536) * 65536 ^ Z.of_nat n + val n u2 (uj + 1) -> 0 <= W - (q - 1) * V < V ->
  exists u3 t, add_back n u2 v uj vo 0 = Ok (u3, t)
    /\ is_digits u3 /\ same_outside u2 u3 (uj + 1) (uj + 1 + Z.of_nat n)
    /\ LHALF (u32 (u3 uj + t)) = 0 /\ val n u3 (uj + 1) = W - (q - 1) * V.
Proof using All.
  intros Hu Huj Hn HW Hr.
  destruct (add_back_spec v vo n u2 uj 0) as (u3 & t & He & Hu3 & Ht & Hs & Hval); try done; try (subst n; lia).
  exists u3, t. split; [done |]. split; [done |]. split; [done |].
  rewrite (Hs uj) by lia. pose proof (val_range n v (vo + 1) Hv). pose proof (val_range n u3 (uj + 1) Hu3).
  pose proof (Hu uj). fold V in Hval, H. set (P := 65536 ^ Z.of_nat n) in *.
  assert (Hz : u2 uj - 65536 + t = 0) by nia.
  rewrite LHALF_mod, u32_small by lia. replace (u2 uj + t) with 65536 by lia. split; [done | nia].
Qed.

(** D3 to D6 divide the window. *)
Lemma quotient_digit_spec u uj :
  is_digits u -> 0 <= uj -> uj + Z.of_nat n < 5 -> val (S n) u uj < V * 65536 ->
  exists q u', quotient_digit n u v (v (vo + 1)) (v (vo + 2)) uj vo = Ok (q, u')
    /\ q = val (S n) u uj / V /\ 0 <= q < 65536 /\ is_digits u'
    /\ same_outside u u' uj (uj + 1 + Z.of_nat n)
    /\ u' uj = 0 /\ val n u' (uj + 1) = val (S n) u uj mod V.
Proof using All.
  intros Hu Huj Hn HU. unfold quotient_digit.
  assert (Hnk : Z.of_nat n = Z.of_nat k + 2) by (subst n; lia). rewrite !rd_ok by lia. cbn [obind].
  destruct (estimate_digit u uj Hu HU) as (q & -> & Hq & Hhi & Hlo). cbn [obind].
  destruct (mulsub_spec v vo q n u uj 0) as (u1 & t & -> & Hu1 & Ht & Hs1 & Hv1); try done; try lia.
  cbn [obind]. rewrite rd_ok by lia. cbn [obind]. rewrite wr_ok by lia. cbn [obind]. rewrite (Hs1 uj) by lia.
  destruct (top_digit (u uj) t (Hu uj) Ht) as [Hl Hb]. set (r := u32 (u uj - t)) in *.
  pose proof (val_cons n u uj) as HW. set (W := val (S n) u uj) in *. fold V in Hv1.
  set (u2 := upd u1 uj (LHALF r)).
  assert (Hu2 : is_digits u2) by (by apply upd_digits).
  assert (Hs2 : same_outside u u2 uj (uj + 1 + Z.of_nat n)).
  { apply same_trans with u1; [eapply same_widen; [done | lia..] | apply upd_same; lia]. }
  assert (Hval2 : val n u2 (uj + 1) = val n u1 (uj + 1)) by (apply val_ext; intros; apply upd_off; lia).
  pose proof (val_range n u2 (uj + 1) Hu2). pose proof (val_range n v (vo + 1) Hv) as HVr. fold V in HVr.
  assert (HWq : W - q * V = (u uj - t) * 65536 ^ Z.of_nat n + val n u2 (uj + 1)) by lia.
  destruct (HHALF r =? 0); destruct Hb as [Hlt Hd].
  - assert (0 <= (u uj - t) * 65536 ^ Z.of_nat n) by (apply Z.mul_nonneg_nonneg; lia).
    destruct (div_rem_unique W V q (W - q * V)) as [Eq Er]; [lia | lia |].
    assert (Hz : u uj - t = 0) by nia.
    exists q, u2. split; [done |]. do 4 (split; [done |]). rewrite <- Er, HWq, Hz.
    split; [subst u2; rewrite upd_at; lia | lia].
  - assert (65536 ^ Z.of_nat n <= (t - u uj) * 65536 ^ Z.of_nat n) by nia.
    destruct (div_rem_unique W V (q - 1) (W - (q - 1) * V)) as [Eq Er]; [lia | lia |].
    destruct (add_back_repairs u2 uj W q) as (u3 & t3 & -> & Hu3 & Hs3 & Hz & Hval3); try done; try lia.
    { rewrite HWq. unfold u2 at 2. rewrite upd_at, Hd. lia. }
    cbn [obind]. rewrite rd_ok by lia. cbn [obind]. rewrite wr_ok by lia. cbn [obind]. rewrite Hz.
    assert (1 <= q).
    { pose proof (val_range (S n) u uj Hu) as HWr. fold W in HWr. destruct (decide (q = 0)) as [-> |]; lia. }
    rewrite u32_small by lia.
    exists (q - 1), (upd u3 uj 0). split; [done |]. split; [done |]. split; [lia |].
    split; [by apply upd_digits |]. split; [| split; [apply upd_at |]].
    + apply same_trans with u2; [done |]. apply same_trans with u3; [eapply same_widen; [done | lia..] | apply upd_same; lia].
    + rewrite (val_ext n (upd u3 uj 0) u3) by (intros; apply upd_off; lia). lia.
Qed.

(** ** D7 *)

Lemma long_step W b P R :
  0 < b -> (W * P + R) / b = W / b * P + (W mod b * P + R) / b /\ (W * P + R) mod b = (W mod b * P + R) mod b.
Proof.
  intros Hb. replace (W * P + R) with (W mod b * P + R + (W / b * P) * b) by (rewrite (Z.div_mod W b) at 3 by lia; ring).
  rewrite Z.div_add, Z.mod_add by lia. split; [lia | done].
Qed.

(** The window's remainder and the digits behind it make the next dividend. *)
Lemma next_window u u1 uj m :
  same_outside u u1 uj (uj + 1 + Z.of_nat n) -> val n u1 (uj + 1) = val (S n) u uj mod V ->
  val (n + m) u1 (uj + 1) =
    val (S n) u uj mod V * 65536 ^ Z.of_nat m + val m u (uj + Z.of_nat (S n)).
Proof using All.
  intros Hs Hr. rewrite val_app, Hr. f_equal.
  replace (uj + 1 + Z.of_nat n) with (uj + Z.of_nat (S n)) in * by lia.
  apply val_ext. intros. apply Hs. lia.
Qed.

Lemma divide_loop_spec m : forall u q uo qo j,
  is_digits u -> is_digits q -> 0 <= uo + j -> uo + j + Z.of_nat (n + m) < 5 -> 0 <= qo + j -> qo + j + Z.of_nat m < 5 ->
  val n u (uo + j) < V ->
  exists u' q', divide_loop m n u v q (v (vo + 1)) (v (vo + 2)) uo vo qo j = Ok (u', q')
    /\ is_digits u' /\ is_digits q'
    /\ same_outside u u' (uo + j) (uo + j + Z.of_nat (n + S m)) /\ same_outside q q' (qo + j) (qo + j + Z.of_nat (S m))
    /\ val (S m) q' (qo + j) = val (n + S m) u (uo + j) / V
    /\ val (S m) u' (uo + j) = 0
    /\ val n u' (uo + j + Z.of_nat (S m)) = val (n + S m) u (uo + j) mod V.
Proof using All.
  assert (HV : 0 < V).
  { rewrite divisor_lead. pose proof (val_range k v (vo + 3) Hv). pose proof (Hv (vo + 2)). nia. }
  induction m as [|m IH]; intros u q uo qo j Hu Hq Huj Hun Hqj Hqn Htop;
    (destruct (quotient_digit_spec u (uo + j)) as (d & u1 & He & Hd & Hdr & Hu1 & Hs1 & Hz & Hr);
      [done | lia | lia | cbn [val]; pose proof (Hu (uo + j + Z.of_nat n)); lia |]);
    cbn [divide_loop]; rewrite He; cbn [obind]; rewrite wr_ok by lia; cbn [obind].
  - exists u1, (upd q (qo + j) d). split; [done |]. split; [done |]. split; [by apply upd_digits |].
    split; [eapply same_widen; [done | lia..] |]. split; [apply upd_same; lia |].
    rewrite Nat.add_1_r. cbn [val]. rewrite !Z.add_0_r, upd_at. done.
  - destruct (IH u1 (upd q (qo + j) d) uo qo (j + 1)) as (u' & q' & -> & Hu' & Hq' & Hsu & Hsq & Hqv & Hzv & Hrv);
      try done; try lia.
    { by apply upd_digits. }
    { replace (uo + (j + 1)) with (uo + j + 1) by lia. rewrite Hr. by apply Z.mod_pos_bound. }
    exists u', q'. split; [done |]. split; [done |]. split; [done |].
    split; [apply same_trans with u1; (eapply same_widen; [eassumption | lia | lia]) |].
    split; [apply same_trans with (upd q (qo + j) d); [apply upd_same; lia | eapply same_widen; [done | lia..]] |].
    replace (uo + (j + 1)) with (uo + j + 1) in * by lia. replace (qo + (j + 1)) with (qo + j + 1) in * by lia.
    rewrite (next_window u u1) in Hqv, Hrv by done.
    replace (n + S (S m))%nat with (S n + S m)%nat by lia.
    rewrite (val_app (S n) (S m) u), (val_cons (S m) q'), (val_cons (S m) u').
    replace (uo + j + Z.of_nat (S (S m))) with (uo + j + 1 + Z.of_nat (S m)) by lia.
    rewrite Hqv, Hzv, Hrv, (Hsq (qo + j)), (Hsu (uo + j)), upd_at, Hz, Hd by lia.
    destruct (long_step (val (S n) u (uo + j)) V (65536 ^ Z.of_nat (S m)) (val (S m) u (uo + j + Z.of_nat (S n)))) as [-> ->];
      [lia | done].
Qed.
End Divisor.

(** ** What the routines promise *)

(** ** Runs of zeros *)

Lemma val_zero_lead j k a o :
  (forall i, o <= i < o + Z.of_nat j -> a i = 0) -> val (j + k) a o = val k a (o + Z.of_nat j).
Proof.
  intros Hz. rewrite val_app. rewrite (val_ext j a (fun _ => 0)) by (intros; by apply Hz).
  assert (Hv : val j (fun _ => 0) o = 0) by (clear Hz; induction j as [|j IH]; cbn [val]; lia). lia.
Qed.

Lemma val_zero_digits a k o :
  is_digits a -> val k a o = 0 -> forall i, o <= i < o + Z.of_nat k -> a i = 0.
Proof.
  intros Ha. induction k as [|k IH]; intros Hv i Hi; [lia |]. cbn [val] in Hv.
  pose proof (val_range k a o Ha). pose proof (Ha (o + Z.of_nat k)).
  destruct (decide (i = o + Z.of_nat k)) as [-> |]; [lia |]. apply IH; lia.
Qed.

(** ** Shifts *)

Lemma pow_split d : 0 < d < 16 -> 2 ^ (16 - d) * 2 ^ d = 65536 /\ 2 <= 2 ^ d /\ 2 <= 2 ^ (16 - d).
Proof.
  intros Hd. rewrite <- Z.pow_add_r by lia. replace (16 - d + d) with 16 by lia.
  split; [done |]. split; change 2 with (2 ^ 1) at 1; apply Z.pow_le_mono_r; lia.
Qed.

Lemma left_digit x d :
  0 < d < 16 -> 0 <= x < 65536 -> LHALF (u32 (Z.shiftl x d)) = (x mod 2 ^ (16 - d)) * 2 ^ d.
Proof.
  intros Hd Hx. destruct (pow_split d Hd) as (Hm & Hp & Hq). rewrite Z.shiftl_mul_pow2, LHALF_mod by lia.
  rewrite u32_small by nia. rewrite <- Hm, <- Z.mul_mod_distr_r by lia. done.
Qed.

Lemma right_digit y d : 0 < d < 16 -> 0 <= y < 65536 -> 0 <= y / 2 ^ (16 - d) < 2 ^ d.
Proof.
  intros Hd Hy. destruct (pow_split d Hd) as (Hm & Hp & Hq).
  split; [apply Z.div_pos; lia | apply Z.div_lt_upper_bound; lia].
Qed.

Lemma shl_digit x y d :
  0 < d < 16 -> 0 <= x < 65536 -> 0 <= y < 65536 ->
  let r := Z.lor (LHALF (u32 (Z.shiftl x d))) (Z.shiftr y (HALF_BITS - d)) in
  r = x * 2 ^ d - x / 2 ^ (16 - d) * 65536 + y / 2 ^ (16 - d) /\ 0 <= r < 65536.
Proof.
  intros Hd Hx Hy r. destruct (pow_split d Hd) as (Hm & Hp & Hq). pose proof (right_digit y d Hd Hy).
  assert (Hr : r = (x mod 2 ^ (16 - d)) * 2 ^ d + y / 2 ^ (16 - d)).
  { subst r. rewrite left_digit by done. change HALF_BITS with 16. rewrite Z.shiftr_div_pow2 by lia.
    apply lor_disjoint; lia. }
  pose proof (Z.div_mod x (2 ^ (16 - d)) ltac:(lia)). pose proof (Z.mod_pos_bound x (2 ^ (16 - d)) ltac:(lia)).
  rewrite Hr. nia.
Qed.

Lemma shl_loop_spec d k : forall a o i,
  0 < d < 16 -> is_digits a -> 0 <= o + i -> o + i + Z.of_nat k < 5 ->
  exists a', shl_loop k a o i d = Ok a' /\ is_digits a' /\ same_outside a a' (o + i) (o + i + Z.of_nat (S k))
    /\ val (S k) a' (o + i) = val (S k) a (o + i) * 2 ^ d - a (o + i) / 2 ^ (16 - d) * 65536 ^ Z.of_nat (S k).
Proof.
  induction k as [|k IH]; intros a o i Hd Ha Hi Hk; cbn [shl_loop].
  - rewrite rd_ok by lia. cbn [obind]. rewrite wr_ok by lia. eexists. split; [done |].
    destruct (shl_digit (a (o + i)) 0 d) as [Hr Hb]; [done | apply Ha | lia |].
    rewrite Z.shiftr_0_l, Z.lor_0_r in Hr, Hb. split; [by apply upd_digits |]. split; [apply upd_same; lia |].
    cbn [val]. rewrite !Z.add_0_r, upd_at, Hr, Z.div_0_l by (apply Z.pow_nonzero; lia). lia.
  - rewrite !rd_ok by lia. cbn [obind]. rewrite wr_ok by lia. cbn [obind].
    destruct (shl_digit (a (o + i)) (a (o + i + 1)) d) as [Hr Hb]; [done | apply Ha.. |].
    set (x := Z.lor _ _) in *. set (a1 := upd a (o + i) x).
    destruct (IH a1 o (i + 1)) as (a' & -> & Ha' & Hs & Hv); [done | by apply upd_digits | lia.. |].
    exists a'. split; [done |]. split; [done |].
    split; [apply same_trans with a1; [apply upd_same; lia | eapply same_widen; [done | lia..]] |].
    rewrite !(val_cons (S k)). replace (o + (i + 1)) with (o + i + 1) in * by lia.
    rewrite Hv, (Hs (o + i)) by lia. rewrite (val_ext (S k) a1 a) by (intros; apply upd_off; lia).
    unfold a1. rewrite upd_at, upd_off, Hr by lia.
    rewrite (Nat2Z.inj_succ (S k)), Z.pow_succ_r by lia. ring.
Qed.

Lemma shift_back_digit x y d :
  0 < d < 16 -> 0 <= x < 65536 -> 0 <= y < 65536 ->
  let r := Z.lor (Z.shiftr x d) (LHALF (u32 (Z.shiftl y (HALF_BITS - d)))) in
  r = x / 2 ^ d + (y mod 2 ^ d) * 2 ^ (16 - d) /\ 0 <= r < 65536.
Proof.
  intros Hd Hx Hy r. destruct (pow_split d Hd) as (Hm & Hp & Hq).
  pose proof (right_digit x (16 - d) ltac:(lia) Hx) as Hl. replace (16 - (16 - d)) with d in Hl by lia.
  assert (Hr : r = x / 2 ^ d + (y mod 2 ^ d) * 2 ^ (16 - d)).
  { subst r. change HALF_BITS with 16. rewrite left_digit by lia. replace (16 - (16 - d)) with d by lia.
    rewrite Z.shiftr_div_pow2, Z.lor_comm, lor_disjoint by lia. lia. }
  pose proof (Z.mod_pos_bound y (2 ^ d) ltac:(lia)). rewrite Hr. nia.
Qed.

(** Appending a digit commutes with the shift to the right. *)
Lemma shift_append M x d :
  0 < d < 16 -> 0 <= x < 65536 ->
  (M * 65536 + x) / 2 ^ d = M / 2 ^ d * 65536 + x / 2 ^ d + (M mod 2 ^ d) * 2 ^ (16 - d).
Proof.
  intros Hd Hx. destruct (pow_split d Hd) as (Hm & Hp & Hq).
  replace (M * 65536 + x) with (x + (M / 2 ^ d * 65536 + (M mod 2 ^ d) * 2 ^ (16 - d)) * 2 ^ d).
  2:{ pose proof (Z.div_mod M (2 ^ d) ltac:(lia)) as HM. revert HM.
      generalize (M / 2 ^ d), (M mod 2 ^ d). intros D r ->. rewrite <- Hm. ring. }
  rewrite Z.div_add by lia. lia.
Qed.

Lemma last_mod M y d : 0 < d < 16 -> (M * 65536 + y) mod 2 ^ d = y mod 2 ^ d.
Proof.
  intros Hd. destruct (pow_split d Hd) as (Hm & Hp & Hq). rewrite <- Hm.
  replace (M * (2 ^ (16 - d) * 2 ^ d) + y) with (y + M * 2 ^ (16 - d) * 2 ^ d) by ring. by rewrite Z.mod_add by lia.
Qed.

Lemma shift_back_spec d o k : forall u,
  0 < d < 16 -> is_digits u -> 0 <= o -> o + Z.of_nat k < 5 ->
  exists u', shift_back k u o d = Ok u' /\ is_digits u' /\ same_outside u u' o (o + 1 + Z.of_nat k) /\ u' o = 0
    /\ val k u' (o + 1) = val (S k) u o / 2 ^ d - u o / 2 ^ d * 65536 ^ Z.of_nat k.
Proof.
  induction k as [|k IH]; intros u Hd Hu Ho Hk; cbn [shift_back].
  - rewrite wr_ok by lia. eexists. split; [done |]. split; [by apply upd_digits |].
    split; [apply upd_same; lia |]. split; [apply upd_at |]. cbn [val]. rewrite Z.add_0_r, Z.mul_0_l, Z.add_0_l. lia.
  - rewrite !rd_ok by lia. cbn [obind]. rewrite wr_ok by lia. cbn [obind].
    destruct (shift_back_digit (u (o + Z.of_nat (S k))) (u (o + Z.of_nat (S k) - 1)) d) as [Hr Hb]; [done | apply Hu.. |].
    set (x := Z.lor _ _) in *. set (u1 := upd u _ x).
    destruct (IH u1) as (u' & -> & Hu' & Hs & Hz & Hv); [done | by apply upd_digits | lia.. |].
    exists u'. split; [done |]. split; [done |].
    split; [apply same_trans with u1; [apply upd_same; lia | eapply same_widen; [done | lia..]] |]. split; [done |].
    cbn [val]. rewrite Hv. replace (o + 1 + Z.of_nat k) with (o + Z.of_nat (S k)) by lia. rewrite (Hs (o + Z.of_nat (S k))) by lia.
    rewrite (val_ext (S k) u1 u) by (intros; apply upd_off; lia). unfold u1. rewrite upd_at, upd_off by lia.
    cbn [val]. rewrite (shift_append (val k u o * 65536 + u (o + Z.of_nat k))) by (done || apply Hu).
    rewrite Hr, last_mod by done. replace (o + Z.of_nat (S k) - 1) with (o + Z.of_nat k) by lia.
    rewrite Nat2Z.inj_succ, Z.pow_succ_r by lia. lia.
Qed.

(** ** Scans *)

Lemma normalize_spec k : forall t d,
  0 < t < 65536 -> 32768 <= t * 2 ^ Z.of_nat k ->
  exists e, normalize k t d = Ok (d + e) /\ 0 <= e /\ 32768 <= t * 2 ^ e < 65536.
Proof.
  induction k as [|k IH]; intros t d Ht Hk; cbn [normalize]; change (B / 2) with 32768;
    destruct (Z.ltb_spec t 32768) as [Hl | Hl].
  - simpl in Hk. lia.
  - exists 0. rewrite Z.add_0_r. repeat split; lia.
  - rewrite Z.shiftl_mul_pow2, u32_small by lia.
    rewrite Nat2Z.inj_succ, Z.pow_succ_r in Hk by lia.
    destruct (IH (t * 2 ^ 1) (d + 1)) as (e & -> & He & Hr); [lia | lia |].
    exists (e + 1). rewrite Z.pow_add_r by lia. split; [f_equal; lia | lia].
  - exists 0. rewrite Z.add_0_r. repeat split; lia.
Qed.

(** The shift that normalises a digit is below 16. *)
Lemma shift_below t e : 0 < t -> 0 <= e -> t * 2 ^ e < 65536 -> e < 16.
Proof.
  intros Ht He Hlt. destruct (decide (16 <= e)); [| lia].
  pose proof (Z.pow_le_mono_r 2 16 e ltac:(lia) ltac:(lia)). nia.
Qed.

Lemma skip_dividend_spec k : forall j u uo m,
  is_digits u -> 0 <= uo -> (j <= k)%nat -> uo + Z.of_nat j < 4 -> 0 < val (S j) u (uo + 1) ->
  exists e, skip_dividend k u uo m = Ok (uo + e, m - e) /\ 0 <= e <= Z.of_nat j
    /\ u (uo + e + 1) <> 0 /\ (forall i, uo + 1 <= i <= uo + e -> u i = 0).
Proof.
  induction k as [|k IH]; intros j u uo m Hu Huo Hj Hb Hv; cbn [skip_dividend]; rewrite rd_ok by lia;
    cbn [obind]; destruct (Z.eqb_spec (u (uo + 1)) 0) as [Hz | Hz];
    try (exists 0; rewrite Z.add_0_r, Z.sub_0_r; split; [done |]; split; [lia |]; split; [done | intros; lia]).
  - replace j with 0%nat in Hv by lia. cbn [val] in Hv. rewrite Z.add_0_r in Hv. lia.
  - rewrite val_cons, Hz in Hv. destruct j as [|j]; [simpl in Hv; lia |].
    destruct (IH j u (uo + 1) (m - 1)) as (e & -> & He & Hn & Hzs); [done | lia.. |].
    exists (e + 1). replace (uo + 1 + e) with (uo + (e + 1)) in * by lia.
    split; [do 2 f_equal; lia |]. split; [lia |]. split; [done |].
    intros i Hi. destruct (decide (i = uo + 1)) as [-> |]; [done | apply Hzs; lia].
Qed.

(** The divisor is a single digit, or the scan stops at its first one. *)
Lemma skip_divisor_spec v :
  is_digits v -> 0 < val 4 v 1 ->
  (skip_divisor 4 v 0 4 = Ok (inr (v 4)) /\ val 4 v 1 = v 4)
  \/ exists vo : Z, 0 <= vo <= 2 /\ skip_divisor 4 v 0 4 = Ok (inl (vo, 4 - vo))
    /\ v (vo + 1) <> 0 /\ val 4 v 1 = val (Z.to_nat (4 - vo)) v (vo + 1).
Proof.
  intros Hd Hv.
  change (val 4 v 1) with ((((0 * 65536 + v 1) * 65536 + v 2) * 65536 + v 3) * 65536 + v 4) in *.
  change (skip_divisor 4 v 0 4) with
    (if v 1 =? 0 then if v 2 =? 0 then if v 3 =? 0 then @Ok (Z * Z + Z) (inr (v 4)) else Ok (inl (2, 2))
     else Ok (inl (1, 3)) else Ok (inl (0, 4))).
  destruct (Z.eqb_spec (v 1) 0) as [H1 | H1]; [| right; exists 0; repeat split; done || lia].
  destruct (Z.eqb_spec (v 2) 0) as [H2 | H2].
  2:{ right. exists 1. change (val (Z.to_nat (4 - 1)) v (1 + 1)) with (((0 * 65536 + v 2) * 65536 + v 3) * 65536 + v 4).
      repeat split; done || lia. }
  destruct (Z.eqb_spec (v 3) 0) as [H3 | H3]; [left; split; done || lia |].
  right. exists 2. change (val (Z.to_nat (4 - 2)) v (2 + 1)) with ((0 * 65536 + v 3) * 65536 + v 4).
  repeat split; done || lia.
Qed.

Lemma zero_digits_spec k : forall q, (k <= 5)%nat -> (forall i, q i = 0) ->
  exists q', zero_digits k q = Ok q' /\ forall i, q' i = 0.
Proof.
  induction k as [|k IH]; intros q Hk Hq; cbn [zero_digits]; [by exists q |].
  rewrite wr_ok by lia. cbn [obind]. apply IH; [lia |]. intros i. unfold upd. by destruct (i =? _).
Qed.

(** ** Quads and their digits *)

Lemma split_digits x : 0 <= x < 2 ^ 64 -> is_digits (split_quad x).
Proof.
  intros Hx i. unfold split_quad, uu_high, uu_low. rewrite !HHALF_div, !LHALF_mod, Z.shiftr_div_pow2 by lia.
  unfold u32. change (2 ^ 32) with 4294967296. repeat case_match; divmod.
Qed.

Lemma split_val x : 0 <= x < 2 ^ 64 -> val 4 (split_quad x) 1 = x.
Proof.
  intros Hx. set (u := split_quad x).
  change (val 4 u 1) with ((((0 * 65536 + u 1) * 65536 + u 2) * 65536 + u 3) * 65536 + u 4).
  subst u. unfold split_quad; simpl. unfold uu_high, uu_low. rewrite !HHALF_div, !LHALF_mod, Z.shiftr_div_pow2 by lia.
  unfold u32. change (2 ^ 32) with 4294967296. divmod.
Qed.

Lemma quad_val x1 x2 x3 x4 :
  0 <= x1 < 65536 -> 0 <= x2 < 65536 -> 0 <= x3 < 65536 -> 0 <= x4 < 65536 ->
  uu_quad (COMBINE x1 x2) (COMBINE x3 x4) = ((x1 * 65536 + x2) * 65536 + x3) * 65536 + x4.
Proof. intros. rewrite !COMBINE_add by done. rewrite uu_quad_add by lia. lia. Qed.

Lemma join_val a : is_digits a -> join_quad a = Ok (val 4 a 1).
Proof.
  intros Ha. unfold join_quad. rewrite !rd_ok by lia. cbn [obind]. by rewrite quad_val by apply Ha.
Qed.

(** ** Division by one digit *)

Lemma short_digit r x t : 0 <= r < t -> 0 <= x < 65536 -> t < 65536 ->
  0 <= (r * 65536 + x) / t < 65536 /\ 0 <= (r * 65536 + x) mod t < t
  /\ r * 65536 + x = t * ((r * 65536 + x) / t) + (r * 65536 + x) mod t.
Proof.
  intros Hr Hx Ht. split; [| split; [apply Z.mod_pos_bound | apply Z.div_mod]; lia].
  split; [apply Z.div_pos; lia | apply Z.div_lt_upper_bound; lia].
Qed.

Lemma short_division_spec u t :
  is_digits u -> 0 < t < 65536 -> short_division u t = Ok (val 4 u 1 / t, val 4 u 1 mod t).
Proof.
  intros Hu Ht. unfold short_division. rewrite !rd_ok by lia. cbn [obind].
  change (val 4 u 1) with ((((0 * 65536 + u 1) * 65536 + u 2) * 65536 + u 3) * 65536 + u 4).
  destruct (short_digit 0 (u 1) t) as (Hq1 & Hr1 & H1); [lia | apply Hu | lia |].
  change (0 * 65536 + u 1) with (u 1) in *. rewrite (COMBINE_add (u 1 mod t)) by (lia || apply Hu).
  destruct (short_digit (u 1 mod t) (u 2) t) as (Hq2 & Hr2 & H2); [lia | apply Hu | lia |].
  set (x2 := u 1 mod t * 65536 + u 2) in *. rewrite (COMBINE_add (x2 mod t)) by (lia || apply Hu).
  destruct (short_digit (x2 mod t) (u 3) t) as (Hq3 & Hr3 & H3); [lia | apply Hu | lia |].
  set (x3 := x2 mod t * 65536 + u 3) in *. rewrite (COMBINE_add (x3 mod t)) by (lia || apply Hu).
  destruct (short_digit (x3 mod t) (u 4) t) as (Hq4 & Hr4 & H4); [lia | apply Hu | lia |].
  set (x4 := x3 mod t * 65536 + u 4) in *. rewrite quad_val by done.
  set (q := ((u 1 / t * 65536 + x2 / t) * 65536 + x3 / t) * 65536 + x4 / t).
  destruct (div_rem_unique (((u 1 * 65536 + u 2) * 65536 + u 3) * 65536 + u 4) t q (x4 mod t)) as [<- <-]; [lia | done | done].
Qed.

(** ** Division by more *)

(** Shifting both operands: a run whose first digit has room is multiplied. *)
Lemma scale a o k d :
  0 <= d < 16 -> is_digits a -> 0 <= o -> o + Z.of_nat k < 5 -> a o * 2 ^ d < 65536 ->
  exists a', (if 0 <? d then __shl a o (Z.of_nat k) d else Ok a) = Ok a' /\ is_digits a'
    /\ same_outside a a' o (o + Z.of_nat (S k)) /\ val (S k) a' o = val (S k) a o * 2 ^ d.
Proof.
  intros Hd Ha Ho Hk Hroom. destruct (Z.ltb_spec 0 d).
  - unfold __shl. rewrite Nat2Z.id.
    destruct (shl_loop_spec d k a o 0) as (a' & He & Ha' & Hs & Hv); [lia | done | lia.. |].
    rewrite Z.add_0_r in *. exists a'. split; [done |]. split; [done |]. split; [done |].
    destruct (pow_split d ltac:(lia)) as (Hm & Hp & Hq). pose proof (Ha o).
    rewrite Hv, Z.div_small by nia. lia.
  - exists a. replace d with 0 by lia. split; [done |]. split; [done |]. split; [by intros i _ | lia].
Qed.

Lemma unscale u o k d :
  0 <= d < 16 -> is_digits u -> 0 <= o -> o + Z.of_nat k < 5 -> u o = 0 ->
  exists u', (if negb (d =? 0) then shift_back k u o d else Ok u) = Ok u' /\ is_digits u'
    /\ same_outside u u' o (o + 1 + Z.of_nat k) /\ u' o = 0 /\ val k u' (o + 1) = val k u (o + 1) / 2 ^ d.
Proof.
  intros Hd Hu Ho Hk Hz. destruct (Z.eqb_spec d 0) as [-> | Hne]; simpl negb; cbn match.
  - exists u. split; [done |]. split; [done |]. split; [by intros i _ |]. split; [done |]. by rewrite Z.div_1_r.
  - destruct (shift_back_spec d o k u) as (u' & He & Hu' & Hs & Hz' & Hv); [lia | done | lia.. |].
    exists u'. split; [done |]. split; [done |]. split; [done |]. split; [done |].
    rewrite Hv, val_cons, Hz, Z.div_0_l by (apply Z.pow_nonzero; lia). rewrite !Z.mul_0_l, Z.add_0_l. lia.
Qed.

(** A normalised first digit, from the value. *)
Lemma lead_normal a k o x d :
  is_digits a -> val (S k) a o = x * 2 ^ d -> 32768 * 65536 ^ Z.of_nat k <= x * 2 ^ d -> 32768 <= a o.
Proof.
  intros Ha Hv Hx. rewrite val_cons in Hv. pose proof (val_range k a (o + 1) Ha).
  destruct (decide (a o < 32768)); [nia | lia].
Qed.

Section Long.
Context (u v : digits) (uo vo : Z) (k m : nat).
Context (Hu : is_digits u) (Hv : is_digits v) (Hzu : forall i, i <= uo -> u i = 0) (Hlead : v (vo + 1) <> 0).
Context (Huo : 0 <= uo) (Hum : uo + Z.of_nat m + Z.of_nat k = 2) (Hvk : vo + Z.of_nat k = 2).

Let n : nat := S (S k).
Let uq : Z := val (n + m) u (uo + 1).
Let vq : Z := val n v (vo + 1).

Lemma divisor_bounds d :
  0 <= d -> 32768 <= v (vo + 1) * 2 ^ d -> 32768 * 65536 ^ Z.of_nat (S k) <= vq * 2 ^ d /\ 2 ^ d * 65536 ^ Z.of_nat (S k) <= vq * 2 ^ d.
Proof using All.
  intros Hd Hn. subst vq n. rewrite val_cons. pose proof (val_range (S k) v (vo + 1 + 1) Hv).
  pose proof (Hv (vo + 1)). assert (0 < 2 ^ d) by (apply Z.pow_pos_nonneg; lia).
  set (P := 65536 ^ Z.of_nat (S k)) in *. set (p := 2 ^ d) in *.
  assert (H3 : 0 <= val (S k) v (vo + 1 + 1) * p) by (apply Z.mul_nonneg_nonneg; lia).
  split; nia.
Qed.

(** The first [n] digits of the shifted dividend are below the divisor. *)
Lemma dividend_fits u1 d :
  is_digits u1 -> 0 <= d -> 32768 <= v (vo + 1) * 2 ^ d -> val (n + S m) u1 uo = uq * 2 ^ d -> val n u1 uo < vq * 2 ^ d.
Proof using All.
  intros Hu1 Hd Hn Hval. destruct (divisor_bounds d Hd Hn) as [_ Hb].
  pose proof (val_range (n + m) u (uo + 1) Hu) as Hr. fold uq in Hr.
  rewrite val_app in Hval. pose proof (val_range (S m) u1 (uo + Z.of_nat n) Hu1).
  apply Z.lt_le_trans with (2 ^ d * 65536 ^ Z.of_nat (S k)); [| done].
  assert (0 < 2 ^ d) by (apply Z.pow_pos_nonneg; lia).
  assert (He : 65536 ^ Z.of_nat (n + m) = 65536 ^ Z.of_nat (S k) * 65536 ^ Z.of_nat (S m)).
  { rewrite <- Z.pow_add_r by lia. f_equal. subst n. lia. }
  rewrite He in Hr. assert (0 < 65536 ^ Z.of_nat (S m)) by (apply Z.pow_pos_nonneg; lia). nia.
Qed.

Lemma dividend_scaled d :
  0 <= d < 16 ->
  exists u1, (if 0 <? d then __shl u uo (Z.of_nat m + Z.of_nat n) d else Ok u) = Ok u1 /\ is_digits u1
    /\ same_outside u u1 uo 5 /\ val (n + S m) u1 uo = uq * 2 ^ d.
Proof using All.
  intros Hd. destruct (scale u uo (m + n) d) as (u1 & He & Hu1 & Hs & Hval); try done.
  { subst n. lia. }
  { rewrite Hzu by lia. lia. }
  rewrite Nat2Z.inj_add in He. exists u1. split; [done |]. split; [done |].
  split; [eapply same_widen; [done | lia | subst n; lia] |].
  replace (n + S m)%nat with (S (m + n)) by lia. rewrite Hval, val_cons, Hzu by lia.
  rewrite Z.mul_0_l, Z.add_0_l. subst uq. by rewrite Nat.add_comm.
Qed.

Lemma divisor_scaled d :
  0 <= d < 16 -> 32768 <= v (vo + 1) * 2 ^ d < 65536 ->
  exists v1, (if 0 <? d then __shl v (vo + 1) (Z.of_nat n - 1) d else Ok v) = Ok v1 /\ is_digits v1
    /\ val n v1 (vo + 1) = vq * 2 ^ d /\ 32768 <= v1 (vo + 1).
Proof using All.
  intros Hd Hn. destruct (scale v (vo + 1) (S k) d) as (v1 & He & Hv1 & _ & Hval); try done; try lia.
  replace (Z.of_nat (S k)) with (Z.of_nat n - 1) in He by (subst n; lia).
  exists v1. split; [done |]. split; [done |]. split; [done |].
  destruct (divisor_bounds d) as [Hb _]; [lia.. |]. by apply (lead_normal v1 (S k) (vo + 1) vq d).
Qed.

(** The loop on the shifted operands: the quotient in the last digits of [q],
    the shifted remainder in the last [n] of [u]. *)
Lemma divided u1 v1 q d :
  0 <= d -> 32768 <= v (vo + 1) * 2 ^ d -> is_digits u1 -> same_outside u u1 uo 5 -> val (n + S m) u1 uo = uq * 2 ^ d ->
  is_digits v1 -> val n v1 (vo + 1) = vq * 2 ^ d -> 32768 <= v1 (vo + 1) -> (forall i, q i = 0) ->
  exists u2 q2, divide_loop m n u1 v1 q (v1 (vo + 1)) (v1 (vo + 2)) uo vo (4 - Z.of_nat m) 0 = Ok (u2, q2)
    /\ is_digits u2 /\ is_digits q2 /\ val 4 q2 1 = uq / vq
    /\ (forall i, i <= uo + Z.of_nat m -> u2 i = 0)
    /\ val n u2 (uo + Z.of_nat m + 1) = uq mod vq * 2 ^ d.
Proof using All.
  intros Hd Hn Hu1 Hsu Hval Hv1 Hvv Hv1n Hq.
  destruct (divide_loop_spec v1 vo k Hv1 ltac:(lia) ltac:(lia) Hv1n m u1 q uo (4 - Z.of_nat m) 0)
    as (u2 & q2 & He & Hu2 & Hq2 & Hs2 & Hsq & Hqv & Hz & Hr); try done; try lia.
  { intros i. rewrite Hq. lia. }
  { rewrite Z.add_0_r. fold n. rewrite Hvv. by apply dividend_fits. }
  fold n in He, Hs2, Hqv, Hr. rewrite !Z.add_0_r, Hval, Hvv in *.
  assert (0 < 2 ^ d) by (apply Z.pow_pos_nonneg; lia).
  destruct (divisor_bounds d Hd Hn) as [Hb _].
  assert (0 < 65536 ^ Z.of_nat (S k)) by (apply Z.pow_pos_nonneg; lia). assert (vq <> 0) by nia.
  rewrite Z.div_mul_cancel_r in Hqv by lia. rewrite Z.mul_mod_distr_r in Hr by lia.
  exists u2, q2. split; [done |]. split; [done |]. split; [done |]. split; [| split].
  - replace 4%nat with ((3 - m) + S m)%nat by lia. rewrite val_zero_lead.
    + replace (1 + Z.of_nat (3 - m)) with (4 - Z.of_nat m) by lia. done.
    + intros i Hi. rewrite Hsq by lia. apply Hq.
  - intros i Hi. destruct (decide (i < uo)).
    + rewrite Hs2, Hsu, Hzu; lia.
    + apply (val_zero_digits u2 (S m) uo); [done | done | lia].
  - replace (uo + Z.of_nat m + 1) with (uo + Z.of_nat (S m)) by lia. done.
Qed.

Lemma long_division_runs :
  skip_dividend 4 u 0 (4 - Z.of_nat n) = Ok (uo, Z.of_nat m) -> long_division u v vo (Z.of_nat n) = Ok (uq / vq, uq mod vq).
Proof using All.
  intros Hskip. unfold long_division. rewrite Hskip. cbn [obind].
  destruct (zero_digits_spec (Z.to_nat (4 - Z.of_nat m)) (fun _ => 0)) as (q & -> & Hq); [lia | done |]. cbn [obind].
  rewrite rd_ok by lia. cbn [obind]. pose proof (Hv (vo + 1)).
  destruct (normalize_spec 16 (v (vo + 1)) 0) as (d & -> & Hd & Hn); [lia | simpl; lia |].
  pose proof (shift_below (v (vo + 1)) d ltac:(lia) Hd ltac:(lia)). rewrite Z.add_0_l. cbn [obind].
  destruct (dividend_scaled d) as (u1 & -> & Hu1 & Hsu & Hval1); [lia |]. cbn [obind].
  destruct (divisor_scaled d) as (v1 & -> & Hv1 & Hvv & Hv1n); [lia | done |]. cbn [obind].
  rewrite !rd_ok by lia. cbn [obind]. rewrite !Nat2Z.id.
  destruct (divided u1 v1 q d) as (u2 & q2 & -> & Hu2 & Hq2 & Hqv & Hz & Hr); try done; [lia |]. cbn [obind].
  destruct (unscale u2 (uo + Z.of_nat m) n d) as (u3 & -> & Hu3 & Hs3 & Hz3 & Hr3);
    [lia | done | lia | subst n; lia | apply Hz; lia |].
  cbn [obind]. rewrite !join_val by done. cbn [obind]. rewrite Hqv. do 2 f_equal.
  rewrite Hr, Z.div_mul in Hr3 by (apply Z.pow_nonzero; lia). rewrite <- Hr3.
  replace 4%nat with (Z.to_nat (uo + Z.of_nat m) + n)%nat by (subst n; lia). rewrite val_zero_lead.
  - f_equal. lia.
  - intros i Hi. destruct (decide (i = uo + Z.of_nat m)) as [-> |]; [done |].
    rewrite Hs3 by lia. apply Hz. lia.
Qed.
End Long.

Lemma long_division_spec u v vo :
  is_digits u -> is_digits v -> u 0 = 0 -> (forall i, i < 0 -> u i = 0) -> 0 <= vo <= 2 -> v (vo + 1) <> 0 ->
  val (Z.to_nat (4 - vo)) v (vo + 1) <= val 4 u 1 ->
  long_division u v vo (4 - vo) =
    Ok (val 4 u 1 / val (Z.to_nat (4 - vo)) v (vo + 1), val 4 u 1 mod val (Z.to_nat (4 - vo)) v (vo + 1)).
Proof.
  intros Hu Hv Hu0 Hneg Hvo Hlead Hle. pose proof (Hv (vo + 1)).
  replace (Z.to_nat (4 - vo)) with (S (S (Z.to_nat (2 - vo)))) in * by lia. set (k := Z.to_nat (2 - vo)) in *.
  assert (Hk : Z.of_nat k = 2 - vo) by (subst k; lia).
  assert (Hvq : 65536 ^ Z.of_nat (S k) <= val (S (S k)) v (vo + 1)).
  { rewrite val_cons. pose proof (val_range (S k) v (vo + 1 + 1) Hv). nia. }
  destruct (skip_dividend_spec 4 3 u 0 (4 - (4 - vo))) as (e & He & Hr & _ & Hz); try done; try lia.
  { assert (0 < 65536 ^ Z.of_nat (S k)) by (apply Z.pow_pos_nonneg; lia). rewrite Z.add_0_l. lia. }
  rewrite !Z.add_0_l in *. assert (Hzu : forall i, i <= e -> u i = 0).
  { intros i Hi. destruct (decide (i < 0)); [by apply Hneg |]. destruct (decide (i = 0)) as [-> |]; [done | apply Hz; lia]. }
  assert (Huq : val 4 u 1 = val (4 - Z.to_nat e) u (e + 1)).
  { replace 4%nat with (Z.to_nat e + (4 - Z.to_nat e))%nat at 1 by lia. rewrite val_zero_lead.
    - f_equal. lia.
    - intros i Hi. apply Hzu. lia. }
  assert (Hem : e <= vo).
  { destruct (decide (e <= vo)); [done |]. pose proof (val_range (4 - Z.to_nat e) u (e + 1) Hu).
    pose proof (Z.pow_le_mono_r 65536 (Z.of_nat (4 - Z.to_nat e)) (Z.of_nat (S k)) ltac:(lia) ltac:(lia)). lia. }
  rewrite Huq. replace (4 - Z.to_nat e)%nat with (S (S k) + Z.to_nat (vo - e))%nat by lia.
  replace (4 - vo) with (Z.of_nat (S (S k))) in * by lia. apply long_division_runs; try done; try lia.
  rewrite He. do 2 f_equal. lia.
Qed.

(** ** The contract *)

Lemma qdivrem_spec a b :
  0 <= a < 2 ^ 64 -> 0 < b < 2 ^ 64 -> __qdivrem a b = Ok (a / b, a mod b).
Proof.
  intros Ha Hb. unfold __qdivrem. rewrite (proj2 (Z.eqb_neq b 0)) by lia.
  destruct (Z.ltb_spec a b); [by rewrite Z.div_small, Z.mod_small by lia |].
  pose proof (split_digits a Ha) as Hda. pose proof (split_digits b ltac:(lia)) as Hdb.
  pose proof (split_val a Ha) as Hva. pose proof (split_val b ltac:(lia)) as Hvb.
  destruct (skip_divisor_spec (split_quad b) Hdb) as [[-> Ht] | (vo & Hvo & -> & Hlead & Hval)]; [lia | |]; cbn [obind].
  - rewrite <- Ht, Hvb. rewrite short_division_spec, Hva; [done | done |].
    pose proof (Hdb 4). lia.
  - rewrite long_division_spec; try done; [| | lia].
    + by rewrite <- Hval, Hva, Hvb.
    + intros i Hi. unfold split_quad. by rewrite !(proj2 (Z.eqb_neq i _)) by lia.
Qed.

(** The magnitude of a signed quad. *)
Lemma magnitude x : - 2 ^ 63 <= x < 2 ^ 63 -> (if x <? 0 then u64 (- u64 x) else x) = Z.abs x.
Proof. intros Hx. unfold u64. destruct (Z.ltb_spec x 0); divmod. Qed.

(** The sign put back on a result of magnitude [r]. *)
Lemma signed_result (neg : bool) r :
  0 <= r < 2 ^ 64 -> s64 (if neg then u64 (- r) else r) = s64 (if neg then - r else r).
Proof. intros Hr. unfold s64, u64. destruct neg; [| done]. divmod. Qed.

Lemma s64_small x : - 2 ^ 63 <= x < 2 ^ 63 -> s64 x = x.
Proof. intros Hx. unfold s64. rewrite Z.mod_small by lia. lia. Qed.

Lemma quot_sign a b :
  b <> 0 -> Z.quot a b = if (if b <? 0 then negb (a <? 0) else a <? 0) then - (Z.abs a / Z.abs b) else Z.abs a / Z.abs b.
Proof.
  intros Hb. destruct (Z.ltb_spec a 0), (Z.ltb_spec b 0); simpl;
    rewrite ?(Z.abs_neq a), ?(Z.abs_eq a), ?(Z.abs_neq b), ?(Z.abs_eq b), <- Z.quot_div_nonneg by lia;
    rewrite ?Z.quot_opp_l, ?Z.quot_opp_r by lia; lia.
Qed.

Lemma quot_range x y :
  - 2 ^ 63 <= x < 2 ^ 63 -> y <> 0 -> x <> - 2 ^ 63 \/ y <> -1 -> - 2 ^ 63 <= Z.quot x y < 2 ^ 63.
Proof.
  intros Hx Hy Hn. destruct (decide (y = 1)) as [-> |]; [by rewrite Z.quot_1_r |].
  destruct (decide (y = -1)) as [-> |]; [change (-1) with (- (1)); rewrite Z.quot_opp_r, Z.quot_1_r; lia |].
  assert (Hq : 0 <= Z.abs x / Z.abs y <= 2 ^ 62) by (split; [apply Z.div_pos | apply Z.div_le_upper_bound]; lia).
  rewrite quot_sign by done. destruct (if y <? 0 then _ else _); lia.
Qed.

Lemma rem_sign a b : b <> 0 -> Z.rem a b = if a <? 0 then - (Z.abs a mod Z.abs b) else Z.abs a mod Z.abs b.
Proof.
  intros Hb. destruct (Z.ltb_spec a 0), (Z.ltb_spec b 0);
    rewrite ?(Z.abs_neq a), ?(Z.abs_eq a), ?(Z.abs_neq b), ?(Z.abs_eq b), <- Z.rem_mod_nonneg by lia;
    rewrite ?Z.rem_opp_l, ?Z.rem_opp_r by lia; lia.
Qed.

(** C38: the 64-bit division routines implement the division of C.  For every
    dividend and non-zero divisor, Algorithm D terminates without reading or
    writing outside its digit arrays; [__qdivrem] returns the quotient and the
    remainder, [__udivdi3] and [__umoddi3] one of them, and [__divdi3] and
    [__moddi3] the quotient truncated towards zero and the remainder with the
    dividend's sign, where only the least number divided by -1 wraps. *)
Theorem division_correct (a b x y : Z) :
  0 <= a < 2 ^ 64 -> 0 < b < 2 ^ 64 -> - 2 ^ 63 <= x < 2 ^ 63 -> - 2 ^ 63 <= y < 2 ^ 63 -> y <> 0 ->
  __qdivrem a b = Ok (a / b, a mod b) /\ __udivdi3 a b = Ok (a / b) /\ __umoddi3 a b = Ok (a mod b)
  /\ __divdi3 x y = Ok (if (x =? - 2 ^ 63) && (y =? -1) then x else Z.quot x y) /\ __moddi3 x y = Ok (Z.rem x y).
Proof.
  intros Ha Hb Hx Hy Hy0. unfold __udivdi3, __umoddi3, __divdi3, __moddi3. cbv zeta.
  rewrite !magnitude, (qdivrem_spec a b), qdivrem_spec by lia. cbn [obind].
  assert (Hq : 0 <= Z.abs x / Z.abs y <= 2 ^ 63) by (split; [apply Z.div_pos | apply Z.div_le_upper_bound]; nia).
  pose proof (Z.mod_pos_bound (Z.abs x) (Z.abs y) ltac:(lia)).
  rewrite !signed_result by lia. rewrite <- quot_sign, <- rem_sign by done. do 3 (split; [done |]).
  split; f_equal.
  - destruct (Z.eqb_spec x (- 2 ^ 63)) as [-> |], (Z.eqb_spec y (-1)) as [-> |]; try done; apply s64_small, quot_range; lia.
  - apply s64_small. rewrite rem_sign by done. destruct (x <? 0); lia.
Qed.

Lemma division_correct_witness :
  __qdivrem 0x7FFF800100000000 0x800080020005 = Ok (0x7FFF800100000000 / 0x800080020005, 0x7FFF800100000000 mod 0x800080020005)
  /\ __divdi3 (-7) 2 = Ok (-3) /\ __moddi3 (-7) 2 = Ok (-1).
Proof.
  destruct (division_correct 0x7FFF800100000000 0x800080020005 (-7) 2 ltac:(lia) ltac:(lia) ltac:(lia) ltac:(lia) ltac:(lia))
    as (Hq & _ & _ & Hd & Hm).
  split; [exact Hq | split; [exact Hd | exact Hm]].
Defined.
