(* ===== verification/FfsNode.v ===== *)
(** * File contents of the in-memory file system (sys/vfs/ffs/ffs_node.c)

    The contents of a file are the first bytes of a run of pages that grows with
    the writes.  A byte of the run that was never written is [None].  The
    caller's buffer lies in the address space of its context, the kernel's or
    another one (sys/vfs/context.c).  The memory of the contexts is apart from
    the pages of the files. *)

From S2P Require Import Prelude Pages HeapSpec Block.

Definition kFFSNodeMaxChunkPages : Z := 10.
Definition kFFSNodeMaxChunkSize : Z := kFFSNodeMaxChunkPages * VM_PAGE_SIZE.

Definition EINVAL : Z := 28.
Definition ENOMEM : Z := 48.

(** [(size_t)-1] *)
Definition SIZE_ERROR : Z := 2 ^ 32 - 1.

Definition sizeof_ffs_node_data : Z := 12.

(** [ffs_node_data_t], with the memory of its pages in [d_bytes]. *)
Record ffs_node_data_t := FfsData { d_data : Z; d_size : Z; d_pages : Z; d_bytes : block }.

Definition set_dataSize (d : ffs_node_data_t) (n : Z) : ffs_node_data_t := FfsData (d_data d) n (d_pages d) (d_bytes d).
Definition set_dataBytes (d : ffs_node_data_t) (b : block) : ffs_node_data_t := FfsData (d_data d) (d_size d) (d_pages d) b.

(** [memcpy] of [bs] to index [i] of a block, and of [n] bytes from index [i]. *)
Definition block_write (b : block) (i : Z) (bs : block) : outcome block :=
  let k := Z.to_nat i in
  if (0 <=? i) && (k + length bs <=? length b)%nat then Ok (take k b ++ bs ++ drop (k + length bs) b) else Fault.

Definition block_read (b : block) (i n : Z) : outcome block :=
  if (0 <=? i) && (i + n <=? Z.of_nat (length b)) then Ok (take (Z.to_nat n) (drop (Z.to_nat i) b)) else Fault.

(** ** Copies between the kernel and a context (context.c)

    [cx_kernel] says whether the context's directory is the kernel's.  If so,
    [cx_memory] is the memory by the kernel's addresses; if not, the physical
    memory, [cx_resolve] the physical address of a page of the directory
    ([vm_resolveVirtualAddress], 0 when the page is not mapped) and [cx_maps]
    whether the kernel has room to map that many frames ([vm_alloc]).  Only
    addresses of the domain can be accessed; a byte never written is [None]. *)
Abbreviation memory := (gmap Z (option Z)).

Record context_t := ContextOf { cx_kernel : bool; cx_memory : memory; cx_resolve : Z -> Z; cx_maps : Z -> Z -> bool }.

Definition set_memory (c : context_t) (m : memory) : context_t := ContextOf (cx_kernel c) m (cx_resolve c) (cx_maps c).

Fixpoint fetch_bytes (m : memory) (a : Z) (n : nat) : outcome block :=
  match n with
  | O => Ok []
  | S n => let* x := of_option (m !! a) in let* b := fetch_bytes m (u32 (a + 1)) n in Ok (x :: b)
  end.

Fixpoint deliver_bytes (m : memory) (a : Z) (b : block) : outcome memory :=
  match b with
  | [] => Ok m
  | x :: b => let* _ := of_option (m !! a) in deliver_bytes (<[a := x]> m) (u32 (a + 1)) b
  end.

(** Where in [cx_memory] the copy finds the buffer at [user], or the error.
    Outside the kernel the frames from that of the buffer's first page on are
    mapped for the copy, as many as [size] bytes take; behind them the copy
    faults. *)
Definition buffer_at (c : context_t) (user size : Z) : outcome (Z + Z) :=
  if cx_kernel c then Ok (inl user) else
  let page := VM_PAGE_ALIGN_DOWN user in
  let pages := VM_PAGE_COUNT size in
  let offset := u32 (user - page) in
  let physical := cx_resolve c page in
  if physical =? 0 then Ok (inr EINVAL) else
  if negb (cx_maps c physical pages) then Ok (inr ENOMEM) else
  if offset + size <=? pages * VM_PAGE_SIZE then Ok (inl (u32 (physical + offset))) else Fault.

(** [vfs_contextCopyDataOut]: [target] is index [i] of [b].  The block with the
    bytes copied, or the error. *)
Definition copy_out (c : context_t) (data size target : Z) (b : block) (i : Z) : outcome (block + Z) :=
  if (data =? NULL) || (target =? NULL) || (size =? 0) then Ok (inr EINVAL) else
  let* place := buffer_at c data size in
  match place with
  | inl a =>
      let* bs := fetch_bytes (cx_memory c) a (Z.to_nat size) in
      let* b := block_write b i bs in
      Ok (inl b)
  | inr errno => Ok (inr errno)
  end.

(** [vfs_contextCopyDataIn]: [data] is index [i] of [b]. *)
Definition copy_in (c : context_t) (data size target : Z) (b : block) (i : Z) : outcome (context_t + Z) :=
  if (data =? NULL) || (target =? NULL) || (size =? 0) then Ok (inr EINVAL) else
  let* place := buffer_at c target size in
  match place with
  | inl a =>
      let* bs := block_read b i size in
      let* m := deliver_bytes (cx_memory c) a bs in
      Ok (inl (set_memory c m))
  | inr errno => Ok (inr errno)
  end.

Section FfsNode.
Context {H P : Type} `{KernelHeap H} `{PageSource P}.

Definition ffs_node_dataCreate (h : H) : outcome (Z * ffs_node_data_t * H) :=
  let* (p, h) := halloc h sizeof_ffs_node_data in
  if p =? NULL then Fault else Ok (p, FfsData NULL 0 0 [], h).

Definition ffs_node_dataDestroy (h : H) (pg : P) (p : Z) (d : ffs_node_data_t) : outcome (H * P) :=
  let pg := if d_data d =? NULL then pg else mm_free pg (d_data d) (d_pages d) in
  let* h := hfree h p in
  Ok (h, pg).

(** The memory of [pages] new pages at [a]; there is none at a null pointer. *)
Definition new_pages (a pages : Z) : block := if a =? NULL then [] else fresh_block (pages * VM_PAGE_SIZE).

Definition ffs_node_allocateMemory (pg : P) (d : ffs_node_data_t) (minSize : Z) : outcome (ffs_node_data_t * P) :=
  if d_data d =? NULL then
    let pages := VM_PAGE_COUNT minSize in
    let '(a, pg) := mm_alloc pg pages in
    Ok (FfsData a (d_size d) pages (new_pages a pages), pg)
  else
    let requiredPages := VM_PAGE_COUNT minSize in
    if d_pages d <? requiredPages then
      let '(temp, pg) := mm_alloc pg requiredPages in
      let* bytes := cell_copy (d_bytes d) (new_pages temp requiredPages) (d_size d) in
      let pg := mm_free pg (d_data d) (d_pages d) in
      Ok (FfsData temp (d_size d) requiredPages bytes, pg)
    else Ok (d, pg).

(** The number of bytes written, or [SIZE_ERROR] and what [errno] is set to. *)
Definition ffs_node_writeData (c : context_t) (pg : P) (d : ffs_node_data_t) (offset ptr size : Z)
  : outcome (Z * option Z * ffs_node_data_t * P) :=
  let size := Z.min size kFFSNodeMaxChunkSize in
  let* (d, pg) := ffs_node_allocateMemory pg d (u32 (d_size d + size)) in
  let* result := copy_out c ptr size (u32 (d_data d + offset)) (d_bytes d) offset in
  match result with
  | inr errno => Ok (SIZE_ERROR, Some errno, d, pg)
  | inl b =>
      let d := set_dataBytes d b in
      let d := if d_size d <? u32 (offset + size) then set_dataSize d (u32 (d_size d + u32 (u32 (offset + size) - d_size d))) else d in
      Ok (size, None, d, pg)
  end.

(** The number of bytes read, with the context they have arrived in. *)
Definition ffs_node_readData (c : context_t) (d : ffs_node_data_t) (offset ptr size : Z)
  : outcome (Z * option Z * context_t * ffs_node_data_t) :=
  let theEnd := u32 (d_data d + d_size d) in
  let preferredEnd := u32 (u32 (d_data d + offset) + size) in
  let theEnd := Z.min theEnd preferredEnd in
  let size := u32 (theEnd - u32 (d_data d + offset)) in
  let size := Z.min size kFFSNodeMaxChunkSize in
  if 0 <? size then
    let* result := copy_in c (u32 (d_data d + offset)) size ptr (d_bytes d) offset in
    match result with
    | inl c => Ok (size, None, c, set_dataSize d (u32 (d_size d + size)))
    | inr errno => Ok (SIZE_ERROR, Some errno, c, d)
    end
  else Ok (0, None, c, d).
End FfsNode.
