(* ===== verification/FfsNodeCorrect.v ===== *)
(** * Reading back what was written to a file

    A file's record stands for a list of bytes.  Writes splice into the list,
    moving it to larger pages when it outgrows the ones it has; reads deliver a
    piece of it.  The bytes come from and go to the memory of a context, as the
    context itself sees it. *)

From S2P Require Import Prelude Pages HeapSpec Block FfsNode HeapContract.

(** The contents after writing [bs] at [k]. *)
Definition splice (content : list Z) (k : nat) (bs : list Z) : list Z :=
  take k content ++ bs ++ drop (k + length bs) content.

Lemma length_splice content k bs :
  (k <= length content)%nat -> length (splice content k bs) = (length content `max` (k + length bs))%nat.
Proof. intros Hk. unfold splice. rewrite !length_app, length_take, length_drop. lia. Qed.

(** ** Buffers in a context's memory *)

(** Where a context's address is in [cx_memory], and the byte there as the
    context sees it: through the directory, page by page. *)
Definition place (c : context_t) (a : Z) : Z :=
  if cx_kernel c then a else cx_resolve c (VM_PAGE_ALIGN_DOWN a) + a mod 4096.

Definition context_byte (c : context_t) (a : Z) : option (option Z) :=
  if negb (cx_kernel c) && (cx_resolve c (VM_PAGE_ALIGN_DOWN a) =? 0) then None else cx_memory c !! place c a.

Definition sees (c : context_t) (a : Z) (bs : list Z) : Prop :=
  forall i b, bs !! i = Some b -> context_byte c (a + Z.of_nat i) = Some (Some b).

(** A buffer of [n] bytes that the copies handle.  It is mapped; outside the
    kernel, its pages lie in frames that follow one another, it ends within as
    many pages as [n] bytes take, and the kernel has room to map these. *)
Record buffer (c : context_t) (a n : Z) : Prop := {
  bu_range : 0 < a /\ a + n <= 2 ^ 32;
  bu_mapped : forall i, 0 <= i < n -> is_Some (context_byte c (a + i));
  bu_frames : cx_kernel c = false -> forall i, 0 <= i < n ->
    cx_resolve c (VM_PAGE_ALIGN_DOWN (a + i)) = cx_resolve c (VM_PAGE_ALIGN_DOWN a) + (VM_PAGE_ALIGN_DOWN (a + i) - VM_PAGE_ALIGN_DOWN a);
  bu_window : cx_kernel c = false -> a mod 4096 + n <= VM_PAGE_COUNT n * 4096
    /\ cx_maps c (cx_resolve c (VM_PAGE_ALIGN_DOWN a)) (VM_PAGE_COUNT n) = true;
  bu_place : 0 <= place c a /\ place c a + n <= 2 ^ 32
}.

Lemma place_add c a n i : buffer c a n -> 0 <= i < n -> place c (a + i) = place c a + i.
Proof.
  intros [Hr _ Hf _ _] Hi. unfold place in *. destruct (cx_kernel c); [done |]. rewrite Hf by done.
  rewrite !align_down_spec by lia. pose proof (Z.div_mod (a + i) 4096 ltac:(lia)). pose proof (Z.div_mod a 4096 ltac:(lia)). lia.
Qed.

Lemma byte_place c a x : context_byte c a = Some x -> cx_memory c !! place c a = Some x.
Proof. unfold context_byte. by destruct (_ && _). Qed.

Lemma buffer_found c a n : buffer c a n -> 0 < n -> buffer_at c a n = Ok (inl (place c a)).
Proof.
  intros [Hr Hm _ Hwin Hp] Hn. destruct (Hm 0 ltac:(lia)) as [x Hx]. rewrite Z.add_0_r in Hx. unfold context_byte in Hx.
  unfold buffer_at. unfold place in *. destruct (cx_kernel c); [done |]. cbn [negb andb] in Hx. destruct (Hwin eq_refl) as [Hw1 Hw2].
  destruct (Z.eqb_spec (cx_resolve c (VM_PAGE_ALIGN_DOWN a)) 0); [done |]. rewrite Hw2. cbn [negb].
  assert (Hoff : a - VM_PAGE_ALIGN_DOWN a = a mod 4096) by (rewrite align_down_spec by lia; pose proof (Z.div_mod a 4096 ltac:(lia)); lia).
  pose proof (Z.mod_pos_bound a 4096 ltac:(lia)). rewrite Hoff, !u32_small by lia. change VM_PAGE_SIZE with 4096.
  by rewrite (proj2 (Z.leb_le _ _)) by lia.
Qed.

Lemma fetch_spec (b : block) : forall (m : memory) p, (forall i x, b !! i = Some x -> m !! (p + Z.of_nat i) = Some x) -> 0 <= p ->
  p + Z.of_nat (length b) <= 2 ^ 32 -> fetch_bytes m p (length b) = Ok b.
Proof.
  induction b as [| x b IH]; intros m p Hb Hp Hl; cbn [fetch_bytes length] in *; [done |].
  pose proof (Hb 0%nat x eq_refl) as Hx. rewrite Z.add_0_r in Hx. rewrite Hx. cbn [of_option obind].
  destruct b as [| y b]; [done |]. cbn [length] in Hl. rewrite (u32_small (p + 1)) by lia. rewrite IH; [done | | lia | cbn [length]; lia].
  intros i z Hi. rewrite <- (Hb (S i) z Hi). f_equal. lia.
Qed.

Lemma deliver_spec (b : block) : forall (m : memory) p, (forall i, 0 <= i < Z.of_nat (length b) -> is_Some (m !! (p + i))) -> 0 <= p ->
  p + Z.of_nat (length b) <= 2 ^ 32 ->
  exists m', deliver_bytes m p b = Ok m' /\ (forall i x, b !! i = Some x -> m' !! (p + Z.of_nat i) = Some x)
    /\ (forall q, ~ p <= q < p + Z.of_nat (length b) -> m' !! q = m !! q).
Proof.
  induction b as [| x b IH]; intros m p Hm Hp Hl; cbn [deliver_bytes length] in *; [by exists m |].
  destruct (Hm 0 ltac:(lia)) as [y Hy]. rewrite Z.add_0_r in Hy. rewrite Hy. cbn [of_option obind].
  destruct b as [| z b].
  { exists (<[p := x]> m). split; [done |]. cbn [length] in *. split; [| intros q Hq; apply lookup_insert_ne; lia].
    intros [| i] ? [= <-]. rewrite Z.add_0_r. apply lookup_insert_eq. }
  cbn [length] in Hl. rewrite (u32_small (p + 1)) by lia.
  destruct (IH (<[p := x]> m) (p + 1)) as (m' & -> & Hin & Hout); [| lia | cbn [length]; lia |].
  { intros i Hi. cbn [length] in *. rewrite lookup_insert_ne by lia. replace (p + 1 + i) with (p + (i + 1)) by lia. apply Hm. lia. }
  exists m'. split; [done |]. cbn [length] in *. split.
  - intros [| i] v Hv; cbn in Hv.
    + injection Hv as <-. rewrite Z.add_0_r, Hout by lia. apply lookup_insert_eq.
    + rewrite <- (Hin i v Hv). f_equal. lia.
  - intros q Hq. rewrite Hout by lia. apply lookup_insert_ne. lia.
Qed.

(** The context with [b] delivered at [a], the rest of the memory as it was. *)
Record delivered (c : context_t) (a : Z) (bs : list Z) (c' : context_t) : Prop := {
  dl_same : cx_kernel c' = cx_kernel c /\ cx_resolve c' = cx_resolve c;
  dl_seen : sees c' a bs;
  dl_rest : forall q, ~ place c a <= q < place c a + Z.of_nat (length bs) -> cx_memory c' !! q = cx_memory c !! q
}.

Lemma deliver_buffer c a bs : buffer c a (Z.of_nat (length bs)) ->
  exists m, deliver_bytes (cx_memory c) (place c a) (Some <$> bs) = Ok m /\ delivered c a bs (set_memory c m).
Proof.
  intros Hbuf. pose proof Hbuf as [_ Hm _ _ Hp]. destruct (deliver_spec (Some <$> bs) (cx_memory c) (place c a)) as (m & Hok & Hin & Hout).
  { rewrite length_fmap. intros i Hi. destruct (Hm i Hi) as [x Hx]. exists x. rewrite <- (place_add c a _ i Hbuf Hi). by apply byte_place. }
  { lia. }
  { rewrite length_fmap. lia. }
  exists m. split; [done |]. split; [done | | by rewrite length_fmap in Hout].
  intros i b Hi. assert (Hlt : 0 <= Z.of_nat i < Z.of_nat (length bs)) by (apply lookup_lt_Some in Hi; lia).
  destruct (Hm _ Hlt) as [x Hx]. unfold context_byte in *. cbn [set_memory cx_kernel cx_resolve cx_memory].
  destruct (_ && _); [done |]. change (place (set_memory c m)) with (place c). rewrite (place_add c a _ _ Hbuf Hlt).
  apply Hin. by rewrite list_lookup_fmap, Hi.
Qed.

Lemma fetch_buffer c a n bs : buffer c a (Z.of_nat n) -> sees c a bs -> (n <= length bs)%nat ->
  fetch_bytes (cx_memory c) (place c a) n = Ok (Some <$> take n bs).
Proof.
  intros Hbuf Hs Hn. pose proof (bu_place _ _ _ Hbuf). assert (Hl : length (Some <$> take n bs) = n) by (rewrite length_fmap, length_take; lia).
  rewrite <- Hl at 1. apply fetch_spec; [| lia | rewrite Hl; lia]. intros i x Hi.
  rewrite list_lookup_fmap, fmap_Some in Hi. destruct Hi as (b & Hi & ->). apply lookup_take_Some in Hi as [Hi Hlt].
  rewrite <- (place_add c a _ (Z.of_nat i) Hbuf) by lia. by apply byte_place, Hs.
Qed.

(** ** Contents *)

(** A write that starts inside the contents splices. *)
Lemma block_write_spec b content k bs :
  holds b content -> (k <= length content)%nat -> (k + length bs <= length b)%nat ->
  exists b', block_write b (Z.of_nat k) (Some <$> bs) = Ok b' /\ holds b' (splice content k bs) /\ length b' = length b.
Proof.
  intros [rest ->] Hk Hb. unfold block_write. rewrite (proj2 (Z.leb_le _ _)), Nat2Z.id, (length_fmap _ bs) by lia.
  rewrite (proj2 (Nat.leb_le _ _)) by done. eexists. split; [done |].
  rewrite length_app, length_fmap in Hb. split.
  - exists (drop (k + length bs - length content) rest). unfold splice. rewrite !fmap_app, fmap_take, fmap_drop.
    rewrite take_app_le, drop_app by (rewrite length_fmap; lia). rewrite length_fmap, <- !app_assoc. done.
  - rewrite !length_app, length_take, length_drop, !length_app, !length_fmap. lia.
Qed.

Lemma block_read_spec b content k n :
  holds b content -> (k + n <= length content)%nat ->
  block_read b (Z.of_nat k) (Z.of_nat n) = Ok (Some <$> take n (drop k content)).
Proof.
  intros Hb Hk. pose proof (holds_length _ _ Hb). destruct Hb as [rest ->]. unfold block_read.
  rewrite (proj2 (Z.leb_le _ _)), (proj2 (Z.leb_le _ _)), !Nat2Z.id by lia. cbn [andb]. f_equal.
  rewrite drop_app_le by (rewrite length_fmap; lia).
  rewrite take_app_le by (rewrite length_drop, length_fmap; lia). by rewrite fmap_take, fmap_drop.
Qed.

Lemma chunk_positive : 0 < kFFSNodeMaxChunkSize.
Proof. done. Qed.

Section Contents.
Context {P : Type} `{PageSourceOk P}.

(** The record [d] holds [content] in pages that [pg] has handed out. *)
Record file_wf (pg : P) (d : ffs_node_data_t) (content : list Z) : Prop := {
  fw_size : d_size d = Z.of_nat (length content);
  fw_bytes : holds (d_bytes d) content;
  fw_length : Z.of_nat (length (d_bytes d)) = if d_data d =? NULL then 0 else d_pages d * 4096;
  fw_owned : d_data d <> NULL -> pg_owned pg (d_data d) (d_pages d)
}.

(** Every region that the file does not give back stays handed out. *)
Definition others_kept (pg pg' : P) (a : Z) : Prop := forall b m, b <> a -> pg_owned pg b m -> pg_owned pg' b m.

Lemma new_pages_length a n : 0 <= n -> a <> NULL -> Z.of_nat (length (new_pages a n)) = n * 4096.
Proof.
  intros Hn Ha. unfold new_pages. rewrite (proj2 (Z.eqb_neq _ _)) by done. apply length_fresh_block.
  change VM_PAGE_SIZE with 4096. lia.
Qed.

(** There is room for [n] more bytes: in the pages at hand or in new ones. *)
Definition can_grow (pg : P) (d : ffs_node_data_t) (n : Z) : Prop :=
  d_data d <> NULL /\ VM_PAGE_COUNT n <= d_pages d \/ fst (mm_alloc pg (VM_PAGE_COUNT n)) <> NULL.

Lemma file_size_bound pg d content : file_wf pg d content -> Z.of_nat (length content) < 2 ^ 32.
Proof.
  intros [_ Hb Hl Ho]. pose proof (holds_length _ _ Hb). destruct (Z.eqb_spec (d_data d) NULL) as [| Hd]; [lia |].
  destruct (pg_sane _ _ _ (Ho Hd)) as (? & _ & _ & ?). unfold VM_UPPER_LIMIT in *. lia.
Qed.

Lemma allocateMemory_spec pg d content n :
  file_wf pg d content -> Z.of_nat (length content) <= n -> 0 < n <= 2 ^ 32 - 4096 -> can_grow pg d n ->
  exists d' pg', ffs_node_allocateMemory pg d n = Ok (d', pg') /\ file_wf pg' d' content
    /\ d_data d' <> NULL /\ n <= Z.of_nat (length (d_bytes d')) /\ others_kept pg pg' (d_data d).
Proof.
  intros Hw Hc Hn Hg. destruct (page_count_enough n) as [Hpc _]; [lia |].
  assert (Hpos : 0 <= VM_PAGE_COUNT n) by lia.
  destruct Hw as [Hs Hb Hl Ho]. pose proof (holds_length _ _ Hb) as Hlen. unfold ffs_node_allocateMemory.
  destruct (Z.eqb_spec (d_data d) NULL) as [Hd | Hd].
  - destruct Hg as [[? _] | Hg]; [done |]. destruct (mm_alloc pg (VM_PAGE_COUNT n)) as [a pg'] eqn:Ea. cbn [fst] in Hg.
    destruct (pg_alloc_ok _ _ _ _ Hpos Ea Hg) as [_ Hown].
    eexists _, pg'. split; [done |]. assert (content = []) as -> by (destruct content; cbn in *; [done | lia]).
    split; [split; cbn | split; [done | split; [cbn; rewrite new_pages_length by done; lia |]]].
    + done.
    + by exists (new_pages a (VM_PAGE_COUNT n)).
    + rewrite (proj2 (Z.eqb_neq _ _)) by done. by apply new_pages_length.
    + intros _. apply Hown. by right.
    + intros b m _ Hm. apply Hown. by left.
  - destruct (Z.ltb_spec (d_pages d) (VM_PAGE_COUNT n)) as [Hlt | Hge].
    2:{ exists d, pg. split; [done |]. split; [split; try done; by rewrite (proj2 (Z.eqb_neq _ _)) by done |].
        split; [done |]. split; [lia |]. by intros b m _ Hm. }
    destruct Hg as [[_ ?] | Hg]; [lia |]. destruct (mm_alloc pg (VM_PAGE_COUNT n)) as [a pg'] eqn:Ea. cbn [fst] in Hg.
    destruct (pg_alloc_ok _ _ _ _ Hpos Ea Hg) as [Hnew Hown].
    pose proof (new_pages_length a (VM_PAGE_COUNT n) Hpos Hg) as Hnl.
    destruct (holds_copy (d_bytes d) content (d_size d) (new_pages a (VM_PAGE_COUNT n)) Hb Hs) as (b' & -> & Hb' & Hl'); [lia |].
    cbn [obind]. eexists _, _. split; [done |].
    assert (Hda : d_data d <> a) by (intros <-; by apply (Hnew (d_pages d)), Ho).
    pose proof (pg_free_ok pg' (d_data d) (d_pages d) ltac:(apply Hown; left; by apply Ho)) as Hfree.
    split; [split; cbn | split; [done | split; [cbn; lia |]]].
    + done.
    + done.
    + rewrite (proj2 (Z.eqb_neq _ _)) by done. lia.
    + intros _. apply Hfree. split; [apply Hown; by right | done].
    + intros b m Hne Hm. apply Hfree. split; [apply Hown; by left | done].
Qed.

Lemma writeData_spec c pg d content k ptr bs size :
  let n := Z.min size kFFSNodeMaxChunkSize in
  file_wf pg d content -> (k <= length content)%nat -> buffer c ptr n -> sees c ptr bs -> 0 < size -> n <= Z.of_nat (length bs) ->
  Z.of_nat (length content) + n <= 2 ^ 32 - 4096 -> can_grow pg d (Z.of_nat (length content) + n) ->
  exists d' pg', ffs_node_writeData c pg d (Z.of_nat k) ptr size = Ok (n, None, d', pg')
    /\ file_wf pg' d' (splice content k (take (Z.to_nat n) bs)) /\ others_kept pg pg' (d_data d).
Proof.
  intros n Hw Hk Hbuf Hsee Hsz Hn Hmax Hg. pose proof (proj1 (bu_range _ _ _ Hbuf)). assert (Hn0 : 0 < n) by (pose proof chunk_positive; lia).
  pose proof (fw_size _ _ _ Hw) as Hs. unfold ffs_node_writeData. fold n. rewrite Hs, u32_small by lia.
  destruct (allocateMemory_spec pg d content (Z.of_nat (length content) + n) Hw) as (d1 & pg1 & -> & Hw1 & Hd1 & Hroom & Hkept); [lia | lia | done |].
  cbn [obind]. destruct Hw1 as [Hs1 Hb1 Hl1 Ho1]. rewrite (proj2 (Z.eqb_neq _ _) Hd1) in Hl1.
  destruct (pg_sane _ _ _ (Ho1 Hd1)) as (Hpos & _ & _ & Hlim). unfold VM_UPPER_LIMIT in Hlim.
  unfold copy_out. rewrite (u32_small (_ + _)) by lia.
  rewrite (proj2 (Z.eqb_neq ptr _)), (proj2 (Z.eqb_neq (_ + _) _)), (proj2 (Z.eqb_neq n _)) by (unfold NULL in *; lia). cbn [orb].
  rewrite (buffer_found c ptr n Hbuf Hn0). cbn [obind].
  rewrite (fetch_buffer c ptr (Z.to_nat n) bs) by (done || lia || by rewrite Z2Nat.id by lia). cbn [obind].
  destruct (block_write_spec (d_bytes d1) content k (take (Z.to_nat n) bs)) as (b & -> & Hb & Hlb); [done | done | rewrite length_take; lia |].
  cbn [obind]. eexists _, pg1. split; [done |]. split; [| done].
  assert (Hlen : Z.of_nat (length (splice content k (take (Z.to_nat n) bs))) = Z.max (Z.of_nat (length content)) (Z.of_nat k + n))
    by (rewrite length_splice, length_take; lia).
  cbn [d_size set_dataBytes]. rewrite Hs1, !(u32_small (Z.of_nat k + n)) by lia.
  destruct (Z.ltb_spec (Z.of_nat (length content)) (Z.of_nat k + n)); split; cbn [d_size d_bytes d_data d_pages set_dataSize set_dataBytes]; try done.
  - rewrite Hlen. u32_simpl. lia.
  - rewrite (proj2 (Z.eqb_neq _ _)) by done. lia.
  - lia.
  - rewrite (proj2 (Z.eqb_neq _ _)) by done. lia.
Qed.

Lemma readData_spec c pg d content k ptr size :
  file_wf pg d content -> (k <= length content)%nat -> 0 <= size -> d_data d + Z.of_nat k + size < 2 ^ 32 ->
  let n := Z.min (Z.min size (Z.of_nat (length content - k))) kFFSNodeMaxChunkSize in
  Z.of_nat (length content) + n < 2 ^ 32 -> 0 < n -> buffer c ptr n ->
  exists c', ffs_node_readData c d (Z.of_nat k) ptr size = Ok (n, None, c', set_dataSize d (Z.of_nat (length content) + n))
    /\ delivered c ptr (take (Z.to_nat n) (drop k content)) c'.
Proof.
  intros Hw Hk Hsz Hwrap n Hgrow Hn Hbuf. pose proof (proj1 (bu_range _ _ _ Hbuf)). pose proof (file_size_bound _ _ _ Hw). destruct Hw as [Hs Hb Hl Ho].
  pose proof (holds_length _ _ Hb).
  assert (Hd : 0 <= d_data d /\ d_data d + Z.of_nat (length content) < 2 ^ 32).
  { destruct (Z.eqb_spec (d_data d) NULL) as [Hz | Hz]; [unfold NULL in *; lia |].
    destruct (pg_sane _ _ _ (Ho Hz)) as (? & _ & _ & ?). unfold VM_UPPER_LIMIT in *. lia. }
  unfold ffs_node_readData. rewrite Hs. u32_simpl.
  replace (Z.min (Z.min (d_data d + Z.of_nat (length content)) (d_data d + Z.of_nat k + size) - (d_data d + Z.of_nat k)) kFFSNodeMaxChunkSize) with n by lia.
  rewrite (proj2 (Z.ltb_lt _ _) Hn). unfold copy_in.
  assert (Hdn : d_data d <> NULL) by (intros Hz; rewrite Hz in Hl; cbn in Hl; lia).
  rewrite (proj2 (Z.eqb_neq ptr _)), (proj2 (Z.eqb_neq (_ + _) _)), (proj2 (Z.eqb_neq n _)) by (unfold NULL in *; lia). cbn [orb].
  rewrite (buffer_found c ptr n Hbuf Hn). cbn [obind].
  replace (block_read (d_bytes d) (Z.of_nat k) n) with (block_read (d_bytes d) (Z.of_nat k) (Z.of_nat (Z.to_nat n))) by (f_equal; lia).
  rewrite (block_read_spec _ content) by (done || lia). cbn [obind].
  destruct (deliver_buffer c ptr (take (Z.to_nat n) (drop k content))) as (m & -> & Hdel).
  { replace (Z.of_nat (length (take (Z.to_nat n) (drop k content)))) with n by (rewrite length_take, length_drop; lia). done. }
  cbn [obind]. by eexists.
Qed.
End Contents.

(** A fresh file on the page source that runs. *)
Lemma fresh_file_wf : file_wf (∅ : cells_source) (FfsData NULL 0 0 []) [].
Proof. split; [done | by exists [] | done | done]. Qed.
