(* ===== verification/Vfs.v ===== *)
(** * The virtual file system (sys/vfs/)

    Nodes, paths and the operations on names (node.c, path.c, vfs.c) over the
    in-memory file system (sys/vfs/ffs/), the only one there is, so a call
    through an instance's table of callbacks is a call of the [ffs_] function
    it holds.  A directory's children and an instance's nodes are hash tables in
    the source; here they are finite maps.  HashSetCorrect proves a hash table to
    be one for keys other than 0 compared by identity; that it also holds for the
    children's names, compared as strings, is taken over.  The root's number is
    0, and a hash table forgets that key when its capacity changes: the map of an
    instance's nodes does not, so [ffs_lookupNode] finds the root where the code
    would not.  A directory's table is made with the directory, which can fail;
    the memory of the buckets and of the iterators is left out.  A table keeps
    the object it has when another is set under the same key.

    [int *errno] is a field of the state, the time an argument.  The spinlocks of
    the instance and of a node are kept: some paths leave a node locked.  A
    node's lock is never initialised, so what it holds at first is what the
    heap's memory held there. *)

From S2P Require Import Prelude Pages HeapSpec Block Iterator Array HashSet FfsNode.

Definition kVFSMaxFilenameLength : Z := 256.

Definition EBADF : Z := 8.
Definition EEXIST : Z := 20.
Definition EISDIR : Z := 31.
Definition EMFILE : Z := 33.
Definition ENOENT : Z := 44.
Definition ENOTDIR : Z := 54.
Definition ENOTEMPTY : Z := 55.

Definition sizeof_vfs_node : Z := 312.
Definition sizeof_vfs_directory : Z := 316.
Definition sizeof_vfs_link : Z := 316.
Definition sizeof_vfs_file : Z := 16.
Definition sizeof_vfs_path : Z := 276.
Definition sizeof_vfs_stat : Z := 292.

(** A string without its terminator. *)
Abbreviation name := (list Z).

Inductive vfs_node_type_t := vfs_nodeTypeFile | vfs_nodeTypeDirectory | vfs_nodeTypeLink.

#[global] Instance node_type_eq_dec : EqDecision vfs_node_type_t.
Proof. solve_decision. Defined.

(** [vfs_node_t] with the fields that [vfs_directory_t] and [vfs_link_t] add; the
    table of a directory's children is at [n_table], if it could be made. *)
Record vfs_node_t := VfsNode {
  n_name : name; n_type : vfs_node_type_t; n_lock : bool; n_references : Z; n_id : Z; n_size : Z;
  n_atime : Z; n_mtime : Z; n_ctime : Z; n_parent : Z; n_data : Z;
  n_childs : gmap name Z; n_table : Z; n_target : Z
}.

Definition nd_name (n : vfs_node_t) (x : name) : vfs_node_t :=
  VfsNode x (n_type n) (n_lock n) (n_references n) (n_id n) (n_size n) (n_atime n) (n_mtime n) (n_ctime n) (n_parent n) (n_data n) (n_childs n) (n_table n) (n_target n).
Definition nd_type (n : vfs_node_t) (t : vfs_node_type_t) (data target : Z) : vfs_node_t :=
  VfsNode (n_name n) t (n_lock n) (n_references n) (n_id n) (n_size n) (n_atime n) (n_mtime n) (n_ctime n) (n_parent n) data (n_childs n) (n_table n) target.
Definition nd_lock (n : vfs_node_t) (x : bool) : vfs_node_t :=
  VfsNode (n_name n) (n_type n) x (n_references n) (n_id n) (n_size n) (n_atime n) (n_mtime n) (n_ctime n) (n_parent n) (n_data n) (n_childs n) (n_table n) (n_target n).
Definition nd_references (n : vfs_node_t) (x : Z) : vfs_node_t :=
  VfsNode (n_name n) (n_type n) (n_lock n) x (n_id n) (n_size n) (n_atime n) (n_mtime n) (n_ctime n) (n_parent n) (n_data n) (n_childs n) (n_table n) (n_target n).
Definition nd_size (n : vfs_node_t) (x : Z) : vfs_node_t :=
  VfsNode (n_name n) (n_type n) (n_lock n) (n_references n) (n_id n) x (n_atime n) (n_mtime n) (n_ctime n) (n_parent n) (n_data n) (n_childs n) (n_table n) (n_target n).
Definition nd_parent (n : vfs_node_t) (x : Z) : vfs_node_t :=
  VfsNode (n_name n) (n_type n) (n_lock n) (n_references n) (n_id n) (n_size n) (n_atime n) (n_mtime n) (n_ctime n) x (n_data n) (n_childs n) (n_table n) (n_target n).
Definition nd_childs (n : vfs_node_t) (x : gmap name Z) : vfs_node_t :=
  VfsNode (n_name n) (n_type n) (n_lock n) (n_references n) (n_id n) (n_size n) (n_atime n) (n_mtime n) (n_ctime n) (n_parent n) (n_data n) x (n_table n) (n_target n).
Definition nd_table (n : vfs_node_t) (x : Z) : vfs_node_t :=
  VfsNode (n_name n) (n_type n) (n_lock n) (n_references n) (n_id n) (n_size n) (n_atime n) (n_mtime n) (n_ctime n) (n_parent n) (n_data n) (n_childs n) x (n_target n).

(** [vfs_directory_entry_t] *)
Record vfs_directory_entry_t := DirEntry { de_id : Z; de_name : name; de_type : vfs_node_type_t }.

(** [vfs_file_t]; of an open directory, [f_data] is the address of its entries
    ([ffs_file_data_t]). *)
Record vfs_file_t := VfsFile { f_node : Z; f_offset : Z; f_flags : Z; f_data : Z }.

(** [ffs_file_data_t]: an open directory's entries at [fd_entries] *)
Record ffs_file_data_t := FfsFileData { fd_entries : Z; fd_list : list vfs_directory_entry_t; fd_count : Z; fd_pages : Z }.

(** [hashset_setObjectForKey] and [hashset_objectForKey] *)
Definition set_object {K : Type} `{Countable K} (m : gmap K Z) (data : Z) (key : K) : gmap K Z :=
  match m !! key with Some _ => m | None => <[key := data]> m end.
Definition object_for {K : Type} `{Countable K} (m : gmap K Z) (key : K) : Z := default NULL (m !! key).

(** The state of the file system, the kernel heap and the pages; [v_lock] is the
    instance's lock, [v_errno] the cell that [errno] points to. *)
Record vfs_t (H P : Type) := Vfs {
  v_nodes : gmap Z vfs_node_t;
  v_datas : gmap Z ffs_node_data_t;
  v_files : gmap Z vfs_file_t;
  v_dirs : gmap Z ffs_file_data_t;
  v_lock : bool; v_lastID : Z; v_table : gmap Z Z; v_errno : Z;
  v_heap : H; v_pages : P
}.
Arguments Vfs {H P}.
Arguments v_nodes {H P}.
Arguments v_datas {H P}.
Arguments v_files {H P}.
Arguments v_dirs {H P}.
Arguments v_lock {H P}.
Arguments v_lastID {H P}.
Arguments v_table {H P}.
Arguments v_errno {H P}.
Arguments v_heap {H P}.
Arguments v_pages {H P}.

Section Vfs.
Context {H P : Type} `{KernelHeap H} `{PageSource P}.

Abbreviation vfs := (vfs_t H P).

Definition vs_nodes (st : vfs) (x : gmap Z vfs_node_t) : vfs :=
  Vfs x (v_datas st) (v_files st) (v_dirs st) (v_lock st) (v_lastID st) (v_table st) (v_errno st) (v_heap st) (v_pages st).
Definition vs_datas (st : vfs) (x : gmap Z ffs_node_data_t) : vfs :=
  Vfs (v_nodes st) x (v_files st) (v_dirs st) (v_lock st) (v_lastID st) (v_table st) (v_errno st) (v_heap st) (v_pages st).
Definition vs_files (st : vfs) (x : gmap Z vfs_file_t) : vfs :=
  Vfs (v_nodes st) (v_datas st) x (v_dirs st) (v_lock st) (v_lastID st) (v_table st) (v_errno st) (v_heap st) (v_pages st).
Definition vs_dirs (st : vfs) (x : gmap Z ffs_file_data_t) : vfs :=
  Vfs (v_nodes st) (v_datas st) (v_files st) x (v_lock st) (v_lastID st) (v_table st) (v_errno st) (v_heap st) (v_pages st).
Definition vs_lock (st : vfs) (x : bool) : vfs :=
  Vfs (v_nodes st) (v_datas st) (v_files st) (v_dirs st) x (v_lastID st) (v_table st) (v_errno st) (v_heap st) (v_pages st).
Definition vs_lastID (st : vfs) (x : Z) : vfs :=
  Vfs (v_nodes st) (v_datas st) (v_files st) (v_dirs st) (v_lock st) x (v_table st) (v_errno st) (v_heap st) (v_pages st).
Definition vs_table (st : vfs) (x : gmap Z Z) : vfs :=
  Vfs (v_nodes st) (v_datas st) (v_files st) (v_dirs st) (v_lock st) (v_lastID st) x (v_errno st) (v_heap st) (v_pages st).
Definition vs_errno (st : vfs) (x : Z) : vfs :=
  Vfs (v_nodes st) (v_datas st) (v_files st) (v_dirs st) (v_lock st) (v_lastID st) (v_table st) x (v_heap st) (v_pages st).
Definition vs_heap (st : vfs) (x : H) : vfs :=
  Vfs (v_nodes st) (v_datas st) (v_files st) (v_dirs st) (v_lock st) (v_lastID st) (v_table st) (v_errno st) x (v_pages st).
Definition vs_pages (st : vfs) (x : P) : vfs :=
  Vfs (v_nodes st) (v_datas st) (v_files st) (v_dirs st) (v_lock st) (v_lastID st) (v_table st) (v_errno st) (v_heap st) x.

Definition node_at (st : vfs) (p : Z) : outcome vfs_node_t := of_option (v_nodes st !! p).
Definition put_node (st : vfs) (p : Z) (n : vfs_node_t) : vfs := vs_nodes st (<[p := n]> (v_nodes st)).
Definition update_node (st : vfs) (p : Z) (f : vfs_node_t -> vfs_node_t) : outcome vfs :=
  let* n := node_at st p in Ok (put_node st p (f n)).

(** The children of a node; only a directory has the field, and it may be null. *)
Definition childs_of (n : vfs_node_t) : outcome (gmap name Z) :=
  if bool_decide (n_type n = vfs_nodeTypeDirectory) && negb (n_table n =? NULL) then Ok (n_childs n) else Fault.

Definition vfs_alloc (st : vfs) (size : Z) : outcome (Z * vfs) :=
  let* (p, h) := halloc (v_heap st) size in Ok (p, vs_heap st h).
Definition vfs_hfree (st : vfs) (p : Z) : outcome vfs :=
  let* h := hfree (v_heap st) p in Ok (vs_heap st h).

(** [strcpy] into a buffer of [kVFSMaxFilenameLength] bytes *)
Definition fits_name (s : name) : outcome name :=
  if Z.of_nat (length s) <? kVFSMaxFilenameLength then Ok s else Fault.

(** ** Nodes (node.c) *)

Definition vfs_nodeLock (st : vfs) (p : Z) : outcome vfs :=
  let* n := node_at st p in if n_lock n then Hang else Ok (put_node st p (nd_lock n true)).
Definition vfs_nodeUnlock (st : vfs) (p : Z) : outcome vfs := update_node st p (fun n => nd_lock n false).
Definition vfs_nodeRetain (st : vfs) (p : Z) : outcome vfs :=
  update_node st p (fun n => nd_references n (u32 (n_references n + 1))).

(** [garbage p] is what fresh memory at [p] holds in the place of the lock. *)
Context (garbage : Z -> bool).

(** The type, the data and the fields of directories and links are set by the
    callers. *)
Definition vfs_nodeFresh (st : vfs) (now : Z) (s : name) (size : Z) : outcome (Z * vfs) :=
  if size <? sizeof_vfs_node then Panic else
  let* st := if v_lock st then Hang else Ok (vs_lock st true) in
  let* (p, st) := vfs_alloc st size in
  let* s := if p =? NULL then Fault else fits_name s in
  let n := VfsNode s vfs_nodeTypeFile (garbage p) 1 (u32 (v_lastID st)) 0 now now now NULL NULL ∅ NULL NULL in
  let st := put_node (vs_lastID st (u64 (v_lastID st + 1))) p n in
  Ok (p, vs_lock st false).

Definition vfs_nodeCreate (st : vfs) (now : Z) (s : name) (type : vfs_node_type_t) (data : Z) : outcome (Z * vfs) :=
  match type with
  | vfs_nodeTypeFile =>
      let* (p, st) := vfs_nodeFresh st now s sizeof_vfs_node in
      let* st := update_node st p (fun n => nd_type n type data NULL) in Ok (p, st)
  | vfs_nodeTypeDirectory =>
      let* (p, st) := vfs_nodeFresh st now s sizeof_vfs_directory in
      let* (childs, h) := hashset_create (v_heap st) 10 in
      let table := match childs with Some (address, _) => address | None => NULL end in
      let* st := update_node (vs_heap st h) p (fun n => nd_type (nd_table n table) type data NULL) in Ok (p, st)
  | vfs_nodeTypeLink => Panic
  end.

Definition vfs_linkCreate (st : vfs) (now : Z) (s : name) (target data : Z) : outcome (Z * vfs) :=
  let* (p, st) := vfs_nodeFresh st now s sizeof_vfs_link in
  let* st := update_node st p (fun n => nd_type n vfs_nodeTypeLink data target) in
  let* st := vfs_nodeRetain st target in
  Ok (p, st).

(** Each child loses its parent and a reference. *)
Fixpoint release_childs (release : vfs -> Z -> outcome vfs) (st : vfs) (l : list Z) : outcome vfs :=
  match l with
  | [] => Ok st
  | c :: l' =>
      let* st := update_node st c (fun n => nd_parent n NULL) in
      let* st := release st c in
      release_childs release st l'
  end.

(** The loop over a directory's children uses [node] for the child, so the
    pointer freed at the end is null and the directory itself stays.  As that
    stops the machine, what [hashset_destroy] frees before it is left out. *)
Definition vfs_nodeDelete (release : vfs -> Z -> outcome vfs) (st : vfs) (p : Z) : outcome vfs :=
  let* n := node_at st p in
  match n_type n with
  | vfs_nodeTypeDirectory =>
      let* childs := childs_of n in
      let* st := release_childs release st (snd <$> map_to_list childs) in
      vfs_hfree st NULL
  | vfs_nodeTypeLink =>
      let* st := release st (n_target n) in
      let* st := vfs_hfree st p in
      Ok (vs_nodes st (delete p (v_nodes st)))
  | vfs_nodeTypeFile =>
      let* st := vfs_hfree st p in
      Ok (vs_nodes st (delete p (v_nodes st)))
  end.

(** ** Instances (ffs.c)

    The table of nodes by their number, as a finite map: unlike the code's it
    keeps number 0, the root's, when it grows. *)

Definition ffs_insertNode (st : vfs) (p : Z) : outcome vfs :=
  let* n := node_at st p in Ok (vs_table st (set_object (v_table st) p (n_id n))).
Definition ffs_removeNode (st : vfs) (p : Z) : outcome vfs :=
  let* n := node_at st p in Ok (vs_table st (delete (n_id n) (v_table st))).
Definition ffs_lookupNode (st : vfs) (id : Z) : Z := object_for (v_table st) id.

(** ** Destruction *)

Definition ffs_destroyNode (release : vfs -> Z -> outcome vfs) (st : vfs) (p : Z) : outcome vfs :=
  let* n := node_at st p in
  let* st :=
    if bool_decide (n_type n = vfs_nodeTypeFile) && negb (n_data n =? NULL) then
      let* d := of_option (v_datas st !! n_data n) in
      let* (h, pg) := ffs_node_dataDestroy (v_heap st) (v_pages st) (n_data n) d in
      Ok (vs_datas (vs_pages (vs_heap st h) pg) (delete (n_data n) (v_datas st)))
    else Ok st in
  let* st := ffs_removeNode st p in
  vfs_nodeDelete release st p.

(** Releasing a node may destroy it and release others in turn; each level
    destroys a node, so the number of nodes is enough fuel. *)
Fixpoint release_fuel (fuel : nat) (st : vfs) (p : Z) : outcome vfs :=
  match fuel with
  | O => Hang
  | S f =>
      let* n := node_at st p in
      let r := u32 (n_references n - 1) in
      let st := put_node st p (nd_references n r) in
      if r =? 0 then ffs_destroyNode (release_fuel f) st p else Ok st
  end.

Definition vfs_nodeRelease (st : vfs) (p : Z) : outcome vfs := release_fuel (S (size (v_nodes st))) st p.

(** ** Directories (node.c) *)

Definition vfs_directoryAttachNode (st : vfs) (directory p : Z) : outcome (bool * vfs) :=
  let* n := node_at st p in
  if negb (n_parent n =? NULL) then Ok (false, st) else
  let* d := node_at st directory in
  let* childs := childs_of d in
  if negb (object_for childs (n_name n) =? NULL) then Ok (false, st) else
  let st := put_node st directory (nd_childs d (set_object childs p (n_name n))) in
  let* st := vfs_nodeRetain st p in
  let* st := update_node st p (fun n => nd_parent n directory) in
  Ok (true, st).

Definition vfs_directoryRemoveNode (st : vfs) (directory p : Z) : outcome (bool * vfs) :=
  let* n := node_at st p in
  if n_parent n =? directory then
    let* d := node_at st directory in
    let* childs := childs_of d in
    let st := put_node st directory (nd_childs d (delete (n_name n) childs)) in
    let* st := update_node st p (fun n => nd_parent n NULL) in
    let* st := vfs_nodeRelease st p in
    Ok (true, st)
  else Ok (false, st).

(** [access] is the instance's [accessNode], which a link passes itself to. *)
Definition vfs_nodeWithName (access : vfs -> Z -> name -> outcome (Z * vfs)) (st : vfs) (p : Z) (s : name) : outcome (Z * vfs) :=
  let* n := node_at st p in
  match n_type n with
  | vfs_nodeTypeDirectory => let* childs := childs_of n in Ok (object_for childs s, st)
  | vfs_nodeTypeLink => if n_target n =? NULL then Ok (NULL, vs_errno st ENOTDIR) else access st p s
  | vfs_nodeTypeFile => Ok (NULL, vs_errno st ENOTDIR)
  end.

(** [name], [type], [id], [size] and the times *)
Record vfs_stat_t := VfsStat {
  st_type : vfs_node_type_t; st_name : name; st_id : Z; st_size : Z; st_atime : Z; st_mtime : Z; st_ctime : Z
}.

Definition vfs_nodeStat (st : vfs) (p : Z) : outcome vfs_stat_t :=
  let* n := node_at st p in
  Ok (VfsStat (n_type n) (n_name n) (n_id n) 0 (n_atime n) (n_mtime n) (n_ctime n)).

(** ** Names in the in-memory file system (ffs_callbacks.c) *)

Definition ffs_attachNode (st : vfs) (parent p : Z) : outcome (bool * vfs) :=
  let* st := vfs_nodeLock st parent in
  let* d := node_at st parent in
  let* childs := childs_of d in
  let* n := node_at st p in
  if negb (object_for childs (n_name n) =? NULL) then
    let* st := vfs_nodeUnlock st parent in Ok (false, vs_errno st EEXIST)
  else
    let* (_, st) := vfs_directoryAttachNode st parent p in
    let* st := vfs_nodeUnlock st parent in
    Ok (true, st).

(** What the three functions that create a node do with it: attach it, or
    delete it again; a null parent leaves it alone. *)
Definition attach_new (st : vfs) (parent p : Z) : outcome (Z * vfs) :=
  let* (ok, st) := if parent =? NULL then Ok (true, st) else ffs_attachNode st parent p in
  if ok then let* st := ffs_insertNode st p in Ok (p, st)
  else let* st := vfs_nodeDelete vfs_nodeRelease st p in Ok (NULL, st).

Definition ffs_createFile (st : vfs) (now parent : Z) (s : name) : outcome (Z * vfs) :=
  let* (dp, d, h) := ffs_node_dataCreate (v_heap st) in
  let st := vs_datas (vs_heap st h) (<[dp := d]> (v_datas st)) in
  let* (p, st) := vfs_nodeCreate st now s vfs_nodeTypeFile dp in
  attach_new st parent p.

Definition ffs_createDirectory (st : vfs) (now parent : Z) (s : name) : outcome (Z * vfs) :=
  let* (p, st) := vfs_nodeCreate st now s vfs_nodeTypeDirectory NULL in
  attach_new st parent p.

Definition ffs_createLink (st : vfs) (now parent target : Z) (s : name) : outcome (Z * vfs) :=
  let* (p, st) := vfs_linkCreate st now s target NULL in
  attach_new st parent p.

(** A link hands the access on to itself and finds its own lock taken; fuel 2
    is where that shows. *)
Fixpoint access_fuel (fuel : nat) (st : vfs) (parent : Z) (s : name) : outcome (Z * vfs) :=
  match fuel with
  | O => Hang
  | S f =>
      let* st := vfs_nodeLock st parent in
      let* (p, st) := vfs_nodeWithName (access_fuel f) st parent s in
      let* st := vfs_nodeUnlock st parent in
      if p =? NULL then Ok (NULL, st) else
      let* n := node_at st p in
      Ok (if (bool_decide (n_type n = vfs_nodeTypeLink) : bool) then n_target n else p, st)
  end.

Definition ffs_accessNode (st : vfs) (parent : Z) (s : name) : outcome (Z * vfs) := access_fuel 2 st parent s.

Definition ffs_nodeRemove (st : vfs) (p : Z) : outcome (bool * vfs) :=
  let* n := node_at st p in
  let directory := n_parent n in
  let* st := vfs_nodeLock st directory in
  let* (result, st) := vfs_directoryRemoveNode st directory p in
  let* st := vfs_nodeUnlock st directory in
  Ok (result, st).

(** [name] is null when the node keeps its own. *)
Definition ffs_nodeMove (st : vfs) (p newParent : Z) (rename : option name) : outcome (bool * vfs) :=
  let* n := node_at st p in
  let directory := n_parent n in
  let* st := vfs_nodeRetain st p in
  let* st := vfs_nodeLock st directory in
  let s := default (n_name n) rename in
  let* d := node_at st newParent in
  let* childs := childs_of d in
  let current := object_for childs s in
  let* full :=
    if current =? NULL then Ok false else
    let* c := node_at st current in
    if bool_decide (n_type c = vfs_nodeTypeDirectory) then let* childs := childs_of c in Ok (0 <? Z.of_nat (size childs)) else Ok false in
  if (full : bool) then
    let* st := vfs_nodeUnlock (vs_errno st ENOTEMPTY) directory in
    let* st := vfs_nodeRelease st p in
    Ok (false, st)
  else
    let* (_, st) := if current =? NULL then Ok (false, st) else vfs_directoryRemoveNode st newParent current in
    let* (_, st) := vfs_directoryRemoveNode st directory p in
    let* st :=
      match rename with
      | Some s => let* s := fits_name s in update_node st p (fun n => nd_name n s)
      | None => Ok st
      end in
    let* (_, st) := vfs_directoryAttachNode st newParent p in
    let* st := vfs_nodeUnlock st directory in
    let* st := vfs_nodeRelease st p in
    Ok (true, st).

Definition ffs_nodeStat (st : vfs) (p : Z) : outcome vfs_stat_t :=
  let* s := vfs_nodeStat st p in
  let* n := node_at st p in
  match n_type n with
  | vfs_nodeTypeFile =>
      let* d := of_option (v_datas st !! n_data n) in
      Ok (VfsStat (st_type s) (st_name s) (st_id s) (d_size d) (st_atime s) (st_mtime s) (st_ctime s))
  | _ => Ok s
  end.
End Vfs.
