(* ===== verification/VfsPath.v ===== *)
(** * Paths and the calls on them (sys/vfs/path.c, sys/vfs/vfs.c)

    A path is the bytes of a C string; the pointer into it is the rest of the
    string, null or not.  [chdir] is the context's directory.  A process is
    given with its table of files; its lock is left out. *)

From S2P Require Import Prelude Pages HeapSpec Block FfsNode Vfs.

Definition slash : Z := 47.
Definition dotdot : name := [46; 46].

(** [vfs_path_t]; the name is not set before the first element is read. *)
Record vfs_path_t := VfsPath { pa_element : option name; pa_atEnd : bool; pa_name : option name; pa_node : Z }.

(** The loop of [vfs_pathPeekElement]. *)
Fixpoint skip_slashes (s : name) : name :=
  match s with
  | c :: s' => if c =? slash then skip_slashes s' else s
  | [] => []
  end.

(** [strpbrk(s, "/")]: the bytes in front of the first slash, and the rest from
    it on if there is one. *)
Fixpoint split_slash (s : name) : name * option name :=
  match s with
  | [] => ([], None)
  | c :: s' => if c =? slash then ([], Some s) else let '(a, r) := split_slash s' in (c :: a, r)
  end.

Section Path.
Context {H P : Type} `{KernelHeap H} `{PageSource P}.

Abbreviation vfs := (vfs_t H P).

Definition vfs_pathCreate (st : vfs) (chdir : Z) (path : name) : outcome (Z * vfs_path_t * vfs) :=
  let* (r, st) := vfs_alloc st sizeof_vfs_path in
  Ok (r, VfsPath (Some path) false None chdir, st).

Definition vfs_pathDestroy (st : vfs) (r : Z) : outcome vfs := vfs_hfree st r.

Definition vfs_pathPeekElement (pa : vfs_path_t) : outcome (bool * vfs_path_t) :=
  let* e := of_option (pa_element pa) in
  let e := skip_slashes e in
  Ok (bool_decide (e <> []), VfsPath (Some e) (pa_atEnd pa) (pa_name pa) (pa_node pa)).

Definition at_end (pa : vfs_path_t) : vfs_path_t := VfsPath (pa_element pa) true (pa_name pa) (pa_node pa).

Definition vfs_pathNextElement (st : vfs) (pa : vfs_path_t) : outcome (bool * vfs_path_t * vfs) :=
  if bool_decide (pa_element pa = None) || pa_atEnd pa then Ok (false, at_end pa, st) else
  let* (more, pa) := vfs_pathPeekElement pa in
  if negb more then Ok (false, at_end pa, st) else
  let* e := of_option (pa_element pa) in
  let '(first, rest) := split_slash e in
  if bool_decide (rest = None) && bool_decide (e = []) then Ok (false, VfsPath None true (pa_name pa) (pa_node pa), st) else
  let element := default [] rest in
  let* s := fits_name first in
  let* (p, st) :=
    if bool_decide (s = dotdot) then let* n := node_at st (pa_node pa) in Ok (n_parent n, st)
    else
      let* _ := node_at st (pa_node pa) in
      ffs_accessNode st (pa_node pa) s in
  let pa := VfsPath (Some element) (bool_decide (snd (split_slash element) = None)) (Some s) p in
  Ok (negb (p =? NULL), pa, st).

Definition vfs_pathIsAtEnd (pa : vfs_path_t) : outcome (bool * vfs_path_t) :=
  if pa_atEnd pa then Ok (true, pa) else
  let* (more, pa) := vfs_pathPeekElement pa in Ok (negb more, pa).

(** [while(vfs_pathNextElement(request, errno)) {}]; every round but the last
    takes a byte of the path. *)
Fixpoint resolve_loop (fuel : nat) (st : vfs) (pa : vfs_path_t) : outcome (vfs_path_t * vfs) :=
  match fuel with
  | O => Hang
  | S f =>
      let* (more, pa, st) := vfs_pathNextElement st pa in
      if (more : bool) then resolve_loop f st pa else Ok (pa, st)
  end.

Definition vfs_resolvePath (st : vfs) (chdir : Z) (path : name) : outcome (Z * vfs) :=
  let* (r, pa, st) := vfs_pathCreate st chdir path in
  let* _ := if r =? NULL then Fault else Ok tt in
  let* (pa, st) := resolve_loop (S (length path)) st pa in
  let* st := vfs_pathDestroy st r in
  Ok (pa_node pa, st).

(** The loop of [vfs_resolvePathToParent]: the node and the name it returns. *)
Fixpoint parent_loop (fuel : nat) (st : vfs) (pa : vfs_path_t) (node : Z) : outcome (Z * option name * vfs) :=
  match fuel with
  | O => Hang
  | S f =>
      let* (over, pa) := vfs_pathIsAtEnd pa in
      if over then
        let* parent := if node =? NULL then Ok NULL else let* n := node_at st node in Ok (n_parent n) in
        let* s := of_option (pa_name pa) in
        Ok (parent, Some s, st)
      else
        let node := pa_node pa in
        let* (result, pa, st) := vfs_pathNextElement st pa in
        if (result : bool) then parent_loop f st pa node else
        let* (over, pa) := vfs_pathIsAtEnd pa in
        if over then let* s := of_option (pa_name pa) in Ok (node, Some s, st) else Ok (NULL, None, vs_errno st ENOENT)
  end.

(** The node, and the name copied to the caller's buffer unless an element in
    front of the last is missing.  When the whole path exists, the node is the
    parent of the last element's parent. *)
Definition vfs_resolvePathToParent (st : vfs) (chdir : Z) (path : name) : outcome (Z * option name * vfs) :=
  let* (r, pa, st) := vfs_pathCreate st chdir path in
  let* _ := if r =? NULL then Fault else Ok tt in
  let* (p, s, st) := parent_loop (S (length path)) st pa NULL in
  let* st := vfs_pathDestroy st r in
  Ok (p, s, st).

(** ** The calls (vfs.c) *)

Context (garbage : Z -> bool).

Definition vfs_mkdir (st : vfs) (now chdir : Z) (path : name) : outcome (bool * vfs) :=
  let* (node, s, st) := vfs_resolvePathToParent st chdir path in
  if node =? NULL then Ok (false, vs_errno st ENOENT) else
  let* n := node_at st node in
  if bool_decide (n_type n <> vfs_nodeTypeDirectory) then Ok (false, vs_errno st EINVAL) else
  let* s := of_option s in
  let* (p, st) := ffs_createDirectory garbage st now node s in
  Ok (negb (p =? NULL), st).

Definition vfs_remove (st : vfs) (chdir : Z) (path : name) : outcome (bool * vfs) :=
  let* (node, st) := vfs_resolvePath st chdir path in
  if node =? NULL then Ok (false, st) else ffs_nodeRemove st node.

Definition vfs_move (st : vfs) (chdir : Z) (source destination : name) : outcome (bool * vfs) :=
  let* (node, st) := vfs_resolvePath st chdir source in
  if node =? NULL then Ok (false, st) else
  let* (target, st) := vfs_resolvePath st chdir destination in
  if target =? NULL then
    let* (target, s, st) := vfs_resolvePathToParent st chdir destination in
    if target =? NULL then Ok (false, st) else
    let* s := of_option s in
    ffs_nodeMove st node target (Some s)
  else ffs_nodeMove st node target None.

(** The result and what has arrived at [stat]: the call succeeds even if the
    copy into the context fails. *)
Definition vfs_stat (st : vfs) (c : context_t) (chdir : Z) (path : name) (stat : Z) : outcome (bool * option vfs_stat_t * vfs) :=
  let* (node, st) := vfs_resolvePath st chdir path in
  if node =? NULL then Ok (false, None, vs_errno st ENOENT) else
  let* s := ffs_nodeStat st node in
  let* place := if stat =? NULL then Ok (inr EINVAL) else buffer_at c stat sizeof_vfs_stat in
  Ok (true, match place with inl _ => Some s | inr _ => None end, st).
End Path.
