(* ===== verification/VfsCorrect.v ===== *)
(** * Paths resolve as walks through the tree

    The tree of nodes as an invariant of the file system's state, the elements
    of a path, and [vfs_resolvePath] as the walk along them. *)

From S2P Require Import Prelude Pages HeapSpec Block FfsNode Vfs VfsPath.

(** ** The elements of a path *)

(** The runs of bytes between slashes; [cur] is the run read so far, backwards. *)
Fixpoint runs (cur s : name) : list name :=
  match s with
  | [] => match cur with [] => [] | _ => [rev cur] end
  | c :: s' =>
      if c =? slash then match cur with [] => runs [] s' | _ => rev cur :: runs [] s' end
      else runs (c :: cur) s'
  end.

Definition path_elements (path : name) : list name := runs [] path.

Lemma runs_skip s : runs [] (skip_slashes s) = runs [] s.
Proof. induction s as [|c s IH]; cbn; [done |]. destruct (c =? slash) eqn:E; [done |]. cbn. by rewrite E. Qed.

Lemma skip_slashes_first s c s' : skip_slashes s = c :: s' -> c <> slash.
Proof.
  induction s as [|x s IH]; cbn; [done |]. destruct (Z.eqb_spec x slash); [done |]. by intros [= -> ->].
Qed.

Lemma runs_split s : forall cur, rev cur ++ fst (split_slash s) <> [] ->
  runs cur s = (rev cur ++ fst (split_slash s)) :: runs [] (default [] (snd (split_slash s))).
Proof.
  induction s as [|c s IH]; intros cur Hne; cbn in *.
  - rewrite app_nil_r in *. by destruct cur.
  - destruct (c =? slash) eqn:E; cbn in *.
    + rewrite E, app_nil_r in *. by destruct cur.
    + destruct (split_slash s) as [a r] eqn:Es. cbn in *.
      rewrite IH; cbn; [by rewrite <- app_assoc | by rewrite <- app_assoc].
Qed.

(** What is in front of the path's first slash, once slashes are skipped. *)
Lemma elements_cons s c s' :
  skip_slashes s = c :: s' ->
  path_elements s = fst (split_slash (c :: s')) :: path_elements (default [] (snd (split_slash (c :: s')))).
Proof.
  intros Hs. unfold path_elements. rewrite <- runs_skip, Hs. pose proof (skip_slashes_first _ _ _ Hs) as Hc.
  rewrite (runs_split (c :: s') []); [done |]. cbn. rewrite (proj2 (Z.eqb_neq _ _) Hc).
  by destruct (split_slash s').
Qed.

(** The rest of a split path starts with its slash. *)
Lemma split_rest s : forall a r, split_slash s = (a, Some r) -> snd (split_slash r) <> None.
Proof.
  induction s as [|c s IH]; intros a r; cbn; [done |]. destruct (Z.eqb_spec c slash) as [-> | Hc].
  - by intros [= <- <-].
  - destruct (split_slash s) as [a' r'] eqn:Es. intros [= <- ->]. by apply (IH a' r).
Qed.

Lemma elements_nil s : skip_slashes s = [] -> path_elements s = [].
Proof. intros Hs. unfold path_elements. by rewrite <- runs_skip, Hs. Qed.

Lemma length_runs s : forall cur, (length (runs cur s) <= length s + (if decide (cur = []) then 0 else 1))%nat.
Proof.
  induction s as [|c s IH]; intros cur; cbn.
  - destruct cur; [done |]. rewrite decide_False by done. done.
  - destruct (c =? slash).
    + specialize (IH []). rewrite decide_True in IH by done. destruct cur; [rewrite decide_True by done | rewrite decide_False by done; cbn]; lia.
    + specialize (IH (c :: cur)). rewrite decide_False in IH by done. lia.
Qed.

Lemma length_elements s : (length (path_elements s) <= length s)%nat.
Proof. pose proof (length_runs s []) as Hl. rewrite decide_True in Hl by done. unfold path_elements. lia. Qed.

(** ** Walks *)

Abbreviation nodes := (gmap Z vfs_node_t).

(** A child that is a link stands for its target. *)
Definition follow (m : nodes) (q : Z) : Z :=
  match m !! q with
  | Some n => if bool_decide (n_type n = vfs_nodeTypeLink) then n_target n else q
  | None => NULL
  end.

Definition step (m : nodes) (p : Z) (s : name) : Z :=
  match m !! p with
  | None => NULL
  | Some n =>
      if bool_decide (s = dotdot) then n_parent n
      else match n_type n with vfs_nodeTypeDirectory => follow m (object_for (n_childs n) s) | _ => NULL end
  end.

Fixpoint walk (m : nodes) (p : Z) (l : list name) : Z :=
  match l with
  | [] => p
  | s :: l' => let q := step m p s in if q =? NULL then NULL else walk m q l'
  end.

Lemma walk_app m l1 : forall p l2, p <> NULL ->
  walk m p (l1 ++ l2) = if walk m p l1 =? NULL then NULL else walk m (walk m p l1) l2.
Proof.
  induction l1 as [|s l1 IH]; intros p l2 Hp; cbn.
  - by rewrite (proj2 (Z.eqb_neq _ _) Hp).
  - destruct (Z.eqb_spec (step m p s) NULL); [done | by apply IH].
Qed.

(** ** The tree *)

Definition short (s : name) : Prop := Z.of_nat (length s) < kVFSMaxFilenameLength.

(** Children and parents agree, every directory has its table, links lead to
    something else, and no node is locked. *)
Record tree_wf (m : nodes) : Prop := {
  tw_null : m !! NULL = None;
  tw_unlocked p n : m !! p = Some n -> n_lock n = false;
  tw_table p n : m !! p = Some n -> n_type n = vfs_nodeTypeDirectory -> n_table n <> NULL;
  tw_name p n : m !! p = Some n -> short (n_name n);
  tw_child p n s c : m !! p = Some n -> n_type n = vfs_nodeTypeDirectory -> n_childs n !! s = Some c ->
    exists nc, m !! c = Some nc /\ n_parent nc = p /\ n_name nc = s;
  tw_parent p n : m !! p = Some n -> n_parent n <> NULL ->
    exists d, m !! n_parent n = Some d /\ n_type d = vfs_nodeTypeDirectory /\ n_childs d !! n_name n = Some p;
  tw_target p n : m !! p = Some n -> n_type n = vfs_nodeTypeLink ->
    exists t, m !! n_target n = Some t /\ n_type t <> vfs_nodeTypeLink;
  tw_references p n : m !! p = Some n -> (if n_parent n =? NULL then 1 else 2) <= n_references n < 2 ^ 31
}.

(** A node a walk can stand on. *)
Definition standing (m : nodes) (p : Z) : Prop := exists n, m !! p = Some n /\ n_type n <> vfs_nodeTypeLink.

Lemma standing_nonnull m p : tree_wf m -> standing m p -> p <> NULL.
Proof. intros Hw (n & Hn & _) ->. by rewrite (tw_null _ Hw) in Hn. Qed.

Lemma step_standing m p s : tree_wf m -> standing m p -> step m p s <> NULL -> standing m (step m p s).
Proof.
  intros Hw (n & Hn & _). unfold step. rewrite Hn. case_bool_decide.
  - intros Hp. destruct (tw_parent _ Hw _ _ Hn Hp) as (d & Hd & Ht & _). exists d. split; [done | by rewrite Ht].
  - destruct (n_type n); try done. unfold follow, object_for.
    destruct (n_childs n !! s) as [c |]; cbn; [| by rewrite (tw_null _ Hw)].
    destruct (m !! c) as [nc |] eqn:Hc; [| done]. case_bool_decide as Ht; intros _; [| by exists nc].
    by apply (tw_target _ Hw c nc).
Qed.

Lemma walk_standing m l : forall p, tree_wf m -> standing m p -> walk m p l <> NULL -> standing m (walk m p l).
Proof.
  induction l as [|s l IH]; intros p Hw Hp; cbn; [done |]. destruct (Z.eqb_spec (step m p s) NULL); [done |].
  intros Hne. apply IH; [done | by apply step_standing | done].
Qed.

(** ** Reading a path *)

Section Resolve.
Context {H P : Type} `{KernelHeap H} `{PageSource P}.

Abbreviation vfs := (vfs_t H P).

Lemma put_same (st : vfs) p n : v_nodes st !! p = Some n -> put_node st p n = st.
Proof. intros Hn. unfold put_node, vs_nodes. rewrite insert_id by done. by destruct st. Qed.

Lemma put_put (st : vfs) p n n' : put_node (put_node st p n) p n' = put_node st p n'.
Proof. unfold put_node, vs_nodes. cbn. by rewrite insert_insert_eq. Qed.

Lemma nd_lock_off n : n_lock n = false -> nd_lock (nd_lock n true) false = n.
Proof. destruct n; cbn. by intros ->. Qed.

Lemma errno_same (st : vfs) : vs_errno st (v_errno st) = st.
Proof. by destruct st. Qed.

Lemma childs_dir n : n_type n = vfs_nodeTypeDirectory -> n_table n <> NULL -> childs_of n = Ok (n_childs n).
Proof. intros Hd Ht. unfold childs_of. by rewrite bool_decide_true, (proj2 (Z.eqb_neq _ _) Ht). Qed.

(** Locking and unlocking around a step that leaves the nodes alone. *)
Lemma lock_ok (st : vfs) p n : v_nodes st !! p = Some n -> n_lock n = false ->
  vfs_nodeLock st p = Ok (put_node st p (nd_lock n true)).
Proof. intros Hn Hl. unfold vfs_nodeLock, node_at. rewrite Hn. cbn. by rewrite Hl. Qed.

Lemma unlock_ok (st : vfs) p n e : v_nodes st !! p = Some n -> n_lock n = false ->
  vfs_nodeUnlock (vs_errno (put_node st p (nd_lock n true)) e) p = Ok (vs_errno st e).
Proof.
  intros Hn Hl. unfold vfs_nodeUnlock, update_node, node_at. cbn. rewrite lookup_insert_eq. cbn.
  rewrite nd_lock_off by done. f_equal. destruct st; unfold put_node, vs_nodes, vs_errno; cbn in *.
  by rewrite insert_insert_eq, insert_id.
Qed.

(** A child is found with every node unlocked again. *)
Lemma access_spec (st : vfs) p s :
  tree_wf (v_nodes st) -> standing (v_nodes st) p -> s <> dotdot ->
  exists e, ffs_accessNode st p s = Ok (step (v_nodes st) p s, vs_errno st e).
Proof.
  intros Hw (n & Hn & Ht) Hs. pose proof (tw_unlocked _ Hw _ _ Hn) as Hl. unfold ffs_accessNode. cbn [access_fuel].
  rewrite (lock_ok st p n) by done. cbn [obind]. unfold vfs_nodeWithName, node_at. cbn [put_node v_nodes vs_nodes].
  rewrite lookup_insert_eq. cbn [of_option obind nd_lock n_type n_childs]. unfold step. rewrite Hn, bool_decide_false by done.
  destruct (n_type n) eqn:Et; [| | done]; cbn [obind].
  - exists ENOTDIR. rewrite (unlock_ok st p n) by done. done.
  - exists (v_errno st). rewrite <- (errno_same (put_node st p (nd_lock n true))).
    change (v_errno (put_node st p (nd_lock n true))) with (v_errno st).
    rewrite (childs_dir (nd_lock n true) Et (tw_table _ Hw p n Hn Et)). cbn [obind nd_lock n_childs]. rewrite (unlock_ok st p n) by done. cbn [obind].
    unfold follow, object_for. destruct (n_childs n !! s) as [c |] eqn:Hc; cbn [default from_option id].
    + destruct (tw_child _ Hw _ _ _ _ Hn Et Hc) as (nc & Hnc & _). rewrite Hnc.
      assert (Hc0 : c <> NULL) by (intros ->; by rewrite (tw_null _ Hw) in Hnc).
      rewrite (proj2 (Z.eqb_neq _ _) Hc0). cbn [v_nodes vs_errno]. rewrite Hnc. cbn [of_option obind]. done.
    + rewrite (tw_null _ Hw). done.
Qed.

(** The record has the elements [l] before it. *)
Definition ahead (pa : vfs_path_t) (l : list name) : Prop :=
  (pa_atEnd pa = true /\ l = []) \/
  (pa_atEnd pa = false /\ exists e, pa_element pa = Some e /\ path_elements e = l).

(** With none left the record stays where it is. *)
Lemma next_none (st : vfs) pa :
  ahead pa [] -> exists pa', vfs_pathNextElement st pa = Ok (false, pa', st) /\ pa_node pa' = pa_node pa.
Proof.
  intros [[He _] | (He & e & Ee & El)]; unfold vfs_pathNextElement; rewrite He.
  - rewrite orb_true_r. by eexists.
  - rewrite Ee, bool_decide_false by done. cbn [orb]. unfold vfs_pathPeekElement. rewrite Ee. cbn [of_option obind].
    destruct (skip_slashes e) as [|c s'] eqn:Es; [by eexists |].
    by rewrite (elements_cons _ _ _ Es) in El.
Qed.

Lemma first_short (s : name) : short s -> fits_name s = Ok s.
Proof. intros Hs. unfold fits_name. by rewrite (proj2 (Z.ltb_lt _ _) Hs). Qed.

Lemma next_some (st : vfs) pa s l :
  tree_wf (v_nodes st) -> standing (v_nodes st) (pa_node pa) -> short s -> ahead pa (s :: l) ->
  exists pa' e, vfs_pathNextElement st pa = Ok (negb (step (v_nodes st) (pa_node pa) s =? NULL), pa', vs_errno st e)
    /\ pa_node pa' = step (v_nodes st) (pa_node pa) s /\ pa_name pa' = Some s /\ ahead pa' l.
Proof.
  intros Hw Hp Hs [[_ ?] | (He & e & Ee & El)]; [done |]. unfold vfs_pathNextElement. rewrite He, Ee, bool_decide_false by done.
  cbn [orb]. unfold vfs_pathPeekElement. rewrite Ee. cbn [of_option obind].
  destruct (skip_slashes e) as [|c s'] eqn:Es; [by rewrite (elements_nil _ Es) in El |].
  rewrite (elements_cons _ _ _ Es) in El. destruct (split_slash (c :: s')) as [first rest] eqn:Ef. cbn [fst snd] in El.
  injection El as -> El. rewrite bool_decide_true by done. cbn [negb pa_element of_option obind]. rewrite Ef.
  rewrite (bool_decide_false (c :: s' = [])), andb_false_r by done. rewrite first_short by done. cbn [obind pa_node].
  set (pa' := fun q => VfsPath (Some (default [] rest)) (bool_decide (snd (split_slash (default [] rest)) = None)) (Some s) q).
  assert (Ha : forall q, ahead (pa' q) l).
  { intros q. subst pa'. unfold ahead. cbn. destruct rest as [r |]; cbn in *; [| left; done].
    right. split; [| by exists r]. apply bool_decide_eq_false. by apply (split_rest (c :: s') s). }
  destruct Hp as (n & Hn & Ht). unfold node_at. rewrite Hn. cbn [of_option obind].
  destruct (decide (s = dotdot)) as [-> | Hd].
  - rewrite (bool_decide_true (dotdot = dotdot)) by done. cbn [obind]. exists (pa' (n_parent n)), (v_errno st).
    rewrite errno_same. unfold step. rewrite Hn, (bool_decide_true (dotdot = dotdot)) by done. split_and!; [done.. | apply Ha].
  - rewrite (bool_decide_false (s = dotdot)) by done. destruct (access_spec st (pa_node pa) s Hw) as (er & ->); [by exists n | done |].
    cbn [obind]. exists (pa' (step (v_nodes st) (pa_node pa) s)), er. split_and!; [done.. | apply Ha].
Qed.

Lemma resolve_loop_spec l : forall fuel (st : vfs) pa,
  tree_wf (v_nodes st) -> standing (v_nodes st) (pa_node pa) -> Forall short l -> ahead pa l -> (length l < fuel)%nat ->
  exists pa' e, resolve_loop fuel st pa = Ok (pa', vs_errno st e) /\ pa_node pa' = walk (v_nodes st) (pa_node pa) l.
Proof.
  induction l as [|s l IH]; intros [|fuel] st pa Hw Hp Hl Ha Hf; try (cbn in Hf; lia); cbn [resolve_loop].
  - destruct (next_none st pa Ha) as (pa' & -> & Hn). cbn [obind]. exists pa', (v_errno st). by rewrite errno_same.
  - apply Forall_cons in Hl as [Hs Hl]. destruct (next_some st pa s l Hw Hp Hs Ha) as (pa' & e & -> & Hn & _ & Ha').
    cbn [obind walk]. destruct (Z.eqb_spec (step (v_nodes st) (pa_node pa) s) NULL) as [Hz | Hz]; cbn [negb].
    + exists pa', e. by rewrite Hn, Hz.
    + destruct (IH fuel (vs_errno st e) pa') as (pa2 & e2 & -> & Hn2); try done; [| cbn in Hf; lia |].
      { rewrite Hn. by apply step_standing. }
      exists pa2, e2. rewrite Hn2, Hn. done.
Qed.

Lemma is_at_end_spec pa l : ahead pa l ->
  exists pa', vfs_pathIsAtEnd pa = Ok (bool_decide (l = []), pa') /\ ahead pa' l
    /\ pa_node pa' = pa_node pa /\ pa_name pa' = pa_name pa.
Proof.
  intros [[He ->] | (He & e & Ee & <-)]; unfold vfs_pathIsAtEnd; rewrite He.
  - exists pa. split_and!; [done | by left | done | done].
  - unfold vfs_pathPeekElement. rewrite Ee. cbn [of_option obind].
    exists (VfsPath (Some (skip_slashes e)) (pa_atEnd pa) (pa_name pa) (pa_node pa)). split; [| split; [| done]].
    + do 2 f_equal. destruct (skip_slashes e) as [|c s'] eqn:Es.
      * by rewrite (elements_nil _ Es), bool_decide_false by (intros Hn; by apply Hn).
      * by rewrite (elements_cons _ _ _ Es), bool_decide_true by done.
    + right. split; [done |]. eexists. split; [done |]. unfold path_elements. apply runs_skip.
Qed.

(** Where [vfs_resolvePathToParent] ends for the elements [ds ++ [s]]. *)
Definition parent_result (m : nodes) (d : Z) (s : name) : Z * option name :=
  if d =? NULL then (NULL, None) else
  if step m d s =? NULL then (d, Some s) else (from_option n_parent NULL (m !! d), Some s).

Lemma parent_loop_spec s ds : forall fuel (st : vfs) pa node,
  tree_wf (v_nodes st) -> standing (v_nodes st) (pa_node pa) -> Forall short (ds ++ [s]) -> ahead pa (ds ++ [s]) ->
  (length (ds ++ [s]) < fuel)%nat ->
  exists e, parent_loop fuel st pa node =
    Ok (parent_result (v_nodes st) (walk (v_nodes st) (pa_node pa) ds) s, vs_errno st e).
Proof.
  induction ds as [|c ds IH]; intros [|fuel] st pa node Hw Hp Hl Ha Hf; try (cbn in Hf; lia); cbn [parent_loop];
    destruct (is_at_end_spec pa _ Ha) as (pa1 & -> & Ha1 & Hn1 & _); rewrite bool_decide_false by done; cbn [obind].
  - cbn [app] in Ha1, Hl. apply Forall_cons in Hl as [Hl _]. rewrite <- Hn1 in *.
    destruct (next_some st pa1 s [] Hw Hp Hl Ha1) as (pa2 & e & -> & Hn2 & Hname & Ha2). cbn [obind walk].
    unfold parent_result. rewrite (proj2 (Z.eqb_neq _ _) (standing_nonnull _ _ Hw Hp)).
    destruct (is_at_end_spec pa2 _ Ha2) as (pa3 & He & _ & _ & Hname3). rewrite bool_decide_true in He by done.
    destruct (Z.eqb_spec (step (v_nodes st) (pa_node pa1) s) NULL) as [Hz | Hz]; cbn [negb].
    + rewrite He. cbn [obind]. rewrite Hname3, Hname. by exists e.
    + destruct fuel as [|fuel]; [cbn in Hf; lia |]. cbn [parent_loop]. rewrite He. cbn [obind].
      rewrite (proj2 (Z.eqb_neq _ _) (standing_nonnull _ _ Hw Hp)). unfold node_at. cbn [v_nodes vs_errno].
      destruct Hp as (n & -> & _). cbn [of_option obind from_option]. rewrite Hname3, Hname. by exists e.
  - cbn [app] in Ha1, Hl. apply Forall_cons in Hl as [Hc Hl]. rewrite <- Hn1 in *.
    destruct (next_some st pa1 c _ Hw Hp Hc Ha1) as (pa2 & e & -> & Hn2 & Hname & Ha2). cbn [obind walk].
    destruct (Z.eqb_spec (step (v_nodes st) (pa_node pa1) c) NULL) as [Hz | Hz]; cbn [negb].
    + destruct (is_at_end_spec pa2 _ Ha2) as (pa3 & -> & _). rewrite bool_decide_false by (by destruct ds).
      cbn [obind]. by exists ENOENT.
    + destruct (IH fuel (vs_errno st e) pa2 (pa_node pa1)) as (e2 & ->); try done; [| cbn in *; lia |].
      { rewrite Hn2. by apply step_standing. }
      exists e2. by rewrite Hn2.
Qed.
End Resolve.
