(* ===== verification/VfsContract.v ===== *)
(** * Making directories

    What [vfs_mkdir] does to the tree: where the directory goes, that the path
    then leads to it and nothing else moves, and what happens when the name is
    taken. *)

From S2P Require Import Prelude Pages HeapSpec Block Iterator Array HashSet FfsNode Vfs VfsPath VfsCorrect CellHeap HeapContract.

(** The tree with the directory [p] named [s] added to [t]. *)
Definition new_directory (s : name) (ident now t table : Z) (lock : bool) : vfs_node_t :=
  VfsNode s vfs_nodeTypeDirectory lock 2 ident 0 now now now t NULL ∅ table NULL.

Definition add_directory (m : nodes) (t : Z) (n : vfs_node_t) (p : Z) (new : vfs_node_t) : nodes :=
  <[p := new]> (<[t := nd_childs n (<[n_name new := p]> (n_childs n))]> m).

Section Added.
Context (m : nodes) (t p : Z) (n : vfs_node_t) (s : name) (ident now table : Z) (lock : bool).
Context (Hw : tree_wf m) (Ht : m !! t = Some n) (Hdir : n_type n = vfs_nodeTypeDirectory).
Context (Hnew : n_childs n !! s = None) (Hp : m !! p = None) (Hp0 : p <> NULL) (Hs : short s).

Let new : vfs_node_t := new_directory s ident now t table lock.
Let m' : nodes := add_directory m t n p new.

Lemma added_ne : t <> p.
Proof using All. intros ->. congruence. Qed.

Lemma added_new : m' !! p = Some new.
Proof using All. unfold m', add_directory. by rewrite lookup_insert_eq. Qed.

Lemma added_dir : m' !! t = Some (nd_childs n (<[s := p]> (n_childs n))).
Proof using All. unfold m', add_directory. rewrite lookup_insert_ne by (apply not_eq_sym, added_ne). by rewrite lookup_insert_eq. Qed.

Lemma added_other q : q <> t -> q <> p -> m' !! q = m !! q.
Proof using All. intros. unfold m', add_directory. by rewrite !lookup_insert_ne by done. Qed.

(** Every node but the directory itself is as it was. *)
Lemma added_lookup q x : m' !! q = Some x ->
  (q = p /\ x = new) \/ (q = t /\ x = nd_childs n (<[s := p]> (n_childs n))) \/ (q <> t /\ q <> p /\ m !! q = Some x).
Proof using All.
  intros Hq. destruct (decide (q = p)) as [-> |]; [left; rewrite added_new in Hq; by injection Hq as <- |]. right.
  destruct (decide (q = t)) as [-> |]; [left; rewrite added_dir in Hq; by injection Hq as <- |]. right.
  by rewrite added_other in Hq.
Qed.

(** A node of the old tree is still there, with at most more children. *)
Lemma added_keeps q x : m !! q = Some x ->
  exists x', m' !! q = Some x' /\ n_type x' = n_type x /\ n_parent x' = n_parent x /\ n_name x' = n_name x
    /\ n_target x' = n_target x /\ n_lock x' = n_lock x /\ n_references x' = n_references x
    /\ forall s' c, n_childs x !! s' = Some c -> n_childs x' !! s' = Some c.
Proof using All.
  intros Hq. assert (q <> p) by congruence. destruct (decide (q = t)) as [-> | Hne].
  - rewrite Ht in Hq. injection Hq as <-. eexists. rewrite added_dir. split; [done |]. split_and!; try done.
    intros s' c Hc. cbn. by rewrite lookup_insert_ne by congruence.
  - exists x. rewrite added_other by done. split_and!; done.
Qed.

Lemma added_wf : table <> NULL -> lock = false -> tree_wf m'.
Proof using All.
  intros Htab Hlock. destruct Hw as [W0 W1 Wt W2 W3 W4 W5 W6].
  assert (Ht0 : t <> NULL) by congruence.
  split.
  - rewrite added_other; [done | congruence | done].
  - intros q x Hq. destruct (added_lookup q x Hq) as [[-> ->] | [[-> ->] | (_ & _ & Hx)]]; [done | by apply (W1 t n) | by apply (W1 q x)].
  - intros q x Hq. destruct (added_lookup q x Hq) as [[-> ->] | [[-> ->] | (_ & _ & Hx)]]; [done | by apply (Wt t n) | by apply (Wt q x)].
  - intros q x Hq. destruct (added_lookup q x Hq) as [[-> ->] | [[-> ->] | (_ & _ & Hx)]]; [done | by apply (W2 t n) | by apply (W2 q x)].
  - intros q x s' c Hq Hx Hc. destruct (added_lookup q x Hq) as [[-> ->] | [[-> ->] | (_ & _ & Hm)]]; [done | |].
    + cbn in Hc. apply lookup_insert_Some in Hc as [[<- <-] | [_ Hc]]; [exists new; by rewrite added_new |].
      destruct (W3 t n s' c Ht Hdir Hc) as (nc & Hnc & Hpar & Hnm).
      destruct (added_keeps c nc Hnc) as (x' & Hx' & _ & Hp' & Hn' & _). exists x'. by rewrite Hp', Hn'.
    + destruct (W3 q x s' c Hm Hx Hc) as (nc & Hnc & Hpar & Hnm).
      destruct (added_keeps c nc Hnc) as (x' & Hx' & _ & Hp' & Hn' & _). exists x'. by rewrite Hp', Hn'.
  - assert (Hold : forall q x, m !! q = Some x -> n_parent x <> NULL ->
      exists d, m' !! n_parent x = Some d /\ n_type d = vfs_nodeTypeDirectory /\ n_childs d !! n_name x = Some q).
    { intros q x Hq Hx. destruct (W4 q x Hq Hx) as (d & Hd & Hdt & Hdc).
      destruct (added_keeps _ _ Hd) as (d' & Hd' & Ht' & _ & _ & _ & _ & _ & Hc'). exists d'. rewrite Ht'. auto. }
    intros q x Hq Hx. destruct (added_lookup q x Hq) as [[-> ->] | [[-> ->] | (_ & _ & Hm)]].
    + cbn. eexists. rewrite added_dir. split; [done |]. split; [done |]. cbn. by rewrite lookup_insert_eq.
    + by apply (Hold t n).
    + by apply (Hold q x).
  - intros q x Hq Hx. destruct (added_lookup q x Hq) as [[-> ->] | [[-> ->] | (_ & _ & Hm)]]; [done | cbn in Hx; congruence |].
    destruct (W5 q x Hm Hx) as (y & Hy & Hyt). destruct (added_keeps _ _ Hy) as (y' & Hy' & Ht' & _).
    exists y'. by rewrite Ht'.
  - intros q x Hq. destruct (added_lookup q x Hq) as [[-> ->] | [[-> ->] | (_ & _ & Hm)]];
      [cbn; rewrite (proj2 (Z.eqb_neq _ _) Ht0); lia | by apply (W6 t n) | by apply (W6 q x)].
Qed.

Lemma added_step q s' : step m q s' <> NULL -> step m' q s' = step m q s'.
Proof using All.
  unfold step at 1 3. destruct (m !! q) as [x |] eqn:Hq; [| done].
  destruct (added_keeps q x Hq) as (x' & Hx' & Htx & Hpx & _ & _ & _ & _ & Hcx). unfold step. rewrite Hx', Htx, Hpx.
  case_bool_decide; [done |]. destruct (n_type x); [done | | done]. unfold object_for.
  destruct (n_childs x !! s') as [c |] eqn:Hc; cbn [default from_option id].
  - rewrite (Hcx _ _ Hc). cbn. unfold follow. destruct (m !! c) as [y |] eqn:Hy; [| done].
    destruct (added_keeps c y Hy) as (y' & -> & -> & _ & _ & -> & _). done.
  - unfold follow. by rewrite (tw_null _ Hw).
Qed.

Lemma added_walk l : forall q, walk m q l <> NULL -> walk m' q l = walk m q l.
Proof using All.
  induction l as [|s' l IH]; intros q; cbn; [done |]. destruct (Z.eqb_spec (step m q s') NULL) as [| Hz]; [done |].
  intros Hl. rewrite added_step by done. rewrite (proj2 (Z.eqb_neq _ _) Hz). by apply IH.
Qed.

(** The new name leads to the new directory. *)
Lemma added_found : s <> dotdot -> step m' t s = p.
Proof using All.
  intros Hd. unfold step. rewrite added_dir, bool_decide_false by done. cbn [nd_childs n_type n_childs]. rewrite Hdir.
  unfold object_for. rewrite lookup_insert_eq. cbn. unfold follow. by rewrite added_new.
Qed.
End Added.

(** ** Creating a directory in a given one *)

Section Mkdir.
Context {H P : Type} `{KernelHeapOk H} `{PageSource P}.
Context (garbage : Z -> bool).

Abbreviation vfs := (vfs_t H P).

(** A state of the file system: a tree whose nodes the heap holds, and the
    instance unlocked. *)
Definition vfs_wf (st : vfs) : Prop :=
  tree_wf (v_nodes st) /\ heap_ok (v_heap st) /\ v_lock st = false
  /\ forall p n, v_nodes st !! p = Some n -> exists k, live (v_heap st) p k.

(** There is memory for a directory and its table. *)
Definition has_room (h : H) : Prop :=
  exists p h1 table set h2, halloc h sizeof_vfs_directory = Ok (p, h1) /\ p <> NULL /\ hashset_create h1 10 = Ok (Some (table, set), h2).

(** There is memory for the path's record and, once that is freed again, for a
    directory. *)
Definition has_memory (h : H) : Prop :=
  exists r h1 h2, halloc h sizeof_vfs_path = Ok (r, h1) /\ r <> NULL /\ hfree h1 r = Ok h2 /\ has_room h2.

Lemma room_grown h size p h' : heap_ok h -> 0 < size <= 512 -> halloc h size = Ok (p, h') -> p <> NULL ->
  exists k, grown h p k h'.
Proof.
  intros Hok Hsz Ha Hp. assert (Hmax : 0 <= size <= max_request) by (unfold max_request; lia).
  destruct (halloc_ok h size p h' Hok Hmax Ha) as [Hok' [[? _] | (_ & Hn & k & _ & Hl)]]; [done |].
  exists k. split_and!; done.
Qed.

(** The memory of a new table is apart from what was in use. *)
Lemma table_grown h table set h' : heap_ok h -> hashset_create h 10 = Ok (Some (table, set), h') ->
  table <> NULL /\ heap_ok h' /\ forall q k, live h q k -> live h' q k.
Proof.
  intros Hok He. unfold hashset_create in He. destruct (halloc h sizeof_hashset) as [[a h1] | | |] eqn:Ea; try done. cbn [obind] in He.
  destruct (Z.eqb_spec a NULL) as [| Ha]; [done |]. change (table_size (pick_capacity 41 1 10)) with 20 in He.
  destruct (room_grown h sizeof_hashset a h1 Hok) as (k1 & Hok1 & _ & Hl1); [done.. |].
  destruct (halloc h1 20) as [[b h2] | | |] eqn:Eb; try done. cbn [obind] in He.
  destruct (Z.eqb_spec b NULL) as [| Hb]; [by destruct (hfree h2 a) |]. injection He as <- _ <-.
  destruct (room_grown h1 20 b h2 Hok1) as (k2 & Hok2 & _ & Hl2); [done.. |].
  split; [done |]. split; [done |]. intros q k Hq. apply Hl2. left. apply Hl1. by left.
Qed.

Lemma at_ok (st : vfs) p n : v_nodes st !! p = Some n -> node_at st p = Ok n.
Proof. intros Hn. unfold node_at. by rewrite Hn. Qed.

Lemma at_put (st : vfs) p n : node_at (put_node st p n) p = Ok n.
Proof. unfold node_at. cbn. by rewrite lookup_insert_eq. Qed.

Lemma at_put_ne (st : vfs) p q n : p <> q -> node_at (put_node st q n) p = node_at st p.
Proof. intros Hne. unfold node_at. cbn. by rewrite lookup_insert_ne. Qed.

Ltac at_simpl := repeat (match goal with
  | |- context [node_at (put_node ?s ?p ?n) ?p] => rewrite (at_put s p n)
  | |- context [node_at (put_node ?s ?q ?n) ?p] => rewrite (at_put_ne s p q n) by done
  end; cbn [obind]).

(** What attaching does to the states of the directory [t] and the node [p]. *)
Lemma attach_spec (st : vfs) t n p x :
  v_nodes st !! t = Some n -> t <> NULL -> n_type n = vfs_nodeTypeDirectory -> n_table n <> NULL -> n_lock n = false ->
  v_nodes st !! p = Some x -> n_parent x = NULL -> n_references x = 1 -> t <> p -> n_childs n !! n_name x = None ->
  attach_new st t p = Ok (p,
    vs_table (vs_nodes st (<[p := nd_parent (nd_references x 2) t]> (<[t := nd_childs n (<[n_name x := p]> (n_childs n))]> (v_nodes st))))
      (set_object (v_table st) p (n_id x))).
Proof.
  intros Ht Ht0 Hdir Htab Hl Hx Hpar Href Hne Hnew. pose proof (not_eq_sym Hne) as Hne'. unfold attach_new, ffs_attachNode.
  rewrite (proj2 (Z.eqb_neq t NULL)) by done. rewrite (lock_ok st t n) by done. cbn [obind].
  pose proof (at_ok st p x Hx) as Hax. at_simpl. rewrite Hax. cbn [obind]. rewrite childs_dir by done. cbn [obind nd_lock n_childs].
  unfold object_for. rewrite Hnew. change (negb (default NULL None =? NULL)) with false. cbn match.
  unfold vfs_directoryAttachNode. at_simpl. rewrite Hax. cbn [obind]. at_simpl. rewrite Hpar, childs_dir by done.
  change (negb (NULL =? NULL)) with false. cbn [obind nd_lock n_childs]. unfold object_for, set_object. rewrite Hnew. change (negb (default NULL None =? NULL)) with false. cbn match.
  unfold vfs_nodeRetain, vfs_nodeUnlock, update_node, ffs_insertNode. at_simpl. rewrite Hax. cbn [obind]. at_simpl.
  rewrite Href. unfold vs_table, put_node, vs_nodes, set_object. cbn. do 3 f_equal.
  apply map_eq. intros i. destruct (decide (i = p)) as [-> |]; [| destruct (decide (i = t)) as [-> |]]; simplify_map_eq; try done.
  destruct n; cbn in *. by subst.
Qed.

(** A node before it is attached. *)
Definition loose_directory (s : name) (ident now table : Z) (lock : bool) : vfs_node_t :=
  VfsNode s vfs_nodeTypeDirectory lock 1 ident 0 now now now NULL NULL ∅ table NULL.

(** The heap [h'] after an allocation of [p]; it may hold more besides. *)
Definition extended (h : H) (p : Z) (h' : H) : Prop :=
  heap_ok h' /\ (forall q k, live h q k -> live h' q k) /\ exists k, live h' p k.

Lemma create_loose (st : vfs) now s :
  vfs_wf st -> has_room (v_heap st) -> short s ->
  exists p table h, vfs_nodeCreate garbage st now s vfs_nodeTypeDirectory NULL =
      Ok (p, put_node (vs_lastID (vs_heap st h) (u64 (v_lastID st + 1))) p (loose_directory s (u32 (v_lastID st)) now table (garbage p)))
    /\ p <> NULL /\ table <> NULL /\ v_nodes st !! p = None /\ extended (v_heap st) p h.
Proof using All.
  intros (Hw & Hok & Hlock & Hlive) (p & h1 & table & set & h & Ha & Hp & Hc) Hs.
  destruct (room_grown _ sizeof_vfs_directory p h1 Hok) as (k & Hok1 & Hno & Hl1); [done.. |].
  destruct (table_grown h1 table set h Hok1 Hc) as (Htab & Hok2 & Hl2).
  exists p, table, h. unfold vfs_nodeCreate, vfs_nodeFresh. cbn [Z.ltb]. change (sizeof_vfs_directory <? sizeof_vfs_node) with false.
  cbn match. rewrite Hlock. cbn [obind]. unfold vfs_alloc. cbn [v_heap vs_lock]. rewrite Ha. cbn [obind].
  rewrite (proj2 (Z.eqb_neq _ _) Hp), first_short by done. cbn [obind v_heap vs_lock put_node vs_nodes vs_lastID vs_heap]. rewrite Hc. cbn [obind].
  split_and!; try done.
  - unfold update_node, node_at. cbn. rewrite lookup_insert_eq. cbn. unfold put_node, vs_nodes, vs_lastID, vs_heap. cbn.
    by rewrite insert_insert_eq, Hlock.
  - destruct (v_nodes st !! p) as [n |] eqn:Hn; [| done]. destruct (Hlive p n Hn) as [j Hj]. by destruct (Hno j).
  - split; [done |]. split; [intros q j Hq; apply Hl2, Hl1; by left |]. exists k. apply Hl2, Hl1. by right.
Qed.

Lemma create_new (st : vfs) now t n s :
  vfs_wf st -> has_room (v_heap st) -> short s ->
  v_nodes st !! t = Some n -> n_type n = vfs_nodeTypeDirectory -> n_childs n !! s = None ->
  exists p table st', ffs_createDirectory garbage st now t s = Ok (p, st') /\ p <> NULL /\ v_nodes st !! p = None
    /\ v_nodes st' = add_directory (v_nodes st) t n p (new_directory s (u32 (v_lastID st)) now t table (garbage p))
    /\ vfs_wf (put_node st' p (new_directory s (u32 (v_lastID st)) now t table false)).
Proof using All.
  intros Hwf Hm Hs Ht Hdir Hnew. destruct (create_loose st now s Hwf Hm Hs) as (p & table & h & He & Hp & Htab & Hfresh & Hok' & Hl & k & Hk).
  destruct Hwf as (Hw & Hok & Hlock & Hlive). assert (Hne : t <> p) by congruence.
  assert (Ht0 : t <> NULL) by (intros ->; by rewrite (tw_null _ Hw) in Ht).
  unfold ffs_createDirectory. rewrite He. cbn [obind].
  set (x := loose_directory s (u32 (v_lastID st)) now table (garbage p)). set (st1 := put_node _ p x).
  rewrite (attach_spec st1 t n p x); try done; [| | by apply (tw_table _ Hw t) | by apply (tw_unlocked _ Hw t) |].
  2:{ subst st1. cbn. by rewrite lookup_insert_ne by done. }
  2:{ subst st1. cbn. by rewrite lookup_insert_eq. }
  assert (Hadd : v_nodes (vs_nodes st1 (<[p := nd_parent (nd_references x 2) t]> (<[t := nd_childs n (<[n_name x := p]> (n_childs n))]> (v_nodes st1))))
    = add_directory (v_nodes st) t n p (new_directory s (u32 (v_lastID st)) now t table (garbage p))).
  { cbn. unfold add_directory. rewrite (insert_insert_ne _ t p), insert_insert_eq by done. done. }
  eexists p, table, _. split; [done |]. split; [done |]. split; [done |]. split; [exact Hadd |].
  set (new := new_directory _ _ _ _ _ false). set (st2 := vs_table _ _).
  assert (Hput : v_nodes (put_node st2 p new) = add_directory (v_nodes st) t n p new).
  { transitivity (<[p := new]> (v_nodes st2)); [done |]. etransitivity; [apply (f_equal (insert p new)), Hadd |].
    unfold add_directory. by rewrite insert_insert_eq. }
  split; [| split; [| split]]; [rewrite Hput; by apply added_wf | done | done |].
  intros q y Hq. rewrite Hput in Hq.
  destruct (added_lookup _ _ _ _ _ _ _ _ _ Hw Ht Hdir Hnew Hfresh Hp Hs q y Hq) as [[-> _] | [[-> _] | (_ & _ & Hy)]]; [by exists k | |].
  + destruct (Hlive t n Ht) as [j Hj]. exists j. by apply Hl.
  + destruct (Hlive q y Hy) as [j Hj]. exists j. by apply Hl.
Qed.

(** What the uninitialised lock makes of the new directory. *)
Lemma lock_outcome (st : vfs) p m new :
  v_nodes st = <[p := new]> m -> vfs_wf (put_node st p (nd_lock new false)) ->
  if n_lock new then vfs_nodeLock st p = Hang else vfs_wf st.
Proof.
  intros Hm Hwf. destruct (n_lock new) eqn:El.
  - unfold vfs_nodeLock, node_at. rewrite Hm, lookup_insert_eq. cbn. by rewrite El.
  - replace st with (put_node st p (nd_lock new false)); [done |]. apply put_same. rewrite Hm, lookup_insert_eq.
    destruct new; cbn in *. by subst.
Qed.

(** Freeing the null pointer stops the machine. *)
Lemma free_null (st : vfs) : heap_ok (v_heap st) -> vfs_hfree st NULL = Panic.
Proof.
  intros Hok. unfold vfs_hfree. rewrite hfree_unknown; [done | done |].
  intros n Hl. destruct (live_sane _ _ _ Hok Hl). unfold NULL in *. lia.
Qed.

(** The name is taken: the new directory is deleted again, which panics. *)
Lemma create_taken (st : vfs) now t n s c :
  vfs_wf st -> has_room (v_heap st) -> short s ->
  v_nodes st !! t = Some n -> n_type n = vfs_nodeTypeDirectory -> n_childs n !! s = Some c ->
  ffs_createDirectory garbage st now t s = Panic.
Proof using All.
  intros Hwf Hm Hs Ht Hdir Hc. destruct (create_loose st now s Hwf Hm Hs) as (p & table & h & He & Hp & Htab & Hfresh & Hok' & Hl & k & Hk).
  destruct Hwf as (Hw & Hok & Hlock & Hlive). pose proof (tw_table _ Hw t n Ht Hdir). assert (Hne : t <> p) by congruence. pose proof (not_eq_sym Hne) as Hne'.
  assert (Ht0 : t <> NULL) by (intros ->; by rewrite (tw_null _ Hw) in Ht).
  assert (Hc0 : c <> NULL).
  { intros ->. destruct (tw_child _ Hw _ _ _ _ Ht Hdir Hc) as (nc & Hnc & _). by rewrite (tw_null _ Hw) in Hnc. }
  unfold ffs_createDirectory. rewrite He. cbn [obind]. set (x := loose_directory _ _ _ _ _). set (st0 := vs_lastID _ _).
  assert (Ht1 : v_nodes (put_node st0 p x) !! t = Some n) by (cbn; by rewrite lookup_insert_ne).
  unfold attach_new, ffs_attachNode. rewrite (proj2 (Z.eqb_neq t NULL)) by done.
  rewrite (lock_ok _ t n Ht1) by (by apply (tw_unlocked _ Hw t)). cbn [obind]. at_simpl.
  rewrite childs_dir by done. cbn [obind nd_lock n_childs n_name x loose_directory]. unfold object_for. rewrite Hc.
  cbn [default from_option id]. rewrite (proj2 (Z.eqb_neq c NULL)) by done. cbn [negb].
  unfold vfs_nodeUnlock, update_node. at_simpl. unfold vfs_nodeDelete.
  set (st2 := vs_errno _ _). assert (Hx : node_at st2 p = Ok x).
  { apply at_ok. subst st2. cbn. rewrite !lookup_insert_ne, lookup_insert_eq by done. done. }
  rewrite Hx. cbn [obind]. change (n_type x) with vfs_nodeTypeDirectory. cbn match. rewrite (childs_dir x) by done. cbn [obind x loose_directory n_childs].
  rewrite map_to_list_empty. cbn. by rewrite (free_null st2).
Qed.

(** ** From the path to the directory *)

Lemma walk_or_null m l q : tree_wf m -> standing m q -> walk m q l = NULL \/ standing m (walk m q l).
Proof. intros Hw Hq. destruct (decide (walk m q l = NULL)); [by left | right; by apply walk_standing]. Qed.

(** The node that [vfs_resolvePathToParent] gives is null or in the tree. *)
Lemma parent_known m d s t o :
  tree_wf m -> d = NULL \/ standing m d -> parent_result m d s = (t, o) -> m !! t = None -> t = NULL.
Proof.
  intros Hw Hd Hr Ht. unfold parent_result in Hr. destruct (Z.eqb_spec d NULL) as [| Hd0]; [by injection Hr |].
  destruct Hd as [| (n & Hn & _)]; [done |]. destruct (step m d s =? NULL); injection Hr as <- _; [congruence |].
  rewrite Hn in *. cbn in *. destruct (decide (n_parent n = NULL)) as [| Hp]; [done |].
  destruct (tw_parent _ Hw _ _ Hn Hp) as (x & Hx & _). congruence.
Qed.

Lemma parent_name m d s t o : parent_result m d s = (t, o) -> t <> NULL -> o = Some s.
Proof.
  unfold parent_result. destruct (d =? NULL); [by intros [= <- <-] |]. by destruct (step m d s =? NULL); intros [= <- <-].
Qed.

(** The heap after a path record has come and gone. *)
Lemma record_freed h p k h1 h2 :
  grown h p k h1 -> hfree h1 p = Ok h2 -> heap_ok h2 /\ forall q j, live h2 q j <-> live h q j.
Proof.
  intros (Hok1 & Hno & Hl) He. destruct (hfree_ok h1 p k Hok1) as (h2' & He' & Hok2 & Hl2); [apply Hl; by right |].
  rewrite He in He'. injection He' as <-. split; [done |]. intros q j. rewrite Hl2, Hl. split.
  - intros [[Hq | [-> _]] Hne]; [done | done].
  - intros Hq. split; [by left |]. intros ->. by destruct (Hno j).
Qed.

(** [st'] is [st] with another heap that holds the same, and another [errno]. *)
Definition only_heap (st st' : vfs) : Prop :=
  exists h e, st' = vs_errno (vs_heap st h) e /\ heap_ok h /\ forall q k, live h q k <-> live (v_heap st) q k.

Lemma only_heap_wf (st st' : vfs) : only_heap st st' -> vfs_wf st -> vfs_wf st' /\ v_nodes st' = v_nodes st /\ v_lastID st' = v_lastID st.
Proof.
  intros (h & e & -> & Hok & Hl) (Hw & _ & Hlock & Hlive). cbn. split; [| done].
  split; [done |]. split; [done |]. split; [done |]. intros p n Hn. destruct (Hlive p n Hn) as [k Hk]. exists k. by apply Hl.
Qed.

Lemma to_parent_spec (st : vfs) chdir path ds s :
  vfs_wf st -> has_memory (v_heap st) -> standing (v_nodes st) chdir ->
  path_elements path = ds ++ [s] -> Forall short (ds ++ [s]) ->
  exists st', vfs_resolvePathToParent st chdir path = Ok (parent_result (v_nodes st) (walk (v_nodes st) chdir ds) s, st')
    /\ only_heap st st' /\ has_room (v_heap st').
Proof.
  intros (Hw & Hok & _ & Hlive) (p & h & h2 & Ha & Hp & Hf & Hroom) Hc Hel Hsh.
  destruct (room_grown _ sizeof_vfs_path p h Hok) as (k & Hg); [done.. |].
  destruct (record_freed _ _ _ _ _ Hg Hf) as [Hok2 Hl2].
  unfold vfs_resolvePathToParent, vfs_pathCreate, vfs_alloc. rewrite Ha. cbn [obind]. rewrite (proj2 (Z.eqb_neq _ _) Hp). cbn [obind].
  destruct (parent_loop_spec s ds (S (length path)) (vs_heap st h) (VfsPath (Some path) false None chdir) NULL) as (e & ->); try done.
  { right. split; [done |]. by exists path. }
  { rewrite <- Hel. pose proof (length_elements path). lia. }
  cbn [obind v_nodes vs_heap pa_node]. destruct (parent_result _ _ _) as [q o]. cbn [obind].
  unfold vfs_pathDestroy, vfs_hfree. cbn [v_heap vs_errno vs_heap]. rewrite Hf. cbn [obind].
  eexists. split; [done |]. split; [by exists h2, e | done].
Qed.

(** C40: what [vfs_mkdir] does for a path of the elements [ds ++ [s]], in a
    well-formed tree with memory to spare.  The path has an element, each is
    shorter than the 256 bytes of the name buffer, which a longer one overruns,
    and the last is not [..].  Let [d] be where [ds] leads from the
    current directory and [t] the node the code settles on: nothing if [d] is
    nothing, [d] if it has no [s] yet, else the parent of [d].  Without [t] the
    call fails with [ENOENT], and if [t] is no directory with [EINVAL]; the tree
    stays as it is.  If [t] has no [s], a new empty directory named [s] is
    attached to [t], every walk leads where it did, [s] leads from [t] to the new
    directory, and for a new name so does the whole path.  The tree stays
    well-formed up to the lock of the new directory, which nothing initialises:
    if the heap's memory held 0 there the state is well-formed, and if not,
    locking the directory hangs.  If [t] already has an [s], the machine stops. *)
Theorem vfs_mkdir_outcome (st : vfs) now chdir path ds s :
  vfs_wf st -> has_memory (v_heap st) -> standing (v_nodes st) chdir ->
  path_elements path = ds ++ [s] -> Forall short (ds ++ [s]) -> s <> dotdot ->
  let m := v_nodes st in
  let d := walk m chdir ds in
  let t := fst (parent_result m d s) in
  match m !! t with
  | None => t = NULL /\ exists st', vfs_mkdir garbage st now chdir path = Ok (false, st') /\ v_nodes st' = m /\ v_errno st' = ENOENT
  | Some n =>
      if bool_decide (n_type n = vfs_nodeTypeDirectory) then
        match n_childs n !! s with
        | None => exists p table st', vfs_mkdir garbage st now chdir path = Ok (true, st') /\ m !! p = None
            /\ v_nodes st' = add_directory m t n p (new_directory s (u32 (v_lastID st)) now t table (garbage p))
            /\ vfs_wf (put_node st' p (new_directory s (u32 (v_lastID st)) now t table false))
            /\ (if garbage p then vfs_nodeLock st' p = Hang else vfs_wf st')
            /\ (forall q l, walk m q l <> NULL -> walk (v_nodes st') q l = walk m q l)
            /\ step (v_nodes st') t s = p /\ (t = d -> walk (v_nodes st') chdir (ds ++ [s]) = p)
        | Some _ => vfs_mkdir garbage st now chdir path = Panic
        end
      else exists st', vfs_mkdir garbage st now chdir path = Ok (false, st') /\ v_nodes st' = m /\ v_errno st' = EINVAL
  end.
Proof using All.
  intros Hwf Hm Hc Hel Hsh Hd m d t. pose proof Hwf as (Hw & _ & _).
  destruct (to_parent_spec st chdir path ds s Hwf Hm Hc Hel Hsh) as (st1 & Hpar & Hsame & Hm1).
  destruct (only_heap_wf st st1 Hsame Hwf) as (Hwf1 & Hn1 & Hid). fold m in Hw, Hpar, Hn1. fold d in Hpar.
  assert (Hs : short s) by (by apply Forall_app in Hsh as [_ Hsh]; apply Forall_cons in Hsh as [? _]).
  unfold vfs_mkdir. rewrite Hpar. destruct (parent_result m d s) as [t' o] eqn:Epr. subst t. cbn [fst obind].
  destruct (m !! t') as [n |] eqn:Ht.
  2:{ assert (Ht' : t' = NULL) by (by apply (parent_known m d s t' o Hw); [by apply walk_or_null | done..]).
      rewrite Ht'. split; [done |]. cbn. by eexists. }
  assert (Ht0 : t' <> NULL) by (intros ->; by rewrite (tw_null _ Hw) in Ht).
  assert (Ho : o = Some s) by (by apply (parent_name m d s t' o)).
  rewrite (proj2 (Z.eqb_neq _ _) Ht0). rewrite (at_ok st1 t' n) by (by rewrite Hn1). cbn [obind].
  case_bool_decide as Hdir.
  2:{ rewrite bool_decide_true by done. by eexists. }
  rewrite bool_decide_false by (intros Hno; by apply Hno). subst o. cbn [of_option obind].
  rewrite <- Hn1 in Ht. destruct (n_childs n !! s) as [c |] eqn:Hch.
  - by rewrite (create_taken st1 now t' n s c).
  - destruct (create_new st1 now t' n s Hwf1 Hm1 Hs Ht Hdir Hch) as (p & table & st2 & -> & Hp & Hfresh & Hadd & Hwf2).
    cbn [obind]. rewrite (proj2 (Z.eqb_neq _ _) Hp). rewrite Hn1, Hid in *. exists p, table, st2.
    pose proof (lock_outcome st2 p _ _ Hadd Hwf2) as Hlast. rewrite Hadd. set (new := new_directory _ _ _ _ _ _).
    assert (Hstep : step (add_directory m t' n p new) t' s = p) by (by apply added_found).
    assert (Hwalk : forall q l, walk m q l <> NULL -> walk (add_directory m t' n p new) q l = walk m q l).
    { intros q l. by apply added_walk. }
    split_and!; try done. intros ->. rewrite walk_app by (by apply (standing_nonnull m)).
    rewrite Hwalk by done. fold d. rewrite (proj2 (Z.eqb_neq _ _) Ht0). cbn [walk]. by rewrite Hstep, (proj2 (Z.eqb_neq _ _) Hp).
Qed.
End Mkdir.

(** ** A file system with nothing but its root *)

Definition demo_root : vfs_node_t := VfsNode [] vfs_nodeTypeDirectory false 1 0 0 7 7 7 NULL NULL ∅ (2 * slot_size) NULL.
Definition demo_vfs : vfs_t cell_heap cells_source :=
  Vfs {[ slot_size := demo_root ]} ∅ ∅ ∅ false 1 {[ 0 := slot_size ]} 0 (CellHeap {[ 1 := sizeof_vfs_directory; 2 := sizeof_hashset; 3 := 20 ]}) ∅.

Lemma demo_tree : tree_wf (v_nodes demo_vfs).
Proof.
  assert (Hone : forall p n, v_nodes demo_vfs !! p = Some n -> p = slot_size /\ n = demo_root).
  { intros p n Hp. cbn in Hp. by apply lookup_singleton_Some in Hp as [<- <-]. }
  split; [by vm_compute | ..]; intros p n.
  - by intros [-> ->]%Hone.
  - by intros [-> ->]%Hone.
  - by intros [-> ->]%Hone.
  - intros s c [-> ->]%Hone. done.
  - by intros [-> ->]%Hone.
  - by intros [-> ->]%Hone.
  - intros [-> ->]%Hone. done.
Qed.

Lemma demo_wf : vfs_wf demo_vfs.
Proof.
  split; [exact demo_tree |]. split; [done |]. split; [done |]. intros p n Hp. cbn in Hp. apply lookup_singleton_Some in Hp as [<- _].
  exists sizeof_vfs_directory, 1. split_and!; try done; vm_compute; done.
Qed.

Lemma demo_memory : has_memory (v_heap demo_vfs).
Proof.
  eexists _, _, _. split; [by vm_compute |]. split; [done |]. split; [by vm_compute |].
  eexists _, _, _, _, _. split; [by vm_compute |]. split; [done | by vm_compute].
Qed.

Lemma demo_standing : standing (v_nodes demo_vfs) slot_size.
Proof. exists demo_root. done. Qed.

(** Making /bin in it. *)
Lemma vfs_mkdir_outcome_witness : exists p st',
  vfs_mkdir (fun _ => false) demo_vfs 8 slot_size [47; 98; 105; 110] = Ok (true, st') /\ vfs_wf st'
  /\ walk (v_nodes st') slot_size [[98; 105; 110]] = p /\ v_nodes demo_vfs !! p = None.
Proof.
  destruct (vfs_mkdir_outcome (fun _ => false) demo_vfs 8 slot_size [47; 98; 105; 110] [] [98; 105; 110]
    demo_wf demo_memory demo_standing eq_refl ltac:(by repeat constructor) ltac:(done)) as (p & table & st' & He & Hp & _ & _ & Hwf & _ & _ & Hw).
  exists p, st'. split; [exact He |]. split; [exact Hwf |]. split; [by apply Hw | exact Hp].
Defined.
