(* ===== verification/VfsFile.v ===== *)
(** * Open files (sys/vfs/node.c, sys/vfs/ffs/ffs_callbacks.c, sys/vfs/vfs.c)

    Files of the in-memory file system and the calls on file descriptors.  A
    call is given the context of the caller, in whose memory its buffer lies; a
    read gives the context with the bytes in place.  The entries of a directory
    are listed in the order of the map of its children, and given as entries
    instead of their bytes. *)

From S2P Require Import Prelude Pages HeapSpec Block FfsNode Vfs VfsPath Scheduler.

Definition SEEK_SET : Z := 0.
Definition SEEK_CUR : Z := 1.
Definition SEEK_END : Z := 2.

Definition O_RDONLY : Z := Z.shiftl 1 0.
Definition O_WRONLY : Z := Z.shiftl 1 1.
Definition O_RDWR : Z := Z.shiftl 1 2.
Definition O_APPEND : Z := Z.shiftl 1 3.
Definition O_TRUNC : Z := Z.shiftl 1 4.
Definition O_EXCL : Z := Z.shiftl 1 5.
Definition O_CREAT : Z := Z.shiftl 1 6.

Definition has_flag (flags flag : Z) : bool := negb (Z.land flags flag =? 0).

Definition sizeof_directory_entry : Z := 264.
Definition sizeof_ffs_file_data : Z := 12.

Section Files.
Context {H P : Type} `{KernelHeap H} `{PageSource P}.

Abbreviation vfs := (vfs_t H P).

Definition file_at (st : vfs) (f : Z) : outcome vfs_file_t := of_option (v_files st !! f).
Definition put_file (st : vfs) (f : Z) (x : vfs_file_t) : vfs := vs_files st (<[f := x]> (v_files st)).
Definition data_at (st : vfs) (d : Z) : outcome ffs_node_data_t := of_option (v_datas st !! d).

(** A null file comes back when the flags do not suit or the heap has no room. *)
Definition vfs_fileCreate (st : vfs) (node flags data : Z) : outcome (Z * vfs) :=
  if negb (has_flag flags O_RDONLY) && negb (has_flag flags O_WRONLY) && negb (has_flag flags O_RDWR) then Ok (NULL, vs_errno st EINVAL) else
  let* n := node_at st node in
  if bool_decide (n_type n = vfs_nodeTypeDirectory) && (has_flag flags O_WRONLY || has_flag flags O_RDWR) then Ok (NULL, vs_errno st EINVAL) else
  let* (f, st) := vfs_alloc st sizeof_vfs_file in
  if f =? NULL then Ok (NULL, st) else
  let* st := vfs_nodeRetain st node in
  let offset := if bool_decide (n_type n = vfs_nodeTypeFile) && has_flag flags O_APPEND then n_size n else 0 in
  Ok (f, put_file st f (VfsFile node offset flags data)).

Definition vfs_fileDelete (st : vfs) (f : Z) : outcome vfs :=
  let* file := file_at st f in
  let* st := vfs_nodeRelease st (f_node file) in
  let* st := vfs_hfree st f in
  Ok (vs_files st (delete f (v_files st))).

(** [strcpy(temp->name, entry->name)] and the rest of the loop's body *)
Fixpoint list_entries (st : vfs) (l : list Z) : outcome (list vfs_directory_entry_t) :=
  match l with
  | [] => Ok []
  | c :: l' =>
      let* n := node_at st c in
      let* es := list_entries st l' in
      Ok (DirEntry (n_id n) (n_name n) (n_type n) :: es)
  end.

(** The entries of a directory are copied when it is opened. *)
Definition open_directory (st : vfs) (f node : Z) : outcome vfs :=
  let* n := node_at st node in
  let* childs := childs_of n in
  let count := Z.of_nat (size childs) in
  let pages := VM_PAGE_COUNT (u32 (count * sizeof_directory_entry)) in
  let '(data, pg) := mm_alloc (v_pages st) pages in
  let st := vs_pages st pg in
  let* es := list_entries st (snd <$> map_to_list childs) in
  let* _ := if (data =? NULL) && (0 <? count) then Fault else Ok tt in
  let* (d, st) := vfs_alloc st sizeof_ffs_file_data in
  let* _ := if d =? NULL then Fault else Ok tt in
  let* file := file_at st f in
  let st := vs_dirs st (<[d := FfsFileData data es count pages]> (v_dirs st)) in
  Ok (put_file st f (VfsFile (f_node file) (f_offset file) (f_flags file) d)).

(** [data->size = 0; node->size = 0] for a node that has data *)
Definition truncate (st : vfs) (node : Z) : outcome vfs :=
  let* n := node_at st node in
  if n_data n =? NULL then Ok st else
  let* d := data_at st (n_data n) in
  update_node (vs_datas st (<[n_data n := set_dataSize d 0]> (v_datas st))) node (fun n => nd_size n 0).

Definition ffs_fileOpen (st : vfs) (node flags : Z) : outcome (Z * vfs) :=
  let* (f, st) := vfs_fileCreate st node flags NULL in
  let* st :=
    if f =? NULL then Ok st else
    let* n := node_at st node in
    if bool_decide (n_type n = vfs_nodeTypeDirectory) then open_directory st f node else Ok st in
  let* st := if has_flag flags O_TRUNC then truncate st node else Ok st in
  Ok (f, st).

Definition ffs_fileClose (st : vfs) (f : Z) : outcome vfs :=
  let* file := file_at st f in
  let* st :=
    if f_data file =? NULL then Ok st else
    let* d := of_option (v_dirs st !! f_data file) in
    let st := vs_pages st (mm_free (v_pages st) (fd_entries d) (fd_pages d)) in
    let* st := vfs_hfree st (f_data file) in
    Ok (vs_dirs st (delete (f_data file) (v_dirs st))) in
  vfs_fileDelete st f.

Definition move_file (file : vfs_file_t) (offset : Z) : vfs_file_t := VfsFile (f_node file) offset (f_flags file) (f_data file).

Definition with_errno (st : vfs) (errno : option Z) : vfs := match errno with Some e => vs_errno st e | None => st end.

Definition ffs_fileWrite (st : vfs) (c : context_t) (f ptr size : Z) : outcome (Z * vfs) :=
  let* file := file_at st f in
  let* st := vfs_nodeLock st (f_node file) in
  let* n := node_at st (f_node file) in
  let* d := data_at st (n_data n) in
  let* (written, errno, d, pg) := ffs_node_writeData c (v_pages st) d (f_offset file) ptr size in
  let st := with_errno (vs_datas (vs_pages st pg) (<[n_data n := d]> (v_datas st))) errno in
  let* st :=
    if written =? SIZE_ERROR then Ok st else
    let* st := update_node st (f_node file) (fun n => nd_size n (d_size d)) in
    Ok (put_file st f (move_file file (u32 (f_offset file + written)))) in
  let* st := vfs_nodeUnlock st (f_node file) in
  Ok (written, st).

Definition ffs_fileRead (st : vfs) (c : context_t) (f ptr size : Z) : outcome (Z * context_t * vfs) :=
  let* file := file_at st f in
  let* st := vfs_nodeLock st (f_node file) in
  let* n := node_at st (f_node file) in
  let* d := data_at st (n_data n) in
  let* (read, errno, c, d) := ffs_node_readData c d (f_offset file) ptr size in
  let st := with_errno (vs_datas st (<[n_data n := d]> (v_datas st))) errno in
  let st := if read =? SIZE_ERROR then st else put_file st f (move_file file (u32 (f_offset file + read))) in
  let* st := vfs_nodeUnlock st (f_node file) in
  Ok (read, c, st).

(** An unknown [whence] leaves the node locked. *)
Definition ffs_fileSeek (st : vfs) (f offset whence : Z) : outcome (Z * vfs) :=
  let* file := file_at st f in
  let* st := vfs_nodeLock st (f_node file) in
  let* n := node_at st (f_node file) in
  let target (base : Z) : outcome (Z * vfs) :=
    let toffset := u32 (base + offset) in
    let* d := data_at st (n_data n) in
    let '(moved, st) := if toffset <=? d_size d then (s32 toffset, put_file st f (move_file file toffset)) else (-1, st) in
    let* st := vfs_nodeUnlock st (f_node file) in
    Ok (moved, st) in
  if whence =? SEEK_SET then target 0
  else if whence =? SEEK_CUR then target (f_offset file)
  else if whence =? SEEK_END then let* d := data_at st (n_data n) in target (d_size d)
  else Ok (-1, vs_errno st EINVAL).

(** The entries delivered are given with their number. *)
Definition ffs_dirRead (st : vfs) (c : context_t) (f entp count : Z) : outcome (Z * list vfs_directory_entry_t * vfs) :=
  let* file := file_at st f in
  let* st := vfs_nodeLock st (f_node file) in
  let* d := of_option (v_dirs st !! f_data file) in
  let left := u32 (fd_count d - f_offset file) in
  let count := Z.min left count in
  let* (read, es, st) :=
    if 0 <? count then
      let bytes := u32 (count * sizeof_directory_entry) in
      if (entp =? NULL) || (bytes =? 0) then Ok (-1, [], vs_errno st EINVAL) else
      let* place := buffer_at c entp bytes in
      match place with
      | inr errno => Ok (-1, [], vs_errno st errno)
      | inl _ =>
          if Z.of_nat (length (fd_list d)) <? f_offset file + count then Fault else
          Ok (s32 count, take (Z.to_nat count) (drop (Z.to_nat (f_offset file)) (fd_list d)), put_file st f (move_file file (u32 (f_offset file + count))))
      end
    else Ok (0, [], st) in
  let* st := vfs_nodeUnlock st (f_node file) in
  Ok (read, es, st).

(** ** The calls on file descriptors (vfs.c) *)

Context (garbage : Z -> bool).

(** Both branches of [vfs_open] end by storing the file or giving the
    descriptor back. *)
Definition install (st : vfs) (pr : process_t) (fd file : Z) : outcome (Z * process_t * vfs) :=
  if file =? NULL then let* pr := process_releaseFiledescriptor pr fd in Ok (-1, pr, st)
  else let* pr := process_setFileForFiledescriptor pr fd file in Ok (fd, pr, st).

Definition vfs_open (st : vfs) (pr : process_t) (now chdir : Z) (path : name) (flags : Z) : outcome (Z * process_t * vfs) :=
  let '(fd, pr) := process_allocateFiledescriptor pr in
  if fd =? -1 then Ok (-1, pr, vs_errno st EMFILE) else
  let* (node, st) := vfs_resolvePath st chdir path in
  if negb (node =? NULL) then
    if has_flag flags O_EXCL then install (vs_errno st EEXIST) pr fd NULL else
    let* (file, st) := ffs_fileOpen st node flags in
    install st pr fd file
  else if has_flag flags O_CREAT then
    let* (parent, s, st) := vfs_resolvePathToParent st chdir path in
    let* _ := node_at st parent in
    let* s := of_option s in
    let* (node, st) := ffs_createFile garbage st now parent s in
    let* (file, st) := ffs_fileOpen st node flags in
    install st pr fd file
  else install (vs_errno st ENOENT) pr fd NULL.

Definition vfs_close (st : vfs) (pr : process_t) (fd : Z) : outcome (Z * process_t * vfs) :=
  let* f := process_fileWithFiledescriptor pr fd in
  if f =? NULL then Ok (-1, pr, st) else
  let* st := ffs_fileClose st f in
  let* pr := process_releaseFiledescriptor pr fd in
  Ok (0, pr, st).

Definition vfs_write (st : vfs) (c : context_t) (pr : process_t) (fd ptr size : Z) : outcome (Z * vfs) :=
  let* f := process_fileWithFiledescriptor pr fd in
  if f =? NULL then Ok (SIZE_ERROR, vs_errno st EBADF) else
  let* file := file_at st f in
  if negb (has_flag (f_flags file) O_WRONLY || has_flag (f_flags file) O_RDWR) then Ok (SIZE_ERROR, vs_errno st EBADF) else
  let* n := node_at st (f_node file) in
  if bool_decide (n_type n = vfs_nodeTypeDirectory) then Ok (SIZE_ERROR, vs_errno st EISDIR) else
  ffs_fileWrite st c f ptr size.

Definition vfs_read (st : vfs) (c : context_t) (pr : process_t) (fd ptr size : Z) : outcome (Z * context_t * vfs) :=
  let* f := process_fileWithFiledescriptor pr fd in
  if f =? NULL then Ok (SIZE_ERROR, c, vs_errno st EBADF) else
  let* file := file_at st f in
  if negb (has_flag (f_flags file) O_RDONLY || has_flag (f_flags file) O_RDWR) then Ok (SIZE_ERROR, c, vs_errno st EBADF) else
  let* n := node_at st (f_node file) in
  if bool_decide (n_type n = vfs_nodeTypeDirectory) then Ok (SIZE_ERROR, c, vs_errno st EISDIR) else
  ffs_fileRead st c f ptr size.

Definition vfs_seek (st : vfs) (pr : process_t) (fd offset whence : Z) : outcome (Z * vfs) :=
  let* f := process_fileWithFiledescriptor pr fd in
  if f =? NULL then Ok (-1, vs_errno st EBADF) else ffs_fileSeek st f offset whence.

Definition vfs_readDir (st : vfs) (c : context_t) (pr : process_t) (fd entp count : Z) : outcome (Z * list vfs_directory_entry_t * vfs) :=
  let* f := process_fileWithFiledescriptor pr fd in
  if f =? NULL then Ok (-1, [], vs_errno st EBADF) else
  let* file := file_at st f in
  let* n := node_at st (f_node file) in
  if bool_decide (n_type n = vfs_nodeTypeFile) then Ok (-1, [], vs_errno st ENOTDIR) else
  ffs_dirRead st c f entp count.
End Files.
