(* ===== verification/VfsFileCorrect.v ===== *)
(** * Reading back through a file descriptor

    [vfs_write], [vfs_seek] and [vfs_read] on an open file against its contents
    as a list of bytes. *)

From S2P Require Import Prelude Pages HeapSpec Block FfsNode FfsNodeCorrect Vfs VfsPath VfsCorrect VfsContract Scheduler VfsFile CellHeap HeapContract.

Section OpenFile.
Context {H P : Type} `{KernelHeap H} `{PageSourceOk P}.

Abbreviation vfs := (vfs_t H P).

(** The file [f] is open on an unlocked node with the contents [content], and
    stands at byte [k]. *)
Record open_file (st : vfs) (f : Z) (file : vfs_file_t) (n : vfs_node_t) (d : ffs_node_data_t) (content : list Z) (k : nat) : Prop := {
  of_file : v_files st !! f = Some file;
  of_offset : f_offset file = Z.of_nat k;
  of_node : v_nodes st !! f_node file = Some n;
  of_type : n_type n = vfs_nodeTypeFile;
  of_unlocked : n_lock n = false;
  of_data : v_datas st !! n_data n = Some d;
  of_wf : file_wf (v_pages st) d content;
  of_inside : (k <= length content)%nat
}.

Lemma fileWrite_spec (st : vfs) c f file n d content k ptr bs size :
  let w := Z.min size kFFSNodeMaxChunkSize in
  open_file st f file n d content k -> buffer c ptr w -> sees c ptr bs -> 0 < size -> w <= Z.of_nat (length bs) ->
  Z.of_nat (length content) + w <= 2 ^ 32 - 4096 -> can_grow (v_pages st) d (Z.of_nat (length content) + w) ->
  let content' := splice content k (take (Z.to_nat w) bs) in
  exists d' pg', file_wf pg' d' content' /\ others_kept (v_pages st) pg' (d_data d)
    /\ ffs_fileWrite st c f ptr size = Ok (w,
      put_file (vs_datas (vs_pages (put_node st (f_node file) (nd_size n (Z.of_nat (length content')))) pg')
        (<[n_data n := d']> (v_datas st))) f (move_file file (Z.of_nat k + w))).
Proof.
  intros w [Hf Hoff Hn Ht Hl Hd Hw Hk] Hbuf Hsee Hsz Hbs Hmax Hg content'.
  destruct (writeData_spec c (v_pages st) d content k ptr bs size Hw Hk Hbuf Hsee Hsz Hbs Hmax Hg) as (d' & pg' & He & Hw' & Hkept).
  exists d', pg'. split; [done |]. split; [done |]. fold w in He.
  unfold ffs_fileWrite, file_at. rewrite Hf. cbn [of_option obind]. rewrite (lock_ok st _ n) by done. cbn [obind].
  rewrite at_put. cbn [obind]. unfold data_at. cbn [v_datas put_node vs_nodes nd_lock n_data]. rewrite Hd. cbn [of_option obind v_pages put_node vs_nodes].
  rewrite Hoff, He. cbn [obind]. pose proof chunk_positive.
  assert (Hw1 : 0 < w < SIZE_ERROR) by (unfold SIZE_ERROR; subst w; lia).
  rewrite (proj2 (Z.eqb_neq w SIZE_ERROR)) by lia.
  unfold update_node, vfs_nodeUnlock, update_node, node_at. cbn. rewrite lookup_insert_eq. cbn. rewrite lookup_insert_eq. cbn.
  rewrite (u32_small (Z.of_nat k + w)) by lia. rewrite (fw_size _ _ _ Hw'). do 2 f_equal.
  unfold put_file, vs_files, vs_datas, vs_pages, put_node, vs_nodes. cbn. f_equal. rewrite !insert_insert_eq. f_equal.
  destruct n; cbn in *. by subst.
Qed.

(** Locking and unlocking a node around a change to files and data. *)
Lemma unlock_after (st : vfs) p n files datas :
  v_nodes st !! p = Some n -> n_lock n = false ->
  vfs_nodeUnlock (vs_files (vs_datas (put_node st p (nd_lock n true)) datas) files) p = Ok (vs_files (vs_datas st datas) files).
Proof.
  intros Hn Hl. unfold vfs_nodeUnlock, update_node, node_at. cbn. rewrite lookup_insert_eq. cbn.
  rewrite nd_lock_off by done. unfold put_node, vs_files, vs_datas, vs_nodes. cbn. by rewrite insert_insert_eq, insert_id.
Qed.

Lemma datas_same (st : vfs) : vs_datas st (v_datas st) = st.
Proof. by destruct st. Qed.

Lemma fileSeek_spec (st : vfs) f file n d content k j :
  open_file st f file n d content k -> (j <= length content)%nat -> Z.of_nat j < 2 ^ 31 ->
  ffs_fileSeek st f (Z.of_nat j) SEEK_SET = Ok (Z.of_nat j, put_file st f (move_file file (Z.of_nat j))).
Proof.
  intros [Hf Hoff Hn Ht Hl Hd Hw Hk] Hj Hb.
  unfold ffs_fileSeek, file_at. rewrite Hf. cbn [of_option obind]. rewrite (lock_ok st _ n) by done. cbn [obind].
  rewrite at_put. cbn [obind]. change (SEEK_SET =? SEEK_SET) with true. cbn match. unfold data_at.
  cbn [v_datas put_node vs_nodes nd_lock n_data]. rewrite Hd. cbn [of_option obind].
  rewrite Z.add_0_l, u32_small by lia. rewrite (proj2 (Z.leb_le _ _)) by (rewrite (fw_size _ _ _ Hw); lia).
  pose proof (unlock_after st (f_node file) n (<[f := move_file file (Z.of_nat j)]> (v_files st)) (v_datas st) Hn Hl) as Hu.
  rewrite datas_same in Hu. change (v_datas st) with (v_datas (put_node st (f_node file) (nd_lock n true))) in Hu.
  rewrite datas_same in Hu. unfold put_file. cbn [v_files put_node vs_nodes]. rewrite Hu. cbn [obind]. by rewrite s32_small by lia.
Qed.

Lemma fileRead_spec (st : vfs) c f file n d content k ptr want :
  open_file st f file n d content k -> 0 <= want -> d_data d + Z.of_nat k + want < 2 ^ 32 ->
  let m := Z.min (Z.min want (Z.of_nat (length content - k))) kFFSNodeMaxChunkSize in
  Z.of_nat (length content) + m < 2 ^ 32 -> 0 < m -> buffer c ptr m ->
  exists c', delivered c ptr (take (Z.to_nat m) (drop k content)) c' /\ ffs_fileRead st c f ptr want = Ok (m, c',
    put_file (vs_datas st (<[n_data n := set_dataSize d (Z.of_nat (length content) + m)]> (v_datas st))) f (move_file file (Z.of_nat k + m))).
Proof.
  intros [Hf Hoff Hn Ht Hl Hd Hw Hk] Hwant Hwrap m Hgrow Hm0 Hbuf.
  destruct (readData_spec c _ _ _ k ptr want Hw Hk Hwant Hwrap Hgrow Hm0 Hbuf) as (c' & He & Hdel). fold m in He, Hdel.
  exists c'. split; [done |].
  pose proof (file_size_bound _ _ _ Hw). pose proof chunk_positive.
  unfold ffs_fileRead, file_at. rewrite Hf. cbn [of_option obind]. rewrite (lock_ok st _ n) by done. cbn [obind].
  rewrite at_put. cbn [obind]. unfold data_at. cbn [v_datas put_node vs_nodes nd_lock n_data]. rewrite Hd. cbn [of_option obind].
  rewrite Hoff, He. cbn [obind]. rewrite (proj2 (Z.eqb_neq m SIZE_ERROR)).
  2:{ unfold SIZE_ERROR. assert (kFFSNodeMaxChunkSize < 2 ^ 32 - 1) by done. lia. }
  unfold put_file. cbn [with_errno v_files vs_datas put_node vs_nodes]. rewrite (u32_small (Z.of_nat k + m)) by lia.
  by rewrite (unlock_after st (f_node file) n).
Qed.

(** The descriptor [fd] of [pr] is the open file [f]. *)
Definition descriptor (pr : process_t) (fd f : Z) : Prop := process_fileWithFiledescriptor pr fd = Ok f /\ f <> NULL.

Lemma file_end pg d content : file_wf pg d content -> d_data d + Z.of_nat (length content) < 2 ^ 32.
Proof.
  intros [_ Hb Hlen Ho]. pose proof (holds_length _ _ Hb). destruct (Z.eqb_spec (d_data d) NULL) as [Hz | Hz]; [unfold NULL in *; lia |].
  destruct (pg_sane _ _ _ (Ho Hz)) as (? & _ & _ & ?). unfold VM_UPPER_LIMIT in *. lia.
Qed.

Lemma splice_read content k bs : (k <= length content)%nat -> take (length bs) (drop k (splice content k bs)) = bs.
Proof.
  intros Hk. unfold splice. rewrite drop_app_length' by (rewrite length_take; lia). by rewrite take_app_length.
Qed.

(** C39: what is written to a file through a descriptor is read back through
    it, in the kernel's context and in a program's.  With the descriptor open
    for reading and writing on a file of the contents [content], standing at
    byte [k], and with room to grow, a write of [size] bytes writes as many as
    fit into ten pages; seeking back to [k] succeeds, and reading as many bytes
    puts exactly those into the context's memory, as the context sees it, and
    changes nothing else there.  In between the file holds its old contents with
    the bytes spliced in, in pages of its own, and the regions of others stay
    handed out.  But the read also raises the recorded size beyond the contents.
    Both buffers are ones the copies handle ([buffer]): outside the kernel's
    directory the frames of the buffer must follow one another and the buffer
    must end within as many pages, counted from its first one, as its size alone
    takes; nothing in the code sees to either. *)
Theorem vfs_write_read_back (st : vfs) c pr fd f file n d content k ptr bs size target :
  let w := Z.min size kFFSNodeMaxChunkSize in
  let content' := splice content k (take (Z.to_nat w) bs) in
  descriptor pr fd f -> has_flag (f_flags file) O_RDWR = true -> open_file st f file n d content k -> Z.of_nat k < 2 ^ 31 ->
  buffer c ptr w -> sees c ptr bs -> buffer c target w -> 0 < size -> w <= Z.of_nat (length bs) ->
  Z.of_nat (length content) + 2 * w <= 2 ^ 32 - 4096 -> can_grow (v_pages st) d (Z.of_nat (length content) + w) ->
  exists st1 st2 st3 n' d' c',
    vfs_write st c pr fd ptr size = Ok (w, st1) /\ vfs_seek st1 pr fd (Z.of_nat k) SEEK_SET = Ok (Z.of_nat k, st2)
    /\ vfs_read st2 c pr fd target w = Ok (w, c', st3) /\ delivered c target (take (Z.to_nat w) bs) c'
    /\ open_file st2 f (move_file file (Z.of_nat k)) n' d' content' k /\ n_size n' = Z.of_nat (length content')
    /\ others_kept (v_pages st) (v_pages st2) (d_data d)
    /\ v_datas st3 !! n_data n = Some (set_dataSize d' (Z.of_nat (length content') + w)).
Proof.
  intros w content' [Hfd Hf0] Hflag Hopen Hk31 Hptr Hsee Htarget Hsz Hbs Hmax Hg. pose proof chunk_positive.
  assert (Hw0 : 0 < w) by (subst w; lia).
  destruct (fileWrite_spec st c f file n d content k ptr bs size Hopen Hptr Hsee Hsz Hbs ltac:(lia) Hg) as (d' & pg' & Hw' & Hkept & He).
  fold w content' in Hw', He. set (n' := nd_size n (Z.of_nat (length content'))) in *. set (st1 := put_file _ _ _) in He.
  pose proof Hopen as [Hf Hoff Hn Ht Hl Hd _ Hk].
  assert (Hlw : length (take (Z.to_nat w) bs) = Z.to_nat w) by (rewrite length_take; lia).
  assert (Hlen : length content' = (length content `max` (k + Z.to_nat w))%nat) by (unfold content'; by rewrite length_splice, Hlw).
  assert (Ho1 : open_file st1 f (move_file file (Z.of_nat k + w)) n' d' content' (k + Z.to_nat w)).
  { split; try done; cbn; [by rewrite lookup_insert_eq | lia | by rewrite lookup_insert_eq | by rewrite lookup_insert_eq | lia]. }
  pose proof (fileSeek_spec st1 f _ n' d' content' _ k Ho1 ltac:(lia) Hk31) as Hseek.
  cbn [move_file f_node f_flags f_data] in Hseek. set (st2 := put_file st1 _ _) in Hseek.
  assert (Ho2 : open_file st2 f (move_file file (Z.of_nat k)) n' d' content' k).
  { split; try done; cbn; [by rewrite lookup_insert_eq | by rewrite lookup_insert_eq | by rewrite lookup_insert_eq | lia]. }
  pose proof (file_end _ _ _ Hw') as Hend.
  pose proof (fileRead_spec st2 c f _ n' d' content' k target w Ho2 ltac:(lia) ltac:(lia)) as Hread. cbv zeta in Hread.
  replace (Z.min (Z.min w (Z.of_nat (length content' - k))) kFFSNodeMaxChunkSize) with w in Hread by lia.
  destruct (Hread ltac:(lia) Hw0 Htarget) as (c' & Hdel & Hr). rewrite <- Hlw in Hdel at 1. unfold content' in Hdel at 1.
  rewrite splice_read in Hdel by done. eexists st1, st2, _, n', d', c'. split.
  { unfold vfs_write. rewrite Hfd. cbn [obind]. rewrite (proj2 (Z.eqb_neq _ _) Hf0). unfold file_at. rewrite Hf. cbn [of_option obind].
    rewrite Hflag, orb_true_r. cbn [negb]. rewrite (at_ok st _ n) by done. cbn [obind].
    rewrite bool_decide_false by (by rewrite Ht). exact He. }
  split; [unfold vfs_seek; rewrite Hfd; cbn [obind]; rewrite (proj2 (Z.eqb_neq _ _) Hf0); exact Hseek |].
  split.
  { unfold vfs_read. rewrite Hfd. cbn [obind]. rewrite (proj2 (Z.eqb_neq _ _) Hf0). unfold file_at. rewrite (of_file _ _ _ _ _ _ _ Ho2).
    cbn [of_option obind move_file f_flags f_node]. rewrite Hflag, orb_true_r. cbn [negb].
    rewrite (at_ok st2 _ n') by (exact (of_node _ _ _ _ _ _ _ Ho2)). cbn [obind].
    rewrite bool_decide_false by (cbn; by rewrite Ht). exact Hr. }
  split; [exact Hdel |].
  split; [exact Ho2 |]. split; [done |]. split; [exact Hkept |]. cbn. by rewrite lookup_insert_eq.
Qed.
End OpenFile.

(** ** An empty file, open for reading and writing *)

Definition demo_node : vfs_node_t := VfsNode [97] vfs_nodeTypeFile false 2 1 0 7 7 7 NULL (2 * slot_size) ∅ NULL NULL.
Definition demo_data : ffs_node_data_t := FfsData NULL 0 0 [].
Definition demo_file : vfs_file_t := VfsFile slot_size 0 O_RDWR NULL.
Definition demo_open : vfs_t cell_heap cells_source :=
  Vfs {[ slot_size := demo_node ]} {[ 2 * slot_size := demo_data ]} {[ 3 * slot_size := demo_file ]} ∅ false 2 ∅ 0 (CellHeap ∅) ∅.
Definition demo_process : process_t := Process 0 0 1 0 false false 0 0 0 0 0 [3 * slot_size] 0 0.

Lemma demo_open_file : open_file demo_open (3 * slot_size) demo_file demo_node demo_data [] 0.
Proof. split; try done. apply fresh_file_wf. Qed.

(** A program's context: the page at 4096 lies in the frame at 131072, that at
    8192 in the frame at 196608; bytes 100 to 104 of the first are the text, and
    bytes 8 to 12 of the second have not been written. *)
Definition demo_context : context_t :=
  ContextOf false
    (list_to_map ((fun p : Z * Z => (131172 + p.1, Some p.2)) <$> [(0, 104); (1, 101); (2, 108); (3, 108); (4, 111)])
     ∪ list_to_map ((fun i => (196616 + i, None)) <$> [0; 1; 2; 3; 4]))
    (fun page => if page =? 4096 then 131072 else if page =? 8192 then 196608 else 0) (fun _ pages => pages =? 1).

Lemma below_five i : 0 <= i < 5 -> i = 0 \/ i = 1 \/ i = 2 \/ i = 3 \/ i = 4.
Proof. lia. Qed.

Lemma demo_buffer a : a = 4196 \/ a = 8200 -> buffer demo_context a 5.
Proof.
  intros [-> | ->]; split.
  1, 4, 5, 6, 9, 10: try intros _; vm_compute; by split.
  all: try intros _; intros i Hi; destruct (below_five i Hi) as [-> | [-> | [-> | [-> | ->]]]]; vm_compute; by eauto.
Qed.

Lemma demo_sees : sees demo_context 4196 [104; 101; 108; 108; 111].
Proof. intros i b Hi. do 5 (destruct i as [| i]; [injection Hi as <-; vm_compute; done |]). done. Qed.

Lemma vfs_write_read_back_witness : exists st1 st2 st3 c',
  vfs_write demo_open demo_context demo_process 0 4196 5 = Ok (5, st1)
  /\ vfs_seek st1 demo_process 0 0 SEEK_SET = Ok (0, st2)
  /\ vfs_read st2 demo_context demo_process 0 8200 5 = Ok (5, c', st3)
  /\ sees c' 8200 [104; 101; 108; 108; 111].
Proof.
  destruct (vfs_write_read_back demo_open demo_context demo_process 0 (3 * slot_size) demo_file demo_node demo_data [] 0 4196
    [104; 101; 108; 108; 111] 5 8200 ltac:(by split) eq_refl demo_open_file ltac:(done) (demo_buffer 4196 (or_introl eq_refl)) demo_sees
    (demo_buffer 8200 (or_intror eq_refl)) ltac:(done) ltac:(done) ltac:(done)) as (st1 & st2 & st3 & n' & d' & c' & Hw & Hs & Hr & Hd & _).
  - right. vm_compute. done.
  - exists st1, st2, st3, c'. split; [exact Hw |]. split; [exact Hs |]. split; [exact Hr | exact (dl_seen _ _ _ _ Hd)].
Defined.
