(* ===== verification/Elf.v ===== *)
(** * ELF images in memory (sys/system/elf.h, bin/linkd/elf/elf.h)

    The structures of an ELF file as the code reads them out of byte memory,
    the words they are made of, and [elf_hash].  The two headers are the same
    but for one include; the kernel's side (ioglue) and the user's side (linkd)
    both build on this file. *)

From S2P Require Import Prelude CString.

(** ** Words in memory

    The processor is little-endian; a pointer wraps around at 32 bits. *)

Definition ld16 (m : mem) (p : Z) : outcome Z :=
  let* b0 := load m p in
  let* b1 := load m (u32 (p + 1)) in
  Ok (b0 + b1 * 2 ^ 8).

Definition ld32 (m : mem) (p : Z) : outcome Z :=
  let* b0 := load m p in
  let* b1 := load m (u32 (p + 1)) in
  let* b2 := load m (u32 (p + 2)) in
  let* b3 := load m (u32 (p + 3)) in
  Ok (b0 + b1 * 2 ^ 8 + b2 * 2 ^ 16 + b3 * 2 ^ 24).

Definition st32 (m : mem) (p v : Z) : outcome mem :=
  let* m := store m p (u8 v) in
  let* m := store m (u32 (p + 1)) (u8 (v / 2 ^ 8)) in
  let* m := store m (u32 (p + 2)) (u8 (v / 2 ^ 16)) in
  store m (u32 (p + 3)) (u8 (v / 2 ^ 24)).

(** ** Structures *)

(** [elf_header_t]: the file header, 52 bytes. *)
Definition ELF_MAGIC : list Z := [127; 69; 76; 70].
Definition ET_DYN : Z := 3.
Definition e_type (m : mem) (p : Z) : outcome Z := ld16 m (u32 (p + 16)).
Definition e_entry (m : mem) (p : Z) : outcome Z := ld32 m (u32 (p + 24)).
Definition e_phoff (m : mem) (p : Z) : outcome Z := ld32 m (u32 (p + 28)).
Definition e_shoff (m : mem) (p : Z) : outcome Z := ld32 m (u32 (p + 32)).
Definition e_phnum (m : mem) (p : Z) : outcome Z := ld16 m (u32 (p + 44)).
Definition e_shnum (m : mem) (p : Z) : outcome Z := ld16 m (u32 (p + 48)).
Definition e_shstrndx (m : mem) (p : Z) : outcome Z := ld16 m (u32 (p + 50)).

(** [elf_section_header_t], 40 bytes. *)
Definition sizeof_elf_section_header_t : Z := 40.
Definition SHT_SYMTAB : Z := 2.
Definition SHT_STRTAB : Z := 3.
Definition sh_type (m : mem) (p : Z) : outcome Z := ld32 m (u32 (p + 4)).
Definition sh_offset (m : mem) (p : Z) : outcome Z := ld32 m (u32 (p + 16)).
Definition sh_size (m : mem) (p : Z) : outcome Z := ld32 m (u32 (p + 20)).
Definition sh_entsize (m : mem) (p : Z) : outcome Z := ld32 m (u32 (p + 36)).

(** [elf_sym_t], 16 bytes. *)
Definition sizeof_elf_sym_t : Z := 16.
Definition st_name (m : mem) (p : Z) : outcome Z := ld32 m p.
Definition st_value (m : mem) (p : Z) : outcome Z := ld32 m (u32 (p + 4)).
Definition st_info (m : mem) (p : Z) : outcome Z := load m (u32 (p + 12)).
Definition ELF32_ST_BIND (val : Z) : Z := Z.shiftr val 4.
Definition STB_LOCAL : Z := 0.

(** [elf_rel_t], 8 bytes. *)
Definition sizeof_elf_rel_t : Z := 8.
Definition r_offset (m : mem) (p : Z) : outcome Z := ld32 m p.
Definition r_info (m : mem) (p : Z) : outcome Z := ld32 m (u32 (p + 4)).
Definition ELF32_R_SYM (val : Z) : Z := Z.shiftr val 8.
Definition ELF32_R_TYPE (val : Z) : Z := Z.land val 255.

Definition R_386_NONE : Z := 0.
Definition R_386_32 : Z := 1.
Definition R_386_PC32 : Z := 2.
Definition R_386_GLOB_DAT : Z := 6.
Definition R_386_JMP_SLOT : Z := 7.
Definition R_386_RELATIVE : Z := 8.

(** [elf_program_header_t], 32 bytes. *)
Definition sizeof_elf_program_header_t : Z := 32.
Definition PT_LOAD : Z := 1.
Definition PT_DYNAMIC : Z := 2.
Definition p_type (m : mem) (p : Z) : outcome Z := ld32 m p.
Definition p_offset (m : mem) (p : Z) : outcome Z := ld32 m (u32 (p + 4)).
Definition p_vaddr (m : mem) (p : Z) : outcome Z := ld32 m (u32 (p + 8)).
Definition p_paddr (m : mem) (p : Z) : outcome Z := ld32 m (u32 (p + 12)).
Definition p_filesz (m : mem) (p : Z) : outcome Z := ld32 m (u32 (p + 16)).
Definition p_memsz (m : mem) (p : Z) : outcome Z := ld32 m (u32 (p + 20)).

(** [elf_dyn_t], 8 bytes; the tag is signed and only compared. *)
Definition sizeof_elf_dyn_t : Z := 8.
Definition d_tag (m : mem) (p : Z) : outcome Z := let* t := ld32 m p in Ok (s32 t).
Definition d_un (m : mem) (p : Z) : outcome Z := ld32 m (u32 (p + 4)).

Definition DT_NULL : Z := 0.
Definition DT_NEEDED : Z := 1.
Definition DT_PLTRELSZ : Z := 2.
Definition DT_PLTGOT : Z := 3.
Definition DT_HASH : Z := 4.
Definition DT_STRTAB : Z := 5.
Definition DT_SYMTAB : Z := 6.
Definition DT_RELA : Z := 7.
Definition DT_RELASZ : Z := 8.
Definition DT_STRSZ : Z := 10.
Definition DT_SYMENT : Z := 11.
Definition DT_REL : Z := 17.
Definition DT_RELSZ : Z := 18.
Definition DT_RELENT : Z := 19.
Definition DT_PLTREL : Z := 20.
Definition DT_JMPREL : Z := 23.
Definition DT_INIT_ARRAY : Z := 25.
Definition DT_INIT_ARRAYSZ : Z := 27.

(** ** The hash of a name *)

(** One round of the loop: [h = (h << 4) + c], then the top four bits folded in. *)
Definition hash_round (h c : Z) : Z :=
  let h := u32 (u32 (Z.shiftl h 4) + c) in
  let g := Z.land h 4026531840 in
  if g =? 0 then h else Z.lxor (Z.lxor h g) (Z.shiftr g 24).

Fixpoint elf_hash_loop (fuel : nat) (m : mem) (buffer h : Z) : outcome Z :=
  let* c := load m buffer in
  if c =? 0 then Ok h else
  match fuel with
  | O => Hang
  | S f => elf_hash_loop f m (u32 (buffer + 1)) (hash_round h c)
  end.

Definition elf_hash (m : mem) (name : Z) : outcome Z := elf_hash_loop (string_fuel m) m name 0.

(** The hash as a function of the characters. *)
Definition hash_of (s : list Z) : Z := fold_left hash_round s 0.

(** ** What the dynamic section of a loaded image describes

    The fields that [library_t] (linkd) and [io_library_t] (ioglue) share. *)

Record elf_image := Image {
  relocBase : Z; dynamic : Z;
  strtab : Z; strtabSize : Z; symtab : Z;
  rel : Z; pltRel : Z; rellimit : Z; pltRellimit : Z; rela : Z; relalimit : Z;
  hashtab : Z; buckets : Z; chains : Z; nbuckets : Z; nchains : Z;
  initArray : Z; initArrayCount : Z
}.

(** [symtab + symNum], [strtab + st_name] and [array[i]] on words. *)
Definition sym_at (img : elf_image) (symNum : Z) : Z := u32 (symtab img + sizeof_elf_sym_t * symNum).
Definition word_index (base i : Z) : Z := u32 (base + 4 * i).

(** Distinct places in memory are no more than it has. *)
Lemma places_size (m : mem) (l : list Z) : NoDup l -> (forall a, a ∈ l -> is_Some (m !! a)) -> (length l <= size m)%nat.
Proof.
  intros Hnd Hm. rewrite <- (size_list_to_set (C := gset Z) l Hnd), <- (size_dom (D := gset Z) m).
  apply subseteq_size. intros a Ha%elem_of_list_to_set. by apply elem_of_dom, Hm.
Qed.

(** ** Proofs: words *)

Section Words.
Implicit Types (m ro : mem) (p v : Z).

(** The bytes of a word. *)
Definition word_bytes (v : Z) : list Z := [u8 v; u8 (v / 2 ^ 8); u8 (v / 2 ^ 16); u8 (v / 2 ^ 24)].

(** The word [v] is at [p], which is not at the very end of the address space. *)
Definition word_at m p v : Prop := bytes_at m p (word_bytes v) /\ is_u32 v /\ 0 <= p /\ p + 4 < 2 ^ 32.

(** Four mapped bytes. *)
Definition word_room m p : Prop := room m p 4.

Lemma word_bytes_value v : is_u32 v ->
  u8 v + u8 (v / 2 ^ 8) * 2 ^ 8 + u8 (v / 2 ^ 16) * 2 ^ 16 + u8 (v / 2 ^ 24) * 2 ^ 24 = v.
Proof. unfold is_u32, u8. intros. Z.to_euclidean_division_equations. lia. Qed.

Lemma ld32_word m p v : word_at m p v -> ld32 m p = Ok v.
Proof.
  intros ((H0 & H1 & H2 & H3 & _) & Hv & Hp & Hp').
  replace (p + 1 + 1) with (p + 2) in * by lia. replace (p + 2 + 1) with (p + 3) in * by lia.
  unfold ld32, load. rewrite !u32_small by lia. rewrite H0, H1. cbn [of_option obind]. rewrite H2, H3. cbn [of_option obind].
  by rewrite word_bytes_value.
Qed.

Lemma store_mapped m p v : is_Some (m !! p) -> store m p v = Ok (<[p := v]> m).
Proof. intros. unfold store. by rewrite decide_True. Qed.

Lemma st32_room m p v : word_room m p -> st32 m p v = Ok (write m p (word_bytes v)).
Proof.
  intros (Hp & Hp' & Hm).
  assert (Hb : forall k, 0 <= k < 4 -> is_Some (m !! (p + k))).
  { intros k Hk. specialize (Hm (Z.to_nat k) ltac:(lia)). by rewrite Z2Nat.id in Hm by lia. }
  assert (Hi : forall (m' : mem) a q w, is_Some (m' !! q) -> is_Some (<[a := w]> m' !! q)).
  { intros m' a q w Hq. destruct (decide (a = q)) as [->|]; [rewrite lookup_insert_eq; by eexists|by rewrite lookup_insert_ne]. }
  unfold st32. rewrite !u32_small by lia.
  rewrite (store_mapped m p) by (rewrite <- (Z.add_0_r p); apply Hb; lia). cbn [obind].
  rewrite store_mapped by (apply Hi, Hb; lia). cbn [obind].
  rewrite store_mapped by (apply Hi, Hi, Hb; lia). cbn [obind].
  rewrite store_mapped by (apply Hi, Hi, Hi, Hb; lia). cbn [write word_bytes].
  replace (p + 1 + 1) with (p + 2) by lia. by replace (p + 2 + 1) with (p + 3) by lia.
Qed.

Lemma word_at_written m p v : 0 <= p -> p + 4 < 2 ^ 32 -> is_u32 v -> word_at (write m p (word_bytes v)) p v.
Proof. intros. split_and!; try done. apply write_bytes. Qed.

(** Words apart from what is written stay. *)
Lemma word_at_write m p v q bs : (q + Z.of_nat (length bs) <= p \/ p + 4 <= q) -> word_at m p v -> word_at (write m q bs) p v.
Proof.
  intros Hq (Hb & ? & ? & ?). split_and!; try done. revert Hb. apply bytes_at_frame. intros i Hi. cbn in Hi.
  apply write_outside. lia.
Qed.

Lemma word_room_write m p q bs : word_room m p -> word_room (write m q bs) p.
Proof. intros (? & ? & Hr). split_and!; try done. intros i Hi. by apply write_mapped, Hr. Qed.

(** A mapped word of bytes has a value. *)
Lemma word_room_value m p : word_room m p -> map_Forall (fun _ b => is_u8 b) m -> exists v, word_at m p v.
Proof.
  intros (Hp & Hp' & Hr) Hu.
  assert (Hb : forall k, 0 <= k < 4 -> exists b, m !! (p + k) = Some b /\ 0 <= b < 256).
  { intros k Hk. destruct (Hr (Z.to_nat k) ltac:(lia)) as [b Hb]. rewrite Z2Nat.id in Hb by lia.
    exists b. split; [done|]. exact (Hu _ _ Hb). }
  destruct (Hb 0 ltac:(lia)) as (b0 & H0 & R0), (Hb 1 ltac:(lia)) as (b1 & H1 & R1),
    (Hb 2 ltac:(lia)) as (b2 & H2 & R2), (Hb 3 ltac:(lia)) as (b3 & H3 & R3).
  rewrite Z.add_0_r in H0. set (v := b0 + b1 * 2 ^ 8 + b2 * 2 ^ 16 + b3 * 2 ^ 24). exists v.
  assert (E0 : u8 v = b0) by (unfold u8, v; Z.to_euclidean_division_equations; lia).
  assert (E1 : u8 (v / 2 ^ 8) = b1) by (unfold u8, v; Z.to_euclidean_division_equations; lia).
  assert (E2 : u8 (v / 2 ^ 16) = b2) by (unfold u8, v; Z.to_euclidean_division_equations; lia).
  assert (E3 : u8 (v / 2 ^ 24) = b3) by (unfold u8, v; Z.to_euclidean_division_equations; lia).
  split_and!; [|unfold is_u32, v; lia|done|done]. unfold word_bytes. rewrite E0, E1, E2, E3. cbn [bytes_at].
  replace (p + 1 + 1) with (p + 2) by lia. by replace (p + 2 + 1) with (p + 3) by lia.
Qed.
End Words.

(** ** Proofs: reading from a part of the memory

    A reader that succeeds on a part of the memory succeeds on all of it, with
    the same result.  This is what frames the writes of the linker. *)

Class Mono {A : Type} (f : mem -> outcome A) : Prop :=
  mono : forall ro m x, ro ⊆ m -> f ro = Ok x -> f m = Ok x.

#[export] Instance mono_const {A} (o : outcome A) : Mono (fun _ => o).
Proof. by intros ro m x _. Qed.

#[export] Instance mono_bind {A B} (f : mem -> outcome A) (g : A -> mem -> outcome B) :
  Mono f -> (forall a, Mono (g a)) -> Mono (fun m => obind (f m) (fun a => g a m)).
Proof.
  intros Hf Hg ro m x Hs (a & Ha & Hx)%obind_Ok. apply obind_Ok. exists a. split; [by apply (Hf ro m)|by apply (Hg a ro m)].
Qed.

#[export] Instance mono_if {A} (b : bool) (f g : mem -> outcome A) :
  Mono f -> Mono g -> Mono (fun m => if b then f m else g m).
Proof. by destruct b. Qed.

#[export] Instance mono_load p : Mono (fun m => load m p).
Proof.
  intros ro m x Hs. unfold load. destruct (ro !! p) as [b|] eqn:E; [|done]. intros [= ->].
  by rewrite (lookup_weaken ro m p x E Hs).
Qed.

#[export] Instance mono_ld16 p : Mono (fun m => ld16 m p).
Proof. unfold ld16. apply _. Qed.

#[export] Instance mono_ld32 p : Mono (fun m => ld32 m p).
Proof. unfold ld32. apply _. Qed.

(** More memory is more fuel. *)
Lemma string_fuel_mono (ro m : mem) : ro ⊆ m -> (string_fuel ro <= string_fuel m)%nat.
Proof. intros Hs. unfold string_fuel. apply le_n_S, map_subseteq_size, Hs. Qed.

#[export] Instance mono_strcmp p q : Mono (fun m => strcmp m p q).
Proof.
  intros ro m x Hs. unfold strcmp. destruct (p =? NULL); [done|]. destruct (q =? NULL); [done|].
  generalize (string_fuel_mono ro m Hs). generalize (string_fuel ro), (string_fuel m). intros f. revert p q.
  induction f as [|f IH]; intros p q f' Hf; cbn [strcmp_loop]; intros (c1 & E1 & (c2 & E2 & E)%obind_Ok)%obind_Ok;
    destruct f' as [|f']; try lia; cbn [strcmp_loop];
    rewrite (mono_load p ro m c1 Hs E1), (mono_load q ro m c2 Hs E2); cbn [obind];
    destruct (c1 =? c2); try done; destruct (c1 =? 0); try done. apply IH; [lia|done].
Qed.

#[export] Instance mono_elf_hash p : Mono (fun m => elf_hash m p).
Proof.
  intros ro m x Hs. unfold elf_hash. generalize (string_fuel_mono ro m Hs).
  generalize (string_fuel ro), (string_fuel m). generalize 0. intros h f. revert p h.
  induction f as [|f IH]; intros p h f' Hf; cbn [elf_hash_loop]; intros (c & Ec & E)%obind_Ok;
    destruct f' as [|f']; try lia; cbn [elf_hash_loop]; rewrite (mono_load p ro m c Hs Ec); cbn [obind];
    destruct (c =? 0); try done. apply IH; [lia|done].
Qed.

(** ** Proofs: the hash *)

Lemma elf_hash_loop_spec s : forall fuel m p h, cstr m p s -> (length s <= fuel)%nat ->
  elf_hash_loop fuel m p h = Ok (fold_left hash_round s h).
Proof.
  induction s as [|c s IH]; intros fuel m p h Hs Hf.
  - destruct fuel; cbn [elf_hash_loop]; by rewrite (cstr_nil _ _ Hs).
  - destruct (cstr_cons _ _ _ _ Hs) as (E & Hc & Hs' & U). destruct fuel as [|fuel]; [cbn in Hf; lia|].
    cbn [elf_hash_loop]. rewrite E. cbn [obind]. rewrite (proj2 (Z.eqb_neq c 0)) by lia. rewrite U.
    apply IH; [done|cbn in Hf; lia].
Qed.

Lemma elf_hash_spec m p s : cstr m p s -> elf_hash m p = Ok (hash_of s).
Proof.
  intros Hs. apply elf_hash_loop_spec; [done|]. pose proof (cstr_size _ _ _ Hs). unfold string_fuel. lia.
Qed.
