(* ===== verification/ElfLink.v ===== *)
(** * Linking an ELF image (the code that bin/linkd and sys/ioglue share)

    linkd's library.c and reloc.c and the kernel's iolibrary.c contain the same
    walks over an image: its program headers, its dynamic section, its hash
    table and its relocations.  They are translated here once, over the memory
    and the image; what the two sides do differently (the way a symbol is looked
    up, the dependencies) is a parameter, filled in by Linkd and IoLibrary. *)

From S2P Require Import Prelude CString Pages Elf.

(** ** Assignments to the fields of an image *)

Definition set_base (v : Z) (img : elf_image) : elf_image :=
  Image v (dynamic img) (strtab img) (strtabSize img) (symtab img) (rel img) (pltRel img) (rellimit img)
    (pltRellimit img) (rela img) (relalimit img) (hashtab img) (buckets img) (chains img) (nbuckets img)
    (nchains img) (initArray img) (initArrayCount img).

Definition set_dynamic (v : Z) (img : elf_image) : elf_image :=
  Image (relocBase img) v (strtab img) (strtabSize img) (symtab img) (rel img) (pltRel img) (rellimit img)
    (pltRellimit img) (rela img) (relalimit img) (hashtab img) (buckets img) (chains img) (nbuckets img)
    (nchains img) (initArray img) (initArrayCount img).

Definition set_strtab (v : Z) (img : elf_image) : elf_image :=
  Image (relocBase img) (dynamic img) v (strtabSize img) (symtab img) (rel img) (pltRel img) (rellimit img)
    (pltRellimit img) (rela img) (relalimit img) (hashtab img) (buckets img) (chains img) (nbuckets img)
    (nchains img) (initArray img) (initArrayCount img).

Definition set_strtabSize (v : Z) (img : elf_image) : elf_image :=
  Image (relocBase img) (dynamic img) (strtab img) v (symtab img) (rel img) (pltRel img) (rellimit img)
    (pltRellimit img) (rela img) (relalimit img) (hashtab img) (buckets img) (chains img) (nbuckets img)
    (nchains img) (initArray img) (initArrayCount img).

Definition set_symtab (v : Z) (img : elf_image) : elf_image :=
  Image (relocBase img) (dynamic img) (strtab img) (strtabSize img) v (rel img) (pltRel img) (rellimit img)
    (pltRellimit img) (rela img) (relalimit img) (hashtab img) (buckets img) (chains img) (nbuckets img)
    (nchains img) (initArray img) (initArrayCount img).

Definition set_rel (v : Z) (img : elf_image) : elf_image :=
  Image (relocBase img) (dynamic img) (strtab img) (strtabSize img) (symtab img) v (pltRel img)
    (rellimit img) (pltRellimit img) (rela img) (relalimit img) (hashtab img) (buckets img) (chains img)
    (nbuckets img) (nchains img) (initArray img) (initArrayCount img).

Definition set_rela (v : Z) (img : elf_image) : elf_image :=
  Image (relocBase img) (dynamic img) (strtab img) (strtabSize img) (symtab img) (rel img) (pltRel img)
    (rellimit img) (pltRellimit img) v (relalimit img) (hashtab img) (buckets img) (chains img)
    (nbuckets img) (nchains img) (initArray img) (initArrayCount img).

Definition set_limits (v0 : Z) (v1 : Z) (img : elf_image) : elf_image :=
  Image (relocBase img) (dynamic img) (strtab img) (strtabSize img) (symtab img) (rel img) (pltRel img) v0
    (pltRellimit img) (rela img) v1 (hashtab img) (buckets img) (chains img) (nbuckets img) (nchains img)
    (initArray img) (initArrayCount img).

Definition set_plt (v0 : Z) (v1 : Z) (img : elf_image) : elf_image :=
  Image (relocBase img) (dynamic img) (strtab img) (strtabSize img) (symtab img) (rel img) v0
    (rellimit img) v1 (rela img) (relalimit img) (hashtab img) (buckets img) (chains img) (nbuckets img)
    (nchains img) (initArray img) (initArrayCount img).

Definition set_hash (v0 : Z) (v1 : Z) (v2 : Z) (v3 : Z) (v4 : Z) (img : elf_image) : elf_image :=
  Image (relocBase img) (dynamic img) (strtab img) (strtabSize img) (symtab img) (rel img) (pltRel img)
    (rellimit img) (pltRellimit img) (rela img) (relalimit img) v0 v3 v4 v1 v2 (initArray img)
    (initArrayCount img).

Definition set_initArray (v : Z) (img : elf_image) : elf_image :=
  Image (relocBase img) (dynamic img) (strtab img) (strtabSize img) (symtab img) (rel img) (pltRel img)
    (rellimit img) (pltRellimit img) (rela img) (relalimit img) (hashtab img) (buckets img) (chains img)
    (nbuckets img) (nchains img) v (initArrayCount img).

Definition set_initArrayCount (v : Z) (img : elf_image) : elf_image :=
  Image (relocBase img) (dynamic img) (strtab img) (strtabSize img) (symtab img) (rel img) (pltRel img)
    (rellimit img) (pltRellimit img) (rela img) (relalimit img) (hashtab img) (buckets img) (chains img)
    (nbuckets img) (nchains img) (initArray img) v.

(** The image of a zeroed structure. *)
Definition zero_image : elf_image := Image 0 0 0 0 0 0 0 0 0 0 0 0 0 0 0 0 0 0.

(** ** The dynamic section *)

(** The local variables of the digesting function, and the image it fills. *)
Record digest := Digest {
  dg_img : elf_image;
  usePLTRel : bool; usePLTRela : bool;
  relSize : Z; relaSize : Z;
  dg_pltRel : Z; pltRelSize : Z
}.

Definition digest_start (img : elf_image) : digest := Digest img false false 0 0 0 0.

Definition on_image (f : elf_image -> elf_image) (d : digest) : digest :=
  Digest (f (dg_img d)) (usePLTRel d) (usePLTRela d) (relSize d) (relaSize d) (dg_pltRel d) (pltRelSize d).

(** [DT_HASH]: the header of the hash table is read at once. *)
Definition digest_hash (m : mem) (v : Z) (d : digest) : outcome digest :=
  let h := u32 (relocBase (dg_img d) + v) in
  let* nbuckets := ld32 m (word_index h 0) in
  let* nchains := ld32 m (word_index h 1) in
  let buckets := word_index h 2 in
  Ok (on_image (set_hash h nbuckets nchains buckets (word_index buckets nbuckets)) d).

(** The cases of the [switch] that fill the image; the others leave it alone. *)
Definition digest_entry (m : mem) (tag v : Z) (d : digest) : outcome digest :=
  let ptr := u32 (relocBase (dg_img d) + v) in
  if tag =? DT_REL then Ok (on_image (set_rel ptr) d)
  else if tag =? DT_RELSZ then
    Ok (Digest (dg_img d) (usePLTRel d) (usePLTRela d) v (relaSize d) (dg_pltRel d) (pltRelSize d))
  else if tag =? DT_JMPREL then
    Ok (Digest (dg_img d) (usePLTRel d) (usePLTRela d) (relSize d) (relaSize d) v (pltRelSize d))
  else if tag =? DT_PLTRELSZ then
    Ok (Digest (dg_img d) (usePLTRel d) (usePLTRela d) (relSize d) (relaSize d) (dg_pltRel d) v)
  else if tag =? DT_RELENT then if v =? sizeof_elf_rel_t then Ok d else Panic
  else if tag =? DT_RELA then Ok (on_image (set_rela ptr) d)
  else if tag =? DT_RELASZ then
    Ok (Digest (dg_img d) (usePLTRel d) (usePLTRela d) (relSize d) v (dg_pltRel d) (pltRelSize d))
  else if tag =? DT_STRTAB then Ok (on_image (set_strtab ptr) d)
  else if tag =? DT_STRSZ then Ok (on_image (set_strtabSize v) d)
  else if tag =? DT_SYMTAB then Ok (on_image (set_symtab ptr) d)
  else if tag =? DT_SYMENT then if v =? sizeof_elf_sym_t then Ok d else Panic
  else if tag =? DT_HASH then digest_hash m v d
  else if tag =? DT_PLTREL then
    Ok (Digest (dg_img d) (v =? DT_REL) (v =? DT_RELA) (relSize d) (relaSize d) (dg_pltRel d) (pltRelSize d))
  else if tag =? DT_INIT_ARRAY then Ok (on_image (set_initArray ptr) d)
  else if tag =? DT_INIT_ARRAYSZ then Ok (on_image (set_initArrayCount (v / 4)) d)
  else Ok d.

(** What follows the loop: the ends of the relocation tables. *)
Definition digest_finish (d : digest) : elf_image :=
  let img := dg_img d in
  let img := set_limits (u32 (rel img + relSize d)) (u32 (rela img + relaSize d)) img in
  if usePLTRel d then
    set_plt (u32 (relocBase img + dg_pltRel d)) (u32 (relocBase img + dg_pltRel d + pltRelSize d)) img
  else img.

(** ** Symbols *)

(** The rest of a bucket's chain.  Every round reads [chains] at a new place,
    so the size of the memory is enough fuel for a walk that ends. *)
Fixpoint symbol_chain (fuel : nat) (m : mem) (img : elf_image) (name symnum : Z) : outcome Z :=
  if symnum =? 0 then Ok NULL else
  match fuel with
  | O => Hang
  | S f =>
      let symbol := sym_at img symnum in
      let* n := st_name m symbol in
      let* c := strcmp m (u32 (strtab img + n)) name in
      if c =? 0 then Ok symbol else
      let* next := ld32 m (word_index (chains img) symnum) in
      symbol_chain f m img name next
  end.

(** An empty table makes the processor trap on the division. *)
Definition library_symbolWithName (m : mem) (img : elf_image) (name hash : Z) : outcome Z :=
  if nbuckets img =? 0 then Fault else
  let* symnum := ld32 m (word_index (buckets img) (hash mod nbuckets img)) in
  symbol_chain (string_fuel m) m img name symnum.

(** [if(symbol && symbol->st_value != 0x0)]: the symbol when it is defined. *)
Definition defined_symbol (m : mem) (img : elf_image) (name hash : Z) : outcome (option Z) :=
  let* symbol := library_symbolWithName m img name hash in
  if symbol =? NULL then Ok None else
  let* v := st_value m symbol in
  Ok (if v =? 0 then None else Some symbol).

(** ** Relocation *)

Section Relocate.
(** Looking a symbol up: the symbol and the base of the library it is in. *)
Context {St : Type} (lookup : St -> mem -> Z -> outcome (option (Z * Z) * St)).

(** The target of a relocation, [container->relocBase + symbol->st_value]. *)
Definition reloc_target (st : St) (m : mem) (symnum : Z) : outcome (option Z * St) :=
  let* (found, st) := lookup st m symnum in
  match found with
  | None => Ok (None, st)
  | Some (symbol, base) => let* v := st_value m symbol in Ok (Some (u32 (base + v)), st)
  end.

(** One entry of the table, [None] when its symbol is not found.  For
    [R_386_RELATIVE] the code reads [container], which nothing has set. *)
Definition relocate_entry (img : elf_image) (st : St) (m : mem) (r : Z) : outcome (option mem * St) :=
  let* offset := r_offset m r in
  let address := u32 (relocBase img + offset) in
  let* info := r_info m r in
  let symnum := ELF32_R_SYM info in
  let type := ELF32_R_TYPE info in
  let* _ := st_name m (sym_at img symnum) in
  if type =? R_386_NONE then Ok (Some m, st)
  else if (type =? R_386_32) || (type =? R_386_GLOB_DAT) then
    let* (target, st) := reloc_target st m symnum in
    match target with
    | None => Ok (None, st)
    | Some target =>
        let* a := ld32 m address in
        let* m := st32 m address (u32 (target + a)) in
        Ok (Some m, st)
    end
  else if type =? R_386_PC32 then
    let* (target, st) := reloc_target st m symnum in
    match target with
    | None => Ok (None, st)
    | Some target =>
        let* a := ld32 m address in
        let* m := st32 m address (u32 (a + u32 (target - address))) in
        Ok (Some m, st)
    end
  else if type =? R_386_RELATIVE then Fault
  else Ok (Some m, st).

(** One entry of the procedure linkage table; gives the target as well. *)
Definition relocate_plt_entry (img : elf_image) (st : St) (m : mem) (r : Z) : outcome (option (Z * mem) * St) :=
  let* offset := r_offset m r in
  let address := u32 (relocBase img + offset) in
  let* info := r_info m r in
  let symnum := ELF32_R_SYM info in
  let type := ELF32_R_TYPE info in
  if negb (type =? R_386_JMP_SLOT) then Panic else
  let* _ := st_name m (sym_at img symnum) in
  let* (target, st) := reloc_target st m symnum in
  match target with
  | None => Ok (None, st)
  | Some target => let* m := st32 m address target in Ok (Some (target, m), st)
  end.

(** [for(rel = first; rel<limit; rel++)] with an early return. *)
Fixpoint relocate_loop (entry : St -> mem -> Z -> outcome (option mem * St))
    (fuel : nat) (st : St) (m : mem) (r limit : Z) : outcome (bool * St * mem) :=
  if negb (r <? limit) then Ok (true, st, m) else
  match fuel with
  | O => Hang
  | S f =>
      let* (res, st) := entry st m r in
      match res with
      | None => Ok (false, st, m)
      | Some m => relocate_loop entry f st m (u32 (r + sizeof_elf_rel_t)) limit
      end
  end.

(** As many rounds as entries fit. *)
Definition rel_fuel (r limit : Z) : nat := Z.to_nat ((limit - r) / sizeof_elf_rel_t + 1).

Definition relocateNonPLT (st : St) (m : mem) (img : elf_image) : outcome (bool * St * mem) :=
  relocate_loop (relocate_entry img) (rel_fuel (rel img) (rellimit img)) st m (rel img) (rellimit img).

Definition plt_entry_loop (img : elf_image) (st : St) (m : mem) (r : Z) : outcome (option mem * St) :=
  let* (res, st) := relocate_plt_entry img st m r in Ok (snd <$> res, st).

Definition relocatePLT (st : St) (m : mem) (img : elf_image) : outcome (bool * St * mem) :=
  relocate_loop (plt_entry_loop img) (rel_fuel (pltRel img) (pltRellimit img)) st m (pltRel img) (pltRellimit img).
End Relocate.

(** ** Program headers *)

(** What the first pass over the program headers finds. *)
Record segments := Segments { minAddress : Z; maxAddress : Z; sg_dynamic : Z; ptload : list Z }.

(** One program header; [ptload] lists the loadable ones in order. *)
Definition scan_header (m : mem) (program : Z) (s : segments) : outcome segments :=
  let* type := p_type m program in
  let* s :=
    if type =? PT_LOAD then
      let* paddr := p_paddr m program in
      let* memsz := p_memsz m program in
      let top := u32 (paddr + memsz) in
      Ok (Segments (if paddr <? minAddress s then paddr else minAddress s)
        (if maxAddress s <? top then top else maxAddress s) (sg_dynamic s) (ptload s ++ [program]))
    else Ok s in
  if type =? PT_DYNAMIC then
    let* vaddr := p_vaddr m program in Ok (Segments (minAddress s) (maxAddress s) vaddr (ptload s))
  else Ok s.

Fixpoint scan_headers (n : nat) (m : mem) (program : Z) (s : segments) : outcome segments :=
  match n with
  | O => Ok s
  | S n' =>
      let* s := scan_header m program s in
      scan_headers n' m (u32 (program + sizeof_elf_program_header_t)) s
  end.

(** [memcpy(&target[p_vaddr - minAddress], &begin[p_offset], p_filesz)] for a
    loadable segment. *)
Definition load_segment (m : mem) (begin target minAddress program : Z) : outcome mem :=
  let* vaddr := p_vaddr m program in
  let* offset := p_offset m program in
  let* filesz := p_filesz m program in
  memcpy m (u32 (target + u32 (vaddr - minAddress))) (u32 (begin + offset)) filesz.
