(* ===== verification/Linkd.v ===== *)
(** * The dynamic linker (bin/linkd)

    library.c, reloc.c, patch.c, dlfcn.c and main.c.  The loaded images, with
    their tables, lie in byte memory; the linker's own structures are records in
    stores indexed by address, and the name of a library is the list of its
    characters.  System calls and the user heap are the class [LinkdSys]. *)

From S2P Require Import Prelude CString Pages Elf ElfLink.

(** ** System calls and allocation *)

Definition MAP_FAILED : Z := UINT32_MAX.
Definition PROT_READ : Z := 1.
Definition PROT_EXEC : Z := 4.
Definition SEEK_SET : Z := 0.
Definition SEEK_END : Z := 2.
Definition O_RDONLY : Z := 1.

Class LinkdSys (Sys : Type) := {
  sys_open : Sys -> list Z -> Z -> Z * Sys;
  sys_close : Sys -> Z -> Sys;
  sys_lseek : Sys -> Z -> Z -> Z -> Z * Sys;
  (** The count and the memory with the bytes in the buffer. *)
  sys_read : Sys -> mem -> Z -> Z -> Z -> Z * mem * Sys;
  (** Private anonymous memory: address, length and protection. *)
  sys_mmap : Sys -> mem -> Z -> Z -> Z -> Z * mem * Sys;
  sys_munmap : Sys -> mem -> Z -> Z -> mem * Sys;
  sys_malloc : Sys -> Z -> outcome (Z * Sys);
  sys_free : Sys -> Z -> outcome Sys
}.

(** ** Data (library.h) *)

Record dependency_t := Dependency { dp_name : Z; dp_library : Z; dp_next : Z }.

Record library_t := Library {
  lb_nameAt : Z; lb_name : list Z; lb_img : elf_image; lb_dependency : Z; lb_pltgot : Z;
  lb_pages : Z; lb_region : Z; lb_references : Z; lb_next : Z
}.

Definition sizeof_dependency_t : Z := 12.
Definition sizeof_library_t : Z := 100.

Definition set_img (img : elf_image) (l : library_t) : library_t :=
  Library (lb_nameAt l) (lb_name l) img (lb_dependency l) (lb_pltgot l) (lb_pages l) (lb_region l) (lb_references l) (lb_next l).
Definition set_references (n : Z) (l : library_t) : library_t :=
  Library (lb_nameAt l) (lb_name l) (lb_img l) (lb_dependency l) (lb_pltgot l) (lb_pages l) (lb_region l) n (lb_next l).
Definition set_next (n : Z) (l : library_t) : library_t :=
  Library (lb_nameAt l) (lb_name l) (lb_img l) (lb_dependency l) (lb_pltgot l) (lb_pages l) (lb_region l) (lb_references l) n.

Definition RTLD_LAZY : Z := 1.
Definition RTLD_NOW : Z := 2.
Definition RTLD_GLOBAL : Z := 4.
Definition RTLD_DEFAULT : Z := 0.
Definition RTLD_NEXT : Z := 1.

(** ** Strings *)

(** The characters of the string at [p]. *)
Fixpoint cstring_loop (fuel : nat) (m : mem) (p : Z) : outcome (list Z) :=
  let* c := load m p in
  if c =? 0 then Ok [] else
  match fuel with
  | O => Hang
  | S f => let* s := cstring_loop f m (u32 (p + 1)) in Ok (c :: s)
  end.

Definition cstring (m : mem) (p : Z) : outcome (list Z) := cstring_loop (string_fuel m) m p.

(** The linker's literals, as characters. *)
Definition str_libdl : list Z := [108; 105; 98; 100; 108; 46; 115; 111].
Definition str_lib : list Z := [47; 108; 105; 98; 47].
Definition str_program : list Z := [47; 98; 105; 110; 47; 116; 101; 115; 116; 46; 98; 105; 110].

(** ** Looking symbols up (library.c) *)

Section Lookup.
Context (libs : gmap Z library_t) (deps : gmap Z dependency_t) (library_main : Z).

(** The dependencies of a library, in order: the first that defines the name. *)
Fixpoint lookup_deps (fuel : nat) (m : mem) (name hash dep : Z) : outcome (option (Z * Z)) :=
  if dep =? NULL then Ok None else
  match fuel with
  | O => Hang
  | S f =>
      let* d := of_option (deps !! dep) in
      let* lib := of_option (libs !! dp_library d) in
      let* symbol := defined_symbol m (lb_img lib) name hash in
      match symbol with
      | Some symbol => Ok (Some (symbol, dp_library d))
      | None => lookup_deps f m name hash (dp_next d)
      end
  end.

(** The symbol and the library it was found in. *)
Definition library_lookupSymbol (m : mem) (library symNum : Z) : outcome (option (Z * Z)) :=
  let* lib := of_option (libs !! library) in
  let lookup := sym_at (lb_img lib) symNum in
  let* n := st_name m lookup in
  let name := u32 (strtab (lb_img lib) + n) in
  let* info := st_info m lookup in
  if ELF32_ST_BIND info =? STB_LOCAL then Ok (Some (lookup, library)) else
  let* hash := elf_hash m name in
  let* main := of_option (libs !! library_main) in
  let* symbol := defined_symbol m (lb_img main) name hash in
  match symbol with
  | Some symbol => Ok (Some (symbol, library_main))
  | None =>
      let* found := lookup_deps (S (size deps)) m name hash (lb_dependency lib) in
      match found with
      | Some found => Ok (Some found)
      | None =>
          let* symbol := defined_symbol m (lb_img lib) name hash in
          Ok (match symbol with Some symbol => Some (symbol, library) | None => None end)
      end
  end.

(** What relocation uses of it: the symbol and [container->relocBase]. *)
Definition lookup_base (library : Z) (_ : unit) (m : mem) (symNum : Z) : outcome (option (Z * Z) * unit) :=
  let* found := library_lookupSymbol m library symNum in
  match found with
  | None => Ok (None, tt)
  | Some (symbol, container) =>
      let* c := of_option (libs !! container) in Ok (Some (symbol, relocBase (lb_img c)), tt)
  end.

(** Every library on the list from [library] on. *)
Fixpoint resolve_from (fuel : nat) (m : mem) (name hash library : Z) : outcome Z :=
  if library =? NULL then Ok NULL else
  match fuel with
  | O => Hang
  | S f =>
      let* lib := of_option (libs !! library) in
      let* symbol := library_symbolWithName m (lb_img lib) name hash in
      if symbol =? NULL then resolve_from f m name hash (lb_next lib) else
      let* v := st_value m symbol in Ok (u32 (relocBase (lb_img lib) + v))
  end.

Definition library_resolveSymbolWithName (library_first : Z) (m : mem) (library name : Z) : outcome Z :=
  let* hash := elf_hash m name in
  if library =? NULL then resolve_from (S (size libs)) m name hash library_first else
  let* lib := of_option (libs !! library) in
  let* symbol := library_symbolWithName m (lb_img lib) name hash in
  if symbol =? NULL then Ok NULL else
  let* v := st_value m symbol in Ok (u32 (relocBase (lb_img lib) + v)).

(** ** Relocation (reloc.c) *)

Definition library_relocateNonPLT (m : mem) (library : Z) : outcome (bool * mem) :=
  let* lib := of_option (libs !! library) in
  let* (ok, _, m) := relocateNonPLT (lookup_base library) tt m (lb_img lib) in Ok (ok, m).

Definition library_relocatePLT (m : mem) (library : Z) : outcome (bool * mem) :=
  let* lib := of_option (libs !! library) in
  let* (ok, _, m) := relocatePLT (lookup_base library) tt m (lb_img lib) in Ok (ok, m).

(** Adds the base to every slot, so that it leads back into the table. *)
Definition lazy_entry (img : elf_image) (m : mem) (r : Z) : outcome mem :=
  let* info := r_info m r in
  if negb (ELF32_R_TYPE info =? R_386_JMP_SLOT) then Panic else
  let* offset := r_offset m r in
  let address := u32 (relocBase img + offset) in
  let* a := ld32 m address in
  st32 m address (u32 (a + relocBase img)).

Fixpoint lazy_loop (fuel : nat) (img : elf_image) (m : mem) (r limit : Z) : outcome mem :=
  if negb (r <? limit) then Ok m else
  match fuel with
  | O => Hang
  | S f => let* m := lazy_entry img m r in lazy_loop f img m (u32 (r + sizeof_elf_rel_t)) limit
  end.

Definition library_relocatePLTLazy (m : mem) (library : Z) : outcome mem :=
  let* lib := of_option (libs !! library) in
  let img := lb_img lib in
  lazy_loop (rel_fuel (pltRel img) (pltRellimit img)) img m (pltRel img) (pltRellimit img).

(** The first call through a slot: binds it; the program dies without a target. *)
Definition library_bind (m : mem) (library offset : Z) : outcome (Z * mem) :=
  let* lib := of_option (libs !! library) in
  let img := lb_img lib in
  let* (res, _) := relocate_plt_entry (lookup_base library) img tt m (u32 (pltRel img + offset)) in
  match res with Some (target, m) => Ok (target, m) | None => Panic end.

Definition library_fixPLTGot (bindStart : Z) (m : mem) (library : Z) : outcome mem :=
  let* lib := of_option (libs !! library) in
  let* m := st32 m (word_index (lb_pltgot lib) 1) library in
  st32 m (word_index (lb_pltgot lib) 2) bindStart.
End Lookup.

(** ** The linker's state *)

Section Linkd.
Context {Sys : Type} `{LinkdSys Sys}.

Record linkd := LinkdState {
  ld_mem : mem; ld_sys : Sys;
  ld_libs : gmap Z library_t; ld_deps : gmap Z dependency_t;
  library_first : Z; library_main : Z;
  (** [__dlerror_hasError] *)
  ld_error : bool
}.

Definition with_mem (st : linkd) (m : mem) (s : Sys) : linkd :=
  LinkdState m s (ld_libs st) (ld_deps st) (library_first st) (library_main st) (ld_error st).
Definition with_lib (st : linkd) (p : Z) (l : library_t) : linkd :=
  LinkdState (ld_mem st) (ld_sys st) (<[p := l]> (ld_libs st)) (ld_deps st) (library_first st) (library_main st) (ld_error st).
Definition with_dep (st : linkd) (p : Z) (d : dependency_t) : linkd :=
  LinkdState (ld_mem st) (ld_sys st) (ld_libs st) (<[p := d]> (ld_deps st)) (library_first st) (library_main st) (ld_error st).
Definition with_first (st : linkd) (p : Z) : linkd :=
  LinkdState (ld_mem st) (ld_sys st) (ld_libs st) (ld_deps st) p (library_main st) (ld_error st).
Definition library_reportError (st : linkd) : linkd :=
  LinkdState (ld_mem st) (ld_sys st) (ld_libs st) (ld_deps st) (library_first st) (library_main st) true.

(** ** Digesting the dynamic section (library.c) *)

(** [case DT_NEEDED]: a new dependency at the end of the library's chain. *)
Definition digest_needed (st : linkd) (library lastDep v : Z) : outcome (linkd * Z) :=
  let* (p, s) := sys_malloc (ld_sys st) sizeof_dependency_t in
  if p =? NULL then Fault else
  let st := with_dep (with_mem st (ld_mem st) s) p (Dependency v NULL NULL) in
  if lastDep =? NULL then
    let* l := of_option (ld_libs st !! library) in
    Ok (with_lib st library (Library (lb_nameAt l) (lb_name l) (lb_img l) p (lb_pltgot l) (lb_pages l) (lb_region l)
          (lb_references l) (lb_next l)), p)
  else
    let* d := of_option (ld_deps st !! lastDep) in
    Ok (with_dep st lastDep (Dependency (dp_name d) (dp_library d) p), p).

Definition digest_pltgot (st : linkd) (library ptr : Z) : outcome linkd :=
  let* l := of_option (ld_libs st !! library) in
  Ok (with_lib st library (Library (lb_nameAt l) (lb_name l) (lb_img l) (lb_dependency l) ptr (lb_pages l) (lb_region l)
        (lb_references l) (lb_next l))).

(** The loop over the entries up to [DT_NULL]; each entry is at a new place, so
    the size of the memory is enough fuel for a section that ends. *)
Fixpoint digest_loop (fuel : nat) (st : linkd) (library dyn lastDep : Z) (d : digest) : outcome (linkd * digest) :=
  let* tag := d_tag (ld_mem st) dyn in
  if tag =? DT_NULL then Ok (st, d) else
  match fuel with
  | O => Hang
  | S f =>
      let* v := d_un (ld_mem st) dyn in
      let next := u32 (dyn + sizeof_elf_dyn_t) in
      if tag =? DT_NEEDED then
        let* (st, last) := digest_needed st library lastDep v in digest_loop f st library next last d
      else if tag =? DT_PLTGOT then
        let* st := digest_pltgot st library (u32 (relocBase (dg_img d) + v)) in digest_loop f st library next lastDep d
      else
        let* d := digest_entry (ld_mem st) tag v d in digest_loop f st library next lastDep d
  end.

Definition library_digestDynamic (st : linkd) (library : Z) : outcome linkd :=
  let* l := of_option (ld_libs st !! library) in
  let* (st, d) := digest_loop (string_fuel (ld_mem st)) st library (dynamic (lb_img l)) NULL (digest_start (lb_img l)) in
  let* l := of_option (ld_libs st !! library) in
  Ok (with_lib st library (set_img (digest_finish d) l)).

(** ** Loading (library.c) *)

Definition library_fileForName (st : linkd) (name : list Z) : Z * linkd :=
  let (fd, s) := sys_open (ld_sys st) name O_RDONLY in
  if 0 <=? fd then (fd, with_mem st (ld_mem st) s) else
  let (fd, s) := sys_open s (str_lib ++ name) O_RDONLY in
  (fd, with_mem st (ld_mem st) s).

(** Reads until [size] bytes have come; a file that gives none is asked for ever.
    The pair is the memory with the bytes, or nothing after an error. *)
Fixpoint read_loop (fuel : nat) (s : Sys) (m : mem) (fd buffer size : Z) : outcome (bool * mem * Sys) :=
  if size =? 0 then Ok (true, m, s) else
  match fuel with
  | O => Hang
  | S f =>
      let '(bytes, m, s) := sys_read s m fd buffer size in
      if bytes =? UINT32_MAX then Ok (false, m, s) else
      read_loop f s m fd (u32 (buffer + bytes)) (u32 (size - bytes))
  end.

Definition library_map_file (st : linkd) (fd : Z) : outcome (Z * Z * linkd) :=
  let (size, s) := sys_lseek (ld_sys st) fd 0 SEEK_END in
  let size := u32 size in
  let mmapSize := u32 (VM_PAGE_COUNT size * VM_PAGE_SIZE) in
  let (_, s) := sys_lseek s fd 0 SEEK_SET in
  let '(area, m, s) := sys_mmap s (ld_mem st) NULL mmapSize PROT_READ in
  if area =? MAP_FAILED then Ok (NULL, 0, with_mem st m s) else
  let* (ok, m, s) := read_loop (S (Z.to_nat size)) s m fd area size in
  if ok then Ok (area, mmapSize, with_mem st m s)
  else let (m, s) := sys_munmap s m area mmapSize in Ok (NULL, 0, with_mem st m s).

(** The second pass over the program headers copies the loadable segments. *)
Fixpoint load_headers (n : nat) (m : mem) (begin target min program : Z) : outcome mem :=
  match n with
  | O => Ok m
  | S n' =>
      let* type := p_type m program in
      let* m := if type =? PT_LOAD then load_segment m begin target min program else Ok m in
      load_headers n' m begin target min (u32 (program + sizeof_elf_program_header_t))
  end.

(** The file at [begin] spread out in fresh memory: the scan of the program
    headers, the mapping and the copies.  Gives the scan, the number of pages
    and the place. *)
Definition map_segments (st : linkd) (begin dynamic : Z) : outcome (segments * Z * Z * linkd) :=
  let m := ld_mem st in
  let* phoff := e_phoff m begin in
  let* phnum := e_phnum m begin in
  let* sg := scan_headers (Z.to_nat phnum) m (u32 (begin + phoff)) (Segments UINT32_MAX 0 dynamic []) in
  let min := VM_PAGE_ALIGN_DOWN (minAddress sg) in
  let pages := VM_PAGE_COUNT (u32 (maxAddress sg - min)) in
  let length := u32 (pages * VM_PAGE_SIZE) in
  let '(target, m, s) := sys_mmap (ld_sys st) m min length (Z.lor PROT_READ PROT_EXEC) in
  let* m := memset m target 0 length in
  let* m := load_headers (Z.to_nat phnum) m begin target min (u32 (begin + phoff)) in
  Ok (Segments min (maxAddress sg) (sg_dynamic sg) (ptload sg), pages, target, with_mem st m s).

Definition library_map_library (st : linkd) (library begin : Z) : outcome linkd :=
  let* l := of_option (ld_libs st !! library) in
  let* (sg, pages, target, st) := map_segments st begin (dynamic (lb_img l)) in
  let base := u32 (target - minAddress sg) in
  let dyn := sg_dynamic sg in
  let img := set_dynamic (if dyn =? NULL then dyn else u32 (base + dyn)) (set_base base (lb_img l)) in
  let l := Library (lb_nameAt l) (lb_name l) img (lb_dependency l) (lb_pltgot l) pages target (lb_references l) (lb_next l) in
  let st := with_lib st library l in
  if dyn =? NULL then Ok st else library_digestDynamic st library.

Definition library_deleteLibrary (st : linkd) (library : Z) : outcome linkd :=
  let* l := of_option (ld_libs st !! library) in
  let (m, s) := sys_munmap (ld_sys st) (ld_mem st) (lb_region l) (u32 (lb_pages l * VM_PAGE_SIZE)) in
  let* s := sys_free s (lb_nameAt l) in
  let* s := sys_free s library in
  Ok (LinkdState m s (delete library (ld_libs st)) (ld_deps st) (library_first st) (library_main st) (ld_error st)).

(** ** Patching libdl (patch.c) *)

(** The addresses of the linker's own functions, and of the literals "dlerror",
    "dlopen", "dlsym" and "dlclose". *)
Record linkd_text := Text { fn_addresses : list Z; fn_names : list Z; bindStart : Z }.

(** The four lookups come first, then a symbol that was found gets the value
    that leads to the linker's function. *)
Fixpoint patch_lookup (m : mem) (img : elf_image) (names : list Z) : outcome (list Z) :=
  match names with
  | [] => Ok []
  | name :: names =>
      let* hash := elf_hash m name in
      let* symbol := library_symbolWithName m img name hash in
      let* symbols := patch_lookup m img names in
      Ok (symbol :: symbols)
  end.

Fixpoint patch_store (m : mem) (img : elf_image) (patches : list (Z * Z)) : outcome mem :=
  match patches with
  | [] => Ok m
  | (symbol, fn) :: ps =>
      let* m := if symbol =? NULL then Ok m else st32 m (u32 (symbol + 4)) (u32 (fn - relocBase img)) in
      patch_store m img ps
  end.

Definition library_patchLinkd (text : linkd_text) (st : linkd) (library : Z) : outcome linkd :=
  let* l := of_option (ld_libs st !! library) in
  if bool_decide (lb_name l = str_libdl) then
    let* symbols := patch_lookup (ld_mem st) (lb_img l) (fn_names text) in
    let* m := patch_store (ld_mem st) (lb_img l) (zip symbols (fn_addresses text)) in
    Ok (with_mem st m (ld_sys st))
  else Ok st.

(** ** Loading by name (library.c) *)

(** Looks for a library with the name on the list. *)
Fixpoint find_library (fuel : nat) (st : linkd) (name : list Z) (library : Z) : outcome (option Z) :=
  if library =? NULL then Ok None else
  match fuel with
  | O => Hang
  | S f =>
      let* l := of_option (ld_libs st !! library) in
      if bool_decide (lb_name l = name) then Ok (Some library) else find_library f st name (lb_next l)
  end.

Definition retain_library (st : linkd) (library : Z) : outcome linkd :=
  let* l := of_option (ld_libs st !! library) in
  Ok (with_lib st library (set_references (u32 (lb_references l + 1)) l)).

Section Load.
Context (text : linkd_text) (withName : linkd -> list Z -> Z -> outcome (Z * linkd)).

(** One dependency that has no library yet.  [strstr] gives back its first
    argument exactly when the second is a prefix of it. *)
Definition resolve_dependency (st : linkd) (library dep : Z) (d : dependency_t) : outcome (bool * linkd) :=
  let* l := of_option (ld_libs st !! library) in
  let* name := cstring (ld_mem st) (u32 (dp_name d + strtab (lb_img l))) in
  let isDl := bool_decide (str_libdl `prefix_of` name) in
  let* (lib, st) :=
    if isDl then withName st str_libdl (Z.lor RTLD_GLOBAL RTLD_NOW) else withName st name (Z.lor RTLD_GLOBAL RTLD_LAZY) in
  if (lib =? NULL) && negb isDl then Ok (false, library_reportError st) else
  let* d := of_option (ld_deps st !! dep) in
  let* st := retain_library (with_dep st dep (Dependency (dp_name d) lib (dp_next d))) lib in
  Ok (true, st).

Fixpoint dependencies_loop (fuel : nat) (st : linkd) (library dep : Z) : outcome (bool * linkd) :=
  if dep =? NULL then Ok (true, st) else
  match fuel with
  | O => Hang
  | S f =>
      let* d := of_option (ld_deps st !! dep) in
      let* (ok, st) := if dp_library d =? NULL then resolve_dependency st library dep d else Ok (true, st) in
      if ok then let* d := of_option (ld_deps st !! dep) in dependencies_loop f st library (dp_next d)
      else Ok (false, st)
  end.

Definition library_resolveDependencies (st : linkd) (library : Z) : outcome (bool * linkd) :=
  let* l := of_option (ld_libs st !! library) in
  dependencies_loop (S (size (ld_deps st))) st library (lb_dependency l).

(** Dependencies, relocation and the linkage table of a mapped library. *)
Definition link_library (st : linkd) (library flags : Z) : outcome (bool * linkd) :=
  let* st := library_patchLinkd text st library in
  let* (ok, st) := library_resolveDependencies st library in
  if negb ok then Ok (false, st) else
  let* (ok, m) :=
    if negb (Z.land flags RTLD_NOW =? 0) then
      library_relocatePLT (ld_libs st) (ld_deps st) (library_main st) (ld_mem st) library
    else let* m := library_relocatePLTLazy (ld_libs st) (ld_mem st) library in Ok (true, m) in
  let st := with_mem st m (ld_sys st) in
  if negb ok then Ok (false, st) else
  let* (ok, m) := library_relocateNonPLT (ld_libs st) (ld_deps st) (library_main st) (ld_mem st) library in
  let st := with_mem st m (ld_sys st) in
  if negb ok then Ok (false, st) else
  let* l := of_option (ld_libs st !! library) in
  let* m := if lb_pltgot l =? NULL then Ok (ld_mem st)
            else library_fixPLTGot (ld_libs st) (bindStart text) (ld_mem st) library in
  Ok (true, with_mem st m (ld_sys st)).

(** A library that is not on the list is read from its file. *)
Definition load_library (st : linkd) (name : list Z) (flags : Z) : outcome (Z * linkd) :=
  let (fd, st) := library_fileForName st name in
  if fd <? 0 then Ok (NULL, library_reportError st) else
  let* (library, s) := sys_malloc (ld_sys st) sizeof_library_t in
  if library =? NULL then Fault else
  let* (p, s) := sys_malloc s (u32 (Z.of_nat (length name) + 1)) in
  if p =? NULL then Fault else
  let st := with_lib (with_mem st (ld_mem st) s) library (Library p name zero_image NULL NULL 0 NULL 1 NULL) in
  let* (begin, fileSize, st) := library_map_file st fd in
  let st := with_mem st (ld_mem st) (sys_close (ld_sys st) fd) in
  let* st := library_map_library st library begin in
  let (m, s) := sys_munmap (ld_sys st) (ld_mem st) begin fileSize in
  let* (ok, st) := link_library (with_mem st m s) library flags in
  if negb ok then let* st := library_deleteLibrary st library in Ok (NULL, st) else
  if negb (Z.land flags RTLD_GLOBAL =? 0) then
    let* l := of_option (ld_libs st !! library) in
    let l := if library_first st =? NULL then l else set_next (library_first st) l in
    Ok (library, with_first (with_lib st library l) library)
  else Ok (library, st).
End Load.

(** [library_withName] calls itself for the dependencies; [depth] bounds how
    deep libraries depend on each other. *)
Fixpoint library_withName (depth : nat) (text : linkd_text) (st : linkd) (name : list Z) (flags : Z) : outcome (Z * linkd) :=
  let* found := find_library (S (size (ld_libs st))) st name (library_first st) in
  match found with
  | Some library => let* st := retain_library st library in Ok (library, st)
  | None =>
      match depth with
      | O => Hang
      | S depth => load_library text (library_withName depth text) st name flags
      end
  end.

(** ** The interface of libdl (dlfcn.c) *)

(** Whether there is a message to give, which is then gone. *)
Definition __dlerror (st : linkd) : bool * linkd :=
  if ld_error st then
    (true, LinkdState (ld_mem st) (ld_sys st) (ld_libs st) (ld_deps st) (library_first st) (library_main st) false)
  else (false, st).

Definition __dlopen (depth : nat) (text : linkd_text) (st : linkd) (file : list Z) (flag : Z) : outcome (Z * linkd) :=
  library_withName depth text st file flag.

Definition __dlsym (st : linkd) (handle symbol : Z) : outcome (Z * linkd) :=
  if handle =? RTLD_NEXT then Ok (NULL, library_reportError st) else
  let* entry := library_resolveSymbolWithName (ld_libs st) (library_first st) (ld_mem st) handle symbol in
  Ok (entry, if entry =? NULL then library_reportError st else st).

Definition __dlclose (st : linkd) (handle : Z) : linkd := st.

(** ** The start (main.c) *)

Definition map_file (st : linkd) (file : list Z) : outcome (Z * Z * linkd) :=
  let (fd, s) := sys_open (ld_sys st) file O_RDONLY in
  let st := with_mem st (ld_mem st) s in
  if fd <? 0 then Ok (NULL, 0, st) else
  let* (area, size, st) := library_map_file st fd in
  Ok (area, size, if area =? NULL then st else with_mem st (ld_mem st) (sys_close (ld_sys st) fd)).

(** The program is not moved: its addresses are those of the file. *)
Definition map_program (st : linkd) (begin : Z) : outcome (Z * Z * linkd) :=
  let* (sg, pages, target, st) := map_segments st begin NULL in
  let* (library, s) := sys_malloc (ld_sys st) sizeof_library_t in
  if library =? NULL then Fault else
  let l := Library NULL [] (set_dynamic (sg_dynamic sg) zero_image) NULL NULL pages target 1 NULL in
  let* entry := e_entry (ld_mem st) begin in
  Ok (library, entry, with_lib (with_mem st (ld_mem st) s) library l).

(** Up to the call of the program's entry point, which is the result; without a
    program the linker exits.  Failures to resolve or relocate are not looked at. *)
Definition _start (depth : nat) (text : linkd_text) (st : linkd) : outcome (option Z * linkd) :=
  let* (data, size, st) := map_file st str_program in
  if size =? 0 then Ok (None, st) else
  let* (library, entry, st) := map_program st data in
  let (m, s) := sys_munmap (ld_sys st) (ld_mem st) data size in
  let st := LinkdState m s (ld_libs st) (ld_deps st) (library_first st) library (ld_error st) in
  let* l := of_option (ld_libs st !! library) in
  if dynamic (lb_img l) =? NULL then Ok (Some entry, st) else
  let* st := library_digestDynamic st library in
  let* (_, st) := library_resolveDependencies (library_withName depth text) st library in
  let* (_, m) := library_relocatePLT (ld_libs st) (ld_deps st) library (ld_mem st) library in
  let* (_, m) := library_relocateNonPLT (ld_libs st) (ld_deps st) library m library in
  Ok (Some entry, with_mem st m (ld_sys st)).
End Linkd.
