(* ===== verification/ElfReloc.v ===== *)
(** * Symbols and relocations of an ELF image

    What a well-formed hash table of an image is, and that the walk along a
    bucket's chain finds a symbol of a given name exactly when there is one.
    Then relocation: a table is applied entry by entry while the memory changes.
    Against any lookup that only reads a part [ro] of the memory that holds no
    relocated word, the loops compute what the i386 supplement to the ELF
    specification says of each entry, and touch nothing else. *)

From S2P Require Import Prelude CString Elf ElfLink.

(** ** Well-formed tables *)

(** The symbols of an image by number: name and value. *)
Abbreviation symbols := (gmap Z (list Z * Z)).

Section Tables.
Context (ro : mem) (img : elf_image).
Implicit Types (T : symbols) (i x : Z) (s : list Z).

(** Symbol [i] of the table has the name [s] and the value [v]. *)
Definition symbol_at i s v : Prop :=
  exists n, word_at ro (sym_at img i) n /\ word_at ro (u32 (sym_at img i + 4)) v
    /\ cstr ro (u32 (strtab img + n)) s /\ u32 (strtab img + n) <> NULL /\ sym_at img i <> NULL.

(** [l] are the symbols of the chain that starts with [x]. *)
Inductive chain : Z -> list Z -> Prop :=
| chain_end : chain 0 []
| chain_link x next l : x <> 0 -> word_at ro (word_index (chains img) x) next -> chain next l -> chain x (x :: l).

(** The hash table of the ELF specification: each bucket's chain lists the
    symbols whose names hash to it, and no name occurs twice. *)
Record hash_table T : Prop := {
  ht_nbuckets : 0 < nbuckets img;
  ht_symbol i s v : T !! i = Some (s, v) -> symbol_at i s v;
  ht_bucket b : 0 <= b < nbuckets img -> exists x l, word_at ro (word_index (buckets img) b) x /\ chain x l
    /\ forall i, i ∈ l <-> i <> 0 /\ exists s v, T !! i = Some (s, v) /\ hash_of s mod nbuckets img = b;
  ht_unique i j s v w : i <> 0 -> j <> 0 -> T !! i = Some (s, v) -> T !! j = Some (s, w) -> i = j
}.

(** The table has the symbol [i] with this name, at a value other than zero. *)
Definition defines T s i v : Prop := i <> 0 /\ T !! i = Some (s, v) /\ v <> 0.
End Tables.

(** ** Chains *)

Section Chains.
Context (ro : mem) (img : elf_image).

Lemma word_at_fun m p v w : word_at m p v -> word_at m p w -> v = w.
Proof. intros Hv%ld32_word Hw%ld32_word. congruence. Qed.

Lemma chain_fun x l : chain ro img x l -> forall l', chain ro img x l' -> l = l'.
Proof.
  induction 1 as [|x next l Hx Hn Hc IH]; intros l' Hl'; inversion Hl' as [|? next' ? ? Hn' ?]; subst; try done.
  f_equal. apply IH. by rewrite (word_at_fun _ _ _ _ Hn Hn').
Qed.

Lemma chain_suffix x l : chain ro img x l -> forall l1 y l2, l = l1 ++ y :: l2 -> chain ro img y (y :: l2).
Proof.
  induction 1 as [|x next l Hx Hn Hc IH]; intros l1 y l2 E; [by destruct l1|].
  destruct l1 as [|z l1]; injection E as -> ->; [by econstructor|by eapply IH].
Qed.

(** No place of [chains] is read twice on the way along a chain. *)
Lemma chain_places x l : chain ro img x l -> NoDup (word_index (chains img) <$> l).
Proof.
  induction 1 as [|x next l Hx Hn Hc IH]; [constructor|]. rewrite fmap_cons. constructor; [|done].
  intros (y & E & (l1 & l2 & El)%list_elem_of_split)%list_elem_of_fmap.
  pose proof (chain_suffix _ _ Hc _ _ _ El) as Hy. inversion Hy as [|? next' ? ? Hn' Hc']; subst.
  rewrite <- E in Hn'. rewrite (word_at_fun _ _ _ _ Hn' Hn) in Hc'. pose proof (chain_fun _ _ Hc' _ Hc) as Hl.
  apply (f_equal length) in Hl. rewrite length_app in Hl. cbn in Hl. lia.
Qed.

Lemma chain_next x l y : chain ro img x l -> y ∈ l -> exists next, word_at ro (word_index (chains img) y) next.
Proof. induction 1; intros Hy; inversion Hy; subst; eauto. Qed.

Lemma word_at_mapped m p v : word_at m p v -> is_Some (m !! p).
Proof. intros ([E _] & _). by eexists. Qed.

Lemma chain_length x l : chain ro img x l -> (length l <= size ro)%nat.
Proof.
  intros Hc. pose proof (chain_places x l Hc) as Hnd. rewrite <- (length_fmap (word_index (chains img))).
  apply places_size; [done|]. intros a (y & -> & Hy)%list_elem_of_fmap.
  destruct (chain_next x l y Hc Hy) as [next Hn]. by eapply word_at_mapped.
Qed.
End Chains.

(** ** The walk *)

Lemma cstr_mono ro m p s : ro ⊆ m -> cstr ro p s -> cstr m p s.
Proof.
  intros Hs (Hb & ? & ? & ?). split_and!; try done. revert Hb. generalize (s ++ [0]). clear -Hs. intros bs. revert p.
  induction bs as [|b bs IH]; intros p; cbn; [done|]. intros [Hb Hbs]. split; [by eapply lookup_weaken|by apply IH].
Qed.

Lemma strcmp_zero m p q s t : cstr m p s -> cstr m q t -> p <> NULL -> q <> NULL ->
  exists c, strcmp m p q = Ok c /\ (c = 0 <-> s = t).
Proof.
  intros Hp Hq Np Nq. exists (compare_strings s t).
  split; [|apply compare_strings_zero; [apply Hp|apply Hq]].
  unfold strcmp. rewrite !(proj2 (Z.eqb_neq _ NULL)) by done. apply strcmp_loop_spec; [done..|].
  pose proof (cstr_size _ _ _ Hp). unfold string_fuel. lia.
Qed.

Section Walk.
Context (ro : mem) (img : elf_image) (T : symbols) (HT : hash_table ro img T).
Context (m : mem) (Hs : ro ⊆ m) (name : Z) (s : list Z) (Hname : cstr m name s) (Hnn : name <> NULL).

(** What the walk finds among the symbols of [l]. *)
Definition walk_result (l : list Z) (p : Z) : Prop :=
  (p = NULL /\ forall i v, i ∈ l -> T !! i <> Some (s, v)) \/
  (exists i v, i ∈ l /\ T !! i = Some (s, v) /\ p = sym_at img i /\ p <> NULL).

Lemma symbol_chain_spec x l : chain ro img x l -> (forall i, i ∈ l -> is_Some (T !! i)) ->
  forall fuel, (length l <= fuel)%nat -> exists p, symbol_chain fuel m img name x = Ok p /\ walk_result l p.
Proof using All.
  induction 1 as [|x next l Hx Hn Hc IH]; intros HTl fuel Hf.
  - exists NULL. destruct fuel; (split; [done|]); left; split; try done; intros i v Hi; by apply not_elem_of_nil in Hi.
  - destruct fuel as [|fuel]; [cbn in Hf; lia|]. cbn [symbol_chain]. rewrite (proj2 (Z.eqb_neq x 0)) by done.
    destruct (HTl x) as [[t v] Hx']; [left|]. destruct (ht_symbol ro img T HT x t v Hx') as (n & Hn1 & Hv & Ht & Ht0 & Hsx).
    unfold st_name. rewrite (mono_ld32 _ ro m n Hs (ld32_word _ _ _ Hn1)). cbn [obind].
    destruct (strcmp_zero m _ name t s (cstr_mono ro m _ t Hs Ht) Hname Ht0 Hnn) as (c & -> & Hc0). cbn [obind].
    destruct (Z.eqb_spec c 0) as [Ec|Ec].
    + exists (sym_at img x). split; [done|]. right. exists x, v. apply Hc0 in Ec. subst t. by split_and!; [left|..].
    + rewrite (mono_ld32 _ ro m next Hs (ld32_word _ _ _ Hn)). cbn [obind].
      destruct (IH ltac:(intros i Hi; apply HTl; by right) fuel ltac:(cbn in Hf; lia)) as (p & -> & Hp).
      exists p. split; [done|]. destruct Hp as [[-> Hnone]|(i & w & Hi & HTi & -> & Hp)].
      * left. split; [done|]. intros i w [->|Hi]%elem_of_cons; [|by apply Hnone].
        rewrite Hx'. intros [= -> _]. apply Ec. by apply Hc0.
      * right. exists i, w. by split_and!; [right|..].
Qed.

Lemma symbolWithName_spec : exists p, library_symbolWithName m img name (hash_of s) = Ok p /\
  ((p = NULL /\ forall i v, i <> 0 -> T !! i <> Some (s, v)) \/
   (exists i v, i <> 0 /\ T !! i = Some (s, v) /\ p = sym_at img i /\ p <> NULL)).
Proof using All.
  pose proof (ht_nbuckets ro img T HT) as Hnb. unfold library_symbolWithName. rewrite (proj2 (Z.eqb_neq _ 0)) by lia.
  set (b := hash_of s mod nbuckets img). assert (Hb : 0 <= b < nbuckets img) by (apply Z.mod_pos_bound; lia).
  destruct (ht_bucket ro img T HT b Hb) as (x & l & Hx & Hc & Hl).
  rewrite (mono_ld32 _ ro m x Hs (ld32_word _ _ _ Hx)). cbn [obind].
  destruct (symbol_chain_spec x l Hc) with (fuel := string_fuel m) as (p & -> & Hp).
  { intros i (_ & t & v & Hi & _)%Hl. by eexists. }
  { pose proof (chain_length ro img x l Hc). pose proof (map_subseteq_size ro m Hs). unfold string_fuel. lia. }
  exists p. split; [done|]. destruct Hp as [[-> Hnone]|(i & v & Hi & HTi & -> & Hp)].
  - left. split; [done|]. intros i v Hi HTi. apply (Hnone i v); [|done]. apply Hl. eauto.
  - right. exists i, v. apply Hl in Hi as [Hi _]. done.
Qed.

(** The same for symbols that are defined: at most one is, so the walk finds it. *)
Lemma defined_symbol_spec :
  (exists i v, defines T s i v /\ sym_at img i <> NULL /\ defined_symbol m img name (hash_of s) = Ok (Some (sym_at img i))) \/
  ((forall i v, ~ defines T s i v) /\ defined_symbol m img name (hash_of s) = Ok None).
Proof using All.
  unfold defined_symbol. destruct symbolWithName_spec as (p & -> & [[-> Hnone]|(i & v & Hi & HTi & -> & Hp)]); cbn [obind].
  - right. split; [|done]. intros i v (Hi & HTi & _). by eapply Hnone.
  - rewrite (proj2 (Z.eqb_neq _ NULL)) by done. destruct (ht_symbol ro img T HT i s v HTi) as (n & _ & Hv & _).
    unfold st_value. rewrite (mono_ld32 _ ro m v Hs (ld32_word _ _ _ Hv)). cbn [obind].
    destruct (Z.eqb_spec v 0) as [->|Hv0].
    + right. split; [|done]. intros j w (Hj & HTj & Hw). pose proof (ht_unique ro img T HT i j s 0 w Hi Hj HTi HTj).
      subst j. congruence.
    + left. exists i, v. done.
Qed.
End Walk.

(** ** Tables of relocations *)

Record reloc := Reloc { rc_offset : Z; rc_sym : Z; rc_type : Z }.

#[export] Instance reloc_eq_dec : EqDecision reloc.
Proof. solve_decision. Defined.

(** The entries of the table at [r]; each names a symbol of the table. *)
Fixpoint rels_at (ro : mem) (img : elf_image) (r : Z) (rs : list reloc) : Prop :=
  match rs with
  | [] => True
  | rc :: rs =>
      0 <= r /\ r + 8 < 2 ^ 32 /\ word_at ro r (rc_offset rc)
      /\ (exists info, word_at ro (r + 4) info /\ ELF32_R_SYM info = rc_sym rc /\ ELF32_R_TYPE info = rc_type rc)
      /\ (exists n, word_at ro (sym_at img (rc_sym rc)) n)
      /\ rels_at ro img (r + 8) rs
  end.

(** Does the relocation change its word? *)
Definition touches (rc : reloc) : bool :=
  (rc_type rc =? R_386_32) || (rc_type rc =? R_386_GLOB_DAT) || (rc_type rc =? R_386_PC32).

Definition site (img : elf_image) (rc : reloc) : Z := u32 (relocBase img + rc_offset rc).

(** What the code leaves: [t] is the address of the symbol, [a] the word before,
    [p] its place. *)
Definition relocated (rc : reloc) (t a p : Z) : Z :=
  if rc_type rc =? R_386_PC32 then u32 (t + a - p) else u32 (t + a).

(** What the i386 supplement defines: S + A, S + A - P, and for [R_386_GLOB_DAT] the
    symbol's address alone. *)
Definition supplement_value (rc : reloc) (t a p : Z) : Z :=
  if rc_type rc =? R_386_PC32 then u32 (t + a - p) else if rc_type rc =? R_386_GLOB_DAT then u32 t else u32 (t + a).

Lemma relocated_supplement rc t a p : (rc_type rc = R_386_GLOB_DAT -> a = 0) -> relocated rc t a p = supplement_value rc t a p.
Proof.
  intros Ha. unfold relocated, supplement_value. destruct (_ =? R_386_PC32); [done|].
  destruct (Z.eqb_spec (rc_type rc) R_386_GLOB_DAT) as [E|]; [|done]. by rewrite Ha, Z.add_0_r.
Qed.

(** They differ when the word of a [R_386_GLOB_DAT] was not zero. *)
Lemma glob_dat_adds : relocated (Reloc 0 1 R_386_GLOB_DAT) 4096 4 0 = 4100 /\ supplement_value (Reloc 0 1 R_386_GLOB_DAT) 4096 4 0 = 4096.
Proof. split; reflexivity. Qed.

(** Sites apart from each other and from [ro]. *)
Definition apart (p q : Z) : Prop := p + 4 <= q \/ q + 4 <= p.
Definition site_free (ro : mem) (p : Z) : Prop := forall k, 0 <= k < 4 -> ro !! (p + k) = None.

Lemma u32_add_l a b : u32 (u32 a + b) = u32 (a + b).
Proof. unfold u32. by rewrite Zplus_mod_idemp_l. Qed.

Lemma u32_add_r a b : u32 (a + u32 b) = u32 (a + b).
Proof. unfold u32. by rewrite Zplus_mod_idemp_r. Qed.

(** Writing a word outside [ro] keeps it a part of the memory. *)
Lemma write_word_above ro m p v : ro ⊆ m -> site_free ro p -> ro ⊆ write m p (word_bytes v).
Proof.
  intros Hs Hf. apply map_subseteq_spec. intros q b Hq. rewrite write_outside; [by eapply lookup_weaken|].
  cbn. destruct (decide (p <= q < p + 4)) as [Hin|]; [|lia]. specialize (Hf (q - p) ltac:(lia)).
  replace (p + (q - p)) with q in Hf by lia. congruence.
Qed.

Section Table.
Context (ro : mem) (img : elf_image).

Lemma rels_at_fuel r limit rs : rels_at ro img r rs -> limit = r + 8 * Z.of_nat (length rs) -> (length rs < rel_fuel r limit)%nat.
Proof.
  intros _ ->. unfold rel_fuel, sizeof_elf_rel_t. replace (r + 8 * Z.of_nat (length rs) - r) with (Z.of_nat (length rs) * 8) by lia.
  rewrite Z.div_mul by lia. lia.
Qed.

(** The reads at the head of the loop's body. *)
Lemma rel_reads r rc rs m : ro ⊆ m -> rels_at ro img r (rc :: rs) ->
  r_offset m r = Ok (rc_offset rc) /\
  (exists info, r_info m r = Ok info /\ ELF32_R_SYM info = rc_sym rc /\ ELF32_R_TYPE info = rc_type rc) /\
  (exists n, st_name m (sym_at img (rc_sym rc)) = Ok n) /\ u32 (r + 8) = r + 8 /\ rels_at ro img (r + 8) rs.
Proof.
  intros Hs (H0 & H1 & Ho & (info & Hi & Hsym & Hty) & (n & Hn) & Hrs). split_and!.
  - by apply (mono_ld32 _ ro m _ Hs), ld32_word.
  - exists info. split_and!; try done. unfold r_info. rewrite u32_small by lia.
    by apply (mono_ld32 _ ro m _ Hs), ld32_word.
  - exists n. by apply (mono_ld32 _ ro m _ Hs), ld32_word.
  - apply u32_small. lia.
  - done.
Qed.
End Table.

(** ** The loop over plain relocations *)

Section NonPLT.
Context {St : Type} (lookup : St -> mem -> Z -> outcome (option (Z * Z) * St)).
Context (ro : mem) (img : elf_image) (good : St -> Prop) (target : Z -> Z).

(** The lookup finds the address of symbol [sym], whatever the words outside
    [ro] are, and may change its state. *)
Definition finds (sym : Z) : Prop := forall st m, good st -> ro ⊆ m ->
  exists st', reloc_target lookup st m sym = Ok (Some (target sym), st') /\ good st'.

(** An entry that can be applied in [m]. *)
Definition applicable (m : mem) (rc : reloc) : Prop :=
  rc_type rc <> R_386_RELATIVE /\
  (touches rc = true -> finds (rc_sym rc) /\ site_free ro (site img rc) /\ exists a, word_at m (site img rc) a).

(** The memory after one entry. *)
Definition apply_reloc (m : mem) (rc : reloc) : mem :=
  if touches rc then
    match ld32 m (site img rc) with
    | Ok a => write m (site img rc) (word_bytes (relocated rc (target (rc_sym rc)) a (site img rc)))
    | _ => m
    end
  else m.

Lemma word_at_room m p v : word_at m p v -> word_room m p.
Proof.
  intros (Hb & _ & Hp & Hp'). split_and!; try lia. intros i Hi.
  destruct (lookup_lt_is_Some_2 (word_bytes v) i) as [b Hb']; [cbn; lia|].
  rewrite (bytes_at_lookup m _ p i b Hb Hb'). by eexists.
Qed.

Lemma apply_reloc_outside m rc q : (touches rc = true -> q < site img rc \/ site img rc + 4 <= q) ->
  apply_reloc m rc !! q = m !! q.
Proof.
  intros Hq. unfold apply_reloc. destruct (touches rc); [|done]. destruct (ld32 m (site img rc)); try done.
  apply write_outside. cbn. specialize (Hq eq_refl). lia.
Qed.

Lemma apply_reloc_word m rc p v : (touches rc = true -> apart (site img rc) p) -> word_at m p v -> word_at (apply_reloc m rc) p v.
Proof.
  intros Hq Hv. unfold apply_reloc. destruct (touches rc); [|done]. destruct (ld32 m (site img rc)); try done.
  apply word_at_write; [|done]. cbn. specialize (Hq eq_refl). unfold apart in Hq. lia.
Qed.

Lemma apply_reloc_above m rc : applicable m rc -> ro ⊆ m -> ro ⊆ apply_reloc m rc.
Proof.
  intros [_ Ha] Hs. unfold apply_reloc. destruct (touches rc); [|done]. destruct (Ha eq_refl) as (_ & Hf & _).
  destruct (ld32 m (site img rc)); try done. by apply write_word_above.
Qed.

Lemma apply_reloc_result m rc a : touches rc = true -> word_at m (site img rc) a ->
  word_at (apply_reloc m rc) (site img rc) (relocated rc (target (rc_sym rc)) a (site img rc)).
Proof.
  intros Ht Ha. unfold apply_reloc. rewrite Ht, (ld32_word _ _ _ Ha). destruct Ha as (_ & _ & ? & ?).
  apply word_at_written; [done..|]. unfold relocated. destruct (_ =? _); apply u32_range.
Qed.

Lemma relocate_entry_spec st m r rc rs : good st -> ro ⊆ m -> rels_at ro img r (rc :: rs) -> applicable m rc ->
  exists st', relocate_entry lookup img st m r = Ok (Some (apply_reloc m rc), st') /\ good st'.
Proof.
  intros Hg Hs Hr [Hrel Ha]. destruct (rel_reads ro img r rc rs m Hs Hr) as (Ho & (info & Hi & Hsym & Hty) & (n & Hn) & _).
  unfold relocate_entry. rewrite Ho. cbn [obind]. rewrite Hi. cbn [obind]. rewrite Hsym, Hn, Hty. cbn [obind].
  change (u32 (relocBase img + rc_offset rc)) with (site img rc).
  destruct (touches rc) eqn:Ht.
  - destruct (Ha eq_refl) as (Hf & _ & a & Hwa). destruct (Hf st m Hg Hs) as (st' & Ef & Hg'). exists st'. split; [|done].
    pose proof (word_at_room _ _ _ Hwa) as Hroom. unfold apply_reloc, relocated, touches in *.
    rewrite Ht, (ld32_word _ _ _ Hwa). rewrite Ef. cbn [obind].
    rewrite !(st32_room m) by done. cbn [obind].
    destruct (Z.eqb_spec (rc_type rc) R_386_NONE) as [E0|_]; [rewrite E0 in Ht; discriminate Ht|].
    destruct (Z.eqb_spec (rc_type rc) R_386_PC32) as [E0|_]; [rewrite E0|]; cbn -[u32 word_bytes write].
    + rewrite u32_add_r. by replace (a + (target (rc_sym rc) - site img rc)) with (target (rc_sym rc) + a - site img rc) by lia.
    + rewrite orb_false_r in Ht. by rewrite Ht.
  - exists st. split; [|done]. unfold apply_reloc. rewrite Ht. unfold touches in Ht.
    apply orb_false_iff in Ht as [Ht ->]. rewrite Ht. apply Z.eqb_neq in Hrel. rewrite Hrel.
    by destruct (_ =? R_386_NONE).
Qed.

(** Sites pairwise apart. *)
Fixpoint all_apart (rs : list reloc) : Prop :=
  match rs with
  | [] => True
  | rc :: rs =>
      (forall rc', rc' ∈ rs -> touches rc = true -> touches rc' = true -> apart (site img rc) (site img rc')) /\ all_apart rs
  end.

Lemma applicable_step m rc rc' : (touches rc = true -> touches rc' = true -> apart (site img rc) (site img rc')) ->
  applicable m rc' -> applicable (apply_reloc m rc) rc'.
Proof.
  intros Hap [Hr Ha]. split; [done|]. intros Ht'. destruct (Ha Ht') as (? & ? & a & Hwa). split_and!; try done.
  exists a. apply apply_reloc_word; [|done]. intros Ht. by apply Hap.
Qed.

Lemma relocate_loop_spec rs : forall fuel st m r, good st -> ro ⊆ m -> rels_at ro img r rs -> all_apart rs ->
  (forall rc, rc ∈ rs -> applicable m rc) -> (length rs < fuel)%nat -> exists st',
  relocate_loop (relocate_entry lookup img) fuel st m r (r + 8 * Z.of_nat (length rs)) = Ok (true, st', fold_left apply_reloc rs m) /\ good st'.
Proof.
  induction rs as [|rc rs IH]; intros fuel st m r Hg Hs Hr Hap Ha Hf.
  - exists st. destruct fuel; cbn [relocate_loop length]; by rewrite (proj2 (Z.ltb_ge _ _)) by lia.
  - destruct fuel as [|fuel]; [lia|]. cbn [relocate_loop length] in *. rewrite (proj2 (Z.ltb_lt r _)) by lia. cbn [negb].
    destruct (relocate_entry_spec st m r rc rs Hg Hs Hr (Ha rc ltac:(left))) as (st' & -> & Hg'). cbn [obind].
    destruct (rel_reads ro img r rc rs m Hs Hr) as (_ & _ & _ & Hu & Hr'). unfold sizeof_elf_rel_t. rewrite Hu.
    destruct Hap as [Hap1 Hap2].
    destruct (IH fuel st' (apply_reloc m rc) (r + 8)) as (st'' & E & Hg''); try done; try lia.
    + apply apply_reloc_above; [apply Ha; left|done].
    + intros rc' Hrc'. apply applicable_step; [by apply Hap1|]. apply Ha. by right.
    + exists st''. split; [|done]. cbn [fold_left]. rewrite <- E. f_equal. lia.
Qed.

Lemma fold_reloc_word rs : forall m p v, (forall rc, rc ∈ rs -> touches rc = true -> apart (site img rc) p) ->
  word_at m p v -> word_at (fold_left apply_reloc rs m) p v.
Proof.
  induction rs as [|rc rs IH]; intros m p v Hap Hv; [done|]. cbn [fold_left]. apply IH; [intros; apply Hap; [by right|done]|].
  apply apply_reloc_word; [|done]. intros Ht. apply Hap; [left|done].
Qed.

Lemma fold_reloc_result rs : forall m, all_apart rs -> forall rc a, rc ∈ rs -> touches rc = true -> word_at m (site img rc) a ->
  word_at (fold_left apply_reloc rs m) (site img rc) (relocated rc (target (rc_sym rc)) a (site img rc)).
Proof.
  induction rs as [|rc rs IH]; intros m Hap0 rc0 a Hin Ht Ha; [by apply not_elem_of_nil in Hin|].
  destruct Hap0 as [Hap Hap']. cbn [fold_left].
  apply elem_of_cons in Hin as [->|Hin].
  - apply fold_reloc_word; [|by apply apply_reloc_result]. intros rc' Hrc' Ht'.
    destruct (Hap rc' Hrc' Ht Ht'); [by right|by left].
  - apply IH; [done..|]. apply apply_reloc_word; [|done]. intros Ht'. by apply Hap.
Qed.

Lemma fold_reloc_outside rs : forall m q, (forall rc, rc ∈ rs -> touches rc = true -> q < site img rc \/ site img rc + 4 <= q) ->
  fold_left apply_reloc rs m !! q = m !! q.
Proof.
  induction rs as [|rc rs IH]; intros m q Hq; [done|]. cbn [fold_left].
  rewrite IH by (intros; apply Hq; [by right|done]). apply apply_reloc_outside. intros Ht. apply Hq; [left|done].
Qed.
End NonPLT.

(** ** The procedure linkage table *)

Section PLT.
Context {St : Type} (lookup : St -> mem -> Z -> outcome (option (Z * Z) * St)).
Context (ro : mem) (img : elf_image) (good : St -> Prop) (target : Z -> Z).
Context (rs : list reloc) (m0 : mem).

(** The table: jump slots, each at a place of its own outside [ro], whose
    symbols are found. *)
Record slots : Prop := {
  sl_type rc : rc ∈ rs -> rc_type rc = R_386_JMP_SLOT;
  sl_found rc : rc ∈ rs -> finds lookup ro good target (rc_sym rc);
  sl_free rc : rc ∈ rs -> site_free ro (site img rc);
  sl_apart rc rc' : rc ∈ rs -> rc' ∈ rs -> rc = rc' \/ apart (site img rc) (site img rc');
  sl_u32 rc : rc ∈ rs -> is_u32 (target (rc_sym rc))
}.

(** A memory in which the slots of [done] lead to their targets, the others hold
    something, and nothing else differs from [m0]. *)
Record linked (done : list reloc) (m : mem) : Prop := {
  lk_above : ro ⊆ m;
  lk_outside q : (forall rc, rc ∈ rs -> q < site img rc \/ site img rc + 4 <= q) -> m !! q = m0 !! q;
  lk_bound rc : rc ∈ done -> word_at m (site img rc) (target (rc_sym rc));
  lk_slot rc : rc ∈ rs -> exists a, word_at m (site img rc) a
}.

(** Once every slot is bound the memory is determined. *)
Lemma linked_unique m m' : linked rs m -> linked rs m' -> m = m'.
Proof.
  intros H H'. apply map_eq. intros q. destruct (decide (Exists (fun rc => site img rc <= q < site img rc + 4) rs)) as [Hx|Hx].
  - apply Exists_exists in Hx as (rc & Hrc & Hq).
    destruct (lk_bound _ _ H rc Hrc) as (Hb & _), (lk_bound _ _ H' rc Hrc) as (Hb' & _).
    destruct (lookup_lt_is_Some_2 (word_bytes (target (rc_sym rc))) (Z.to_nat (q - site img rc))) as [b Eb]; [cbn; lia|].
    pose proof (bytes_at_lookup _ _ _ _ _ Hb Eb) as E. pose proof (bytes_at_lookup _ _ _ _ _ Hb' Eb) as E'.
    replace (site img rc + Z.of_nat (Z.to_nat (q - site img rc))) with q in * by lia. congruence.
  - assert (Ho : forall rc, rc ∈ rs -> q < site img rc \/ site img rc + 4 <= q).
    { intros rc Hrc. destruct (decide (site img rc <= q < site img rc + 4)); [|lia]. destruct Hx. apply Exists_exists. eauto. }
    by rewrite (lk_outside _ _ H q Ho), (lk_outside _ _ H' q Ho).
Qed.

(** Writing a slot: [done] grows by it when the word is its target. *)
Lemma linked_write (Hsl : slots) done m rc v : linked done m -> rc ∈ rs -> is_u32 v ->
  (forall rc', rc' ∈ done -> rc' ∈ rs) -> (rc ∈ done -> v = target (rc_sym rc)) ->
  linked done (write m (site img rc) (word_bytes v)) /\
  (v = target (rc_sym rc) -> linked (rc :: done) (write m (site img rc) (word_bytes v))).
Proof.
  intros Hl Hrc Hv Hd Hv'. destruct (lk_slot _ _ Hl rc Hrc) as (a & _ & _ & Hp & Hp').
  assert (Hself : word_at (write m (site img rc) (word_bytes v)) (site img rc) v) by (by apply word_at_written).
  assert (Hother : forall rc' w, rc' ∈ rs -> rc <> rc' -> word_at m (site img rc') w ->
    word_at (write m (site img rc) (word_bytes v)) (site img rc') w).
  { intros rc' w Hrc' Hne Hw. apply word_at_write; [|done]. cbn.
    destruct (sl_apart Hsl rc rc' Hrc Hrc') as [|[]]; [done|lia..]. }
  assert (Hbase : linked done (write m (site img rc) (word_bytes v))).
  { constructor.
    - apply write_word_above; [apply Hl|by apply Hsl].
    - intros q Hq. rewrite write_outside by (cbn; specialize (Hq rc Hrc); lia). by apply Hl.
    - intros rc' Hrc'. destruct (decide (rc = rc')) as [<-|Hne]; [by rewrite <- Hv'|]. apply Hother; [auto|done|by apply Hl].
    - intros rc' Hrc'. destruct (decide (rc = rc')) as [<-|Hne]; [eauto|]. destruct (lk_slot _ _ Hl rc' Hrc') as [w Hw].
      exists w. by apply Hother. }
  split; [done|]. intros ->. split; try apply Hbase. intros rc' [->|Hrc']%elem_of_cons; [done|by apply Hbase].
Qed.

Lemma plt_entry_spec (Hsl : slots) done st m r rc rest : good st -> linked done m -> (forall rc', rc' ∈ done -> rc' ∈ rs) ->
  rels_at ro img r (rc :: rest) -> rc ∈ rs -> exists st' m',
  relocate_plt_entry lookup img st m r = Ok (Some (target (rc_sym rc), m'), st') /\ good st' /\ linked (rc :: done) m'.
Proof.
  intros Hg Hl Hd Hr Hrc.
  destruct (rel_reads ro img r rc rest m (lk_above _ _ Hl) Hr) as (Ho & (info & Hi & Hsym & Hty) & (n & Hn) & _).
  unfold relocate_plt_entry. rewrite Ho. cbn [obind]. rewrite Hi. cbn [obind]. rewrite Hsym, Hn, Hty. cbn [obind].
  rewrite (sl_type Hsl rc Hrc). change (negb (R_386_JMP_SLOT =? R_386_JMP_SLOT)) with false. cbv iota.
  destruct (sl_found Hsl rc Hrc st m Hg (lk_above _ _ Hl)) as (st' & -> & Hg'). cbn [obind].
  change (u32 (relocBase img + rc_offset rc)) with (site img rc).
  destruct (lk_slot _ _ Hl rc Hrc) as [a Ha]. rewrite (st32_room m) by (by eapply word_at_room). cbn [obind].
  eexists _, _. split; [done|]. split; [done|]. apply (linked_write Hsl done m rc); try done. by apply (sl_u32 Hsl).
Qed.

Lemma plt_loop_spec (Hsl : slots) rest : forall done fuel st m r, good st -> linked done m -> (forall rc, rc ∈ done -> rc ∈ rs) ->
  rels_at ro img r rest -> (forall rc, rc ∈ rest -> rc ∈ rs) -> (length rest < fuel)%nat -> exists st' m',
  relocate_loop (plt_entry_loop lookup img) fuel st m r (r + 8 * Z.of_nat (length rest)) = Ok (true, st', m')
  /\ good st' /\ linked (rev rest ++ done) m'.
Proof.
  induction rest as [|rc rest IH]; intros done fuel st m r Hg Hl Hd Hr Hin Hf.
  - exists st, m. destruct fuel; cbn [relocate_loop length]; by rewrite (proj2 (Z.ltb_ge _ _)) by lia.
  - destruct fuel as [|fuel]; [lia|]. cbn [relocate_loop length] in *. rewrite (proj2 (Z.ltb_lt r _)) by lia. cbn [negb].
    unfold plt_entry_loop at 1.
    destruct (plt_entry_spec Hsl done st m r rc rest Hg Hl Hd Hr (Hin rc ltac:(left))) as (st' & m' & -> & Hg' & Hl').
    cbn [obind fmap option_fmap option_map snd].
    destruct (rel_reads ro img r rc rest m (lk_above _ _ Hl) Hr) as (_ & _ & _ & Hu & Hr'). unfold sizeof_elf_rel_t. rewrite Hu.
    destruct (IH (rc :: done) fuel st' m' (r + 8)) as (st'' & m'' & E & Hg'' & Hl''); try done; try lia.
    + intros rc' [->|Hrc']%elem_of_cons; [apply Hin; left|by apply Hd].
    + intros rc' Hrc'. apply Hin. by right.
    + exists st'', m''. split; [rewrite <- E; f_equal; lia|]. cbn [rev]. by rewrite <- app_assoc.
Qed.
End PLT.
