(* ===== verification/LinkdCorrect.v ===== *)
(** * The dynamic linker is correct

    The order in which linkd searches libraries for a symbol, what its
    relocation leaves in memory, and that binding the jump slots on their first
    call ends where binding them all at once does. *)

From S2P Require Import Prelude CString Elf ElfLink ElfReloc Linkd.

Section Search.
Context (libs : gmap Z library_t) (deps : gmap Z dependency_t) (library_main : Z).
Context (ro : mem) (tables : gmap Z symbols).
Implicit Types (c library : Z) (order : list Z) (s : list Z).

(** ** The search order *)

(** A library whose tables lie in [ro]. *)
Definition searchable c : Prop :=
  exists l T, libs !! c = Some l /\ tables !! c = Some T /\ hash_table ro (lb_img l) T.

(** [c] gives the name [s] the symbol [sym], at the address [a]. *)
Definition provides c s (sym a : Z) : Prop :=
  exists l T i v, libs !! c = Some l /\ tables !! c = Some T /\ defines T s i v
    /\ sym = sym_at (lb_img l) i /\ a = u32 (relocBase (lb_img l) + v).

(** The result of searching [order]: the first library that defines the name. *)
Inductive search s : list Z -> option (Z * Z) -> Prop :=
| search_end : search s [] None
| search_here c order sym a : provides c s sym a -> search s (c :: order) (Some (sym, c))
| search_next c order r : (forall sym a, ~ provides c s sym a) -> search s order r -> search s (c :: order) r.

(** The libraries of a chain of dependencies. *)
Inductive dep_chain : Z -> list Z -> Prop :=
| dep_end : dep_chain NULL []
| dep_link p d l : p <> NULL -> deps !! p = Some d -> dep_chain (dp_next d) l -> dep_chain p (dp_library d :: l).

Lemma search_app_found s order order' r : search s order (Some r) -> search s (order ++ order') (Some r).
Proof.
  remember (Some r) as o eqn:E. intros H. revert E. induction H as [|c order sym a Hp|c order r' Hn Hs IH]; intros E; [done| |].
  - simplify_eq. by eapply search_here.
  - apply search_next; [done|]. by apply IH.
Qed.

Lemma search_app_missing s order order' r : search s order None -> search s order' r -> search s (order ++ order') r.
Proof.
  remember None as o eqn:E. intros H. revert E. induction H as [|c order sym a Hp|c order r' Hn Hs IH]; intros E Hr; [done..|].
  apply search_next; [done|]. by apply IH.
Qed.

(** At most one symbol of a well-formed table is defined under a name. *)
Lemma provides_fun c s sym a sym' a' : searchable c -> provides c s sym a -> provides c s sym' a' -> sym = sym' /\ a = a'.
Proof.
  intros (l & T & Hl & HT & Ht) (l1 & T1 & i & v & ? & ? & (Hi & HTi & _) & -> & ->) (l2 & T2 & j & w & ? & ? & (Hj & HTj & _) & -> & ->).
  simplify_eq. pose proof (ht_unique _ _ _ Ht i j s v w Hi Hj HTi HTj) as ->. by simplify_eq.
Qed.

Lemma search_fun s order r : search s order r -> (forall c, c ∈ order -> searchable c) -> forall r', search s order r' -> r = r'.
Proof.
  induction 1 as [|c order sym a Hp|c order r Hn Hs IH]; intros Hse r' Hr'; inversion Hr' as [|? ? sym' a' Hp'|? ? ? Hn' Hs']; subst; try done.
  - f_equal. f_equal. by destruct (provides_fun c s sym a sym' a' (Hse c ltac:(left)) Hp Hp').
  - by destruct (Hn' sym a).
  - by destruct (Hn sym' a').
  - apply IH; [|done]. intros c' Hc'. apply Hse. by right.
Qed.

(** ** Following the code *)

Section Name.
Context (m : mem) (Hs : ro ⊆ m) (name : Z) (s : list Z) (Hname : cstr m name s) (Hnn : name <> NULL).

Lemma defined_symbol_provides c : searchable c -> exists l, libs !! c = Some l /\
  ((exists sym a, provides c s sym a /\ defined_symbol m (lb_img l) name (hash_of s) = Ok (Some sym)) \/
   ((forall sym a, ~ provides c s sym a) /\ defined_symbol m (lb_img l) name (hash_of s) = Ok None)).
Proof using Hs Hname Hnn.
  intros (l & T & Hl & HT & Ht). exists l. split; [done|].
  destruct (defined_symbol_spec ro (lb_img l) T Ht m Hs name s Hname Hnn) as [(i & v & Hd & _ & E)|[Hnone E]].
  - left. exists (sym_at (lb_img l) i), (u32 (relocBase (lb_img l) + v)). split; [|done]. exists l, T, i, v. done.
  - right. split; [|done]. intros sym a (l' & T' & i & v & Hl' & HT' & Hd & _). simplify_eq. by apply (Hnone i v).
Qed.

Lemma lookup_deps_spec dep ls : dep_chain dep ls -> (forall c, c ∈ ls -> searchable c) ->
  forall fuel, (length ls <= fuel)%nat -> exists r, lookup_deps libs deps fuel m name (hash_of s) dep = Ok r /\ search s ls r.
Proof using Hs Hname Hnn.
  induction 1 as [|p d l Hp Hd Hc IH]; intros Hls fuel Hf.
  - exists None. split; [by destruct fuel|constructor].
  - destruct fuel as [|fuel]; [cbn in Hf; lia|]. cbn [lookup_deps]. rewrite (proj2 (Z.eqb_neq p NULL)), Hd by done. cbn [of_option obind].
    destruct (defined_symbol_provides (dp_library d)) as (lib & El & Hlib); [apply Hls; left|].
    rewrite El. cbn [of_option obind]. destruct Hlib as [(sym & a & Hpr & ->)|[Hnone ->]]; cbn [obind].
    + eexists. split; [done|]. by eapply search_here.
    + destruct (IH ltac:(intros; apply Hls; by right) fuel ltac:(cbn in Hf; lia)) as (r & -> & Hr). exists r.
      split; [done|]. by apply search_next.
Qed.
End Name.

(** A chain of dependencies visits each of them once. *)
Lemma dep_chain_fun p l : dep_chain p l -> forall l', dep_chain p l' -> l = l'.
Proof. induction 1 as [|p d l Hp Hd Hc IH]; intros l' Hl'; inversion Hl'; subst; simplify_eq; try done. f_equal. by apply IH. Qed.

Lemma dep_chain_length p l : dep_chain p l -> (length l <= size deps)%nat.
Proof.
  intros Hc. assert (Hx : exists ps, length ps = length l /\ NoDup ps /\ (forall q, q ∈ ps -> is_Some (deps !! q)) /\
    forall q, q ∈ ps -> exists l', dep_chain q l' /\ (length l' <= length l)%nat).
  { induction Hc as [|p d l Hp Hd Hc (ps & Hlen & Hnd & Hm & Hsub)].
    - exists []. split_and!; try done; [constructor|intros q Hq; by apply not_elem_of_nil in Hq..].
    - exists (p :: ps). split_and!; [cbn; lia| | |].
      + constructor; [|done]. intros Hin. destruct (Hsub p Hin) as (l' & Hl' & Hle).
        rewrite (dep_chain_fun p _ Hl' _ (dep_link p d l Hp Hd Hc)) in Hle. cbn in Hle. lia.
      + intros q [->|Hq]%elem_of_cons; [by eexists|by apply Hm].
      + intros q [->|Hq]%elem_of_cons; [eexists; split; [by eapply dep_link|done]|].
        destruct (Hsub q Hq) as (l' & ? & ?). exists l'. split; [done|cbn; lia]. }
  destruct Hx as (ps & <- & Hnd & Hm & _).
  rewrite <- (size_list_to_set (C := gset Z) ps Hnd), <- (size_dom (D := gset Z) deps). apply subseteq_size.
  intros a Ha%elem_of_list_to_set. by apply elem_of_dom, Hm.
Qed.

(** ** Symbols of a library *)

(** Symbol [symNum] of [library], as relocation refers to it: its name and
    whether it is local. *)
Definition refers library symNum s (islocal : bool) : Prop :=
  exists l n info, libs !! library = Some l /\ word_at ro (sym_at (lb_img l) symNum) n
    /\ cstr ro (u32 (strtab (lb_img l) + n)) s /\ u32 (strtab (lb_img l) + n) <> NULL
    /\ ro !! u32 (sym_at (lb_img l) symNum + 12) = Some info /\ islocal = (ELF32_ST_BIND info =? STB_LOCAL).

Lemma lookupSymbol_local m library symNum s : ro ⊆ m -> refers library symNum s true ->
  exists l, libs !! library = Some l /\ library_lookupSymbol libs deps library_main m library symNum = Ok (Some (sym_at (lb_img l) symNum, library)).
Proof.
  intros Hs (l & n & info & Hl & Hn & _ & _ & Hi & Hb). exists l. split; [done|]. unfold library_lookupSymbol. rewrite Hl.
  cbn [of_option obind]. unfold st_name, st_info. rewrite (mono_ld32 _ ro m n Hs (ld32_word _ _ _ Hn)). cbn [obind].
  unfold load. rewrite (lookup_weaken ro m _ _ Hi Hs). cbn [of_option obind]. by rewrite <- Hb.
Qed.

Lemma lookupSymbol_search m library symNum s l ls : ro ⊆ m -> refers library symNum s false -> libs !! library = Some l ->
  dep_chain (lb_dependency l) ls -> (forall c, c ∈ library_main :: ls ++ [library] -> searchable c) ->
  exists r, library_lookupSymbol libs deps library_main m library symNum = Ok r /\ search s (library_main :: ls ++ [library]) r.
Proof.
  intros Hs (l' & n & info & Hl & Hn & Hcs & Hnn & Hi & Hb) Hl' Hdc Hse. simplify_eq.
  unfold library_lookupSymbol. rewrite Hl. cbn [of_option obind]. unfold st_name, st_info.
  rewrite (mono_ld32 _ ro m n Hs (ld32_word _ _ _ Hn)). cbn [obind].
  unfold load. rewrite (lookup_weaken ro m _ _ Hi Hs). cbn [of_option obind]. rewrite <- Hb.
  pose proof (cstr_mono ro m _ s Hs Hcs) as Hcm. rewrite (elf_hash_spec m _ s Hcm). cbn [obind].
  destruct (defined_symbol_provides m Hs _ s Hcm Hnn library_main) as (lm & El & Hlm); [apply Hse; left|].
  rewrite El. cbn [of_option obind]. destruct Hlm as [(sym & a & Hpr & ->)|[Hnone ->]]; cbn [obind].
  { eexists. split; [done|]. by eapply search_here. }
  destruct (lookup_deps_spec m Hs _ s Hcm Hnn _ ls Hdc) with (fuel := S (size deps)) as (r & -> & Hr).
  { intros c Hc. apply Hse. right. apply elem_of_app. by left. }
  { pose proof (dep_chain_length _ _ Hdc). lia. }
  cbn [obind]. destruct r as [r|].
  { eexists. split; [done|]. apply search_next; [done|]. by apply search_app_found. }
  destruct (defined_symbol_provides m Hs _ s Hcm Hnn library) as (ll & Hll & Hlib).
  { apply Hse. right. apply elem_of_app. right. left. }
  simplify_eq. destruct Hlib as [(sym & a & Hpr & ->)|[Hself ->]]; cbn [obind]; (eexists; split; [done|]);
    (apply search_next; [done|]); (apply search_app_missing; [done|]).
  - by eapply search_here.
  - apply search_next; [done|constructor].
Qed.

(** ** Addresses of symbols *)

(** Symbol [symNum] of [library] stands for the address [a]: its own when it is
    local, else that of the first library in the search order to define it. *)
Definition resolves library symNum (a : Z) : Prop :=
  exists l s, libs !! library = Some l /\
  ((refers library symNum s true /\ exists v, word_at ro (u32 (sym_at (lb_img l) symNum + 4)) v
      /\ a = u32 (relocBase (lb_img l) + v)) \/
   (refers library symNum s false /\ exists ls sym c, dep_chain (lb_dependency l) ls
      /\ (forall c, c ∈ library_main :: ls ++ [library] -> searchable c)
      /\ search s (library_main :: ls ++ [library]) (Some (sym, c)) /\ provides c s sym a)).

Lemma resolves_finds library symNum target : resolves library symNum (target symNum) ->
  finds (lookup_base libs deps library_main library) ro (fun _ => True) target symNum.
Proof.
  intros (l & s & Hl & [(Hr & v & Hv & Ha)|(Hr & ls & sym & c & Hdc & Hse & Hsr & Hpr)]) [] m _ Hs; exists tt; (split; [|done]);
    unfold reloc_target, lookup_base.
  - destruct (lookupSymbol_local m library symNum s Hs Hr) as (l' & Hl' & ->). simplify_eq. cbn [obind]. rewrite Hl.
    cbn [of_option obind]. unfold st_value. rewrite (mono_ld32 _ ro m v Hs (ld32_word _ _ _ Hv)). cbn [obind]. by rewrite Ha.
  - destruct (lookupSymbol_search m library symNum s l ls Hs Hr Hl Hdc Hse) as (r & -> & Hr').
    pose proof (search_fun _ _ _ Hsr Hse _ Hr') as <-. cbn [obind].
    assert (Hc : searchable c).
    { apply Hse. clear -Hsr. remember (Some (sym, c)) as o eqn:E. induction Hsr; simplify_eq; [left|right; auto]. }
    destruct Hpr as (lc & T & i & w & Hlc & HT & (Hi & HTi & Hw) & -> & ->). rewrite Hlc. cbn [of_option obind].
    destruct Hc as (lc' & T' & ? & ? & Ht). simplify_eq. destruct (ht_symbol _ _ _ Ht i s w HTi) as (n & _ & Hv & _).
    unfold st_value. by rewrite (mono_ld32 _ ro m w Hs (ld32_word _ _ _ Hv)).
Qed.
End Search.

(** ** The linker's promises *)

Section Theorems.
Context (libs : gmap Z library_t) (deps : gmap Z dependency_t) (library_main : Z).
Context (ro : mem) (tables : gmap Z symbols) (library : Z) (l : library_t).

(** Looking up a symbol of a library always ends.  A local symbol is the
    library's own; any other is the one of the first library that defines its
    name with a value other than zero, in the order main program, direct
    dependencies, the library itself, and is missing only if none does. *)
Theorem lookupSymbol_search_order m symNum s islocal ls :
  ro ⊆ m -> libs !! library = Some l -> refers libs ro library symNum s islocal -> dep_chain deps (lb_dependency l) ls ->
  (forall c, c ∈ library_main :: ls ++ [library] -> searchable libs ro tables c) ->
  exists r, library_lookupSymbol libs deps library_main m library symNum = Ok r /\
    if islocal then r = Some (sym_at (lb_img l) symNum, library)
    else search libs tables s (library_main :: ls ++ [library]) r.
Proof.
  intros Hs Hl Hr Hdc Hse. destruct islocal.
  - destruct (lookupSymbol_local libs deps library_main ro m library symNum s Hs Hr) as (l' & Hl' & E). simplify_eq. eauto.
  - by eapply lookupSymbol_search.
Qed.

(** C26: Relocating a library without entries of type [R_386_RELATIVE], whose symbols
    resolve, succeeds.  Afterwards the word of every entry of type [R_386_32],
    [R_386_GLOB_DAT] and [R_386_PC32] is the address of its symbol plus what was
    there, less the word's own address for the last, and no other byte has changed.
    That is the value of the i386 supplement, except for a [R_386_GLOB_DAT] whose
    word was not zero.  (For [R_386_RELATIVE] the code reads an uninitialised
    variable: [relative_faults].) *)
Theorem library_relocateNonPLT_relocates m rs target :
  ro ⊆ m -> libs !! library = Some l ->
  rels_at ro (lb_img l) (rel (lb_img l)) rs -> rellimit (lb_img l) = rel (lb_img l) + 8 * Z.of_nat (length rs) ->
  all_apart (lb_img l) rs ->
  (forall rc, rc ∈ rs -> rc_type rc <> R_386_RELATIVE /\
     (touches rc = true -> resolves libs deps library_main ro tables library (rc_sym rc) (target (rc_sym rc))
        /\ site_free ro (site (lb_img l) rc) /\ exists a, word_at m (site (lb_img l) rc) a)) ->
  exists m', library_relocateNonPLT libs deps library_main m library = Ok (true, m') /\
    (forall rc a, rc ∈ rs -> touches rc = true -> word_at m (site (lb_img l) rc) a ->
       word_at m' (site (lb_img l) rc) (relocated rc (target (rc_sym rc)) a (site (lb_img l) rc))) /\
    (forall rc a, rc ∈ rs -> touches rc = true -> word_at m (site (lb_img l) rc) a -> (rc_type rc = R_386_GLOB_DAT -> a = 0) ->
       word_at m' (site (lb_img l) rc) (supplement_value rc (target (rc_sym rc)) a (site (lb_img l) rc))) /\
    (forall q, (forall rc, rc ∈ rs -> touches rc = true -> q < site (lb_img l) rc \/ site (lb_img l) rc + 4 <= q) -> m' !! q = m !! q).
Proof.
  intros Hs Hl Hr Hlim Hap Ha. unfold library_relocateNonPLT, relocateNonPLT. rewrite Hl. cbn [of_option obind].
  destruct (relocate_loop_spec (lookup_base libs deps library_main library) ro (lb_img l) (fun _ => True) target rs
    (rel_fuel (rel (lb_img l)) (rellimit (lb_img l))) tt m (rel (lb_img l)) I Hs Hr Hap) as (st' & E & _).
  - intros rc Hrc. destruct (Ha rc Hrc) as [H1 H2]. split; [done|]. intros Ht. destruct (H2 Ht) as (? & ? & ?).
    split_and!; try done. by eapply resolves_finds.
  - by eapply rels_at_fuel.
  - rewrite Hlim in E |- *. rewrite E. cbn [obind]. eexists. split_and!; [done| | |].
    + intros rc a Hrc Ht Hwa. by apply fold_reloc_result.
    + intros rc a Hrc Ht Hwa Hz. rewrite <- relocated_supplement by done. by apply fold_reloc_result.
    + intros q Hq. by apply fold_reloc_outside.
Qed.

(** First calls through the jump slots with these numbers, in this order; each
    gives the address it goes on to. *)
Fixpoint calls (m : mem) (idx : list nat) : outcome (list Z * mem) :=
  match idx with
  | [] => Ok ([], m)
  | i :: idx =>
      let* (t, m) := library_bind libs deps library_main m library (8 * Z.of_nat i) in
      let* (ts, m) := calls m idx in
      Ok (t :: ts, m)
  end.

Section Slots.
Context (Hl : libs !! library = Some l) (rs : list reloc) (target : Z -> Z) (m0 : mem).
Context (Hr : rels_at ro (lb_img l) (pltRel (lb_img l)) rs).
Context (Hsl : slots (lookup_base libs deps library_main library) ro (lb_img l) (fun _ => True) target rs).

Lemma lazy_loop_spec rest : forall fuel m r, linked ro (lb_img l) target rs m0 [] m -> rels_at ro (lb_img l) r rest ->
  (forall rc, rc ∈ rest -> rc ∈ rs) -> (length rest < fuel)%nat -> exists m',
  lazy_loop fuel (lb_img l) m r (r + 8 * Z.of_nat (length rest)) = Ok m' /\ linked ro (lb_img l) target rs m0 [] m'.
Proof using Hsl.
  induction rest as [|rc rest IH]; intros fuel m r Hk Hrr Hin Hf.
  - exists m. destruct fuel; cbn [lazy_loop length]; by rewrite (proj2 (Z.ltb_ge _ _)) by lia.
  - destruct fuel as [|fuel]; [lia|]. cbn [lazy_loop length] in *. rewrite (proj2 (Z.ltb_lt r _)) by lia. cbn [negb].
    pose proof (Hin rc ltac:(left)) as Hrc.
    destruct (rel_reads ro _ r rc rest m (lk_above _ _ _ _ _ _ _ Hk) Hrr) as (Ho & (info & Hi & _ & Hty) & _ & Hu & Hrr').
    unfold lazy_entry. rewrite Hi. cbn [obind]. rewrite Hty, (sl_type _ _ _ _ _ _ Hsl rc Hrc).
    change (negb (R_386_JMP_SLOT =? R_386_JMP_SLOT)) with false. cbv iota. rewrite Ho. cbn [obind].
    change (u32 (relocBase (lb_img l) + rc_offset rc)) with (site (lb_img l) rc).
    destruct (lk_slot _ _ _ _ _ _ _ Hk rc Hrc) as [a Hwa]. rewrite (ld32_word _ _ _ Hwa). cbn [obind].
    rewrite (st32_room m) by (by eapply word_at_room). cbn [obind]. unfold sizeof_elf_rel_t. rewrite Hu.
    destruct (IH fuel (write m (site (lb_img l) rc) (word_bytes (u32 (a + relocBase (lb_img l))))) (r + 8)) as (m' & E & Hk'); try done; try lia.
    + apply (linked_write _ _ _ _ _ rs m0 Hsl [] m rc); try done;
        [apply u32_range|intros ? Hx; by apply not_elem_of_nil in Hx|intros Hx; by apply not_elem_of_nil in Hx].
    + intros rc' Hrc'. apply Hin. by right.
    + exists m'. split; [rewrite <- E; f_equal; lia|done].
Qed.

Lemma rels_at_drop img r : forall rs', rels_at ro img r rs' -> forall i rc, rs' !! i = Some rc ->
  exists rest, rels_at ro img (r + 8 * Z.of_nat i) (rc :: rest).
Proof.
  intros rs'. revert r. induction rs' as [|rc' rs' IH]; intros r Hrr [|i] rc E; simplify_eq/=.
  - rewrite Z.add_0_r. by exists rs'.
  - destruct Hrr as (_ & _ & _ & _ & _ & Hrr). destruct (IH (r + 8) Hrr i rc E) as [rest Hrest]. exists rest.
    by replace (r + 8 * Z.of_nat (S i)) with (r + 8 + 8 * Z.of_nat i) by lia.
Qed.

Lemma bind_spec done m i rc : linked ro (lb_img l) target rs m0 done m -> (forall rc, rc ∈ done -> rc ∈ rs) -> rs !! i = Some rc ->
  exists m', library_bind libs deps library_main m library (8 * Z.of_nat i) = Ok (target (rc_sym rc), m')
    /\ linked ro (lb_img l) target rs m0 (rc :: done) m'.
Proof using Hl Hr Hsl.
  intros Hk Hd Hi. destruct (rels_at_drop _ _ rs Hr i rc Hi) as [rest Hrest].
  unfold library_bind. rewrite Hl. cbn [of_option obind].
  assert (Hu : u32 (pltRel (lb_img l) + 8 * Z.of_nat i) = pltRel (lb_img l) + 8 * Z.of_nat i).
  { destruct Hrest as (? & ? & _). apply u32_small. lia. }
  rewrite Hu. destruct (plt_entry_spec _ ro _ (fun _ => True) target rs m0 Hsl done tt m _ rc rest I Hk Hd Hrest)
    as (st' & m' & -> & _ & Hk'); [by eapply list_elem_of_lookup_2|]. cbn [obind]. eauto.
Qed.

Lemma calls_spec idx : forall done m, linked ro (lb_img l) target rs m0 done m -> (forall rc, rc ∈ done -> rc ∈ rs) ->
  Forall (fun i => (i < length rs)%nat) idx -> exists ts m' done',
  calls m idx = Ok (ts, m') /\ linked ro (lb_img l) target rs m0 done' m'
  /\ Forall2 (fun i t => exists rc, rs !! i = Some rc /\ t = target (rc_sym rc)) idx ts
  /\ (forall rc, rc ∈ done -> rc ∈ done') /\ forall i rc, i ∈ idx -> rs !! i = Some rc -> rc ∈ done'.
Proof using Hl Hr Hsl.
  induction idx as [|i idx IH]; intros done m Hk Hd Hidx; cbn [calls].
  - exists [], m, done. split_and!; try done. intros i rc Hi. by apply not_elem_of_nil in Hi.
  - apply Forall_cons in Hidx as [Hi Hidx]. destruct (lookup_lt_is_Some_2 rs i Hi) as [rc Hrc].
    destruct (bind_spec done m i rc Hk Hd Hrc) as (m1 & -> & Hk1). cbn [obind].
    destruct (IH (rc :: done) m1 Hk1) as (ts & m' & done' & -> & Hk' & Hts & Hsub & Hcov); [|done|].
    { intros rc' [->|Hrc']%elem_of_cons; [by eapply list_elem_of_lookup_2|by apply Hd]. }
    cbn [obind]. exists (target (rc_sym rc) :: ts), m', done'. split_and!; try done.
    + constructor; eauto.
    + intros rc' Hrc'. apply Hsub. by right.
    + intros j rc' [->|Hj]%elem_of_cons Hj'; [simplify_eq; apply Hsub; left|by eapply Hcov].
Qed.
End Slots.

(** C25: Binding the jump slots of a library lazily is binding them eagerly.  Both
    preparations succeed; after the lazy one, any sequence of first calls goes
    to the slots' targets, and once every slot has been called the memory is the
    one eager binding leaves. *)
Theorem lazy_binding_is_eager m rs target :
  libs !! library = Some l -> ro ⊆ m ->
  rels_at ro (lb_img l) (pltRel (lb_img l)) rs -> pltRellimit (lb_img l) = pltRel (lb_img l) + 8 * Z.of_nat (length rs) ->
  (forall rc rc', rc ∈ rs -> rc' ∈ rs -> rc = rc' \/ apart (site (lb_img l) rc) (site (lb_img l) rc')) ->
  (forall rc, rc ∈ rs -> rc_type rc = R_386_JMP_SLOT /\ is_u32 (target (rc_sym rc))
     /\ resolves libs deps library_main ro tables library (rc_sym rc) (target (rc_sym rc))
     /\ site_free ro (site (lb_img l) rc) /\ exists a, word_at m (site (lb_img l) rc) a) ->
  exists eager lazy, library_relocatePLT libs deps library_main m library = Ok (true, eager) /\
    library_relocatePLTLazy libs m library = Ok lazy /\
    forall idx, Forall (fun i => (i < length rs)%nat) idx -> exists ts m', calls lazy idx = Ok (ts, m') /\
      Forall2 (fun i t => exists rc, rs !! i = Some rc /\ t = target (rc_sym rc)) idx ts /\
      ((forall i, (i < length rs)%nat -> i ∈ idx) -> m' = eager).
Proof.
  intros Hl Hs Hr Hlim Hap Ha.
  assert (Hsl : slots (lookup_base libs deps library_main library) ro (lb_img l) (fun _ => True) target rs).
  { constructor; try (intros rc Hrc; by apply Ha); try done. intros rc Hrc. eapply resolves_finds. by apply Ha. }
  assert (Hk : linked ro (lb_img l) target rs m [] m).
  { constructor; try done; [intros rc Hrc; by apply not_elem_of_nil in Hrc|]. intros rc Hrc. by apply Ha. }
  pose proof (rels_at_fuel ro (lb_img l) _ _ rs Hr Hlim) as Hfuel.
  destruct (plt_loop_spec _ ro _ (fun _ => True) target rs m Hsl rs [] (rel_fuel (pltRel (lb_img l)) (pltRellimit (lb_img l))) tt m
    (pltRel (lb_img l)) I Hk) as (st' & eager & Ee & _ & Hke); try done.
  { intros rc Hrc. by apply not_elem_of_nil in Hrc. }
  destruct (lazy_loop_spec rs target m Hsl rs (rel_fuel (pltRel (lb_img l)) (pltRellimit (lb_img l))) m (pltRel (lb_img l)) Hk Hr) as (lazy & El & Hkl); try done.
  exists eager, lazy. rewrite <- Hlim in Ee, El. unfold library_relocatePLT, relocatePLT, library_relocatePLTLazy. rewrite Hl.
  cbn [of_option obind]. rewrite Ee. cbn [obind]. split_and!; try done. intros idx Hidx.
  destruct (calls_spec Hl rs target m Hr Hsl idx [] lazy Hkl) as (ts & m' & done' & E & Hk' & Hts & _ & Hcov); [|done|].
  { intros rc Hrc. by apply not_elem_of_nil in Hrc. }
  exists ts, m'. split_and!; try done. intros Hall.
  apply (linked_unique ro (lb_img l) target rs m).
  - constructor; try apply Hk'. intros rc Hrc. apply Hk'. apply list_elem_of_lookup_1 in Hrc as [i Hi].
    eapply Hcov; [|done]. apply Hall. by eapply lookup_lt_Some.
  - constructor; try apply Hke. intros rc Hrc. apply Hke. rewrite app_nil_r.
    by rewrite list_elem_of_In, <- in_rev, <- list_elem_of_In.
Qed.
End Theorems.

(** ** A program and a library, linked

    A small memory with the tables of a program that defines "f" and of a
    library that uses it and defines "g"; the theorems hold of it, and what the
    linker does wrong shows on it. *)

(** ** The memory *)

Definition words (ws : list Z) : list Z := concat (word_bytes <$> ws).

(** An entry of a symbol table: a global function. *)
Definition sym_bytes (name value : Z) : list Z := words [name; value; 0] ++ [18; 0; 0; 0].

(** The program at 7000, not moved, and the library at 5000, moved by 4096. *)
Definition demo_ro : mem :=
  write (write (write (write (write (write (write (write ∅
    5000 [0; 102; 0; 103; 0])
    5100 (sym_bytes 0 0 ++ sym_bytes 1 0 ++ sym_bytes 3 64))
    5200 (words [1; 3; 1; 0; 2; 0]))
    5300 (words [2000; 257; 2008; 514]))
    5400 (words [2016; 263; 2024; 519]))
    7000 [0; 102; 0])
    7100 (sym_bytes 0 0 ++ sym_bytes 1 800))
    7200 (words [1; 2; 1; 0; 0]).

(** The words to relocate. *)
Definition demo : mem := write demo_ro 6096 (words [16; 0; 20; 0; 24; 0; 28]).

Definition prog_image : elf_image := Image 0 0 7000 3 7100 0 0 0 0 0 0 7200 7208 7212 1 2 0 0.
Definition lib_image : elf_image := Image 4096 0 5000 5 5100 5300 5400 5316 5416 0 0 5200 5208 5212 1 3 0 0.

Definition demo_libs : gmap Z library_t :=
  <[2 := Library 0 [108] lib_image NULL 0 1 4096 1 NULL]> {[ 1 := Library 0 [] prog_image NULL 0 1 0 1 NULL ]}.
Definition demo_deps : gmap Z dependency_t := ∅.
Definition demo_lib : library_t := Library 0 [108] lib_image NULL 0 1 4096 1 NULL.

Definition prog_symbols : symbols := {[ 1 := ([102], 800) ]}.
Definition lib_symbols : symbols := <[2 := ([103], 64)]> {[ 1 := ([102], 0) ]}.
Definition demo_tables : gmap Z symbols := <[2 := lib_symbols]> {[ 1 := prog_symbols ]}.

Definition demo_rels : list reloc := [Reloc 2000 1 R_386_32; Reloc 2008 2 R_386_PC32].
Definition demo_slots : list reloc := [Reloc 2016 1 R_386_JMP_SLOT; Reloc 2024 2 R_386_JMP_SLOT].
Definition demo_target (sym : Z) : Z := if sym =? 1 then 800 else 4160.

(** ** It is well-formed *)

Ltac evals :=
  lazymatch goal with
  | |- ex _ => fail
  | _ => solve [clear; vm_compute; repeat first [reflexivity | discriminate | split | constructor]]
  end.

Lemma demo_above : demo_ro ⊆ demo.
Proof. apply map_subseteq_spec. intros q b Hq. assert (Hx : (6096 <= q < 6124) \/ (q < 6096 \/ 6124 <= q)) by lia.
  destruct Hx as [Hin|Hout]; [|by unfold demo; rewrite write_outside].
  assert (E : Forall (fun k => demo_ro !! k = None) (seqZ 6096 28)) by (vm_compute; repeat constructor).
  rewrite Forall_forall in E. rewrite E in Hq; [done|]. apply elem_of_seqZ. lia.
Qed.

Lemma prog_symbols_cases i s v : prog_symbols !! i = Some (s, v) -> i = 1 /\ s = [102] /\ v = 800.
Proof. unfold prog_symbols. by intros [<- [= <- <-]]%lookup_singleton_Some. Qed.

Lemma prog_table : hash_table demo_ro prog_image prog_symbols.
Proof.
  constructor; [done| | |].
  - intros i s v (-> & -> & ->)%prog_symbols_cases. exists 1. split_and!; evals.
  - intros b Hb. cbn in Hb. assert (b = 0) as -> by lia. exists 1, [1]. split_and!; [evals|eapply (chain_link _ _ 1 0); [done|evals|constructor]|].
    intros i. rewrite list_elem_of_singleton. split.
    + intros ->. split; [done|]. exists [102], 800. split; [done|]. apply Z.mod_1_r.
    + by intros (_ & s & v & (-> & _)%prog_symbols_cases & _).
  - by intros i j s v w _ _ (-> & _)%prog_symbols_cases (-> & _)%prog_symbols_cases.
Qed.

Lemma lib_symbols_cases i s v : lib_symbols !! i = Some (s, v) -> (i = 2 /\ s = [103] /\ v = 64) \/ (i = 1 /\ s = [102] /\ v = 0).
Proof. unfold lib_symbols. intros [[<- [= <- <-]]|[_ [<- [= <- <-]]%lookup_singleton_Some]]%lookup_insert_Some; auto. Qed.

Lemma lib_table : hash_table demo_ro lib_image lib_symbols.
Proof.
  constructor; [done| | |].
  - intros i s v [(-> & -> & ->)|(-> & -> & ->)]%lib_symbols_cases; [exists 3|exists 1]; split_and!; evals.
  - intros b Hb. cbn in Hb. assert (b = 0) as -> by lia. exists 1, [1; 2]. split_and!; [evals| |].
    + eapply (chain_link _ _ 1 2); [done|evals|]. eapply (chain_link _ _ 2 0); [done|evals|constructor].
    + intros i. rewrite elem_of_cons, list_elem_of_singleton. split.
      * intros [->| ->]; (split; [done|]); [exists [102], 0|exists [103], 64]; (split; [done|apply Z.mod_1_r]).
      * intros (_ & s & v & [(-> & _)|(-> & _)]%lib_symbols_cases & _); auto.
  - intros i j s v w _ _ [(-> & -> & _)|(-> & -> & _)]%lib_symbols_cases [(-> & ? & _)|(-> & ? & _)]%lib_symbols_cases; done.
Qed.

Lemma demo_searchable c : c ∈ [1; 2] -> searchable demo_libs demo_ro demo_tables c.
Proof.
  intros [->|[->|Hc%not_elem_of_nil]%elem_of_cons]%elem_of_cons; [| |done];
    (eexists _, _; split_and!; [reflexivity|reflexivity|apply prog_table || apply lib_table]).
Qed.

Lemma refers_f : refers demo_libs demo_ro 2 1 [102] false.
Proof. eexists _, 1, 18. split_and!; [reflexivity|evals..]. Qed.

Lemma refers_g : refers demo_libs demo_ro 2 2 [103] false.
Proof. eexists _, 3, 18. split_and!; [reflexivity|evals..]. Qed.

Lemma provides_f : provides demo_libs demo_tables 1 [102] 7116 800.
Proof. eexists _, _, 1, 800. split_and!; try reflexivity. by split_and!. Qed.

Lemma prog_without_g sym a : ~ provides demo_libs demo_tables 1 [103] sym a.
Proof. intros (l & T & i & v & Hl & HT & (_ & Hi & _) & _). injection HT as <-. by apply prog_symbols_cases in Hi as (_ & ? & _). Qed.

Lemma provides_g : provides demo_libs demo_tables 2 [103] 5132 4160.
Proof. eexists _, _, 2, 64. split_and!; try reflexivity. by split_and!. Qed.

Lemma resolves_f : resolves demo_libs demo_deps 1 demo_ro demo_tables 2 1 800.
Proof.
  eexists _, [102]. split; [reflexivity|]. right. split; [apply refers_f|]. exists [], 7116, 1. split_and!; [constructor| | |].
  - intros c Hc. by apply demo_searchable.
  - eapply search_here, provides_f.
  - apply provides_f.
Qed.

Lemma resolves_g : resolves demo_libs demo_deps 1 demo_ro demo_tables 2 2 4160.
Proof.
  eexists _, [103]. split; [reflexivity|]. right. split; [apply refers_g|]. exists [], 5132, 2. split_and!; [constructor| | |].
  - intros c Hc. by apply demo_searchable.
  - apply search_next; [apply prog_without_g|]. eapply search_here, provides_g.
  - apply provides_g.
Qed.

Lemma demo_site_free k : In k [6096; 6104; 6112; 6120] -> site_free demo_ro k.
Proof.
  intros Hk j Hj. assert (Hj' : j = 0 \/ j = 1 \/ j = 2 \/ j = 3) by lia.
  destruct Hk as [<-|[<-|[<-|[<-|[]]]]], Hj' as [->|[->|[->| ->]]]; reflexivity.
Qed.

Lemma demo_word k : In k [6096; 6104; 6112; 6120] -> exists a, word_at demo k a.
Proof. intros [<-|[<-|[<-|[<-|[]]]]]; [exists 16|exists 20|exists 24|exists 28]; evals. Qed.

Lemma demo_rels_at : rels_at demo_ro lib_image 5300 demo_rels.
Proof.
  repeat split; try evals; [exists 257|exists 1|exists 514|exists 3]; evals.
Qed.

Lemma demo_slots_at : rels_at demo_ro lib_image 5400 demo_slots.
Proof.
  repeat split; try evals; [exists 263|exists 1|exists 519|exists 3]; evals.
Qed.

(** ** The theorems at work *)

Lemma lookupSymbol_search_order_witness : exists r, library_lookupSymbol demo_libs demo_deps 1 demo 2 1 = Ok r
  /\ search demo_libs demo_tables [102] [1; 2] r.
Proof.
  apply (lookupSymbol_search_order demo_libs demo_deps 1 demo_ro demo_tables 2 demo_lib demo 1 [102] false []).
  - exact demo_above.
  - reflexivity.
  - exact refers_f.
  - constructor.
  - intros c Hc. by apply demo_searchable.
Defined.

Lemma library_relocateNonPLT_relocates_witness : exists m', library_relocateNonPLT demo_libs demo_deps 1 demo 2 = Ok (true, m')
  /\ word_at m' 6096 816 /\ word_at m' 6104 (u32 (4160 + 20 - 6104)) /\ m' !! 6112 = demo !! 6112.
Proof.
  destruct (library_relocateNonPLT_relocates demo_libs demo_deps 1 demo_ro demo_tables 2 demo_lib demo demo_rels demo_target)
    as (m' & E & Hw & _ & Ho).
  - exact demo_above.
  - reflexivity.
  - exact demo_rels_at.
  - reflexivity.
  - split; [|split; [|done]]; intros rc'.
    + intros Hrc' _ _. apply list_elem_of_singleton in Hrc' as ->. left. evals.
    + by intros Hx%not_elem_of_nil.
  - intros rc [->|[->|Hrc%not_elem_of_nil]%elem_of_cons]%elem_of_cons; [| |done]; (split; [done|]); intros _; split_and!.
    + exact resolves_f.
    + apply demo_site_free. by left.
    + apply (demo_word 6096). by left.
    + exact resolves_g.
    + apply demo_site_free. right. by left.
    + apply (demo_word 6104). right. by left.
  - exists m'. split_and!; [exact E| | |].
    + apply (Hw (Reloc 2000 1 R_386_32) 16); [left|reflexivity|evals].
    + apply (Hw (Reloc 2008 2 R_386_PC32) 20); [right; left|reflexivity|evals].
    + apply Ho. intros rc [->|[->|Hrc%not_elem_of_nil]%elem_of_cons]%elem_of_cons _; [right; evals..|destruct Hrc].
Defined.

Lemma lazy_binding_is_eager_witness : exists eager lazy, library_relocatePLT demo_libs demo_deps 1 demo 2 = Ok (true, eager)
  /\ library_relocatePLTLazy demo_libs demo 2 = Ok lazy
  /\ exists ts, calls demo_libs demo_deps 1 2 lazy [1; 0; 1]%nat = Ok (ts, eager).
Proof.
  destruct (lazy_binding_is_eager demo_libs demo_deps 1 demo_ro demo_tables 2 demo_lib demo demo_slots demo_target)
    as (eager & lazy & Ee & El & Hc).
  - reflexivity.
  - exact demo_above.
  - exact demo_slots_at.
  - reflexivity.
  - intros rc rc' [->|[->|[]%not_elem_of_nil]%elem_of_cons]%elem_of_cons [->|[->|[]%not_elem_of_nil]%elem_of_cons]%elem_of_cons;
      [by left|right; left; evals|right; right; evals|by left].
  - intros rc [->|[->|[]%not_elem_of_nil]%elem_of_cons]%elem_of_cons; split_and!.
    + reflexivity.
    + evals.
    + exact resolves_f.
    + apply demo_site_free. right. right. by left.
    + apply (demo_word 6112). right. right. by left.
    + reflexivity.
    + evals.
    + exact resolves_g.
    + apply demo_site_free. right. right. right. by left.
    + apply (demo_word 6120). right. right. right. by left.
  - exists eager, lazy. split_and!; [exact Ee|exact El|].
    destruct (Hc [1; 0; 1]%nat) as (ts & m' & E & _ & Hall); [clear; repeat constructor|].
    exists ts. rewrite E. rewrite Hall; [reflexivity|]. intros i Hi. clear -Hi. cbn in Hi.
    destruct i as [|[|i]]; [right; left|left|lia].
Defined.

(** ** What goes wrong *)

(** Any relocation of type [R_386_RELATIVE] reads the variable [container]
    before anything was stored in it. *)
Lemma relative_faults {St} (lookup : St -> mem -> Z -> outcome (option (Z * Z) * St)) img st m r o info n :
  r_offset m r = Ok o -> r_info m r = Ok info -> st_name m (sym_at img (ELF32_R_SYM info)) = Ok n ->
  ELF32_R_TYPE info = R_386_RELATIVE -> relocate_entry lookup img st m r = Fault.
Proof. intros Ho Hi Hn Ht. unfold relocate_entry. rewrite Ho. cbn [obind]. rewrite Hi. cbn [obind]. by rewrite Hn, Ht. Qed.
