(* ===== verification/LinkdDigest.v ===== *)
(** * Reading the dynamic section

    The loop of [library_digestDynamic] against a description of its result:
    every field comes from the last entry with its tag, and the dependencies
    are the needed libraries in order. *)

From S2P Require Import Prelude CString Elf ElfLink ElfReloc Linkd.

(** ** What a section says *)

(** The entries before the end mark: tag and value. *)
Abbreviation entries := (list (Z * Z)).

(** The value of the last entry with the tag. *)
Fixpoint last_of (t : Z) (ds : entries) : option Z :=
  match ds with
  | [] => None
  | d :: ds => match last_of t ds with Some v => Some v | None => if d.1 =? t then Some d.2 else None end
  end.

Definition needed (ds : entries) : list Z := snd <$> filter (fun d => d.1 = DT_NEEDED) ds.

Definition word_of (m : mem) (p : Z) : Z := match ld32 m p with Ok v => v | _ => 0 end.

(** The digest of the entries [ds] on top of [d]. *)
Section Said.
Context (m : mem) (d : digest) (ds : entries).
Let img := dg_img d.

Definition said {A} (t : Z) (f : Z -> A) (old : A) : A := from_option f old (last_of t ds).
Definition said_ptr (t old : Z) : Z := said t (fun v => u32 (relocBase img + v)) old.
Definition hash_at (v : Z) : Z := u32 (relocBase img + v).

Definition said_image : elf_image :=
  Image (relocBase img) (dynamic img) (said_ptr DT_STRTAB (strtab img)) (said DT_STRSZ (fun v => v) (strtabSize img))
    (said_ptr DT_SYMTAB (symtab img)) (said_ptr DT_REL (rel img)) (pltRel img) (rellimit img) (pltRellimit img)
    (said_ptr DT_RELA (rela img)) (relalimit img) (said_ptr DT_HASH (hashtab img))
    (said DT_HASH (fun v => word_index (hash_at v) 2) (buckets img))
    (said DT_HASH (fun v => word_index (word_index (hash_at v) 2) (word_of m (word_index (hash_at v) 0))) (chains img))
    (said DT_HASH (fun v => word_of m (word_index (hash_at v) 0)) (nbuckets img))
    (said DT_HASH (fun v => word_of m (word_index (hash_at v) 1)) (nchains img))
    (said_ptr DT_INIT_ARRAY (initArray img)) (said DT_INIT_ARRAYSZ (fun v => v / 4) (initArrayCount img)).

Definition said_digest : digest :=
  Digest said_image (said DT_PLTREL (fun v => v =? DT_REL) (usePLTRel d)) (said DT_PLTREL (fun v => v =? DT_RELA) (usePLTRela d))
    (said DT_RELSZ (fun v => v) (relSize d)) (said DT_RELASZ (fun v => v) (relaSize d))
    (said DT_JMPREL (fun v => v) (dg_pltRel d)) (said DT_PLTRELSZ (fun v => v) (pltRelSize d)).
End Said.

(** An entry the code accepts: entry sizes as expected, a readable hash table. *)
Definition entry_ok (ro : mem) (base : Z) (d : Z * Z) : Prop :=
  (d.1 = DT_RELENT -> d.2 = sizeof_elf_rel_t) /\ (d.1 = DT_SYMENT -> d.2 = sizeof_elf_sym_t) /\
  (d.1 = DT_HASH -> (exists nb, word_at ro (word_index (u32 (base + d.2)) 0) nb) /\ exists nc, word_at ro (word_index (u32 (base + d.2)) 1) nc).

(** ** One entry *)

Lemma said_digest_nil m d : said_digest m d [] = d.
Proof. by destruct d as [[]]. Qed.

Lemma said_step {A} ds t (f : Z -> A) old tag v :
  said ((tag, v) :: ds) t f old = said ds t f (if tag =? t then f v else old).
Proof. unfold said. cbn. destruct (last_of t ds); [done|]. by destruct (tag =? t). Qed.

Lemma digest_entry_said ro m d tag v ds : ro ⊆ m -> entry_ok ro (relocBase (dg_img d)) (tag, v) ->
  tag <> DT_NEEDED -> tag <> DT_PLTGOT ->
  exists d', digest_entry m tag v d = Ok d' /\ relocBase (dg_img d') = relocBase (dg_img d)
    /\ said_digest m d ((tag, v) :: ds) = said_digest m d' ds.
Proof.
  intros Hs (Hrel & Hsym & Hh) _ _. cbn [fst snd] in *.
  unfold said_digest, said_image, said_ptr. rewrite !said_step. unfold digest_entry.
  destruct (Z.eqb_spec tag DT_HASH) as [->|_].
  { destruct (Hh eq_refl) as ((nb & Hnb) & nc & Hnc). change (DT_HASH =? _) with false. cbv iota. unfold digest_hash.
    pose proof (mono_ld32 _ ro m nb Hs (ld32_word _ _ _ Hnb)) as E0. pose proof (mono_ld32 _ ro m nc Hs (ld32_word _ _ _ Hnc)) as E1.
    unfold hash_at, word_of. rewrite E0, E1. cbn [obind]. eexists. split; [done|]. split; done. }
  destruct (Z.eqb_spec tag DT_RELENT) as [->|_]; [rewrite (Hrel eq_refl); by eexists|].
  destruct (Z.eqb_spec tag DT_SYMENT) as [->|_]; [rewrite (Hsym eq_refl); by eexists|].
  repeat match goal with
    | |- context [tag =? ?t] => destruct (Z.eqb_spec tag t) as [->|_]; [by eexists|]
    end.
  by eexists.
Qed.

Lemma said_digest_skip m d tag v ds : tag = DT_NEEDED \/ tag = DT_PLTGOT -> said_digest m d ((tag, v) :: ds) = said_digest m d ds.
Proof. intros [-> | ->]; unfold said_digest, said_image, said_ptr; by rewrite !said_step. Qed.

(** ** The loop *)

(** The section at [p]: the entries, then the end mark. *)
Fixpoint entries_at (ro : mem) (p : Z) (ds : entries) : Prop :=
  match ds with
  | [] => word_at ro p DT_NULL
  | (t, v) :: ds =>
      t <> DT_NULL /\ (exists w, word_at ro p w /\ s32 w = t) /\ word_at ro (p + 4) v /\ p + 8 < 2 ^ 32 /\ entries_at ro (p + 8) ds
  end.

(** A chain of dependencies that are not resolved yet: address and name. *)
Definition dep_head (ps : list (Z * Z)) : Z := match ps with [] => NULL | (p, _) :: _ => p end.

Fixpoint dep_seg (deps : gmap Z dependency_t) (ps : list (Z * Z)) : Prop :=
  match ps with
  | [] => True
  | (p, n) :: ps => p <> NULL /\ deps !! p = Some (Dependency n NULL (dep_head ps)) /\ dep_seg deps ps
  end.

Definition dep_last (ps : list (Z * Z)) : Z := from_option fst NULL (last ps).

Lemma dep_seg_frame deps ps p d : p ∉ ps.*1 -> dep_seg deps ps -> dep_seg (<[p := d]> deps) ps.
Proof.
  induction ps as [|[q n] ps IH]; [done|]. cbn. intros Hp (Hq & Hl & Hs). apply not_elem_of_cons in Hp as [Hne Hp].
  split_and!; [done| |by apply IH]. by rewrite lookup_insert_ne.
Qed.

Lemma dep_seg_last deps ps q k : dep_seg deps (ps ++ [(q, k)]) -> q <> NULL /\ deps !! q = Some (Dependency k NULL NULL).
Proof.
  induction ps as [|[a b] ps IH]; cbn; [by intros (? & ? & _)|]. intros (_ & _ & Hs). by apply IH.
Qed.

Lemma dep_last_null deps ps : dep_seg deps ps -> (dep_last ps =? NULL) = true -> ps = [].
Proof.
  destruct ps as [|[q k] ps _] using rev_ind; [done|]. intros [Hq _]%dep_seg_last. unfold dep_last. rewrite last_snoc.
  cbn. intros E%Z.eqb_eq. done.
Qed.

(** A new dependency at the end of the chain. *)
Lemma dep_seg_snoc deps ps p n : NoDup (ps.*1) -> dep_seg deps ps -> p <> NULL -> p ∉ ps.*1 ->
  exists deps', dep_seg deps' (ps ++ [(p, n)]) /\ (forall q, q ∉ ps.*1 -> q <> p -> deps' !! q = deps !! q) /\
  let deps1 := <[p := Dependency n NULL NULL]> deps in
  if dep_last ps =? NULL then deps' = deps1
  else exists d, deps1 !! dep_last ps = Some d /\ deps' = <[dep_last ps := Dependency (dp_name d) (dp_library d) p]> deps1.
Proof.
  intros Hnd Hs Hp Hfresh. destruct ps as [|[q k] ps _] using rev_ind.
  { eexists. split_and!; [| |reflexivity]; cbn; [by rewrite lookup_insert_eq|]. intros q _ Hq. by apply lookup_insert_ne. }
  destruct (dep_seg_last _ _ _ _ Hs) as [Hq0 Hq]. unfold dep_last. rewrite last_snoc. cbn [from_option fst]. rewrite (proj2 (Z.eqb_neq q NULL)) by done.
  rewrite fmap_app in Hnd, Hfresh. apply NoDup_app in Hnd as (Hnd & Hdis & _). apply not_elem_of_app in Hfresh as [Hf1 Hf2].
  cbn in Hf2. apply not_elem_of_cons in Hf2 as [Hqp _].
  exists (<[q := Dependency k NULL p]> (<[p := Dependency n NULL NULL]> deps)). split_and!.
  - rewrite <- app_assoc. cbn [app]. clear -Hs Hnd Hdis Hf1 Hqp Hp Hq0.
    induction ps as [|[a b] ps IH]; cbn [app dep_seg dep_head] in *.
    + split_and!; try done; [by rewrite lookup_insert_eq|]. by rewrite lookup_insert_ne, lookup_insert_eq.
    + destruct Hs as (Ha & Hla & Hs). apply NoDup_cons in Hnd as [_ Hnd]. apply not_elem_of_cons in Hf1 as [Hpa Hf1].
      split_and!; [done| |apply IH; try done; intros x Hx; apply Hdis; by right].
      rewrite lookup_insert_ne by (intros ->; apply (Hdis a); left). rewrite lookup_insert_ne by done.
      rewrite Hla. do 2 f_equal. by destruct ps as [|[]].
  - intros x Hx Hxp. rewrite fmap_app in Hx. apply not_elem_of_app in Hx as [_ Hx]. cbn in Hx. apply not_elem_of_cons in Hx as [Hx _].
    by rewrite !lookup_insert_ne.
  - exists (Dependency k NULL NULL). split; [by rewrite lookup_insert_ne|done].
Qed.

Lemma entries_at_places ro ds : forall p, entries_at ro p ds -> forall i, (i < length ds)%nat -> is_Some (ro !! (p + 8 * Z.of_nat i)).
Proof.
  induction ds as [|[t v] ds IH]; intros p Hd i Hi; [cbn in Hi; lia|]. cbn [entries_at length] in *.
  destruct Hd as (_ & (w & Hw & _) & _ & _ & Hd). destruct i as [|i].
  - rewrite Z.add_0_r. by eapply word_at_mapped.
  - replace (p + 8 * Z.of_nat (S i)) with (p + 8 + 8 * Z.of_nat i) by lia. apply IH; [done|lia].
Qed.

Lemma entries_at_length ro ds p : entries_at ro p ds -> (length ds <= size ro)%nat.
Proof.
  intros Hd. set (l := (fun i => p + 8 * Z.of_nat i) <$> seq 0 (length ds)).
  replace (length ds) with (length l) by (unfold l; by rewrite length_fmap, length_seq). apply places_size.
  - apply NoDup_fmap_2; [intros x y E; lia|apply NoDup_seq].
  - intros a (i & -> & Hi)%list_elem_of_fmap. apply elem_of_seq in Hi. apply (entries_at_places ro ds); [done|lia].
Qed.

Section Digest.
Context {Sys : Type} `{LinkdSys Sys}.

(** [has_memory k s X]: the heap has room for [k] more dependencies, and gives
    none of the addresses [X]. *)
Context (has_memory : nat -> Sys -> gset Z -> Prop).

Definition malloc_fresh : Prop := forall k s X, has_memory (S k) s X -> exists p s',
  sys_malloc s sizeof_dependency_t = Ok (p, s') /\ p <> NULL /\ (p ∉ X) /\ has_memory k s' ({[p]} ∪ X).

(** A library in the middle of its digestion: its dependencies so far are [ps]. *)
Record digesting (k : nat) (library : Z) (ps : list (Z * Z)) (l : library_t) (st : @linkd Sys) : Prop := {
  di_lib : ld_libs st !! library = Some l;
  di_head : lb_dependency l = dep_head ps;
  di_seg : dep_seg (ld_deps st) ps;
  di_nodup : NoDup (ps.*1);
  di_memory : exists X, has_memory k (ld_sys st) X /\ (forall p, p ∈ (ps.*1) -> p ∈ X) /\ (forall p, is_Some (ld_deps st !! p) -> p ∈ X)
}.

(** What the loop may have changed since [st]. *)
Record digested (library : Z) (ps : list (Z * Z)) (l : library_t) (st st' : @linkd Sys) : Prop := {
  dd_mem : ld_mem st' = ld_mem st;
  dd_libs : ld_libs st' = <[library := l]> (ld_libs st);
  dd_deps q : is_Some (ld_deps st !! q) -> q ∉ (ps.*1) -> ld_deps st' !! q = ld_deps st !! q;
  dd_rest : library_first st' = library_first st /\ library_main st' = library_main st /\ ld_error st' = ld_error st
}.

Definition set_dependency (p : Z) (l : library_t) : library_t :=
  Library (lb_nameAt l) (lb_name l) (lb_img l) p (lb_pltgot l) (lb_pages l) (lb_region l) (lb_references l) (lb_next l).
Definition set_pltgot (p : Z) (l : library_t) : library_t :=
  Library (lb_nameAt l) (lb_name l) (lb_img l) (lb_dependency l) p (lb_pages l) (lb_region l) (lb_references l) (lb_next l).

Lemma digest_needed_spec (Hm : malloc_fresh) k library ps l (st : @linkd Sys) v : digesting (S k) library ps l st ->
  exists p st', digest_needed st library (dep_last ps) v = Ok (st', p) /\ p = dep_last (ps ++ [(p, v)]) /\
    digesting k library (ps ++ [(p, v)]) (set_dependency (dep_head (ps ++ [(p, v)])) l) st' /\
    digested library ps (set_dependency (dep_head (ps ++ [(p, v)])) l) st st' /\ (p ∉ ps.*1) /\ ld_deps st !! p = None.
Proof.
  intros [Hl Hh Hs Hnd (X & HX & Hps & Hdom)]. destruct (Hm _ _ _ HX) as (p & s' & E & Hp & HpX & HX').
  assert (Hfresh : p ∉ ps.*1) by (intros Hin; by apply HpX, Hps).
  assert (Hnone : ld_deps st !! p = None) by (apply eq_None_not_Some; intros Hx; by apply HpX, Hdom).
  destruct (dep_seg_snoc (ld_deps st) ps p v Hnd Hs Hp Hfresh) as (deps' & Hseg & Hframe & Hcase).
  exists p. unfold digest_needed. rewrite E. cbn [obind]. rewrite (proj2 (Z.eqb_neq p NULL)) by done. cbn [ld_libs ld_deps with_dep with_mem].
  assert (Hdom' : forall q, is_Some (deps' !! q) -> q ∈ {[p]} ∪ X).
  { intros q Hq. destruct (decide (q = p)) as [->|Hqp]; [set_solver|]. destruct (decide (q ∈ ps.*1)) as [Hin|Hin]; [set_solver|].
    rewrite Hframe in Hq by done. apply Hdom in Hq. set_solver. }
  assert (Hfst : (ps ++ [(p, v)]).*1 = ps.*1 ++ [p]) by (by rewrite fmap_app).
  assert (Hdone : forall st', ld_mem st' = ld_mem st -> ld_sys st' = s' -> ld_deps st' = deps' ->
    ld_libs st' = <[library := set_dependency (dep_head (ps ++ [(p, v)])) l]> (ld_libs st) ->
    (library_first st' = library_first st /\ library_main st' = library_main st /\ ld_error st' = ld_error st) ->
    digesting k library (ps ++ [(p, v)]) (set_dependency (dep_head (ps ++ [(p, v)])) l) st' /\
    digested library ps (set_dependency (dep_head (ps ++ [(p, v)])) l) st st').
  { intros st' Em Es Ed El Er. split; constructor; try done.
    - by rewrite El, lookup_insert_eq.
    - by rewrite Ed.
    - rewrite Hfst. apply NoDup_app. split_and!; [done| |apply NoDup_singleton]. intros q Hq Hq'. apply list_elem_of_singleton in Hq'. congruence.
    - exists ({[p]} ∪ X). rewrite Es, Ed. split_and!; try done. rewrite Hfst. intros q [Hq|Hq]%elem_of_app; [set_solver|].
      apply list_elem_of_singleton in Hq. set_solver.
    - intros q Hq Hin. rewrite Ed. apply Hframe; [done|]. intros ->. rewrite Hnone in Hq. by destruct Hq. }
  assert (Hlast : p = dep_last (ps ++ [(p, v)])) by (unfold dep_last; by rewrite last_snoc).
  destruct (dep_last ps =? NULL) eqn:El.
  - rewrite Hl. cbn [of_option obind]. eexists. split; [done|]. split; [done|].
    assert (ps = []) as -> by (by eapply dep_last_null).
    edestruct Hdone as [H1 H2]; [| | | | |split_and!; [exact H1|exact H2|done|done]]; try done.
  - destruct Hcase as (d & Hd & ->). rewrite Hd. cbn [of_option obind]. eexists. split; [done|]. split; [done|].
    edestruct Hdone as [H1 H2]; [| | | | |split_and!; [exact H1|exact H2|done|done]]; try done. cbn [ld_libs with_dep with_mem].
    rewrite insert_id; [done|]. rewrite Hl. f_equal. destruct l, ps as [|[]]; cbn in *; [done|by rewrite Hh].
Qed.

Lemma digested_trans library ps q v l1 l2 (st st1 st2 : @linkd Sys) : ld_deps st !! q = None ->
  digested library ps l1 st st1 -> digested library (ps ++ [(q, v)]) l2 st1 st2 -> digested library ps l2 st st2.
Proof.
  intros Hnone [M1 L1 D1 (R1 & R2 & R3)] [M2 L2 D2 (S1 & S2 & S3)]. constructor; [congruence| | |split_and!; congruence].
  - by rewrite L2, L1, insert_insert_eq.
  - intros x Hx Hin. assert (x <> q) by (intros ->; rewrite Hnone in Hx; by destruct Hx).
    rewrite D2; [by apply D1|by rewrite D1|]. rewrite fmap_app, not_elem_of_app. split; [done|]. cbn.
    by rewrite list_elem_of_singleton.
Qed.

(** The fields of the library the loop itself changes. *)
Definition digest_library (m : mem) (d : digest) (ds : entries) (head : Z) (l : library_t) : library_t :=
  set_pltgot (said_ptr d ds DT_PLTGOT (lb_pltgot l)) (set_dependency head l).

Lemma digest_loop_spec (Hm : malloc_fresh) ro ds : forall fuel library ps l (st : @linkd Sys) p d, ro ⊆ ld_mem st ->
  entries_at ro p ds -> Forall (entry_ok ro (relocBase (dg_img d))) ds -> digesting (length (needed ds)) library ps l st -> (length ds <= fuel)%nat ->
  exists st' ps', digest_loop fuel st library p (dep_last ps) d = Ok (st', said_digest (ld_mem st) d ds) /\
    (ps'.*2 = ps.*2 ++ needed ds) /\ dep_seg (ld_deps st') ps' /\
    digested library ps (digest_library (ld_mem st) d ds (dep_head ps') l) st st'.
Proof.
  induction ds as [|[t v] ds IH]; intros fuel library ps l st p d Hro Hat Hok Hdi Hf.
  - exists st, ps. assert (E : digest_loop fuel st library p (dep_last ps) d = Ok (st, d)).
    { destruct fuel; cbn [digest_loop]; unfold d_tag; rewrite (mono_ld32 p ro _ _ Hro (ld32_word _ _ _ Hat)); done. }
    rewrite said_digest_nil. split_and!; [done|by rewrite app_nil_r|apply Hdi|]. constructor; try done.
    rewrite insert_id; [done|]. rewrite (di_lib _ _ _ _ _ Hdi). f_equal. destruct l as [? ? ? x]. unfold digest_library, said_ptr, said. cbn.
    by rewrite <- (di_head _ _ _ _ _ Hdi).
  - destruct fuel as [|fuel]; [cbn in Hf; lia|]. cbn [entries_at length] in *. destruct Hat as (Ht & (w & Hw & Hs) & Hv & Hp & Hat).
    apply Forall_cons in Hok as [Hok1 Hok]. cbn [digest_loop]. unfold d_tag, d_un.
    assert (Hp0 : 0 <= p) by (by destruct Hw as (_ & _ & ? & _)).
    rewrite (mono_ld32 p ro _ _ Hro (ld32_word _ _ _ Hw)). cbn [obind]. rewrite Hs, (proj2 (Z.eqb_neq t DT_NULL)) by done.
    rewrite (u32_small (p + 4)) by lia. rewrite (mono_ld32 _ ro _ _ Hro (ld32_word _ _ _ Hv)). cbn [obind].
    unfold sizeof_elf_dyn_t. rewrite (u32_small (p + 8)) by lia.
    destruct (Z.eqb_spec t DT_NEEDED) as [->|HnN]; [|destruct (Z.eqb_spec t DT_PLTGOT) as [->|HnP]].
    + destruct (digest_needed_spec Hm (length (needed ds)) library ps l st v Hdi) as (q & st1 & -> & Hq & Hdi1 & Hdd1 & Hfr & Hnone). cbn [obind].
      destruct (IH fuel library (ps ++ [(q, v)]) (set_dependency (dep_head (ps ++ [(q, v)])) l) st1 (p + 8) d) as (st' & ps' & E & Hps & Hseg & Hdd); try done.
      { by rewrite (dd_mem _ _ _ _ _ Hdd1). } { lia. }
      exists st', ps'. rewrite (dd_mem _ _ _ _ _ Hdd1) in *. split_and!; try done.
      * rewrite said_digest_skip by auto. rewrite <- Hq in E. exact E.
      * rewrite Hps, fmap_app, <- app_assoc. done.
      * eapply digested_trans; [done..|]. unfold digest_library, said_ptr in *. by rewrite said_step.
    + unfold digest_pltgot. rewrite (di_lib _ _ _ _ _ Hdi). cbn [of_option obind].
      set (l1 := set_pltgot (u32 (relocBase (dg_img d) + v)) l).
      set (st1 := with_lib st library l1). assert (Hdi1 : digesting (length (needed ds)) library ps l1 st1).
      { destruct Hdi as [? ? ? ? (X & ? & ? & ?)]. constructor; try done; [apply lookup_insert_eq|by exists X]. }
      destruct (IH fuel library ps l1 st1 (p + 8) d) as (st' & ps' & E & Hps & Hseg & Hdd); try done; [lia|].
      exists st', ps'. change (ld_mem st1) with (ld_mem st) in *. split_and!; try done.
      * rewrite said_digest_skip by auto. exact E.
      * destruct Hdd as [M2 L2 D2 R2]. constructor; try done. rewrite L2. cbn [ld_libs with_lib st1]. rewrite insert_insert_eq. f_equal.
        unfold digest_library, said_ptr. by rewrite said_step.
    + destruct (digest_entry_said ro (ld_mem st) d t v ds Hro Hok1 HnN HnP) as (d' & -> & Eb & ->). cbn [obind].
      assert (En : needed ((t, v) :: ds) = needed ds) by (unfold needed; by rewrite filter_cons_False). rewrite En in *.
      destruct (IH fuel library ps l st (p + 8) d') as (st' & ps' & E & Hps & Hseg & Hdd); try done; [by rewrite Eb|lia|].
      exists st', ps'. split_and!; try done.
      * unfold digest_library, said_ptr in *. rewrite said_step, (proj2 (Z.eqb_neq t DT_PLTGOT)) by done. by rewrite Eb in Hdd.
Qed.

(** Digesting the dynamic section of a freshly mapped library ends and
    leaves in the library what the section says: each table is where the last
    entry with its tag puts it, moved by the base, the relocation tables end
    where their sizes say, the hash table's header is read from memory, and the
    dependencies are the needed libraries in their order, not resolved yet.
    Nothing else changes. *)
Theorem digestDynamic_reads ro (st : @linkd Sys) library l X ds :
  malloc_fresh -> ro ⊆ ld_mem st -> ld_libs st !! library = Some l -> lb_dependency l = NULL ->
  has_memory (length (needed ds)) (ld_sys st) X -> (forall p, is_Some (ld_deps st !! p) -> p ∈ X) ->
  entries_at ro (dynamic (lb_img l)) ds -> Forall (entry_ok ro (relocBase (lb_img l))) ds ->
  exists st' ps, library_digestDynamic st library = Ok st' /\ (ps.*2 = needed ds) /\ dep_seg (ld_deps st') ps /\
    digested library [] (set_img (digest_finish (said_digest (ld_mem st) (digest_start (lb_img l)) ds))
      (digest_library (ld_mem st) (digest_start (lb_img l)) ds (dep_head ps) l)) st st'.
Proof.
  intros Hm Hro Hl Hnull HX Hdom Hat Hok. unfold library_digestDynamic. rewrite Hl. cbn [of_option obind].
  assert (Hdi : digesting (length (needed ds)) library [] l st).
  { constructor; try done; [constructor|]. exists X. split_and!; try done. by intros p Hp%not_elem_of_nil. }
  destruct (digest_loop_spec Hm ro ds (string_fuel (ld_mem st)) library [] l st (dynamic (lb_img l)) (digest_start (lb_img l)))
    as (st' & ps & E & Hps & Hseg & Hdd); try done.
  { pose proof (entries_at_length ro ds _ Hat). pose proof (map_subseteq_size ro _ Hro). unfold string_fuel. lia. }
  change (dep_last []) with NULL in E. rewrite E. cbn [obind]. destruct Hdd as [Hmem Hlibs Hdeps Hrest].
  rewrite Hlibs, lookup_insert_eq. cbn [of_option obind]. eexists _, ps. split_and!; [done|done|done|].
  constructor; try done. cbn [ld_libs with_lib]. by rewrite Hlibs, insert_insert_eq.
Qed.
End Digest.

(** ** A section at work *)

(** System calls that do nothing and a heap that hands out 16 bytes after 16. *)
#[export] Instance bump_sys : LinkdSys Z := {|
  sys_open s _ _ := (-1, s); sys_close s _ := s; sys_lseek s _ _ _ := (0, s);
  sys_read s m _ _ _ := (0, m, s); sys_mmap s m _ _ _ := (MAP_FAILED, m, s); sys_munmap s m _ _ := (m, s);
  sys_malloc s _ := Ok (s, s + 16); sys_free s _ := Ok s
|}.

Definition bump_memory (k : nat) (s : Z) (X : gset Z) : Prop := 0 < s /\ s + 16 * Z.of_nat k < 2 ^ 32 /\ forall p, p ∈ X -> p < s.

Lemma bump_fresh : malloc_fresh bump_memory.
Proof.
  intros k s X (Hs & Hk & HX). exists s, (s + 16). split_and!; [done|unfold NULL; lia| |].
  - intros Hin. specialize (HX s Hin). lia.
  - split_and!; [lia..|]. intros p [->%elem_of_singleton|Hp]%elem_of_union; [lia|]. specialize (HX p Hp). lia.
Qed.

(** Two needed libraries, a string table given twice, a hash table. *)
Definition dyn_entries : entries :=
  [(DT_NEEDED, 1); (DT_STRTAB, 40); (DT_HASH, 100); (DT_NEEDED, 9); (DT_STRTAB, 50); (DT_SYMENT, 16)].
Definition dyn_mem : mem :=
  write (write ∅ 1000 (concat ((fun d => word_bytes d.1 ++ word_bytes d.2) <$> dyn_entries) ++ word_bytes 0)) 2100 (word_bytes 3 ++ word_bytes 7).
Definition dyn_library : library_t := Library 0 [] (set_dynamic 1000 (set_base 2000 zero_image)) NULL NULL 0 NULL 1 NULL.
Definition dyn_state : @linkd Z := LinkdState dyn_mem 16 {[ 5 := dyn_library ]} ∅ NULL NULL false.

Lemma entries_at_cons ro p t v ds : t <> DT_NULL -> - 2 ^ 31 <= t < 2 ^ 31 -> word_at ro p t -> word_at ro (p + 4) v -> p + 8 < 2 ^ 32 ->
  entries_at ro (p + 8) ds -> entries_at ro p ((t, v) :: ds).
Proof. intros ? ? ? ? ? ?. split_and!; try done. exists t. split; [done|by apply s32_small]. Qed.

Ltac evaluate := solve [clear; vm_compute; repeat split; (reflexivity || discriminate)].

Lemma dyn_entries_at : entries_at dyn_mem 1000 dyn_entries.
Proof. unfold dyn_entries. do 6 (apply entries_at_cons; [evaluate..|]). evaluate. Qed.

Lemma dyn_entries_ok : Forall (entry_ok dyn_mem 2000) dyn_entries.
Proof. repeat constructor; try done; [exists 3|exists 7]; evaluate. Qed.

Lemma digestDynamic_reads_witness : exists st' ps l', library_digestDynamic dyn_state 5 = Ok st' /\ ps.*2 = [1; 9]
  /\ dep_seg (ld_deps st') ps /\ ld_libs st' = {[ 5 := l' ]} /\ strtab (lb_img l') = 2050 /\ nbuckets (lb_img l') = 3.
Proof.
  destruct (digestDynamic_reads bump_memory dyn_mem dyn_state 5 dyn_library ∅ dyn_entries) as (st' & ps & E & Hps & Hseg & Hdd).
  - exact bump_fresh.
  - reflexivity.
  - reflexivity.
  - reflexivity.
  - split_and!; [done..|]. intros p Hp. by apply not_elem_of_empty in Hp.
  - intros p [x Hx]. discriminate Hx.
  - exact dyn_entries_at.
  - exact dyn_entries_ok.
  - destruct Hdd as [_ Hlibs _ _]. cbn [ld_libs dyn_state] in Hlibs. rewrite insert_singleton_eq in Hlibs.
    exists st', ps. eexists. repeat (split; [eassumption|]). split; reflexivity.
Defined.
