(* ===== verification/LinkdLoad.v ===== *)
(** * Loading the segments of a file

    [map_segments] spreads the loadable segments of a file over fresh pages: the
    pages are enough, every copy stays inside them, and afterwards they hold the
    segments and zeros. *)

From S2P Require Import Prelude CString CStdlib Pages Elf ElfLink ElfReloc Linkd.

(** ** Program headers *)

(** A program header.  The loaders take the extent of the pages from the physical
    addresses and the places of the segments from the virtual ones. *)
Record phdr := Phdr { ph_type : Z; ph_offset : Z; ph_vaddr : Z; ph_paddr : Z; ph_filesz : Z; ph_memsz : Z }.

#[export] Instance phdr_eq_dec : EqDecision phdr.
Proof. solve_decision. Defined.

Definition phdr_at (m : mem) (p : Z) (h : phdr) : Prop :=
  word_at m p (ph_type h) /\ word_at m (p + 4) (ph_offset h) /\ word_at m (p + 8) (ph_vaddr h)
  /\ word_at m (p + 12) (ph_paddr h) /\ word_at m (p + 16) (ph_filesz h) /\ word_at m (p + 20) (ph_memsz h)
  /\ 0 <= p /\ p + 32 < 2 ^ 32.

Fixpoint phdrs_at (m : mem) (p : Z) (hs : list phdr) : Prop :=
  match hs with [] => True | h :: hs => phdr_at m p h /\ phdrs_at m (p + 32) hs end.

Lemma word_at_frame m m' p v : (forall q, p <= q < p + 4 -> m' !! q = m !! q) -> word_at m p v -> word_at m' p v.
Proof.
  intros Hf (Hb & ? & ? & ?). split_and!; try done. revert Hb. apply bytes_at_frame. intros i Hi. cbn in Hi. apply Hf. lia.
Qed.

Lemma phdrs_at_frame m m' hs : forall p, (forall q, p <= q < p + 32 * Z.of_nat (length hs) -> m' !! q = m !! q) ->
  phdrs_at m p hs -> phdrs_at m' p hs.
Proof.
  induction hs as [|h hs IH]; intros p Hf; [done|]. cbn [phdrs_at length] in *. intros [(? & ? & ? & ? & ? & ? & ? & ?) Hhs].
  split; [|apply IH; [intros q Hq; apply Hf; lia|done]].
  split_and!; try done; (eapply word_at_frame; [|eassumption]); intros q Hq; apply Hf; lia.
Qed.

Definition is_load (h : phdr) : bool := ph_type h =? PT_LOAD.

Lemma phdrs_at_write m hs d bs p : (d + Z.of_nat (length bs) <= p \/ p + 32 * Z.of_nat (length hs) <= d) ->
  phdrs_at m p hs -> phdrs_at (write m d bs) p hs.
Proof. intros Hd. apply phdrs_at_frame. intros q Hq. apply write_outside. lia. Qed.

(** ** The scan *)

(** The scan of one header, as a function of its fields. *)
Definition scan_phdr (program : Z) (s : segments) (h : phdr) : segments :=
  let s := if is_load h then
    Segments (if ph_paddr h <? minAddress s then ph_paddr h else minAddress s)
      (if maxAddress s <? u32 (ph_paddr h + ph_memsz h) then u32 (ph_paddr h + ph_memsz h) else maxAddress s)
      (sg_dynamic s) (ptload s ++ [program]) else s in
  if ph_type h =? PT_DYNAMIC then Segments (minAddress s) (maxAddress s) (ph_vaddr h) (ptload s) else s.

Fixpoint scan_phdrs (program : Z) (s : segments) (hs : list phdr) : segments :=
  match hs with [] => s | h :: hs => scan_phdrs (program + 32) (scan_phdr program s h) hs end.

Lemma scan_headers_spec m hs : forall p s, phdrs_at m p hs -> scan_headers (length hs) m p s = Ok (scan_phdrs p s hs).
Proof.
  induction hs as [|h hs IH]; intros p s Hat; [done|]. cbn [phdrs_at scan_headers scan_phdrs length] in *.
  destruct Hat as [(Ht & Ho & Hv & Hpa & Hf & Hm & Hp & Hp') Hat]. unfold scan_header, p_type, p_vaddr, p_paddr, p_memsz.
  rewrite !u32_small by lia. rewrite (ld32_word _ _ _ Ht). cbn [obind]. rewrite (ld32_word _ _ _ Hv), (ld32_word _ _ _ Hpa), (ld32_word _ _ _ Hm).
  cbn [obind]. unfold sizeof_elf_program_header_t. rewrite (u32_small (p + 32)) by lia. rewrite <- IH by done.
  unfold scan_phdr, is_load. destruct (ph_type h =? PT_LOAD); cbn [obind]; by destruct (ph_type h =? PT_DYNAMIC).
Qed.

(** Segments that end inside the address space. *)
Definition in_space (h : phdr) : Prop := 0 <= ph_paddr h /\ 0 <= ph_filesz h <= ph_memsz h /\ ph_paddr h + ph_memsz h <= 2 ^ 32 - 8192.

Lemma scan_phdrs_bounds hs : forall p s, (forall h, h ∈ hs -> is_load h = true -> in_space h) ->
  let s' := scan_phdrs p s hs in
  minAddress s' <= minAddress s /\ maxAddress s <= maxAddress s' /\
  (forall h, h ∈ hs -> is_load h = true -> minAddress s' <= ph_paddr h /\ ph_paddr h + ph_memsz h <= maxAddress s') /\
  (0 <= minAddress s -> 0 <= minAddress s') /\ (maxAddress s <= 2 ^ 32 - 8192 -> maxAddress s' <= 2 ^ 32 - 8192).
Proof.
  induction hs as [|h hs IH]; intros p s Hin; cbn [scan_phdrs].
  { split_and!; try done. by intros h Hh%not_elem_of_nil. }
  destruct (IH (p + 32) (scan_phdr p s h)) as (H1 & H2 & H3 & H4 & H5); [intros; apply Hin; [by right|done]|].
  assert (Hs : minAddress (scan_phdr p s h) <= minAddress s /\ maxAddress s <= maxAddress (scan_phdr p s h) /\
    (is_load h = true -> minAddress (scan_phdr p s h) <= ph_paddr h /\ ph_paddr h + ph_memsz h <= maxAddress (scan_phdr p s h)) /\
    (0 <= minAddress s -> 0 <= minAddress (scan_phdr p s h)) /\ (maxAddress s <= 2 ^ 32 - 8192 -> maxAddress (scan_phdr p s h) <= 2 ^ 32 - 8192)).
  { unfold scan_phdr. destruct (is_load h) eqn:El.
    - destruct (Hin h ltac:(left) El) as (? & ? & ?). rewrite (u32_small (ph_paddr h + ph_memsz h)) by lia.
      destruct (ph_type h =? PT_DYNAMIC); cbn [minAddress maxAddress]; zcases; lia.
    - destruct (ph_type h =? PT_DYNAMIC); cbn [minAddress maxAddress]; split_and!; (done || lia). }
  destruct Hs as (S1 & S2 & S3 & S4 & S5). split_and!; [lia|lia| |auto|auto].
  intros h' [->|Hh']%elem_of_cons Hl; [destruct (S3 Hl); lia|by apply H3].
Qed.

(** ** The copies *)

Section Copies.
Context (begin : Z) (file : list Z) (target len min : Z).

(** Where a segment goes, and its bytes in the file. *)
Definition place (h : phdr) : Z := target + (ph_vaddr h - min).
Definition slice (h : phdr) : list Z := take (Z.to_nat (ph_filesz h)) (drop (Z.to_nat (ph_offset h)) file).

Definition fill (m : mem) (h : phdr) : mem := if is_load h then write m (place h) (slice h) else m.

(** A segment that lies in the file and fits into the pages. *)
Definition fits (h : phdr) : Prop :=
  0 <= ph_offset h /\ 0 <= ph_filesz h /\ ph_offset h + ph_filesz h <= Z.of_nat (length file) /\
  min <= ph_vaddr h /\ place h + ph_filesz h <= target + len.

Lemma slice_length h : fits h -> Z.of_nat (length (slice h)) = ph_filesz h.
Proof. intros (? & ? & ? & _). unfold slice. rewrite length_take, length_drop. lia. Qed.

(** The file and the pages, apart from each other. *)
Record loading (m : mem) : Prop := {
  lo_file : bytes_at m begin file;
  lo_begin : 0 <= begin /\ begin + Z.of_nat (length file) < 2 ^ 32;
  lo_room : room m target (Z.to_nat len);
  lo_len : 0 <= len;
  lo_apart : target + len <= begin \/ begin + Z.of_nat (length file) <= target
}.

Lemma loading_write m d bs : target <= d -> d + Z.of_nat (length bs) <= target + len -> loading m -> loading (write m d bs).
Proof.
  intros Hd Hd' [Hf Hb Hr Hl Ha]. constructor; try done; [|by apply room_write].
  revert Hf. apply bytes_at_frame. intros i Hi. apply write_outside. lia.
Qed.

Lemma loading_fill m h : (is_load h = true -> fits h) -> loading m -> loading (fill m h).
Proof.
  intros Hh Hm. unfold fill. destruct (is_load h); [|done]. specialize (Hh eq_refl). pose proof (slice_length h Hh).
  destruct Hh as (? & ? & ? & ? & Hp). apply loading_write; [unfold place; lia|lia|done].
Qed.

Lemma load_segment_spec m p h : loading m -> phdr_at m p h -> fits h -> target + len < 2 ^ 32 -> is_u32 min -> is_u32 (ph_vaddr h) ->
  load_segment m begin target min p = Ok (write m (place h) (slice h)).
Proof.
  intros [Hf [Hb Hb'] (Hr0 & Hr1 & Hr) Hl Ha] (_ & Ho & Hv & _ & Hfs & _ & Hp & Hp') Hfit Ht Hmin Hva.
  pose proof (slice_length h Hfit) as Hsl. destruct Hfit as (F1 & F2 & F3 & F4 & F5). unfold is_u32 in *.
  unfold load_segment, p_vaddr, p_offset, p_filesz. rewrite !u32_small by lia.
  rewrite (ld32_word _ _ _ Hv), (ld32_word _ _ _ Ho), (ld32_word _ _ _ Hfs). cbn [obind].
  rewrite (u32_small (ph_vaddr h - min)) by lia. fold (place h).
  assert (Hpl : 0 <= place h < 2 ^ 32) by (unfold place in *; lia). rewrite !u32_small by lia. unfold memcpy.
  replace (Z.to_nat (ph_filesz h)) with (length (slice h)) by lia. apply copy_loop_spec.
  - unfold slice. pose proof (take_drop (Z.to_nat (ph_offset h)) file) as E. rewrite <- E in Hf. apply bytes_at_app in Hf as [_ Hf].
    rewrite length_take in Hf. replace (Z.of_nat (Z.to_nat (ph_offset h) `min` length file)) with (ph_offset h) in Hf by lia.
    rewrite <- (take_drop (Z.to_nat (ph_filesz h)) (drop _ file)) in Hf. by apply bytes_at_app in Hf as [Hf _].
  - split_and!; [lia|lia|]. intros i Hi. specialize (Hr (Z.to_nat (ph_vaddr h - min) + i)%nat).
    replace (target + Z.of_nat (Z.to_nat (ph_vaddr h - min) + i)) with (place h + Z.of_nat i) in Hr by (unfold place; lia).
    apply Hr. unfold place in F5. lia.
  - lia.
  - lia.
  - unfold place in *. lia.
Qed.

Lemma load_headers_spec hs : forall m p, loading m -> target + len < 2 ^ 32 -> is_u32 min -> phdrs_at m p hs ->
  begin <= p -> p + 32 * Z.of_nat (length hs) <= begin + Z.of_nat (length file) ->
  (forall h, h ∈ hs -> is_load h = true -> fits h /\ is_u32 (ph_vaddr h)) ->
  load_headers (length hs) m begin target min p = Ok (fold_left fill hs m).
Proof.
  induction hs as [|h hs IH]; intros m p Hm Ht Hmin Hat Hp Hp' Hh; [done|]. cbn [load_headers phdrs_at length fold_left] in *.
  destruct Hat as [Hat Hats]. pose proof Hat as (Hty & _ & _ & _ & _ & _ & Hq & Hq').
  unfold p_type. rewrite (ld32_word _ _ _ Hty). cbn [obind]. unfold sizeof_elf_program_header_t. rewrite (u32_small (p + 32)) by lia.
  assert (E : (if ph_type h =? PT_LOAD then load_segment m begin target min p else Ok m) = Ok (fill m h)).
  { unfold fill, is_load. destruct (ph_type h =? PT_LOAD) eqn:El; [|done]. destruct (Hh h ltac:(left) El). by apply load_segment_spec. }
  rewrite E. cbn [obind]. pose proof (lo_apart _ Hm) as Ha. apply IH; try done; try lia.
  - apply loading_fill; [|done]. intros El. by apply Hh; [left|].
  - unfold fill. destruct (is_load h) eqn:El; [|done]. destruct (Hh h ltac:(left) El) as [Hfit _]. pose proof (slice_length h Hfit).
    destruct Hfit as (? & ? & ? & ? & ?). apply phdrs_at_write; [|done]. unfold place in *. lia.
  - intros h' Hh' El. apply Hh; [by right|done].
Qed.

(** ** What the pages hold *)

Lemma fill_outside m h q : (is_load h = true -> q < place h \/ place h + Z.of_nat (length (slice h)) <= q) -> fill m h !! q = m !! q.
Proof. intros Hq. unfold fill. destruct (is_load h); [|done]. apply write_outside. specialize (Hq eq_refl). lia. Qed.

Lemma fold_fill_outside hs : forall m q, (forall h, h ∈ hs -> is_load h = true -> q < place h \/ place h + Z.of_nat (length (slice h)) <= q) ->
  fold_left fill hs m !! q = m !! q.
Proof.
  induction hs as [|h hs IH]; intros m q Hq; [done|]. cbn [fold_left]. rewrite IH by (intros; apply Hq; [by right|done]).
  apply fill_outside. intros El. apply Hq; [left|done].
Qed.

(** Segments of the file that do not overlap in memory. *)
Definition segments_apart (hs : list phdr) : Prop := forall h h', h ∈ hs -> h' ∈ hs -> is_load h = true -> is_load h' = true ->
  h = h' \/ ph_vaddr h + ph_filesz h <= ph_vaddr h' \/ ph_vaddr h' + ph_filesz h' <= ph_vaddr h.

Lemma fold_fill_inside hs : segments_apart hs -> (forall h, h ∈ hs -> is_load h = true -> fits h) ->
  forall m h k b, h ∈ hs -> is_load h = true -> slice h !! k = Some b -> fold_left fill hs m !! (place h + Z.of_nat k) = Some b.
Proof.
  induction hs as [|h1 hs IH]; intros Hap Hfit m h k b Hh El Hk; [by apply not_elem_of_nil in Hh|]. cbn [fold_left].
  destruct (decide (h ∈ hs)) as [Hin|Hnin].
  - apply IH; try done; [intros x y Hx Hy; apply Hap; by right|intros; apply Hfit; [by right|done]].
  - apply elem_of_cons in Hh as [->|]; [|done]. rewrite fold_fill_outside.
    + unfold fill. rewrite El. by eapply bytes_at_lookup; [apply write_bytes|].
    + intros h' Hh' El'. pose proof (lookup_lt_Some _ _ _ Hk). pose proof (slice_length h1 (Hfit h1 ltac:(left) El)).
      pose proof (slice_length h' (Hfit h' ltac:(by right) El')).
      destruct (Hap h1 h' ltac:(left) ltac:(by right) El El') as [->|[]]; [done| |]; unfold place; lia.
Qed.
End Copies.

(** ** The whole *)

(** The virtual addresses of the segments lie between the lowest and the highest of
    the physical ones; so they do when both are the same. *)
Definition virtual_inside (hs : list phdr) : Prop := forall h, h ∈ hs -> is_load h = true ->
  (exists l, l ∈ hs /\ is_load l = true /\ ph_paddr l <= ph_vaddr h) /\
  exists u, u ∈ hs /\ is_load u = true /\ ph_vaddr h + ph_memsz h <= ph_paddr u + ph_memsz u.

Lemma same_addresses_inside hs : (forall h, h ∈ hs -> is_load h = true -> ph_paddr h = ph_vaddr h) -> virtual_inside hs.
Proof. intros Hs h Hh El. specialize (Hs h Hh El). split; exists h; split_and!; (done || lia). Qed.

(** The pages from the lowest to the highest segment. *)
Lemma pages_bounds p dyn hs (sg := scan_phdrs p (Segments UINT32_MAX 0 dyn []) hs) (min := VM_PAGE_ALIGN_DOWN (minAddress sg))
    (pages := VM_PAGE_COUNT (u32 (maxAddress sg - min))) :
  (forall h, h ∈ hs -> is_load h = true -> in_space h) -> virtual_inside hs -> Exists (fun h => is_load h = true) hs ->
  is_u32 min /\ 0 <= pages * 4096 < 2 ^ 32 /\ (forall h, h ∈ hs -> is_load h = true -> min <= ph_vaddr h < 2 ^ 32 /\ ph_vaddr h - min + ph_memsz h <= pages * 4096).
Proof.
  intros Hin Hv (h0 & Hh0 & El0)%Exists_exists.
  destruct (scan_phdrs_bounds hs p (Segments UINT32_MAX 0 dyn []) Hin) as (_ & _ & Hb & Hmin & Hmax). fold sg in Hb, Hmin, Hmax.
  specialize (Hmin ltac:(done)). specialize (Hmax ltac:(done)). pose proof (Hb h0 Hh0 El0) as [Hb1 Hb2]. destruct (Hin h0 Hh0 El0) as (? & ? & ?).
  assert (Emin : min = minAddress sg / 4096 * 4096) by (unfold min; apply align_down_spec; lia).
  assert (Hm : 0 <= min <= minAddress sg) by (rewrite Emin; Z.to_euclidean_division_equations; lia).
  assert (Hp : maxAddress sg - min <= pages * 4096 < maxAddress sg - min + 4096).
  { unfold pages. rewrite u32_small by lia. apply page_count_enough. lia. }
  split_and!; [unfold is_u32; lia|lia|lia|]. intros h Hh El. destruct (Hv h Hh El) as [(l & Hl & Ell & ?) (u & Hu & Elu & ?)].
  destruct (Hb l Hl Ell), (Hb u Hu Elu), (Hin h Hh El) as (_ & ? & _). lia.
Qed.

(** A file in memory whose loadable segments lie in it and do not overlap, and
    whose virtual addresses are covered by the physical ones. *)
Record image_file (m : mem) (begin : Z) (file : list Z) (phoff : Z) (hs : list phdr) : Prop := {
  if_file : bytes_at m begin file;
  if_begin : 0 <= begin /\ begin + Z.of_nat (length file) < 2 ^ 32;
  if_phoff : e_phoff m begin = Ok phoff;
  if_phnum : e_phnum m begin = Ok (Z.of_nat (length hs));
  if_headers : 0 <= phoff /\ phoff + 32 * Z.of_nat (length hs) <= Z.of_nat (length file);
  if_at : phdrs_at m (begin + phoff) hs;
  if_segments h : h ∈ hs -> is_load h = true -> in_space h /\ 0 <= ph_offset h /\ ph_offset h + ph_filesz h <= Z.of_nat (length file);
  if_virtual : virtual_inside hs;
  if_some : Exists (fun h => is_load h = true) hs;
  if_apart : segments_apart hs
}.

(** [m1] is [m] with fresh pages, apart from the file. *)
Record given_pages (m m1 : mem) (target len begin size : Z) : Prop := {
  gp_room : room m1 target (Z.to_nat len);
  gp_same q : q < target \/ target + len <= q -> m1 !! q = m !! q;
  gp_apart : target + len <= begin \/ begin + size <= target
}.

(** The pages hold the segments and zeros, and memory elsewhere is that of [m]. *)
Definition holds_image (m m' : mem) (file : list Z) (hs : list phdr) (target min len : Z) : Prop :=
  (forall h k b, h ∈ hs -> is_load h = true -> slice file h !! k = Some b ->
     m' !! (target + (ph_vaddr h - min) + Z.of_nat k) = Some b /\ target + (ph_vaddr h - min) + ph_memsz h <= target + len) /\
  (forall q, target <= q < target + len ->
     (forall h, h ∈ hs -> is_load h = true -> q < target + (ph_vaddr h - min) \/ target + (ph_vaddr h - min) + ph_filesz h <= q) ->
     m' !! q = Some 0) /\
  (forall q, q < target \/ target + len <= q -> m' !! q = m !! q).

(** Clearing the pages and copying the segments, as the loaders do. *)
Lemma segments_placed m m1 begin file dyn phoff hs target :
  let sg := scan_phdrs (begin + phoff) (Segments UINT32_MAX 0 dyn []) hs in
  let min := VM_PAGE_ALIGN_DOWN (minAddress sg) in
  let pages := VM_PAGE_COUNT (u32 (maxAddress sg - min)) in
  image_file m begin file phoff hs -> given_pages m m1 target (pages * 4096) begin (Z.of_nat (length file)) ->
  exists m2 m3, memset m1 target 0 (u32 (pages * VM_PAGE_SIZE)) = Ok m2 /\
    load_headers (length hs) m2 begin target min (begin + phoff) = Ok m3 /\ holds_image m m3 file hs target min (pages * 4096).
Proof.
  intros sg min pages [Hfile [Hb0 Hb1] _ _ [Hph0 Hph1] Hat Hseg Hvi Hex Hap] [Hroom Hsame Hapart].
  destruct (pages_bounds (begin + phoff) dyn hs) as (Hmin & Hlen & Hin); [by intros; apply Hseg|done|done|]. fold sg min pages in Hmin, Hlen, Hin.
  set (len := pages * 4096) in *. set (m2 := write m1 target (replicate (Z.to_nat len) 0)).
  assert (Hrl : Z.of_nat (length (replicate (Z.to_nat len) 0)) = len) by (rewrite length_replicate; lia).
  assert (Hfits : forall h, h ∈ hs -> is_load h = true -> fits file target len min h).
  { intros h Hh El. destruct (Hseg h Hh El) as ((? & ? & ?) & ? & ?), (Hin h Hh El). unfold fits, place. lia. }
  assert (Hkeep : forall q, q < target \/ target + len <= q -> m2 !! q = m !! q).
  { intros q Hq. unfold m2. rewrite write_outside by lia. by apply Hsame. }
  assert (Hload : loading begin file target len m2).
  { constructor; try done; [|by apply room_write|lia]. revert Hfile. apply bytes_at_frame. intros i Hi. apply Hkeep. lia. }
  exists m2, (fold_left (fill file target min) hs m2). split_and!.
  - change VM_PAGE_SIZE with 4096. rewrite u32_small by done. fold len. unfold memset. by rewrite set_loop_spec.
  - rewrite (load_headers_spec begin file target len min hs); try done; [| |lia..|].
    + destruct Hroom as (_ & ? & _). lia.
    + eapply phdrs_at_frame; [|exact Hat]. intros q Hq. apply Hkeep. lia.
    + intros h Hh El. split; [by apply Hfits|]. destruct (Hin h Hh El) as [? _], Hmin. unfold is_u32. lia.
  - split_and!.
    { intros h k b Hh El Hk. split; [by apply fold_fill_inside with (len := len)|]. destruct (Hin h Hh El). lia. }
    { intros q Hq Hout. rewrite (fold_fill_outside file target min).
      - unfold m2. replace q with (target + Z.of_nat (Z.to_nat (q - target))) by lia. eapply bytes_at_lookup; [apply write_bytes|].
        apply lookup_replicate. lia.
      - intros h Hh El. rewrite (slice_length file target len min) by auto. by apply Hout. }
    intros q Hq. rewrite (fold_fill_outside file target min); [by apply Hkeep|]. intros h Hh El.
    rewrite (slice_length file target len min) by auto. destruct (Hfits h Hh El) as (? & ? & ? & ? & ?). unfold place in *. lia.
Qed.

Section Map.
Context {Sys : Type} `{LinkdSys Sys}.

(** C21: Mapping a file whose loadable segments lie in it, do not overlap and have
    virtual addresses inside the extent of the physical ones ([virtual_inside])
    succeeds once the system has given the pages asked for.  The pages reach
    from the lowest physical address of a segment, rounded down to a page, to the
    end of the highest; afterwards every segment's bytes are at its virtual address, moved with the pages,
    what is left of the pages is zero, and memory elsewhere is unchanged. *)
Theorem map_segments_loads (st : @linkd Sys) begin file dyn phoff hs target m1 s1 :
  let sg := scan_phdrs (begin + phoff) (Segments UINT32_MAX 0 dyn []) hs in
  let min := VM_PAGE_ALIGN_DOWN (minAddress sg) in
  let pages := VM_PAGE_COUNT (u32 (maxAddress sg - min)) in
  image_file (ld_mem st) begin file phoff hs ->
  sys_mmap (ld_sys st) (ld_mem st) min (pages * 4096) (Z.lor PROT_READ PROT_EXEC) = (target, m1, s1) ->
  given_pages (ld_mem st) m1 target (pages * 4096) begin (Z.of_nat (length file)) ->
  exists st', map_segments st begin dyn = Ok (Segments min (maxAddress sg) (sg_dynamic sg) (ptload sg), pages, target, st') /\
    holds_image (ld_mem st) (ld_mem st') file hs target min (pages * 4096).
Proof.
  intros sg min pages Hf Emmap Hg. destruct (segments_placed _ m1 begin file dyn phoff hs target Hf Hg) as (m2 & m3 & E2 & E3 & Hm3).
  fold sg min pages in E2, E3, Hm3. destruct (pages_bounds (begin + phoff) dyn hs) as (_ & Hlen & _); [by intros; apply (if_segments _ _ _ _ _ Hf)|apply Hf|apply Hf|].
  fold sg min pages in Hlen. destruct Hf as [_ [Hb0 Hb1] Ephoff Ephnum [Hph0 Hph1] Hat _ _ _ _].
  exists (with_mem st m3 s1). split; [|done]. unfold map_segments. rewrite Ephoff. cbn [obind]. rewrite Ephnum. cbn [obind]. rewrite Nat2Z.id.
  rewrite (u32_small (begin + phoff)) by lia. rewrite (scan_headers_spec _ hs) by done. cbn [obind]. fold sg min pages.
  change VM_PAGE_SIZE with 4096 in *. rewrite (u32_small (pages * 4096)) in * by done. rewrite Emmap, E2. cbn [obind]. by rewrite E3.
Qed.
End Map.

(** ** A file at work *)

(** A system that gives pages at 1 MB, full of old bytes. *)
#[export] Instance page_sys : LinkdSys unit := {|
  sys_open s _ _ := (-1, s); sys_close s _ := s; sys_lseek s _ _ _ := (0, s);
  sys_read s m _ _ _ := (0, m, s);
  sys_mmap s m _ len _ := (1048576, write m 1048576 (replicate (Z.to_nat len) 7), s);
  sys_munmap s m _ _ := (m, s); sys_malloc s _ := Ok (16, s); sys_free s _ := Ok s
|}.

(** A loadable segment of three bytes in the file and fourteen in memory, whose
    physical address is not its virtual one, the dynamic section's header, and a
    segment without bytes in the file. *)
Definition tiny_phdrs : list phdr := [Phdr 1 148 8200 8196 3 14; Phdr 2 0 8204 8204 0 0; Phdr 1 151 8216 8216 0 8].
Definition phdr_bytes (h : phdr) : list Z :=
  concat (word_bytes <$> [ph_type h; ph_offset h; ph_vaddr h; ph_paddr h; ph_filesz h; ph_memsz h; 0; 0]).
Definition file_of (hs : list phdr) : list Z :=
  replicate 28 0 ++ word_bytes 52 ++ replicate 12 0 ++ [Z.of_nat (length hs); 0] ++ replicate 6 0 ++ concat (phdr_bytes <$> hs) ++ [11; 22; 33].
Definition tiny_file : list Z := file_of tiny_phdrs.
Definition tiny_state : @linkd unit := LinkdState (write ∅ 4096 tiny_file) tt ∅ ∅ NULL NULL false.

Lemma room_written m p n v : 0 <= p -> p + Z.of_nat n < 2 ^ 32 -> room (write m p (replicate n v)) p n.
Proof.
  intros Hp Hn. split_and!; try done. intros i Hi. exists v. eapply bytes_at_lookup; [apply write_bytes|]. by apply lookup_replicate.
Qed.

Lemma tiny_loads h : h ∈ tiny_phdrs -> is_load h = true -> h = Phdr 1 148 8200 8196 3 14 \/ h = Phdr 1 151 8216 8216 0 8.
Proof. intros [->|[->|[->|[]%not_elem_of_nil]%elem_of_cons]%elem_of_cons]%elem_of_cons El; [by left|discriminate El|by right]. Qed.

Lemma map_segments_loads_witness : exists sg st', map_segments tiny_state 4096 NULL = Ok (sg, 1, 1048576, st')
  /\ ld_mem st' !! 1048585 = Some 22 /\ ld_mem st' !! 1048590 = Some 0.
Proof.
  destruct (map_segments_loads tiny_state 4096 tiny_file NULL 52 tiny_phdrs 1048576
    (write (ld_mem tiny_state) 1048576 (replicate 4096 7)) tt) as (st' & E & Hseg & Hzero & _).
  - constructor; [apply write_bytes|done|reflexivity|reflexivity|done| | | |by constructor|].
    + cbn [phdrs_at tiny_phdrs]. split_and!; try done; vm_compute; repeat split; discriminate.
    + intros h Hh El. destruct (tiny_loads h Hh El) as [->| ->]; unfold in_space; cbn; lia.
    + intros h Hh El. destruct (tiny_loads h Hh El) as [->| ->]; split; [exists (Phdr 1 148 8200 8196 3 14)|exists (Phdr 1 151 8216 8216 0 8)|
        exists (Phdr 1 148 8200 8196 3 14)|exists (Phdr 1 151 8216 8216 0 8)]; (split_and!; [set_solver|done|cbn; lia]).
    + intros h h' Hh Hh' E1 E2. destruct (tiny_loads h Hh E1) as [->| ->], (tiny_loads h' Hh' E2) as [->| ->]; cbn; (auto || lia).
  - reflexivity.
  - constructor; [by apply room_written| |right; vm_compute; discriminate].
    intros q Hq. apply write_outside. rewrite length_replicate. exact Hq.
  - eexists _, st'. split; [exact E|]. split.
    + exact (proj1 (Hseg (Phdr 1 148 8200 8196 3 14) 1%nat 22 ltac:(left) eq_refl eq_refl)).
    + apply Hzero; [vm_compute; split; congruence|].
      intros h Hh El. destruct (tiny_loads h Hh El) as [->| ->]; [right|left]; vm_compute; congruence.
Defined.

(** A segment whose virtual address is not covered by the physical ones is copied to
    memory behind the pages. *)
Definition skewed_state : @linkd unit :=
  LinkdState (write (write ∅ 4096 (file_of [Phdr 1 84 20488 8200 3 10])) 1060872 [9; 9; 9]) tt ∅ ∅ NULL NULL false.

Lemma skewed_copied_outside :
  match map_segments skewed_state 4096 NULL with
  | Ok (_, pages, target, st') => pages = 1 /\ target + 4096 < 1060872 /\ ld_mem skewed_state !! 1060872 = Some 9 /\ ld_mem st' !! 1060872 = Some 11
  | _ => False
  end.
Proof. vm_compute. split_and!; reflexivity. Qed.
