(* ===== verification/UserHeap.v ===== *)
(** * The user heap (lib/libc/sys/zone.c, lib/libc/malloc.c)

    zone.c is the kernel's heap with other names: the zones, their records and
    the walks over them are the same code, so the definitions of Heap are used
    for them.  What differs is translated here: pages come from [mmap] and go to
    [munmap], the assertions are switched off, and [_zone_free] does not test
    whether it knows the pointer.  malloc.c is on top of it. *)

From S2P Require Import Prelude Pages CString HeapSpec DList Heap HeapCorrect HeapChain HeapContract.

Definition MAP_FAILED : Z := UINT32_MAX.
Definition kZoneFlagAligned : Z := Z.shiftl 1 1.

(** ** Pages from the system *)

Class UserPages (P : Type) := {
  (** Private anonymous memory of a length in bytes; [MAP_FAILED] when there is none. *)
  mmap : P -> Z -> Z * P;
  munmap : P -> Z -> Z -> P;
  (** [um_owned s a n]: the [n] pages at [a] are mapped. *)
  um_owned : P -> Z -> Z -> Prop
}.

(** Seen as what the kernel's heap takes its pages from; a length that does not
    fit in 32 bits counts as refused. *)
#[export] Instance user_source (P : Type) `{UserPages P} : PageSource P := {
  mm_alloc s n :=
    if n * 4096 <? 2 ^ 32 then let (a, s) := mmap s (u32 (n * VM_PAGE_SIZE)) in (if a =? MAP_FAILED then NULL else a, s)
    else (NULL, s);
  mm_free s a n := munmap s a (u32 (n * VM_PAGE_SIZE));
  pg_owned := um_owned
}.

(** ** zone.c *)

Section Zone.
Context {P : Type} `{UserPages P}.

(** The functions that are the kernel's word for word. *)
Definition zoneTypeForSize (size : Z) : heap_zone_type := __heap_zoneTypeForSize size.
Definition zoneFindAllocationWithPointer (z : heap_zone) (pointer : Z) : option nat := __heap_zoneFindAllocationWithPointer z pointer.
Definition findZoneWithAllocation (h : heap_t P) (pointer : Z) : outcome (option (Z * nat)) := __heap_findZoneWithAllocation h pointer.
Definition zoneGetUnusedAllocation (z : heap_zone) : option nat := __heap_zoneGetUnusedAllocation z.
Definition useAllocation (h : heap_t P) (z : heap_zone) (i : nat) (size : Z) : outcome (Z * heap_zone) := __heap_useAllocation h z i size.
Definition freeAllocation (z : heap_zone) (i : nat) : outcome heap_zone := __heap_freeAllocation z i.
Definition zoneDefragment (z : heap_zone) : outcome heap_zone := __heap_zoneDefragment z.

(** Without the assertion a failed [mmap] is written to, at the end of the
    address space. *)
Definition createZoneForSize (h : heap_t P) (size : Z) : outcome (Z * heap_t P) :=
  let type := zoneTypeForSize size in
  let pages := zone_pages_for type size in
  let '(address, pg) := mmap (h_pages h) (u32 (u32 (pages + 1) * VM_PAGE_SIZE)) in
  let h := set_pages h pg in
  if address =? MAP_FAILED then Fault else
  let zone := fresh_zone type pages address (h_firstZone h) in
  let* zs := if h_firstZone h =? NULL then Ok (h_zones h)
             else alter_zone (fun z => set_links z address (z_next z)) (h_firstZone h) (h_zones h) in
  Ok (address, set_zones h address (<[address := zone]> zs)).

Definition destroyZone (h : heap_t P) (zone : Z) : outcome (heap_t P) :=
  let* z := of_option (h_zones h !! zone) in
  let* zs := if z_prev z =? NULL then Ok (h_zones h)
             else alter_zone (fun p => set_links p (z_prev p) (z_next z)) (z_prev z) (h_zones h) in
  let* zs := if z_next z =? NULL then Ok zs
             else alter_zone (fun n => set_links n (z_prev z) (z_next n)) (z_next z) zs in
  let first := if zone =? h_firstZone h then z_next z else h_firstZone h in
  Ok (set_pages (set_zones h first (delete zone zs)) (munmap (h_pages h) zone (u32 (z_pages z * VM_PAGE_SIZE)))).

Definition zoneForSize (h : heap_t P) (size : Z) : outcome (Z * nat * heap_t P) :=
  let type := zoneTypeForSize size in
  let* found :=
    if bool_decide (type = Large) then Ok None
    else zone_walk (chain_fuel h) (h_zones h) (h_firstZone h) type size (required_size h size) in
  match found with
  | Some (zone, i) => Ok (zone, i, h)
  | None => let* (zone, h) := createZoneForSize h size in Ok (zone, O, h)
  end.

Definition __heap_sizeForPointer (h : heap_t P) (ptr : Z) : outcome (Z * heap_t P) :=
  let* h := heap_lock h in
  let* found := findZoneWithAllocation h ptr in
  match found with
  | Some (zone, i) =>
      let* z := of_option (h_zones h !! zone) in
      let* a := of_option (z_slots z !! i) in
      Ok (a_size a, set_lock h false)
  | None => Ok (0, set_lock h false)
  end.

Definition _zone_alloc (h : heap_t P) (size : Z) : outcome (Z * heap_t P) :=
  let* h := heap_lock h in
  let* (zone, i, h) := zoneForSize h size in
  let* z := of_option (h_zones h !! zone) in
  let* (pointer, z) := useAllocation h z i size in
  Ok (pointer, set_lock (put_zone h zone z) false).

(** A pointer the heap does not know makes it read the zone at address 0. *)
Definition _zone_free (h : heap_t P) (ptr : Z) : outcome (heap_t P) :=
  let* h := heap_lock h in
  let* found := findZoneWithAllocation h ptr in
  match found with
  | None => Fault
  | Some (zone, i) =>
      let* z := of_option (h_zones h !! zone) in
      if z_allocations z =? u32 (z_freeAllocations z + 1) then
        let* h := destroyZone h zone in
        Ok (set_lock h false)
      else
        let* z := freeAllocation z i in
        let* z := zoneDefragment z in
        Ok (set_lock (put_zone h zone z) false)
  end.

(** The address of the structure and its contents; after a failed [mmap] there
    are none, and the address is not null. *)
Definition _zone_create (pg : P) (flags : Z) : Z * option (heap_t P) * P :=
  let '(zone, pg) := mmap pg 4096 in
  if zone =? MAP_FAILED then (zone, None, pg) else (zone, Some (Heap flags false NULL ∅ pg), pg).

Fixpoint unmap_walk (fuel : nat) (zs : gmap Z heap_zone) (zone : Z) (pg : P) : outcome P :=
  if zone =? NULL then Ok pg else
  match fuel with
  | O => Hang
  | S f =>
      let* z := of_option (zs !! zone) in
      unmap_walk f zs (z_next z) (munmap pg zone (u32 (z_pages z * VM_PAGE_SIZE)))
  end.

Definition _zone__destroy (zone : Z) (h : heap_t P) : outcome P :=
  let* pg := unmap_walk (chain_fuel h) (h_zones h) (h_firstZone h) (h_pages h) in
  Ok (munmap pg zone 4096).

(** ** malloc.c *)

(** [__malloc_zone]: not made yet, or its address and contents. *)
Inductive malloc_zone := NoZone (pg : P) | TheZone (address : Z) (h : option (heap_t P)).

Definition _malloc_getZone (st : malloc_zone) : Z * option (heap_t P) :=
  match st with
  | NoZone pg => let '(a, h, _) := _zone_create pg kZoneFlagAligned in (a, h)
  | TheZone a h => (a, h)
  end.

Definition malloc (st : malloc_zone) (size : Z) : outcome (Z * malloc_zone) :=
  let (a, zone) := _malloc_getZone st in
  let* h := of_option zone in
  let* (p, h) := _zone_alloc h size in
  Ok (p, TheZone a (Some h)).

Definition free (st : malloc_zone) (ptr : Z) : outcome malloc_zone :=
  let (a, zone) := _malloc_getZone st in
  let* h := of_option zone in
  let* h := _zone_free h ptr in
  Ok (TheZone a (Some h)).

(** The functions that touch the contents have the memory as it is once the
    pages of the allocation are mapped. *)
Definition calloc (st : malloc_zone) (m : mem) (num size : Z) : outcome (Z * mem * malloc_zone) :=
  let total := u32 (num * size) in
  let* (p, st) := malloc st total in
  if p =? NULL then Ok (p, m, st) else let* m := memset m p 0 total in Ok (p, m, st).

Definition realloc (st : malloc_zone) (m : mem) (ptr size : Z) : outcome (Z * mem * malloc_zone) :=
  let (a, zone) := _malloc_getZone st in
  let* h := of_option zone in
  let* (oldSize, h) := __heap_sizeForPointer h ptr in
  if 0 <? oldSize then
    let* (p, h) := _zone_alloc h size in
    if p =? NULL then Ok (NULL, m, TheZone a (Some h)) else
    let* m := memcpy m p ptr (if size <? oldSize then size else oldSize) in
    let* h := _zone_free h ptr in
    Ok (p, m, TheZone a (Some h))
  else Ok (NULL, m, TheZone a (Some h)).
End Zone.
Arguments malloc_zone P : clear implicits.

(** ** The kernel's heap under other names *)

Section Same.
Context {P : Type} `{UserPages P}.

Lemma create_same h size r : __heap_createZoneForSize h size = Ok r -> createZoneForSize h size = Ok r.
Proof.
  unfold __heap_createZoneForSize, createZoneForSize, zoneTypeForSize. cbn [mm_alloc user_source].
  destruct (_ <? _); [|done]. destruct (mmap (h_pages h) _) as [a pg].
  destruct (a =? MAP_FAILED); [done|]. destruct (a =? NULL); [done|]. by intros ->.
Qed.

Lemma zoneForSize_same h size r : __heap_zoneForSize h size = Ok r -> zoneForSize h size = Ok r.
Proof.
  unfold __heap_zoneForSize, zoneForSize, zoneTypeForSize. intros (found & -> & E)%obind_Ok. cbn [obind]. destruct found as [[]|]; [done|].
  apply obind_Ok in E as ([z h'] & Ez & E). by rewrite (create_same _ _ _ Ez).
Qed.

(** Where the kernel's heap succeeds, so does the user's, with the same result. *)
Lemma alloc_same h size r : heap_halloc h size = Ok r -> _zone_alloc h size = Ok r.
Proof.
  unfold heap_halloc, _zone_alloc, useAllocation. intros (h1 & -> & ([[zone i] h2] & E & Hr)%obind_Ok)%obind_Ok. cbn [obind].
  rewrite (zoneForSize_same _ _ _ E). cbn [obind]. apply obind_Ok in Hr as (z & Ez & ([p z'] & Eu & Hr)%obind_Ok).
  rewrite Ez. cbn [obind]. rewrite Eu. cbn [obind]. by destruct (p =? NULL).
Qed.

Lemma free_same h p h' : heap_hfree h p = Ok h' -> _zone_free h p = Ok h'.
Proof.
  unfold heap_hfree, _zone_free, findZoneWithAllocation.
  intros (h1 & El & (found & Ef & E)%obind_Ok)%obind_Ok. rewrite El. cbn [obind]. rewrite Ef. cbn [obind].
  by destruct found as [[]|].
Qed.

(** Where it panics over an unknown pointer, the user's faults. *)
Lemma free_unknown h p : PageSourceOk P -> heap_inv h -> (forall n, ~ heap_live h p n) -> _zone_free h p = Fault.
Proof.
  intros Hok [Hlock [l Hc]] Hno. unfold _zone_free, findZoneWithAllocation, heap_lock. rewrite Hlock. cbn [obind].
  destruct (find_zone_spec (set_lock h true) l p (chain_ok_lock h l true Hc))
    as [(a & z & i & s & _ & Ha & Hi & Hs & Hp)|[-> _]]; [|done].
  destruct (Hno (a_size s)). exists a, z. split; [done|]. by exists i, s.
Qed.
End Same.

(** ** What [realloc] promises *)

Section Realloc.
Context {P : Type} `{UserPages P} `{!PageSourceOk P}.

Lemma sizeForPointer_spec (h : heap_t P) p n : heap_inv h -> heap_live h p n ->
  __heap_sizeForPointer h p = Ok (n, h) /\ 0 < n.
Proof.
  intros [Hlock [l Hc]] Hl. unfold __heap_sizeForPointer, findZoneWithAllocation, heap_lock. rewrite Hlock. cbn [obind].
  pose proof (chain_ok_lock h l true Hc) as Hc'.
  destruct (find_zone_spec (set_lock h true) l p Hc') as [(a & z & i & s & -> & Ha & Hi & Hs & Hp)|[_ Hno]];
    [|by destruct (Hno n)]. cbn [obind]. rewrite Ha. cbn [of_option obind]. rewrite Hi. cbn [of_option obind].
  assert (Hu : heap_live h p (a_size s)) by (exists a, z; split; [done|]; by exists i, s).
  rewrite (chain_live_unique h l p n (a_size s) Hc Hl Hu).
  split; [by destruct h; cbn in *; subst|]. destruct Hu as (b & y & Hb & Hyu). by apply (zone_used_inside b y (ch_zone _ _ Hc b y Hb)) in Hyu as [? _].
Qed.

(** The bytes of a mapped range. *)
Lemma room_bytes m p n : room m p n -> exists bs, length bs = n /\ bytes_at m p bs.
Proof.
  revert p. induction n as [|n IH]; intros p (Hp & Hn & Hr); [by exists []|].
  destruct (Hr 0%nat ltac:(lia)) as [b Hb]. rewrite Z.add_0_r in Hb. destruct (IH (p + 1)) as (bs & Hl & Hbs).
  { split_and!; [lia|lia|]. intros i Hi. specialize (Hr (S i) ltac:(lia)). by replace (p + 1 + Z.of_nat i) with (p + Z.of_nat (S i)) by lia. }
  exists (b :: bs). cbn. rewrite Hl. done.
Qed.

(** C23: Reallocating a live block, when the pages it takes can be had, moves it:
    the result is a fresh block of at least the new size, the old one is no
    longer allocated and every other allocation is kept; the new block starts
    with the old contents, up to the smaller of the two sizes, and no byte
    outside it changes. *)
Theorem realloc_moves (a : Z) (h : heap_t P) (m : mem) p n size :
  heap_inv h -> heap_live h p n -> 0 <= size <= max_request -> ~ pages_refused h size -> room m p (Z.to_nat n) ->
  (forall q h', _zone_alloc h size = Ok (q, h') -> room m q (Z.to_nat size)) ->
  exists q k m' h', realloc (TheZone a (Some h)) m p size = Ok (q, m', TheZone a (Some h')) /\
    heap_inv h' /\ size <= k /\ (forall x j, heap_live h' x j <-> (heap_live h x j /\ x <> p) \/ (x = q /\ j = k)) /\
    (forall i, 0 <= i < Z.min size n -> m' !! (q + i) = m !! (p + i)) /\
    (forall b, b < q \/ q + size <= b -> m' !! b = m !! b).
Proof.
  intros Hinv Hl Hsize Hpages Hroom Hnew. destruct (sizeForPointer_spec h p n Hinv Hl) as [Es Hn].
  destruct (halloc_cases h size Hinv Hsize) as [[_ ?]|(q & h1 & Ea & Hinv1 & _ & Hq & Hfresh & k & Hk & Hl1)]; [done|].
  pose proof (alloc_same _ _ _ Ea) as Ea'. specialize (Hnew q h1 Ea').
  assert (Hp1 : heap_live h1 p n) by (apply Hl1; by left).
  assert (Hq1 : heap_live h1 q k) by (apply Hl1; by right).
  assert (Hpq : p <> q) by (intros ->; by apply Hfresh in Hl).
  destruct (hfree_live h1 p n Hinv1 Hp1) as (h2 & Ef & Hinv2 & _ & Hl2).
  pose proof Hinv1 as [_ [l1 Hc1]]. pose proof (chain_live_apart h1 l1 p n q k Hc1 Hp1 Hq1 Hpq) as Hap.
  set (c := if size <? n then size else n). assert (Hc : c = Z.min size n) by (unfold c; zcases; lia).
  destruct (room_bytes m p (Z.to_nat n) Hroom) as (bs & Hbl & Hbs). set (cs := take (Z.to_nat c) bs).
  assert (Hcl : length cs = Z.to_nat c) by (unfold cs; rewrite length_take; lia).
  assert (Hcs : bytes_at m p cs) by (rewrite <- (take_drop (Z.to_nat c) bs) in Hbs; by apply bytes_at_app in Hbs as [? _]).
  destruct Hroom as (Hp0 & Hp2 & _).
  assert (Ecopy : memcpy m q p c = Ok (write m q cs)).
  { unfold memcpy. rewrite <- Hcl. apply copy_loop_spec; [done|by eapply room_weaken; [|exact Hnew]; lia|lia|lia|]. unfold regions_apart in Hap. lia. }
  exists q, k, (write m q cs), h2. split_and!; try done.
  - unfold realloc. cbn [_malloc_getZone of_option obind]. rewrite Es. cbn [obind]. rewrite (proj2 (Z.ltb_lt 0 n) Hn), Ea'. cbn [obind].
    rewrite (proj2 (Z.eqb_neq q NULL)) by (unfold NULL; lia). fold c. rewrite Ecopy. cbn [obind]. by rewrite (free_same _ _ _ Ef).
  - intros x j. rewrite Hl2, Hl1. split; [naive_solver|]. intros [[Hx Hne]|[-> ->]]; [by split; [left|]|by split; [right|]].
  - intros i Hi. pose proof (write_bytes cs m q) as Hw. destruct (lookup_lt_is_Some_2 cs (Z.to_nat i)) as [b Hb]; [lia|].
    pose proof (bytes_at_lookup _ _ _ _ _ Hw Hb) as E1. pose proof (bytes_at_lookup _ _ _ _ _ Hcs Hb) as E2.
    rewrite Z2Nat.id in E1, E2 by lia. by rewrite E1, E2.
  - intros b Hb. apply write_outside. lia.
Qed.
End Realloc.

(** ** A heap at work *)

(** The cells of HeapContract, asked for bytes. *)
Record user_cells := UserCells { uc_cells : gmap Z Z }.

#[export] Instance user_cells_pages : UserPages user_cells := {
  mmap s len := let (a, c) := mm_alloc (uc_cells s) (len / 4096) in (if a =? NULL then MAP_FAILED else a, UserCells c);
  munmap s a len := UserCells (mm_free (uc_cells s) a (len / 4096));
  um_owned s := pg_owned (uc_cells s)
}.

(** The cells never give the address that means failure. *)
Lemma cells_not_failed (s : gmap Z Z) n a c : 0 <= n -> mm_alloc s n = (a, c) -> a <> MAP_FAILED.
Proof.
  intros Hn E ->. destruct (pg_alloc_ok _ _ _ _ Hn E) as [_ Ho]; [done|].
  destruct (pg_sane c MAP_FAILED n) as (_ & Hm & _); [|discriminate Hm]. apply Ho. by right.
Qed.

#[export] Instance user_cells_ok : PageSourceOk user_cells.
Proof.
  constructor.
  - intros [s] a n. apply (pg_sane s).
  - intros [s] a n b m. apply (pg_apart s).
  - intros s n s'. cbn [mm_alloc user_source mmap user_cells_pages]. destruct (_ <? _); [|by intros [= <-]].
    set (k := u32 (n * VM_PAGE_SIZE) / 4096). assert (Hk : 0 <= k) by (apply Z.div_pos; [apply u32_range|lia]).
    fold (mm_alloc (uc_cells s) k). destruct (mm_alloc (uc_cells s) k) as [a c] eqn:E.
    destruct (Z.eqb_spec a NULL) as [->|Hne]; [intros [= <-]; by eapply (pg_alloc_null (uc_cells s))|].
    rewrite (proj2 (Z.eqb_neq a MAP_FAILED)) by (by eapply cells_not_failed). by intros [= ? _].
  - intros s n a s' Hn. cbn [mm_alloc user_source mmap user_cells_pages].
    destruct (Z.ltb_spec (n * 4096) (2 ^ 32)); [|by intros [= <- _]].
    change VM_PAGE_SIZE with 4096. rewrite u32_small, Z.div_mul by lia. fold (mm_alloc (uc_cells s) n).
    destruct (mm_alloc (uc_cells s) n) as [b c] eqn:E. destruct (Z.eqb_spec b NULL) as [->|Hne]; [by intros [= <- _]|].
    rewrite (proj2 (Z.eqb_neq b MAP_FAILED)) by (by eapply cells_not_failed). intros [= <- <-] _. by apply (pg_alloc_ok (uc_cells s)).
  - intros [s] a n Ho. exact (pg_free_ok s a n Ho).
Qed.

Definition user_zone : Z * option (heap_t user_cells) := fst (_zone_create (UserCells ∅) kZoneFlagAligned).
Definition user_empty : heap_t user_cells := default (Heap 0 false NULL ∅ (UserCells ∅)) (snd user_zone).
Definition ok_or {A} (x : A) (o : outcome A) : A := match o with Ok a => a | _ => x end.

Lemma Ok_inj {A} (a b : A) : Ok a = Ok b -> a = b.
Proof. by intros [= ->]. Qed.

(** After [malloc(10)], and after another [malloc(100)]. *)
Definition user_ten : Z * heap_t user_cells := ok_or (0, user_empty) (_zone_alloc user_empty 10).
Definition user_more : Z * heap_t user_cells := ok_or (0, snd user_ten) (_zone_alloc (snd user_ten) 100).
Definition user_demo_memory : mem := write (write ∅ (fst user_ten) (replicate 28 1)) (fst user_more) (replicate 100 2).

Lemma user_empty_inv : heap_inv user_empty.
Proof. split; [done|]. exists []. by split; cbn; [|constructor|..]. Qed.

Lemma user_ten_ok : heap_halloc user_empty 10 = Ok user_ten.
Proof. vm_compute. reflexivity. Qed.

Lemma user_ten_inv : heap_inv (snd user_ten).
Proof.
  destruct (halloc_cases user_empty 10 user_empty_inv) as [[E _]|(p & h & E & Hinv & _)]; [unfold max_request; lia| |].
  - rewrite user_ten_ok in E. discriminate E.
  - rewrite user_ten_ok in E. apply Ok_inj in E. rewrite E. exact Hinv.
Qed.

Lemma user_ten_live : heap_live (snd user_ten) 2101248 28.
Proof.
  exists 2097152. eexists. split; [vm_compute; reflexivity|]. exists 0%nat. eexists. split; [reflexivity|]. by split_and!.
Qed.

Lemma realloc_moves_witness : exists m' h', realloc (TheZone (fst user_zone) (Some (snd user_ten))) user_demo_memory 2101248 100
  = Ok (3149824, m', TheZone (fst user_zone) (Some h')) /\ heap_inv h' /\ m' !! 3149825 = Some 1.
Proof.
  destruct (realloc_moves (fst user_zone) (snd user_ten) user_demo_memory 2101248 28 100) as (q & k & m' & h' & E & Hinv & _ & _ & Hc & _).
  - exact user_ten_inv.
  - exact user_ten_live.
  - unfold max_request. lia.
  - intros Hr. vm_compute in Hr. discriminate Hr.
  - split_and!; [vm_compute; discriminate|reflexivity|]. intros i Hi. apply write_mapped. eexists.
    eapply bytes_at_lookup; [apply (write_bytes (replicate 28 1))|]. by apply lookup_replicate_2.
  - assert (Eq : _zone_alloc (snd user_ten) 100 = Ok user_more) by (vm_compute; reflexivity).
    intros q h' E. rewrite Eq in E. apply Ok_inj in E. rewrite <- (f_equal fst E : fst user_more = q).
    split_and!; [vm_compute; discriminate|reflexivity|]. intros i Hi. eexists.
    eapply bytes_at_lookup; [apply (write_bytes (replicate 100 2))|]. by apply lookup_replicate_2.
  - assert (Eq : q = 3149824).
    { assert (E2 : match realloc (TheZone (fst user_zone) (Some (snd user_ten))) user_demo_memory 2101248 100 with
        Ok (q, _, _) => q | _ => 0 end = 3149824) by (vm_compute; reflexivity). by rewrite E in E2. }
    subst q. exists m', h'. split; [exact E|]. split; [exact Hinv|]. change 3149825 with (3149824 + 1). rewrite (Hc 1) by lia. vm_compute. reflexivity.
Defined.

(** ** What goes wrong *)

(** [realloc] of a null pointer does not allocate, and [free] of one faults. *)
Lemma null_pointers : realloc (TheZone (fst user_zone) (Some user_empty)) ∅ NULL 16 = Ok (NULL, ∅, TheZone (fst user_zone) (Some user_empty))
  /\ free (TheZone (fst user_zone) (Some user_empty)) NULL = Fault.
Proof. split; vm_compute; reflexivity. Qed.

(** The size of the array is taken modulo 2^32: four gigabytes and a bit are a
    few bytes. *)
Lemma calloc_wraps {P} `{UserPages P} st (m : mem) : calloc st m (2 ^ 16 + 1) (2 ^ 16) = calloc st m 1 (2 ^ 16).
Proof. reflexivity. Qed.
