(* ===== verification/SystemTime.v ===== *)
(** * The clock (sys/system/time.c)

    Conversions between seconds and milliseconds, the calendar, and how the
    boot time is read.  Ports are not modelled: the clock chip gives a reading
    whenever it is asked. *)

From S2P Require Import Prelude Qdivrem QdivremCorrect.

(** ** Data (time.h) *)

Record date_components_t := Date { dc_year : Z; dc_month : Z; dc_day : Z; dc_hour : Z; dc_minute : Z; dc_second : Z }.

(** [timestamp_t] has 64 bits and counts milliseconds, [unix_time_t] has 32 and
    counts seconds; both are signed. *)

(** ** Conversions *)

Definition time_getSeconds (time : Z) : outcome Z := let* q := __udivdi3 (u64 time) 1000 in Ok (s32 q).
Definition time_getMilliseconds (time : Z) : outcome Z := let* r := __umoddi3 (u64 time) 1000 in Ok (s32 r).
Definition time_convertUnix (time : Z) : Z := s64 (time * 1000).
Definition time_convertTimestamp (time : Z) : outcome Z := time_getSeconds time.

(** ** The calendar *)

Definition time_daysOfMonth : list Z := [0; 31; 28; 31; 30; 31; 30; 31; 31; 30; 31; 30; 31].
Definition time_daysBeforeMonth : list Z := [0; 0; 31; 59; 90; 120; 151; 181; 212; 243; 273; 304; 334; 365; 0; 0].

Definition time_isLeapYear (year : Z) : bool :=
  let year := u32 (year + 1) mod 400 in
  (Z.land year 3 =? 0) && negb (year =? 100) && negb (year =? 200) && negb (year =? 300).

Definition time_daysOfYear (year : Z) : Z := if time_isLeapYear year then 366 else 365.

(** [while(year > 1970)]. *)
Fixpoint add_years (fuel : nat) (interval year : Z) : outcome Z :=
  if negb (1970 <? year) then Ok interval else
  match fuel with
  | O => Hang
  | S f => add_years f (s32 (interval + time_daysOfYear year * 24 * 3600)) (year - 1)
  end.

Definition table (t : list Z) (i : Z) : outcome Z := if i <? 0 then Fault else of_option (t !! Z.to_nat i).

Definition time_create (c : date_components_t) : outcome Z :=
  let interval := dc_second c in
  let interval := s32 (interval + dc_minute c * 60) in
  let interval := s32 (interval + dc_hour c * 3600) in
  let interval := s32 (interval + (dc_day c - 1) * 24 * 3600) in
  let* before := table time_daysBeforeMonth (dc_month c - 1) in
  let* days := table time_daysOfMonth (dc_month c - 1) in
  let interval := s32 (interval + (before + days) * 24 * 3600) in
  add_years (Z.to_nat (dc_year c - 1970)) interval (dc_year c).

(** ** Reading the boot time *)

(** The static variables: the boot time, the reading before it, whether the
    boot time is known, and the milliseconds since. *)
Record clock := Clock { time_unixBoot : Z; ck_temp : Z; time_gotBootTime : bool; time_current : Z }.

Definition clock_start : clock := Clock 0 0 false 0.

(** [time_readCMOS]: the registers hold the year of the century and binary values. *)
Definition time_readCMOS (registers : date_components_t) (c : clock) : outcome clock :=
  let* t := time_create (Date (u32 (dc_year registers + 2000)) (dc_month registers) (dc_day registers)
      (dc_hour registers) (dc_minute registers) (dc_second registers)) in
  Ok (Clock t (ck_temp c) (time_gotBootTime c) (time_current c)).

(** The handler of the timer until the boot time is known. *)
Definition time_prepare (registers : date_components_t) (c : clock) : outcome clock :=
  if negb (ck_temp c =? time_unixBoot c) || (ck_temp c =? 0) then
    time_readCMOS registers (Clock (time_unixBoot c) (time_unixBoot c) (time_gotBootTime c) (time_current c))
  else Ok (Clock (time_unixBoot c) (ck_temp c) true (time_current c)).

(** What [time_tick] does to the clock; the rest of the handler is [sd_schedule]. *)
Definition time_tick (c : clock) : clock := Clock (time_unixBoot c) (ck_temp c) (time_gotBootTime c) (s64 (time_current c + 1)).

Definition time_getUnixTime (c : clock) : outcome Z :=
  let* s := time_getSeconds (time_current c) in Ok (s32 (time_unixBoot c + s)).

(** One interrupt of the timer. *)
Definition timer (registers : date_components_t) (c : clock) : outcome clock :=
  if time_gotBootTime c then Ok (time_tick c) else time_prepare registers c.

(** ** The calendar of the world *)

Definition leap (y : Z) : bool := ((y mod 4 =? 0) && negb (y mod 100 =? 0)) || (y mod 400 =? 0).
Definition year_days (y : Z) : Z := if leap y then 366 else 365.

(** Days in the years from 1970 up to [1970 + n]. *)
Fixpoint days_until (n : nat) : Z := match n with O => 0 | S n' => days_until n' + year_days (1970 + Z.of_nat n') end.

(** Days of a year, leap year or not, before a month. *)
Fixpoint days_before (isleap : bool) (m : nat) : Z :=
  match m with
  | O | 1%nat => 0
  | S m' => days_before isleap m' + match m' with
      | 2%nat => if isleap then 29 else 28
      | 4%nat | 6%nat | 9%nat | 11%nat => 30
      | _ => 31
      end
  end.

(** Seconds since the start of 1970. *)
Definition unix_time (c : date_components_t) : Z :=
  (days_until (Z.to_nat (dc_year c - 1970)) + days_before (leap (dc_year c)) (Z.to_nat (dc_month c)) + (dc_day c - 1)) * 86400
    + dc_hour c * 3600 + dc_minute c * 60 + dc_second c.

Definition valid_date (c : date_components_t) : Prop :=
  1970 <= dc_year c < 2 ^ 31 /\ 1 <= dc_month c <= 12 /\ 1 <= dc_day c <= 31 /\ 0 <= dc_hour c < 24 /\ 0 <= dc_minute c < 60 /\ 0 <= dc_second c < 60.

(** How many days the code is ahead. *)
Definition days_ahead (c : date_components_t) : Z :=
  (if leap (dc_year c + 1) then 1 else 0) + (if leap (dc_year c) && (dc_month c <=? 2) then 1 else 0).

(** ** Proofs *)

Lemma isLeapYear_next y : 0 <= y < 2 ^ 32 - 1 -> time_isLeapYear y = leap (y + 1).
Proof.
  intros Hy. unfold time_isLeapYear, leap. rewrite u32_small by lia.
  assert (E : Z.land ((y + 1) mod 400) 3 = (y + 1) mod 4).
  { change 3 with (Z.ones 2). rewrite Z.land_ones by lia. change (2 ^ 2) with 4.
    Z.to_euclidean_division_equations. lia. }
  rewrite E. destruct (Z.eqb_spec ((y + 1) mod 4) 0), (Z.eqb_spec ((y + 1) mod 100) 0), (Z.eqb_spec ((y + 1) mod 400) 0),
    (Z.eqb_spec ((y + 1) mod 400) 100), (Z.eqb_spec ((y + 1) mod 400) 200), (Z.eqb_spec ((y + 1) mod 400) 300);
    cbn; try done; exfalso; Z.to_euclidean_division_equations; lia.
Qed.

Lemma year_days_bounds y : 365 <= year_days y <= 366.
Proof. unfold year_days. destruct (leap y); lia. Qed.

Lemma days_until_bounds n : 365 * Z.of_nat n <= days_until n <= 366 * Z.of_nat n.
Proof. induction n as [|n IH]; cbn [days_until]; [lia|]. pose proof (year_days_bounds (1970 + Z.of_nat n)). lia. Qed.

(** Two years later: the code adds the days of the years 1972 to [1971 + n]. *)
Lemma add_years_spec n : forall interval, 0 <= interval -> Z.of_nat n < 2 ^ 31 - 1970 ->
  interval + (days_until (n + 2) - 730) * 86400 < 2 ^ 31 ->
  add_years n interval (1970 + Z.of_nat n) = Ok (interval + (days_until (n + 2) - 730) * 86400).
Proof.
  induction n as [|n IH]; intros interval Hi Hn Hb.
  - cbn [add_years]. change (days_until (0 + 2)) with 730. change (negb (1970 <? 1970 + Z.of_nat 0)) with true. cbv iota. f_equal. lia.
  - cbn [add_years]. rewrite (proj2 (Z.ltb_lt 1970 (1970 + Z.of_nat (S n)))) by lia. cbn [negb].
    replace (S n + 2)%nat with (S (n + 2)) in * by lia. cbn [days_until] in *.
    unfold time_daysOfYear. rewrite isLeapYear_next by lia. replace (1970 + Z.of_nat (S n) + 1) with (1970 + Z.of_nat (n + 2)) by lia.
    change (if leap (1970 + Z.of_nat (n + 2)) then 366 else 365) with (year_days (1970 + Z.of_nat (n + 2))).
    pose proof (year_days_bounds (1970 + Z.of_nat (n + 2))). pose proof (days_until_bounds (n + 2)).
    rewrite s32_small by lia. replace (1970 + Z.of_nat (S n) - 1) with (1970 + Z.of_nat n) by lia. rewrite IH by lia. f_equal. lia.
Qed.

Lemma days_before_tables (isleap : bool) m : 1 <= m <= 12 -> exists b d,
  table time_daysBeforeMonth (m - 1) = Ok b /\ table time_daysOfMonth (m - 1) = Ok d /\
  b + d = days_before isleap (Z.to_nat m) - (if isleap && negb (m <=? 2) then 1 else 0) /\ 0 <= b + d <= 334.
Proof.
  intros Hm. assert (Hc : m = 1 \/ m = 2 \/ m = 3 \/ m = 4 \/ m = 5 \/ m = 6 \/ m = 7 \/ m = 8 \/ m = 9 \/ m = 10 \/ m = 11 \/ m = 12) by lia.
  repeat (destruct Hc as [->|Hc]); [..|subst m]; eexists _, _; (split; [reflexivity|split; [reflexivity|]]);
    destruct isleap; (split; [reflexivity|lia]).
Qed.

(** C24: For a valid date whose Unix time and a margin of two days fit in 32 bits,
    [time_create] returns the Unix time, plus one day throughout every year
    before a leap year, and plus one day in January and February of a leap year:
    leap years are looked for one year too early and counted for the year itself. *)
Theorem time_create_is_unix_time (c : date_components_t) :
  valid_date c -> unix_time c + 2 * 86400 < 2 ^ 31 -> time_create c = Ok (unix_time c + days_ahead c * 86400).
Proof.
  intros (Hy & Hm & Hd & Hh & Hmi & Hs) Hb. destruct (days_before_tables (leap (dc_year c)) (dc_month c) Hm) as (b & d & Eb & Ed & Hbd & Hr).
  unfold time_create. rewrite Eb, Ed. cbn [obind]. set (n := Z.to_nat (dc_year c - 1970)).
  assert (En : dc_year c = 1970 + Z.of_nat n) by lia. unfold unix_time in *. fold n in Hb |- *.
  pose proof (days_until_bounds n). set (B := days_before (leap (dc_year c)) (Z.to_nat (dc_month c))) in *.
  assert (Htwo : days_until (n + 2) = days_until n + year_days (dc_year c) + year_days (dc_year c + 1)).
  { replace (n + 2)%nat with (S (S n)) by lia. cbn [days_until]. rewrite En. do 2 f_equal. lia. }
  unfold year_days in Htwo. assert (HB : 0 <= B) by (revert Hbd; destruct (leap (dc_year c) && negb (dc_month c <=? 2)); lia).
  rewrite (s32_small (dc_second c + dc_minute c * 60)) by lia. rewrite (s32_small (_ + dc_hour c * 3600)) by lia.
  rewrite (s32_small (_ + (dc_day c - 1) * 24 * 3600)) by lia. rewrite (s32_small (_ + (b + d) * 24 * 3600)) by lia.
  rewrite En at 1. unfold days_ahead.
  rewrite add_years_spec; [f_equal|lia|lia|]; rewrite Htwo; destruct (leap (dc_year c)), (leap (dc_year c + 1)), (dc_month c <=? 2); cbn [andb negb] in *; lia.
Qed.

Lemma time_create_is_unix_time_witness : time_create (Date 2012 2 3 4 5 6) = Ok (1328241906 + 86400).
Proof. apply (time_create_is_unix_time (Date 2012 2 3 4 5 6)); [repeat split; cbn; lia|reflexivity]. Defined.

(** ** Conversions *)

Lemma getSeconds_spec t : 0 <= t < 2 ^ 31 * 1000 -> time_getSeconds t = Ok (t / 1000) /\ time_getMilliseconds t = Ok (t mod 1000).
Proof.
  intros Ht. unfold time_getSeconds, time_getMilliseconds, __udivdi3, __umoddi3, u64. rewrite Z.mod_small by lia.
  rewrite qdivrem_spec by lia. cbn [obind]. pose proof (Z.mod_pos_bound t 1000 ltac:(lia)).
  rewrite !s32_small; [done|lia|]. Z.to_euclidean_division_equations. lia.
Qed.

(** Seconds survive the way through milliseconds. *)
Lemma convert_roundtrip t : 0 <= t < 2 ^ 31 -> time_convertTimestamp (time_convertUnix t) = Ok t.
Proof.
  intros Ht. unfold time_convertTimestamp, time_convertUnix, s64. rewrite (Z.mod_small (_ + _)) by lia.
  destruct (getSeconds_spec (t * 1000)) as [E _]; [lia|]. replace (t * 1000 + 2 ^ 63 - 2 ^ 63) with (t * 1000) by lia.
  rewrite E. by rewrite Z.div_mul by lia.
Qed.

(** ** The boot time is one that two readings in a row agree on *)

Fixpoint timers (rs : list date_components_t) (c : clock) : outcome clock :=
  match rs with [] => Ok c | r :: rs => let* c := timer r c in timers rs c end.

(** What a reading of the registers amounts to. *)
Definition reading (r : date_components_t) : outcome Z :=
  time_create (Date (u32 (dc_year r + 2000)) (dc_month r) (dc_day r) (dc_hour r) (dc_minute r) (dc_second r)).

(** The state of the clock after readings of the registers [rs], latest first. *)
Inductive read_so_far : list date_components_t -> clock -> Prop :=
| read_none : read_so_far [] clock_start
| read_one r t : reading r = Ok t -> read_so_far [r] (Clock t 0 false 0)
| read_more r q rs t u : reading r = Ok t -> reading q = Ok u -> read_so_far (r :: q :: rs) (Clock t u false 0)
| read_done later r q rs t n : reading r = Ok t -> reading q = Ok t -> t <> 0 -> read_so_far (later ++ r :: q :: rs) (Clock t t true n).

Lemma timer_read r rs c c' : read_so_far rs c -> timer r c = Ok c' -> read_so_far (r :: rs) c' \/ read_so_far rs c'.
Proof.
  unfold timer, time_prepare, time_readCMOS. fold (reading r).
  destruct 1 as [|q t Hq|q p rs t u Hq Hp|later q p rs t n Hq Hp Ht]; cbn [time_gotBootTime ck_temp time_unixBoot time_current clock_start].
  - cbn [Z.eqb negb orb]. intros (t & Hr & [= <-])%obind_Ok. left. by constructor.
  - destruct (negb (0 =? t) || (0 =? 0)) eqn:E0; [|by rewrite orb_true_r in E0].
    intros (v & Hr & [= <-])%obind_Ok. left. by constructor.
  - destruct (negb (u =? t) || (u =? 0)) eqn:E0.
    + intros (v & Hr & [= <-])%obind_Ok. left. by constructor.
    + apply orb_false_iff in E0 as [E0 E1]. apply negb_false_iff, Z.eqb_eq in E0. apply Z.eqb_neq in E1. subst u.
      intros [= <-]. right. by apply (read_done []).
  - intros [= <-]. right. by constructor.
Qed.

(** Once the boot time is known, two readings in a row gave it. *)
Lemma timers_read qs : forall rs c c', read_so_far rs c -> timers qs c = Ok c' -> exists rs', read_so_far rs' c'.
Proof.
  induction qs as [|q qs IH]; intros rs c c' Hc; cbn [timers]; [intros [= <-]; eauto|].
  intros (c1 & E & Hr)%obind_Ok. destruct (timer_read q rs c c1 Hc E) as [H1|H1]; by eapply IH.
Qed.
