(* ===== verification/Mmap.v ===== *)
(** * Memory mapped by programs (sys/syscall/scmmap.c)

    A process has a list of descriptions, one per range of pages it asked for;
    changing the protection of a part, or unmapping it, splits a description
    into fragments, which are linked among themselves as well.  The list's
    links and the other fields of a description are two stores at the same
    addresses.  The pages come from the physical allocator and the address
    spaces of VMemory. *)

From S2P Require Import Prelude Pages HeapSpec DList LinkedList CellHeap PMemory VMemory.

Definition PROT_NONE : Z := 0.
Definition PROT_READ : Z := 1.
Definition PROT_WRITE : Z := 2.
Definition MAP_SHARED : Z := 1.
Definition MAP_PRIVATE : Z := 2.
Definition MAP_ANONYMOUS : Z := 4.
Definition MAP_FAILED : Z := u32 (-1).
Definition VM_PAGETABLEFLAG_WRITEABLE : Z := 2.

Record mmap_description_t := Description {
  d_process : Z;
  d_vaddress : Z;
  d_paddress : Z;
  d_length : Z;
  d_protection : Z;
  d_next : Z;
  d_prev : Z
}.

Definition sizeof_description : Z := 36.
Definition no_description : mmap_description_t := Description 0 0 0 0 0 0 0.

(** The process: its address, its page directory and its mappings. *)
Record process_t := Process {
  p_address : Z;
  p_pdirectory : Z;
  p_mappings : list_t;
  p_links : gmap Z node;
  p_descriptions : gmap Z mmap_description_t
}.

Definition set_mappings (p : process_t) (l : list_t) (m : gmap Z node) (ds : gmap Z mmap_description_t) : process_t :=
  Process (p_address p) (p_pdirectory p) l m ds.
Definition set_list (p : process_t) (l : list_t) : process_t := set_mappings p l (p_links p) (p_descriptions p).

Definition errors : Type := option Z.
Definition ENOMEM : Z := 48.
Definition EINVAL : Z := 28.

Definition has (flags bit : Z) : bool := negb (Z.land flags bit =? 0).

Definition mmap_vmflagsForProtectionFlags (protection : Z) : Z :=
  let vmflags := VM_PAGETABLEFLAG_PRESENT in
  let vmflags := if negb (has protection PROT_NONE) then Z.lor vmflags VM_FLAGS_USERLAND else vmflags in
  if negb (has protection PROT_READ) && has protection PROT_WRITE then Z.lor vmflags VM_PAGETABLEFLAG_WRITEABLE else vmflags.

(** ** Descriptions *)

(** Reading and writing a description through its pointer. *)
Definition description_at (p : process_t) (a : Z) : outcome mmap_description_t := of_option (p_descriptions p !! a).
Definition put (p : process_t) (a : Z) (d : mmap_description_t) : outcome process_t :=
  let* _ := description_at p a in
  Ok (set_mappings p (p_mappings p) (p_links p) (<[a := d]> (p_descriptions p))).

(** [description->process]: the one process at hand, or a pointer to nothing. *)
Definition process_of (p : process_t) (d : mmap_description_t) : outcome unit :=
  if d_process d =? p_address p then Ok tt else Fault.

Section Heap.
Context {H : Type} `{KernelHeap H}.

(** [list_addBack(process->mappings)]: the new entry is all zeroes. *)
Definition add_description (h : H) (p : process_t) : outcome (Z * H * process_t) :=
  let* (entry, l, m, h) := list_addBack h None (p_mappings p) (p_links p) in
  let ds := if entry =? NULL then p_descriptions p else <[entry := no_description]> (p_descriptions p) in
  Ok (entry, h, set_mappings p l m ds).

(** [list_remove(process->mappings, entry)]. *)
Definition remove_description (h : H) (p : process_t) (entry : Z) : outcome (H * process_t) :=
  let* (l, m, h) := list_remove h (p_mappings p) (p_links p) entry in
  Ok (h, set_mappings p l m (delete entry (p_descriptions p))).

Definition page_round (length : Z) : Z := if negb (length mod 4096 =? 0) then VM_PAGE_ALIGN_UP length else length.

(** The out parameters are null pointers at every call. *)
Definition mmap_splitDescription (h : H) (p : process_t) (description address length : Z) : outcome (H * process_t) :=
  let* d := description_at p description in
  let length := page_round length in
  if d_length d =? length then Ok (h, p) else
  let* _ := process_of p d in
  if d_vaddress d =? address then
    let* (next, h, p) := add_description h p in
    let nlength := u32 (d_length d - length) in
    let* p := put p next (Description (d_process d) (u32 (d_vaddress d + length)) (u32 (d_paddress d + length))
      nlength (d_protection d) (d_next d) NULL) in
    let* p := put p description (Description (d_process d) (d_vaddress d) (d_paddress d)
      (u32 (d_length d - nlength)) (d_protection d) next (d_prev d)) in
    Ok (h, p)
  else if u32 (d_vaddress d + d_length d) =? u32 (address + length) then
    let* (prev, h, p) := add_description h p in
    let plength := u32 (d_length d - length) in
    let* p := put p prev (Description (d_process d) (d_vaddress d) (d_paddress d) plength (d_protection d) NULL (d_prev d)) in
    let* p := put p description (Description (d_process d) (u32 (d_vaddress d + plength)) (u32 (d_paddress d + plength))
      (u32 (d_length d - plength)) (d_protection d) (d_next d) prev) in
    Ok (h, p)
  else
    let* (prev, h, p) := add_description h p in
    let plength := u32 (address - d_vaddress d) in
    let* p := put p prev (Description (d_process d) (d_vaddress d) (d_paddress d) plength (d_protection d) NULL (d_prev d)) in
    let* (next, h, p) := add_description h p in
    let nlength := u32 (u32 (d_vaddress d + d_length d) - u32 (address + length)) in
    let* p := put p next (Description (d_process d) (u32 (d_vaddress d + length)) (u32 (d_paddress d + length))
      nlength (d_protection d) (d_next d) NULL) in
    let* p := put p description (Description (d_process d) (u32 (d_vaddress d + plength)) (u32 (d_paddress d + plength))
      (u32 (d_length d - u32 (plength + nlength))) (d_protection d) next prev) in
    Ok (h, p).

Definition mmap_joinDescription (h : H) (p : process_t) (description joining : Z) : outcome (H * process_t) :=
  let* d := description_at p description in
  let* _ := if (joining =? d_next d) || (joining =? d_prev d) then Ok tt else Panic in
  let* _ := process_of p d in
  let* j := description_at p joining in
  let* p :=
    if d_next d =? joining then
      put p description (Description (d_process d) (d_vaddress d) (d_paddress d) (u32 (d_length d + d_length j))
        (d_protection d) (d_next j) (d_prev d))
    else
      put p description (Description (d_process d) (d_vaddress j) (d_paddress j) (u32 (d_length d + d_length j))
        (d_protection d) (d_next d) (d_prev j)) in
  remove_description h p joining.

(** The fragment that holds the end of the range, cut, and the heap and the
    process then; a null pointer when the fragments end before the range. *)
Fixpoint find_last (fuel : nat) (h : H) (p : process_t) (current lengthLeft : Z) : outcome (Z * H * process_t) :=
  if current =? NULL then Ok (NULL, h, p) else
  match fuel with
  | O => Hang
  | S f =>
      let* c := description_at p current in
      if lengthLeft <=? d_length c then
        let overflow := d_length c - lengthLeft in
        let* (h, p) := if 0 <? overflow then mmap_splitDescription h p current (d_vaddress c) overflow else Ok (h, p) in
        Ok (current, h, p)
      else find_last f h p (d_next c) (lengthLeft - d_length c)
  end.

(** Joining up to [last]; each round removes a description. *)
Fixpoint join_until (fuel : nat) (h : H) (p : process_t) (description current last : Z) : outcome (H * process_t) :=
  match fuel with
  | O => Hang
  | S f =>
      let* (h, p) := mmap_joinDescription h p description current in
      if current =? last then Ok (h, p) else
      let* d := description_at p description in
      join_until f h p description (d_next d) last
  end.

Definition walk_fuel (p : process_t) : nat := S (size (p_descriptions p)).

Definition mmap_tryJoinFragments (h : H) (p : process_t) (description address length : Z) : outcome (bool * H * process_t) :=
  let* d := description_at p description in
  let lengthLeft := u32 (u32 (address + length) - u32 (d_vaddress d + d_length d)) in
  let* (last, h, p) := find_last (walk_fuel p) h p (d_next d) lengthLeft in
  if last =? NULL then Ok (false, h, p) else
  let* d := description_at p description in
  let* (h, p) := join_until (walk_fuel p) h p description (d_next d) last in
  Ok (true, h, p).
End Heap.

(** ** The system calls *)

(** [memset] and [memcpy] of whole pages, through the kernel's mapping. *)
Definition clear_pages (st : vmem) (v pages : Z) : outcome vmem := clear_words (Z.to_nat (pages * 1024)) st v.

Fixpoint copy_words (n : nat) (st : vmem) (dst src : Z) : outcome vmem :=
  match n with
  | O => Ok st
  | S n' =>
      let* w := vload st src in
      let* st := vstore st dst w in
      copy_words n' st (u32 (dst + 4)) (u32 (src + 4))
  end.

(** The physical allocator on the machine's bitmap. *)
Definition frames_alloc (st : vmem) (pages : Z) : Z * vmem :=
  let (a, h) := pm_alloc (v_pages st) pages in (a, set_pages st h).
Definition frames_free (st : vmem) (page pages : Z) : vmem := set_pages st (pm_free (v_pages st) page pages).

Record result := Result { r_value : Z; r_errno : errors }.

Section Calls.
Context {H : Type} `{KernelHeap H}.

(** The kernel's memory: its heap and its pages. *)
Record kmem := Kmem { k_heap : H; k_vm : vmem }.

Definition on_vm (k : kmem) (st : vmem) : kmem := Kmem (k_heap k) st.

(** Pages for the request, mapped into the process's directory: the physical
    and the virtual address, or the error after which the description is
    removed. *)
Definition map_anonymous (k : kmem) (pdirectory address length protection : Z) : outcome (option (Z * Z) * kmem) :=
  let vmflags := mmap_vmflagsForProtectionFlags protection in
  let pages := VM_PAGE_COUNT length in
  let (pmemory, st) := frames_alloc (k_vm k) pages in
  if pmemory =? 0 then Ok (None, on_vm k st) else
  let* (vmemory, st) :=
    if negb (address =? 0) then
      let* (vmemory, st) := vm_allocLimit st pdirectory pmemory pages address VM_UPPER_LIMIT vmflags in
      if vmemory =? 0 then vm_alloc st pdirectory pmemory pages vmflags else Ok (vmemory, st)
    else vm_alloc st pdirectory pmemory pages vmflags in
  if vmemory =? 0 then Ok (None, on_vm k (frames_free st pmemory pages)) else
  let* (memory, st) := vm_alloc st (vm_getKernelDirectory st) pmemory pages VM_FLAGS_KERNEL in
  if memory =? 0 then
    let* st := vm_free st pdirectory vmemory pages in
    Ok (None, on_vm k (frames_free st pmemory pages))
  else
    let* st := clear_pages st memory pages in
    let* st := vm_free st (vm_getKernelDirectory st) memory pages in
    Ok (Some (pmemory, vmemory), on_vm k st).

Definition _sc_mmap (k : kmem) (p : process_t) (address length protection flags : Z) : outcome (result * kmem * process_t) :=
  let* l := list_lock (p_mappings p) in
  let* (description, h, p) := add_description (k_heap k) (set_list p l) in
  let k := Kmem h (k_vm k) in
  if description =? NULL then Ok (Result MAP_FAILED (Some ENOMEM), k, set_list p (list_unlock (p_mappings p))) else
  let* p := put p description (Description (p_address p) 0 0 0 0 0 0) in
  let fail k errno :=
    let* (h, p) := remove_description (k_heap k) p description in
    Ok (Result MAP_FAILED errno, Kmem h (k_vm k), set_list p (list_unlock (p_mappings p))) in
  if has flags MAP_PRIVATE && has flags MAP_SHARED then fail k None else
  if has flags MAP_PRIVATE && has flags MAP_ANONYMOUS then
    if negb (address mod 4096 =? 0) || negb (length mod 4096 =? 0) then
      Ok (Result MAP_FAILED (Some EINVAL), k, set_list p (list_unlock (p_mappings p)))
    else
      let* (memory, k) := map_anonymous k (p_pdirectory p) address length protection in
      match memory with
      | None => fail k (Some ENOMEM)
      | Some (pmemory, vmemory) =>
          let* p := put p description (Description (p_address p) vmemory pmemory length protection 0 0) in
          Ok (Result vmemory None, k, set_list p (list_unlock (p_mappings p)))
      end
  else fail k None.

(** The description the address is looked up in, following the fragments of the
    first one. *)
Fixpoint find_description (fuel : nat) (p : process_t) (description address : Z) : outcome Z :=
  if description =? NULL then Ok NULL else
  match fuel with
  | O => Hang
  | S f =>
      let* d := description_at p description in
      if (address <=? d_vaddress d) && (address <=? u32 (d_vaddress d + d_length d)) then Ok description
      else find_description f p (d_next d) address
  end.

(** What [munmap] and [mprotect] have in common: [act] is what they do with the
    description cut to the range.  When the fragments do not reach the end of
    the range the list stays locked. *)
Definition on_range (act : kmem -> process_t -> Z -> mmap_description_t -> outcome (kmem * process_t))
    (k : kmem) (p : process_t) (address length : Z) : outcome (result * kmem * process_t) :=
  if negb (address mod 4096 =? 0) || (length =? 0) then Ok (Result (u32 (-1)) (Some EINVAL), k, p) else
  let* l := list_lock (p_mappings p) in
  let p := set_list p l in
  let* description := find_description (walk_fuel p) p (list_first l) address in
  if description =? NULL then Ok (Result (u32 (-1)) (Some EINVAL), k, set_list p (list_unlock (p_mappings p))) else
  let* d := description_at p description in
  let* (joined, h, p) :=
    if u32 (d_vaddress d + d_length d) <? u32 (address + length)
    then mmap_tryJoinFragments (k_heap k) p description address length
    else Ok (true, k_heap k, p) in
  if negb joined then Ok (Result (u32 (-1)) (Some ENOMEM), Kmem h (k_vm k), p) else
  let* (h, p) := mmap_splitDescription h p description address length in
  let* d := description_at p description in
  let* (k, p) := act (Kmem h (k_vm k)) p description d in
  Ok (Result 0 None, k, set_list p (list_unlock (p_mappings p))).

(** The physical pages are freed by the virtual address. *)
Definition unmap_range (k : kmem) (p : process_t) (description : Z) (d : mmap_description_t) : outcome (kmem * process_t) :=
  let pages := VM_PAGE_COUNT (d_length d) in
  let* st := vm_free (k_vm k) (p_pdirectory p) (d_vaddress d) pages in
  let st := frames_free st (d_vaddress d) pages in
  let* (h, p) := remove_description (k_heap k) p description in
  Ok (Kmem h st, p).

Definition protect_range (protection : Z) (k : kmem) (p : process_t) (description : Z) (d : mmap_description_t)
    : outcome (kmem * process_t) :=
  let pages := VM_PAGE_COUNT (d_length d) in
  let* st := vm_mapPageRange (k_vm k) (p_pdirectory p) (d_paddress d) (d_vaddress d) pages
    (mmap_vmflagsForProtectionFlags protection) in
  let* p := put p description (Description (d_process d) (d_vaddress d) (d_paddress d) (d_length d) protection (d_next d) (d_prev d)) in
  Ok (on_vm k st, p).

Definition _sc_munmap (k : kmem) (p : process_t) (address length : Z) := on_range unmap_range k p address length.
Definition _sc_mprotect (k : kmem) (p : process_t) (address length protection : Z) := on_range (protect_range protection) k p address length.

(** ** Copying the mappings of a process that forks *)

Definition copy_mapping (k : kmem) (target : process_t) (s : mmap_description_t) : outcome (kmem * process_t) :=
  let* (entry, h, target) := add_description (k_heap k) target in
  let pages := VM_PAGE_COUNT (d_length s) in
  let (paddress, st) := frames_alloc (k_vm k) pages in
  let* target := put target entry (Description NULL (d_vaddress s) paddress (d_length s) (d_protection s) 0 0) in
  let* st := vm_mapPageRange st (p_pdirectory target) paddress (d_vaddress s) pages (mmap_vmflagsForProtectionFlags (d_protection s)) in
  let* (srcmem, st) := vm_alloc st (vm_getKernelDirectory st) (d_paddress s) pages VM_FLAGS_KERNEL in
  let* (dstmem, st) := vm_alloc st (vm_getKernelDirectory st) paddress pages VM_FLAGS_KERNEL in
  let* st := copy_words (Z.to_nat (d_length s / 4)) st dstmem srcmem in
  let* st := vm_free st (vm_getKernelDirectory st) srcmem pages in
  let* st := vm_free st (vm_getKernelDirectory st) dstmem pages in
  Ok (Kmem h st, target).

Fixpoint copy_mappings (fuel : nat) (k : kmem) (target source : process_t) (description : Z) : outcome (kmem * process_t) :=
  if description =? NULL then Ok (k, target) else
  match fuel with
  | O => Hang
  | S f =>
      let* s := description_at source description in
      let* (k, target) := copy_mapping k target s in
      copy_mappings f k target source (d_next s)
  end.

Definition mmap_copyMappings (k : kmem) (target source : process_t) : outcome (bool * kmem * process_t * process_t) :=
  let* l := list_lock (p_mappings target) in
  let target := set_list target l in
  let* l := list_lock (p_mappings source) in
  let* (k, target) := copy_mappings (walk_fuel source) k target source (list_first l) in
  let source := set_list source (list_unlock l) in
  Ok (true, k, set_list target (list_unlock (p_mappings target)), source).
End Calls.
Arguments kmem H : clear implicits.
