(* ===== verification/MmapCorrect.v ===== *)
(** * What the mappings' bookkeeping promises

    Splitting a description at its front or its back does not change which
    pages are mapped where; unmapping the front of the first mapping removes
    exactly that range from the process's mappings. *)

From S2P Require Import Prelude Pages HeapSpec DList LinkedList CellHeap PMemory VMemory VMemoryBoot Mmap.

(** The range of a description, inside the two address spaces. *)
Record description_wf (d : mmap_description_t) : Prop := {
  dw_virtual : 0 <= d_vaddress d /\ d_vaddress d + d_length d < 2 ^ 32;
  dw_physical : 0 <= d_paddress d /\ d_paddress d + d_length d < 2 ^ 32;
  dw_length : 0 <= d_length d
}.

Definition covers (d : mmap_description_t) (v : Z) : Prop := d_vaddress d <= v < d_vaddress d + d_length d.

(** What one description says of an address: the physical one and the protection. *)
Definition describes (d : mmap_description_t) (v x prot : Z) : Prop :=
  covers d v /\ x = d_paddress d + (v - d_vaddress d) /\ prot = d_protection d.

(** What the descriptions at [es] say. *)
Definition maps (p : process_t) (es : list Z) (v x prot : Z) : Prop :=
  exists e d, e ∈ es /\ p_descriptions p !! e = Some d /\ describes d v x prot.

Section Proofs.
Context {H : Type} `{KernelHeapOk H}.

(** The descriptions at [es] are the process's list, each in its own allocation. *)
Record mappings_rep (h : H) (p : process_t) (es : list Z) : Prop := {
  mr_heap : heap_ok h;
  mr_list : list_rep (p_mappings p) (p_links p) es;
  mr_size : l_entrySize (p_mappings p) = sizeof_description;
  mr_live : forall e, e ∈ es -> exists k, live h e k;
  mr_there : forall e, e ∈ es -> is_Some (p_descriptions p !! e)
}.

Lemma add_description_spec h p es : mappings_rep h p es -> (~ exhausted h sizeof_description) -> Z.of_nat (length es) < 2 ^ 32 - 1 ->
  exists e h' p', add_description h p = Ok (e, h', p') /\ mappings_rep h' p' (es ++ [e]) /\ (e ∉ es) /\
    p_descriptions p' = <[e := no_description]> (p_descriptions p) /\
    p_address p' = p_address p /\ p_pdirectory p' = p_pdirectory p.
Proof.
  intros [Hh Hr Hs Hlive Hd] Hex Hlen. unfold add_description.
  pose proof (list_addBack_spec h (p_mappings p) (p_links p) es Hh Hr ltac:(rewrite Hs; done) Hlen Hlive) as Hadd.
  rewrite Hs in Hadd. destruct (list_addBack h None (p_mappings p) (p_links p)) as [[[[e l'] m'] h']| | |] eqn:E; [|by destruct Hex; left|done|done].
  destruct Hadd as [Hh' [(-> & _)|(Hne & Hr' & Hs' & k & Hk & Hg)]].
  { destruct Hex. right. unfold list_addBack in E. rewrite Hs in E. destruct (halloc h sizeof_description) as [[a h1]| | |]; try done.
    cbn [obind] in E. destruct (Z.eqb_spec a NULL) as [->|]; [by exists h1|]. cbn [obind] in E.
    destruct (list_insertBack _ _ _) as [[? ?]| | |]; [|done..]. cbn [obind] in E. congruence. }
  cbn [obind]. rewrite (proj2 (Z.eqb_neq _ _) Hne). destruct Hg as (_ & Hnew & Hl).
  eexists e, h', _. split; [done|]. cbn. split_and!; try done.
  - constructor; cbn; [done..|by rewrite Hs'| |].
    + intros x [Hx| ->%list_elem_of_singleton]%elem_of_app.
      * destruct (Hlive x Hx) as [j Hj]. exists j. apply Hl. by left.
      * exists k. apply Hl. by right.
    + intros x [Hx| ->%list_elem_of_singleton]%elem_of_app; [|rewrite lookup_insert_eq; by eexists].
      destruct (decide (x = e)) as [->|Hxe]; [rewrite lookup_insert_eq; by eexists|]. rewrite lookup_insert_ne by done. by apply Hd.
  - intros Hin. destruct (Hlive e Hin) as [j Hj]. by apply (Hnew j).
Qed.

Lemma put_spec h p es a d d' : mappings_rep h p es -> p_descriptions p !! a = Some d ->
  exists p', put p a d' = Ok p' /\ mappings_rep h p' es /\ p_descriptions p' = <[a := d']> (p_descriptions p) /\
    p_address p' = p_address p /\ p_pdirectory p' = p_pdirectory p.
Proof.
  intros [Hh Hr Hs Hl Hd] Ha. unfold put, description_at. rewrite Ha. cbn [of_option obind]. eexists. split; [done|].
  cbn. split_and!; try done. constructor; cbn; try done.
  intros e He. destruct (decide (e = a)) as [->|Hne]; [rewrite lookup_insert_eq; by eexists|]. rewrite lookup_insert_ne by done. by apply Hd.
Qed.

(** What the descriptions other than the one at [a] say. *)
Definition others (p : process_t) (es : list Z) (a v x prot : Z) : Prop :=
  exists e d, e ∈ es /\ e <> a /\ p_descriptions p !! e = Some d /\ describes d v x prot.

Lemma maps_others p es a d v x prot : a ∈ es -> p_descriptions p !! a = Some d ->
  maps p es v x prot <-> others p es a v x prot \/ describes d v x prot.
Proof.
  intros Ha Hd. split.
  - intros (e & d' & He & Hd' & Hs). destruct (decide (e = a)) as [->|Hne]; [right; congruence|left; by exists e, d'].
  - intros [(e & d' & He & _ & Hd' & Hs)|Hs]; [by exists e, d'|by exists a, d].
Qed.

(** A new description beside the others. *)
Lemma others_add p p' es a e dn da v x prot : e ∉ es -> e <> a ->
  p_descriptions p' = <[a := da]> (<[e := dn]> (p_descriptions p)) ->
  others p' (es ++ [e]) a v x prot <-> others p es a v x prot \/ describes dn v x prot.
Proof.
  intros He Hne E. unfold others. rewrite E. split.
  - intros (f & d & [Hf| ->%list_elem_of_singleton]%elem_of_app & Hfa & Hd & Hs).
    + rewrite lookup_insert_ne in Hd by done. rewrite lookup_insert_ne in Hd by (by intros <-). left. by exists f, d.
    + rewrite lookup_insert_ne, lookup_insert_eq in Hd by done. right. congruence.
  - intros [(f & d & Hf & Hfa & Hd & Hs)|Hs].
    + exists f, d. rewrite lookup_insert_ne by done. rewrite lookup_insert_ne by (by intros <-). rewrite elem_of_app. by split_and!; [left|..].
    + exists e, dn. rewrite lookup_insert_ne, lookup_insert_eq by done. rewrite elem_of_app, list_elem_of_singleton. by split_and!; [right|..].
Qed.

(** What a split gives: the description at [a] is [d] cut to [n] bytes at
    [address], and the rest of [d] is said by another. *)
Record split_result (p : process_t) (es : list Z) (a address n : Z) (d : mmap_description_t) (h' : H) (p' : process_t) (es' : list Z) : Prop := {
  sr_rep : mappings_rep h' p' es';
  sr_more : exists new, es' = es ++ new;
  sr_same : p_address p' = p_address p /\ p_pdirectory p' = p_pdirectory p;
  sr_cut : exists d', p_descriptions p' !! a = Some d' /\ d_vaddress d' = address /\ d_length d' = n /\
    d_paddress d' = d_paddress d + (address - d_vaddress d) /\ d_protection d' = d_protection d;
  sr_rest : forall v x prot, others p' es' a v x prot <->
    others p es a v x prot \/ (describes d v x prot /\ ~ address <= v < address + n)
}.

Section Split.
Context (h : H) (p : process_t) (es : list Z) (a address length : Z) (d : mmap_description_t).
Context (Hrep : mappings_rep h p es) (Ha : a ∈ es) (Hd : p_descriptions p !! a = Some d) (Hwf : description_wf d).
Context (Hproc : d_process d = p_address p) (Hn : 0 < page_round length <= d_length d).
Context (Hmem : ~ exhausted h sizeof_description) (Hes : Z.of_nat (base.length es) < 2 ^ 32 - 1).

(** The new description, then the old one, filled in. *)
Lemma split_fill (fn fa : Z -> mmap_description_t) :
  exists e h1 p1 p2 p3, add_description h p = Ok (e, h1, p1) /\ put p1 e (fn e) = Ok p2 /\ put p2 a (fa e) = Ok p3 /\
    mappings_rep h1 p3 (es ++ [e]) /\ (e ∉ es) /\ e <> a /\
    p_descriptions p3 = <[a := fa e]> (<[e := fn e]> (p_descriptions p)) /\
    p_address p3 = p_address p /\ p_pdirectory p3 = p_pdirectory p.
Proof.
  destruct (add_description_spec h p es Hrep Hmem Hes) as (e & h1 & p1 & E1 & R1 & He & D1 & A1 & P1).
  assert (Hne : e <> a) by (by intros ->).
  destruct (put_spec h1 p1 _ e no_description (fn e) R1) as (p2 & E2 & R2 & D2 & A2 & P2); [rewrite D1; apply lookup_insert_eq|].
  destruct (put_spec h1 p2 _ a d (fa e) R2) as (p3 & E3 & R3 & D3 & A3 & P3).
  { rewrite D2, D1, !lookup_insert_ne by done. done. }
  exists e, h1, p1, p2, p3. split_and!; try done; [|congruence..]. rewrite D3, D2, D1. by rewrite insert_insert_eq.
Qed.

Lemma splitDescription_spec : address = d_vaddress d \/ address + page_round length = d_vaddress d + d_length d ->
  exists h' p' es', mmap_splitDescription h p a address length = Ok (h', p') /\
    split_result p es a address (page_round length) d h' p' es'.
Proof.
  intros Hend. destruct Hwf as [Hv Hp Hl]. unfold mmap_splitDescription, description_at. rewrite Hd. cbn [of_option obind].
  set (n := page_round length) in *. destruct (Z.eqb_spec (d_length d) n) as [E|Hne].
  { exists h, p, es. split; [done|]. constructor; [done|exists []; by rewrite app_nil_r|done|exists d; split_and!; [done|lia..|done]|].
    intros v x prot. split; [by left|]. intros [?|[[[? ?] _] []]]; [done|lia]. }
  unfold process_of. rewrite Hproc, Z.eqb_refl. cbn [obind]. destruct (Z.eqb_spec (d_vaddress d) address) as [E|Hva].
  - destruct (split_fill (fun _ => Description (d_process d) (u32 (d_vaddress d + n)) (u32 (d_paddress d + n)) (u32 (d_length d - n)) (d_protection d) (d_next d) NULL)
      (fun e => Description (d_process d) (d_vaddress d) (d_paddress d) (u32 (d_length d - u32 (d_length d - n))) (d_protection d) e (d_prev d)))
      as (e & h1 & p1 & p2 & p3 & E1 & E2 & E3 & R & He & Hea & D & A & P).
    rewrite E1. cbn [obind]. rewrite <- Hproc, E2. cbn [obind]. rewrite E3. cbn [obind]. exists h1, p3, (es ++ [e]). split; [done|].
    rewrite !u32_small in D by (rewrite ?u32_small by lia; lia). constructor; [done|by exists [e]|done| |].
    + eexists. rewrite D, lookup_insert_eq. split; [done|]. cbn. split_and!; (lia || done).
    + intros v x prot. rewrite (others_add p p3 es a e _ _ v x prot He Hea D). unfold describes, covers. cbn.
      enough (d_vaddress d + n <= v < d_vaddress d + n + (d_length d - n) /\ x = d_paddress d + n + (v - (d_vaddress d + n)) /\ prot = d_protection d
        <-> (d_vaddress d <= v < d_vaddress d + d_length d /\ x = d_paddress d + (v - d_vaddress d) /\ prot = d_protection d) /\ ~ address <= v < address + n) by tauto.
      subst address. split; [intros (? & -> & ->); split_and!; lia|intros [(? & -> & ->) ?]; split_and!; lia].
  - destruct Hend as [?|Hend]; [congruence|]. rewrite (u32_small (d_vaddress d + d_length d)), Hend, u32_small, Z.eqb_refl by lia.
    destruct (split_fill (fun _ => Description (d_process d) (d_vaddress d) (d_paddress d) (u32 (d_length d - n)) (d_protection d) NULL (d_prev d))
      (fun e => Description (d_process d) (u32 (d_vaddress d + u32 (d_length d - n))) (u32 (d_paddress d + u32 (d_length d - n))) (u32 (d_length d - u32 (d_length d - n))) (d_protection d) (d_next d) e))
      as (e & h1 & p1 & p2 & p3 & E1 & E2 & E3 & R & He & Hea & D & A & P).
    rewrite E1. cbn [obind]. rewrite <- Hproc, E2. cbn [obind]. rewrite E3. cbn [obind]. exists h1, p3, (es ++ [e]). split; [done|].
    rewrite !u32_small in D by (rewrite ?u32_small by lia; lia). constructor; [done|by exists [e]|done| |].
    + eexists. rewrite D, lookup_insert_eq. split; [done|]. cbn. split_and!; (lia || done).
    + intros v x prot. rewrite (others_add p p3 es a e _ _ v x prot He Hea D). unfold describes, covers. cbn.
      enough (d_vaddress d <= v < d_vaddress d + (d_length d - n) /\ x = d_paddress d + (v - d_vaddress d) /\ prot = d_protection d
        <-> (d_vaddress d <= v < d_vaddress d + d_length d /\ x = d_paddress d + (v - d_vaddress d) /\ prot = d_protection d) /\ ~ address <= v < address + n) by tauto.
      split; [intros (? & -> & ->); split_and!; lia|intros [(? & -> & ->) ?]; split_and!; lia].
Qed.
End Split.

(** The lock of the list is not part of its structure. *)
Definition with_lock (p : process_t) (b : bool) : process_t :=
  let l := p_mappings p in set_list p (List (l_count l) (l_entrySize l) b (l_internalLock l) (l_first l) (l_last l)).

Lemma mappings_rep_lock h p es b : mappings_rep h p es -> mappings_rep h (with_lock p b) es.
Proof. intros [Hh [[] ? ?] ? ? ?]. constructor; cbn; try done. Qed.

Lemma page_round_spec length : 0 < length <= 2 ^ 32 - 4096 ->
  length <= page_round length < length + 4096 /\ page_round length mod 4096 = 0.
Proof.
  intros Hl. unfold page_round. destruct (Z.eqb_spec (length mod 4096) 0) as [E|E]; cbn [negb]; [lia|].
  unfold VM_PAGE_ALIGN_UP. change (u32 (Z.lnot VM_PAGE_MASK)) with 4095.
  rewrite u32_small, align_down_spec by (rewrite ?u32_small by lia; lia).
  pose proof (Z.div_mod (length + 4095) 4096 ltac:(lia)). pose proof (Z.mod_pos_bound (length + 4095) 4096 ltac:(lia)).
  rewrite Z.mod_mul by lia. lia.
Qed.

(** ** A call on the front of the first mapping *)

(** The mapping a call works on: the first of the list, from its start. *)
Record front_range (k : kmem H) (p : process_t) (a : Z) (es : list Z) (d : mmap_description_t) (address length : Z) : Prop := {
  fr_rep : mappings_rep (k_heap k) p (a :: es);
  fr_unlocked : l_lock (p_mappings p) = false;
  fr_desc : p_descriptions p !! a = Some d;
  fr_wf : description_wf d;
  fr_process : d_process d = p_address p;
  fr_address : address = d_vaddress d;
  fr_aligned : address mod 4096 = 0;
  fr_length : 0 < length /\ length <= 2 ^ 32 - 4096 /\ page_round length <= d_length d;
  fr_memory : ~ exhausted (k_heap k) sizeof_description;
  fr_count : Z.of_nat (base.length (a :: es)) < 2 ^ 32 - 1
}.

Lemma on_range_front act k p a es d address length : front_range k p a es d address length ->
  exists h' p' es' d', split_result (with_lock p true) (a :: es) a address (page_round length) d h' p' (a :: es') /\
    p_descriptions p' !! a = Some d' /\ d_vaddress d' = address /\ d_length d' = page_round length /\ d_paddress d' = d_paddress d /\
    on_range act k p address length =
      let* (k, p) := act (Kmem h' (k_vm k)) p' a d' in Ok (Result 0 None, k, set_list p (list_unlock (p_mappings p))).
Proof.
  intros [Hrep Hlock Hd Hwf Hproc Hva Hal (Hl0 & Hl1 & Hl2) Hmem Hcount].
  pose proof (page_round_spec length ltac:(lia)) as [Hround _].
  destruct (splitDescription_spec (k_heap k) (with_lock p true) (a :: es) a address length d (mappings_rep_lock _ _ _ true Hrep)) as (h' & p' & es1 & E & R);
    [apply elem_of_cons; by left|done|done|done|lia|done|done|by left|].
  destruct (sr_more _ _ _ _ _ _ _ _ _ R) as [new ->]. destruct (sr_cut _ _ _ _ _ _ _ _ _ R) as (d' & Hd' & Hv' & Hn' & Hp' & _).
  exists h', p', (es ++ new), d'. split_and!; [done..|lia|].
  unfold on_range. rewrite Hal, Z.eqb_refl, (proj2 (Z.eqb_neq length 0)) by lia. cbn [negb orb].
  unfold list_lock. rewrite Hlock. cbn [obind]. fold (with_lock p true). destruct Hwf as [Hv _ _].
  assert (Hf : l_first (p_mappings p) = a) by apply (lc_links _ _ _ (lr_chain _ _ _ (mr_list _ _ _ Hrep))).
  destruct (entry_member _ _ _ a (lr_chain _ _ _ (mr_list _ _ _ Hrep))) as [Ha0 _]; [apply elem_of_cons; by left|].
  unfold list_first. cbn [l_first]. rewrite Hf. unfold walk_fuel. cbn [find_description].
  rewrite (proj2 (Z.eqb_neq a NULL) Ha0). unfold description_at at 1. cbn [p_descriptions with_lock set_list set_mappings].
  rewrite Hd. cbn [of_option obind]. rewrite (u32_small (d_vaddress d + d_length d)) by lia.
  rewrite (proj2 (Z.leb_le address (d_vaddress d))), (proj2 (Z.leb_le address (d_vaddress d + d_length d))) by lia. cbn [andb obind].
  rewrite (proj2 (Z.eqb_neq a NULL) Ha0). unfold description_at at 1. cbn [p_descriptions with_lock set_list set_mappings].
  rewrite Hd. cbn [of_option obind]. rewrite (u32_small (d_vaddress d + d_length d)), (u32_small (address + length)) by lia.
  rewrite (proj2 (Z.ltb_ge (d_vaddress d + d_length d) (address + length))) by lia. cbn [obind negb].
  rewrite E. cbn [obind]. unfold description_at at 1. rewrite Hd'. done.
Qed.

(** Removing the first description leaves the others. *)
Lemma remove_first h p a es : mappings_rep h p (a :: es) -> is_Some (p_descriptions p !! a) ->
  exists h' p', remove_description h p a = Ok (h', p') /\ heap_ok h' /\ list_chain (p_mappings p') (p_links p') es /\
    forall v x prot, maps p' es v x prot <-> others p (a :: es) a v x prot.
Proof.
  intros [Hh Hr _ Hlive _] Ha. unfold remove_description, list_remove.
  destruct (removeSoft_spec _ _ [] a es (lr_chain _ _ _ Hr)) as (l' & m' & E & Hc & _). rewrite E. cbn [obind].
  destruct (Hlive a) as [n Hn]; [apply elem_of_cons; by left|]. destruct (hfree_ok h a n Hh Hn) as (h' & Ef & Hh' & _).
  rewrite Ef. cbn [obind]. eexists h', _. split; [done|]. cbn. pose proof (lc_nodup _ _ _ (lr_chain _ _ _ Hr)) as [Hnin _]%NoDup_cons.
  split_and!; [done| |].
  - destruct Hc as [Hc1 Hc2 Hc3]. constructor; [|done..]. eapply dseg_frame; [|exact Hc1].
    intros e nd He Hnd. exists nd. rewrite lookup_delete_ne by (by intros <-). done.
  - intros v x prot. unfold maps, others. cbn. split.
    + intros (e & d & He & Hd & Hs). apply lookup_delete_Some in Hd as [Hne Hd]. exists e, d. rewrite elem_of_cons. split_and!; auto.
    + intros (e & d & [->|He]%elem_of_cons & Hne & Hd & Hs); [done|]. exists e, d. by rewrite lookup_delete_ne.
Qed.

Lemma in_with_lock p b es v x prot : maps (with_lock p b) es v x prot <-> maps p es v x prot.
Proof. done. Qed.

Lemma page_count_round length : 0 < length <= 2 ^ 32 - 4096 -> VM_PAGE_COUNT (page_round length) = page_round length / 4096.
Proof.
  intros Hl. destruct (page_round_spec length Hl) as [Hr Hm].
  assert (page_round length <= 2 ^ 32 - 4096) by (pose proof (Z.div_mod (page_round length) 4096 ltac:(lia)); lia).
  rewrite page_count_spec by lia. pose proof (Z.div_mod (page_round length) 4096 ltac:(lia)).
  replace (page_round length + 4095) with (4095 + page_round length / 4096 * 4096) by lia. rewrite Z.div_add by lia. done.
Qed.

(** Unmapping the front of the first mapping, when taking the pages out of
    the address space succeeds, returns 0 and removes exactly that range, rounded
    up to whole pages, from what the process's descriptions say; every other
    address keeps its physical page and its protection.  The pages given back to
    the physical allocator are the ones numbered like the virtual address. *)
Theorem munmap_removes_front k p a es d address length st : front_range k p a es d address length ->
  (forall e de v, e ∈ es -> p_descriptions p !! e = Some de -> covers de v -> ~ covers d v) ->
  vm_free (k_vm k) (p_pdirectory p) address (page_round length / 4096) = Ok st ->
  exists h' p' es', _sc_munmap k p address length
      = Ok (Result 0 None, Kmem h' (frames_free st address (page_round length / 4096)), p') /\
    heap_ok h' /\ list_chain (p_mappings p') (p_links p') es' /\
    forall v x prot, maps p' es' v x prot <-> maps p (a :: es) v x prot /\ ~ address <= v < address + page_round length.
Proof.
  intros Hfr Hap Hfree. destruct (on_range_front unmap_range k p a es d address length Hfr) as (h1 & p1 & es' & d' & R & Hd' & Hv' & Hn' & _ & E).
  pose proof Hfr as [Hrep _ Hd _ _ _ _ (Hl0 & Hl1 & _) _ _]. destruct (sr_same _ _ _ _ _ _ _ _ _ R) as [_ Hdir].
  destruct (remove_first h1 p1 a es' (sr_rep _ _ _ _ _ _ _ _ _ R)) as (h' & p' & Er & Hh' & Hc & Hm); [by eexists|].
  exists h', (set_list p' (list_unlock (p_mappings p'))), es'. split_and!; [|done|by destruct Hc|].
  - unfold _sc_munmap. rewrite E. unfold unmap_range. rewrite Hdir, Hn', Hv', page_count_round by lia.
    cbn [k_vm p_pdirectory with_lock set_list set_mappings]. rewrite Hfree. cbn [obind k_heap]. rewrite Er. done.
  - intros v x prot. change (maps (set_list p' _) es' v x prot) with (maps p' es' v x prot).
    rewrite Hm, (sr_rest _ _ _ _ _ _ _ _ _ R), (maps_others p (a :: es) a d); [|apply elem_of_cons; by left|done].
    change (others (with_lock p true)) with (others p). split; [|tauto].
    intros [Ho|?]; [|tauto]. split; [by left|]. intros Hin. destruct Ho as (e & de & [->|He]%elem_of_cons & Hne & Hde & [Hcov _]); [done|].
    apply (Hap e de v He Hde Hcov). destruct Hfr as [_ _ _ _ _ -> _ (_ & _ & ?) _ _]. unfold covers. lia.
Qed.

(** Changing the protection of the front of the first mapping sets it there and
    nowhere else. *)
Theorem mprotect_sets_front k p a es d address length protection st : front_range k p a es d address length ->
  vm_mapPageRange (k_vm k) (p_pdirectory p) (d_paddress d) address (page_round length / 4096)
    (mmap_vmflagsForProtectionFlags protection) = Ok st ->
  exists h' p' es', _sc_mprotect k p address length protection = Ok (Result 0 None, Kmem h' st, p') /\
    mappings_rep h' p' es' /\
    forall v x prot, maps p' es' v x prot <-> others p (a :: es) a v x prot \/
      exists old, describes d v x old /\ prot = (if decide (address <= v < address + page_round length) then protection else old).
Proof.
  intros Hfr Hmap. destruct (on_range_front (protect_range protection) k p a es d address length Hfr) as (h1 & p1 & es' & d' & R & Hd' & Hv' & Hn' & Hp' & E).
  pose proof Hfr as [Hrep _ Hd _ _ Hva _ (Hl0 & Hl1 & Hl2) _ _]. destruct (sr_same _ _ _ _ _ _ _ _ _ R) as [_ Hdir].
  destruct (put_spec h1 p1 _ a d' (Description (d_process d') (d_vaddress d') (d_paddress d') (d_length d') protection (d_next d') (d_prev d'))
    (sr_rep _ _ _ _ _ _ _ _ _ R) Hd') as (p2 & E2 & R2 & D2 & _).
  exists h1, (with_lock p2 false), (a :: es'). split_and!; [|by apply mappings_rep_lock|].
  - unfold _sc_mprotect. rewrite E. unfold protect_range. rewrite Hdir, Hn', Hv', Hp', page_count_round by lia.
    cbn [k_vm p_pdirectory with_lock set_list set_mappings]. rewrite Hmap. cbn [obind k_heap]. rewrite <- Hn', <- Hv', <- Hp', E2. done.
  - intros v x prot. assert (Hd2 := lookup_insert_eq (p_descriptions p1) a
      (Description (d_process d') (d_vaddress d') (d_paddress d') (d_length d') protection (d_next d') (d_prev d'))). rewrite <- D2 in Hd2.
    rewrite in_with_lock, (maps_others p2 (a :: es') a _ v x prot ltac:(apply elem_of_cons; by left) Hd2).
    assert (Ho : others p2 (a :: es') a v x prot <-> others p1 (a :: es') a v x prot).
    { unfold others. rewrite D2. split; intros (e & de & He & Hne & Hde & Hs); exists e, de; rewrite ?lookup_insert_ne in * by done; done. }
    rewrite Ho, (sr_rest _ _ _ _ _ _ _ _ _ R). change (others (with_lock p true)) with (others p).
    unfold describes, covers. cbn [d_vaddress d_paddress d_length d_protection]. rewrite Hv', Hn', Hp'. split.
    + intros [[?|[(? & -> & ->) Hout]]|(? & -> & ->)]; [by left| |]; right; exists (d_protection d); case_decide; (split; [split_and!|]); (lia || done).
    + intros [?|(old & (? & -> & ->) & ->)]; [by left; left|]. case_decide; [right|left; right]; split_and!; (lia || done).
Qed.
End Proofs.

(** ** A process at work *)

Fixpoint zero_ram (n : nat) (a : Z) (m : gmap Z Z) : gmap Z Z :=
  match n with O => m | S n' => zero_ram n' (a + 4) (<[a := 0]> m) end.

(** A machine with thirty pages, paging on, and a process's page directory. *)
Definition ok_or {A} (o : outcome A) (x : A) : A := match o with Ok a => a | _ => x end.
Definition machine : vmem := Vmem (zero_ram (Z.to_nat 30720) 0x20000 (zero_ram (Z.to_nat 1024) 0x1000 ∅)) demo_pages false true 0 false.
Definition paging (st : vmem) : vmem := Vmem (v_phys st) (v_pages st) true false (v_kernelDirectory st) false.
Definition directory : Z * vmem := let st := paging (ok_or (vm_createKernelContext machine) machine) in ok_or (vm_createDirectory st) (0, st).
Definition start : kmem cell_heap * process_t :=
  (Kmem (CellHeap ∅) (snd directory), Process 4096 (fst directory) (List 0 sizeof_description false false NULL NULL) ∅ ∅).

Definition call : Type := kmem cell_heap -> process_t -> outcome (result * kmem cell_heap * process_t).

(** Running a sequence of calls: the results and where they end. *)
Fixpoint calls (cs : list call) (k : kmem cell_heap) (p : process_t) : outcome (list result * kmem cell_heap * process_t) :=
  match cs with
  | [] => Ok ([], k, p)
  | c :: cs' => let* (r, k, p) := c k p in let* (rs, k, p) := calls cs' k p in Ok (r :: rs, k, p)
  end.

Definition run (cs : list call) := calls cs (fst start) (snd start).
Definition private : Z := Z.lor MAP_PRIVATE MAP_ANONYMOUS.
Definition mmap (address length : Z) : call := fun k p => _sc_mmap k p address length PROT_READ private.
Definition munmap (address length : Z) : call := fun k p => _sc_munmap k p address length.
Definition mprotect (address length : Z) : call := fun k p => _sc_mprotect k p address length PROT_WRITE.


Definition end_of {A} (o : outcome (A * kmem cell_heap * process_t)) : kmem cell_heap * process_t :=
  match o with Ok (_, k, p) => (k, p) | _ => start end.

(** After a mapping of four pages. *)
Definition mapped : kmem cell_heap * process_t := end_of (run [mmap 0 0x4000]).
Definition mapping : mmap_description_t := Description 4096 0x1000 0x23000 0x4000 PROT_READ 0 0.

Lemma mapped_heap : k_heap (fst mapped) = CellHeap {[1 := 36]}.
Proof. vm_compute. reflexivity. Qed.

Definition is_ok {A} (o : outcome A) : bool := match o with Ok _ => true | _ => false end.

Lemma is_ok_eq {A} (o : outcome A) (x : A) : is_ok o = true -> o = Ok (ok_or o x).
Proof. by destruct o. Qed.

Definition one_mapping : process_t :=
  Process 4096 0x21000 (List 1 36 false false 0x100000 0x100000) {[0x100000 := Node 0 0]} {[0x100000 := mapping]}.

Lemma mapped_process : snd mapped = one_mapping.
Proof. vm_compute. reflexivity. Qed.

Lemma one_mapping_rep : mappings_rep (CellHeap {[1 := 36]}) one_mapping [0x100000].
Proof.
  constructor; cbn; [done| |done| |].
  - constructor; [|done|done]. constructor; [|apply NoDup_singleton|done]. cbn. split; [done|]. split; [done|]. by exists (Node 0 0).
  - intros e ->%list_elem_of_singleton. exists 36, 1. by split_and!.
  - intros e ->%list_elem_of_singleton. by eexists.
Qed.

Lemma mapped_front : front_range (fst mapped) (snd mapped) 0x100000 [] mapping 0x1000 0x1800.
Proof.
  rewrite mapped_process. generalize mapped_heap. generalize (fst mapped). intros k Hk. constructor; rewrite ?Hk.
  - exact one_mapping_rep.
  - reflexivity.
  - reflexivity.
  - by constructor; cbn.
  - reflexivity.
  - reflexivity.
  - reflexivity.
  - split_and!; [done..|]. vm_compute. discriminate.
  - intros [E|[h E]]; vm_compute in E; discriminate E.
  - reflexivity.
Qed.

Lemma munmap_removes_front_witness : exists h' st p' es', _sc_munmap (fst mapped) (snd mapped) 0x1000 0x1800 = Ok (Result 0 None, Kmem h' st, p') /\
  forall v x prot, maps p' es' v x prot <-> maps (snd mapped) [0x100000] v x prot /\ ~ 0x1000 <= v < 0x1000 + page_round 0x1800.
Proof.
  destruct (munmap_removes_front (fst mapped) (snd mapped) 0x100000 [] mapping 0x1000 0x1800
    (ok_or (vm_free (k_vm (fst mapped)) (p_pdirectory (snd mapped)) 0x1000 (page_round 0x1800 / 4096)) (k_vm (fst mapped))) mapped_front)
    as (h' & p' & es' & E & _ & _ & Hm).
  - intros e de v []%not_elem_of_nil.
  - apply is_ok_eq. vm_compute. reflexivity.
  - exists h'. eexists. exists p', es'. split; [exact E|exact Hm].
Defined.

(** ** What goes wrong *)

(** Whatever protection is asked for, the pages are mapped for reading and
    writing by the program: the mask of [PROT_NONE] is empty. *)
Lemma protection_ignored protection : mmap_vmflagsForProtectionFlags protection = VM_FLAGS_USERLAND.
Proof.
  unfold mmap_vmflagsForProtectionFlags. assert (has protection PROT_NONE = false) as -> by (unfold has; by rewrite Z.land_0_r).
  cbn [negb]. by destruct (_ && _).
Qed.

(** The results of the calls, the mappings (virtual and physical address and
    length) they leave, and which of the physical pages [fs] are then free. *)
Definition outcome_of (cs : list call) (fs : list Z) : option (list Z * list (Z * Z * Z) * list bool) :=
  match run cs with
  | Ok (rs, k, p) => Some (r_value <$> rs,
      (fun e => (d_vaddress (snd e), d_paddress (snd e), d_length (snd e))) <$> map_to_list (p_descriptions p),
      page_free (v_pages (k_vm k)) <$> fs)
  | _ => None
  end.

(** Unmapping does not free the pages 35 and 36 that held the memory, but pages
    1 and 2; page 1 is the kernel's page directory. *)
Lemma munmap_frees_wrong_pages : outcome_of [mmap 0 0x4000; munmap 0x1000 0x2000] [1; 2; 35; 36]
    = Some ([0x1000; 0], [(0x3000, 0x25000, 0x2000)], [true; true; false; false]) /\ v_kernelDirectory (k_vm (fst start)) = 0x1000.
Proof. split; vm_compute; reflexivity. Qed.

(** Only the first mapping and its fragments are looked at: a second mapping
    cannot be unmapped. *)
Lemma second_mapping_stays : outcome_of [mmap 0 0x4000; mmap 0 0x2000; munmap 0x5000 0x2000] []
  = Some ([0x1000; 0x5000; u32 (-1)], [(0x5000, 0x28000, 0x2000); (0x1000, 0x23000, 0x4000)], []).
Proof. vm_compute. reflexivity. Qed.

(** Any address below the first mapping is taken for it. *)
Lemma munmap_elsewhere : outcome_of [mmap 0x8000 0x4000; munmap 0x1000 0x4000] [] = Some ([0x8000; 0], [], []).
Proof. vm_compute. reflexivity. Qed.

(** Unmapping three of four pages after the first has been split off leaves a
    description of almost the whole address space. *)
Lemma join_cuts_wrong_end : outcome_of [mmap 0 0x4000; mprotect 0x1000 0x1000; munmap 0x1000 0x3000] []
  = Some ([0x1000; 0; 0], [(0x3000, 0x25000, 0x2000); (0x4000, 0x26000, u32 (-0x1000))], []).
Proof. vm_compute. reflexivity. Qed.

(** A range behind the last fragment leaves the list locked: the next call waits
    for ever. *)
Lemma munmap_keeps_lock : run [mmap 0 0x4000; munmap 0x1000 0x5000; mmap 0 0x1000] = Hang.
Proof. vm_compute. reflexivity. Qed.

(** A refused request leaves an empty description behind. *)
Lemma refused_mapping_stays : outcome_of [mmap 0 0x4001] [] = Some ([MAP_FAILED], [(0, 0, 0)], []).
Proof. vm_compute. reflexivity. Qed.

(** Cutting a page out of the middle: it is described twice, and the last page
    of the mapping by nothing. *)
Lemma split_middle_wrong :
  (let* (_, p) := mmap_splitDescription (k_heap (fst mapped)) (snd mapped) 0x100000 0x2000 0x1000 in
   Ok ((fun e => (d_vaddress (snd e), d_paddress (snd e), d_length (snd e))) <$> map_to_list (p_descriptions p)))
  = Ok [(0x2000, 0x24000, 0x2000); (0x1000, 0x23000, 0x1000); (0x2000, 0x24000, 0x1000)].
Proof. vm_compute. reflexivity. Qed.

(** After a fork the copy does not know its process: unmapping a part of it
    follows a null pointer. *)
Definition child : process_t := Process 8192 (p_pdirectory (snd mapped)) (List 0 sizeof_description false false NULL NULL) ∅ ∅.
Definition forked : kmem cell_heap * process_t :=
  end_of (let* (r, k, t, _) := mmap_copyMappings (fst mapped) child (snd mapped) in Ok (r, k, t)).

Lemma forked_munmap_faults : _sc_munmap (fst forked) (snd forked) 0x1000 0x1000 = Fault.
Proof. vm_compute. reflexivity. Qed.
