(* ===== verification/IoLibrary.v ===== *)
(** * Driver libraries in the kernel (sys/ioglue)

    iolibrary.c, iostore.c and the symbol lookup of iostubs.c: libraries loaded
    into the kernel, linked against the symbols it exports and against each
    other.  The images lie in byte memory; the walks over them that the dynamic
    linker's library.c and reloc.c repeat are those of ElfLink.  A list of
    dependencies is its sequence, the store's tree a map from names.  The heap,
    the page allocators and the file system are the class [IoSys]. *)

From Stdlib Require Import String Ascii.
From S2P Require Import Prelude CString Pages LinkedList Elf ElfLink Linkd.

Class IoSys (Sys : Type) := {
  io_halloc : Sys -> Z -> outcome (Z * Sys);
  io_hfree : Sys -> Z -> outcome Sys;
  io_pm_alloc : Sys -> Z -> Z * Sys;
  io_pm_free : Sys -> Z -> Z -> Sys;
  (** Into the kernel's directory: physical address and pages; the memory with
      the pages in it. *)
  io_vm_alloc : Sys -> mem -> Z -> Z -> Z * mem * Sys;
  io_vm_free : Sys -> mem -> Z -> Z -> mem * Sys;
  io_mm_alloc : Sys -> mem -> Z -> Z * mem * Sys;
  io_mm_free : Sys -> mem -> Z -> Z -> mem * Sys;
  io_open : Sys -> list Z -> Z * Sys;
  io_seek : Sys -> Z -> Z -> Z -> Z * Sys;
  io_read : Sys -> mem -> Z -> Z -> Z -> Z * mem * Sys;
  io_close : Sys -> Z -> Sys
}.

(** ** Data (iolibrary.h) *)

(** Where the entry is, the name as an offset into the string table, and the
    library, a null pointer until the dependencies are resolved. *)
Record io_dependency_s := IoDependency { dn_at : Z; dn_name : Z; dn_library : Z }.

Record io_library_t := IoLibrary {
  il_name : list Z; il_path : list Z; il_pathAt : Z;
  il_img : elf_image; il_dependenciesAt : Z; il_dependencies : list io_dependency_s;
  il_pages : Z; il_pmemory : Z; il_vmemory : Z;
  il_lock : bool; il_refCount : Z
}.

Definition sizeof_io_library : Z := 112.
Definition sizeof_io_dependency : Z := 16.

Definition set_il_img (img : elf_image) (l : io_library_t) : io_library_t :=
  IoLibrary (il_name l) (il_path l) (il_pathAt l) img (il_dependenciesAt l) (il_dependencies l) (il_pages l) (il_pmemory l) (il_vmemory l) (il_lock l) (il_refCount l).
Definition set_il_dependencies (ds : list io_dependency_s) (l : io_library_t) : io_library_t :=
  IoLibrary (il_name l) (il_path l) (il_pathAt l) (il_img l) (il_dependenciesAt l) ds (il_pages l) (il_pmemory l) (il_vmemory l) (il_lock l) (il_refCount l).
Definition set_il_count (lock : bool) (n : Z) (l : io_library_t) : io_library_t :=
  IoLibrary (il_name l) (il_path l) (il_pathAt l) (il_img l) (il_dependenciesAt l) (il_dependencies l) (il_pages l) (il_pmemory l) (il_vmemory l) lock n.
Definition set_il_memory (pages pmemory vmemory : Z) (l : io_library_t) : io_library_t :=
  IoLibrary (il_name l) (il_path l) (il_pathAt l) (il_img l) (il_dependenciesAt l) (il_dependencies l) pages pmemory vmemory (il_lock l) (il_refCount l).

(** ** Symbols by address (iolibrary.c) *)

(** The symbol closest below an address so far: its place and its value. *)
Definition closer (best : option (Z * Z)) (symbol v limit : Z) : option (Z * Z) :=
  if v <=? limit then
    match best with
    | None => Some (symbol, v)
    | Some (_, b) => if b <? v then Some (symbol, v) else best
    end
  else best.

Fixpoint closest_chain (fuel : nat) (m : mem) (img : elf_image) (limit symnum : Z) (best : option (Z * Z)) : outcome (option (Z * Z)) :=
  if symnum =? 0 then Ok best else
  match fuel with
  | O => Hang
  | S f =>
      let symbol := sym_at img symnum in
      let* v := st_value m symbol in
      let* next := ld32 m (word_index (chains img) symnum) in
      closest_chain f m img limit next (closer best symbol v limit)
  end.

(** The buckets from [i] on, [n] of them. *)
Fixpoint closest_buckets (n : nat) (m : mem) (img : elf_image) (limit i : Z) (best : option (Z * Z)) : outcome (option (Z * Z)) :=
  match n with
  | O => Ok best
  | S n' =>
      let* symnum := ld32 m (word_index (buckets img) i) in
      let* best := closest_chain (string_fuel m) m img limit symnum best in
      closest_buckets n' m img limit (i + 1) best
  end.

Definition io_libraryResolveAddress (m : mem) (img : elf_image) (address : Z) : outcome Z :=
  let* best := closest_buckets (Z.to_nat (nbuckets img)) m img (u32 (address - relocBase img)) 0 None in
  Ok (match best with None => 0 | Some (_, v) => u32 (relocBase img + v) end).

Fixpoint address_chain (fuel : nat) (m : mem) (img : elf_image) (value symnum : Z) : outcome Z :=
  if symnum =? 0 then Ok NULL else
  match fuel with
  | O => Hang
  | S f =>
      let symbol := sym_at img symnum in
      let* v := st_value m symbol in
      if v =? value then Ok symbol else
      let* next := ld32 m (word_index (chains img) symnum) in
      address_chain f m img value next
  end.

Fixpoint address_buckets (n : nat) (m : mem) (img : elf_image) (value i : Z) : outcome Z :=
  match n with
  | O => Ok NULL
  | S n' =>
      let* symnum := ld32 m (word_index (buckets img) i) in
      let* symbol := address_chain (string_fuel m) m img value symnum in
      if symbol =? NULL then address_buckets n' m img value (i + 1) else Ok symbol
  end.

Definition io_librarySymbolWithAddress (m : mem) (img : elf_image) (address : Z) : outcome Z :=
  address_buckets (Z.to_nat (nbuckets img)) m img (u32 (address - relocBase img)) 0.

Definition io_librarySymbolWithName (m : mem) (img : elf_image) (name hash : Z) : outcome Z := library_symbolWithName m img name hash.

Definition io_libraryFindSymbol (m : mem) (img : elf_image) (name : Z) : outcome Z :=
  let* hash := elf_hash m name in
  let* symbol := io_librarySymbolWithName m img name hash in
  if symbol =? NULL then Ok NULL else
  let* v := st_value m symbol in Ok (u32 (relocBase img + v)).

(** ** Symbols of the kernel (iostubs.c) *)

Fixpoint chars (s : string) : list Z :=
  match s with EmptyString => [] | String c s => Z.of_N (N_of_ascii c) :: chars s end.

Definition __io_exportedSymbolNames : list (list Z) := chars <$> [
  "panic"; "__io_primitiveLog"; "sys_checkCommandline"; "__divdi3"; "__moddi3"; "__udivdi3"; "__umoddi3";
  "sd_yield"; "__io_threadCreate"; "__io_threadID"; "__io_threadSetName"; "__io_threadSleep"; "__io_threadWakeup";
  "kern_requestExclusiveInterrupt"; "kern_registerForInterrupt";
  "io_moduleWithName"; "io_moduleRetain"; "io_moduleRelease";
  "kern_alloc"; "kern_free"; "dma_request"; "dma_free";
  "time_getSeconds"; "time_getMilliseconds"; "time_convertUnix"; "time_convertTimestamp"; "time_getTimestamp";
  "time_getUnixTime"; "time_getBootTime" ]%string.

(** [strcmp(literal, name) == 0], and [strncmp(name, literal, strlen(literal)) == 0]. *)
Fixpoint literal_is (m : mem) (literal : list Z) (name : Z) : outcome bool :=
  let* c := load m name in
  match literal with
  | [] => Ok (c =? 0)
  | d :: literal => if c =? d then literal_is m literal (u32 (name + 1)) else Ok false
  end.

Fixpoint literal_prefix (m : mem) (literal : list Z) (name : Z) : outcome bool :=
  match literal with
  | [] => Ok true
  | d :: literal => let* c := load m name in if c =? d then literal_prefix m literal (u32 (name + 1)) else Ok false
  end.

Fixpoint exported_index (m : mem) (names : list (list Z)) (name : Z) (i : nat) : outcome (option nat) :=
  match names with
  | [] => Ok None
  | s :: names => let* b := literal_is m s name in if b : bool then Ok (Some i) else exported_index m names name (S i)
  end.

(** The kernel's symbol table, entry by entry. *)
Fixpoint kernel_symbols (n : nat) (m : mem) (img : elf_image) (name symbol : Z) : outcome Z :=
  match n with
  | O => Ok NULL
  | S n' =>
      let next := u32 (symbol + sizeof_elf_sym_t) in
      let* sn := st_name m symbol in
      if (strtabSize img <=? sn) || (sn =? 0) then kernel_symbols n' m img name next else
      let* c := strcmp m (u32 (strtab img + sn)) name in
      if c =? 0 then Ok symbol else kernel_symbols n' m img name next
  end.

(** The kernel as a library: its image, the number of its symbols and its
    address; [exported] is the table of symbols already looked up. *)
Record kernel_stub := KernelStub { ks_img : elf_image; ks_symbols : Z; ks_address : Z }.

Definition io_findKernelSymbol (k : kernel_stub) (m : mem) (exported : list Z) (name : Z) : outcome (Z * list Z) :=
  let* index := if name =? NULL then Ok None else exported_index m __io_exportedSymbolNames name 0 in
  match index with
  | None => Ok (NULL, exported)
  | Some i =>
      let* known := of_option (exported !! i) in
      if negb (known =? NULL) then Ok (known, exported) else
      let* symbol := kernel_symbols (Z.to_nat (ks_symbols k)) m (ks_img k) name (symtab (ks_img k)) in
      if symbol =? NULL then Ok (NULL, exported) else Ok (symbol, <[i := symbol]> exported)
  end.

(** [io_initStubs]: the sections of the kernel's file; the last string table and
    the last symbol table that are not the table of section names. *)
Fixpoint stub_sections (n : nat) (m : mem) (header shstrndx section i : Z) (k : kernel_stub) : outcome kernel_stub :=
  match n with
  | O => Ok k
  | S n' =>
      let next := u32 (section + sizeof_elf_section_header_t) in
      if i =? shstrndx then stub_sections n' m header shstrndx next (i + 1) k else
      let* type := sh_type m section in
      let* k :=
        if type =? SHT_STRTAB then
          let* offset := sh_offset m section in
          let* size := sh_size m section in
          Ok (KernelStub (set_strtabSize size (set_strtab (u32 (header + offset)) (ks_img k))) (ks_symbols k) (ks_address k))
        else if type =? SHT_SYMTAB then
          let* offset := sh_offset m section in
          let* size := sh_size m section in
          let* entsize := sh_entsize m section in
          if entsize =? 0 then Fault else
          Ok (KernelStub (set_symtab (u32 (header + offset)) (ks_img k)) (size / entsize) (ks_address k))
        else Ok k in
      stub_sections n' m header shstrndx next (i + 1) k
  end.

(** ** Looking symbols up (iostore.c) *)

Section Lookup.
Context (libs : gmap Z io_library_t) (kernel : kernel_stub).

(** The dependencies [ds] of one library: the first that defines the name; the
    libraries that have dependencies themselves go to the end of the queue. *)
Fixpoint search_dependencies (m : mem) (name hash : Z) (ds : list io_dependency_s) (queue : list Z) : outcome (option (Z * Z) * list Z) :=
  match ds with
  | [] => Ok (None, queue)
  | d :: ds =>
      let* lib := of_option (libs !! dn_library d) in
      let* symbol := defined_symbol m (il_img lib) name hash in
      match symbol with
      | Some symbol => Ok (Some (symbol, dn_library d), queue)
      | None => search_dependencies m name hash ds (match il_dependencies lib with [] => queue | _ => queue ++ [dn_library d] end)
      end
  end.

(** The queue holds the libraries whose lists are in [dependencyTree] and not
    looked at yet.  Libraries that depend on each other make it endless. *)
Fixpoint search_tree (fuel : nat) (m : mem) (name hash : Z) (queue : list Z) : outcome (option (Z * Z)) :=
  match queue with
  | [] => Ok None
  | library :: queue =>
      match fuel with
      | O => Hang
      | S f =>
          let* lib := of_option (libs !! library) in
          let* (found, queue) := search_dependencies m name hash (il_dependencies lib) queue in
          match found with Some r => Ok (Some r) | None => search_tree f m name hash queue end
      end
  end.

(** The symbol and the library it is in; [fuel] bounds the libraries looked at. *)
Definition io_storeLookupSymbol (fuel : nat) (m : mem) (exported : list Z) (library symNum : Z) : outcome (option (Z * Z) * list Z) :=
  let* lib := of_option (libs !! library) in
  let lookup := sym_at (il_img lib) symNum in
  let* n := st_name m lookup in
  let name := u32 (strtab (il_img lib) + n) in
  let* info := st_info m lookup in
  if ELF32_ST_BIND info =? STB_LOCAL then Ok (Some (lookup, library), exported) else
  let* hash := elf_hash m name in
  let* (symbol, exported) := io_findKernelSymbol kernel m exported name in
  if negb (symbol =? NULL) then Ok (Some (symbol, ks_address kernel), exported) else
  let* found := search_tree fuel m name hash [library] in
  match found with
  | Some r => Ok (Some r, exported)
  | None =>
      let* symbol := defined_symbol m (il_img lib) name hash in
      Ok (match symbol with Some symbol => Some (symbol, library) | None => None end, exported)
  end.

(** ** Relocation (iolibrary.c) *)

Definition base_of (container : Z) : outcome Z :=
  if container =? ks_address kernel then Ok (relocBase (ks_img kernel)) else
  let* l := of_option (libs !! container) in Ok (relocBase (il_img l)).

Definition store_lookup (fuel : nat) (library : Z) (exported : list Z) (m : mem) (symNum : Z) : outcome (option (Z * Z) * list Z) :=
  let* (found, exported) := io_storeLookupSymbol fuel m exported library symNum in
  match found with
  | None => Ok (None, exported)
  | Some (symbol, container) => let* base := base_of container in Ok (Some (symbol, base), exported)
  end.

Definition io_libraryRelocateNonPLT (fuel : nat) (m : mem) (exported : list Z) (library : Z) : outcome (bool * list Z * mem) :=
  let* lib := of_option (libs !! library) in
  relocateNonPLT (store_lookup fuel library) exported m (il_img lib).

Definition io_libraryRelocatePLT (fuel : nat) (m : mem) (exported : list Z) (library : Z) : outcome (bool * list Z * mem) :=
  let* lib := of_option (libs !! library) in
  relocatePLT (store_lookup fuel library) exported m (il_img lib).
End Lookup.

(** ** Names (iostore.c) *)

Definition kCompareLesserThan : Z := -1.
Definition kCompareEqualTo : Z := 0.
Definition kCompareGreaterThan : Z := 1.

(** The characters are signed; [io_moduleAtreeLookup] is the same function. *)
Fixpoint io_storeAtreeLookup (fuel : nat) (m : mem) (name1 name2 : Z) : outcome Z :=
  let* c1 := load m name1 in
  let* c2 := load m name2 in
  if c1 =? c2 then
    if c1 =? 0 then Ok kCompareEqualTo else
    match fuel with
    | O => Hang
    | S f => io_storeAtreeLookup f m (u32 (name1 + 1)) (u32 (name2 + 1))
    end
  else if char c2 <? char c1 then Ok kCompareGreaterThan else Ok kCompareLesserThan.

(** ** The state *)

Section Glue.
Context {Sys : Type} `{IoSys Sys}.

Record ioglue := Glue {
  g_mem : mem; g_sys : Sys;
  g_libs : gmap Z io_library_t;
  (** [__io_storeLibraries], a library under its name, and [__io_storeLock] *)
  g_store : gmap (list Z) Z; g_storeLock : bool;
  g_kernel : kernel_stub; g_exported : list Z
}.

Definition g_with_mem (g : ioglue) (m : mem) (s : Sys) : ioglue :=
  Glue m s (g_libs g) (g_store g) (g_storeLock g) (g_kernel g) (g_exported g).
Definition g_with_lib (g : ioglue) (p : Z) (l : io_library_t) : ioglue :=
  Glue (g_mem g) (g_sys g) (<[p := l]> (g_libs g)) (g_store g) (g_storeLock g) (g_kernel g) (g_exported g).
Definition g_with_store (g : ioglue) (t : gmap (list Z) Z) : ioglue :=
  Glue (g_mem g) (g_sys g) (g_libs g) t (g_storeLock g) (g_kernel g) (g_exported g).
Definition g_with_exported (g : ioglue) (m : mem) (e : list Z) : ioglue :=
  Glue m (g_sys g) (g_libs g) (g_store g) (g_storeLock g) (g_kernel g) e.

Definition library_at (g : ioglue) (p : Z) : outcome io_library_t := of_option (g_libs g !! p).

(** Every function of the store takes the lock and gives it back. *)
Definition store_lock {A} (g : ioglue) (f : ioglue -> outcome A) : outcome A := if g_storeLock g then Hang else f g.

(** ** The dynamic section (iolibrary.c) *)

Fixpoint io_digest_loop (fuel : nat) (g : ioglue) (dyn : Z) (ds : list io_dependency_s) (d : digest)
    : outcome (ioglue * list io_dependency_s * digest) :=
  let* tag := d_tag (g_mem g) dyn in
  if tag =? DT_NULL then Ok (g, ds, d) else
  match fuel with
  | O => Hang
  | S f =>
      let* v := d_un (g_mem g) dyn in
      let next := u32 (dyn + sizeof_elf_dyn_t) in
      if tag =? DT_NEEDED then
        let* (p, s) := io_halloc (g_sys g) sizeof_io_dependency in
        if p =? NULL then Fault else
        io_digest_loop f (g_with_mem g (g_mem g) s) next (ds ++ [IoDependency p v NULL]) d
      else
        let* d := digest_entry (g_mem g) tag v d in io_digest_loop f g next ds d
  end.

Definition io_libraryDigestDynamic (g : ioglue) (library : Z) : outcome ioglue :=
  let* l := library_at g library in
  let* (g, ds, d) := io_digest_loop (string_fuel (g_mem g)) g (dynamic (il_img l)) (il_dependencies l) (digest_start (il_img l)) in
  Ok (g_with_lib g library (set_il_dependencies ds (set_il_img (digest_finish d) l))).

(** ** Reference counts *)

Definition io_libraryRetain (g : ioglue) (library : Z) : outcome ioglue :=
  let* l := library_at g library in
  if il_lock l then Hang else Ok (g_with_lib g library (set_il_count false (u32 (il_refCount l + 1)) l)).

Definition io_storeRemoveLibrary (g : ioglue) (library : Z) : outcome ioglue :=
  store_lock g (fun g => let* l := library_at g library in Ok (g_with_store g (delete (il_name l) (g_store g)))).

Definition io_storeLibraryWithName (g : ioglue) (name : list Z) : outcome Z :=
  store_lock g (fun g => Ok (default NULL (g_store g !! name))).

(** [list_destroy] of the dependencies. *)
Fixpoint free_entries (s : Sys) (ds : list io_dependency_s) : outcome Sys :=
  match ds with
  | [] => Ok s
  | d :: ds => let* s := io_hfree s (dn_at d) in free_entries s ds
  end.

Definition free_dependencies (s : Sys) (l : io_library_t) : outcome Sys :=
  let* s := free_entries s (il_dependencies l) in io_hfree s (il_dependenciesAt l).

(** The last reference: the pages, the path and the list go; the structure
    stays, and it stays locked. *)
Definition library_dispose (g : ioglue) (library : Z) (l : io_library_t) : outcome ioglue :=
  let* g := io_storeRemoveLibrary g library in
  let (m, s) := if il_vmemory l =? 0 then (g_mem g, g_sys g) else io_vm_free (g_sys g) (g_mem g) (il_vmemory l) (il_pages l) in
  let s := if il_pmemory l =? 0 then s else io_pm_free s (il_pmemory l) (il_pages l) in
  let* s := io_hfree s (il_pathAt l) in
  let* s := free_dependencies s l in
  Ok (g_with_mem g m s).

Section Release.
Context (release : ioglue -> Z -> outcome ioglue).

Fixpoint release_all (g : ioglue) (ds : list io_dependency_s) : outcome ioglue :=
  match ds with
  | [] => Ok g
  | d :: ds => let* g := release g (dn_library d) in release_all g ds
  end.
End Release.

(** [fuel] bounds the depth of the dependencies. *)
Fixpoint io_libraryRelease (fuel : nat) (g : ioglue) (library : Z) : outcome ioglue :=
  let* l := library_at g library in
  if il_lock l then Hang else
  let count := u32 (il_refCount l - 1) in
  if count =? 0 then
    match fuel with
    | O => Hang
    | S f =>
        let g := g_with_lib g library (set_il_count true count l) in
        let* g := release_all (io_libraryRelease f) g (il_dependencies l) in
        library_dispose g library l
    end
  else Ok (g_with_lib g library (set_il_count false count l)).

(** ** Linking (iolibrary.c, iostore.c) *)

Fixpoint resolve_dependencies (g : ioglue) (img : elf_image) (ds : list io_dependency_s) : outcome (list io_dependency_s * ioglue) :=
  match ds with
  | [] => Ok ([], g)
  | d :: ds =>
      let* name := cstring (g_mem g) (u32 (strtab img + dn_name d)) in
      let* other := io_storeLibraryWithName g name in
      if other =? NULL then Panic else
      let* g := io_libraryRetain g other in
      let* (ds, g) := resolve_dependencies g img ds in
      Ok (IoDependency (dn_at d) (dn_name d) other :: ds, g)
  end.

(** The counts may change while the dependencies are resolved, the list of the
    library itself only here. *)
Definition io_libraryResolveDependencies (g : ioglue) (library : Z) : outcome ioglue :=
  let* l := library_at g library in
  let* (ds, g) := resolve_dependencies g (il_img l) (il_dependencies l) in
  let* l := library_at g library in
  Ok (g_with_lib g library (set_il_dependencies ds l)).

Definition io_storeAddLibrary (fuel : nat) (g : ioglue) (library : Z) : outcome (bool * ioglue) :=
  store_lock g (fun g =>
  let* l := library_at g library in
  if bool_decide (is_Some (g_store g !! il_name l)) then Ok (true, g) else
  let g := g_with_store g (<[il_name l := library]> (g_store g)) in
  let* g := io_libraryResolveDependencies g library in
  let* (rel1, e, m) := io_libraryRelocateNonPLT (g_libs g) (g_kernel g) fuel (g_mem g) (g_exported g) library in
  let* (rel2, e, m) := io_libraryRelocatePLT (g_libs g) (g_kernel g) fuel m e library in
  let g := g_with_exported g m e in
  if negb rel1 || negb rel2 then let* g := io_storeRemoveLibrary g library in Ok (false, g) else Ok (true, g)).

(** The libraries in the order of the tree's iterator. *)
Fixpoint library_containing (g : ioglue) (ls : list Z) (address : Z) : outcome Z :=
  match ls with
  | [] => Ok NULL
  | library :: ls =>
      let* l := library_at g library in
      if (il_vmemory l <=? address) && (address <=? u32 (il_vmemory l + u32 (il_pages l * VM_PAGE_SIZE))) then Ok library
      else library_containing g ls address
  end.

Definition io_storeLibraryWithAddress (g : ioglue) (ls : list Z) (address : Z) : outcome Z :=
  store_lock g (fun g => library_containing g ls address).

(** The variant for the panic handler does not wait. *)
Definition __io_storeLibraryWithAddress (g : ioglue) (ls : list Z) (address : Z) : outcome Z :=
  if g_storeLock g then Ok NULL else library_containing g ls address.

(** The functions called, in order. *)
Fixpoint init_functions (n : nat) (m : mem) (p : Z) : outcome (list Z) :=
  match n with
  | O => Ok []
  | S n' =>
      let* ptr := ld32 m p in
      let* rest := init_functions n' m (u32 (p + 4)) in
      Ok (if (ptr =? 0) || (ptr =? UINT32_MAX) then rest else ptr :: rest)
  end.

Definition io_storeCallInitFunctions (g : ioglue) (library : Z) : outcome (list Z) :=
  let* l := library_at g library in
  init_functions (Z.to_nat (initArrayCount (il_img l))) (g_mem g) (initArray (il_img l)).

(** ** Loading (iolibrary.c) *)

(** [sys_fileWithoutPath]: the search for the last slash stops before the first
    character. *)
Fixpoint after_slash (s : list Z) (rest : list Z) : option (list Z) :=
  match s with
  | [] => None
  | c :: s => if c =? 47 then Some rest else after_slash s (c :: rest)
  end.

Definition file_name (path : list Z) : list Z :=
  match path with
  | [] => []
  | c :: s => default path (after_slash (rev s) [])
  end.

Fixpoint load_segments (m : mem) (buffer target min : Z) (ps : list Z) : outcome mem :=
  match ps with
  | [] => Ok m
  | program :: ps => let* m := load_segment m buffer target min program in load_segments m buffer target min ps
  end.

Definition is_library (m : mem) (buffer : Z) : outcome bool :=
  let* magic := literal_prefix m [127; 69; 76; 70] buffer in
  let* type := e_type m buffer in
  Ok (magic && (type =? ET_DYN)).

(** Memory for a new library: the structure, its path and its list. *)
Definition new_library (g : ioglue) (path : list Z) : outcome (option Z * ioglue) :=
  let* (library, s) := io_halloc (g_sys g) sizeof_io_library in
  if library =? NULL then Ok (None, g_with_mem g (g_mem g) s) else
  let* (pathAt, s) := io_halloc s (Z.of_nat (length path) + 1) in
  let* (list, s) := io_halloc s sizeof_list in
  if (pathAt =? NULL) || (list =? NULL) then
    let* s := if pathAt =? NULL then Ok s else io_hfree s pathAt in
    let* s := if list =? NULL then Ok s else io_hfree s list in
    Ok (None, g_with_mem g (g_mem g) s)
  else
    let l := IoLibrary (file_name path) path pathAt zero_image list [] 0 0 0 false 1 in
    Ok (Some library, g_with_lib (g_with_mem g (g_mem g) s) library l).

(** [ptload] has two slots: a third loadable segment is written past it. *)
Definition place_library (fuel : nat) (g : ioglue) (library buffer : Z) : outcome (Z * ioglue) :=
  let m := g_mem g in
  let* l := library_at g library in
  let* phoff := e_phoff m buffer in
  let* phnum := e_phnum m buffer in
  let* sg := scan_headers (Z.to_nat phnum) m (u32 (buffer + phoff)) (Segments UINT32_MAX 0 0 []) in
  if (2 <? length (ptload sg))%nat then Fault else
  let pages := VM_PAGE_COUNT (u32 (maxAddress sg - minAddress sg)) in
  let img := set_dynamic (sg_dynamic sg) (il_img l) in
  let (pmemory, s) := io_pm_alloc (g_sys g) pages in
  let g := g_with_lib (g_with_mem g m s) library (set_il_memory pages pmemory 0 (set_il_img img l)) in
  if pmemory =? 0 then let* g := io_libraryRelease fuel g library in Ok (NULL, g) else
  let '(vmemory, m, s) := io_vm_alloc s m pmemory pages in
  let g := g_with_lib (g_with_mem g m s) library (set_il_memory pages pmemory vmemory (set_il_img img l)) in
  if vmemory =? 0 then let* g := io_libraryRelease fuel g library in Ok (NULL, g) else
  let* m := memset m vmemory 0 (u32 (pages * VM_PAGE_SIZE)) in
  let* m := load_segments m buffer vmemory (minAddress sg) (ptload sg) in
  let base := u32 (vmemory - minAddress sg) in
  let dyn := sg_dynamic sg in
  let img := set_dynamic (if dyn =? NULL then dyn else u32 (base + dyn)) (set_base base img) in
  let g := g_with_lib (g_with_mem g m s) library (set_il_memory pages pmemory vmemory (set_il_img img l)) in
  let* g := if dyn =? NULL then Ok g else io_libraryDigestDynamic g library in
  Ok (library, g).

Definition io_libraryCreate (fuel : nat) (g : ioglue) (path : list Z) (buffer : Z) : outcome (Z * ioglue) :=
  let* (library, g) := new_library g path in
  match library with
  | None => Ok (NULL, g)
  | Some library =>
      let* l := library_at g library in
      let* ok := is_library (g_mem g) buffer in
      if negb ok then
        let* s := io_hfree (g_sys g) (il_pathAt l) in
        let* s := free_dependencies s l in
        Ok (NULL, g_with_mem g (g_mem g) s)
      else place_library fuel g library buffer
  end.

(** The loop ends when nothing is left; an error counts as a negative number of
    bytes. *)
Fixpoint read_file (fuel : nat) (s : Sys) (m : mem) (fd temp left : Z) : outcome (mem * Sys) :=
  if left =? 0 then Ok (m, s) else
  match fuel with
  | O => Hang
  | S f => let '(read, m, s) := io_read s m fd temp left in read_file f s m fd (u32 (temp + read)) (u32 (left - read))
  end.

Definition io_libraryCreateWithFile (fuel : nat) (g : ioglue) (file : list Z) : outcome (Z * ioglue) :=
  let (fd, s) := io_open (g_sys g) file in
  if fd <? 0 then Ok (NULL, g_with_mem g (g_mem g) s) else
  let (size, s) := io_seek s fd 0 SEEK_END in
  let size := u32 size in
  let pages := VM_PAGE_COUNT size in
  let '(buffer, m, s) := io_mm_alloc s (g_mem g) pages in
  let (_, s) := io_seek s fd 0 SEEK_SET in
  let* (m, s) := read_file (S (Z.to_nat size)) s m fd buffer size in
  let* (library, g) := io_libraryCreate fuel (g_with_mem g m s) file buffer in
  let (m, s) := io_mm_free (g_sys g) (g_mem g) buffer pages in
  Ok (library, g_with_mem g m (io_close s fd)).

(** ** Starting up (iostore.c) *)

Definition str_libkernel : list Z := chars "/lib/libkernel.so".
Definition str_libio : list Z := chars "/lib/libio.so".

(** [io_initStubs]: the memory taken is not cleared, so the stub starts with
    [stale] and the table of symbols with [entries]. *)
Definition io_initStubs (stale : kernel_stub) (entries : list Z) (g : ioglue) (header : Z) : outcome (bool * ioglue) :=
  let* (library, s) := io_halloc (g_sys g) sizeof_io_library in
  let g := g_with_mem g (g_mem g) s in
  if library =? NULL then Ok (true, g) else
  let m := g_mem g in
  let* shoff := e_shoff m header in
  let* shnum := e_shnum m header in
  let* shstrndx := e_shstrndx m header in
  let* k := stub_sections (Z.to_nat shnum) m header shstrndx (u32 (header + shoff)) 0 (KernelStub (ks_img stale) (ks_symbols stale) library) in
  let* (table, s) := io_halloc s (Z.of_nat (length __io_exportedSymbolNames) * 4) in
  let k := KernelStub (set_base 0 (ks_img k)) (ks_symbols k) library in
  let ok := negb (strtab (ks_img k) =? NULL) && negb (symtab (ks_img k) =? NULL) && negb (table =? NULL) in
  Ok (ok, Glue m s (g_libs g) (g_store g) (g_storeLock g) k entries).

(** The libraries and what is called: their initial functions and then
    [libio_init], whose result is that of [io_init]. *)
Definition load_essential (fuel : nat) (g : ioglue) (name : Z) : outcome (option (list Z * Z) * ioglue) :=
  let* (libkernel, g) := io_libraryCreateWithFile fuel g str_libkernel in
  let* (libio, g) := io_libraryCreateWithFile fuel g str_libio in
  if (libkernel =? NULL) || (libio =? NULL) then Ok (None, g) else
  let* (result1, g) := io_storeAddLibrary fuel g libkernel in
  let* (result2, g) := io_storeAddLibrary fuel g libio in
  if negb result1 || negb result2 then Ok (None, g) else
  let* calls1 := io_storeCallInitFunctions g libkernel in
  let* calls2 := io_storeCallInitFunctions g libio in
  let* l := library_at g libio in
  let* init := io_libraryFindSymbol (g_mem g) (il_img l) name in
  if init =? NULL then Ok (None, g) else Ok (Some (calls1 ++ calls2, init), g).
End Glue.
Arguments ioglue Sys : clear implicits.
