(* ===== verification/IoLibraryCorrect.v ===== *)
(** * Linking drivers is correct

    The order in which the store searches for a symbol (the kernel's exported
    ones, then the dependencies breadth first, then the library itself), the
    symbol closest to an address, and the order of names the tree relies on. *)

From S2P Require Import Prelude CString Elf ElfLink ElfReloc Linkd LinkdCorrect ATreeModel IoLibrary.

(** ** The closest symbol *)

Section Closest.
Context (ro : mem) (img : elf_image) (T : symbols) (HT : hash_table ro img T).
Context (m : mem) (Hs : ro ⊆ m) (limit : Z).

(** The best of the symbols [l] and of [best]. *)
Definition best_of (l : list Z) (before after : option (Z * Z)) : Prop :=
  match after with
  | None => before = None /\ forall i s v, i ∈ l -> T !! i = Some (s, v) -> limit < v
  | Some (_, b) => (after = before \/ exists i s, i ∈ l /\ T !! i = Some (s, b) /\ b <= limit)
      /\ (forall i s v, i ∈ l -> T !! i = Some (s, v) -> v <= limit -> v <= b)
      /\ forall p c, before = Some (p, c) -> c <= b
  end.

Lemma closer_best x s v best : T !! x = Some (s, v) -> best_of [x] best (closer best (sym_at img x) v limit).
Proof.
  intros Hx. unfold closer. destruct (Z.leb_spec v limit) as [Hle|Hgt].
  - destruct best as [[p b]|].
    + destruct (Z.ltb_spec b v); cbn; (split; [|split]).
      * right. exists x, s. rewrite list_elem_of_singleton. done.
      * intros i t w ->%list_elem_of_singleton Hw _. rewrite Hx in Hw. injection Hw as _ <-. lia.
      * intros q c [= _ <-]. lia.
      * by left.
      * intros i t w ->%list_elem_of_singleton Hw _. rewrite Hx in Hw. injection Hw as _ <-. lia.
      * intros q c [= _ <-]. lia.
    + cbn. split; [|split; [|done]].
      * right. exists x, s. rewrite list_elem_of_singleton. done.
      * intros i t w ->%list_elem_of_singleton Hw _. rewrite Hx in Hw. injection Hw as _ <-. lia.
  - destruct best as [[p b]|]; cbn.
    + split; [by left|]. split; [|intros q c [= _ <-]; lia].
      intros i t w ->%list_elem_of_singleton Hw Hle. rewrite Hx in Hw. injection Hw as _ <-. lia.
    + split; [done|]. intros i t w ->%list_elem_of_singleton Hw. rewrite Hx in Hw. injection Hw as _ <-. lia.
Qed.

Lemma best_of_app l1 l2 a b c : best_of l1 a b -> best_of l2 b c -> best_of (l1 ++ l2) a c.
Proof.
  intros H1 H2. destruct c as [[p3 c]|]; cbn in *.
  - destruct H2 as (Hin2 & Hmax2 & Hge2). destruct b as [[p2 b]|]; cbn in H1.
    + destruct H1 as (Hin1 & Hmax1 & Hge1). specialize (Hge2 _ _ eq_refl). split; [|split].
      * destruct Hin2 as [[= -> ->]|(i & s & Hi & HTi & Hle)]; [|right; exists i, s; rewrite elem_of_app; auto].
        destruct Hin1 as [<-|(i & s & Hi & HTi & Hle)]; [by left|right; exists i, s; rewrite elem_of_app; auto].
      * intros i s v [Hi|Hi]%elem_of_app Hv Hle; [specialize (Hmax1 i s v Hi Hv Hle); lia|by eapply Hmax2].
      * intros q d Ea. specialize (Hge1 _ _ Ea). lia.
    + destruct H1 as [-> Hgt]. split; [|split; [|done]].
      * destruct Hin2 as [?|(i & s & Hi & HTi & Hle)]; [done|]. right. exists i, s. rewrite elem_of_app. auto.
      * intros i s v [Hi|Hi]%elem_of_app Hv Hle; [specialize (Hgt i s v Hi Hv); lia|by eapply Hmax2].
  - destruct H2 as [-> Hgt2]. destruct H1 as [-> Hgt1]. split; [done|].
    intros i s v [Hi|Hi]%elem_of_app Hv; [by eapply Hgt1|by eapply Hgt2].
Qed.

Lemma best_of_nil a : best_of [] a a.
Proof. destruct a as [[p b]|]; cbn; [|split; [done|]; by intros i s v []%not_elem_of_nil].
  split; [by left|]. split; [by intros i s v []%not_elem_of_nil|]. intros q c [= _ <-]. lia. Qed.

Lemma closest_chain_spec x l : chain ro img x l -> (forall i, i ∈ l -> is_Some (T !! i)) ->
  forall fuel best, (length l <= fuel)%nat -> exists best', closest_chain fuel m img limit x best = Ok best' /\ best_of l best best'.
Proof using HT Hs.
  induction 1 as [|x next l Hx Hn Hc IH]; intros HTl fuel best Hf.
  - exists best. destruct fuel; (split; [done|apply best_of_nil]).
  - destruct fuel as [|fuel]; [cbn in Hf; lia|]. cbn [closest_chain]. rewrite (proj2 (Z.eqb_neq x 0)) by done.
    destruct (HTl x) as [[t v] Hx']; [left|]. destruct (ht_symbol ro img T HT x t v Hx') as (n & _ & Hv & _).
    unfold st_value. rewrite (mono_ld32 _ ro m v Hs (ld32_word _ _ _ Hv)). cbn [obind].
    rewrite (mono_ld32 _ ro m next Hs (ld32_word _ _ _ Hn)). cbn [obind].
    destruct (IH ltac:(intros i Hi; apply HTl; by right) fuel (closer best (sym_at img x) v limit) ltac:(cbn in Hf; lia)) as (b & E & Hb).
    exists b. split; [done|]. apply (best_of_app [x] l _ (closer best (sym_at img x) v limit)); [by eapply closer_best|done].
Qed.

(** The symbols of the buckets before [b]. *)
Definition in_buckets (lo hi i : Z) : Prop :=
  i <> 0 /\ exists s v, T !! i = Some (s, v) /\ lo <= hash_of s mod nbuckets img < hi.

Lemma closest_buckets_spec n : forall b best, 0 <= b -> b + Z.of_nat n = nbuckets img ->
  exists best' l, closest_buckets n m img limit b best = Ok best' /\ best_of l best best' /\ forall i, i ∈ l <-> in_buckets b (nbuckets img) i.
Proof using HT Hs.
  induction n as [|n IH]; intros b best Hb Hn.
  - exists best, []. split; [done|]. split; [apply best_of_nil|]. intros i. split; [by intros []%not_elem_of_nil|].
    intros (_ & s & v & _ & Hh). lia.
  - cbn [closest_buckets]. destruct (ht_bucket ro img T HT b ltac:(lia)) as (x & l & Hx & Hc & Hl).
    rewrite (mono_ld32 _ ro m x Hs (ld32_word _ _ _ Hx)). cbn [obind].
    destruct (closest_chain_spec x l Hc) with (fuel := string_fuel m) (best := best) as (b1 & E & H1).
    { intros i (_ & t & v & Hi & _)%Hl. by eexists. }
    { pose proof (chain_length ro img x l Hc). pose proof (map_subseteq_size ro m Hs). unfold string_fuel. lia. }
    rewrite E. cbn [obind]. destruct (IH (b + 1) b1 ltac:(lia) ltac:(lia)) as (b2 & l2 & E2 & H2 & Hl2).
    exists b2, (l ++ l2). split; [done|]. split; [by eapply best_of_app|]. intros i. rewrite elem_of_app, Hl, Hl2. unfold in_buckets. split.
    + intros [(Hi & s & v & Hv & Hh)|(Hi & s & v & Hv & Hh)]; (split; [done|]); exists s, v; (split; [done|lia]).
    + intros (Hi & s & v & Hv & Hh). destruct (Z.eq_dec (hash_of s mod nbuckets img) b); [left|right]; (split; [done|]); exists s, v; (split; [done|lia]).
Qed.
End Closest.

(** The symbol an address belongs to: the result is the base plus the largest
    value of a symbol that is not above the address, and zero when all of them
    are above it. *)
Theorem resolveAddress_closest ro img T m address : hash_table ro img T -> ro ⊆ m ->
  exists r, io_libraryResolveAddress m img address = Ok r /\
    let x := u32 (address - relocBase img) in
    (r = 0 /\ (forall i s v, i <> 0 -> T !! i = Some (s, v) -> x < v)) \/
    exists i s v, i <> 0 /\ T !! i = Some (s, v) /\ v <= x /\ r = u32 (relocBase img + v) /\
      forall j t w, j <> 0 -> T !! j = Some (t, w) -> w <= x -> w <= v.
Proof.
  intros HT Hs. pose proof (ht_nbuckets ro img T HT) as Hnb. unfold io_libraryResolveAddress. set (x := u32 _).
  destruct (closest_buckets_spec ro img T HT m Hs x (Z.to_nat (nbuckets img)) 0 None ltac:(lia) ltac:(lia)) as (best & l & -> & Hb & Hl).
  cbn [obind]. assert (Hall : forall i s v, i <> 0 -> T !! i = Some (s, v) -> i ∈ l).
  { intros i s v Hi Hv. apply Hl. split; [done|]. exists s, v. split; [done|]. apply Z.mod_pos_bound. lia. }
  eexists. split; [done|]. cbv zeta. destruct best as [[p b]|]; cbn in Hb.
  - right. destruct Hb as ([?|(i & s & Hi & HTi & Hle)] & Hmax & _); [done|]. exists i, s, b.
    pose proof (proj1 (Hl i) Hi) as [Hi0 _]. split_and!; try done. intros j t w Hj Hw Hwx. eapply Hmax; [|exact Hw|done]. by eapply Hall.
  - left. split; [done|]. intros i s v Hi Hv. eapply (proj2 Hb); [|exact Hv]. by eapply Hall.
Qed.

Lemma resolveAddress_closest_witness : io_libraryResolveAddress demo lib_image 4200 = Ok 4160.
Proof.
  destruct (resolveAddress_closest demo_ro lib_image lib_symbols demo 4200 lib_table demo_above)
    as (r & E & [[_ Hn]|(i & s & v & Hi & Hv & _ & -> & Hmax)]).
  - specialize (Hn 1 [102] 0 ltac:(done) eq_refl). vm_compute in Hn. discriminate Hn.
  - rewrite E. apply lib_symbols_cases in Hv as [(-> & -> & ->)|(-> & -> & ->)]; [reflexivity|].
    specialize (Hmax 2 [103] 64 ltac:(done) eq_refl ltac:(vm_compute; discriminate)). lia.
Defined.

(** ** The kernel's symbols *)

Section Kernel.
Context (ro : mem) (k : kernel_stub) (names : list (option (list Z))).
Let img := ks_img k.

(** The kernel's symbol table: the name of every symbol that has one. *)
Definition kernel_name (i : nat) (o : option (list Z)) : Prop :=
  exists n, word_at ro (u32 (symtab img + 16 * Z.of_nat i)) n /\ u32 (symtab img + 16 * Z.of_nat i) <> NULL /\
    match o with
    | None => strtabSize img <= n \/ n = 0
    | Some s => n < strtabSize img /\ n <> 0 /\ cstr ro (u32 (strtab img + n)) s /\ u32 (strtab img + n) <> NULL
    end.

Definition kernel_table : Prop :=
  is_u32 (symtab img) /\ Z.of_nat (length names) = ks_symbols k /\ forall i o, names !! i = Some o -> kernel_name i o.

(** The first symbol with the name. *)
Definition first_named (s : list Z) (i : nat) : Prop :=
  names !! i = Some (Some s) /\ forall j, (j < i)%nat -> names !! j <> Some (Some s).

Definition kernel_symbol (i : nat) : Z := u32 (symtab img + 16 * Z.of_nat i).

(** The table of symbols already looked up holds nothing else. *)
Definition exported_ok (exported : list Z) : Prop :=
  length exported = length __io_exportedSymbolNames /\
  forall j a, exported !! j = Some a -> a = NULL \/
    exists s i, __io_exportedSymbolNames !! j = Some s /\ first_named s i /\ a = kernel_symbol i.

Section Name.
Context (m : mem) (Hs : ro ⊆ m) (name : Z) (s : list Z) (Hname : cstr m name s) (Hnn : name <> NULL).

Lemma kernel_symbols_spec rest : forall i, kernel_table -> names = take i names ++ rest ->
  (forall j, (j < i)%nat -> names !! j <> Some (Some s)) -> (i + length rest = length names)%nat ->
  exists p, kernel_symbols (length rest) m img name (kernel_symbol i) = Ok p /\
    ((p = NULL /\ forall j, names !! j <> Some (Some s)) \/ exists j, first_named s j /\ p = kernel_symbol j /\ p <> NULL).
Proof.
  induction rest as [|o rest IH]; intros i HK En Hbefore Hlen.
  - exists NULL. split; [done|]. left. split; [done|]. intros j Hj. destruct (decide (j < i)%nat); [by eapply Hbefore|].
    apply lookup_lt_Some in Hj. cbn in Hlen. lia.
  - assert (Hi : names !! i = Some o).
    { rewrite En, lookup_app_r; rewrite length_take; [|lia]. replace (i - _)%nat with 0%nat by lia. done. }
    destruct (proj2 (proj2 HK) i o Hi) as (n & Hn & Hnz & Ho). cbn [kernel_symbols length]. fold (kernel_symbol i) in Hn, Hnz.
    unfold st_name. rewrite (mono_ld32 _ ro m n Hs (ld32_word _ _ _ Hn)). cbn [obind].
    assert (Enext : u32 (kernel_symbol i + sizeof_elf_sym_t) = kernel_symbol (S i)).
    { unfold kernel_symbol, sizeof_elf_sym_t. rewrite u32_add_l. f_equal. lia. }
    assert (Erest : names = take (S i) names ++ rest).
    { rewrite (take_S_r _ _ o Hi), <- app_assoc. done. }
    rewrite Enext. destruct o as [t|].
    + destruct Ho as (Hlt & Hn0 & Ht & Ht0). rewrite (proj2 (Z.leb_gt _ _) Hlt), (proj2 (Z.eqb_neq n 0) Hn0). cbn [orb].
      destruct (strcmp_zero m _ name t s (cstr_mono ro m _ t Hs Ht) Hname Ht0 Hnn) as (c & -> & Hc). cbn [obind].
      destruct (Z.eqb_spec c 0) as [E|E].
      * apply Hc in E as ->. exists (kernel_symbol i). split; [done|]. right. exists i. done.
      * apply (IH (S i)); [done..| |cbn in Hlen; lia]. intros j Hj. destruct (decide (j = i)) as [->|]; [|apply Hbefore; lia].
        rewrite Hi. intros [= ->]. by apply E, Hc.
    + assert (((strtabSize img <=? n) || (n =? 0)) = true) as ->.
      { destruct Ho as [Ho| ->]; [by rewrite (proj2 (Z.leb_le _ _) Ho)|apply orb_true_r]. }
      apply (IH (S i)); [done..| |cbn in Hlen; lia]. intros j Hj. destruct (decide (j = i)) as [->|]; [|apply Hbefore; lia]. by rewrite Hi.
Qed.

Lemma literal_is_spec t : forall p u, cstr m p u -> Forall (fun c => c <> 0) t -> literal_is m t p = Ok (bool_decide (u = t)).
Proof.
  induction t as [|d t IH]; intros p u Hu Ht; cbn [literal_is].
  - destruct u as [|c u]; [by rewrite (cstr_nil _ _ Hu)|]. destruct (cstr_cons _ _ _ _ Hu) as (-> & Hc & _). cbn [obind].
    rewrite (proj2 (Z.eqb_neq c 0)) by lia. by rewrite bool_decide_eq_false_2.
  - apply Forall_cons in Ht as [Hd Ht]. destruct u as [|c u].
    + rewrite (cstr_nil _ _ Hu). cbn [obind]. rewrite (proj2 (Z.eqb_neq 0 d)) by done. by rewrite bool_decide_eq_false_2.
    + destruct (cstr_cons _ _ _ _ Hu) as (-> & Hc & Hu' & ->). cbn [obind]. destruct (Z.eqb_spec c d) as [->|Hne].
      * rewrite (IH _ u Hu' Ht). f_equal. apply bool_decide_ext. split; congruence.
      * rewrite bool_decide_eq_false_2 by congruence. done.
Qed.

Lemma exported_index_spec ts : forall i, Forall (Forall (fun c => c <> 0)) ts ->
  exists r, exported_index m ts name i = Ok r /\
    match r with Some j => exists n, j = (i + n)%nat /\ ts !! n = Some s | None => s ∉ ts end.
Proof.
  induction ts as [|t ts IH]; intros i Hts; cbn [exported_index].
  - exists None. split; [done|]. apply not_elem_of_nil.
  - apply Forall_cons in Hts as [Ht Hts]. rewrite (literal_is_spec t name s Hname Ht). cbn [obind].
    destruct (bool_decide_reflect (s = t)) as [->|Hne].
    + exists (Some i). split; [done|]. exists 0%nat. split; [lia|done].
    + destruct (IH (S i) Hts) as (r & -> & Hr). exists r. split; [done|]. destruct r as [j|].
      * destruct Hr as (n & -> & Hn). exists (S n). split; [lia|done].
      * by rewrite not_elem_of_cons.
Qed.

Lemma exported_names_ok : Forall (Forall (fun c => c <> 0)) __io_exportedSymbolNames.
Proof. vm_compute. repeat constructor; discriminate. Qed.

(** A driver gets a symbol of the kernel exactly when its name is on the list of
    exported ones and the kernel has it; it is the first with that name, whether
    it was looked up before or not. *)
Lemma findKernelSymbol_spec exported : kernel_table -> exported_ok exported ->
  exists p exported', io_findKernelSymbol k m exported name = Ok (p, exported') /\ exported_ok exported' /\
    ((p = NULL /\ ~ (s ∈ __io_exportedSymbolNames /\ exists i, first_named s i)) \/
     exists i, s ∈ __io_exportedSymbolNames /\ first_named s i /\ p = kernel_symbol i /\ p <> NULL).
Proof.
  intros HK [Hlen Hex]. unfold io_findKernelSymbol. rewrite (proj2 (Z.eqb_neq name NULL) Hnn).
  destruct (exported_index_spec __io_exportedSymbolNames 0 exported_names_ok) as (r & -> & Hr). cbn [obind].
  destruct r as [j|]; [|exists NULL, exported; split_and!; [done..|]; left; split; [done|]; by intros [? _]].
  destruct Hr as (n & Ej & Hn). cbn in Ej. subst j. pose proof (list_elem_of_lookup_2 _ _ _ Hn) as Hin.
  destruct (lookup_lt_is_Some_2 exported n) as [a Ha]; [rewrite Hlen; by eapply lookup_lt_Some|]. rewrite Ha. cbn [of_option obind].
  destruct (Z.eqb_spec a NULL) as [->|Hne]; cbn [negb].
  - destruct HK as (Hsym & Hcount & HT). replace (Z.to_nat (ks_symbols k)) with (length names) by lia.
    destruct (kernel_symbols_spec names 0 (conj Hsym (conj Hcount HT))) as (p & E & Hp); [done|lia|done|].
    assert (E0 : kernel_symbol 0 = symtab img) by (unfold kernel_symbol; rewrite Z.mul_0_r, Z.add_0_r; by apply u32_small).
    rewrite E0 in E. change (ks_img k) with img. rewrite E. cbn [obind]. destruct Hp as [[-> Hnone]|(i & Hi & -> & Hp0)].
    + exists NULL, exported. split_and!; [done..|]. left. split; [done|]. intros [_ (i & Hi & _)]. by apply (Hnone i).
    + rewrite (proj2 (Z.eqb_neq _ _) Hp0). eexists _, _. split; [done|]. split; [|right; by exists i].
      split; [by rewrite length_insert|]. intros j a [(<- & <- & _)|[Hne Hj]]%list_lookup_insert_Some; [right; by exists s, i|by apply Hex].
  - destruct (Hex n a Ha) as [?|(t & i & Ht & Hi & ->)]; [done|]. rewrite Hn in Ht. injection Ht as <-.
    exists (kernel_symbol i), exported. split_and!; [done..|]. right. by exists i.
Qed.
End Name.
End Kernel.

(** ** The search order *)

(** The images, for the search of LinkdCorrect. *)
Definition as_linkd (l : io_library_t) : library_t :=
  Library (il_pathAt l) (il_name l) (il_img l) NULL 0 (il_pages l) (il_vmemory l) (il_refCount l) NULL.

Section Order.
Context (libs : gmap Z io_library_t) (kernel : kernel_stub) (ro : mem) (tables : gmap Z symbols).
Let images := as_linkd <$> libs.
Abbreviation known := (searchable images ro tables).

Definition deps_of (c : Z) : list Z := match libs !! c with Some l => dn_library <$> il_dependencies l | None => [] end.

(** The dependencies of the libraries of a list. *)
Definition next_level (q : list Z) : list Z := q ≫= deps_of.

(** [n] levels, one after the other. *)
Fixpoint levels (n : nat) (q : list Z) : list Z :=
  match n with O => [] | S n => next_level q ++ levels n (next_level q) end.

Definition has_deps (c : Z) : bool := match deps_of c with [] => false | _ => true end.

Lemma next_level_filter q : next_level (filter (fun c => has_deps c = true) q) = next_level q.
Proof.
  unfold next_level. induction q as [|c q IH]; [done|]. rewrite filter_cons. unfold has_deps at 1. case_decide as E; cbn [mbind list_bind].
  - by rewrite IH.
  - destruct (deps_of c); [done|by destruct E].
Qed.

Lemma next_level_app q1 q2 : next_level (q1 ++ q2) = next_level q1 ++ next_level q2.
Proof. apply bind_app. Qed.

Section Name.
Context (m : mem) (Hs : ro ⊆ m) (name : Z) (s : list Z) (Hname : cstr m name s) (Hnn : name <> NULL).
Abbreviation found := (search images tables s).

Lemma images_lookup c l : images !! c = Some l -> exists l', libs !! c = Some l' /\ l = as_linkd l'.
Proof. unfold images. rewrite lookup_fmap. intros (l' & Hl & ->)%fmap_Some. by exists l'. Qed.

Lemma search_dependencies_spec ds : forall queue, (forall c, c ∈ dn_library <$> ds -> known c) ->
  exists r queue', search_dependencies libs m name (hash_of s) ds queue = Ok (r, queue') /\ found (dn_library <$> ds) r /\
    (r = None -> queue' = queue ++ filter (fun c => has_deps c = true) (dn_library <$> ds)).
Proof using Hs Hname Hnn.
  induction ds as [|d ds IH]; intros queue Hk; cbn [search_dependencies fmap list_fmap].
  - exists None, queue. split; [done|]. split; [constructor|]. by rewrite app_nil_r.
  - destruct (defined_symbol_provides images ro tables m Hs name s Hname Hnn (dn_library d)) as (l & Hl & Hd); [apply Hk; left|].
    apply images_lookup in Hl as (l' & Hl' & ->). rewrite Hl'. cbn [of_option obind as_linkd lb_img] in *.
    destruct Hd as [(sym & a & Hp & ->)|[Hno ->]]; cbn [obind].
    + eexists _, queue. split; [done|]. split; [by eapply search_here|done].
    + destruct (IH (match il_dependencies l' with [] => queue | _ => queue ++ [dn_library d] end)) as (r & q' & -> & Hr & Hq).
      { intros c Hc. apply Hk. by right. }
      exists r, q'. split; [done|]. split; [by apply search_next|]. intros Hnone. rewrite (Hq Hnone), filter_cons.
      assert (E : has_deps (dn_library d) = match il_dependencies l' with [] => false | _ => true end).
      { unfold has_deps, deps_of. rewrite Hl'. by destruct (il_dependencies l'). }
      rewrite E. destruct (il_dependencies l'); [by rewrite decide_False|]. rewrite decide_True by done. by rewrite <- app_assoc.
Qed.

(** The queue holds what is left of a level, [q1], and, behind it, the libraries
    of the next one, [q2], that have dependencies. *)
Definition tree_order (n : nat) (q1 q2 : list Z) : list Z := next_level q1 ++ levels n (q2 ++ next_level q1).

Definition tree_ok (n : nat) (q1 : list Z) : Prop := forall q2 fuel,
  Nat.iter n next_level (q2 ++ next_level q1) = [] -> (forall c, c ∈ tree_order n q1 q2 -> known c) ->
  (forall c, c ∈ q1 -> is_Some (libs !! c)) -> (forall c, c ∈ q2 -> known c) ->
  (length q1 + length q2 + length (tree_order n q1 q2) <= fuel)%nat ->
  exists r, search_tree libs fuel m name (hash_of s) (q1 ++ filter (fun c => has_deps c = true) q2) = Ok r /\ found (tree_order n q1 q2) r.

Lemma tree_step n c q1 : tree_ok n q1 -> tree_ok n (c :: q1).
Proof using Hs Hname Hnn.
  intros IH q2 fuel Hend Hk H1 H2 Hf.
  assert (Eo : tree_order n (c :: q1) q2 = deps_of c ++ tree_order n q1 (q2 ++ deps_of c)).
  { unfold tree_order. change (next_level (c :: q1)) with (deps_of c ++ next_level q1). by rewrite <- !app_assoc. }
  change (next_level (c :: q1)) with (deps_of c ++ next_level q1) in Hend. rewrite Eo in *. rewrite length_app in Hf. cbn [length] in Hf.
  destruct fuel as [|fuel]; [lia|]. destruct (H1 c) as [l Hl]; [left|]. cbn [search_tree app]. rewrite Hl. cbn [of_option obind].
  assert (Ed : deps_of c = dn_library <$> il_dependencies l) by (unfold deps_of; by rewrite Hl).
  destruct (search_dependencies_spec (il_dependencies l) (q1 ++ filter (fun c => has_deps c = true) q2)) as (r & q & -> & Hr & Hq).
  { intros d Hd. apply Hk. rewrite Ed, elem_of_app. by left. }
  rewrite <- Ed in *. cbn [obind]. destruct r as [r|]; [eexists; split; [done|by apply search_app_found]|].
  rewrite (Hq eq_refl), <- app_assoc, <- filter_app.
  destruct (IH (q2 ++ deps_of c) fuel) as (r & -> & Hr2).
  - by rewrite <- app_assoc.
  - intros d Hd. apply Hk. rewrite elem_of_app. by right.
  - intros d Hd. apply H1. by right.
  - intros d [Hd|Hd]%elem_of_app; [by apply H2|]. apply Hk. rewrite elem_of_app. by left.
  - rewrite length_app. lia.
  - exists r. split; [done|]. by apply search_app_missing.
Qed.

Lemma search_tree_spec n : forall q1, tree_ok n q1.
Proof using Hs Hname Hnn.
  induction n as [|n IHn]; intros q1; (induction q1 as [|c q1 IH]; [|by apply tree_step]); intros q2 fuel Hend Hk H1 H2 Hf;
    unfold tree_order in *; cbn [next_level mbind list_bind app] in *; rewrite app_nil_r in *.
  - cbn in Hend. subst q2. exists None. split; [by destruct fuel|constructor].
  - rewrite Nat.iter_succ_r in Hend. destruct (IHn (filter (fun c => has_deps c = true) q2) [] fuel) as (r & E & Hr);
      unfold tree_order in *; rewrite ?next_level_filter in *; try done.
    + intros c [_ Hc]%list_elem_of_filter. destruct (H2 c Hc) as (l & T & (l' & Hl & _)%images_lookup & _). by eexists.
    + by intros c []%not_elem_of_nil.
    + pose proof (length_filter (fun c => has_deps c = true) q2). cbn in *. lia.
    + exists r. split; [|done]. by rewrite app_nil_r in E.
Qed.
End Name.

(** A symbol another library refers to is looked for among the symbols the
    kernel exports, then in the dependencies, level by level, and last in the
    library itself; the first definition in that order is the one found.  A
    local symbol is the library's own.  When the levels end, as many rounds as
    there are libraries in them are enough. *)
Theorem storeLookupSymbol_order m exported names library l symNum s islocal n fuel :
  ro ⊆ m -> libs !! library = Some l -> refers images ro library symNum s islocal ->
  kernel_table ro kernel names -> exported_ok kernel names exported ->
  Nat.iter n next_level [library] = [] -> (forall c, c ∈ levels n [library] ++ [library] -> known c) ->
  (length (levels n [library]) < fuel)%nat ->
  exists r exported', io_storeLookupSymbol libs kernel fuel m exported library symNum = Ok (r, exported') /\
    exported_ok kernel names exported' /\
    if islocal : bool then r = Some (sym_at (il_img l) symNum, library) else
    (exists i, s ∈ __io_exportedSymbolNames /\ first_named names s i /\ r = Some (kernel_symbol kernel i, ks_address kernel)) \/
    (~ (s ∈ __io_exportedSymbolNames /\ exists i, first_named names s i) /\
     search images tables s (levels n [library] ++ [library]) r).
Proof.
  intros Hs Hl Href HK Hex Hend Hk Hf. destruct Href as (l' & v & info & Hl' & Hn & Hcs & Hnn & Hi & Hb).
  apply images_lookup in Hl' as (l'' & Hl' & ->). rewrite Hl in Hl'. injection Hl' as <-. cbn [as_linkd lb_img] in *.
  unfold io_storeLookupSymbol. rewrite Hl. cbn [of_option obind]. unfold st_name, st_info.
  rewrite (mono_ld32 _ ro m v Hs (ld32_word _ _ _ Hn)). cbn [obind]. unfold load. rewrite (lookup_weaken ro m _ _ Hi Hs). cbn [of_option obind].
  rewrite <- Hb. destruct islocal; [by eexists _, exported|].
  pose proof (cstr_mono ro m _ s Hs Hcs) as Hcm. rewrite (elf_hash_spec m _ s Hcm). cbn [obind].
  destruct (findKernelSymbol_spec ro kernel names m Hs _ s Hcm Hnn exported HK Hex) as (p & e' & -> & He' & [[-> Hno]|(i & Hin & Hfirst & -> & Hp)]); cbn [obind].
  2: { rewrite (proj2 (Z.eqb_neq _ _) Hp). cbn [negb]. eexists _, e'. split; [done|]. split; [done|]. left. by exists i. }
  change (NULL =? NULL) with true. cbn [negb].
  destruct n as [|n]; [done|]. rewrite Nat.iter_succ_r in Hend.
  destruct (search_tree_spec m Hs _ s Hcm Hnn n [library] [] fuel) as (r & E & Hr); unfold tree_order in *; cbn [app] in *.
  { done. }
  { intros c Hc. apply Hk. apply elem_of_app. by left. }
  { intros c ->%list_elem_of_singleton. by eexists. }
  { by intros c []%not_elem_of_nil. }
  { cbn [levels length] in *. lia. }
  cbn in E. rewrite E. cbn [obind]. change (next_level [library] ++ levels n (next_level [library])) with (levels (S n) [library]) in Hr.
  destruct r as [r|].
  { eexists _, e'. split; [done|]. split; [done|]. right. split; [done|]. by apply search_app_found. }
  destruct (defined_symbol_provides images ro tables m Hs _ s Hcm Hnn library) as (ll & (l2 & Hl2 & ->)%images_lookup & Hd).
  { apply Hk. apply elem_of_app. right. left. }
  rewrite Hl in Hl2. injection Hl2 as <-. cbn [as_linkd lb_img] in Hd.
  destruct Hd as [(sym & a & Hp & ->)|[Hnone ->]]; cbn [obind]; (eexists _, e'; split; [done|]; split; [done|]; right; split; [done|]);
    (apply search_app_missing; [done|]).
  - by eapply search_here.
  - apply search_next; [done|constructor].
Qed.
End Order.

(** ** The order of names *)

(** The comparison of the store's tree, on the characters. *)
Definition compare_names (s t : list Z) : Z := - Z.sgn (compare_strings s t).

Abbreviation character := (fun c => 0 < c < 256).

Lemma storeAtreeLookup_spec s : forall t fuel m p q, cstr m p s -> cstr m q t -> (length s <= fuel)%nat ->
  io_storeAtreeLookup fuel m p q = Ok (compare_names s t).
Proof.
  assert (Hdiff : forall c d, 0 <= c < 256 -> 0 <= d < 256 -> c <> d ->
    (if char d <? char c then Ok kCompareGreaterThan else Ok kCompareLesserThan) = Ok (- Z.sgn (char d - char c))).
  { intros c d Hc Hd Hne. assert (char c <> char d) by (intros E; by apply Hne, char_inj).
    destruct (Z.ltb_spec (char d) (char c)); f_equal; unfold kCompareGreaterThan, kCompareLesserThan; lia. }
  unfold compare_names. induction s as [|c s IH]; intros [|d t] fuel m p q Hp Hq Hf.
  - destruct fuel; cbn [io_storeAtreeLookup]; by rewrite (cstr_nil _ _ Hp), (cstr_nil _ _ Hq).
  - destruct (cstr_cons _ _ _ _ Hq) as (E & Hd & _). destruct fuel; cbn [io_storeAtreeLookup compare_strings];
      rewrite (cstr_nil _ _ Hp), E; cbn [obind]; rewrite (proj2 (Z.eqb_neq 0 d)), Hdiff by lia; do 3 f_equal; unfold char at 2; cbn; lia.
  - destruct (cstr_cons _ _ _ _ Hp) as (E & Hc & _). destruct fuel; cbn [io_storeAtreeLookup compare_strings];
      rewrite E, (cstr_nil _ _ Hq); cbn [obind]; rewrite (proj2 (Z.eqb_neq c 0)), Hdiff by lia; do 3 f_equal.
  - destruct (cstr_cons _ _ _ _ Hp) as (E1 & Hc & Hp' & Ep). destruct (cstr_cons _ _ _ _ Hq) as (E2 & Hd & Hq' & Eq).
    destruct fuel as [|fuel]; [cbn in Hf; lia|]. cbn [io_storeAtreeLookup compare_strings]. rewrite E1, E2. cbn [obind].
    destruct (Z.eqb_spec c d) as [->|Hne]; [|apply Hdiff; lia]. rewrite (proj2 (Z.eqb_neq d 0)), Ep, Eq by lia.
    apply IH; [done..|]. cbn in Hf. lia.
Qed.

Lemma compare_names_flip s : forall t, compare_names t s = - compare_names s t.
Proof.
  unfold compare_names. induction s as [|c s IH]; intros [|d t]; cbn [compare_strings]; [done|lia|lia|].
  rewrite (Z.eqb_sym d c). destruct (c =? d); [apply IH|]. lia.
Qed.

Lemma compare_names_trans s : forall t u, Forall character s -> Forall character t -> Forall character u ->
  compare_names s t <= 0 -> compare_names t u <= 0 -> compare_names s u <= 0.
Proof.
  unfold compare_names. induction s as [|c s IH]; intros [|d t] [|e u] Hs Ht Hu; cbn [compare_strings];
    repeat match goal with H : Forall _ (_ :: _) |- _ => apply Forall_cons in H as [? ?] end;
    repeat match goal with |- context [?a =? ?b] => destruct (Z.eqb_spec a b); subst end; try lia; try done.
  - pose proof (char_inj e 0) as Hz. change (char 0) with 0 in Hz. lia.
  - by apply IH.
  - pose proof (char_inj e d). lia.
Qed.

(** The comparison orders keys that are names, and only equal names compare
    equal: the tree of the store is a map from names. *)
Lemma names_comparator (name_of : Z -> list Z) : (forall k, Forall character (name_of k)) ->
  comparator (fun k1 k2 => compare_names (name_of k1) (name_of k2)) /\
  forall k1 k2, compare_names (name_of k1) (name_of k2) = 0 <-> name_of k1 = name_of k2.
Proof.
  intros Hn. split; [constructor|].
  - intros x y z. by apply compare_names_trans.
  - intros x y. rewrite (compare_names_flip (name_of x) (name_of y)). lia.
  - intros k1 k2. rewrite <- (compare_strings_zero (name_of k1) (name_of k2) (Hn k1) (Hn k2)). unfold compare_names. lia.
Qed.

(** ** The store at work *)

(** The library at 2 depends on the one at 1; the kernel exports nothing yet. *)
Definition store_lib (name : list Z) (img : elf_image) (ds : list Z) : io_library_t :=
  IoLibrary name name 0 img 0 (IoDependency 0 0 <$> ds) 1 0 0 false 1.
Definition store_libs : gmap Z io_library_t := <[2 := store_lib [108] lib_image [1]]> {[ 1 := store_lib [112] prog_image [] ]}.
Definition no_kernel : kernel_stub := KernelStub zero_image 0 9.
Definition no_symbols : list Z := replicate 29 NULL.

Lemma store_searchable c : c ∈ [1; 2] -> searchable (as_linkd <$> store_libs) demo_ro demo_tables c.
Proof.
  intros [->|[->|Hc%not_elem_of_nil]%elem_of_cons]%elem_of_cons; [| |done];
    (eexists _, _; split_and!; [reflexivity|reflexivity|apply prog_table || apply lib_table]).
Qed.

Lemma storeLookupSymbol_order_witness : exists r e, io_storeLookupSymbol store_libs no_kernel 2 demo no_symbols 2 1 = Ok (r, e)
  /\ search (as_linkd <$> store_libs) demo_tables [102] [1; 2] r.
Proof.
  destruct (storeLookupSymbol_order store_libs no_kernel demo_ro demo_tables demo no_symbols [] 2 (store_lib [108] lib_image [1]) 1 [102] false 2 2)
    as (r & e & E & _ & Hr).
  - exact demo_above.
  - reflexivity.
  - eexists _, 1, 18. split_and!; [reflexivity|evals..].
  - split; [done|]. split; [reflexivity|]. intros i o Hi. discriminate Hi.
  - split; [reflexivity|]. intros j a [-> _]%lookup_replicate. by left.
  - reflexivity.
  - intros c Hc. by apply store_searchable.
  - vm_compute. lia.
  - exists r, e. split; [exact E|]. destruct Hr as [(i & _ & [Hi _] & _)|[_ Hr]]; [discriminate Hi|exact Hr].
Defined.

(** Two libraries that depend on each other and a name none of them has: the
    search never ends. *)
Definition mutual_libs : gmap Z io_library_t :=
  <[2 := store_lib [108] lib_image [1]]> {[ 1 := store_lib [112] prog_image [2] ]}.

Lemma mutual_dependency_hangs fuel : search_tree mutual_libs fuel demo 5000 0 [1] = Hang /\ search_tree mutual_libs fuel demo 5000 0 [2] = Hang.
Proof.
  assert (E1 : search_dependencies mutual_libs demo 5000 0 (IoDependency 0 0 <$> [2]) [] = Ok (None, [2])) by (vm_compute; reflexivity).
  assert (E2 : search_dependencies mutual_libs demo 5000 0 (IoDependency 0 0 <$> [1]) [] = Ok (None, [1])) by (vm_compute; reflexivity).
  induction fuel as [|fuel [IH1 IH2]]; [split; reflexivity|]. split; cbn [search_tree].
  - change (mutual_libs !! 1) with (Some (store_lib [112] prog_image [2])). cbn [of_option obind store_lib il_dependencies]. rewrite E1. exact IH2.
  - change (mutual_libs !! 2) with (Some (store_lib [108] lib_image [1])). cbn [of_option obind store_lib il_dependencies]. rewrite E2. exact IH1.
Qed.
