(* ===== verification/IoRelease.v ===== *)
(** * Reference counts of driver libraries

    Giving up a reference to a library: the counts of all libraries stay what
    the references say, and exactly the libraries that nothing refers to any more
    give their memory back, each once. *)

From S2P Require Import Prelude CString Elf ElfLink IoLibrary.

(** What a library can have: an allocation of the heap, physical pages, pages mapped
    into the kernel's directory. *)
Inductive resource := Block (p : Z) | Frames (p n : Z) | Mapping (v n : Z).

#[export] Instance resource_eq_dec : EqDecision resource.
Proof. solve_decision. Defined.

(** What releasing relies on: giving back something that is in use ends its use
    and that of nothing else. *)
Class IoSysOk (Sys : Type) `{IoSys Sys} := {
  io_live : Sys -> resource -> Prop;
  hfree_live s p : io_live s (Block p) -> exists s', io_hfree s p = Ok s' /\ forall q, io_live s' q <-> io_live s q /\ q <> Block p;
  pm_free_live s p n : io_live s (Frames p n) -> forall q, io_live (io_pm_free s p n) q <-> io_live s q /\ q <> Frames p n;
  vm_free_live s m v n : io_live s (Mapping v n) -> forall q, io_live (snd (io_vm_free s m v n)) q <-> io_live s q /\ q <> Mapping v n
}.

(** ** Counting *)

(** How often [c] is in a list. *)
Definition occurs (c : Z) (l : list Z) : Z := Z.of_nat (length (filter (fun x => x = c) l)).

Lemma occurs_cons c x l : occurs c (x :: l) = (if decide (x = c) then 1 else 0) + occurs c l.
Proof. unfold occurs. rewrite filter_cons. case_decide; cbn [length]; lia. Qed.

Lemma occurs_nonneg c l : 0 <= occurs c l.
Proof. unfold occurs. lia. Qed.

Lemma occurs_in c l : c ∈ l -> 1 <= occurs c l.
Proof. induction l as [|x l IH]; [by intros []%not_elem_of_nil|]. rewrite occurs_cons. pose proof (occurs_nonneg c l). intros [->|Hc%IH]%elem_of_cons; case_decide; (done || lia). Qed.

Fixpoint sum_over (f : Z -> Z) (ks : list Z) : Z := match ks with [] => 0 | k :: ks => f k + sum_over f ks end.

Lemma sum_over_ext f f' ks : (forall k, k ∈ ks -> f k = f' k) -> sum_over f ks = sum_over f' ks.
Proof.
  induction ks as [|k ks IH]; intros Hf; [done|]. cbn [sum_over]. rewrite (Hf k), IH; [done| |left]. intros j Hj. apply Hf. by right.
Qed.

Lemma sum_over_nonneg f ks : (forall k, 0 <= f k) -> 0 <= sum_over f ks.
Proof. intros Hf. induction ks as [|k ks IH]; cbn; [lia|]. specialize (Hf k). lia. Qed.

(** Changing one term. *)
Lemma sum_over_update f f' c ks : NoDup ks -> c ∈ ks -> (forall k, k <> c -> f' k = f k) ->
  sum_over f' ks = sum_over f ks - f c + f' c.
Proof.
  induction ks as [|k ks IH]; intros Hnd Hc Hf; [by apply not_elem_of_nil in Hc|]. apply NoDup_cons in Hnd as [Hk Hnd]. cbn.
  apply elem_of_cons in Hc as [<-|Hc].
  - rewrite (sum_over_ext f' f); [lia|]. intros j Hj. apply Hf. by intros ->.
  - rewrite (IH Hnd Hc Hf), (Hf k); [lia|]. by intros ->.
Qed.

Section Release.
Context {Sys : Type} `{IoSysOk Sys}.
Implicit Types (g : ioglue Sys) (c x : Z) (q : resource) (l : io_library_t) (ext : Z -> Z).

(** ** What the counts mean *)

Definition targets l : list Z := dn_library <$> il_dependencies l.

(** A library that is gone stays locked. *)
Definition uses_of (libs : gmap Z io_library_t) c x : Z :=
  match libs !! x with Some l => if il_lock l then 0 else occurs c (targets l) | None => 0 end.

(** References to [c] from the libraries [ks]. *)
Definition uses (libs : gmap Z io_library_t) (ks : list Z) c : Z := sum_over (uses_of libs c) ks.

(** What a library has, in the order it is given back: its pages, their mapping
    first, its path, the entries of its dependencies and their list.  The structure
    itself is not among it: nothing frees it. *)
Definition owned_pages l : list resource :=
  (if il_vmemory l =? 0 then [] else [Mapping (il_vmemory l) (il_pages l)]) ++
  (if il_pmemory l =? 0 then [] else [Frames (il_pmemory l) (il_pages l)]).
Definition owned_blocks l : list Z := il_pathAt l :: (dn_at <$> il_dependencies l) ++ [il_dependenciesAt l].
Definition owned l : list resource := owned_pages l ++ (Block <$> owned_blocks l).

Section Invariant.
Context (ks : list Z) (rank : Z -> nat).

(** The libraries are [ks]; [ext c] references to [c] come from outside, and
    [held] is what libraries that are being released have. *)
Record refs_ok ext (held : list resource) g : Prop := {
  ro_nodup : NoDup ks;
  ro_libs c : c ∈ ks <-> is_Some (g_libs g !! c);
  ro_ext c : 0 <= ext c;
  ro_count c l : g_libs g !! c = Some l -> il_lock l = false ->
    il_refCount l = ext c + uses (g_libs g) ks c /\ 0 < il_refCount l < 2 ^ 32;
  ro_gone c l : g_libs g !! c = Some l -> il_lock l = true -> ext c + uses (g_libs g) ks c = 0;
  ro_targets c l x : g_libs g !! c = Some l -> x ∈ targets l -> x ∈ ks /\ (rank x < rank c)%nat;
  ro_owned c l : g_libs g !! c = Some l -> il_lock l = false -> NoDup (owned l) /\ forall q, q ∈ owned l -> io_live (g_sys g) q /\ (q ∉ held);
  ro_apart c c' l l' q : g_libs g !! c = Some l -> g_libs g !! c' = Some l' -> il_lock l = false -> il_lock l' = false ->
    q ∈ owned l -> q ∈ owned l' -> c = c';
  ro_held q : q ∈ held -> io_live (g_sys g) q;
  ro_unlocked : g_storeLock g = false
}.

(** What releasing changes: libraries keep their dependencies, some are gone, and
    what those had is given back. *)
Record released g g' : Prop := {
  rd_dom x : is_Some (g_libs g' !! x) -> is_Some (g_libs g !! x);
  rd_lib x l : g_libs g !! x = Some l -> exists l', g_libs g' !! x = Some l' /\ il_dependencies l' = il_dependencies l /\
    owned l' = owned l /\ (il_lock l = true -> il_lock l' = true);
  rd_live q : io_live (g_sys g') q <-> io_live (g_sys g) q /\
    forall x l l', g_libs g !! x = Some l -> il_lock l = false -> g_libs g' !! x = Some l' -> il_lock l' = true -> q ∉ owned l
}.

Lemma released_trans g1 g2 g3 : released g1 g2 -> released g2 g3 -> released g1 g3.
Proof.
  intros [M1 L1 V1] [M2 L2 V2]. constructor; [by intros x Hx%M2%M1|..].
  - intros x l Hl. destruct (L1 x l Hl) as (l2 & H2 & D2 & O2 & K2). destruct (L2 x l2 H2) as (l3 & H3 & D3 & O3 & K3).
    exists l3. split_and!; [done|congruence|congruence|auto].
  - intros q. rewrite V2, V1. split.
    + intros [[Hq H12] H23]. split; [done|]. intros x l l3 Hl Hk Hl3 Hk3. destruct (L1 x l Hl) as (l2 & H2 & D2 & O2 & K2).
      destruct (il_lock l2) eqn:Ek; [by apply (H12 x l l2)|]. rewrite <- O2. by apply (H23 x l2 l3).
    + intros [Hq H13]. split; [split; [done|]|].
      * intros x l l2 Hl Hk H2 Hk2. destruct (L2 x l2 H2) as (l3 & H3 & _ & _ & K3). apply (H13 x l l3); auto.
      * intros x l2 l3 H2 Hk2 H3 Hk3 Hin. destruct (M1 x) as [l Hl]; [by eexists|].
        destruct (L1 x l Hl) as (l2' & H2' & _ & O2 & K2). rewrite H2 in H2'. injection H2' as <-. rewrite O2 in Hin.
        apply (H13 x l l3); auto. destruct (il_lock l); [|done]. rewrite K2 in Hk2; done.
Qed.

Lemma released_refl g : released g g.
Proof.
  constructor; [done| |].
  - intros x l Hl. exists l. done.
  - intros q. split; [|by intros [? _]]. intros Hq. split; [done|]. intros x l l' Hl Hk Hl' Hk'. congruence.
Qed.

(** ** Freeing a library's memory *)

Lemma uses_of_nonneg libs c x : 0 <= uses_of libs c x.
Proof. unfold uses_of. destruct (libs !! x) as [l|]; [|done]. destruct (il_lock l); [done|apply occurs_nonneg]. Qed.

Lemma uses_nonneg libs c : 0 <= uses libs ks c.
Proof. apply sum_over_nonneg, uses_of_nonneg. Qed.

(** The state after everything in a list has been given back. *)
Definition without (s : Sys) (rs : list resource) (s' : Sys) : Prop := forall q, io_live s' q <-> io_live s q /\ q ∉ rs.

Lemma without_refl s : without s [] s.
Proof. intros q. pose proof (not_elem_of_nil q). tauto. Qed.

Lemma without_one s q s' : (forall q', io_live s' q' <-> io_live s q' /\ q' <> q) -> without s [q] s'.
Proof. intros Hs q'. rewrite Hs, list_elem_of_singleton. tauto. Qed.

Lemma without_app s rs s1 rs' s2 : without s rs s1 -> without s1 rs' s2 -> without s (rs ++ rs') s2.
Proof. intros H1 H2 q. rewrite (H2 q), (H1 q), elem_of_app. tauto. Qed.

Lemma free_entries_spec ds : forall s, NoDup (dn_at <$> ds) -> (forall p, p ∈ dn_at <$> ds -> io_live s (Block p)) ->
  exists s', free_entries s ds = Ok s' /\ without s (Block <$> (dn_at <$> ds)) s'.
Proof.
  induction ds as [|d ds IH]; intros s Hnd Hl; cbn [free_entries fmap list_fmap].
  - exists s. split; [done|]. apply without_refl.
  - apply NoDup_cons in Hnd as [Hd Hnd]. destruct (hfree_live s (dn_at d)) as (s1 & -> & H1); [apply Hl; left|]. cbn [obind].
    destruct (IH s1 Hnd) as (s2 & -> & H2).
    { intros p Hp. apply H1. split; [apply Hl; by right|]. by intros [= ->]. }
    exists s2. split; [done|]. by apply (without_app s [Block (dn_at d)] s1); [apply without_one|].
Qed.

(** The blocks: the path, the entries and the list. *)
Lemma free_blocks_spec l s : NoDup (owned_blocks l) -> (forall p, p ∈ owned_blocks l -> io_live s (Block p)) ->
  exists s', (let* s := io_hfree s (il_pathAt l) in free_dependencies s l) = Ok s' /\ without s (Block <$> owned_blocks l) s'.
Proof.
  unfold owned_blocks. intros Hnd Hl. apply NoDup_cons in Hnd as [Hpath Hnd]. apply NoDup_app in Hnd as (Hent & Hsep & _).
  destruct (hfree_live s (il_pathAt l)) as (s1 & -> & H1); [apply Hl; left|]. cbn [obind]. unfold free_dependencies.
  assert (Hl1 : forall p, p ∈ (dn_at <$> il_dependencies l) ++ [il_dependenciesAt l] -> io_live s1 (Block p)).
  { intros p Hp. apply H1. split; [apply Hl; by right|]. by intros [= ->]. }
  destruct (free_entries_spec (il_dependencies l) s1 Hent) as (s2 & -> & H2).
  { intros p Hp. apply Hl1, elem_of_app. by left. }
  cbn [obind]. destruct (hfree_live s2 (il_dependenciesAt l)) as (s3 & -> & H3).
  { apply H2. split; [apply Hl1, elem_of_app; right; left|]. intros (p & [= <-] & Hp)%list_elem_of_fmap. eapply Hsep; [exact Hp|left]. }
  exists s3. split; [done|]. rewrite fmap_cons, fmap_app. apply (without_app s [Block (il_pathAt l)] s1); [by apply without_one|].
  by apply (without_app s1 _ s2); [|apply without_one].
Qed.

(** The pages: the mapping and the physical ones. *)
Lemma free_pages_spec l m s : NoDup (owned_pages l) -> (forall q, q ∈ owned_pages l -> io_live s q) ->
  exists m' s1, (if il_vmemory l =? 0 then (m, s) else io_vm_free s m (il_vmemory l) (il_pages l)) = (m', s1) /\
    without s (owned_pages l) (if il_pmemory l =? 0 then s1 else io_pm_free s1 (il_pmemory l) (il_pages l)).
Proof.
  unfold owned_pages. intros Hnd Hl.
  assert (Hv : exists m' s1, (if il_vmemory l =? 0 then (m, s) else io_vm_free s m (il_vmemory l) (il_pages l)) = (m', s1) /\
    without s (if il_vmemory l =? 0 then [] else [Mapping (il_vmemory l) (il_pages l)]) s1).
  { destruct (il_vmemory l =? 0); [exists m, s; split; [done|apply without_refl]|]. destruct (io_vm_free _ _ _ _) as [m' s1] eqn:E.
    exists m', s1. split; [done|]. apply without_one. replace s1 with (snd (io_vm_free s m (il_vmemory l) (il_pages l))) by (by rewrite E).
    apply vm_free_live, Hl. left. }
  destruct Hv as (m' & s1 & E & H1). exists m', s1. split; [done|]. eapply without_app; [exact H1|].
  destruct (il_pmemory l =? 0); [apply without_refl|]. apply without_one, pm_free_live, H1. split; [apply Hl, elem_of_app; right; left|].
  destruct (il_vmemory l =? 0); [apply not_elem_of_nil|]. by intros [=]%list_elem_of_singleton.
Qed.

Lemma dispose_spec g c l l' : g_libs g !! c = Some l' -> g_storeLock g = false -> NoDup (owned l) -> (forall q, q ∈ owned l -> io_live (g_sys g) q) ->
  exists g', library_dispose g c l = Ok g' /\ g_libs g' = g_libs g /\ g_storeLock g' = false /\ without (g_sys g) (owned l) (g_sys g').
Proof.
  intros Hl Hk Hnd Hlive. unfold library_dispose, io_storeRemoveLibrary, store_lock, library_at. rewrite Hk, Hl. cbn [of_option obind g_with_store g_mem g_sys].
  unfold owned in *. apply NoDup_app in Hnd as (Hnp & Hsep & Hnb).
  destruct (free_pages_spec l (g_mem g) (g_sys g) Hnp) as (m & s & -> & Hs); [intros q Hq; apply Hlive, elem_of_app; by left|].
  set (s1 := if il_pmemory l =? 0 then s else _) in *.
  destruct (free_blocks_spec l s1) as (s2 & E2 & H2).
  { by apply NoDup_fmap_1 in Hnb. }
  { intros p Hp. assert (Hin : Block p ∈ Block <$> owned_blocks l) by (by apply list_elem_of_fmap_2). apply Hs. split; [apply Hlive, elem_of_app; by right|].
    intros Hin2. by apply (Hsep _ Hin2). }
  apply obind_Ok in E2 as (s3 & -> & E2). cbn [obind]. rewrite E2. cbn [obind]. eexists. split; [done|]. cbn. split_and!; [done..|].
  by eapply without_app.
Qed.

(** ** One reference *)

Definition drop ext c : Z -> Z := fun x => ext x - (if decide (x = c) then 1 else 0).

Lemma refs_ok_ext ext ext' held g : (forall x, ext x = ext' x) -> refs_ok ext held g -> refs_ok ext' held g.
Proof.
  intros E []. constructor; try done.
  - intros c. rewrite <- E. done.
  - intros c l. rewrite <- E. auto.
  - intros c l. rewrite <- E. eauto.
Qed.

(** Changing the count of a library that stays. *)
Lemma release_keeps ext held g c l : refs_ok ext held g -> g_libs g !! c = Some l -> il_lock l = false -> 1 <= ext c -> il_refCount l <> 1 ->
  let g' := g_with_lib g c (set_il_count false (il_refCount l - 1) l) in refs_ok (drop ext c) held g' /\ released g g'.
Proof.
  intros Hr Hl Hk Hext Hne g'. pose proof Hr as [Nd Hlibs He Hc Hg Ht Ho Ha Hh Hu].
  assert (Eu : forall x, uses (g_libs g') ks x = uses (g_libs g) ks x).
  { intros x. apply sum_over_ext. intros k _. unfold uses_of, g'. cbn. destruct (decide (k = c)) as [->|Hkc].
    - rewrite lookup_insert_eq, Hl. cbn. by rewrite Hk.
    - by rewrite lookup_insert_ne. }
  assert (Hlk : forall x lx, g_libs g' !! x = Some lx -> exists l0, g_libs g !! x = Some l0 /\ il_lock lx = il_lock l0 /\
    il_dependencies lx = il_dependencies l0 /\ owned lx = owned l0 /\ il_refCount lx = il_refCount l0 - (if decide (x = c) then 1 else 0)).
  { intros x lx. unfold g'. cbn. intros [[<- <-]|[Hx Hlx]]%lookup_insert_Some; [exists l|exists lx; rewrite decide_False by done; split_and!; (done || lia)].
    rewrite decide_True by done. split_and!; (done || cbn; congruence). }
  destruct (Hc c l Hl Hk) as [Ecount Hrange]. split.
  - constructor; try done.
    + intros x. rewrite Hlibs. unfold g'. cbn. rewrite lookup_insert_is_Some. split; [destruct (decide (c = x)); auto|]. intros [<-|[_ ?]]; [by eexists|done].
    + intros x. unfold drop. specialize (He x). case_decide; [subst|]; lia.
    + intros x lx (l0 & L0 & K0 & _ & _ & R0)%Hlk Hkx. rewrite K0 in Hkx. destruct (Hc x l0 L0 Hkx) as [E R]. rewrite Eu, R0, E. unfold drop.
      split; [lia|]. case_decide as Ex; [subst x; rewrite Hl in L0; injection L0 as <-|]; lia.
    + intros x lx (l0 & L0 & K0 & _)%Hlk Hkx. rewrite K0 in Hkx. rewrite Eu. unfold drop. rewrite decide_False; [rewrite Z.sub_0_r; by eapply Hg|].
      intros ->. congruence.
    + intros x lx y (l0 & L0 & _ & D0 & _)%Hlk. unfold targets. rewrite D0. by apply Ht.
    + intros x lx (l0 & L0 & K0 & _ & O0 & _)%Hlk Hkx. rewrite O0. rewrite K0 in Hkx. by apply (Ho x).
    + intros x y lx ly q (l0 & L0 & K0 & _ & O0 & _)%Hlk (l1 & L1 & K1 & _ & O1 & _)%Hlk. rewrite K0, K1, O0, O1. by apply Ha.
  - constructor.
    + intros x. unfold g'. cbn. rewrite lookup_insert_is_Some. intros [<-|[_ ?]]; [by eexists|done].
    + intros x lx Hx. unfold g'. cbn. destruct (decide (x = c)) as [->|Hxc].
      * rewrite lookup_insert_eq. eexists. split; [done|]. rewrite Hl in Hx. injection Hx as <-. split_and!; (done || congruence).
      * rewrite lookup_insert_ne by done. by exists lx.
    + intros q. split; [|by intros [? _]]. intros Hq. split; [done|]. intros x l1 l2 E1 K1 (l0 & E0 & K0 & _)%Hlk K2. congruence.
Qed.

(** A library that goes: its references become the ones still to give up. *)
Lemma release_starts ext held g c l : refs_ok ext held g -> g_libs g !! c = Some l -> il_lock l = false -> 1 <= ext c -> il_refCount l = 1 ->
  let g' := g_with_lib g c (set_il_count true 0 l) in
  refs_ok (fun x => drop ext c x + occurs x (targets l)) (owned l ++ held) g'.
Proof.
  intros Hr Hl Hk Hext Hone g'. pose proof Hr as [Nd Hlibs He Hc Hg Ht Ho Ha Hh Hu].
  assert (Hck : c ∈ ks) by (apply Hlibs; by eexists).
  assert (Eu : forall x, uses (g_libs g') ks x = uses (g_libs g) ks x - occurs x (targets l)).
  { intros x. unfold uses. rewrite (sum_over_update (uses_of (g_libs g) x) (uses_of (g_libs g') x) c ks Nd Hck).
    - unfold uses_of, g'. cbn. rewrite Hl, lookup_insert_eq, Hk. cbn. lia.
    - intros k Hkc. unfold uses_of, g'. cbn. by rewrite lookup_insert_ne. }
  assert (Hlk : forall x lx, g_libs g' !! x = Some lx -> (x = c /\ il_lock lx = true /\ targets lx = targets l) \/ (x <> c /\ g_libs g !! x = Some lx)).
  { intros x lx. unfold g'. cbn. intros [[<- <-]|[Hx Hlx]]%lookup_insert_Some; [by left|right; by split]. }
  destruct (Hc c l Hl Hk) as [Ecount Hrange]. pose proof (uses_nonneg (g_libs g) c) as Hun. pose proof (He c) as Hec.
  destruct (Ho c l Hl Hk) as [Hond Hoq]. constructor; try done.
  - intros x. rewrite Hlibs. unfold g'. cbn. rewrite lookup_insert_is_Some. split; [destruct (decide (c = x)); auto|]. intros [<-|[_ ?]]; [by eexists|done].
  - intros x. unfold drop. specialize (He x). pose proof (occurs_nonneg x (targets l)). case_decide; [subst|]; lia.
  - intros x lx [(-> & K & _)|[Hx Hlx]]%Hlk Hkx; [congruence|]. destruct (Hc x lx Hlx Hkx) as [E R]. rewrite Eu. unfold drop.
    rewrite decide_False by done. lia.
  - intros x lx [(-> & K & _)|[Hx Hlx]]%Hlk Hkx; rewrite Eu; unfold drop; [rewrite decide_True by done; lia|].
    rewrite decide_False by done. pose proof (Hg x lx Hlx Hkx). lia.
  - intros x lx y [(-> & _ & ->)|[Hx Hlx]]%Hlk; [by apply Ht|by eapply Ht].
  - intros x lx [(-> & K & _)|[Hx Hlx]]%Hlk Hkx; [congruence|]. destruct (Ho x lx Hlx Hkx) as [Hn Hq]. split; [done|].
    intros q Hin. destruct (Hq q Hin). split; [done|]. rewrite not_elem_of_app. split; [|done]. intros Hin2. apply Hx. by eapply Ha.
  - intros x y lx ly q [(-> & K & _)|[Hx Hlx]]%Hlk [(-> & K' & _)|[Hy Hly]]%Hlk; try congruence. by apply Ha.
  - intros q [Hq|Hq]%elem_of_app; [by apply Hoq|by apply Hh].
Qed.

(** ** All of them *)

(** [release] gives up a reference to [c], whatever the state. *)
Definition gives_up (release : ioglue Sys -> Z -> outcome (ioglue Sys)) c : Prop :=
  forall ext held g, refs_ok ext held g -> 1 <= ext c -> exists g', release g c = Ok g' /\ refs_ok (drop ext c) held g' /\ released g g'.

Lemma release_all_spec release ds : (forall d, d ∈ dn_library <$> ds -> gives_up release d) ->
  forall ext held g, refs_ok ext held g -> (forall x, occurs x (dn_library <$> ds) <= ext x) ->
  exists g', release_all release g ds = Ok g' /\ refs_ok (fun x => ext x - occurs x (dn_library <$> ds)) held g' /\ released g g'.
Proof.
  induction ds as [|d ds IH]; intros Hd ext held g Hr Hx; cbn [release_all fmap list_fmap] in *.
  - exists g. split; [done|]. split; [|apply released_refl]. eapply refs_ok_ext; [|exact Hr]. intros x. unfold occurs. cbn. lia.
  - assert (Hx1 : 1 <= ext (dn_library d)).
    { specialize (Hx (dn_library d)). rewrite occurs_cons, decide_True in Hx by done. pose proof (occurs_nonneg (dn_library d) (dn_library <$> ds)). lia. }
    destruct (Hd (dn_library d) ltac:(left) ext held g Hr Hx1) as (g1 & -> & R1 & D1). cbn [obind].
    destruct (IH ltac:(intros; apply Hd; by right) (drop ext (dn_library d)) held g1 R1) as (g2 & -> & R2 & D2).
    { intros x. specialize (Hx x). rewrite occurs_cons in Hx. unfold drop. repeat case_decide; (congruence || lia). }
    exists g2. split; [done|]. split; [|by eapply released_trans]. eapply refs_ok_ext; [|exact R2].
    intros x. rewrite occurs_cons. unfold drop. repeat case_decide; (congruence || lia).
Qed.

(** The memory that was held is given back. *)
Lemma refs_ok_disposed ext held g g' ps : refs_ok ext (ps ++ held) g -> (forall q, q ∈ ps -> q ∉ held) ->
  g_libs g' = g_libs g -> g_storeLock g' = false -> (forall q, io_live (g_sys g') q <-> io_live (g_sys g) q /\ q ∉ ps) -> refs_ok ext held g'.
Proof.
  intros [Nd Hlibs He Hc Hg Ht Ho Ha Hh Hu] Hsep El Ek Hlive. constructor; rewrite ?El; try done.
  - intros c l Hl Hk. destruct (Ho c l Hl Hk) as [Hn Hq]. split; [done|]. intros q Hin. destruct (Hq q Hin) as [Hlq Hnq].
    apply not_elem_of_app in Hnq as [? ?]. by rewrite Hlive.
  - intros q Hq. apply Hlive. split; [apply Hh, elem_of_app; by right|]. intros Hin. by apply (Hsep q).
Qed.

(** The library goes, after its dependencies have been given up. *)
Lemma release_ends ext held g c l g2 : refs_ok ext held g -> g_libs g !! c = Some l -> il_lock l = false ->
  let g1 := g_with_lib g c (set_il_count true 0 l) in refs_ok (drop ext c) (owned l ++ held) g2 -> released g1 g2 ->
  exists g3, library_dispose g2 c l = Ok g3 /\ refs_ok (drop ext c) held g3 /\ released g g3.
Proof.
  intros Hr Hl Hk g1 R2 [M L V]. destruct (ro_owned _ _ _ Hr c l Hl Hk) as [Hnd Hq].
  assert (Hc1 : g_libs g1 !! c = Some (set_il_count true 0 l)) by apply lookup_insert_eq.
  destruct (L c _ Hc1) as (l2 & Hl2 & _ & _ & K2). specialize (K2 eq_refl).
  destruct (dispose_spec g2 c l l2 Hl2 (ro_unlocked _ _ _ R2) Hnd) as (g3 & E & El & Ek & Hlive).
  { intros q Hin. apply (ro_held _ _ _ R2), elem_of_app. by left. }
  unfold without in Hlive. exists g3. split; [done|]. split.
  { eapply refs_ok_disposed; [exact R2| |done..]. intros q Hin. by apply Hq. }
  constructor.
  - intros x. rewrite El. intros Hx%M. unfold g1 in Hx. cbn in Hx. apply lookup_insert_is_Some in Hx as [<-|[_ ?]]; [by eexists|done].
  - intros x lx Hx. rewrite El. destruct (decide (x = c)) as [->|Hxc].
    + destruct (L c _ Hc1) as (l' & Hl' & D & O & K). rewrite Hl in Hx. injection Hx as <-. exists l'. split_and!; [done..|by intros _; apply K].
    + apply L. unfold g1. cbn. by rewrite lookup_insert_ne.
  - intros q. rewrite Hlive, V. change (g_sys g1) with (g_sys g). rewrite El. split.
    + intros [[Hq0 Hnew] Hno]. split; [done|]. intros x lx l' Hx Kx Hx' Kx'. destruct (decide (x = c)) as [->|Hxc]; [congruence|].
      apply (Hnew x lx l'); [|done..]. unfold g1. cbn. by rewrite lookup_insert_ne.
    + intros [Hq0 Hno]. split; [|by apply (Hno c l l2)]. split; [done|]. intros x lx l' Hx Kx Hx' Kx'. apply (Hno x lx l'); [|done..].
      unfold g1 in Hx. cbn in Hx. apply lookup_insert_Some in Hx as [[<- <-]|[_ ?]]; [discriminate Kx|done].
Qed.

Lemma libraryRelease_gives_up fuel : forall c, c ∈ ks -> (rank c < fuel)%nat -> gives_up (io_libraryRelease fuel) c.
Proof.
  induction fuel as [|fuel IH]; intros c Hck Hrank; [lia|]. intros ext held g Hr Hext.
  destruct (proj1 (ro_libs _ _ _ Hr c) Hck) as [l Hl]. pose proof (uses_nonneg (g_libs g) c) as Hun.
  destruct (il_lock l) eqn:Hk; [pose proof (ro_gone _ _ _ Hr c l Hl Hk); lia|]. destruct (ro_count _ _ _ Hr c l Hl Hk) as [Hcount Hrange].
  cbn [io_libraryRelease]. unfold library_at. rewrite Hl. cbn [of_option obind]. rewrite Hk, u32_small by lia.
  destruct (Z.eqb_spec (il_refCount l - 1) 0) as [E|E].
  - pose proof (release_starts ext held g c l Hr Hl Hk Hext ltac:(lia)) as R1. rewrite E. set (g1 := g_with_lib g c (set_il_count true 0 l)) in *.
    destruct (release_all_spec (io_libraryRelease fuel) (il_dependencies l)) with (ext := fun x => drop ext c x + occurs x (targets l))
      (held := owned l ++ held) (g := g1) as (g2 & -> & R2 & D2).
    + intros d Hd. destruct (ro_targets _ _ _ Hr c l d Hl Hd) as [Hdk Hrd]. apply IH; [done|lia].
    + exact R1.
    + intros x. pose proof (ro_ext _ _ _ Hr x). unfold targets, drop. case_decide; [subst|]; lia.
    + cbn [obind]. apply (release_ends ext held g c l g2); [done..| |done]. eapply refs_ok_ext; [|exact R2]. intros x. unfold targets. lia.
  - pose proof (release_keeps ext held g c l Hr Hl Hk Hext ltac:(lia)) as [R D]. eexists. split; [done|]. by split.
Qed.

(** C31: Giving up a reference to a library when every count is the number of
    references there are: the call returns, every count is right again, and
    exactly the libraries that had to go, those that neither a driver nor a
    library still there refers to, have given back what they had ([owned]): the
    mapping of their pages and the pages, the path, the entries of the dependencies
    and their list, each once; nothing else has been given back.  The structure of a
    library that is gone is not freed, and stays locked. *)
Theorem libraryRelease_collects ext g c fuel : refs_ok ext [] g -> c ∈ ks -> 1 <= ext c -> (rank c < fuel)%nat ->
  exists g', io_libraryRelease fuel g c = Ok g' /\ refs_ok (drop ext c) [] g' /\ released g g'.
Proof. intros Hr Hc Hext Hrank. by apply libraryRelease_gives_up. Qed.
End Invariant.
End Release.

(** ** Two libraries *)

(** A system whose state is the list of what is in use. *)
#[export] Instance list_sys : IoSys (list resource) := {
  io_halloc s n := let p := 1 + foldr (fun r a => match r with Block q => Z.max q a | _ => a end) 0 s in Ok (p, Block p :: s);
  io_hfree s p := if bool_decide (Block p ∈ s) then Ok (filter (fun q => q <> Block p) s) else Panic;
  io_pm_alloc s n := (4096, Frames 4096 n :: s);
  io_pm_free s p n := filter (fun q => q <> Frames p n) s;
  io_vm_alloc s m p n := (p, m, Mapping p n :: s);
  io_vm_free s m v n := (m, filter (fun q => q <> Mapping v n) s);
  io_mm_alloc s m _ := (8192, m, s);
  io_mm_free s m _ _ := (m, s);
  io_open s _ := (-1, s);
  io_seek s _ _ _ := (0, s);
  io_read s m _ _ n := (n, m, s);
  io_close s _ := s
}.

#[export] Instance list_sys_ok : IoSysOk (list resource).
Proof.
  refine {| io_live s q := q ∈ s |}.
  - intros s p Hp. cbn. rewrite bool_decide_eq_true_2 by done. eexists. split; [done|]. intros q. rewrite list_elem_of_filter. tauto.
  - intros s p n _ q. cbn. rewrite list_elem_of_filter. tauto.
  - intros s m v n _ q. cbn. rewrite list_elem_of_filter. tauto.
Defined.

(** The library at 2 is in use, has three pages and depends on the one at 1. *)
Definition pair_libs : gmap Z io_library_t :=
  <[2 := IoLibrary [50] [50] 200 zero_image 202 [IoDependency 201 0 1] 3 8192 12288 false 1]>
    {[ 1 := IoLibrary [49] [49] 100 zero_image 101 [] 1 0 0 false 1 ]}.
Definition pair_use : list resource := (Block <$> [100; 101; 200; 201; 202; 300]) ++ [Frames 8192 3; Mapping 12288 3; Frames 16384 1].
Definition pair_glue : ioglue (list resource) := Glue ∅ pair_use pair_libs ∅ false (KernelStub zero_image 0 9) [].
Definition pair_ext (c : Z) : Z := if decide (c = 2) then 1 else 0.
Definition pair_rank (c : Z) : nat := Z.to_nat c.

Lemma pair_lookup c l : pair_libs !! c = Some l ->
  (c = 2 /\ l = IoLibrary [50] [50] 200 zero_image 202 [IoDependency 201 0 1] 3 8192 12288 false 1) \/
  (c = 1 /\ l = IoLibrary [49] [49] 100 zero_image 101 [] 1 0 0 false 1).
Proof. unfold pair_libs. intros [[<- <-]|[_ [<- <-]%lookup_singleton_Some]]%lookup_insert_Some; auto. Qed.

Lemma pair_refs : refs_ok [1; 2] pair_rank pair_ext [] pair_glue.
Proof.
  constructor.
  - apply (bool_decide_unpack (NoDup [1; 2])). vm_compute. exact I.
  - intros c. cbn. split.
    + intros [->|[->|Hc%not_elem_of_nil]%elem_of_cons]%elem_of_cons; [by eexists..|done].
    + intros [l [(-> & _)|(-> & _)]%pair_lookup]; [right|]; left.
  - intros c. unfold pair_ext. case_decide; lia.
  - intros c l [(-> & ->)|(-> & ->)]%pair_lookup _; vm_compute; done.
  - by intros c l [(-> & ->)|(-> & ->)]%pair_lookup.
  - intros c l x [(-> & ->)|(-> & ->)]%pair_lookup; cbn; [|by intros []%not_elem_of_nil]. intros ->%list_elem_of_singleton.
    split; [left|vm_compute; lia].
  - intros c l [(-> & ->)|(-> & ->)]%pair_lookup _; (split; [apply (bool_decide_unpack (NoDup _)); vm_compute; exact I|]);
      (intros q Hq; split; [|apply not_elem_of_nil]); cbn in *; set_solver.
  - intros c c' l l' q [(-> & ->)|(-> & ->)]%pair_lookup [(-> & ->)|(-> & ->)]%pair_lookup _ _; try done; cbn; set_solver.
  - by intros q []%not_elem_of_nil.
  - done.
Qed.

Lemma libraryRelease_collects_witness : exists g', io_libraryRelease 3 pair_glue 2 = Ok g' /\
  refs_ok [1; 2] pair_rank (drop pair_ext 2) [] g' /\ g_sys g' = [Block 300; Frames 16384 1].
Proof.
  destruct (libraryRelease_collects [1; 2] pair_rank pair_ext pair_glue 2 3 pair_refs) as (g' & E & Hr & _).
  - right. left.
  - vm_compute. discriminate.
  - vm_compute. lia.
  - exists g'. split; [exact E|]. split; [exact Hr|]. vm_compute in E. injection E as <-. reflexivity.
Defined.

(** The structure of a library that is gone is not freed and its lock is not
    given back: using it again waits for ever. *)
Lemma released_stays_locked : exists g', io_libraryRelease 3 pair_glue 2 = Ok g' /\ io_libraryRetain g' 2 = Hang /\ io_libraryRelease 3 g' 1 = Hang.
Proof. eexists. split; [vm_compute; reflexivity|]. split; vm_compute; reflexivity. Qed.
