(* ===== verification/Interrupts.v ===== *)
(** * Interrupts (sys/interrupts/interrupts.c, the interrupts of sys/ioglue/iostubs.c)

    The descriptor table, the tables of handlers and callbacks, the dispatch,
    and the registration of drivers' handlers on top of it.  The addresses of
    the assembly entry points are a function of the vector; ports written to are
    an output. *)

From S2P Require Import Prelude HeapSpec Block CellHeap Array.

Definition IDT_FLAG_INTERRUPT_GATE : Z := 0xE.
Definition IDT_FLAG_PRESENT : Z := 0x80.
Definition IDT_FLAG_RING0 : Z := 0x00.
Definition IDT_FLAG_RING3 : Z := 0x60.
Definition IDT_ENTRIES : nat := 256.

(** ** The descriptor table *)

Definition ir_idt_setEntry (idt : list Z) (index handler selector flags : Z) : list Z :=
  let e := Z.land handler 0xFFFF in
  let e := Z.lor e (u64 (Z.shiftl (Z.land selector 0xFFFF) 16)) in
  let e := Z.lor e (u64 (Z.shiftl (Z.land flags 0xFF) 40)) in
  let e := Z.lor e (u64 (Z.shiftl (Z.land (Z.shiftr handler 16) 0xFFFF) 48)) in
  <[Z.to_nat index := e]> idt.

(** The exceptions, the interrupts of the controller and the ones free to use, in
    the order they are set; the rescheduling interrupt and the system call. *)
Definition idt_exceptions : list Z := seqZ 0 2 ++ seqZ 3 12 ++ seqZ 16 4.
Definition idt_interrupts : list Z := [2] ++ seqZ 0x20 16 ++ [0x31].
Definition idt_public : list Z := seqZ 0x81 31.

Section Idt.
Context (entry_point : Z -> Z).

Definition set_gates (offset ring : Z) (vectors idt : list Z) : list Z :=
  foldl (fun idt i => ir_idt_setEntry idt i (u32 (entry_point i + offset)) 0x8
    (Z.lor (Z.lor IDT_FLAG_INTERRUPT_GATE ring) IDT_FLAG_PRESENT)) idt vectors.

Definition ir_idt_init (idt : list Z) (offset : Z) : list Z :=
  let idt := set_gates offset IDT_FLAG_RING0 idt_exceptions idt in
  let idt := set_gates offset IDT_FLAG_RING0 idt_interrupts idt in
  let idt := set_gates offset IDT_FLAG_RING3 [0x80] idt in
  set_gates offset IDT_FLAG_RING0 idt_public idt.
End Idt.

(** ** Handlers and callbacks *)

Definition ir_isValidInterrupt (interrupt : Z) (publicOnly : bool) : bool :=
  if (interrupt <=? 0x31) || (interrupt =? 0x80) then publicOnly
  else (0x81 <=? interrupt) && (interrupt <=? 0x9F).

Definition ir_interruptPublicBegin : Z := 0x81.
Definition ir_interruptPublicEnd : Z := 0x9F.

Section Dispatch.
(** The rest of the kernel: handlers change it and choose the stack to return
    on, callbacks change it. *)
Context {S : Type}.

Record interrupts := Interrupts {
  ir_handlers : list (option (S -> Z -> outcome (Z * S)));
  ir_callbacks : list (option (S -> Z -> outcome S));
  ir_entries : Z; ir_lastESP : Z
}.

Definition ir_setInterruptHandler (ir : interrupts) (handler : option (S -> Z -> outcome (Z * S))) (interrupt : Z) : outcome interrupts :=
  if (Z.to_nat interrupt <? IDT_ENTRIES)%nat then
    Ok (Interrupts (<[Z.to_nat interrupt := handler]> (ir_handlers ir)) (ir_callbacks ir) (ir_entries ir) (ir_lastESP ir))
  else Fault.

Definition ir_setInterruptCallback (ir : interrupts) (callback : option (S -> Z -> outcome S)) (interrupt : Z) : outcome interrupts :=
  if (Z.to_nat interrupt <? IDT_ENTRIES)%nat then
    Ok (Interrupts (ir_handlers ir) (<[Z.to_nat interrupt := callback]> (ir_callbacks ir)) (ir_entries ir) (ir_lastESP ir))
  else Fault.

(** The end-of-interrupt messages to the controllers: port and value. *)
Definition end_of_interrupt (interrupt : Z) : list (Z * Z) :=
  if (0x20 <=? interrupt) && (interrupt <? 0x30)
  then (if 0x28 <=? interrupt then [(0xA0, 0x20)] else []) ++ [(0x20, 0x20)] else [].

(** [interrupt] is the vector saved in the frame at [esp]. *)
Definition ir_handleInterrupt (ir : interrupts) (s : S) (esp interrupt : Z) : outcome (Z * S * list (Z * Z) * interrupts) :=
  let ir := Interrupts (ir_handlers ir) (ir_callbacks ir) (u32 (ir_entries ir + 1)) esp in
  let* handler := of_option (ir_handlers ir !! Z.to_nat interrupt) in
  let* callback := of_option (ir_callbacks ir !! Z.to_nat interrupt) in
  match handler, callback with
  | None, None => Panic
  | _, _ =>
      let* (resp, s) := match handler with Some h => h s esp | None => Ok (esp, s) end in
      let* s := match callback with Some c => c s esp | None => Ok s end in
      Ok (resp, s, end_of_interrupt interrupt, Interrupts (ir_handlers ir) (ir_callbacks ir) (u32 (ir_entries ir - 1)) (ir_lastESP ir))
  end.

Definition ir_isInsideInterruptHandler (ir : interrupts) : bool := 0 <? ir_entries ir.
End Dispatch.

(** ** Drivers' handlers (iostubs.c) *)

Definition kIOReturnSuccess : Z := 0.
Definition kIOReturnError : Z := 1.
Definition kIOReturnNoMemory : Z := 2.
Definition kIOReturnNoInterrupt : Z := 6.
Definition kIOReturnNoExclusiveAccess : Z := 9.

Record io_interrupt_handler_t := IoHandler { ih_callback : Z; ih_owner : Z; ih_context : Z }.

(** The array with its address; [None] is the null pointer. *)
Record io_interrupt_entry_t := IoEntry { ie_exclusive : bool; ie_handler : option (Z * array_t) }.

Section Io.
Context {H : Type} `{KernelHeap H}.

(** The entries, the handler structures by address, the vectors whose callback is
    [__io_dispatchInterrupt], and the heap. *)
Record io_interrupts := IoInterrupts {
  ii_entries : list (option io_interrupt_entry_t);
  ii_handlers : gmap Z io_interrupt_handler_t;
  ii_dispatched : list Z;
  ii_heap : H
}.

Definition sizeof_handler : Z := 12.
Definition sizeof_entry : Z := 8.

(** The handlers from index [i] on, [n] of them. *)
Fixpoint dispatch_calls (n : nat) (st : io_interrupts) (allHandler : array_t) (i : Z) : outcome (list io_interrupt_handler_t) :=
  match n with
  | O => Ok []
  | S n' =>
      let* p := array_objectAtIndex allHandler i in
      let* handler := of_option (ii_handlers st !! p) in
      let* calls := dispatch_calls n' st allHandler (i + 1) in
      Ok (handler :: calls)
  end.

(** The calls a dispatch makes: callback, owner and context.  The callbacks do
    not change the array they are called from. *)
Definition __io_dispatchInterrupt (st : io_interrupts) (interrupt : Z) : outcome (list io_interrupt_handler_t) :=
  let* entry := of_option (ii_entries st !! Z.to_nat interrupt) in
  match entry with
  | None => Ok []
  | Some entry =>
      let* (_, allHandler) := of_option (ie_handler entry) in
      dispatch_calls (Z.to_nat (array_count allHandler)) st allHandler 0
  end.

Definition set_heap (st : io_interrupts) (h : H) : io_interrupts :=
  IoInterrupts (ii_entries st) (ii_handlers st) (ii_dispatched st) h.

Definition put_entry (st : io_interrupts) (interrupt : Z) (e : io_interrupt_entry_t) (h : H) : io_interrupts :=
  IoInterrupts (<[Z.to_nat interrupt := Some e]> (ii_entries st)) (ii_handlers st) (ii_dispatched st) h.

(** The handler's structure at [p] is filled in. *)
Definition put_handler (st : io_interrupts) (p : Z) (handler : io_interrupt_handler_t) : io_interrupts :=
  IoInterrupts (ii_entries st) (<[p := handler]> (ii_handlers st)) (ii_dispatched st) (ii_heap st).

(** [array_addObject(entry->handler, handler)], for the entry of the vector. *)
Definition add_handler (st : io_interrupts) (interrupt : Z) (entry : io_interrupt_entry_t) (handler : Z) : outcome io_interrupts :=
  let* (p, a) := of_option (ie_handler entry) in
  let* (a, h) := array_addObject (ii_heap st) a handler in
  Ok (put_entry st interrupt (IoEntry (ie_exclusive entry) (Some (p, a))) h).

(** The vectors from [i] on, [n] of them; the memory taken is not tested. *)
Fixpoint request_loop (n : nat) (st : io_interrupts) (i owner context callback : Z) : outcome (Z * option Z * io_interrupts) :=
  match n with
  | O => Ok (kIOReturnNoInterrupt, None, st)
  | S n' =>
      if negb (ir_isValidInterrupt i true) then request_loop n' st (i + 1) owner context callback else
      let* entry := of_option (ii_entries st !! Z.to_nat i) in
      match entry with
      | Some _ => request_loop n' st (i + 1) owner context callback
      | None =>
          let* (ep, h) := halloc (ii_heap st) sizeof_entry in
          if ep =? NULL then Fault else
          let* (array, h) := array_create h in
          let entry := IoEntry true array in
          let st := put_entry st i entry h in
          let* (handler, h) := halloc (ii_heap st) sizeof_handler in
          if handler =? NULL then Fault else
          let st := put_handler (set_heap st h) handler (IoHandler callback owner context) in
          let* st := add_handler st i entry handler in
          Ok (kIOReturnSuccess, Some i, st)
      end
  end.

Definition kern_requestExclusiveInterrupt (st : io_interrupts) (owner context callback : Z) : outcome (Z * option Z * io_interrupts) :=
  request_loop (Z.to_nat (ir_interruptPublicEnd - ir_interruptPublicBegin)) st ir_interruptPublicBegin owner context callback.

(** The index of the first handler of the owner from [i] on, [n] of them. *)
Fixpoint find_handler (n : nat) (st : io_interrupts) (a : array_t) (i owner : Z) : outcome (option Z) :=
  match n with
  | O => Ok None
  | S n' =>
      let* p := array_objectAtIndex a i in
      let* handler := of_option (ii_handlers st !! p) in
      if ih_owner handler =? owner then Ok (Some i) else find_handler n' st a (i + 1) owner
  end.

Definition remove_handler (st : io_interrupts) (interrupt : Z) (entry : io_interrupt_entry_t) (owner : Z) : outcome (Z * io_interrupts) :=
  let* (p, a) := of_option (ie_handler entry) in
  let* found := find_handler (Z.to_nat (array_count a)) st a 0 owner in
  match found with
  | Some i =>
      let* (a, h) := array_removeObjectAtIndex (ii_heap st) a i in
      Ok (kIOReturnSuccess, put_entry st interrupt (IoEntry (ie_exclusive entry) (Some (p, a))) h)
  | None => Ok (kIOReturnNoInterrupt, st)
  end.

(** The handler and the entry of a vector that has none yet, with the dispatch set
    up: the handler's address and the entry, or no memory. *)
Definition new_entry (st : io_interrupts) (interrupt : Z) (exclusive : bool)
    : outcome (option (Z * io_interrupt_entry_t) * io_interrupts) :=
  let* (handler, h) := halloc (ii_heap st) sizeof_handler in
  let* (ep, h) := halloc h sizeof_entry in
  if (handler =? NULL) || (ep =? NULL) then
    let* h := if handler =? NULL then Ok h else hfree h handler in
    let* h := if ep =? NULL then Ok h else hfree h ep in
    Ok (None, set_heap st h)
  else
    let* (array, h) := array_create h in
    let entry := IoEntry exclusive array in
    let st := put_entry st interrupt entry h in
    Ok (Some (handler, entry), IoInterrupts (ii_entries st) (ii_handlers st) (interrupt :: ii_dispatched st) (ii_heap st)).

Definition kern_registerForInterrupt (st : io_interrupts) (interrupt : Z) (exclusive : bool) (owner context callback : Z)
    : outcome (Z * io_interrupts) :=
  let finish st entry handler :=
    let* st := add_handler (put_handler st handler (IoHandler callback owner context)) interrupt entry handler in
    Ok (kIOReturnSuccess, st) in
  let* entry := of_option (ii_entries st !! Z.to_nat interrupt) in
  match entry with
  | Some entry =>
      if callback =? NULL then remove_handler st interrupt entry owner
      else if ie_exclusive entry || exclusive then Ok (kIOReturnNoExclusiveAccess, st) else
      let* (handler, h) := halloc (ii_heap st) sizeof_handler in
      if handler =? NULL then Ok (kIOReturnNoMemory, set_heap st h) else finish (set_heap st h) entry handler
  | None =>
      if callback =? NULL then Ok (kIOReturnError, st) else
      let* (made, st) := new_entry st interrupt exclusive in
      match made with
      | Some (handler, entry) => finish st entry handler
      | None => Ok (kIOReturnNoMemory, st)
      end
  end.
End Io.
Arguments io_interrupts H : clear implicits.

(** ** The gates *)

(** The fields of a descriptor, as the processor reads them. *)
Definition gate_offset (e : Z) : Z := e mod 2 ^ 16 + e / 2 ^ 48 * 2 ^ 16.
Definition gate_selector (e : Z) : Z := e / 2 ^ 16 mod 2 ^ 16.
Definition gate_type (e : Z) : Z := e / 2 ^ 40 mod 16.
Definition gate_dpl (e : Z) : Z := e / 2 ^ 45 mod 4.
Definition gate_present (e : Z) : bool := negb (e / 2 ^ 47 mod 2 =? 0).

Lemma land_low x k : 0 <= k -> Z.land x (2 ^ k - 1) = x mod 2 ^ k.
Proof. intros Hk. rewrite Z.sub_1_r, <- Z.ones_equiv. by apply Z.land_ones. Qed.

Lemma setEntry_value idt index handler selector flags : is_u32 handler -> 0 <= selector < 2 ^ 16 -> 0 <= flags < 2 ^ 8 ->
  ir_idt_setEntry idt index handler selector flags =
    <[Z.to_nat index := handler mod 2 ^ 16 + selector * 2 ^ 16 + flags * 2 ^ 40 + handler / 2 ^ 16 * 2 ^ 48]> idt.
Proof.
  intros Hh Hs Hf. unfold is_u32 in Hh. unfold ir_idt_setEntry. f_equal.
  change 0xFFFF with (2 ^ 16 - 1). change 0xFF with (2 ^ 8 - 1). rewrite !land_low by lia. rewrite !Z.shiftl_mul_pow2, Z.shiftr_div_pow2 by lia.
  pose proof (Z.mod_pos_bound handler (2 ^ 16) ltac:(lia)) as H0. pose proof (Z.div_mod handler (2 ^ 16) ltac:(lia)) as Hd.
  assert (H1 : 0 <= handler / 2 ^ 16 < 2 ^ 16) by (split; [apply Z.div_pos; lia|apply Z.div_lt_upper_bound; lia]).
  rewrite !(Z.mod_small selector), (Z.mod_small flags), (Z.mod_small (handler / 2 ^ 16)) by lia.
  unfold u64. rewrite (Z.mod_small (selector * _)), (Z.mod_small (flags * _)), (Z.mod_small (handler / 2 ^ 16 * _)) by lia. generalize dependent (handler mod 2 ^ 16). generalize dependent (handler / 2 ^ 16). clear -Hs Hf.
  intros hi Hhi lo Hlo _.
  rewrite (Z.lor_comm lo), (lor_disjoint selector lo 16) by lia.
  rewrite (Z.lor_comm _ (flags * _)), (lor_disjoint flags _ 40) by lia.
  rewrite (Z.lor_comm _ (hi * _)), (lor_disjoint hi _ 48) by lia. lia.
Qed.

(** A descriptor for an interrupt gate of the given ring. *)
Definition gate (e address dpl : Z) : Prop :=
  gate_offset e = address /\ gate_selector e = 8 /\ gate_type e = 0xE /\ gate_dpl e = dpl /\ gate_present e = true.

Lemma setEntry_gate address ring : is_u32 address -> ring = IDT_FLAG_RING0 \/ ring = IDT_FLAG_RING3 ->
  gate (address mod 2 ^ 16 + 8 * 2 ^ 16 + Z.lor (Z.lor IDT_FLAG_INTERRUPT_GATE ring) IDT_FLAG_PRESENT * 2 ^ 40 + address / 2 ^ 16 * 2 ^ 48)
    address (ring / 32).
Proof.
  intros Ha Hr. unfold is_u32 in Ha. pose proof (Z.mod_pos_bound address (2 ^ 16) ltac:(lia)) as H0. pose proof (Z.div_mod address (2 ^ 16) ltac:(lia)) as Hd.
  assert (H1 : 0 <= address / 2 ^ 16 < 2 ^ 16) by (split; [apply Z.div_pos; lia|apply Z.div_lt_upper_bound; lia]).
  rewrite Hd at 3. generalize dependent (address mod 2 ^ 16). generalize dependent (address / 2 ^ 16). clear Ha. intros hi Hhi lo Hlo _.
  assert (Hf : exists f, Z.lor (Z.lor IDT_FLAG_INTERRUPT_GATE ring) IDT_FLAG_PRESENT = f /\ (f = 0x8E \/ f = 0xEE) /\ ring / 32 = f / 32 mod 4)
    by (destruct Hr as [->| ->]; [exists 0x8E|exists 0xEE]; (split; [reflexivity|]); (split; [auto|reflexivity])).
  destruct Hf as (f & -> & Hf & ->). clear Hr ring. set (e := lo + 8 * 2 ^ 16 + f * 2 ^ 40 + hi * 2 ^ 48).
  assert (E16 : e / 2 ^ 16 = 8 + (f * 2 ^ 8 + hi * 2 ^ 16) * 2 ^ 16) by (symmetry; apply (Z.div_unique _ _ _ lo); lia).
  assert (E48 : e / 2 ^ 48 = hi) by (symmetry; apply (Z.div_unique _ _ _ (lo + 8 * 2 ^ 16 + f * 2 ^ 40)); lia).
  assert (E40 : e / 2 ^ 40 = f + hi * 2 ^ 8) by (symmetry; apply (Z.div_unique _ _ _ (lo + 8 * 2 ^ 16)); lia).
  assert (E45 : e / 2 ^ 45 = f / 32 + hi * 8) by (change (2 ^ 45) with (2 ^ 40 * 32); rewrite <- Z.div_div, E40 by lia; destruct Hf; subst f; Z.to_euclidean_division_equations; lia).
  assert (E47 : e / 2 ^ 47 = 1 + hi * 2) by (change (2 ^ 47) with (2 ^ 45 * 4); rewrite <- Z.div_div, E45 by lia; destruct Hf; subst f; Z.to_euclidean_division_equations; lia).
  unfold gate, gate_offset, gate_selector, gate_type, gate_dpl, gate_present. rewrite E16, E48, E40, E45, E47. split_and!.
  - replace (e mod 2 ^ 16) with lo by (apply (Z.mod_unique _ _ (8 + f * 2 ^ 24 + hi * 2 ^ 32)); lia). lia.
  - by rewrite Z.mod_add.
  - destruct Hf; subst f; Z.to_euclidean_division_equations; lia.
  - change (hi * 8) with (hi * (2 * 4)). rewrite Z.mul_assoc. by rewrite Z.mod_add.
  - by rewrite Z.mod_add.
Qed.

Section Gates.
Context (entry_point : Z -> Z) (offset : Z).

Definition gate_entry (ring i : Z) : Z :=
  let address := u32 (entry_point i + offset) in
  address mod 2 ^ 16 + 8 * 2 ^ 16 + Z.lor (Z.lor IDT_FLAG_INTERRUPT_GATE ring) IDT_FLAG_PRESENT * 2 ^ 40 + address / 2 ^ 16 * 2 ^ 48.

Definition vectors_ok (vs : list Z) : Prop := Forall (fun i => 0 <= i < 256) vs.

Lemma set_gates_lookup ring vs : ring = IDT_FLAG_RING0 \/ ring = IDT_FLAG_RING3 -> vectors_ok vs -> forall idt, length idt = IDT_ENTRIES ->
  length (set_gates entry_point offset ring vs idt) = IDT_ENTRIES /\
  forall i, 0 <= i < 256 -> set_gates entry_point offset ring vs idt !! Z.to_nat i =
    if decide (i ∈ vs) then Some (gate_entry ring i) else idt !! Z.to_nat i.
Proof.
  intros Hr. assert (Hflags : 0 <= Z.lor (Z.lor IDT_FLAG_INTERRUPT_GATE ring) IDT_FLAG_PRESENT < 2 ^ 8) by (destruct Hr as [->| ->]; (split; [discriminate|reflexivity])).
  unfold set_gates. induction vs as [|v vs IH]; intros Hv idt Hlen.
  - split; [done|]. intros i Hi. rewrite decide_False; [done|apply not_elem_of_nil].
  - apply Forall_cons in Hv as [Hv Hvs]. cbn [foldl]. rewrite setEntry_value; [|apply u32_range|lia|done]. fold (gate_entry ring v).
    destruct (IH Hvs (<[Z.to_nat v := gate_entry ring v]> idt)) as [Hl Hi]; [by rewrite length_insert|]. split; [done|].
    intros i Hi0. rewrite (Hi i Hi0). destruct (decide (i ∈ vs)) as [Hin|Hnin].
    + rewrite decide_True; [done|]. by right.
    + destruct (decide (i = v)) as [->|Hne].
      * rewrite decide_True by left. apply list_lookup_insert_eq. rewrite Hlen. unfold IDT_ENTRIES. lia.
      * rewrite list_lookup_insert_ne by lia. rewrite decide_False; [done|]. rewrite not_elem_of_cons. done.
Qed.

Definition idt_gates : list Z := idt_exceptions ++ idt_interrupts ++ [0x80] ++ idt_public.

(** Whatever was in the descriptor table, afterwards every vector the kernel
    handles has an interrupt gate into its entry point, in the kernel's code
    segment; only the one of the system call, 0x80, may be entered by a program.
    Other vectors keep their descriptors. *)
Theorem idt_gates_set (idt : list Z) : length idt = IDT_ENTRIES -> forall i, 0 <= i < 256 ->
  if decide (i ∈ idt_gates) then
    exists e, ir_idt_init entry_point idt offset !! Z.to_nat i = Some e /\ gate e (u32 (entry_point i + offset)) (if decide (i = 0x80) then 3 else 0)
  else ir_idt_init entry_point idt offset !! Z.to_nat i = idt !! Z.to_nat i.
Proof.
  intros Hlen i Hi. unfold ir_idt_init.
  assert (Hok : vectors_ok idt_exceptions /\ vectors_ok idt_interrupts /\ vectors_ok [0x80] /\ vectors_ok idt_public)
    by (split_and!; vm_compute; repeat constructor; discriminate).
  destruct Hok as (O1 & O2 & O3 & O4).
  destruct (set_gates_lookup IDT_FLAG_RING0 _ ltac:(by left) O1 idt Hlen) as [L1 G1].
  destruct (set_gates_lookup IDT_FLAG_RING0 _ ltac:(by left) O2 _ L1) as [L2 G2].
  destruct (set_gates_lookup IDT_FLAG_RING3 _ ltac:(by right) O3 _ L2) as [L3 G3].
  destruct (set_gates_lookup IDT_FLAG_RING0 _ ltac:(by left) O4 _ L3) as [_ G4].
  rewrite (G4 i Hi), (G3 i Hi), (G2 i Hi), (G1 i Hi).
  assert (H80 : (0x80 ∉ idt_exceptions) /\ (0x80 ∉ idt_interrupts) /\ (0x80 ∉ idt_public))
    by (split_and!; apply (bool_decide_unpack (_ ∉ _)); vm_compute; exact I).
  pose proof (setEntry_gate (u32 (entry_point i + offset)) IDT_FLAG_RING0 (u32_range _) ltac:(by left)) as Gk.
  pose proof (setEntry_gate (u32 (entry_point i + offset)) IDT_FLAG_RING3 (u32_range _) ltac:(by right)) as Gu.
  fold (gate_entry IDT_FLAG_RING0 i) in Gk. fold (gate_entry IDT_FLAG_RING3 i) in Gu.
  destruct (decide (i ∈ idt_gates)) as [Hg|Hg]; unfold idt_gates in Hg; rewrite !elem_of_app, list_elem_of_singleton in Hg.
  - destruct (decide (i = 0x80)) as [->|Hne].
    + rewrite (decide_False (P := _ ∈ idt_public)), (decide_True (P := _ ∈ [_])) by (tauto || left). by eexists.
    + rewrite (decide_False (P := _ ∈ [_])) by (by rewrite list_elem_of_singleton). repeat case_decide; try (by eexists). tauto.
  - rewrite (decide_False (P := _ ∈ idt_public)), (decide_False (P := _ ∈ [_])), (decide_False (P := _ ∈ idt_interrupts)),
      (decide_False (P := _ ∈ idt_exceptions)) by (rewrite ?list_elem_of_singleton; tauto). done.
Qed.
End Gates.

Lemma idt_gates_set_witness : exists e, ir_idt_init (fun i => 0x1000 + 16 * i) (replicate 256 0) 0x7000 !! 128%nat = Some e /\ gate e 0x8800 3.
Proof.
  pose proof (idt_gates_set (fun i => 0x1000 + 16 * i) 0x7000 (replicate 256 0) eq_refl 0x80 ltac:(lia)) as Hg.
  rewrite decide_True in Hg by (apply (bool_decide_unpack (_ ∈ _)); vm_compute; exact I). exact Hg.
Defined.

(** ** The handlers are well kept *)

(** The entry of a vector has the array [a]. *)
Definition entry_array {H} (st : io_interrupts H) (i : nat) (a : array_t) : Prop :=
  exists e p, ii_entries st !! i = Some (Some e) /\ ie_handler e = Some (p, a).

(** Every entry has an array of handlers that exist; the arrays have a block each,
    and no handler lies in one. *)
Record io_ok {H} `{KernelHeap H} (st : io_interrupts H) : Prop := {
  io_heap : heap_ok (ii_heap st);
  io_entry i e : ii_entries st !! i = Some (Some e) -> exists p a, ie_handler e = Some (p, a);
  io_array i a : entry_array st i a -> exists xs, array_rep (ii_heap st) a xs /\ Forall (fun x => is_Some (ii_handlers st !! x)) xs;
  io_data i j a b : entry_array st i a -> entry_array st j b -> i <> j -> ar_data a <> ar_data b;
  io_handler x : is_Some (ii_handlers st !! x) -> exists n, live (ii_heap st) x n;
  io_outside x i a : is_Some (ii_handlers st !! x) -> entry_array st i a -> x <> ar_data a
}.

(** The arrays have room to grow within 32 bits. *)
Definition arrays_small {H} (st : io_interrupts H) : Prop := forall i a, entry_array st i a -> array_small a.

(** At most the entry of vector [i] changed; handlers and dispatches stay. *)
Record only_at {H} (i : Z) (st st' : io_interrupts H) : Prop := {
  oa_entries j : j <> Z.to_nat i -> ii_entries st' !! j = ii_entries st !! j;
  oa_handlers : ii_handlers st ⊆ ii_handlers st';
  oa_dispatched : ii_dispatched st ⊆ ii_dispatched st'
}.

Section Kept.
Context {H : Type} `{KernelHeapOk H}.
Implicit Types (st : io_interrupts H).

Lemma only_at_refl i st : only_at i st st.
Proof. by split. Qed.

Lemma only_at_trans i st1 st2 st3 : only_at i st1 st2 -> only_at i st2 st3 -> only_at i st1 st3.
Proof. intros [E1 X1 D1] [E2 X2 D2]. split; [intros j Hj; by rewrite E2, E1|by etrans|by etrans]. Qed.

Lemma put_entry_only st i e h : only_at i st (put_entry st i e h).
Proof. split; [|done..]. intros j Hj. cbn. by rewrite list_lookup_insert_ne. Qed.

Lemma array_rep_mono (h h' : H) a xs : array_rep h a xs -> heap_ok h' ->
  (forall m, live h (ar_data a) m -> live h' (ar_data a) m) -> array_rep h' a xs.
Proof. intros [] Hh Hl. split; try done. destruct rep_data as (k & ? & ?). exists k. auto. Qed.

Lemma grow_ok st h' : io_ok st -> heap_ok h' -> (forall q m, live (ii_heap st) q m -> live h' q m) -> io_ok (set_heap st h').
Proof.
  intros [] Hh Hl. split; cbn; try done.
  - intros i a Ha. destruct (io_array0 i a Ha) as (xs & Hr & Hx). exists xs. split; [|done]. eapply array_rep_mono; [exact Hr|done|auto].
  - intros x Hx. destruct (io_handler0 x Hx) as (n & Hn). eauto.
Qed.

(** What the heap has just handed out belongs to nobody. *)
Lemma fresh_unused st x : io_ok st -> (forall m, ~ live (ii_heap st) x m) ->
  ii_handlers st !! x = None /\ forall i a, entry_array st i a -> x <> ar_data a.
Proof.
  intros [] Hx. split.
  - destruct (ii_handlers st !! x) eqn:E; [|done]. destruct (io_handler0 x ltac:(by eexists)) as (n & Hn). by destruct (Hx n).
  - intros i a Ha ->. destruct (io_array0 i a Ha) as (xs & [] & _). destruct rep_data as (k & Hk & _). by destruct (Hx k).
Qed.

Lemma handler_ok st x n hd : io_ok st -> live (ii_heap st) x n -> (forall i a, entry_array st i a -> x <> ar_data a) ->
  io_ok (put_handler st x hd).
Proof.
  intros [] Hl Hne. assert (Hins : forall y, is_Some (ii_handlers st !! y) -> is_Some (<[x := hd]> (ii_handlers st) !! y))
    by (intros y Hy; apply lookup_insert_is_Some'; by right).
  assert (Hold : forall y, is_Some (<[x := hd]> (ii_handlers st) !! y) -> y = x \/ is_Some (ii_handlers st !! y))
    by (intros y [->|?]%lookup_insert_is_Some'; auto).
  split; cbn; try done.
  - intros i a Ha. destruct (io_array0 i a Ha) as (xs & Hr & Hx). exists xs. split; [done|]. eapply Forall_impl; [exact Hx|]. auto.
  - intros y [->|Hy]%Hold; eauto.
  - intros y i a [->|Hy]%Hold Ha; eauto.
Qed.

(** The array of an entry is changed. *)
Lemma array_changes st i e p a a' xs h' b : io_ok st -> ii_entries st !! Z.to_nat i = Some (Some e) -> ie_handler e = Some (p, a) ->
  array_rep h' a' xs -> same_others (ii_heap st) a h' a' -> Forall (fun x => is_Some (ii_handlers st !! x)) xs ->
  io_ok (put_entry st i (IoEntry b (Some (p, a'))) h').
Proof.
  intros [] Ee Ea Hr Hs Hx. set (st' := put_entry st i _ h').
  assert (Hi : entry_array st (Z.to_nat i) a) by (by exists e, p).
  assert (Hcase : forall j c, entry_array st' j c -> (j = Z.to_nat i /\ c = a') \/ (j <> Z.to_nat i /\ entry_array st j c)).
  { intros j c (e' & p' & Ee' & Ec). cbn in Ee'. destruct (decide (j = Z.to_nat i)) as [->|Hne].
    - rewrite list_lookup_insert_eq in Ee' by (by eapply lookup_lt_Some). injection Ee' as <-. injection Ec as -> ->. by left.
    - rewrite list_lookup_insert_ne in Ee' by done. right. split; [done|]. by exists e', p'. }
  assert (Hother : forall q m, live (ii_heap st) q m -> q <> ar_data a -> live h' q m /\ q <> ar_data a') by (intros; by apply Hs).
  assert (Hlive : forall j c, entry_array st j c -> exists m, live (ii_heap st) (ar_data c) m).
  { intros j c Hc. destruct (io_array0 j c Hc) as (ys & [] & _). destruct rep_data as (k & Hk & _). by exists k. }
  split; cbn.
  - by destruct Hr.
  - intros j e' Ee'. destruct (decide (j = Z.to_nat i)) as [->|Hne].
    + rewrite list_lookup_insert_eq in Ee' by (by eapply lookup_lt_Some). injection Ee' as <-. by eexists _, _.
    + rewrite list_lookup_insert_ne in Ee' by done. eauto.
  - intros j c [[-> ->]|[Hne Hc]]%Hcase; [by exists xs|]. destruct (io_array0 j c Hc) as (ys & Hr2 & Hy). exists ys. split; [|done].
    eapply array_rep_mono; [done|by destruct Hr|]. intros m Hm. apply Hother; [done|]. by eapply io_data0.
  - intros j k c d [[-> ->]|[Hj Hc]]%Hcase [[-> ->]|[Hk Hd]]%Hcase Hjk; [done| | |by eapply io_data0].
    + destruct (Hlive k d Hd) as [m Hm]. apply not_eq_sym, (Hother _ m Hm). by eapply io_data0.
    + destruct (Hlive j c Hc) as [m Hm]. apply (Hother _ m Hm). by eapply io_data0.
  - intros x Hx1. destruct (io_handler0 x Hx1) as (n & Hn). exists n. apply Hother; [done|]. by eapply io_outside0.
  - intros x j c Hx1 [[-> ->]|[Hj Hc]]%Hcase; [|by eapply io_outside0]. destruct (io_handler0 x Hx1) as (n & Hn).
    apply (Hother x n Hn). by eapply io_outside0.
Qed.

(** A vector gets an entry with an empty array. *)
Lemma entry_made st i p a h' b : io_ok st -> ii_entries st !! Z.to_nat i = Some None -> array_rep h' a [] ->
  (forall m, ~ live (ii_heap st) (ar_data a) m) -> (forall q m, live (ii_heap st) q m -> live h' q m) ->
  io_ok (put_entry st i (IoEntry b (Some (p, a))) h').
Proof.
  intros Hok Ee Hr Hnew Hl. destruct (fresh_unused st _ Hok Hnew) as [Hfree Hapart]. pose proof Hok as []. set (st' := put_entry st i _ h').
  assert (Hcase : forall j c, entry_array st' j c -> (j = Z.to_nat i /\ c = a) \/ (j <> Z.to_nat i /\ entry_array st j c)).
  { intros j c (e' & p' & Ee' & Ec). cbn in Ee'. destruct (decide (j = Z.to_nat i)) as [->|Hne].
    - rewrite list_lookup_insert_eq in Ee' by (by eapply lookup_lt_Some). injection Ee' as <-. injection Ec as -> ->. by left.
    - rewrite list_lookup_insert_ne in Ee' by done. right. split; [done|]. by exists e', p'. }
  split; cbn.
  - by destruct Hr.
  - intros j e' Ee'. destruct (decide (j = Z.to_nat i)) as [->|Hne].
    + rewrite list_lookup_insert_eq in Ee' by (by eapply lookup_lt_Some). injection Ee' as <-. by eexists _, _.
    + rewrite list_lookup_insert_ne in Ee' by done. eauto.
  - intros j c [[-> ->]|[Hne Hc]]%Hcase; [by exists []|]. destruct (io_array0 j c Hc) as (ys & Hr2 & Hy). exists ys. split; [|done].
    eapply array_rep_mono; [done|by destruct Hr|auto].
  - intros j k c d [[-> ->]|[Hj Hc]]%Hcase [[-> ->]|[Hk Hd]]%Hcase Hjk; [done| | |by eapply io_data0].
    + by eapply Hapart.
    + by eapply not_eq_sym, Hapart.
  - intros x Hx. destruct (io_handler0 x Hx) as (n & Hn). eauto.
  - intros x j c Hx [[-> ->]|[Hj Hc]]%Hcase; [|by eapply io_outside0]. intros ->. rewrite Hfree in Hx. by destruct Hx.
Qed.

(** Adding a handler to the array of an entry. *)
Lemma add_handler_ok st i e x st' p a xs : io_ok st -> ii_entries st !! Z.to_nat i = Some (Some e) -> ie_handler e = Some (p, a) ->
  array_rep (ii_heap st) a xs -> Forall (fun x => is_Some (ii_handlers st !! x)) xs ->
  array_small a -> is_Some (ii_handlers st !! x) -> add_handler st i e x = Ok st' ->
  io_ok st' /\ only_at i st st' /\ ii_handlers st' = ii_handlers st /\
  exists a', ii_entries st' !! Z.to_nat i = Some (Some (IoEntry (ie_exclusive e) (Some (p, a')))) /\
    ar_count a' = Z.of_nat (length (xs ++ [x])) /\ holds (ar_cells a') (xs ++ [x]).
Proof.
  intros Hok Ee Ea Hr Hxs Hsm Hx E. unfold add_handler in E. rewrite Ea in E. cbn [of_option obind] in E.
  apply obind_Ok in E as ([a' h'] & Eadd & E). injection E as <-.
  pose proof (add_spec (ii_heap st) a xs x Hr Hsm) as Hadd. unfold starved in Hadd. cbn [array_serve] in Hadd. rewrite Eadd in Hadd. cbn [obind] in Hadd.
  destruct Hadd as [(_ & _ & [=])|(a1 & h1 & [= <- <-] & Hr' & Hs)]. split_and!; [|apply put_entry_only|done|].
  - eapply array_changes; try done. apply Forall_app. split; [done|]. by constructor.
  - exists a'. destruct Hr'. split_and!; [|done..]. cbn. rewrite list_lookup_insert_eq; [done|]. by eapply lookup_lt_Some.
Qed.

(** Taking memory keeps everything; what is new belongs to nobody. *)
Lemma halloc_kept st n p h' : io_ok st -> 0 <= n <= max_request -> halloc (ii_heap st) n = Ok (p, h') ->
  io_ok (set_heap st h') /\ (forall q m, live (ii_heap st) q m -> live h' q m) /\
  (p <> NULL -> (forall m, ~ live (ii_heap st) p m) /\ exists k, live h' p k).
Proof.
  intros Hok Hn E. destruct (halloc_ok _ _ _ _ (io_heap _ Hok) Hn E) as [Hh' [[-> Hl]|(Hp & Hnew & k & Hk & Hl)]].
  - split_and!; [apply grow_ok; [done..|]| |done]; intros q m; by rewrite Hl.
  - assert (Hmono : forall q m, live (ii_heap st) q m -> live h' q m) by (intros q m Hq; apply Hl; by left).
    split_and!; [by apply grow_ok|done|]. intros _. split; [done|]. exists k. apply Hl. by right.
Qed.

(** An array that could not be made cannot be added to. *)
Lemma add_needs_array st i b arr x st' : add_handler st i (IoEntry b arr) x = Ok st' -> exists p a, arr = Some (p, a).
Proof. destruct arr as [[p a]|]; [by eexists _, _|done]. Qed.

Lemma fresh_array (h : H) p a h' : array_create h = Ok (Some (p, a), h') -> ar_count a = 0 /\ ar_space a = 5 /\ ar_allocationStep a = UINT32_MAX /\
  ar_cells a = data_block 5 (ar_data a).
Proof.
  unfold array_create. intros E. apply obind_Ok in E as ([q h1] & _ & E). destruct (q =? NULL); [done|].
  apply obind_Ok in E as ([d h2] & _ & E). by injection E as _ <- _.
Qed.

Lemma add_needs_block st i b p a x st' h h' : array_create h = Ok (Some (p, a), h') ->
  add_handler st i (IoEntry b (Some (p, a))) x = Ok st' -> ar_data a <> NULL.
Proof.
  intros (Hc & Hs & Hst & Hd)%fresh_array E Enull. unfold add_handler in E. cbn [ie_handler of_option obind] in E. apply obind_Ok in E as (r & E & _).
  unfold array_addObject, __array_resizeToNextStepIfNeeded in E. rewrite Hs, Hc in E. cbn [obind] in E.
  change (u32 (5 - 1) <=? 0) with false in E. cbn [obind] in E. rewrite ?Hc, Hd, Enull in E. done.
Qed.

(** The new array belongs to nobody else. *)
Lemma entry_created st i b p a h' : io_ok st -> ii_entries st !! Z.to_nat i = Some None -> array_create (ii_heap st) = Ok (Some (p, a), h') ->
  ar_data a <> NULL ->
  io_ok (put_entry st i (IoEntry b (Some (p, a))) h') /\ array_rep h' a [] /\ array_small a /\
  (forall q m, live (ii_heap st) q m -> live h' q m) /\ forall q m, live (ii_heap st) q m -> q <> ar_data a.
Proof.
  intros Hok Ee Ec Hd. pose proof (fresh_array _ _ _ _ Ec) as (_ & Hs & Hst & _).
  destruct (array_create_rep _ _ _ _ (io_heap _ Hok) Ec Hd) as (Hr & k & _ & _ & Hl).
  assert (Hold : forall q m, live (ii_heap st) q m -> live h' q m /\ q <> ar_data a) by (intros q m Hq; apply Hl in Hq; tauto).
  split_and!; [|done| | |]; [|split; rewrite Hs; [lia|by rewrite Hst]|intros q m Hq; by apply Hold|intros q m Hq; by apply (Hold q m)].
  apply entry_made; [done..| |intros q m Hq; by apply Hold]. intros m Hm. by apply Hold in Hm as [_ ?].
Qed.

(** The first handler of a vector. *)
Lemma first_handler st i b arr h x hd n st' : io_ok st -> ii_entries st !! Z.to_nat i = Some None ->
  array_create (ii_heap st) = Ok (arr, h) -> live (ii_heap st) x n -> ii_handlers st !! x = None -> (forall j a, entry_array st j a -> x <> ar_data a) ->
  add_handler (put_handler (put_entry st i (IoEntry b arr) h) x hd) i (IoEntry b arr) x = Ok st' ->
  io_ok st' /\ only_at i st st' /\ exists p a, ii_entries st' !! Z.to_nat i = Some (Some (IoEntry b (Some (p, a)))) /\
    ar_count a = 1 /\ holds (ar_cells a) [x] /\ ii_handlers st' !! x = Some hd.
Proof.
  intros Hok Ee Ec Hx Hnone Hne E. destruct (add_needs_array _ _ _ _ _ _ E) as (p & a & ->). pose proof (add_needs_block _ _ _ _ _ _ _ _ _ Ec E) as Hd.
  destruct (entry_created st i b p a h Hok Ee Ec Hd) as (Hok1 & Hr & Hsm & Hl & Hxa).
  set (st1 := put_entry st i (IoEntry b (Some (p, a))) h) in *.
  assert (Hne1 : forall j c, entry_array st1 j c -> x <> ar_data c).
  { intros j c (e' & p' & Ee' & Ec'). cbn in Ee'. destruct (decide (j = Z.to_nat i)) as [->|Hj].
    - rewrite list_lookup_insert_eq in Ee' by (by eapply lookup_lt_Some). injection Ee' as <-. injection Ec' as -> ->. by eapply Hxa.
    - rewrite list_lookup_insert_ne in Ee' by done. apply (Hne j). by exists e', p'. }
  pose proof (handler_ok st1 x n hd Hok1 (Hl _ _ Hx) Hne1) as Hok2.
  assert (Ee1 : ii_entries (put_handler st1 x hd) !! Z.to_nat i = Some (Some (IoEntry b (Some (p, a)))))
    by (cbn; apply list_lookup_insert_eq; by eapply lookup_lt_Some).
  destruct (add_handler_ok _ i _ x st' p a [] Hok2 Ee1 eq_refl Hr ltac:(by constructor) Hsm) as (Hok' & Honly & Hh & a' & Ea' & Hc' & Hcells); [|done|].
  - cbn. rewrite lookup_insert_eq. by eexists.
  - split_and!; [done| |].
    + eapply only_at_trans; [|exact Honly]. split; cbn; [|by apply insert_subseteq|done]. intros j Hj. by rewrite list_lookup_insert_ne.
    + exists p, a'. rewrite Hh. cbn. by rewrite lookup_insert_eq.
Qed.

Lemma find_handler_range st a owner n : forall i j, find_handler n st a i owner = Ok (Some j) -> i <= j < i + Z.of_nat n.
Proof.
  induction n as [|n IH]; intros i j E; [done|]. cbn [find_handler] in E. apply obind_Ok in E as (p & _ & E). apply obind_Ok in E as (hd & _ & E).
  destruct (ih_owner hd =? owner); [injection E as <-; lia|]. apply IH in E. lia.
Qed.

Lemma remove_handler_ok st i e owner r st' : io_ok st -> ii_entries st !! Z.to_nat i = Some (Some e) -> arrays_small st ->
  remove_handler st i e owner = Ok (r, st') -> io_ok st' /\ only_at i st st'.
Proof.
  intros Hok Ee Hsm E. destruct (io_entry _ Hok _ _ Ee) as (p & a & Ea). unfold remove_handler in E. rewrite Ea in E. cbn [of_option obind] in E.
  assert (Ha : entry_array st (Z.to_nat i) a) by (by exists e, p). destruct (io_array _ Hok _ _ Ha) as (xs & Hr & Hxs).
  apply obind_Ok in E as (found & Ef & E). destruct found as [j|]; [|injection E as _ <-; by split; [|apply only_at_refl]].
  apply find_handler_range in Ef. unfold array_count in Ef. apply obind_Ok in E as ([a' h'] & Er & E). injection E as _ <-.
  pose proof (rep_count _ _ _ Hr) as Hc.
  pose proof (remove_at_spec (ii_heap st) a xs (Z.to_nat j) Hr (Hsm _ _ Ha) ltac:(lia)) as Hrm. unfold starved in Hrm.
  cbn [array_serve] in Hrm. rewrite Z2Nat.id, Er in Hrm by lia. cbn [obind] in Hrm.
  destruct Hrm as [(_ & _ & [=])|(a1 & h1 & [= <- <-] & Hr' & Hs)]. split; [|apply put_entry_only].
  eapply array_changes; try done. rewrite Forall_forall in *. intros x Hx. apply Hxs.
  rewrite delete_take_drop in Hx. apply elem_of_app in Hx as [Hx|Hx]; [by eapply subseteq_take|by eapply subseteq_drop].
Qed.

(** What registering changes. *)
Lemma new_entry_alloc st i b x e st' : io_ok st -> ii_entries st !! Z.to_nat i = Some None -> new_entry st i b = Ok (Some (x, e), st') ->
  exists h1 arr h2 n, e = IoEntry b arr /\ io_ok (set_heap st h1) /\ array_create h1 = Ok (arr, h2) /\ live h1 x n /\ (forall m, ~ live (ii_heap st) x m) /\
    st' = IoInterrupts (ii_entries (put_entry st i e h2)) (ii_handlers st) (i :: ii_dispatched st) h2.
Proof.
  intros Hok Ee E. unfold new_entry in E. apply obind_Ok in E as ([hp h] & E1 & E). apply obind_Ok in E as ([ep h1] & E2 & E).
  destruct (Z.eqb_spec hp NULL) as [->|Hhp]; cbn [orb] in E; [apply obind_Ok in E as (h3 & _ & (h4 & _ & E)%obind_Ok); discriminate E|].
  destruct (Z.eqb_spec ep NULL) as [->|Hep]; [apply obind_Ok in E as (h3 & _ & (h4 & _ & E)%obind_Ok); discriminate E|].
  apply obind_Ok in E as ([arr h2] & E3 & E). injection E as <- <- <-.
  destruct (halloc_kept st sizeof_handler hp h Hok ltac:(done) E1) as (Hok1 & Hl1 & Hnew1). destruct (Hnew1 Hhp) as [Hfresh (n & Hn)].
  destruct (halloc_kept (set_heap st h) sizeof_entry ep h1 Hok1 ltac:(done) E2) as (Hok2 & Hl2 & _). exists h1, arr, h2, n. split_and!; try done. by apply Hl2.
Qed.

Lemma new_entry_none st i b st' : io_ok st -> new_entry st i b = Ok (None, st') -> io_ok st' /\ only_at i st st'.
Proof.
  intros Hok E. unfold new_entry in E. apply obind_Ok in E as ([hp h] & E1 & E). apply obind_Ok in E as ([ep h1] & E2 & E).
  destruct (halloc_kept st sizeof_handler hp h Hok ltac:(done) E1) as (Hok1 & Hl1 & Hnew1).
  destruct (halloc_kept (set_heap st h) sizeof_entry ep h1 Hok1 ltac:(done) E2) as (Hok2 & Hl2 & Hnew2). cbn in Hl2, Hnew2.
  destruct (_ || _) eqn:Eor; [|apply obind_Ok in E as ([arr h2] & E3 & E); discriminate E].
  apply obind_Ok in E as (h3 & E3 & E). apply obind_Ok in E as (h4 & E4 & E). injection E as <-. split; [|by split].
  assert (A3 : heap_ok h3 /\ forall q m, live (ii_heap st) q m -> live h3 q m).
  { destruct (Z.eqb_spec hp NULL) as [->|Hhp]; [injection E3 as <-; split; [apply Hok2|auto]|]. destruct (Hnew1 Hhp) as [Hf (n & Hn)].
    destruct (hfree_ok h1 hp n (io_heap _ Hok2) (Hl2 _ _ Hn)) as (h3' & E3' & Hh & Hl). rewrite E3 in E3'. injection E3' as <-. split; [done|].
    intros q m Hq. apply Hl. split; [auto|]. intros ->. by destruct (Hf m). }
  destruct A3 as [Hh3 Hl3]. apply grow_ok; [done|..]; destruct (Z.eqb_spec ep NULL) as [->|Hep]; try (injection E4 as <-; done).
  all: destruct (Z.eqb_spec hp NULL) as [->|Hhp]; [injection E3 as <-|discriminate Eor].
  all: destruct (Hnew2 Hep) as [Hf (n & Hn)]; destruct (hfree_ok h1 ep n Hh3 Hn) as (h4' & E4' & Hh & Hl); rewrite E4 in E4'; injection E4' as <-.
  { done. }
  intros q m Hq. apply Hl. split; [auto|]. intros ->. apply Hl1 in Hq. by destruct (Hf m).
Qed.

Lemma new_entry_first st i b x e st1 hd st' : io_ok st -> ii_entries st !! Z.to_nat i = Some None -> new_entry st i b = Ok (Some (x, e), st1) ->
  add_handler (put_handler st1 x hd) i e x = Ok st' ->
  io_ok st' /\ only_at i st st' /\ i ∈ ii_dispatched st' /\ exists p a, ii_entries st' !! Z.to_nat i = Some (Some (IoEntry b (Some (p, a)))) /\
    ar_count a = 1 /\ holds (ar_cells a) [x] /\ ii_handlers st' !! x = Some hd.
Proof.
  intros Hok Ee E1 E2. destruct (new_entry_alloc _ _ _ _ _ _ Hok Ee E1) as (h1 & arr & h2 & n & -> & Hok1 & Ec & Hx & Hfresh & ->).
  destruct (fresh_unused st x Hok Hfresh) as [Hnone Hne].
  (* The dispatch list takes no part in what is done to the arrays. *)
  set (st0 := IoInterrupts (ii_entries st) (ii_handlers st) (i :: ii_dispatched st) h1).
  assert (Hok0 : io_ok st0) by (by destruct Hok1; split).
  destruct (first_handler st0 i b arr h2 x hd n st' Hok0 Ee Ec Hx Hnone Hne E2) as (Hok' & [O1 O2 O3] & Hrest).
  split_and!; [done| |apply O3; left|done]. split; [done..|]. etrans; [|exact O3]. cbn. set_solver.
Qed.

(** Registering a handler keeps the handlers well and touches one vector. *)
Lemma register_ok st i exclusive owner context callback r st' : io_ok st -> arrays_small st ->
  kern_registerForInterrupt st i exclusive owner context callback = Ok (r, st') -> io_ok st' /\ only_at i st st'.
Proof.
  intros Hok Hsm E. unfold kern_registerForInterrupt in E. destruct (ii_entries st !! Z.to_nat i) as [entry|] eqn:Ee; [|done]. cbn [of_option obind] in E.
  destruct entry as [e|]; (destruct (callback =? NULL); [try (by eapply remove_handler_ok)|]).
  - destruct (_ || _); [injection E as _ <-; by split; [|apply only_at_refl]|]. apply obind_Ok in E as ([x h] & Ex & E).
    destruct (halloc_kept st sizeof_handler x h Hok ltac:(done) Ex) as (Hok1 & Hl & Hnew).
    destruct (Z.eqb_spec x NULL) as [->|Hx]; [injection E as _ <-; by split|]. apply obind_Ok in E as (st1 & E & Er). injection Er as _ <-.
    destruct (Hnew Hx) as [Hfresh (n & Hn)]. destruct (fresh_unused st x Hok Hfresh) as [Hnone Hne].
    pose proof (handler_ok (set_heap st h) x n (IoHandler callback owner context) Hok1 Hn Hne) as Hok2.
    destruct (io_entry _ Hok2 _ _ Ee) as (p & a & Ea). assert (Ha : entry_array st (Z.to_nat i) a) by (by exists e, p).
    destruct (io_array _ Hok2 _ _ Ha) as (xs & Hr & Hxs).
    destruct (add_handler_ok _ i e x st1 p a xs Hok2 Ee Ea Hr Hxs (Hsm _ _ Ha)) as (Hok3 & Honly & _); [cbn; rewrite lookup_insert_eq; by eexists|done|].
    split; [done|]. eapply only_at_trans; [|exact Honly]. split; cbn; [done|by apply insert_subseteq|done].
  - injection E as _ <-. by split; [|apply only_at_refl].
  - apply obind_Ok in E as ([made st1] & En & E). destruct made as [[x e]|].
    + apply obind_Ok in E as (st2 & E & Er). injection Er as _ <-. by destruct (new_entry_first _ _ _ _ _ _ _ _ Hok Ee En E) as (? & ? & _).
    + injection E as _ <-. by eapply new_entry_none.
Qed.

(** So does asking for a vector of one's own. *)
Lemma request_loop_ok n : forall st i owner context callback r o st', io_ok st -> 0 <= i ->
  request_loop n st i owner context callback = Ok (r, o, st') ->
  io_ok st' /\ (st' = st \/ exists j, i <= j /\ ii_entries st !! Z.to_nat j = Some None /\ only_at j st st').
Proof.
  induction n as [|n IH]; intros st i owner context callback r o st' Hok Hi E; cbn [request_loop] in E; [simplify_eq; auto|].
  assert (Hnext : request_loop n st (i + 1) owner context callback = Ok (r, o, st') ->
    io_ok st' /\ (st' = st \/ exists j, i <= j /\ ii_entries st !! Z.to_nat j = Some None /\ only_at j st st')).
  { intros E'. destruct (IH st (i + 1) owner context callback r o st' Hok ltac:(lia) E') as [? [?|(j & ? & ?)]]; [auto|]. split; [done|]. right. exists j. split; [lia|done]. }
  destruct (negb _); [auto|]. destruct (ii_entries st !! Z.to_nat i) as [entry|] eqn:Ee; [|done]. cbn [of_option obind] in E.
  destruct entry as [e|]; [auto|]. clear Hnext. apply obind_Ok in E as ([ep h] & E1 & E). destruct (ep =? NULL); [done|].
  apply obind_Ok in E as ([arr h1] & Ec & E). apply obind_Ok in E as ([x h2] & Ex & E). destruct (Z.eqb_spec x NULL) as [->|Hx]; [done|].
  apply obind_Ok in E as (st1 & E & Er). injection Er as _ _ <-.
  destruct (halloc_kept st sizeof_entry ep h Hok ltac:(done) E1) as (Hok1 & Hl1 & _).
  destruct (add_needs_array _ _ _ _ _ _ E) as (p & a & ->). pose proof (add_needs_block _ _ _ _ _ _ _ _ _ Ec E) as Hd.
  destruct (entry_created (set_heap st h) i true p a h1 Hok1 Ee Ec Hd) as (Hok2 & Hr & Hsm & _).
  destruct (halloc_kept (put_entry (set_heap st h) i (IoEntry true (Some (p, a))) h1) sizeof_handler x h2 Hok2 ltac:(done) Ex) as (Hok3 & Hl3 & Hnew).
  destruct (Hnew Hx) as [Hfresh (k & Hk)]. destruct (fresh_unused _ x Hok2 Hfresh) as [_ Hne].
  pose proof (handler_ok _ x k (IoHandler callback owner context) Hok3 Hk Hne) as Hok4.
  assert (Ee4 : ii_entries (put_entry (set_heap st h) i (IoEntry true (Some (p, a))) h1) !! Z.to_nat i = Some (Some (IoEntry true (Some (p, a)))))
    by (cbn; apply list_lookup_insert_eq; by eapply lookup_lt_Some).
  destruct (add_handler_ok _ i _ x st1 p a [] Hok4 Ee4 eq_refl) as (Hok5 & Honly & _); try done.
  - eapply array_rep_mono; [exact Hr|apply Hok3|]. intros m. apply Hl3.
  - cbn. rewrite lookup_insert_eq. by eexists.
  - split; [done|]. right. exists i. split_and!; [lia|done|]. eapply only_at_trans; [|exact Honly].
    split; cbn; [|apply insert_subseteq|done].
    + intros j Hj. by rewrite list_lookup_insert_ne.
    + by destruct (fresh_unused _ x Hok2 Hfresh) as [? _].
Qed.
End Kept.

(** ** Exclusive handlers *)

Section Exclusive.
Context {H : Type} `{KernelHeapOk H}.
Implicit Types (st : io_interrupts H).

(** The calls of drivers other than [owner].  The arrays of handlers have fewer
    than 2^28 places. *)
Inductive call_of_other (owner : Z) : io_interrupts H -> io_interrupts H -> Prop :=
| other_registers st interrupt exclusive other context callback r st' : other <> owner -> 0 <= interrupt -> arrays_small st ->
    kern_registerForInterrupt st interrupt exclusive other context callback = Ok (r, st') -> call_of_other owner st st'
| other_requests st other context callback r i st' : other <> owner ->
    kern_requestExclusiveInterrupt st other context callback = Ok (r, i, st') -> call_of_other owner st st'.

(** The only handler of the vector is [hd], exclusively, and the dispatch is
    connected. *)
Definition alone st (interrupt : Z) (hd : io_interrupt_handler_t) : Prop :=
  interrupt ∈ ii_dispatched st /\
  exists p a x, ii_entries st !! Z.to_nat interrupt = Some (Some (IoEntry true (Some (p, a)))) /\
    ar_count a = 1 /\ holds (ar_cells a) [x] /\ ii_handlers st !! x = Some hd.

Lemma alone_kept st st' i interrupt hd : Z.to_nat i <> Z.to_nat interrupt -> only_at i st st' -> alone st interrupt hd -> alone st' interrupt hd.
Proof.
  intros Hne [O1 O2 O3] [Hd (p & a & x & Ee & Hc & Hh & Hx)]. split; [by apply O3|]. exists p, a, x. rewrite O1 by done.
  split_and!; [done..|]. by eapply lookup_weaken.
Qed.

Lemma alone_object a x : ar_count a = 1 -> holds (ar_cells a) [x] -> array_objectAtIndex a 0 = Ok x.
Proof. intros Hc Hh. unfold array_objectAtIndex. rewrite Hc. by apply (holds_get _ [x] 0). Qed.

(** Others are refused the vector, and have no handler there to remove. *)
Lemma register_refused st interrupt exclusive other context callback r st' hd : alone st interrupt hd -> other <> ih_owner hd ->
  kern_registerForInterrupt st interrupt exclusive other context callback = Ok (r, st') -> st' = st.
Proof.
  intros [_ (p & a & x & Ee & Hc & Hh & Hx)] Hne E. unfold kern_registerForInterrupt in E. rewrite Ee in E. cbn [of_option obind ie_exclusive orb] in E.
  destruct (callback =? NULL); [|by injection E as _ <-]. unfold remove_handler in E. cbn [ie_handler of_option obind] in E.
  unfold array_count in E. rewrite Hc in E. change (Z.to_nat 1) with 1%nat in E. cbn [find_handler] in E. rewrite (alone_object a x Hc Hh) in E.
  cbn [obind] in E. rewrite Hx in E. cbn [of_option obind] in E. rewrite (proj2 (Z.eqb_neq (ih_owner hd) other)) in E by done.
  cbn [obind] in E. by injection E as _ <-.
Qed.

Lemma others_keep_alone owner st st' interrupt hd : 0 <= interrupt -> ih_owner hd = owner ->
  rtc (call_of_other owner) st st' -> io_ok st -> alone st interrupt hd -> io_ok st' /\ alone st' interrupt hd.
Proof.
  intros Hint Ho. induction 1 as [|st1 st2 st3 Hs _ IH]; [done|]. intros Hok Ha.
  destruct Hs as [st1 i ex other ctx cb r st2 Hne Hi Hsm E|st1 other ctx cb r i st2 Hne E].
  - destruct (register_ok _ _ _ _ _ _ _ _ Hok Hsm E) as [Hok2 Honly]. apply IH; [done|]. destruct (decide (i = interrupt)) as [->|Hii].
    + by rewrite (register_refused _ _ _ _ _ _ _ _ hd Ha ltac:(by rewrite Ho) E).
    + eapply alone_kept; [|done..]. lia.
  - apply request_loop_ok in E as [Hok2 Hst]; [|done|by vm_compute]. apply IH; [done|]. destruct Hst as [->|(j & Hj & Ej & Honly)]; [done|].
    eapply alone_kept; [|done..]. intros Eq. rewrite Eq in Ej. destruct Ha as [_ (p & a & x & Ee & _)]. congruence.
Qed.

(** C11: A driver that has registered for a vector exclusively is connected to it
    and is the only one called for it, with its own context, whatever calls other
    drivers make afterwards, of [kern_registerForInterrupt] and of
    [kern_requestExclusiveInterrupt], for this or other vectors; and the handlers
    stay well kept ([io_ok]). *)
Theorem exclusive_handler_alone st st1 st2 interrupt owner context callback :
  0 <= interrupt -> io_ok st -> ii_entries st !! Z.to_nat interrupt = Some None -> callback <> NULL ->
  kern_registerForInterrupt st interrupt true owner context callback = Ok (kIOReturnSuccess, st1) ->
  rtc (call_of_other owner) st1 st2 ->
  interrupt ∈ ii_dispatched st2 /\ __io_dispatchInterrupt st2 interrupt = Ok [IoHandler callback owner context] /\ io_ok st2.
Proof.
  intros Hint Hok Hfree Hcb E Hs.
  assert (Ha : io_ok st1 /\ alone st1 interrupt (IoHandler callback owner context)).
  { unfold kern_registerForInterrupt in E. rewrite Hfree in E. cbn [of_option obind] in E. rewrite (proj2 (Z.eqb_neq callback NULL) Hcb) in E.
    apply obind_Ok in E as ([made st0] & En & E). destruct made as [[x e]|]; [|discriminate E]. apply obind_Ok in E as (st' & E & Er). injection Er as <-.
    destruct (new_entry_first _ _ _ _ _ _ _ _ Hok Hfree En E) as (Hok1 & _ & Hd & p & a & Hrest). split; [done|]. split; [done|]. by exists p, a, x. }
  destruct Ha as [Hok1 Ha]. destruct (others_keep_alone owner st1 st2 interrupt (IoHandler callback owner context) Hint eq_refl Hs Hok1 Ha)
    as [Hok2 [Hd (p & a & x & Ee & Hc & Hh & Hx)]].
  split_and!; [done| |done]. unfold __io_dispatchInterrupt. rewrite Ee. cbn [of_option obind ie_handler]. unfold array_count. rewrite Hc.
  change (Z.to_nat 1) with 1%nat. cbn [dispatch_calls]. rewrite (alone_object a x Hc Hh). cbn [obind]. by rewrite Hx.
Qed.
End Exclusive.

(** ** What goes wrong *)

Definition no_handlers : io_interrupts cell_heap := IoInterrupts (replicate 256 None) ∅ [] (CellHeap ∅).

(** Nothing is registered at boot, which is well kept. *)
Lemma no_handlers_ok {H} `{KernelHeap H} (h : H) n : heap_ok h -> io_ok (IoInterrupts (replicate n None) ∅ [] h).
Proof.
  intros Hh. assert (Hno : forall i a, ~ entry_array (IoInterrupts (replicate n None) ∅ [] h) i a).
  { intros i a (e & p & Ee & _). by apply lookup_replicate in Ee as [? _]. }
  split; cbn; try done.
  - intros i e Ee. by apply lookup_replicate in Ee as [? _].
  - intros i a Ha. by apply Hno in Ha.
  - intros i j a b Ha. by apply Hno in Ha.
  - intros x [? Hx]. done.
  - intros x i a [? Hx]. done.
Qed.

Definition state_after {A} (o : outcome (A * io_interrupts cell_heap)) : io_interrupts cell_heap :=
  match o with Ok (_, st) => st | _ => no_handlers end.

(** A driver takes vector 0x81; another asks for it and is refused. *)
Definition taken : io_interrupts cell_heap := state_after (kern_registerForInterrupt no_handlers 0x81 true 7 8 9).
Definition refused : io_interrupts cell_heap := state_after (kern_registerForInterrupt taken 0x81 false 17 18 19).

(** A check of [arrays_small] that runs. *)
Definition small_entry (o : option io_interrupt_entry_t) : bool :=
  match o with
  | Some (IoEntry _ (Some (_, a))) => (ar_space a <=? 2 ^ 28) && (ar_allocationStep a =? UINT32_MAX)
  | _ => true
  end.

Lemma small_entries {H} (st : io_interrupts H) : forallb small_entry (ii_entries st) = true -> arrays_small st.
Proof.
  intros Hs i a ([b arr] & p & Ee & Ea). cbn in Ea. subst arr. apply list_elem_of_lookup_2 in Ee. apply list_elem_of_In in Ee.
  pose proof (proj1 (forallb_forall _ _) Hs _ Ee) as Hb. cbn in Hb. apply andb_prop in Hb as [H1%Z.leb_le H2%Z.eqb_eq]. by split.
Qed.

Lemma exclusive_handler_alone_witness : kern_registerForInterrupt taken 0x81 false 17 18 19 = Ok (kIOReturnNoExclusiveAccess, refused) /\
  0x81 ∈ ii_dispatched refused /\ __io_dispatchInterrupt refused 0x81 = Ok [IoHandler 9 7 8].
Proof.
  assert (E1 : kern_registerForInterrupt no_handlers 0x81 true 7 8 9 = Ok (kIOReturnSuccess, taken)) by (vm_compute; reflexivity).
  assert (E2 : kern_registerForInterrupt taken 0x81 false 17 18 19 = Ok (kIOReturnNoExclusiveAccess, refused)) by (vm_compute; reflexivity).
  split; [exact E2|]. refine (let Hx := exclusive_handler_alone no_handlers taken refused 0x81 7 8 9 _ _ _ _ E1 _ in conj (proj1 Hx) (proj1 (proj2 Hx))).
  - clear. lia.
  - by apply no_handlers_ok.
  - vm_compute. reflexivity.
  - clear. discriminate.
  - apply rtc_once. refine (other_registers 7 taken 0x81 false 17 18 19 _ refused _ _ _ E2); clear; [discriminate|lia|].
    apply small_entries. vm_compute. reflexivity.
Defined.

(** The vector given on request is not connected to the dispatch: no handler
    of it is ever called. *)
Lemma requested_not_dispatched : exists st, kern_requestExclusiveInterrupt no_handlers 7 8 9 = Ok (kIOReturnSuccess, Some 0x81, st) /\ ii_dispatched st = [].
Proof. eexists. split; vm_compute; reflexivity. Qed.

(** Every vector below 0x32 counts as public. *)
Lemma reserved_counts_as_public i : 0 <= i <= 0x31 -> ir_isValidInterrupt i true = true /\ ir_isValidInterrupt i false = false.
Proof. intros Hi. unfold ir_isValidInterrupt. rewrite (proj2 (Z.leb_le i 0x31)) by lia. done. Qed.

(** A vector that was given up stays exclusive: it is refused ever after. *)
Definition given_up : io_interrupts cell_heap := state_after (kern_registerForInterrupt taken 0x81 true 7 8 NULL).

Lemma exclusive_never_free : kern_registerForInterrupt taken 0x81 true 7 8 NULL = Ok (kIOReturnSuccess, given_up) /\
  kern_registerForInterrupt given_up 0x81 true 17 18 19 = Ok (kIOReturnNoExclusiveAccess, given_up).
Proof. split; vm_compute; reflexivity. Qed.
