(* ===== verification/IoModule.v ===== *)
(** * Driver modules (sys/ioglue/iomodule.c, sys/kerneld/ioglued.c)

    A module is a library with entry points, counted like the libraries; the
    ioglue daemon stops the modules nobody refers to any more.  What the entry
    points return is a function of their address. *)

From Stdlib Require Import String.
From S2P Require Import Prelude CString Elf ElfLink Linkd IoLibrary IoRelease.

Record io_module_t := IoModule {
  im_library : Z; im_name : list Z; im_lock : bool; im_initialized : bool;
  im_references : Z; im_start : Z; im_stop : Z
}.

Definition sizeof_io_module : Z := 32.

Definition set_references (n : Z) (md : io_module_t) : io_module_t :=
  IoModule (im_library md) (im_name md) (im_lock md) (im_initialized md) n (im_start md) (im_stop md).
Definition set_initialized (b : bool) (md : io_module_t) : io_module_t :=
  IoModule (im_library md) (im_name md) (im_lock md) b (im_references md) (im_start md) (im_stop md).

Section Modules.
Context {Sys : Type} `{IoSys Sys}.
(** What a start or stop function returns, the literals "_kern_start" and
    "_kern_stop", and the bounds of the store's searches. *)
Context (result : Z -> bool) (kern_start kern_stop : Z) (fuel : nat).

Record modules := Modules {
  md_glue : ioglue Sys;
  md_modules : gmap Z io_module_t;
  (** [__io_moduleTree], [__io_moduleLock] and [__ioglued_modulesToStop] *)
  md_tree : gmap (list Z) Z; md_lock : bool; md_toStop : list Z
}.

Definition with_glue (st : modules) (g : ioglue Sys) : modules := Modules g (md_modules st) (md_tree st) (md_lock st) (md_toStop st).
Definition with_module (st : modules) (p : Z) (md : io_module_t) : modules :=
  Modules (md_glue st) (<[p := md]> (md_modules st)) (md_tree st) (md_lock st) (md_toStop st).

Definition module_at (st : modules) (p : Z) : outcome io_module_t := of_option (md_modules st !! p).
Definition module_lock {A} (st : modules) (f : modules -> outcome A) : outcome A := if md_lock st then Hang else f st.

(** [hfree(NULL, module)] *)
Definition free_module (st : modules) (p : Z) : outcome modules :=
  let g := md_glue st in
  let* s := io_hfree (g_sys g) p in
  Ok (Modules (g_with_mem g (g_mem g) s) (delete p (md_modules st)) (md_tree st) (md_lock st) (md_toStop st)).

(** The functions called, in order, and what the last one returned. *)
Definition __io_moduleStart (st : modules) (p : Z) : outcome (list Z * bool) :=
  let* md := module_at st p in
  let* l := library_at (md_glue st) (im_library md) in
  let* calls := init_functions (Z.to_nat (initArrayCount (il_img l))) (g_mem (md_glue st)) (initArray (il_img l)) in
  Ok (calls ++ [im_start md], result (im_start md)).

Definition __io_moduleCreateWithLibrary (st : modules) (library : Z) (retainLibrary : bool) : outcome (Z * modules) :=
  let g := md_glue st in
  let* (p, s) := io_halloc (g_sys g) sizeof_io_module in
  let st := with_glue st (g_with_mem g (g_mem g) s) in
  if p =? NULL then Ok (NULL, st) else
  let* l := library_at g library in
  let* start := io_libraryFindSymbol (g_mem g) (il_img l) kern_start in
  let* stop := io_libraryFindSymbol (g_mem g) (il_img l) kern_stop in
  let st := with_module st p (IoModule library (il_name l) false false 1 start stop) in
  if (start =? NULL) || (stop =? NULL) then let* st := free_module st p in Ok (NULL, st) else
  let* g := if retainLibrary then io_libraryRetain (md_glue st) library else Ok (md_glue st) in
  Ok (p, Modules g (md_modules st) (<[il_name l := p]> (md_tree st)) (md_lock st) (md_toStop st)).

Definition io_moduleRetain (st : modules) (p : Z) : outcome modules :=
  if p =? NULL then Ok st else
  let* md := module_at st p in
  if im_lock md then Hang else Ok (with_module st p (set_references (u32 (im_references md + 1)) md)).

Definition __ioglued_addReferencelessModule (st : modules) (p : Z) : modules :=
  Modules (md_glue st) (md_modules st) (md_tree st) (md_lock st) (md_toStop st ++ [p]).

Definition io_moduleRelease (st : modules) (p : Z) : outcome modules :=
  if p =? NULL then Ok st else
  let* md := module_at st p in
  if im_lock md then Hang else
  let count := u32 (im_references md - 1) in
  let st := with_module st p (set_references count md) in
  Ok (if count =? 0 then __ioglued_addReferencelessModule st p else st).

(** The library the module is made from: the store's, or a new one. *)
Definition module_library (st : modules) (name : list Z) : outcome (option (Z * bool) * modules) :=
  let* library := io_storeLibraryWithName (md_glue st) name in
  if negb (library =? NULL) then Ok (Some (library, false), st) else
  let* (library, g) := io_libraryCreateWithFile fuel (md_glue st) name in
  if library =? NULL then Ok (None, with_glue st g) else
  let* (_, g) := io_storeAddLibrary fuel g library in
  Ok (Some (library, true), with_glue st g).

Definition io_moduleWithName (st : modules) (name : list Z) : outcome (Z * modules) :=
  module_lock st (fun st =>
  match md_tree st !! name with
  | Some p => let* st := io_moduleRetain st p in Ok (p, st)
  | None =>
      let* (library, st) := module_library st name in
      match library with
      | None => Ok (NULL, st)
      | Some (library, created) =>
          let* (p, st) := __io_moduleCreateWithLibrary st library (negb created) in
          if p =? NULL then Ok (NULL, st) else
          let* (_, ok) := __io_moduleStart st p in
          let* md := module_at st p in
          let st := with_module st p (set_initialized ok md) in
          if ok then Ok (p, st) else
          let* g := io_libraryRelease fuel (md_glue st) (im_library md) in
          let* st := free_module (with_glue st g) p in
          Ok (NULL, st)
      end
  end).

Definition io_moduleStop (st : modules) (p : Z) : outcome modules :=
  let* md := module_at st p in
  if negb (result (im_stop md)) then Ok (with_module st p (set_references (u32 (im_references md + 1)) md)) else
  module_lock st (fun st =>
  let st := Modules (md_glue st) (md_modules st) (delete (im_name md) (md_tree st)) (md_lock st) (md_toStop st) in
  let* g := io_libraryRelease fuel (md_glue st) (im_library md) in
  free_module (with_glue st g) p).

(** One round of the daemon's loop over the modules to stop. *)
Fixpoint stop_modules (st : modules) (ps : list Z) : outcome modules :=
  match ps with
  | [] => Ok st
  | p :: ps =>
      let* md := module_at st p in
      if im_lock md then Hang else
      let* st := if im_initialized md then io_moduleStop st p else Ok (__ioglued_addReferencelessModule st p) in
      stop_modules st ps
  end.

Definition ioglued_round (st : modules) : outcome modules :=
  stop_modules (Modules (md_glue st) (md_modules st) (md_tree st) (md_lock st) []) (md_toStop st).

(** ** A module's life *)

(** The module is known under its name, started, and [n] references are held. *)
Record module_in_use (st : modules) (p : Z) (n : Z) (md : io_module_t) : Prop := {
  mu_module : md_modules st !! p = Some md;
  mu_unlocked : im_lock md = false;
  mu_count : im_references md = n /\ 0 < n < 2 ^ 32 - 1;
  mu_known : md_tree st !! im_name md = Some p;
  mu_free : md_lock st = false;
  mu_pointer : p <> NULL
}.

(** Asking for a module that is there and giving it back leaves everything as it
    was. *)
Lemma module_retain_release st p n md : module_in_use st p n md -> n < 2 ^ 32 - 2 ->
  exists st1, io_moduleWithName st (im_name md) = Ok (p, st1) /\ module_in_use st1 p (n + 1) (set_references (n + 1) md) /\
    exists st2, io_moduleRelease st1 p = Ok st2 /\ md_toStop st2 = md_toStop st /\ module_in_use st2 p n md.
Proof.
  intros [Hm Hk [Hc Hn] Ht Hl Hp] Hn2. unfold io_moduleWithName, module_lock. rewrite Hl, Ht. unfold io_moduleRetain, module_at.
  rewrite (proj2 (Z.eqb_neq p NULL) Hp), Hm. cbn [of_option obind]. rewrite Hk, Hc, u32_small by lia. cbn [obind].
  eexists. split; [done|]. split.
  { constructor; cbn; try done; [apply lookup_insert_eq|split; [done|lia]]. }
  unfold io_moduleRelease, module_at. rewrite (proj2 (Z.eqb_neq p NULL) Hp). cbn [with_module md_modules]. rewrite lookup_insert_eq.
  cbn [of_option obind set_references im_lock im_references]. rewrite Hk, u32_small by lia.
  rewrite (proj2 (Z.eqb_neq (n + 1 - 1) 0)) by lia. eexists. split; [done|]. split; [done|].
  constructor; cbn; try done. rewrite insert_insert_eq, lookup_insert_eq. rewrite Z.add_simpl_r, <- Hc. by destruct md.
Qed.

(** A module is entered under the name of its library, and nothing else. *)
Lemma module_entered_under_library_name st library retain p st' l name : library_at (md_glue st) library = Ok l ->
  __io_moduleCreateWithLibrary st library retain = Ok (p, st') -> name <> il_name l -> md_tree st' !! name = md_tree st !! name.
Proof.
  intros Hl E Hne. unfold __io_moduleCreateWithLibrary in E. apply obind_Ok in E as ([q s] & _ & E). destruct (q =? NULL); [by simplify_eq|].
  rewrite Hl in E. cbn [obind] in E. apply obind_Ok in E as (start & _ & (stop & _ & E)%obind_Ok). destruct (_ || _).
  - apply obind_Ok in E as (st1 & E1 & E). simplify_eq. unfold free_module in E1. apply obind_Ok in E1 as (s1 & _ & E1). by simplify_eq.
  - apply obind_Ok in E as (g & _ & E). simplify_eq. cbn. by rewrite lookup_insert_ne.
Qed.
End Modules.
Arguments modules Sys : clear implicits.

(** ** What goes wrong *)

(** The module at 300, of the library at 2, with one reference. *)
Definition one_module : io_module_t := IoModule 2 [50] false true 1 4096 8192.
Definition module_state : modules (list resource) := Modules pair_glue {[ 300 := one_module ]} {[ [50] := 300 ]} false [].

(** A module is given back, which puts it on the daemon's list, and then asked
    for again; the daemon stops and frees it although it is in use. *)
Definition used_and_stopped : outcome (Z * modules (list resource) * modules (list resource)) :=
  let* st := io_moduleRelease module_state 300 in
  let* (p, st) := io_moduleWithName (fun _ => true) 0 0 3 st [50] in
  let* st' := ioglued_round (fun _ => true) 3 st in
  Ok (p, st, st').

Lemma module_stopped_while_used : exists st st', used_and_stopped = Ok (300, st, st') /\
  im_references <$> md_modules st !! 300 = Some 1 /\ md_modules st' !! 300 = None /\ Block 300 ∉ g_sys (md_glue st').
Proof.
  eexists _, _. split; [vm_compute; reflexivity|]. split; [vm_compute; reflexivity|]. split; [vm_compute; reflexivity|].
  vm_compute. by intros [[=]|[]%not_elem_of_nil]%elem_of_cons.
Qed.

(** The daemon asks for modules by path, and the name of a library is that of
    its file: the module is never found again by its path. *)
Lemma module_path_is_not_its_name : file_name (chars "/lib/libPCI.so") = chars "libPCI.so"
  /\ chars "/lib/libPCI.so" <> chars "libPCI.so".
Proof. split; [vm_compute; reflexivity|vm_compute; discriminate]. Qed.
