(* ===== verification/ThreadMemory.v ===== *)
(** * Threads and their memory (sys/scheduler/thread.c)

    Creating, copying and destroying threads: their stacks, the frame the
    processor is started from, their arguments, names and local storage.  The
    machine is the scheduler's state, the kernel's heap and address spaces, and
    what lies in the heap that threads point to. *)

From S2P Require Import Prelude Pages HeapSpec CString LinkedList PMemory VMemory Mmap Scheduler.

Definition THREAD_STACK_LIMIT : Z := 0xFFFF000.
Definition sizeof_thread : Z := 92.
Definition sizeof_listener : Z := 24.

(** ** Field updates *)

Definition th_kernelStack (t : thread_t) (p v : Z) : thread_t :=
  Thread (t_id t) (t_entry t) (t_maxTicks t) (t_usedTicks t) (t_wantedTicks t) (t_blocks t) (t_wasNice t) (t_died t)
    (t_userStackPages t) (t_userStack t) (t_userStackVirt t) p v (t_esp t) (t_arguments t) (t_argumentCount t)
    (t_name t) (t_listener t) (t_tlsVirtual t) (t_tlsPages t) (t_sleeping t) (t_alarm t) (t_process t) (t_next t).
Definition th_userStack (t : thread_t) (pages p v : Z) : thread_t :=
  Thread (t_id t) (t_entry t) (t_maxTicks t) (t_usedTicks t) (t_wantedTicks t) (t_blocks t) (t_wasNice t) (t_died t)
    pages p v (t_kernelStack t) (t_kernelStackVirt t) (t_esp t) (t_arguments t) (t_argumentCount t)
    (t_name t) (t_listener t) (t_tlsVirtual t) (t_tlsPages t) (t_sleeping t) (t_alarm t) (t_process t) (t_next t).
Definition th_arguments (t : thread_t) (arguments count : Z) : thread_t :=
  Thread (t_id t) (t_entry t) (t_maxTicks t) (t_usedTicks t) (t_wantedTicks t) (t_blocks t) (t_wasNice t) (t_died t)
    (t_userStackPages t) (t_userStack t) (t_userStackVirt t) (t_kernelStack t) (t_kernelStackVirt t) (t_esp t) arguments count
    (t_name t) (t_listener t) (t_tlsVirtual t) (t_tlsPages t) (t_sleeping t) (t_alarm t) (t_process t) (t_next t).
Definition th_name (t : thread_t) (name : Z) : thread_t :=
  Thread (t_id t) (t_entry t) (t_maxTicks t) (t_usedTicks t) (t_wantedTicks t) (t_blocks t) (t_wasNice t) (t_died t)
    (t_userStackPages t) (t_userStack t) (t_userStackVirt t) (t_kernelStack t) (t_kernelStackVirt t) (t_esp t) (t_arguments t)
    (t_argumentCount t) name (t_listener t) (t_tlsVirtual t) (t_tlsPages t) (t_sleeping t) (t_alarm t) (t_process t) (t_next t).
Definition th_tls (t : thread_t) (virtual pages : Z) : thread_t :=
  Thread (t_id t) (t_entry t) (t_maxTicks t) (t_usedTicks t) (t_wantedTicks t) (t_blocks t) (t_wasNice t) (t_died t)
    (t_userStackPages t) (t_userStack t) (t_userStackVirt t) (t_kernelStack t) (t_kernelStackVirt t) (t_esp t) (t_arguments t)
    (t_argumentCount t) (t_name t) (t_listener t) virtual pages (t_sleeping t) (t_alarm t) (t_process t) (t_next t).

(** ** Words in memory *)

(** Pushed one after the other: each goes below the one before. *)
Fixpoint push_words (st : vmem) (stack : Z) (ws : list Z) : outcome (Z * vmem) :=
  match ws with
  | [] => Ok (stack, st)
  | w :: ws' => let stack := u32 (stack - 4) in let* st := vstore st stack w in push_words st stack ws'
  end.

Fixpoint store_words (st : vmem) (v : Z) (ws : list Z) : outcome vmem :=
  match ws with
  | [] => Ok st
  | w :: ws' => let* st := vstore st v w in store_words st (v + 4) ws'
  end.

(** What the return from an interrupt pops, in the order it is pushed: stack
    segment and pointer, flags, code segment, entry, error code and interrupt,
    eight registers, four data segments. *)
Definition forged_frame (ss esp cs entry : Z) : list Z :=
  [ss; esp; 0x200; cs; entry; 0; 0] ++ replicate 8 0 ++ replicate 4 ss.

(** [if(errno) *errno = ENOMEM;] on the way out. *)
Definition no_memory : errors := Some ENOMEM.

Definition free_page_range (st : vmem) (p pages : Z) : vmem := set_pages st (pm_free (v_pages st) p pages).

Section Threads.
Context {H : Type} `{KernelHeap H}.
(** The code at an address that is called back. *)
Variable call : Z -> Z -> thread_event_t -> sched -> outcome sched.

(** [m_listeners] is where the list of a thread's listeners is, [m_arguments]
    and [m_names] what is in the blocks that hold arguments and names. *)
Record machine := Machine {
  m_sched : sched;
  m_kernel : kmem H;
  m_listeners : gmap Z Z;
  m_arguments : gmap Z (list Z);
  m_names : gmap Z (list Z)
}.

Definition on_sched (m : machine) (s : sched) : machine := Machine s (m_kernel m) (m_listeners m) (m_arguments m) (m_names m).
Definition on_heap (m : machine) (h : H) : machine :=
  Machine (m_sched m) (Kmem h (k_vm (m_kernel m))) (m_listeners m) (m_arguments m) (m_names m).
Definition on_memory (m : machine) (st : vmem) : machine :=
  Machine (m_sched m) (Kmem (k_heap (m_kernel m)) st) (m_listeners m) (m_arguments m) (m_names m).
Definition m_heap (m : machine) : H := k_heap (m_kernel m).
Definition m_vm (m : machine) : vmem := k_vm (m_kernel m).

(** [thread->field = ...] *)
Definition change (m : machine) (thread : Z) (f : thread_t -> thread_t) : outcome machine :=
  let* t := thread_at (m_sched m) thread in Ok (on_sched m (put_thread (m_sched m) thread (f t))).

Definition pm_alloc_in (m : machine) (pages : Z) : Z * machine :=
  let '(p, h) := pm_alloc (v_pages (m_vm m)) pages in (p, on_memory m (set_pages (m_vm m) h)).
Definition pm_free_in (m : machine) (p pages : Z) : machine := on_memory m (free_page_range (m_vm m) p pages).

Definition thread_createVoid (m : machine) (process entry : Z) : outcome (Z * errors * machine) :=
  let* (thread, h) := halloc (m_heap m) sizeof_thread in
  if thread =? NULL then Ok (NULL, no_memory, on_heap m h) else
  let* (listener, h) := list_create h sizeof_listener in
  match listener with
  | None => let* h := hfree h thread in Ok (NULL, no_memory, on_heap m h)
  | Some (l, _) =>
      Ok (thread, None, Machine (put_thread (m_sched m) thread (new_thread process entry)) (Kmem h (m_vm m))
        (<[thread := l]> (m_listeners m)) (m_arguments m) (m_names m))
  end.

(** ** Destroying *)

(** [if(field) hfree(NULL, field);] *)
Definition free_block (h : H) (p : Z) : outcome H := if p =? NULL then Ok h else hfree h p.

(** The stacks and the local storage are given back; the physical pages as many
    as there are virtual ones. *)
Definition destroy_memory (st : vmem) (pdirectory : Z) (t : thread_t) : outcome vmem :=
  let* st := if t_userStackVirt t =? NULL then Ok st else vm_free st pdirectory (t_userStackVirt t) (t_userStackPages t) in
  let st := if t_userStack t =? NULL then st else free_page_range st (t_userStack t) (t_userStackPages t) in
  let* st := if t_kernelStackVirt t =? NULL then Ok st else
    let* st := vm_free st pdirectory (t_kernelStackVirt t) 1 in
    vm_free st (vm_getKernelDirectory st) (t_kernelStackVirt t) 1 in
  let* st := if t_tlsVirtual t =? 0 then Ok st else
    let* (physical, st) := vm_resolveVirtualAddress st pdirectory (t_tlsVirtual t) in
    let* st := vm_free st pdirectory (t_tlsVirtual t) (t_tlsPages t) in
    Ok (free_page_range st physical (t_tlsPages t)) in
  Ok (if t_kernelStack t =? NULL then st else free_page_range st (t_kernelStack t) 1).

(** A thread that is not attached to its list yet has one all the same; the
    entries of listeners that stay are not in the model's heap. *)
Definition thread_destroy (m : machine) (thread : Z) : outcome machine :=
  let* s := thread_notify call (m_sched m) thread thread_eventDidExit in
  let* t := thread_at s thread in
  let* p := process_at s (t_process t) in
  let* st := destroy_memory (m_vm m) (p_pdirectory p) t in
  let* h := free_block (m_heap m) (t_arguments t) in
  let* h := free_block h (t_name t) in
  let* l := of_option (m_listeners m !! thread) in
  let* h := hfree h l in
  let* h := hfree h thread in
  Ok (Machine (set_threads s (delete thread (s_threads s))) (Kmem h st) (delete thread (m_listeners m))
    (delete (t_arguments t) (m_arguments m)) (delete (t_name t) (m_names m))).

(** [__threadAssert]: the thread is destroyed, there is no memory. *)
Definition abandon_thread (m : machine) (thread : Z) : outcome (Z * errors * machine) :=
  let* m := thread_destroy m thread in Ok (NULL, no_memory, m).

(** ** Creating *)

(** Room for the arguments of a kernel thread. *)
Definition keep_arguments (m : machine) (thread : Z) (args : list Z) : outcome (bool * machine) :=
  let count := Z.of_nat (length args) in
  let* m := change m thread (fun t => th_arguments t NULL count) in
  if 0 <? count then
    let* (arguments, h) := halloc (m_heap m) (u32 (count * 4)) in
    let* m := change (on_heap m h) thread (fun t => th_arguments t arguments count) in
    if arguments =? NULL then Ok (false, m) else
    Ok (true, Machine (m_sched m) (m_kernel m) (m_listeners m) (<[arguments := args]> (m_arguments m)) (m_names m))
  else Ok (true, m).

Definition thread_createKernel (m : machine) (process entry : Z) (args : list Z) : outcome (Z * errors * machine) :=
  let* (thread, errno, m) := thread_createVoid m process entry in
  if thread =? NULL then Ok (NULL, errno, m) else
  let '(kernelStack, m) := pm_alloc_in m 1 in
  if kernelStack =? NULL then abandon_thread m thread else
  let* p := process_at (m_sched m) process in
  let* (virt, st) := vm_allocLimit (m_vm m) (p_pdirectory p) kernelStack 1 THREAD_STACK_LIMIT VM_UPPER_LIMIT VM_FLAGS_KERNEL in
  let* m := change (on_memory m st) thread (fun t => th_kernelStack t kernelStack virt) in
  if virt =? NULL then abandon_thread m thread else
  let stack := u32 (virt + VM_PAGE_SIZE - 4 * Z.of_nat (length args)) in
  let* st := clear_words 1024 (m_vm m) virt in
  let* (kept, m) := keep_arguments (on_memory m st) thread args in
  if negb kept then abandon_thread m thread else
  let* (stack, st) := push_words (m_vm m) stack (forged_frame 0x10 0 0x8 entry) in
  let* m := change (on_memory m st) thread (fun t => th_esp t stack) in
  let* s := thread_attachToProcess (m_sched m) process thread in
  Ok (thread, errno, on_sched m s).

(** The arguments on the first page of the user's stack, through a mapping of it
    in the kernel. *)
Definition push_arguments (st : vmem) (userStack : Z) (args : list Z) : outcome (bool * vmem) :=
  let* (ustack, st) := vm_alloc st (vm_getKernelDirectory st) userStack 1 VM_FLAGS_KERNEL in
  if ustack =? NULL then Ok (false, st) else
  let* st := clear_words 1024 st ustack in
  let* st := store_words st (u32 (ustack + 4096 - 4 * Z.of_nat (length args))) args in
  let* st := vm_free st (vm_getKernelDirectory st) ustack 1 in
  Ok (true, st).

(** Either of the two ranges may be missing. *)
Definition give_back (m : machine) (userStack pages kernelStack : Z) : machine :=
  let m := if userStack =? NULL then m else pm_free_in m userStack pages in
  if kernelStack =? NULL then m else pm_free_in m kernelStack 1.

Definition thread_createUserland (m : machine) (process entry stackSize : Z) (args : list Z) : outcome (Z * errors * machine) :=
  let* (thread, errno, m) := thread_createVoid m process entry in
  if thread =? NULL then Ok (NULL, errno, m) else
  let stackPages := Z.max (VM_PAGE_COUNT stackSize) 32 in
  let '(userStack, m) := pm_alloc_in m stackPages in
  let '(kernelStack, m) := pm_alloc_in m 1 in
  if (userStack =? NULL) || (kernelStack =? NULL) then abandon_thread (give_back m userStack stackPages kernelStack) thread else
  let* p := process_at (m_sched m) process in
  let* (uvirt, st) := vm_allocLimit (m_vm m) (p_pdirectory p) userStack stackPages THREAD_STACK_LIMIT VM_UPPER_LIMIT VM_FLAGS_USERLAND in
  let* m := change (on_memory m st) thread (fun t => th_kernelStack (th_userStack t stackPages userStack uvirt) kernelStack NULL) in
  if uvirt =? NULL then abandon_thread m thread else
  let* (pushed, st) := push_arguments (m_vm m) userStack args in
  if negb pushed then abandon_thread (on_memory m st) thread else
  let* (virt, st) := vm_allocTwoSidedLimit st (p_pdirectory p) kernelStack 1 THREAD_STACK_LIMIT VM_UPPER_LIMIT VM_FLAGS_KERNEL in
  let* m := change (on_memory m st) thread (fun t => th_kernelStack t kernelStack virt) in
  if virt =? NULL then abandon_thread m thread else
  let uesp := u32 (uvirt + 4092 - Z.of_nat (length args) * 4) in
  let* (_, st) := push_words (m_vm m) (u32 (virt + VM_PAGE_SIZE)) (forged_frame 0x23 uesp 0x1B entry) in
  let* m := change (on_memory m st) thread (fun t => th_esp t (u32 (virt + VM_PAGE_SIZE - sizeof_cpu_state))) in
  let* s := thread_attachToProcess (m_sched m) process thread in
  Ok (thread, errno, on_sched m s).

Definition thread_create (m : machine) (process entry stackSize : Z) (args : list Z) : outcome (Z * errors * machine) :=
  let* p := process_at (m_sched m) process in
  if p_ring0 p then thread_createKernel m process entry args
  else thread_createUserland m process entry stackSize args.

(** ** Copying *)

(** A page of the user's stack copied through two mappings in the kernel. *)
Definition copy_userStack (st : vmem) (target source : Z) : outcome (bool * vmem) :=
  let kernel := vm_getKernelDirectory st in
  let* (ustackSource, st) := vm_alloc st kernel source 1 VM_FLAGS_KERNEL in
  let* (ustackTarget, st) := vm_alloc st kernel target 1 VM_FLAGS_KERNEL in
  let free st a := if a =? NULL then Ok st else vm_free st kernel a 1 in
  if (ustackSource =? NULL) || (ustackTarget =? NULL) then
    let* st := free st ustackSource in
    let* st := free st ustackTarget in
    Ok (false, st)
  else
    let* st := copy_words 1024 st ustackTarget ustackSource in
    let* st := vm_free st kernel ustackSource 1 in
    let* st := vm_free st kernel ustackTarget 1 in
    Ok (true, st).

Definition thread_clone (m : machine) (process source : Z) : outcome (Z * errors * machine) :=
  let* src := thread_at (m_sched m) source in
  let* (thread, errno, m) := thread_createVoid m process (t_entry src) in
  if thread =? NULL then Ok (NULL, errno, m) else
  let '(userStack, m) := pm_alloc_in m 1 in
  let '(kernelStack, m) := pm_alloc_in m 1 in
  if (userStack =? NULL) || (kernelStack =? NULL) then abandon_thread (give_back m userStack 1 kernelStack) thread else
  let* m := change m thread (fun t => th_kernelStack (th_userStack t (t_userStackPages src) userStack (t_userStackVirt src)) kernelStack NULL) in
  let* p := process_at (m_sched m) process in
  let* sp := process_at (m_sched m) (t_process src) in
  let* st := vm_mapPageRange (m_vm m) (p_pdirectory p) userStack (t_userStackVirt src) 1 VM_FLAGS_USERLAND in
  let* (physical, st) := vm_resolveVirtualAddress st (p_pdirectory sp) (t_userStackVirt src) in
  let* (copied, st) := copy_userStack st userStack physical in
  if negb copied then abandon_thread (on_memory m st) thread else
  let* (virt, st) := vm_allocTwoSidedLimit st (p_pdirectory p) kernelStack 1 THREAD_STACK_LIMIT VM_UPPER_LIMIT VM_FLAGS_KERNEL in
  let esp := u32 (t_esp src + virt - t_kernelStackVirt src) in
  let* m := change (on_memory m st) thread (fun t => th_esp (th_kernelStack t kernelStack virt) esp) in
  if virt =? NULL then abandon_thread m thread else
  let* st := copy_words 1024 (m_vm m) virt (t_kernelStackVirt src) in
  let m := on_memory m st in
  let* s := thread_attachToProcess (m_sched m) process thread in
  Ok (thread, errno, on_sched m s).

(** ** Local storage and names *)

(** What was in the storage, copied to the new one.  The mapping of the old
    pages in the kernel stays. *)
Definition move_storage (st : vmem) (pdirectory target virtual pages : Z) : outcome vmem :=
  let* (sourcePmemory, st) := vm_resolveVirtualAddress st pdirectory virtual in
  let* (source, st) := vm_alloc st (vm_getKernelDirectory st) sourcePmemory pages VM_FLAGS_USERLAND in
  let* st := copy_words (Z.to_nat (pages * 1024)) st target source in
  let* st := vm_free st pdirectory virtual pages in
  Ok (free_page_range st sourcePmemory pages).

Definition thread_getTLSArea (m : machine) (thread pages : Z) : outcome (Z * errors * machine) :=
  let* t := thread_at (m_sched m) thread in
  let allowedPages := Z.max 1 (Z.min 5 pages) in
  let needsTLSResize := (t_tlsPages t <? allowedPages) && negb (t_tlsVirtual t =? 0) in
  if negb (t_tlsVirtual t =? 0) && (allowedPages <=? t_tlsPages t) then Ok (t_tlsVirtual t, None, m) else
  let* p := process_at (m_sched m) (t_process t) in
  let '(pmemory, m) := pm_alloc_in m allowedPages in
  if pmemory =? 0 then Ok (u32 (-1), no_memory, m) else
  let* (vmemory, st) := vm_alloc (m_vm m) (p_pdirectory p) pmemory allowedPages VM_FLAGS_USERLAND in
  if vmemory =? 0 then Ok (u32 (-1), no_memory, pm_free_in (on_memory m st) pmemory allowedPages) else
  let* (target, st) := vm_alloc st (vm_getKernelDirectory st) pmemory allowedPages VM_FLAGS_KERNEL in
  let* st := clear_words (Z.to_nat (allowedPages * 1024)) st target in
  let* st := if needsTLSResize then move_storage st (p_pdirectory p) target (t_tlsVirtual t) (t_tlsPages t) else Ok st in
  let* st := vm_free st (vm_getKernelDirectory st) target allowedPages in
  let* m := change (on_memory m st) thread (fun t => th_tls t vmemory allowedPages) in
  Ok (vmemory, None, m).

(** The name is its bytes without the terminator, or a null pointer. *)
Definition thread_setName (m : machine) (thread : Z) (name : option (list Z)) : outcome (errors * machine) :=
  let* t := thread_at (m_sched m) thread in
  let* h := free_block (m_heap m) (t_name t) in
  let* m := change (Machine (m_sched m) (Kmem h (m_vm m)) (m_listeners m) (m_arguments m) (delete (t_name t) (m_names m)))
    thread (fun t => th_name t NULL) in
  match name with
  | None => Ok (None, m)
  | Some n =>
      let* (copy, h) := halloc (m_heap m) (u32 (Z.of_nat (length n) + 1)) in
      let m := on_heap m h in
      if copy =? NULL then Ok (no_memory, m) else
      let* m := change m thread (fun t => th_name t copy) in
      Ok (None, Machine (m_sched m) (m_kernel m) (m_listeners m) (m_arguments m) (<[copy := n]> (m_names m)))
  end.

(** ** System calls (scthread.c) *)

Definition _sc_threadAttach (m : machine) (entry stacksize arg1 arg2 : Z) : outcome (Z * errors * machine) :=
  let process := process_getCurrentProcess (m_sched m) in
  let* (thread, errno, m) := thread_create m process entry stacksize [arg1; arg2] in
  if thread =? NULL then Ok (u32 (-1), errno, m) else
  let* t := thread_at (m_sched m) thread in
  Ok (t_id t, errno, m).

Definition _sc_threadTLSArea (m : machine) (pages : Z) : outcome (Z * errors * machine) :=
  let* thread := thread_getCurrentThread (m_sched m) in
  thread_getTLSArea m thread pages.
End Threads.
Arguments machine H : clear implicits.
