(* ===== verification/ThreadMemoryCorrect.v ===== *)
(** * A new thread starts where it should

    What [thread_createKernel] leaves behind: a stack of its own with the frame
    the processor is started from, the thread in its process's list, and no
    other memory touched.  Then threads of a program at work, where the stacks of
    copies show what goes wrong. *)

From S2P Require Import Prelude Pages HeapSpec CellHeap CString LinkedList PMemory VMemory VMemoryCorrect VMemoryMap VMemorySpace VMemoryBoot VMemoryContract Mmap MmapCorrect Scheduler SchedulerCorrect ThreadMemory.

(** ** Writing to a page in use *)

(** Page [k] of the address space is page [q] of memory, which holds data. *)
Record mapped_page (st : vmem) (k q : Z) : Prop := {
  mp_space : space_wf st;
  mp_paging : v_paging st = true;
  mp_k : 0 <= k < 2 ^ 20 - 1;
  mp_q : 0 <= q < 2 ^ 20;
  mp_plain : plain st q;
  mp_there : page_there (v_phys st) (q * 4096);
  mp_entry : entry (v_phys st) k = Z.lor (q * 4096) VM_FLAGS_KERNEL
}.

(** [st'] is [st] but for the words of page [q]. *)
Record only_page (st st' : vmem) (q : Z) : Prop := {
  op_mode : same_mode st st';
  op_pages : v_pages st' = v_pages st;
  op_words b i : b mod 4096 = 0 -> b <> q * 4096 -> 0 <= i < 1024 -> word (v_phys st') b i = word (v_phys st) b i
}.

Lemma only_page_refl st q : only_page st st q.
Proof. by constructor. Qed.

Lemma only_page_trans st1 st2 st3 q : only_page st1 st2 q -> only_page st2 st3 q -> only_page st1 st3 q.
Proof.
  intros [A1 A2 A3] [B1 B2 B3]. constructor; [by eapply same_mode_trans|congruence|]. intros. by rewrite B3, A3.
Qed.

Section Words.
Context (st : vmem) (k q : Z) (Hm : mapped_page st k q).

Lemma mapped_translate i : 0 <= i < 1024 -> translate st (u32 (k * 4096 + 4 * i)) = Ok (q * 4096 + 4 * i).
Proof using Hm.
  intros Hi. destruct Hm as [M1 M2 M3 M4 M5 M6 M7]. rewrite u32_small by lia.
  apply (translate_entry _ k (q * 4096) VM_FLAGS_KERNEL); (done || lia || divmod).
Qed.

Lemma mapped_load i w : 0 <= i < 1024 -> word (v_phys st) (q * 4096) i = Some w -> vload st (k * 4096 + 4 * i) = Ok w.
Proof using Hm. intros Hi Hw. unfold vload. rewrite mapped_translate by done. cbn [obind]. by rewrite pload_word, Hw. Qed.

Context (i w : Z) (Hi : 0 <= i < 1024) (Hw : is_u32 w).
#[local] Abbreviation m := (v_phys st).
#[local] Abbreviation m' := (<[q * 4096 + 4 * i := w]> m).

Lemma data_word b l : b mod 4096 = 0 -> 0 <= l < 1024 ->
  word m' b l = if decide (b = q * 4096 /\ l = i) then Some w else word m b l.
Proof using Hi.
  intros Hb Hl. unfold word. case_decide as Hd; [destruct Hd as [-> ->]; apply lookup_insert_eq|].
  apply lookup_insert_ne. intros E. apply Hd. destruct (word_inj (q * 4096) b i l ltac:(divmod) Hb Hi Hl E). done.
Qed.

Lemma data_dir l : 0 <= l < 1024 -> word m' D l = word m D l.
Proof using Hi Hm.
  intros Hl. rewrite data_word by done. destruct (mp_plain _ _ _ Hm) as (_ & _ & HD & _). rewrite decide_False; [done|]. by intros [E _].
Qed.

Lemma data_there b : b mod 4096 = 0 -> page_there m b -> page_there m' b.
Proof using Hi Hw. intros Hb H l Hl. rewrite data_word by done. case_decide; [by exists w|by apply H]. Qed.

Lemma data_entry j : 0 <= j < 2 ^ 20 -> entry m' j = entry m j.
Proof using Hi Hm.
  intros Hj. unfold entry. rewrite data_dir by divmod. destruct (word m D (j / 1024)) as [e|] eqn:He; [|done].
  destruct (present e) eqn:Hp; [|done]. assert (Hu : is_u32 e) by (apply (dir_present m (v_pages st) (j / 1024)); (apply Hm || done || divmod)).
  rewrite data_word by (apply frame_aligned in Hu; lia || divmod). rewrite decide_False; [done|]. intros [E _].
  destruct (mp_plain _ _ _ Hm) as (_ & _ & _ & Hfr). by apply (Hfr (j / 1024) e); [divmod|..].
Qed.

Lemma data_tables : tables_wf m' (v_pages st).
Proof using Hi Hm Hw.
  pose proof (sw_tables _ (mp_space _ _ _ Hm)) as Hwf. pose proof Hwf as [H1 H2 H3 H4 H5 H6 H7 H8]. constructor; [done|by apply data_there|done|by rewrite data_dir by lia| | | |].
  - intros l e Hl. rewrite data_dir by done. intros He Hp. destruct (H5 l e Hl He Hp) as [Hx Hy].
    split; [|done]. apply data_there; [|done]. apply frame_aligned. by eapply dir_present.
  - intros l l' e1 e2 Hl Hl'. rewrite !data_dir by done. by apply H6.
  - intros j Hj Hf. apply data_there; [divmod|]. by apply H7.
  - intros l e Hl. rewrite data_dir by done. by apply H8.
Qed.

(** A store changes the one word and nothing else. *)
Lemma data_store : vstore st (k * 4096 + 4 * i) w = Ok (set_phys st m') /\ mapped_page (set_phys st m') k q /\
  only_page st (set_phys st m') q.
Proof using Hi Hm Hw.
  pose proof Hm as [M1 M2 M3 M4 M5 M6 M7]. split_and!.
  - unfold vstore. rewrite mapped_translate by done. cbn [obind]. unfold pstore. rewrite decide_True; [done|].
    destruct (M6 i Hi) as (x & Hx & _). by exists x.
  - constructor; [|done|done|done| | |].
    + apply (space_change st); [done|done|apply data_tables|]. intros _. apply data_entry. lia.
    + destruct M5 as (P1 & P2 & P3 & P4). split_and!; [done..|]. intros l e Hl. cbn [v_phys set_phys]. rewrite data_dir by done. by apply P4.
    + apply data_there; [divmod|done].
    + cbn [v_phys set_phys]. by rewrite data_entry by lia.
  - constructor; [done|done|]. intros b l Hb Hne Hl. cbn [v_phys set_phys]. rewrite data_word by done. rewrite decide_False; [done|]. by intros [E _].
Qed.
End Words.

(** ** Clearing a page and pushing words *)

Lemma clear_page k q n : forall st i, mapped_page st k q -> 0 <= i -> i + Z.of_nat n <= 1024 ->
  exists st', clear_words n st (k * 4096 + 4 * i) = Ok st' /\ mapped_page st' k q /\ only_page st st' q.
Proof.
  induction n as [|n IH]; intros st i Hm Hi Hn; [exists st; split_and!; [done..|apply only_page_refl]|].
  destruct (data_store st k q Hm i 0 ltac:(lia) ltac:(unfold is_u32; lia)) as (E & Hm1 & Ho1).
  cbn [clear_words]. rewrite E. cbn [obind]. pose proof (mp_k _ _ _ Hm) as Hk. rewrite u32_small by lia.
  replace (k * 4096 + 4 * i + 4) with (k * 4096 + 4 * (i + 1)) by lia.
  destruct (IH _ (i + 1) Hm1 ltac:(lia) ltac:(lia)) as (st' & E' & Hm' & Ho'). exists st'.
  split_and!; [done..|by eapply only_page_trans].
Qed.

Lemma push_page k q ws : forall st i, mapped_page st k q -> Z.of_nat (length ws) <= i <= 1024 -> Forall is_u32 ws ->
  exists st', push_words st (k * 4096 + 4 * i) ws = Ok (k * 4096 + 4 * (i - Z.of_nat (length ws)), st') /\
    mapped_page st' k q /\ only_page st st' q /\
    (forall d w, ws !! d = Some w -> word (v_phys st') (q * 4096) (i - 1 - Z.of_nat d) = Some w) /\
    (forall l, i <= l < 1024 -> word (v_phys st') (q * 4096) l = word (v_phys st) (q * 4096) l).
Proof.
  induction ws as [|w ws IH]; intros st i Hm Hi Hu.
  { exists st. cbn [push_words length]. replace (i - Z.of_nat 0) with i by lia. split_and!; [done|done|apply only_page_refl|done|done]. }
  cbn [length] in Hi. apply Forall_cons in Hu as [Hw Hu]. pose proof (mp_k _ _ _ Hm) as Hk. pose proof (mp_q _ _ _ Hm) as Hq.
  destruct (data_store st k q Hm (i - 1) w ltac:(lia) Hw) as (E & Hm1 & Ho1).
  cbn [push_words]. replace (k * 4096 + 4 * i - 4) with (k * 4096 + 4 * (i - 1)) by lia. rewrite u32_small by lia.
  rewrite E. cbn [obind]. destruct (IH _ (i - 1) Hm1 ltac:(lia) Hu) as (st' & E' & Hm' & Ho' & Hin & Hout). exists st'.
  split_and!; [rewrite E'; do 3 f_equal; cbn; lia|done|by eapply only_page_trans| |].
  - intros [|d] x Hx; cbn in Hx.
    + injection Hx as ->. rewrite Hout by lia. cbn [v_phys set_phys]. rewrite data_word by (lia || divmod). by rewrite decide_True by lia.
    + replace (i - 1 - Z.of_nat (S d)) with (i - 1 - 1 - Z.of_nat d) by lia. by apply Hin.
  - intros l Hl. rewrite Hout by lia. cbn [v_phys set_phys]. rewrite data_word by (lia || divmod). by rewrite decide_False by lia.
Qed.

(** ** A page for the stack *)

(** Page [q] is taken from the free ones. *)
Lemma tables_take m h h' q : tables_wf m h -> pm_ok h' ->
  (forall j, 0 <= j -> page_free h' j = page_free h j && negb (j =? q)) -> tables_wf m h'.
Proof.
  intros Hwf Hok Hused. pose proof Hwf as [H1 H2 H3 H4 H5 H6 H7 H8]. constructor; try done.
  - by rewrite Hused, H3.
  - intros i e Hi He Hp. destruct (H5 i e Hi He Hp) as [Hx Hy]. split; [done|]. rewrite Hused, Hy; [done|].
    apply Z.div_pos; [|lia]. apply frame_aligned. by eapply dir_present.
  - intros j Hj. rewrite Hused by done. intros [Hf _]%andb_prop. by apply H7.
Qed.

Lemma take_page st : space_wf st -> fst (alloc_page (v_pages st)) <> 0 ->
  exists q, fst (alloc_page (v_pages st)) = q * 4096 /\ 0 < q < 2 ^ 20 /\ page_free (v_pages st) q = true /\
    let st' := set_pages st (snd (alloc_page (v_pages st))) in
    space_wf st' /\ plain st' q /\ page_there (v_phys st') (q * 4096) /\ keeps_plain st st'.
Proof.
  intros Hs Hne. pose proof (sw_tables _ Hs) as Hwf.
  destruct (alloc_page_cases (v_pages st) (tw_pm _ _ Hwf)) as [(q & Hq & Ha & Hfree & Hok & Hused)|Ha]; [|by rewrite Ha in Hne].
  exists q. split_and!; [done|lia|lia|done|]. intros st'. split_and!.
  - apply (space_change st); [done|done|by eapply tables_take|done].
  - split_and!; [lia|subst st'; cbn [v_pages set_pages]; by rewrite Hused, Z.eqb_refl, andb_false_r by lia| |].
    + unfold D. intros E. assert (q = 1) as -> by lia. by rewrite (tw_dir_used _ _ Hwf) in Hfree.
    + intros i e Hi He Hp E. destruct (tw_table _ _ Hwf i e Hi He Hp) as [_ Hu]. rewrite E, Z.div_mul in Hu by lia. congruence.
  - by apply (tw_free _ _ Hwf); [lia|].
  - intros q' (P1 & P2 & P3 & P4). split; [|done]. split_and!; [done| |done|done].
    subst st'. cbn [v_pages set_pages]. by rewrite Hused, P2.
Qed.

(** Room for a stack above the limit and below the window. *)
Definition stack_room (st : vmem) : Prop := exists k, 0xFFFF <= k < 255 * 1024 /\ unmapped (v_phys st) k = true.

(** The search when the limit's slot, in which it starts with the last page,
    has no table. *)
Lemma find_empty_slot f st e : vload st (v_kernelDirectory st + 4 * 63) = Ok e -> present e = false ->
  find_kernel_loop (S (S f)) st 63 1023 0 0 1 VM_UPPER_LIMIT = Ok (1024, THREAD_STACK_LIMIT).
Proof. intros E He. cbn [find_kernel_loop]. rewrite E. cbn [obind]. by rewrite He. Qed.

(** The search for one page never passes over the part of a slot it does not
    look at. *)
Lemma find_stack st : space_wf st -> v_paging st = true -> stack_room st ->
  exists k, __vm_findFreePages__kernel st 1 THREAD_STACK_LIMIT VM_UPPER_LIMIT = Ok (k * 4096) /\
    0xFFFF <= k < 255 * 1024 /\ unmapped (v_phys st) k = true.
Proof.
  intros Hs Hon (k0 & Hk0 & Hu0). destruct (has_table (v_phys st) 63) eqn:Ht.
  - destruct (find_kernel_spec st 1 THREAD_STACK_LIMIT VM_UPPER_LIMIT) as [(k & E & Hk & (H1 & H2 & H3) & _)|[_ Hno]]; try done; [by right| |].
    + exists k. change (THREAD_STACK_LIMIT / 4096) with 0xFFFF in H1. specialize (H2 0 ltac:(lia)). rewrite Z.add_0_r in H2.
      split_and!; [done|done| |done]. destruct (Z.le_gt_cases k k0); [lia|]. exfalso. apply (H3 k0); [|intros d Hd; by replace (k0 + d) with k0 by lia].
      change (THREAD_STACK_LIMIT / 4096) with 0xFFFF. lia.
    + exfalso. apply (Hno k0); [apply Hk0|unfold VM_UPPER_LIMIT; lia|]. intros d Hd. by replace (k0 + d) with k0 by lia.
  - exists 0xFFFF. destruct (vload_dir st 63 Hs ltac:(lia)) as (e & He & _ & Hl). unfold has_table in Ht. rewrite He in Ht.
    split_and!; [|lia|lia|].
    + unfold __vm_findFreePages__kernel. rewrite find_guards_pass by done. cbn [obind].
      change (Z.shiftr THREAD_STACK_LIMIT VM_DIRECTORY_SHIFT) with 63.
      change (Z.shiftr THREAD_STACK_LIMIT VM_PAGE_SHIFT mod VM_PAGETABLE_LENGTH) with 1023.
      change find_fuel with (S (S 1022)). by rewrite (find_empty_slot 1022 st e).
    + unfold unmapped, entry. change (0xFFFF / 1024) with 63. by rewrite He, Ht.
Qed.

Lemma alloc_stack st q : space_wf st -> v_paging st = true -> v_lock st = false -> stack_room st ->
  fst (alloc_page (v_pages st)) <> 0 -> 0 < q < 2 ^ 20 ->
  exists k st', vm_allocLimit st D (q * 4096) 1 THREAD_STACK_LIMIT VM_UPPER_LIMIT VM_FLAGS_KERNEL = Ok (k * 4096, st') /\
    0xFFFF <= k < 255 * 1024 /\ unmapped (v_phys st) k = true /\ space_wf st' /\ same_mode st st' /\ keeps_plain st st' /\
    entry (v_phys st') k = Z.lor (q * 4096) VM_FLAGS_KERNEL.
Proof.
  intros Hs Hon Hl Hroom Ha Hq. pose proof (space_locked st true Hs) as Hs1.
  destruct (find_stack (set_locked st true) Hs1 Hon Hroom) as (k & E & Hk & Hu).
  assert (Hmiss : can_alloc (missing (v_phys st) (k / 1024) (range_end k 1 / 1024)) (v_pages st)).
  { unfold range_end. replace (k + Z.of_nat 1 - 1) with k by lia. rewrite missing_cons, (missing_none _ (k / 1024 + 1)) by lia.
    destruct (has_table _ _); cbn; [done|]. by split. }
  destruct (map_range (set_locked st true) k 1 (q * 4096) VM_FLAGS_KERNEL) as (st' & E' & Heff);
    [done| |lia|lia|divmod|lia|by unfold VM_FLAGS_KERNEL|exact Hmiss|].
  - intros d Hd. unfold mappable. split_and!; [lia|lia|divmod|lia].
  - exists k, (vm_unlock st'). rewrite vm_allocLimit_kernel by (done || apply Hs). unfold alloc_kernel_limits. rewrite E. cbn [obind].
    rewrite (proj2 (Z.eqb_neq _ _)) by lia. cbn [negb]. change (Z.to_nat 1) with 1%nat. rewrite E'. cbn [obind].
    destruct Heff as [R1 R2 R3 R4 R5 R7 R6 R8]. split_and!; [done|lia|lia|done|by apply space_locked| |exact R8|].
    + destruct R2 as (? & ? & ? & ?). by split_and!.
    + specialize (R3 0 ltac:(lia)). by rewrite Z.add_0_r, Z.mul_0_l, Z.add_0_r in R3.
Qed.

(** ** The stack of a kernel thread *)

(** Paging is on, nobody holds the lock, and there is memory for the stack and
    for a table. *)
Record stack_ready (st : vmem) : Prop := {
  sr_space : space_wf st;
  sr_paging : v_paging st = true;
  sr_unlocked : v_lock st = false;
  sr_room : stack_room st;
  sr_pages : can_alloc 2 (v_pages st)
}.

Lemma only_page_plain st st' q q' : plain st q -> only_page st st' q -> q' <> q -> plain st q' ->
  plain st' q' /\ forall i, 0 <= i < 1024 -> word (v_phys st') (q' * 4096) i = word (v_phys st) (q' * 4096) i.
Proof.
  intros (_ & _ & HD & _) [O1 O2 O3] Hne (P1 & P2 & P3 & P4). split.
  - split_and!; [done|by rewrite O2|done|]. intros i e Hi. rewrite O3 by done. by apply P4.
  - intros i Hi. apply O3; [divmod|lia|done].
Qed.

Lemma kernel_stack st n fr : stack_ready st -> 0 <= n -> n + Z.of_nat (length fr) <= 1024 -> Forall is_u32 fr ->
  exists q k st1 st2 st3, fst (pm_alloc (v_pages st) 1) = q * 4096 /\
    vm_allocLimit (set_pages st (snd (pm_alloc (v_pages st) 1))) D (q * 4096) 1 THREAD_STACK_LIMIT VM_UPPER_LIMIT VM_FLAGS_KERNEL
      = Ok (k * 4096, st1) /\
    clear_words 1024 st1 (k * 4096) = Ok st2 /\
    push_words st2 (k * 4096 + 4 * (1024 - n)) fr = Ok (k * 4096 + 4 * (1024 - n - Z.of_nat (length fr)), st3) /\
    0 < q < 2 ^ 20 /\ 0xFFFF <= k < 255 * 1024 /\ page_free (v_pages st) q = true /\ unmapped (v_phys st) k = true /\
    mapped_page st3 k q /\ v_lock st3 = false /\ keeps_plain st st3 /\
    forall d w, fr !! d = Some w -> vload st3 (k * 4096 + 4 * (1024 - n - 1 - Z.of_nat d)) = Ok w.
Proof.
  intros [S1 S2 S3 S4 (Sa & Sb & _)] Hn Hlen Hu.
  destruct (take_page st S1 Sa) as (q & Eq & Hq & Hfree & Ht). destruct Ht as (T1 & T2 & T3 & T4).
  change (alloc_page (v_pages st)) with (pm_alloc (v_pages st) 1) in *.
  set (st0 := set_pages st (snd (pm_alloc (v_pages st) 1))) in *.
  destruct (alloc_stack st0 q T1 S2 S3 S4 Sb Hq) as (k & st1 & E1 & Hk & Hun & A1 & A2 & A3 & A4).
  destruct (A3 q T2) as [A5 A6].
  assert (Hm1 : mapped_page st1 k q).
  { destruct A2 as (A2 & _). constructor; [done|rewrite A2; exact S2|lia|lia|done| |done]. intros i Hi. rewrite A6 by done. by apply T3. }
  destruct (clear_page k q 1024 st1 0 Hm1 ltac:(lia) ltac:(lia)) as (st2 & E2 & Hm2 & O2). rewrite Z.mul_0_r, Z.add_0_r in E2.
  destruct (push_page k q fr st2 (1024 - n) Hm2 ltac:(lia) Hu) as (st3 & E3 & Hm3 & O3 & Hin & _).
  pose proof (only_page_trans _ _ _ _ O2 O3) as O. exists q, k, st1, st2, st3.
  split_and!; [done..|lia|lia|lia|lia|done|exact Hun|done| | |].
  - destruct (op_mode _ _ _ O) as (_ & _ & _ & ->), A2 as (_ & _ & _ & ->). exact S3.
  - intros q' Hq'. destruct (T4 q' Hq') as [B1 B2], (A3 q' B1) as [B3 B4].
    destruct (only_page_plain st1 st3 q q' A5 O) as [B5 B6]; [|done|split; [done|]].
    + intros ->. destruct Hq' as (_ & Hx & _). congruence.
    + intros i Hi. by rewrite B6, B4, B2.
  - intros d w Hd. pose proof (lookup_lt_Some _ _ _ Hd). apply (mapped_load _ k q Hm3); [lia|]. by apply Hin.
Qed.

(** ** Attaching a thread *)

(** Behind the first thread of the list. *)
Definition behind_first (l : list Z) (t : Z) : list Z := match l with [] => [t] | x :: l' => x :: t :: l' end.

(** The thread gets the next number and goes behind the process's first one, or
    becomes it. *)
Lemma attach_thread_spec s process p t th l :
  s_processes s !! process = Some p -> s_threads s !! t = Some th -> t_next th = NULL -> t <> NULL ->
  chain t_next (s_threads s) (p_mainThread p) l -> NoDup l -> t ∉ l ->
  exists s' p' th', thread_attachToProcess s process t = Ok s' /\
    s_processes s' = <[process := p']> (s_processes s) /\ p_threadCounter p' = u32 (p_threadCounter p + 1) /\
    chain t_next (s_threads s') (p_mainThread p') (behind_first l t) /\
    s_threads s' !! t = Some th' /\ th' = th_link th (p_threadCounter p) (t_next th') /\
    (forall x a, x <> t -> x <> p_mainThread p -> s_threads s' !! x = Some a <-> s_threads s !! x = Some a).
Proof.
  intros Hp Ht Hnx Hnull Hc Hnd Hni. unfold thread_attachToProcess, process_at, thread_at. rewrite Hp. cbn [of_option obind _thread_getUniqueID].
  cbn [put_process put_thread set_processes set_threads s_threads pr_threads p_mainThread p_scheduledThread p_threadCounter].
  rewrite Ht. cbn [of_option obind]. destruct l as [|x l'].
  - cbn [chain] in Hc. rewrite Hc. cbn [Z.eqb NULL negb]. do 3 eexists. split; [reflexivity|].
    cbn [put_process put_thread set_processes set_threads s_threads s_processes pr_threads p_mainThread p_threadCounter].
    rewrite insert_insert_eq. split_and!; [reflexivity|done| |apply lookup_insert_eq|done|].
    + cbn [behind_first chain]. split_and!; [done|done|]. eexists. split; [apply lookup_insert_eq|]. done.
    + intros y a Hy _. rewrite lookup_insert_ne by done. done.
  - destruct Hc as (Hx & Hxn & a & Ha & Hc). rewrite Hx, (proj2 (Z.eqb_neq _ _)) by done. cbn [negb].
    apply NoDup_cons in Hnd as [Hxl Hnd]. apply not_elem_of_cons in Hni as [Htx Htl].
    rewrite lookup_insert_ne by done. rewrite Ha. cbn [of_option obind]. rewrite lookup_insert_eq. cbn [of_option obind].
    rewrite insert_insert_eq, lookup_insert_ne by done. rewrite Ha. cbn [of_option obind].
    do 3 eexists. split; [reflexivity|].
    cbn [put_process put_thread set_processes set_threads s_threads s_processes pr_threads p_mainThread p_threadCounter].
    split_and!; [reflexivity|done| |rewrite lookup_insert_ne by done; apply lookup_insert_eq|done|].
    + cbn [behind_first chain]. split_and!; [done|done|]. eexists. split; [apply lookup_insert_eq|]. cbn. split_and!; [done|done|].
      eexists. split; [rewrite lookup_insert_ne by done; apply lookup_insert_eq|]. cbn.
      eapply chain_same; [exact Hc|]. intros y b Hy Hb. exists b. split; [|done].
      rewrite !lookup_insert_ne by (intros ->; done). done.
    + intros y b Hy1 Hy2. rewrite !lookup_insert_ne by congruence. done.
Qed.

(** ** Creating a kernel thread *)

Section CreateKernel.
Context {H : Type} `{KernelHeap H}.
Variable call : Z -> Z -> thread_event_t -> sched -> outcome sched.

(** The block for the arguments, if there are any. *)
Definition arguments_block (h : H) (args : list Z) (a : Z) (h' : H) : Prop :=
  match args with
  | [] => a = NULL /\ h' = h
  | _ => halloc h (4 * Z.of_nat (length args)) = Ok (a, h') /\ a <> NULL
  end.

Definition with_thread (m : machine H) process entry t l h : machine H :=
  Machine (put_thread (m_sched m) t (new_thread process entry)) (Kmem h (m_vm m)) (<[t := l]> (m_listeners m)) (m_arguments m) (m_names m).

Lemma createVoid_spec (m : machine H) process entry t l h1 h2 :
  halloc (m_heap m) sizeof_thread = Ok (t, h1) -> t <> NULL -> halloc h1 sizeof_list = Ok (l, h2) -> l <> NULL ->
  thread_createVoid m process entry = Ok (t, None, with_thread m process entry t l h2).
Proof.
  intros Ht Htn Hl Hln. unfold thread_createVoid. rewrite Ht. cbn [obind]. rewrite (proj2 (Z.eqb_neq _ _)) by done.
  unfold list_create. rewrite Hl. cbn [obind]. by rewrite (proj2 (Z.eqb_neq l _)) by done.
Qed.

Lemma change_thread (m : machine H) t th f : s_threads (m_sched m) !! t = Some th ->
  change m t f = Ok (on_sched m (put_thread (m_sched m) t (f th))).
Proof. intros E. unfold change, thread_at. by rewrite E. Qed.

Lemma keep_arguments_spec (m : machine H) t th args a h' : s_threads (m_sched m) !! t = Some th ->
  (length args <= 1005)%nat -> arguments_block (m_heap m) args a h' ->
  exists m', keep_arguments m t args = Ok (true, m') /\ m_vm m' = m_vm m /\ m_heap m' = h' /\
    m_sched m' = put_thread (m_sched m) t (th_arguments th a (Z.of_nat (length args))) /\
    (args <> [] -> m_arguments m' !! a = Some args).
Proof.
  intros Ht Hlen Ha. unfold keep_arguments, change, thread_at. rewrite Ht. cbn [of_option obind]. destruct args as [|x args].
  - destruct Ha as [-> ->]. cbn. eexists. split_and!; done.
  - destruct Ha as [Ha Hn]. cbn [arguments_block] in Ha. rewrite (proj2 (Z.ltb_lt _ _)) by (cbn [length]; lia).
    rewrite u32_small by lia. rewrite (Z.mul_comm _ 4).
    change (m_heap (on_sched m _)) with (m_heap m). rewrite Ha. cbn [obind].
    cbn [on_heap on_sched m_sched put_thread set_threads s_threads]. rewrite lookup_insert_eq. cbn [of_option obind].
    rewrite (proj2 (Z.eqb_neq _ _)) by done. eexists. split; [reflexivity|].
    cbn [on_heap on_sched m_sched m_vm m_heap m_kernel k_vm k_heap m_arguments put_thread set_threads s_threads].
    split_and!; [done|done| |intros _; apply lookup_insert_eq].
    unfold put_thread, set_threads. cbn. by rewrite insert_insert_eq.
Qed.

(** C13: a kernel thread, when there is memory for it.  [thread_createKernel]
    gives it a page that was free, mapped where nothing was, and puts on it the
    frame from which the return from an interrupt starts the entry function in
    the kernel's segments with interrupts on; the stack pointer is at that
    frame, below room for the arguments, which are kept for the thread.  The
    thread has the process's next number, stands behind the process's first
    thread and may run.  The memory of everybody else keeps its contents. *)
Theorem thread_createKernel_starts (m : machine H) process p entry args ts t l h1 h2 a h3 (n := Z.of_nat (length args)) :
  s_processes (m_sched m) !! process = Some p -> p_pdirectory p = D -> stack_ready (m_vm m) ->
  halloc (m_heap m) sizeof_thread = Ok (t, h1) -> t <> NULL -> halloc h1 sizeof_list = Ok (l, h2) -> l <> NULL ->
  arguments_block h2 args a h3 -> (length args <= 1005)%nat -> is_u32 entry ->
  chain t_next (s_threads (m_sched m)) (p_mainThread p) ts -> NoDup ts -> t ∉ ts ->
  exists m' k q th p', thread_createKernel call m process entry args = Ok (t, None, m') /\
    s_threads (m_sched m') !! t = Some th /\ s_processes (m_sched m') !! process = Some p' /\
    chain t_next (s_threads (m_sched m')) (p_mainThread p') (behind_first ts t) /\
    t_id th = p_threadCounter p /\ t_process th = process /\ gives_way th = false /\
    t_arguments th = a /\ (args <> [] -> m_arguments m' !! a = Some args) /\
    t_kernelStack th = q * 4096 /\ page_free (v_pages (m_vm m)) q = true /\
    t_kernelStackVirt th = k * 4096 /\ unmapped (v_phys (m_vm m)) k = true /\ mapped_page (m_vm m') k q /\
    t_esp th = k * 4096 + 4096 - 4 * n - sizeof_cpu_state /\
    (forall d w, forged_frame 0x10 0 0x8 entry !! d = Some w -> vload (m_vm m') (t_esp th + 4 * (18 - Z.of_nat d)) = Ok w) /\
    keeps_plain (m_vm m) (m_vm m').
Proof.
  intros Hp HD Hr Ht Htn Hl Hln Ha Hlen He Hc Hnd Hni. set (fr := forged_frame 0x10 0 0x8 entry).
  destruct (kernel_stack (m_vm m) n fr Hr ltac:(lia)) as (q & k & st1 & st2 & st3 & E0 & E1 & E2 & E3 & Hq & Hk & Hfree & Hun & Hmp & Hlk & Hkp & Hld).
  { change (length fr) with 19%nat. lia. }
  { unfold fr, forged_frame. cbn [app replicate]. rewrite !Forall_cons. unfold is_u32 in *. split_and!; (lia || done). }
  change (length fr) with 19%nat in E3.
  unfold thread_createKernel. rewrite (createVoid_spec m process entry t l h1 h2) by done. cbn [obind].
  set (m0 := with_thread m process entry t l h2). rewrite (proj2 (Z.eqb_neq t _)) by done.
  unfold pm_alloc_in. change (m_vm m0) with (m_vm m).
  destruct (pm_alloc (v_pages (m_vm m)) 1) as [ks h'] eqn:Epm. cbn [fst snd] in E0, E1. subst ks.
  rewrite (proj2 (Z.eqb_neq (q * 4096) _)) by (unfold NULL; lia).
  replace (process_at (m_sched (on_memory m0 (set_pages (m_vm m) h'))) process) with (Ok p) by (unfold process_at; cbn; by rewrite Hp).
  cbn [obind]. rewrite HD. change (m_vm (on_memory m0 (set_pages (m_vm m) h'))) with (set_pages (m_vm m) h'). rewrite E1. cbn [obind].
  rewrite (change_thread _ t (new_thread process entry)) by apply lookup_insert_eq. cbn [obind].
  rewrite (proj2 (Z.eqb_neq (k * 4096) _)) by (unfold NULL; lia).
  match goal with |- context [clear_words 1024 ?v (k * 4096)] => change v with st1 end. rewrite E2. cbn [obind].
  match goal with |- context [keep_arguments ?m0 t args] => set (m1 := m0) end.
  destruct (keep_arguments_spec m1 t (th_kernelStack (new_thread process entry) (q * 4096) (k * 4096)) args a h3)
    as (m2 & Em2 & Hv2 & Hh2 & Hs2 & Hargs); [subst m1; apply lookup_insert_eq|done|done|].
  rewrite Em2. cbn [obind negb]. rewrite Hv2. change (m_vm m1) with st2.
  change VM_PAGE_SIZE with 4096. rewrite u32_small by (unfold n in *; lia).
  replace (k * 4096 + 4096 - 4 * Z.of_nat (length args)) with (k * 4096 + 4 * (1024 - n)) by (unfold n; lia).
  fold fr. rewrite E3. cbn [obind].
  erewrite change_thread by (cbn [on_memory m_sched]; rewrite Hs2; apply lookup_insert_eq). cbn [obind].
  set (th0 := th_esp _ _). match goal with |- context [thread_attachToProcess ?s0 process t] => set (s1 := s0) end.
  assert (Hs1 : s1 = put_thread (m_sched m) t th0).
  { subst s1. cbn [on_sched on_memory m_sched]. rewrite Hs2. unfold put_thread, set_threads. cbn. by rewrite !insert_insert_eq. }
  destruct (attach_thread_spec s1 process p t th0 ts) as (s2 & p' & th & Es & Hps & _ & Hch & Hth2 & Heq & _); rewrite ?Hs1; try done.
  { apply lookup_insert_eq. }
  { eapply chain_same; [exact Hc|]. intros x b Hx Hb. exists b. split; [|done]. unfold put_thread, set_threads. cbn [s_threads]. by rewrite lookup_insert_ne by (intros ->; done). }
  rewrite Hs1 in Es, Hps. rewrite Es. cbn [obind]. exists (Machine s2 (m_kernel (on_memory m2 st3)) (m_listeners m2) (m_arguments m2) (m_names m2)), k, q, th, p'.
  split; [reflexivity|]. cbn [m_sched m_vm m_kernel k_vm on_memory m_arguments].
  split_and!; [done|rewrite Hps; apply lookup_insert_eq|done|rewrite Heq; reflexivity..|done|rewrite Heq; reflexivity|done|
    rewrite Heq; reflexivity|done|done| | |done].
  - rewrite Heq. cbn. unfold sizeof_cpu_state. lia.
  - intros d w Hd. rewrite <- (Hld d w Hd). f_equal. rewrite Heq. cbn. lia.
Qed.
End CreateKernel.

(** ** The small machine with a process in the kernel *)

Lemma demo_stack_ready st : map_effect demo_directory st 1 (D + 3) -> stack_ready (started st).
Proof.
  intros Hst. constructor; [by apply demo_space_wf|reflexivity|reflexivity| |].
  - exists 0xFFFF. split; [lia|]. unfold unmapped, entry. change (0xFFFF / 1024) with 63.
    change (v_phys (started st)) with (v_phys st). pose proof (me_tables _ _ _ _ Hst 63 ltac:(lia)) as Ht.
    assert (Hno : has_table (v_phys demo_directory) 63 = false) by exact (boot_no_table demo_machine demo_boot_memory 63 ltac:(lia)).
    rewrite Hno in Ht. change (false || (63 =? 1 / 1024)) with false in Ht. unfold has_table in Ht.
    destruct (word (v_phys st) D 63); [by rewrite Ht|done].
  - change (v_pages (started st)) with (v_pages st). rewrite (me_pages _ _ _ _ Hst).
    assert (Hno : has_table (v_phys demo_directory) (1 / 1024) = false) by exact (boot_no_table demo_machine demo_boot_memory 0 ltac:(lia)).
    rewrite Hno. change (v_pages demo_directory) with demo_pages. clear. vm_compute. split_and!; (discriminate || exact I).
Qed.

Definition demo_kernel_process : process_t := Process D 0 0 PROCESS_NULL false true NULL NULL 0 0 NULL [] NULL NULL.
Definition demo_threads (st : vmem) : machine cell_heap :=
  Machine (Sched ∅ {[1 := demo_kernel_process]} 1 1 NULL NULL false 1 0 0) (Kmem (CellHeap ∅) (started st)) ∅ ∅ ∅.

Lemma thread_createKernel_starts_witness : exists st m' th, vm_createKernelContext demo_before = Ok st /\
  thread_createKernel (fun _ _ _ s => Ok s) (demo_threads st) 1 0x101000 [7; 8] = Ok (slot_size, None, m') /\
  s_threads (m_sched m') !! slot_size = Some th /\ vload (m_vm m') (t_esp th + 56) = Ok 0x101000 /\
  m_arguments m' !! (3 * slot_size) = Some [7; 8].
Proof.
  destruct demo_context as (st & Est & Hst).
  destruct (thread_createKernel_starts (fun _ _ _ s => Ok s) (demo_threads st) 1 demo_kernel_process 0x101000 [7; 8] [] slot_size (2 * slot_size)
    (CellHeap {[1 := 92]}) (CellHeap {[2 := 32; 1 := 92]}) (3 * slot_size) (CellHeap {[3 := 8; 2 := 32; 1 := 92]}))
    as (m' & k & q & th & p' & E & Hth & _ & _ & _ & _ & _ & _ & Harg & _ & _ & _ & _ & _ & _ & Hld & _).
  - reflexivity.
  - reflexivity.
  - exact (demo_stack_ready st Hst).
  - vm_compute. reflexivity.
  - discriminate.
  - vm_compute. reflexivity.
  - discriminate.
  - split; [vm_compute; reflexivity|discriminate].
  - cbn. lia.
  - unfold is_u32. lia.
  - reflexivity.
  - constructor.
  - apply not_elem_of_nil.
  - exists st, m', th. split_and!; [exact Est|exact E|exact Hth|exact (Hld 4%nat 0x101000 eq_refl)|apply Harg; discriminate].
Defined.

(** ** Threads of a program at work

    A machine with ninety-six pages of memory, a process in user mode, and what
    creating, copying and destroying its threads does.  The words of pages that
    nothing touches, most of a stack, are left out of its memory. *)

Module ThreadDemo.

Definition some_pages : bitmap := [0; 0xFFFFFFFF; 0xFFFFFFFF; 0xFFFFFFFF] ++ replicate (Z.to_nat (PM_HEAPSIZE - 4)) 0.
Definition some_ram : gmap Z Z :=
  zero_ram (Z.to_nat (14 * 1024)) (67 * 4096) (zero_ram (Z.to_nat (6 * 1024)) (32 * 4096) (zero_ram (Z.to_nat 1024) 0x1000 ∅)).
Definition bare : vmem := Vmem some_ram some_pages false true 0 false.
Definition user_space : Z * vmem := let st := paging (ok_or (vm_createKernelContext bare) bare) in ok_or (vm_createDirectory st) (0, st).

Definition program (directory : Z) : Scheduler.process_t :=
  Scheduler.Process directory 0 1 0 false false NULL NULL 0 0 NULL [] NULL NULL.
Definition fresh (directories : list Z) (st : vmem) : ThreadMemory.machine cell_heap :=
  Machine (Sched ∅ (list_to_map (zip [1; 2] (program <$> directories))) 1 1 NULL NULL false 2 0 0) (Kmem (CellHeap ∅) st) ∅ ∅ ∅.

Definition silent (_ _ : Z) (_ : thread_event_t) (s : sched) : outcome sched := Ok s.
Definition create (m : ThreadMemory.machine cell_heap) (args : list Z) := thread_createUserland silent m 1 0x8048000 0x4000 args.

(** What the processor finds: the words of the frame from the stack pointer on. *)
Definition frame_of (m : ThreadMemory.machine cell_heap) (t : thread_t) : list (option Z) :=
  (fun i => match vload (m_vm m) (t_esp t + 4 * i) with Ok w => Some w | _ => None end) <$> seqZ 0 19.

(** Where an address of the process leads. *)
Definition leads (m : ThreadMemory.machine cell_heap) (directory v : Z) : option Z :=
  match vm_resolveVirtualAddress (m_vm m) directory v with Ok (p, _) => Some p | _ => None end.

(** A thread with two arguments.  Its frame is complete and its arguments are
    where the entry function looks for them, above a return address of 0; but
    the stack starts at the end of the first of its thirty-two pages, so that
    it has four kilobytes whatever was asked for. *)
Lemma user_thread_starts :
  match create (fresh [fst user_space] (snd user_space)) [7; 8] with
  | Ok (t, None, m) =>
      match s_threads (m_sched m) !! t with
      | Some th => Some (t_userStackPages th, t_userStackVirt th, frame_of m th,
          (fun a => v_phys (m_vm m) !! (t_userStack th + a)) <$> [4084; 4088; 4092])
      | None => None
      end
  | _ => None
  end = Some (32, 0xFFFF000, Some <$> (replicate 4 0x23 ++ replicate 10 0 ++ [0x8048000; 0x1B; 0x200; 0xFFFF000 + 4084; 0x23]),
    [Some 0; Some 7; Some 8]).
Proof. vm_compute. reflexivity. Qed.

(** The search takes a slot without a table for 1024 free pages even when it
    starts with the slot's last page.  A page the program has right behind it
    is mapped over by the stack of its first thread. *)
Definition crowded : vmem := ok_or (vm_mapPage (snd user_space) (fst user_space) 0x7F000 0x10000000 VM_FLAGS_USERLAND) (snd user_space).

Definition after_create (st : vmem) : option (Z * option Z) :=
  match create (fresh [fst user_space] st) [] with
  | Ok (t, None, m) => Some (default 0 (t_userStack <$> s_threads (m_sched m) !! t), leads m (fst user_space) 0x10000000)
  | _ => None
  end.

Lemma stack_over_mapping :
  leads (fresh [fst user_space] crowded) (fst user_space) 0x10000000 = Some 0x7F000 /\
  after_create crowded = Some (0x24000, Some 0x25000).
Proof. vm_compute. split_and!; reflexivity. Qed.

(** A second process, the copy of the first one's thread in it, and the copy's
    end. *)
Definition second_space : Z * vmem := ok_or (vm_createDirectory (snd user_space)) (0, snd user_space).
Definition forked : outcome (Z * ThreadMemory.machine cell_heap) :=
  let* (t, _, m) := create (fresh [fst user_space; fst second_space] (snd second_space)) [] in
  let* (t', _, m) := thread_clone silent m 2 t in
  Ok (t', m).
Definition copy_of : Z * ThreadMemory.machine cell_heap := ok_or forked (0, fresh [] bare).
Definition copy_gone : ThreadMemory.machine cell_heap := ok_or (thread_destroy silent (snd copy_of) (fst copy_of)) (fresh [] bare).

(** The pages that are free in the second state and not in the first. *)
Definition released (h h' : bitmap) : list Z := List.filter (fun k => page_free h' k && negb (page_free h k)) (seqZ 0 128).

(** The copy has one page of stack and believes to have thirty-two, so that its
    end gives back pages that were never its own.  Here they are the tables of
    its process, which the directory still points to. *)
Lemma copy_frees_tables :
  (t_userStack <$> s_threads (m_sched (snd copy_of)) !! fst copy_of) = Some (73 * 4096) /\
  released (v_pages (m_vm (snd copy_of))) (v_pages (m_vm copy_gone)) = [73; 74; 75; 76] /\
  (fun i => v_phys (m_vm copy_gone) !! (fst second_space + 4 * i)) <$> [63; 64] = [Some (75 * 4096 + 7); Some (76 * 4096 + 7)].
Proof. vm_compute. split_and!; reflexivity. Qed.

(** ** Local storage *)

(** A page of it with a word in it, then two pages. *)
Definition grown : outcome (Z * Z * ThreadMemory.machine cell_heap) :=
  let* (t, _, m) := create (fresh [fst user_space] (snd user_space)) [] in
  let* (v, _, m) := thread_getTLSArea m t 1 in
  let m := on_memory m (set_phys (m_vm m) (<[default 0 (leads m (fst user_space) v) := 5]> (v_phys (m_vm m)))) in
  let* (v', _, m) := thread_getTLSArea m t 2 in
  Ok (v, v', m).

Definition storage_of (r : outcome (Z * Z * ThreadMemory.machine cell_heap)) : option (Z * Z * option Z * option Z * option Z * bool) :=
  match r with
  | Ok (v, v', m) => Some (v, v', leads m (fst user_space) v, leads m (fst user_space) v' ≫= fun p => v_phys (m_vm m) !! p,
      match translate (m_vm m) 0x4000 with Ok p => Some p | _ => None end, page_free (v_pages (m_vm m)) 71)
  | _ => None
  end.

(** The word is in the new area and the old address leads nowhere, but the
    kernel's mapping of the old page stays although the page is free again. *)
Lemma storage_grows : storage_of grown = Some (0x1000, 0x2000, Some 0, Some 5, Some (71 * 4096), true).
Proof. vm_compute. reflexivity. Qed.

End ThreadDemo.
