(* ===== verification/Loader.v ===== *)
(** * The program loader (sys/loader/loader.c)

    Programs are placed in physical pages that are filled through a mapping in
    the kernel and then mapped into the program's directory; a copy shares the
    pages.  The image lies in byte memory and the walks over its headers are
    those of the dynamic linker.  The heap, the page allocators and the file
    system are the class [IoSys], a program's directory is [UserSpaces]. *)

From S2P Require Import Prelude CString Pages Elf ElfLink Linkd LinkdLoad IoLibrary VMemory.

Definition VM_FLAGS_USERLAND_R : Z := 5.

Class UserSpaces (Sys : Type) := {
  (** [vm_mapPageRange]: directory, physical and virtual address, pages, flags. *)
  us_map : Sys -> Z -> Z -> Z -> Z -> Z -> outcome Sys;
  (** [vm_free]: directory, virtual address, pages. *)
  us_free : Sys -> Z -> Z -> Z -> outcome Sys
}.

(** ** Data (loader.h) *)

Record ld_exectuable_t := Executable {
  x_pdirectory : Z; x_source : Z; x_entry : Z;
  x_pimage : Z; x_vimage : Z; x_imagePages : Z;
  x_useCount : Z
}.

Definition sizeof_ld_exectuable : Z := 28.

Definition set_useCount (n : Z) (x : ld_exectuable_t) : ld_exectuable_t :=
  Executable (x_pdirectory x) (x_source x) (x_entry x) (x_pimage x) (x_vimage x) (x_imagePages x) n.

Section Loader.
Context {Sys : Type} `{IoSys Sys} `{UserSpaces Sys}.

Record loader := LoaderState { lo_mem : mem; lo_sys : Sys; lo_executables : gmap Z ld_exectuable_t }.

Definition executable_at (st : loader) (x : Z) : outcome ld_exectuable_t := of_option (lo_executables st !! x).

(** ** Operations (loader.c) *)

(** The image of the file at [begin] in fresh pages: the lowest address, the
    pages and where they are.  Neither allocation is tested. *)
Definition place_image (m : mem) (s : Sys) (begin : Z) : outcome (Z * Z * Z * Z * mem * Sys) :=
  let* phoff := e_phoff m begin in
  let* phnum := e_phnum m begin in
  let* sg := scan_headers (Z.to_nat phnum) m (u32 (begin + phoff)) (Segments UINT32_MAX 0 0 []) in
  let min := VM_PAGE_ALIGN_DOWN (minAddress sg) in
  let pages := VM_PAGE_COUNT (u32 (maxAddress sg - min)) in
  let (memory, s) := io_pm_alloc s pages in
  let '(target, m, s) := io_vm_alloc s m memory pages in
  let* m := memset m target 0 (u32 (pages * VM_PAGE_SIZE)) in
  let* m := load_headers (Z.to_nat phnum) m begin target min (u32 (begin + phoff)) in
  Ok (min, pages, memory, target, m, s).

(** [source] is not set: it is [stale], what the block held before. *)
Definition ld_exectuableCreate (stale : Z) (st : loader) (pdirectory begin : Z) : outcome (Z * loader) :=
  let m := lo_mem st in
  let* magic := literal_prefix m [127; 69; 76; 70] begin in
  if negb magic then Ok (NULL, st) else
  let* (executable, s) := io_halloc (lo_sys st) sizeof_ld_exectuable in
  if executable =? NULL then Ok (NULL, LoaderState m s (lo_executables st)) else
  let* entry := e_entry m begin in
  let* (min, pages, memory, target, m, s) := place_image m s begin in
  let (m, s) := io_vm_free s m target pages in
  let* s := us_map s pdirectory memory min pages VM_FLAGS_USERLAND in
  Ok (executable, LoaderState m s (<[executable := Executable pdirectory stale entry memory min pages 1]> (lo_executables st))).

Definition ld_executableCreateWithFile (stale : Z) (st : loader) (pdirectory : Z) (file : list Z) : outcome (Z * loader) :=
  let (fd, s) := io_open (lo_sys st) file in
  if fd <? 0 then Ok (NULL, LoaderState (lo_mem st) s (lo_executables st)) else
  let (size, s) := io_seek s fd 0 SEEK_END in
  let size := u32 size in
  let pages := VM_PAGE_COUNT size in
  let '(buffer, m, s) := io_mm_alloc s (lo_mem st) pages in
  let (_, s) := io_seek s fd 0 SEEK_SET in
  let* (m, s) := read_file (S (Z.to_nat size)) s m fd buffer size in
  let* (executable, st) := ld_exectuableCreate stale (LoaderState m s (lo_executables st)) pdirectory buffer in
  let (m, s) := io_mm_free (lo_sys st) (lo_mem st) buffer pages in
  Ok (executable, LoaderState m (io_close s fd) (lo_executables st)).

Definition ld_exectuableCopy (st : loader) (pdirectory source : Z) : outcome (Z * loader) :=
  if source =? NULL then Ok (NULL, st) else
  let* (executable, s) := io_halloc (lo_sys st) sizeof_ld_exectuable in
  let st := LoaderState (lo_mem st) s (lo_executables st) in
  if executable =? NULL then Ok (NULL, st) else
  let* x := executable_at st source in
  let x' := Executable pdirectory source (x_entry x) (x_pimage x) (x_vimage x) (x_imagePages x) 1 in
  let* s := us_map s pdirectory (x_pimage x) (x_vimage x) (x_imagePages x) VM_FLAGS_USERLAND_R in
  Ok (executable, LoaderState (lo_mem st) s
    (<[executable := x']> (<[source := set_useCount (u32 (x_useCount x + 1)) x]> (lo_executables st)))).

(** The recursion follows the sources. *)
Fixpoint ld_executableRelease (fuel : nat) (st : loader) (executable : Z) : outcome loader :=
  match fuel with
  | O => Hang
  | S f =>
      let* x := executable_at st executable in
      let x := set_useCount (u32 (x_useCount x - 1)) x in
      let st := LoaderState (lo_mem st) (lo_sys st) (<[executable := x]> (lo_executables st)) in
      if x_useCount x =? 0 then
        let* st := if x_source x =? NULL then Ok st else ld_executableRelease f st (x_source x) in
        let s := if x_pimage x =? 0 then lo_sys st else io_pm_free (lo_sys st) (x_pimage x) (x_imagePages x) in
        let* s := if x_vimage x =? 0 then Ok s else us_free s (x_pdirectory x) (x_vimage x) (x_imagePages x) in
        let* s := io_hfree s executable in
        Ok (LoaderState (lo_mem st) s (delete executable (lo_executables st)))
      else Ok st
  end.
End Loader.
Arguments loader Sys : clear implicits.

(** ** What loading leaves *)

Section Correct.
Context {Sys : Type} `{IoSys Sys} `{UserSpaces Sys}.
Implicit Types (st : loader Sys) (s : Sys).

(** A program with the right magic number whose loadable segments lie in the
    file and do not overlap.  Once the allocators have given what is asked for,
    its pages hold the segments where they belong and zeros, they are mapped
    into its directory from the lowest address on, and the executable says so. *)
Theorem exectuableCreate_loads stale st pdirectory begin file phoff entry hs executable s1 memory s2 target m2 s3 :
  let sg := scan_phdrs (begin + phoff) (Segments UINT32_MAX 0 0 []) hs in
  let min := VM_PAGE_ALIGN_DOWN (minAddress sg) in
  let pages := VM_PAGE_COUNT (u32 (maxAddress sg - min)) in
  image_file (lo_mem st) begin file phoff hs ->
  literal_prefix (lo_mem st) [127; 69; 76; 70] begin = Ok true -> e_entry (lo_mem st) begin = Ok entry ->
  io_halloc (lo_sys st) sizeof_ld_exectuable = Ok (executable, s1) -> executable <> NULL ->
  io_pm_alloc s1 pages = (memory, s2) -> io_vm_alloc s2 (lo_mem st) memory pages = (target, m2, s3) ->
  given_pages (lo_mem st) m2 target (pages * 4096) begin (Z.of_nat (length file)) ->
  exists m3, holds_image (lo_mem st) m3 file hs target min (pages * 4096) /\
    forall m4 s4 s5, io_vm_free s3 m3 target pages = (m4, s4) -> us_map s4 pdirectory memory min pages VM_FLAGS_USERLAND = Ok s5 ->
      ld_exectuableCreate stale st pdirectory begin =
        Ok (executable, LoaderState m4 s5 (<[executable := Executable pdirectory stale entry memory min pages 1]> (lo_executables st))).
Proof.
  intros sg min pages Hf Hmagic He Hx Hxn Epm Evm Hg.
  destruct (segments_placed _ m2 begin file 0 phoff hs target Hf Hg) as (m2' & m3 & E2 & E3 & Hm3). fold sg min pages in E2, E3, Hm3.
  destruct Hf as [_ [Hb0 Hb1] Ephoff Ephnum [Hph0 Hph1] Hat _ _ _ _]. exists m3. split; [done|]. intros m4 s4 s5 Efree Emap.
  unfold ld_exectuableCreate. rewrite Hmagic. cbn [obind negb]. rewrite Hx. cbn [obind]. rewrite (proj2 (Z.eqb_neq _ _)) by done.
  rewrite He. cbn [obind]. unfold place_image. rewrite Ephoff. cbn [obind]. rewrite Ephnum. cbn [obind]. rewrite Nat2Z.id.
  rewrite (u32_small (begin + phoff)) by lia. rewrite (scan_headers_spec _ hs) by done. cbn [obind]. fold sg min pages.
  rewrite Epm, Evm, E2. cbn [obind]. rewrite E3. cbn [obind]. rewrite Efree, Emap. done.
Qed.

(** The end of a copy gives back the pages it shares: the original, still in
    use, loses its memory. *)
Lemma copy_release_frees_image f st c x source xs :
  lo_executables st !! c = Some x -> x_useCount x = 1 -> x_source x = source -> source <> NULL -> c <> source ->
  lo_executables st !! source = Some xs -> 2 <= x_useCount xs < 2 ^ 32 -> x_pimage x = x_pimage xs -> x_pimage xs <> 0 -> x_vimage x <> 0 ->
  ld_executableRelease (S (S f)) st c =
    (let* s := us_free (io_pm_free (lo_sys st) (x_pimage xs) (x_imagePages x)) (x_pdirectory x) (x_vimage x) (x_imagePages x) in
     let* s := io_hfree s c in
     Ok (LoaderState (lo_mem st) s (<[source := set_useCount (x_useCount xs - 1) xs]> (delete c (lo_executables st))))).
Proof.
  intros Hc Hu Hsrc Hn Hne Hs Hus Hp Hp0 Hv. cbn [ld_executableRelease]. unfold executable_at. rewrite Hc. cbn [of_option obind].
  rewrite Hu. change (u32 (1 - 1)) with 0. cbn [set_useCount x_useCount x_source x_pimage x_vimage x_imagePages x_pdirectory lo_executables lo_mem lo_sys Z.eqb].
  rewrite Hsrc, (proj2 (Z.eqb_neq source _)) by done. rewrite lookup_insert_ne by done. rewrite Hs. cbn [of_option obind].
  rewrite (u32_small (x_useCount xs - 1)) by lia. rewrite (proj2 (Z.eqb_neq _ _)) by (unfold set_useCount; cbn; lia). cbn [obind lo_sys lo_mem lo_executables].
  rewrite Hp, !(proj2 (Z.eqb_neq _ 0)) by done. rewrite delete_insert_ne, delete_insert_eq by done. done.
Qed.
End Correct.

(** ** A program and its copy *)

(** A system that keeps the allocations and the physical pages in use. *)
Record toy := Toy { y_blocks : list Z; y_pages : list Z }.
#[export] Instance toy_sys : IoSys toy := {|
  io_halloc s _ := let p := 16 * (1 + Z.of_nat (length (y_blocks s))) in Ok (p, Toy (y_blocks s ++ [p]) (y_pages s));
  io_hfree s p := Ok (Toy (List.filter (fun q => negb (q =? p)) (y_blocks s)) (y_pages s));
  io_pm_alloc s n := (65536, Toy (y_blocks s) (y_pages s ++ [65536]));
  io_pm_free s p _ := Toy (y_blocks s) (List.filter (fun q => negb (q =? p)) (y_pages s));
  io_vm_alloc s m p n := (1048576, write m 1048576 (replicate (Z.to_nat (n * 4096)) 7), s);
  io_vm_free s m _ _ := (m, s); io_mm_alloc s m _ := (0, m, s); io_mm_free s m _ _ := (m, s);
  io_open s _ := (-1, s); io_seek s _ _ _ := (0, s); io_read s m _ _ _ := (0, m, s); io_close s _ := s
|}.
#[export] Instance toy_spaces : UserSpaces toy := {| us_map s _ _ _ _ _ := Ok s; us_free s _ _ _ := Ok s |}.

Definition elf_file : list Z := [127; 69; 76; 70] ++ drop 4 (take 24 tiny_file) ++ word_bytes 8200 ++ drop 28 tiny_file.
Definition loaded : outcome (Z * loader toy) := ld_exectuableCreate 0 (LoaderState (write ∅ 4096 elf_file) (Toy [] []) ∅) 4096 4096.
Definition copied : outcome (Z * Z * loader toy) :=
  let* (x, st) := loaded in let* (c, st) := ld_exectuableCopy st 8192 x in Ok (x, c, st).

(** What is in use after the copy is made, and after it has gone. *)
Definition in_use (o : outcome (loader toy)) : option (list Z * list Z * list Z) :=
  match o with Ok st => Some (y_blocks (lo_sys st), y_pages (lo_sys st), x_useCount <$> (snd <$> map_to_list (lo_executables st))) | _ => None end.

Lemma copy_takes_the_pages :
  in_use (let* (_, _, st) := copied in Ok st) = Some ([16; 32], [65536], [1; 2]) /\
  in_use (let* (_, c, st) := copied in ld_executableRelease 2 st c) = Some ([16], [], [1]).
Proof. vm_compute. split; reflexivity. Qed.

(** The source field of a program that is not a copy is not set.  With what the
    block held before it can be followed into nowhere. *)
Lemma stale_source_followed :
  (let* (x, st) := ld_exectuableCreate 77 (LoaderState (write ∅ 4096 elf_file) (Toy [] []) ∅) 4096 4096 in ld_executableRelease 2 st x) = Fault.
Proof. vm_compute. reflexivity. Qed.
