(* ===== verification/ProcessMemory.v ===== *)
(** * Processes and their memory (sys/scheduler/process.c)

    Creating, forking and destroying processes: what they allocate, and what is
    given back when a step fails.  A process has a directory, threads, mappings
    and a file context; its image is the program loader's, seen through
    [ProgramImages]. *)

From S2P Require Import Prelude Pages HeapSpec DList LinkedList PMemory VMemory Mmap Scheduler ThreadMemory.

Definition sizeof_process : Z := 2116.
Definition sizeof_vfs_context : Z := 8.

(** The loader as [process.c] calls it, on the kernel's memory. *)
Class ProgramImages (H X : Type) := {
  ld_create : X -> kmem H -> Z -> list Z -> outcome (Z * X * kmem H);
  ld_entry : X -> Z -> outcome Z;
  ld_copy : X -> kmem H -> Z -> Z -> outcome (Z * X * kmem H);
  ld_release : X -> kmem H -> Z -> outcome (X * kmem H)
}.

(** ** Field updates *)

Definition pr_parts (p : process_t) (pdirectory image context : Z) (ring0 : bool) : process_t :=
  Process pdirectory context (p_pid p) (p_parent p) (p_died p) ring0 (p_mainThread p) (p_scheduledThread p) (p_threadCounter p)
    (p_startTime p) image (p_files p) (p_pprocess p) (p_next p).

(** A context (context.h): the working directory's node and the page directory. *)
Record vfs_context_t := Context { c_chdir : Z; c_pdirectory : Z }.

Section Processes.
Context {H X : Type} `{KernelHeap H} `{ProgramImages H X}.
Variable call : Z -> Z -> thread_event_t -> sched -> outcome sched.
(** The root of the file system, and the time. *)
Variable vfs_rootNode now : Z.

(** [y_lists] is where the list of a process's mappings is, [y_mappings] the
    process as [mmap] sees it. *)
Record system := System {
  y_machine : machine H;
  y_images : X;
  y_contexts : gmap Z vfs_context_t;
  y_lists : gmap Z Z;
  y_mappings : gmap Z Mmap.process_t
}.

Definition y_sched (y : system) : sched := m_sched (y_machine y).
Definition y_kernel (y : system) : kmem H := m_kernel (y_machine y).
Definition y_vm (y : system) : vmem := k_vm (y_kernel y).
Definition y_heap (y : system) : H := k_heap (y_kernel y).

Definition with_machine (y : system) (m : machine H) : system := System m (y_images y) (y_contexts y) (y_lists y) (y_mappings y).
Definition with_sched (y : system) (s : sched) : system := with_machine y (on_sched (y_machine y) s).
Definition with_heap (y : system) (h : H) : system := with_machine y (on_heap (y_machine y) h).
Definition with_vm (y : system) (st : vmem) : system := with_machine y (on_memory (y_machine y) st).
Definition with_images (y : system) (x : X) (k : kmem H) : system :=
  System (on_memory (on_heap (y_machine y) (k_heap k)) (k_vm k)) x (y_contexts y) (y_lists y) (y_mappings y).

(** [process->pdirectory = ...] and the like. *)
Definition set_parts (y : system) (process : Z) (f : process_t -> process_t) : outcome system :=
  let* p := process_at (y_sched y) process in Ok (with_sched y (put_process (y_sched y) process (f p))).

(** ** Contexts (sys/vfs/context.c) *)

Definition vfs_contextCreate (y : system) (directory : Z) : outcome (Z * system) :=
  let* (context, h) := halloc (y_heap y) sizeof_vfs_context in
  let y := with_heap y h in
  if context =? NULL then Ok (NULL, y) else
  Ok (context, System (y_machine y) (y_images y) (<[context := Context vfs_rootNode directory]> (y_contexts y)) (y_lists y) (y_mappings y)).

Definition vfs_contextDelete (y : system) (context : Z) : outcome system :=
  let* h := hfree (y_heap y) context in
  let y := with_heap y h in
  Ok (System (y_machine y) (y_images y) (delete context (y_contexts y)) (y_lists y) (y_mappings y)).

(** [child->context->chdir = parent->context->chdir] *)
Definition inherit_directory (y : system) (child parent : Z) : outcome system :=
  let* c := of_option (y_contexts y !! child) in
  let* p := of_option (y_contexts y !! parent) in
  Ok (System (y_machine y) (y_images y) (<[child := Context (c_chdir p) (c_pdirectory c)]> (y_contexts y)) (y_lists y) (y_mappings y)).

(** ** Creating *)

(** [scheduledThread] is not set before the first thread is attached. *)
Definition new_process (pid parent parentPid : Z) : process_t :=
  Process NULL NULL pid parentPid false false NULL NULL 0 now NULL (replicate (Z.to_nat kSDMaxOpenFiles) NULL) parent NULL.

Definition process_createVoid (y : system) : outcome (Z * errors * system) :=
  let* (process, h) := halloc (y_heap y) sizeof_process in
  let y := with_heap y h in
  if process =? NULL then Ok (NULL, no_memory, y) else
  let parent := process_getCurrentProcess (y_sched y) in
  let (pid, s) := _process_getUniqueID (y_sched y) in
  let* parentPid := if parent =? NULL then Ok PROCESS_NULL else let* p := process_at s parent in Ok (p_pid p) in
  let* (mappings, h) := list_create h sizeof_description in
  let y := with_heap (with_sched y s) h in
  match mappings with
  | None => let* h := hfree h process in Ok (NULL, no_memory, with_heap y h)
  | Some (list, l) =>
      let y := with_sched y (put_process s process (new_process pid parent parentPid)) in
      Ok (process, None, System (y_machine y) (y_images y) (y_contexts y) (<[process := list]> (y_lists y))
        (<[process := Mmap.Process process NULL l ∅ ∅]> (y_mappings y)))
  end.

(** ** Destroying *)

Fixpoint destroy_threads (fuel : nat) (m : machine H) (thread : Z) : outcome (machine H) :=
  if thread =? NULL then Ok m else
  match fuel with
  | O => Hang
  | S f =>
      let* t := thread_at (m_sched m) thread in
      let* m := thread_destroy call m thread in
      destroy_threads f m (t_next t)
  end.

(** The mappings from a description on, along its fragments: a description's
    [next] is its next fragment, not the list's next entry. *)
Fixpoint remove_mappings (fuel : nat) (st : vmem) (pdirectory : Z) (p : Mmap.process_t) (description : Z) : outcome vmem :=
  if description =? NULL then Ok st else
  match fuel with
  | O => Hang
  | S f =>
      let* d := description_at p description in
      let pages := VM_PAGE_COUNT (d_length d) in
      let* st := vm_free st pdirectory (d_vaddress d) pages in
      remove_mappings f (free_page_range st (d_paddress d) pages) pdirectory p (d_next d)
  end.

Definition process_destroy (y : system) (process : Z) : outcome system :=
  let* p := process_at (y_sched y) process in
  let* m := destroy_threads (S (size (s_threads (y_sched y)))) (y_machine y) (p_mainThread p) in
  let y := with_machine y m in
  let* y := if p_image p =? NULL then Ok y else
    let* (x, k) := ld_release (y_images y) (y_kernel y) (p_image p) in Ok (with_images y x k) in
  let* y := if p_context p =? NULL then Ok y else vfs_contextDelete y (p_context p) in
  let* q := of_option (y_mappings y !! process) in
  let* list := of_option (y_lists y !! process) in
  let* st := remove_mappings (S (size (p_descriptions q))) (y_vm y) (p_pdirectory p) q (list_first (p_mappings q)) in
  let* st := vm_deleteDirectory st (p_pdirectory p) in
  let* h := list_destroy (y_heap y) list (p_mappings q) (p_links q) in
  let* h := hfree h process in
  let y := with_heap (with_vm y st) h in
  let s := set_processes (y_sched y) (delete process (s_processes (y_sched y))) in
  let y := with_sched y s in
  Ok (System (y_machine y) (y_images y) (y_contexts y) (delete process (y_lists y)) (delete process (y_mappings y))).

(** [PROCESS_BAILWITHERROR]: everything there is goes. *)
Definition bail (y : system) (process : Z) (errno : errors) : outcome (Z * errors * system) :=
  let* y := process_destroy y process in Ok (NULL, errno, y).

(** ** A process from a file, and from another process *)

(** The directory and the file context every program gets; [image] makes its image. *)
Definition equip (y : system) (process : Z) (image : system -> Z -> outcome (Z * system)) (need : bool) : outcome (bool * system) :=
  let* (pdirectory, st) := vm_createDirectory (y_vm y) in
  let* y := set_parts (with_vm y st) process (fun p => pr_parts p pdirectory (p_image p) (p_context p) (p_ring0 p)) in
  let* q := of_option (y_mappings y !! process) in
  let y := System (y_machine y) (y_images y) (y_contexts y) (y_lists y)
    (<[process := Mmap.Process (p_address q) pdirectory (p_mappings q) (p_links q) (p_descriptions q)]> (y_mappings y)) in
  if pdirectory =? NULL then Ok (false, y) else
  let* (x, y) := image y pdirectory in
  let* y := set_parts y process (fun p => pr_parts p pdirectory x (p_context p) (p_ring0 p)) in
  if need && (x =? NULL) then Ok (false, y) else
  let* (context, y) := vfs_contextCreate y pdirectory in
  let* y := set_parts y process (fun p => pr_parts p pdirectory x context (p_ring0 p)) in
  Ok (negb (context =? NULL), y).

Definition image_from_file (name : list Z) (y : system) (pdirectory : Z) : outcome (Z * system) :=
  let* (x, images, k) := ld_create (y_images y) (y_kernel y) pdirectory name in Ok (x, with_images y images k).
Definition image_copied (source : Z) (y : system) (pdirectory : Z) : outcome (Z * system) :=
  let* (x, images, k) := ld_copy (y_images y) (y_kernel y) pdirectory source in Ok (x, with_images y images k).

Definition process_createWithFile (y : system) (name : option (list Z)) : outcome (Z * errors * system) :=
  match name with
  | None => Ok (NULL, Some EINVAL, y)
  | Some name =>
      let* (process, errno, y) := process_createVoid y in
      if process =? NULL then Ok (NULL, errno, y) else
      let* (ok, y) := equip y process (image_from_file name) true in
      if negb ok then bail y process no_memory else
      let* p := process_at (y_sched y) process in
      let* entry := ld_entry (y_images y) (p_image p) in
      let* (thread, errno, m) := thread_create call (y_machine y) process entry (4 * 4096) [] in
      let y := with_machine y m in
      if thread =? NULL then bail y process errno else
      let* s := process_insert (y_sched y) process in
      Ok (process, errno, with_sched y s)
  end.

(** The image of a fork is not tested. *)
Definition process_fork (y : system) (parent : Z) : outcome (Z * errors * system) :=
  let* (child, errno, y) := process_createVoid y in
  if child =? NULL then Ok (NULL, errno, y) else
  let* pp := process_at (y_sched y) parent in
  let* (ok, y) := equip y child (image_copied (p_image pp)) false in
  if negb ok then bail y child no_memory else
  let* y := set_parts y child (fun p => pr_parts p (p_pdirectory p) (p_image p) (p_context p) (p_ring0 pp)) in
  let* p := process_at (y_sched y) child in
  let* y := inherit_directory y (p_context p) (p_context pp) in
  let* (thread, errno, m) := thread_clone call (y_machine y) child (p_scheduledThread pp) in
  let y := with_machine y m in
  if thread =? NULL then bail y child errno else
  let* target := of_option (y_mappings y !! child) in
  let* source := of_option (y_mappings y !! parent) in
  let* (_, k, target, source) := mmap_copyMappings (y_kernel y) target source in
  let y := System (on_memory (on_heap (y_machine y) (k_heap k)) (k_vm k)) (y_images y) (y_contexts y) (y_lists y)
    (<[child := target]> (<[parent := source]> (y_mappings y))) in
  let* s := process_insert (y_sched y) child in
  Ok (child, errno, with_sched y s).

Definition process_forgeInitialProcess (y : system) (vfs_kernelContext : Z) : outcome (Z * system) :=
  let* s := lock_sd (y_sched y) in
  let* (process, _, y) := process_createVoid (with_sched y s) in
  if process =? NULL then Ok (NULL, with_sched y (set_sdlock (y_sched y) false)) else
  let* y := set_parts y process (fun p => pr_parts p (vm_getKernelDirectory (y_vm y)) (p_image p) vfs_kernelContext true) in
  let* (_, _, m) := thread_create call (y_machine y) process NULL 4096 [] in
  let y := with_machine y m in
  Ok (process, with_sched y (set_sdlock (_process_setFirstProcess (y_sched y) process) false)).

(** ** System calls (scprocess.c) *)

(** The register that holds the result in the frame the stack pointer is at. *)
Definition frame_eax : Z := 44.

Definition _sc_fork (y : system) (esp : Z) : outcome (Z * errors * system) :=
  let process := process_getCurrentProcess (y_sched y) in
  let* p := process_at (y_sched y) process in
  let* m := change (y_machine y) (p_scheduledThread p) (fun t => th_esp t esp) in
  let* (child, errno, y) := process_fork (with_machine y m) process in
  if child =? NULL then Ok (u32 (-1), errno, y) else
  let* c := process_at (y_sched y) child in
  let* t := thread_at (y_sched y) (p_scheduledThread c) in
  let* st := vstore (y_vm y) (u32 (t_esp t + frame_eax)) 0 in
  Ok (p_pid c, errno, with_vm y st).
End Processes.
Arguments system H X : clear implicits.
