(* ===== verification/ProcessCorrect.v ===== *)
(** * Processes at work

    What creating a process takes and gives back, for any heap; then a small
    machine that starts its first process, loads a program and lets it fork. *)

From S2P Require Import Prelude Pages HeapSpec CellHeap DList LinkedList PMemory VMemory Mmap Scheduler ThreadMemory MmapCorrect VMemoryCorrect VMemoryMap VMemorySpace VMemoryContract ThreadMemoryCorrect ProcessMemory.
Import ThreadDemo.

(** ** The process itself *)

Section Void.
Context {H X : Type} `{KernelHeapOk H} `{!ProgramImages H X}.
Implicit Types y : system H X.

(** the record of a process.  Unless the heap panics, [process_createVoid]
    either makes a process with the next number, below the process that is
    running, holding two blocks; or it says that there is no memory and holds
    none: the block it had taken is given back when there is none for the
    list of mappings. *)
Theorem process_createVoid_outcome now y : heap_ok (y_heap y) ->
  s_current (y_sched y) = NULL \/ is_Some (s_processes (y_sched y) !! s_current (y_sched y)) ->
  process_createVoid now y = Panic \/
  (exists y', process_createVoid now y = Ok (NULL, Some ENOMEM, y') /\ heap_ok (y_heap y') /\
     (forall q m, live (y_heap y') q m <-> live (y_heap y) q m) /\ s_processes (y_sched y') = s_processes (y_sched y) /\ y_vm y' = y_vm y) \/
  (exists y' p pr l a b, process_createVoid now y = Ok (p, None, y') /\ heap_ok (y_heap y') /\ p <> NULL /\ y_lists y' !! p = Some l /\
     (forall q m, live (y_heap y') q m <-> live (y_heap y) q m \/ (q = p /\ m = a) \/ (q = l /\ m = b)) /\
     s_processes (y_sched y') = <[p := pr]> (s_processes (y_sched y)) /\ p_pid pr = s_uid (y_sched y) /\
     p_pprocess pr = s_current (y_sched y) /\ s_uid (y_sched y') = u32 (s_uid (y_sched y) + 1) /\ y_vm y' = y_vm y).
Proof.
  intros Hh Hcur. unfold process_createVoid.
  destruct (halloc_result (y_heap y) sizeof_process Hh ltac:(done)) as [E|[(h1 & E & Hh1 & Hl1)|(p & a & h1 & E & Hp & _ & _ & _ & Hh1 & Hnew & Hl1)]];
    rewrite E; cbn [obind]; [by left| |].
  { right. left. eexists. split; [reflexivity|]. by split_and!. }
  rewrite (proj2 (Z.eqb_neq p _)) by done. cbn [_process_getUniqueID]. cbv zeta.
  match goal with |- context [obind (if ?c then Ok PROCESS_NULL else ?e)] => assert (Hpid : exists v, (if c then Ok PROCESS_NULL else e) = Ok v) end.
  { destruct (Z.eqb_spec (process_getCurrentProcess (y_sched (with_heap y h1))) NULL) as [Ez|Ez]; [by eexists|].
    change (process_getCurrentProcess (y_sched (with_heap y h1))) with (s_current (y_sched y)) in *. destruct Hcur as [|[pr Hpr]]; [done|].
    exists (p_pid pr). unfold process_at. cbn [s_processes]. change (s_processes (y_sched (with_heap y h1))) with (s_processes (y_sched y)). by rewrite Hpr. }
  destruct Hpid as [v ->]. cbn [obind]. unfold list_create.
  destruct (halloc_result h1 sizeof_list Hh1 ltac:(done)) as [E2|[(h2 & E2 & Hh2 & Hl2)|(l & b & h2 & E2 & Hl & _ & _ & _ & Hh2 & Hnew2 & Hl2)]];
    rewrite E2; cbn [obind]; [by left| |].
  - rewrite Z.eqb_refl. cbn [obind]. destruct (hfree_ok h2 p a Hh2) as (h3 & E3 & Hh3 & Hl3); [apply Hl2, Hl1; by right|].
    rewrite E3. cbn [obind]. right. left. eexists. split; [reflexivity|]. split_and!; [done| |done|done].
    intros q m. cbn. rewrite Hl3, Hl2, Hl1. split; [intros [[?|[-> _]] Hq]; done|]. intros Hq. split; [by left|]. intros ->. by apply (Hnew m).
  - rewrite (proj2 (Z.eqb_neq l _)) by done. cbn [obind]. right. right. eexists _, p, _, l, a, b. split; [reflexivity|].
    split_and!; [done|done|apply lookup_insert_eq| |reflexivity..]. intros q m. cbn. rewrite Hl2, Hl1. tauto.
Qed.
End Void.

(** ** The machine from its start *)

(** Programs that take no memory: an image is its number, its entry a constant. *)
#[export] Instance numbered_images : ProgramImages cell_heap Z := {|
  ld_create x k _ _ := Ok (16 * (x + 1), x + 1, k);
  ld_entry _ _ := Ok 0x8048000;
  ld_copy x k _ _ := Ok (16 * (x + 1), x + 1, k);
  ld_release x k _ := Ok (x, k)
|}.

Definition empty_sched : sched := Sched ∅ ∅ NULL NULL NULL NULL false 0 0 0.
Definition power_on : system cell_heap Z :=
  System (Machine empty_sched (Kmem (CellHeap ∅) (paging (ok_or (vm_createKernelContext bare) bare))) ∅ ∅ ∅) 0 ∅ ∅ ∅.

Definition started : outcome (Z * system cell_heap Z) := process_forgeInitialProcess silent 5 power_on 4096.

Definition init : outcome (Z * system cell_heap Z) :=
  let* (_, y) := started in
  let* (p, _, y) := process_createWithFile silent 0 5 y (Some [47; 105]) in
  Ok (p, y).

(** The program is running and calls [fork]. *)
Definition fork_of (r : outcome (Z * system cell_heap Z)) : outcome (Z * Z * system cell_heap Z) :=
  let* (p, y) := r in
  let y := with_sched y (set_current (y_sched y) p) in
  let* t := thread_getCurrentThread (y_sched y) in
  let* th := thread_at (y_sched y) t in
  let* (pid, _, y) := _sc_fork silent 0 5 y (t_esp th) in
  Ok (p, pid, y).


(** A frame in which the number of the system call is still in [eax]. *)
Definition in_call (r : outcome (Z * system cell_heap Z)) : outcome (Z * system cell_heap Z) :=
  let* (p, y) := r in
  let* pr := process_at (y_sched y) p in
  let* th := thread_at (y_sched y) (p_mainThread pr) in
  let* st := vstore (y_vm y) (t_esp th + frame_eax) 4 in
  Ok (p, with_vm y st).

Definition made (r : outcome (Z * errors * system cell_heap Z)) : Z := match r with Ok (p, _, _) => p | _ => 0 end.

Lemma process_createVoid_outcome_witness : exists p y', process_createVoid 5 power_on = Ok (p, None, y') /\ p_pid <$> s_processes (y_sched y') !! p = Some 0.
Proof.
  destruct (process_createVoid_outcome 5 power_on) as [E|[(y' & E & _)|(y' & p & pr & l & a & b & E & _ & _ & _ & _ & Hs & Hp & _)]].
  - exact I.
  - left. reflexivity.
  - exfalso. assert (Ht : made (process_createVoid 5 power_on) = 1048576) by (vm_compute; reflexivity). rewrite E in Ht. discriminate Ht.
  - exfalso. assert (Ht : made (process_createVoid 5 power_on) = 1048576) by (vm_compute; reflexivity). rewrite E in Ht. discriminate Ht.
  - exists p, y'. split; [exact E|]. rewrite Hs, lookup_insert_eq. cbn. by rewrite Hp.
Defined.

(** Processes: address, number, parent's number and the next one. *)
Definition family (y : system cell_heap Z) : list (Z * Z * Z * Z) :=
  (fun e => (fst e, p_pid (snd e), p_parent (snd e), p_next (snd e))) <$> map_to_list (s_processes (y_sched y)).

(** The words of a process's first frame that differ from another's, with both. *)
Definition frames_differ (y : system cell_heap Z) (p q : Z) : option (list (option Z * option Z)) :=
  let frame r := match s_processes (y_sched y) !! r with
    | Some pr => match thread_at (y_sched y) (p_mainThread pr) with Ok t => Some (frame_of (y_machine y) t) | _ => None end
    | None => None end in
  match frame p, frame q with
  | Some f, Some g => Some (List.filter (fun e => negb (bool_decide (fst e = snd e))) (zip f g))
  | _, _ => None
  end.

Definition fork_result (r : outcome (Z * Z * system cell_heap Z)) : option (Z * list (Z * Z * Z * Z) * option (list (option Z * option Z))) :=
  match r with Ok (p, pid, y) => Some (pid, family y, frames_differ y p (10 * slot_size)) | _ => None end.

(** The machine starts its first process in the kernel, loads a program, and the
    program forks: the call gives the child's number, the child stands behind
    its parent, and its thread continues where the parent's does but for [eax],
    which says 0. *)
Lemma fork_returns_twice : fork_result (fork_of (in_call init)) = Some (2,
  [(5 * slot_size, 1, 0, 10 * slot_size); (10 * slot_size, 2, 1, NULL); (slot_size, 0, PROCESS_NULL, 5 * slot_size)],
  Some [(Some 4, Some 0)]).
Proof. vm_compute. reflexivity. Qed.

(** ** What goes wrong *)

(** The program maps memory twice, a page each time. *)
Definition mapping_of (y : system cell_heap Z) (p : Z) : outcome (system cell_heap Z) :=
  let* q := of_option (y_mappings y !! p) in
  let* (_, k, q) := _sc_mmap (y_kernel y) q 0 4096 PROT_READ private in
  Ok (System (on_memory (on_heap (y_machine y) (k_heap k)) (k_vm k)) (y_images y) (y_contexts y) (y_lists y) (<[p := q]> (y_mappings y))).

Definition mapped_twice (r : outcome (Z * system cell_heap Z)) : outcome (Z * system cell_heap Z) :=
  let* (p, y) := r in let* y := mapping_of y p in let* y := mapping_of y p in Ok (p, y).

(** The physical addresses of the process's mappings, and whether their pages
    are free when the process is gone. *)
Definition after_destroy (r : outcome (Z * system cell_heap Z)) : option (list (Z * bool)) :=
  match r with
  | Ok (p, y) =>
      match y_mappings y !! p, process_destroy silent y p with
      | Some q, Ok y' => Some ((fun e => (d_paddress (snd e), page_free (v_pages (y_vm y')) (d_paddress (snd e) / 4096))) <$> map_to_list (p_descriptions q))
      | _, _ => None
      end
  | _ => None
  end.

(** The walk over the mappings follows the fragments of the first one: the
    pages of the second mapping are never free again. *)
Lemma destroy_keeps_mapping : after_destroy (mapped_twice init) = Some [(75 * 4096, false); (73 * 4096, true)].
Proof. vm_compute. reflexivity. Qed.

(** Without a free page for a directory the kernel stops: page 0 is mapped in
    its stead, which the assertion refuses, so that the error [ENOMEM] is never
    reported. *)
Lemma no_directory_panics st : space_wf st -> v_paging st = true -> v_lock st = false -> has_room st 1 ->
  pm_alloc (v_pages st) 1 = (0, v_pages st) -> vm_createDirectory st = Panic.
Proof.
  intros Hs Hon Hl Hroom Epm. unfold vm_createDirectory. rewrite Epm. cbn [negb].
  replace (set_pages st (v_pages st)) with st by by destruct st.
  rewrite (sw_dir _ Hs), vm_alloc_kernel by (done || apply Hs).
  destruct (find_room (set_locked st true) 1) as (k & E & Hk & _); [by apply space_locked|done|lia|exact Hroom|].
  unfold alloc_kernel, alloc_kernel_limits. rewrite E. cbn [obind]. rewrite (proj2 (Z.eqb_neq _ _)) by lia. cbn [negb].
  change (Z.to_nat 1) with 1%nat. cbn [map_kernel_range]. unfold map_kernel, map_guards.
  rewrite (proj2 (Z.ltb_lt 0 (k * 4096))) by lia. reflexivity.
Qed.
