(* ===== verification/Syscall.v ===== *)
(** * System calls (sys/syscall/syscall.c, scvfs.c)

    The table of handlers and the entry that finds a handler by the number in
    [eax], shows it the caller's stack through a mapping in the kernel, and
    leaves its result in the caller's registers.  The handlers of the other
    files are put into the table as they are; those of scvfs.c are here.  The
    file system's calls are the class [FileCalls]. *)

From S2P Require Import Prelude Pages HeapSpec PMemory VMemory Mmap Scheduler ThreadMemory ProcessMemory.

Definition _SYS_MAXCALLS : Z := 128.
Definition SYS_PRINT : Z := 0.
Definition SYS_EXIT : Z := 1.
Definition SYS_PID : Z := 2.
Definition SYS_PPID : Z := 3.
Definition SYS_FORK : Z := 4.
Definition SYS_WAIT : Z := 5.
Definition SYS_THREADSLEEP : Z := 7.
Definition SYS_THREADATTACH : Z := 8.
Definition SYS_THREADEXIT : Z := 9.
Definition SYS_THREADJOIN : Z := 10.
Definition SYS_THREADSELF : Z := 11.
Definition SYS_TLS_AREA : Z := 12.
Definition SYS_MMAP : Z := 19.
Definition SYS_MUNMAP : Z := 20.
Definition SYS_MPROTECT : Z := 21.
Definition SYS_OPEN : Z := 22.
Definition SYS_CLOSE : Z := 23.
Definition SYS_READ : Z := 24.
Definition SYS_WRITE : Z := 25.
Definition SYS_SEEK : Z := 26.
Definition SYS_DIRREAD : Z := 27.
Definition SYS_MKDIR : Z := 28.
Definition SYS_REMOVE : Z := 29.
Definition SYS_MOVE : Z := 30.
Definition SYS_STAT : Z := 31.

(** Registers in the frame of an interrupt (cpu_state_t). *)
Definition frame_ecx : Z := 40.
Definition frame_esp : Z := 68.

(** What scvfs.c calls; paths and buffers are addresses. *)
Inductive file_call :=
  | vfs_open (path flags : Z)
  | vfs_close (fd : Z)
  | vfs_read (fd data size : Z)
  | vfs_write (fd data size : Z)
  | vfs_seek (fd offset whence : Z)
  | vfs_readDir (fd ptr count : Z)
  | vfs_mkdir (path : Z)
  | vfs_remove (path : Z)
  | vfs_move (source target : Z)
  | vfs_stat (path stat : Z).

(** A call's result as a number and the error it leaves. *)
Class FileCalls (F : Type) := file_do : F -> vmem -> file_call -> outcome (Z * errors * F * vmem).

(** A byte of the memory of words. *)
Definition vload8 (st : vmem) (v : Z) : outcome Z :=
  let* w := vload st (v - v mod 4) in Ok (Z.land (Z.shiftr w (8 * (v mod 4))) 255).

Fixpoint read_string (fuel : nat) (st : vmem) (v : Z) : outcome (list Z) :=
  let* c := vload8 st v in
  if c =? 0 then Ok [] else
  match fuel with O => Hang | S f => let* cs := read_string f st (u32 (v + 1)) in Ok (c :: cs) end.

Definition vstore8 (st : vmem) (v b : Z) : outcome vmem :=
  let shift := 8 * (v mod 4) in
  let* w := vload st (v - v mod 4) in
  vstore st (v - v mod 4) (Z.lor (Z.land w (Z.lnot (Z.shiftl 255 shift))) (Z.shiftl b shift)).

(** [memcpy] in the current address space. *)
Fixpoint vcopy (n : nat) (st : vmem) (dst src : Z) : outcome vmem :=
  match n with
  | O => Ok st
  | S n =>
      let* b := vload8 st src in
      let* st := vstore8 st dst b in
      vcopy n st (u32 (dst + 1)) (u32 (src + 1))
  end.

(** ** Copies between a context's memory and the kernel (sys/vfs/context.c)

    [user] is the address in the context's directory; [copy] is given where its
    page is mapped in the kernel. *)
Definition through_mapping (st : vmem) (pdirectory user size : Z) (copy : vmem -> Z -> outcome vmem) : outcome (bool * errors * vmem) :=
  let page := VM_PAGE_ALIGN_DOWN user in
  let pages := VM_PAGE_COUNT size in
  let offset := u32 (user - page) in
  let* (physical, st) := vm_resolveVirtualAddress st pdirectory page in
  if physical =? 0 then Ok (false, Some EINVAL, st) else
  let* (tvirtual, st) := vm_alloc st (vm_getKernelDirectory st) physical pages VM_FLAGS_KERNEL in
  if tvirtual =? 0 then Ok (false, Some ENOMEM, st) else
  let* st := copy st (u32 (tvirtual + offset)) in
  let* st := vm_free st (vm_getKernelDirectory st) tvirtual pages in
  Ok (true, None, st).

Definition vfs_contextCopyDataOut (st : vmem) (pdirectory data size target : Z) : outcome (bool * errors * vmem) :=
  if (data =? NULL) || (target =? NULL) || (size =? 0) then Ok (false, Some EINVAL, st) else
  if pdirectory =? vm_getKernelDirectory st then let* st := vcopy (Z.to_nat size) st target data in Ok (true, None, st)
  else through_mapping st pdirectory data size (fun st mapped => vcopy (Z.to_nat size) st target mapped).

Definition vfs_contextCopyDataIn (st : vmem) (pdirectory data size target : Z) : outcome (bool * errors * vmem) :=
  if (data =? NULL) || (target =? NULL) || (size =? 0) then Ok (false, Some EINVAL, st) else
  if pdirectory =? vm_getKernelDirectory st then let* st := vcopy (Z.to_nat size) st target data in Ok (true, None, st)
  else through_mapping st pdirectory target size (fun st mapped => vcopy (Z.to_nat size) st mapped data).

Section Calls.
Context {H X F : Type} `{KernelHeap H} `{ProgramImages H X} `{FileCalls F}.
Variable call : Z -> Z -> thread_event_t -> sched -> outcome sched.
Variable vfs_rootNode now : Z.
(** Whether there is memory for another listener; what an uninitialised
    variable on the stack holds. *)
Variable listener_room : bool.
Variable stale : Z.

(** [kn_log] is what has been printed. *)
Record kernel := Kernel { kn_system : system H X; kn_files : F; kn_log : list (list Z) }.

Definition kn_vm (kn : kernel) : vmem := y_vm (kn_system kn).
Definition kn_sched (kn : kernel) : sched := y_sched (kn_system kn).
Definition kn_with (kn : kernel) (y : system H X) : kernel := Kernel y (kn_files kn) (kn_log kn).
Definition kn_with_vm (kn : kernel) (st : vmem) : kernel := kn_with kn (with_vm (kn_system kn) st).
Definition kn_with_sched (kn : kernel) (s : sched) : kernel := kn_with kn (with_sched (kn_system kn) s).

(** A handler is given the stack pointer and where the caller's arguments are:
    its result, the error, the stack pointer to return with. *)
Definition handler : Type := kernel -> Z -> Z -> outcome (Z * errors * Z * kernel).

(** [*(uint32_t * )(uesp + i)] *)
Definition argument (kn : kernel) (uesp i : Z) : outcome Z := vload (kn_vm kn) (u32 (uesp + 4 * i)).

(** ** The entry (syscall.c) *)

(** The first page of the caller's stack, mapped for the call: the mapping and
    the address of the arguments, behind the return address and the number. *)
Definition enter_call (kn : kernel) (esp : Z) : outcome (Z * Z * kernel) :=
  let* thread := thread_getCurrentThread (kn_sched kn) in
  let* t := thread_at (kn_sched kn) thread in
  let kn := kn_with_sched kn (put_thread (kn_sched kn) thread (th_esp t esp)) in
  let* (ustack, st) := vm_alloc (kn_vm kn) (vm_getKernelDirectory (kn_vm kn)) (t_userStack t) 1 VM_FLAGS_KERNEL in
  let* uesp := vload st (u32 (esp + frame_esp)) in
  Ok (ustack, u32 (ustack + (uesp - t_userStackVirt t) + 8), kn_with_vm kn st).

Definition leave_call (kn : kernel) (esp ustack result : Z) (errno : errors) : outcome kernel :=
  let* st := vstore (kn_vm kn) (u32 (esp + frame_eax)) result in
  let* st := match errno with Some e => vstore st (u32 (esp + frame_ecx)) e | None => Ok st end in
  let* st := vm_free st (vm_getKernelDirectory st) ustack 1 in
  Ok (kn_with_vm kn st).

(** The number is not compared with the length of the table. *)
Definition _sc_execute (table : list (option handler)) (kn : kernel) (esp : Z) : outcome (Z * kernel) :=
  let* number := vload (kn_vm kn) (u32 (esp + frame_eax)) in
  let* callback := of_option (table !! Z.to_nat number) in
  match callback with
  | None => Ok (esp, kn)
  | Some callback =>
      let* (ustack, uesp, kn) := enter_call kn esp in
      let* (result, errno, esp', kn) := callback kn esp uesp in
      let* kn := leave_call kn esp ustack result errno in
      Ok (esp', kn)
  end.

Definition sc_setSyscallHandler (table : list (option handler)) (syscall : Z) (callback : handler) : outcome (list (option handler)) :=
  if (0 <=? syscall) && (syscall <? _SYS_MAXCALLS) then Ok (<[Z.to_nat syscall := Some callback]> table) else Panic.

(** Memory of the caller mapped into the kernel: its address there and the
    mapping's. *)
Definition sc_mapProcessMemory (kn : kernel) (memory pages : Z) : outcome (option (Z * Z) * errors * kernel) :=
  let* p := process_at (kn_sched kn) (process_getCurrentProcess (kn_sched kn)) in
  let virtual := VM_PAGE_ALIGN_DOWN memory in
  let offset := u32 (memory - virtual) in
  if virtual =? 0 then Ok (None, Some EINVAL, kn) else
  let* (physical, st) := vm_resolveVirtualAddress (kn_vm kn) (p_pdirectory p) virtual in
  let* (virtual, st) := vm_alloc st (vm_getKernelDirectory st) physical pages VM_FLAGS_KERNEL in
  if virtual =? 0 then Ok (None, no_memory, kn_with_vm kn st) else
  Ok (Some (u32 (virtual + offset), virtual), None, kn_with_vm kn st).

Definition unmap_kernel_pages (kn : kernel) (virtual : Z) : outcome kernel :=
  let* st := vm_free (kn_vm kn) (vm_getKernelDirectory (kn_vm kn)) virtual 2 in Ok (kn_with_vm kn st).

Definition _sc_print : handler := fun kn esp uesp =>
  let* a := argument kn uesp 0 in
  let* (string, errno, kn) := sc_mapProcessMemory kn a 2 in
  match string with
  | None => Ok (u32 (-1), errno, esp, kn)
  | Some (string, virtual) =>
      let* s := read_string (Z.to_nat 8192) (kn_vm kn) string in
      let* kn := unmap_kernel_pages (Kernel (kn_system kn) (kn_files kn) (kn_log kn ++ [s])) virtual in
      Ok (0, None, esp, kn)
  end.

(** ** Files (scvfs.c) *)

Definition file_act (kn : kernel) (c : file_call) : outcome (Z * errors * kernel) :=
  let* (r, errno, f, st) := file_do (kn_files kn) (kn_vm kn) c in
  let kn := kn_with_vm kn st in
  Ok (r, errno, Kernel (kn_system kn) f (kn_log kn)).

(** A path that cannot be mapped is a null pointer and what is unmapped
    afterwards is not set; its error stays unless the call has one. *)
Definition mapped_path (kn : kernel) (path : Z) : outcome (Z * Z * errors * kernel) :=
  let* (mapped, errno, kn) := sc_mapProcessMemory kn path 2 in
  Ok (match mapped with Some (p, v) => (p, v, errno, kn) | None => (NULL, stale, errno, kn) end).

Definition last_error (first second : errors) : errors := match second with Some _ => second | None => first end.

(** A call on one path; [convert] is what becomes of its result. *)
Definition with_path (c : Z -> file_call) (convert : Z -> Z) (kn : kernel) (esp path : Z) : outcome (Z * errors * Z * kernel) :=
  let* (p, virtual, e1, kn) := mapped_path kn path in
  let* (r, e2, kn) := file_act kn (c p) in
  let* kn := unmap_kernel_pages kn virtual in
  Ok (convert r, last_error e1 e2, esp, kn).

Definition success (r : Z) : Z := if r =? 0 then u32 (-1) else 0.

Definition _sc_open : handler := fun kn esp uesp =>
  let* path := argument kn uesp 0 in
  let* flags := argument kn uesp 1 in
  with_path (fun p => vfs_open p (s32 flags)) u32 kn esp path.

Definition plain_call (c : file_call) : handler := fun kn esp _ =>
  let* (r, errno, kn) := file_act kn c in Ok (u32 r, errno, esp, kn).

Definition _sc_close : handler := fun kn esp uesp =>
  let* fd := argument kn uesp 0 in
  plain_call (vfs_close (s32 fd)) kn esp uesp.

Definition three_arguments (c : Z -> Z -> Z -> file_call) : handler := fun kn esp uesp =>
  let* a := argument kn uesp 0 in
  let* b := argument kn uesp 1 in
  let* d := argument kn uesp 2 in
  plain_call (c a b d) kn esp uesp.

Definition _sc_read : handler := three_arguments (fun fd data size => vfs_read (s32 fd) data size).
Definition _sc_write : handler := three_arguments (fun fd data size => vfs_write (s32 fd) data size).
Definition _sc_seek : handler := three_arguments (fun fd offset whence => vfs_seek (s32 fd) (s32 offset) (s32 whence)).
Definition _sc_readdir : handler := three_arguments (fun fd ptr count => vfs_readDir (s32 fd) ptr count).

Definition _sc_mkdir : handler := fun kn esp uesp =>
  let* path := argument kn uesp 0 in with_path vfs_mkdir success kn esp path.
Definition _sc_remove : handler := fun kn esp uesp =>
  let* path := argument kn uesp 0 in with_path vfs_remove success kn esp path.

Definition _sc_move : handler := fun kn esp uesp =>
  let* a := argument kn uesp 0 in
  let* b := argument kn uesp 1 in
  let* (path1, virtual1, e1, kn) := mapped_path kn a in
  let* (path2, virtual2, e2, kn) := mapped_path kn b in
  let* (r, e3, kn) := file_act kn (vfs_move path1 path2) in
  let* kn := unmap_kernel_pages kn virtual1 in
  let* kn := unmap_kernel_pages kn virtual2 in
  Ok (success r, last_error (last_error e1 e2) e3, esp, kn).

Definition _sc_stat : handler := fun kn esp uesp =>
  let* path := argument kn uesp 0 in
  let* stat := argument kn uesp 1 in
  with_path (fun p => vfs_stat p stat) success kn esp path.

Definition set_handlers (hs : list (Z * handler)) (table : list (option handler)) : outcome (list (option handler)) :=
  foldl (fun t '(n, h) => let* t := t in sc_setSyscallHandler t n h) (Ok table) hs.

Definition _sc_vfsInit : list (option handler) -> outcome (list (option handler)) := set_handlers
  [(SYS_OPEN, _sc_open); (SYS_CLOSE, _sc_close); (SYS_READ, _sc_read); (SYS_WRITE, _sc_write); (SYS_SEEK, _sc_seek);
   (SYS_DIRREAD, _sc_readdir); (SYS_MKDIR, _sc_mkdir); (SYS_REMOVE, _sc_remove); (SYS_MOVE, _sc_move); (SYS_STAT, _sc_stat)].

(** ** The handlers of scthread.c, scprocess.c and scmmap.c *)

(** Handlers that only read the scheduler's state, and those that end in it. *)
Definition reads (f : sched -> outcome Z) : handler := fun kn esp _ =>
  let* r := f (kn_sched kn) in Ok (r, None, esp, kn).
Definition switches (f : sched -> Z -> outcome (Z * Z * sched)) : handler := fun kn esp _ =>
  let* (r, esp, s) := f (kn_sched kn) esp in Ok (r, None, esp, kn_with_sched kn s).
Definition joins (f : sched -> Z -> Z -> outcome (option (Z * Z * sched))) : handler := fun kn esp uesp =>
  let* a := argument kn uesp 0 in
  let* r := f (kn_sched kn) esp a in
  Ok (match r with Some (r, esp, s) => (r, None, esp, kn_with_sched kn s) | None => (u32 (-1), Some EINVAL, esp, kn) end).

Definition sleep_call : handler := fun kn esp uesp =>
  let* time := argument kn uesp 0 in
  switches (fun s esp => _sc_sleep now s esp time) kn esp uesp.

Definition on_threads (f : machine H -> outcome (Z * errors * machine H)) (kn : kernel) (esp : Z) : outcome (Z * errors * Z * kernel) :=
  let* (r, errno, m) := f (y_machine (kn_system kn)) in Ok (r, errno, esp, kn_with kn (with_machine (kn_system kn) m)).

Definition attach_call : handler := fun kn esp uesp =>
  let* entry := argument kn uesp 0 in
  let* stacksize := argument kn uesp 1 in
  let* arg1 := argument kn uesp 2 in
  let* arg2 := argument kn uesp 3 in
  on_threads (fun m => _sc_threadAttach call m entry stacksize arg1 arg2) kn esp.

Definition tls_call : handler := fun kn esp uesp =>
  let* pages := argument kn uesp 0 in on_threads (fun m => _sc_threadTLSArea m pages) kn esp.

Definition _sc_threadInit : list (option handler) -> outcome (list (option handler)) := set_handlers
  [(SYS_THREADSLEEP, sleep_call); (SYS_THREADATTACH, attach_call); (SYS_THREADEXIT, switches (_sc_threadExit now));
   (SYS_THREADJOIN, joins (fun s esp a => _sc_threadJoin now s esp a listener_room)); (SYS_THREADSELF, reads _sc_threadSelf); (SYS_TLS_AREA, tls_call)].

Definition fork_call : handler := fun kn esp _ =>
  let* (r, errno, y) := _sc_fork call vfs_rootNode now (kn_system kn) esp in Ok (r, errno, esp, kn_with kn y).

Definition _sc_processInit : list (option handler) -> outcome (list (option handler)) := set_handlers
  [(SYS_EXIT, switches (_sc_exit now)); (SYS_FORK, fork_call); (SYS_PID, reads _sc_pid); (SYS_PPID, reads _sc_ppid);
   (SYS_WAIT, joins (fun s esp a => _sc_wait now s esp a listener_room))].

(** The call works on the mappings of the process that is running. *)
Definition on_mappings (f : kmem H -> Mmap.process_t -> outcome (result * kmem H * Mmap.process_t)) : handler := fun kn esp _ =>
  let process := process_getCurrentProcess (kn_sched kn) in
  let y := kn_system kn in
  let* p := of_option (y_mappings y !! process) in
  let* (r, k, p) := f (y_kernel y) p in
  let y := System (on_memory (on_heap (y_machine y) (k_heap k)) (k_vm k)) (y_images y) (y_contexts y) (y_lists y) (<[process := p]> (y_mappings y)) in
  Ok (r_value r, r_errno r, esp, kn_with kn y).

Definition mmap_call : handler := fun kn esp uesp =>
  let* address := argument kn uesp 0 in
  let* length := argument kn uesp 1 in
  let* protection := argument kn uesp 2 in
  let* flags := argument kn uesp 3 in
  on_mappings (fun k p => _sc_mmap k p address length (s32 protection) (s32 flags)) kn esp uesp.
Definition munmap_call : handler := fun kn esp uesp =>
  let* address := argument kn uesp 0 in
  let* length := argument kn uesp 1 in
  on_mappings (fun k p => _sc_munmap k p address length) kn esp uesp.
Definition mprotect_call : handler := fun kn esp uesp =>
  let* address := argument kn uesp 0 in
  let* length := argument kn uesp 1 in
  let* protection := argument kn uesp 2 in
  on_mappings (fun k p => _sc_mprotect k p address length (s32 protection)) kn esp uesp.

Definition _sc_mmapInit : list (option handler) -> outcome (list (option handler)) := set_handlers
  [(SYS_MMAP, mmap_call); (SYS_MUNMAP, munmap_call); (SYS_MPROTECT, mprotect_call)].

(** The table starts empty; the interrupt's handler is set elsewhere. *)
Definition sc_init : outcome (list (option handler)) :=
  let* t := sc_setSyscallHandler (replicate (Z.to_nat _SYS_MAXCALLS) None) SYS_PRINT _sc_print in
  let* t := _sc_processInit t in
  let* t := _sc_threadInit t in
  let* t := _sc_mmapInit t in
  _sc_vfsInit t.
End Calls.
Arguments kernel H X F : clear implicits.
