(* ===== verification/SyscallCorrect.v ===== *)
(** * A system call and its return

    Whatever handler is called: it finds the words the caller pushed, and the
    caller finds the handler's result in its registers. *)

From S2P Require Import Prelude MmapCorrect Pages HeapSpec CellHeap PMemory VMemory VMemoryCorrect VMemoryMap VMemorySpace VMemoryBoot VMemoryContract Mmap Scheduler ThreadMemory ThreadMemoryCorrect ProcessMemory ProcessCorrect Syscall.

(** ** A page of data while others are mapped and unmapped *)

Lemma mapped_locked st b k q : mapped_page st k q -> mapped_page (set_locked st b) k q.
Proof. intros [M1 M2 M3 M4 M5 M6 M7]. constructor; try done. by apply space_locked. Qed.

Lemma mapped_has_table st k q : mapped_page st k q -> has_table (v_phys st) (k / 1024) = true.
Proof.
  intros [M1 M2 M3 M4 M5 M6 M7]. unfold entry in M7. unfold has_table.
  assert (Hne : Z.lor (q * 4096) VM_FLAGS_KERNEL <> 0) by (unfold VM_FLAGS_KERNEL; intros E%Z.lor_eq_0_iff; lia).
  destruct (word (v_phys st) D (k / 1024)) as [e|]; [|congruence]. destruct (present e); congruence.
Qed.

Lemma mapped_kept st st' k n w kf qf : range_effect st st' k n w -> mapped_page st kf qf -> kf / 1024 <> 255 ->
  (kf < k \/ k + Z.of_nat n <= kf) -> mapped_page st' kf qf.
Proof.
  intros [R1 R2 R3 R4 R5 R7 R6 R8] Hm H255 Hout. pose proof (mapped_has_table _ _ _ Hm) as Ht. pose proof Hm as [M1 M2 M3 M4 M5 M6 M7].
  destruct (R8 qf M5) as [P1 P2]. destruct R2 as (R2 & _). constructor; [done|congruence|done|done|done| |].
  - intros i Hi. rewrite P2 by done. by apply M6.
  - rewrite R4; [done|lia|done|done|]. intros (Hx & _). congruence.
Qed.

(** The words of the page stay. *)
Lemma mapped_words st st' k n w kf qf i : range_effect st st' k n w -> mapped_page st kf qf -> 0 <= i < 1024 ->
  word (v_phys st') (qf * 4096) i = word (v_phys st) (qf * 4096) i.
Proof. intros Heff Hm Hi. by apply (re_plain _ _ _ _ _ Heff qf (mp_plain _ _ _ Hm)). Qed.

Lemma only_page_entry st st' q j : space_wf st -> plain st q -> only_page st st' q -> 0 <= j < 2 ^ 20 -> entry (v_phys st') j = entry (v_phys st) j.
Proof.
  intros Hs (_ & _ & HD & Hfr) Ho Hj. unfold entry. rewrite (op_words _ _ _ Ho) by (done || divmod).
  destruct (word (v_phys st) D (j / 1024)) as [e|] eqn:He; [|done]. destruct (present e) eqn:Hp; [|done].
  rewrite (op_words _ _ _ Ho); [done| |apply (Hfr (j / 1024)); (done || divmod)|divmod]. apply frame_aligned.
  apply (dir_present (v_phys st) (v_pages st) (j / 1024)); [apply Hs|divmod|done].
Qed.

Section Execute.
Context {H X F : Type} `{KernelHeap H} `{ProgramImages H X} `{FileCalls F}.
Implicit Types kn : kernel H X F.

(** The caller: its frame is at word [fi] of page [kf], its stack pointer [off]
    bytes into the first page [qu] of its stack. *)
Record calling kn (esp kf qf fi t : Z) (th : thread_t) (number qu off : Z) : Prop := {
  ca_frame : mapped_page (kn_vm kn) kf qf;
  ca_window : kf / 1024 <> 255;
  ca_esp : esp = kf * 4096 + 4 * fi /\ 0 <= fi /\ fi + 19 <= 1024;
  ca_eax : word (v_phys (kn_vm kn)) (qf * 4096) (fi + 11) = Some number;
  ca_thread : thread_getCurrentThread (kn_sched kn) = Ok t /\ s_threads (kn_sched kn) !! t = Some th;
  ca_stack : word (v_phys (kn_vm kn)) (qf * 4096) (fi + 17) = Some (u32 (t_userStackVirt th + off));
  ca_offset : 0 <= off /\ off mod 4 = 0 /\ off + 8 < 4096 /\ is_u32 (t_userStackVirt th + off);
  ca_user : t_userStack th = qu * 4096 /\ 0 < qu < 2 ^ 20 /\ plain (kn_vm kn) qu /\ page_there (v_phys (kn_vm kn)) (qu * 4096);
  ca_room : alloc_ready (kn_vm kn) (qu * 4096) 1 VM_FLAGS_KERNEL
}.

(** Argument [i] of the caller, two words above its stack pointer. *)
Definition pushed kn (qu off i : Z) : option Z := word (v_phys (kn_vm kn)) (qu * 4096) (off / 4 + 2 + i).

(** Where a handler looks for the arguments when the caller's stack is mapped at
    page [k]. *)
Definition arguments_at (k off : Z) : Z := k * 4096 + off + 8.

(** What a handler finds: the caller's stack mapped at page [k], which was free,
    the caller's arguments there, its frame, and the rest of the system as it
    was. *)
Record called kn kn1 (esp kf qf t : Z) (th : thread_t) (qu off k : Z) : Prop := {
  cd_page : 1 < k /\ k + 1 <= 255 * 1024 /\ k <> kf;
  cd_free : unmapped (v_phys (kn_vm kn)) k = true;
  cd_mapped : mapped_page (kn_vm kn1) k qu;
  cd_arguments i w : 0 <= i -> off / 4 + 2 + i < 1024 -> pushed kn qu off i = Some w -> argument kn1 (arguments_at k off) i = Ok w;
  cd_frame : mapped_page (kn_vm kn1) kf qf /\ v_lock (kn_vm kn1) = false;
  cd_words j : 0 <= j < 1024 -> word (v_phys (kn_vm kn1)) (qf * 4096) j = word (v_phys (kn_vm kn)) (qf * 4096) j;
  cd_sched : kn_sched kn1 = put_thread (kn_sched kn) t (th_esp th esp);
  cd_files : kn_files kn1 = kn_files kn /\ kn_log kn1 = kn_log kn
}.

(** What a handler has to leave: the page of the caller's frame is mapped, so is
    the one of its stack, and the lock of the address spaces is free. *)
Record leaves kn2 (kf qf k qu : Z) : Prop := {
  lv_frame : mapped_page (kn_vm kn2) kf qf;
  lv_mapped : mapped_page (kn_vm kn2) k qu;
  lv_lock : v_lock (kn_vm kn2) = false
}.

Lemma enter_call_spec kn esp kf qf fi t th number qu off : calling kn esp kf qf fi t th number qu off ->
  exists k kn1, enter_call kn esp = Ok (k * 4096, arguments_at k off, kn1) /\ called kn kn1 esp kf qf t th qu off k.
Proof.
  intros [C1 C2 [-> [Cf1 Cf2]] C4 [Ct1 Ct2] C6 (Co1 & Co2 & Co3 & Co4) (Cu1 & Cu2 & Cu3 & Cu4) C9].
  destruct (alloc_effect _ _ _ _ C9) as (k & st1 & E & Hk & Hb & Hfit & Heff). change (Z.to_nat 1) with 1%nat in Heff.
  assert (Hne : k <> kf).
  { intros ->. destruct Hfit as (_ & Hrun & _). specialize (Hrun 0 ltac:(lia)). rewrite Z.add_0_r in Hrun. unfold unmapped in Hrun.
    rewrite (mp_entry _ _ _ C1) in Hrun. apply andb_prop in Hrun as [_ Hrun]. pose proof (mp_q _ _ _ C1).
    rewrite entry_present in Hrun by (unfold VM_FLAGS_KERNEL; divmod). done. }
  assert (Hm1 : mapped_page st1 kf qf) by (eapply mapped_kept; [exact Heff|by apply mapped_locked|done|cbn; lia]).
  assert (Hmu : mapped_page st1 k qu).
  { destruct (re_plain _ _ _ _ _ Heff qu Cu3) as [P1 P2]. destruct (re_mode _ _ _ _ _ Heff) as (Hon & _).
    constructor; [apply Heff|rewrite Hon; apply C1|lia|lia|done| |].
    - intros i Hi. rewrite P2 by done. by apply Cu4.
    - pose proof (re_entry _ _ _ _ _ Heff 0 ltac:(lia)) as He. by rewrite Z.add_0_r, Z.mul_0_l, Z.add_0_r in He. }
  exists k. eexists. split; [|constructor].
  - unfold enter_call. rewrite Ct1. cbn [obind]. unfold thread_at. rewrite Ct2. cbn [of_option obind].
    change (kn_vm (kn_with_sched kn _)) with (kn_vm kn). unfold vm_getKernelDirectory. rewrite (sw_dir _ (mp_space _ _ _ C1)), Cu1, E. cbn [obind].
    unfold frame_esp. pose proof (mp_k _ _ _ C1). rewrite u32_small by lia.
    replace (kf * 4096 + 4 * fi + 68) with (kf * 4096 + 4 * (fi + 17)) by lia.
    assert (Hld : vload (vm_unlock st1) (kf * 4096 + 4 * (fi + 17)) = Ok (u32 (t_userStackVirt th + off))).
    { apply (mapped_load _ kf qf); [by apply mapped_locked|lia|].
      exact (eq_trans (mapped_words _ _ _ _ _ _ _ (fi + 17) Heff (mapped_locked _ _ _ _ C1) ltac:(lia)) C6). }
    rewrite Hld. cbn [obind]. rewrite (u32_small (t_userStackVirt th + off)) by done.
    replace (k * 4096 + (t_userStackVirt th + off - t_userStackVirt th) + 8) with (k * 4096 + off + 8) by lia.
    rewrite u32_small by lia. reflexivity.
  - done.
  - destruct Hfit as (_ & Hrun & _). specialize (Hrun 0 ltac:(lia)). by rewrite Z.add_0_r in Hrun.
  - by apply mapped_locked.
  - intros i w Hi Hi' Hw. unfold argument, arguments_at. rewrite u32_small by divmod.
    replace (k * 4096 + off + 8 + 4 * i) with (k * 4096 + 4 * (off / 4 + 2 + i)) by divmod.
    apply (mapped_load _ k qu); [by apply mapped_locked|divmod|].
    destruct (re_plain _ _ _ _ _ Heff qu Cu3) as [_ P2]. refine (eq_trans (P2 _ _) Hw). divmod.
  - split; [by apply mapped_locked|done].
  - intros j Hj. exact (mapped_words _ _ _ _ _ _ _ j Heff (mapped_locked _ _ _ _ C1) Hj).
  - reflexivity.
  - done.
Qed.

(** Word [j] of the frame's page after the return. *)
Definition returned (st : vmem) (qf fi result : Z) (errno : errors) (j : Z) : option Z :=
  if decide (j = fi + 11) then Some result
  else match errno with
       | Some e => if decide (j = fi + 10) then Some e else word (v_phys st) (qf * 4096) j
       | None => word (v_phys st) (qf * 4096) j
       end.

Lemma store_frame st kf qf i w : mapped_page st kf qf -> 0 <= i < 1024 -> is_u32 w ->
  exists st', vstore st (u32 (kf * 4096 + 4 * i)) w = Ok st' /\ mapped_page st' kf qf /\ only_page st st' qf /\
    forall j, 0 <= j < 1024 -> word (v_phys st') (qf * 4096) j = if decide (j = i) then Some w else word (v_phys st) (qf * 4096) j.
Proof.
  intros Hm Hi Hw. destruct (data_store st kf qf Hm i w Hi Hw) as (E & Hm' & Ho). pose proof (mp_k _ _ _ Hm). rewrite u32_small by lia.
  eexists. split_and!; [exact E|done|done|]. intros j Hj. cbn [v_phys set_phys]. rewrite data_word by (done || divmod).
  repeat case_decide; (done || lia).
Qed.

Lemma only_page_table st st' q l : plain st q -> only_page st st' q -> 0 <= l < 1024 -> has_table (v_phys st') l = has_table (v_phys st) l.
Proof. intros (_ & _ & HD & _) Ho Hl. unfold has_table. by rewrite (op_words _ _ _ Ho). Qed.

Lemma leave_call_spec kn kf qf fi k result errno : mapped_page (kn_vm kn) kf qf -> kf / 1024 <> 255 -> v_lock (kn_vm kn) = false ->
  0 <= fi -> fi + 19 <= 1024 -> 1 < k -> k + 1 <= 255 * 1024 -> k <> kf -> has_table (v_phys (kn_vm kn)) (k / 1024) = true ->
  is_u32 result -> (forall e, errno = Some e -> is_u32 e) ->
  exists st, leave_call kn (kf * 4096 + 4 * fi) (k * 4096) result errno = Ok (kn_with_vm kn st) /\ mapped_page st kf qf /\ v_lock st = false /\
    entry (v_phys st) k = 0 /\
    (forall j, 0 <= j < 2 ^ 20 -> j <> k -> j / 1024 <> 255 -> entry (v_phys st) j = entry (v_phys (kn_vm kn)) j) /\
    forall j, 0 <= j < 1024 -> word (v_phys st) (qf * 4096) j = returned (kn_vm kn) qf fi result errno j.
Proof.
  intros Hm H255 Hlk Hf1 Hf2 Hk1 Hk2 Hne Ht Hr He. unfold leave_call, frame_eax, frame_ecx.
  replace (kf * 4096 + 4 * fi + 44) with (kf * 4096 + 4 * (fi + 11)) by lia. replace (kf * 4096 + 4 * fi + 40) with (kf * 4096 + 4 * (fi + 10)) by lia.
  destruct (store_frame (kn_vm kn) kf qf (fi + 11) result Hm ltac:(lia) Hr) as (st1 & E1 & Hm1 & Ho1 & Hw1). rewrite E1. cbn [obind].
  assert (Hst2 : exists st2, match errno with Some e => vstore st1 (u32 (kf * 4096 + 4 * (fi + 10))) e | None => Ok st1 end = Ok st2 /\
    mapped_page st2 kf qf /\ only_page st1 st2 qf /\ forall j, 0 <= j < 1024 -> word (v_phys st2) (qf * 4096) j = returned (kn_vm kn) qf fi result errno j).
  { unfold returned. destruct errno as [e|]; [|exists st1; split_and!; [done|done|apply only_page_refl|done]].
    destruct (store_frame st1 kf qf (fi + 10) e Hm1 ltac:(lia) (He e eq_refl)) as (st2 & E2 & Hm2 & Ho2 & Hw2). exists st2. split_and!; try done.
    intros j Hj. rewrite Hw2, Hw1 by done. repeat case_decide; (done || lia). }
  destruct Hst2 as (st2 & -> & Hm2 & Ho2 & Hw2). cbn [obind]. pose proof (only_page_trans _ _ _ _ Ho1 Ho2) as Ho.
  assert (Ht2 : has_table (v_phys st2) (k / 1024) = true) by (rewrite (only_page_table (kn_vm kn) st2 qf); [done|apply Hm|done|divmod]).
  destruct (free_effect st2 k 1) as (st3 & E3 & Heff); [apply Hm2| |done|lia|lia| |].
  { destruct (op_mode _ _ _ Ho) as (_ & _ & _ & ->). done. }
  { intros l Hl. by replace l with (k / 1024) by (unfold range_end in Hl; replace (k + Z.of_nat 1 - 1) with k in Hl by lia; lia). }
  change (Z.of_nat 1) with 1 in E3. unfold vm_getKernelDirectory. rewrite (sw_dir _ (mp_space _ _ _ Hm2)), E3. cbn [obind].
  exists (vm_unlock st3). split_and!; [done| |done| | |].
  - apply mapped_locked. eapply mapped_kept; [exact Heff|by apply mapped_locked|done|lia].
  - pose proof (re_entry _ _ _ _ _ Heff 0 ltac:(lia)) as Hz. by rewrite Z.add_0_r in Hz.
  - intros j Hj Hjk Hj255. rewrite <- (only_page_entry (kn_vm kn) st2 qf j) by (apply Hm || done).
    apply (re_others _ _ _ _ _ Heff); [done|lia|done|]. intros (Hx & Hx1 & _). cbn in Hx, Hx1. replace (j / 1024) with (k / 1024) in Hx; [congruence|].
    unfold range_end in Hx1. replace (k + Z.of_nat 1 - 1) with k in Hx1 by lia. lia.
  - intros j Hj. rewrite <- Hw2 by done. exact (mapped_words _ _ _ _ _ _ _ j Heff (mapped_locked _ _ _ _ Hm2) Hj).
Qed.

(** C12: a system call.  The caller's stack pointer is on the first page of its
    stack and the number in its [eax] names a handler, which returns and leaves
    the frame's page and the one mapped for the call mapped and the lock of the
    address spaces free.  Then the handler is called with the caller's stack
    mapped at a page that was free, and finds the caller's arguments where it looks
    for them and the rest of the system unchanged.  Afterwards the caller's [eax]
    is its result, [ecx] its error if it left one, and the other words of the frame
    are as the handler left them; the page mapped for the call is unmapped, and
    every other mapping is as the handler left it. *)
Theorem sc_execute_returns table kn esp kf qf fi t th number qu off (callback : handler) :
  calling kn esp kf qf fi t th number qu off -> table !! Z.to_nat number = Some (Some callback) ->
  (forall kn1 k, called kn kn1 esp kf qf t th qu off k ->
     exists result errno esp' kn2, callback kn1 esp (arguments_at k off) = Ok (result, errno, esp', kn2) /\ leaves kn2 kf qf k qu /\
       is_u32 result /\ forall e, errno = Some e -> is_u32 e) ->
  exists k kn1 result errno esp' kn2 st,
    called kn kn1 esp kf qf t th qu off k /\ callback kn1 esp (arguments_at k off) = Ok (result, errno, esp', kn2) /\
    _sc_execute table kn esp = Ok (esp', kn_with_vm kn2 st) /\
    mapped_page st kf qf /\ v_lock st = false /\
    (forall j, 0 <= j < 1024 -> word (v_phys st) (qf * 4096) j = returned (kn_vm kn2) qf fi result errno j) /\
    vload st (esp + frame_eax) = Ok result /\
    entry (v_phys st) k = 0 /\
    forall j, 0 <= j < 2 ^ 20 -> j <> k -> j / 1024 <> 255 -> entry (v_phys st) j = entry (v_phys (kn_vm kn2)) j.
Proof.
  intros Hc Htab Hcb. destruct (enter_call_spec _ _ _ _ _ _ _ _ _ _ Hc) as (k & kn1 & E1 & Hcd).
  destruct (Hcb _ _ Hcd) as (result & errno & esp' & kn2 & E2 & [L1 L2 L3] & Hr & He). destruct Hc as [C1 C2 [-> [Cf1 Cf2]] C4 _ _ _ _ _].
  destruct (cd_page _ _ _ _ _ _ _ _ _ _ Hcd) as (Hk1 & Hk2 & Hne).
  destruct (leave_call_spec kn2 kf qf fi k result errno L1 C2 L3 Cf1 Cf2 Hk1 Hk2 Hne (mapped_has_table _ _ _ L2) Hr He)
    as (st & E3 & Hm3 & Hl3 & Hz & Hother & Hw3).
  exists k, kn1, result, errno, esp', kn2, st. split_and!; try done.
  - unfold _sc_execute. pose proof (mp_k _ _ _ C1). unfold frame_eax at 1. rewrite u32_small by lia.
    replace (kf * 4096 + 4 * fi + 44) with (kf * 4096 + 4 * (fi + 11)) by lia.
    rewrite (mapped_load _ kf qf C1 _ number) by (done || lia). cbn [obind].
    match goal with |- context [of_option ?x] => replace (of_option x) with (Ok (Some callback)) by exact (f_equal of_option (eq_sym Htab)) end.
    cbn [obind]. rewrite E1. cbn [obind]. rewrite E2. cbn [obind]. by rewrite E3.
  - unfold frame_eax. replace (kf * 4096 + 4 * fi + 44) with (kf * 4096 + 4 * (fi + 11)) by lia.
    apply (mapped_load _ kf qf Hm3); [lia|]. rewrite Hw3 by lia. unfold returned. by rewrite decide_True.
Qed.
End Execute.

(** ** A caller on the small machine *)

(** A low page that is unmapped is enough for a mapping of one page. *)
Lemma one_page_ready st p a : space_wf st -> v_paging st = true -> v_lock st = false -> 1 <= a < 256 -> unmapped (v_phys st) a = true ->
  good_frames p 1 VM_FLAGS_KERNEL -> alloc_ready st p 1 VM_FLAGS_KERNEL.
Proof.
  intros Hs Hon Hl Ha Hu Hp. assert (Hrun : run (unmapped (v_phys st)) a 1) by (intros d Hd; by replace (a + d) with a by lia).
  constructor; try done; [exists a; split_and!; [lia|lia|done]|]. intros k (Hk & Hr & Hmin).
  assert (k <= a) by (destruct (Z.le_gt_cases k a); [done|exfalso; apply (Hmin a); [lia|done]]).
  unfold tables_available. rewrite missing_none; [exact I|]. intros l Hl'. assert (l = 0) as -> by divmod. by apply slot_zero.
Qed.

(** A free page, mapped at page [a], the first that is unmapped. *)
Lemma map_fresh_page st a : space_wf st -> v_paging st = true -> v_lock st = false -> 1 < a < 255 ->
  (forall j, a <= j < 256 -> unmapped (v_phys st) j = true) -> (forall j, 1 <= j < a -> unmapped (v_phys st) j = false) ->
  fst (alloc_page (v_pages st)) <> 0 ->
  exists q st', mapped_page st' a q /\ v_lock st' = false /\ keeps_plain st st' /\ (forall j, a + 1 <= j < 256 -> unmapped (v_phys st') j = true) /\
    v_pages st' = snd (alloc_page (v_pages st)).
Proof.
  intros Hs Hon Hl Ha Hfree Hbusy Hne. destruct (take_page st Hs Hne) as (q & Eq & Hq & _ & T1 & T2 & T3 & T4).
  set (st1 := set_pages st (snd (alloc_page (v_pages st)))) in *.
  assert (Hr : alloc_ready st1 (q * 4096) 1 VM_FLAGS_KERNEL).
  { apply (one_page_ready _ _ a); try done; [lia|apply Hfree; lia|]. unfold good_frames, VM_FLAGS_KERNEL. split_and!; (lia || divmod). }
  destruct (alloc_effect _ _ _ _ Hr) as (k & st2 & E & Hk & Hb & (Hk1 & Hk2 & Hk3) & Heff). change (Z.to_nat 1) with 1%nat in Heff.
  assert (k = a) as ->.
  { destruct (Z.lt_trichotomy k a) as [|[|]]; [|done|].
    - specialize (Hk2 0 ltac:(lia)). rewrite Z.add_0_r in Hk2. cbn in Hk2. rewrite Hbusy in Hk2 by lia. done.
    - exfalso. apply (Hk3 a); [lia|]. intros d Hd. replace (a + d) with a by lia. apply Hfree. lia. }
  destruct (re_plain _ _ _ _ _ Heff q T2) as [P1 P2]. destruct (re_mode _ _ _ _ _ Heff) as (M1 & _ & _ & M4).
  pose proof (slot_zero _ T1 Hon) as Ht0. exists q, (vm_unlock st2). split_and!.
  - apply mapped_locked. constructor; [apply Heff|by rewrite M1|lia|lia|done| |].
    + intros i Hi. rewrite P2 by done. by apply T3.
    + pose proof (re_entry _ _ _ _ _ Heff 0 ltac:(lia)) as He. by rewrite Z.add_0_r, Z.mul_0_l, Z.add_0_r in He.
  - done.
  - eapply keeps_plain_trans; [exact T4|exact (re_plain _ _ _ _ _ Heff)].
  - intros j Hj. specialize (Hfree j ltac:(lia)). unfold unmapped in *. cbn [v_phys vm_unlock set_locked].
    rewrite (re_others _ _ _ _ _ Heff); [done|lia|lia|divmod|]. intros (Hx & _). replace (j / 1024) with 0 in Hx by divmod. cbn in Hx, Ht0. congruence.
  - cbn [v_pages vm_unlock set_locked]. rewrite (re_pages _ _ _ _ _ Heff); [done|]. unfold range_end. apply missing_none.
    intros l Hl'. replace l with 0 by divmod. exact Ht0.
Qed.

#[export] Instance no_files : FileCalls unit := fun f st _ => Ok (0, None, f, st).

Definition demo_caller_thread (qu : Z) : thread_t := th_userStack (new_thread 1 0) 32 (qu * 4096) 0x5000.
Definition demo_caller (qu : Z) (st : vmem) : kernel cell_heap Z unit :=
  Kernel (System (Machine (Sched {[7 := demo_caller_thread qu]} {[1 := Process D 0 5 0 false false 7 7 1 0 NULL [] NULL NULL]} 1 1 NULL NULL false 6 0 0)
    (Kmem (CellHeap ∅) st) ∅ ∅ ∅) 0 ∅ ∅ ∅) tt [].

Lemma mapped_pages_taken st k q : mapped_page st k q -> fst (alloc_page (v_pages st)) <> 0 ->
  mapped_page (set_pages st (snd (alloc_page (v_pages st)))) k q.
Proof.
  intros [M1 M2 M3 M4 M5 M6 M7] Hne. destruct (take_page st M1 Hne) as (q' & _ & _ & _ & T1 & _ & _ & T4). constructor; try done. by apply T4.
Qed.

Lemma demo_calls st : map_effect demo_directory st 1 (D + 3) ->
  exists qf qu st', calling (demo_caller qu st') (2 * 4096) 2 qf 0 7 (demo_caller_thread qu) SYS_PID qu 16.
Proof.
  intros Hst. pose proof (demo_stack_ready st Hst) as [S1 S2 S3 _ (Sa & Sb & _)].
  destruct (map_fresh_page (VMemoryContract.started st) 2 S1 S2 S3 ltac:(lia)) as (q & st1 & Hm1 & Hl1 & _ & Hu1 & Epg); [| |exact Sa|].
  { intros j Hj. by apply demo_unmapped. }
  { intros j Hj. replace j with 1 by lia. by apply page_one_mapped. }
  destruct (store_frame st1 2 q 11 SYS_PID Hm1 ltac:(lia) ltac:(done)) as (st2 & _ & Hm2 & Ho2 & Hw2).
  destruct (store_frame st2 2 q 17 0x5010 Hm2 ltac:(lia) ltac:(done)) as (st3 & _ & Hm3 & Ho3 & Hw3).
  pose proof (only_page_trans _ _ _ _ Ho2 Ho3) as Ho.
  assert (Hne : fst (alloc_page (v_pages st3)) <> 0) by (rewrite (op_pages _ _ _ Ho), Epg; exact Sb).
  destruct (take_page st3 (mp_space _ _ _ Hm3) Hne) as (qu & _ & Hq & _ & T1 & T2 & T3 & _).
  pose proof (mapped_pages_taken _ _ _ Hm3 Hne) as Hm4.
  exists q, qu, (set_pages st3 (snd (alloc_page (v_pages st3)))).
  constructor; [exact Hm4|done|lia| |done| |split_and!; (done || lia)|split_and!; (done || lia)|].
  - change (word (v_phys st3) (q * 4096) 11 = Some SYS_PID). rewrite Hw3, Hw2 by lia. done.
  - change (word (v_phys st3) (q * 4096) 17 = Some 0x5010). rewrite Hw3 by lia. done.
  - apply (one_page_ready _ _ 3); [apply Hm4|apply Hm4| |lia| |unfold good_frames, VM_FLAGS_KERNEL; split_and!; (lia || divmod)].
    + change (v_lock st3 = false). destruct (op_mode _ _ _ Ho) as (_ & _ & _ & ->). done.
    + change (unmapped (v_phys st3) 3 = true). specialize (Hu1 3 ltac:(lia)). unfold unmapped in *.
      rewrite (only_page_entry st1 st3 q); [done|apply Hm1|apply Hm1|done|lia].
Qed.

Definition call_table : list (option (@handler cell_heap Z unit)) := [None; None; Some (reads _sc_pid)].

Lemma sc_execute_returns_witness : exists kn k kn', _sc_execute call_table kn 8192 = Ok (8192, kn') /\ vload (kn_vm kn') (8192 + frame_eax) = Ok 5 /\
  unmapped (v_phys (kn_vm kn)) k = true /\ entry (v_phys (kn_vm kn')) k = 0.
Proof.
  destruct demo_context as (st & _ & Hst). destruct (demo_calls st Hst) as (qf & qu & st' & Hc).
  assert (Hcb : forall kn1 k, called (demo_caller qu st') kn1 8192 2 qf 7 (demo_caller_thread qu) qu 16 k -> reads _sc_pid kn1 8192 (arguments_at k 16) = Ok (5, None, 8192, kn1)).
  { intros kn1 k Hcd. unfold reads. rewrite (cd_sched _ _ _ _ _ _ _ _ _ _ Hcd). reflexivity. }
  destruct (sc_execute_returns call_table (demo_caller qu st') 8192 2 qf 0 7 (demo_caller_thread qu) SYS_PID qu 16 (reads _sc_pid))
    as (k & kn1 & result & errno & esp' & kn2 & stf & Hcd & E2 & E & _ & _ & _ & Hr & Hz & _).
  - exact Hc.
  - reflexivity.
  - intros kn1 k Hcd. exists 5, None, 8192, kn1. split; [by apply Hcb|]. split_and!; [|done|done].
    destruct (cd_frame _ _ _ _ _ _ _ _ _ _ Hcd). constructor; [done|exact (cd_mapped _ _ _ _ _ _ _ _ _ _ Hcd)|done].
  - rewrite (Hcb _ _ Hcd) in E2. injection E2 as <- <- <- <-. exists (demo_caller qu st'), k, (kn_with_vm kn1 stf).
    split_and!; [exact E|exact Hr|exact (cd_free _ _ _ _ _ _ _ _ _ _ Hcd)|exact Hz].
Defined.

(** A number beyond the table reads what lies behind it. *)
Lemma number_not_checked (table : list (option (@handler cell_heap Z unit))) kn esp number : length table = Z.to_nat _SYS_MAXCALLS ->
  vload (kn_vm kn) (u32 (esp + frame_eax)) = Ok number -> 128 <= number -> _sc_execute table kn esp = Fault.
Proof.
  intros Hl Hn Hb. assert (Hnone : table !! Z.to_nat number = None) by (apply lookup_ge_None_2; rewrite Hl; unfold _SYS_MAXCALLS; lia).
  unfold _sc_execute. rewrite Hn. cbn [obind].
  match goal with |- context [of_option ?x] => by replace (of_option x) with (@Fault (option (@handler cell_heap Z unit))) by exact (f_equal of_option (eq_sym Hnone)) end.
Qed.

(** ** Copies between a program and the kernel *)

Module CopyDemo.
Import ThreadDemo.

(** A machine with little memory: the kernel's directory, five pages for tables, and
    the words that are copied.  Two pages of a program are frames 77 and 79, a page
    of the kernel is frame 75. *)
Definition little_ram : gmap Z Z :=
  foldr (fun a m => <[a := 0]> m) (zero_ram (Z.to_nat (5 * 1024)) (32 * 4096) (zero_ram (Z.to_nat 1024) 0x1000 ∅))
    [75 * 4096; 75 * 4096 + 4; 77 * 4096 + 4; 77 * 4096 + 4092; 78 * 4096; 79 * 4096; 79 * 4096 + 4].
Definition little : vmem := Vmem little_ram some_pages false true 0 false.
Definition little_space : Z * vmem := let st := paging (ok_or (vm_createKernelContext little) little) in ok_or (vm_createDirectory st) (0, st).

Definition map_pages (pd : Z) (st : vmem) : outcome (Z * Z * vmem) :=
  let* st := vm_mapPage st pd (77 * 4096) 0x10000000 VM_FLAGS_USERLAND in
  let* st := vm_mapPage st pd (79 * 4096) 0x10001000 VM_FLAGS_USERLAND in
  let* (kernel, st) := vm_alloc st (vm_getKernelDirectory st) (75 * 4096) 1 VM_FLAGS_KERNEL in
  Ok (pd, kernel, set_phys st (<[79 * 4096 := 0xDDCCBBAA]> (<[78 * 4096 := 0x44332211]> (<[77 * 4096 + 4 := 0x64636261]> (v_phys st))))).
Definition pages_mapped : outcome (Z * Z * vmem) := map_pages (fst little_space) (snd little_space).

Definition kernel_page (r : outcome (bool * errors * vmem)) : option (bool * option Z * option Z) :=
  match r with Ok (b, _, st) => Some (b, v_phys st !! (75 * 4096), v_phys st !! (75 * 4096 + 4)) | _ => None end.

(** Bytes within a page of the program come and go as they should. *)
Lemma copies_within_page :
  kernel_page (let* (pd, kernel, st) := pages_mapped in vfs_contextCopyDataOut st pd 0x10000005 3 (kernel + 1)) = Some (true, Some 0x64636200, Some 0) /\
  (let* (pd, kernel, st) := pages_mapped in
   let* (_, _, st) := vfs_contextCopyDataOut st pd 0x10000004 4 kernel in
   let* (_, _, st) := vfs_contextCopyDataIn st pd kernel 4 0x10001002 in
   Ok ((fun a => v_phys st !! a) <$> [79 * 4096; 79 * 4096 + 4])) = Ok [Some 0x6261BBAA; Some 0x6463].
Proof. vm_compute. split_and!; reflexivity. Qed.

(** The pages are counted from the size alone: four bytes around the end of a page
    are one page, and the copy runs into what the kernel has mapped behind it. *)
Lemma copy_over_page_end : (let* (pd, kernel, st) := pages_mapped in vfs_contextCopyDataOut st pd 0x10000FFE 4 kernel) = Fault.
Proof. vm_compute. reflexivity. Qed.

(** Two pages of a program are taken for two pages of memory one after the other:
    the second is not the program's. *)
Lemma copy_of_wrong_page :
  (let* (pd, kernel, st) := pages_mapped in
   let* (_, _, st) := through_mapping st pd 0x10000000 4100 (fun st mapped => vcopy 4 st kernel (mapped + 4096)) in
   Ok (v_phys st !! (75 * 4096))) = Ok (Some 0x44332211).
Proof. vm_compute. reflexivity. Qed.
End CopyDemo.
