(* ===== verification/IoObject.v ===== *)
(** * The objects of drivers (libkernel/libio)

    Drivers are written against a small class library: objects counted by
    reference, arrays, strings, numbers, data and dates.  An object is a record in
    a store, with the class it belongs to, its reference count and the fields of
    its class; the arrays behind it are blocks of the drivers' heap, which hands
    out cleared memory.  [release] calls the virtual [free] of the object's class
    when the last reference goes, and that releases what the object holds.  The
    spin lock in every object is left out: one thread is modelled at a time.
    Dictionaries, sets and pools of objects are used in [IoDictionary]. *)

From S2P Require Import Prelude Pages HeapSpec Block Array HashSet.

(** ** Data *)

Inductive number_type := kIONumberTypeInt8 | kIONumberTypeInt16 | kIONumberTypeInt32 | kIONumberTypeInt64
  | kIONumberTypeUInt8 | kIONumberTypeUInt16 | kIONumberTypeUInt32 | kIONumberTypeUInt64.

#[export] Instance number_type_eq_dec : EqDecision number_type.
Proof. solve_decision. Defined.

(** The fields of an array, of a pool of objects to release later, and those of a
    thread that hold objects. *)
Record array_fields := ArrayFields { ar_objects : Z; ar_cells : block; ar_count : Z; ar_capacity : Z; ar_changeSize : Z }.
Record pool_fields := PoolFields { po_owner : Z; po_previous : Z; po_objects : Z; po_cells : block; po_count : Z; po_size : Z }.
Record thread_fields := ThreadFields { th_properties : Z; th_topPool : Z; th_name : Z }.

(** What the classes add to an object; [EntryFields] is an entry of the database of
    services.  Of a string, a number and a piece of data
    the block is kept with its contents. *)
Inductive fields :=
| NoFields
| StringFields (string : Z) (text : list Z)
| NumberFields (type : number_type) (buffer bits : Z)
| DataFields (buffer : Z) (bytes : list Z) (length : Z)
| DateFields (delta : Z)
| OfArray (a : array_fields)
| OfDictionary (d : hashset_t)
| OfPointerDictionary (d : hashset_t)
| OfSet (d : hashset_t)
| OfPool (p : pool_fields)
| OfThread (t : thread_fields)
| EntryFields (symbol attributes : Z).

Record object := Object { ob_symbol : Z; ob_retain : Z; ob_fields : fields }.

Definition IONotFound : Z := u32 (-1).

Section Objects.
Context {H : Type} `{KernelHeap H}.

(** The heap of the drivers, the objects and the buckets of tables in it, and the
    class every class is derived from, null for the class at the root. *)
Record world := World { w_heap : H; w_objects : gmap Z object; w_buckets : buckets; w_super : gmap Z Z }.

Definition with_heap (w : world) (h : H) : world := World h (w_objects w) (w_buckets w) (w_super w).
Definition with_objects (w : world) (os : gmap Z object) : world := World (w_heap w) os (w_buckets w) (w_super w).
Definition with_buckets (w : world) (st : buckets) : world := World (w_heap w) (w_objects w) st (w_super w).

Definition object_at (w : world) (p : Z) : outcome object := of_option (w_objects w !! p).
Definition set_object (w : world) (p : Z) (o : object) : world := with_objects w (<[p := o]> (w_objects w)).
Definition set_retain (w : world) (p : Z) (o : object) (n : Z) : world := set_object w p (Object (ob_symbol o) n (ob_fields o)).

Definition set_fields (w : world) (p : Z) (fs : fields) : outcome world :=
  let* o := object_at w p in Ok (set_object w p (Object (ob_symbol o) (ob_retain o) fs)).

Definition kalloc (w : world) (size : Z) : outcome (Z * world) :=
  let* (p, h) := halloc (w_heap w) size in Ok (p, with_heap w h).
Definition kfree (w : world) (p : Z) : outcome world :=
  let* h := hfree (w_heap w) p in Ok (with_heap w h).

(** A cleared array of pointers. *)
Definition pointers (n : Z) : Z := u32 (n * 4).
Definition cleared (n : Z) : block := replicate (Z.to_nat (pointers n / 4)) (Some 0).

(** ** Reference counting *)

Definition retain (w : world) (p : Z) : outcome world :=
  if p =? NULL then Ok w else
  let* o := object_at w p in
  Ok (set_retain w p o (u32 (ob_retain o + 1))).

(** The bodies of [free] call [release] again: [rel] is the call. *)
Section Free.
Variable rel : world -> Z -> outcome world.

Fixpoint release_cells (n : nat) (cells : block) (i : Z) (w : world) : outcome world :=
  match n with
  | O => Ok w
  | S n' =>
      let* object := cell_get cells i in
      let* w := rel w object in
      release_cells n' cells (i + 1) w
  end.

Definition IOArray_free (w : world) (a : array_fields) : outcome world :=
  let* w := release_cells (Z.to_nat (ar_count a)) (ar_cells a) 0 w in
  kfree w (ar_objects a).

Fixpoint release_each (ps : list Z) (w : world) : outcome world :=
  match ps with [] => Ok w | p :: ps' => let* w := rel w p in release_each ps' w end.

(** One chain of a table: what a bucket holds is released and the bucket freed. *)
Fixpoint release_chain (fuel : nat) (held : bucket -> list Z) (w : world) (b : Z) : outcome world :=
  if b =? NULL then Ok w else
  match fuel with
  | O => Hang
  | S f =>
      let* bk := of_option (w_buckets w !! b) in
      let* w := if b_key bk =? NULL then Ok w else release_each (held bk) w in
      let* w := kfree w b in
      release_chain f held (with_buckets w (delete b (w_buckets w))) (b_overflow bk)
  end.

Fixpoint release_chains (n : nat) (held : bucket -> list Z) (cells : block) (i : Z) (w : world) : outcome world :=
  match n with
  | O => Ok w
  | S n' =>
      let* b := cell_get cells i in
      let* w := release_chain (S (size (w_buckets w))) held w b in
      release_chains n' held cells (i + 1) w
  end.

Definition table_free (held : bucket -> list Z) (w : world) (d : hashset_t) : outcome world :=
  if hs_buckets d =? NULL then Ok w else
  let* w := release_chains (Z.to_nat (hs_capacity d)) held (hs_cells d) 0 w in
  kfree w (hs_buckets d).

(** A dictionary holds keys and objects, one of pointers only the keys, and a set
    its objects, which the model has in the place of the keys. *)
Definition IODictionary_free : world -> hashset_t -> outcome world := table_free (fun bk => [b_key bk; b_data bk]).
Definition __IOPointerDictionary_free : world -> hashset_t -> outcome world := table_free (fun bk => [b_key bk]).
Definition IOSet_free : world -> hashset_t -> outcome world := table_free (fun bk => [b_key bk]).

Definition pool_at (w : world) (p : Z) : outcome pool_fields :=
  let* o := object_at w p in
  match ob_fields o with OfPool po => Ok po | _ => Fault end.

Definition set_topPool (w : world) (thread pool : Z) : outcome world :=
  let* o := object_at w thread in
  match ob_fields o with
  | OfThread t => Ok (set_object w thread (Object (ob_symbol o) (ob_retain o) (OfThread (ThreadFields (th_properties t) pool (th_name t)))))
  | _ => Fault
  end.

Definition topPool (w : world) (thread : Z) : outcome Z :=
  let* o := object_at w thread in
  match ob_fields o with OfThread t => Ok (th_topPool t) | _ => Fault end.

(** [while(_count)]: the last pool stays in place while it is emptied, and catches
    what is added to it meanwhile. *)
Fixpoint pool_drain (fuel : nat) (w : world) (p : Z) : outcome world :=
  let* po := pool_at w p in
  if po_count po =? 0 then Ok w else
  match fuel with
  | O => Hang
  | S f =>
      let* (objects, w) := kalloc w (pointers 5) in
      let* w := set_fields w p (OfPool (PoolFields (po_owner po) (po_previous po) objects (if objects =? NULL then [] else cleared 5) 0 5)) in
      let* w := release_cells (Z.to_nat (po_count po)) (po_cells po) 0 w in
      let* w := kfree w (po_objects po) in
      pool_drain f w p
  end.

Definition IOAutoreleasePool_free (fuel : nat) (w : world) (p : Z) : outcome world :=
  let* po := pool_at w p in
  let* top := if po_owner po =? NULL then Ok p else topPool w (po_owner po) in
  if negb (p =? top) then Panic else
  if negb (po_previous po =? NULL) then
    let* w := set_topPool w (po_owner po) (po_previous po) in
    let* w := release_cells (Z.to_nat (po_count po)) (po_cells po) 0 w in
    kfree w (po_objects po)
  else
    let* w := pool_drain fuel w p in
    let* po := pool_at w p in
    let* w := kfree w (po_objects po) in
    set_topPool w (po_owner po) (po_previous po).

(** The virtual [free]. *)
Definition free_object (fuel : nat) (w : world) (p : Z) (fs : fields) : outcome world :=
  match fs with
  | NoFields | DateFields _ => Ok w
  | StringFields string _ => if string =? NULL then Ok w else kfree w string
  | NumberFields _ buffer _ => if buffer =? NULL then Ok w else kfree w buffer
  | DataFields buffer _ _ => if buffer =? NULL then Ok w else kfree w buffer
  | OfArray a => IOArray_free w a
  | OfDictionary d => IODictionary_free w d
  | OfPointerDictionary d => __IOPointerDictionary_free w d
  | OfSet d => IOSet_free w d
  | OfPool _ => IOAutoreleasePool_free fuel w p
  | OfThread t => release_each [th_properties t; th_topPool t; th_name t] w
  | EntryFields _ attributes => release_each [attributes] w
  end.
End Free.

(** The freeing of one object runs inside the freeing of another: the nesting is
    bounded by the number of objects. *)
Fixpoint release_at (fuel : nat) (w : world) (p : Z) : outcome world :=
  if p =? NULL then Ok w else
  match fuel with
  | O => Hang
  | S f =>
      let* o := object_at w p in
      let n := u32 (ob_retain o - 1) in
      let w := set_retain w p o n in
      if n =? 0 then
        let* w := free_object (release_at f) f w p (ob_fields o) in
        let* w := kfree w p in
        Ok (with_objects w (delete p (w_objects w)))
      else Ok w
  end.

Definition release (w : world) (p : Z) : outcome world := release_at (S (S (size (w_objects w)))) w p.

(** ** Classes *)

(** [alloc] of a class: [new] and [prepareWithSymbol]; the memory is cleared. *)
Definition alloc (w : world) (size symbol : Z) (fs : fields) : outcome (Z * world) :=
  let* (p, w) := kalloc w size in
  if p =? NULL then Fault else Ok (p, set_object w p (Object symbol 1 fs)).

Fixpoint inherits_walk (fuel : nat) (w : world) (symbol other : Z) : outcome bool :=
  if symbol =? other then Ok true else
  let* super := of_option (w_super w !! symbol) in
  if super =? NULL then Ok false else
  match fuel with O => Hang | S f => inherits_walk f w super other end.

Definition inheritsFrom (w : world) (symbol other : Z) : outcome bool := inherits_walk (S (size (w_super w))) w symbol other.

Definition isSubclassOf (w : world) (p symbol : Z) : outcome bool :=
  let* o := object_at w p in
  if ob_symbol o =? symbol then Ok true
  else if ob_symbol o =? NULL then Ok false
  else inheritsFrom w (ob_symbol o) symbol.

Definition isKindOf (w : world) (p other : Z) : outcome bool :=
  let* o := object_at w p in
  let* other := object_at w other in
  if ob_symbol o =? NULL then Fault else inheritsFrom w (ob_symbol o) (ob_symbol other).

(** ** Numbers *)

Definition number_size (t : number_type) : Z :=
  match t with
  | kIONumberTypeInt8 | kIONumberTypeUInt8 => 1 | kIONumberTypeInt16 | kIONumberTypeUInt16 => 2
  | kIONumberTypeInt32 | kIONumberTypeUInt32 => 4 | kIONumberTypeInt64 | kIONumberTypeUInt64 => 8
  end.

Definition unsigned_bits (n v : Z) : Z := v mod 2 ^ n.
Definition signed_bits (n v : Z) : Z := (v + 2 ^ (n - 1)) mod 2 ^ n - 2 ^ (n - 1).

(** The types in the order of the enumeration, and the conversion to one. *)
Definition number_signed (t : number_type) : bool :=
  match t with kIONumberTypeInt8 | kIONumberTypeInt16 | kIONumberTypeInt32 | kIONumberTypeInt64 => true | _ => false end.
Definition convert (t : number_type) (v : Z) : Z :=
  (if number_signed t then signed_bits else unsigned_bits) (8 * number_size t) v.

(** [IONumberAccessAndConvert]: the buffer is read as the signed type of its size. *)
Definition number_access (to from : number_type) (bits : Z) : Z := convert to (signed_bits (8 * number_size from) bits).

(** [initWithInt8] and the others: [val] has the type [t]. *)
Definition IONumber_initWithBuffer (w : world) (p : Z) (t : number_type) (val : Z) : outcome (Z * world) :=
  let* (buffer, w) := kalloc w (number_size t) in
  if buffer =? NULL then let* w := release w p in Ok (NULL, w)
  else let* w := set_fields w p (NumberFields t buffer (unsigned_bits (8 * number_size t) val)) in Ok (p, w).

(** The accessors: [int8Value] is [IONumber_value kIONumberTypeInt8], and so on. *)
Definition IONumber_value (to : number_type) (w : world) (p : Z) : outcome Z :=
  let* o := object_at w p in
  match ob_fields o with NumberFields from _ bits => Ok (number_access to from bits) | _ => Fault end.

(** ** Strings *)

Definition hash_round (result byte : Z) : Z := u32 (u32 (result * 257) + byte).

Definition string_hash (text : list Z) : Z :=
  let length := Z.of_nat (length text) in
  let result := u32 length in
  let result :=
    if length <=? 16 then fold_left hash_round text result
    else fold_left hash_round (drop (Z.to_nat (length - 8)) text) (fold_left hash_round (take 8 text) result) in
  u32 (Z.shiftl result (Z.land length 31)).

Definition IOString_init (w : world) (p : Z) : outcome world := set_fields w p (StringFields NULL []).

(** A copy of the characters [text] of a C string. *)
Definition IOString_initWithCString (w : world) (p : Z) (text : list Z) : outcome (Z * world) :=
  let* w := IOString_init w p in
  let* (string, w) := kalloc w (u32 (Z.of_nat (length text) + 1)) in
  if string =? NULL then let* w := release w p in Ok (NULL, w)
  else let* w := set_fields w p (StringFields string text) in Ok (p, w).

Definition string_text (w : world) (p : Z) : outcome (list Z) :=
  let* o := object_at w p in match ob_fields o with StringFields _ text => Ok text | _ => Fault end.

Definition IOString_initWithString (w : world) (p other : Z) : outcome (Z * world) :=
  let* text := string_text w other in IOString_initWithCString w p text.

Definition IOString_length (w : world) (p : Z) : outcome Z :=
  let* text := string_text w p in Ok (Z.of_nat (length text)).

(** ** Equality and hashes, by class *)

Definition number_equal (t1 t2 : number_type) (bits1 bits2 : Z) : bool :=
  bool_decide (t1 = t2) && (bits1 =? bits2).

Definition IOString_isEqual (w : world) (p : Z) (text : list Z) (symbol other : Z) : outcome bool :=
  if p =? other then Ok true else
  let* same := isSubclassOf w other symbol in
  if same then let* text' := string_text w other in Ok (bool_decide (text = text')) else Ok false.

Definition IONumber_isEqual (w : world) (p : Z) (t : number_type) (bits symbol other : Z) : outcome bool :=
  if p =? other then Ok true else
  let* same := isSubclassOf w other symbol in
  if same then
    let* o := object_at w other in
    match ob_fields o with NumberFields t' _ bits' => Ok (number_equal t t' bits bits') | _ => Fault end
  else Ok false.

(** The virtual [isEqual] and [hash].  [IODate::isEqual] has another signature and
    does not override the one of all objects. *)
Definition isEqual (w : world) (p other : Z) : outcome bool :=
  let* o := object_at w p in
  match ob_fields o with
  | StringFields _ text => IOString_isEqual w p text (ob_symbol o) other
  | NumberFields t _ bits => IONumber_isEqual w p t bits (ob_symbol o) other
  | _ => Ok (p =? other)
  end.

Definition hash (w : world) (p : Z) : outcome Z :=
  let* o := object_at w p in
  match ob_fields o with
  | StringFields _ text => Ok (string_hash text)
  | NumberFields t _ bits => Ok (number_access kIONumberTypeUInt32 t bits)
  | DateFields delta => Ok (u32 delta)
  | _ => Ok p
  end.

(** ** Dates *)

Definition date_delta (w : world) (p : Z) : outcome Z :=
  let* o := object_at w p in match ob_fields o with DateFields delta => Ok delta | _ => Fault end.

Definition IODate_initWithTimestamp (w : world) (p time : Z) : outcome world := set_fields w p (DateFields time).
Definition IODate_initWithTimestampSinceNow (now : Z) (w : world) (p time : Z) : outcome world := set_fields w p (DateFields (u64 (now + time))).

Definition IODate_isEqual (w : world) (p other : Z) : outcome bool :=
  if p =? other then Ok true else
  let* o := object_at w p in
  let* same := isSubclassOf w other (ob_symbol o) in
  if same then Ok false else
  let* d1 := date_delta w p in
  let* d2 := date_delta w other in
  Ok (d1 =? d2).

(** ** Data *)

Definition IOData_init (w : world) (p : Z) : outcome world := set_fields w p (DataFields NULL [] 0).

Definition IOData_initWithBytes (w : world) (p : Z) (bytes : list Z) : outcome (Z * world) :=
  let n := u32 (Z.of_nat (length bytes)) in
  let* (buffer, w) := kalloc w n in
  if buffer =? NULL then
    let* w := set_fields w p (DataFields NULL [] n) in
    let* w := release w p in Ok (NULL, w)
  else let* w := set_fields w p (DataFields buffer bytes n) in Ok (p, w).

(** The new block holds the old bytes, as many as [_length] says, and the new ones. *)
Definition IOData_appendBytes (w : world) (p : Z) (bytes : list Z) : outcome world :=
  let* o := object_at w p in
  match ob_fields o with
  | DataFields buffer old n =>
      let m := u32 (Z.of_nat (length bytes)) in
      let* (nbuffer, w) := kalloc w (u32 (n + m)) in
      if nbuffer =? NULL then Ok w else
      if (length old <? Z.to_nat n)%nat then Fault else
      let* w := kfree w buffer in
      set_fields w p (DataFields nbuffer (take (Z.to_nat n) old ++ bytes) m)
  | _ => Fault
  end.
End Objects.
Arguments world : clear implicits.
