(* ===== verification/IoArray.v ===== *)
(** * Arrays of objects (libkernel/libio/IOArray.cpp)

    An array retains what is put in and releases what is taken out.  The code is
    translated first; then an array is related to the list of its objects and to
    the reference counts of all objects.  Adding and inserting are those of
    lists.  Removing is not: the loop that should close the gap copies the same
    cell again and again, so only what followed the removed object moves. *)

From S2P Require Import Prelude Pages HeapSpec CellHeap Block Array HashSet IoObject.

Definition sizeof_IOArray : Z := 32.

Section Arrays.
Context {H : Type} `{KernelHeap H}.
Implicit Types w : world H.

Definition array_at w (p : Z) : outcome array_fields :=
  let* o := object_at w p in match ob_fields o with OfArray a => Ok a | _ => Fault end.

Definition set_array w (p : Z) (a : array_fields) : outcome (world H) := set_fields w p (OfArray a).

Definition IOArray_init w (p : Z) : outcome (Z * world H) :=
  let* w := set_array w p (ArrayFields NULL [] 0 5 5) in
  let* (objects, w) := kalloc w (pointers 5) in
  if objects =? NULL then let* w := release w p in Ok (NULL, w)
  else let* w := set_array w p (ArrayFields objects (cleared 5) 0 5 5) in Ok (p, w).

(** Here a failed allocation leaves the array as it is. *)
Definition IOArray_initWithCapacity w (p capacity : Z) : outcome (Z * world H) :=
  let* (objects, w) := kalloc w (pointers capacity) in
  let* w := set_array w p (ArrayFields objects (if objects =? NULL then [] else cleared capacity) 0 capacity 5) in
  Ok (if objects =? NULL then NULL else p, w).

Definition IOArray_resize w (p : Z) (a : array_fields) (size : Z) : outcome (array_fields * world H) :=
  let* (temp, w) := kalloc w (pointers size) in
  if temp =? NULL then Panic else
  let* cells := cell_copy (ar_cells a) (cleared size) (ar_count a) in
  let* w := kfree w (ar_objects a) in
  let a := ArrayFields temp cells (ar_count a) size (ar_changeSize a) in
  let* w := set_array w p a in Ok (a, w).

(** [if(_count >= _capacity) resize((_capacity + _changeSize));] *)
Definition make_room w (p : Z) : outcome (array_fields * world H) :=
  let* a := array_at w p in
  if ar_capacity a <=? ar_count a then IOArray_resize w p a (u32 (ar_capacity a + ar_changeSize a)) else Ok (a, w).

Definition IOArray_addObject w (p object : Z) : outcome (world H) :=
  let* (a, w) := make_room w p in
  let* w := retain w object in
  let* cells := cell_set (ar_cells a) (ar_count a) object in
  set_array w p (ArrayFields (ar_objects a) cells (u32 (ar_count a + 1)) (ar_capacity a) (ar_changeSize a)).

(** The loop that moves the objects up is the one of the kernel's arrays. *)
Definition IOArray_insertObject w (p object index : Z) : outcome (world H) :=
  let* (a, w) := make_room w p in
  let* cells := shift_up (Z.to_nat (ar_count a - index)) (ar_cells a) index in
  let* w := retain w object in
  let* cells := cell_set cells index object in
  set_array w p (ArrayFields (ar_objects a) cells (u32 (ar_count a + 1)) (ar_capacity a) (ar_changeSize a)).

(** [for(uint32_t i=index; i<_count; i++) _objects[index] = _objects[index + 1];] *)
Fixpoint close_gap (n : nat) (cells : block) (index : Z) : outcome block :=
  match n with
  | O => Ok cells
  | S n' =>
      let* x := cell_get cells (index + 1) in
      let* cells := cell_set cells index x in
      close_gap n' cells index
  end.

(** The new block is not tested for null before it is written to. *)
Definition IOArray_shrink w (p : Z) (a : array_fields) : outcome (world H) :=
  if ar_count a <? u32 (ar_capacity a - u32 (ar_changeSize a * 2)) then
    let capacity := u32 (ar_count a + ar_changeSize a) in
    let* (temp, w) := kalloc w (pointers capacity) in
    let* cells := cell_copy (ar_cells a) (if temp =? NULL then [] else cleared capacity) (ar_count a) in
    let* w := kfree w (ar_objects a) in
    set_array w p (ArrayFields temp cells (ar_count a) capacity (ar_changeSize a))
  else set_array w p a.

Definition IOArray_removeAtIndex w (p index : Z) : outcome (world H) :=
  let* a := array_at w p in
  if (index =? IONotFound) || (ar_count a <=? index) then Ok w else
  let* object := cell_get (ar_cells a) index in
  let* w := release w object in
  let* a := array_at w p in
  let count := u32 (ar_count a - 1) in
  let* cells := close_gap (Z.to_nat (count - index)) (ar_cells a) index in
  IOArray_shrink w p (ArrayFields (ar_objects a) cells count (ar_capacity a) (ar_changeSize a)).

Definition IOArray_removeAllObjects w (p : Z) : outcome (world H) :=
  let* a := array_at w p in
  let* w := release_cells release (Z.to_nat (ar_count a)) (ar_cells a) 0 w in
  let* a := array_at w p in
  let capacity := ar_changeSize a in
  let* (temp, w) := kalloc w (pointers capacity) in
  if temp =? NULL then set_array w p (ArrayFields (ar_objects a) (ar_cells a) 0 capacity (ar_changeSize a))
  else
    let* w := kfree w (ar_objects a) in
    set_array w p (ArrayFields temp (cleared capacity) 0 capacity (ar_changeSize a)).

Fixpoint index_from (n : nat) w (cells : block) (i object : Z) : outcome (option Z) :=
  match n with
  | O => Ok None
  | S n' =>
      let* tobject := cell_get cells i in
      let* same := isEqual w tobject object in
      if same then Ok (Some i) else index_from n' w cells (i + 1) object
  end.

Definition IOArray_indexOfObject w (p object : Z) : outcome Z :=
  let* a := array_at w p in
  let* found := index_from (Z.to_nat (ar_count a)) w (ar_cells a) 0 object in
  Ok (default IONotFound found).

Definition IOArray_containsObject w (p object : Z) : outcome bool :=
  let* a := array_at w p in
  let* found := index_from (Z.to_nat (ar_count a)) w (ar_cells a) 0 object in
  Ok (bool_decide (is_Some found)).

Definition IOArray_removeObject w (p object : Z) : outcome (world H) :=
  let* index := IOArray_indexOfObject w p object in
  IOArray_removeAtIndex w p index.

Definition IOArray_objectAtIndex w (p index : Z) : outcome Z :=
  let* a := array_at w p in
  if negb (index =? IONotFound) && (index <? ar_count a) then cell_get (ar_cells a) index else Ok NULL.

Definition IOArray_setChangeSize w (p tchangeSize : Z) : outcome (world H) :=
  let* a := array_at w p in
  if negb (tchangeSize =? ar_changeSize a) && (1 <=? tchangeSize)
  then set_array w p (ArrayFields (ar_objects a) (ar_cells a) (ar_count a) (ar_capacity a) tchangeSize)
  else Ok w.

Definition IOArray_count w (p : Z) : outcome Z := let* a := array_at w p in Ok (ar_count a).
Definition IOArray_capacity w (p : Z) : outcome Z := let* a := array_at w p in Ok (ar_capacity a).
End Arrays.

(** ** Lists and reference counts *)

(** An array's steps, what they make of the list of its objects, and what they add
    to the reference counts. *)
Inductive array_op := Add (object : Z) | Insert (object index : Z) | RemoveAt (index : Z).

(** What is left of a list after the object at [i] is removed: the last cell is cut
    off, and the object behind the removed one is in its place. *)
Definition removed (xs : list Z) (i : nat) : list Z :=
  take (length xs - 1) (match xs !! S i with Some y => <[i := y]> xs | None => xs end).

Definition op_list (xs : list Z) (op : array_op) : list Z :=
  match op with
  | Add o => xs ++ [o]
  | Insert o i => take (Z.to_nat i) xs ++ o :: drop (Z.to_nat i) xs
  | RemoveAt i => removed xs (Z.to_nat i)
  end.

Definition op_count (xs : list Z) (op : array_op) (q : Z) : Z :=
  match op with
  | Add o | Insert o _ => if q =? o then 1 else 0
  | RemoveAt i => if bool_decide (xs !! Z.to_nat i = Some q) then -1 else 0
  end.

Section Refinement.
Context {H : Type} `{KernelHeapOk H}.
Implicit Types w : world H.

Definition run_op w (p : Z) (op : array_op) : outcome (world H) :=
  match op with
  | Add o => IOArray_addObject w p o
  | Insert o i => IOArray_insertObject w p o i
  | RemoveAt i => IOArray_removeAtIndex w p i
  end.

(** The object at [q] with its reference count changed by [n]. *)
Definition counted (n : Z) (o : object) : object := Object (ob_symbol o) (ob_retain o + n) (ob_fields o).

(** Every object but [p] is as before, up to its reference count. *)
Definition recounted w w' (p : Z) (f : Z -> Z) : Prop :=
  forall q, q <> p -> w_objects w' !! q = (fun o => counted (f q) o) <$> w_objects w !! q.

Record array_rep w (p : Z) (xs : list Z) (a : array_fields) : Prop := {
  ap_heap : heap_ok (w_heap w);
  ap_object : exists s n, w_objects w !! p = Some (Object s n (OfArray a));
  ap_holds : holds (ar_cells a) xs;
  ap_count : ar_count a = Z.of_nat (length xs);
  ap_capacity : ar_capacity a = Z.of_nat (length (ar_cells a));
  ap_change : 1 <= ar_changeSize a <= 2 ^ 26;
  ap_live : exists n, live (w_heap w) (ar_objects a) n
}.

(** An object with [n] references or more; with two, releasing it does not free
    it. *)
Definition held (n : Z) w (q : Z) : Prop := q <> NULL /\ exists o, w_objects w !! q = Some o /\ n <= ob_retain o < 2 ^ 32 - 1.

(** What is added is alive; what is removed is held by someone else too. *)
Definition op_ok w (p : Z) (xs : list Z) (op : array_op) : Prop :=
  match op with
  | Add o => o <> p /\ held 1 w o
  | Insert o i => o <> p /\ held 1 w o /\ 0 <= i <= Z.of_nat (length xs)
  | RemoveAt i => exists o, xs !! Z.to_nat i = Some o /\ 0 <= i /\ o <> p /\ held 2 w o
  end.

(** The number of pointers a step may ask the heap for. *)
Definition op_request (a : array_fields) (op : array_op) : Z :=
  match op with Add _ | Insert _ _ => ar_capacity a + ar_changeSize a | RemoveAt _ => ar_count a - 1 + ar_changeSize a end.

(** The step asked for another block and the heap did not have it.  Adding and
    inserting to a full array panic.  Removing panics with the heap; a null pointer
    is written to, unless there is nothing left to copy: then the array has no
    block. *)
Definition starved w (p : Z) (a : array_fields) (op : array_op) : Prop :=
  let request := halloc (w_heap w) (4 * op_request a op) in
  match op with
  | Add _ | Insert _ _ => ar_capacity a <= ar_count a /\ exhausted (w_heap w) (4 * op_request a op) /\ run_op w p op = Panic
  | RemoveAt _ =>
      ar_count a - 1 < u32 (ar_capacity a - u32 (ar_changeSize a * 2)) /\
      ((request = Panic /\ run_op w p op = Panic) \/
       (exists h', request = Ok (NULL, h')) /\
         if ar_count a =? 1
         then exists w', run_op w p op = Ok w' /\ array_at w' p = Ok (ArrayFields NULL [] 0 (ar_changeSize a) (ar_changeSize a))
         else run_op w p op = Fault)
  end.

Lemma set_fields_at w p s n fs fs' : w_objects w !! p = Some (Object s n fs) -> set_fields w p fs' = Ok (set_object w p (Object s n fs')).
Proof. intros E. unfold set_fields, object_at. by rewrite E. Qed.

Lemma array_at_rep w p xs a : array_rep w p xs a -> array_at w p = Ok a.
Proof. intros Hr. destruct (ap_object _ _ _ _ Hr) as (s & n & E). unfold array_at, object_at. by rewrite E. Qed.

Lemma retain_held w q : held 1 w q -> exists o, w_objects w !! q = Some o /\ retain w q = Ok (set_object w q (counted 1 o)).
Proof.
  intros (Hq & o & E & Hn). exists o. split; [done|]. unfold retain, object_at. rewrite (proj2 (Z.eqb_neq _ _)) by done.
  rewrite E. cbn [obind of_option]. unfold set_retain. rewrite u32_small by lia. done.
Qed.

Lemma release_shared w q : held 2 w q -> exists o, w_objects w !! q = Some o /\ release w q = Ok (set_object w q (counted (-1) o)).
Proof.
  intros (Hq & o & E & Hn). exists o. split; [done|]. unfold release, object_at. cbn [release_at].
  rewrite (proj2 (Z.eqb_neq _ _)) by done. unfold object_at. rewrite E. cbn [obind of_option]. rewrite u32_small by lia.
  rewrite (proj2 (Z.eqb_neq (ob_retain o - 1) _)) by lia. done.
Qed.

Lemma cleared_length n : 0 <= n <= 2 ^ 28 -> pointers n = 4 * n /\ length (cleared n) = Z.to_nat n.
Proof.
  intros Hn. unfold cleared, pointers. rewrite u32_small by lia. split; [lia|]. rewrite length_replicate. f_equal.
  rewrite Z.div_mul by lia. done.
Qed.

Lemma kalloc_exhausted w n : 0 <= n <= 2 ^ 28 -> exhausted (w_heap w) (4 * n) ->
  (halloc (w_heap w) (4 * n) = Panic /\ kalloc w (pointers n) = Panic) \/
  exists h', halloc (w_heap w) (4 * n) = Ok (NULL, h') /\ kalloc w (pointers n) = Ok (NULL, with_heap w h').
Proof.
  intros Hn Hex. unfold kalloc. destruct (cleared_length n Hn) as [-> _]. destruct Hex as [E|[h' E]]; rewrite E; [by left|right].
  by exists h'.
Qed.

(** A block for [n] pointers in place of the array's: the old one is freed. *)
Lemma new_block w p xs a n : array_rep w p xs a -> Z.of_nat (length xs) <= n <= 2 ^ 27 + 2 ^ 26 ->
  exhausted (w_heap w) (4 * n) \/ exists temp w1 h2 cells, kalloc w (pointers n) = Ok (temp, w1) /\ temp <> NULL /\
    w_objects w1 = w_objects w /\ cell_copy (ar_cells a) (cleared n) (ar_count a) = Ok cells /\ holds cells xs /\
    length cells = Z.to_nat n /\ hfree (w_heap w1) (ar_objects a) = Ok h2 /\ heap_ok h2 /\ exists m, live h2 temp m.
Proof.
  intros Hr Hn. destruct (cleared_length n) as [Hp Hl]; [lia|]. unfold kalloc. rewrite Hp.
  destruct (halloc_result (w_heap w) (4 * n) (ap_heap _ _ _ _ Hr)) as [E|[(h1 & E & _)|(t & k & h1 & E & Ht & _ & _ & _ & Hh1 & Hnew & Hlive)]];
    [unfold max_request; lia|left; by left|left; right; by exists h1|].
  right. destruct (ap_live _ _ _ _ Hr) as [m Hm].
  destruct (hfree_ok h1 (ar_objects a) m Hh1) as (h2 & E2 & Hh2 & Hl2); [apply Hlive; by left|].
  destruct (holds_copy (ar_cells a) xs (ar_count a) (cleared n)) as (cells & Ec & Hc & Hlc); [apply Hr|apply Hr|lia|].
  exists t, (with_heap w h1), h2, cells. rewrite E. split_and!; try done; [lia|].
  exists k. apply Hl2. split; [apply Hlive; by right|]. intros ->. by apply (Hnew m).
Qed.

(** Nothing but [p] changes. *)
Lemma recounted_same w w' p : (forall q, q <> p -> w_objects w' !! q = w_objects w !! q) -> recounted w w' p (fun _ => 0).
Proof.
  intros Hs q Hq. rewrite Hs by done. destruct (w_objects w !! q) as [[? ? ?]|]; cbn; [|done]. unfold counted. cbn. by rewrite Z.add_0_r.
Qed.

Lemma recounted_trans w1 w2 w3 p f g : recounted w1 w2 p f -> recounted w2 w3 p g -> recounted w1 w3 p (fun q => f q + g q).
Proof.
  intros Hf Hg q Hq. rewrite Hg, Hf by done. destruct (w_objects w1 !! q) as [[? ? ?]|]; cbn; [|done]. unfold counted. cbn. by rewrite Z.add_assoc.
Qed.

Lemma recounted_one w p q o n : q <> p -> w_objects w !! q = Some o -> recounted w (set_object w q (counted n o)) p (fun x => if x =? q then n else 0).
Proof.
  intros Hqp E x Hx. cbn. destruct (Z.eqb_spec x q) as [->|Hne]; [by rewrite lookup_insert_eq, E|].
  rewrite lookup_insert_ne by done. destruct (w_objects w !! x) as [[? ? ?]|]; cbn; [|done]. unfold counted. cbn. by rewrite Z.add_0_r.
Qed.

Lemma recounted_ext w w' p f g : (forall q, f q = g q) -> recounted w w' p f -> recounted w w' p g.
Proof. intros E Hr q Hq. rewrite Hr by done. by rewrite E. Qed.

(** The array keeps its list when another object is counted, or when its own cells
    are set. *)
Lemma rep_other w p xs a q o : q <> p -> array_rep w p xs a -> array_rep (set_object w q o) p xs a.
Proof.
  intros Hq [? (s & n & E) ? ? ? ? ?]. split; try done. exists s, n. cbn. by rewrite lookup_insert_ne.
Qed.

Lemma rep_set w p xs a xs' a' h : array_rep w p xs a -> heap_ok h -> (exists n, live h (ar_objects a') n) -> holds (ar_cells a') xs' ->
  ar_count a' = Z.of_nat (length xs') -> ar_capacity a' = Z.of_nat (length (ar_cells a')) -> ar_changeSize a' = ar_changeSize a ->
  exists w', set_array (with_heap w h) p a' = Ok w' /\ array_rep w' p xs' a' /\ recounted w w' p (fun _ => 0).
Proof.
  intros [? (s & n & E) ? ? ? ? ?] Hh Hlv Hho Hc Hcap Hch. unfold set_array. rewrite (set_fields_at (with_heap w h) p s n (OfArray a) (OfArray a') E).
  eexists. split; [done|]. split.
  - split; try done; [|by rewrite Hch]. exists s, n. cbn. by rewrite lookup_insert_eq.
  - apply recounted_same. intros q Hq. cbn. by rewrite lookup_insert_ne.
Qed.

Lemma rep_set_here w p xs a xs' a' : array_rep w p xs a -> ar_objects a' = ar_objects a -> holds (ar_cells a') xs' ->
  ar_count a' = Z.of_nat (length xs') -> ar_capacity a' = Z.of_nat (length (ar_cells a')) -> ar_changeSize a' = ar_changeSize a ->
  exists w', set_array w p a' = Ok w' /\ array_rep w' p xs' a' /\ recounted w w' p (fun _ => 0).
Proof.
  intros Hr Ho Hh Hc Hcap Hch. replace w with (with_heap w (w_heap w)) at 1 by (by destruct w).
  apply (rep_set w p xs a); try done; [apply Hr|]. rewrite Ho. apply Hr.
Qed.

Lemma resized w p xs a n : array_rep w p xs a -> Z.of_nat (length xs) <= n <= 2 ^ 27 + 2 ^ 26 ->
  exhausted (w_heap w) (4 * n) /\ IOArray_resize w p a n = Panic \/ exists a' w', IOArray_resize w p a n = Ok (a', w') /\ array_rep w' p xs a' /\ length (ar_cells a') = Z.to_nat n
    /\ recounted w w' p (fun _ => 0).
Proof.
  intros Hr Hn. unfold IOArray_resize.
  destruct (new_block _ _ _ _ n Hr Hn) as [Hex|(temp & w1 & h2 & cells & -> & Ht & Ho & -> & Hc & Hl & Ef & Hh & Hlv)]; [left|right].
  { split; [done|]. by destruct (kalloc_exhausted w n ltac:(lia) Hex) as [[_ ->]|(h' & _ & ->)]. }
  cbn [obind]. rewrite (proj2 (Z.eqb_neq _ _)) by done. unfold kfree. rewrite Ef. cbn [obind].
  set (a' := ArrayFields temp cells (ar_count a) n (ar_changeSize a)).
  destruct (ap_object _ _ _ _ Hr) as (s & k & E). unfold set_array.
  rewrite (set_fields_at _ p s k (OfArray a)) by (cbn; by rewrite Ho). cbn [obind].
  eexists a', _. split; [done|]. split_and!; [|done|].
  - split; cbn; try done; try apply Hr; [|lia]. exists s, k. by rewrite lookup_insert_eq.
  - apply recounted_same. intros q Hq. cbn. by rewrite lookup_insert_ne, Ho.
Qed.

Lemma room_made w p xs a : array_rep w p xs a -> ar_capacity a <= 2 ^ 27 ->
  (ar_capacity a <= ar_count a /\ exhausted (w_heap w) (4 * (ar_capacity a + ar_changeSize a)) /\ make_room w p = Panic) \/
  exists a' w', make_room w p = Ok (a', w') /\ array_rep w' p xs a' /\ (length xs < length (ar_cells a'))%nat
    /\ recounted w w' p (fun _ => 0).
Proof.
  intros Hr Hs. unfold make_room. rewrite (array_at_rep _ _ _ _ Hr). cbn [obind].
  pose proof (ap_count _ _ _ _ Hr) as Hc. pose proof (ap_capacity _ _ _ _ Hr) as Hcap.
  pose proof (holds_length _ _ (ap_holds _ _ _ _ Hr)) as Hl. pose proof (ap_change _ _ _ _ Hr).
  destruct (Z.leb_spec (ar_capacity a) (ar_count a)).
  - rewrite u32_small by lia.
    destruct (resized w p xs a (ar_capacity a + ar_changeSize a) Hr) as [[? ?]|(a' & w' & E & Hr' & Hl' & Hrc)]; [lia|by left|right].
    exists a', w'. split_and!; try done. lia.
  - right. exists a, w. split_and!; try done; [lia|]. by apply recounted_same.
Qed.

(** *** Cells *)

Lemma inserted cells xs i x : holds cells xs -> (length xs < length cells)%nat -> (i <= length xs)%nat ->
  exists cells1 cells2, shift_up (length xs - i) cells (Z.of_nat i) = Ok cells1 /\ cell_set cells1 (Z.of_nat i) x = Ok cells2 /\
    holds cells2 (take i xs ++ x :: drop i xs) /\ length cells2 = length cells.
Proof.
  intros [rest ->] Hl Hi. rewrite length_app, length_fmap in Hl. destruct rest as [|r rest]; [cbn in Hl; lia|].
  destruct (shift_up_spec (Some <$> take i xs) (drop i xs) r rest) as [z Hz].
  rewrite length_drop, length_fmap, length_take, Nat.min_l in Hz by lia.
  rewrite app_assoc, <- fmap_app, take_drop in Hz. rewrite Hz. eexists _, _. split; [done|].
  rewrite cell_set_mid by (rewrite length_fmap, length_take; lia). split; [done|]. split.
  - exists rest. rewrite fmap_app, <- app_assoc. done.
  - rewrite !length_app. cbn. rewrite !length_app, !length_fmap, length_take, length_drop. cbn. lia.
Qed.

Lemma close_gap_same n : forall cells i y, cell_get cells (i + 1) = Ok y -> cell_set cells i y = Ok cells -> close_gap n cells i = Ok cells.
Proof. induction n as [|n IH]; intros cells i y Hg Hs; cbn [close_gap]; [done|]. rewrite Hg. cbn [obind]. rewrite Hs. cbn [obind]. by eapply IH. Qed.

Lemma gap_closed cells xs i : holds cells xs -> (i < length xs)%nat ->
  exists cells', close_gap (length xs - 1 - i) cells (Z.of_nat i) = Ok cells' /\ holds cells' (removed xs i) /\ length cells' = length cells.
Proof.
  intros Hh Hi. unfold removed. destruct (xs !! S i) as [y|] eqn:Ey.
  - pose proof (lookup_lt_Some _ _ _ Ey). destruct (length xs - 1 - i)%nat as [|n] eqn:En; [lia|]. cbn [close_gap].
    replace (Z.of_nat i + 1) with (Z.of_nat (S i)) by lia. rewrite (holds_get _ _ _ _ Hh Ey). cbn [obind].
    destruct (holds_set cells xs i y Hh Hi) as (c' & Es & Hh' & Hl). rewrite Es. cbn [obind].
    exists c'. split_and!; [|by apply holds_prefix|done]. eapply close_gap_same.
    + replace (Z.of_nat i + 1) with (Z.of_nat (S i)) by lia. eapply holds_get; [exact Hh'|]. by rewrite list_lookup_insert_ne by lia.
    + pose proof (holds_length _ _ Hh). rewrite cell_set_in in Es by lia. injection Es as <-.
      rewrite cell_set_in by (rewrite length_insert; lia). by rewrite list_insert_insert_eq.
  - apply lookup_ge_None in Ey. replace (length xs - 1 - i)%nat with 0%nat by lia. exists cells.
    split_and!; [done|by apply holds_prefix|done].
Qed.

Lemma removed_length xs i : length (removed xs i) = (length xs - 1)%nat.
Proof. unfold removed. rewrite length_take. destruct (xs !! S i); [rewrite length_insert|]; lia. Qed.

(** *** The steps *)

Lemma shrink_starved w p xs a xs' a' : array_rep w p xs a -> ar_count a' = Z.of_nat (length xs') -> holds (ar_cells a') xs' ->
  ar_objects a' = ar_objects a -> ar_count a' < u32 (ar_capacity a' - u32 (ar_changeSize a' * 2)) -> 0 <= ar_count a' + ar_changeSize a' <= 2 ^ 28 ->
  exhausted (w_heap w) (4 * (ar_count a' + ar_changeSize a')) ->
  let request := halloc (w_heap w) (4 * (ar_count a' + ar_changeSize a')) in
  (request = Panic /\ IOArray_shrink w p a' = Panic) \/
  (exists h', request = Ok (NULL, h')) /\
    if ar_count a' =? 0
    then exists w', IOArray_shrink w p a' = Ok w' /\ array_at w' p = Ok (ArrayFields NULL [] 0 (ar_changeSize a') (ar_changeSize a'))
    else IOArray_shrink w p a' = Fault.
Proof.
  intros Hr Hc Hh Ho Hlt Hb Hex. unfold IOArray_shrink. rewrite (proj2 (Z.ltb_lt _ _)), (u32_small (ar_count a' + _)) by (done || lia).
  pose proof (kalloc_exhausted w _ Hb Hex) as Hka. destruct Hka as [[E ->]|(h' & E & ->)]; cbn [obind]; [by left|right]. split; [by exists h'|].
  change (NULL =? NULL) with true. cbv iota. unfold cell_copy. destruct (Z.eqb_spec (ar_count a') 0) as [Ez|Hnz].
  2: { rewrite (proj2 (Nat.leb_gt (Z.to_nat (ar_count a')) (@length (option Z) []))); [by destruct (_ <=? _)%nat|]. cbn. lia. }
  rewrite Ez. change (Z.to_nat 0) with 0%nat. cbn [Nat.leb andb take drop app obind]. unfold kfree. cbn [w_heap with_heap].
  destruct (ap_live _ _ _ _ Hr) as [m Hm]. destruct (ap_object _ _ _ _ Hr) as (s & n & Eo).
  destruct (halloc_ok (w_heap w) (4 * (ar_count a' + ar_changeSize a')) NULL h' (ap_heap _ _ _ _ Hr) ltac:(unfold max_request; lia) E) as [Hh' [[_ Hl]|[? _]]]; [|done].
  destruct (hfree_ok h' (ar_objects a) m Hh') as (h2 & E2 & _); [by apply Hl|]. rewrite Ho, E2. cbn [obind]. unfold set_array.
  rewrite (set_fields_at _ p s n (OfArray a)) by done. eexists. split; [done|]. unfold array_at, object_at. cbn. by rewrite lookup_insert_eq.
Qed.

Lemma shrunk w p xs a xs' a' : array_rep w p xs a -> ar_capacity a <= 2 ^ 27 -> ar_objects a' = ar_objects a -> holds (ar_cells a') xs' ->
  length (ar_cells a') = length (ar_cells a) -> ar_count a' = Z.of_nat (length xs') -> ar_capacity a' = ar_capacity a -> ar_changeSize a' = ar_changeSize a ->
  (ar_count a' < u32 (ar_capacity a' - u32 (ar_changeSize a' * 2)) /\
   let request := halloc (w_heap w) (4 * (ar_count a' + ar_changeSize a')) in
   ((request = Panic /\ IOArray_shrink w p a' = Panic) \/
    (exists h', request = Ok (NULL, h')) /\
      if ar_count a' =? 0
      then exists w', IOArray_shrink w p a' = Ok w' /\ array_at w' p = Ok (ArrayFields NULL [] 0 (ar_changeSize a') (ar_changeSize a'))
      else IOArray_shrink w p a' = Fault)) \/
  exists w' b, IOArray_shrink w p a' = Ok w' /\ array_rep w' p xs' b /\ recounted w w' p (fun _ => 0).
Proof.
  intros Hr Hs Ho Hh Hl Hc Hcap Hch.
  destruct (rep_set_here w p xs a xs' a' Hr Ho Hh Hc) as (w1 & E1 & Hr1 & Hrc1); [rewrite Hl, Hcap; apply Hr|done|].
  destruct (Z.ltb_spec (ar_count a') (u32 (ar_capacity a' - u32 (ar_changeSize a' * 2)))) as [Hlt|Hge].
  2: { right. exists w1, a'. unfold IOArray_shrink. by rewrite (proj2 (Z.ltb_ge _ _)). }
  pose proof (holds_length _ _ Hh). pose proof (ap_capacity _ _ _ _ Hr). pose proof (ap_change _ _ _ _ Hr) as Hb. rewrite <- Hch in Hb.
  assert (Hn : u32 (ar_count a' + ar_changeSize a') = Z.of_nat (length xs') + ar_changeSize a') by (rewrite u32_small; lia).
  set (n := Z.of_nat (length xs') + ar_changeSize a') in *.
  assert (Hr' : array_rep (set_object w p (match w_objects w !! p with Some o => Object (ob_symbol o) (ob_retain o) (OfArray a') | None => Object 0 0 NoFields end)) p xs' a').
  { destruct (ap_object _ _ _ _ Hr) as (s & k & E). rewrite E. cbn. destruct Hr as [? _ ? ? ? ? ?]. split; cbn; try done; try congruence;
      [exists s, k; by rewrite lookup_insert_eq|by rewrite Ho]. }
  destruct (new_block _ _ _ _ n Hr' ltac:(lia)) as [?|(temp & w2 & h2 & cells & E2 & Ht & Ho2 & Ec & Hhc & Hlc & Ef & Hh2 & Hlv)]; [left|right].
  { split; [done|]. apply (shrink_starved w p xs a xs'); try done; [lia|by rewrite Hc]. }
  unfold IOArray_shrink. rewrite (proj2 (Z.ltb_lt _ _)), Hn by done.
  unfold kalloc in *. cbn in E2. destruct (halloc (w_heap w) (pointers n)) as [[t h]| | |] eqn:Eh; try done. cbn [obind] in *.
  injection E2 as -> <-. rewrite (proj2 (Z.eqb_neq _ _)) by done. rewrite Ec. cbn [obind]. unfold kfree. cbn in Ef. cbn [with_heap w_heap]. rewrite Ef. cbn [obind].
  destruct (rep_set w p xs a xs' (ArrayFields temp cells (ar_count a') n (ar_changeSize a')) h2 Hr Hh2 Hlv Hhc Hc) as (w' & E' & Hr3 & Hrc); [cbn; lia|done|].
  change (with_heap (with_heap w h) h2) with (with_heap w h2). by exists w', (ArrayFields temp cells (ar_count a') n (ar_changeSize a')).
Qed.

Lemma held_recounted n w w' p q : recounted w w' p (fun _ => 0) -> q <> p -> held n w q -> held n w' q.
Proof.
  intros Hrc Hq (Hn & o & E & Hb). split; [done|]. rewrite Hrc, E by done. eexists. split; [done|]. cbn. lia.
Qed.

(** Storing the cells of a grown array, after its new object has been retained. *)
Lemma stored w w1 p a1 xs xs' cells o : array_rep w1 p xs a1 -> recounted w w1 p (fun _ => 0) -> o <> p -> held 1 w o ->
  holds cells xs' -> length cells = length (ar_cells a1) -> length xs' = S (length xs) -> Z.of_nat (length xs) < 2 ^ 31 ->
  exists w2 w3 b, retain w1 o = Ok w2 /\
    set_array w2 p (ArrayFields (ar_objects a1) cells (u32 (ar_count a1 + 1)) (ar_capacity a1) (ar_changeSize a1)) = Ok w3 /\
    array_rep w3 p xs' b /\ recounted w w3 p (fun q => if q =? o then 1 else 0).
Proof.
  intros Hr1 Hrc Hop Hsh Hh Hl Hx Hb. destruct (retain_held w1 o) as (ob & E & Er); [by eapply held_recounted|].
  pose proof (ap_count _ _ _ _ Hr1) as Hc.
  destruct (rep_set_here _ p xs a1 xs' (ArrayFields (ar_objects a1) cells (u32 (ar_count a1 + 1)) (ar_capacity a1) (ar_changeSize a1))
              (rep_other w1 p xs a1 o (counted 1 ob) Hop Hr1)) as (w3 & E3 & Hr3 & Hrc3); try done; cbn.
  - rewrite Hc, u32_small; lia.
  - rewrite Hl. apply Hr1.
  - eexists _, w3, _. split; [done|]. split_and!; [done|exact Hr3|].
    eapply recounted_ext; [|eapply recounted_trans; [exact Hrc|eapply recounted_trans; [by apply recounted_one|exact Hrc3]]].
    intros q. cbn. lia.
Qed.

Lemma add_refines w p xs a o : array_rep w p xs a -> ar_capacity a <= 2 ^ 27 -> o <> p -> held 1 w o ->
  starved w p a (Add o) \/ exists w' b, IOArray_addObject w p o = Ok w' /\ array_rep w' p (xs ++ [o]) b /\ recounted w w' p (fun q => if q =? o then 1 else 0).
Proof.
  intros Hr Hs Hop Hsh. unfold starved. cbn [run_op]. unfold IOArray_addObject. pose proof (holds_length _ _ (ap_holds _ _ _ _ Hr)). pose proof (ap_capacity _ _ _ _ Hr).
  destruct (room_made w p xs a Hr Hs) as [(? & ? & ->)|(a1 & w1 & -> & Hr1 & Hl1 & Hrc1)]; [by left|right]. cbn [obind].
  destruct (holds_snoc (ar_cells a1) xs o (ap_holds _ _ _ _ Hr1) Hl1) as (cells & Ec & Hh & Hl).
  destruct (stored w w1 p a1 xs (xs ++ [o]) cells o) as (w2 & w3 & b & -> & E3 & Hr3 & Hrc3); try done; [rewrite length_app; cbn; lia|lia|].
  cbn [obind]. rewrite (ap_count _ _ _ _ Hr1) in *. rewrite Ec. cbn [obind]. by exists w3, b.
Qed.

Lemma insert_refines w p xs a o i : array_rep w p xs a -> ar_capacity a <= 2 ^ 27 -> o <> p -> held 1 w o -> (i <= length xs)%nat ->
  starved w p a (Insert o (Z.of_nat i)) \/ exists w' b, IOArray_insertObject w p o (Z.of_nat i) = Ok w' /\ array_rep w' p (take i xs ++ o :: drop i xs) b
    /\ recounted w w' p (fun q => if q =? o then 1 else 0).
Proof.
  intros Hr Hs Hop Hsh Hi. unfold starved. cbn [run_op]. unfold IOArray_insertObject. pose proof (holds_length _ _ (ap_holds _ _ _ _ Hr)). pose proof (ap_capacity _ _ _ _ Hr).
  destruct (room_made w p xs a Hr Hs) as [(? & ? & ->)|(a1 & w1 & -> & Hr1 & Hl1 & Hrc1)]; [by left|right]. cbn [obind].
  destruct (inserted (ar_cells a1) xs i o (ap_holds _ _ _ _ Hr1) Hl1 Hi) as (c1 & c2 & E1 & E2 & Hh & Hl).
  rewrite (ap_count _ _ _ _ Hr1). replace (Z.to_nat (Z.of_nat (length xs) - Z.of_nat i)) with (length xs - i)%nat by lia. rewrite E1. cbn [obind].
  destruct (stored w w1 p a1 xs (take i xs ++ o :: drop i xs) c2 o) as (w2 & w3 & b & -> & E3 & Hr3 & Hrc3); try done;
    [rewrite length_app, length_take; cbn; rewrite length_drop; lia|lia|].
  cbn [obind]. rewrite (ap_count _ _ _ _ Hr1) in E3. rewrite E2. cbn [obind]. by exists w3, b.
Qed.

Lemma remove_refines w p xs a o i : array_rep w p xs a -> ar_capacity a <= 2 ^ 27 -> xs !! i = Some o -> o <> p -> held 2 w o ->
  starved w p a (RemoveAt (Z.of_nat i)) \/ exists w' b, IOArray_removeAtIndex w p (Z.of_nat i) = Ok w' /\ array_rep w' p (removed xs i) b
    /\ recounted w w' p (fun q => if q =? o then -1 else 0).
Proof.
  intros Hr Hs Ho Hop Hsh. unfold starved. cbn [run_op op_request]. unfold IOArray_removeAtIndex. rewrite (array_at_rep _ _ _ _ Hr). cbn [obind].
  pose proof (holds_length _ _ (ap_holds _ _ _ _ Hr)). pose proof (ap_capacity _ _ _ _ Hr) as Hcap. pose proof (ap_count _ _ _ _ Hr) as Hc.
  pose proof (lookup_lt_Some _ _ _ Ho) as Hi.
  rewrite (proj2 (Z.eqb_neq (Z.of_nat i) IONotFound)), (proj2 (Z.leb_gt (ar_count a) _)) by (rewrite ?Hc; change IONotFound with (2 ^ 32 - 1); lia).
  cbn [orb]. rewrite (holds_get _ _ _ _ (ap_holds _ _ _ _ Hr) Ho). cbn [obind].
  destruct (release_shared w o Hsh) as (ob & E & ->). cbn [obind]. pose proof (rep_other w p xs a o (counted (-1) ob) Hop Hr) as Hr1.
  rewrite (array_at_rep _ _ _ _ Hr1). cbn [obind]. rewrite Hc, (u32_small (Z.of_nat (length xs) - 1)) by lia.
  destruct (gap_closed (ar_cells a) xs i (ap_holds _ _ _ _ Hr) Hi) as (cells & Eg & Hh & Hl).
  replace (Z.to_nat (Z.of_nat (length xs) - 1 - Z.of_nat i)) with (length xs - 1 - i)%nat by lia. rewrite Eg. cbn [obind].
  destruct (shrunk _ p xs a (removed xs i) (ArrayFields (ar_objects a) cells (Z.of_nat (length xs) - 1) (ar_capacity a) (ar_changeSize a)) Hr1)
    as [[Hlt Hst]|(w' & b & E' & Hr' & Hrc')]; cbn; try done; [rewrite removed_length; lia|left|right].
  { split; [done|]. replace (Z.of_nat (length xs) =? 1) with (Z.of_nat (length xs) - 1 =? 0); [exact Hst|].
    destruct (Z.eqb_spec (Z.of_nat (length xs)) 1), (Z.eqb_spec (Z.of_nat (length xs) - 1) 0); (done || lia). }
  exists w', b. split_and!; [done|done|]. eapply recounted_ext; [|eapply recounted_trans; [by apply recounted_one|exact Hrc']]. intros q. cbn. lia.
Qed.

(** C17: an array of objects is the list of them.  Adding and inserting put an
    object that is alive at the end or at its place and retain it once; removing an
    object that someone else holds too releases it once, puts the object behind it
    in its place and drops the last cell.  No other object changes.  The only
    exception is the step's own request for another block being refused
    ([starved]).  The removal of an object whose last reference is the array's is
    outside this theorem. *)
Theorem IOArray_refines w p xs a op : array_rep w p xs a -> ar_capacity a <= 2 ^ 27 -> op_ok w p xs op ->
  starved w p a op \/ exists w' b, run_op w p op = Ok w' /\ array_rep w' p (op_list xs op) b /\ recounted w w' p (op_count xs op).
Proof.
  intros Hr Hs Hop. destruct op as [o|o i|i]; cbn [op_ok run_op op_list] in *.
  - destruct Hop as [? ?]. by apply (add_refines w p xs a o).
  - destruct Hop as (? & ? & ?). pose proof (insert_refines w p xs a o (Z.to_nat i)) as Hi. rewrite Z2Nat.id in Hi by lia. apply Hi; try done. lia.
  - destruct Hop as (o & Ho & Hi & ? & ?).
    pose proof (remove_refines w p xs a o (Z.to_nat i)) as Hrm. rewrite Z2Nat.id in Hrm by done.
    destruct Hrm as [?|(w' & b & E & Hr' & Hrc)]; try done; [by left|right].
    exists w', b. split_and!; [done|done|]. eapply recounted_ext; [|exact Hrc]. intros q. cbn. rewrite Ho.
    destruct (Z.eqb_spec q o) as [->|]; case_bool_decide; congruence.
Qed.
End Refinement.

(** *** A concrete array *)

(** An array at 8 with three objects at 101, 102 and 103, and a fresh object at 104. *)
Definition demo_array : array_fields := ArrayFields slot_size (Some <$> [101; 102; 103; 0; 0]) 3 5 5.
Definition demo_world : world cell_heap :=
  World (CellHeap {[1 := 20]}) (<[8 := Object 1 1 (OfArray demo_array)]> (<[104 := Object 1 1 NoFields]> (gset_to_gmap (Object 1 2 NoFields) {[101; 102; 103]}))) ∅ ∅.

Lemma demo_ioarray_rep : array_rep demo_world 8 [101; 102; 103] demo_array.
Proof.
  split; [done|by eexists _, _|by exists [Some 0; Some 0]|done|done|cbn; lia|].
  exists 20, 1. split_and!; try done; unfold slot_size; lia.
Qed.

Lemma IOArray_refines_witness :
  (exists w' b, run_op demo_world 8 (Insert 104 1) = Ok w' /\ array_rep w' 8 [101; 104; 102; 103] b
     /\ recounted demo_world w' 8 (fun q => if q =? 104 then 1 else 0))
  /\ exists w' b, run_op demo_world 8 (RemoveAt 0) = Ok w' /\ array_rep w' 8 [102; 102] b
     /\ recounted demo_world w' 8 (op_count [101; 102; 103] (RemoveAt 0)).
Proof.
  assert (H1 : held 1 demo_world 104) by (split; [done|]; exists (Object 1 1 NoFields); split; [reflexivity|cbn; lia]).
  assert (H2 : held 2 demo_world 101) by (split; [done|]; exists (Object 1 2 NoFields); split; [reflexivity|cbn; lia]).
  split.
  - destruct (IOArray_refines demo_world 8 [101; 102; 103] demo_array (Insert 104 1) demo_ioarray_rep) as [[E _]|Hok];
      [cbn; lia|split_and!; [done|exact H1|cbn; lia|cbn; lia]|by vm_compute in E|exact Hok].
  - destruct (IOArray_refines demo_world 8 [101; 102; 103] demo_array (RemoveAt 0) demo_ioarray_rep) as [[E [[E' _]|[[h E'] _]]]|Hok];
      [cbn; lia|exists 101; split_and!; [done|done|done|exact H2]|by vm_compute in E'|by vm_compute in E'|exact Hok].
Defined.

(** The removal is the one of lists only for the last two objects. *)
Lemma removed_at_end xs i : (i < length xs)%nat -> (length xs <= i + 2)%nat -> removed xs i = delete i xs.
Proof.
  intros Hi Hl. unfold removed. rewrite delete_take_drop. destruct (xs !! S i) as [y|] eqn:E.
  - pose proof (lookup_lt_Some _ _ _ E). rewrite (drop_S _ _ _ E), (drop_ge xs (S (S i))) by lia.
    apply list_eq. intros j. destruct (decide (j = i)) as [->|Hj].
    + rewrite lookup_take_lt by lia. rewrite list_lookup_insert_eq by lia. rewrite lookup_app_r by (rewrite length_take; lia).
      by rewrite length_take, Nat.min_l, Nat.sub_diag by lia.
    + destruct (decide (j < i)%nat).
      * rewrite lookup_take_lt, list_lookup_insert_ne by lia. by rewrite lookup_app_l, lookup_take_lt by (rewrite ?length_take; lia).
      * rewrite !lookup_ge_None_2; [done| |]; rewrite ?length_app, ?length_take, ?length_insert; cbn; lia.
  - apply lookup_ge_None in E. rewrite (drop_ge xs (S i)) by lia. rewrite app_nil_r. f_equal. lia.
Qed.

(** Removing the first of four objects leaves the second one twice and loses the
    last one, which stays retained. *)
Lemma removal_repeats : removed [101; 102; 103; 104] 0 = [102; 102; 103].
Proof. done. Qed.
