(* ===== verification/IoDictionary.v ===== *)
(** * Dictionaries, sets and pools of objects (libkernel/libio)

    IODictionary.cpp and IOSet.cpp repeat the table of buckets of the kernel's
    hashset.c, with the hash and the equality of objects, and retain what they
    hold; the searches and the changes of capacity are those of [HashSet].  On top
    of dictionaries stand the search for the running thread's object and, with it,
    the pools of objects to release later. *)

From S2P Require Import Prelude Pages HeapSpec Block Array HashSet IoObject.

Definition sizeof_IONumber : Z := 24.
Definition sizeof_IODictionary : Z := 28.
Definition sizeof_IOSet : Z := 28.
Definition sizeof_IOSetBucket : Z := 8.

Section Tables.
Context {H : Type} `{KernelHeap H}.
Implicit Types w : world H.

Definition table_of (fs : fields) : option hashset_t :=
  match fs with OfDictionary d | OfPointerDictionary d | OfSet d => Some d | _ => None end.

Definition table_at w (p : Z) : outcome hashset_t :=
  let* o := object_at w p in of_option (table_of (ob_fields o)).

(** The same class with another table. *)
Definition with_table (fs : fields) (d : hashset_t) : fields :=
  match fs with OfPointerDictionary _ => OfPointerDictionary d | OfSet _ => OfSet d | _ => OfDictionary d end.

Definition set_table w (p : Z) (d : hashset_t) : outcome (world H) :=
  let* o := object_at w p in Ok (set_object w p (Object (ob_symbol o) (ob_retain o) (with_table (ob_fields o) d))).

(** The parts of the world a change of the table touches. *)
Definition install w (p : Z) (r : hashset_t * buckets * H) : outcome (world H) :=
  let '(d, st, h) := r in set_table (with_buckets (with_heap w h) st) p d.

(** [bucket->key && bucket->key->isEqual(key)] *)
Definition key_equal w (k key : Z) : outcome bool := if k =? NULL then Ok false else isEqual w k key.

(** ** Making *)

Definition table_init w (p capacity : Z) : outcome (Z * world H) :=
  let* (bs, w) := kalloc w (table_size capacity) in
  let* w := set_table w p (Hashset capacity 0 bs (if bs =? NULL then [] else empty_table capacity) false) in
  if bs =? NULL then let* w := release w p in Ok (NULL, w) else Ok (p, w).

Definition IODictionary_init w (p : Z) : outcome (Z * world H) := table_init w p (capacity_at 0).
Definition IODictionary_initWithCapacity w (p capacity : Z) : outcome (Z * world H) := table_init w p (pick_capacity 41 1 capacity).
Definition IOSet_init w (p : Z) : outcome (Z * world H) := table_init w p (capacity_at 0).
Definition IOSet_initWithCapacity w (p capacity : Z) : outcome (Z * world H) := table_init w p (pick_capacity 41 1 capacity).

(** ** Finding *)

Definition IODictionary_findBucket1 w (d : hashset_t) (key : Z) : outcome (option Z) :=
  hashset_findBucket1 (hash w) (key_equal w) d (w_buckets w) key.

Definition IODictionary_findBucket2 w (d : hashset_t) (key : Z) : outcome (Z * hashset_t * buckets * H) :=
  hashset_findBucket2 (hash w) (key_equal w) (w_heap w) d (w_buckets w) key.

Definition IODictionary_expandIfNeeded w (p : Z) : outcome (world H) :=
  let* d := table_at w p in
  let* r := hashset_expandIfNeeded (hash w) (w_heap w) d (w_buckets w) in install w p r.

Definition IODictionary_shrinkIfNeeded w (p : Z) : outcome (world H) :=
  let* d := table_at w p in
  let* r := hashset_shrinkIfNeeded (hash w) (w_heap w) d (w_buckets w) in install w p r.

(** Key and object of a bucket, and the number of entries. *)
Definition bucket_at w (b : Z) : outcome bucket := of_option (w_buckets w !! b).

Definition set_bucket w (b key data : Z) : outcome (world H) :=
  let* bk := bucket_at w b in Ok (with_buckets w (<[b := Bucket key data (b_overflow bk)]> (w_buckets w))).

Definition add_count w (p n : Z) : outcome (world H) :=
  let* d := table_at w p in set_table w p (set_hsCount d (u32 (hs_count d + n))).

(** ** Dictionaries *)

Definition IODictionary_removeObjectForKey w (p key : Z) : outcome (world H) :=
  let* d := table_at w p in
  let* found := IODictionary_findBucket1 w d key in
  match found with
  | None => Ok w
  | Some b =>
      let* bk := bucket_at w b in
      let* w := release w (b_key bk) in
      let* w := release w (b_data bk) in
      let* w := set_bucket w b NULL NULL in
      let* w := add_count w p (-1) in
      IODictionary_shrinkIfNeeded w p
  end.

Definition IODictionary_setObjectForKey w (p object key : Z) : outcome (world H) :=
  if object =? NULL then IODictionary_removeObjectForKey w p key else
  let* d := table_at w p in
  let* (b, d, st, h) := IODictionary_findBucket2 w d key in
  let* w := install w p (d, st, h) in
  if b =? NULL then Ok w else
  let* bk := bucket_at w b in
  let* w :=
    if b_data bk =? NULL then Ok w
    else
      let* w := release w (b_data bk) in
      let* w := release w (b_key bk) in
      add_count w p (-1) in
  let* w := retain w object in
  let* w := retain w key in
  let* w := set_bucket w b key object in
  let* w := add_count w p 1 in
  IODictionary_expandIfNeeded w p.

Definition IODictionary_objectForKey w (p key : Z) : outcome Z :=
  let* d := table_at w p in
  let* found := IODictionary_findBucket1 w d key in
  match found with Some b => let* bk := bucket_at w b in Ok (b_data bk) | None => Ok NULL end.

Definition IODictionary_count w (p : Z) : outcome Z := let* d := table_at w p in Ok (hs_count d).
Definition IODictionary_capacity w (p : Z) : outcome Z := let* d := table_at w p in Ok (hs_capacity d).

(** The pairs of [withObjectsAndKeys]: a null object ends them, and so does a null
    key. *)
Fixpoint set_pairs w (p : Z) (pairs : list (Z * Z)) : outcome (world H) :=
  match pairs with
  | [] => Ok w
  | (object, key) :: rest =>
      if (object =? NULL) || (key =? NULL) then Ok w
      else let* w := IODictionary_setObjectForKey w p object key in set_pairs w p rest
  end.

(** ** Dictionaries of pointers *)

(** The virtual [removeObjectForKey] and its companions panic in this class, also
    when they are called for a null pointer. *)
Definition __IOPointerDictionary_setPointerForKey w (p ptr key : Z) : outcome (world H) :=
  if ptr =? NULL then Panic else
  let* d := table_at w p in
  let* (b, d, st, h) := IODictionary_findBucket2 w d key in
  let* w := install w p (d, st, h) in
  if b =? NULL then Ok w else
  let* bk := bucket_at w b in
  let* w := retain w key in
  let* w := if b_data bk =? NULL then Ok w else let* w := release w (b_key bk) in add_count w p (-1) in
  let* w := set_bucket w b key ptr in
  let* w := add_count w p 1 in
  IODictionary_expandIfNeeded w p.

Definition __IOPointerDictionary_removePointerForKey w (p key : Z) : outcome (world H) :=
  let* d := table_at w p in
  let* found := IODictionary_findBucket1 w d key in
  match found with
  | None => Ok w
  | Some b =>
      let* bk := bucket_at w b in
      let* w := release w (b_key bk) in
      let* w := set_bucket w b NULL NULL in
      let* w := add_count w p (-1) in
      IODictionary_shrinkIfNeeded w p
  end.

Definition __IOPointerDictionary_pointerForKey w (p key : Z) : outcome Z := IODictionary_objectForKey w p key.

(** ** Sets *)

(** A set's bucket has one object; it stands in the place of the key. *)
Definition IOSet_findBucket1 w (d : hashset_t) (object : Z) : outcome (option Z) := IODictionary_findBucket1 w d object.

Definition IOSet_findBucket2 w (d : hashset_t) (object : Z) : outcome (Z * hashset_t * buckets * H) :=
  let* index := chain_index (hash w) d object in
  let* first := cell_get (hs_cells d) index in
  let* found := find_walk (key_equal w) (S (size (w_buckets w))) (w_buckets w) first object in
  match found with
  | Some b => Ok (b, d, w_buckets w, w_heap w)
  | None =>
      let* (b, h) := halloc (w_heap w) sizeof_IOSetBucket in
      if b =? NULL then Ok (NULL, d, w_buckets w, h) else
      let* cells := cell_set (hs_cells d) index b in
      Ok (b, Hashset (hs_capacity d) (hs_count d) (hs_buckets d) cells (hs_lock d), <[b := Bucket object NULL first]> (w_buckets w), h)
  end.

Definition IOSet_expandIfNeeded w (p : Z) : outcome (world H) := IODictionary_expandIfNeeded w p.
Definition IOSet_shrinkIfNeeded w (p : Z) : outcome (world H) := IODictionary_shrinkIfNeeded w p.

Definition IOSet_removeObject w (p object : Z) : outcome (world H) :=
  let* d := table_at w p in
  let* found := IOSet_findBucket1 w d object in
  match found with
  | None => Ok w
  | Some b =>
      let* bk := bucket_at w b in
      let* w := release w (b_key bk) in
      let* w := set_bucket w b NULL NULL in
      let* w := add_count w p (-1) in
      IOSet_shrinkIfNeeded w p
  end.

(** The object of a new bucket is already the one to add when it is tested. *)
Definition IOSet_addObject w (p object : Z) : outcome (world H) :=
  if object =? NULL then IOSet_removeObject w p object else
  let* d := table_at w p in
  let* (b, d, st, h) := IOSet_findBucket2 w d object in
  let* w := install w p (d, st, h) in
  if b =? NULL then Ok w else
  let* w := retain w object in
  let* bk := bucket_at w b in
  let* w :=
    if b_key bk =? NULL then Ok w
    else let* w := release w (b_key bk) in add_count w p (-1) in
  let* w := set_bucket w b object NULL in
  let* w := add_count w p 1 in
  IOSet_expandIfNeeded w p.

Definition IOSet_containsObject w (p object : Z) : outcome bool :=
  let* d := table_at w p in
  let* found := IOSet_findBucket1 w d object in Ok (bool_decide (is_Some found)).

(** The new array is not tested for null. *)
Definition IOSet_removeAllObjects w (p : Z) : outcome (world H) :=
  let* d := table_at w p in
  let* w := release_chains release (Z.to_nat (hs_capacity d)) (fun bk => [b_key bk]) (hs_cells d) 0 w in
  let* w := kfree w (hs_buckets d) in
  let capacity := capacity_at 0 in
  let* (bs, w) := kalloc w (table_size capacity) in
  set_table w p (Hashset capacity 0 bs (if bs =? NULL then [] else empty_table capacity) (hs_lock d)).

(** ** Iterating *)

(** The place of an iterator: the next bucket of the chain it is in, and the chain
    after that. *)
Record iterator := Iterator { it_bucket : Z; it_index : Z }.

(** [while(!_bucket)], with [n] chains left at most. *)
Fixpoint next_bucket (n : nat) (d : hashset_t) (it : iterator) : outcome iterator :=
  if negb (it_bucket it =? NULL) then Ok it else
  if hs_capacity d <=? it_index it then Ok it else
  match n with
  | O => Hang
  | S n' =>
      let* b := cell_get (hs_cells d) (it_index it) in
      next_bucket n' d (Iterator b (u32 (it_index it + 1)))
  end.

(** The next key or object; null at the end. *)
Definition nextObject w (keyIterator : bool) (p : Z) (it : iterator) : outcome (Z * iterator) :=
  let* d := table_at w p in
  let* it := next_bucket (Z.to_nat (hs_capacity d)) d it in
  if it_bucket it =? NULL then Ok (NULL, it) else
  let* bk := bucket_at w (it_bucket it) in
  Ok (if keyIterator then b_key bk else b_data bk, Iterator (b_overflow bk) (it_index it)).

(** A set's iterator hands out its objects. *)
Definition IOSet_nextObject w (p : Z) (it : iterator) : outcome (Z * iterator) := nextObject w true p it.

(** ** Threads and pools *)

(** [IOThread::currentThread]: the threads' dictionary, null before the first
    thread, is searched for the number [id] of the running thread. *)
Section Running.
Variables (IONumberSymbol __IOThreadDictionary id : Z).

Definition currentThread w : outcome (Z * world H) :=
  let* (p, w) := alloc w sizeof_IONumber IONumberSymbol (NumberFields kIONumberTypeInt8 NULL 0) in
  let* (threadID, w) := IONumber_initWithBuffer w p kIONumberTypeUInt32 id in
  let* thread := if __IOThreadDictionary =? NULL then Ok NULL else IODictionary_objectForKey w __IOThreadDictionary threadID in
  let* w := release w threadID in
  Ok (thread, w).

Definition IOAutoreleasePool_init w (p : Z) : outcome (Z * world H) :=
  let* (owner, w) := currentThread w in
  if owner =? NULL then let* w := release w p in Ok (NULL, w) else
  let* (objects, w) := kalloc w (pointers 5) in
  let* w := set_fields w p (OfPool (PoolFields owner NULL objects (if objects =? NULL then [] else cleared 5) 0 5)) in
  if objects =? NULL then let* w := release w p in Ok (NULL, w) else
  let* previous := topPool w owner in
  let* w := set_fields w p (OfPool (PoolFields owner previous objects (cleared 5) 0 5)) in
  let* w := set_topPool w owner p in
  Ok (p, w).

Definition IOAutoreleasePool_addObject w (p object : Z) : outcome (world H) :=
  let* po := pool_at w p in
  let* (po, w) :=
    if po_size po <=? po_count po then
      let nsize := u32 (po_size po * 2) in
      let* (nobjects, w) := kalloc w (pointers nsize) in
      if nobjects =? NULL then Panic else
      let* cells := cell_copy (po_cells po) (cleared nsize) (po_size po) in
      let* w := kfree w (po_objects po) in
      Ok (PoolFields (po_owner po) (po_previous po) nobjects cells (po_count po) nsize, w)
    else Ok (po, w) in
  let* cells := cell_set (po_cells po) (po_count po) object in
  set_fields w p (OfPool (PoolFields (po_owner po) (po_previous po) (po_objects po) cells (u32 (po_count po + 1)) (po_size po))).

(** Without a pool the object is only reported; without a thread's object the pool
    of a null pointer is read. *)
Definition autorelease w (p : Z) : outcome (world H) :=
  if p =? NULL then Ok w else
  let* (thread, w) := currentThread w in
  let* pool := topPool w thread in
  if pool =? NULL then Ok w else IOAutoreleasePool_addObject w pool p.

(** The factories: the new object belongs to the pool. *)
Definition IODictionary_withObjectsAndKeys w (symbol : Z) (pairs : list (Z * Z)) : outcome (Z * world H) :=
  let* (p, w) := alloc w sizeof_IODictionary symbol (OfDictionary (Hashset 0 0 NULL [] false)) in
  let* (dictionary, w) := IODictionary_init w p in
  let* w := set_pairs w dictionary pairs in
  let* w := autorelease w dictionary in Ok (dictionary, w).

Fixpoint add_objects w (p : Z) (objects : list Z) : outcome (world H) :=
  match objects with
  | [] => Ok w
  | object :: rest => if object =? NULL then Ok w else let* w := IOSet_addObject w p object in add_objects w p rest
  end.

Definition IOSet_withObjects w (symbol first : Z) (rest : list Z) : outcome (Z * world H) :=
  let* (p, w) := alloc w sizeof_IOSet symbol (OfSet (Hashset 0 0 NULL [] false)) in
  let* (set, w) := IOSet_initWithCapacity w p (Z.of_nat (S (length rest))) in
  let* w := IOSet_addObject w set first in
  let* w := add_objects w set rest in
  let* w := autorelease w set in Ok (set, w).
End Running.
End Tables.
