(* ===== verification/IoDictionaryCorrect.v ===== *)
(** * A dictionary is a map that retains what it holds

    For keys that are compared by identity, a dictionary of objects is related to
    the finite map of its contents, by way of the hash table's theorems, and to the
    reference counts of all objects.  Then what goes wrong with sets. *)

From S2P Require Import Prelude Pages HeapSpec CellHeap Block Array HashSet HashSetCorrect IoObject IoArray IoDictionary.

(** ** Functions that agree on the keys of a table *)

(** Identity as a hash: [hash_pointer]. *)
Definition own (k : Z) : Z := k.
#[local] Abbreviation ownFunction := (fun k => Ok (own k)).

Lemma walk_agrees cmp st es key : forall fuel p, slist st p es ->
  (forall e, e ∈ es -> cmp (e_key e) key = Ok (e_key e =? key)) ->
  find_walk cmp fuel st p key = find_walk hash_pointerCompare fuel st p key.
Proof.
  induction es as [|e es IH]; intros fuel p Hl Hc; cbn in Hl.
  - subst p. by destruct fuel.
  - destruct Hl as (-> & Hp & nx & Hn & Hl). destruct fuel as [|fuel]; cbn [find_walk]; [done|].
    rewrite (proj2 (Z.eqb_neq _ _)), Hn by done. cbn [of_option obind b_key b_overflow]. rewrite Hc by (apply elem_of_cons; by left).
    unfold hash_pointerCompare. cbn [obind]. destruct (_ =? _); [done|]. apply IH; [done|].
    intros e' He'. apply Hc, elem_of_cons. by right.
Qed.

Section Agree.
Context {H : Type} `{KernelHeapOk H} (hf : Z -> outcome Z).
Implicit Types (h : H) (s : hashset_t) (st : buckets) (es : list entry).

Definition agrees_on es : Prop := forall e, e ∈ es -> is_live e = true -> hf (e_key e) = Ok (own (e_key e)).

Lemma chain_agrees capacity es : forall fuel h cells st p, slist st p es -> NoDup (addrs es) -> agrees_on es ->
  rehash_chain hf fuel h capacity cells st p = rehash_chain ownFunction fuel h capacity cells st p /\
  forall c' st' h', rehash_chain ownFunction fuel h capacity cells st p = Ok (c', st', h') -> forall a, a ∉ addrs es -> st' !! a = st !! a.
Proof.
  induction es as [|e es IH]; intros fuel h cells st p Hl Hnd Ha; cbn in Hl.
  { subst p. destruct fuel; cbn [rehash_chain]; (split; [done|]); intros c' st' h' [= <- <- <-]; done. }
  destruct Hl as (-> & Hp & nx & Hn & Hl). cbn in Hnd. apply NoDup_cons in Hnd as [Hni Hnd].
  assert (Ha' : agrees_on es) by (intros e' He'; apply Ha, elem_of_cons; by right).
  assert (Hfr : forall bk, slist (<[e_addr e := bk]> st) nx es /\ slist (delete (e_addr e) st) nx es).
  { intros bk. split; (eapply slist_frame; [|exact Hl]); intros a Hin;
      [rewrite lookup_insert_ne|rewrite lookup_delete_ne]; try done; intros <-; by apply Hni. }
  destruct fuel as [|fuel]; cbn [rehash_chain]; rewrite (proj2 (Z.eqb_neq _ _)) by done; [done|].
  rewrite Hn. cbn [of_option obind b_key b_data b_overflow].
  destruct (Z.eqb_spec (e_key e) NULL) as [Ek|Ek]; cbn [negb].
  - destruct (hfree h (e_addr e)) as [h1| | |]; cbn [obind]; try done.
    destruct (IH fuel h1 cells (delete (e_addr e) st) nx (proj2 (Hfr (Bucket 0 0 0))) Hnd Ha') as [-> Hk]. split; [done|].
    intros c' st' h' E a Hna. apply not_elem_of_cons in Hna as [Hne Hna]. rewrite (Hk c' st' h' E a Hna). by apply lookup_delete_ne.
  - rewrite (Ha e); [|apply elem_of_cons; by left|unfold is_live; by rewrite (proj2 (Z.eqb_neq _ _))]. cbn [obind].
    destruct (cell_get cells (own (e_key e) mod capacity)) as [first| | |]; cbn [obind]; try done.
    destruct (cell_set cells (own (e_key e) mod capacity) (e_addr e)) as [cells'| | |]; cbn [obind]; try done.
    destruct (IH fuel h cells' (<[e_addr e := Bucket (e_key e) (e_data e) first]> st) nx (proj1 (Hfr _)) Hnd Ha') as [-> Hk]. split; [done|].
    intros c' st' h' E a Hna. apply not_elem_of_cons in Hna as [Hne Hna]. rewrite (Hk c' st' h' E a Hna). by apply lookup_insert_ne.
Qed.

Lemma rows_agree capacity old : forall rows i h cells st,
  (forall j es, rows !! j = Some es -> exists p, cell_get old (i + Z.of_nat j) = Ok p /\ slist st p es) ->
  NoDup (addrs (concat rows)) -> agrees_on (concat rows) ->
  rehash_from hf (length rows) h capacity old i cells st = rehash_from ownFunction (length rows) h capacity old i cells st.
Proof.
  induction rows as [|es rows IH]; intros i h cells st Hrow Hnd Ha; [done|]. cbn [length rehash_from concat] in *.
  rewrite fmap_app in Hnd. apply NoDup_app in Hnd as (Hnd1 & Hdis & Hnd2).
  destruct (Hrow 0%nat es eq_refl) as (p & Ep & Hl). rewrite Z.add_0_r in Ep. rewrite Ep. cbn [obind].
  destruct (chain_agrees capacity es (S (size st)) h cells st p Hl Hnd1) as [-> Hk].
  { intros e He. apply Ha, elem_of_app. by left. }
  destruct (rehash_chain ownFunction _ h capacity cells st p) as [[[c' st'] h']| | |] eqn:E; cbn [obind]; try done.
  apply IH; [|done|intros e He; apply Ha, elem_of_app; by right].
  intros j es' Hj. destruct (Hrow (S j) es' Hj) as (p' & Ep' & Hl'). exists p'. split; [rewrite <- Ep'; f_equal; lia|].
  eapply slist_frame; [|exact Hl']. intros a Hin. apply (Hk c' st' h' eq_refl). intros Hin1. apply (Hdis a Hin1).
  apply list_elem_of_fmap in Hin as (e & -> & He). apply list_elem_of_fmap. exists e. split; [done|]. by eapply concat_member.
Qed.

Lemma map_agrees tbl m : entries_map (concat tbl) m -> (forall k d, m !! k = Some d -> hf k = Ok (own k)) -> agrees_on (concat tbl).
Proof.
  intros Hm Hk e He Hlv. apply (Hk _ (e_data e)), Hm. unfold is_live in Hlv. split; [by intros E; rewrite E in Hlv|].
  exists (e_addr e). by destruct e.
Qed.

Lemma rehash_agrees h s st m F capacity : hs_rep own h s st m F -> (forall k d, m !! k = Some d -> hf k = Ok (own k)) ->
  hashset_rehash hf h s st capacity = hashset_rehash ownFunction h s st capacity.
Proof.
  intros (tbl & Ht & Hm & _) Hk. unfold hashset_rehash. destruct (halloc h (table_size capacity)) as [[bs h1]| | |]; cbn [obind]; try done.
  destruct (bs =? NULL); [done|]. pose proof (ht_length _ _ _ _ _ Ht) as Hlen. rewrite <- Hlen.
  rewrite (rows_agree capacity (hs_cells s) tbl 0 h1); [done| |apply Ht|by eapply map_agrees].
  intros j es Hj. rewrite Z.add_0_l. by apply (table_cell st (hs_cells s) tbl); [apply Ht|].
Qed.

Lemma expand_agrees m F n : forall i h s st, hs_rep own h s st m F -> (forall k d, m !! k = Some d -> hf k = Ok (own k)) ->
  expand_from hf n i h s st = expand_from ownFunction n i h s st.
Proof.
  induction n as [|n IH]; intros i h s st Hr Hk; cbn [expand_from]; [done|].
  destruct (_ =? _); [|by apply IH]. destruct (_ <=? _); [|done]. by eapply rehash_agrees.
Qed.

Lemma shrink_agrees m F n : forall i h s st, (0 < i)%nat -> (i + n <= 41)%nat -> hs_small s -> hs_rep own h s st m F ->
  (forall k d, m !! k = Some d -> hf k = Ok (own k)) -> shrink_from hf n i h s st = shrink_from ownFunction n i h s st.
Proof.
  induction n as [|n IH]; intros i h s st Hpos Hi Hs Hr Hk; cbn [shrink_from]; [done|].
  destruct (Z.eqb_spec (hs_capacity s) (capacity_at i)) as [E|_]; cbn [andb obind]; [|apply IH; [lia|lia|done..]].
  destruct (_ <=? _); cbn [obind]; [|apply IH; [lia|lia|done..]]. rewrite (rehash_agrees h s st m F) by done.
  pose proof Hs as Hs'. unfold hs_small in Hs'. rewrite E in Hs'.
  destruct (capacity_bounds i ltac:(lia) Hs') as [_ Hb]. specialize (Hb Hpos).
  destruct (rehash_rep own h s st m F (capacity_at (i - 1)) Hr ltac:(lia)) as [Hn Hcap]. unfold now_holds in Hn.
  destruct (hashset_rehash ownFunction h s st (capacity_at (i - 1))) as [[[s' st'] h']| | |]; cbn [obind]; try done.
  apply IH; [lia|lia|unfold hs_small in *; lia|done|done].
Qed.
End Agree.

(** ** Another value for a key *)

Section Update.
Context {H : Type} `{KernelHeapOk H}.
Implicit Types (h : H) (d : hashset_t) (st : buckets) (m : gmap Z Z) (F : Z -> Z -> Prop).

Lemma entries_ok_upd es e data : entries_ok es -> e ∈ es -> e_key e <> NULL -> data <> NULL ->
  entries_ok (upd_entry (e_addr e) (e_key e) data <$> es).
Proof.
  intros [Hnd Hdt Hun] He Hk Hd.
  assert (Hsame : forall f, f ∈ es -> e_addr f = e_addr e -> f = e) by (intros f Hf Ef; by eapply addr_unique).
  split; [by rewrite upd_addrs| |].
  - intros x (f & -> & Hf)%list_elem_of_fmap. unfold upd_entry. destruct (_ =? _); [done|by apply Hdt].
  - intros x1 x2 (f1 & -> & Hf1)%list_elem_of_fmap (f2 & -> & Hf2)%list_elem_of_fmap. unfold upd_entry.
    destruct (Z.eqb_spec (e_addr f1) (e_addr e)) as [E1|E1], (Z.eqb_spec (e_addr f2) (e_addr e)) as [E2|E2]; cbn; intros Ek Hne; [done| | |by apply Hun].
    + destruct E2. by rewrite (Hun f2 e Hf2 He (eq_sym Ek) ltac:(by rewrite <- Ek)).
    + destruct E1. by rewrite (Hun f1 e Hf1 He Ek Hne).
Qed.

Lemma entries_map_upd es m e data : entries_ok es -> entries_map es m -> e ∈ es -> e_key e <> NULL ->
  entries_map (upd_entry (e_addr e) (e_key e) data <$> es) (<[e_key e := data]> m).
Proof.
  intros [Hnd Hdt Hun] Hm He Hk j c. rewrite lookup_insert_Some, (Hm j c). split.
  - intros [[<- <-]|[Hne [Hj [b Hb]]]]; (split; [done|]).
    + exists (e_addr e). apply list_elem_of_fmap. exists e. split; [|done]. unfold upd_entry. by rewrite Z.eqb_refl.
    + exists b. apply list_elem_of_fmap. exists (Entry b j c). split; [|done]. unfold upd_entry. cbn.
      destruct (Z.eqb_spec b (e_addr e)) as [E|E]; [|done]. assert (Entry b j c = e) as <- by (by eapply addr_unique). done.
  - intros [Hj [b (f & E & Hf)%list_elem_of_fmap]]. unfold upd_entry in E.
    destruct (Z.eqb_spec (e_addr f) (e_addr e)) as [Ea|Ea]; [injection E as _ -> ->; by left|right].
    subst f. cbn in *. split; [|eauto]. intros <-. destruct Ea. by rewrite <- (Hun (Entry b (e_key e) c) e Hf He eq_refl Hk).
Qed.

Lemma updated_rep h d st m F tbl e nx data : hs_table own h d st tbl -> entries_map (concat tbl) m -> hs_count d = Z.of_nat (size m) ->
  (forall q n, hs_foreign h d tbl q n <-> F q n) -> e ∈ concat tbl -> e_key e <> NULL -> data <> NULL ->
  st !! e_addr e = Some (Bucket (e_key e) (e_data e) nx) ->
  hs_rep own h d (<[e_addr e := Bucket (e_key e) data nx]> st) (<[e_key e := data]> m) F.
Proof.
  intros Ht Hm Hc HF He Hk Hd Hst. destruct Ht.
  set (upd := fun es : list entry => upd_entry (e_addr e) (e_key e) data <$> es).
  assert (Hcat : concat (upd <$> tbl) = upd (concat tbl)) by (symmetry; apply concat_map).
  assert (Haddr : addrs (concat (upd <$> tbl)) = addrs (concat tbl)) by (rewrite Hcat; apply upd_addrs).
  exists (upd <$> tbl). split; [split; cbn; try done|split_and!].
  - by rewrite length_fmap.
  - apply Forall2_fmap_r. eapply Forall2_impl; [exact ht_table|]. intros c es (p & -> & Hl). exists p. split; [done|]. by eapply slist_upd.
  - rewrite Hcat. by apply entries_ok_upd.
  - intros i es e' Hi He' Hk'. rewrite list_lookup_fmap in Hi. destruct (tbl !! i) as [es0|] eqn:Ei; [|done]. cbn in Hi.
    injection Hi as <-. apply list_elem_of_fmap in He' as (e0 & -> & He0). unfold upd_entry in *.
    destruct (Z.eqb_spec (e_addr e0) (e_addr e)) as [Ea|_]; [|by eapply ht_placed]. cbn.
    assert (e0 = e) as -> by (eapply addr_unique; [apply ht_entries|by eapply concat_member|done|done]). by eapply ht_placed.
  - intros e' He'. apply (list_elem_of_fmap_2 e_addr) in He'. rewrite Haddr in He'.
    apply list_elem_of_fmap in He' as (e0 & -> & He0). by apply ht_live.
  - by rewrite Haddr.
  - rewrite Hcat. by apply entries_map_upd.
  - rewrite map_size_insert_Some; [done|]. exists (e_data e). apply Hm. split; [done|]. exists (e_addr e). by destruct e.
  - intros q n. unfold hs_foreign. rewrite Haddr. apply HF.
Qed.
End Update.

(** ** Dictionaries *)

Section Dictionary.
Context {H : Type} `{KernelHeapOk H}.
Implicit Types (w : world H) (d : hashset_t) (m : gmap Z Z) (F : Z -> Z -> Prop).

(** Objects that are compared by identity. *)
Definition by_identity (fs : fields) : bool :=
  match fs with StringFields _ _ | NumberFields _ _ _ | DateFields _ => false | _ => true end.
Definition identical w (k : Z) : Prop := exists o, w_objects w !! k = Some o /\ by_identity (ob_fields o) = true.

Lemma identical_hash w k : identical w k -> hash w k = Ok (own k).
Proof. intros (o & E & Hi). unfold hash, object_at. rewrite E. cbn [of_option obind]. by destruct (ob_fields o). Qed.

Lemma identical_equal w k q : identical w k -> isEqual w k q = Ok (k =? q).
Proof. intros (o & E & Hi). unfold isEqual, object_at. rewrite E. cbn [of_option obind]. by destruct (ob_fields o). Qed.

(** The dictionary at [p] holds the map [m]; [F] are the heap's other blocks. *)
Record dict_rep w (p : Z) d m F : Prop := {
  dr_object : exists s n, w_objects w !! p = Some (Object s n (OfDictionary d));
  dr_table : hs_rep own (w_heap w) d (w_buckets w) m F;
  dr_keys : forall k o, m !! k = Some o -> identical w k
}.

Lemma dict_table w p d m F : dict_rep w p d m F -> table_at w p = Ok d.
Proof. intros [(s & n & E) _ _]. unfold table_at, object_at. by rewrite E. Qed.

(** *** Finding *)

Lemma find_agrees w p d m F key : dict_rep w p d m F -> identical w key -> key <> NULL ->
  chain_index (hash w) d key = chain_index ownFunction d key /\
  forall i first, chain_index ownFunction d key = Ok i -> cell_get (hs_cells d) i = Ok first ->
    find_walk (key_equal w) (S (size (w_buckets w))) (w_buckets w) first key
    = find_walk hash_pointerCompare (S (size (w_buckets w))) (w_buckets w) first key.
Proof.
  intros [_ (tbl & Ht & Hm & _) Hk] Hid Hnull. split.
  - unfold chain_index. by rewrite identical_hash.
  - intros i first E1 E2. destruct (key_chain own _ _ _ _ _ _ Ht Hm Hnull) as (es & q & Hes & Hl & E1' & E2' & _).
    rewrite E1' in E1. injection E1 as <-. rewrite E2' in E2. injection E2 as <-. apply (walk_agrees _ _ es); [done|].
    intros e He. unfold key_equal. destruct (Z.eqb_spec (e_key e) NULL) as [->|Hne].
    { by rewrite (proj2 (Z.eqb_neq NULL key)). }
    apply identical_equal, (Hk _ (e_data e)), Hm. split; [done|]. exists (e_addr e). destruct e. by eapply concat_member.
Qed.

Lemma find1_agrees w p d m F key : dict_rep w p d m F -> identical w key -> key <> NULL ->
  IODictionary_findBucket1 w d key = hashset_findBucket1 ownFunction hash_pointerCompare d (w_buckets w) key.
Proof.
  intros Hr Hid Hnull. destruct (find_agrees w p d m F key Hr Hid Hnull) as [E Hw]. unfold IODictionary_findBucket1, hashset_findBucket1.
  rewrite E. destruct (chain_index ownFunction d key) as [i| | |] eqn:Ei; cbn [obind]; try done.
  destruct (cell_get (hs_cells d) i) as [first| | |] eqn:Ec; cbn [obind]; try done. by apply (Hw i).
Qed.

Lemma find2_agrees w p d m F key : dict_rep w p d m F -> identical w key -> key <> NULL ->
  IODictionary_findBucket2 w d key = hashset_findBucket2 ownFunction hash_pointerCompare (w_heap w) d (w_buckets w) key.
Proof.
  intros Hr Hid Hnull. destruct (find_agrees w p d m F key Hr Hid Hnull) as [E Hw]. unfold IODictionary_findBucket2, hashset_findBucket2.
  rewrite E. destruct (chain_index ownFunction d key) as [i| | |] eqn:Ei; cbn [obind]; try done.
  destruct (cell_get (hs_cells d) i) as [first| | |] eqn:Ec; cbn [obind]; try done. by rewrite (Hw i).
Qed.

Lemma dict_get w p d m F key : dict_rep w p d m F -> identical w key -> key <> NULL ->
  IODictionary_objectForKey w p key = Ok (default NULL (m !! key)).
Proof.
  intros Hr Hid Hnull. unfold IODictionary_objectForKey. rewrite (dict_table _ _ _ _ _ Hr). cbn [obind].
  rewrite (find1_agrees w p d m F) by done. destruct Hr as [_ (tbl & Ht & Hm & _) _].
  exact (get_spec own _ _ _ _ _ _ Ht Hm Hnull).
Qed.

(** *** Steps of an operation *)

(** Between [w0] and [w] only reference counts have changed, and the table of [p]. *)
Definition stage w0 w (p : Z) d (f : Z -> Z) : Prop :=
  (exists s n, w_objects w !! p = Some (Object s n (OfDictionary d))) /\ recounted w0 w p f.

Definition kept w w' : Prop := w_heap w' = w_heap w /\ w_buckets w' = w_buckets w.

Lemma stage_start w p d m F : dict_rep w p d m F -> stage w w p d (fun _ => 0).
Proof. intros [Ho _ _]. split; [done|]. by apply recounted_same. Qed.

(** The object [q] has [n] references or more, and is not about to overflow its
    count. *)
Definition spare w (n q : Z) : Prop := q <> NULL /\ exists o, w_objects w !! q = Some o /\ n <= ob_retain o < 2 ^ 32 - 3.

Lemma release_stage w0 w p d f q : stage w0 w p d f -> q <> p -> forall n, spare w0 n q -> 1 < n + f q -> f q <= 0 ->
  exists w', release w q = Ok w' /\ stage w0 w' p d (fun x => f x + if x =? q then -1 else 0) /\ kept w w'.
Proof.
  intros [Hp Hrc] Hqp n (Hnull & o & E & Hb) Hf1 Hf.
  destruct (release_shared w q) as (o' & E' & Er).
  { split; [done|]. rewrite Hrc, E by done. eexists. split; [done|]. cbn. lia. }
  rewrite Er. eexists. split; [done|]. split; [|done]. split; [cbn; by rewrite lookup_insert_ne|].
  eapply recounted_trans; [exact Hrc|]. by apply recounted_one.
Qed.

Lemma retain_stage w0 w p d f q : stage w0 w p d f -> q <> p -> forall n, spare w0 n q -> 0 <= n + f q -> f q <= 1 ->
  exists w', retain w q = Ok w' /\ stage w0 w' p d (fun x => f x + if x =? q then 1 else 0) /\ kept w w'.
Proof.
  intros [Hp Hrc] Hqp n (Hnull & o & E & Hb) Hf1 Hf. unfold retain, object_at. rewrite (proj2 (Z.eqb_neq _ _)) by done.
  pose proof (Hrc q Hqp) as Eq. rewrite E in Eq. cbn in Eq. rewrite Eq. cbn [of_option obind]. unfold set_retain.
  rewrite u32_small by (cbn; lia). eexists. split; [done|]. split; [|done]. split; [cbn; by rewrite lookup_insert_ne|].
  eapply recounted_trans; [exact Hrc|]. by apply (recounted_one _ p q (counted (f q) o) 1).
Qed.

Lemma table_stage w0 w p d f d' : stage w0 w p d f -> exists w', set_table w p d' = Ok w' /\ stage w0 w' p d' f /\ kept w w'.
Proof.
  intros [(s & n & E) Hrc]. unfold set_table, object_at. rewrite E. cbn. eexists. split; [done|]. split; [|done]. split.
  - exists s, n. cbn. by rewrite lookup_insert_eq.
  - intros q Hq. cbn. rewrite lookup_insert_ne by done. by apply Hrc.
Qed.

Lemma stage_at w0 w p d f : stage w0 w p d f -> table_at w p = Ok d.
Proof. intros [(s & n & E) _]. unfold table_at, object_at. by rewrite E. Qed.

Lemma count_stage w0 w p d f n : stage w0 w p d f ->
  exists w', add_count w p n = Ok w' /\ stage w0 w' p (set_hsCount d (u32 (hs_count d + n))) f /\ kept w w'.
Proof. intros Hs. unfold add_count. rewrite (stage_at _ _ _ _ _ Hs). cbn [obind]. by apply (table_stage w0 w p d f). Qed.

Lemma stage_parts w0 w p d f h st : stage w0 w p d f -> stage w0 (with_buckets (with_heap w h) st) p d f.
Proof. done. Qed.

Lemma bucket_stage w0 w p d f b bk key data : stage w0 w p d f -> w_buckets w !! b = Some bk ->
  exists w', set_bucket w b key data = Ok w' /\ stage w0 w' p d f /\ w_heap w' = w_heap w /\
    w_buckets w' = <[b := Bucket key data (b_overflow bk)]> (w_buckets w).
Proof. intros Hs E. unfold set_bucket, bucket_at. rewrite E. cbn. eexists. by split_and!. Qed.

Lemma stage_identical w0 w p d f k : stage w0 w p d f -> identical w0 k -> identical w k.
Proof.
  intros [(s & n & Ep) Hrc] (o & E & Hi). destruct (decide (k = p)) as [->|Hne]; [by exists (Object s n (OfDictionary d))|].
  exists (counted (f k) o). by rewrite Hrc, E.
Qed.

(** *** The table after an operation *)

Lemma removed_rep h d st m F key e nx : hs_rep own h d st m F -> key <> NULL -> hs_count d < 2 ^ 32 ->
  forall tbl, hs_table own h d st tbl -> entries_map (concat tbl) m -> (forall q n, hs_foreign h d tbl q n <-> F q n) ->
  e ∈ concat tbl -> e_key e = key -> st !! e_addr e = Some (Bucket key (e_data e) nx) ->
  hs_rep own h (set_hsCount d (u32 (hs_count d - 1))) (<[e_addr e := Bucket NULL NULL nx]> st) (delete key m) F.
Proof.
  intros (_ & _ & _ & Hc & _) Hnull Hb tbl Ht Hm HF He Hk Hst. subst key.
  destruct (clear_table own _ _ _ _ Ht e nx (u32 (hs_count d - 1)) He Hst) as [Ht' HF'].
  eexists. split; [exact Ht'|]. split_and!.
  - unfold clear_tbl. setoid_rewrite <- concat_map. apply entries_map_clear; try done. apply Ht.
  - assert (Hin : m !! e_key e = Some (e_data e)) by (apply Hm; split; [done|]; exists (e_addr e); by destruct e).
    cbn. rewrite map_size_delete_Some by (by eexists). assert (size m <> 0)%nat.
    { intros Hz%map_size_empty_iff. by rewrite Hz, lookup_empty in Hin. }
    rewrite u32_small; lia.
  - intros q n. by rewrite HF', HF.
Qed.

(** What an operation that turned the map into [m] leaves; [why] says why it may
    have panicked. *)
Definition leaves (why : Prop) w (p : Z) m F (f : Z -> Z) (r : outcome (world H)) : Prop :=
  match r with
  | Ok w' => (exists d', dict_rep w' p d' m F) /\ recounted w w' p f
  | Panic => why
  | _ => False
  end.

(** Installing a table that holds [m]. *)
Lemma install_leaves why w0 w p d m F f r : stage w0 w p d f -> (forall k o, m !! k = Some o -> identical w0 k) -> now_holds own why m F r ->
  leaves why w0 p m F f (let* r := r in install w p r).
Proof.
  intros Hs Hk Hr. unfold now_holds in Hr. destruct r as [[[d' st'] h']| | |]; cbn [obind]; try done. unfold install.
  destruct (table_stage w0 _ p d f d' (stage_parts w0 w p d f h' st' Hs)) as (w' & -> & Hs' & Hh & Hb).
  split; [|apply Hs']. exists d'. split; [apply Hs'|by rewrite Hh, Hb|].
  intros k o E. eapply stage_identical; [exact Hs'|by eapply Hk].
Qed.

Lemma shrink_leaves w0 w p d m F f : stage w0 w p d f -> hs_small d -> hs_rep own (w_heap w) d (w_buckets w) m F ->
  (forall k o, m !! k = Some o -> identical w0 k) -> leaves (no_table (w_heap w)) w0 p m F f (IODictionary_shrinkIfNeeded w p).
Proof.
  intros Hs Hsm Hr Hk. unfold IODictionary_shrinkIfNeeded. rewrite (stage_at _ _ _ _ _ Hs). cbn [obind].
  apply (install_leaves _ w0 w p d m F f); [done|done|]. unfold hashset_shrinkIfNeeded.
  rewrite (shrink_agrees (hash w) m F 40 1); [apply shrink_from_rep; (lia || done)|lia|lia|done|done|].
  intros k o E. eapply identical_hash, stage_identical; [exact Hs|by eapply Hk].
Qed.

Lemma expand_leaves w0 w p d m F f : stage w0 w p d f -> hs_small d -> hs_rep own (w_heap w) d (w_buckets w) m F ->
  (forall k o, m !! k = Some o -> identical w0 k) -> leaves (no_table (w_heap w)) w0 p m F f (IODictionary_expandIfNeeded w p).
Proof.
  intros Hs Hsm Hr Hk. unfold IODictionary_expandIfNeeded. rewrite (stage_at _ _ _ _ _ Hs). cbn [obind].
  apply (install_leaves _ w0 w p d m F f); [done|done|]. unfold hashset_expandIfNeeded.
  rewrite (expand_agrees (hash w) m F 41 0); [apply expand_from_rep; (lia || done)|done|].
  intros k o E. eapply identical_hash, stage_identical; [exact Hs|by eapply Hk].
Qed.

Lemma leaves_ext (P Q : Prop) w p m F f g r : (P -> Q) -> (forall q, f q = g q) -> leaves P w p m F f r -> leaves Q w p m F g r.
Proof. intros HPQ E. unfold leaves. destruct r; try done. intros [? ?]. split; [done|]. by eapply recounted_ext. Qed.

(** *** Removing *)

Definition minus (x q : Z) : Z := if x =? q then -1 else 0.
Definition plus (x q : Z) : Z := if x =? q then 1 else 0.

(** The dictionary can give up key and object: neither reference is the last. *)
Record droppable w (p key o : Z) : Prop := {
  dp_other : o <> p;
  dp_key : spare w 2 key;
  dp_object : spare w 2 o;
  dp_same : o = key -> spare w 3 key
}.

Lemma dict_remove w p d m F key : dict_rep w p d m F -> identical w key -> key <> NULL -> hs_small d -> Z.of_nat (size m) < 2 ^ 31 ->
  key <> p -> (forall o, m !! key = Some o -> droppable w p key o) ->
  leaves (no_table (w_heap w)) w p (delete key m) F (fun x => match m !! key with Some o => minus x key + minus x o | None => 0 end)
    (IODictionary_removeObjectForKey w p key).
Proof.
  intros Hr Hid Hnull Hsm Hsz Hkp Hsp. unfold IODictionary_removeObjectForKey. rewrite (dict_table _ _ _ _ _ Hr). cbn [obind].
  rewrite (find1_agrees w p d m F) by done. pose proof Hr as [Ho (tbl & Ht & Hm & Hc & HF) Hk].
  destruct (find_bucket_spec own _ _ _ _ _ _ Ht Hm Hnull) as (found & -> & Emap & Hin). cbn [obind].
  destruct found as [e|]; cbn [fmap option_fmap option_map] in *; rewrite Emap; cbn [fmap option_fmap option_map].
  2:{ rewrite delete_id by done. split; [by exists d|]. by apply recounted_same. }
  destruct (Hin e eq_refl) as (He & Hke & nx & Hn). destruct (Hsp _ Emap) as [Hop Hsk Hso Hsame].
  unfold bucket_at at 1. rewrite Hn. cbn [of_option obind b_key b_data].
  destruct (release_stage w w p d _ key (stage_start _ _ _ _ _ Hr) Hkp 2 Hsk ltac:(lia) ltac:(lia)) as (w1 & -> & Hs1 & Hh1 & Hb1). cbn [obind].
  destruct (release_stage w w1 p d _ (e_data e) Hs1 Hop (if e_data e =? key then 3 else 2)) as (w2 & -> & Hs2 & Hh2 & Hb2);
    [destruct (Z.eqb_spec (e_data e) key) as [E|]; [rewrite E; auto|done]|cbn; destruct (_ =? _); lia|cbn; destruct (_ =? _); lia|]. cbn [obind].
  destruct (bucket_stage w w2 p d _ (e_addr e) (Bucket key (e_data e) nx) NULL NULL Hs2) as (w3 & -> & Hs3 & Hh3 & Hb3); [by rewrite Hb2, Hb1|]. cbn [obind].
  destruct (count_stage w w3 p d _ (-1) Hs3) as (w4 & -> & Hs4 & Hh4 & Hb4). cbn [obind].
  eapply leaves_ext; [|intros x|eapply shrink_leaves; [exact Hs4|exact Hsm| |]].
  - by rewrite Hh4, Hh3, Hh2, Hh1.
  - cbn. unfold minus. lia.
  - rewrite Hh4, Hh3, Hh2, Hh1, Hb4, Hb3, Hb2, Hb1. cbn [b_overflow].
    apply (removed_rep _ d (w_buckets w) m F key e nx) with tbl; try done; [by exists tbl|lia].
  - intros k o [_ E]%lookup_delete_Some. by eapply Hk.
Qed.

(** *** Setting *)

Lemma set_count_id d n : n = hs_count d -> set_hsCount d n = d.
Proof. intros ->. by destruct d. Qed.

(** From the bucket on, when the key was there. *)
Lemma set_present w p d m F key object tbl e nx : dict_rep w p d m F -> hs_table own (w_heap w) d (w_buckets w) tbl ->
  entries_map (concat tbl) m -> hs_count d = Z.of_nat (size m) -> (forall q n, hs_foreign (w_heap w) d tbl q n <-> F q n) -> e ∈ concat tbl ->
  e_key e = key -> key <> NULL -> w_buckets w !! e_addr e = Some (Bucket key (e_data e) nx) -> hs_small d -> Z.of_nat (size m) < 2 ^ 31 ->
  object <> NULL -> key <> p -> object <> p -> droppable w p key (e_data e) -> spare w 1 object -> identical w key ->
  leaves (no_table (w_heap w)) w p (<[key := object]> m) F (fun x => plus x object + minus x (e_data e))
    (let* w := (let* w := release w (e_data e) in let* w := release w key in add_count w p (-1)) in
     let* w := retain w object in let* w := retain w key in let* w := set_bucket w (e_addr e) key object in
     let* w := add_count w p 1 in IODictionary_expandIfNeeded w p).
Proof.
  intros Hr Ht Hm Hc HF He Hke Hnull Hn Hsm Hsz Hobj Hkp Hop [Hep Hsk Hse Hsame] Hso Hid.
  assert (Hsk' : spare w (if key =? e_data e then 3 else 2) key) by (destruct (Z.eqb_spec key (e_data e)); auto).
  assert (Hso' : spare w (if object =? e_data e then (if key =? e_data e then 3 else 2) else if object =? key then 2 else 1) object)
    by (destruct (Z.eqb_spec object (e_data e)) as [->|]; [destruct (Z.eqb_spec key (e_data e)) as [E|]; [rewrite <- E; auto|done]|];
        by destruct (Z.eqb_spec object key) as [->|]).
  destruct (release_stage w w p d _ (e_data e) (stage_start _ _ _ _ _ Hr) Hep 2 Hse ltac:(lia) ltac:(lia)) as (w1 & -> & Hs1 & Hh1 & Hb1). cbn [obind].
  destruct (release_stage w w1 p d _ key Hs1 Hkp _ Hsk') as (w2 & -> & Hs2 & Hh2 & Hb2); [cbn; destruct (key =? _); lia|cbn; destruct (key =? _); lia|]. cbn [obind].
  destruct (count_stage w w2 p d _ (-1) Hs2) as (w3 & -> & Hs3 & Hh3 & Hb3). cbn [obind].
  destruct (retain_stage w w3 p _ _ object Hs3 Hop _ Hso') as (w4 & -> & Hs4 & Hh4 & Hb4);
    [cbn; destruct (Z.eqb_spec object (e_data e)), (Z.eqb_spec object key), (Z.eqb_spec key (e_data e)); lia|cbn; repeat destruct (_ =? _); lia|]. cbn [obind].
  destruct (retain_stage w w4 p _ _ key Hs4 Hkp _ Hsk') as (w5 & -> & Hs5 & Hh5 & Hb5);
    [cbn; rewrite Z.eqb_refl; destruct (key =? e_data e), (key =? object); lia|cbn; rewrite Z.eqb_refl; repeat destruct (_ =? _); lia|]. cbn [obind].
  destruct (bucket_stage w w5 p _ _ (e_addr e) (Bucket key (e_data e) nx) key object Hs5) as (w6 & -> & Hs6 & Hh6 & Hb6);
    [by rewrite Hb5, Hb4, Hb3, Hb2, Hb1|]. cbn [obind].
  destruct (count_stage w w6 p _ _ 1 Hs6) as (w7 & -> & Hs7 & Hh7 & Hb7). cbn [obind].
  assert (Hcount : set_hsCount (set_hsCount d (u32 (hs_count d + -1))) (u32 (hs_count (set_hsCount d (u32 (hs_count d + -1))) + 1)) = d).
  { change (set_hsCount d (u32 (u32 (hs_count d + -1) + 1)) = d). apply set_count_id.
    assert (size m <> 0)%nat. { intros Hz%map_size_empty_iff. assert (m !! key = Some (e_data e)) as E; [|by rewrite Hz, lookup_empty in E].
      subst key. apply Hm. split; [done|]. exists (e_addr e). by destruct e. }
    rewrite (u32_small (hs_count d + -1)), u32_small by lia. lia. }
  rewrite Hcount in Hs7. eapply leaves_ext; [|intros x|eapply expand_leaves; [exact Hs7|exact Hsm| |]].
  - by rewrite Hh7, Hh6, Hh5, Hh4, Hh3, Hh2, Hh1.
  - cbn. unfold plus, minus. repeat destruct (_ =? _); lia.
  - rewrite Hh7, Hh6, Hh5, Hh4, Hh3, Hh2, Hh1, Hb7, Hb6, Hb5, Hb4, Hb3, Hb2, Hb1. cbn [b_overflow]. subst key.
    by apply (updated_rep _ d (w_buckets w) m F tbl e nx object).
  - intros k o [[<- <-]|[_ E]]%lookup_insert_Some; [done|]. by eapply (dr_keys _ _ _ _ _ Hr).
Qed.

(** The key is new: its bucket is in front of its chain, without an object yet. *)
Lemma set_absent w p d m F key object tbl b k h1 es first (i := chain_of own (hs_capacity d) key) :
  dict_rep w p d m F -> hs_table own (w_heap w) d (w_buckets w) tbl -> entries_map (concat tbl) m -> hs_count d = Z.of_nat (size m) ->
  (forall q n, hs_foreign (w_heap w) d tbl q n <-> F q n) -> tbl !! i = Some es -> hs_cells d !! i = Some (Some first) -> find_entry key es = None ->
  key <> NULL -> b <> NULL -> grown (w_heap w) b k h1 -> hs_small d -> Z.of_nat (size m) < 2 ^ 31 ->
  object <> NULL -> key <> p -> object <> p -> spare w 1 key -> spare w 1 object -> identical w key ->
  leaves (no_table h1) w p (<[key := object]> m) F (fun x => plus x object + plus x key)
    (let* w := install w p (Hashset (hs_capacity d) (hs_count d) (hs_buckets d) (<[i := Some b]> (hs_cells d)) (hs_lock d),
                            <[b := Bucket key NULL first]> (w_buckets w), h1) in
     let* w := retain w object in let* w := retain w key in let* w := set_bucket w b key object in
     let* w := add_count w p 1 in IODictionary_expandIfNeeded w p).
Proof.
  intros Hr Ht Hm Hc HF Hes Hcell Hnone Hnull Hb Hg Hsm Hsz Hobj Hkp Hop Hsk Hso Hid. unfold install.
  destruct (table_stage w _ p d _ (Hashset (hs_capacity d) (hs_count d) (hs_buckets d) (<[i := Some b]> (hs_cells d)) (hs_lock d))
    (stage_parts w w p d _ h1 (<[b := Bucket key NULL first]> (w_buckets w)) (stage_start _ _ _ _ _ Hr))) as (w1 & -> & Hs1 & Hh1 & Hb1). cbn [obind].
  destruct (retain_stage w w1 p _ _ object Hs1 Hop 1 Hso ltac:(lia) ltac:(lia)) as (w2 & -> & Hs2 & Hh2 & Hb2). cbn [obind].
  destruct (retain_stage w w2 p _ _ key Hs2 Hkp 1 Hsk) as (w3 & -> & Hs3 & Hh3 & Hb3); [cbn; destruct (_ =? _); lia|cbn; destruct (_ =? _); lia|]. cbn [obind].
  destruct (bucket_stage w w3 p _ _ b (Bucket key NULL first) key object Hs3) as (w4 & -> & Hs4 & Hh4 & Hb4);
    [rewrite Hb3, Hb2, Hb1; cbn; by rewrite lookup_insert_eq|]. cbn [obind].
  destruct (count_stage w w4 p _ _ 1 Hs4) as (w5 & -> & Hs5 & Hh5 & Hb5). cbn [obind].
  destruct (add_table own _ _ _ _ _ _ Ht Hm Hnull b k h1 es first object (u32 (hs_count d + 1)) Hes Hcell Hnone Hobj Hb Hg) as (Ht' & Hm' & Hmn & HF').
  eapply leaves_ext; [|intros x|eapply expand_leaves; [exact Hs5|exact Hsm| |]].
  - by rewrite Hh5, Hh4, Hh3, Hh2, Hh1.
  - cbn. unfold plus. lia.
  - rewrite Hh5, Hh4, Hh3, Hh2, Hh1, Hb5, Hb4, Hb3, Hb2, Hb1. cbn [b_overflow with_buckets with_heap w_heap w_buckets]. rewrite insert_insert_eq.
    eexists. split; [exact Ht'|]. split_and!; [done| |intros q n; rewrite <- HF; apply HF'].
    cbn. rewrite map_size_insert_None, u32_small by (done || lia). lia.
  - intros k' o [[<- <-]|[_ E]]%lookup_insert_Some; [done|]. by eapply (dr_keys _ _ _ _ _ Hr).
Qed.

(** What [setObjectForKey] needs of the objects it counts: key and object are
    alive, and when the key is there already, neither it nor its object is given up
    by the last reference, since both are released before anything is retained. *)
Record settable w (p key object : Z) m : Prop := {
  st_key : key <> p /\ spare w 1 key /\ identical w key;
  st_object : object <> p /\ spare w 1 object;
  st_old : forall o, m !! key = Some o -> droppable w p key o
}.

(** Why [setObjectForKey] may panic. *)
Definition set_refused w m (key : Z) : Prop := match m !! key with Some _ => no_table (w_heap w) | None => no_room (w_heap w) end.

Lemma dict_set w p d m F key object : dict_rep w p d m F -> hs_small d -> Z.of_nat (size m) < 2 ^ 31 -> settable w p key object m ->
  let r := IODictionary_setObjectForKey w p object key in
  leaves (set_refused w m key) w p (<[key := object]> m) F (fun x => plus x object + match m !! key with Some o => minus x o | None => plus x key end) r
  \/ (exists h', halloc (w_heap w) sizeof_bucket = Ok (NULL, h')) /\ leaves False w p m F (fun _ => 0) r.
Proof.
  intros Hr Hsm Hsz [(Hkp & Hsk & Hid) (Hop & Hso) Hold] r. subst r. unfold IODictionary_setObjectForKey, set_refused.
  pose proof Hsk as [Hnull _]. pose proof Hso as [Hobj _]. rewrite (proj2 (Z.eqb_neq object _)) by done.
  rewrite (dict_table _ _ _ _ _ Hr). cbn [obind]. rewrite (find2_agrees w p d m F) by done.
  pose proof Hr as [(s & n & Eo) (tbl & Ht & Hm & Hc & HF) Hk].
  destruct (key_chain own _ _ _ _ _ _ Ht Hm Hnull) as (es & q & Hes & Hl & E1 & E2 & E3 & Emap).
  unfold hashset_findBucket2. rewrite E1. cbn [obind]. rewrite E2. cbn [obind]. rewrite E3. cbn [obind].
  destruct (find_entry key es) as [e|] eqn:Ef; cbn [fmap option_fmap option_map] in *; rewrite Emap; cbn [fmap option_fmap option_map obind].
  - left. destruct (find_entry_Some _ _ _ Ef) as [He Hke]. destruct (slist_lookup _ es q e Hl He) as [Hea [nx Hn]].
    assert (He' : e ∈ concat tbl) by (by eapply concat_member).
    assert (Hde : e_data e <> NULL). { intros Hz. apply (eo_data _ (ht_entries _ _ _ _ _ Ht) e) in Hz; congruence. }
    assert (Ei : install w p (d, w_buckets w, w_heap w) = Ok w).
    { unfold install, set_table, object_at. cbn. rewrite Eo. cbn. unfold set_object, with_objects. cbn. rewrite insert_id by done. by destruct w. }
    rewrite Ei. cbn [obind]. rewrite (proj2 (Z.eqb_neq (e_addr e) _)) by done. unfold bucket_at at 1. rewrite Hn. cbn [of_option obind b_data b_key].
    rewrite (proj2 (Z.eqb_neq (e_data e) _)), Hke by done. pose proof (Hold _ Emap) as Hdrop. rewrite Hke in Hn.
    by apply (set_present w p d m F key object tbl e nx).
  - destruct (halloc_result (w_heap w) sizeof_bucket (ht_heap _ _ _ _ _ Ht) ltac:(done))
      as [E|[(h' & E & Hh' & Hl')|(b & k & h1 & E & Hb & _ & _ & _ & Hg)]]; rewrite E; cbn [obind].
    { by left; left. }
    { right. split; [by exists h'|]. change (NULL =? NULL) with true. cbn [obind]. unfold install.
      destruct (table_stage w _ p d _ d (stage_parts w w p d _ h' (w_buckets w) (stage_start _ _ _ _ _ Hr))) as (w1 & -> & Hs1 & Hh1 & Hb1).
      cbn [obind]. split; [|apply Hs1]. exists d. split; [apply Hs1| |intros x o Ex; eapply stage_identical; [exact Hs1|by eapply Hk]].
      rewrite Hh1, Hb1. exists tbl. split; [by apply (hs_table_heap own (w_heap w))|]. split_and!; [done|done|].
      intros x j. rewrite <- HF. unfold hs_foreign. cbn. by rewrite Hl'. }
    left. rewrite (proj2 (Z.eqb_neq b _)) by done. pose proof (ht_table _ _ _ _ _ Ht) as Htb.
    destruct (Forall2_lookup_r _ _ _ _ _ Htb Hes) as (c & Hcell & first & -> & _).
    rewrite cell_set_in by (by eapply lookup_lt_Some). cbn [obind].
    assert (q = first) as ->. { unfold cell_get in E2. rewrite Nat2Z.id, Hcell in E2. destruct (_ <? _); [done|]. by injection E2. }
    pose proof (set_absent w p d m F key object tbl b k h1 es first Hr Ht Hm Hc HF Hes Hcell Ef Hnull Hb Hg Hsm Hsz Hobj Hkp Hop Hsk Hso Hid) as Hl2.
    unfold install in *. destruct (table_stage w _ p d _ (Hashset (hs_capacity d) (hs_count d) (hs_buckets d)
        (<[chain_of own (hs_capacity d) key := Some b]> (hs_cells d)) (hs_lock d))
      (stage_parts w w p d _ h1 (<[b := Bucket key NULL first]> (w_buckets w)) (stage_start _ _ _ _ _ Hr))) as (w1 & E1' & Hs1 & Hh1 & Hb1).
    rewrite E1' in *. cbn [obind] in *. rewrite (proj2 (Z.eqb_neq b _)) by done. unfold bucket_at at 1. rewrite Hb1.
    cbn [with_buckets w_buckets]. rewrite lookup_insert_eq. refine (leaves_ext _ _ _ _ _ _ _ _ _ _ _ Hl2); [|done]. intros Hno. right. by exists b, h1.
Qed.

(** C14: a dictionary of objects refines a finite map, for keys compared by
    identity.  Its count is the size of the map; a search returns the map's object
    or a null pointer; removing a key deletes it and releases key and object once
    each; setting it puts the new object in place of the old one, which is
    released, and retains the new object, and the key if it is new.  No other
    object changes, growing and shrinking lose nothing and touch no other block of
    the heap.  A panic comes from the heap refusing the bucket or the array of
    chains the operation asks it for; when the heap has no bucket for a new
    key the dictionary stays as it is.  Key and object are alive; when the key is in
    the dictionary, someone else holds a reference to it and to its object too
    ([settable]): the code releases both before it retains anything, and giving up
    the last reference is outside this theorem ([set_again_faults]). *)
Theorem IODictionary_refines_map w p d m F key object :
  dict_rep w p d m F -> hs_small d -> Z.of_nat (size m) < 2 ^ 31 -> settable w p key object m ->
  IODictionary_count w p = Ok (Z.of_nat (size m)) /\
  IODictionary_objectForKey w p key = Ok (default NULL (m !! key)) /\
  leaves (no_table (w_heap w)) w p (delete key m) F (fun x => match m !! key with Some o => minus x key + minus x o | None => 0 end)
    (IODictionary_removeObjectForKey w p key) /\
  (let r := IODictionary_setObjectForKey w p object key in
   leaves (set_refused w m key) w p (<[key := object]> m) F (fun x => plus x object + match m !! key with Some o => minus x o | None => plus x key end) r
   \/ (exists h', halloc (w_heap w) sizeof_bucket = Ok (NULL, h')) /\ leaves False w p m F (fun _ => 0) r).
Proof.
  intros Hr Hsm Hsz Hst. pose proof Hst as [(Hkp & Hsk & Hid) (Hop & Hso) Hold]. pose proof Hsk as [Hnull _]. split_and!.
  - unfold IODictionary_count. rewrite (dict_table _ _ _ _ _ Hr). cbn. destruct Hr as [_ (tbl & _ & _ & -> & _) _]. done.
  - by eapply dict_get.
  - by apply (dict_remove w p d).
  - by apply (dict_set w p d).
Qed.
End Dictionary.

(** ** A concrete dictionary *)

(** Plain objects at 101, 102, 106 and 107, a dictionary at 8 and a set at 9. *)
Definition plain_object : object := Object 1 5 NoFields.
Definition io_world : world cell_heap :=
  World (CellHeap {[1 := 24; 2 := 20; 3 := 20]})
    (<[8 := Object 1 1 (OfDictionary demo_set)]>
      (<[9 := Object 1 1 (OfSet (Hashset 5 0 (3 * slot_size) (replicate 5 (Some 0)) false))]> (gset_to_gmap plain_object {[101; 102; 106; 107]}))) ∅ ∅.

Lemma io_dict_rep : exists F, dict_rep io_world 8 demo_set ∅ F.
Proof.
  exists (fun q n => live (w_heap io_world) q n /\ q <> 2 * slot_size). split; [by eexists _, _| |intros k o E; by rewrite lookup_empty in E].
  exists (replicate 5 []). split_and!.
  - split; cbn; try done.
    + by apply (table_empty ∅ 5).
    + split; [constructor|by intros e ?%elem_of_nil|by intros e ? ?%elem_of_nil].
    + apply (placed_empty own 5 5).
    + by intros e ?%elem_of_nil.
    + split; [|apply not_elem_of_nil]. exists 20, 2. split_and!; try done; unfold slot_size; lia.
  - intros k o. rewrite lookup_empty. split; [done|]. intros [_ [a ?%elem_of_nil]]. done.
  - done.
  - intros q n. unfold hs_foreign. cbn. split; [by intros (? & ? & _)|]. intros [? ?]. split_and!; try done. apply not_elem_of_nil.
Qed.

Lemma io_spare q : q ∈ [101; 102] -> q <> 8 /\ spare io_world 1 q /\ identical io_world q.
Proof.
  intros [->|[->|[]%elem_of_nil]%elem_of_cons]%elem_of_cons; (split; [done|]); (split; [split; [done|]|]); exists plain_object; cbn; (split; [reflexivity|]); done || lia.
Qed.

Lemma IODictionary_refines_map_witness :
  exists F, IODictionary_count io_world 8 = Ok 0 /\ IODictionary_objectForKey io_world 8 101 = Ok NULL /\
  leaves (no_table (w_heap io_world)) io_world 8 ∅ F (fun _ => 0) (IODictionary_removeObjectForKey io_world 8 101) /\
  (let r := IODictionary_setObjectForKey io_world 8 102 101 in
   leaves (set_refused io_world ∅ 101) io_world 8 {[101 := 102]} F (fun x => plus x 102 + plus x 101) r
   \/ (exists h', halloc (w_heap io_world) sizeof_bucket = Ok (NULL, h')) /\ leaves False io_world 8 ∅ F (fun _ => 0) r).
Proof.
  destruct io_dict_rep as [F Hr]. exists F. destruct (io_spare 101) as (? & ? & ?); [by left|].
  destruct (io_spare 102) as (? & ? & ?); [by right; left|].
  apply (IODictionary_refines_map io_world 8 demo_set ∅ F 101 102 Hr); [unfold hs_small; cbn; lia|rewrite map_size_empty; lia|]. by split.
Defined.

(** ** What goes wrong *)

Definition retains (q : Z) (w : world cell_heap) : option Z := ob_retain <$> w_objects w !! q.
Definition seen {A} (f : world cell_heap -> A) (r : outcome (world cell_heap)) : option A := match r with Ok w => Some (f w) | _ => None end.

(** The test for an old object in [addObject] finds the object that is being added:
    a set neither counts nor retains what is put into it, and taking it out
    releases a reference the set never had and makes the count wrap. *)
Lemma set_does_not_retain :
  let added := IOSet_addObject io_world 9 101 in
  seen (fun w => (IODictionary_count w 9, retains 101 w, IOSet_containsObject w 9 101)) added = Some (Ok 0, Some 5, Ok true)
  /\ seen (fun w => (IODictionary_count w 9, retains 101 w)) (let* w := added in IOSet_removeObject w 9 101) = Some (Ok (2 ^ 32 - 1), Some 4).
Proof. by vm_compute. Qed.

(** A removed key leaves an empty bucket, whose null key ends an iteration early. *)
Lemma iteration_stops :
  let r := let* w := IODictionary_setObjectForKey io_world 8 102 101 in
           let* w := IODictionary_setObjectForKey w 8 107 106 in IODictionary_removeObjectForKey w 8 106 in
  seen (fun w => (IODictionary_count w 8, IODictionary_objectForKey w 8 101,
                  let* (k, _) := nextObject w true 8 (Iterator NULL 0) in Ok k)) r = Some (Ok 1, Ok 102, Ok NULL).
Proof. by vm_compute. Qed.

(** The old object is released before the new one is retained: setting an object
    again that only the dictionary holds uses it after it has been freed. *)
Lemma set_again_faults :
  let w := with_objects io_world (<[4 * slot_size := Object 1 1 NoFields]> (w_objects io_world)) in
  let w := with_heap w (CellHeap {[1 := 24; 2 := 20; 3 := 20; 4 := 16]}) in
  (let* w := IODictionary_setObjectForKey w 8 (4 * slot_size) 101 in
   let* w := release w (4 * slot_size) in
   IODictionary_setObjectForKey w 8 (4 * slot_size) 101) = Fault.
Proof. by vm_compute. Qed.
