(* ===== verification/IoObjectCorrect.v ===== *)
(** * Objects: equality, numbers and the last reference

    Objects that are equal have the same hash, which the dictionaries rely on; a
    number is read back as it was stored; and the last reference of an array or of
    a pool gives back what they hold.  Then the places where the classes do
    something else than they say. *)

From S2P Require Import Prelude Pages HeapSpec CellHeap Block Array HashSet IoObject IoArray IoDictionary.

(** ** Equality and hashes *)

Section Equal.
Context {H : Type} `{KernelHeap H}.
Implicit Types w : world H.

(** two objects that [isEqual] takes for the same have the same [hash], so a
    dictionary that looks for an equal key looks in the right chain. *)
Theorem equal_same_hash w p q n : isEqual w p q = Ok true -> hash w p = Ok n -> hash w q = Ok n.
Proof.
  unfold isEqual, hash. destruct (object_at w p) as [o| | |] eqn:Ep; cbn [obind]; try done.
  destruct (Z.eqb_spec p q) as [<-|Hne].
  { intros _. by rewrite Ep. }
  destruct (ob_fields o) as [|string text|t buffer bits| | | | | | | | |] eqn:Ef; try done.
  - unfold IOString_isEqual. rewrite (proj2 (Z.eqb_neq _ _)) by done.
    destruct (isSubclassOf w q (ob_symbol o)) as [[]| | |]; cbn [obind]; try done. unfold string_text.
    destruct (object_at w q) as [o'| | |]; cbn [obind]; try done. destruct (ob_fields o'); cbn; try done.
    intros [= <-%bool_decide_eq_true]. done.
  - unfold IONumber_isEqual. rewrite (proj2 (Z.eqb_neq _ _)) by done.
    destruct (isSubclassOf w q (ob_symbol o)) as [[]| | |]; cbn [obind]; try done.
    destruct (object_at w q) as [o'| | |]; cbn [obind]; try done. destruct (ob_fields o'); cbn; try done.
    intros [= [<-%bool_decide_eq_true <-%Z.eqb_eq]%andb_prop]. done.
Qed.
End Equal.

(** Two strings with the same text, at 5 and 6. *)
Definition two_strings : world cell_heap :=
  World (CellHeap ∅) {[5 := Object 1 1 (StringFields 100 [97; 98]); 6 := Object 1 1 (StringFields 200 [97; 98])]} ∅ {[1 := NULL]}.

Lemma equal_same_hash_witness : hash two_strings 6 = Ok (string_hash [97; 98]).
Proof. by apply (equal_same_hash two_strings 5 6); vm_compute. Defined.

(** ** Numbers *)

(** A value of a type is one that the conversion to it leaves alone. *)
Lemma signed_unsigned n v : 0 < n -> signed_bits n (unsigned_bits n v) = signed_bits n v.
Proof. intros Hn. unfold signed_bits, unsigned_bits. by rewrite Zplus_mod_idemp_l. Qed.

Lemma unsigned_signed n v : 0 < n -> unsigned_bits n (signed_bits n v) = unsigned_bits n v.
Proof.
  intros Hn. unfold signed_bits, unsigned_bits. rewrite <- Zminus_mod_idemp_l, Z.mod_mod, Zminus_mod_idemp_l by lia. f_equal. lia.
Qed.

Lemma signed_range n v : 0 < n -> - 2 ^ (n - 1) <= signed_bits n v < 2 ^ (n - 1).
Proof.
  intros Hn. unfold signed_bits. pose proof (Z.mod_pos_bound (v + 2 ^ (n - 1)) (2 ^ n) ltac:(lia)).
  replace (2 ^ n) with (2 * 2 ^ (n - 1)) in * by (rewrite <- Z.pow_succ_r by lia; f_equal; lia). lia.
Qed.

Lemma signed_id n v : 0 < n -> - 2 ^ (n - 1) <= v < 2 ^ (n - 1) -> signed_bits n v = v.
Proof.
  intros Hn Hv. unfold signed_bits. rewrite Z.mod_small; [lia|].
  replace (2 ^ n) with (2 * 2 ^ (n - 1)) by (rewrite <- Z.pow_succ_r by lia; f_equal; lia). lia.
Qed.

Lemma size_pos t : 0 < 8 * number_size t.
Proof. destruct t; cbn; lia. Qed.

Section Numbers.
Context {H : Type} `{KernelHeap H}.
Implicit Types w : world H.

(** a number is read back as it was stored, by the accessor of its own type; a
    signed one also by the accessor of a wider signed type. *)
Theorem IONumber_roundtrip w p t val w' to : IONumber_initWithBuffer w p t val = Ok (p, w') -> p <> NULL -> convert t val = val ->
  to = t \/ (number_signed t = true /\ number_signed to = true /\ number_size t <= number_size to) -> IONumber_value to w' p = Ok val.
Proof.
  intros E Hp Hv Hto. unfold IONumber_initWithBuffer in E. destruct (kalloc w (number_size t)) as [[buffer w1]| | |]; cbn [obind] in E; try done.
  destruct (buffer =? NULL). { destruct (release w1 p); cbn [obind] in E; try done. by injection E as <-. }
  unfold set_fields in E. destruct (object_at w1 p) as [o| | |]; cbn [obind] in E; try done. injection E as <-.
  unfold IONumber_value, object_at. cbn. rewrite lookup_insert_eq. cbn. f_equal. unfold number_access.
  rewrite signed_unsigned by apply size_pos. destruct Hto as [->|(Hs1 & Hs2 & Hle)].
  - unfold convert in *. destruct (number_signed t).
    + by rewrite !Hv.
    + by rewrite unsigned_signed by apply size_pos.
  - unfold convert in *. rewrite Hs1 in Hv. rewrite Hs2, Hv. apply signed_id; [apply size_pos|].
    pose proof (signed_range (8 * number_size t) val (size_pos t)) as Hr. rewrite Hv in Hr.
    assert (2 ^ (8 * number_size t - 1) <= 2 ^ (8 * number_size to - 1)) by (apply Z.pow_le_mono_r; lia). lia.
Qed.
End Numbers.

Definition empty_number : world cell_heap := World (CellHeap ∅) {[5 := Object 1 1 (NumberFields kIONumberTypeInt8 NULL 0)]} ∅ ∅.
Definition stored_number (t : number_type) (val : Z) : world cell_heap :=
  match IONumber_initWithBuffer empty_number 5 t val with Ok (_, w) => w | _ => empty_number end.

Lemma IONumber_roundtrip_witness : IONumber_value kIONumberTypeInt64 (stored_number kIONumberTypeInt16 (-300)) 5 = Ok (-300).
Proof. by apply (IONumber_roundtrip empty_number 5 kIONumberTypeInt16 (-300)); [vm_compute..|right]. Defined.

(** An unsigned number whose top bit is set is widened as a signed one. *)
Lemma unsigned_widened : IONumber_value kIONumberTypeUInt32 (stored_number kIONumberTypeUInt8 200) 5 = Ok (2 ^ 32 - 56).
Proof. by vm_compute. Qed.

(** ** The last reference *)

(** How often an object is in a list. *)
Definition occurs (q : Z) (xs : list Z) : Z := Z.of_nat (count_occ Z.eq_dec xs q).

Section Last.
Context {H : Type} `{KernelHeapOk H}.
Implicit Types w : world H.

(** Every object of [xs] has more references than it occurs there. *)
Definition enough w (xs : list Z) : Prop :=
  forall q, q ∈ xs -> q <> NULL /\ exists o, w_objects w !! q = Some o /\ occurs q xs < ob_retain o < 2 ^ 32.

Definition lowered w w' (xs : list Z) : Prop :=
  w_heap w' = w_heap w /\ w_buckets w' = w_buckets w /\ w_super w' = w_super w /\
  forall q, w_objects w' !! q = (fun o => counted (- occurs q xs) o) <$> w_objects w !! q.

Lemma object_occurs_cons q x xs : occurs q (x :: xs) = (if x =? q then 1 else 0) + occurs q xs.
Proof. unfold occurs. cbn. destruct (Z.eq_dec x q) as [->|Hne]; [rewrite Z.eqb_refl|rewrite (proj2 (Z.eqb_neq _ _)) by done]; lia. Qed.

Lemma release_one f w q o : q <> NULL -> w_objects w !! q = Some o -> 1 < ob_retain o < 2 ^ 32 ->
  release_at (S f) w q = Ok (set_object w q (counted (-1) o)).
Proof.
  intros Hq E Hb. cbn [release_at]. rewrite (proj2 (Z.eqb_neq _ _)) by done. unfold object_at. rewrite E. cbn [of_option obind].
  rewrite u32_small by lia. rewrite (proj2 (Z.eqb_neq (ob_retain o - 1) _)) by lia. done.
Qed.

Lemma release_last f w p o : p <> NULL -> w_objects w !! p = Some o -> ob_retain o = 1 ->
  release_at (S f) w p = (let* w := free_object (release_at f) f (set_retain w p o 0) p (ob_fields o) in
                          let* w := kfree w p in Ok (with_objects w (delete p (w_objects w)))).
Proof.
  intros Hp E Hr. cbn [release_at]. rewrite (proj2 (Z.eqb_neq _ _)) by done. unfold object_at. rewrite E. cbn [of_option obind].
  rewrite Hr. done.
Qed.

Lemma release_cells_lowers f cells : forall ys pre w, holds cells (pre ++ ys) -> enough w ys ->
  exists w', release_cells (release_at (S f)) (length ys) cells (Z.of_nat (length pre)) w = Ok w' /\ lowered w w' ys.
Proof.
  induction ys as [|y ys IH]; intros pre w Hh He; cbn [length release_cells].
  { exists w. split; [done|]. split_and!; try done. intros q. destruct (w_objects w !! q) as [[? ? ?]|]; cbn; [|done].
    unfold counted. cbn. by rewrite Z.add_0_r. }
  rewrite (holds_get cells _ (length pre) y Hh) by (by apply list_lookup_middle). cbn [obind].
  destruct (He y) as (Hy & o & E & Hb); [apply elem_of_cons; by left|]. rewrite object_occurs_cons, Z.eqb_refl in Hb.
  assert (0 <= occurs y ys) by (unfold occurs; lia). rewrite (release_one f w y o) by (done || lia). cbn [obind].
  replace (Z.of_nat (length pre) + 1) with (Z.of_nat (length (pre ++ [y]))) by (rewrite length_app; cbn; lia).
  destruct (IH (pre ++ [y]) (set_object w y (counted (-1) o))) as (w' & E' & Hh' & Hb' & Hs' & Ho'); [by rewrite <- app_assoc| |].
  { intros q Hq. destruct (He q) as (Hq0 & o' & Eq & Hbq); [apply elem_of_cons; by right|]. rewrite object_occurs_cons in Hbq. split; [done|]. cbn.
    destruct (Z.eqb_spec y q) as [->|Hne]; [rewrite lookup_insert_eq|rewrite lookup_insert_ne by done].
    - eexists. split; [done|]. rewrite E in Eq. injection Eq as <-. cbn. lia.
    - exists o'. split; [done|]. lia. }
  exists w'. split; [done|]. split_and!; try done. intros q. rewrite Ho', object_occurs_cons. cbn. destruct (Z.eqb_spec y q) as [->|Hne].
  - rewrite lookup_insert_eq, E. cbn. unfold counted. cbn. do 2 f_equal. lia.
  - rewrite lookup_insert_ne by done. done.
Qed.

Lemma kfree_live w p n : heap_ok (w_heap w) -> live (w_heap w) p n ->
  exists h, kfree w p = Ok (with_heap w h) /\ heap_ok h /\ forall q k, live h q k <-> live (w_heap w) q k /\ q <> p.
Proof. intros Hh Hl. destruct (hfree_ok _ _ _ Hh Hl) as (h & E & Hh' & Hl'). exists h. unfold kfree. by rewrite E. Qed.

(** with its last reference an array goes: its members lose one reference for
    each time they are in it, the array and its block are freed, and nothing else
    changes. *)
Theorem IOArray_last_release w p xs a s n : array_rep w p xs a -> w_objects w !! p = Some (Object s 1 (OfArray a)) ->
  p <> NULL -> p ∉ xs -> enough w xs -> live (w_heap w) p n -> p <> ar_objects a ->
  exists w', release w p = Ok w' /\ w_objects w' !! p = None /\ recounted w w' p (fun q => - occurs q xs) /\
    heap_ok (w_heap w') /\ forall q k, live (w_heap w') q k <-> live (w_heap w) q k /\ q <> p /\ q <> ar_objects a.
Proof.
  intros Hr Ep Hp Hnot He Hl Hne. unfold release.
  rewrite (release_last _ w p _ Hp Ep) by done. cbn [ob_fields free_object]. unfold IOArray_free.
  set (w0 := set_retain w p (Object s 1 (OfArray a)) 0).
  rewrite (ap_count _ _ _ _ Hr), Nat2Z.id.
  destruct (release_cells_lowers (size (w_objects w)) (ar_cells a) xs [] w0) as (w1 & E1 & Hh1 & Hb1 & _ & Ho1).
  { exact (ap_holds _ _ _ _ Hr). }
  { intros q Hq. destruct (He q Hq) as (? & o & E & Hb). split; [done|]. exists o. split; [|done]. cbn. rewrite lookup_insert_ne by (intros ->; by apply Hnot). done. }
  change (Z.of_nat (length ([] : list Z))) with 0 in E1. rewrite E1. cbn [obind].
  destruct (ap_live _ _ _ _ Hr) as [k Hk].
  destruct (kfree_live w1 (ar_objects a) k) as (h2 & -> & Hh2 & Hl2); [rewrite Hh1; apply Hr|by rewrite Hh1|]. cbn [obind].
  destruct (kfree_live (with_heap w1 h2) p n) as (h3 & -> & Hh3 & Hl3); [done|apply Hl2; rewrite Hh1; split; [exact Hl|done]|]. cbn [obind].
  eexists. split; [done|]. cbn. split_and!.
  - by rewrite lookup_delete_eq.
  - intros q Hq. cbn. rewrite lookup_delete_ne, Ho1 by done. cbn. by rewrite lookup_insert_ne by done.
  - done.
  - intros q j. rewrite Hl3. cbn. rewrite Hl2, Hh1. cbn. tauto.
Qed.

(** a pool on top of another one, released for the last time, makes the other
    one the thread's pool again and releases the objects it was given, once for
    each time. *)
Theorem IOAutoreleasePool_last_release w p xs po s n k so no t :
  w_objects w !! p = Some (Object s 1 (OfPool po)) -> w_objects w !! po_owner po = Some (Object so no (OfThread t)) -> th_topPool t = p ->
  holds (po_cells po) xs -> po_count po = Z.of_nat (length xs) -> po_owner po <> NULL -> po_previous po <> NULL -> p <> NULL -> p <> po_owner po ->
  p ∉ xs -> po_owner po ∉ xs -> enough w xs -> heap_ok (w_heap w) -> live (w_heap w) p n -> live (w_heap w) (po_objects po) k -> p <> po_objects po ->
  exists w', release w p = Ok w' /\ w_objects w' !! p = None /\
    w_objects w' !! po_owner po = Some (Object so no (OfThread (ThreadFields (th_properties t) (po_previous po) (th_name t)))) /\
    (forall q, q <> p -> q <> po_owner po -> w_objects w' !! q = (fun o => counted (- occurs q xs) o) <$> w_objects w !! q) /\
    heap_ok (w_heap w') /\ forall q j, live (w_heap w') q j <-> live (w_heap w) q j /\ q <> p /\ q <> po_objects po.
Proof.
  intros Ep Eo Htop Hh Hc Ho0 Hpr Hp Hpo Hnp Hno He Hok Hlp Hlo Hne.
  unfold release. rewrite (release_last _ w p _ Hp Ep) by done. cbn [ob_fields free_object]. unfold IOAutoreleasePool_free.
  set (w0 := set_retain w p (Object s 1 (OfPool po)) 0).
  assert (E0 : pool_at w0 p = Ok po) by (unfold pool_at, object_at; cbn; by rewrite lookup_insert_eq).
  assert (Et : w_objects w0 !! po_owner po = Some (Object so no (OfThread t))) by (cbn; by rewrite lookup_insert_ne).
  rewrite E0. cbn [obind]. rewrite (proj2 (Z.eqb_neq (po_owner po) _)) by done. unfold topPool, object_at. rewrite Et. cbn [of_option obind ob_fields].
  rewrite Htop, Z.eqb_refl. cbn [negb]. rewrite (proj2 (Z.eqb_neq (po_previous po) _)) by done. cbn [negb].
  unfold set_topPool, object_at. rewrite Et. cbn [of_option obind ob_fields ob_symbol ob_retain].
  set (w1 := set_object w0 (po_owner po) _). rewrite Hc, Nat2Z.id.
  destruct (release_cells_lowers (size (w_objects w)) (po_cells po) xs [] w1) as (w2 & E2 & Hh2 & Hb2 & _ & Ho2); [done| |].
  { intros q Hq. destruct (He q Hq) as (? & o & E & Hb). split; [done|]. exists o. split; [|done]. cbn.
    rewrite !lookup_insert_ne by (intros <-; (by apply Hnp) || (by apply Hno)). done. }
  change (Z.of_nat (length ([] : list Z))) with 0 in E2. rewrite E2. cbn [obind].
  destruct (kfree_live w2 (po_objects po) k) as (h3 & -> & Hh3 & Hl3); [by rewrite Hh2|by rewrite Hh2|]. cbn [obind].
  destruct (kfree_live (with_heap w2 h3) p n) as (h4 & -> & Hh4 & Hl4); [done|apply Hl3; rewrite Hh2; split; [exact Hlp|done]|]. cbn [obind].
  eexists. split; [done|]. cbn. split_and!.
  - by rewrite lookup_delete_eq.
  - rewrite lookup_delete_ne, Ho2 by done. cbn. rewrite lookup_insert_eq. cbn. unfold counted. cbn.
    assert (occurs (po_owner po) xs = 0) as -> by (unfold occurs; rewrite (proj1 (count_occ_not_In Z.eq_dec xs _)); [done|by rewrite <- list_elem_of_In]).
    by rewrite Z.add_0_r.
  - intros q Hq1 Hq2. rewrite lookup_delete_ne, Ho2 by done. cbn. by rewrite !lookup_insert_ne by done.
  - done.
  - intros q j. rewrite Hl4. cbn. rewrite Hl3, Hh2. cbn. tauto.
Qed.
End Last.

(** ** What the classes do otherwise *)

(** Data that has been appended to reports the length of the last piece, and the
    next piece is put behind so many bytes. *)
Definition some_data : world cell_heap := World (CellHeap {[1 := 16; 2 := 3]}) {[5 := Object 1 1 (DataFields (2 * slot_size) [1; 2; 3] 3)]} ∅ ∅.
Definition data_of (r : outcome (world cell_heap)) : option (list Z * Z) :=
  match r with
  | Ok w => match w_objects w !! 5 with Some (Object _ _ (DataFields _ bytes n)) => Some (bytes, n) | _ => None end
  | _ => None
  end.

Lemma append_forgets :
  data_of (IOData_appendBytes some_data 5 [4]) = Some ([1; 2; 3; 4], 1)
  /\ data_of (let* w := IOData_appendBytes some_data 5 [4] in IOData_appendBytes w 5 [9]) = Some ([1; 9], 1).
Proof. by vm_compute. Qed.

(** Two dates of the same time are never equal: the test of the class is inverted. *)
Definition two_dates : world cell_heap :=
  World (CellHeap ∅) {[5 := Object 1 1 (DateFields 1000); 6 := Object 1 1 (DateFields 1000)]} ∅ {[1 := NULL]}.

Lemma dates_differ : IODate_isEqual two_dates 5 6 = Ok false.
Proof. by vm_compute. Qed.
