(* ===== verification/IoEvents.v ===== *)
(** * Event sources and commands between threads (libkernel/libio)

    A driver's thread runs a loop over event sources.  An interrupt source counts
    the interrupts its handler sees and tells its action how many there were since
    the last time; a timer source runs its action when its time has come; a remote
    command runs an action on the loop's thread for a caller on another one.  The
    interrupt handler and the caller run at any time: these parts are step
    relations over the shared fields, in which a section under the command's lock
    is one step. *)

From S2P Require Import Prelude IoArray.

(** ** Interrupt sources (IOInterruptEventSource.cpp) *)

Module InterruptSource.

(** [_count] and [_consumed], whether there is an action, and what the loop is
    doing: between the reading of the count and the storing of it the action runs. *)
Inductive work := Idle | Acting (tcount : Z).
Record source := Source { is_count : Z; is_consumed : Z; is_action : bool; is_work : work; is_reported : list Z }.

Definition handleInterrupt (s : source) : source :=
  Source (u32 (is_count s + 1)) (is_consumed s) (is_action s) (is_work s) (is_reported s).

(** [doWork] up to the end of its action, which is told of [missed] interrupts. *)
Definition doWork_begin (s : source) : source :=
  let tcount := is_count s in
  let missed := u32 (tcount - is_consumed s) in
  if (0 <? missed) && is_action s
  then Source (is_count s) (is_consumed s) (is_action s) (Acting tcount) (missed :: is_reported s)
  else s.

(** [_consumed = tcount;] *)
Definition doWork_end (s : source) : source :=
  match is_work s with
  | Acting tcount => Source (is_count s) tcount (is_action s) Idle (is_reported s)
  | Idle => s
  end.

(** A source with the number of interrupts raised so far. *)
Inductive reaches : source -> nat -> Prop :=
| reaches_start a : reaches (Source 0 0 a Idle []) 0
| reaches_interrupt s n : reaches s n -> reaches (handleInterrupt s) (S n)
| reaches_other s s' n : reaches s n -> is_work s = Idle /\ s' = doWork_begin s \/ (exists t, is_work s = Acting t) /\ s' = doWork_end s -> reaches s' n.

Definition total (s : source) : Z := foldr Z.add 0 (is_reported s).

(** The interrupts reported are the ones up to the count the loop has seen. *)
Definition seen (s : source) : Z := match is_work s with Idle => is_consumed s | Acting t => t end.

Lemma accounted s n : reaches s n -> Z.of_nat n < 2 ^ 32 ->
  is_count s = Z.of_nat n /\ total s = seen s /\ 0 <= is_consumed s <= seen s /\ seen s <= Z.of_nat n.
Proof.
  induction 1 as [a|s n Hr IH|s s' n Hr IH Hs]; intros Hn.
  - by cbn.
  - destruct IH as (Hc & Ht & Hcs & Hsn); [lia|]. unfold handleInterrupt, total, seen in *. cbn. rewrite Hc, u32_small by lia. lia.
  - destruct (IH Hn) as (Hc & Ht & Hcs & Hsn). destruct Hs as [[Hw ->]|[[t Hw] ->]].
    + unfold doWork_begin, seen in *. rewrite Hw in *. rewrite u32_small by lia.
      destruct (Z.ltb_spec 0 (is_count s - is_consumed s)); cbn [andb]; [destruct (is_action s)|]; cbn; rewrite ?Hw; [|lia|lia].
      unfold total in *. cbn. lia.
    + unfold doWork_end, seen, total in *. rewrite Hw in *. cbn. lia.
Qed.

(** C16: no interrupt is lost and none is told twice, however interrupts and the
    loop are interleaved: what the action has been told of and what is still to be
    told add up to the interrupts raised; and after a round of the loop with an
    action, in which no interrupt comes, nothing is left. *)
Theorem interrupts_accounted s n : reaches s n -> Z.of_nat n < 2 ^ 32 ->
  total s + (is_count s - seen s) = Z.of_nat n /\
  (is_work s = Idle -> is_action s = true -> total (doWork_end (doWork_begin s)) = Z.of_nat n).
Proof.
  intros Hr Hn. destruct (accounted s n Hr Hn) as (Hc & Ht & Hcs & Hsn). split; [lia|]. intros Hw Ha.
  destruct (accounted (doWork_begin s) n) as (Hc' & Ht' & _ & _); [eapply reaches_other; [done|by left]|done|].
  assert (Hsn' : seen (doWork_begin s) = Z.of_nat n).
  { unfold doWork_begin, seen in *. rewrite Hw, Ha in *. rewrite u32_small by lia. destruct (Z.ltb_spec 0 (is_count s - is_consumed s)); cbn; [lia|]. rewrite Hw. lia. }
  rewrite <- Hsn', <- Ht'. unfold doWork_end, total. by destruct (is_work (doWork_begin s)).
Qed.

Lemma interrupts_accounted_witness :
  let s := handleInterrupt (doWork_begin (handleInterrupt (handleInterrupt (Source 0 0 true Idle [])))) in
  total s + (is_count s - seen s) = 3 /\ (is_work s = Idle -> is_action s = true -> total (doWork_end (doWork_begin s)) = 3).
Proof.
  apply (interrupts_accounted _ 3); [|lia]. apply reaches_interrupt.
  eapply reaches_other; [apply reaches_interrupt, reaches_interrupt, reaches_start|by left].
Defined.
End InterruptSource.

(** ** Remote commands (IORemoteCommand.cpp) *)

Module RemoteCommand.

Inductive return_t := kIOReturnSuccess | kIOReturnTimeout.
(** The caller of [executeCommand]: not yet, in its loop, or back. *)
Inductive caller_t := Before | Sleeping | Returned (r : return_t).
(** The loop's thread in [doWork]: outside, before and after the action. *)
Inductive worker_t := Outside | Running | Ran.

(** The flags of the command, its arguments, and the arguments of the runs of its
    action so far. *)
Record command := Command {
  rc_waiting : bool; rc_cancelled : bool; rc_executing : bool; rc_executed : bool;
  rc_args : list Z; rc_caller : caller_t; rc_worker : worker_t; rc_runs : list (list Z)
}.

(** A new command: the memory of objects is cleared. *)
Definition fresh : command := Command false false false false [] Before Outside [].

(** [executeCommand], the section before its loop. *)
Definition request_command (args : list Z) (c : command) : command :=
  Command true false (rc_executing c) (rc_executed c) args Sleeping (rc_worker c) (rc_runs c).

(** One round of its loop, [timeout] telling whether [_timeout] is set. *)
Definition look (timeout : bool) (c : command) : command :=
  if rc_executed c then Command (rc_waiting c) (rc_cancelled c) (rc_executing c) (rc_executed c) (rc_args c) (Returned kIOReturnSuccess) (rc_worker c) (rc_runs c)
  else if timeout && negb (rc_executing c)
  then Command (rc_waiting c) true (rc_executing c) (rc_executed c) (rc_args c) (Returned kIOReturnTimeout) (rc_worker c) (rc_runs c)
  else c.

(** [doWork]: the first section, the action, and the second section. *)
Definition begin_work (c : command) : command :=
  if negb (rc_waiting c) || rc_cancelled c then c
  else Command (rc_waiting c) (rc_cancelled c) true (rc_executed c) (rc_args c) (rc_caller c) Running (rc_runs c).

Definition act (c : command) : command :=
  Command (rc_waiting c) (rc_cancelled c) (rc_executing c) (rc_executed c) (rc_args c) (rc_caller c) Ran (rc_args c :: rc_runs c).

Definition end_work (c : command) : command :=
  Command false (rc_cancelled c) false true (rc_args c) (rc_caller c) Outside (rc_runs c).

(** The two threads side by side.  [step_again] is the caller's next call. *)
Inductive step (timeout : bool) : command -> command -> Prop :=
| step_look c : rc_caller c = Sleeping -> step timeout c (look timeout c)
| step_begin c : rc_worker c = Outside -> step timeout c (begin_work c)
| step_act c : rc_worker c = Running -> step timeout c (act c)
| step_end c : rc_worker c = Ran -> step timeout c (end_work c).

(** The states of one call with the arguments [args]. *)
Inductive reachable (timeout : bool) (start : command) (args : list Z) : command -> Prop :=
| reach_request : reachable timeout start args (request_command args start)
| reach_step c c' : reachable timeout start args c -> step timeout c c' -> reachable timeout start args c'.

(** Where the command stands. *)
Record invariant (args : list Z) (c : command) : Prop := {
  iv_args : rc_args c = args;
  iv_working : rc_executing c = true <-> rc_worker c <> Outside;
  iv_runs : rc_runs c = match rc_worker c with Ran => [args] | Running => [] | Outside => if rc_executed c then [args] else [] end;
  iv_executed : rc_executed c = true -> rc_worker c = Outside /\ rc_waiting c = false;
  iv_success : rc_caller c = Returned kIOReturnSuccess -> rc_executed c = true;
  iv_timeout : rc_caller c = Returned kIOReturnTimeout -> rc_cancelled c = true /\ rc_worker c = Outside /\ rc_executed c = false;
  iv_called : rc_caller c <> Before
}.

Lemma reachable_invariant timeout args c : reachable timeout fresh args c -> invariant args c.
Proof.
  induction 1 as [|c c' _ [Ha Hw Hr He Hs Ht Hb] Hstep]; [by split; cbn|].
  destruct Hstep as [c Hc|c Hc|c Hc|c Hc]; destruct c as [wa ca ex ed ar cl wk ru]; unfold look, begin_work, act, end_work; cbn in *; subst.
  - destruct ed; [by split; cbn|]. destruct (timeout && negb ex) eqn:Et; [|by split].
    apply andb_prop in Et as [_ Et%negb_true_iff]. subst ex. destruct wk; split; cbn; naive_solver.
  - destruct wa, ca, ed; split; cbn; naive_solver.
  - destruct ed, ex; split; cbn; naive_solver.
  - destruct ed, ex; split; cbn; naive_solver.
Qed.

(** C15: a command that nobody has executed before.  However the caller and the
    loop's thread are interleaved, a caller that is told of success has had its
    action run exactly once, with its arguments; one that is told of a timeout has
    not had it run, and it will not be run later. *)
Theorem first_command_exact timeout args c : reachable timeout fresh args c ->
  (rc_caller c = Returned kIOReturnSuccess -> rc_runs c = [args]) /\
  (rc_caller c = Returned kIOReturnTimeout -> rc_runs c = []).
Proof.
  intros [Ha Hw Hr He Hs Ht Hb]%reachable_invariant. split; intros Hc.
  - specialize (Hs Hc). destruct (He Hs) as [Ho _]. rewrite Hr, Ho. by rewrite Hs.
  - destruct (Ht Hc) as (_ & Ho & Hx). rewrite Hr, Ho. by rewrite Hx.
Qed.

Definition served : command := look false (end_work (act (begin_work (request_command [1; 2] fresh)))).

Lemma served_reachable : reachable false fresh [1; 2] served.
Proof.
  eapply reach_step; [|by apply step_look]. eapply reach_step; [|by apply step_end]. eapply reach_step; [|by apply step_act].
  eapply reach_step; [|by apply step_begin]. apply reach_request.
Qed.

Lemma first_command_exact_witness :
  (rc_caller served = Returned kIOReturnSuccess -> rc_runs served = [[1; 2]]) /\ (rc_caller served = Returned kIOReturnTimeout -> rc_runs served = []).
Proof. apply (first_command_exact false [1; 2]). apply served_reachable. Defined.

(** The flag that an action has been executed is never taken back: the next call of
    the same command is told of success at once, and its action has not run. *)
Lemma second_command_lies :
  let c := look false (request_command [3] served) in rc_caller c = Returned kIOReturnSuccess /\ rc_runs c = [[1; 2]].
Proof. done. Qed.
End RemoteCommand.

(** ** The loop and its timers (IORunLoop.cpp, IOEventSource.cpp, IOTimerEventSource.cpp) *)

Module RunLoop.

Inductive kind := Other | Timer (fireDate fireInterval : Z) (repeats : bool).
Record source := Source { so_enabled : bool; so_attached : bool; so_kind : kind }.

(** The array of sources, by the theorem on arrays its list; the set of sources to
    be removed; the sources; and the actions run so far. *)
Record loop := Loop {
  l_sources : list Z; l_removed : list Z; l_nextStep : Z; l_doingStep : bool; l_store : gmap Z source; l_worked : list Z
}.

Definition with_store (l : loop) (st : gmap Z source) : loop := Loop (l_sources l) (l_removed l) (l_nextStep l) (l_doingStep l) st (l_worked l).
Definition with_sources (l : loop) (ss rs : list Z) : loop := Loop ss rs (l_nextStep l) (l_doingStep l) (l_store l) (l_worked l).
Definition with_next (l : loop) (n : Z) : loop := Loop (l_sources l) (l_removed l) n (l_doingStep l) (l_store l) (l_worked l).
Definition doing (l : loop) (b : bool) : loop := Loop (l_sources l) (l_removed l) (l_nextStep l) b (l_store l) (l_worked l).

(** [initWithDate] for a timer at [firedate], made at [current]. *)
Definition initWithDate (firedate current : Z) (repeats : bool) : source := Source false false (Timer firedate (u64 (firedate - current)) repeats).

Definition setRunLoop (attach : bool) (s : source) : source :=
  let enabled := if attach then so_enabled s else false in
  Source (if attach && negb enabled then true else enabled) attach (so_kind s).

Definition on_source (l : loop) (x : Z) (f : source -> source) : outcome loop :=
  let* s := of_option (l_store l !! x) in Ok (with_store l (<[x := f s]> (l_store l))).

(** [IOArray::removeObject] by identity. *)
Definition remove_object (xs : list Z) (x : Z) : list Z :=
  match list_find (eq x) xs with Some (i, _) => removed xs i | None => xs end.

Definition addEventSource (l : loop) (x : Z) : outcome loop :=
  let l := with_sources l (l_sources l ++ [x]) (l_removed l) in on_source l x (setRunLoop true).

(** The adding to the set of removed sources leaves one that is there alone. *)
Definition removeEventSource (onThread : bool) (l : loop) (x : Z) : outcome loop :=
  if onThread && l_doingStep l
  then Ok (with_sources l (l_sources l) (if bool_decide (x ∈ l_removed l) then l_removed l else l_removed l ++ [x]))
  else
    let* l := on_source l x (setRunLoop false) in
    Ok (with_sources l (remove_object (l_sources l) x) (l_removed l)).

Definition disable (s : source) : source := Source false (so_attached s) (so_kind s).
Definition advance (current : Z) (s : source) : source :=
  match so_kind s with Timer _ i r => Source (so_enabled s) (so_attached s) (Timer (u64 (current + i)) i r) | Other => s end.

Section Running.
(** What the action of a source does to the loop. *)
Variable action : Z -> loop -> outcome loop.

Definition run_action (l : loop) (x : Z) : outcome loop :=
  action x (Loop (l_sources l) (l_removed l) (l_nextStep l) (l_doingStep l) (l_store l) (l_worked l ++ [x])).

(** The virtual [doWork], [current] being the time. *)
Definition doWork (current : Z) (l : loop) (x : Z) : outcome loop :=
  let* s := of_option (l_store l !! x) in
  match so_kind s with
  | Other => run_action l x
  | Timer fireDate _ repeats =>
      if fireDate <? current then
        let* l := run_action l x in
        if negb repeats then
          let* l := on_source l x disable in removeEventSource true l x
        else on_source l x (advance current)
      else Ok l
  end.

Definition next_step (now : Z) (l : loop) (x : Z) : outcome loop :=
  let* s := of_option (l_store l !! x) in
  match so_kind s with
  | Other => Ok l
  | Timer fireDate _ _ => let d := u64 (fireDate - now) in Ok (if d <? l_nextStep l then with_next l d else l)
  end.

(** [for(size_t i=0; i<_eventSources->count(); i++)] *)
Fixpoint work_from (fuel : nat) (now : Z) (i : nat) (l : loop) : outcome loop :=
  match l_sources l !! i with
  | None => Ok l
  | Some x =>
      match fuel with
      | O => Hang
      | S f =>
          let* s := of_option (l_store l !! x) in
          let* l := if so_enabled s then let* l := doWork now l x in next_step now l x else Ok l in
          work_from f now (S i) l
      end
  end.

Fixpoint take_out (xs : list Z) (l : loop) : outcome loop :=
  match xs with
  | [] => Ok l
  | x :: xs' =>
      let* l := on_source l x (setRunLoop false) in
      take_out xs' (with_sources l (remove_object (l_sources l) x) (l_removed l))
  end.

(** The actions may add sources: [fuel] bounds the rounds. *)
Definition processEventSources (fuel : nat) (now : Z) (l : loop) : outcome loop :=
  let* l := work_from fuel now 0 l in
  let* l := take_out (l_removed l) l in
  Ok (with_sources l (l_sources l) []).

Definition step (fuel : nat) (now : Z) (l : loop) : outcome loop :=
  let* l := processEventSources fuel now (doing l true) in Ok (doing l false).
End Running.

(** *** One round *)

(** A source works in a round at [now]. *)
Definition due (now : Z) (st : gmap Z source) (x : Z) : bool :=
  match st !! x with
  | Some s => so_enabled s && match so_kind s with Other => true | Timer d _ _ => d <? now end
  | None => false
  end.

Definition once (st : gmap Z source) (x : Z) : bool :=
  match st !! x with Some s => match so_kind s with Timer _ _ false => true | _ => false end | None => false end.

(** Actions that leave the loop alone. *)
Definition quiet : Z -> loop -> outcome loop := fun _ l => Ok l.

(** What the work of [x] at [now] makes of the source. *)
Definition after (now : Z) (s : source) : source :=
  match so_kind s with Timer _ _ false => disable s | Timer _ _ true => advance now s | Other => s end.

Lemma work_one now l x s : l_store l !! x = Some s -> so_enabled s = true -> l_doingStep l = true -> x ∉ l_removed l ->
  exists n, (let* l := doWork quiet now l x in next_step now l x) =
    Ok (Loop (l_sources l) (l_removed l ++ (if due now (l_store l) x && once (l_store l) x then [x] else [])) n true
          (if due now (l_store l) x then <[x := after now s]> (l_store l) else l_store l)
          (l_worked l ++ (if due now (l_store l) x then [x] else []))).
Proof.
  intros E He Hd Hr. unfold doWork, next_step, due, once, after. rewrite E, He. cbn [of_option obind andb].
  destruct l as [ss rs n ds st wk]. cbn in *. subst ds. destruct (so_kind s) as [|fd fi rep] eqn:Ek; cbn.
  - rewrite E. cbn. rewrite Ek. exists n. rewrite insert_id by done. by rewrite app_nil_r.
  - destruct (fd <? now) eqn:Ef; cbn.
    + destruct rep; cbn; unfold on_source; cbn; rewrite E; cbn.
      * rewrite lookup_insert_eq. cbn. unfold advance. rewrite Ek. cbn. rewrite app_nil_r. destruct (_ <? n); eexists; cbn; done.
      * rewrite bool_decide_eq_false_2 by done. rewrite lookup_insert_eq. cbn. unfold disable. rewrite Ek. cbn. destruct (_ <? n); eexists; cbn; done.
    + rewrite E. cbn. rewrite Ek. cbn. rewrite !app_nil_r. destruct (_ <? n); eexists; cbn; done.
Qed.

Lemma due_insert now st x y s : x <> y -> due now (<[x := s]> st) y = due now st y /\ once (<[x := s]> st) y = once st y.
Proof. intros Hne. unfold due, once. by rewrite lookup_insert_ne. Qed.

Lemma work_all now : forall xs pre l fuel, l_sources l = pre ++ xs -> NoDup xs -> (forall x, x ∈ xs -> is_Some (l_store l !! x)) ->
  l_doingStep l = true -> (forall x, x ∈ xs -> x ∉ l_removed l) -> (length xs <= fuel)%nat ->
  exists l', work_from quiet fuel now (length pre) l = Ok l' /\ l_sources l' = l_sources l /\
    l_worked l' = l_worked l ++ List.filter (due now (l_store l)) xs /\
    l_removed l' = l_removed l ++ List.filter (fun x => due now (l_store l) x && once (l_store l) x) xs /\
    (forall y, l_store l' !! y = if bool_decide (y ∈ xs) && due now (l_store l) y then after now <$> l_store l !! y else l_store l !! y).
Proof.
  induction xs as [|x xs IH]; intros pre l fuel Hs Hnd Hst Hd Hr Hf.
  { exists l. assert (E : l_sources l !! length pre = None) by (rewrite Hs; apply lookup_ge_None; rewrite app_nil_r; lia).
    destruct fuel; cbn [work_from]; rewrite E; rewrite !app_nil_r; done. }
  apply NoDup_cons in Hnd as [Hx Hnd]. destruct fuel as [|fuel]; [cbn in Hf; lia|]. cbn [work_from].
  assert (Ex : l_sources l !! length pre = Some x) by (rewrite Hs; by apply list_lookup_middle). rewrite Ex.
  destruct (Hst x) as [s E]; [apply elem_of_cons; by left|]. rewrite E. cbn [of_option obind].
  assert (Hnx : x ∉ l_removed l) by (apply Hr, elem_of_cons; by left).
  set (B := due now (l_store l) x). set (O := once (l_store l) x).
  assert (Hone : exists n, (if so_enabled s then let* l := doWork quiet now l x in next_step now l x else Ok l) =
    Ok (Loop (l_sources l) (l_removed l ++ (if B && O then [x] else [])) n true (if B then <[x := after now s]> (l_store l) else l_store l)
          (l_worked l ++ (if B then [x] else [])))).
  { destruct (so_enabled s) eqn:He; [by apply work_one|]. exists (l_nextStep l). subst B. unfold due. rewrite E, He. cbn.
    rewrite !app_nil_r. destruct l. cbn in *. by subst. }
  destruct Hone as [n ->]. cbn [obind].
  set (l1 := Loop _ _ _ _ _ _).
  assert (Hsame : forall y, y ∈ xs -> due now (l_store l1) y = due now (l_store l) y /\ once (l_store l1) y = once (l_store l) y).
  { intros y Hy. subst l1. cbn. destruct B; [|done]. apply due_insert. by intros ->. }
  destruct (IH (pre ++ [x]) l1 fuel) as (l' & E' & Hs' & Hw' & Hr' & Hst'); try done.
  - subst l1. cbn. by rewrite Hs, <- app_assoc.
  - intros y Hy. subst l1. cbn. destruct B; [apply lookup_insert_is_Some'; right|]; apply Hst, elem_of_cons; by right.
  - intros y Hy. subst l1. cbn. rewrite elem_of_app. intros [Hin|Hin]; [by eapply Hr; [apply elem_of_cons; by right|]|].
    destruct (B && O); [apply list_elem_of_singleton in Hin; by subst|by apply elem_of_nil in Hin].
  - cbn in Hf. lia.
  - exists l'. rewrite length_app, Nat.add_1_r in E'. split; [done|]. split_and!; [done| | |].
    + rewrite Hw', (List.filter_ext_in _ (due now (l_store l)) xs) by (intros y Hy%list_elem_of_In; by apply Hsame).
      subst l1. cbn. rewrite <- app_assoc. fold B. by destruct B.
    + rewrite Hr', (List.filter_ext_in _ (fun y => due now (l_store l) y && once (l_store l) y) xs)
        by (intros y Hy%list_elem_of_In; by destruct (Hsame y Hy) as [-> ->]).
      subst l1. cbn. rewrite <- app_assoc. fold B O. by destruct (B && O).
    + intros y. rewrite Hst'. destruct (decide (y = x)) as [->|Hne].
      * rewrite (bool_decide_eq_false_2 (x ∈ xs)), (bool_decide_eq_true_2 (x ∈ x :: xs)) by (done || apply elem_of_cons; by left).
        cbn [andb]. fold B. subst l1. cbn. destruct B; [by rewrite lookup_insert_eq, E|done].
      * assert (Hyx : l_store l1 !! y = l_store l !! y) by (subst l1; cbn; destruct B; [by rewrite lookup_insert_ne|done]).
        rewrite Hyx. destruct (decide (y ∈ xs)) as [Hy|Hy].
        -- rewrite (proj1 (Hsame y Hy)), (bool_decide_eq_true_2 (y ∈ xs)), (bool_decide_eq_true_2 (y ∈ x :: xs)) by (done || (apply elem_of_cons; by right)). done.
        -- rewrite (bool_decide_eq_false_2 (y ∈ xs)), (bool_decide_eq_false_2 (y ∈ x :: xs)) by (done || by rewrite not_elem_of_cons). done.
Qed.

Lemma take_out_spec : forall xs l, NoDup xs -> (forall x, x ∈ xs -> is_Some (l_store l !! x)) ->
  exists l', take_out xs l = Ok l' /\ l_worked l' = l_worked l /\
    forall y, l_store l' !! y = if bool_decide (y ∈ xs) then setRunLoop false <$> l_store l !! y else l_store l !! y.
Proof.
  induction xs as [|x xs IH]; intros l Hnd Hst; cbn [take_out]; [by exists l|]. apply NoDup_cons in Hnd as [Hx Hnd].
  destruct (Hst x) as [s E]; [apply elem_of_cons; by left|]. unfold on_source. rewrite E. cbn [of_option obind].
  edestruct IH as (l' & -> & Hw & Hs); [done| |].
  { intros y Hy. cbn. apply lookup_insert_is_Some'. right. apply Hst, elem_of_cons. by right. }
  exists l'. split_and!; [done|done|]. intros y. rewrite Hs. cbn. destruct (decide (y = x)) as [->|Hne].
  - rewrite (bool_decide_eq_false_2 (x ∈ xs)), (bool_decide_eq_true_2 (x ∈ x :: xs)) by (done || apply elem_of_cons; by left).
    by rewrite lookup_insert_eq, E.
  - rewrite lookup_insert_ne by done. destruct (decide (y ∈ xs)).
    + by rewrite !bool_decide_eq_true_2 by (done || (apply elem_of_cons; by right)).
    + by rewrite !bool_decide_eq_false_2 by (done || by rewrite not_elem_of_cons).
Qed.

(** a round of the loop, when no action touches it, runs the actions of exactly
    the enabled sources whose time has come, each once and in the order of the
    sources.  A timer that does not repeat is then disabled and off the loop; one
    that does is set to its interval from now. *)
Theorem step_runs_due now l fuel : NoDup (l_sources l) -> (forall x, x ∈ l_sources l -> is_Some (l_store l !! x)) ->
  l_removed l = [] -> (length (l_sources l) <= fuel)%nat ->
  exists l', step quiet fuel now l = Ok l' /\ l_worked l' = l_worked l ++ List.filter (due now (l_store l)) (l_sources l) /\
    forall x s, x ∈ l_sources l -> l_store l !! x = Some s -> due now (l_store l) x = true ->
      match so_kind s with
      | Timer _ _ false => l_store l' !! x = Some (Source false false (so_kind s))
      | Timer _ i true => l_store l' !! x = Some (Source true (so_attached s) (Timer (u64 (now + i)) i true))
      | Other => l_store l' !! x = Some s
      end.
Proof.
  intros Hnd Hst Hr Hf. unfold step, processEventSources.
  destruct (work_all now (l_sources l) [] (doing l true) fuel) as (l1 & E1 & Hs1 & Hw1 & Hr1 & Hst1); try done.
  { intros x _. cbn. rewrite Hr. apply not_elem_of_nil. }
  change (length ([] : list Z)) with 0%nat in E1. rewrite E1. cbn [obind]. cbn in Hr1, Hw1, Hst1. rewrite Hr in Hr1. cbn in Hr1.
  destruct (take_out_spec (l_removed l1) l1) as (l2 & -> & Hw2 & Hst2).
  { rewrite Hr1. by apply NoDup_ListNoDup, List.NoDup_filter, NoDup_ListNoDup. }
  { intros x Hx. rewrite Hr1 in Hx. apply list_elem_of_In, List.filter_In in Hx as [Hx%list_elem_of_In _]. rewrite Hst1.
    destruct (Hst x Hx) as [s ->]. destruct (_ && _); by eexists. }
  cbn [obind]. eexists. split; [done|]. split; [by cbn; rewrite Hw2|]. intros x s Hx Es Hdue. cbn. rewrite Hst2, Hst1, Es, Hdue.
  rewrite (bool_decide_eq_true_2 (x ∈ l_sources l)) by done. cbn [andb fmap option_fmap option_map].
  assert (Hin : x ∈ l_removed l1 <-> once (l_store l) x = true).
  { rewrite Hr1, list_elem_of_In, List.filter_In, <- list_elem_of_In, Hdue. cbn. tauto. }
  unfold once in Hin. rewrite Es in Hin. unfold due in Hdue. rewrite Es in Hdue. apply andb_prop in Hdue as [Hen _].
  unfold after. destruct (so_kind s) as [|fd fi []] eqn:Ek.
  - rewrite bool_decide_eq_false_2 by (by rewrite Hin). done.
  - rewrite bool_decide_eq_false_2 by (by rewrite Hin). unfold advance. by rewrite Ek, Hen.
  - rewrite bool_decide_eq_true_2 by (by apply Hin). unfold setRunLoop, disable. cbn. by rewrite ?Ek.
Qed.

(** *** A concrete loop *)

(** Four sources at 1 to 4; the first is a timer that is due and does not repeat. *)
Definition four : loop :=
  Loop [1; 2; 3; 4] [] 100 false
    (<[1 := Source true true (Timer 10 5 false)]> (<[2 := Source true true (Timer 90 5 true)]> (<[3 := Source true true Other]> {[4 := Source true true Other]}))) [].

Lemma step_runs_due_witness : exists l', step quiet 4 50 four = Ok l' /\ l_worked l' = [1; 3; 4].
Proof.
  destruct (step_runs_due 50 four 4) as (l' & E & Hw & _); [by apply (bool_decide_unpack _)| |done|cbn; lia|by exists l'].
  intros x Hx. cbn in Hx. rewrite !elem_of_cons, elem_of_nil in Hx. destruct Hx as [->|[->|[->|[->|[]]]]]; by eexists.
Defined.

(** The timer's removal from the array of sources repeats its neighbour and drops
    the last source, which stays enabled but never works again. *)
Lemma removal_loses_source :
  match step quiet 4 50 four with Ok l' => (l_sources l', so_enabled <$> l_store l' !! 4) | _ => ([], None) end = ([2; 2; 3], Some true).
Proof. by vm_compute. Qed.
End RunLoop.
