(* ===== verification/IoDatabase.v ===== *)
(** * The database of classes and services (libkernel/libio/IODatabase.cpp)

    Every class of the object library publishes its symbol under its name; drivers
    register classes that serve a family of devices, with the properties a device
    must have, and look for the class that fits a device best.  Symbols are in a
    dictionary of pointers by their names, services in a dictionary of arrays by
    the family.  The best match is shown to be the first entry with the highest
    score. *)

From S2P Require Import Prelude Pages HeapSpec CellHeap Block Array HashSet IoObject IoArray IoDictionary.

Definition sizeof_IOString : Z := 24.
Definition sizeof_IODatabaseEntry : Z := 24.
Definition kIOReturnSuccess : Z := 0.

(** The fields of the database and the two keys of attributes; [db_names] has the
    name, a string, of every symbol. *)
Record database := Database {
  db_symbols : Z; db_services : Z; db_symbolsFixed : bool; db_dictionaryFixed : bool; db_stringSymbol : Z;
  db_family : Z; db_properties : Z; db_names : gmap Z Z
}.

Definition str_IOString : list Z := [73; 79; 83; 116; 114; 105; 110; 103].
Definition str_IOPointerDictionary : list Z :=
  [95; 95; 73; 79; 80; 111; 105; 110; 116; 101; 114; 68; 105; 99; 116; 105; 111; 110; 97; 114; 121].

Section Database.
Context {H : Type} `{KernelHeap H}.
Implicit Types w : world H.

(** The symbols of the classes the database allocates. *)
Variables (IOStringSymbol IOArraySymbol IODictionarySymbol IODatabaseEntrySymbol : Z).

(** ** Symbols *)

Definition symbolWithName w (db : database) (name : Z) : outcome Z := __IOPointerDictionary_pointerForKey w (db_symbols db) name.

Definition symbolWithCName w (db : database) (name : list Z) : outcome (Z * world H) :=
  let* (p, w) := alloc w sizeof_IOString IOStringSymbol (StringFields NULL []) in
  let* (string, w) := IOString_initWithCString w p name in
  let* symbol := symbolWithName w db string in
  let* w := release w string in
  Ok (symbol, w).

(** Strings published before their own class get its symbol now. *)
Definition set_symbol w (p symbol : Z) : outcome (world H) :=
  let* o := object_at w p in Ok (set_object w p (Object symbol (ob_retain o) (ob_fields o))).

Fixpoint fix_chain (fuel : nat) w (symbol b : Z) : outcome (world H) :=
  if b =? NULL then Ok w else
  match fuel with
  | O => Hang
  | S f =>
      let* bk := bucket_at w b in
      let* w := if b_key bk =? NULL then Ok w else set_symbol w (b_key bk) symbol in
      fix_chain f w symbol (b_overflow bk)
  end.

Fixpoint fix_chains (n : nat) w (cells : block) (i symbol : Z) : outcome (world H) :=
  match n with
  | O => Ok w
  | S n' =>
      let* b := cell_get cells i in
      let* w := fix_chain (S (size (w_buckets w))) w symbol b in
      fix_chains n' w cells (i + 1) symbol
  end.

Definition fixSymbols w (db : database) (symbol : Z) : outcome (world H) :=
  let* d := table_at w (db_symbols db) in fix_chains (Z.to_nat (hs_capacity d)) w (hs_cells d) 0 symbol.

(** The two attribute names are made when the class of strings is published. *)
Definition new_string w (text : list Z) : outcome (Z * world H) :=
  let* (p, w) := alloc w sizeof_IOString IOStringSymbol (StringFields NULL []) in IOString_initWithCString w p text.

Definition publishSymbol (family properties : list Z) w (db : database) (symbol : Z) : outcome (bool * database * world H) :=
  let* key := of_option (db_names db !! symbol) in
  let* present := __IOPointerDictionary_pointerForKey w (db_symbols db) key in
  let exists_ := negb (present =? NULL) in
  let* w := if exists_ then Ok w else __IOPointerDictionary_setPointerForKey w (db_symbols db) symbol key in
  let* name := string_text w key in
  let* (db, w) :=
    if db_symbolsFixed db then let* w := set_symbol w key (db_stringSymbol db) in Ok (db, w)
    else if bool_decide (name = str_IOString) then
      let* w := fixSymbols w db symbol in
      let* (f, w) := new_string w family in
      let* (p, w) := new_string w properties in
      Ok (Database (db_symbols db) (db_services db) true (db_dictionaryFixed db) symbol f p (db_names db), w)
    else Ok (db, w) in
  let* (db, w) :=
    if negb (db_dictionaryFixed db) && negb (bool_decide (name = str_IOPointerDictionary)) then
      let* w := set_symbol w (db_symbols db) symbol in
      Ok (Database (db_symbols db) (db_services db) (db_symbolsFixed db) true (db_stringSymbol db) (db_family db) (db_properties db) (db_names db), w)
    else Ok (db, w) in
  Ok (negb exists_, db, w).

(** ** Services *)

(** [IODatabaseEntry::withSymbolAndAttributes], which leaves the entry to the pool. *)
Section Running.
Variables (IONumberSymbol __IOThreadDictionary id : Z).

Definition withSymbolAndAttributes w (symbol attributes : Z) : outcome (Z * world H) :=
  let* (entry, w) := alloc w sizeof_IODatabaseEntry IODatabaseEntrySymbol (EntryFields NULL NULL) in
  let* w := retain w attributes in
  let* w := set_fields w entry (EntryFields symbol attributes) in
  let* w := autorelease IONumberSymbol __IOThreadDictionary id w entry in
  Ok (entry, w).

Definition registerService w (db : database) (symbol attributes : Z) : outcome (Z * database * world H) :=
  let* (services, w) :=
    if db_services db =? NULL then
      let* (p, w) := alloc w sizeof_IODictionary IODictionarySymbol (OfDictionary (Hashset 0 0 NULL [] false)) in
      let* (_, w) := IODictionary_init w p in Ok (p, w)
    else Ok (db_services db, w) in
  let db := Database (db_symbols db) services (db_symbolsFixed db) (db_dictionaryFixed db) (db_stringSymbol db) (db_family db) (db_properties db) (db_names db) in
  let* family := IODictionary_objectForKey w attributes (db_family db) in
  let* familyServices := IODictionary_objectForKey w services family in
  let* (familyServices, w) :=
    if familyServices =? NULL then
      let* (p, w) := alloc w sizeof_IOArray IOArraySymbol (OfArray (ArrayFields NULL [] 0 0 0)) in
      let* (a, w) := IOArray_init w p in
      let* w := IODictionary_setObjectForKey w services a family in
      let* w := release w a in
      Ok (a, w)
    else Ok (familyServices, w) in
  let* (entry, w) := withSymbolAndAttributes w symbol attributes in
  let* w := IOArray_addObject w familyServices entry in
  Ok (kIOReturnSuccess, db, w).
End Running.

(** [while((key = iterator->nextObject()))]; an iteration visits each bucket once,
    so the number of buckets is enough. *)
Fixpoint score_keys (fuel : nat) w (properties own : Z) (it : iterator) (score : Z) : outcome Z :=
  let* (key, it) := nextObject w true own it in
  if key =? NULL then Ok score else
  match fuel with
  | O => Hang
  | S f =>
      let* object := IODictionary_objectForKey w properties key in
      let* _object := IODictionary_objectForKey w own key in
      let* same := if object =? NULL then Ok true else isEqual w object _object in
      if same then score_keys f w properties own it (u32 (score + 1)) else Ok 0
  end.

Definition scoreForAttributes w (db : database) (own attributes : Z) : outcome Z :=
  let* properties := IODictionary_objectForKey w attributes (db_properties db) in
  let* _properties := IODictionary_objectForKey w own (db_properties db) in
  if (properties =? NULL) || (_properties =? NULL) then Ok 1
  else score_keys (S (size (w_buckets w))) w properties _properties (Iterator NULL 0) 1.

Definition entry_at w (p : Z) : outcome (Z * Z) :=
  let* o := object_at w p in match ob_fields o with EntryFields symbol attributes => Ok (symbol, attributes) | _ => Fault end.

(** [for(uint32_t i=0; i<services->count(); i++)] *)
Fixpoint best_from (n : nat) w (db : database) (services i attributes bestMatch bestScore : Z) : outcome (Z * Z) :=
  match n with
  | O => Ok (bestMatch, bestScore)
  | S n' =>
      let* entry := IOArray_objectAtIndex w services i in
      let* (symbol, own) := entry_at w entry in
      let* score := scoreForAttributes w db own attributes in
      if bestScore <? score then best_from n' w db services (i + 1) attributes symbol score
      else best_from n' w db services (i + 1) attributes bestMatch bestScore
  end.

(** [serviceMatchingAttributes] up to the choice of the class; null for none. *)
Definition bestService w (db : database) (attributes : Z) : outcome Z :=
  if db_services db =? NULL then Ok NULL else
  let* family := IODictionary_objectForKey w attributes (db_family db) in
  let* services := IODictionary_objectForKey w (db_services db) family in
  if services =? NULL then Ok NULL else
  let* count := IOArray_count w services in
  let* (best, _) := best_from (Z.to_nat count) w db services 0 attributes NULL 0 in Ok best.
End Database.

(** ** The best match *)

(** The first element with the highest score above [s], else [x]. *)
Fixpoint first_best (xs : list (Z * Z)) (x s : Z) : Z * Z :=
  match xs with
  | [] => (x, s)
  | (y, t) :: xs' => if s <? t then first_best xs' y t else first_best xs' x s
  end.

Lemma first_best_spec : forall xs x s, let '(y, t) := first_best xs x s in
  (forall z u, (z, u) ∈ xs -> u <= t) /\ s <= t /\
  (t = s /\ y = x \/ exists i, xs !! i = Some (y, t) /\ s < t /\ forall j z u, (j < i)%nat -> xs !! j = Some (z, u) -> u < t).
Proof.
  induction xs as [|[y t] xs IH]; intros x s; cbn.
  - split_and!; [by intros z u ?%elem_of_nil|lia|by left].
  - destruct (Z.ltb_spec s t) as [Hlt|Hge].
    + specialize (IH y t). destruct (first_best xs y t) as [b m]. destruct IH as (Hall & Htm & Hcase). split_and!; [|lia|].
      { intros z u [[= -> ->]|Hin]%elem_of_cons; [done|by eapply Hall]. }
      right. destruct Hcase as [[-> ->]|(i & Hi & Hlt' & Hb)]; [exists 0%nat; split_and!; [done|done|lia]|].
      exists (S i). split_and!; [done|lia|]. intros [|j] z u Hj; cbn; [intros [= <- <-]; done|]. apply Hb. lia.
    + specialize (IH x s). destruct (first_best xs x s) as [b m]. destruct IH as (Hall & Htm & Hcase). split_and!; [|lia|].
      { intros z u [[= -> ->]|Hin]%elem_of_cons; [lia|by eapply Hall]. }
      destruct Hcase as [?|(i & Hi & Hlt' & Hb)]; [by left|right].
      exists (S i). split_and!; [done|done|]. intros [|j] z u Hj; cbn; [intros [= <- <-]; lia|]. apply Hb. lia.
Qed.

Section Best.
Context {H : Type} `{KernelHeapOk H}.
Implicit Types w : world H.

(** The entry [e] of a family has the class [symbol] and the score [score]. *)
Definition scored w (db : database) (attributes e : Z) (r : Z * Z) : Prop :=
  exists own, entry_at w e = Ok (r.1, own) /\ scoreForAttributes w db own attributes = Ok r.2.

Lemma best_from_spec w db services attributes a es : array_rep w services es a -> Z.of_nat (length es) < 2 ^ 32 - 1 ->
  forall ys rs pre x s, es = pre ++ ys -> Forall2 (scored w db attributes) ys rs ->
  best_from (length ys) w db services (Z.of_nat (length pre)) attributes x s = Ok (first_best rs x s).
Proof.
  intros Hr Hlen. induction ys as [|e ys IH]; intros rs pre x s Hes Hsc; inversion Hsc as [|? [y t] ? rs' (own & Ee & Es) Hsc']; subst; [done|].
  cbn [length best_from first_best]. unfold IOArray_objectAtIndex. rewrite (array_at_rep _ _ _ _ Hr). cbn [obind].
  rewrite (ap_count _ _ _ _ Hr). rewrite length_app in Hlen |- *. cbn in Hlen |- *.
  rewrite (proj2 (Z.eqb_neq (Z.of_nat (length pre)) _)), (proj2 (Z.ltb_lt (Z.of_nat (length pre)) _)) by (try change IONotFound with (2 ^ 32 - 1); lia).
  cbn [negb andb]. rewrite (holds_get _ _ (length pre) e (ap_holds _ _ _ _ Hr)) by (by apply list_lookup_middle). cbn [obind].
  rewrite Ee. cbn in Es. cbn [obind]. rewrite Es. cbn [obind fst].
  replace (Z.of_nat (length pre) + 1) with (Z.of_nat (length (pre ++ [e]))) by (rewrite length_app; cbn; lia).
  destruct (s <? t); apply IH; try done; by rewrite <- app_assoc.
Qed.

(** the class found for a device.  When the entries of the device's family have
    scores, the search returns the class of the first entry whose score is the
    highest, and none when every score is zero. *)
Theorem bestService_first_best w db attributes family services a es rs : db_services db <> NULL ->
  IODictionary_objectForKey w attributes (db_family db) = Ok family -> IODictionary_objectForKey w (db_services db) family = Ok services ->
  services <> NULL -> array_rep w services es a -> Z.of_nat (length es) < 2 ^ 32 - 1 -> Forall2 (scored w db attributes) es rs ->
  exists symbol best, bestService w db attributes = Ok symbol /\ (forall z u, (z, u) ∈ rs -> u <= best) /\
    (best = 0 /\ symbol = NULL \/
     exists i, rs !! i = Some (symbol, best) /\ 0 < best /\ forall j z u, (j < i)%nat -> rs !! j = Some (z, u) -> u < best).
Proof.
  intros Hdb Ef Es Hn Hr Hlen Hsc. unfold bestService. rewrite (proj2 (Z.eqb_neq _ _)) by done. rewrite Ef. cbn [obind]. rewrite Es. cbn [obind].
  rewrite (proj2 (Z.eqb_neq services _)) by done. unfold IOArray_count. rewrite (array_at_rep _ _ _ _ Hr). cbn [obind].
  rewrite (ap_count _ _ _ _ Hr), Nat2Z.id. rewrite (best_from_spec w db services attributes a es Hr Hlen es rs []) by done. cbn [obind].
  pose proof (first_best_spec rs NULL 0) as Hb. destruct (first_best rs NULL 0) as [y t]. exists y, t. split; [done|].
  destruct Hb as (Hall & _ & Hcase). split; [done|]. destruct Hcase as [[-> ->]|Hcase]; [by left|by right].
Qed.
End Best.
